(* ===== verification/_CoqProject ===== *)
-Q . S2P
Prelude.v
Float64.v
PyText.v
FloatText.v
Resources.v
Policies.v
RequestManager.v
Recompute.v
Router.v
RouterLedger.v
RouterFailures.v
RouterTermination.v
RecomputeProps.v
CoordInstanceManager.v
RouterModes.v
RouterCdp.v
RouterCdpFailures.v
Dispatch.v
Metrics.v
WorkloadShm.v
SchedulerServer.v
SchedulerClient.v
CtlInstanceManager.v
EventPusher.v
FaultCodes.v
FaultManager.v
InstanceAssembler.v
NodeConfig.v
IpText.v
NodeManager.v
Standby.v
CoordDaemon.v
Observability.v
ControllerMain.v
ApiKey.v
RateLimiter.v
CoordServers.v
ConfigUtils.v
CtlConfig.v
CoordConfig.v
EngineHealth.v
EngineConfig.v
Certificates.v
HttpClients.v
ZmqProtocol.v
SchedulerLink.v
ConfigWatch.v
NodeMain.v
EtcdClient.v
LogFiles.v
Loggers.v
CoordProcesses.v
SchedulerFrontend.v
Conductor.v
DaemonRun.v
