(* ===== verification/Prelude.v ===== *)
(** * MindIE-PyMotor: a verification library

    MindIE-PyMotor (src/motor/) serves large language models on a cluster of prefill
    and decode instances.  A _controller_ registers node managers, assembles their
    endpoints into instances, watches heartbeats and hardware faults, and tells the
    _coordinator_ which instances are usable.  The coordinator is several processes: a
    _scheduler_ process that holds the pools and their workloads, a management process
    that feeds it, and inference _workers_ that select instances, forward requests
    through a router, and charge and refund workload.  On every node a _node manager_
    starts _engine servers_, watches them and sends heartbeats.  This library is a shallow
    embedding of that code: pure functions are Rocq functions, stateful code runs in the
    state and exception monad [M] of this file, and the interleaving of threads and
    processes is given by sequences or step relations.

    ** The parts

    Foundations.
    - [Prelude]: Python outcomes ([py]), the monad [M] with [try], [except] and
      [finally], Hoare triples, insertion-ordered dictionaries, reachability.
    - [Float64]: the binary64 arithmetic of Python floats, over [SpecFloat];
      [FloatText]: their decimal text.
    - [PyText]: strings, [int] and its round trip, JSON values and their accessors;
      [IpText]: [ipaddress].

    Coordinator.
    - [Resources] (common/resources/endpoint.py, instance.py): workloads, endpoints,
      instances and the versioned endpoint cache.
    - [Policies] (coordinator/scheduler/policy/): load balance, round robin, KV-cache
      affinity and the selection facade.
    - [RequestManager] (domain/request_manager.py, domain/workload_calculator.py,
      router/workload.py, models/request.py): request records, demand and the
      allocate/release action handler.
    - [CoordInstanceManager] (domain/instance_manager.py): the pools, ADD/DEL/SET, and
      workload updates.
    - [WorkloadShm] (scheduler/runtime/workload_shm/): byte layout, writer and reader of
      the shared memory through which workers see workloads.
    - [SchedulerServer] (scheduler/scheduler.py, runtime/scheduler_server.py),
      [SchedulerClient] (runtime/scheduler_client.py) and [ZmqProtocol]
      (runtime/zmq_protocol.py): both ends of the scheduler and the messages between;
      [SchedulerFrontend] (runtime/scheduler_server.py): frames, the answer to every request
      and the end of the process; [SchedulerLink] (runtime/scheduler_client.py): the
      connection of a worker, its requests and reconnections.
    - [Conductor] (api_client/conductor_api_client.py, scheduler/policy/kv_cache_affinity.py
      and utils.py): what the conductor of the KV caches is told and asked, and the choice on
      the JSON it answers.
    - [Recompute], [RecomputeProps] (router/recompute/, router/adapters/): chunk
      rewriting, token caches and the preparation of a recomputation.
    - [Router] with [RouterLedger], [RouterFailures] and [RouterTermination]
      (router/strategies/base.py, pd_separate.py), [RouterModes] (pd_hybrid.py,
      pd_dual_dispatch.py) and [RouterCdp], [RouterCdpFailures] (cdp_separate.py): the life
      of a request.  What scheduler, engines and client do is an environment asked at every
      [await]; every change of workload the scheduler applied is kept in a ledger.
    - [Dispatch] (router/dispatch.py, common/http/security_utils.py): from the HTTP
      request to a router.  [CoordServers] (api_server/): routes and their answers.
    - [ApiKey] (common/http/key_encryption.py and the key check) and [RateLimiter]
      (coordinator/middleware/).
    - [Metrics] (coordinator/metrics/): parsing, aggregating and printing metrics.
    - [CoordDaemon] (coordinator/daemon/, process/, domain/probe.py): supervision of the
      processes and the probes; [DaemonRun]: its whole run, with
      the callbacks of [Standby]; [CoordProcesses] (process/): the entry points of the
      processes.

    Controller.
    - [CtlInstanceManager] (controller/core/instance_manager.py, observer.py,
      common/etcd/persistent_state.py), [InstanceAssembler]
      (core/instance_assembler.py), [EventPusher] (core/event_pusher.py),
      [FaultCodes] and [FaultManager] (controller/fault_tolerance/), [Observability]
      (controller/observability/), [ControllerMain] (controller/main.py and the routes).
    - [Standby] (common/standby/): election of the master, for both managers.

    Nodes.
    - [NodeConfig] (config/node_manager.py), [NodeManager] (node_manager/core/, the API of the
      node) and [NodeMain] (node_manager/main.py): the process, from its start to its end.
    - [EngineConfig] (config/endpoint.py, engine_server/core/vllm, core/sglang) and
      [EngineHealth] (engine_server/core/sim_inference.py and its status route).

    Shared.
    - [ConfigUtils], [CtlConfig], [CoordConfig] (config/): configuration files.
    - [Certificates] (common/http/cert_util.py) and [HttpClients]
      (common/http/http_client.py): TLS contexts and the pool of HTTP clients.
    - [ConfigWatch] (common/utils/config_watcher.py): hot reload.
    - [EtcdClient] (common/etcd/etcd_client.py): the values and states kept in etcd.
    - [LogFiles] and [Loggers] (common/logger/): rotation, compression and clean-up of log
      files; loggers, levels and filters.

    Parts interact as in the code: the scheduler's handlers run the pools and write the
    shared memory; the client's cache is patched from the bytes the server wrote; the
    router calls the action handler of [RequestManager]; fault manager and assembler
    call the controller's instance manager, which notifies the event pusher and the
    fault manager back; the pusher's messages drive a model of the coordinator's pools;
    the start command the controller builds is taken by the node manager, and the command
    line the node manager builds is parsed by the engine server.

    ** What the theorems show

    - Refinement: shared memory mirrors the pools and a client reads the same workloads
      ([shm_mirrors_pools], [client_sees_pool_workloads]); the controller's instance
      manager refines an abstract life cycle ([ctl_refines_lifecycle]); a node manager
      accepts its own start command ([own_start_command_accepted]); what is written to etcd
      is one update of a map ([state_write_refines], [write_outcome]); the choice by the
      conductor's JSON is the abstract one ([affinity_refines]).
    - Requests between processes: [request_answered] for the scheduler, [answered_iff] for the
      connection of a worker, [client_of_request] and [no_client_leaks] for HTTP clients.
    - What is charged is given back: [handler_ledger_balanced] for the action handler;
      [request_settled], [hybrid_and_dual_settled] and [cdp_decode_settled] for whole
      requests, in exact binary64; and the runs that leak, proved as such
      ([partial_frame_leaks], [cancelled_stream_leaks], [cdp_failure_leaks]).
    - Termination and the end of processes: [stream_terminates], [start_command_terminates],
      [node_manager_ends], [node_manager_leaves], [main_sees_suicide], [worker_life]; and a loop that need
      not end, [nonstream_recompute_never_ends].
    - Isolation of faulty hardware: [separated_iff_severe], [not_ready_isolates],
      [separated_stays_out], [coordinator_view_exact].
    - Election and supervision: [at_most_one_master], [only_master_runs],
      [one_coordinator_serves], [daemon_leaves_nothing], [restart_rate],
      [suicide_flag_iff], [sim_abnormal_iff], [status_iff].
    - Security: [request_admitted_iff], [path_accepted_iff_safe], [client_sees_no_token_ids],
      [ssl_context_iff], [strict_context_safe].
    - Selection: the policies pick a best or next instance, and only known ones.
    - Text, bytes and messages: frames do not depend on chunk boundaries, metrics, keys,
      certificate times, scheduler messages and command lines are read back as written
      ([metrics_text_roundtrip], [key_roundtrip], [time_roundtrip], [message_roundtrip],
      [own_engine_accepted]).
    - Persistence and configuration: restore after persist, on both managers; what a
      configuration file sets, and that saving and loading agree ([coordinator_stays_valid],
      [controller_values], [coordinator_save_load], [persisted_is_restored]).
    - Logs: [no_line_lost] over all interleavings of rotation, compression and clean-up,
      [cleanup_bounds], [configured_level_applies].

    ** Bounds and fuel

    Loops of the code that are not structural take fuel: [stream_while] and its like
    need more than the recomputations left, proved by [stream_terminates];
    [split_frames] takes the length of the bytes, proved enough by [split_fuel];
    [utf8_valid] and [remove_all] the length of the string; [resolve_refs] the depth of the
    message, proved enough by [message_roundtrip].  Integers are unbounded as in Python;
    shared-memory fields are at their width.  Floats are binary64 with rounding to nearest
    even.

    ** Not modelled

    - Transport and third-party code: sockets, ZMQ, uvicorn and httpx, the etcd service and
      the Kubernetes client, msgpack, OpenSSL, tokenizers, vLLM and SGLang are arguments or
      outcomes of an environment.
    - Tracing (coordinator/tracer/), which changes no state of the program, and the summaries
      and samples the configurations print.
    - The inference routes of the engine server, which hand requests to vLLM or SGLang.
    - The scripts under src/examples/, which generate deployments and collect logs. *)

From stdpp Require Import base option list strings relations.
From Stdlib Require Import ZArith Lia.

#[global] Set Default Goal Selector "!".

(** ** Python exceptions and the error monad *)

(** The exception classes the modelled code raises or lets escape.  [TransportError]
    stands for what the HTTP client raises, with the status of a bad response; [CancelledError] is the only one that is
    not an [Exception] ([GeneratorExit] is not told apart from it). *)
Inductive pyexn :=
| ValueError
| KeyError
| TypeError
| IndexError
| RuntimeError
| ZeroDivisionError
| AttributeError
| StructError
| OverflowError
| HTTPException (code : Z)
| TransportError (status : option Z)
| DecodeTransportRetry
| CancelledError.

#[global] Instance pyexn_eq_dec : EqDecision pyexn.
Proof. solve_decision. Defined.

(** The outcome of a Python call: a value, or an exception that escapes. *)
Inductive py (A : Type) :=
| Ret (a : A)
| Raise (e : pyexn).
Arguments Ret {A} _.
Arguments Raise {A} _.

#[global] Instance py_ret : MRet py := λ A a, Ret a.
#[global] Instance py_bind : MBind py := λ A B k m,
  match m with Ret a => k a | Raise e => Raise e end.

Definition is_ret {A} (m : py A) : bool :=
  match m with Ret _ => true | Raise _ => false end.

Lemma bind_Ret {A B} (x : py A) (k : A → py B) b :
  x ≫= k = Ret b ↔ ∃ a, x = Ret a ∧ k a = Ret b.
Proof. destruct x as [a|e]; simpl; naive_solver. Qed.
(** [if guard: return d] before [k], for a result other than [d]. *)
Lemma guard_Ret {A} (b : bool) (d : A) (k : py A) (v : A) :
  d ≠ v → (if b then Ret d else k) = Ret v ↔ b = false ∧ k = Ret v.
Proof. destruct b; naive_solver. Qed.

(** ** The state and exception monad

    A method of a mutable object that may raise: it maps the object before to the
    object after and to its outcome.  What was written before an exception stays
    written, as in Python. *)
Definition M (S A : Type) : Type := S → S * py A.

#[global] Instance M_ret {S} : MRet (M S) := λ A a s, (s, Ret a).
#[global] Instance M_bind {S} : MBind (M S) := λ A B k m s,
  match m s with
  | (s', Ret a) => k a s'
  | (s', Raise e) => (s', Raise e)
  end.

Definition mraise {S A} (e : pyexn) : M S A := λ s, (s, Raise e).
Definition mget {S} : M S S := λ s, (s, Ret s).
Definition mmodify {S} (f : S → S) : M S unit := λ s, (f s, Ret tt).
Definition mlift {S A} (m : py A) : M S A := λ s, (s, m).
(** [try: m except Exception: h]. *)
Definition mtry {S A} (m : M S A) (h : pyexn → M S A) : M S A := λ s,
  match m s with
  | (s', Ret a) => (s', Ret a)
  | (s', Raise e) => h e s'
  end.
(** [try: m except Exception as e: h e]: a cancellation passes. *)
Definition mexcept {S A} (m : M S A) (h : pyexn → M S A) : M S A := λ s,
  match m s with
  | (s', Raise CancelledError) => (s', Raise CancelledError)
  | (s', Raise e) => h e s'
  | (s', Ret a) => (s', Ret a)
  end.
(** [try: m finally: f]: [f] runs whatever happened; its own exception wins. *)
Definition mfinally {S A} (m : M S A) (f : M S unit) : M S A := λ s,
  let '(s1, r) := m s in
  match f s1 with
  | (s2, Ret _) => (s2, r)
  | (s2, Raise e) => (s2, Raise e)
  end.
(** [for x in l: f(x)], stopping at the first exception. *)
Fixpoint mfor {S A} (l : list A) (f : A → M S unit) : M S unit :=
  match l with
  | [] => mret tt
  | x :: l' => f x ;; mfor l' f
  end.

Lemma M_bind_Ret {S A B} (m : M S A) (k : A → M S B) s s1 a :
  m s = (s1, Ret a) → (m ≫= k) s = k a s1.
Proof. unfold mbind, M_bind. by intros ->. Qed.

Lemma M_bind_Raise {S A B} (m : M S A) (k : A → M S B) s s1 e :
  m s = (s1, Raise e) → (m ≫= k) s = (s1, Raise e).
Proof. unfold mbind, M_bind. by intros ->. Qed.

(** A computation preserves a predicate of the state, whatever its outcome. *)
Definition preserves {S A} (P : S → Prop) (m : M S A) : Prop := ∀ s, P s → P (m s).1.

Section preserves.
Context {S : Type} (P : S → Prop).

Lemma preserves_ret {A} (a : A) : preserves P (mret a : M S A).
Proof. by intros s. Qed.

Lemma preserves_raise {A} e : preserves P (mraise e : M S A).
Proof. by intros s. Qed.

Lemma preserves_lift {A} (m : py A) : preserves P (mlift m : M S A).
Proof. by intros s. Qed.

Lemma preserves_get : preserves P (mget : M S S).
Proof. by intros s. Qed.

Lemma preserves_modify f : (∀ s, P s → P (f s)) → preserves P (mmodify f).
Proof. intros H s. apply H. Qed.

Lemma preserves_bind {A B} (m : M S A) (k : A → M S B) :
  preserves P m → (∀ a, preserves P (k a)) → preserves P (m ≫= k).
Proof.
  intros Hm Hk s Hs. specialize (Hm s Hs). unfold mbind, M_bind.
  destruct (m s) as [s' [a|e]]; [by apply Hk|done].
Qed.

Lemma preserves_try {A} (m : M S A) h :
  preserves P m → (∀ e, preserves P (h e)) → preserves P (mtry m h).
Proof.
  intros Hm Hh s Hs. specialize (Hm s Hs). unfold mtry.
  destruct (m s) as [s' [a|e]]; [done|by apply Hh].
Qed.

Lemma preserves_except {A} (m : M S A) h :
  preserves P m → (∀ e, preserves P (h e)) → preserves P (mexcept m h).
Proof.
  intros Hm Hh s Hs. specialize (Hm s Hs). unfold mexcept.
  destruct (m s) as [s' [a|e]]; [done|]. destruct e; first [done|by apply Hh].
Qed.

Lemma preserves_finally {A} (m : M S A) f :
  preserves P m → preserves P f → preserves P (mfinally m f).
Proof.
  intros Hm Hf s Hs. specialize (Hm s Hs). unfold mfinally.
  destruct (m s) as [s1 r]. specialize (Hf s1 Hm). by destruct (f s1) as [s2 [u|e]].
Qed.

Lemma preserves_for {A} (l : list A) (f : A → M S unit) :
  (∀ x, x ∈ l → preserves P (f x)) → preserves P (mfor l f).
Proof.
  induction l as [|x l IH]; intros H; simpl; [apply preserves_ret|].
  apply preserves_bind; [apply H; left|]. intros _. apply IH. intros y Hy. apply H. by right.
Qed.
End preserves.

(** *** Hoare triples

    From states in [P] the computation returns a value and state in [Q] or raises with
    exception and state in [E]. *)
Definition triple {S A} (P : S → Prop) (m : M S A) (Q : A → S → Prop) (E : pyexn → S → Prop) : Prop :=
  ∀ s, P s → match m s with (s', Ret a) => Q a s' | (s', Raise e) => E e s' end.

Section triple.
Context {S : Type}.
Implicit Types (P : S → Prop) (E : pyexn → S → Prop).

Lemma triple_ret {A} (a : A) P (Q : A → S → Prop) E : (∀ s, P s → Q a s) → triple P (mret a) Q E.
Proof. intros H s Hs. by apply H. Qed.

Lemma triple_raise {A} e P (Q : A → S → Prop) E : (∀ s, P s → E e s) → triple P (mraise e) Q E.
Proof. intros H s Hs. by apply H. Qed.

Lemma triple_modify f P Q E : (∀ s, P s → Q tt (f s)) → triple P (mmodify f) Q E.
Proof. intros H s Hs. by apply H. Qed.

Lemma triple_bind {A B} (m : M S A) (k : A → M S B) P R Q E :
  triple P m R E → (∀ a, triple (R a) (k a) Q E) → triple P (m ≫= k) Q E.
Proof.
  intros Hm Hk s Hs. specialize (Hm s Hs). unfold mbind, M_bind. destruct (m s) as [s' [a|e]]; [by apply Hk|done].
Qed.

(** Reading the state: the rest is shown for each state that can be read. *)
Lemma triple_get {B} (k : S → M S B) P Q E :
  (∀ s, P s → triple (λ s', s' = s) (k s) Q E) → triple P (mget ≫= k) Q E.
Proof. intros H s Hs. unfold mbind, M_bind, mget. by apply (H s Hs s). Qed.

Lemma triple_lift {A} (m : py A) P (Q : A → S → Prop) E :
  (∀ s a, P s → m = Ret a → Q a s) → (∀ s e, P s → m = Raise e → E e s) → triple P (mlift m) Q E.
Proof. intros H1 H2 s Hs. unfold mlift. destruct m; auto. Qed.

Lemma triple_conseq {A} (m : M S A) P P' Q Q' E E' :
  triple P' m Q' E' → (∀ s, P s → P' s) → (∀ a s, Q' a s → Q a s) → (∀ e s, E' e s → E e s) → triple P m Q E.
Proof. intros H HP HQ HE s Hs. specialize (H s (HP s Hs)). destruct (m s) as [s' [a|e]]; auto. Qed.

Lemma triple_except {A} (m : M S A) h P Q E E' :
  triple P m Q E' → (∀ s, E' CancelledError s → E CancelledError s) →
  (∀ e, e ≠ CancelledError → triple (E' e) (h e) Q E) → triple P (mexcept m h) Q E.
Proof.
  intros Hm Hc Hh s Hs. specialize (Hm s Hs). unfold mexcept. destruct (m s) as [s' [a|e]]; [done|].
  destruct e; first [by apply Hc|by apply Hh].
Qed.

Lemma triple_finally {A} (m : M S A) f P (Q Q' : A → S → Prop) E E' :
  triple P m Q' E' → (∀ a, triple (Q' a) f (λ _, Q a) E) → (∀ e, triple (E' e) f (λ _, E e) E) →
  triple P (mfinally m f) Q E.
Proof.
  intros Hm Hq He s Hs. specialize (Hm s Hs). unfold mfinally. destruct (m s) as [s1 [a|e]].
  - specialize (Hq a s1 Hm). by destruct (f s1) as [s2 [u|e]].
  - specialize (He e s1 Hm). by destruct (f s1) as [s2 [u|e']].
Qed.

(** Facts that do not depend on the state. *)
Lemma triple_pre {A} (m : M S A) P Q E (H : Prop) : (H → triple P m Q E) → triple (λ s, H ∧ P s) m Q E.
Proof. intros Hm s [Hh Hs]. by apply Hm. Qed.

Lemma triple_state {A} (m : M S A) P Q E : (∀ s, P s → triple (λ s', s' = s) m Q E) → triple P m Q E.
Proof. intros H s Hs. by apply (H s Hs s). Qed.

Lemma triple_apply {A} (m : M S A) P Q E s s' r :
  triple P m Q E → P s → m s = (s', r) → match r with Ret a => Q a s' | Raise e => E e s' end.
Proof. intros H Hs Hm. specialize (H s Hs). rewrite Hm in H. by destruct r. Qed.
End triple.

(** *** Steps that leave a view of the state alone *)

Section unchanged.
Context {S V : Type} (view : S → V).
Definition unchanged {A} (m : M S A) : Prop := ∀ s, view (m s).1 = view s.

Lemma unchanged_same {A} (m : M S A) : (∀ s, (m s).1 = s) → unchanged m.
Proof. intros H s. by rewrite H. Qed.
Lemma unchanged_modify f : (∀ s, view (f s) = view s) → unchanged (mmodify f).
Proof. intros H s. apply H. Qed.
Lemma unchanged_bind {A B} (m : M S A) (k : A → M S B) : unchanged m → (∀ a, unchanged (k a)) → unchanged (m ≫= k).
Proof.
  intros Hm Hk s. specialize (Hm s). unfold mbind, M_bind. destruct (m s) as [s' [a|e]]; [|done].
  by rewrite (Hk a s').
Qed.
Lemma unchanged_try {A} (m : M S A) h : unchanged m → (∀ e, unchanged (h e)) → unchanged (mtry m h).
Proof.
  intros Hm Hh s. specialize (Hm s). unfold mtry. destruct (m s) as [s' [a|e]]; [done|]. by rewrite (Hh e s').
Qed.
Lemma unchanged_except {A} (m : M S A) h : unchanged m → (∀ e, unchanged (h e)) → unchanged (mexcept m h).
Proof.
  intros Hm Hh s. specialize (Hm s). unfold mexcept. destruct (m s) as [s' [a|e]]; [done|].
  destruct e; first [done|by rewrite (Hh _ s')].
Qed.
Lemma unchanged_finally {A} (m : M S A) f : unchanged m → unchanged f → unchanged (mfinally m f).
Proof.
  intros Hm Hf s. specialize (Hm s). unfold mfinally. destruct (m s) as [s' r]. specialize (Hf s').
  destruct (f s') as [s2 [u|e]]; simpl in *; congruence.
Qed.
Lemma unchanged_triple {A} G (m : M S A) :
  unchanged m → triple (λ s, G (view s)) m (λ _ s, G (view s)) (λ _ s, G (view s)).
Proof. intros H s Hs. specialize (H s). destruct (m s) as [s' [a|e]]; simpl in *; by rewrite H. Qed.
End unchanged.

Create HintDb unchanged.
(** Closes the goals that follow the structure of a computation. *)
Ltac unchanged := repeat first
  [ solve [auto with unchanged nocore] | apply unchanged_bind; [|intros ?] | apply unchanged_except; [|intros ?]
  | apply unchanged_try; [|intros ?] | apply unchanged_finally
  | apply unchanged_modify; by intros ? | apply unchanged_same; by intros ?
  | match goal with
    | |- unchanged _ (match ?x with _ => _ end) => destruct x
    | |- unchanged _ (if ?b then _ else _) => destruct b
    end ].

(** ** Insertion-ordered dictionaries

    A Python [dict] iterates in insertion order and the schedulers' tie-breaks
    depend on it, so a dictionary is an association list: [dset] overwrites in
    place or appends, [ddel] removes. *)
Section dict.
Context {K V : Type} `{!EqDecision K}.
Implicit Types (d : list (K * V)) (k : K) (v : V).

Fixpoint dget d k : option V :=
  match d with
  | [] => None
  | (k', v) :: d' => if decide (k = k') then Some v else dget d' k
  end.

Fixpoint dset d k v : list (K * V) :=
  match d with
  | [] => [(k, v)]
  | (k', v') :: d' =>
      if decide (k = k') then (k', v) :: d' else (k', v') :: dset d' k v
  end.

Fixpoint ddel d k : list (K * V) :=
  match d with
  | [] => []
  | (k', v') :: d' =>
      if decide (k = k') then ddel d' k else (k', v') :: ddel d' k
  end.

Definition dhas d k : bool := bool_decide (is_Some (dget d k)).
Definition dkeys d : list K := d.*1.
Definition dvalues d : list V := d.*2.
Definition dupdate d d' : list (K * V) :=
  fold_left (λ acc kv, dset acc kv.1 kv.2) d' d.

(** No key occurs twice: what every dictionary built by [dset] satisfies. *)
Definition dict_wf d : Prop := NoDup (dkeys d).

Lemma dget_dset_eq d k v : dget (dset d k v) k = Some v.
Proof. induction d as [|[k' v'] d IH]; simpl; repeat case_decide; simpl;
  repeat case_decide; naive_solver. Qed.

Lemma dget_dset_ne d k k' v : k ≠ k' → dget (dset d k v) k' = dget d k'.
Proof. intros ?. induction d as [|[k2 v2] d IH]; simpl; repeat case_decide; simpl;
  repeat case_decide; naive_solver. Qed.

Lemma dget_ddel_eq d k : dget (ddel d k) k = None.
Proof. induction d as [|[k' v'] d IH]; simpl; repeat case_decide; simpl;
  repeat case_decide; naive_solver. Qed.

Lemma dget_ddel_ne d k k' : k ≠ k' → dget (ddel d k) k' = dget d k'.
Proof. intros ?. induction d as [|[k2 v2] d IH]; simpl; repeat case_decide; simpl;
  repeat case_decide; naive_solver. Qed.

Lemma dget_dset d k k' v :
  dget (dset d k v) k' = if decide (k = k') then Some v else dget d k'.
Proof. case_decide; subst; auto using dget_dset_eq, dget_dset_ne. Qed.

Lemma dget_ddel d k k' :
  dget (ddel d k) k' = if decide (k = k') then None else dget d k'.
Proof. case_decide; subst; auto using dget_ddel_eq, dget_ddel_ne. Qed.

Lemma dget_Some_in d k v : dget d k = Some v → (k, v) ∈ d.
Proof. induction d as [|[k' v'] d IH]; simpl; [done|]. case_decide; subst.
  - intros [= ->]. left.
  - intros ?. right. auto. Qed.

Lemma elem_of_dkeys d k : k ∈ dkeys d ↔ is_Some (dget d k).
Proof. unfold dkeys. induction d as [|[k' v'] d IH]; simpl.
  - split; [by intros ?%elem_of_nil | by intros [? ?]].
  - rewrite elem_of_cons, IH. case_decide; naive_solver. Qed.

Lemma dget_None_keys d k : dget d k = None ↔ k ∉ dkeys d.
Proof. rewrite elem_of_dkeys, eq_None_not_Some. done. Qed.

Lemma dget_in_wf d k v : dict_wf d → (k, v) ∈ d → dget d k = Some v.
Proof.
  unfold dict_wf, dkeys. induction d as [|[k' v'] d IH]; simpl.
  - by intros _ ?%elem_of_nil.
  - intros [Hn Hd]%NoDup_cons [[= -> ->]|Hin]%elem_of_cons.
    + by rewrite decide_True.
    + rewrite decide_False; [by apply IH|].
      intros ->. apply Hn. apply list_elem_of_fmap. by exists (k', v).
Qed.

Lemma dkeys_dset_old d k v : is_Some (dget d k) → dkeys (dset d k v) = dkeys d.
Proof. unfold dkeys. intros [w Hw]. induction d as [|[k' v'] d IH]; simpl in *; [done|].
  case_decide; simpl; [done|]. f_equal. auto. Qed.

Lemma dset_new d k v : dget d k = None → dset d k v = d ++ [(k, v)].
Proof. induction d as [|[k' v'] d IH]; simpl; [done|].
  case_decide; [done|]. intros ?. by rewrite IH. Qed.

Lemma dkeys_dset d k v x : x ∈ dkeys (dset d k v) ↔ x = k ∨ x ∈ dkeys d.
Proof. rewrite !elem_of_dkeys, dget_dset. case_decide; naive_solver. Qed.

Lemma dkeys_ddel d k x : x ∈ dkeys (ddel d k) ↔ x ≠ k ∧ x ∈ dkeys d.
Proof. rewrite !elem_of_dkeys, dget_ddel. case_decide; naive_solver. Qed.

Lemma dict_wf_nil : dict_wf [].
Proof. apply NoDup_nil_2. Qed.

Lemma dict_wf_dset d k v : dict_wf d → dict_wf (dset d k v).
Proof.
  intros Hd. destruct (dget d k) eqn:E.
  - unfold dict_wf. by rewrite dkeys_dset_old.
  - rewrite dset_new by done. unfold dict_wf, dkeys. rewrite fmap_app. simpl.
    apply NoDup_app. split; [done|]. split.
    + intros x Hx ->%list_elem_of_singleton.
      by apply dget_None_keys in E.
    + apply NoDup_singleton.
Qed.

Lemma dict_wf_ddel d k : dict_wf d → dict_wf (ddel d k).
Proof.
  unfold dict_wf. intros Hd. induction d as [|[k' v'] d IH]; simpl in *; [done|].
  apply NoDup_cons in Hd as [Hn Hd]. case_decide; [by apply IH|].
  simpl. apply NoDup_cons. split; [|by apply IH].
  intros Hin. apply Hn. by apply dkeys_ddel in Hin as [_ ?].
Qed.

Lemma dget_dupdate d d' k :
  dict_wf d' →
  dget (dupdate d d') k = match dget d' k with Some v => Some v | None => dget d k end.
Proof.
  unfold dupdate, dict_wf, dkeys. revert d. induction d' as [|[k' v'] d' IH]; intros d; simpl; [done|].
  intros [Hn Hd]%NoDup_cons. rewrite IH by done. case_decide; subst.
  - assert (dget d' k' = None) as -> by (by apply dget_None_keys). apply dget_dset_eq.
  - rewrite dget_dset_ne by done. done.
Qed.

Lemma dict_wf_dupdate d d' : dict_wf d → dict_wf (dupdate d d').
Proof. unfold dupdate. revert d. induction d' as [|[k v] d' IH]; intros d Hd; simpl; [done|].
  apply IH. by apply dict_wf_dset. Qed.

Lemma ddel_notin d k : dget d k = None → ddel d k = d.
Proof. induction d as [|[k' v'] d IH]; simpl; [done|].
  case_decide; [done|]. intros. f_equal. auto. Qed.

Lemma length_ddel d k : length (ddel d k) ≤ length d.
Proof. induction d as [|[k' v'] d IH]; simpl; [lia|]. case_decide; simpl; lia. Qed.

Lemma dhas_true d k : dhas d k = true ↔ is_Some (dget d k).
Proof. unfold dhas. apply bool_decide_eq_true. Qed.

Lemma dhas_false d k : dhas d k = false ↔ dget d k = None.
Proof. unfold dhas. rewrite bool_decide_eq_false, eq_None_not_Some. done. Qed.

Lemma elem_of_dset d k v x : x ∈ dset d k v → x = (k, v) ∨ x ∈ d.
Proof. induction d as [|[k' v'] d IH]; simpl; [by intros ?%list_elem_of_singleton; left|].
  case_decide; rewrite !elem_of_cons; [subst|]; naive_solver. Qed.

Lemma elem_of_ddel d k x : x ∈ ddel d k → x ∈ d ∧ x.1 ≠ k.
Proof. induction d as [|[k' v'] d IH]; simpl; [by intros ?%elem_of_nil|].
  case_decide; rewrite !elem_of_cons; naive_solver. Qed.

Lemma in_dvalues d v : v ∈ dvalues d ↔ ∃ k, (k, v) ∈ d.
Proof. unfold dvalues. rewrite list_elem_of_fmap. split.
  - intros ([k w] & -> & ?). eauto.
  - intros [k ?]. exists (k, v). auto. Qed.
End dict.

(** The pairs of a dictionary. *)
Abbreviation dict K V := (list (K * V)).

Create HintDb motor.
#[export] Hint Resolve preserves_ret preserves_raise preserves_lift preserves_get
  preserves_modify preserves_bind preserves_try preserves_except preserves_finally preserves_for : motor.
#[export] Hint Resolve dict_wf_nil dict_wf_dset dict_wf_ddel : motor.
Create Rewrite HintDb motor_rw.
#[export] Hint Rewrite @dget_dset_eq @dget_ddel_eq : motor_rw.

(** ** Generic list lemmas *)

(** Left rotation by [n]: what the index walk [(start + i) % n] visits. *)
Definition rotate_left {A} (n : nat) (l : list A) : list A := drop n l ++ take n l.

Lemma rotate_left_perm {A} n (l : list A) : rotate_left n l ≡ₚ l.
Proof. unfold rotate_left. rewrite Permutation_app_comm. by rewrite take_drop. Qed.

Lemma length_rotate_left {A} n (l : list A) : length (rotate_left n l) = length l.
Proof. unfold rotate_left. rewrite length_app, length_drop, length_take. lia. Qed.

Lemma rotate_left_lookup {A} (l : list A) s i :
  s < length l → i < length l →
  rotate_left s l !! i = l !! ((s + i) mod length l).
Proof.
  intros Hs Hi. unfold rotate_left.
  destruct (decide (s + i < length l)) as [Hlt|Hge].
  - rewrite Nat.mod_small by done.
    rewrite lookup_app_l by (rewrite length_drop; lia). by rewrite lookup_drop.
  - rewrite lookup_app_r by (rewrite length_drop; lia).
    rewrite length_drop, lookup_take_lt by lia.
    f_equal. replace (s + i) with ((s + i - length l) + 1 * length l) by lia.
    rewrite Nat.Div0.mod_add, Nat.mod_small; lia.
Qed.

Lemma map_fmap {A B} (f : A → B) l : map f l = f <$> l.
Proof. done. Qed.

(** Keys of a flattened list are distinct when the pieces carry distinct tags and
    each piece has distinct keys. *)
Lemma NoDup_concat_tagged {A B K T} (g : A → list B) (key : B → K) (tagK : K → T) (tag : A → T) l :
  (∀ a b, a ∈ l → b ∈ g a → tagK (key b) = tag a) → NoDup (tag <$> l) →
  (∀ a, a ∈ l → NoDup (key <$> g a)) → NoDup (key <$> concat (map g l)).
Proof.
  induction l as [|a l IH]; intros Ht Hn Hk; simpl; [apply NoDup_nil_2|].
  rewrite fmap_app. apply NoDup_cons in Hn as [Ha Hn]. apply NoDup_app. split_and!.
  - apply Hk. left.
  - intros k (b & -> & Hb)%list_elem_of_fmap (b' & Hkk & Hb')%list_elem_of_fmap.
    apply Ha. rewrite <- (Ht a b) by (done || left). rewrite Hkk.
    apply list_elem_of_In, in_concat in Hb' as (gl & Hg & Hb').
    apply in_map_iff in Hg as (a' & <- & Ha'). apply list_elem_of_In in Ha', Hb'.
    rewrite (Ht a' b') by (done || by right). apply list_elem_of_fmap. by exists a'.
  - apply IH; [|done|]; intros; [apply Ht|apply Hk]; by (done || right).
Qed.

Lemma Forall2_concat_map {A B C} (R : B → C → Prop) (g : A → list B) (h : A → list C) l :
  (∀ a, a ∈ l → Forall2 R (g a) (h a)) → Forall2 R (concat (map g l)) (concat (map h l)).
Proof.
  induction l as [|a l IH]; intros H; simpl; [done|].
  apply Forall2_app; [apply H; left|apply IH; intros; apply H; by right].
Qed.

(** ** Reachability *)

(** An invariant of the initial states that every step preserves holds in all
    reachable states. *)
Lemma rtc_invariant {S} (step : S → S → Prop) (P : S → Prop) :
  (∀ s s', P s → step s s' → P s') →
  ∀ s s', P s → rtc step s s' → P s'.
Proof. intros Hs s s' Hp Hr. induction Hr; eauto. Qed.

(** ** Tactics *)

(** Split every [match]/[if] of the goal and close the easy cases. *)
Ltac split_cases := repeat (case_match; simplify_eq/=; try done).
