(* ===== verification/Float64.v ===== *)
(** * IEEE binary64 arithmetic of Python [float]

    Python floats are binary64; the workload scores the schedulers compare are
    sums and products of them.  The Standard Library's [SpecFloat] gives the
    format by its bit-level specification, executable and free of axioms.  This
    file fixes precision and exponent range and proves what the selection loops
    need of the order: that [<] on floats that are not NaN is a strict weak
    order. *)

From stdpp Require Import base option list.
From Stdlib Require Import ZArith Lia.
From Stdlib Require Export SpecFloat.
From S2P Require Import Prelude.
Open Scope Z_scope.

Abbreviation f64 := spec_float.

#[global] Instance f64_eq_dec : EqDecision f64.
Proof. solve_decision. Defined.

Definition fadd (x y : f64) : f64 := SFadd 53 1024 x y.
Definition fsub (x y : f64) : f64 := SFsub 53 1024 x y.
Definition fmul (x y : f64) : f64 := SFmul 53 1024 x y.
Definition fdiv (x y : f64) : f64 := SFdiv 53 1024 x y.
Definition fopp (x : f64) : f64 := SFopp x.
(** The comparisons of Python: false as soon as an operand is NaN. *)
Definition flt (x y : f64) : bool := SFltb x y.
Definition fle (x y : f64) : bool := SFleb x y.
Definition fgt (x y : f64) : bool := SFltb y x.
Definition fge (x y : f64) : bool := SFleb y x.
(** [float(z)]. *)
Definition f_of_Z (z : Z) : f64 := binary_normalize 53 1024 z 0 false.

Definition f0 : f64 := S754_zero false.
Definition finf : f64 := S754_infinity false.

Definition is_nan (x : f64) : bool :=
  match x with S754_nan => true | _ => false end.
Definition is_finite (x : f64) : bool :=
  match x with S754_zero _ | S754_finite _ _ _ => true | _ => false end.

(** Arithmetic is unfolded only on request. *)
#[global] Arguments fadd : simpl never.
#[global] Arguments fsub : simpl never.
#[global] Arguments fmul : simpl never.
#[global] Arguments fdiv : simpl never.
#[global] Arguments f_of_Z : simpl never.

(** ** The order *)

(** A float that is not NaN is placed by a class, an exponent and a mantissa,
    compared lexicographically. *)
Definition fkey (x : f64) : Z * Z * Z :=
  match x with
  | S754_nan => (3, 0, 0)
  | S754_infinity true => (-2, 0, 0)
  | S754_finite true m e => (-1, - e, - Zpos m)
  | S754_zero _ => (0, 0, 0)
  | S754_finite false m e => (1, e, Zpos m)
  | S754_infinity false => (2, 0, 0)
  end.

Definition klt (a b : Z * Z * Z) : Prop :=
  let '(a1, a2, a3) := a in
  let '(b1, b2, b3) := b in
  a1 < b1 ∨ (a1 = b1 ∧ (a2 < b2 ∨ (a2 = b2 ∧ a3 < b3))).

Lemma flt_key x y :
  flt x y = true ↔ is_nan x = false ∧ is_nan y = false ∧ klt (fkey x) (fkey y).
Proof.
  unfold flt, SFltb.
  assert (∀ (P Q : Prop), P → (Q ↔ P ∧ Q)) as Hand by tauto.
  destruct x as [[]|[]| |[] mx ex], y as [[]|[]| |[] my ey]; simpl;
    rewrite <- ?Hand by done;
    try (split; [done || lia | lia || (intros (?&?&?); done) || done]).
  all: destruct (Z.compare_spec ex ey) as [->|?|?];
    [fold (Pos.compare mx my);
     destruct (Pos.compare_spec mx my) as [->|?|?]; simpl | |];
    (split; [intros ?; try done; lia | intros ?; try done; lia]).
Qed.

Lemma klt_trans a b c : klt a b → klt b c → klt a c.
Proof. destruct a as [[]], b as [[]], c as [[]]; simpl; lia. Qed.

Lemma klt_irrefl a : ¬ klt a a.
Proof. destruct a as [[]]; simpl; lia. Qed.

Lemma klt_neg_trans a b c : ¬ klt a b → ¬ klt b c → ¬ klt a c.
Proof. destruct a as [[]], b as [[]], c as [[]]; simpl; lia. Qed.

Lemma flt_irrefl x : flt x x = false.
Proof.
  apply not_true_is_false. intros (_&_&H)%flt_key. by apply klt_irrefl in H.
Qed.

Lemma flt_trans x y z : flt x y = true → flt y z = true → flt x z = true.
Proof.
  rewrite !flt_key. intros (?&?&?) (?&?&?). split_and!; try done.
  by eapply klt_trans.
Qed.

Lemma flt_nan_l x y : is_nan x = true → flt x y = false.
Proof. by destruct x. Qed.

Lemma flt_nan_r x y : is_nan y = true → flt x y = false.
Proof. destruct y; try done. by destruct x. Qed.

(** Negative transitivity: the strict order is weak, so "no smaller element
    seen" is preserved when the current minimum decreases. *)
Lemma flt_neg_trans x y z :
  is_nan y = false → flt x y = false → flt y z = false → flt x z = false.
Proof.
  intros Hy Hxy Hyz. apply not_true_is_false. intros Hxz.
  apply flt_key in Hxz as (Hx & Hz & Hk).
  assert (¬ klt (fkey x) (fkey y)) as H1.
  { intros ?. assert (flt x y = true) by (by apply flt_key). congruence. }
  assert (¬ klt (fkey y) (fkey z)) as H2.
  { intros ?. assert (flt y z = true) by (by apply flt_key). congruence. }
  by destruct (klt_neg_trans _ _ _ H1 H2).
Qed.

(** Every number below [+inf] is a legitimate minimum. *)
Lemma flt_not_nan_l x y : flt x y = true → is_nan x = false.
Proof. by intros (?&?&?)%flt_key. Qed.

(** ** Addition *)

Lemma fadd_0_l x : fadd f0 x = match x with S754_zero _ => f0 | _ => x end.
Proof. by destruct x as [[]| | |]. Qed.

(** A value and its opposite cancel exactly, so one allocation followed by its
    release leaves no rounding residue on an idle endpoint. *)
Lemma fadd_opp x : is_finite x = true → fadd x (fopp x) = f0.
Proof.
  destruct x as [s| | |s m e]; simpl; try done.
  - by destruct s.
  - intros _. unfold fadd. simpl. rewrite Z.min_id.
    destruct s; simpl.
    + rewrite Z.add_opp_diag_l. done.
    + change (Z.neg ?p) with (- Z.pos p). by rewrite Z.add_opp_diag_r.
Qed.

Lemma fsub_diag x : is_finite x = true → fle (fsub x x) f0 = true.
Proof.
  destruct x as [s| | |s m e]; simpl; try done.
  - by destruct s.
  - intros _. unfold fsub, SFsub. rewrite Z.min_id.
    destruct s; simpl.
    + rewrite Z.sub_diag. done.
    + rewrite Z.sub_diag. done.
Qed.

(** ** Validity

    A datum of [spec_float] is a binary64 number when its mantissa is canonical for
    its exponent; rounding always produces one, so sums of valid doubles are valid. *)

Definition f64_valid (x : f64) : Prop := valid_binary 53 1024 x = true.

Lemma digits2_log2 p : Zpos (digits2_pos p) = Z.log2 (Zpos p) + 1.
Proof.
  induction p as [p IH|p IH|]; simpl digits2_pos; [| |done].
  - rewrite Pos2Z.inj_succ, IH. rewrite (Pos2Z.inj_xI p), Z.log2_succ_double by lia. lia.
  - rewrite Pos2Z.inj_succ, IH. rewrite (Pos2Z.inj_xO p), Z.log2_double by lia. lia.
Qed.

Lemma Zdigits2_pos m : 0 < m → Zdigits2 m = Z.log2 m + 1.
Proof. destruct m; simpl; [lia|intros _; apply digits2_log2|lia]. Qed.

Lemma shr_1_div mrs : 0 <= shr_m mrs → shr_m (shr_1 mrs) = shr_m mrs / 2.
Proof.
  destruct mrs as [m r s]. simpl. intros Hm. destruct m as [|[p|p|]|]; simpl; try done; try lia.
  - rewrite (Pos2Z.inj_xI p). rewrite Z.mul_comm, Z.div_add_l by lia. rewrite Z.div_small; lia.
  - rewrite (Pos2Z.inj_xO p). rewrite Z.mul_comm, Z.div_mul; lia.
Qed.

Lemma iter_shr_div p mrs :
  0 <= shr_m mrs → shr_m (iter_pos shr_1 p mrs) = shr_m mrs / 2 ^ Zpos p.
Proof.
  revert mrs. induction p as [p IH|p IH|]; intros mrs Hm; simpl iter_pos.
  - pose proof (shr_1_div mrs Hm) as H1. assert (0 <= shr_m (shr_1 mrs)) as Hp1
      by (rewrite H1; apply Z.div_pos; lia).
    pose proof (IH _ Hp1) as H2. assert (0 <= shr_m (iter_pos shr_1 p (shr_1 mrs))) as Hp2
      by (rewrite H2; apply Z.div_pos; [done|apply Z.pow_pos_nonneg; lia]).
    rewrite IH, H2, H1 by done. rewrite !Z.div_div by (try apply Z.pow_pos_nonneg; lia).
    f_equal. rewrite (Pos2Z.inj_xI p). replace (2 * Zpos p + 1) with (1 + (Zpos p + Zpos p)) by lia.
    rewrite !Z.pow_add_r by lia. lia.
  - pose proof (IH _ Hm) as H2. assert (0 <= shr_m (iter_pos shr_1 p mrs)) as Hp2
      by (rewrite H2; apply Z.div_pos; [done|apply Z.pow_pos_nonneg; lia]).
    rewrite IH, H2 by done. rewrite !Z.div_div by (try apply Z.pow_pos_nonneg; lia).
    f_equal. rewrite (Pos2Z.inj_xO p). replace (2 * Zpos p) with (Zpos p + Zpos p) by lia.
    rewrite !Z.pow_add_r by lia. lia.
  - by apply shr_1_div.
Qed.

Lemma fexp_eq d : fexp 53 1024 d = Z.max (d - 53) (-1074).
Proof. done. Qed.

(** A shift to the exponent of the format divides the mantissa. *)
Lemma shr_fexp_spec m e l :
  0 <= m → e <= fexp 53 1024 (Zdigits2 m + e) →
  let s := fexp 53 1024 (Zdigits2 m + e) - e in
  shr_m (shr_fexp 53 1024 m e l).1 = m / 2 ^ s ∧ (shr_fexp 53 1024 m e l).2 = e + s.
Proof.
  intros Hm He s. unfold shr_fexp. fold s. assert (0 <= s) as Hs by (subst s; lia).
  assert (shr_m (shr_record_of_loc m l) = m) as Hl by (by destruct l as [|[]]).
  destruct s as [|p|p] eqn:Es; simpl; [|by rewrite iter_shr_div, Hl by (by rewrite Hl)|lia].
  rewrite Hl, Z.div_1_r. lia.
Qed.

(** The quotient is canonical, or nothing is left of the mantissa. *)
Lemma shr_canonical m e :
  0 < m → e <= fexp 53 1024 (Zdigits2 m + e) →
  let s := fexp 53 1024 (Zdigits2 m + e) - e in
  (0 < m / 2 ^ s ∧ fexp 53 1024 (Zdigits2 (m / 2 ^ s) + (e + s)) = e + s) ∨
  (m / 2 ^ s = 0 ∧ e + s = -1074).
Proof.
  intros Hm He s. assert (0 <= s) as Hs by (subst s; lia).
  pose proof (Z.log2_shiftr m s Hm) as Hl. rewrite Z.shiftr_div_pow2 in Hl by done.
  pose proof (Z.log2_nonneg m) as Hn.
  assert (0 <= m / 2 ^ s) as Hq by (apply Z.div_pos; [lia|by apply Z.pow_pos_nonneg; lia]).
  destruct (decide (s <= Z.log2 m)) as [Hle|Hgt].
  - assert (0 < m / 2 ^ s) as Hp.
    { apply Z.div_str_pos. split; [by apply Z.pow_pos_nonneg; lia|].
      transitivity (2 ^ Z.log2 m); [apply Z.pow_le_mono_r; lia|]. by apply Z.log2_spec. }
    left. split; [done|]. rewrite Zdigits2_pos by done. rewrite Hl, Z.max_r by lia.
    subst s. rewrite Zdigits2_pos in * by done. f_equal. rewrite !fexp_eq in *. lia.
  - right. split.
    + apply Z.div_small. split; [lia|]. apply Z.log2_lt_pow2; lia.
    + subst s. rewrite Zdigits2_pos in * by done. rewrite !fexp_eq in *. lia.
Qed.

Lemma round_nearest_cases m l :
  round_nearest_even m l = m ∨ round_nearest_even m l = m + 1.
Proof. destruct l as [|[]]; simpl; auto. destruct (Z.even m); auto. Qed.

Lemma binary_round_aux_valid sx m e l :
  0 < m → e <= fexp 53 1024 (Zdigits2 m + e) → f64_valid (binary_round_aux 53 1024 sx m e l).
Proof.
  intros Hm He. unfold binary_round_aux.
  destruct (shr_fexp_spec m e l ltac:(lia) He) as [H1 H2].
  pose proof (shr_canonical m e Hm He) as Hc.
  destruct (shr_fexp 53 1024 m e l) as [mrs e1]. simpl in H1, H2.
  set (s := fexp 53 1024 (Zdigits2 m + e) - e) in *.
  set (m2 := round_nearest_even _ _).
  assert (0 <= s) as Hs by (subst s; lia).
  assert (0 <= shr_m mrs) as Hm1
    by (rewrite H1; apply Z.div_pos; [lia|apply Z.pow_pos_nonneg; lia]).
  assert (shr_m mrs <= m2 <= shr_m mrs + 1) as Hm2.
  { destruct (round_nearest_cases (shr_m mrs) (loc_of_shr_record mrs)); subst m2; lia. }
  assert (e1 <= fexp 53 1024 (Zdigits2 m2 + e1)) as He2.
  { rewrite H2. destruct Hc as [[Hp Hc]|[_ Hc]].
    - rewrite <- H1 in Hp, Hc. rewrite <- Hc at 1. rewrite !fexp_eq, !Zdigits2_pos by lia.
      pose proof (Z.log2_le_mono (shr_m mrs) m2). lia.
    - rewrite Hc, fexp_eq. lia. }
  destruct (shr_fexp_spec m2 e1 loc_Exact ltac:(lia) He2) as [H3 H4].
  destruct (shr_fexp 53 1024 m2 e1 loc_Exact) as [mrs2 e3]. simpl in H3, H4.
  destruct (shr_m mrs2) as [|p|p] eqn:Ep; [done| |done].
  destruct (Z.leb_spec e3 (1024 - 53)) as [Hle|]; [|done].
  assert (0 < m2) as Hp2.
  { destruct (decide (m2 = 0)) as [E|]; [|lia]. rewrite E in H3. by rewrite Z.div_0_l in H3 by
      (apply Z.pow_nonzero; [lia|rewrite E in He2; lia]). }
  destruct (shr_canonical m2 e1 Hp2 He2) as [[Hp Hc2]|[H0 _]]; [|rewrite H0 in H3; done].
  rewrite <- H3, <- H4 in Hc2. unfold f64_valid, valid_binary, bounded, canonical_mantissa.
  simpl Zdigits2 in Hc2. rewrite Hc2, Z.eqb_refl. by apply Z.leb_le.
Qed.

Lemma digits2_iter_xO p d : Zpos (digits2_pos (Pos.iter xO p d)) = Zpos (digits2_pos p) + Zpos d.
Proof.
  induction d as [|d IH] using Pos.peano_ind; [simpl; lia|].
  rewrite Pos.iter_succ. simpl digits2_pos. lia.
Qed.

Lemma binary_round_valid sx mx ex : f64_valid (binary_round 53 1024 sx mx ex).
Proof.
  unfold binary_round, shl_align.
  set (f := fexp 53 1024 (Zpos (digits2_pos mx) + ex)).
  destruct (f - ex) as [|d|d] eqn:E; apply binary_round_aux_valid; try lia; simpl Zdigits2.
  - fold f. lia.
  - fold f. lia.
  - rewrite digits2_iter_xO. replace (Zpos (digits2_pos mx) + Zpos d + f)
      with (Zpos (digits2_pos mx) + ex) by lia. fold f. lia.
Qed.

Lemma fadd_valid x y : f64_valid x → f64_valid y → f64_valid (fadd x y).
Proof.
  intros Hx Hy. destruct x as [sx|sx| |sx mx ex], y as [sy|sy| |sy my ey]; unfold fadd, SFadd;
    try done; try (by destruct sx, sy).
  unfold binary_normalize. destruct (_ + _); [done|apply binary_round_valid|apply binary_round_valid].
Qed.
