(* ===== verification/PyText.v ===== *)
(** * Text and JSON values

    What the parsers of this library use of Python's [str], [int] and [json]: ASCII
    strings with [strip], [split], [startswith], [endswith], [isdigit] and [int], and
    decoded JSON values with the truth value and the [get] the code calls on them. *)

From stdpp Require Import base option list strings pretty.
From Stdlib Require Import ZArith Lia Ascii.
From S2P Require Import Prelude Float64.
Open Scope Z_scope.

(** ** Strings *)

Definition chars (s : string) : list Ascii.ascii := String.list_ascii_of_string s.
Definition of_chars (l : list Ascii.ascii) : string := String.string_of_list_ascii l.
Definition code (c : Ascii.ascii) : Z := Z.of_N (Ascii.N_of_ascii c).

Lemma chars_of_chars l : chars (of_chars l) = l.
Proof. apply String.list_ascii_of_string_of_list_ascii. Qed.
Lemma of_chars_chars s : of_chars (chars s) = s.
Proof. apply String.string_of_list_ascii_of_string. Qed.
Lemma chars_app s t : chars (s +:+ t) = chars s ++ chars t.
Proof. induction s as [|c s IH]; [done|]. change (c :: chars (s +:+ t) = c :: (chars s ++ chars t)). by rewrite IH. Qed.
Lemma str_app_assoc s t u : (s +:+ t) +:+ u = s +:+ (t +:+ u).
Proof. induction s as [|c s IH]; [done|]. change (String c ((s +:+ t) +:+ u) = String c (s +:+ (t +:+ u))). by rewrite IH. Qed.

(** ASCII case. *)
Definition lower_char (c : Ascii.ascii) : Ascii.ascii :=
  if (65 <=? code c) && (code c <=? 90) then Ascii.ascii_of_N (Z.to_N (code c + 32)) else c.
Definition upper_char (c : Ascii.ascii) : Ascii.ascii :=
  if (97 <=? code c) && (code c <=? 122) then Ascii.ascii_of_N (Z.to_N (code c - 32)) else c.

(** White space for [str.strip], and for [int]. *)
Definition is_space (c : Ascii.ascii) : bool :=
  ((9 <=? code c) && (code c <=? 13)) || ((28 <=? code c) && (code c <=? 32)).
Definition is_int_space (c : Ascii.ascii) : bool :=
  ((9 <=? code c) && (code c <=? 13)) || (code c =? 32).

Fixpoint drop_while {A} (p : A → bool) (l : list A) : list A :=
  match l with
  | [] => []
  | x :: l' => if p x then drop_while p l' else l
  end.

Definition strip_with (p : Ascii.ascii → bool) (l : list Ascii.ascii) : list Ascii.ascii :=
  reverse (drop_while p (reverse (drop_while p l))).

Definition strip (s : string) : string := of_chars (strip_with is_space (chars s)).

(** [s.split(sep)] with a one-character separator: always at least one part. *)
Fixpoint split_chars (sep : Ascii.ascii) (l : list Ascii.ascii) : list (list Ascii.ascii) :=
  match l with
  | [] => [[]]
  | c :: l =>
      if decide (c = sep) then [] :: split_chars sep l
      else match split_chars sep l with
           | p :: ps => (c :: p) :: ps
           | [] => [[c]]
           end
  end.
Definition split (sep : Ascii.ascii) (s : string) : list string := map of_chars (split_chars sep (chars s)).

Definition startswith (s p : string) : bool := String.prefix p s.
Definition endswith (s : string) (c : Ascii.ascii) : bool := bool_decide (last (chars s) = Some c).
Definition contains (s : string) (c : Ascii.ascii) : bool := bool_decide (c ∈ chars s).

Definition is_digit (c : Ascii.ascii) : bool := (48 <=? code c) && (code c <=? 57).
Definition isdigit (s : string) : bool :=
  match chars s with [] => false | l => forallb is_digit l end.

(** The value of a digit in bases up to 36. *)
Definition digit_val (c : Ascii.ascii) : option Z :=
  let k := code c in
  if (48 <=? k) && (k <=? 57) then Some (k - 48)
  else if (97 <=? k) && (k <=? 122) then Some (k - 87)
  else if (65 <=? k) && (k <=? 90) then Some (k - 55)
  else None.

(** Digits, with single underscores between them. *)
Fixpoint digits_from (base acc : Z) (after_digit : bool) (l : list Ascii.ascii) : option Z :=
  match l with
  | [] => if after_digit then Some acc else None
  | c :: l =>
      if decide (c = "_"%char) then if after_digit then digits_from base acc false l else None
      else match digit_val c with
           | Some d => if d <? base then digits_from base (acc * base + d) true l else None
           | None => None
           end
  end.

Definition hex_prefix (base : Z) (l : list Ascii.ascii) : list Ascii.ascii :=
  match l with
  | z :: x :: l' =>
      if (base =? 16) && (code z =? 48) && ((code x =? 120) || (code x =? 88))
      then match l' with u :: l2 => if decide (u = "_"%char) then l2 else l' | [] => [] end
      else l
  | _ => l
  end.

(** [int(s, base)], for base 10 or 16; [None] is [ValueError]. *)
Definition py_int (base : Z) (s : string) : option Z :=
  let l := strip_with is_int_space (chars s) in
  match l with
  | c :: l' =>
      if decide (c = "-"%char) then option_map Z.opp (digits_from base 0 false (hex_prefix base l'))
      else if decide (c = "+"%char) then digits_from base 0 false (hex_prefix base l')
      else digits_from base 0 false (hex_prefix base l)
  | [] => None
  end.

Lemma split_nonempty sep s : split sep s ≠ [].
Proof.
  unfold split. assert (split_chars sep (chars s) ≠ []) as H.
  { destruct (chars s) as [|c l]; simpl; [done|]. case_decide; [done|]. by destruct (split_chars sep l). }
  by destruct (split_chars sep (chars s)).
Qed.

(** ** Round trip of numbers *)

Lemma pretty_char_digit d : (d < 10)%N → is_digit (pretty_N_char d) = true ∧ digit_val (pretty_N_char d) = Some (Z.of_N d).
Proof.
  intros Hd. assert (d = 0 ∨ d = 1 ∨ d = 2 ∨ d = 3 ∨ d = 4 ∨ d = 5 ∨ d = 6 ∨ d = 7 ∨ d = 8 ∨ d = 9)%N as H by lia.
  repeat destruct H as [->|H]; [by split..|subst; by split].
Qed.

Lemma digits_from_digit acc b c d l :
  is_digit c = true → digit_val c = Some d → 0 <= d < 10 → digits_from 10 acc b (c :: l) = digits_from 10 (acc * 10 + d) true l.
Proof.
  intros Hc Hd Hlt. cbn [digits_from]. rewrite decide_False by (intros ->; discriminate Hc). rewrite Hd.
  by rewrite (proj2 (Z.ltb_lt _ _)) by lia.
Qed.

Lemma pretty_go_digits (x : N) : (0 < x)%N → ∃ dx,
  dx ≠ [] ∧ Forall (λ c, is_digit c = true) dx ∧ (∀ s, chars (pretty_N_go x s) = dx ++ chars s) ∧
  ∀ b rest, digits_from 10 0 b (dx ++ rest) = digits_from 10 (Z.of_N x) true rest.
Proof.
  induction (N.lt_wf_0 x) as [x _ IH]. intros Hx.
  assert (x `mod` 10 < 10)%N as Hm by (by apply N.mod_lt). pose proof (pretty_char_digit _ Hm) as [Hc Hd].
  pose proof (N.div_mod x 10 ltac:(done)) as E. apply (f_equal Z.of_N) in E. rewrite N2Z.inj_add, N2Z.inj_mul in E.
  assert (0 <= Z.of_N (x `mod` 10) < 10) as Hb.
  { split; [apply N2Z.is_nonneg|]. change 10 with (Z.of_N 10). by apply N2Z.inj_lt. }
  change (Z.of_N 10) with 10 in E.
  set (c := pretty_N_char (x `mod` 10)) in *.
  destruct (decide (x < 10)%N) as [Hlt|Hge].
  - exists [c]. split; [done|]. split; [by constructor|]. split.
    + intros s. rewrite pretty_N_go_step by done. rewrite (N.div_small x 10) by done. by rewrite pretty_N_go_0.
    + intros b rest. cbn [app]. rewrite (digits_from_digit _ _ _ _ _ Hc Hd Hb). f_equal. rewrite N.mod_small by done. ring.
  - destruct (IH (x `div` 10)%N) as (dx & Hne & Hall & Hs & Hdig); [apply N.div_lt; lia|apply N.div_str_pos; lia|].
    exists (dx ++ [c]). split; [by destruct dx|]. split; [apply Forall_app; split; [done|by constructor]|]. split.
    + intros s. rewrite pretty_N_go_step by done. rewrite Hs, <- app_assoc. done.
    + intros b rest. rewrite <- app_assoc, Hdig. cbn [app]. rewrite (digits_from_digit _ _ _ _ _ Hc Hd Hb). f_equal. rewrite E. ring.
Qed.

Lemma strip_digits l : Forall (λ c, is_digit c = true) l → strip_with is_int_space l = l.
Proof.
  intros H. assert (∀ k, Forall (λ c, is_digit c = true) k → drop_while is_int_space k = k) as Hd.
  { intros k Hk. destruct Hk as [|c k Hc _]; [done|]. cbn. unfold is_digit in Hc. unfold is_int_space.
    apply andb_true_iff in Hc as [H1 H2]. apply Z.leb_le in H1, H2.
    rewrite (proj2 (Z.leb_gt (code c) 13)) by lia. rewrite (proj2 (Z.eqb_neq (code c) 32)) by lia. by rewrite andb_false_r. }
  unfold strip_with. rewrite (Hd l) by done. rewrite Hd by (by apply Forall_reverse). apply reverse_involutive.
Qed.

(** [int(str(z))] is [z]. *)
Lemma py_int_pretty z : 0 <= z → py_int 10 (pretty z) = Some z.
Proof.
  intros Hz. destruct z as [|p|p]; [reflexivity| |lia].
  destruct (pretty_go_digits (N.pos p) ltac:(lia)) as (dx & Hne & Hall & Hs & Hdig).
  assert (chars (pretty (Z.pos p)) = dx) as E by (etransitivity; [apply (Hs "")|apply app_nil_r]).
  unfold py_int. rewrite E, (strip_digits dx Hall). specialize (Hdig false []). rewrite app_nil_r in Hdig.
  destruct dx as [|c dx]; [done|]. apply Forall_cons in Hall as [Hc Hall].
  rewrite !decide_False by (intros ->; discriminate Hc).
  assert (hex_prefix 10 (c :: dx) = c :: dx) as -> by (by destruct dx). exact Hdig.
Qed.

Example py_int_hex : py_int 16 "0x00f1fef5" = Some 15859445.
Proof. reflexivity. Qed.
Example py_int_bare : py_int 16 " 80E18005 " = Some 2162262021.
Proof. reflexivity. Qed.
Example py_int_bad : (py_int 16 "0x", py_int 16 "", py_int 16 "1__0", py_int 10 "0x1") = (None, None, None, None).
Proof. reflexivity. Qed.
Example split_key : split "_" "[0x1,a]_0_12" = ["[0x1,a]"; "0"; "12"]%string.
Proof. reflexivity. Qed.

(** ** JSON *)

(** What [json.loads] can return; an object is a dictionary in document order. *)
Inductive json :=
| JNull
| JBool (b : bool)
| JInt (z : Z)
| JFloat (f : f64)
| JStr (s : string)
| JList (l : list json)
| JObj (d : list (string * json)).

(** [bool(v)]. *)
Definition truthy (v : json) : bool :=
  match v with
  | JNull => false
  | JBool b => b
  | JInt z => negb (z =? 0)
  | JFloat f => negb (fle f f0 && fle f0 f)
  | JStr s => negb (bool_decide (s = ""%string))
  | JList l => match l with [] => false | _ => true end
  | JObj d => match d with [] => false | _ => true end
  end.

(** [v.get(key, default)]: only a dictionary has it. *)
Definition jget (v : json) (key : string) (default : json) : py json :=
  match v with
  | JObj d => Ret (match dget d key with Some x => x | None => default end)
  | _ => Raise AttributeError
  end.

(** [v[key]] for a string key. *)
Definition jsub (v : json) (key : string) : py json :=
  match v with
  | JObj d => match dget d key with Some x => Ret x | None => Raise KeyError end
  | _ => Raise TypeError
  end.

Definition jsubs (v : json) (keys : list string) : py json := foldl (λ r key, v ← r; jsub v key) (Ret v) keys.

Definition is_str (s : string) (v : json) : bool := match v with JStr t => bool_decide (t = s) | _ => false end.
(** [l.find(sub)], counted from [i]. *)
Fixpoint find_sub (sub l : list Ascii.ascii) (i : nat) : option nat :=
  if bool_decide (take (length sub) l = sub) then Some i
  else match l with [] => None | _ :: l' => find_sub sub l' (S i) end.
(** [sub in s]. *)
Definition sub_in (sub : string) (l : list Ascii.ascii) : bool :=
  match find_sub (chars sub) l 0 with Some _ => true | None => false end.
(** [key in v]: a key of a dictionary, an element of a list, a part of a string; anything else
    cannot be asked. *)
Definition json_in (key : string) (v : json) : py bool :=
  match v with
  | JObj d => Ret (dhas d key)
  | JList l => Ret (existsb (is_str key) l)
  | JStr s => Ret (sub_in key (chars s))
  | _ => Raise TypeError
  end.

(** Lists and dictionaries cannot be keys of a dictionary lookup. *)
Definition hashable (v : json) : bool :=
  match v with JList _ | JObj _ => false | _ => true end.
