(* ===== verification/FloatText.v ===== *)
(** * Decimal text of Python floats

    [float(s)] and [str(x)]: reading a decimal rounds it once, to nearest even, and
    writing chooses the fewest digits that read back as the same number. *)

From stdpp Require Import base option list strings pretty.
From Stdlib Require Import ZArith Lia Ascii.
From S2P Require Import Prelude Float64 PyText.
Open Scope Z_scope.

(** ** Reading *)

(** The binary64 nearest to m 10^e. *)
Definition f_of_decimal (neg : bool) (m e : Z) : f64 :=
  match m with
  | Zpos p =>
      if 0 <=? e then
        match Zpos p * 10 ^ e with Zpos q => binary_round 53 1024 neg q 0 | _ => S754_nan end
      else
        let '(q, e', l) := SFdiv_core_binary 53 1024 (Zpos p) 0 (10 ^ (- e)) 0 in
        binary_round_aux 53 1024 neg q e' l
  | _ => S754_zero neg
  end.

(** Digits with single underscores between them: their value after [acc], how many
    they are, and the rest. *)
Fixpoint scan_digits (l : list ascii) (acc n : Z) (after_digit : bool) : Z * Z * list ascii :=
  match l with
  | c :: l' =>
      if is_digit c then scan_digits l' (10 * acc + (code c - 48)) (n + 1) true
      else if bool_decide (c = "_"%char) && after_digit then
        match l' with
        | d :: _ => if is_digit d then scan_digits l' acc n false else (acc, n, l)
        | [] => (acc, n, l)
        end
      else (acc, n, l)
  | [] => (acc, n, [])
  end.

Definition scan_sign (l : list ascii) : bool * list ascii :=
  match l with
  | c :: l' => if decide (c = "-"%char) then (true, l') else if decide (c = "+"%char) then (false, l') else (false, l)
  | [] => (false, l)
  end.

(** The exponent part, [None] when it is malformed. *)
Definition scan_exponent (l : list ascii) : option Z :=
  match l with
  | [] => Some 0
  | c :: l =>
      if decide (lower_char c = "e"%char) then
        let '(neg, l) := scan_sign l in
        let '(v, n, rest) := scan_digits l 0 0 false in
        match rest with
        | [] => if n =? 0 then None else Some (if neg : bool then - v else v)
        | _ => None
        end
      else None
  end.

Definition parse_float_chars (l : list ascii) : option f64 :=
  let '(neg, l) := scan_sign l in
  let low := of_chars (map lower_char l) in
  if decide (low = "inf"%string ∨ low = "infinity"%string) then Some (S754_infinity neg)
  else if decide (low = "nan"%string) then Some S754_nan
  else
    let '(v, n, rest) := scan_digits l 0 0 false in
    let '(v, n, frac, rest) :=
      match rest with
      | c :: rest' =>
          if decide (c = "."%char) then
            let '(v', n', rest'') := scan_digits rest' v 0 false in (v', n + n', n', rest'')
          else (v, n, 0, rest)
      | [] => (v, n, 0, rest)
      end in
    if n =? 0 then None
    else option_map (λ e, f_of_decimal neg v (e - frac)) (scan_exponent rest).

(** [float(s)]; [None] is the [ValueError]. *)
Definition parse_float (s : string) : option f64 := parse_float_chars (strip_with is_space (chars s)).

(** ** Writing *)

(** A positive number as a fraction. *)
Definition fraction (m : positive) (e : Z) : Z * Z :=
  if 0 <=? e then (Zpos m * 2 ^ e, 1) else (Zpos m, 2 ^ (- e)).

(** The k with 10^(k-1) <= num/den < 10^k, from a guess that is not above it. *)
Fixpoint decimal_point (fuel : nat) (num den k : Z) : Z :=
  match fuel with
  | O => k
  | S fuel =>
      let below := if 0 <=? k then num <? den * 10 ^ k else num * 10 ^ (- k) <? den in
      if below then k else decimal_point fuel num den (k + 1)
  end.
Definition decimal_exponent (num den : Z) : Z :=
  decimal_point 8 num den ((Z.log2 num - Z.log2 den) * 30103 / 100000 - 2).

(** The rounding of num/den to an integer, ties to even. *)
Definition round_div (num den : Z) : Z :=
  let q := num / den in
  let r := 2 * (num mod den) in
  if (den <? r) || ((r =? den) && Z.odd q) then q + 1 else q.

(** num/den with n digits: q 10^(k-n). *)
Definition with_digits (num den k n : Z) : Z :=
  if n - k <? 0 then round_div num (den * 10 ^ (k - n)) else round_div (num * 10 ^ (n - k)) den.

Fixpoint shortest (fuel : nat) (x : f64) (num den k n : Z) : Z * Z * Z :=
  let q := with_digits num den k n in
  let '(q', k') := if q =? 10 ^ n then (10 ^ (n - 1), k + 1) else (q, k) in
  match fuel with
  | O => (q', k', n)
  | S fuel =>
      if decide (f_of_decimal false q' (k' - n) = x) then (q', k', n)
      else shortest fuel x num den k (n + 1)
  end.

(** The digits of a positive number, and where its point is: 0.d1d2... 10^k. *)
Definition digits_of (m : positive) (e : Z) : string * Z :=
  let '(num, den) := fraction m e in
  let '(q, k, _) := shortest 16 (S754_finite false m e) num den (decimal_exponent num den) 1 in
  (pretty q, k).

Definition zeros (n : Z) : string := of_chars (repeat "0"%char (Z.to_nat n)).

(** Plain notation for exponents from -4 to 15, scientific otherwise. *)
Definition format_repr (ds : string) (k : Z) : string :=
  let n := Z.of_nat (String.length ds) in
  if (-4 <? k) && (k <=? 16) then
    if k <=? 0 then "0." +:+ zeros (- k) +:+ ds
    else if n <=? k then ds +:+ zeros (k - n) +:+ ".0"
    else of_chars (take (Z.to_nat k) (chars ds)) +:+ "." +:+ of_chars (drop (Z.to_nat k) (chars ds))
  else
    let x := k - 1 in
    of_chars (take 1 (chars ds)) +:+ (if n =? 1 then "" else "." +:+ of_chars (drop 1 (chars ds))) +:+
    "e" +:+ (if x <? 0 then "-" else "+") +:+ (if Z.abs x <? 10 then "0" else "") +:+ pretty (Z.abs x).

(** [str(x)]. *)
Definition float_str (x : f64) : string :=
  match x with
  | S754_zero neg => (if neg : bool then "-" else "") +:+ "0.0"
  | S754_infinity neg => (if neg : bool then "-" else "") +:+ "inf"
  | S754_nan => "nan"
  | S754_finite neg m e =>
      let '(ds, k) := digits_of m e in (if neg : bool then "-" else "") +:+ format_repr ds k
  end.

Definition reads (s : string) : string := match parse_float s with Some x => float_str x | None => "error" end.

Example float_texts :
  map reads ["0.1"; "1e23"; "9007199254740993"; "5e-324"; "1.7976931348623157e308"; "123456789012345680"; "1e16"; "0.0001";
             "0.00001"; "1_000.5"; ".5"; "3."; "-2.50"; "Infinity"; "-nan"; "1e400"; "2.2250738585072014e-308"; "0.3"; "100"; "1__0"; "e5"; "12e"] =
  ["0.1"; "1e+23"; "9007199254740992.0"; "5e-324"; "1.7976931348623157e+308"; "1.2345678901234568e+17"; "1e+16"; "0.0001";
   "1e-05"; "1000.5"; "0.5"; "3.0"; "-2.5"; "inf"; "nan"; "inf"; "2.2250738585072014e-308"; "0.3"; "100.0"; "error"; "error"; "error"]%string.
Proof. vm_compute. reflexivity. Qed.
