(* ===== verification/Resources.v ===== *)
(** * Shared resources: workloads, endpoints, instances

    Models [motor/common/resources/endpoint.py] and
    [motor/common/resources/instance.py]: the records every other component
    exchanges, and the methods of [Instance].  An instance's [_lock] makes each
    method atomic, so a method is a function from the instance before to the
    instance after.  Where the code hands out a reference to a mutable endpoint,
    the model hands out a pointer [(pod_ip, key)] into the instance. *)

From stdpp Require Import base option list strings.
From Stdlib Require Import ZArith Lia.
From S2P Require Import Prelude Float64.
Open Scope Z_scope.

(** ** Enumerations *)

Inductive InsStatus := INITIAL | INACTIVE | ACTIVE | DELETED.
Inductive PDRole := ROLE_P | ROLE_D | ROLE_U.
Inductive InsConditionEvent :=
  INSTANCE_INIT | INSTANCE_HEARTBEAT_TIMEOUT | INSTANCE_NORMAL | INSTANCE_ABNORMAL.
Inductive EndpointStatus :=
  EP_INITIAL | EP_NORMAL | EP_ABNORMAL | EP_PAUSED | EP_WAIT2START.
Inductive WorkloadAction := ALLOCATION | RELEASE_KV | RELEASE_TOKENS.

#[global] Instance InsStatus_eq_dec : EqDecision InsStatus.
Proof. solve_decision. Defined.
#[global] Instance PDRole_eq_dec : EqDecision PDRole.
Proof. solve_decision. Defined.
#[global] Instance InsConditionEvent_eq_dec : EqDecision InsConditionEvent.
Proof. solve_decision. Defined.
#[global] Instance EndpointStatus_eq_dec : EqDecision EndpointStatus.
Proof. solve_decision. Defined.
#[global] Instance WorkloadAction_eq_dec : EqDecision WorkloadAction.
Proof. solve_decision. Defined.

(** [PDRole.value] and the constructor [PDRole(s)]: [ValueError] on other strings. *)
Definition PDRole_value (r : PDRole) : string :=
  match r with ROLE_P => "prefill" | ROLE_D => "decode" | ROLE_U => "both" end.

Definition PDRole_of_string (s : string) : py PDRole :=
  if decide (s = "prefill") then Ret ROLE_P
  else if decide (s = "decode") then Ret ROLE_D
  else if decide (s = "both") then Ret ROLE_U
  else Raise ValueError.

(** ** Workload *)

Record Workload := mkWorkload { active_kv_cache : f64; active_tokens : f64 }.

#[global] Instance Workload_eq_dec : EqDecision Workload.
Proof. solve_decision. Defined.

(** [Workload()]: both fields 0. *)
Definition Workload0 : Workload := mkWorkload f0 f0.

(** [Workload.__iadd__]. *)
Definition workload_iadd (w other : Workload) : Workload :=
  mkWorkload (fadd (active_kv_cache w) (active_kv_cache other))
             (fadd (active_tokens w) (active_tokens other)).

(** The literals 0.3 and 0.15 of the code, as binary64. *)
Definition f_0_3 : f64 := S754_finite false 5404319552844595 (-54).
Definition f_0_15 : f64 := S754_finite false 5404319552844595 (-55).

Definition calculate_workload_score (w : Workload) (role : option string) : py f64 :=
  match role with
  | None => Raise ValueError
  | Some role_value =>
      if decide (role_value = "prefill") then
        Ret (fadd (active_tokens w) (fmul (active_kv_cache w) f_0_3))
      else if decide (role_value = "decode") then Ret (active_tokens w)
      else if decide (role_value = "both") then
        Ret (fadd (active_tokens w) (fmul (active_kv_cache w) f_0_15))
      else Raise ValueError
  end.

(** ** Devices and endpoints *)

Record DeviceInfo := mkDeviceInfo {
  device_ip : option string;
  device_id : string;
  rank_id : string;
  super_device_id : option string
}.

#[global] Instance DeviceInfo_eq_dec : EqDecision DeviceInfo.
Proof. solve_decision. Defined.

Record Endpoint := mkEndpoint {
  ep_id : Z;
  ep_ip : string;
  business_port : string;
  mgmt_port : string;
  ep_status : EndpointStatus;
  device_infos : list DeviceInfo;
  hb_timestamp : f64;
  workload : Workload
}.

#[global] Instance Endpoint_eq_dec : EqDecision Endpoint.
Proof. solve_decision. Defined.

(** [Endpoint.__init__]: absent optional arguments take their defaults; the
    heartbeat timestamp defaults to the current time [now]. *)
Definition Endpoint_init (now : f64) (id : Z) (ip bport mport : string)
    (status : option EndpointStatus) (devs : option (list DeviceInfo))
    (hb : option f64) (w : option Workload) : Endpoint :=
  mkEndpoint id ip bport mport (default EP_INITIAL status) (default [] devs)
    (default now hb) (default Workload0 w).

Definition add_device (e : Endpoint) (d : DeviceInfo) : Endpoint :=
  if decide (d ∈ device_infos e) then e
  else mkEndpoint (ep_id e) (ep_ip e) (business_port e) (mgmt_port e) (ep_status e)
         (device_infos e ++ [d]) (hb_timestamp e) (workload e).

(** [list.remove]: the first occurrence. *)
Fixpoint list_remove_first {A} `{!EqDecision A} (x : A) (l : list A) : list A :=
  match l with
  | [] => []
  | y :: l' => if decide (x = y) then l' else y :: list_remove_first x l'
  end.

Definition del_device (e : Endpoint) (d : DeviceInfo) : Endpoint :=
  if decide (d ∈ device_infos e) then
    mkEndpoint (ep_id e) (ep_ip e) (business_port e) (mgmt_port e) (ep_status e)
      (list_remove_first d (device_infos e)) (hb_timestamp e) (workload e)
  else e.

Definition is_alive (e : Endpoint) (timestamp heartbeat_timeout : f64) : bool :=
  fle (fsub timestamp (hb_timestamp e)) heartbeat_timeout.

Definition set_hb (e : Endpoint) (t : f64) : Endpoint :=
  mkEndpoint (ep_id e) (ep_ip e) (business_port e) (mgmt_port e) (ep_status e)
    (device_infos e) t (workload e).
Definition set_ep_status (e : Endpoint) (s : EndpointStatus) : Endpoint :=
  mkEndpoint (ep_id e) (ep_ip e) (business_port e) (mgmt_port e) s
    (device_infos e) (hb_timestamp e) (workload e).
Definition set_ep_workload (e : Endpoint) (w : Workload) : Endpoint :=
  mkEndpoint (ep_id e) (ep_ip e) (business_port e) (mgmt_port e) (ep_status e)
    (device_infos e) (hb_timestamp e) w.

(** ** Node managers and parallel configuration *)

Record NodeManagerInfo := mkNM { pod_ip : string; port : string; device_num : Z }.

#[global] Instance NodeManagerInfo_eq_dec : EqDecision NodeManagerInfo.
Proof. solve_decision. Defined.

Record ParallelConfig := mkPC {
  dp_size : Z; cp_size : Z; tp_size : Z; sp_size : Z; ep_size : Z; pp_size : Z;
  world_size : Z
}.

(** [ParallelConfig.__init__]: a missing or zero world size is
    [dp * cp * tp * pp]; with [enable_ep] the expert parallel size is the world
    size. *)
Definition ParallelConfig_init (dp cp tp sp ep pp world : option Z)
    (enable_ep : bool) : ParallelConfig :=
  let dp_val := default 1 dp in
  let cp_val := default 1 cp in
  let tp_val := default 1 tp in
  let sp_val := default 1 sp in
  let pp_val := default 1 pp in
  let world0 := default 0 world in
  let world_val := if world0 =? 0 then dp_val * cp_val * tp_val * pp_val else world0 in
  let ep_val := if enable_ep then world_val else default 1 ep in
  mkPC dp_val cp_val tp_val sp_val ep_val pp_val world_val.

(** ** Instances *)

(** A pointer to an endpoint object: the pod and the key of the pod's dictionary. *)
Abbreviation eptr := (string * Z)%type.
Abbreviation pod_endpoints := (dict Z Endpoint).

Record Instance := mkInstance {
  job_name : string;
  model_name : string;
  ins_id : Z;
  role : string;
  status : InsStatus;
  parallel_config : option ParallelConfig;
  enable_multi_endpoints : bool;
  node_managers : list NodeManagerInfo;
  endpoints : dict string pod_endpoints;
  gathered_workload : Workload;
  endpoints_version : Z;
  cached_endpoints_tuple : option (list eptr);
  cached_endpoints_version : option Z
}.

(** [Instance(...)]: pydantic defaults, then the private cache fields. *)
Definition Instance_init (job model : string) (id : Z) (r : string)
    (pc : option ParallelConfig) (multi : bool) : Instance :=
  mkInstance job model id r INITIAL pc multi [] [] Workload0 0 None None.

Definition set_status (i : Instance) (s : InsStatus) : Instance :=
  mkInstance (job_name i) (model_name i) (ins_id i) (role i) s (parallel_config i)
    (enable_multi_endpoints i) (node_managers i) (endpoints i) (gathered_workload i)
    (endpoints_version i) (cached_endpoints_tuple i) (cached_endpoints_version i).
Definition set_node_managers (i : Instance) (l : list NodeManagerInfo) : Instance :=
  mkInstance (job_name i) (model_name i) (ins_id i) (role i) (status i) (parallel_config i)
    (enable_multi_endpoints i) l (endpoints i) (gathered_workload i)
    (endpoints_version i) (cached_endpoints_tuple i) (cached_endpoints_version i).
(** Assignment of the dictionary alone (no version bump). *)
Definition set_endpoints (i : Instance) (d : dict string pod_endpoints) : Instance :=
  mkInstance (job_name i) (model_name i) (ins_id i) (role i) (status i) (parallel_config i)
    (enable_multi_endpoints i) (node_managers i) d (gathered_workload i)
    (endpoints_version i) (cached_endpoints_tuple i) (cached_endpoints_version i).
Definition set_gathered (i : Instance) (w : Workload) : Instance :=
  mkInstance (job_name i) (model_name i) (ins_id i) (role i) (status i) (parallel_config i)
    (enable_multi_endpoints i) (node_managers i) (endpoints i) w
    (endpoints_version i) (cached_endpoints_tuple i) (cached_endpoints_version i).
Definition bump_version (i : Instance) : Instance :=
  mkInstance (job_name i) (model_name i) (ins_id i) (role i) (status i) (parallel_config i)
    (enable_multi_endpoints i) (node_managers i) (endpoints i) (gathered_workload i)
    (endpoints_version i + 1) (cached_endpoints_tuple i) (cached_endpoints_version i).
Definition set_cache (i : Instance) (t : list eptr) : Instance :=
  mkInstance (job_name i) (model_name i) (ins_id i) (role i) (status i) (parallel_config i)
    (enable_multi_endpoints i) (node_managers i) (endpoints i) (gathered_workload i)
    (endpoints_version i) (Some t) (Some (endpoints_version i)).

Definition add_node_mgr (i : Instance) (ip pt : option string) (devs : Z) : Instance :=
  match ip, pt with
  | Some ip, Some pt =>
      let nm := mkNM ip pt devs in
      if decide (nm ∈ node_managers i) then i
      else set_node_managers i (node_managers i ++ [nm])
  | _, _ => i
  end.

(** The record searched for is rebuilt from [pod_ip] and [port] only, so its
    [device_num] is the default 0. *)
Definition del_node_mgr (i : Instance) (ip pt : option string) : Instance :=
  match ip, pt with
  | Some ip, Some pt =>
      let nm := mkNM ip pt 0 in
      if decide (nm ∈ node_managers i) then
        set_node_managers i (list_remove_first nm (node_managers i))
      else i
  | _, _ => i
  end.

Definition has_node_mgr (i : Instance) (ip : string) : bool :=
  existsb (λ nm, bool_decide (pod_ip nm = ip)) (node_managers i).

Definition add_endpoints (i : Instance) (ip : string) (eps : option pod_endpoints) : Instance :=
  match eps with
  | None => i
  | Some eps => bump_version (set_endpoints i (dset (endpoints i) ip eps))
  end.

Definition del_endpoints (i : Instance) (ip : string) : Instance :=
  if dhas (endpoints i) ip then bump_version (set_endpoints i (ddel (endpoints i) ip))
  else i.

Definition get_endpoints_num (i : Instance) : Z :=
  foldr (λ pod acc, Z.of_nat (length pod) + acc) 0 (dvalues (endpoints i)).

Definition get_expected_endpoint_count (i : Instance) : Z :=
  match parallel_config i with
  | None => 0
  | Some pc =>
      if enable_multi_endpoints i then dp_size pc
      else match node_managers i with
           | [] => 0
           | nm :: _ =>
               if device_num nm <=? 0 then 0
               else (world_size pc + device_num nm - 1) / device_num nm
           end
  end.

Definition is_endpoints_enough (i : Instance) : bool :=
  match parallel_config i with
  | None => false
  | Some pc =>
      if enable_multi_endpoints i then get_endpoints_num i =? dp_size pc
      else
        let expected := get_expected_endpoint_count i in
        if expected <=? 0 then false
        else Z.of_nat (length (node_managers i)) =? expected
  end.

(** All endpoint objects, in iteration order. *)
Definition endpoints_flat (i : Instance) : list Endpoint :=
  concat (map dvalues (dvalues (endpoints i))).

(** The alarm [ServerExceptionEvent] per endpoint ip, with the ids, in the order
    the loop meets them. *)
Definition group_by_ip (eps : list Endpoint) : dict string (list Z) :=
  fold_left (λ acc e, dset acc (ep_ip e) (default [] (dget acc (ep_ip e)) ++ [ep_id e])) eps [].

Definition ACTIVE_INSTANCE_HEARTBEAT_TIMEOUT : f64 := f_of_Z 5.
Definition CLEAR_INSTANCE_TIMEOUT : f64 := f_of_Z 300.

Definition is_all_endpoints_alive (i : Instance) (now : f64) : bool * dict string (list Z) :=
  let timeout := if decide (status i = ACTIVE) then ACTIVE_INSTANCE_HEARTBEAT_TIMEOUT
                 else CLEAR_INSTANCE_TIMEOUT in
  let dead := group_by_ip (List.filter (λ e, negb (is_alive e now timeout)) (endpoints_flat i)) in
  (bool_decide (dead = []), dead).

Definition is_all_endpoints_ready (i : Instance) : bool :=
  forallb (λ e, bool_decide (ep_status e = EP_NORMAL)) (endpoints_flat i).

Definition is_have_one_endpoint_abnormal (i : Instance) : bool * dict string (list Z) :=
  let bad := group_by_ip (List.filter (λ e, bool_decide (ep_status e = EP_ABNORMAL))
                            (endpoints_flat i)) in
  (bool_decide (bad ≠ []), bad).

Definition is_ip_in_endpoints (i : Instance) (ip : string) : bool := dhas (endpoints i) ip.

(** The loop of [update_heartbeat] over one pod: each endpoint gets the
    timestamp, then its status; a missing id raises [KeyError] with the
    endpoints before it (and the timestamp of this one) already written. *)
Fixpoint heartbeat_pod (ts : f64) (st : dict Z EndpointStatus) (pod : pod_endpoints)
    : pod_endpoints * py unit :=
  match pod with
  | [] => ([], Ret tt)
  | (k, e) :: rest =>
      let e1 := set_hb e ts in
      match dget st (ep_id e) with
      | None => ((k, e1) :: rest, Raise KeyError)
      | Some s =>
          let '(rest', r) := heartbeat_pod ts st rest in
          ((k, set_ep_status e1 s) :: rest', r)
      end
  end.

Definition update_heartbeat (i : Instance) (ip : string) (ts : f64)
    (st : dict Z EndpointStatus) : Instance * py bool :=
  match dget (endpoints i) ip with
  | None => (i, Ret false)
  | Some pod =>
      if bool_decide (length pod ≠ length st) then (i, Ret false)
      else
        let '(pod', r) := heartbeat_pod ts st pod in
        (set_endpoints i (dset (endpoints i) ip pod'), _ ← r; Ret true)
  end.

Definition get_endpoints (i : Instance) (ip : string) : pod_endpoints :=
  default [] (dget (endpoints i) ip).

(** Following an endpoint pointer. *)
Definition deref (i : Instance) (p : eptr) : option Endpoint :=
  match dget (endpoints i) p.1 with
  | Some pod => dget pod p.2
  | None => None
  end.

(** The rebuild loop of [get_all_endpoints]. *)
Definition scan_endpoints (i : Instance) : list eptr :=
  concat (map (λ '(ip, pod),
    concat (map (λ '(k, e),
      if enable_multi_endpoints i then [(ip, k)]
      else if ep_id e =? 0 then [(ip, k)] else []) pod)) (endpoints i)).

Definition get_all_endpoints (i : Instance) : list eptr * Instance :=
  match cached_endpoints_tuple i with
  | Some t =>
      if decide (cached_endpoints_version i = Some (endpoints_version i)) then (t, i)
      else (scan_endpoints i, set_cache i (scan_endpoints i))
  | None => (scan_endpoints i, set_cache i (scan_endpoints i))
  end.

Definition get_node_managers_num (i : Instance) : Z := Z.of_nat (length (node_managers i)).
Definition get_node_managers (i : Instance) : list NodeManagerInfo := node_managers i.
Definition update_instance_status (i : Instance) (s : InsStatus) : Instance := set_status i s.

(** [ReadOnlyInstance.to_instance]: a new [Instance] from four fields, then five
    copied attributes; [enable_multi_endpoints] is not among them and takes its
    default. *)
Definition to_instance (i : Instance) : Instance :=
  let c0 := Instance_init (job_name i) (model_name i) (ins_id i) (role i) None true in
  let c1 := set_status c0 (status i) in
  let c2 := mkInstance (job_name c1) (model_name c1) (ins_id c1) (role c1) (status c1)
              (parallel_config i) (enable_multi_endpoints c1) (node_managers c1)
              (endpoints c1) (gathered_workload c1) (endpoints_version c1)
              (cached_endpoints_tuple c1) (cached_endpoints_version c1) in
  let c3 := set_node_managers c2 (node_managers i) in
  let c4 := set_endpoints c3 (endpoints i) in
  set_gathered c4 (gathered_workload i).

(** ** Method sequences *)

(** The public methods that change an instance, as data, and their execution. *)
Inductive ins_op :=
| OpAddNM (ip pt : option string) (devs : Z)
| OpDelNM (ip pt : option string)
| OpAddEndpoints (ip : string) (eps : option pod_endpoints)
| OpDelEndpoints (ip : string)
| OpHeartbeat (ip : string) (ts : f64) (st : dict Z EndpointStatus)
| OpGetAll
| OpStatus (s : InsStatus).

Definition ins_step (i : Instance) (o : ins_op) : Instance :=
  match o with
  | OpAddNM ip pt n => add_node_mgr i ip pt n
  | OpDelNM ip pt => del_node_mgr i ip pt
  | OpAddEndpoints ip eps => add_endpoints i ip eps
  | OpDelEndpoints ip => del_endpoints i ip
  | OpHeartbeat ip ts st => (update_heartbeat i ip ts st).1
  | OpGetAll => (get_all_endpoints i).2
  | OpStatus s => update_instance_status i s
  end.

Definition ins_run (i : Instance) (ops : list ins_op) : Instance := fold_left ins_step ops i.

(** Instances are shared objects: a store maps addresses to them, and a reference to an
    endpoint is the address of its instance with a pointer inside it. *)
Abbreviation ref := nat.
Abbreviation epref := (ref * eptr)%type.

Definition store_set (st : ref → Instance) (r : ref) (i : Instance) : ref → Instance :=
  λ r', if decide (r' = r) then i else st r'.

(** A two-endpoint instance on one node, on which the witnesses evaluate. *)
Definition sample_endpoint (id : Z) : Endpoint :=
  Endpoint_init f0 id "10.0.0.1" "80" "81" None None None None.
Definition sample_instance (id : Z) (r : string) : Instance :=
  add_endpoints (Instance_init "job" "m" id r None true) "10.0.0.1"
    (Some [(0, sample_endpoint 0); (1, sample_endpoint 1)]).

(** The endpoint cache invariant: a cache whose version is current holds what a
    rebuild would give, and no cache is from the future. *)
Definition cache_ok (i : Instance) : Prop :=
  (∀ t, cached_endpoints_tuple i = Some t →
        cached_endpoints_version i = Some (endpoints_version i) → t = scan_endpoints i) ∧
  (∀ v, cached_endpoints_version i = Some v → v ≤ endpoints_version i).

(** Lemmas *)

Lemma heartbeat_pod_shape ts st pod :
  (λ p : Z * Endpoint, (p.1, ep_id p.2)) <$> (heartbeat_pod ts st pod).1 =
  (λ p, (p.1, ep_id p.2)) <$> pod.
Proof.
  induction pod as [|[k e] rest IH]; simpl; [done|].
  destruct (dget st (ep_id e)); [|done].
  destruct (heartbeat_pod ts st rest). simpl in *. f_equal. apply IH.
Qed.

Lemma scan_pod_shape (multi : bool) (ip : string) (pod pod' : pod_endpoints) :
  (λ p : Z * Endpoint, (p.1, ep_id p.2)) <$> pod =
  (λ p, (p.1, ep_id p.2)) <$> pod' →
  concat (map (λ '(k, e), if multi then [(ip, k)]
                          else if ep_id e =? 0 then [(ip, k)] else []) pod) =
  concat (map (λ '(k, e), if multi then [(ip, k)]
                          else if ep_id e =? 0 then [(ip, k)] else []) pod').
Proof.
  revert pod'. induction pod as [|[k e] rest IH]; intros [|[k' e'] rest']; simpl; try done.
  intros [= -> He Hr]. rewrite He. f_equal. by apply IH.
Qed.

Lemma scan_heartbeat i ip ts st pod :
  dget (endpoints i) ip = Some pod →
  scan_endpoints (set_endpoints i (dset (endpoints i) ip (heartbeat_pod ts st pod).1)) =
  scan_endpoints i.
Proof.
  intros Hp. unfold scan_endpoints. simpl.
  induction (endpoints i) as [|[ip' pod'] d IH]; simpl in *; [done|].
  case_decide as E.
  - injection Hp as ->. subst. simpl. f_equal.
    apply scan_pod_shape, heartbeat_pod_shape.
  - simpl. f_equal. by apply IH.
Qed.

Lemma scan_set_cache i t : scan_endpoints (set_cache i t) = scan_endpoints i.
Proof. done. Qed.

Lemma cache_ok_set_cache i : cache_ok (set_cache i (scan_endpoints i)).
Proof. split; simpl; [by intros t [= <-] | intros v [= <-]; lia]. Qed.

Lemma cache_ok_bump i d :
  cache_ok i → cache_ok (bump_version (set_endpoints i d)).
Proof.
  intros [_ Hv]. split; simpl.
  - intros t _ Hc. specialize (Hv _ Hc). lia.
  - intros v Hc. specialize (Hv _ Hc). lia.
Qed.

Lemma cache_ok_heartbeat i ip ts st :
  cache_ok i → cache_ok (update_heartbeat i ip ts st).1.
Proof.
  intros Hi. unfold update_heartbeat. destruct (dget (endpoints i) ip) as [pod|] eqn:E; [|done].
  case_bool_decide; [done|]. destruct (heartbeat_pod ts st pod) as [pod' r] eqn:Eh. simpl.
  pose proof (scan_heartbeat i ip ts st pod E) as Hs. rewrite Eh in Hs. simpl in Hs.
  destruct Hi as [Ht Hv]. split; simpl; [|done].
  intros t H1 H2. rewrite Hs. by apply Ht.
Qed.

Lemma cache_ok_step i o : cache_ok i → cache_ok (ins_step i o).
Proof.
  intros Hi. destruct o as [[ip|] [pt|] n|[ip|] [pt|]|ip [eps|]|ip|ip ts st| |s]; simpl;
    unfold add_node_mgr, del_node_mgr; try case_decide; try done.
  - by apply cache_ok_bump.
  - unfold del_endpoints. destruct (dhas _ _); [by apply cache_ok_bump|done].
  - by apply cache_ok_heartbeat.
  - unfold get_all_endpoints. repeat case_match; simpl; auto using cache_ok_set_cache.
Qed.

Lemma cache_ok_run i ops : cache_ok i → cache_ok (ins_run i ops).
Proof.
  revert i. induction ops as [|o ops IH]; intros i Hi; simpl; [done|].
  apply IH. by apply cache_ok_step.
Qed.

Lemma cache_ok_init job model id r pc multi :
  cache_ok (Instance_init job model id r pc multi).
Proof. split; done. Qed.

Lemma get_all_endpoints_scan i :
  cache_ok i → (get_all_endpoints i).1 = scan_endpoints i.
Proof.
  intros [Hi _]. unfold get_all_endpoints.
  destruct (cached_endpoints_tuple i) eqn:E; [|done].
  case_decide; [|done]. simpl. by apply Hi.
Qed.

(** No reference an instance exposes is dangling. *)
Lemma scan_endpoints_deref i p :
  dict_wf (endpoints i) → p ∈ scan_endpoints i → is_Some (deref i p).
Proof.
  intros Hw. unfold scan_endpoints. rewrite list_elem_of_In, in_concat.
  intros (l & Hl & Hp). apply in_map_iff in Hl as ([ip pod] & <- & Hin).
  apply in_concat in Hp as (l' & Hl' & Hp). apply in_map_iff in Hl' as ([k e] & <- & Hk).
  assert (p = (ip, k)) as -> by (destruct (enable_multi_endpoints i), (ep_id e =? 0); simpl in Hp; naive_solver).
  unfold deref. simpl. rewrite (dget_in_wf _ ip pod) by (done || by apply list_elem_of_In).
  apply elem_of_dkeys. apply list_elem_of_fmap. exists (k, e). by rewrite list_elem_of_In.
Qed.

Lemma get_all_endpoints_deref i p :
  cache_ok i → dict_wf (endpoints i) → p ∈ (get_all_endpoints i).1 → is_Some (deref i p).
Proof. intros Hc Hw. rewrite get_all_endpoints_scan by done. by apply scan_endpoints_deref. Qed.

#[export] Hint Resolve cache_ok_init cache_ok_step cache_ok_run cache_ok_heartbeat : motor.

Lemma dead_nil_group l : group_by_ip l = [] ↔ l = [].
Proof.
  unfold group_by_ip.
  assert (∀ l (acc : dict string (list Z)), acc ≠ [] →
    fold_left (λ acc e, dset acc (ep_ip e) (default [] (dget acc (ep_ip e)) ++ [ep_id e])) l acc
      ≠ []) as Hne.
  { clear l. intros l. induction l as [|e l IH]; intros acc Ha; simpl; [done|]. apply IH.
    destruct acc as [|[k v] acc]; [done|]. simpl. by case_decide. }
  destruct l as [|e l]; simpl; [done|]. split; [|done]. intros H. by apply Hne in H.
Qed.

Lemma filter_nil_iff {A} (f : A → bool) l :
  List.filter f l = [] ↔ ∀ x, x ∈ l → f x = false.
Proof.
  induction l as [|x l IH]; simpl.
  - split; [by intros _ x ?%elem_of_nil|done].
  - destruct (f x) eqn:E.
    + split; [done|]. intros H. rewrite (H x) in E; [done|left].
    + rewrite IH. split.
      * intros H y [->|Hy]%elem_of_cons; auto.
      * intros H y Hy. apply H. by right.
Qed.

Lemma heartbeat_pod_ok ts st pod :
  (∀ e, e ∈ dvalues pod → is_Some (dget st (ep_id e))) →
  heartbeat_pod ts st pod =
  ((λ p : Z * Endpoint,
      (p.1, set_ep_status (set_hb p.2 ts) (default EP_INITIAL (dget st (ep_id p.2))))) <$> pod,
   Ret tt).
Proof.
  induction pod as [|[k e] rest IH]; intros H; simpl; [done|].
  destruct (H e) as [s Hs]; [left|]. rewrite Hs. simpl.
  rewrite IH; [done|]. intros e' He'. apply H. by right.
Qed.

Lemma heartbeat_pod_KeyError ts st pod e :
  e ∈ dvalues pod → dget st (ep_id e) = None → (heartbeat_pod ts st pod).2 = Raise KeyError.
Proof.
  induction pod as [|[k e'] rest IH]; simpl; [by intros ?%elem_of_nil|].
  intros [->|Hin]%elem_of_cons Hn; simpl.
  - by rewrite Hn.
  - destruct (dget st (ep_id e')); [|done].
    specialize (IH Hin Hn). destruct (heartbeat_pod ts st rest). done.
Qed.

(** ** Properties *)

(** After any sequence of method calls on a new instance,
    [get_all_endpoints] returns exactly what rebuilding the tuple from the
    endpoint dictionary would return: the version counter invalidates every
    stale cache. *)
Theorem get_all_endpoints_coherent job model id r pc multi ops :
  let i := ins_run (Instance_init job model id r pc multi) ops in
  (get_all_endpoints i).1 = scan_endpoints i.
Proof. intros i. apply get_all_endpoints_scan. apply cache_ok_run, cache_ok_init. Qed.

(** The four outcomes of [update_heartbeat]: an unknown pod and a status
    map of the wrong size are refused without any change; a map that covers
    every endpoint of the pod writes the timestamp and that endpoint's status to
    each of them and to no other pod; a missing id raises [KeyError]. *)
Theorem update_heartbeat_outcomes i ip ts st :
  match dget (endpoints i) ip with
  | None => update_heartbeat i ip ts st = (i, Ret false)
  | Some pod =>
      (length pod ≠ length st → update_heartbeat i ip ts st = (i, Ret false)) ∧
      (length pod = length st →
       (∀ e, e ∈ dvalues pod → is_Some (dget st (ep_id e))) →
       let i' := (update_heartbeat i ip ts st).1 in
       (update_heartbeat i ip ts st).2 = Ret true ∧
       (∀ k e, dget pod k = Some e →
          deref i' (ip, k) =
            Some (set_ep_status (set_hb e ts) (default EP_INITIAL (dget st (ep_id e))))) ∧
       (∀ ip', ip' ≠ ip → dget (endpoints i') ip' = dget (endpoints i) ip')) ∧
      (length pod = length st →
       (∃ e, e ∈ dvalues pod ∧ dget st (ep_id e) = None) →
       (update_heartbeat i ip ts st).2 = Raise KeyError)
  end.
Proof.
  destruct (dget (endpoints i) ip) as [pod|] eqn:E; unfold update_heartbeat; rewrite E;
    [|done].
  split_and!.
  - intros ?. by rewrite bool_decide_true.
  - intros ? Hall. rewrite bool_decide_false by (by intros []). rewrite heartbeat_pod_ok by done.
    simpl. split_and!; [done| |].
    + intros k e Hk. unfold deref. simpl. rewrite dget_dset_eq. clear -Hk.
      induction pod as [|[k' e'] pod IH]; simpl in *; [done|].
      case_decide; [by simplify_eq|by apply IH].
    + intros ip' Hne. by rewrite dget_dset_ne.
  - intros ? (e & He & Hn). rewrite bool_decide_false by (by intros []).
    pose proof (heartbeat_pod_KeyError ts st pod e He Hn) as Hk.
    destruct (heartbeat_pod ts st pod). simpl in *. by subst.
Qed.

(** An instance passes the liveness check exactly when every endpoint's
    heartbeat is within the timeout of its status, and the alarms raised name
    no endpoint in that case. *)
Theorem is_all_endpoints_alive_spec i now :
  let timeout := if decide (status i = ACTIVE) then ACTIVE_INSTANCE_HEARTBEAT_TIMEOUT
                 else CLEAR_INSTANCE_TIMEOUT in
  ((is_all_endpoints_alive i now).1 = true ↔
     ∀ e, e ∈ endpoints_flat i → is_alive e now timeout = true) ∧
  ((is_all_endpoints_alive i now).1 = true ↔ (is_all_endpoints_alive i now).2 = []).
Proof.
  unfold is_all_endpoints_alive. simpl. rewrite bool_decide_eq_true. split; [|done].
  rewrite dead_nil_group, filter_nil_iff. split.
  - intros H e He. specialize (H e He). by apply negb_false_iff in H.
  - intros H e He. rewrite (H e He). done.
Qed.

(** [del_node_mgr] undoes [add_node_mgr] only for node managers registered
    with [device_num = 0]: for any other device count the record stays, so the
    pod still counts as registered. *)
Theorem del_node_mgr_after_add i ip pt n :
  has_node_mgr i ip = false →
  let i1 := add_node_mgr i (Some ip) (Some pt) n in
  (n = 0 → node_managers (del_node_mgr i1 (Some ip) (Some pt)) = node_managers i) ∧
  (n ≠ 0 → del_node_mgr i1 (Some ip) (Some pt) = i1 ∧
           has_node_mgr (del_node_mgr i1 (Some ip) (Some pt)) ip = true).
Proof.
  intros Hno i1.
  assert (∀ m, mkNM ip pt m ∉ node_managers i) as Hnin.
  { intros m Hin. apply not_true_iff_false in Hno. apply Hno. unfold has_node_mgr.
    apply existsb_exists. exists (mkNM ip pt m). split.
    - by apply list_elem_of_In.
    - by apply bool_decide_eq_true. }
  unfold i1, add_node_mgr. rewrite decide_False by done.
  split; intros Hn; simpl.
  - subst. rewrite decide_True by (simpl; apply elem_of_app; right; by left). simpl.
    specialize (Hnin 0). revert Hnin. generalize (node_managers i). intros l Hl.
    induction l as [|x l IH]; simpl.
    + by rewrite decide_True.
    + apply not_elem_of_cons in Hl as [??]. rewrite decide_False by done. f_equal. by apply IH.
  - rewrite decide_False.
    + split; [done|]. unfold has_node_mgr. simpl. rewrite existsb_app. simpl.
      rewrite bool_decide_true by done. by rewrite orb_true_r.
    + simpl. rewrite elem_of_app, list_elem_of_singleton. intros [?|[= ?]]; [|by subst].
      by apply (Hnin 0).
Qed.

Lemma del_node_mgr_after_add_witness :
  let i := Instance_init "job" "m" 1 "prefill" None true in
  has_node_mgr i "10.0.0.1" = false ∧
  has_node_mgr (del_node_mgr (add_node_mgr i (Some "10.0.0.1") (Some "80") 8)
                  (Some "10.0.0.1") (Some "80")) "10.0.0.1" = true.
Proof.
  split; [reflexivity|].
  apply (del_node_mgr_after_add (Instance_init "job" "m" 1 "prefill" None true)
           "10.0.0.1" "80" 8); [reflexivity|discriminate].
Defined.

(** Without multi-endpoint mode, an instance with devices is complete with
    exactly the least number of nodes whose devices cover the world size. *)
Theorem is_endpoints_enough_nodes i pc nm rest :
  parallel_config i = Some pc → enable_multi_endpoints i = false →
  node_managers i = nm :: rest → 0 < device_num nm → 0 < world_size pc →
  is_endpoints_enough i = true ↔
  (world_size pc ≤ Z.of_nat (length (node_managers i)) * device_num nm ∧
   (Z.of_nat (length (node_managers i)) - 1) * device_num nm < world_size pc).
Proof.
  intros Hpc Hm Hnm Hd Hw. unfold is_endpoints_enough, get_expected_endpoint_count.
  rewrite Hpc, Hm, Hnm. destruct (Z.leb_spec (device_num nm) 0); [lia|].
  set (d := device_num nm) in *. set (w := world_size pc) in *.
  set (n := Z.of_nat (length (nm :: rest))).
  assert (0 < (w + d - 1) / d) by (apply Z.div_str_pos; lia).
  destruct (Z.leb_spec ((w + d - 1) / d) 0); [lia|]. rewrite Z.eqb_eq.
  pose proof (Z.div_mod (w + d - 1) d ltac:(lia)) as Hdm.
  pose proof (Z.mod_pos_bound (w + d - 1) d ltac:(lia)). split.
  - intros Hn. rewrite Hn. nia.
  - intros [Hlo Hhi]. assert (n < (w + d - 1) / d + 1) by nia.
    assert ((w + d - 1) / d < n + 1) by nia. lia.
Qed.

Lemma is_endpoints_enough_nodes_witness :
  let i := set_node_managers (Instance_init "j" "m" 1 "prefill"
             (Some (ParallelConfig_init (Some 4) None (Some 4) None None None None false)) false)
             [mkNM "a" "80" 8; mkNM "b" "80" 8] in
  is_endpoints_enough i = true ↔ (16 ≤ 2 * 8 ∧ (2 - 1) * 8 < 16).
Proof.
  apply (is_endpoints_enough_nodes
    (set_node_managers (Instance_init "j" "m" 1 "prefill"
      (Some (ParallelConfig_init (Some 4) None (Some 4) None None None None false)) false)
      [mkNM "a" "80" 8; mkNM "b" "80" 8])
    (ParallelConfig_init (Some 4) None (Some 4) None None None None false)
    (mkNM "a" "80" 8) [mkNM "b" "80" 8]); reflexivity.
Defined.

(** The copy sent to the coordinator equals the original except that
    [enable_multi_endpoints] is reset to [True] (and the cache is empty): the
    copy of a single-endpoint instance exposes all its endpoints, not only the
    endpoint with id 0. *)
Theorem to_instance_copy i :
  to_instance i =
  mkInstance (job_name i) (model_name i) (ins_id i) (role i) (status i) (parallel_config i)
    true (node_managers i) (endpoints i) (gathered_workload i) 0 None None ∧
  (get_all_endpoints (to_instance i)).1 =
  concat (map (λ '(ip, pod), (λ p, (ip, p)) <$> dkeys pod) (endpoints i)).
Proof.
  split; [done|]. unfold get_all_endpoints. simpl. unfold scan_endpoints. simpl.
  f_equal. apply map_ext. intros [ip pod]. induction pod as [|[k e] pod IH]; simpl; [done|].
  f_equal. apply IH.
Qed.
