(* ===== verification/Policies.v ===== *)
(** * Scheduling policies

    Models [motor/coordinator/scheduler/policy]: the load-balance, round-robin
    and KV-cache-affinity selection routines, and the facade
    [BaseSchedulingPolicy.select_instance_and_endpoint] over the class interface
    [SchedulingPolicy].  A selected endpoint is a pointer into the selected
    instance (see [Resources.deref]). *)

From stdpp Require Import base option list strings.
From Stdlib Require Import ZArith Lia.
From S2P Require Import Prelude Float64 Resources.
Open Scope Z_scope.

(** ** The minimum loop

    [min_workload = inf; for x in xs: try: if score(x) < min: ...; except: continue]. *)
Definition min_step {A} (score : A → py f64) (acc : f64 * option A) (x : A) : f64 * option A :=
  match score x with
  | Ret s => if flt s acc.1 then (s, Some x) else acc
  | Raise _ => acc
  end.

Definition min_loop {A} (score : A → py f64) (xs : list A) : option A :=
  (fold_left (min_step score) xs (finf, None)).2.

(** ** LoadBalancePolicy *)

Definition instance_score (i : Instance) : py f64 :=
  calculate_workload_score (gathered_workload i) (Some (role i)).

(** The instances in the order the index walk [(start_index + i) % n] meets them. *)
Definition index_walk {A} (xs : list A) (start_index : Z) : list A :=
  let n := Z.of_nat (length xs) in
  omap (λ i, xs !! Z.to_nat ((start_index + Z.of_nat i) mod n)) (seq 0 (length xs)).

Definition lb_select_instance_from_list (instances : list Instance) (start_index : Z)
    : option Instance :=
  if decide (start_index ≠ 0) then
    match instances with
    | [] => None
    | _ => min_loop instance_score (index_walk instances start_index)
    end
  else min_loop instance_score instances.

(** The score of the endpoint a pointer designates; a dangling pointer would be
    an [AttributeError], which the loop swallows like any exception. *)
Definition endpoint_score (i : Instance) (p : eptr) : py f64 :=
  match deref i p with
  | Some e => calculate_workload_score (workload e) (Some (role i))
  | None => Raise AttributeError
  end.

Definition lb_select_endpoint_from_instance (i : Instance) : option eptr * Instance :=
  let '(all_endpoints, i') := get_all_endpoints i in
  match all_endpoints with
  | [] => (None, i')
  | _ => (min_loop (endpoint_score i') all_endpoints, i')
  end.

(** ** RoundRobinPolicy *)

Definition rr_select_instance_from_list (instances : list Instance) (counter : Z)
    : option Instance * Z :=
  match instances with
  | [] => (None, counter)
  | _ =>
      let idx := counter mod Z.of_nat (length instances) in
      (instances !! Z.to_nat idx, counter + 1)
  end.

(** Also used by the client, which owns its own counters. *)
Definition rr_select_endpoint_from_instance (i : Instance) (counters : dict Z Z)
    : option eptr * Instance * dict Z Z :=
  let '(all_endpoints, i') := get_all_endpoints i in
  match all_endpoints with
  | [] => (None, i', counters)
  | _ =>
      let n := Z.of_nat (length all_endpoints) in
      let counters1 := if dhas counters (ins_id i) then counters
                       else dset counters (ins_id i) 0 in
      let c := default 0 (dget counters1 (ins_id i)) in
      (all_endpoints !! Z.to_nat (c mod n), i', dset counters1 (ins_id i) ((c + 1) mod n))
  end.

Record RoundRobinPolicy := mkRR {
  instance_rr_counters : dict (option PDRole) Z;
  endpoint_rr_counters : dict Z Z
}.

Definition RoundRobinPolicy_init : RoundRobinPolicy := mkRR [] [].

(** [_select_instance], on the list the provider returns for [role]. *)
Definition rr_select_instance (p : RoundRobinPolicy) (active : list Instance)
    (r : option PDRole) : option Instance * RoundRobinPolicy :=
  match active with
  | [] => (None, p)
  | _ =>
      let cs := if dhas (instance_rr_counters p) r then instance_rr_counters p
                else dset (instance_rr_counters p) r 0 in
      let counter := default 0 (dget cs r) in
      let '(sel, next) := rr_select_instance_from_list active counter in
      (sel, mkRR (dset cs r (next mod Z.of_nat (length active))) (endpoint_rr_counters p))
  end.

Definition rr_select_endpoint (p : RoundRobinPolicy) (i : Instance)
    : option eptr * Instance * RoundRobinPolicy :=
  let '(all_endpoints, i1) := get_all_endpoints i in
  match all_endpoints with
  | [] => (None, i1, p)
  | _ =>
      let '(ep, i2, cs) := rr_select_endpoint_from_instance i1 (endpoint_rr_counters p) in
      (ep, i2, mkRR (instance_rr_counters p) cs)
  end.

(** ** KvCacheAffinityPolicy

    The conductor's answer for the tenant ([None] when the query failed or the tenant
    is missing): per instance id, the longest matched prefix and the matched length
    per data-parallel rank (endpoint id). *)
Record kv_entry := mkKv { longest_matched : Z; kv_DP : dict Z Z }.

Definition kv_step (tenant : dict Z kv_entry) (acc : Z * option Instance * dict Z Z)
    (i : Instance) : Z * option Instance * dict Z Z :=
  let '(max_kv, sel, dp) := acc in
  match dget tenant (ins_id i) with
  | None => acc
  | Some d => if longest_matched d <? max_kv then acc
              else (longest_matched d, Some i, kv_DP d)
  end.

Definition kv_ep_step (i : Instance) (dp : dict Z Z) (acc : Z * option eptr) (p : eptr)
    : Z * option eptr :=
  match deref i p with
  | None => acc
  | Some e =>
      let kv := default 0 (dget dp (ep_id e)) in
      if kv <? acc.1 then acc else (kv, Some p)
  end.

(** Every endpoint of the instance, in dictionary order (no id filter here). *)
Definition all_pointers (i : Instance) : list eptr :=
  concat (map (λ '(ip, pod), (λ k, (ip, k)) <$> dkeys pod) (endpoints i)).

Definition kv_select_endpoint_from_list (instances : list Instance)
    (tenant : option (dict Z kv_entry)) : option (Instance * eptr) :=
  match tenant with
  | None => None
  | Some tenant =>
      let '(_, sel, dp) := fold_left (kv_step tenant) instances (0, None, []) in
      match sel with
      | None => None
      | Some i =>
          if decide (dp = []) then None
          else match (fold_left (kv_ep_step i dp) (all_pointers i) (0, None)).2 with
               | None => None
               | Some p => Some (i, p)
               end
      end
  end.

(** ** The policy interface and the facade *)

(** What [BaseSchedulingPolicy] promises its callers.  [P] is the policy's state;
    the provider's answer is passed in.  [policy_tracks] is
    [hasattr(policy, "update_workload")]. *)
Class SchedulingPolicy (P : Type) := {
  policy_select_instance : P → list Instance → option PDRole → option Instance * P;
  policy_select_endpoint : P → Instance → option eptr * Instance * P;
  policy_tracks : bool
}.

Class SchedulingPolicyLaws (P : Type) `{!SchedulingPolicy P} := {
  select_instance_in : ∀ p l r i p',
    policy_select_instance p l r = (Some i, p') → i ∈ l;
  select_endpoint_in : ∀ p i e i' p',
    policy_select_endpoint p i = (Some e, i', p') → e ∈ (get_all_endpoints i).1
}.

Definition select_instance_and_endpoint {P} `{!SchedulingPolicy P} (p : P)
    (active : list Instance) (r : option PDRole) : option (Instance * eptr) * P :=
  match policy_select_instance p active r with
  | (None, p1) => (None, p1)
  | (Some i, p1) =>
      match policy_select_endpoint p1 i with
      | (None, _, p2) => (None, p2)
      | (Some e, i', p2) => (Some (i', e), p2)
      end
  end.

Definition LoadBalance_policy : SchedulingPolicy unit := {|
  policy_select_instance _ l _ :=
    (match l with [] => None | _ => lb_select_instance_from_list l 0 end, tt);
  policy_select_endpoint _ i :=
    let '(e, i') := lb_select_endpoint_from_instance i in (e, i', tt);
  policy_tracks := true
|}.
#[global] Existing Instance LoadBalance_policy.

Definition RoundRobin_policy : SchedulingPolicy RoundRobinPolicy := {|
  policy_select_instance := rr_select_instance;
  policy_select_endpoint := rr_select_endpoint;
  policy_tracks := false
|}.
#[global] Existing Instance RoundRobin_policy.

(** The server-side methods of [KvCacheAffinityPolicy] select nothing, and the
    class defines no [update_workload]. *)
Inductive KvCacheAffinityPolicy := KvCacheAffinity.
Definition KvCacheAffinity_policy : SchedulingPolicy KvCacheAffinityPolicy := {|
  policy_select_instance p _ _ := (None, p);
  policy_select_endpoint p i := (None, i, p);
  policy_tracks := false
|}.
#[global] Existing Instance KvCacheAffinity_policy.

(** ** Repeated selection *)

(** [k] consecutive [_select_instance] calls on an unchanged instance list. *)
Fixpoint rr_run (k : nat) (p : RoundRobinPolicy) (active : list Instance)
    (r : option PDRole) : list (option Instance) * RoundRobinPolicy :=
  match k with
  | O => ([], p)
  | S k =>
      let '(sel, p1) := rr_select_instance p active r in
      let '(rest, p2) := rr_run k p1 active r in
      (sel :: rest, p2)
  end.

(** Lemmas *)

(** The invariant of the minimum loop, from any current minimum [m]. *)
Lemma min_fold_spec {A} (score : A → py f64) xs m sel :
  is_nan m = false →
  (fold_left (min_step score) xs (m, sel) = (m, sel) ∧
   ∀ y sy, y ∈ xs → score y = Ret sy → flt sy m = false) ∨
  (∃ pre x post m', xs = pre ++ x :: post ∧
   fold_left (min_step score) xs (m, sel) = (m', Some x) ∧
   score x = Ret m' ∧ flt m' m = true ∧
   (∀ y sy, y ∈ pre → score y = Ret sy → is_nan sy = false → flt m' sy = true) ∧
   (∀ y sy, y ∈ post → score y = Ret sy → flt sy m' = false)).
Proof.
  revert m sel. induction xs as [|x xs IH]; intros m sel Hm; simpl.
  { left. split; [done|]. by intros y sy ?%elem_of_nil. }
  unfold min_step at 2 4. simpl. destruct (score x) as [s|e] eqn:Es.
  - destruct (flt s m) eqn:Hlt.
    + right. destruct (IH s (Some x) (flt_not_nan_l _ _ Hlt))
        as [[Hf Hy]|(pre & x' & post & m' & -> & Hf & Hs & Hl & Hpre & Hpost)].
      * exists [], x, xs, s. split_and!; try done. by intros y sy ?%elem_of_nil.
      * exists (x :: pre), x', post, m'. split_and!; try done.
        -- by eapply flt_trans.
        -- intros y sy [->|Hin]%elem_of_cons Hy Hn; [|by eapply Hpre]. congruence.
    + destruct (IH m sel Hm)
        as [[Hf Hy]|(pre & x' & post & m' & -> & Hf & Hs & Hl & Hpre & Hpost)].
      * left. split; [done|]. intros y sy [->|Hin]%elem_of_cons Hy'; [congruence|by eapply Hy].
      * right. exists (x :: pre), x', post, m'. split_and!; try done.
        intros y sy [->|Hin]%elem_of_cons Hy Hn; [|by eapply Hpre].
        assert (sy = s) as -> by congruence.
        destruct (flt m' s) eqn:E; [done|].
        rewrite (flt_neg_trans m' s m) in Hl; done.
  - destruct (IH m sel Hm)
      as [[Hf Hy]|(pre & x' & post & m' & -> & Hf & Hs & Hl & Hpre & Hpost)].
    + left. split; [done|]. intros y sy [->|Hin]%elem_of_cons Hy'; [congruence|by eapply Hy].
    + right. exists (x :: pre), x', post, m'. split_and!; try done.
      intros y sy [->|Hin]%elem_of_cons Hy Hn; [congruence|by eapply Hpre].
Qed.

(** [x] is the first element of [xs] with the least score below infinity. *)
Definition first_min {A} (score : A → py f64) (xs : list A) (x : A) : Prop :=
  ∃ pre post s, xs = pre ++ x :: post ∧ score x = Ret s ∧ flt s finf = true ∧
    (∀ y sy, y ∈ pre → score y = Ret sy → is_nan sy = false → flt s sy = true) ∧
    (∀ y sy, y ∈ post → score y = Ret sy → flt sy s = false).

Lemma min_loop_spec {A} (score : A → py f64) xs :
  match min_loop score xs with
  | Some x => first_min score xs x
  | None => ∀ y sy, y ∈ xs → score y = Ret sy → flt sy finf = false
  end.
Proof.
  unfold min_loop.
  destruct (min_fold_spec score xs finf None eq_refl)
    as [[-> Hy]|(pre & x & post & m' & -> & -> & Hs & Hl & Hpre & Hpost)]; simpl; [done|].
  exists pre, post, m'. done.
Qed.

Lemma first_min_in {A} (score : A → py f64) xs x : first_min score xs x → x ∈ xs.
Proof. intros (pre & post & s & -> & _). apply elem_of_app. right. left. Qed.

Lemma min_loop_in {A} (score : A → py f64) xs x : min_loop score xs = Some x → x ∈ xs.
Proof. intros H. pose proof (min_loop_spec score xs) as Hs. rewrite H in Hs.
  by eapply first_min_in. Qed.

Lemma omap_seq_lookup {A} (f : nat → option A) s l :
  (∀ i, (i < length l)%nat → f (s + i)%nat = l !! i) → omap f (seq s (length l)) = l.
Proof.
  revert s. induction l as [|x l IH]; intros s Hf; simpl; [done|].
  specialize (Hf 0%nat) as H0. rewrite Nat.add_0_r in H0. rewrite H0 by (simpl; lia). simpl.
  f_equal. apply IH. intros i Hi. specialize (Hf (S i)). rewrite <- Nat.add_succ_comm in Hf.
  rewrite Hf by (simpl; lia). done.
Qed.

Lemma index_walk_rotate {A} (xs : list A) start :
  xs ≠ [] → index_walk xs start = rotate_left (Z.to_nat (start mod Z.of_nat (length xs))) xs.
Proof.
  intros Hne. unfold index_walk. assert (0 < Z.of_nat (length xs)) as Hn.
  { destruct xs; [done|simpl; lia]. }
  pose proof (Z.mod_pos_bound start _ Hn) as Hb.
  set (f := λ i, xs !! Z.to_nat ((start + Z.of_nat i) mod Z.of_nat (length xs))).
  rewrite <- (omap_seq_lookup f 0 (rotate_left (Z.to_nat (start mod Z.of_nat (length xs))) xs)).
  - by rewrite length_rotate_left.
  - intros i. rewrite length_rotate_left. intros Hi. unfold f.
    rewrite rotate_left_lookup by lia. simpl. f_equal.
    rewrite <- Zplus_mod_idemp_l.
    set (st := start mod Z.of_nat (length xs)) in *.
    replace (st + Z.of_nat i) with (Z.of_nat (Z.to_nat st + i)) by lia.
    rewrite <- Nat2Z.inj_mod. by rewrite Nat2Z.id.
Qed.

Lemma index_walk_perm {A} (xs : list A) start : index_walk xs start ≡ₚ xs.
Proof.
  destruct xs as [|x xs]; [done|]. rewrite index_walk_rotate by done.
  apply rotate_left_perm.
Qed.

Lemma rr_select_counter p active r c :
  active ≠ [] → default 0 (dget (instance_rr_counters p) r) = c →
  (rr_select_instance p active r).1 = active !! Z.to_nat (c mod Z.of_nat (length active)) ∧
  default 0 (dget (instance_rr_counters (rr_select_instance p active r).2) r)
    = (c + 1) mod Z.of_nat (length active).
Proof.
  intros Hne Hc. unfold rr_select_instance.
  destruct active as [|a active]; [done|].
  assert (default 0 (dget (if dhas (instance_rr_counters p) r then instance_rr_counters p
          else dset (instance_rr_counters p) r 0) r) = c) as Hc'.
  { destruct (dhas (instance_rr_counters p) r) eqn:E; [done|].
    apply dhas_false in E. rewrite dget_dset_eq. rewrite E in Hc. done. }
  cbv zeta. rewrite Hc'. simpl rr_select_instance_from_list. cbv zeta beta iota.
  simpl fst; simpl snd. split; [done|]. simpl. by rewrite dget_dset_eq.
Qed.

Lemma rr_select_others p active r r' :
  r' ≠ r → dget (instance_rr_counters (rr_select_instance p active r).2) r'
           = dget (instance_rr_counters p) r'.
Proof.
  intros Hr. unfold rr_select_instance. destruct active as [|a l]; [done|]. simpl.
  rewrite dget_dset_ne by done. case_match; [done|]. by rewrite dget_dset_ne.
Qed.

Lemma rr_run_lookup k p active r c :
  active ≠ [] → default 0 (dget (instance_rr_counters p) r) = c →
  (rr_run k p active r).1 =
  (λ i, active !! Z.to_nat ((c + Z.of_nat i) mod Z.of_nat (length active))) <$> seq 0 k.
Proof.
  intros Hne. revert p c. induction k as [|k IH]; intros p c Hc; [done|].
  destruct (rr_select_counter p active r c Hne Hc) as [H1 H2]. simpl.
  destruct (rr_select_instance p active r) as [sel p1]. simpl in *.
  specialize (IH p1 _ H2). destruct (rr_run k p1 active r) as [rest p2]. simpl in *.
  f_equal; [by rewrite Z.add_0_r|]. rewrite IH, <- fmap_S_seq, <- list_fmap_compose.
  apply list_fmap_ext. intros _ i _. simpl. do 2 f_equal.
  rewrite Zplus_mod_idemp_l. f_equal. lia.
Qed.

Lemma rr_run_counter k p active r c :
  active ≠ [] → default 0 (dget (instance_rr_counters p) r) = c →
  ((0 < k)%nat → default 0 (dget (instance_rr_counters (rr_run k p active r).2) r)
     = (c + Z.of_nat k) mod Z.of_nat (length active)) ∧
  (∀ r', r' ≠ r → dget (instance_rr_counters (rr_run k p active r).2) r'
     = dget (instance_rr_counters p) r').
Proof.
  intros Hne. revert p c. induction k as [|k IH]; intros p c Hc; [split; [lia|done]|].
  destruct (rr_select_counter p active r c Hne Hc) as [H1 H2]. simpl.
  pose proof (rr_select_others p active r) as H3.
  destruct (rr_select_instance p active r) as [sel p1]. simpl in *.
  destruct (IH p1 _ H2) as [IH1 IH2]. destruct (rr_run k p1 active r) as [rest p2] eqn:E.
  simpl in *. split; [|intros r' Hr; etransitivity; [by apply IH2|by apply H3]].
  intros _. destruct k as [|k].
  - injection E as _ <-. by rewrite H2.
  - rewrite IH1 by lia. rewrite Zplus_mod_idemp_l. f_equal. lia.
Qed.

Lemma rr_walk_rotate {A} (active : list A) c :
  active ≠ [] →
  (λ i, active !! Z.to_nat ((c + Z.of_nat i) mod Z.of_nat (length active)))
    <$> seq 0 (length active)
  = Some <$> rotate_left (Z.to_nat (c mod Z.of_nat (length active))) active.
Proof.
  intros Hne. rewrite <- index_walk_rotate by done.
  assert (0 < Z.of_nat (length active)) by (destruct active; [done|simpl; lia]).
  unfold index_walk. generalize (seq 0 (length active)) as l.
  induction l as [|x l IH]; [done|]. simpl.
  destruct (active !! _) as [y|] eqn:E; simpl; [by f_equal|].
  apply lookup_ge_None in E.
  pose proof (Z.mod_pos_bound (c + Z.of_nat x) (Z.of_nat (length active))). lia.
Qed.

Lemma kv_fold_spec tenant l m sel dp :
  (fold_left (kv_step tenant) l (m, sel, dp) = (m, sel, dp) ∧
   ∀ j dj, j ∈ l → dget tenant (ins_id j) = Some dj → longest_matched dj < m) ∨
  (∃ pre i post d, l = pre ++ i :: post ∧
   fold_left (kv_step tenant) l (m, sel, dp) = (longest_matched d, Some i, kv_DP d) ∧
   dget tenant (ins_id i) = Some d ∧ m <= longest_matched d ∧
   (∀ j dj, j ∈ pre → dget tenant (ins_id j) = Some dj → longest_matched dj <= longest_matched d) ∧
   (∀ j dj, j ∈ post → dget tenant (ins_id j) = Some dj → longest_matched dj < longest_matched d)).
Proof.
  revert m sel dp. induction l as [|x l IH]; intros m sel dp; simpl.
  { left. split; [done|]. by intros j dj ?%elem_of_nil. }
  destruct (dget tenant (ins_id x)) as [dx|] eqn:Ex.
  - destruct (longest_matched dx <? m) eqn:El.
    + apply Z.ltb_lt in El.
      destruct (IH m sel dp) as [[-> Hy]|(pre & i & post & d & -> & -> & Hd & Hge & Hp & Hq)].
      * left. split; [done|]. intros j dj [->|Hj]%elem_of_cons ?; [|by eapply Hy].
        by simplify_eq.
      * right. exists (x :: pre), i, post, d. split_and!; try done.
        intros j dj [->|Hj]%elem_of_cons ?; [|by eapply Hp]. simplify_eq. lia.
    + apply Z.ltb_ge in El.
      destruct (IH (longest_matched dx) (Some x) (kv_DP dx))
        as [[-> Hy]|(pre & i & post & d & -> & -> & Hd & Hge & Hp & Hq)]; right.
      * exists [], x, l, dx. split_and!; try done. by intros j dj ?%elem_of_nil.
      * exists (x :: pre), i, post, d. split_and!; try done; [lia|].
        intros j dj [->|Hj]%elem_of_cons ?; [|by eapply Hp]. simplify_eq. lia.
  - destruct (IH m sel dp) as [[-> Hy]|(pre & i & post & d & -> & -> & Hd & Hge & Hp & Hq)].
    + left. split; [done|]. intros j dj [->|Hj]%elem_of_cons ?; [congruence|by eapply Hy].
    + right. exists (x :: pre), i, post, d. split_and!; try done.
      intros j dj [->|Hj]%elem_of_cons ?; [congruence|by eapply Hp].
Qed.

Lemma kv_ep_fold_spec i dp l m sel :
  let kv e := default 0 (dget dp (ep_id e)) in
  (fold_left (kv_ep_step i dp) l (m, sel) = (m, sel) ∧
   ∀ q e, q ∈ l → deref i q = Some e → kv e < m) ∨
  (∃ q e, q ∈ l ∧ deref i q = Some e ∧ m <= kv e ∧
   fold_left (kv_ep_step i dp) l (m, sel) = (kv e, Some q) ∧
   ∀ q' e', q' ∈ l → deref i q' = Some e' → kv e' <= kv e).
Proof.
  intros kv. revert m sel. induction l as [|x l IH]; intros m sel; simpl.
  { left. split; [done|]. by intros j dj ?%elem_of_nil. }
  unfold kv_ep_step at 2 4. destruct (deref i x) as [ex|] eqn:Ex.
  - fold (kv ex). destruct (kv ex <? m) eqn:El; simpl; rewrite El.
    + apply Z.ltb_lt in El.
      destruct (IH m sel) as [[-> Hy]|(q & e & Hin & Hd & Hge & -> & Hmax)].
      * left. split; [done|]. intros j dj [->|Hj]%elem_of_cons ?; [by simplify_eq|by eapply Hy].
      * right. exists q, e. split_and!; try done; [by right|].
        intros j dj [->|Hj]%elem_of_cons ?; [simplify_eq; lia|by eapply Hmax].
    + apply Z.ltb_ge in El.
      destruct (IH (kv ex) (Some x)) as [[-> Hy]|(q & e & Hin & Hd & Hge & -> & Hmax)]; right.
      * exists x, ex. split_and!; try done; [by left|].
        intros j dj [->|Hj]%elem_of_cons ?; [by simplify_eq|]. apply Z.lt_le_incl. by eapply Hy.
      * exists q, e. split_and!; try done; [by right|lia|].
        intros j dj [->|Hj]%elem_of_cons ?; [simplify_eq; lia|by eapply Hmax].
  - destruct (IH m sel) as [[-> Hy]|(q & e & Hin & Hd & Hge & -> & Hmax)].
    + left. split; [done|]. intros j dj [->|Hj]%elem_of_cons ?; [congruence|by eapply Hy].
    + right. exists q, e. split_and!; try done; [by right|].
      intros j dj [->|Hj]%elem_of_cons ?; [congruence|by eapply Hmax].
Qed.

#[export] Instance LoadBalance_laws : SchedulingPolicyLaws unit.
Proof.
  split; simpl.
  - intros _ l r i p'. destruct l as [|a l]; [done|]. intros [= H _].
    unfold lb_select_instance_from_list in H. simpl in H. by eapply min_loop_in.
  - intros _ i e i' p' H. unfold lb_select_endpoint_from_instance in H.
    destruct (get_all_endpoints i) as [[|a l] i1]; simplify_eq/=.
    by eapply min_loop_in.
Qed.

Lemma rr_endpoint_in i cs e i' cs' :
  rr_select_endpoint_from_instance i cs = (Some e, i', cs') → e ∈ (get_all_endpoints i).1.
Proof.
  unfold rr_select_endpoint_from_instance.
  destruct (get_all_endpoints i) as [[|a l] i1]; [by intros [=]|].
  intros H. simpl. cbv zeta in H. injection H as H _ _. by eapply list_elem_of_lookup_2.
Qed.

Lemma get_all_endpoints_twice i :
  (get_all_endpoints (get_all_endpoints i).2).1 = (get_all_endpoints i).1.
Proof.
  unfold get_all_endpoints. destruct (cached_endpoints_tuple i) eqn:E.
  - case_decide as Ed; simpl; [by rewrite E, decide_True|by rewrite decide_True].
  - simpl. by rewrite decide_True.
Qed.

#[export] Instance RoundRobin_laws : SchedulingPolicyLaws RoundRobinPolicy.
Proof.
  split; simpl.
  - intros p l r i p'. unfold rr_select_instance. destruct l as [|a l]; [done|].
    cbv zeta. simpl rr_select_instance_from_list. cbv zeta beta iota.
    intros [= H _]. by eapply list_elem_of_lookup_2.
  - intros p i e i' p'. unfold rr_select_endpoint.
    pose proof (get_all_endpoints_twice i) as Ht.
    destruct (get_all_endpoints i) as [[|a l] i1] eqn:E; [by intros [=]|].
    destruct (rr_select_endpoint_from_instance i1 (endpoint_rr_counters p))
      as [[e1 i2] cs] eqn:Er. intros [= -> _ _].
    apply rr_endpoint_in in Er. simpl in Ht |- *. by rewrite <- Ht.
Qed.

#[export] Instance KvCacheAffinity_laws : SchedulingPolicyLaws KvCacheAffinityPolicy.
Proof. split; simpl; by intros. Qed.

(** Properties *)

(** The load-balance choice is exact.  Whatever the traversal start, the chosen
    instance is the first of the walk with the least score below infinity (no
    earlier instance reaches its score, no later one is below it, instances whose
    score raises are skipped); the walk visits every instance exactly once, so the
    offset only breaks ties; nothing is chosen only if no instance has a score
    below infinity. *)
Theorem lb_select_instance_first_min instances start :
  index_walk instances start ≡ₚ instances ∧
  match lb_select_instance_from_list instances start with
  | Some i => first_min instance_score
                (if decide (start = 0) then instances else index_walk instances start) i
  | None => ∀ i s, i ∈ instances → instance_score i = Ret s → flt s finf = false
  end.
Proof.
  split; [apply index_walk_perm|]. unfold lb_select_instance_from_list.
  destruct (decide (start = 0)) as [->|Hs].
  - rewrite decide_False by naive_solver. apply min_loop_spec.
  - rewrite decide_True by done. destruct instances as [|a l]; [by intros i s ?%elem_of_nil|].
    pose proof (min_loop_spec instance_score (index_walk (a :: l) start)) as H.
    case_match; [done|]. intros i s Hin. apply H. by rewrite index_walk_perm.
Qed.

(** C38: round-robin fairness.  With an unchanged list of available instances, as many
    consecutive selections for a role as there are instances select each of them
    exactly once (the selections are a rotation of the list, from wherever the
    role's counter stood), leave the counters of the other roles alone, and the
    counter is back where it was modulo the list's length. *)
Theorem rr_select_instance_fair p active r :
  active ≠ [] →
  let c := default 0 (dget (instance_rr_counters p) r) in
  let '(sels, p') := rr_run (length active) p active r in
  sels = Some <$> rotate_left (Z.to_nat (c mod Z.of_nat (length active))) active ∧
  sels ≡ₚ Some <$> active ∧
  default 0 (dget (instance_rr_counters p') r) = c mod Z.of_nat (length active) ∧
  (∀ r', r' ≠ r → dget (instance_rr_counters p') r' = dget (instance_rr_counters p) r').
Proof.
  intros Hne c.
  pose proof (rr_run_lookup (length active) p active r c Hne eq_refl) as Hs.
  pose proof (rr_run_counter (length active) p active r c Hne eq_refl) as [Hc Ho].
  destruct (rr_run (length active) p active r) as [sels p']. simpl in *.
  assert (sels = Some <$> rotate_left (Z.to_nat (c mod Z.of_nat (length active))) active) as Hr.
  { rewrite Hs. by apply rr_walk_rotate. }
  split; [done|]. split; [rewrite Hr; apply fmap_Permutation, rotate_left_perm|].
  split; [|done]. destruct active as [|a l]; [done|]. rewrite Hc by (simpl; lia).
  rewrite <- (Z.mul_1_l (Z.of_nat (length (a :: l)))) at 1. by rewrite Z_mod_plus_full.
Qed.

Lemma rr_select_instance_fair_witness :
  let l := [sample_instance 1 "prefill"; sample_instance 2 "prefill"] in
  let '(sels, _) := rr_run 2 (mkRR [(Some ROLE_P, 3)] []) l (Some ROLE_P) in
  sels = Some <$> rotate_left 1 l.
Proof.
  pose proof (rr_select_instance_fair (mkRR [(Some ROLE_P, 3)] [])
    [sample_instance 1 "prefill"; sample_instance 2 "prefill"] (Some ROLE_P)) as H.
  apply H. discriminate.
Defined.

(** What a caller of the scheduling facade gets, for every policy that keeps
    its two local promises: the instance comes from the provider's list and the
    endpoint is one of those the instance exposes, never a dangling reference. *)
Theorem facade_selects_member {P} `{SchedulingPolicyLaws P} (p : P) active r i e p' :
  Forall (λ j, cache_ok j ∧ dict_wf (endpoints j)) active →
  select_instance_and_endpoint p active r = (Some (i, e), p') →
  ∃ i0, i0 ∈ active ∧ e ∈ (get_all_endpoints i0).1 ∧ is_Some (deref i0 e).
Proof.
  intros Hok. unfold select_instance_and_endpoint.
  destruct (policy_select_instance p active r) as [[i0|] p1] eqn:E1; [|done].
  destruct (policy_select_endpoint p1 i0) as [[[e0|] i1] p2] eqn:E2; [|done].
  intros [= <- <- <-]. exists i0. apply select_instance_in in E1.
  apply select_endpoint_in in E2. split_and!; [done|done|].
  rewrite Forall_forall in Hok. destruct (Hok _ E1). by apply get_all_endpoints_deref.
Qed.

Lemma facade_selects_member_witness :
  ∃ i0, i0 ∈ [sample_instance 1 "prefill"; sample_instance 2 "prefill"] ∧
    ("10.0.0.1"%string, 0) ∈ (get_all_endpoints i0).1 ∧ is_Some (deref i0 ("10.0.0.1"%string, 0)).
Proof.
  eapply (facade_selects_member tt [sample_instance 1 "prefill"; sample_instance 2 "prefill"]
    (Some ROLE_P)); [|vm_compute; reflexivity].
  repeat constructor; try (intros; discriminate); by intros ?%elem_of_nil.
Defined.

(** KV-cache affinity.  The chosen instance is known to the conductor with a
    matched length that no instance of the list exceeds, among equals the last
    one; its matched-rank table is not empty; the endpoint is one of the
    instance's and no endpoint of the instance has a longer match. *)
Theorem kv_select_maximal instances tenant i p :
  kv_select_endpoint_from_list instances (Some tenant) = Some (i, p) →
  ∃ d pre post, instances = pre ++ i :: post ∧ dget tenant (ins_id i) = Some d ∧
    0 <= longest_matched d ∧ kv_DP d ≠ [] ∧
    (∀ j dj, j ∈ pre → dget tenant (ins_id j) = Some dj → longest_matched dj <= longest_matched d) ∧
    (∀ j dj, j ∈ post → dget tenant (ins_id j) = Some dj → longest_matched dj < longest_matched d) ∧
    p ∈ all_pointers i ∧
    ∃ e, deref i p = Some e ∧
      (∀ q e', q ∈ all_pointers i → deref i q = Some e' →
         default 0 (dget (kv_DP d) (ep_id e')) <= default 0 (dget (kv_DP d) (ep_id e))).
Proof.
  unfold kv_select_endpoint_from_list.
  destruct (fold_left (kv_step tenant) instances (0, None, [])) as [[m sel] dp] eqn:Ef.
  destruct sel as [j|]; [|done]. case_decide as Hdp; [done|].
  destruct (fold_left (kv_ep_step j dp) (all_pointers j) (0, None)) as [mk [q|]] eqn:Ee; [|done].
  intros [= <- <-]. simpl.
  destruct (kv_fold_spec tenant instances 0 None []) as
    [(Hf & _)|(pre & i & post & d & -> & Hf & Hd & Hge & Hpre & Hpost)]; [congruence|].
  rewrite Ef in Hf. injection Hf as -> <- ->.
  destruct (kv_ep_fold_spec j (kv_DP d) (all_pointers j) 0 None) as
    [(Hf & _)|(q0 & e & Hin & Hdq & _ & Hf & Hmax)]; [congruence|].
  rewrite Hf in Ee. injection Ee as <- <-.
  exists d, pre, post. split_and!; try done. exists e. split; [done|].
  intros q' e' Hq' He'. by eapply Hmax.
Qed.

Lemma kv_select_maximal_witness :
  let tenant := [(1, mkKv 64 [(0, 64)]); (2, mkKv 128 [(0, 32); (1, 128)])] in
  let l := [sample_instance 1 "prefill"; sample_instance 2 "prefill"] in
  ∃ d pre post, l = pre ++ sample_instance 2 "prefill" :: post ∧ dget tenant 2 = Some d ∧
    0 <= longest_matched d.
Proof.
  destruct (kv_select_maximal [sample_instance 1 "prefill"; sample_instance 2 "prefill"]
    [(1, mkKv 64 [(0, 64)]); (2, mkKv 128 [(0, 32); (1, 128)])]
    (sample_instance 2 "prefill") ("10.0.0.1"%string, 1)) as (d & pre & post & H1 & H2 & H3 & _);
    [vm_compute; reflexivity|].
  exists d, pre, post. auto.
Defined.
