(* ===== verification/RequestManager.v ===== *)
(** * Request bookkeeping of the coordinator

    Models [coordinator/domain/workload_calculator.py],
    [coordinator/domain/request_manager.py], [coordinator/router/workload.py] and
    [coordinator/models/request.py]: request ids, the request table, the table of
    the workload each (request, role) still holds, and the handler that turns a
    workload action into the change sent to the scheduler.  Each method runs under
    the manager's [asyncio.Lock], so it is a function from state to state. *)

From stdpp Require Import base option list strings pretty sets.
From Stdlib Require Import ZArith Lia Sorting.Sorted.
From S2P Require Import Prelude Float64 Resources.
Open Scope Z_scope.

(** ** Demand of a request *)

(** The literals 4.0, 0.0345, 120.0745 and 0.5 of the code, as binary64. *)
Definition f_4 : f64 := S754_finite false 4503599627370496 (-50).
Definition f_0_0345 : f64 := S754_finite false 4971973988617028 (-57).
Definition f_120_0745 : f64 := S754_finite false 8449491772760916 (-46).
Definition f_0_5 : f64 := S754_finite false 4503599627370496 (-53).

Definition calculate_prefill_scores (request_length : Z) : f64 :=
  let length_score := fdiv (f_of_Z request_length) f_4 in
  fadd (fmul length_score f_0_0345) f_120_0745.

Definition calculate_decode_scores (request_length : Z) : f64 := f_of_Z request_length.

Definition calculate_both_scores (request_length : Z) : f64 :=
  fmul (fadd (calculate_prefill_scores request_length)
             (calculate_decode_scores request_length)) f_0_5.

Definition calculate_demand_workload (r : PDRole) (request_length : Z) : Workload :=
  match r with
  | ROLE_P => let score := calculate_prefill_scores request_length in mkWorkload score score
  | ROLE_D => mkWorkload f0 (calculate_decode_scores request_length)
  | ROLE_U => let score := calculate_both_scores request_length in mkWorkload score score
  end.

(** ** Requests *)

Inductive RequestType := OPENAI | TRITON | TGI | VLLM | MINDIE.

Inductive ReqState :=
| ARRIVE | P_SCHEDULING | P_ALLOCATED | PREFILL_END | FIRST_TOKEN_FINISH
| D_SCHEDULING | D_ALLOCATED | DECODE_END | INVALID | TIMEOUT | EXCEPTION | RECOMPUTE.

#[global] Instance ReqState_eq_dec : EqDecision ReqState.
Proof. solve_decision. Defined.

Section request.
(** The request body, and anyio's cancel scopes: [cancel_called] reads a scope and
    [cancel] cancels it.  Scopes are shared with the tasks that run under them;
    only these two observations are used here. *)
Context {Body Scope : Type} (cancel_called : Scope → bool) (cancel : Scope → Scope).

Record RequestInfo := mkReq {
  req_id : string;
  req_data : Body;
  req_len : Z;
  api : string;
  entry_api : string;
  recompute_engine_mode : option string;
  client_expects_chat_shape : bool;
  state : ReqState;
  req_status : dict ReqState f64;
  p_cancel_scope : option Scope;
  d_cancel_scope : option Scope
}.

Definition RequestInfo_init (now : f64) (id : string) (data : Body) (len : Z)
    (api entry : string) : RequestInfo :=
  mkReq id data len api entry None false ARRIVE [(ARRIVE, now)] None None.

Definition scope_called (s : option Scope) : bool :=
  match s with Some s => cancel_called s | None => false end.

Definition is_cancelled (r : RequestInfo) : bool :=
  scope_called (p_cancel_scope r) || scope_called (d_cancel_scope r).

Definition effective_entry_api (r : RequestInfo) : string :=
  if decide (entry_api r = ""%string) then api r else entry_api r.

Definition update_state (now : f64) (r : RequestInfo) (new_state : ReqState) : RequestInfo :=
  mkReq (req_id r) (req_data r) (req_len r) (api r) (entry_api r) (recompute_engine_mode r)
    (client_expects_chat_shape r) new_state (dset (req_status r) new_state now)
    (p_cancel_scope r) (d_cancel_scope r).

Definition set_cancel_scope (r : RequestInfo) (s : Scope) (rl : PDRole) : RequestInfo :=
  let with_scopes p d :=
    mkReq (req_id r) (req_data r) (req_len r) (api r) (entry_api r) (recompute_engine_mode r)
      (client_expects_chat_shape r) (state r) (req_status r) p d in
  match rl with
  | ROLE_P => with_scopes (Some s) (d_cancel_scope r)
  | ROLE_D => with_scopes (p_cancel_scope r) (Some s)
  | ROLE_U => r
  end.

Definition cancel_one (s : option Scope) : option Scope :=
  match s with
  | Some s => Some (if cancel_called s then s else cancel s)
  | None => None
  end.

Definition cancel_scope (r : RequestInfo) : RequestInfo :=
  mkReq (req_id r) (req_data r) (req_len r) (api r) (entry_api r) (recompute_engine_mode r)
    (client_expects_chat_shape r) (state r) (req_status r)
    (cancel_one (p_cancel_scope r)) (cancel_one (d_cancel_scope r)).
End request.
Arguments RequestInfo : clear implicits.

(** ** RequestManager *)

Abbreviation wkey := (string * PDRole)%type.

Record RequestManager (Req : Type) := mkRM {
  rm_counter : Z;
  rm_last_timestamp : Z;
  req_info_dict : dict string Req;
  req_workload_dict : dict wkey Workload
}.
Arguments mkRM {Req} _ _ _ _.
Arguments rm_counter {Req} _.
Arguments rm_last_timestamp {Req} _.
Arguments req_info_dict {Req} _.
Arguments req_workload_dict {Req} _.

Definition RequestManager_init {Req} : RequestManager Req := mkRM 0 0 [] [].

(** [f"{counter:04d}"] for a non-negative counter. *)
Definition pad4 (n : Z) : string :=
  let s := pretty n in
  (if decide (n < 10) then "000" else if decide (n < 100) then "00"
   else if decide (n < 1000) then "0" else "") +:+ s.

Section manager.
Context {Req : Type} (rid : Req → string).
Implicit Types m : RequestManager Req.

Definition set_workloads m (d : dict wkey Workload) : RequestManager Req :=
  mkRM (rm_counter m) (rm_last_timestamp m) (req_info_dict m) d.

(** [generate_request_id] at clock [current_timestamp] (microseconds), with the
    eight hex digits drawn. *)
Definition generate_request_id m (current_timestamp : Z) (random_suffix : string)
    : string * RequestManager Req :=
  let m' := if current_timestamp =? rm_last_timestamp m
            then mkRM (rm_counter m + 1) (rm_last_timestamp m) (req_info_dict m) (req_workload_dict m)
            else mkRM 0 current_timestamp (req_info_dict m) (req_workload_dict m) in
  (pretty current_timestamp +:+ pad4 (rm_counter m') +:+ random_suffix, m').

Definition get_req_info m (id : string) : option Req := dget (req_info_dict m) id.

Definition add_req_info m (r : Req) : bool * RequestManager Req :=
  if dhas (req_info_dict m) (rid r) then (false, m)
  else (true, mkRM (rm_counter m) (rm_last_timestamp m)
                (dset (req_info_dict m) (rid r) r) (req_workload_dict m)).

Definition del_req_info m (id : string) : bool * RequestManager Req :=
  if dhas (req_info_dict m) id then
    let keys_to_delete := List.filter (λ k : wkey, bool_decide (k.1 = id)) (dkeys (req_workload_dict m)) in
    (true, mkRM (rm_counter m) (rm_last_timestamp m) (ddel (req_info_dict m) id)
             (fold_left ddel keys_to_delete (req_workload_dict m)))
  else (false, m).

Definition add_req_workload m (k : wkey) (w : Workload) : bool * RequestManager Req :=
  if dhas (req_workload_dict m) k then (false, m)
  else (true, set_workloads m (dset (req_workload_dict m) k w)).

Definition get_req_workload m (k : wkey) : option Workload := dget (req_workload_dict m) k.

Definition update_req_workload m (k : wkey) (w : Workload) : bool * RequestManager Req :=
  if dhas (req_workload_dict m) k then (true, set_workloads m (dset (req_workload_dict m) k w))
  else (false, m).

Definition del_req_workload m (k : wkey) : bool * RequestManager Req :=
  if dhas (req_workload_dict m) k then (true, set_workloads m (ddel (req_workload_dict m) k))
  else (false, m).

(** ** WorkloadActionHandler *)

(** A [ScheduledResource]: both parts are optional. *)
Record ScheduledResource := mkSR { sr_instance : option Instance; sr_endpoint : option Endpoint }.

Definition normalize_role (i : Instance) : option PDRole :=
  match PDRole_of_string (role i) with Ret r => Some r | Raise _ => None end.

Definition compute_and_update m (resource : option ScheduledResource) (id : string)
    (action : WorkloadAction) (len : Z) : option (Workload * PDRole) * RequestManager Req :=
  match resource with
  | Some (mkSR (Some i) (Some _)) =>
      match normalize_role i with
      | None => (None, m)
      | Some r =>
          let key := (id, r) in
          match action with
          | ALLOCATION =>
              let allocate_workload := calculate_demand_workload r len in
              let '(added, m1) := add_req_workload m key allocate_workload in
              if added then (Some (allocate_workload, r), m1) else (None, m)
          | RELEASE_KV =>
              match get_req_workload m key with
              | None => (None, m)
              | Some cur =>
                  let change := mkWorkload (fopp (active_kv_cache cur)) f0 in
                  let cur' := mkWorkload f0 (active_tokens cur) in
                  let m1 := (update_req_workload m key cur').2 in
                  let m2 := if fle (active_tokens cur') f0
                            then (del_req_workload m1 key).2 else m1 in
                  (Some (change, r), m2)
              end
          | RELEASE_TOKENS =>
              match get_req_workload m key with
              | None => (None, m)
              | Some cur =>
                  let change := mkWorkload f0 (fopp (active_tokens cur)) in
                  let cur' := mkWorkload (active_kv_cache cur) f0 in
                  let m1 := (update_req_workload m key cur').2 in
                  let m2 := if fle (active_kv_cache cur') f0
                            then (del_req_workload m1 key).2 else m1 in
                  (Some (change, r), m2)
              end
          end
      end
  | _ => (None, m)
  end.

(** ** Sequences of actions *)

(** One call of the handler, and the changes a sequence of calls reports for each
    key, summed in the order of the calls as the endpoint's accounting does. *)
Record action_call := mkCall {
  call_resource : option ScheduledResource; call_id : string;
  call_action : WorkloadAction; call_len : Z
}.

Definition ledger := wkey → Workload.
Definition ledger_add (l : ledger) (k : wkey) (w : Workload) : ledger :=
  λ k', if decide (k' = k) then workload_iadd (l k') w else l k'.

Definition handler_step (st : RequestManager Req * ledger) (c : action_call)
    : RequestManager Req * ledger :=
  match compute_and_update st.1 (call_resource c) (call_id c) (call_action c) (call_len c) with
  | (Some (w, r), m') => (m', ledger_add st.2 (call_id c, r) w)
  | (None, m') => (m', st.2)
  end.

Definition handler_run (st : RequestManager Req * ledger) (cs : list action_call) :=
  fold_left handler_step cs st.
End manager.

(** Ids drawn by consecutive calls of [generate_request_id]. *)
Fixpoint draw_ids {Req} (m : RequestManager Req) (draws : list (Z * string)) : list string :=
  match draws with
  | [] => []
  | (t, sfx) :: rest =>
      let '(id, m') := generate_request_id m t sfx in id :: draw_ids m' rest
  end.

(** The sample resource of the witnesses. *)
Definition sample_resource (r : string) : option ScheduledResource :=
  Some (mkSR (Some (sample_instance 1 r)) (Some (sample_endpoint 0))).

(** Lemmas *)

(** A demand component: positive zero or a positive finite float. *)
Definition clean (x : f64) : Prop := x = f0 ∨ ∃ m e, x = S754_finite false m e.
Definition clean_w (w : Workload) : Prop := clean (active_kv_cache w) ∧ clean (active_tokens w).

Lemma clean_0 : clean f0.
Proof. by left. Qed.

Lemma clean_finite x : clean x → is_finite x = true.
Proof. by intros [->|(m & e & ->)]. Qed.

Lemma clean_add_0_l x : clean x → fadd f0 x = x.
Proof. intros [->|(m & e & ->)]; by rewrite fadd_0_l. Qed.

Lemma clean_add_0_r x : clean x → fadd x f0 = x.
Proof. by intros [->|(m & e & ->)]. Qed.

Lemma clean_le_0 x : clean x → fle x f0 = true → x = f0.
Proof. by intros [->|(m & e & ->)]. Qed.

Lemma clean_cancel x : clean x → fadd x (fopp x) = f0.
Proof. intros. by apply fadd_opp, clean_finite. Qed.

#[export] Hint Resolve clean_0 : motor.
#[export] Hint Rewrite clean_add_0_l clean_add_0_r clean_cancel using (by auto with motor) : motor_rw.

Section manager_lemmas.
Context {Req : Type}.
Implicit Types m : RequestManager Req.

Lemma add_req_workload_get m k w k' :
  dget (req_workload_dict (add_req_workload m k w).2) k' =
  if decide (k' = k) then
    match dget (req_workload_dict m) k with Some v => Some v | None => Some w end
  else dget (req_workload_dict m) k'.
Proof.
  unfold add_req_workload. destruct (dhas (req_workload_dict m) k) eqn:E; simpl.
  - apply dhas_true in E as [v Hv]. rewrite Hv. case_decide; by subst.
  - apply dhas_false in E. rewrite E, dget_dset. repeat case_decide; congruence.
Qed.

Lemma update_req_workload_get m k w k' :
  is_Some (dget (req_workload_dict m) k) →
  dget (req_workload_dict (update_req_workload m k w).2) k' =
  if decide (k' = k) then Some w else dget (req_workload_dict m) k'.
Proof.
  intros H%dhas_true. unfold update_req_workload. rewrite H. simpl. rewrite dget_dset.
  repeat case_decide; congruence.
Qed.

Lemma del_req_workload_get m k k' :
  dget (req_workload_dict (del_req_workload m k).2) k' =
  if decide (k' = k) then None else dget (req_workload_dict m) k'.
Proof.
  unfold del_req_workload. destruct (dhas _ k) eqn:E; simpl.
  - rewrite dget_ddel. repeat case_decide; congruence.
  - apply dhas_false in E. case_decide; by subst.
Qed.

(** The table after a release: the new record, or nothing when it is empty. *)
Lemma release_get m k w w' (b : bool) k' :
  dget (req_workload_dict m) k = Some w →
  dget (req_workload_dict
    (let m1 := (update_req_workload m k w').2 in
     if b then (del_req_workload m1 k).2 else m1)) k' =
  if decide (k' = k) then (if b then None else Some w') else dget (req_workload_dict m) k'.
Proof.
  intros Hk. destruct b; simpl; rewrite ?del_req_workload_get, update_req_workload_get by eauto;
    case_decide; done.
Qed.

(** What the books say of a key agrees with what was charged for it. *)
Definition balanced (st : RequestManager Req * ledger) : Prop := ∀ k,
  match dget (req_workload_dict st.1) k with
  | Some w => st.2 k = w ∧ clean_w w
  | None => st.2 k = Workload0
  end.

Lemma balanced_alloc m l id r w :
  balanced (m, l) → clean_w w → dget (req_workload_dict m) (id, r) = None →
  balanced ((add_req_workload m (id, r) w).2, ledger_add l (id, r) w).
Proof.
  intros Hb Hw Hn k. specialize (Hb k). simpl in *. rewrite add_req_workload_get, Hn.
  unfold ledger_add. case_decide; [|done]. subst. rewrite Hn in Hb. rewrite Hb.
  split; [|done]. destruct w as [a b], Hw as [Ha Hb']. unfold workload_iadd. simpl in *.
  by rewrite !clean_add_0_l.
Qed.

Lemma balanced_release_kv m l id r w :
  balanced (m, l) → dget (req_workload_dict m) (id, r) = Some w →
  balanced
    (let m1 := (update_req_workload m (id, r) (mkWorkload f0 (active_tokens w))).2 in
     if fle (active_tokens w) f0 then (del_req_workload m1 (id, r)).2 else m1,
     ledger_add l (id, r) (mkWorkload (fopp (active_kv_cache w)) f0)).
Proof.
  intros Hb Hs k. pose proof (Hb (id, r)) as Hw. specialize (Hb k). simpl in Hb, Hw |- *.
  rewrite (release_get m (id, r) w) by done. rewrite Hs in Hw. destruct Hw as [Hl [Hkv Htk]].
  unfold ledger_add. case_decide; [|done]. subst k. rewrite Hl. unfold workload_iadd. simpl.
  rewrite clean_cancel, clean_add_0_r by done.
  destruct (fle (active_tokens w) f0) eqn:E; [|by repeat split; auto with motor].
  by rewrite (clean_le_0 _ Htk E).
Qed.

Lemma balanced_release_tokens m l id r w :
  balanced (m, l) → dget (req_workload_dict m) (id, r) = Some w →
  balanced
    (let m1 := (update_req_workload m (id, r) (mkWorkload (active_kv_cache w) f0)).2 in
     if fle (active_kv_cache w) f0 then (del_req_workload m1 (id, r)).2 else m1,
     ledger_add l (id, r) (mkWorkload f0 (fopp (active_tokens w)))).
Proof.
  intros Hb Hs k. pose proof (Hb (id, r)) as Hw. specialize (Hb k). simpl in Hb, Hw |- *.
  rewrite (release_get m (id, r) w) by done. rewrite Hs in Hw. destruct Hw as [Hl [Hkv Htk]].
  unfold ledger_add. case_decide; [|done]. subst k. rewrite Hl. unfold workload_iadd. simpl.
  rewrite clean_cancel, clean_add_0_r by done.
  destruct (fle (active_kv_cache w) f0) eqn:E; [|by repeat split; auto with motor].
  by rewrite (clean_le_0 _ Hkv E).
Qed.

Lemma balanced_step st c :
  (∀ r, clean_w (calculate_demand_workload r (call_len c))) →
  balanced st → balanced (handler_step st c).
Proof.
  destruct st as [m l]. intros Hd Hb. unfold handler_step, compute_and_update. simpl.
  destruct (call_resource c) as [[[i|] [e|]]|]; try done.
  destruct (normalize_role i) as [r|]; [|done].
  destruct (call_action c); simpl.
  - destruct (add_req_workload m (call_id c, r) _) as [added m1] eqn:E.
    destruct added; [|done]. simpl.
    replace m1 with (add_req_workload m (call_id c, r)
      (calculate_demand_workload r (call_len c))).2 by by rewrite E.
    apply balanced_alloc; [done|done|]. unfold add_req_workload in E.
    destruct (dhas _ _) eqn:Eh; [done|]. by apply dhas_false.
  - unfold get_req_workload. destruct (dget _ _) as [w|] eqn:E; [|done].
    by apply balanced_release_kv.
  - unfold get_req_workload. destruct (dget _ _) as [w|] eqn:E; [|done].
    by apply balanced_release_tokens.
Qed.

Lemma balanced_run st cs :
  Forall (λ c, ∀ r, clean_w (calculate_demand_workload r (call_len c))) cs →
  balanced st → balanced (handler_run st cs).
Proof.
  intros Hc. revert st. induction Hc as [|c cs Hd _ IH]; intros st Hb; [done|].
  apply IH. by apply balanced_step.
Qed.

(** One release of a held key. *)
Lemma release_step m i e id r w a :
  normalize_role i = Some r → dget (req_workload_dict m) (id, r) = Some w → a ≠ ALLOCATION →
  let kv := bool_decide (a = RELEASE_KV) in
  let w' := if kv then mkWorkload f0 (active_tokens w) else mkWorkload (active_kv_cache w) f0 in
  let c := if kv then mkWorkload (fopp (active_kv_cache w)) f0
           else mkWorkload f0 (fopp (active_tokens w)) in
  let empty := fle (if kv then active_tokens w else active_kv_cache w) f0 in
  ∃ m', compute_and_update m (Some (mkSR (Some i) (Some e))) id a 0 = (Some (c, r), m') ∧
    ∀ k, dget (req_workload_dict m') k =
      if decide (k = (id, r)) then (if empty then None else Some w')
      else dget (req_workload_dict m) k.
Proof.
  intros Hr Hs Ha. unfold compute_and_update, get_req_workload. simpl. rewrite Hr, Hs.
  destruct a; [done| |]; simpl; eexists; (split; [done|]); intros k;
    by rewrite (release_get m (id, r) w).
Qed.

Lemma release_absent m i e id r a :
  normalize_role i = Some r → dget (req_workload_dict m) (id, r) = None → a ≠ ALLOCATION →
  compute_and_update m (Some (mkSR (Some i) (Some e))) id a 0 = (None, m).
Proof.
  intros Hr Hs Ha. unfold compute_and_update, get_req_workload. simpl. rewrite Hr, Hs.
  by destruct a.
Qed.

Lemma handler_step_some m l res id a n w r m' :
  compute_and_update m res id a n = (Some (w, r), m') →
  handler_step (m, l) (mkCall res id a n) = (m', ledger_add l (id, r) w).
Proof. intros H. unfold handler_step. cbn [fst snd call_resource call_id call_action call_len]. by rewrite H. Qed.

Lemma handler_step_none m l res id a n m' :
  compute_and_update m res id a n = (None, m') →
  handler_step (m, l) (mkCall res id a n) = (m', l).
Proof. intros H. unfold handler_step. cbn [fst snd call_resource call_id call_action call_len]. by rewrite H. Qed.

(** Both releases of a held key, in either order. *)
Lemma release_both m i e id r w a :
  normalize_role i = Some r → dget (req_workload_dict m) (id, r) = Some w → clean_w w →
  a ≠ ALLOCATION →
  let res := Some (mkSR (Some i) (Some e)) in
  let b := if decide (a = RELEASE_KV) then RELEASE_TOKENS else RELEASE_KV in
  ∃ m2 l2, handler_run (m, λ _, w) [mkCall res id a 0; mkCall res id b 0] = (m2, l2) ∧
    l2 (id, r) = Workload0 ∧ dget (req_workload_dict m2) (id, r) = None ∧
    ∀ k, k ≠ (id, r) → dget (req_workload_dict m2) k = dget (req_workload_dict m) k.
Proof.
  intros Hr Hs [Hk Ht] Ha res b.
  destruct (release_step m i e id r w a Hr Hs Ha) as (m1 & H1 & G1).
  assert (b ≠ ALLOCATION) as Hb by (subst b; by case_decide).
  assert (bool_decide (b = RELEASE_KV) = negb (bool_decide (a = RELEASE_KV))) as Hbb
    by (subst b; by destruct a).
  pose proof (G1 (id, r)) as Hm1. rewrite decide_True in Hm1 by done.
  unfold handler_run. cbn [fold_left]. rewrite (handler_step_some _ _ _ _ _ _ _ _ _ H1).
  destruct (fle (if bool_decide (a = RELEASE_KV) then active_tokens w else active_kv_cache w) f0) eqn:Ee.
  - rewrite (handler_step_none _ _ _ _ _ _ _ (release_absent m1 i e id r b Hr Hm1 Hb)).
    eexists _, _. split; [done|]. split_and!; [|done|].
    + simpl. unfold ledger_add. rewrite decide_True by done. unfold workload_iadd.
      destruct (bool_decide (a = RELEASE_KV)); simpl; rewrite clean_cancel, clean_add_0_r by done;
        by rewrite (λ H, clean_le_0 _ H Ee) by done.
    + intros k Hne. rewrite G1. by rewrite decide_False.
  - destruct (release_step m1 i e id r _ b Hr Hm1 Hb) as (m2 & H2 & G2).
    rewrite (handler_step_some _ _ _ _ _ _ _ _ _ H2). rewrite Hbb in *.
    eexists _, _. split; [done|]. split_and!.
    + simpl. unfold ledger_add. rewrite !decide_True by done. unfold workload_iadd.
      destruct (bool_decide (a = RELEASE_KV)); simpl;
        rewrite !clean_cancel, !clean_add_0_r, ?clean_cancel by auto with motor;
        by rewrite ?clean_cancel by done.
    + rewrite G2, decide_True by done. by destruct (bool_decide (a = RELEASE_KV)).
    + intros k Hne. rewrite G2, decide_False by done. by rewrite G1, decide_False.
Qed.

Lemma del_keys_get (ks : list wkey) (d : dict wkey Workload) k :
  dget (fold_left ddel ks d) k = if decide (k ∈ ks) then None else dget d k.
Proof.
  revert d. induction ks as [|x ks IH]; intros d; cbn [fold_left].
  - case_decide as H; [by apply elem_of_nil in H|done].
  - rewrite IH, dget_ddel. destruct (decide (k ∈ ks)), (decide (k ∈ x :: ks)) as [Hin|Hin],
      (decide (x = k)); set_solver.
Qed.
End manager_lemmas.

(** ** Request ids *)

Lemma string_app_inj a b x y :
  String.length a = String.length b → a +:+ x = b +:+ y → a = b ∧ x = y.
Proof.
  revert b. induction a as [|c a IH]; intros [|c' b]; simpl; try done.
  intros [= Hl] [= -> H]. by destruct (IH _ Hl H) as [-> ->].
Qed.

Lemma string_length_app a b : String.length (a +:+ b) = (String.length a + String.length b)%nat.
Proof. induction a as [|c a IH]; simpl; [done|]. by f_equal. Qed.

(** Reading a padded counter back. *)
Fixpoint parse_dec (acc : Z) (s : string) : Z :=
  match s with
  | EmptyString => acc
  | String c s => parse_dec (10 * acc + Z.of_nat (Ascii.nat_of_ascii c) - 48) s
  end.

Definition pad4_upto (n : nat) : bool :=
  forallb (λ k, parse_dec 0 (pad4 (Z.of_nat k)) =? Z.of_nat k) (seq 0 n).

Lemma pad4_table : pad4_upto (Z.to_nat 10000) = true.
Proof. vm_compute. reflexivity. Qed.

Lemma pad4_parse n : 0 <= n < 10000 → parse_dec 0 (pad4 n) = n.
Proof.
  intros Hn. pose proof pad4_table as H. unfold pad4_upto in H.
  rewrite forallb_forall in H. specialize (H (Z.to_nat n)).
  rewrite Z2Nat.id in H by lia. apply Z.eqb_eq, H, in_seq. lia.
Qed.

Lemma id_inj (t1 : Z) c1 s1 (t2 : Z) c2 s2 :
  String.length (pretty t1) = String.length (pretty t2) →
  String.length s1 = String.length s2 → 0 <= c1 < 10000 → 0 <= c2 < 10000 →
  pretty t1 +:+ pad4 c1 +:+ s1 = pretty t2 +:+ pad4 c2 +:+ s2 → t1 = t2 ∧ c1 = c2.
Proof.
  intros Ht Hs H1 H2 H. apply string_app_inj in H as [Hp H]; [|done].
  assert (String.length (pad4 c1) = String.length (pad4 c2)) as Hl.
  { apply (f_equal String.length) in H. rewrite !string_length_app in H. lia. }
  apply string_app_inj in H as [Hc _]; [|done].
  split; [by apply (inj pretty)|].
  by rewrite <- (pad4_parse c1), <- (pad4_parse c2), Hc.
Qed.

(** A draw: sixteen-digit microsecond clock, eight random hex digits. *)
Definition good_draw (d : Z * string) : Prop :=
  String.length (pretty d.1) = 16%nat ∧ String.length d.2 = 8%nat.

(** Every id drawn from [m] comes from a clock and counter after those of [m]. *)
Lemma draw_ids_after {Req} (m : RequestManager Req) draws x :
  Forall (λ d, rm_last_timestamp m <= d.1) draws → Sorted (λ a b, a.1 <= b.1) draws →
  Forall good_draw draws → 0 <= rm_counter m →
  rm_counter m + Z.of_nat (length draws) < 10000 → x ∈ draw_ids m draws →
  ∃ t c s, good_draw (t, s) ∧ x = pretty t +:+ pad4 c +:+ s ∧ 0 <= c < 10000 ∧
    (rm_last_timestamp m < t ∨ (rm_last_timestamp m = t ∧ rm_counter m < c)).
Proof.
  revert m. induction draws as [|[t s] draws IH]; intros m Hge Hs Hg Hc Hlen Hx.
  { by apply elem_of_nil in Hx. }
  apply Forall_cons in Hge as [Ht Hge]. apply Forall_cons in Hg as [Hd Hg].
  apply Sorted_StronglySorted in Hs; [|intros ???; lia].
  apply StronglySorted_inv in Hs as [Hs Hall].
  change (length ((t, s) :: draws)) with (S (length draws)) in Hlen. simpl in Hx.
  destruct (Z.eqb_spec t (rm_last_timestamp m)) as [E|E]; simpl in Hx;
    apply elem_of_cons in Hx as [->|Hx].
  - exists t, (rm_counter m + 1), s. split_and!; try done; lia.
  - apply IH in Hx as (t' & c & s' & ? & ? & ? & ?); simpl in *; try done; try lia.
    { exists t', c, s'. split_and!; try done; lia. }
    by apply StronglySorted_Sorted.
  - exists t, 0, s. simpl in Ht. split_and!; try done; lia.
  - apply IH in Hx as (t' & c & s' & ? & ? & ? & ?); simpl in *; try done; try lia.
    { exists t', c, s'. split_and!; try done; lia. }
    by apply StronglySorted_Sorted.
Qed.

Lemma draw_ids_NoDup {Req} (m : RequestManager Req) draws :
  Forall (λ d, rm_last_timestamp m <= d.1) draws → Sorted (λ a b, a.1 <= b.1) draws →
  Forall good_draw draws → 0 <= rm_counter m →
  rm_counter m + Z.of_nat (length draws) < 10000 → NoDup (draw_ids m draws).
Proof.
  revert m. induction draws as [|[t s] draws IH]; intros m Hge Hs Hg Hc Hlen; [apply NoDup_nil_2|].
  apply Forall_cons in Hge as [Ht Hge]. apply Forall_cons in Hg as [Hd Hg].
  apply Sorted_StronglySorted in Hs; [|intros ???; lia].
  apply StronglySorted_inv in Hs as [Hs%StronglySorted_Sorted Hall].
  change (length ((t, s) :: draws)) with (S (length draws)) in Hlen.
  simpl. set (m' := if t =? _ then _ else _).
  assert (rm_last_timestamp m' = t ∧ 0 <= rm_counter m' <= rm_counter m + 1) as [Hl' Hc'].
  { subst m'. destruct (Z.eqb_spec t (rm_last_timestamp m)); simpl; lia. }
  assert (Forall (λ d, rm_last_timestamp m' <= d.1) draws) as Hge' by by rewrite Hl'.
  apply NoDup_cons. split; [|apply IH; done || lia]. intros Hin.
  apply draw_ids_after in Hin as (t' & c & s' & [Hd1 Hd2] & Heq & Hcb & Hlt); try done; try lia.
  simpl in Hd1, Hd2. destruct Hd as [Hd3 Hd4]. simpl in Hd3, Hd4.
  apply id_inj in Heq as [Et Ec]; lia.
Qed.

(** Properties *)

(** C37: the books balance.  Starting from empty books, after any sequence of
    handler calls (allocations, KV and token releases, of any requests and roles,
    duplicated or out of order, with invalid resources among them), what has been
    charged for a (request, role), summed in binary64 as the endpoint sums it, is
    exactly the workload the request manager still records for it, and zero when
    it records none. *)
Theorem handler_ledger_balanced {Req} (cs : list action_call) :
  Forall (λ c, ∀ r, clean_w (calculate_demand_workload r (call_len c))) cs →
  let '(m, l) := handler_run (RequestManager_init (Req := Req), λ _, Workload0) cs in
  ∀ k, match dget (req_workload_dict m) k with
       | Some w => l k = w
       | None => l k = Workload0
       end.
Proof.
  intros Hc. pose proof (balanced_run (RequestManager_init (Req := Req), λ _, Workload0) cs Hc) as H.
  destruct (handler_run _ cs) as [m l]. intros k.
  specialize (H (λ k, eq_refl) k). simpl in H. by case_match; [destruct H|].
Qed.

Lemma handler_ledger_balanced_witness :
  let r := sample_resource "prefill" in
  let '(m, l) := handler_run (RequestManager_init (Req := unit), λ _, Workload0)
    [mkCall r "a" ALLOCATION 1000; mkCall r "a" ALLOCATION 7; mkCall r "b" RELEASE_KV 0;
     mkCall r "a" RELEASE_KV 0] in
  l ("a"%string, ROLE_P) = mkWorkload f0 (calculate_prefill_scores 1000).
Proof.
  exact (handler_ledger_balanced (Req := unit)
    (let r := sample_resource "prefill" in
     [mkCall r "a" ALLOCATION 1000; mkCall r "a" ALLOCATION 7; mkCall r "b" RELEASE_KV 0;
      mkCall r "a" RELEASE_KV 0])
    ltac:(repeat apply Forall_cons_2; try apply Forall_nil_2; intros []; split; vm_compute;
          try (left; reflexivity); right; eexists _, _; reflexivity)
    ("a"%string, ROLE_P)).
Defined.

(** One allocation and its releases.  An allocation for a key without a record
    charges the demand of the role; a second one is ignored; the two releases, in
    either order, charge back exactly what was allocated, leave no record, and
    leave the records of the other keys alone. *)
Theorem allocation_lifecycle {Req} (m : RequestManager Req) i e id r len first :
  normalize_role i = Some r → clean_w (calculate_demand_workload r len) →
  dget (req_workload_dict m) (id, r) = None → first ≠ ALLOCATION →
  let res := Some (mkSR (Some i) (Some e)) in
  let second := if decide (first = RELEASE_KV) then RELEASE_TOKENS else RELEASE_KV in
  let '(c0, m0) := compute_and_update m res id ALLOCATION len in
  c0 = Some (calculate_demand_workload r len, r) ∧
  (∀ len', compute_and_update m0 res id ALLOCATION len' = (None, m0)) ∧
  let '(m2, l2) := handler_run (m0, λ _, calculate_demand_workload r len)
                     [mkCall res id first 0; mkCall res id second 0] in
  l2 (id, r) = Workload0 ∧ dget (req_workload_dict m2) (id, r) = None ∧
  (∀ k, k ≠ (id, r) → dget (req_workload_dict m2) k = dget (req_workload_dict m) k) ∧
  (∀ a, a ≠ ALLOCATION → compute_and_update m2 res id a 0 = (None, m2)).
Proof.
  intros Hr Hw Hn Hf res second.
  assert (add_req_workload m (id, r) (calculate_demand_workload r len) =
    (true, set_workloads m (dset (req_workload_dict m) (id, r) (calculate_demand_workload r len))))
    as Ha by (unfold add_req_workload; by rewrite (proj2 (dhas_false _ _) Hn)).
  assert (compute_and_update m res id ALLOCATION len =
    (Some (calculate_demand_workload r len, r),
     set_workloads m (dset (req_workload_dict m) (id, r) (calculate_demand_workload r len))))
    as -> by (unfold compute_and_update, res; cbn iota; by rewrite Hr, Ha).
  set (m0 := set_workloads _ _). set (w := calculate_demand_workload r len) in *.
  assert (dget (req_workload_dict m0) (id, r) = Some w) as H0 by by simpl; rewrite dget_dset_eq.
  assert (∀ k, k ≠ (id, r) → dget (req_workload_dict m0) k = dget (req_workload_dict m) k)
    as Ho by (intros; simpl; by rewrite dget_dset_ne).
  split; [done|]. split.
  { intros len'. unfold compute_and_update. subst res. cbn iota. rewrite Hr.
    unfold add_req_workload. by rewrite (proj2 (dhas_true _ _)) by eauto. }
  destruct (release_both m0 i e id r w first Hr H0 Hw Hf) as (m2 & l2 & Hrun & Hl & Hg & Ho2).
  fold res second in Hrun. rewrite Hrun. split_and!; [done|done| |].
  - intros k Hk. by rewrite Ho2, Ho by done.
  - intros a Ha'. by apply (release_absent m2 i e id r).
Qed.

Lemma allocation_lifecycle_witness :
  let res := Some (mkSR (Some (sample_instance 1 "both")) (Some (sample_endpoint 0))) in
  let '(c0, m0) := compute_and_update (RequestManager_init (Req := unit)) res "a" ALLOCATION 512 in
  c0 = Some (calculate_demand_workload ROLE_U 512, ROLE_U) ∧
  compute_and_update m0 res "a" ALLOCATION 7 = (None, m0).
Proof.
  pose proof (allocation_lifecycle (RequestManager_init (Req := unit)) (sample_instance 1 "both")
    (sample_endpoint 0) "a" ROLE_U 512 RELEASE_TOKENS eq_refl
    ltac:(split; vm_compute; right; eexists _, _; reflexivity) eq_refl ltac:(discriminate)) as H.
  cbv zeta in H |- *. destruct (compute_and_update _ _ _ _ 512) as [c0 m0].
  destruct H as (H1 & H2 & _). split; [exact H1|apply H2].
Defined.

(** Request ids are unique.  Up to 10000 ids drawn from a fresh manager, with a
    clock of sixteen digits that never goes back, are pairwise distinct, whatever
    the random suffixes, because clock and counter alone distinguish them. *)
Theorem request_ids_unique {Req} draws :
  Forall good_draw draws → Sorted (λ a b, a.1 <= b.1) draws → Forall (λ d, 0 <= d.1) draws →
  Z.of_nat (length draws) < 10000 →
  NoDup (draw_ids (RequestManager_init (Req := Req)) draws).
Proof. intros Hg Hs H0 Hl. apply draw_ids_NoDup; simpl; try done; lia. Qed.

Lemma request_ids_unique_witness :
  NoDup (draw_ids (RequestManager_init (Req := unit))
    [(1767225600000000, "deadbeef"%string); (1767225600000000, "deadbeef"%string);
     (1767225600000007, "deadbeef"%string)]).
Proof.
  apply (request_ids_unique (Req := unit)); repeat (constructor; simpl; try lia); reflexivity.
Defined.

(** Deleting a request removes it and every workload recorded for it, in any
    role, and nothing else; of an unknown request nothing changes. *)
Theorem del_req_info_spec {Req} (m : RequestManager Req) id :
  let '(b, m') := del_req_info m id in
  (b = true ↔ is_Some (get_req_info m id)) ∧
  (b = false → m' = m) ∧
  (b = true →
   get_req_info m' id = None ∧ (∀ r, get_req_workload m' (id, r) = None) ∧
   (∀ id', id' ≠ id → get_req_info m' id' = get_req_info m id' ∧
      ∀ r, get_req_workload m' (id', r) = get_req_workload m (id', r))).
Proof.
  unfold del_req_info, get_req_info, get_req_workload.
  destruct (dhas (req_info_dict m) id) eqn:E; simpl.
  - split; [split; [by intros _; apply dhas_true|done]|]. split; [done|]. intros _.
    split; [apply dget_ddel_eq|]. split.
    + intros r. rewrite del_keys_get. case_decide as Hk; [done|].
      apply dget_None_keys. intros Hin. apply Hk. apply list_elem_of_In, filter_In.
      split; [by apply list_elem_of_In|]. by apply bool_decide_eq_true.
    + intros id' Hid. split; [by apply dget_ddel_ne|]. intros r. rewrite del_keys_get.
      case_decide as Hk; [|done]. apply list_elem_of_In, filter_In in Hk as [_ Hk].
      apply bool_decide_eq_true in Hk. by subst.
  - split; [|done]. split; [done|]. intros H%dhas_true. congruence.
Qed.
