(* ===== verification/Recompute.v ===== *)
(** * Recomputation: token caches, request rewriting and what the client sees

    Models [coordinator/router/recompute/] ([common.py], [retry.py], [stream.py]) and
    [coordinator/router/adapters/completion_to_chat.py].  When a decode engine gives up
    a request with the stop reason [recomputed], the coordinator sends it again with
    the token ids generated so far as its prompt.  Bodies are decoded JSON values; a
    chunk of a stream is a string of bytes.  JSON text is read and written by
    parameters. *)

From stdpp Require Import base option list strings pretty sets.
From Stdlib Require Import ZArith Lia Ascii.
From S2P Require Import Prelude Float64 PyText Resources RequestManager.
Open Scope Z_scope.

(** ** Python on JSON values *)

Abbreviation jdict := (dict string json).

(** [v or d]. *)
Definition jor (v d : json) : json := if truthy v then v else d.

(** [v[0]]. *)
Definition jfirst (v : json) : py json :=
  match v with
  | JList (x :: _) => Ret x
  | JList [] => Raise IndexError
  | JStr (String c _) => Ret (JStr (String c ""))
  | JStr _ => Raise IndexError
  | JObj _ => Raise KeyError
  | _ => Raise TypeError
  end.

(** [v.pop(key, None)], for its effect. *)
Definition jdel (v : json) (key : string) : py json :=
  match v with
  | JObj d => Ret (JObj (ddel d key))
  | JList _ => Raise TypeError
  | _ => Raise AttributeError
  end.

(** [for x in v]. *)
Definition jiter (v : json) : py (list json) :=
  match v with
  | JList l => Ret l
  | JObj d => Ret (map JStr (dkeys d))
  | JStr s => Ret (map (λ c, JStr (String c "")) (chars s))
  | _ => Raise TypeError
  end.

Definition is_JList (v : json) : bool := match v with JList _ => true | _ => false end.
Definition is_JObj (v : json) : bool := match v with JObj _ => true | _ => false end.
Definition is_JNull (v : json) : bool := match v with JNull => true | _ => false end.
Definition is_JStr (s : string) (v : json) : bool := match v with JStr s' => bool_decide (s' = s) | _ => false end.
Definition of_list (v : json) : list json := match v with JList l => l | _ => [] end.

(** [int(v)]: towards zero for a float. *)
Definition jint (v : json) : py Z :=
  match v with
  | JInt z => Ret z
  | JBool b => Ret (if b then 1 else 0)
  | JFloat f =>
      match f with
      | SpecFloat.S754_finite s m e => let a := Z.shiftl (Zpos m) e in Ret (if s then - a else a)
      | SpecFloat.S754_zero _ => Ret 0
      | SpecFloat.S754_infinity _ => Raise OverflowError
      | SpecFloat.S754_nan => Raise ValueError
      end
  | JStr s => match py_int 10 s with Some z => Ret z | None => Raise ValueError end
  | _ => Raise TypeError
  end.

(** [v + 1] and [a + v] of a counter and a JSON value. *)
Definition jadd (a b : json) : py json :=
  let num v := match v with JInt z => Some (inl z) | JBool b => Some (inl (if b : bool then 1 else 0)) | JFloat f => Some (inr f) | _ => None end in
  let fl n := match n with inl z => f_of_Z z | inr f => f end in
  match num a, num b with
  | Some (inl x), Some (inl y) => Ret (JInt (x + y))
  | Some x, Some y => Ret (JFloat (fadd (fl x) (fl y)))
  | _, _ => Raise TypeError
  end.

(** [cap - used + 1], and [max(1, v)]. *)
Definition jbudget (cap : json) (used : Z) : py json :=
  match cap with
  | JInt z => Ret (JInt (z - used + 1))
  | JBool b => Ret (JInt ((if b then 1 else 0) - used + 1))
  | JFloat f => Ret (JFloat (fadd (fsub f (f_of_Z used)) (f_of_Z 1)))
  | _ => Raise TypeError
  end.
Definition jmax1 (v : json) : json :=
  match v with
  | JInt z => JInt (Z.max 1 z)
  | JFloat f => if fgt f (f_of_Z 1) then v else JInt 1
  | _ => v
  end.

(** ** Field names *)

Definition MESSAGES : string := "messages".
Definition PROMPT : string := "prompt".
Definition STREAM : string := "stream".
Definition CONTENT : string := "content".
Definition MAX_TOKENS : string := "max_tokens".
Definition COMPLETION_TOKENS : string := "completion_tokens".
Definition PROMPT_TOKEN_IDS : string := "prompt_token_ids".
Definition CHOICES : string := "choices".
Definition USAGE : string := "usage".
Definition TOKEN_IDS : string := "token_ids".
Definition DELTA : string := "delta".
Definition TEXT : string := "text".
Definition MESSAGE : string := "message".
Definition stop_reason : string := "stop_reason".
Definition recomputed : string := "recomputed".

Definition CUMULATIVE_COMPLETION_TOKENS_KEY : string := "_cumulative_completion_tokens".
Definition CLIENT_RETURN_TOKEN_IDS_KEY : string := "_client_return_token_ids".
Definition ORIGIN_MAX_TOKENS_KEY : string := "_origin_max_tokens".
Definition COORDINATOR_ONLY_REQ_KEYS : list string :=
  [ORIGIN_MAX_TOKENS_KEY; CUMULATIVE_COMPLETION_TOKENS_KEY; CLIENT_RETURN_TOKEN_IDS_KEY].
Definition CHAT_ONLY_KEYS_RECOMPUTE : list string :=
  [MESSAGES; "tools"; "tool_choice"; "functions"; "function_call"; "modalities"; "parallel_tool_calls";
   "response_format"; "reasoning_effort"; "include_reasoning"; "audio"; "metadata"]%string.

(** [d.get(key, default)] of a dictionary. *)
Definition dget_or (d : jdict) (key : string) (default : json) : json :=
  match dget d key with Some v => v | None => default end.

(** ** common.py *)

Definition extract_content_from_choice (choice : json) : py string :=
  d ← jget choice DELTA JNull;
  m ← jget choice MESSAGE JNull;
  let delta := jor d (JObj []) in
  let message := jor m (JObj []) in
  raw ← jget delta CONTENT JNull;
  raw ← (if truthy raw then mret raw else jget message CONTENT JNull);
  raw ← (if truthy raw then mret raw else jget choice TEXT JNull);
  mret (match raw with JStr s => s | _ => ""%string end).

(** The mutable [request_info]. *)
Record RecInfo := mkRI {
  stream_flag : bool;
  chat_flag : bool;
  origin_prompt : json;
  origin_max_tokens : json;
  generated_token : string;
  completion_tokens : json;
  cached_prompt_token_ids : option (list json);
  cached_output_token_ids : list json;
  client_return_token_ids : bool;
  recompute_kv_transfer : option (list json * list json);
  recompute_blocked : bool
}.

Definition set_cached (i : RecInfo) p o : RecInfo :=
  mkRI (stream_flag i) (chat_flag i) (origin_prompt i) (origin_max_tokens i) (generated_token i)
    (completion_tokens i) p o (client_return_token_ids i) (recompute_kv_transfer i) (recompute_blocked i).
Definition set_generated (i : RecInfo) g c : RecInfo :=
  mkRI (stream_flag i) (chat_flag i) (origin_prompt i) (origin_max_tokens i) g c
    (cached_prompt_token_ids i) (cached_output_token_ids i) (client_return_token_ids i)
    (recompute_kv_transfer i) (recompute_blocked i).
Definition set_kv (i : RecInfo) kv : RecInfo :=
  mkRI (stream_flag i) (chat_flag i) (origin_prompt i) (origin_max_tokens i) (generated_token i)
    (completion_tokens i) (cached_prompt_token_ids i) (cached_output_token_ids i)
    (client_return_token_ids i) kv (recompute_blocked i).
Definition set_blocked (i : RecInfo) : RecInfo :=
  mkRI (stream_flag i) (chat_flag i) (origin_prompt i) (origin_max_tokens i) (generated_token i)
    (completion_tokens i) (cached_prompt_token_ids i) (cached_output_token_ids i)
    (client_return_token_ids i) (recompute_kv_transfer i) true.

Definition origin_prompt_for_recompute (req_data : jdict) : py json :=
  match dget req_data PROMPT with
  | Some p => mret p
  | None =>
      let messages := jor (dget_or req_data MESSAGES JNull) (JList []) in
      if negb (truthy messages) then mret (JStr "")
      else
        first ← jfirst messages;
        if is_JObj first then jget first CONTENT (JStr "") else mret (JStr "")
  end.

Definition extract_request_info (req_data : jdict) : py RecInfo :=
  prompt ← origin_prompt_for_recompute req_data;
  mret (mkRI (truthy (dget_or req_data STREAM (JBool false))) (dhas req_data MESSAGES) prompt
    (dget_or req_data ORIGIN_MAX_TOKENS_KEY (dget_or req_data MAX_TOKENS (JInt 16)))
    "" (JInt 0) None [] (truthy (dget_or req_data CLIENT_RETURN_TOKEN_IDS_KEY (JBool false))) None false).

(** ** completion_to_chat.py *)

(** [s.replace(old, "")] on characters, with the length as fuel. *)
Fixpoint remove_all (fuel : nat) (old l : list ascii) : list ascii :=
  match fuel with
  | O => l
  | S fuel =>
      match l with
      | [] => []
      | c :: l' =>
          if bool_decide (take (length old) l = old) then remove_all fuel old (drop (length old) l)
          else c :: remove_all fuel old l'
      end
  end.
Definition replace_empty (s old : string) : string :=
  of_chars (remove_all (String.length s) (chars old) (chars s)).

Definition chat_completion_id (req_id : string) : string :=
  "chatcmpl-" +:+ replace_empty (replace_empty req_id "cmpl-") "chatcmpl-".

Definition lift_prompt_token_ids_from_choice (choice response : jdict) : jdict * jdict :=
  let pti := dget_or choice PROMPT_TOKEN_IDS JNull in
  let choice := ddel choice PROMPT_TOKEN_IDS in
  if negb (is_JNull pti) && is_JNull (dget_or response PROMPT_TOKEN_IDS JNull)
  then (choice, dset response PROMPT_TOKEN_IDS pti) else (choice, response).

Definition is_completion_like_stream_chunk (chunk : json) : py bool :=
  o ← jget chunk "object" JNull;
  if is_JStr "text_completion" o then mret true
  else
    c ← jget chunk CHOICES JNull;
    let choices := jor c (JList []) in
    if negb (truthy choices) then mret false
    else
      c0 ← jfirst choices;
      d ← jget c0 DELTA JNull;
      if truthy d then mret false
      else match c0 with JObj d => mret (dhas d TEXT) | _ => Raise AttributeError end.

(** Replaces [choices[0]] of a body. *)
Definition set_first_choice (body : jdict) (c0 : jdict) : jdict :=
  match dget_or body CHOICES JNull with
  | JList (_ :: rest) => dset body CHOICES (JList (JObj c0 :: rest))
  | _ => body
  end.

Definition dset_some (d : jdict) (key : string) (v : json) : jdict := if is_JNull v then d else dset d key v.

(** The chunk and whether the role was sent. *)
Definition adapt_completion_stream_chunk_to_chat (chunk : json) (req_id : string) (role_sent : bool) : py (json * bool) :=
  match chunk with
  | JObj body =>
      let body := dset (dset body "object" (JStr "chat.completion.chunk")) "id" (JStr (chat_completion_id req_id)) in
      let choices := jor (dget_or body CHOICES JNull) (JList []) in
      if negb (truthy choices) then mret (JObj body, role_sent)
      else
        c0 ← jfirst choices;
        match c0 with
        | JObj c0 =>
            let idx := dget_or c0 "index" (JInt 0) in
            let text := jor (dget_or c0 TEXT JNull) (JStr "") in
            let finish := dget_or c0 "finish_reason" JNull in
            let stop := dget_or c0 stop_reason JNull in
            let '(_, body) := lift_prompt_token_ids_from_choice c0 body in
            let delta := if role_sent then [] else [("role"%string, JStr "assistant")] in
            let delta := if truthy text then dset delta CONTENT text else delta in
            let c0 := [("index"%string, idx); (DELTA, JObj delta)] in
            let c0 := dset_some (dset_some c0 "finish_reason" finish) stop_reason stop in
            mret (JObj (set_first_choice body c0), true)
        | _ => Raise AttributeError
        end
  | _ => Raise TypeError
  end.

Definition adapt_completion_nonstream_to_chat (body : jdict) (req_id : string) : py jdict :=
  let body := dset (dset body "object" (JStr "chat.completion")) "id" (JStr (chat_completion_id req_id)) in
  let choices := jor (dget_or body CHOICES JNull) (JList []) in
  if negb (truthy choices) then mret body
  else
    c0 ← jfirst choices;
    match c0 with
    | JObj c0 =>
        let text := jor (dget_or c0 TEXT JNull) (JStr "") in
        let finish := dget_or c0 "finish_reason" JNull in
        let stop := dget_or c0 stop_reason JNull in
        let tokens := dget_or c0 TOKEN_IDS JNull in
        let '(_, body) := lift_prompt_token_ids_from_choice c0 body in
        let c0 := [("index"%string, JInt 0);
                   (MESSAGE, JObj [("role"%string, JStr "assistant"); (CONTENT, text)])] in
        let c0 := dset_some (dset_some (dset_some c0 "finish_reason" finish) stop_reason stop) TOKEN_IDS tokens in
        mret (set_first_choice body c0)
    | _ => Raise AttributeError
    end.

(** ** stream.py *)

(** [sub in s]. *)
Fixpoint has_sub (sub l : list ascii) : bool :=
  bool_decide (take (length sub) l = sub) ||
  match l with [] => false | _ :: l' => has_sub sub l' end.
Definition is_in (sub s : string) : bool := has_sub (chars sub) (chars s).

(** Well-formed UTF-8: what [bytes.decode("utf-8")] accepts. *)
Definition cont (lo hi : Z) (c : ascii) : bool := (lo <=? code c) && (code c <=? hi).
Fixpoint utf8_valid (fuel : nat) (l : list ascii) : bool :=
  match fuel, l with
  | _, [] => true
  | O, _ => false
  | S fuel, a :: l1 =>
      if code a <? 128 then utf8_valid fuel l1
      else match l1 with
      | [] => false
      | b :: l2 =>
          if cont 194 223 a then cont 128 191 b && utf8_valid fuel l2
          else match l2 with
          | [] => false
          | c :: l3 =>
              let lo := if code a =? 224 then 160 else 128 in
              let hi := if code a =? 237 then 159 else 191 in
              if cont 224 239 a then cont lo hi b && cont 128 191 c && utf8_valid fuel l3
              else match l3 with
              | [] => false
              | d :: l4 =>
                  let lo := if code a =? 240 then 144 else 128 in
                  let hi := if code a =? 244 then 143 else 191 in
                  cont 240 244 a && cont lo hi b && cont 128 191 c && cont 128 191 d && utf8_valid fuel l4
              end
          end
      end
  end.
Definition decodes (s : string) : bool := utf8_valid (String.length s) (chars s).

Definition ends_with (s suffix : string) : bool :=
  bool_decide (drop (String.length s - String.length suffix) (chars s) = chars suffix) &&
  (Z.of_nat (String.length suffix) <=? Z.of_nat (String.length s)).

Definition LF : string := String "010" "".
Definition CRLF : string := String "013" LF.
Definition DATA : string := "data: ".

(** ["data: "] is cut off once. *)
Definition without_data (s : string) : string :=
  if startswith s DATA then of_chars (drop 6 (chars s)) else s.

Definition update_token_id_cache (i : RecInfo) (chunk : json) : py RecInfo :=
  pti ← jget chunk PROMPT_TOKEN_IDS JNull;
  pti ← (if is_JNull pti then
           c ← jget chunk CHOICES JNull;
           let choices := jor c (JList []) in
           if truthy choices then
             c0 ← jfirst choices;
             if is_JObj c0 then jget c0 PROMPT_TOKEN_IDS JNull else mret pti
           else mret pti
         else mret pti);
  let i := match pti, cached_prompt_token_ids i with
           | JList l, None => set_cached i (Some l) (cached_output_token_ids i)
           | _, _ => i
           end in
  c ← jget chunk CHOICES JNull;
  let choices := jor c (JList []) in
  if negb (truthy choices) then mret i
  else
    c0 ← jfirst choices;
    t ← jget c0 TOKEN_IDS JNull;
    mret (if is_JList t then set_cached i (cached_prompt_token_ids i) (cached_output_token_ids i ++ of_list t) else i).

Definition fill_recompute_kv_from_token_cache (i : RecInfo) : py RecInfo :=
  match cached_prompt_token_ids i with
  | None | Some [] => Raise (HTTPException 502)
  | Some prompt => Ret (set_kv i (Some (prompt ++ cached_output_token_ids i, prompt)))
  end.

Definition update_completion_tokens (i : RecInfo) (chunk : json) : py RecInfo :=
  usage ← jget chunk USAGE (JObj []);
  n ← (if stream_flag i then mret (JInt 1) else jget usage COMPLETION_TOKENS (JInt 0));
  total ← jadd (completion_tokens i) n;
  mret (set_generated i (generated_token i) total).

Definition strip_choice (keep : bool) (ch : json) : json :=
  match ch with
  | JObj d =>
      let d := if keep then d else ddel (ddel d TOKEN_IDS) PROMPT_TOKEN_IDS in
      JObj (if is_JStr recomputed (dget_or d stop_reason JNull) then dset d stop_reason (JStr "stop") else d)
  | _ => ch
  end.

(** The choices are changed in place, so only a list of them matters. *)
Definition strip_openai_token_id_fields_for_client (obj : json) (keep : bool) : py json :=
  obj ← (if keep then mret obj else jdel obj PROMPT_TOKEN_IDS);
  c ← jget obj CHOICES JNull;
  let choices := jor c (JList []) in
  l ← jiter choices;
  mret (match obj, choices with
        | JObj d, JList (_ :: _) => JObj (dset d CHOICES (JList (map (strip_choice keep) l)))
        | _, _ => obj
        end).

Section text.
(** [json.loads], [None] for [JSONDecodeError], and the compact encoding. *)
Context (json_loads : string → option json) (json_encode : json → string).

Definition parse_stream_chunk_json (chunk : string) : option json :=
  if decodes chunk then
    let s := strip chunk in
    if bool_decide (s = ""%string) then None else json_loads (without_data s)
  else None.

Definition encode_stream_chunk_bytes (original_chunk : string) (chunk_json : json) : string :=
  let payload := json_encode chunk_json in
  let line := if startswith (strip original_chunk) DATA then DATA +:+ payload else payload in
  let suffix :=
    if ends_with original_chunk (CRLF +:+ CRLF) then CRLF +:+ CRLF
    else if ends_with original_chunk (LF +:+ LF) then LF +:+ LF
    else if ends_with original_chunk CRLF then CRLF
    else if ends_with original_chunk LF then LF
    else ""%string in
  line +:+ suffix.

(** What is not JSON is dropped, but for the end marker. *)
Definition not_json (chunk : string) : string :=
  if is_in "[DONE]" (strip chunk) then chunk else ""%string.

Definition strip_stream_chunk_bytes_for_client (chunk : string) (keep : bool) : py string :=
  match parse_stream_chunk_json chunk with
  | None => mret (not_json chunk)
  | Some j => j ← strip_openai_token_id_fields_for_client j keep; mret (encode_stream_chunk_bytes chunk j)
  end.

Definition should_adapt_completion_stream_to_chat (entry_api req_id : string) (chunk : json) : py bool :=
  if bool_decide (entry_api = ""%string) then mret false
  else if negb (is_in "chat" entry_api) then mret false
  else if bool_decide (req_id = ""%string) then mret false
  else is_completion_like_stream_chunk chunk.

(** The information, whether the role was sent, and what the client gets: nothing
    when recomputation is signalled. *)
Definition process_stream_chunk (chunk : string) (i : RecInfo) (retry_count : Z) (entry_api : string)
    (role_sent : bool) (req_id : string) (recompute_enabled : bool) : py (RecInfo * bool * option string) :=
  match parse_stream_chunk_json chunk with
  | None => mret (i, role_sent, Some (not_json chunk))
  | Some j =>
      i ← (if recompute_enabled then update_token_id_cache i j else mret i);
      adapt ← should_adapt_completion_stream_to_chat entry_api req_id j;
      '(j, role_sent) ← (if adapt : bool then adapt_completion_stream_chunk_to_chat j req_id role_sent else mret (j, role_sent));
      let keep := client_return_token_ids i in
      choices ← jget j CHOICES (JList []);
      if negb (truthy choices) then
        j ← strip_openai_token_id_fields_for_client j keep;
        mret (i, role_sent, Some (encode_stream_chunk_bytes chunk j))
      else
        choice0 ← jfirst choices;
        content ← extract_content_from_choice choice0;
        i ← update_completion_tokens (set_generated i (generated_token i +:+ content) (completion_tokens i)) j;
        stop ← jget choice0 stop_reason JNull;
        if is_JStr recomputed stop then
          if recompute_enabled then
            i ← fill_recompute_kv_from_token_cache i;
            mret (i, role_sent, None)
          else mret (set_blocked i, role_sent, None)
        else
          j ← strip_openai_token_id_fields_for_client j keep;
          mret (i, role_sent,
            Some (if (0 <? retry_count) && negb (stream_flag i) then json_encode j else encode_stream_chunk_bytes chunk j))
  end.
End text.

(** ** retry.py *)

(** [f"{n:02d}"] for a number below 100. *)
Definition pad2 (n : Z) : string := if n <? 10 then "0" +:+ pretty n else pretty n.

Definition modify_req_id_retry_segment (req_id : string) : string :=
  let l := chars req_id in
  if bool_decide (16 < Z.of_nat (length l)) then
    let target := of_chars (take 2 (drop 16 l)) in
    if isdigit target then
      match py_int 10 target with
      | Some n => of_chars (take 16 l) +:+ pad2 ((n + 1) mod 100) +:+ of_chars (drop 18 l)
      | None => req_id
      end
    else req_id
  else req_id.

Definition copy_req_data_for_engine (req_data : jdict) : jdict :=
  if existsb (λ k, dhas req_data k) COORDINATOR_ONLY_REQ_KEYS
  then List.filter (λ kv, negb (bool_decide (kv.1 ∈ COORDINATOR_ONLY_REQ_KEYS))) req_data
  else req_data.

Definition is_recomputed_nonstream_response (resp : json) : py bool :=
  c ← jget resp CHOICES JNull;
  let choices := jor c (JList []) in
  if negb (truthy choices) then mret false
  else c0 ← jfirst choices; s ← jget c0 stop_reason JNull; mret (is_JStr recomputed s).

(** [int(v)] with a fallback for [TypeError] and [ValueError]. *)
Definition jint_or (v : json) (fallback : py Z) : py Z :=
  match jint v with
  | Raise TypeError | Raise ValueError => fallback
  | r => r
  end.

Definition validate_nonstream_recompute_body (resp : json) : py unit :=
  c ← jget resp CHOICES JNull;
  let choices := jor c (JList []) in
  if negb (truthy choices) then Raise (HTTPException 502)
  else
    c0 ← jfirst choices;
    if negb (is_JObj c0) then Raise (HTTPException 502)
    else
      p ← jget resp PROMPT_TOKEN_IDS JNull;
      p ← (if is_JNull p then jget c0 PROMPT_TOKEN_IDS JNull else mret p);
      if negb (is_JList p) || negb (truthy p) then Raise (HTTPException 502)
      else
        t ← jget c0 TOKEN_IDS JNull;
        if negb (is_JNull t) && negb (is_JList t) then Raise (HTTPException 502)
        else
          u ← jget resp USAGE JNull;
          let usage := if is_JObj u then u else JObj [] in
          raw ← jget usage COMPLETION_TOKENS (JInt 0);
          ct ← (if is_JNull raw then mret 0 else jint_or raw (Ret 0));
          if (0 <? ct) && (negb (is_JList t) || negb (truthy t)) then Raise (HTTPException 502)
          else mret tt.

(** Whether some part of a message is not text. *)
Fixpoint text_only (parts : list json) : py bool :=
  match parts with
  | [] => mret true
  | p :: parts =>
      if negb (is_JObj p) then text_only parts
      else
        t ← jget p "type" JNull;
        if truthy t && negb (is_JStr "text" t) then mret false else text_only parts
  end.
Fixpoint messages_text_only (messages : list json) : py bool :=
  match messages with
  | [] => mret true
  | m :: messages =>
      c ← jget m "content" JNull;
      ok ← (if is_JList c then text_only (of_list c) else mret true);
      if ok : bool then messages_text_only messages else mret false
  end.

Definition completions_retry_eligible_for_chat_request (req_data : jdict) : py bool :=
  let rf := dget_or req_data "response_format" JNull in
  let rtype := match rf with JObj d => dget_or d "type" JNull | _ => JNull end in
  if negb (is_JNull rf) && (negb (is_JObj rf) || (negb (is_JNull rtype) && negb (is_JStr "text" rtype))) then mret false
  else if truthy (dget_or req_data "tools" JNull) then mret false
  else if truthy (dget_or req_data "logprobs" JNull) then mret false
  else if truthy (dget_or req_data "top_logprobs" JNull) then mret false
  else
    l ← jiter (jor (dget_or req_data MESSAGES JNull) (JList []));
    messages_text_only l.

Definition build_request_info_for_nonstream_recompute (req_data : jdict) (resp : json) : py RecInfo :=
  i ← extract_request_info req_data;
  i ← update_token_id_cache i resp;
  c ← jget resp CHOICES JNull;
  let choices := jor c (JList []) in
  if negb (truthy choices) then fill_recompute_kv_from_token_cache i
  else
    c0 ← jfirst choices;
    content ← extract_content_from_choice c0;
    usage ← jget resp USAGE (JObj []);
    n ← jget usage COMPLETION_TOKENS (JInt 0);
    fill_recompute_kv_from_token_cache (set_generated i content n).

Definition recompute_limit_reached (current_retry_count max_retry : Z) : bool := max_retry <=? current_retry_count.

Section retry.
Context {Scope : Type}.
(** The length of [json.dumps] in UTF-8. *)
Context (json_dumps_len : json → Z).
Abbreviation Req := (RequestInfo jdict Scope).

Definition set_retry_api (r : Req) (a : string) (mode : option string) : Req :=
  mkReq (req_id r) (req_data r) (req_len r) a (entry_api r) mode (client_expects_chat_shape r) (state r)
    (req_status r) (p_cancel_scope r) (d_cancel_scope r).
Definition set_retry_mode (r : Req) (mode : option string) : Req := set_retry_api r (api r) mode.
Definition set_retry_data (r : Req) (d : jdict) (n : Z) : Req :=
  mkReq (req_id r) d n (api r) (entry_api r) (recompute_engine_mode r) (client_expects_chat_shape r) (state r)
    (req_status r) (p_cancel_scope r) (d_cancel_scope r).
Definition set_retry_id (r : Req) (id : string) : Req :=
  mkReq id (req_data r) (req_len r) (api r) (entry_api r) (recompute_engine_mode r) (client_expects_chat_shape r)
    (state r) (req_status r) (p_cancel_scope r) (d_cancel_scope r).

Definition bump_req_id_after_recompute_prepare (r : Req) : Req :=
  set_retry_id r (modify_req_id_retry_segment (req_id r)).

(** The body of the next attempt and the request: what was written before an exception
    stays. *)
Record Retry := mkRetry { rt_data : jdict; rt_req : Req }.
Definition set_data (d : jdict) : M Retry unit := mmodify (λ t, mkRetry d (rt_req t)).

Definition prepare_retry_request (i : RecInfo) : M Retry unit :=
  match recompute_kv_transfer i with
  | None => mraise (HTTPException 502)
  | Some (all_ids, prompt_ids) =>
      t ← mget;
      n_val ← mlift (jint_or (dget_or (rt_data t) "n" (JInt 1)) (Raise (HTTPException 502)));
      if negb (n_val =? 1) then mraise (HTTPException 502)
      else
        let origin_cap := dget_or (rt_data t) ORIGIN_MAX_TOKENS_KEY (origin_max_tokens i) in
        let data := if dhas (rt_data t) ORIGIN_MAX_TOKENS_KEY then rt_data t
                    else dset (rt_data t) ORIGIN_MAX_TOKENS_KEY origin_cap in
        set_data data ;;
        prev ← mlift (jint_or (dget_or data CUMULATIVE_COMPLETION_TOKENS_KEY (JInt 0)) (Ret 0));
        let cumulative := prev + (Z.of_nat (length all_ids) - Z.of_nat (length prompt_ids)) in
        let data := dset data CUMULATIVE_COMPLETION_TOKENS_KEY (JInt cumulative) in
        set_data data ;;
        raw ← mlift (jbudget origin_cap cumulative);
        let data := ddel (dset data MAX_TOKENS (jmax1 raw)) "kv_transfer_params" in
        set_data data ;;
        (if chat_flag i then
           ok ← mlift (completions_retry_eligible_for_chat_request data);
           if negb ok then mraise (HTTPException 502)
           else
             set_data (dset (fold_left ddel CHAT_ONLY_KEYS_RECOMPUTE data) PROMPT (JList all_ids)) ;;
             mmodify (λ t, mkRetry (rt_data t) (set_retry_api (rt_req t) "v1/completions" (Some "completions"%string)))
         else
           set_data (dset data PROMPT (JList all_ids)) ;;
           mmodify (λ t, mkRetry (rt_data t) (set_retry_mode (rt_req t) None))) ;;
        mmodify (λ t, mkRetry (rt_data t)
          (set_retry_data (rt_req t) (rt_data t) (json_dumps_len (JObj (copy_req_data_for_engine (rt_data t))))))
  end.
End retry.

(** ** Lemmas *)

(** *** None of these functions is cancelled *)

Definition sane {A} (m : py A) : Prop := m ≠ Raise CancelledError.

Lemma sane_bind {A B} (m : py A) (k : A → py B) : sane m → (∀ a, sane (k a)) → sane (m ≫= k).
Proof. intros Hm Hk. destruct m as [a|e]; [apply Hk|]. intros [= ->]. by apply Hm. Qed.
Lemma sane_ret {A} (a : A) : sane (mret a).
Proof. done. Qed.

Create HintDb sane.
#[export] Hint Resolve sane_ret : sane.

Ltac sane := repeat first
  [ done | solve [auto with sane nocore] | (apply sane_bind; [|intros ?])
  | match goal with
    | |- sane (match ?x with _ => _ end) => destruct x
    | |- sane (if ?b then _ else _) => destruct b
    end ].

Lemma sane_jget v k d : sane (jget v k d). Proof. by destruct v. Qed.
Lemma sane_jfirst v : sane (jfirst v). Proof. destruct v as [| | | |[]|[]|]; done. Qed.
Lemma sane_jdel v k : sane (jdel v k). Proof. by destruct v. Qed.
Lemma sane_jiter v : sane (jiter v). Proof. by destruct v. Qed.
Lemma sane_jint v : sane (jint v). Proof. unfold jint. sane. Qed.
Lemma sane_jadd a b : sane (jadd a b). Proof. unfold jadd. sane. Qed.
Lemma sane_jbudget c n : sane (jbudget c n). Proof. by destruct c. Qed.
#[export] Hint Resolve sane_jget sane_jfirst sane_jdel sane_jiter sane_jint sane_jadd sane_jbudget : sane.

Lemma sane_jint_or v f : sane f → sane (jint_or v f).
Proof. intros Hf. unfold jint_or. pose proof (sane_jint v). sane. Qed.
Lemma sane_extract_content c : sane (extract_content_from_choice c).
Proof. unfold extract_content_from_choice. sane. Qed.
Lemma sane_extract_info d : sane (extract_request_info d).
Proof. unfold extract_request_info, origin_prompt_for_recompute. sane. Qed.
Lemma sane_cache i j : sane (update_token_id_cache i j).
Proof. unfold update_token_id_cache. sane. Qed.
Lemma sane_fill i : sane (fill_recompute_kv_from_token_cache i).
Proof. unfold fill_recompute_kv_from_token_cache. sane. Qed.
Lemma sane_completion i j : sane (update_completion_tokens i j).
Proof. unfold update_completion_tokens. sane. Qed.
Lemma sane_strip j k : sane (strip_openai_token_id_fields_for_client j k).
Proof. unfold strip_openai_token_id_fields_for_client. sane. Qed.
Lemma sane_like j : sane (is_completion_like_stream_chunk j).
Proof. unfold is_completion_like_stream_chunk. sane. Qed.
Lemma sane_adapt_stream j id b : sane (adapt_completion_stream_chunk_to_chat j id b).
Proof. unfold adapt_completion_stream_chunk_to_chat. sane. Qed.
Lemma sane_adapt b id : sane (adapt_completion_nonstream_to_chat b id).
Proof. unfold adapt_completion_nonstream_to_chat. sane. Qed.
Lemma sane_should a b j : sane (should_adapt_completion_stream_to_chat a b j).
Proof. unfold should_adapt_completion_stream_to_chat. pose proof (sane_like j). sane. Qed.
#[export] Hint Resolve sane_jint_or sane_extract_content sane_extract_info sane_cache sane_fill sane_completion sane_strip
  sane_like sane_adapt_stream sane_adapt sane_should : sane.

Lemma sane_process loads enc chunk i n api b id re : sane (process_stream_chunk loads enc chunk i n api b id re).
Proof. unfold process_stream_chunk. sane. Qed.
Lemma sane_is_recomputed j : sane (is_recomputed_nonstream_response j).
Proof. unfold is_recomputed_nonstream_response. sane. Qed.
Lemma sane_validate j : sane (validate_nonstream_recompute_body j).
Proof. unfold validate_nonstream_recompute_body. sane. Qed.
Lemma sane_build d j : sane (build_request_info_for_nonstream_recompute d j).
Proof. unfold build_request_info_for_nonstream_recompute. sane. Qed.
Lemma sane_text_only l : sane (text_only l).
Proof. induction l; simpl; sane. Qed.
Lemma sane_messages l : sane (messages_text_only l).
Proof. induction l; simpl; [done|]. pose proof sane_text_only. sane. Qed.
Lemma sane_eligible d : sane (completions_retry_eligible_for_chat_request d).
Proof. unfold completions_retry_eligible_for_chat_request. pose proof sane_messages. sane. Qed.
#[export] Hint Resolve sane_process sane_is_recomputed sane_validate sane_build sane_eligible : sane.
