(* ===== verification/Router.v ===== *)
(** * The prefill/decode router of the coordinator

    Models [coordinator/router/strategies/base.py] and [pd_separate.py]: a request is scheduled on a prefill and a decode instance,
    forwarded, retried when the transport fails and sent again when the engine wants
    recomputation.  What the scheduler, the engines and the client do is an
    environment, asked at every [await]; every change of workload the scheduler
    applied is kept in a ledger. *)

From stdpp Require Import base option list strings pretty sets.
From Stdlib Require Import ZArith Lia Ascii.
From S2P Require Import Prelude Float64 PyText Resources RequestManager Recompute.
Open Scope Z_scope.

(** ** Environment *)

Abbreviation Allocation := (Instance * Endpoint * Workload)%type.

(** The answer to [select_and_allocate]: what the scheduler charged, and what the
    caller gets. *)
Record SelReply := mkSel { sel_charged : option Allocation; sel_result : py (option Allocation) }.
(** The answer to [update_workload]: whether it was applied, and what the caller gets. *)
Record UpdReply := mkUpd { upd_applied : bool; upd_result : py bool }.
(** A stream: the chunks that arrive, and the exception that ends it, if any. *)
Record StreamReply := mkStream { st_chunks : list string; st_end : option pyexn }.

Record REnv := mkREnv {
  e_now : nat → f64;
  e_select : nat → PDRole → SelReply;
  e_update : nat → UpdReply;
  e_post : nat → py json;
  e_stream : nat → StreamReply;
  (** The client is gone when a chunk is yielded to it. *)
  e_gone : nat → bool
}.

Record ExceptionConfig := mkExc {
  max_retry : Z;
  transport_retry_limit : Z;
  recompute_retry_limit : Z;
  recompute_enabled : bool
}.

(** ** State *)

(** A change of workload the scheduler applied. *)
Record Charge := mkCharge { ch_role : PDRole; ch_ins : Z; ch_ep : Z; ch_work : Workload }.

(** What the client gets: bytes of a stream, or an error chunk with its code. *)
Inductive Sent := Chunk (s : string) | ErrorChunk (code : Z).

(** A cancel scope: the task that runs under it, and whether it was cancelled. *)
Abbreviation Scope := (nat * bool)%type.
Definition scope_cancelled (c : Scope) : bool := c.2.
Definition scope_cancel (c : Scope) : Scope := (c.1, true).
Abbreviation Req := (RequestInfo jdict Scope).

(** A prefill request of the metaserver: waiting for its instance, with whether its
    scope was cancelled, or over. *)
Inductive Task := Prefilling (res : Instance * Endpoint) (was_cancelled : bool) | Returned (r : py json).

Record RS := mkRS {
  r_req : Req;
  r_mgr : RequestManager Req;
  r_ledger : list Charge;
  r_sent : list Sent;
  r_posted : list jdict;
  first_chunk_sent : bool;
  wants_retry : bool;
  retry_count : Z;
  is_finished : bool;
  stream_chunk_sent : bool;
  r_tick : nat;
  (** Used by the CDP router: the body it passes around, and the prefill tasks. *)
  r_data : jdict;
  r_tasks : list Task
}.

Definition set_req s q := mkRS q (r_mgr s) (r_ledger s) (r_sent s) (r_posted s) (first_chunk_sent s) (wants_retry s)
  (retry_count s) (is_finished s) (stream_chunk_sent s) (r_tick s) (r_data s) (r_tasks s).
Definition set_mgr s m := mkRS (r_req s) m (r_ledger s) (r_sent s) (r_posted s) (first_chunk_sent s) (wants_retry s)
  (retry_count s) (is_finished s) (stream_chunk_sent s) (r_tick s) (r_data s) (r_tasks s).
Definition add_charge s c := mkRS (r_req s) (r_mgr s) (r_ledger s ++ [c]) (r_sent s) (r_posted s) (first_chunk_sent s)
  (wants_retry s) (retry_count s) (is_finished s) (stream_chunk_sent s) (r_tick s) (r_data s) (r_tasks s).
Definition add_sent s x := mkRS (r_req s) (r_mgr s) (r_ledger s) (r_sent s ++ [x]) (r_posted s) (first_chunk_sent s)
  (wants_retry s) (retry_count s) (is_finished s) (stream_chunk_sent s) (r_tick s) (r_data s) (r_tasks s).
Definition add_post s b := mkRS (r_req s) (r_mgr s) (r_ledger s) (r_sent s) (r_posted s ++ [b]) (first_chunk_sent s)
  (wants_retry s) (retry_count s) (is_finished s) (stream_chunk_sent s) (r_tick s) (r_data s) (r_tasks s).
Definition set_first s b := mkRS (r_req s) (r_mgr s) (r_ledger s) (r_sent s) (r_posted s) b (wants_retry s)
  (retry_count s) (is_finished s) (stream_chunk_sent s) (r_tick s) (r_data s) (r_tasks s).
Definition set_wants s b := mkRS (r_req s) (r_mgr s) (r_ledger s) (r_sent s) (r_posted s) (first_chunk_sent s) b
  (retry_count s) (is_finished s) (stream_chunk_sent s) (r_tick s) (r_data s) (r_tasks s).
Definition set_count s n := mkRS (r_req s) (r_mgr s) (r_ledger s) (r_sent s) (r_posted s) (first_chunk_sent s)
  (wants_retry s) n (is_finished s) (stream_chunk_sent s) (r_tick s) (r_data s) (r_tasks s).
Definition set_finished s b := mkRS (r_req s) (r_mgr s) (r_ledger s) (r_sent s) (r_posted s) (first_chunk_sent s)
  (wants_retry s) (retry_count s) b (stream_chunk_sent s) (r_tick s) (r_data s) (r_tasks s).
Definition set_stream_sent s b := mkRS (r_req s) (r_mgr s) (r_ledger s) (r_sent s) (r_posted s) (first_chunk_sent s)
  (wants_retry s) (retry_count s) (is_finished s) b (r_tick s) (r_data s) (r_tasks s).
Definition tick s := mkRS (r_req s) (r_mgr s) (r_ledger s) (r_sent s) (r_posted s) (first_chunk_sent s) (wants_retry s)
  (retry_count s) (is_finished s) (stream_chunk_sent s) (S (r_tick s)) (r_data s) (r_tasks s).

Definition set_rdata s d := mkRS (r_req s) (r_mgr s) (r_ledger s) (r_sent s) (r_posted s) (first_chunk_sent s)
  (wants_retry s) (retry_count s) (is_finished s) (stream_chunk_sent s) (r_tick s) d (r_tasks s).
Definition set_tasks s l := mkRS (r_req s) (r_mgr s) (r_ledger s) (r_sent s) (r_posted s) (first_chunk_sent s)
  (wants_retry s) (retry_count s) (is_finished s) (stream_chunk_sent s) (r_tick s) (r_data s) l.

(** ** base.py *)

Section router.
Context (json_loads : string → option json) (json_encode : json → string) (json_dumps_len : json → Z).
Context (env : REnv) (cfg : ExceptionConfig).

(** The next answer of the environment. *)
Definition ask {A} (f : nat → A) : M RS A := λ s, (tick s, Ret (f (r_tick s))).

Definition set_state (st : ReqState) : M RS unit :=
  now ← ask (e_now env);
  mmodify (λ s, set_req s (update_state now (r_req s) st)).

Definition error_code (e : pyexn) : Z :=
  match e with
  | HTTPException c => c
  | TransportError (Some c) => c
  | _ => 500
  end.

(** [yield x]: the client may be gone. *)
Definition yield (x : Sent) : M RS unit :=
  mmodify (λ s, add_sent s x) ;;
  gone ← ask (e_gone env);
  if gone : bool then mraise CancelledError else mret tt.

Definition charge_of (a : Allocation) : Charge :=
  let '(i, e, w) := a in
  mkCharge (match normalize_role i with Some r => r | None => ROLE_U end) (ins_id i) (ep_id e) w.

(** One try of [prepare_resource]. *)
Definition prepare_once (rl : PDRole) : M RS (Instance * Endpoint) :=
  r ← ask (λ t, e_select env t rl);
  (match sel_charged r with Some a => mmodify (λ s, add_charge s (charge_of a)) | None => mret tt end) ;;
  res ← mlift (sel_result r);
  match res with
  | None => mraise ValueError
  | Some (i, e, w) =>
      s ← mget;
      let '(added, m) := add_req_workload (r_mgr s) (req_id (r_req s), rl) w in
      mmodify (λ s, set_mgr s m) ;;
      if added : bool then
        set_state (if decide (rl = ROLE_P) then P_ALLOCATED else D_ALLOCATED) ;;
        mret (i, e)
      else mraise RuntimeError
  end.

Fixpoint prepare_loop (attempts : nat) (rl : PDRole) : M RS (Instance * Endpoint) :=
  match attempts with
  | O => set_state EXCEPTION ;; mraise (HTTPException 503)
  | S attempts => mexcept (prepare_once rl) (λ _, prepare_loop attempts rl)
  end.

Definition prepare_resource (rl : PDRole) : M RS (Instance * Endpoint) :=
  set_state (if decide (rl = ROLE_P) then P_SCHEDULING else D_SCHEDULING) ;;
  prepare_loop (Z.to_nat (max_retry cfg)) rl.

Definition update_workload (res : Instance * Endpoint) (action : WorkloadAction) : M RS bool :=
  s ← mget;
  let '(change, m) := compute_and_update (r_mgr s) (Some (mkSR (Some res.1) (Some res.2)))
                        (req_id (r_req s)) action (req_len (r_req s)) in
  mmodify (λ s, set_mgr s m) ;;
  match change with
  | None => mret false
  | Some (w, r) =>
      u ← ask (e_update env);
      (if upd_applied u then mmodify (λ s, add_charge s (mkCharge r (ins_id res.1) (ep_id res.2) w)) else mret tt) ;;
      mlift (upd_result u)
  end.

Definition release_tokens res : M RS bool := update_workload res RELEASE_TOKENS.
Definition release_kv res : M RS bool := update_workload res RELEASE_KV.
Definition release_all res : M RS bool :=
  a ← release_tokens res;
  b ← release_kv res;
  mret (a && b).
Definition ignore {A} (m : M RS A) : M RS unit := m ;; mret tt.

(** The request to a prefill instance. *)
Definition apply_prefill_params (req_data : jdict) (kv : option json) (set_min_tokens : bool) : jdict :=
  let p := match kv with Some v => dset req_data "kv_transfer_params" v | None => req_data end in
  let p := dset (dset p STREAM (JBool false)) MAX_TOKENS (JInt 1) in
  let p := if set_min_tokens then dset p "min_tokens" (JInt 1) else p in
  ddel p "stream_options".

(** [wait] is what other tasks do while the answer is awaited. *)
Definition forward_request_at (wait : M RS unit) (req_data : jdict) : M RS json :=
  mmodify (λ s, add_post s (copy_req_data_for_engine req_data)) ;;
  wait ;;
  r ← ask (e_post env);
  mlift r.
Definition forward_request : jdict → M RS json := forward_request_at (mret tt).

(** Cutting the bytes received into frames that end with an empty line. *)
Definition frame_end (l : list ascii) : option nat :=
  let lf := find_sub (chars (LF +:+ LF)) l 0 in
  let crlf := find_sub (chars (CRLF +:+ CRLF)) l 0 in
  match crlf, lf with
  | Some j, Some i => if (j <? i)%nat then Some (j + 4)%nat else Some (i + 2)%nat
  | Some j, None => Some (j + 4)%nat
  | None, Some i => Some (i + 2)%nat
  | None, None => None
  end.

Fixpoint split_frames (fuel : nat) (pending : list ascii) : list (list ascii) * list ascii :=
  match fuel with
  | O => ([], pending)
  | S fuel =>
      match frame_end pending with
      | None => ([], pending)
      | Some n =>
          let '(frames, rest) := split_frames fuel (drop n pending) in
          (take n pending :: frames, rest)
      end
  end.
Definition cut (pending : list ascii) : list (list ascii) * list ascii := split_frames (S (length pending)) pending.

(** [forward_stream_request], with the body of the [async for] over it: [None] leaves
    the loop. *)
Section forward_stream.
Context {L : Type} (body : string → L → M RS (option L)).

Fixpoint each_frame (frames : list (list ascii)) (l : L) : M RS (option L) :=
  match frames with
  | [] => mret (Some l)
  | f :: frames =>
      r ← body (of_chars f) l;
      match r with None => mret None | Some l => each_frame frames l end
  end.

Fixpoint each_chunk (chunks : list string) (ending : option pyexn) (pending : list ascii) (l : L) : M RS (option L) :=
  match chunks with
  | [] =>
      match ending with
      | Some e => mraise e
      | None => if decide (pending = []) then mret (Some l) else body (of_chars pending) l
      end
  | c :: chunks =>
      s ← mget;
      (if negb (first_chunk_sent s) && negb (bool_decide (c = ""%string)) then
         mmodify (λ s, set_first s true) ;; set_state FIRST_TOKEN_FINISH
       else mret tt) ;;
      let '(frames, pending) := cut (pending ++ chars c) in
      r ← each_frame frames l;
      match r with None => mret None | Some l => each_chunk chunks ending pending l end
  end.

Definition forward_stream_at (wait : M RS unit) (req_data : jdict) (l : L) : M RS (option L) :=
  mmodify (λ s, add_post (set_first s false) (copy_req_data_for_engine req_data)) ;;
  wait ;;
  r ← ask (e_stream env);
  each_chunk (st_chunks r) (st_end r) [] l.
Definition forward_stream_request : jdict → L → M RS (option L) := forward_stream_at (mret tt).
End forward_stream.

Definition check_recompute_limit (count : Z) : M RS unit :=
  if recompute_limit_reached count (recompute_retry_limit cfg) then mraise (HTTPException 503) else mret tt.

(** [_prepare_recompute_retry], with the body it rewrites. *)
Definition prepare_recompute_retry (req_data : jdict) (i : RecInfo) : M RS unit :=
  if negb (recompute_enabled cfg) then mraise (HTTPException 503)
  else λ s,
    let '(t, r) := prepare_retry_request json_dumps_len i (mkRetry req_data (r_req s)) in
    (set_req s (rt_req t), r).

Definition bump_req_id : M RS unit := mmodify (λ s, set_req s (bump_req_id_after_recompute_prepare (r_req s))).

(** ** pd_separate.py *)

Definition gen_p_request (req_data : jdict) : jdict :=
  apply_prefill_params req_data
    (Some (JObj [("do_remote_decode"%string, JBool true); ("do_remote_prefill"%string, JBool false);
                 ("remote_engine_id"%string, JNull); ("remote_block_ids"%string, JNull); ("remote_host"%string, JNull);
                 ("remote_port"%string, JNull); ("aborted_request"%string, JList [])])) true.

Definition forward_p_request (res : Instance * Endpoint) : M RS json :=
  s ← mget;
  resp ← forward_request (gen_p_request (req_data (r_req s)));
  set_state PREFILL_END ;;
  ignore (release_tokens res) ;;
  mret resp.

Definition gen_d_request (resp : json) : M RS jdict :=
  s ← mget;
  kv ← mlift (jget resp "kv_transfer_params" (JObj []));
  let d := req_data (r_req s) in
  let d := if truthy kv then dset d "kv_transfer_params" kv else d in
  let ids := if recompute_enabled cfg then JBool true else dget_or d CLIENT_RETURN_TOKEN_IDS_KEY (JBool false) in
  mret (dset d "return_token_ids" ids).

Definition handle_stream_error (pres : Instance * Endpoint) : M RS unit :=
  s ← mget;
  if negb (first_chunk_sent s) then ignore (release_kv pres) else mret tt.

Definition handle_recomputation (req_data : jdict) (i : RecInfo) (pres : Instance * Endpoint) (prefill_kv_released : bool)
    : M RS unit :=
  s ← mget;
  check_recompute_limit (retry_count s) ;;
  mmodify (λ s, set_wants s true) ;;
  set_state RECOMPUTE ;;
  (if negb prefill_kv_released then ignore (release_kv pres) else mret tt) ;;
  prepare_recompute_retry req_data i ;;
  mmodify (λ s, set_count s (retry_count s + 1)).

(** What the loop over the chunks keeps: whether the prefill KV cache was released,
    the request information, and whether the role was sent. *)
Record DLocal := mkDL { dl_released : bool; dl_info : RecInfo; dl_role_sent : bool }.

Definition on_decode_chunk (req_data : jdict) (pres : Instance * Endpoint) (chunk : string) (l : DLocal) : M RS (option DLocal) :=
  let first := negb (dl_released l) && negb (bool_decide (chunk = ""%string)) in
  (if first then ignore (release_kv pres) else mret tt) ;;
  let released := dl_released l || first in
  s ← mget;
  '(i, role_sent, out) ← mlift (process_stream_chunk json_loads json_encode chunk (dl_info l) (retry_count s)
     (effective_entry_api (r_req s)) (dl_role_sent l) (req_id (r_req s)) (recompute_enabled cfg));
  match out with
  | None =>
      if recompute_blocked i then mraise (HTTPException 503)
      else handle_recomputation req_data i pres released ;; mret None
  | Some out =>
      (if bool_decide (out = ""%string) then mret tt
       else mmodify (λ s, set_stream_sent s true) ;; yield (Chunk out)) ;;
      mret (Some (mkDL released i role_sent))
  end.

Definition process_stream_chunks (req_data : jdict) (i : RecInfo) (pres : Instance * Endpoint) : M RS unit :=
  ignore (forward_stream_request (on_decode_chunk req_data pres) req_data (mkDL false i false)).

Definition forward_d_request (resp : json) (pres : Instance * Endpoint) : M RS unit :=
  mexcept
    (d ← gen_d_request resp;
     i ← mlift (extract_request_info d);
     process_stream_chunks d i pres ;;
     s ← mget;
     if negb (wants_retry s) then set_state DECODE_END else mret tt)
    (λ e, handle_stream_error pres ;; mraise e).

Definition last_attempt (attempt : Z) : bool := attempt =? transport_retry_limit cfg - 1.

(** The prefill half: the resource and the response, or how the attempt ended. *)
Definition prefill_half {A} (attempt : Z) (retry : A) (on_error : pyexn → M RS A) : M RS ((Instance * Endpoint) * json + A) :=
  let failed e : M RS ((Instance * Endpoint) * json + A) :=
    if negb (last_attempt attempt) then mmodify (λ s, set_finished s false) ;; mret (inr retry)
    else a ← on_error e; mret (inr a) in
  r ← mexcept (r ← prepare_resource ROLE_P; mret (inl r)) (λ e, a ← failed e; mret (inr a));
  match r with
  | inr a => mret a
  | inl pres =>
      mfinally
        (mexcept (p ← forward_p_request pres; mret (inl (pres, p))) failed)
        (s ← mget;
         if decide (state (r_req s) = PREFILL_END) then mret tt else ignore (release_all pres))
  end.

Definition stream_failed (e : pyexn) : M RS unit :=
  yield (ErrorChunk (error_code e)) ;; mmodify (λ s, set_finished s true).

(** What [process_single_attempt] does with an exception of the decode half. *)
Definition decode_failed (attempt : Z) (pres : Instance * Endpoint) (e : pyexn) : M RS unit :=
  match e with
  | HTTPException _ => handle_stream_error pres ;; stream_failed e
  | _ =>
      handle_stream_error pres ;;
      s ← mget;
      if stream_chunk_sent s || last_attempt attempt then stream_failed e
      else mraise DecodeTransportRetry
  end.

Definition process_single_attempt (attempt : Z) : M RS unit :=
  pr ← prefill_half attempt tt stream_failed;
  match pr with
  | inr _ => mret tt
  | inl (pres, p) =>
      r ← mexcept (r ← prepare_resource ROLE_D; mret (Some r)) (λ e, decode_failed attempt pres e ;; mret None);
      match r with
      | None => mret tt
      | Some dres =>
          mfinally
            (mexcept
               (forward_d_request p pres ;;
                s ← mget;
                if negb (wants_retry s) then mmodify (λ s, set_finished s true) else mret tt)
               (decode_failed attempt pres))
            (ignore (release_tokens dres))
      end
  end.

(** How a loop went on: the request is over, the next transport attempt follows, or
    the fuel is used up. *)
Inductive LoopEnd := Done | NextAttempt | OutOfFuel.

Fixpoint stream_while (fuel : nat) (attempt : Z) : M RS LoopEnd :=
  match fuel with
  | O => mret OutOfFuel
  | S fuel =>
      mmodify (λ s, set_wants (set_stream_sent (set_first s false) false) false) ;;
      transport ← (λ s, match process_single_attempt attempt s with
                        | (s, Raise DecodeTransportRetry) => (s, Ret true)
                        | (s, Raise e) => (s, Raise e)
                        | (s, Ret _) => (s, Ret false)
                        end);
      s ← mget;
      (if wants_retry s then bump_req_id else mret tt) ;;
      s ← mget;
      if is_finished s then mret Done
      else if transport : bool then mret NextAttempt
      else if wants_retry s then stream_while fuel attempt
      else mret NextAttempt
  end.

(** [for attempt in range(tmax)], from [attempt] on. *)
Fixpoint stream_for (fuel : nat) (attempts : nat) (attempt : Z) : M RS LoopEnd :=
  match attempts with
  | O => mret NextAttempt
  | S attempts =>
      r ← stream_while fuel attempt;
      match r with
      | NextAttempt => stream_for fuel attempts (attempt + 1)
      | r => mret r
      end
  end.

Definition generate_stream (fuel : nat) : M RS LoopEnd := stream_for fuel (Z.to_nat (transport_retry_limit cfg)) 0.

(** *** Without streaming *)

(** A response: its code and its body, [None] for an error body. *)
Record Response := mkResp { resp_code : Z; resp_body : option json }.
Definition error_response (e : pyexn) : Response := mkResp (error_code e) None.

Definition client_keeps_ids (s : RS) : bool :=
  truthy (dget_or (req_data (r_req s)) CLIENT_RETURN_TOKEN_IDS_KEY (JBool false)).

(** The body for the client: in the shape of the entry API, without token ids. *)
Definition client_body (body : json) : M RS json :=
  s ← mget;
  body ← (match body with
          | JObj b =>
              if is_in "chat" (effective_entry_api (r_req s)) && is_JStr "text_completion" (dget_or b "object" JNull)
              then b ← mlift (adapt_completion_nonstream_to_chat b (req_id (r_req s))); mret (JObj b)
              else mret body
          | _ => if is_in "chat" (effective_entry_api (r_req s)) then mraise AttributeError else mret body
          end);
  mlift (strip_openai_token_id_fields_for_client body (client_keeps_ids s)).

(** The body, or nothing when recomputation is scheduled. *)
Definition fetch_nonstream_decode_body (d : jdict) (pres dres : Instance * Endpoint) : M RS (option json) :=
  mfinally
    (body ← forward_request d;
     again ← mlift (is_recomputed_nonstream_response body);
     if again : bool then
       if negb (recompute_enabled cfg) then mraise (HTTPException 503)
       else
         s ← mget;
         check_recompute_limit (retry_count s) ;;
         mmodify (λ s, set_wants s true) ;;
         set_state RECOMPUTE ;;
         mlift (validate_nonstream_recompute_body body) ;;
         i ← mlift (build_request_info_for_nonstream_recompute d body);
         ignore (release_kv pres) ;;
         prepare_recompute_retry d i ;;
         mmodify (λ s, set_count s (retry_count s + 1)) ;;
         mret None
     else
       ignore (release_kv pres) ;;
       mmodify (λ s, set_first s true) ;;
       body ← client_body body;
       mret (Some body))
    (ignore (release_tokens dres)).

Definition nonstream_failed (e : pyexn) : M RS (option Response) :=
  mmodify (λ s, set_finished s true) ;; mret (Some (error_response e)).

Definition nonstream_single_attempt (attempt : Z) : M RS (option Response) :=
  pr ← prefill_half attempt None nonstream_failed;
  match pr with
  | inr r => mret r
  | inl (pres, p) =>
      mexcept
        (dres ← prepare_resource ROLE_D;
         d ← mexcept (gen_d_request p) (λ e, ignore (release_tokens dres) ;; mraise e);
         body ← fetch_nonstream_decode_body d pres dres;
         match body with
         | Some body =>
             set_state DECODE_END ;;
             mmodify (λ s, set_finished s true) ;;
             mret (Some (mkResp 200 (Some body)))
         | None => mret None
         end)
        (λ e,
         handle_stream_error pres ;;
         s ← mget;
         match e with
         | HTTPException _ => nonstream_failed e
         | _ => if first_chunk_sent s || last_attempt attempt then nonstream_failed e else mret None
         end)
  end.

(** The response, or how the loop went on. *)
Fixpoint nonstream_while (fuel : nat) (attempt : Z) : M RS (Response + LoopEnd) :=
  match fuel with
  | O => mret (inr OutOfFuel)
  | S fuel =>
      mmodify (λ s, set_wants (set_first s false) false) ;;
      r ← nonstream_single_attempt attempt;
      match r with
      | Some r => mret (inl r)
      | None =>
          s ← mget;
          (if wants_retry s then bump_req_id else mret tt) ;;
          if is_finished s then mret (inl (error_response RuntimeError))
          else if wants_retry s then nonstream_while fuel attempt
          else mret (inr NextAttempt)
      end
  end.

Fixpoint nonstream_for (fuel : nat) (attempts : nat) (attempt : Z) : M RS (Response + LoopEnd) :=
  match attempts with
  | O => mret (inl (error_response RuntimeError))
  | S attempts =>
      r ← nonstream_while fuel attempt;
      match r with
      | inr NextAttempt => nonstream_for fuel attempts (attempt + 1)
      | r => mret r
      end
  end.

Definition generate_nonstream_json (fuel : nat) : M RS (Response + LoopEnd) :=
  nonstream_for fuel (Z.to_nat (transport_retry_limit cfg)) 0.
End router.

(** ** Samples *)

Definition sample_loads (s : string) : option json :=
  if decide (s = "A"%string) then
    Some (JObj [(CHOICES, JList [JObj [(TEXT, JStr "hi"); (TOKEN_IDS, JList [JInt 7]); (PROMPT_TOKEN_IDS, JList [JInt 1; JInt 2])]])])
  else if decide (s = "R"%string) then
    Some (JObj [(CHOICES, JList [JObj [(TEXT, JStr ""); (stop_reason, JStr recomputed); (TOKEN_IDS, JList [JInt 8])]])])
  else None.
Definition sample_encode (j : json) : string := "json".
Definition frame (s : string) : string := DATA +:+ s +:+ LF +:+ LF.
Definition p_ins : Instance := sample_instance 1 "prefill".
Definition d_ins : Instance := sample_instance 2 "decode".
Definition u_ins : Instance := sample_instance 3 "both".
Definition sample_select (t : nat) (rl : PDRole) : SelReply :=
  let i := match rl with ROLE_P => p_ins | ROLE_D => d_ins | ROLE_U => u_ins end in
  let a := (i, sample_endpoint 0, calculate_demand_workload rl 10) in
  mkSel (Some a) (Ret (Some a)).
Definition sample_env (st : nat → StreamReply) : REnv :=
  mkREnv (λ t, f_of_Z (Z.of_nat t)) sample_select (λ _, mkUpd true (Ret true)) (λ _, Ret (JObj [])) st (λ _, false).
Definition sample_posts (j : json) : REnv :=
  mkREnv (λ t, f_of_Z (Z.of_nat t)) sample_select (λ _, mkUpd true (Ret true)) (λ _, Ret j) (λ _, mkStream [] None) (λ _, false).
Definition sample_cfg : ExceptionConfig := mkExc 3 2 5 true.
Definition sample_body : jdict := [("prompt"%string, JStr "x"); (MAX_TOKENS, JInt 10); (STREAM, JBool true)].
Definition sample_rs : RS :=
  mkRS (RequestInfo_init f0 "1234567890123456000000abcdef01" sample_body 10 "v1/completions" "v1/completions")
    RequestManager_init [] [] [] false false 0 false false 0 [] [].
