(* ===== verification/RouterLedger.v ===== *)
(** * What a request charges is given back

    The ledger of charges of one request through [SeparatePDRouter]: which runs leave
    every charge refunded and no record behind, and which runs leak. *)

From stdpp Require Import base option list strings pretty sets.
From Stdlib Require Import ZArith Lia Ascii.
From S2P Require Import Prelude Float64 PyText Resources RequestManager Recompute Router.
Open Scope Z_scope.

(** A step that cannot fail, before the rest. *)
Lemma triple_seq {S A B} P (m : M S B) R (k : M S A) Q E :
  triple P m (λ _, R) (λ _ _, False) → triple R k Q E → triple P (m ;; k) Q E.
Proof. intros Hm Hk. apply (triple_bind m (λ _, k) P (λ _, R)); [|auto]. by eapply triple_conseq. Qed.

(** Two triples of one computation hold together. *)
Lemma triple_and {S A} P P' (m : M S A) Q Q' E E' :
  triple P m Q E → triple P' m Q' E' → triple (λ s, P s ∧ P' s) m (λ a s, Q a s ∧ Q' a s) (λ e s, E e s ∧ E' e s).
Proof. intros H H' s [Hs Hs']. specialize (H s Hs). specialize (H' s Hs'). by destruct (m s) as [s' [a|e]]. Qed.

Lemma triple_preserves {S A} F (m : M S A) : preserves F m → triple F m (λ _, F) (λ _, F).
Proof. intros H s Hs. specialize (H s Hs). by destruct (m s) as [s' [a|e]]. Qed.

(** ** Settled ledgers *)

Definition same_place (a c : Charge) : Prop := ch_ins c = ch_ins a ∧ ch_ep c = ch_ep a.

(** What a sequence of charges leaves on an endpoint that had nothing, in binary64. *)
Definition outstanding (l : list Charge) : Workload := fold_left workload_iadd (map ch_work l) Workload0.

(** The charges of one role: allocations one after the other, each followed by the
    refunds, on the same endpoint, that bring it back to zero. *)
Inductive settled : list Charge → Prop :=
| settled_nil : settled []
| settled_group pre a cs :
    settled pre → Forall (same_place a) cs → outstanding (a :: cs) = Workload0 → settled (pre ++ a :: cs).

(** The last allocation is not given back in full: [w] is left on the endpoint. *)
Definition open_on (l : list Charge) (res : Instance * Endpoint) (w : Workload) : Prop :=
  ∃ pre a cs, l = pre ++ a :: cs ∧ settled pre ∧ ch_ins a = ins_id res.1 ∧ ch_ep a = ep_id res.2 ∧
    Forall (same_place a) cs ∧ outstanding (a :: cs) = w ∧ clean_w w.

Definition role_ledger (l : list Charge) (r : PDRole) : list Charge := List.filter (λ c, bool_decide (ch_role c = r)) l.

Lemma outstanding_snoc l c : outstanding (l ++ [c]) = workload_iadd (outstanding l) (ch_work c).
Proof. unfold outstanding. by rewrite map_app, fold_left_app. Qed.

Lemma open_refund l res w c :
  open_on l res w → ch_ins c = ins_id res.1 → ch_ep c = ep_id res.2 →
  (workload_iadd w (ch_work c) = Workload0 → settled (l ++ [c])) ∧
  (clean_w (workload_iadd w (ch_work c)) → open_on (l ++ [c]) res (workload_iadd w (ch_work c))).
Proof.
  intros (pre & a & cs & -> & Hp & Hi & He & Hs & Ho & Hc) Hci Hce.
  assert (Forall (same_place a) (cs ++ [c])) as Hs'.
  { apply Forall_app. split; [done|]. apply Forall_singleton. split; congruence. }
  assert (outstanding (a :: cs ++ [c]) = workload_iadd w (ch_work c)) as Ho'.
  { rewrite app_comm_cons, outstanding_snoc. by rewrite Ho. }
  rewrite <- app_assoc. simpl. split.
  - intros Hz. apply settled_group; [done|done|]. by rewrite Ho'.
  - intros Hw. exists pre, a, (cs ++ [c]). by split_and!.
Qed.

Lemma role_ledger_snoc l c r :
  role_ledger (l ++ [c]) r = if decide (ch_role c = r) then role_ledger l r ++ [c] else role_ledger l r.
Proof.
  unfold role_ledger. rewrite List.filter_app. simpl. case_decide as H.
  - rewrite bool_decide_eq_true_2 by done. done.
  - rewrite bool_decide_eq_false_2 by done. by rewrite app_nil_r.
Qed.

(** ** What the request holds *)

(** Nothing, an allocation of which the KV cache and the tokens may be left, or a role
    of which nothing is claimed. *)
Inductive hold := Free | Held (kv tok : bool) (res : Instance * Endpoint) | Any.

Section ledger.
Context (json_loads : string → option json) (json_encode : json → string) (json_dumps_len : json → Z).
Context (env : REnv) (cfg : ExceptionConfig).

(** The ids this request can have: closed under the change of a retry. *)
Context (own : string → Prop) (own_bump : ∀ id, own id → own (modify_req_id_retry_segment id)).

Definition slot (s : RS) (r : PDRole) : option Workload := dget (req_workload_dict (r_mgr s)) (req_id (r_req s), r).

Definition acc (s : RS) (r : PDRole) (h : hold) : Prop :=
  match h with
  | Free => slot s r = None ∧ settled (role_ledger (r_ledger s) r)
  | Held kv tok res =>
      normalize_role res.1 = Some r ∧
      match slot s r with
      | None => settled (role_ledger (r_ledger s) r)
      | Some w =>
          open_on (role_ledger (r_ledger s) r) res w ∧ (kv || tok = true) ∧
          (kv = false → active_kv_cache w = f0) ∧ (tok = false → active_tokens w = f0)
      end
  | Any => True
  end.

Definition J (h : PDRole → hold) (s : RS) : Prop :=
  own (req_id (r_req s)) ∧
  (∀ id r, h r ≠ Any → own id → id ≠ req_id (r_req s) → dget (req_workload_dict (r_mgr s)) (id, r) = None) ∧
  ∀ r, acc s r (h r).

Definition upd (h : PDRole → hold) (r : PDRole) (x : hold) : PDRole → hold := λ r', if decide (r' = r) then x else h r'.

Lemma upd_any h r x r' : h r ≠ Any → upd h r x r' ≠ Any → h r' ≠ Any.
Proof. unfold upd. case_decide; [by subst|done]. Qed.

(** The parts of the state that decide what is held. *)
Lemma J_frame h s s' :
  req_id (r_req s') = req_id (r_req s) → req_workload_dict (r_mgr s') = req_workload_dict (r_mgr s) →
  r_ledger s' = r_ledger s → J h s → J h s'.
Proof.
  intros H1 H2 H3 (A & B & C). unfold J, acc, slot in *. rewrite H1, H2, H3. done.
Qed.

Lemma J_weaken h h' s :
  (∀ r, h' r = h r ∨ h r = Free ∧ (∃ kv tok res, h' r = Held kv tok res ∧ normalize_role res.1 = Some r) ∨
        (∃ res, h r = Held false false res ∧ h' r = Free)) → J h s → J h' s.
Proof.
  intros Hh (A & B & C). split; [done|]. split.
  { intros id r Hn. apply B. destruct (Hh r) as [Er|[[Er _]|(res & Er & _)]]; congruence. }
  intros r. specialize (C r). destruct (Hh r) as [->|[[Hf (kv & tok & res & -> & Hr)]|(res & Hf & ->)]]; [done| |]; rewrite Hf in C; simpl in *.
  - destruct C as [-> C]. by split.
  - destruct C as [_ C]. by destruct (slot s r) as [w|] eqn:E; [destruct C as (_ & ? & _)|].
Qed.

Definition release (a : WorkloadAction) (h : hold) : hold :=
  match h with
  | Free => Free
  | Held kv tok res => Held (kv && negb (bool_decide (a = RELEASE_KV))) (tok && negb (bool_decide (a = RELEASE_TOKENS))) res
  | Any => Any
  end.

(** No answer of the scheduler is lost: what was charged is told, what is refunded is
    applied. *)
Record accounts : Prop := {
  rel_select : ∀ t rl,
    match e_select env t rl with
    | mkSel (Some (i, e, w)) (Ret (Some x)) =>
        x = (i, e, w) ∧ normalize_role i = Some rl ∧ clean_w w ∧ (rl = ROLE_D → active_kv_cache w = f0)
    | mkSel None (Ret None) => True
    | mkSel None (Raise e) => e ≠ CancelledError
    | _ => False
    end;
  rel_update : ∀ t, upd_applied (e_update env t) = true ∧ ∃ b, upd_result (e_update env t) = Ret b
}.
(** The task is not cancelled. *)
Record calm : Prop := {
  rel_post : ∀ t, e_post env t ≠ Raise CancelledError;
  rel_gone : ∀ t, e_gone env t = false
}.
Context (Hrel : accounts) (Hcalm : calm).
Definition reliable : Prop := accounts ∧ calm.

(** *** Quiet steps *)

Definition quiet {A} (m : M RS A) : Prop := ∀ s,
  req_id (r_req (m s).1) = req_id (r_req s) ∧ r_mgr (m s).1 = r_mgr s ∧ r_ledger (m s).1 = r_ledger s.

Lemma quiet_J {A} (m : M RS A) h s : quiet m → J h s → J h (m s).1.
Proof. intros Hq. destruct (Hq s) as (H1 & H2 & H3). apply J_frame; [done|by rewrite H2|done]. Qed.

Lemma quiet_modify f :
  (∀ s, req_id (r_req (f s)) = req_id (r_req s) ∧ r_mgr (f s) = r_mgr s ∧ r_ledger (f s) = r_ledger s) → quiet (mmodify f).
Proof. intros H s. apply H. Qed.

Lemma triple_quiet f h : (∀ s, req_id (r_req (f s)) = req_id (r_req s) ∧ r_mgr (f s) = r_mgr s ∧ r_ledger (f s) = r_ledger s) →
  triple (J h) (mmodify f) (λ _, J h) (λ _ _, False).
Proof. intros H. apply triple_modify. intros s Hs. by apply (quiet_J (mmodify f) h s (quiet_modify f H)). Qed.

Lemma triple_ask {A} (f : nat → A) h : triple (J h) (ask f) (λ a s, J h s ∧ ∃ t, a = f t) (λ _ _, False).
Proof. intros s Hs. simpl. split; [by apply (J_frame h s)|eauto]. Qed.

Lemma triple_state_J st h : triple (J h) (set_state env st) (λ _, J h) (λ _ _, False).
Proof. intros s Hs. simpl. by apply (J_frame h s). Qed.

(** *** Releases *)

Lemma clean_left w (b : bool) :
  clean_w w →
  let c := if b then mkWorkload (fopp (active_kv_cache w)) f0 else mkWorkload f0 (fopp (active_tokens w)) in
  let w' := if b then mkWorkload f0 (active_tokens w) else mkWorkload (active_kv_cache w) f0 in
  workload_iadd w c = w' ∧ clean_w w' ∧
  (fle (if b then active_tokens w else active_kv_cache w) f0 = true → w' = Workload0).
Proof.
  intros [Hk Ht]. destruct b; cbv zeta; unfold workload_iadd; simpl; rewrite clean_cancel, clean_add_0_r by done;
    (split; [done|]); (split; [by split; auto with motor|]); intros Hle; unfold Workload0; f_equal; by apply clean_le_0.
Qed.

Lemma update_none s res a :
  compute_and_update (r_mgr s) (Some (mkSR (Some res.1) (Some res.2))) (req_id (r_req s)) a (req_len (r_req s)) = (None, r_mgr s) →
  update_workload env res a s = (set_mgr s (r_mgr s), Ret false).
Proof. intros H. unfold update_workload. erewrite M_bind_Ret by reflexivity. rewrite H. reflexivity. Qed.

Lemma update_some s res a w r m :
  compute_and_update (r_mgr s) (Some (mkSR (Some res.1) (Some res.2))) (req_id (r_req s)) a (req_len (r_req s)) = (Some (w, r), m) →
  ∃ b, update_workload env res a s =
    (add_charge (tick (set_mgr s m)) (mkCharge r (ins_id res.1) (ep_id res.2) w), Ret b).
Proof.
  intros H. unfold update_workload. erewrite M_bind_Ret by reflexivity. rewrite H.
  destruct (rel_update Hrel (r_tick s)) as [Ha [b Hb]]. exists b.
  erewrite M_bind_Ret by reflexivity. erewrite M_bind_Ret by reflexivity.
  cbn [fst r_tick set_mgr mmodify]. rewrite Ha.
  erewrite M_bind_Ret by reflexivity. unfold mlift. by rewrite Hb.
Qed.

Lemma compute_len m res id a n : a ≠ ALLOCATION →
  compute_and_update (Req := Req) m res id a n = compute_and_update m res id a 0.
Proof. intros Ha. unfold compute_and_update. repeat case_match; try done. Qed.

Lemma release_J a h r res :
  a ≠ ALLOCATION → normalize_role res.1 = Some r → (∀ kv tok res', h r = Held kv tok res' → res' = res) →
  triple (J h) (update_workload env res a) (λ _, J (upd h r (release a (h r)))) (λ _ _, False).
Proof.
  intros Ha Hr Hres s (Ho & Hoth & Hacc). pose proof (Hacc r) as Hr0.
  destruct res as [i e]. simpl in Hr. destruct (slot s r) as [w|] eqn:Ew.
  - destruct (release_step (r_mgr s) i e (req_id (r_req s)) r w a Hr Ew Ha) as (m' & Hc & Hm').
    rewrite <- (compute_len _ _ _ _ (req_len (r_req s)) Ha) in Hc.
    destruct (update_some s (i, e) a _ r m' Hc) as [b ->].
    assert (∀ r', r' ≠ r → ∀ x, acc s r' x →
      acc (add_charge (tick (set_mgr s m')) (mkCharge r (ins_id i) (ep_id e)
        (if bool_decide (a = RELEASE_KV) then mkWorkload (fopp (active_kv_cache w)) f0 else mkWorkload f0 (fopp (active_tokens w))))) r' x) as Hothers.
    { intros r' Hrr x Hx. unfold acc, slot in *. simpl. rewrite Hm', decide_False by congruence.
      rewrite role_ledger_snoc, decide_False by (simpl; congruence). exact Hx. }
    destruct (h r) as [|kv tok res'|] eqn:Eh; [simpl in Hr0; rewrite Ew in Hr0; by destruct Hr0| |]; cycle 1.
    { split; [done|]. split.
      - intros id r' Hn Hid Hne. simpl in Hne |- *. rewrite Hm', decide_False by congruence. apply Hoth; [|done|done].
        unfold upd in Hn. by destruct (decide (r' = r)).
      - intros r'. unfold upd. destruct (decide (r' = r)) as [|Hrr]; [done|]. by apply Hothers. }
    specialize (Hres kv tok res' eq_refl). subst res'. simpl in Hr0. rewrite Ew in Hr0.
    destruct Hr0 as (_ & Hopen & Hor & Hkv & Htok).
    set (kvb := bool_decide (a = RELEASE_KV)) in *.
    destruct (clean_left w kvb) as (Hw' & Hcw & Hz); [by destruct Hopen as (? & ? & ? & ? & ? & ? & ? & ? & ? & ?)|].
    cbv zeta in Hm'. fold kvb in Hm'.
    match goal with |- J _ ?s2 => set (s' := s2) end.
    split; [done|]. split.
    { intros id r' Hn Hid Hne. simpl in Hne |- *. rewrite Hm', decide_False by congruence. apply Hoth; [|done|done].
      eapply upd_any; [|exact Hn]. by rewrite Eh. }
    intros r'. unfold upd. case_decide as Hrr; [|by apply Hothers].
    subst r'. unfold acc, slot. simpl. rewrite Hm', decide_True by done. rewrite role_ledger_snoc, decide_True by done.
    destruct (open_refund _ (i, e) w (mkCharge r (ins_id i) (ep_id e)
        (if kvb then mkWorkload (fopp (active_kv_cache w)) f0 else mkWorkload f0 (fopp (active_tokens w)))) Hopen) as [Hs Hop]; [done|done|].
    simpl in Hs, Hop. rewrite Hw' in Hs, Hop. split; [done|].
    destruct (fle _ f0) eqn:El; [by apply Hs, Hz|]. split; [by apply Hop|].
    assert (kv && negb kvb || tok && negb (bool_decide (a = RELEASE_TOKENS)) = true) as Hor'.
    { destruct a; [done| |]; simpl in *; subst kvb; simpl in *.
      - destruct tok; [by rewrite andb_false_r|]. rewrite (Htok eq_refl) in El. done.
      - destruct kv; [done|]. rewrite (Hkv eq_refl) in El. done. }
    split; [exact Hor'|]. destruct a; [done| |]; subst kvb; simpl; (split; intros Hf; [|]); try done.
    + destruct tok; [done|auto].
    + destruct kv; [done|auto].
  - pose proof (release_absent (r_mgr s) i e (req_id (r_req s)) r a Hr Ew Ha) as Hc.
    rewrite <- (compute_len _ _ _ _ (req_len (r_req s)) Ha) in Hc. rewrite (update_none s (i, e) a Hc).
    split; [done|]. split.
    { intros id r' Hn. apply Hoth. unfold upd in Hn. destruct (decide (r' = r)) as [->|]; [|done]. by destruct (h r). }
    intros r'. unfold upd. case_decide; [subst r'|apply Hacc].
    destruct (h r) as [|kv tok res'|] eqn:Eh; [exact Hr0| |done]. specialize (Hres kv tok res' eq_refl). subst res'.
    unfold acc in *. change (slot (set_mgr s (r_mgr s)) r) with (slot s r). rewrite Ew in *. done.
Qed.

(** *** Allocation *)

Definition full (rl : PDRole) (res : Instance * Endpoint) : hold := Held (bool_decide (rl ≠ ROLE_D)) true res.

Lemma open_new l i e w r : settled l → clean_w w →
  normalize_role i = Some r → open_on (l ++ [charge_of (i, e, w)]) (i, e) w.
Proof.
  intros Hl Hw Hr. exists l, (charge_of (i, e, w)), []. split_and!; try done.
  unfold outstanding. destruct Hw as [Hk Ht]. simpl. unfold workload_iadd. destruct w as [k t]. simpl in *.
  by rewrite !clean_add_0_l.
Qed.

Lemma prepare_once_J h rl :
  h rl = Free →
  triple (J h) (prepare_once env rl)
    (λ res s, normalize_role res.1 = Some rl ∧ J (upd h rl (full rl res)) s) (λ e s, e ≠ CancelledError ∧ J h s).
Proof.
  intros Hf s (Ho & Hoth & Hacc). pose proof (Hacc rl) as Hr. rewrite Hf in Hr. destruct Hr as [Hs Hl].
  pose proof (rel_select Hrel (r_tick s) rl) as Hsel. unfold prepare_once. erewrite M_bind_Ret by reflexivity.
  destruct (e_select env (r_tick s) rl) as [[[[i e] w]|] [[x|]|ex]]; try done.
  - destruct Hsel as (-> & Hn & Hw & Hd). cbn [sel_charged sel_result].
    erewrite M_bind_Ret by reflexivity. erewrite M_bind_Ret by reflexivity. cbv beta iota.
    erewrite M_bind_Ret by reflexivity. cbn [fst mmodify]. unfold add_req_workload.
    assert (dhas (req_workload_dict (r_mgr s)) (req_id (r_req s), rl) = false) as Hh by (by apply dhas_false).
    cbn [r_mgr r_req tick add_charge]. rewrite Hh.
    erewrite M_bind_Ret by reflexivity. erewrite M_bind_Ret by reflexivity. split; [done|]. simpl.
    split; [done|]. split.
    { intros id r' Hany Hid Hne. simpl in *. rewrite dget_dset_ne by congruence. apply Hoth; [|done|done].
      eapply upd_any; [|exact Hany]. by rewrite Hf. }
    intros r'. unfold upd. destruct (decide (r' = rl)) as [Hrr|Hrr].
    2: { specialize (Hacc r'). unfold acc, slot in *. simpl. rewrite dget_dset_ne by congruence.
         rewrite role_ledger_snoc, decide_False by (simpl; rewrite Hn; congruence). done. }
    subst r'. unfold acc, slot, full. simpl. split; [done|]. rewrite dget_dset_eq.
    rewrite role_ledger_snoc, decide_True by (simpl; by rewrite Hn).
    split; [by eapply open_new|]. split; [by rewrite orb_true_r|]. split; [|done].
    intros Hb%bool_decide_eq_false. apply Hd. destruct rl; [..|]; try done; exfalso; by apply Hb.
Qed.

Lemma prepare_J h rl :
  h rl = Free →
  triple (J h) (prepare_resource env cfg rl)
    (λ res s, normalize_role res.1 = Some rl ∧ J (upd h rl (full rl res)) s) (λ e s, e ≠ CancelledError ∧ J h s).
Proof.
  intros Hf. unfold prepare_resource. eapply triple_seq; [apply triple_state_J|].
  induction (Z.to_nat (max_retry cfg)) as [|n IH]; simpl.
  - eapply triple_seq; [apply triple_state_J|].
    apply triple_raise. by intros s Hs.
  - eapply triple_except; [by apply prepare_once_J|by intros s [? _]|]. intros e He.
    eapply triple_conseq; [exact IH|by intros s [_ ?]|done|done].
Qed.

(** An allocation of a role of which nothing is claimed. *)
Lemma prepare_any_J h rl :
  h rl = Any → triple (J h) (prepare_resource env cfg rl) (λ res s, normalize_role res.1 = Some rl ∧ J h s) (λ e s, e ≠ CancelledError ∧ J h s).
Proof.
  intros Hany. unfold prepare_resource. eapply triple_seq; [apply triple_state_J|].
  induction (Z.to_nat (max_retry cfg)) as [|n IH]; cbn [prepare_loop].
  { eapply triple_seq; [apply triple_state_J|]. apply triple_raise. by intros s Hs. }
  eapply (triple_except _ _ _ _ _ (λ e s, e ≠ CancelledError ∧ J h s)); [|by intros s [? _]|].
  2: { intros e He. eapply triple_conseq; [exact IH|by intros s [_ ?]|done|done]. }
  intros s Hs. pose proof (rel_select Hrel (r_tick s) rl) as Hsel. unfold prepare_once. erewrite M_bind_Ret by reflexivity.
  destruct (e_select env (r_tick s) rl) as [[[[i e] w]|] [[x|]|ex]]; try done.
  destruct Hsel as (-> & Hn & _). cbn [sel_charged sel_result]. do 2 (erewrite M_bind_Ret by reflexivity). cbv beta iota. erewrite M_bind_Ret by reflexivity.
  assert (∀ s', req_id (r_req s') = req_id (r_req s) →
    (∀ k, k.2 ≠ rl → dget (req_workload_dict (r_mgr s')) k = dget (req_workload_dict (r_mgr s)) k) →
    r_ledger s' = r_ledger s ++ [charge_of (i, e, w)] → J h s') as HJ.
  { intros s' E1 E2 E3. destruct Hs as (Ho & Hoth & Hacc). unfold J. rewrite E1. split; [done|]. split.
    - intros id r Hr Hid Hne. rewrite E2 by (simpl; congruence). by apply Hoth.
    - intros r. destruct (decide (r = rl)) as [->|Hne]; [by rewrite Hany|]. specialize (Hacc r).
      unfold acc, slot in *. rewrite E1, E2, E3, role_ledger_snoc, decide_False by (simpl; rewrite ?Hn; congruence). exact Hacc. }
  unfold add_req_workload. cbn [fst mmodify r_mgr r_req tick add_charge].
  destruct (dhas _ _); (erewrite M_bind_Ret by reflexivity); [split; [done|]; by apply HJ|].
  erewrite M_bind_Ret by reflexivity. split; [done|]. apply HJ; [done| |done].
  intros [id r] Hr. simpl in *. apply dget_dset_ne. congruence.
Qed.

(** *** The two roles *)

Definition hpd (p d : hold) (r : PDRole) : hold :=
  match r with ROLE_P => p | ROLE_D => d | ROLE_U => Free end.
Abbreviation JJ p d := (J (hpd p d)).
Definition of_res (p : hold) (res : Instance * Endpoint) : Prop := ∀ kv tok res', p = Held kv tok res' → res' = res.

Lemma J_ext h h' s : (∀ r, h' r = h r) → J h s → J h' s.
Proof. intros H. apply J_weaken. intros r. left. apply H. Qed.

Lemma upd_p p d x r : upd (hpd p d) ROLE_P x r = hpd x d r.
Proof. by destruct r. Qed.
Lemma upd_d p d x r : upd (hpd p d) ROLE_D x r = hpd p x r.
Proof. by destruct r. Qed.

Lemma release_p a p d res :
  a ≠ ALLOCATION → normalize_role res.1 = Some ROLE_P → of_res p res →
  triple (JJ p d) (ignore (update_workload env res a)) (λ _, JJ (release a p) d) (λ _ _, False).
Proof.
  intros Ha Hr Ho. unfold ignore. eapply triple_bind; [by apply (release_J a (hpd p d) ROLE_P res)|].
  intros b. apply triple_ret. intros s Hs. eapply J_ext; [|exact Hs]. intros r. symmetry. apply upd_p.
Qed.

Lemma release_d a p d res :
  a ≠ ALLOCATION → normalize_role res.1 = Some ROLE_D → of_res d res →
  triple (JJ p d) (ignore (update_workload env res a)) (λ _, JJ p (release a d)) (λ _ _, False).
Proof.
  intros Ha Hr Ho. unfold ignore. eapply triple_bind; [by apply (release_J a (hpd p d) ROLE_D res)|].
  intros b. apply triple_ret. intros s Hs. eapply J_ext; [|exact Hs]. intros r. symmetry. apply upd_d.
Qed.

Lemma J_free_p res d s : JJ (Held false false res) d s → JJ Free d s.
Proof. apply J_weaken. intros [| |]; simpl; [right; right; eauto|by left|by left]. Qed.
Lemma J_free_d res p s : JJ p (Held false false res) s → JJ p Free s.
Proof. apply J_weaken. intros [| |]; simpl; [by left|right; right; eauto|by left]. Qed.
Lemma J_hold_p kv tok res d s : normalize_role res.1 = Some ROLE_P → JJ Free d s → JJ (Held kv tok res) d s.
Proof. intros Hr. apply J_weaken. intros [| |]; simpl; [right; left; eauto 10|by left|by left]. Qed.

Lemma release_d_all p res :
  normalize_role res.1 = Some ROLE_D →
  triple (JJ p (full ROLE_D res)) (ignore (release_tokens env res)) (λ _, JJ p Free) (λ _ _, False).
Proof.
  intros Hr. eapply triple_conseq; [apply (release_d RELEASE_TOKENS p (full ROLE_D res)); [done|done|by intros ? ? ? [= <- <- <-]]|done| |done].
  intros u s Hs. by apply (J_free_d res).
Qed.

(** A failure before the first chunk leaves the prefill KV cache held, otherwise
    nothing of prefill. *)
Definition JE (pres : Instance * Endpoint) (d : hold) (s : RS) : Prop :=
  (first_chunk_sent s = false ∧ JJ (Held true false pres) d s) ∨ JJ Free d s.

Lemma stream_error_J pres d :
  normalize_role pres.1 = Some ROLE_P →
  triple (JE pres d) (handle_stream_error env pres) (λ _, JJ Free d) (λ _ _, False).
Proof.
  intros Hr. unfold handle_stream_error. apply triple_get. intros s Hs.
  destruct (first_chunk_sent s) eqn:Ef; simpl.
  - apply triple_ret. intros s' Es. subst s'. destruct Hs as [[Hf _]|Hs]; [by rewrite Ef in Hf|done].
  - eapply triple_conseq; [apply (release_p RELEASE_KV (Held true false pres) d pres); [done|done|by intros ? ? ? [= <- <- <-]]| | |done].
    + intros s' Es. subst s'. destruct Hs as [[_ Hs]|Hs]; [done|by apply J_hold_p].
    + intros u s' H. by apply (J_free_p pres).
Qed.

(** *** Preparing a retry *)

Lemma prepare_retry_id (i : RecInfo) id :
  triple (λ t : Retry (Scope := Router.Scope), req_id (rt_req t) = id) (prepare_retry_request json_dumps_len i)
    (λ _ t, req_id (rt_req t) = id) (λ e t, e ≠ CancelledError ∧ req_id (rt_req t) = id).
Proof.
  set (P := λ t : Retry (Scope := Router.Scope), req_id (rt_req t) = id).
  assert (∀ d, triple P (set_data d) (λ _, P) (λ _ _, False)) as Hset by (intros d; by apply triple_modify).
  assert (∀ A (m : py A), sane m → triple P (mlift m) (λ _, P) (λ e t, e ≠ CancelledError ∧ P t)) as Hlift.
  { intros A m Hm. apply triple_lift; [done|]. intros t e Ht ->. split; [intros ->; by apply Hm|done]. }
  unfold prepare_retry_request. destruct (recompute_kv_transfer i) as [[all_ids prompt_ids]|]; [|by apply triple_raise].
  apply triple_get. intros t Ht. apply (triple_conseq _ _ P _ (λ _, P) _ (λ e t, e ≠ CancelledError ∧ P t)); [|by intros ? ->|done|done].
  eapply triple_bind; [apply Hlift, sane_jint_or; done|]. intros n. destruct (negb _); [by apply triple_raise|].
  eapply triple_seq; [apply Hset|]. eapply triple_bind; [apply Hlift, sane_jint_or; done|]. intros prev.
  eapply triple_seq; [apply Hset|]. eapply triple_bind; [apply Hlift; auto with sane|]. intros raw.
  eapply triple_seq; [apply Hset|]. apply (triple_bind _ _ _ (λ _, P)); [|intros _; by apply triple_modify].
  destruct (chat_flag i).
  - eapply triple_bind; [apply Hlift; auto with sane|]. intros ok. destruct (negb ok); [by apply triple_raise|].
    eapply triple_seq; [apply Hset|]. by apply triple_modify.
  - eapply triple_seq; [apply Hset|]. by apply triple_modify.
Qed.

Lemma prepare_retry_J d i h :
  triple (J h) (prepare_recompute_retry json_dumps_len cfg d i) (λ _, J h) (λ e s, e ≠ CancelledError ∧ J h s).
Proof.
  unfold prepare_recompute_retry. destruct (negb _); [by apply triple_raise|]. intros s Hs.
  pose proof (prepare_retry_id i (req_id (r_req s)) (mkRetry d (r_req s)) eq_refl) as H.
  destruct (prepare_retry_request _ _ _) as [t [u|e]]; [|split; [apply H|]]; apply (J_frame h s); by try apply H.
Qed.

(** *** Chunks of a stream *)

Lemma yield_J x h : triple (J h) (yield env x) (λ _, J h) (λ _ _, False).
Proof.
  intros s Hs. unfold yield. erewrite M_bind_Ret by reflexivity. erewrite M_bind_Ret by reflexivity.
  rewrite (rel_gone Hcalm). simpl. by apply (J_frame h s).
Qed.

Definition sane_J (h : PDRole → hold) (e : pyexn) (s : RS) : Prop := e ≠ CancelledError ∧ J h s.

Lemma lift_J {A} (m : py A) h : sane m → triple (J h) (mlift m) (λ _, J h) (sane_J h).
Proof. intros Hm. apply triple_lift; [done|]. intros s e Hs ->. split; [intros ->; by apply Hm|done]. Qed.

Lemma recompute_J d i pres hd :
  triple (JJ Free hd) (handle_recomputation json_dumps_len env cfg d i pres true) (λ _, JJ Free hd) (sane_J (hpd Free hd)).
Proof.
  unfold handle_recomputation. apply triple_get. intros s Hs.
  apply (triple_conseq _ _ (JJ Free hd) _ (λ _, JJ Free hd) _ (sane_J (hpd Free hd))); [|by intros s' ->|done|done].
  apply (triple_bind _ _ _ (λ _, JJ Free hd)).
  { unfold check_recompute_limit. destruct (recompute_limit_reached _ _); [by apply triple_raise|by apply triple_ret]. }
  intros u. eapply triple_seq; [by apply triple_quiet|]. eapply triple_seq; [apply triple_state_J|].
  eapply triple_seq; [by apply triple_ret|]. apply (triple_bind _ _ _ (λ _, JJ Free hd)); [apply prepare_retry_J|].
  intros u'. eapply triple_conseq; [by apply (triple_quiet _ (hpd Free hd))|done|done|done].
Qed.

Definition kv_left (pres : Instance * Endpoint) (released : bool) : hold := if released then Free else Held true false pres.

Lemma decode_chunk_J d pres hd chunk l :
  normalize_role pres.1 = Some ROLE_P → chunk ≠ ""%string →
  triple (JJ (kv_left pres (dl_released l)) hd)
    (on_decode_chunk json_loads json_encode json_dumps_len env cfg d pres chunk l)
    (λ o s, JJ Free hd s ∧ match o with Some l' => dl_released l' = true | None => True end) (sane_J (hpd Free hd)).
Proof.
  intros Hr Hc. unfold on_decode_chunk. rewrite (bool_decide_eq_false_2 _ Hc), andb_true_r, orb_negb_r.
  eapply (triple_seq _ _ (JJ Free hd)).
  { destruct (dl_released l); [by apply triple_ret|].
    eapply triple_conseq; [apply (release_p RELEASE_KV (Held true false pres) hd pres); [done|done|by intros ? ? ? [= <- <- <-]]|done| |done].
    intros u s Hs. by apply (J_free_p pres). }
  apply triple_get. intros s Hs.
  apply (triple_conseq _ _ (JJ Free hd) _ (λ o s, JJ Free hd s ∧ match o with Some l' => dl_released l' = true | None => True end)
    _ (sane_J (hpd Free hd))); [|by intros s' ->|done|done].
  apply (triple_bind _ _ _ (λ _, JJ Free hd)); [apply lift_J; auto with sane|]. intros [[i rs] [out|]].
  - apply (triple_bind _ _ _ (λ _, JJ Free hd)).
    { destruct (bool_decide _); [by apply triple_ret|]. eapply triple_seq; [by apply triple_quiet|].
      eapply triple_conseq; [apply yield_J|done|done|done]. }
    intros u. by apply triple_ret.
  - destruct (recompute_blocked i); [by apply triple_raise|].
    apply (triple_bind _ _ _ (λ _, JJ Free hd)); [apply recompute_J|]. intros u. by apply triple_ret.
Qed.

(** *** Frames *)

Lemma frame_end_nonempty p n : frame_end p = Some n → take n p ≠ [].
Proof.
  destruct p as [|c p]; [done|]. intros H Ht. assert (n = 0%nat) as ->.
  { destruct n; [done|]. by simpl in Ht. }
  unfold frame_end in H. repeat case_match; simplify_eq; lia.
Qed.

Lemma cut_frames p : Forall (λ f, f ≠ []) (cut p).1.
Proof.
  unfold cut. generalize (S (length p)) as fuel. intros fuel. revert p. induction fuel as [|fuel IH]; intros p; simpl; [by apply Forall_nil|].
  destruct (frame_end p) as [n|] eqn:E; [|by apply Forall_nil]. specialize (IH (drop n p)).
  destruct (split_frames fuel (drop n p)) as [frames rest]. simpl in *. apply Forall_cons. split; [by apply frame_end_nonempty|done].
Qed.

Lemma cut_none p : frame_end p = None → cut p = ([], p).
Proof. intros H. unfold cut. simpl. by rewrite H. Qed.
Lemma cut_some p : frame_end p ≠ None → (cut p).1 ≠ [].
Proof.
  intros H. unfold cut. simpl. destruct (frame_end p) as [n|]; [|done]. by destruct (split_frames _ _) as [frames rest].
Qed.

Lemma of_chars_nonempty l : l ≠ [] → of_chars l ≠ ""%string.
Proof. by destruct l. Qed.

Lemma frames_J d pres hd frames l :
  normalize_role pres.1 = Some ROLE_P → Forall (λ f, f ≠ []) frames → dl_released l = true ∨ frames ≠ [] →
  triple (JJ (kv_left pres (dl_released l)) hd)
    (each_frame (on_decode_chunk json_loads json_encode json_dumps_len env cfg d pres) frames l)
    (λ o s, JJ Free hd s ∧ match o with Some l' => dl_released l' = true | None => True end) (sane_J (hpd Free hd)).
Proof.
  intros Hr. revert l. induction frames as [|f frames IH]; intros l Hf Hor; simpl.
  { destruct Hor as [Hl|]; [|done]. rewrite Hl. by apply triple_ret. }
  apply Forall_cons in Hf as [Hf Hfs]. eapply triple_bind; [apply decode_chunk_J; [done|by apply of_chars_nonempty]|].
  intros [l'|]; [|by apply triple_ret]. intros s [Hs Hl']. apply (IH l' Hfs); [by left|by rewrite Hl'].
Qed.

Definition chunks_end (pending : list ascii) (chunks : list string) : list ascii := pending ++ concat (map chars chunks).

(** Every stream brings a complete frame, or some bytes and a regular end, or it fails
    before any byte. *)
Definition complete_from (pending : list ascii) (chunks : list string) (ending : option pyexn) : Prop :=
  match ending with
  | None => chunks_end pending chunks ≠ []
  | Some e => e ≠ CancelledError ∧
      (chunks_end pending chunks = [] ∨ ∃ k, frame_end (chunks_end pending (take k chunks)) ≠ None)
  end.
Definition complete_stream (r : StreamReply) : Prop := complete_from [] (st_chunks r) (st_end r).

(** What holds between the chunks. *)
Definition between (pres : Instance * Endpoint) (hd : hold) (l : DLocal) (pending : list ascii) (s : RS) : Prop :=
  if dl_released l then JJ Free hd s
  else JJ (Held true false pres) hd s ∧ frame_end pending = None ∧ first_chunk_sent s = negb (bool_decide (pending = [])).

Lemma complete_step pending c chunks ending :
  frame_end (pending ++ chars c) = None → frame_end pending = None →
  complete_from pending (c :: chunks) ending → complete_from (pending ++ chars c) chunks ending.
Proof.
  intros Hc Hp. unfold complete_from, chunks_end. simpl. rewrite !app_assoc. destruct ending as [e|]; [|done].
  intros [He Hor]. split; [done|]. destruct Hor as [H|[k Hk]]; [by left|]. destruct k as [|k]; simpl in Hk.
  - by rewrite app_nil_r in Hk.
  - right. exists k. by rewrite <- app_assoc.
Qed.

Lemma chunks_J d pres hd chunks ending : normalize_role pres.1 = Some ROLE_P → ∀ pending l,
  ending ≠ Some CancelledError → dl_released l = true ∨ complete_from pending chunks ending →
  triple (between pres hd l pending)
    (each_chunk env (on_decode_chunk json_loads json_encode json_dumps_len env cfg d pres) chunks ending pending l)
    (λ _, JJ Free hd) (λ e s, e ≠ CancelledError ∧ JE pres hd s).
Proof.
  intros Hr. induction chunks as [|c chunks IH]; intros pending l He Hor; simpl.
  - destruct ending as [e|].
    { intros s Hs. unfold mraise. split; [congruence|]. unfold between in Hs. destruct (dl_released l) eqn:El; [by right|].
      destruct Hor as [|[_ Hor]]; [done|]. destruct Hs as (Hs & Hp & Hf). left.
      unfold chunks_end in Hor. simpl in Hor. rewrite app_nil_r in Hor. destruct Hor as [->|[k Hk]]; [done|].
      by rewrite take_nil, app_nil_r in Hk. }
    case_decide as Hp.
    { intros s Hs. unfold between in Hs. destruct (dl_released l) eqn:El; [done|].
      destruct Hor as [|Hor]; [done|]. unfold complete_from, chunks_end in Hor. simpl in Hor. by rewrite app_nil_r in Hor. }
    eapply triple_conseq; [apply decode_chunk_J; [done|by apply of_chars_nonempty]| | |].
    + intros s Hs. unfold between in Hs. destruct (dl_released l); [done|apply Hs].
    + by intros o s [? _].
    + intros e s [? ?]. split; [done|by right].
  - apply triple_get. intros s Hs.
    set (B s' := if dl_released l then JJ Free hd s' else JJ (Held true false pres) hd s' ∧
      first_chunk_sent s' = negb (bool_decide (pending ++ chars c = []))).
    apply (triple_seq _ _ B).
    { intros s' ->. destruct (negb (first_chunk_sent s) && negb (bool_decide (c = ""%string))) eqn:Eb; simpl;
        unfold B, between in *; destruct (dl_released l); try (by apply (J_frame _ s)); destruct Hs as (Hs & Hp & Hf);
        (split; [by apply (J_frame _ s)|]); simpl.
      - apply andb_prop in Eb as [_ Eb]. destruct c as [|c0 c]; [done|]. symmetry. apply negb_true_iff, bool_decide_eq_false.
        by destruct pending.
      - rewrite Hf in *. destruct pending as [|p0 pending]; [|done]. simpl in *. by destruct c. }
    destruct (decide (frame_end (pending ++ chars c) = None)) as [Hn|Hn].
    + rewrite (cut_none _ Hn). simpl. eapply (triple_bind _ _ _ (λ o s, o = Some l ∧ B s)); [by apply triple_ret|].
      intros o s' [-> Hb]. unfold between in Hs.
      refine (IH (pending ++ chars c) l He _ s' _).
      * destruct Hor as [|Hor]; [by left|]. destruct (dl_released l) eqn:El; [by left|right].
        apply complete_step; [done|by apply Hs|done].
      * unfold between, B in *. destruct (dl_released l); [done|]. by destruct Hb.
    + pose proof (cut_frames (pending ++ chars c)) as Hf. pose proof (cut_some _ Hn) as Hne.
      destruct (cut (pending ++ chars c)) as [frames rest]. simpl in Hf, Hne.
      eapply triple_bind.
      * eapply triple_conseq; [by apply (frames_J d pres hd frames l Hr Hf); right| |intros o s' H; exact H|].
        -- intros s' Hb. unfold B in Hb. destruct (dl_released l); [done|]. by destruct Hb.
        -- intros e s' [? ?]. split; [done|by right].
      * intros [l'|]; [|apply triple_ret; by intros s' [? _]]. intros s' [Hb Hl'].
        refine (IH rest l' He (or_introl Hl') s' _). unfold between. by rewrite Hl'.
Qed.

(** *** Steps that leave the flag of the first chunk and the state of the request *)

Definition first_is (b : bool) (s : RS) : Prop := first_chunk_sent s = b.
Definition state_is (st : ReqState) (s : RS) : Prop := state (r_req s) = st.

Ltac keeps_step :=
  repeat first
    [ apply preserves_ret | apply preserves_raise | apply preserves_lift | apply preserves_get
    | (apply preserves_bind; [|intros ?]) | (apply preserves_except; [|intros ?])
    | (apply preserves_modify; by intros ? ?)
    | match goal with
      | |- preserves _ (if ?b then _ else _) => destruct b
      | |- preserves _ (match ?x with _ => _ end) => destruct x
      | |- preserves _ (ask _) => by intros ? ?
      | |- preserves _ (set_state _ _) => by intros ? ?
      end ].

Lemma update_first b res a : preserves (first_is b) (update_workload env res a).
Proof. unfold update_workload. keeps_step. Qed.
Lemma prepare_first b rl : preserves (first_is b) (prepare_resource env cfg rl).
Proof.
  unfold prepare_resource. keeps_step. induction (Z.to_nat (max_retry cfg)) as [|n IH]; simpl; [keeps_step|].
  apply preserves_except; [unfold prepare_once; keeps_step|intros _; exact IH].
Qed.
Lemma update_state_is st res a : preserves (state_is st) (update_workload env res a).
Proof. unfold update_workload. keeps_step. Qed.
Lemma post_state_is st d : preserves (state_is st) (forward_request env d).
Proof. unfold forward_request, forward_request_at. keeps_step. Qed.

Lemma prepare_state_is :
  triple (λ _, True) (prepare_resource env cfg ROLE_P) (λ _, state_is P_ALLOCATED) (λ _ _, True).
Proof.
  unfold prepare_resource. eapply (triple_seq _ _ (λ _, True)); [by intros s _|].
  induction (Z.to_nat (max_retry cfg)) as [|n IH]; simpl.
  { eapply (triple_seq _ _ (λ _, True)); [by intros s _|]. by apply triple_raise. }
  eapply (triple_except _ _ _ _ _ (λ _ _, True)); [|done|done].
  assert (∀ m : M RS (Instance * Endpoint), (∀ s, match m s with (s', Ret _) => state_is P_ALLOCATED s' | _ => True end) →
    triple (λ _, True) m (λ _, state_is P_ALLOCATED) (λ _ _, True)) as Hm.
  { intros m H s _. specialize (H s). by destruct (m s) as [s' [a|e]]. }
  apply Hm. intros s. unfold prepare_once. erewrite M_bind_Ret by reflexivity. destruct (e_select _ _ _) as [ch rs]. cbn [sel_charged sel_result].
  destruct ch as [p|]; (erewrite M_bind_Ret by reflexivity); (destruct rs as [[[[i e] w]|]|e]; [|done|done]);
    (erewrite M_bind_Ret by reflexivity); cbv beta iota; (erewrite M_bind_Ret by reflexivity);
    by destruct (add_req_workload _ _ _) as [[|] m].
Qed.

(** *** The prefill half *)

Lemma release_all_J pres d :
  normalize_role pres.1 = Some ROLE_P →
  triple (JJ (full ROLE_P pres) d) (ignore (release_all env pres)) (λ _, JJ Free d) (λ _ _, False).
Proof.
  intros Hr. unfold ignore, release_all.
  assert (∀ a (p : hold), of_res p pres → a ≠ ALLOCATION →
    triple (JJ p d) (update_workload env pres a) (λ _, JJ (release a p) d) (λ _ _, False)) as Hrel1.
  { intros a p Ho Ha. eapply triple_conseq; [by apply (release_J a (hpd p d) ROLE_P pres)|done| |done].
    intros b s Hs. eapply J_ext; [|exact Hs]. intros r. symmetry. apply upd_p. }
  eapply (triple_bind _ _ _ (λ _, JJ Free d)); [|intros b; by apply triple_ret].
  eapply triple_bind; [apply (Hrel1 RELEASE_TOKENS (full ROLE_P pres)); [by intros ? ? ? [= <- <- <-]|done]|]. intros a.
  eapply triple_bind; [apply (Hrel1 RELEASE_KV (Held true false pres)); [by intros ? ? ? [= <- <- <-]|done]|]. intros b.
  apply triple_ret. intros s Hs. by apply (J_free_p pres).
Qed.

(** What ends an attempt may write to the client, and changes nothing of what is held. *)
Definition neutral {A} (m : M RS A) : Prop :=
  (∀ h, triple (J h) m (λ _, J h) (λ _ _, False)) ∧ ∀ st, preserves (state_is st) m.

Lemma forward_p_J pres :
  normalize_role pres.1 = Some ROLE_P →
  triple (λ s, (JJ (full ROLE_P pres) Free s ∧ first_is false s) ∧ state_is P_ALLOCATED s) (forward_p_request env pres)
    (λ _ s, (JJ (Held true false pres) Free s ∧ first_is false s) ∧ state_is PREFILL_END s)
    (λ e s, e ≠ CancelledError ∧ JJ (full ROLE_P pres) Free s ∧ state_is P_ALLOCATED s).
Proof.
  intros Hr. unfold forward_p_request. apply triple_get. intros s [[Hs Hf] Hst].
  set (d := gen_p_request _).
  eapply (triple_bind _ _ _ (λ _ s, JJ (full ROLE_P pres) Free s ∧ first_is false s)).
  { intros s' ->. unfold forward_request, forward_request_at. do 3 (erewrite M_bind_Ret by reflexivity). unfold mlift.
    pose proof (rel_post Hcalm (r_tick s)) as Hp. cbn [fst mmodify r_tick add_post].
    destruct (e_post env (r_tick s)) as [j|e].
    - split; [by apply (J_frame _ s)|done].
    - split; [congruence|]. split; [by apply (J_frame _ s)|done]. }
  intros resp.
  eapply (triple_seq _ _ (λ s, (JJ (full ROLE_P pres) Free s ∧ first_is false s) ∧ state_is PREFILL_END s)).
  { intros s' [H1 H2]. simpl. split; [|done]. split; [by apply (J_frame _ s')|done]. }
  eapply (triple_bind _ _ _ (λ _ s, (JJ (Held true false pres) Free s ∧ first_is false s) ∧ state_is PREFILL_END s)).
  2: { intros u. by apply triple_ret. }
  assert (∀ b st, preserves (λ s, first_is b s ∧ state_is st s) (ignore (release_tokens env pres))) as Hk.
  { intros b st s' [H1 H2]. unfold ignore, release_tokens. unfold mbind, M_bind.
    pose proof (update_first b pres RELEASE_TOKENS s' H1). pose proof (update_state_is st pres RELEASE_TOKENS s' H2).
    by destruct (update_workload env pres RELEASE_TOKENS s') as [s2 [a|e]]. }
  eapply triple_conseq; [apply (triple_and _ _ _ _ _ _ _
      (release_p RELEASE_TOKENS (full ROLE_P pres) Free pres ltac:(done) Hr ltac:(by intros ? ? ? [= <- <- <-]))
      (triple_preserves _ _ (Hk false PREFILL_END)))| | |].
  - intros s' [[H1 H2] H3]. done.
  - intros u s' (H1 & H2 & H3). done.
  - by intros e s' [[] _].
Qed.

Lemma prefill_J {A} attempt (retry : A) on_error :
  (∀ e, neutral (on_error e)) →
  triple (λ s, JJ Free Free s ∧ first_is false s) (prefill_half env cfg attempt retry on_error)
    (λ r s, match r with
            | inl (pres, p) => normalize_role pres.1 = Some ROLE_P ∧ JJ (Held true false pres) Free s ∧ first_is false s
            | inr _ => JJ Free Free s
            end) (λ _ _, False).
Proof.
  intros Herr. unfold prefill_half.
  assert (∀ h st e, triple (λ s, J h s ∧ (st = true → state_is P_ALLOCATED s))
    (if negb (last_attempt cfg attempt) then mmodify (λ s, set_finished s false) ;; mret (inr retry)
     else a ← on_error e; mret (inr a) : M RS ((Instance * Endpoint) * json + A))
    (λ r s, (∃ a, r = inr a) ∧ J h s ∧ (st = true → state_is P_ALLOCATED s)) (λ _ _, False)) as Hfailed.
  { intros h st e. destruct (negb _).
    - intros s [Hs Hst]. simpl. split; [eauto|]. split; [by apply (J_frame h s)|done].
    - destruct (Herr e) as [H1 H2]. eapply (triple_bind _ _ _ (λ _ s, J h s ∧ (st = true → state_is P_ALLOCATED s))).
      + intros s [Hs Hst]. specialize (H1 h s Hs). specialize (H2 P_ALLOCATED s).
        destruct (on_error e s) as [s' [a|e']]; [|done]. auto.
      + intros a. apply triple_ret. eauto. }
  apply (triple_bind _ _ _ (λ r s,
    match r with
    | inr a => JJ Free Free s ∧ ∃ x, a = inr x
    | inl pres => normalize_role pres.1 = Some ROLE_P ∧ (JJ (full ROLE_P pres) Free s ∧ first_is false s) ∧ state_is P_ALLOCATED s
    end)).
  { eapply triple_except with (E' := λ e s, e ≠ CancelledError ∧ JJ Free Free s); [|by intros s [? _]|].
    - eapply triple_bind.
      + eapply triple_conseq; [apply (triple_and _ _ _ _ _ _ _ (triple_and _ _ _ _ _ _ _ (prepare_J (hpd Free Free) ROLE_P eq_refl)
          (triple_preserves _ _ (prepare_first false ROLE_P))) prepare_state_is)| | |].
        * intros s [H1 H2]. done.
        * intros pres s H. exact H.
        * intros e s [[H _] _]. exact H.
      + intros pres. apply triple_ret. intros s [[[Hr Hs] Hf] Hst]. split; [done|]. split; [|done]. split; [|done].
        eapply J_ext; [|exact Hs]. intros r. symmetry. apply upd_p.
    - intros e He. eapply triple_bind; [eapply triple_conseq; [apply (Hfailed (hpd Free Free) false e)|by intros s [_ ?]|intros r s H; exact H|done]|].
      intros r. apply triple_ret. intros s ([a ->] & Hs & _). eauto. }
  intros [pres|a].
  2: { apply triple_ret. by intros s [Hs [x ->]]. }
  apply triple_pre. intros Hr.
  eapply triple_finally with
    (Q' := λ r s, match r with
             | inl (pres', p) => pres' = pres ∧ JJ (Held true false pres) Free s ∧ first_is false s ∧ state_is PREFILL_END s
             | inr _ => JJ (full ROLE_P pres) Free s ∧ state_is P_ALLOCATED s end)
    (E' := λ _ _, False); [| |by intros e s []].
  - eapply triple_except with (E' := λ e s, e ≠ CancelledError ∧ JJ (full ROLE_P pres) Free s ∧ state_is P_ALLOCATED s);
      [|by intros s [? _]|].
    + eapply triple_bind; [by apply forward_p_J|]. intros p. apply triple_ret. intros s [[H1 H2] H3]. done.
    + intros e He. eapply triple_conseq; [apply (Hfailed (hpd (full ROLE_P pres) Free) true e)| | |done].
      * intros s (_ & ? & ?). auto.
      * intros r s ([a ->] & Hs & Hst). auto.
  - intros [[pres' p]|a]; apply triple_get; intros s Hs.
    + destruct Hs as (-> & Hs & Hf & Hst). rewrite decide_True by done. apply triple_ret. by intros s' ->.
    + destruct Hs as [Hs Hst]. rewrite decide_False by (by rewrite Hst).
      eapply triple_conseq; [by apply (release_all_J pres Free)|by intros s' ->|done|done].
Qed.

(** *** The decode half *)

Lemma stream_J d i pres hd :
  normalize_role pres.1 = Some ROLE_P → (∀ t, complete_stream (e_stream env t)) →
  triple (λ s, JJ (Held true false pres) hd s ∧ first_is false s)
    (process_stream_chunks json_loads json_encode json_dumps_len env cfg d i pres)
    (λ _, JJ Free hd) (λ e s, e ≠ CancelledError ∧ JE pres hd s).
Proof.
  intros Hr Hst. unfold process_stream_chunks, ignore, forward_stream_request, forward_stream_at.
  eapply (triple_bind _ _ _ (λ _, JJ Free hd)); [|intros o; by apply triple_ret].
  eapply (triple_seq _ _ (between pres hd (mkDL false i false) [])).
  { intros s [Hs Hf]. simpl. split; [by apply (J_frame _ s)|done]. }
  intros s Hs. erewrite M_bind_Ret by reflexivity. pose proof (Hst (r_tick s)) as Hc.
  refine (chunks_J d pres hd _ _ Hr [] (mkDL false i false) _ (or_intror Hc) (tick s) _).
  - intros He. unfold complete_stream, complete_from in Hc. rewrite He in Hc. by destruct Hc.
  - destruct Hs as (Hs & Hp & Hf). split; [by apply (J_frame _ s)|done].
Qed.

Lemma forward_d_J p pres hd :
  normalize_role pres.1 = Some ROLE_P → (∀ t, complete_stream (e_stream env t)) →
  triple (λ s, JJ (Held true false pres) hd s ∧ first_is false s)
    (forward_d_request json_loads json_encode json_dumps_len env cfg p pres)
    (λ _, JJ Free hd) (λ e s, e ≠ CancelledError ∧ JJ Free hd s).
Proof.
  intros Hr Hst. unfold forward_d_request. set (P s := JJ (Held true false pres) hd s ∧ first_is false s).
  assert (∀ A (m : py A), sane m → triple P (mlift m) (λ _, P) (λ e s, e ≠ CancelledError ∧ JE pres hd s)) as Hlift.
  { intros A m Hm. apply triple_lift; [done|]. intros s e [Hs Hf] ->. split; [intros ->; by apply Hm|]. left. done. }
  eapply triple_except with (E' := λ e s, e ≠ CancelledError ∧ JE pres hd s); [|by intros s [? _]|].
  - eapply (triple_bind _ _ _ (λ _, P)).
    { unfold gen_d_request. apply triple_get. intros s Hs.
      apply (triple_conseq _ _ P _ (λ _, P) _ (λ e s, e ≠ CancelledError ∧ JE pres hd s)); [|by intros s' ->|done|done].
      eapply triple_bind; [apply Hlift; auto with sane|]. intros kv. by apply triple_ret. }
    intros d. eapply triple_bind; [apply Hlift; auto with sane|]. intros i.
    eapply triple_bind; [by apply stream_J|]. intros u. apply triple_get. intros s Hs.
    destruct (negb (wants_retry s)).
    + eapply triple_conseq; [apply (triple_state_J DECODE_END)|by intros s' ->|done|done].
    + apply triple_ret. by intros s' ->.
  - intros e He. eapply (triple_seq _ _ (JJ Free hd)); [|by apply triple_raise].
    eapply triple_conseq; [by apply (stream_error_J pres hd)|by intros s [_ ?]|done|done].
Qed.

Lemma neutral_stream_failed e : neutral (stream_failed env e).
Proof.
  split; [intros h|intros st].
  - unfold stream_failed. eapply triple_seq; [apply yield_J|]. by apply triple_quiet.
  - unfold stream_failed, yield. keeps_step.
Qed.

Lemma neutral_nonstream_failed e : neutral (nonstream_failed e).
Proof.
  split; [intros h|intros st].
  - unfold nonstream_failed. eapply triple_seq; [by apply triple_quiet|]. by apply triple_ret.
  - unfold nonstream_failed. keeps_step.
Qed.

Lemma prepare_d_J pres :
  triple (λ s, JJ (Held true false pres) Free s ∧ first_is false s) (prepare_resource env cfg ROLE_D)
    (λ dres s, normalize_role dres.1 = Some ROLE_D ∧ JJ (Held true false pres) (full ROLE_D dres) s ∧ first_is false s)
    (λ e s, e ≠ CancelledError ∧ JE pres Free s).
Proof.
  eapply triple_conseq; [apply (triple_and _ _ _ _ _ _ _ (prepare_J (hpd (Held true false pres) Free) ROLE_D eq_refl)
     (triple_preserves _ _ (prepare_first false ROLE_D)))|done| |].
  - intros dres s [[Hr Hs] Hf]. split; [done|]. split; [|done]. eapply J_ext; [|exact Hs]. intros r. symmetry. apply upd_d.
  - intros e s [[He Hs] Hf]. split; [done|]. by left.
Qed.

Lemma decode_failed_J attempt pres hd e :
  normalize_role pres.1 = Some ROLE_P →
  triple (JE pres hd) (decode_failed env cfg attempt pres e) (λ _, JJ Free hd) (λ e s, e = DecodeTransportRetry ∧ JJ Free hd s).
Proof.
  intros Hr. assert (triple (JE pres hd) (handle_stream_error env pres ;; stream_failed env e) (λ _, JJ Free hd)
    (λ e s, e = DecodeTransportRetry ∧ JJ Free hd s)) as H1.
  { eapply triple_seq; [by apply stream_error_J|]. eapply triple_conseq; [apply neutral_stream_failed|done|done|done]. }
  assert (triple (JE pres hd) (handle_stream_error env pres ;;
     s ← mget; if stream_chunk_sent s || last_attempt cfg attempt then stream_failed env e else mraise DecodeTransportRetry)
     (λ _, JJ Free hd) (λ e s, e = DecodeTransportRetry ∧ JJ Free hd s)) as H2.
  { eapply triple_seq; [by apply stream_error_J|]. apply triple_get. intros s Hs. destruct (_ || _).
    - eapply triple_conseq; [apply neutral_stream_failed|by intros s' ->|done|done].
    - apply triple_raise. by intros s' ->. }
  by destruct e.
Qed.

Lemma single_attempt_J attempt :
  (∀ t, complete_stream (e_stream env t)) →
  triple (λ s, JJ Free Free s ∧ first_is false s) (process_single_attempt json_loads json_encode json_dumps_len env cfg attempt)
    (λ _, JJ Free Free) (λ e s, e = DecodeTransportRetry ∧ JJ Free Free s).
Proof.
  intros Hst. unfold process_single_attempt.
  eapply triple_bind; [eapply triple_conseq; [apply (prefill_J attempt tt (stream_failed env)), neutral_stream_failed|done|intros r s H; exact H|done]|].
  intros [[pres p]|u]; [|by apply triple_ret]. apply triple_pre. intros Hr.
  apply (triple_bind _ _ _ (λ r s, match r with
    | None => JJ Free Free s
    | Some dres => normalize_role dres.1 = Some ROLE_D ∧ JJ (Held true false pres) (full ROLE_D dres) s ∧ first_is false s end)).
  { eapply triple_except with (E' := λ e s, e ≠ CancelledError ∧ JE pres Free s); [|by intros s [? _]|].
    - eapply triple_bind; [apply prepare_d_J|]. intros dres. by apply triple_ret.
    - intros e He. eapply (triple_bind _ _ _ (λ _, JJ Free Free)); [|intros u; by apply triple_ret].
      eapply triple_conseq; [apply (decode_failed_J attempt pres Free e Hr)|by intros s [_ ?]|done|done]. }
  intros [dres|]; [|by apply triple_ret]. apply triple_pre. intros Hd.
  eapply triple_finally with (Q' := λ _, JJ Free (full ROLE_D dres)) (E' := λ e s, e = DecodeTransportRetry ∧ JJ Free (full ROLE_D dres) s).
  - eapply triple_except with (E' := λ e s, e ≠ CancelledError ∧ JJ Free (full ROLE_D dres) s); [|by intros s [? _]|].
    + eapply triple_bind; [by apply forward_d_J|]. intros u. apply triple_get. intros s Hs. destruct (negb (wants_retry s)).
      * eapply triple_conseq; [by apply (triple_quiet _ (hpd Free (full ROLE_D dres)))|by intros s' ->|done|done].
      * apply triple_ret. by intros s' ->.
    + intros e He. eapply triple_conseq; [apply (decode_failed_J attempt pres (full ROLE_D dres) e Hr)| |done|done]. intros s [_ Hs]. by right.
  - intros u. eapply triple_conseq; [by apply (release_d_all Free dres)|done|done|done].
  - intros e. apply triple_pre. intros ->. eapply triple_conseq; [by apply (release_d_all Free dres)|done|done|done].
Qed.

(** *** The loops *)

Lemma bump_J p : p = Free ∨ p = Any → triple (JJ p Free) bump_req_id (λ _, JJ p Free) (λ _ _, False).
Proof.
  intros Hp. apply triple_modify. intros s (Ho & Hoth & Hacc).
  assert (∀ id r, hpd p Free r ≠ Any → own id → dget (req_workload_dict (r_mgr s)) (id, r) = None) as Hall.
  { intros id r Hn Hid. destruct (decide (id = req_id (r_req s))) as [->|Hne]; [|by apply Hoth].
    specialize (Hacc r). destruct r; [|by destruct Hacc|by destruct Hacc]. simpl in *. destruct Hp as [->| ->]; [by destruct Hacc|done]. }
  split; [by apply own_bump|]. split; [intros id r Hn Hid _; by apply Hall|].
  intros r. specialize (Hacc r). assert (hpd p Free r = Free ∨ hpd p Free r = Any) as E by (destruct r; simpl; auto).
  destruct E as [E|E]; rewrite E in *; [|done]. split; [apply Hall; [by rewrite E|by apply own_bump]|apply Hacc].
Qed.

Lemma maybe_bump_J (b : bool) : triple (JJ Free Free) (if b then bump_req_id else mret tt) (λ _, JJ Free Free) (λ _ _, False).
Proof. destruct b; [apply bump_J; by left|by apply triple_ret]. Qed.

Lemma while_J fuel attempt :
  (∀ t, complete_stream (e_stream env t)) →
  triple (JJ Free Free) (stream_while json_loads json_encode json_dumps_len env cfg fuel attempt) (λ _, JJ Free Free) (λ _ _, False).
Proof.
  intros Hst. induction fuel as [|fuel IH]; [by apply triple_ret|]. cbn [stream_while].
  eapply (triple_seq _ _ (λ s, JJ Free Free s ∧ first_is false s)).
  { intros s Hs. simpl. split; [by apply (J_frame _ s)|done]. }
  eapply (triple_bind _ _ _ (λ _, JJ Free Free)).
  { intros s Hs. pose proof (single_attempt_J attempt Hst s Hs) as H.
    destruct (process_single_attempt _ _ _ _ _ _ s) as [s' [u|e]]; [exact H|]. by destruct H as [-> H]. }
  intros transport. apply triple_get. intros s Hs.
  eapply (triple_seq _ _ (JJ Free Free)).
  { eapply triple_conseq; [apply (maybe_bump_J (wants_retry s))|by intros s' ->|done|done]. }
  apply triple_get. intros s1 Hs1.
  assert (∀ r, triple (λ s', s' = s1) (mret r : M RS LoopEnd) (λ _, JJ Free Free) (λ _ _, False)) as Hr.
  { intros r. apply triple_ret. by intros s' ->. }
  destruct (is_finished s1); [apply Hr|]. destruct transport; [apply Hr|]. destruct (wants_retry s1); [|apply Hr].
  eapply triple_conseq; [exact IH|by intros s' ->|done|done].
Qed.

Lemma for_J fuel attempts : ∀ attempt,
  (∀ t, complete_stream (e_stream env t)) →
  triple (JJ Free Free) (stream_for json_loads json_encode json_dumps_len env cfg fuel attempts attempt) (λ _, JJ Free Free) (λ _ _, False).
Proof.
  induction attempts as [|n IH]; intros attempt Hst; [by apply triple_ret|]. cbn [stream_for].
  eapply triple_bind; [by apply while_J|]. intros [| |]; [by apply triple_ret|by apply IH|by apply triple_ret].
Qed.

(** *** Without streaming *)

Lemma release_d_JE pres dres :
  normalize_role dres.1 = Some ROLE_D →
  triple (JE pres (full ROLE_D dres)) (ignore (release_tokens env dres)) (λ _, JE pres Free) (λ _ _, False).
Proof.
  intros Hd s [[Hf Hs]|Hs].
  - pose proof (release_d_all (Held true false pres) dres Hd s Hs) as H.
    assert (first_is false (ignore (release_tokens env dres) s).1) as H2.
    { pose proof (update_first false dres RELEASE_TOKENS s Hf). unfold ignore, release_tokens, mbind, M_bind.
      by destruct (update_workload env dres RELEASE_TOKENS s) as [s2 [a|e]]. }
    destruct (ignore (release_tokens env dres) s) as [s' [u|e]]; [left; done|done].
  - pose proof (release_d_all Free dres Hd s Hs) as H.
    destruct (ignore (release_tokens env dres) s) as [s' [u|e]]; [right; done|done].
Qed.

Definition held_P (pres : Instance * Endpoint) (hd : hold) (s : RS) : Prop := JJ (Held true false pres) hd s ∧ first_is false s.
Definition raised_P (pres : Instance * Endpoint) (hd : hold) (e : pyexn) (s : RS) : Prop := e ≠ CancelledError ∧ JE pres hd s.

Lemma lift_held {A} (m : py A) pres hd : sane m → triple (held_P pres hd) (mlift m) (λ _, held_P pres hd) (raised_P pres hd).
Proof. intros Hm. apply triple_lift; [done|]. intros s e [Hs Hf] ->. split; [intros ->; by apply Hm|]. by left. Qed.

Lemma release_kv_held pres hd :
  normalize_role pres.1 = Some ROLE_P →
  triple (held_P pres hd) (ignore (release_kv env pres)) (λ _, JJ Free hd) (λ _ _, False).
Proof.
  intros Hr. eapply triple_conseq; [apply (release_p RELEASE_KV (Held true false pres) hd pres);
    [done|done|by intros ? ? ? [= <- <- <-]]|by intros s [? _]| |done].
  intros u s Hs. by apply (J_free_p pres).
Qed.

Lemma free_raised {A} (m : M RS A) pres hd Q : triple (JJ Free hd) m Q (sane_J (hpd Free hd)) → triple (JJ Free hd) m Q (raised_P pres hd).
Proof. intros H. eapply triple_conseq; [exact H|done|done|]. intros e s [? ?]. split; [done|by right]. Qed.

(** Reading the state, for a body that holds from every state of the precondition. *)
Lemma triple_read {A} (k : RS → M RS A) P Q E : (∀ s, triple P (k s) Q E) → triple P (mget ≫= k) Q E.
Proof. intros H. apply triple_get. intros s Hs s' ->. by apply H. Qed.

Lemma client_body_J body h : triple (J h) (client_body body) (λ _, J h) (sane_J h).
Proof.
  unfold client_body. apply triple_read. intros s0. apply (triple_bind _ _ _ (λ _, J h)).
  - destruct body; try (destruct (is_in _ _); [by apply triple_raise|by apply triple_ret]).
    destruct (_ && _); [|by apply triple_ret]. apply (triple_bind _ _ _ (λ _, J h)); [apply lift_J; auto with sane|].
    intros b. by apply triple_ret.
  - intros body'. apply lift_J. auto with sane.
Qed.

Lemma fetch_J d pres dres :
  normalize_role pres.1 = Some ROLE_P → normalize_role dres.1 = Some ROLE_D →
  triple (held_P pres (full ROLE_D dres)) (fetch_nonstream_decode_body json_dumps_len env cfg d pres dres)
    (λ _, JJ Free Free) (raised_P pres Free).
Proof.
  intros Hr Hd. set (hd := full ROLE_D dres). unfold fetch_nonstream_decode_body.
  eapply triple_finally with (Q' := λ _, JJ Free hd) (E' := raised_P pres hd).
  - eapply (triple_bind _ _ _ (λ _, held_P pres hd)).
    { unfold forward_request, forward_request_at. intros s [Hs Hf]. do 3 (erewrite M_bind_Ret by reflexivity). unfold mlift.
      pose proof (rel_post Hcalm (r_tick s)) as Hp. cbn [fst mmodify r_tick add_post].
      destruct (e_post env (r_tick s)) as [j|e].
      - split; [by apply (J_frame _ s)|done].
      - split; [congruence|]. left. split; [done|by apply (J_frame _ s)]. }
    intros body. eapply triple_bind; [apply lift_held; auto with sane|]. intros again. destruct again.
    + destruct (negb _). { apply triple_raise. intros s [Hs Hf]. split; [done|by left]. }
      apply triple_read. intros s0. eapply (triple_bind _ _ _ (λ _, held_P pres hd)).
      { unfold check_recompute_limit. destruct (recompute_limit_reached _ _).
        - apply triple_raise. intros s [Hs Hf]. split; [done|by left].
        - by apply triple_ret. }
      intros u. eapply (triple_seq _ _ (held_P pres hd)). { intros s [Hs Hf]. split; [by apply (J_frame _ s)|done]. }
      eapply (triple_seq _ _ (held_P pres hd)). { intros s [Hs Hf]. split; [by apply (J_frame _ s)|done]. }
      eapply triple_bind; [apply lift_held; auto with sane|]. intros u2.
      eapply triple_bind; [apply lift_held; auto with sane|]. intros i.
      eapply triple_seq; [by apply release_kv_held|]. apply free_raised.
      apply (triple_bind _ _ _ (λ _, JJ Free hd)); [apply prepare_retry_J|]. intros u3.
      eapply triple_seq; [by apply triple_quiet|]. by apply triple_ret.
    + eapply triple_seq; [by apply release_kv_held|]. apply free_raised.
      eapply triple_seq; [by apply triple_quiet|]. apply (triple_bind _ _ _ (λ _, JJ Free hd)); [apply client_body_J|].
      intros b. by apply triple_ret.
  - intros o. eapply triple_conseq; [by apply (release_d_all Free dres)|done|done|done].
  - intros e. apply triple_pre. intros He. eapply triple_conseq; [by apply (release_d_JE pres dres)|done|done|done].
Qed.

Lemma nonstream_attempt_J attempt :
  triple (λ s, JJ Free Free s ∧ first_is false s) (nonstream_single_attempt json_dumps_len env cfg attempt)
    (λ _, JJ Free Free) (λ _ _, False).
Proof.
  unfold nonstream_single_attempt.
  eapply triple_bind; [eapply triple_conseq; [apply (prefill_J attempt None nonstream_failed), neutral_nonstream_failed|done|intros r s H; exact H|done]|].
  intros [[pres p]|u]; [|by apply triple_ret]. apply triple_pre. intros Hr.
  eapply triple_except with (E' := raised_P pres Free); [|by intros s [? _]|].
  - eapply triple_bind; [apply prepare_d_J|]. intros dres. apply triple_pre. intros Hd.
    eapply (triple_bind _ _ _ (λ _, held_P pres (full ROLE_D dres))).
    { eapply triple_except with (E' := raised_P pres (full ROLE_D dres)); [|by intros s [? _]|].
      - unfold gen_d_request. apply triple_read. intros s0. eapply triple_bind; [apply lift_held; auto with sane|].
        intros kv. by apply triple_ret.
      - intros e He. eapply (triple_seq _ _ (JE pres Free)); [|by apply triple_raise].
        eapply triple_conseq; [by apply (release_d_JE pres dres)|by intros s [_ ?]|done|done]. }
    intros d. eapply triple_bind; [by apply fetch_J|]. intros [body|]; [|by apply triple_ret].
    eapply triple_seq; [apply triple_state_J|]. eapply triple_seq; [by apply triple_quiet|]. by apply triple_ret.
  - intros e He. eapply (triple_seq _ _ (JJ Free Free)).
    { eapply triple_conseq; [by apply (stream_error_J pres Free)|by intros s [_ ?]|done|done]. }
    apply triple_read. intros s0. pose proof (proj1 (neutral_nonstream_failed e) (hpd Free Free)) as Hn.
    destruct e; try exact Hn; (destruct (_ || _); [exact Hn|by apply triple_ret]).
Qed.

Lemma nonstream_while_J fuel attempt :
  triple (JJ Free Free) (nonstream_while json_dumps_len env cfg fuel attempt) (λ _, JJ Free Free) (λ _ _, False).
Proof.
  induction fuel as [|fuel IH]; [by apply triple_ret|]. cbn [nonstream_while].
  eapply (triple_seq _ _ (λ s, JJ Free Free s ∧ first_is false s)).
  { intros s Hs. simpl. split; [by apply (J_frame _ s)|done]. }
  eapply triple_bind; [apply nonstream_attempt_J|]. intros [r|]; [by apply triple_ret|]. apply triple_read. intros s0.
  eapply triple_seq; [apply maybe_bump_J|]. destruct (is_finished s0); [by apply triple_ret|].
  destruct (wants_retry s0); [exact IH|by apply triple_ret].
Qed.

Lemma nonstream_for_J fuel attempts : ∀ attempt,
  triple (JJ Free Free) (nonstream_for json_dumps_len env cfg fuel attempts attempt) (λ _, JJ Free Free) (λ _ _, False).
Proof.
  induction attempts as [|n IH]; intros attempt; [by apply triple_ret|]. cbn [nonstream_for].
  eapply triple_bind; [by apply nonstream_while_J|]. intros [r|[| |]]; [by apply triple_ret|by apply triple_ret|by apply IH|by apply triple_ret].
Qed.
End ledger.

(** ** Properties *)

(** The ids a request has over its retries. *)
Definition own_ids (id0 id : string) : Prop := ∃ n, id = Nat.iter n modify_req_id_retry_segment id0.

Lemma own_ids_bump id0 id : own_ids id0 id → own_ids id0 (modify_req_id_retry_segment id).
Proof. intros [n ->]. by exists (S n). Qed.

(** Every charge was refunded, and no record is left under any id of the request. *)
Definition given_back (id0 : string) (s : RS) : Prop :=
  (∀ r, settled (role_ledger (r_ledger s) r)) ∧ ∀ id r, own_ids id0 id → dget (req_workload_dict (r_mgr s)) (id, r) = None.

Definition fresh_request (s : RS) : Prop :=
  r_ledger s = [] ∧ ∀ id r, own_ids (req_id (r_req s)) id → dget (req_workload_dict (r_mgr s)) (id, r) = None.

Lemma fresh_J s : fresh_request s → J (own_ids (req_id (r_req s))) (hpd Free Free) s.
Proof.
  intros [Hl Hd]. split; [by exists O|]. split; [by intros id r _ Hid _; apply Hd|].
  intros r. assert (hpd Free Free r = Free) as -> by (by destruct r). split; [apply Hd; by exists O|].
  rewrite Hl. apply settled_nil.
Qed.

Lemma J_given_back id0 s : J (own_ids id0) (hpd Free Free) s → given_back id0 s.
Proof.
  intros (Ho & Hoth & Hacc). assert (∀ r, slot s r = None ∧ settled (role_ledger (r_ledger s) r)) as H.
  { intros r. specialize (Hacc r). by destruct r. }
  split; [apply H|]. intros id r Hid. destruct (decide (id = req_id (r_req s))) as [->|Hne]; [apply H|apply Hoth; [by destruct r|done|done]].
Qed.


(** *** A sample: the first decode stream asks for recomputation *)

Definition recompute_env : REnv :=
  sample_env (λ t, if (t <? 15)%nat then mkStream [frame "A"; frame "R"] None else mkStream [frame "A"] None).

Lemma sample_allocation rl :
  clean_w (calculate_demand_workload rl 10) ∧ (rl = ROLE_D → active_kv_cache (calculate_demand_workload rl 10) = f0) ∧
  (rl = ROLE_P → fle (active_kv_cache (calculate_demand_workload rl 10)) f0 = false).
Proof.
  destruct rl; (split; [split; vm_compute; first [by left|right; by eexists _, _]|split; intros H; try done]).
Qed.

Lemma sample_reliable st : reliable (sample_env st).
Proof.
  split; [|done]. split; [|by eauto]. intros t rl. pose proof (sample_allocation rl) as (H1 & H2 & _).
  destruct rl; (split; [done|]; split; [reflexivity|]; by split).
Qed.

Lemma recompute_env_complete t : complete_stream (e_stream recompute_env t).
Proof. simpl. by destruct (t <? 15)%nat. Qed.

Lemma sample_fresh : fresh_request sample_rs.
Proof. by split. Qed.

(** The sample really recomputes: the second attempt follows under the next id. *)
Lemma recompute_env_runs :
  let s := (generate_stream sample_loads sample_encode (λ _, 0) recompute_env sample_cfg 6 sample_rs).1 in
  retry_count s = 1 ∧ req_id (r_req s) = "1234567890123456010000abcdef01"%string ∧
  length (r_posted s) = 4%nat ∧ length (r_ledger s) = 10%nat ∧ r_sent s = [Chunk (frame "json"); Chunk (frame "json")].
Proof. vm_compute. by split_and!. Qed.

