(* ===== verification/RouterFailures.v ===== *)
(** * Requests that leak or never end

    Exact runs of [SeparatePDRouter]: the first attempt of a request whose decode
    stream breaks in its first frame or is cancelled before its first byte, and a
    request without streaming whose recomputation can never be prepared. *)

From stdpp Require Import base option list strings pretty sets.
From Stdlib Require Import ZArith Lia Ascii.
From S2P Require Import Prelude Float64 PyText Resources RequestManager Recompute Router RouterLedger.
Open Scope Z_scope.

(** Everything but the request manager, the ledger, the clock and the time stamps. *)
Definition ctl (s : RS) :=
  (first_chunk_sent s, wants_retry s, retry_count s, is_finished s, stream_chunk_sent s, r_posted s, r_sent s,
   (req_id (r_req s), req_data (r_req s), req_len (r_req s), api (r_req s), entry_api (r_req s))).

Lemma mexcept_Ret {S A} (m : M S A) h s s' a : m s = (s', Ret a) → mexcept m h s = (s', Ret a).
Proof. unfold mexcept. by intros ->. Qed.
Lemma mexcept_Raise {S A} (m : M S A) h s s' e : m s = (s', Raise e) → e ≠ CancelledError → mexcept m h s = h e s'.
Proof. unfold mexcept. intros -> He. by destruct e. Qed.
Lemma mexcept_Cancel {S A} (m : M S A) h s s' : m s = (s', Raise CancelledError) → mexcept m h s = (s', Raise CancelledError).
Proof. unfold mexcept. by intros ->. Qed.
Lemma mfinally_eq {S A} (m : M S A) f s s1 s2 r u : m s = (s1, r) → f s1 = (s2, Ret u) → mfinally m f s = (s2, r).
Proof. unfold mfinally. intros ->. by intros ->. Qed.

Section exact.
Context (env : REnv) (cfg : ExceptionConfig).

(** The scheduler always finds an instance of the role, and charges a prefill request
    for KV cache. *)
Definition allocates : Prop := ∀ t rl, ∃ i e w,
  e_select env t rl = mkSel (Some (i, e, w)) (Ret (Some (i, e, w))) ∧ normalize_role i = Some rl ∧ clean_w w ∧
  (rl = ROLE_D → active_kv_cache w = f0) ∧ (rl = ROLE_P → fle (active_kv_cache w) f0 = false).
Definition refunds : Prop := ∀ t, e_update env t = mkUpd true (Ret true).
Context (Hal : allocates) (Hre : refunds) (Hmax : 1 <= max_retry cfg).

Lemma once_exact rl s :
  slot s rl = None → ∃ s' i e w, prepare_once env rl s = (s', Ret (i, e)) ∧ ctl s' = ctl s ∧
    normalize_role i = Some rl ∧ clean_w w ∧ (rl = ROLE_P → fle (active_kv_cache w) f0 = false) ∧
    slot s' rl = Some w ∧ (∀ r, r ≠ rl → slot s' r = slot s r) ∧ r_ledger s' = r_ledger s ++ [charge_of (i, e, w)].
Proof.
  intros Hs. destruct (Hal (r_tick s) rl) as (i & e & w & Hsel & Hr & Hw & _ & Hkv).
  unfold prepare_once. erewrite M_bind_Ret by reflexivity. rewrite Hsel. cbn [sel_charged sel_result].
  erewrite M_bind_Ret by reflexivity. erewrite M_bind_Ret by reflexivity. cbv beta iota.
  erewrite M_bind_Ret by reflexivity. cbn [fst mmodify r_mgr r_req tick add_charge]. unfold add_req_workload.
  assert (dhas (req_workload_dict (r_mgr s)) (req_id (r_req s), rl) = false) as -> by (by apply dhas_false).
  erewrite M_bind_Ret by reflexivity. erewrite M_bind_Ret by reflexivity.
  eexists _, i, e, w. split; [reflexivity|]. split_and!; try done.
  - unfold slot. simpl. apply dget_dset_eq.
  - intros r Hne. unfold slot. simpl. apply dget_dset_ne. congruence.
Qed.

Lemma prepare_exact rl s :
  slot s rl = None → ∃ s' i e w, prepare_resource env cfg rl s = (s', Ret (i, e)) ∧ ctl s' = ctl s ∧
    normalize_role i = Some rl ∧ clean_w w ∧ (rl = ROLE_P → fle (active_kv_cache w) f0 = false) ∧
    slot s' rl = Some w ∧ (∀ r, r ≠ rl → slot s' r = slot s r) ∧ r_ledger s' = r_ledger s ++ [charge_of (i, e, w)].
Proof.
  intros Hs. unfold prepare_resource. erewrite M_bind_Ret by reflexivity.
  match goal with |- context [prepare_loop _ _ _ ?s1] => set (s1' := s1) end.
  destruct (once_exact rl s1') as (s' & i & e & w & E & H); [done|].
  destruct (Z.to_nat (max_retry cfg)) as [|n] eqn:En; [lia|]. cbn [prepare_loop]. unfold mexcept. rewrite E.
  exists s', i, e, w. split; [done|]. exact H.
Qed.

(** With a record left, every try is charged and refused. *)
Lemma once_stuck rl s w :
  slot s rl = Some w → ∃ s' i e w', prepare_once env rl s = (s', Raise RuntimeError) ∧ ctl s' = ctl s ∧
    normalize_role i = Some rl ∧ (∀ r, slot s' r = slot s r) ∧ r_ledger s' = r_ledger s ++ [charge_of (i, e, w')].
Proof.
  intros Hs. destruct (Hal (r_tick s) rl) as (i & e & w' & Hsel & Hr & _).
  unfold prepare_once. erewrite M_bind_Ret by reflexivity. rewrite Hsel. cbn [sel_charged sel_result].
  erewrite M_bind_Ret by reflexivity. erewrite M_bind_Ret by reflexivity. cbv beta iota.
  erewrite M_bind_Ret by reflexivity. cbn [fst mmodify r_mgr r_req tick add_charge]. unfold add_req_workload.
  assert (dhas (req_workload_dict (r_mgr s)) (req_id (r_req s), rl) = true) as -> by (apply dhas_true; eauto).
  eexists _, i, e, w'. split; [reflexivity|]. done.
Qed.

Lemma loop_stuck rl n : ∀ s w, slot s rl = Some w →
  ∃ s', prepare_loop env n rl s = (s', Raise (HTTPException 503)) ∧ ctl s' = ctl s ∧ state (r_req s') = EXCEPTION ∧
    (∀ r, slot s' r = slot s r) ∧ ∃ l, r_ledger s' = r_ledger s ++ l ∧ length l = n ∧ Forall (λ c, ch_role c = rl) l.
Proof.
  induction n as [|n IH]; intros s w Hs; cbn [prepare_loop].
  - eexists. split; [reflexivity|]. split_and!; try done. exists []. by rewrite app_nil_r.
  - destruct (once_stuck rl s w Hs) as (s1 & i & e & w' & E & Hc & Hr & Hsl & Hl). unfold mexcept. rewrite E.
    destruct (IH s1 w) as (s' & E' & Hc' & Hst & Hsl' & l & Hl' & Hlen & Hall); [by rewrite Hsl|].
    exists s'. rewrite E'. split; [done|]. rewrite Hc', Hc. split_and!; try done.
    { intros r. by rewrite Hsl'. }
    exists (charge_of (i, e, w') :: l). rewrite Hl', Hl, <- app_assoc. split; [done|]. split; [simpl; lia|].
    apply Forall_cons. split; [simpl; by rewrite Hr|done].
Qed.

Lemma prepare_stuck rl s w :
  slot s rl = Some w → ∃ s', prepare_resource env cfg rl s = (s', Raise (HTTPException 503)) ∧ ctl s' = ctl s ∧
    (∀ r, slot s' r = slot s r) ∧
    ∃ l, r_ledger s' = r_ledger s ++ l ∧ Z.of_nat (length l) = max_retry cfg ∧ Forall (λ c, ch_role c = rl) l.
Proof.
  intros Hs. unfold prepare_resource. erewrite M_bind_Ret by reflexivity.
  match goal with |- context [prepare_loop _ _ _ ?s1] => set (s1' := s1) end.
  destruct (loop_stuck rl (Z.to_nat (max_retry cfg)) s1' w) as (s' & E & Hc & _ & Hsl & l & Hl & Hlen & Hall); [done|].
  exists s'. split; [done|]. split; [done|]. split; [done|]. exists l. split; [done|]. split; [lia|done].
Qed.

Definition refund (a : WorkloadAction) (w : Workload) : Workload :=
  if bool_decide (a = RELEASE_KV) then mkWorkload (fopp (active_kv_cache w)) f0 else mkWorkload f0 (fopp (active_tokens w)).
Definition rest (a : WorkloadAction) (w : Workload) : option Workload :=
  if fle (if bool_decide (a = RELEASE_KV) then active_tokens w else active_kv_cache w) f0 then None
  else Some (if bool_decide (a = RELEASE_KV) then mkWorkload f0 (active_tokens w) else mkWorkload (active_kv_cache w) f0).

Lemma update_exact res a s r :
  a ≠ ALLOCATION → normalize_role res.1 = Some r → ∃ s' b, update_workload env res a s = (s', Ret b) ∧ ctl s' = ctl s ∧
    state (r_req s') = state (r_req s) ∧ (∀ r', r' ≠ r → slot s' r' = slot s r') ∧
    slot s' r = (slot s r ≫= rest a) ∧
    r_ledger s' = r_ledger s ++ match slot s r with None => [] | Some w => [mkCharge r (ins_id res.1) (ep_id res.2) (refund a w)] end.
Proof.
  intros Ha Hr. destruct res as [i e]. simpl in Hr. unfold update_workload. erewrite M_bind_Ret by reflexivity.
  rewrite compute_len by done. destruct (slot s r) as [w|] eqn:Ew.
  - destruct (release_step (r_mgr s) i e (req_id (r_req s)) r w a Hr Ew Ha) as (m' & Hc & Hm'). change (i, e).1 with i. change (i, e).2 with e. rewrite Hc.
    erewrite M_bind_Ret by reflexivity. erewrite M_bind_Ret by reflexivity. rewrite Hre. cbn [upd_applied upd_result].
    erewrite M_bind_Ret by reflexivity. eexists _, true. split; [reflexivity|]. split_and!; try done.
    + intros r' Hne. unfold slot. simpl. rewrite Hm', decide_False by congruence. done.
    + unfold slot. simpl. by rewrite Hm', decide_True.
  - change (i, e).1 with i. change (i, e).2 with e. rewrite (release_absent (r_mgr s) i e (req_id (r_req s)) r a Hr Ew Ha).
    erewrite M_bind_Ret by reflexivity. eexists _, false. split; [reflexivity|]. split_and!; try done. by rewrite app_nil_r.
Qed.

Lemma ignore_exact res a s r :
  a ≠ ALLOCATION → normalize_role res.1 = Some r → ∃ s', ignore (update_workload env res a) s = (s', Ret tt) ∧ ctl s' = ctl s ∧
    state (r_req s') = state (r_req s) ∧ (∀ r', r' ≠ r → slot s' r' = slot s r') ∧ slot s' r = (slot s r ≫= rest a) ∧
    r_ledger s' = r_ledger s ++ match slot s r with None => [] | Some w => [mkCharge r (ins_id res.1) (ep_id res.2) (refund a w)] end.
Proof.
  intros Ha Hr. destruct (update_exact res a s r Ha Hr) as (s' & b & E & H). exists s'. split; [|done].
  unfold ignore. by rewrite (M_bind_Ret _ _ _ _ _ E).
Qed.

(** The prefill half, when prefill answers with a JSON object. *)
Context (Hpost : ∀ t, ∃ d, e_post env t = Ret (JObj d)).

Definition p_body (s : RS) : jdict := copy_req_data_for_engine (gen_p_request (req_data (r_req s))).

Lemma prefill_exact {A} attempt (retry : A) on_error s :
  slot s ROLE_P = None → ∃ s' i e w j, prefill_half env cfg attempt retry on_error s = (s', Ret (inl ((i, e), JObj j))) ∧
    ctl s' = ctl (add_post s (p_body s)) ∧ normalize_role i = Some ROLE_P ∧ clean_w w ∧ fle (active_kv_cache w) f0 = false ∧
    slot s' ROLE_P = Some (mkWorkload (active_kv_cache w) f0) ∧ (∀ r, r ≠ ROLE_P → slot s' r = slot s r) ∧
    r_ledger s' = r_ledger s ++ [charge_of (i, e, w); mkCharge ROLE_P (ins_id i) (ep_id e) (refund RELEASE_TOKENS w)].
Proof.
  intros Hs. destruct (prepare_exact ROLE_P s Hs) as (s1 & i & e & w & E1 & Hc1 & Hr & Hw & Hkv & Hp1 & Hd1 & Hl1).
  specialize (Hkv eq_refl). unfold prefill_half.
  assert (req_data (r_req s1) = req_data (r_req s)) as Hdata by (unfold ctl in Hc1; congruence).
  set (s2 := add_post s1 (p_body s)). destruct (Hpost (r_tick s2)) as [j Hj].
  set (s3 := set_req (tick (tick s2)) (update_state (e_now env (S (r_tick s2))) (r_req s1) PREFILL_END)).
  destruct (ignore_exact (i, e) RELEASE_TOKENS s3 ROLE_P) as (s4 & E4 & Hc4 & Hst4 & Hd4 & Hp4 & Hl4); [done|done|].
  assert (forward_p_request env (i, e) s1 = (s4, Ret (JObj j))) as Ef.
  { unfold forward_p_request, forward_request, forward_request_at. erewrite M_bind_Ret by reflexivity.
    rewrite (M_bind_Ret _ _ s1 (tick s2) (JObj j)).
    2: { rewrite Hdata. change (copy_req_data_for_engine (gen_p_request (req_data (r_req s)))) with (p_body s).
         do 3 (erewrite M_bind_Ret by reflexivity). unfold mlift. simpl. simpl in Hj. by rewrite Hj. }
    erewrite M_bind_Ret by reflexivity. cbn [fst snd]. change (set_req _ _) with s3. by rewrite (M_bind_Ret _ _ _ _ _ E4). }
  exists s4, i, e, w, j. split.
  { erewrite M_bind_Ret; [|apply mexcept_Ret; by rewrite (M_bind_Ret _ _ _ _ _ E1)].
    cbv beta iota. erewrite mfinally_eq; [reflexivity|apply mexcept_Ret; by rewrite (M_bind_Ret _ _ _ _ _ Ef)|].
    erewrite M_bind_Ret by reflexivity. rewrite decide_True by (by rewrite Hst4). reflexivity. }
  assert (slot s3 ROLE_P = Some w) as Hs3 by exact Hp1. rewrite Hs3 in Hp4, Hl4.
  split_and!; try done.
  - rewrite Hc4. unfold ctl in *. simpl. congruence.
  - rewrite Hp4. simpl. unfold rest. simpl. by rewrite Hkv.
  - intros r Hne. rewrite Hd4 by done. change (slot s3 r) with (slot s1 r). by apply Hd1.
  - rewrite Hl4. simpl. by rewrite Hl1, <- app_assoc.
Qed.

(** *** A decode stream that breaks before its first frame *)

Context (json_loads : string → option json) (json_encode : json → string) (json_dumps_len : json → Z).
(** The bytes that arrive, not a complete frame, and the exception. *)
Context (c : string) (broken : pyexn) (Hframe : frame_end (chars c) = None).
Context (Hstream : ∀ t, e_stream env t = mkStream (if decide (c = ""%string) then [] else [c]) (Some broken)).

Definition d_body (s : RS) (j : jdict) : jdict :=
  let kv := dget_or j "kv_transfer_params" (JObj []) in
  let d := if truthy kv then dset (req_data (r_req s)) "kv_transfer_params" kv else req_data (r_req s) in
  dset d "return_token_ids" (if recompute_enabled cfg then JBool true else dget_or d CLIENT_RETURN_TOKEN_IDS_KEY (JBool false)).

Lemma gen_d_exact s j : gen_d_request cfg (JObj j) s = (s, Ret (d_body s j)).
Proof. reflexivity. Qed.

Lemma extract_exact d p : dget d PROMPT = Some p → ∃ i, extract_request_info d = Ret i.
Proof. intros H. unfold extract_request_info, origin_prompt_for_recompute. rewrite H. eexists. reflexivity. Qed.

Lemma d_body_prompt s j p : dget (req_data (r_req s)) PROMPT = Some p → dget (d_body s j) PROMPT = Some p.
Proof. intros H. unfold d_body. rewrite dget_dset_ne by done. destruct (truthy _); [|done]. by rewrite dget_dset_ne. Qed.

(** The flags after the break: only the flag of the first chunk and the log of bodies changed. *)
Definition after_break (s s' : RS) : Prop :=
  first_chunk_sent s' = negb (bool_decide (c = ""%string)) ∧ wants_retry s' = wants_retry s ∧ retry_count s' = retry_count s ∧
  is_finished s' = is_finished s ∧ stream_chunk_sent s' = stream_chunk_sent s ∧ r_sent s' = r_sent s ∧
  req_id (r_req s') = req_id (r_req s) ∧ req_data (r_req s') = req_data (r_req s).

Lemma ctl_after_break s s1 s2 : ctl s1 = ctl s2 → after_break s s2 → after_break s s1.
Proof. unfold ctl, after_break. intros [= -> -> -> -> -> _ -> -> -> _ _ _]. done. Qed.

Lemma stream_exact d i pres s :
  ∃ s', process_stream_chunks json_loads json_encode json_dumps_len env cfg d i pres s = (s', Raise broken) ∧
    after_break s s' ∧ (∀ r, slot s' r = slot s r) ∧ r_ledger s' = r_ledger s.
Proof.
  unfold process_stream_chunks, ignore, forward_stream_request, forward_stream_at.
  set (s1 := tick (add_post (set_first s false) (copy_req_data_for_engine d))).
  assert (∃ s', each_chunk env (on_decode_chunk json_loads json_encode json_dumps_len env cfg d pres)
     (if decide (c = ""%string) then [] else [c]) (Some broken) [] (mkDL false i false) s1 = (s', Raise broken) ∧
     after_break s s' ∧ (∀ r, slot s' r = slot s r) ∧ r_ledger s' = r_ledger s) as (s' & E & H).
  { unfold after_break. destruct (decide (c = ""%string)) as [Hc|Hc].
    - rewrite bool_decide_eq_true_2 by done. eexists. split; [reflexivity|]. done.
    - rewrite bool_decide_eq_false_2 by done. cbn [each_chunk]. erewrite M_bind_Ret by reflexivity.
      cbn [first_chunk_sent s1 tick add_post set_first]. rewrite (bool_decide_eq_false_2 _ Hc). simpl.
      erewrite M_bind_Ret by reflexivity. rewrite (cut_none _ Hframe). simpl. erewrite M_bind_Ret by reflexivity.
      eexists. split; [reflexivity|]. done. }
  exists s'. split; [|exact H]. erewrite M_bind_Raise; [reflexivity|].
  do 3 (erewrite M_bind_Ret by reflexivity). rewrite Hstream. exact E.
Qed.

(** The error handler has nothing to do once a byte has arrived. *)
Lemma error_exact pres s : first_chunk_sent s = true → handle_stream_error env pres s = (s, Ret tt).
Proof. intros H. unfold handle_stream_error. erewrite M_bind_Ret by reflexivity. by rewrite H. Qed.

Context (Hbroken : if decide (c = ""%string) then broken = CancelledError else ∃ st, broken = TransportError st).

Lemma forward_d_exact j pres s p :
  dget (req_data (r_req s)) PROMPT = Some p →
  ∃ s', forward_d_request json_loads json_encode json_dumps_len env cfg (JObj j) pres s = (s', Raise broken) ∧
    after_break s s' ∧ (∀ r, slot s' r = slot s r) ∧ r_ledger s' = r_ledger s.
Proof.
  intros Hp. destruct (extract_exact (d_body s j) p (d_body_prompt s j p Hp)) as [i Hi].
  destruct (stream_exact (d_body s j) i pres s) as (s1 & E & Ha & H).
  exists s1. split; [|done]. unfold forward_d_request.
  assert ((d ← gen_d_request cfg (JObj j); i ← mlift (extract_request_info d);
     process_stream_chunks json_loads json_encode json_dumps_len env cfg d i pres ;;
     s ← mget; if negb (wants_retry s) then set_state env DECODE_END else mret tt) s = (s1, Raise broken)) as Eb.
  { rewrite (M_bind_Ret _ _ _ _ _ (gen_d_exact s j)). erewrite M_bind_Ret; [|unfold mlift; by rewrite Hi].
    by rewrite (M_bind_Raise _ _ _ _ _ E). }
  destruct (decide (c = ""%string)) as [Hc|Hc].
  - subst broken. by apply mexcept_Cancel.
  - destruct Hbroken as [st Hb]. rewrite (mexcept_Raise _ _ _ _ _ Eb) by (by rewrite Hb).
    destruct Ha as (Hf & _). rewrite bool_decide_eq_false_2 in Hf by done.
    by rewrite (M_bind_Ret _ _ _ _ _ (error_exact pres s1 Hf)).
Qed.

(** What the attempt leaves: the KV cache of the prefill request, charged and recorded. *)
Definition leaked (s s' : RS) : Prop :=
  ∃ i e w, normalize_role i = Some ROLE_P ∧ clean_w w ∧ fle (active_kv_cache w) f0 = false ∧
    slot s' ROLE_P = Some (mkWorkload (active_kv_cache w) f0) ∧
    role_ledger (r_ledger s') ROLE_P = role_ledger (r_ledger s) ROLE_P ++
      [charge_of (i, e, w); mkCharge ROLE_P (ins_id i) (ep_id e) (refund RELEASE_TOKENS w)].

Definition attempt_end : pyexn := if decide (c = ""%string) then CancelledError else DecodeTransportRetry.

Lemma attempt_exact attempt s p :
  last_attempt cfg attempt = false → stream_chunk_sent s = false → slot s ROLE_P = None → slot s ROLE_D = None →
  dget (req_data (r_req s)) PROMPT = Some p →
  ∃ s', process_single_attempt json_loads json_encode json_dumps_len env cfg attempt s = (s', Raise attempt_end) ∧
    after_break s s' ∧ leaked s s'.
Proof.
  intros Hlast Hsent Hp Hd Hprompt.
  destruct (prefill_exact attempt tt (stream_failed env) s Hp) as (s1 & i & e & w & j & E1 & C1 & R1 & W1 & K1 & P1 & D1 & L1).
  assert (slot s1 ROLE_D = None) as Hd1 by (by rewrite D1).
  destruct (prepare_exact ROLE_D s1 Hd1) as (s2 & i2 & e2 & w2 & E2 & C2 & R2 & W2 & _ & P2 & D2 & L2).
  assert (req_data (r_req s2) = req_data (r_req s)) as Hdata by (unfold ctl in *; simpl in *; congruence).
  destruct (forward_d_exact j (i, e) s2 p) as (s3 & E3 & A3 & S3 & L3); [by rewrite Hdata|].
  destruct (ignore_exact (i2, e2) RELEASE_TOKENS s3 ROLE_D) as (s4 & E4 & C4 & _ & O4 & P4 & L4); [done|done|].
  assert (after_break s s4) as Hab.
  { apply (ctl_after_break s s4 s3 C4). unfold after_break in *. unfold ctl in *. simpl in *.
    destruct A3 as (-> & -> & -> & -> & -> & -> & -> & ->). split; [done|]. clear -C1 C2. split_and!; congruence. }
  exists s4. split; [|split; [done|]].
  - unfold process_single_attempt. rewrite (M_bind_Ret _ _ _ _ _ E1). cbv beta iota.
    erewrite M_bind_Ret; [|apply mexcept_Ret; by rewrite (M_bind_Ret _ _ _ _ _ E2)]. cbv beta iota.
    eapply mfinally_eq; [|exact E4]. unfold attempt_end.
    destruct (decide (c = ""%string)) as [Hc|Hc].
    + apply mexcept_Cancel. rewrite (M_bind_Raise _ _ _ _ _ E3). by rewrite Hbroken.
    + destruct Hbroken as [st Hb]. erewrite mexcept_Raise; [|by rewrite (M_bind_Raise _ _ _ _ _ E3)|by rewrite Hb].
      rewrite Hb. cbn [decode_failed].
      destruct A3 as (Hf & _ & _ & _ & Hss & _). rewrite bool_decide_eq_false_2 in Hf by done.
      rewrite (M_bind_Ret _ _ _ _ _ (error_exact (i, e) s3 Hf)). erewrite M_bind_Ret by reflexivity.
      assert (stream_chunk_sent s2 = false) as Hs2 by (unfold ctl in *; simpl in *; congruence).
      by rewrite Hss, Hs2, Hlast.
  - exists i, e, w. split_and!; try done.
    + rewrite O4, S3, D2 by done. exact P1.
    + rewrite L4, L3, L2, L1. unfold role_ledger. rewrite !List.filter_app. simpl. rewrite R1, R2. simpl.
      destruct (slot s3 ROLE_D); simpl; by rewrite !app_nil_r.
Qed.

(** *** The attempts after it *)

Context (Hgone : ∀ t, e_gone env t = false).

(** What a stuck attempt changes: a try of every retry is charged, nothing is sent to
    prefill. *)
Definition stuck_after (last : bool) (s s' : RS) : Prop :=
  (∀ r, slot s' r = slot s r) ∧ wants_retry s' = wants_retry s ∧ is_finished s' = last ∧
  r_posted s' = r_posted s ∧ r_sent s' = r_sent s ++ (if last then [ErrorChunk 503] else []) ∧
  Z.of_nat (length (role_ledger (r_ledger s') ROLE_P)) = Z.of_nat (length (role_ledger (r_ledger s) ROLE_P)) + max_retry cfg.

Lemma prefill_stuck {A} attempt (retry : A) on_error s s1 e :
  prepare_resource env cfg ROLE_P s = (s1, Raise e) → e ≠ CancelledError →
  prefill_half env cfg attempt retry on_error s =
    (if last_attempt cfg attempt then a ← on_error e; mret (inr a)
     else mmodify (λ s, set_finished s false) ;; mret (inr retry)) s1.
Proof.
  intros E He. unfold prefill_half. unfold mbind at 1, M_bind at 1.
  erewrite mexcept_Raise; [|by rewrite (M_bind_Raise _ _ _ _ _ E)|done].
  destruct (last_attempt cfg attempt); [|done]. cbn [negb]. unfold mbind, M_bind.
  destruct (on_error e s1) as [s2 [a|e2]]; done.
Qed.

Lemma role_ledger_only l r : Forall (λ c, ch_role c = r) l → role_ledger l r = l.
Proof.
  intros H. unfold role_ledger. induction H as [|c' l' Hc' _ IH]; [done|]. simpl.
  rewrite bool_decide_eq_true_2 by done. by rewrite IH.
Qed.

Lemma stuck_attempt attempt s w :
  slot s ROLE_P = Some w →
  ∃ s', process_single_attempt json_loads json_encode json_dumps_len env cfg attempt s = (s', Ret tt) ∧
    stuck_after (last_attempt cfg attempt) s s'.
Proof.
  intros Hs. destruct (prepare_stuck ROLE_P s w Hs) as (s1 & E & Hc & Hsl & l & Hl & Hlen & Hall).
  pose proof (role_ledger_only l ROLE_P Hall) as Hrl.
  assert (Z.of_nat (length (role_ledger (r_ledger s1) ROLE_P)) =
          Z.of_nat (length (role_ledger (r_ledger s) ROLE_P)) + max_retry cfg) as Hlen'.
  { rewrite Hl. unfold role_ledger at 1. rewrite List.filter_app. fold (role_ledger (r_ledger s) ROLE_P) (role_ledger l ROLE_P).
    rewrite Hrl, length_app. lia. }
  unfold process_single_attempt. unfold mbind at 1, M_bind at 1. rewrite (prefill_stuck attempt tt _ s s1 _ E) by done.
  assert (r_sent s1 = r_sent s ∧ r_posted s1 = r_posted s ∧ wants_retry s1 = wants_retry s) as (Hse & Hpo & Hwa)
    by (unfold ctl in Hc; split_and!; congruence).
  destruct (last_attempt cfg attempt).
  - assert (stream_failed env (HTTPException 503) s1 = (set_finished (tick (add_sent s1 (ErrorChunk 503))) true, Ret tt)) as Ef.
    { unfold stream_failed, yield. erewrite M_bind_Ret; [reflexivity|]. erewrite M_bind_Ret by reflexivity.
      erewrite M_bind_Ret by reflexivity. by rewrite Hgone. }
    rewrite (M_bind_Ret _ _ _ _ _ Ef). eexists. split; [reflexivity|]. unfold stuck_after. simpl. rewrite Hse. by split_and!.
  - eexists. split; [reflexivity|]. unfold stuck_after. simpl. rewrite app_nil_r. by split_and!.
Qed.
(** One turn of the loop, from the attempt's end. *)
Definition turn_start (s : RS) : RS := set_wants (set_stream_sent (set_first s false) false) false.
Abbreviation attempt_of := (process_single_attempt json_loads json_encode json_dumps_len env cfg).

Definition bumped (s : RS) : RS := if wants_retry s then set_req s (bump_req_id_after_recompute_prepare (r_req s)) else s.

Lemma while_step fuel attempt s :
  stream_while json_loads json_encode json_dumps_len env cfg (S fuel) attempt s =
    match attempt_of attempt (turn_start s) with
    | (s1, Ret _) =>
        if is_finished s1 then (bumped s1, Ret Done)
        else if wants_retry s1 then stream_while json_loads json_encode json_dumps_len env cfg fuel attempt (bumped s1)
        else (s1, Ret NextAttempt)
    | (s1, Raise DecodeTransportRetry) => (bumped s1, Ret (if is_finished s1 then Done else NextAttempt))
    | (s1, Raise e) => (s1, Raise e)
    end.
Proof.
  cbn [stream_while]. erewrite M_bind_Ret by reflexivity. cbn [fst mmodify]. fold (turn_start s).
  unfold mbind at 1, M_bind at 1. destruct (attempt_of attempt (turn_start s)) as [s1 [u|e]].
  - erewrite M_bind_Ret by reflexivity. unfold bumped, bump_req_id.
    destruct (wants_retry s1) eqn:Ew; erewrite M_bind_Ret by reflexivity; erewrite M_bind_Ret by reflexivity.
    + cbn [fst mmodify is_finished set_req wants_retry]. rewrite Ew. by destruct (is_finished s1).
    + rewrite Ew. by destruct (is_finished s1).
  - destruct e; try reflexivity. erewrite M_bind_Ret by reflexivity. unfold bumped, bump_req_id.
    destruct (wants_retry s1) eqn:Ew; erewrite M_bind_Ret by reflexivity; erewrite M_bind_Ret by reflexivity;
      cbn [fst mmodify is_finished set_req]; by destruct (is_finished s1).
Qed.

Lemma while_ret fuel attempt s s' :
  attempt_of attempt (turn_start s) = (s', Ret tt) → wants_retry s' = false →
  stream_while json_loads json_encode json_dumps_len env cfg (S fuel) attempt s =
    (s', Ret (if is_finished s' then Done else NextAttempt)).
Proof. intros E Hw. rewrite while_step, E. unfold bumped. rewrite Hw. by destruct (is_finished s'). Qed.

Lemma while_transport fuel attempt s s' :
  attempt_of attempt (turn_start s) = (s', Raise DecodeTransportRetry) → wants_retry s' = false → is_finished s' = false →
  stream_while json_loads json_encode json_dumps_len env cfg (S fuel) attempt s = (s', Ret NextAttempt).
Proof. intros E Hw Hf. rewrite while_step, E. unfold bumped. by rewrite Hw, Hf. Qed.

Lemma stuck_for fuel w n : ∀ attempt s,
  slot s ROLE_P = Some w → attempt + Z.of_nat (S n) = transport_retry_limit cfg →
  ∃ s', stream_for json_loads json_encode json_dumps_len env cfg (S fuel) (S n) attempt s = (s', Ret Done) ∧
    slot s' ROLE_P = Some w ∧ r_posted s' = r_posted s ∧ r_sent s' = r_sent s ++ [ErrorChunk 503] ∧
    Z.of_nat (length (role_ledger (r_ledger s') ROLE_P)) =
      Z.of_nat (length (role_ledger (r_ledger s) ROLE_P)) + Z.of_nat (S n) * max_retry cfg.
Proof.
  induction n as [|n IH]; intros attempt s Hs Hn; cbn [stream_for].
  all: destruct (stuck_attempt attempt (turn_start s) w Hs) as (s1 & E & Hsl & Hw & Hf & Hpo & Hse & Hlen).
  all: rewrite (M_bind_Ret _ _ _ _ _ (while_ret fuel attempt s s1 E Hw)), Hf.
  - assert (last_attempt cfg attempt = true) as Hl by (unfold last_attempt; lia). rewrite Hl in *. cbv beta iota.
    exists s1. split; [done|]. split; [by rewrite Hsl|]. split; [done|]. split; [done|].
    change (r_ledger (turn_start s)) with (r_ledger s) in Hlen. lia.
  - assert (last_attempt cfg attempt = false) as Hl by (unfold last_attempt; lia). rewrite Hl in *. cbv beta iota.
    destruct (IH (attempt + 1) s1) as (s' & E' & Hs' & Hpo' & Hse' & Hlen'); [by rewrite Hsl|lia|].
    exists s'. split; [exact E'|]. split; [done|]. rewrite Hpo', Hse', Hpo, Hse, app_nil_r. split; [done|]. split; [done|].
    change (r_ledger (turn_start s)) with (r_ledger s) in Hlen. lia.
Qed.
End exact.

(** ** Properties *)

(** Every request to prefill is answered with a JSON object. *)
Definition posts_answered (env : REnv) : Prop := ∀ t, ∃ d, e_post env t = Ret (JObj d).

(** A new request with a prompt. *)
Definition new_request (s : RS) : Prop :=
  (∀ r, slot s r = None) ∧ is_finished s = false ∧ ∃ p, dget (req_data (r_req s)) PROMPT = Some p.

(** C24: a decode stream that breaks inside its first frame leaks the prefill KV cache and
    fails the request.  When the scheduler always finds instances and every refund is
    applied, but the decode connection breaks after some bytes and before the first
    complete frame, the router neither frees the KV cache (a byte has arrived) nor tells
    the client that the stream failed (nothing was sent): it goes to the next transport
    attempt under the same request id, where the record left of the first prefill
    allocation refuses every new one after the scheduler has charged it.  The client
    gets a single 503, no further prefill request is sent, and the scheduler is left
    with the KV cache of the first attempt and with all [max_retry] charges of each
    later attempt. *)
Theorem partial_frame_leaks json_loads json_encode json_dumps_len env cfg c st fuel s :
  allocates env → refunds env → posts_answered env → (∀ t, e_gone env t = false) → 1 <= max_retry cfg →
  2 <= transport_retry_limit cfg → c ≠ ""%string → frame_end (chars c) = None →
  (∀ t, e_stream env t = mkStream [c] (Some (TransportError st))) → new_request s →
  ∃ s' w, generate_stream json_loads json_encode json_dumps_len env cfg (S fuel) s = (s', Ret Done) ∧
    r_sent s' = r_sent s ++ [ErrorChunk 503] ∧
    fle (active_kv_cache w) f0 = false ∧ slot s' ROLE_P = Some w ∧
    Z.of_nat (length (role_ledger (r_ledger s') ROLE_P)) =
      Z.of_nat (length (role_ledger (r_ledger s) ROLE_P)) + 2 + (transport_retry_limit cfg - 1) * max_retry cfg.
Proof.
  intros Hal Hre Hpost Hgone Hmax Ht Hc Hframe Hst (Hslot & Hfin & p & Hp).
  assert (∀ t, e_stream env t = mkStream (if decide (c = ""%string) then [] else [c]) (Some (TransportError st))) as Hst'
    by (intros t; by rewrite decide_False).
  assert (if decide (c = ""%string) then TransportError st = CancelledError else ∃ st', TransportError st = TransportError st') as Hb
    by (rewrite decide_False by done; eauto).
  destruct (attempt_exact env cfg Hal Hre Hmax Hpost json_loads json_encode json_dumps_len c (TransportError st) Hframe Hst' Hb
    0 (turn_start s) p) as (s1 & E & Ha & i & e & w & Hr & Hw & Hkv & Hsl & Hl); [unfold last_attempt; lia|done|apply Hslot|apply Hslot|done|].
  unfold attempt_end in E. rewrite decide_False in E by done. destruct Ha as (_ & Hwa & _ & Hfi & _ & Hse & _).
  destruct (Z.to_nat (transport_retry_limit cfg)) as [|[|n]] eqn:En; [lia|lia|].
  destruct (stuck_for env cfg Hal Hmax json_loads json_encode json_dumps_len Hgone fuel _ n 1 s1 Hsl)
    as (s' & E' & Hs' & _ & Hse' & Hlen); [lia|].
  exists s', (mkWorkload (active_kv_cache w) f0). split; [|split_and!; try done].
  - unfold generate_stream. rewrite En. cbn [stream_for].
    erewrite M_bind_Ret; [|apply (while_transport env cfg json_loads json_encode json_dumps_len fuel 0 s s1 E); [by rewrite Hwa|by rewrite Hfi]].
    exact E'.
  - by rewrite Hse', Hse.
  - change (r_ledger (turn_start s)) with (r_ledger s) in Hl. rewrite Hlen, Hl, length_app. simpl length. lia.
Qed.

(** A client that goes away between the end of prefill and the first decoded byte
    leaves the prefill KV cache charged.  A cancelled task skips every [except
    Exception]; the [finally] blocks give back the decode tokens, and the prefill
    tokens were given back at the end of prefill, so the request ends with its KV cache
    charged to the prefill instance and recorded in the request manager. *)
Theorem cancelled_stream_leaks json_loads json_encode json_dumps_len env cfg fuel s :
  allocates env → refunds env → posts_answered env → 1 <= max_retry cfg → 2 <= transport_retry_limit cfg →
  (∀ t, e_stream env t = mkStream [] (Some CancelledError)) → new_request s →
  ∃ s' i e w, generate_stream json_loads json_encode json_dumps_len env cfg (S fuel) s = (s', Raise CancelledError) ∧
    r_sent s' = r_sent s ∧ fle (active_kv_cache w) f0 = false ∧ slot s' ROLE_P = Some (mkWorkload (active_kv_cache w) f0) ∧
    role_ledger (r_ledger s') ROLE_P = role_ledger (r_ledger s) ROLE_P ++
      [charge_of (i, e, w); mkCharge ROLE_P (ins_id i) (ep_id e) (mkWorkload f0 (fopp (active_tokens w)))].
Proof.
  intros Hal Hre Hpost Hmax Ht Hst (Hslot & Hfin & p & Hp).
  destruct (attempt_exact env cfg Hal Hre Hmax Hpost json_loads json_encode json_dumps_len "" CancelledError eq_refl Hst eq_refl
    0 (turn_start s) p) as (s1 & E & Ha & i & e & w & Hr & Hw & Hkv & Hsl & Hl); [unfold last_attempt; lia|done|apply Hslot|apply Hslot|done|].
  exists s1, i, e, w. split; [|split_and!; try done; apply Ha].
  unfold generate_stream. destruct (Z.to_nat (transport_retry_limit cfg)) as [|n] eqn:En; [lia|]. cbn [stream_for].
  erewrite M_bind_Raise; [done|]. cbn [stream_while]. erewrite M_bind_Ret by reflexivity. cbn [fst mmodify].
  fold (turn_start s). erewrite M_bind_Raise; [done|]. by rewrite E.
Qed.

(** *** Samples *)

Lemma sample_allocates st : allocates (sample_env st).
Proof.
  intros t rl. pose proof (sample_allocation rl) as (H1 & H2 & H3). eexists _, _, _.
  split; [reflexivity|]. split_and!; [by destruct rl|done..].
Qed.
Lemma sample_refunds st : refunds (sample_env st).
Proof. done. Qed.
Lemma sample_answered st : posts_answered (sample_env st).
Proof. intros t. by exists []. Qed.
Lemma sample_new : new_request sample_rs.
Proof. split; [by intros []|]. split; [done|]. by eexists. Qed.

Lemma partial_frame_leaks_witness : ∃ s' w,
  generate_stream sample_loads sample_encode (λ _, 0) (sample_env (λ _, mkStream ["data: A"] (Some (TransportError None)))) sample_cfg 1
    sample_rs = (s', Ret Done) ∧
  r_sent s' = [ErrorChunk 503] ∧ fle (active_kv_cache w) f0 = false ∧ slot s' ROLE_P = Some w ∧
  Z.of_nat (length (role_ledger (r_ledger s') ROLE_P)) = 5.
Proof.
  exact (partial_frame_leaks sample_loads sample_encode (λ _, 0) (sample_env (λ _, mkStream ["data: A"] (Some (TransportError None))))
    sample_cfg "data: A" None 0 sample_rs (sample_allocates _) (sample_refunds _) (sample_answered _) (λ _, eq_refl)
    ltac:(vm_compute; discriminate) ltac:(vm_compute; discriminate) ltac:(discriminate) ltac:(vm_compute; reflexivity)
    (λ _, eq_refl) sample_new).
Defined.

Lemma cancelled_stream_leaks_witness : ∃ s' i e w,
  generate_stream sample_loads sample_encode (λ _, 0) (sample_env (λ _, mkStream [] (Some CancelledError))) sample_cfg 1
    sample_rs = (s', Raise CancelledError) ∧
  r_sent s' = [] ∧ fle (active_kv_cache w) f0 = false ∧ slot s' ROLE_P = Some (mkWorkload (active_kv_cache w) f0) ∧
  role_ledger (r_ledger s') ROLE_P =
    [charge_of (i, e, w); mkCharge ROLE_P (ins_id i) (ep_id e) (mkWorkload f0 (fopp (active_tokens w)))].
Proof.
  exact (cancelled_stream_leaks sample_loads sample_encode (λ _, 0) (sample_env (λ _, mkStream [] (Some CancelledError)))
    sample_cfg 0 sample_rs (sample_allocates _) (sample_refunds _) (sample_answered _)
    ltac:(vm_compute; discriminate) ltac:(vm_compute; discriminate) (λ _, eq_refl) sample_new).
Defined.
