(* ===== verification/RouterTermination.v ===== *)
(** * Which requests end

    A streamed request ends after a bounded number of requests to the engines whatever
    the environment answers; a request without streaming need not. *)

From stdpp Require Import base option list strings pretty sets.
From Stdlib Require Import ZArith Lia Ascii.
From S2P Require Import Prelude Float64 PyText Resources RequestManager Recompute Router RouterLedger RouterFailures.
Open Scope Z_scope.

Section bounds.
Context (json_loads : string → option json) (json_encode : json → string) (json_dumps_len : json → Z).
Context (env : REnv) (cfg : ExceptionConfig).

(** ** The retry flag, the retry count, the number of requests sent and the end *)

Definition view (s : RS) : bool * Z * nat * bool := (wants_retry s, retry_count s, length (r_posted s), is_finished s).

(** Steps that leave these alone. *)
Abbreviation still := (unchanged view).

Lemma still_ask {A} (f : nat → A) : still (ask f).
Proof. by intros s. Qed.
#[local] Hint Resolve still_ask : unchanged.

Lemma still_state st : still (set_state env st). Proof. unfold set_state. unchanged. Qed.
#[local] Hint Resolve still_state : unchanged.
Lemma still_yield x : still (yield env x). Proof. unfold yield. unchanged. Qed.
#[local] Hint Resolve still_yield : unchanged.
Lemma still_once rl : still (prepare_once env rl).
Proof. unfold prepare_once. unchanged. Qed.
#[local] Hint Resolve still_once : unchanged.
Lemma still_prepare rl : still (prepare_resource env cfg rl).
Proof.
  unfold prepare_resource. apply unchanged_bind; [apply still_state|]. intros u.
  induction (Z.to_nat (max_retry cfg)) as [|n IH]; simpl.
  - unchanged.
  - apply unchanged_except; [apply still_once|by intros e].
Qed.
#[local] Hint Resolve still_prepare : unchanged.
Lemma still_update res a : still (update_workload env res a).
Proof. unfold update_workload. unchanged. Qed.
#[local] Hint Resolve still_update : unchanged.
Lemma still_release res a : still (ignore (update_workload env res a)).
Proof. unfold ignore. unchanged. Qed.
#[local] Hint Resolve still_release : unchanged.
Lemma still_release_all res : still (ignore (release_all env res)).
Proof. unfold ignore, release_all. unchanged. Qed.
#[local] Hint Resolve still_release_all : unchanged.
Lemma still_stream_error pres : still (handle_stream_error env pres).
Proof. unfold handle_stream_error. unchanged. Qed.
#[local] Hint Resolve still_stream_error : unchanged.

(** ** One attempt *)

Definition flags (w : bool) (n : Z) (k : nat) (v : bool * Z * nat * bool) : Prop := v.1.1.1 = w ∧ v.1.1.2 = n ∧ (v.1.2 <= k)%nat.
Abbreviation at_ w n k := (λ s : RS, flags w n k (view s)).

(** An attempt raises the count by one when recomputation was prepared, below the
    limit. *)
Definition after (n : Z) (k : nat) (v : bool * Z * nat * bool) : Prop :=
  flags false n k v ∨ flags true n k v ∨ (flags true (n + 1) k v ∧ n < recompute_retry_limit cfg).

Lemma flags_after w n k v : flags w n k v → after n k v.
Proof. destruct w; intros H; [right; left|left]; done. Qed.
Lemma flags_mono w n k k' v : (k <= k')%nat → flags w n k v → flags w n k' v.
Proof. intros H (? & ? & ?). split_and!; [done|done|lia]. Qed.

(** A step that leaves the flags alone, then the rest. *)
Lemma triple_still {A B} (m : M RS A) (k : A → M RS B) G Q E :
  still m → (∀ a, triple (λ s, G (view s)) (k a) Q E) → (∀ e s, G (view s) → E e s) → triple (λ s, G (view s)) (m ≫= k) Q E.
Proof.
  intros Hm Hk He. eapply triple_bind; [|exact Hk]. eapply triple_conseq; [by apply (unchanged_triple view G)|done|done|intros e s; apply He].
Qed.

Lemma recomputation_flags d i pres b n k :
  triple (at_ false n k) (handle_recomputation json_dumps_len env cfg d i pres b)
    (λ _ s, flags true (n + 1) k (view s) ∧ n < recompute_retry_limit cfg) (λ _ s, after n k (view s)).
Proof.
  unfold handle_recomputation. apply triple_state. intros s0 Hs0. apply triple_get. intros s ->.
  destruct Hs0 as (Hw & Hn & Hk). simpl in Hw, Hn, Hk.
  unfold check_recompute_limit. destruct (recompute_limit_reached _ _) eqn:El.
  { intros s' ->. left. by split_and!. }
  unfold recompute_limit_reached in El. rewrite Hn in El. assert (n < recompute_retry_limit cfg) as Hlt by lia. clear El.
  apply (triple_conseq _ _ (at_ false n k) _ (λ _, at_ true (n + 1) k) _ (λ _, at_ true n k));
    [|by intros s' ->; split_and!|by intros a s' Hs'|by intros e s' Hs'; eapply flags_after].
  eapply (triple_bind _ _ _ (λ _, at_ false n k)); [by apply triple_ret|]. intros _.
  eapply (triple_bind _ _ _ (λ _, at_ true n k)). { apply triple_modify. intros s (_ & ? & ?). by split_and!. } intros _.
  apply triple_still; [apply still_state| |done]. intros _.
  apply triple_still; [unchanged| |done]. intros _.
  apply triple_still; [|intros _|done].
  - unfold prepare_recompute_retry. destruct (negb _); [unchanged|]. intros s. by destruct (prepare_retry_request _ _ _) as [t r].
  - apply triple_modify. intros s (Hw' & Hn' & Hk'). simpl in *. split_and!; simpl; [done|lia|done].
Qed.

(** The loop over the chunks. *)
Definition loop_flags {L} (n : Z) (k : nat) (o : option L) (s : RS) : Prop :=
  match o with
  | Some _ => flags false n k (view s)
  | None => flags true (n + 1) k (view s) ∧ n < recompute_retry_limit cfg
  end.
Abbreviation raised_flags n k := (λ (_ : pyexn) (s : RS), after n k (view s)).

Lemma chunk_flags d pres chunk l n k :
  triple (at_ false n k) (on_decode_chunk json_loads json_encode json_dumps_len env cfg d pres chunk l)
    (loop_flags n k) (raised_flags n k).
Proof.
  assert (∀ (e : pyexn) s, flags false n k (view s) → after n k (view s)) as He by (intros e s; apply flags_after).
  unfold on_decode_chunk. apply triple_still; [|intros _|exact He].
  { unchanged. }
  apply triple_get. intros s Hs. apply (triple_conseq _ _ (at_ false n k) _ (loop_flags n k) _ (raised_flags n k)); [|by intros s' ->|done|done].
  apply triple_still; [unchanged| |exact He]. intros [[i rs] [out|]].
  - apply triple_still; [unchanged| |exact He]. intros u. by apply triple_ret.
  - destruct (recompute_blocked i). { apply triple_raise. intros s'. by apply flags_after. }
    eapply triple_bind; [apply recomputation_flags|]. intros u. by apply triple_ret.
Qed.

Lemma frames_flags {L} (body : string → L → M RS (option L)) n k :
  (∀ f l, triple (at_ false n k) (body f l) (loop_flags n k) (raised_flags n k)) →
  ∀ frames l, triple (at_ false n k) (each_frame body frames l) (loop_flags n k) (raised_flags n k).
Proof.
  intros Hb. induction frames as [|f frames IH]; intros l; [by apply triple_ret|]. simpl.
  eapply triple_bind; [apply Hb|]. intros [l'|]; [apply IH|by apply triple_ret].
Qed.

Lemma chunks_flags {L} (body : string → L → M RS (option L)) n k :
  (∀ f l, triple (at_ false n k) (body f l) (loop_flags n k) (raised_flags n k)) →
  ∀ chunks ending pending l, triple (at_ false n k) (each_chunk env body chunks ending pending l) (loop_flags n k) (raised_flags n k).
Proof.
  intros Hb. induction chunks as [|c chunks IH]; intros ending pending l; simpl.
  - destruct ending. { apply triple_raise. intros s. apply flags_after. }
    case_decide; [by apply triple_ret|apply Hb].
  - apply triple_get. intros s Hs. apply (triple_conseq _ _ (at_ false n k) _ (loop_flags n k) _ (raised_flags n k)); [|by intros s' ->|done|done].
    apply triple_still; [|intros _|by intros e s'; apply flags_after].
    { unchanged. }
    destruct (cut _) as [frames pending']. eapply triple_bind; [by apply frames_flags|].
    intros [l'|]; [apply IH|by apply triple_ret].
Qed.

(** An attempt that ended without an exception: recomputation was prepared or not. *)
Definition went (n : Z) (k : nat) (s : RS) : Prop :=
  flags false n k (view s) ∨ flags true (n + 1) k (view s) ∧ n < recompute_retry_limit cfg.
Lemma went_after n k s : went n k s → after n k (view s).
Proof. intros [?|?]; [left|right; right]; done. Qed.

Lemma post_flags w n k (f : RS → RS) E :
  (∀ s, ∃ d, view (f s) = view (add_post s d)) → triple (at_ w n k) (mmodify f) (λ _, at_ w n (S k)) E.
Proof.
  intros Hf. apply triple_modify. intros s (Hw & Hn & Hk). destruct (Hf s) as [d ->]. unfold view in *. simpl in *.
  rewrite length_app. simpl. split_and!; simpl; [done|done|lia].
Qed.

Lemma decode_flags resp pres n k :
  triple (at_ false n k) (forward_d_request json_loads json_encode json_dumps_len env cfg resp pres)
    (λ _, went n (S k)) (raised_flags n (S k)).
Proof.
  assert (∀ e s, flags false n k (view s) → raised_flags n (S k) e s) as He.
  { intros e s Hs. eapply flags_after, flags_mono; [|exact Hs]. lia. }
  unfold forward_d_request. eapply (triple_except _ _ _ _ _ (raised_flags n (S k))); [|done|].
  - unfold gen_d_request. apply triple_still; [unchanged| |exact He]. intros d. apply triple_still; [unchanged| |exact He]. intros i.
    eapply (triple_bind _ _ _ (λ _, went n (S k))).
    + unfold process_stream_chunks, ignore, forward_stream_request, forward_stream_at.
      eapply (triple_bind _ _ _ (λ o, loop_flags n (S k) o)).
      * eapply (triple_bind _ _ _ (λ _, at_ false n (S k))).
        { apply post_flags. intros s. by eexists. }
        intros _. apply triple_still; [unchanged|intros _|by intros e s; apply flags_after].
        apply triple_still; [unchanged|intros r; apply chunks_flags; intros f l; apply chunk_flags|by intros e s; apply flags_after].
      * intros [l|]; apply triple_ret; intros s Hs; [by left|by right].
    + intros _. apply triple_get. intros s Hs. destruct (wants_retry s) eqn:Ew; simpl.
      * apply triple_ret. by intros s' ->.
      * destruct Hs as [Hs|[(Hw & _) _]]; [|simpl in Hw; congruence].
        eapply triple_conseq; [apply (unchanged_triple view (flags false n (S k))), still_state|by intros s' ->|by intros u s' H; left|by intros e s' H; apply (flags_after false)].
  - intros e _. eapply (triple_bind _ _ _ (λ _ s, after n (S k) (view s))).
    + apply unchanged_triple, still_stream_error.
    + intros _. by apply triple_raise.
Qed.
Lemma failed_flags e G :
  (∀ w n k b b', G (w, n, k, b) → G (w, n, k, b')) →
  triple (λ s, G (view s)) (stream_failed env e) (λ _ s, is_finished s = true ∧ G (view s)) (λ _ s, G (view s)).
Proof.
  intros HG. unfold stream_failed. apply triple_still; [unchanged| |done]. intros u. apply triple_modify.
  intros s Hs. split; [done|]. exact (HG _ _ _ _ _ Hs).
Qed.

Lemma prefill_flags {A} attempt (retry : A) on_error n k :
  (∀ e k, triple (at_ false n k) (on_error e) (λ _, at_ false n k) (λ _, at_ false n k)) →
  triple (at_ false n k) (prefill_half env cfg attempt retry on_error) (λ _, at_ false n (S k)) (λ _, at_ false n (S k)).
Proof.
  intros Hon. assert (∀ s, flags false n k (view s) → flags false n (S k) (view s)) as Hup by (intros s; apply flags_mono; lia).
  unfold prefill_half. cbv zeta.
  set (failed := λ e : pyexn, if negb (last_attempt cfg attempt) then mmodify (λ s, set_finished s false) ;; mret (inr retry)
                   else a ← on_error e; mret (inr a) : M RS ((Instance * Endpoint) * json + A)).
  assert (∀ k e, triple (at_ false n k) (failed e) (λ _, at_ false n k) (λ _, at_ false n k)) as Hf.
  { intros k' e. unfold failed. destruct (negb _).
    - eapply (triple_bind _ _ _ (λ _, at_ false n k')); [by apply triple_modify|]. intros _. by apply triple_ret.
    - eapply triple_bind; [apply Hon|]. intros a. by apply triple_ret. }
  assert (triple (at_ false n k) (mexcept (r ← prepare_resource env cfg ROLE_P; mret (inl r)) (λ e, a ← failed e; mret (inr a)))
    (λ _, at_ false n k) (λ _, at_ false n k)) as Hp.
  { eapply triple_except; [apply unchanged_triple; unchanged|done|]. intros e _. eapply triple_bind; [apply Hf|]. intros a. by apply triple_ret. }
  eapply triple_bind; [eapply triple_conseq; [exact Hp|done|intros r s H; exact H|intros e s; apply Hup]|].
  intros [pres|a]; [|apply triple_ret; intros s; apply Hup].
  assert (still (s ← mget; if decide (state (r_req s) = PREFILL_END) then mret tt else ignore (release_all env pres))) as Hfin by unchanged.
  apply (triple_finally _ _ _ _ (λ _, at_ false n (S k)) _ (λ _, at_ false n (S k)));
    [|intros a; exact (unchanged_triple view _ _ Hfin)|intros e; exact (unchanged_triple view _ _ Hfin)].
  apply (triple_except _ _ _ _ _ (λ _, at_ false n (S k))); [|done|intros e _; apply Hf].
  eapply (triple_bind _ _ _ (λ _, at_ false n (S k))); [|intros p; by apply triple_ret].
  unfold forward_p_request, forward_request, forward_request_at. apply triple_get. intros s0 Hs0.
  eapply triple_conseq with (P' := at_ false n k); [|by intros s ->|intros a s H; exact H|intros e s H; exact H].
  eapply (triple_bind _ _ _ (λ _, at_ false n (S k))).
  - eapply (triple_bind _ _ _ (λ _, at_ false n (S k))); [apply post_flags; intros s; by eexists|]. intros u. apply unchanged_triple. unchanged.
  - intros p. apply unchanged_triple. unchanged.
Qed.
Lemma after_any n k w w' v b b' : after n k (w, v, w', b) → after n k (w, v, w', b').
Proof. done. Qed.

(** How an attempt can end without an exception. *)
Definition ended (n : Z) (k : nat) (s : RS) : Prop := (is_finished s = true ∧ after n k (view s)) ∨ went n k s.

Lemma decode_failed_flags attempt pres e n k :
  triple (λ s, after n k (view s)) (decode_failed env cfg attempt pres e) (λ _, ended n k) (raised_flags n k).
Proof.
  assert (∀ e, triple (λ s, after n k (view s)) (stream_failed env e) (λ _, ended n k) (raised_flags n k)) as Hs.
  { intros e'. eapply triple_conseq; [by apply (failed_flags e' (after n k))|done|intros u s H; by left|done]. }
  unfold decode_failed.
  destruct e; (apply triple_still; [unchanged| |done]); intros u; try apply Hs;
    (apply triple_read; intros s0; destruct (_ || _); [apply Hs|by apply triple_raise]).
Qed.

Lemma attempt_flags attempt n k :
  triple (at_ false n k) (process_single_attempt json_loads json_encode json_dumps_len env cfg attempt)
    (λ _, ended n (S (S k))) (raised_flags n (S (S k))).
Proof.
  unfold process_single_attempt.
  assert (∀ s, flags false n (S k) (view s) → after n (S (S k)) (view s)) as Hup.
  { intros s H. eapply flags_after, flags_mono; [|exact H]. lia. }
  eapply triple_bind.
  { eapply triple_conseq; [apply (prefill_flags attempt tt (stream_failed env) n k)|done|intros r s H; exact H|intros e s; apply Hup].
    intros e k'. eapply triple_conseq; [by apply (failed_flags e (flags false n k'))|done|by intros u s [_ H]|done]. }
  intros [[pres p]|u]. 2: { apply triple_ret. intros s H. right. left. eapply flags_mono; [|exact H]. lia. }
  eapply (triple_bind _ _ _ (λ r s, match r with Some _ => flags false n (S k) (view s) | None => ended n (S (S k)) s end)).
  { eapply (triple_except _ _ _ _ _ (λ _, at_ false n (S k))); [|intros s; apply Hup|].
    - eapply triple_bind; [apply unchanged_triple; unchanged|]. intros dres. by apply triple_ret.
    - intros e _. eapply triple_bind; [eapply triple_conseq; [apply (decode_failed_flags attempt pres e n (S (S k)))|exact Hup|
        intros u s H; exact H|done]|]. intros u. by apply triple_ret. }
  intros [dres|]; [|by apply triple_ret].
  apply (triple_finally _ _ _ _ (λ _, ended n (S (S k))) _ (raised_flags n (S (S k)))).
  - eapply (triple_except _ _ _ _ _ (raised_flags n (S (S k)))); [|done|intros e _; apply decode_failed_flags].
    eapply triple_bind; [apply decode_flags|]. intros u. apply triple_get. intros s Hs. destruct (negb (wants_retry s)) eqn:Ew.
    + intros s' ->. left. split; [done|]. apply (went_after _ _ _ Hs).
    + intros s' ->. by right.
  - intros u. eapply triple_conseq; [apply (unchanged_triple view (λ v, (v.2 = true ∧ after n (S (S k)) v) ∨
        flags false n (S (S k)) v ∨ flags true (n + 1) (S (S k)) v ∧ n < recompute_retry_limit cfg)); unchanged|done|done|].
    intros e s [[_ H]|H]; [done|by apply went_after].
  - intros e. apply unchanged_triple. unchanged.
Qed.

(** ** The loops *)

Abbreviation limit := (recompute_retry_limit cfg).
Abbreviation posts s := (Z.of_nat (length (r_posted s))).

(** Each turn sends at most two requests, and every turn but the last raises the
    count. *)
Definition counted (turns : Z) (s s' : RS) : Prop :=
  retry_count s <= retry_count s' <= Z.max (retry_count s) limit ∧
  posts s' <= posts s + 2 * (retry_count s' - retry_count s + turns).

Lemma while_bound fuel : ∀ attempt s,
  limit - retry_count s < Z.of_nat fuel → 0 < Z.of_nat fuel →
  let r := stream_while json_loads json_encode json_dumps_len env cfg fuel attempt s in
  counted 1 s r.1 ∧ r.2 ≠ Ret OutOfFuel.
Proof.
  induction fuel as [|fuel IH]; intros attempt s Hfuel Hpos; [lia|]. cbv zeta. rewrite while_step.
  pose proof (attempt_flags attempt (retry_count s) (length (r_posted s)) (turn_start s)) as H.
  assert (∀ s' w (k : Z) r, 0 <= k → flags w (retry_count s + k) (S (S (length (r_posted s)))) (view s') → k <= 1 →
    (k = 1 → retry_count s < limit) → view r = view s' → counted 1 s r) as Hc.
  { intros s' w k r Hk (_ & Hn & Hp) Hk1 Hlt Hv. unfold view in *. simpl in *. injection Hv as _ Hrc Hrp _. unfold counted.
    rewrite Hrc, Hrp. lia. }
  assert (∀ s' r, after (retry_count s) (S (S (length (r_posted s)))) (view s') → view r = view s' → counted 1 s r) as Hca.
  { intros s' r [Ha|[Ha|[Ha Hlt]]] Hv; [apply (Hc s' false 0 r)|apply (Hc s' true 0 r)|apply (Hc s' true 1 r)];
      rewrite ?Z.add_0_r; try done; lia. }
  assert (∀ s1, view (bumped s1) = view s1) as Hb by (intros s1; unfold bumped; by destruct (wants_retry s1)).
  specialize (H ltac:(by split_and!)).
  destruct (process_single_attempt _ _ _ _ _ _ (turn_start s)) as [s1 [u|e]].
  - destruct H as [[Hf Ha]|Hw]; [rewrite Hf; split; [apply (Hca s1); [done|done || apply Hb]|done]|].
    pose proof (went_after _ _ _ Hw) as Ha. destruct (is_finished s1); [split; [apply (Hca s1); [done|done || apply Hb]|done]|].
    destruct (wants_retry s1) eqn:Ew; [|split; [apply (Hca s1); [done|done || apply Hb]|done]].
    destruct Hw as [(Hw & _)|[(_ & Hn & Hp) Hlt]]; [simpl in Hw; congruence|]. simpl in Hn, Hp.
    assert (retry_count (bumped s1) = retry_count s + 1 ∧ posts (bumped s1) <= posts s + 2) as [Hrc Hpo].
    { specialize (Hb s1). unfold view in Hb. injection Hb as _ -> -> _. lia. }
    destruct (IH attempt (bumped s1)) as [[H1 H2] H3]; [lia|lia|]. split; [|done]. unfold counted. lia.
  - destruct e; (split; [apply (Hca s1); done || apply Hb|done || by destruct (is_finished s1)]).
Qed.

Lemma for_bound fuel n : ∀ attempt s,
  limit - retry_count s < Z.of_nat fuel → 0 < Z.of_nat fuel →
  let r := stream_for json_loads json_encode json_dumps_len env cfg fuel n attempt s in
  counted (Z.of_nat n) s r.1 ∧ r.2 ≠ Ret OutOfFuel.
Proof.
  induction n as [|n IH]; intros attempt s Hfuel Hpos; cbn [stream_for]; cbv zeta; [split; [|done]; unfold counted; simpl; lia|].
  destruct (while_bound fuel attempt s Hfuel Hpos) as [[H1 H2] H3]. unfold mbind, M_bind.
  destruct (stream_while _ _ _ _ _ _ attempt s) as [s1 [[| |]|e]]; simpl in *; try done; try (split; [unfold counted; simpl; lia|done]).
  destruct (IH (attempt + 1) s1) as [[H4 H5] H6]; [lia|lia|]. split; [|done]. unfold counted. lia.
Qed.
End bounds.

(** ** A recomputation that can never be prepared *)

(** An answer of an engine that gives the request up with the tokens generated. *)
Definition gives_up (j : json) : Prop := ∃ text p0 ps o,
  j = JObj [(CHOICES, JList [JObj [(TEXT, JStr text); (stop_reason, JStr recomputed); (TOKEN_IDS, JList o)]]);
            (PROMPT_TOKEN_IDS, JList (p0 :: ps))].

(** A completion request that says [max_tokens: null], not yet recomputed. *)
Definition null_max_tokens (d : jdict) : Prop :=
  (∃ p, dget d PROMPT = Some p) ∧ dget d MAX_TOKENS = Some JNull ∧ dget d "n" = None ∧
  dget d ORIGIN_MAX_TOKENS_KEY = None ∧ dget d CUMULATIVE_COMPLETION_TOKENS_KEY = None.

Lemma null_d_body cfg s j : null_max_tokens (req_data (r_req s)) → null_max_tokens (d_body cfg s j).
Proof.
  intros ((p & Hp) & H1 & H2 & H3 & H4). unfold d_body.
  destruct (truthy _); (split; [exists p|]); rewrite !dget_dset_ne by done; done.
Qed.

Lemma info_exact d j :
  null_max_tokens d → gives_up j →
  ∃ i, build_request_info_for_nonstream_recompute d j = Ret i ∧ origin_max_tokens i = JNull ∧
    ∃ a b, recompute_kv_transfer i = Some (a, b).
Proof.
  intros ((p & Hp) & Hm & Hn & Ho & Hc) (text & p0 & ps & o & ->).
  unfold build_request_info_for_nonstream_recompute, extract_request_info, origin_prompt_for_recompute.
  rewrite Hp. unfold dget_or. rewrite Hm, Ho. eexists. split; [reflexivity|]. split; [reflexivity|]. eauto.
Qed.

Lemma dget_or_none d k v : dget d k = None → dget_or d k v = v.
Proof. unfold dget_or. by intros ->. Qed.

Lemma retry_exact json_dumps_len i d (r : Router.Req) a b :
  null_max_tokens d → origin_max_tokens i = JNull → recompute_kv_transfer i = Some (a, b) →
  ∃ d', prepare_retry_request json_dumps_len i (mkRetry d r) = (mkRetry d' r, Raise TypeError).
Proof.
  intros (_ & Hm & Hn & Ho & Hc) Hi Hk. unfold prepare_retry_request. rewrite Hk. erewrite M_bind_Ret by reflexivity.
  cbn [rt_data]. rewrite (dget_or_none d "n" _ Hn). erewrite M_bind_Ret by reflexivity.
  rewrite (dget_or_none _ _ _ Ho), Hi. rewrite (proj2 (dhas_false d _) Ho). change (negb (1 =? 1)) with false. cbv iota.
  erewrite M_bind_Ret by reflexivity. rewrite dget_or_none by (by rewrite dget_dset_ne).
  erewrite M_bind_Ret by reflexivity. erewrite M_bind_Ret by reflexivity. cbn [mmodify fst rt_req].
  eexists. reflexivity.
Qed.

Section endless.
Context (json_dumps_len : json → Z) (env : REnv) (cfg : ExceptionConfig).
Context (Hal : allocates env) (Hre : refunds env) (Hgone : ∀ t, e_gone env t = false) (Hmax : 1 <= max_retry cfg).
Context (Hup : ∀ t, ∃ j, e_post env t = Ret j ∧ gives_up j) (Hen : recompute_enabled cfg = true).

Lemma endless_posts t : ∃ d, e_post env t = Ret (JObj d).
Proof. destruct (Hup t) as (j & -> & text & p0 & ps & o & ->). by eexists. Qed.

Lemma endless_reliable : reliable env.
Proof.
  split; split.
  - intros t rl. destruct (Hal t rl) as (i & e & w & -> & Hr & Hw & Hd & _). done.
  - intros t. rewrite Hre. simpl. eauto.
  - intros t. destruct (endless_posts t) as [d ->]. done.
  - exact Hgone.
Qed.

(** The state a turn leaves, but for the request manager and the ledger. *)
Definition turned (n : nat) (s s' : RS) : Prop :=
  wants_retry s' = true ∧ retry_count s' = retry_count s ∧ is_finished s' = is_finished s ∧ first_chunk_sent s' = false ∧
  req_data (r_req s') = req_data (r_req s) ∧ req_id (r_req s') = req_id (r_req s) ∧
  length (r_posted s') = (length (r_posted s) + n)%nat.

Lemma fetch_exact d pres dres s :
  null_max_tokens d → normalize_role pres.1 = Some ROLE_P → normalize_role dres.1 = Some ROLE_D →
  retry_count s < recompute_retry_limit cfg → first_chunk_sent s = false →
  ∃ s', fetch_nonstream_decode_body json_dumps_len env cfg d pres dres s = (s', Raise TypeError) ∧ turned 1 s s' ∧
    slot s' ROLE_P = (slot s ROLE_P ≫= rest RELEASE_KV).
Proof.
  intros Hd Hp Hdr Hlt Hf. unfold fetch_nonstream_decode_body.
  set (s1 := tick (add_post s (copy_req_data_for_engine d))). destruct (Hup (r_tick s)) as (j & Hj & Hg).
  destruct (info_exact d j Hd Hg) as (i & Hi & Hnull & a & b & Hkv).
  set (s2 := set_req (tick (set_wants s1 true)) (update_state (e_now env (r_tick s1)) (r_req s1) RECOMPUTE)).
  destruct (ignore_exact env Hre pres RELEASE_KV s2 ROLE_P) as (s3 & E3 & C3 & _ & _ & S3 & _); [done|done|].
  destruct (retry_exact json_dumps_len i d (r_req s3) a b Hd Hnull Hkv) as [d' Er].
  set (s4 := set_req s3 (r_req s3)).
  destruct (ignore_exact env Hre dres RELEASE_TOKENS s4 ROLE_D) as (s5 & E5 & C5 & _ & O5 & _ & _); [done|done|].
  exists s5. split; [|split].
  - eapply mfinally_eq; [|exact E5]. unfold forward_request, forward_request_at.
    erewrite M_bind_Ret.
    2: { do 3 (erewrite M_bind_Ret by reflexivity). unfold mlift. simpl in Hj |- *. rewrite Hj. reflexivity. }
    fold s1. assert (is_recomputed_nonstream_response j = Ret true ∧ validate_nonstream_recompute_body j = Ret tt) as [H1 H2].
    { destruct Hg as (text & p0 & ps & o & ->). by destruct o. }
    erewrite M_bind_Ret; [|unfold mlift; by rewrite H1]. cbv iota. rewrite Hen. cbn [negb].
    erewrite M_bind_Ret by reflexivity. unfold check_recompute_limit, recompute_limit_reached.
    assert ((recompute_retry_limit cfg <=? retry_count s1) = false) as -> by (change (retry_count s1) with (retry_count s); lia).
    erewrite M_bind_Ret by reflexivity. erewrite M_bind_Ret by reflexivity. erewrite M_bind_Ret by reflexivity.
    erewrite M_bind_Ret; [|unfold mlift; by rewrite H2]. erewrite M_bind_Ret; [|unfold mlift; by rewrite Hi].
    rewrite (M_bind_Ret _ _ _ _ _ E3). erewrite M_bind_Raise; [reflexivity|].
    unfold prepare_recompute_retry. rewrite Hen. cbn [negb]. rewrite Er. reflexivity.
  - clear -C3 C5 Hf. unfold ctl in *. unfold turned. simpl in *. injection C5 as -> -> -> -> _ -> _ -> -> _ _ _.
    injection C3 as -> -> -> -> _ -> _ -> -> _ _ _. split_and!; try done. rewrite length_app. simpl. lia.
  - rewrite O5 by done. exact S3.
Qed.

Lemma endless_attempt attempt s :
  last_attempt cfg attempt = false → wants_retry s = false → first_chunk_sent s = false →
  (∀ r, slot s r = None) → null_max_tokens (req_data (r_req s)) → retry_count s < recompute_retry_limit cfg →
  ∃ s', nonstream_single_attempt json_dumps_len env cfg attempt s = (s', Ret None) ∧ turned 2 s s'.
Proof.
  intros Hlast Hw Hf Hs Hd Hlt.
  destruct (prefill_exact env cfg Hal Hre Hmax endless_posts attempt None nonstream_failed s (Hs ROLE_P))
    as (s1 & i & e & w & j & E1 & C1 & R1 & W1 & K1 & P1 & D1 & L1).
  destruct (prepare_exact env cfg Hal Hmax ROLE_D s1) as (s2 & i2 & e2 & w2 & E2 & C2 & R2 & W2 & _ & P2 & D2 & L2); [by rewrite D1|].
  assert (ctl s2 = ctl (add_post s (p_body s))) as C by congruence. clear C1 C2.
  assert (null_max_tokens (d_body cfg s2 j)) as Hd2.
  { apply null_d_body. unfold ctl in C. simpl in C. injection C as _ _ _ _ _ _ _ _ -> _ _ _. done. }
  destruct (fetch_exact (d_body cfg s2 j) (i, e) (i2, e2) s2) as (s3 & E3 & T3 & S3); [done|done|done| | |].
  { unfold ctl in C. simpl in C. injection C as _ _ -> _ _ _ _ _ _ _ _ _. done. }
  { unfold ctl in C. simpl in C. injection C as -> _ _ _ _ _ _ _ _ _ _ _. done. }
  rewrite D2, P1 in S3 by done. simpl in S3.
  destruct (ignore_exact env Hre (i, e) RELEASE_KV s3 ROLE_P) as (s4 & E4 & C4 & _); [done|done|].
  exists s4. split.
  - unfold nonstream_single_attempt. rewrite (M_bind_Ret _ _ _ _ _ E1). cbv beta iota.
    destruct T3 as (Tw & Tn & Tf & Tc & Td & Ti & Tp).
    erewrite mexcept_Raise.
    2: { rewrite (M_bind_Ret _ _ _ _ _ E2). erewrite M_bind_Ret; [|by apply mexcept_Ret, gen_d_exact].
         rewrite (M_bind_Raise _ _ _ _ _ E3). reflexivity. }
    2: done. cbv beta. assert (handle_stream_error env (i, e) s3 = (s4, Ret tt)) as Eh.
    { unfold handle_stream_error. erewrite M_bind_Ret by reflexivity. rewrite Tc. exact E4. }
    rewrite (M_bind_Ret _ _ _ _ _ Eh). erewrite M_bind_Ret by reflexivity.
    assert (first_chunk_sent s4 = false) as -> by (unfold ctl in C4; congruence). by rewrite Hlast.
  - clear -C C4 T3. destruct T3 as (Tw & Tn & Tf & Tc & Td & Ti & Tp). unfold ctl in *. unfold turned. simpl in *.
    injection C4 as -> -> -> -> _ -> _ -> -> _ _ _. rewrite Tn, Tf, Tc, Td, Ti, Tp.
    injection C as _ _ -> -> _ -> _ -> -> _ _ _. split_and!; try done. rewrite length_app. simpl. lia.
Qed.
Context (own : string → Prop) (own_bump : ∀ id, own id → own (modify_req_id_retry_segment id)).

Lemma endless_while attempt fuel : ∀ s,
  last_attempt cfg attempt = false → is_finished s = false → J own (hpd Free Free) s →
  null_max_tokens (req_data (r_req s)) → retry_count s < recompute_retry_limit cfg →
  ∃ s', nonstream_while json_dumps_len env cfg fuel attempt s = (s', Ret (inr OutOfFuel)) ∧
    retry_count s' = retry_count s ∧ length (r_posted s') = (length (r_posted s) + 2 * fuel)%nat.
Proof.
  induction fuel as [|fuel IH]; intros s Hlast Hfin HJ Hd Hlt.
  { exists s. split; [done|]. split; [done|lia]. }
  set (s0 := set_wants (set_first s false) false).
  assert (J own (hpd Free Free) s0) as HJ0 by (by apply (J_frame own _ s)).
  assert (∀ r, slot s0 r = None) as Hs0 by (intros r; destruct HJ0 as (_ & _ & Ha); specialize (Ha r); by destruct r; destruct Ha).
  destruct (endless_attempt attempt s0) as (s1 & E1 & Tw & Tn & Tf & Tc & Td & Ti & Tp); [done..|].
  pose proof (nonstream_attempt_J json_dumps_len env cfg own (proj1 endless_reliable) (proj2 endless_reliable) attempt s0) as HJ1.
  rewrite E1 in HJ1. specialize (HJ1 (conj HJ0 eq_refl)).
  pose proof (bump_J own own_bump Free (or_introl eq_refl) s1 HJ1) as HJ2. simpl in HJ2.
  destruct (IH (set_req s1 (bump_req_id_after_recompute_prepare (r_req s1)))) as (s' & E' & Hn' & Hp'); try done.
  { simpl. by rewrite Tf. }
  { simpl. by rewrite Td. }
  { simpl. by rewrite Tn. }
  exists s'. split; [|simpl in *; split; [congruence|lia]].
  cbn [nonstream_while]. erewrite M_bind_Ret by reflexivity. cbn [fst mmodify]. fold s0.
  rewrite (M_bind_Ret _ _ _ _ _ E1). cbv iota. erewrite M_bind_Ret by reflexivity. rewrite Tw, Tf.
  erewrite M_bind_Ret by reflexivity. change (is_finished s0) with (is_finished s). rewrite Hfin. exact E'.
Qed.
End endless.

(** ** Properties *)

(** C25: a streamed request always ends.  Whatever the scheduler, the engines, the
    network and the client do, the loops of [generate_stream] stop: with more fuel than
    the recomputations left they never run out, and the request is sent to prefill and
    decode engines at most [2 (transport_retry_limit + recompute_retry_limit)] times,
    counting the recomputations already made. *)
Theorem stream_terminates json_loads json_encode json_dumps_len env cfg fuel s :
  recompute_retry_limit cfg - retry_count s < Z.of_nat fuel → 0 < Z.of_nat fuel →
  let r := generate_stream json_loads json_encode json_dumps_len env cfg fuel s in
  r.2 ≠ Ret OutOfFuel ∧
  Z.of_nat (length (r_posted r.1)) <= Z.of_nat (length (r_posted s)) +
    2 * (Z.max 0 (transport_retry_limit cfg) + Z.max 0 (recompute_retry_limit cfg - retry_count s)) ∧
  retry_count s <= retry_count r.1 <= Z.max (retry_count s) (recompute_retry_limit cfg).
Proof.
  intros Hf Hp. destruct (for_bound json_loads json_encode json_dumps_len env cfg fuel
    (Z.to_nat (transport_retry_limit cfg)) 0 s Hf Hp) as [[H1 H2] H3].
  split; [done|]. unfold generate_stream in *. split; [lia|done].
Qed.

(** A request without streaming can be sent for ever.  When a client asks for
    [max_tokens: null] and the engines keep giving the request up with the stop reason
    [recomputed], the budget of the next attempt cannot be computed: a [TypeError] is
    raised after the flag that asks for the retry was set and before the retry is
    counted.  The handler drops the exception because another transport attempt is
    left, so neither [recompute_retry_limit] nor [transport_retry_limit] ends the loop:
    with any amount of fuel it runs out, the retry count never moves, and two requests
    are sent to the engines in every turn. *)
Theorem nonstream_recompute_never_ends json_dumps_len env cfg fuel s :
  allocates env → refunds env → (∀ t, e_gone env t = false) → (∀ t, ∃ j, e_post env t = Ret j ∧ gives_up j) →
  1 <= max_retry cfg → 2 <= transport_retry_limit cfg → recompute_enabled cfg = true →
  fresh_request s → is_finished s = false → null_max_tokens (req_data (r_req s)) →
  retry_count s < recompute_retry_limit cfg →
  ∃ s', generate_nonstream_json json_dumps_len env cfg fuel s = (s', Ret (inr OutOfFuel)) ∧
    retry_count s' = retry_count s ∧ length (r_posted s') = (length (r_posted s) + 2 * fuel)%nat.
Proof.
  intros Hal Hre Hgone Hup Hmax Ht Hen Hfresh Hfin Hd Hlt.
  destruct (endless_while json_dumps_len env cfg Hal Hre Hgone Hmax Hup Hen _ (own_ids_bump (req_id (r_req s))) 0 fuel s)
    as (s' & E & H); [unfold last_attempt; lia|done|by apply fresh_J|done|done|].
  exists s'. split; [|done]. unfold generate_nonstream_json.
  destruct (Z.to_nat (transport_retry_limit cfg)) as [|n] eqn:En; [lia|]. cbn [nonstream_for].
  by rewrite (M_bind_Ret _ _ _ _ _ E).
Qed.

Lemma stream_terminates_witness :
  (generate_stream sample_loads sample_encode (λ _, 0) recompute_env sample_cfg 6 sample_rs).2 ≠ Ret OutOfFuel ∧
  Z.of_nat (length (r_posted (generate_stream sample_loads sample_encode (λ _, 0) recompute_env sample_cfg 6 sample_rs).1)) <= 14 ∧
  0 <= retry_count (generate_stream sample_loads sample_encode (λ _, 0) recompute_env sample_cfg 6 sample_rs).1 <= 5.
Proof.
  exact (stream_terminates sample_loads sample_encode (λ _, 0) recompute_env sample_cfg 6 sample_rs
    ltac:(vm_compute; reflexivity) ltac:(vm_compute; reflexivity)).
Defined.

Definition sample_gives_up : json :=
  JObj [(CHOICES, JList [JObj [(TEXT, JStr ""); (stop_reason, JStr recomputed); (TOKEN_IDS, JList [JInt 8])]]);
        (PROMPT_TOKEN_IDS, JList [JInt 1])].
Definition null_body : jdict := [("prompt"%string, JStr "x"); (MAX_TOKENS, JNull)].
Definition null_rs : RS :=
  mkRS (RequestInfo_init f0 "1234567890123456000000abcdef01" null_body 10 "v1/completions" "v1/completions")
    RequestManager_init [] [] [] false false 0 false false 0 [] [].

Lemma endless_allocates : allocates (sample_posts sample_gives_up).
Proof. exact (sample_allocates (λ _, mkStream [] None)). Qed.
Lemma endless_answers t : ∃ j, e_post (sample_posts sample_gives_up) t = Ret j ∧ gives_up j.
Proof. eexists. split; [reflexivity|]. by eexists _, _, _, _. Qed.
Lemma null_fresh : fresh_request null_rs.
Proof. by split. Qed.
Lemma null_body_null : null_max_tokens (req_data (r_req null_rs)).
Proof. split; [by eexists|done]. Qed.

Lemma nonstream_recompute_never_ends_witness : ∃ s',
  generate_nonstream_json (λ _, 0) (sample_posts sample_gives_up) sample_cfg 1000 null_rs = (s', Ret (inr OutOfFuel)) ∧
  retry_count s' = 0 ∧ length (r_posted s') = (0 + 2 * 1000)%nat.
Proof.
  exact (nonstream_recompute_never_ends (λ _, 0) (sample_posts sample_gives_up) sample_cfg 1000 null_rs
    endless_allocates (λ _, eq_refl) (λ _, eq_refl) endless_answers ltac:(vm_compute; discriminate) ltac:(vm_compute; discriminate)
    eq_refl null_fresh eq_refl null_body_null ltac:(vm_compute; reflexivity)).
Defined.
