(* ===== verification/RecomputeProps.v ===== *)
(** * What the client sees of recomputation

    Three contracts of [coordinator/router/recompute/] and of the stream reader of
    [strategies/base.py]: frames do not depend on how the network cuts the bytes, token
    ids asked for by the coordinator are not shown to the client, and the token budget
    over the recomputations of one request. *)

From stdpp Require Import base option list strings pretty sets.
From Stdlib Require Import ZArith Lia Ascii.
From S2P Require Import Prelude Float64 PyText Resources RequestManager Recompute Router.
Open Scope Z_scope.

(** ** Frames *)

(** [sub] stands at position [k]. *)
Definition at_pos (sub l : list ascii) (k : nat) : Prop := take (length sub) (drop k l) = sub.

Lemma at_pos_len sub l k : at_pos sub l k → sub ≠ [] → (k + length sub <= length l)%nat.
Proof.
  intros H Hne. assert (length (take (length sub) (drop k l)) = length sub) as E by (by rewrite H).
  rewrite length_take, length_drop in E. assert (0 < length sub)%nat by (destruct sub; [done|simpl; lia]). lia.
Qed.

Lemma at_pos_lookup sub l k : at_pos sub l k → ∀ m c, sub !! m = Some c → l !! (k + m)%nat = Some c.
Proof.
  intros H m c Hm. pose proof (lookup_lt_Some _ _ _ Hm) as Hlt. unfold at_pos in H. rewrite <- H in Hm.
  by rewrite lookup_take_lt, lookup_drop in Hm.
Qed.

Lemma at_pos_app sub l q k : (k + length sub <= length l)%nat → at_pos sub (l ++ q) k ↔ at_pos sub l k.
Proof.
  intros Hk. unfold at_pos. rewrite drop_app_le by lia. rewrite take_app_le; [done|]. rewrite length_drop. lia.
Qed.

Lemma at_pos_cons sub c l k : at_pos sub (c :: l) (S k) ↔ at_pos sub l k.
Proof. done. Qed.

Lemma find_sub_spec sub l : sub ≠ [] → ∀ i,
  match find_sub sub l i with
  | Some j => ∃ k, j = (i + k)%nat ∧ at_pos sub l k ∧ ∀ m, (m < k)%nat → ¬ at_pos sub l m
  | None => ∀ m, ¬ at_pos sub l m
  end.
Proof.
  intros Hne. induction l as [|c l IH]; intros i; cbn [find_sub].
  - rewrite bool_decide_eq_false_2 by (destruct sub; [done|by simpl]). intros m. unfold at_pos. destruct m; simpl; by destruct sub.
  - destruct (bool_decide _) eqn:E.
    + apply bool_decide_eq_true in E. exists O. split; [lia|]. split; [exact E|lia].
    + apply bool_decide_eq_false in E. specialize (IH (S i)). destruct (find_sub sub l (S i)) as [j|].
      * destruct IH as (k & -> & Hk & Hmin). exists (S k). split; [lia|]. split; [exact Hk|].
        intros [|m] Hm; [exact E|]. rewrite at_pos_cons. apply Hmin. lia.
      * intros [|m]; [exact E|]. rewrite at_pos_cons. apply IH.
Qed.

Definition lf2 : list ascii := chars (LF +:+ LF).
Definition crlf2 : list ascii := chars (CRLF +:+ CRLF).

(** A frame ends after its first empty line, whichever the line ending. *)
Definition terminated (l : list ascii) (n : nat) : Prop :=
  ∃ k, (n = k + 2 ∧ at_pos lf2 l k ∨ n = k + 4 ∧ at_pos crlf2 l k)%nat.

Lemma frame_end_spec l :
  match frame_end l with
  | Some n => terminated l n ∧ ∀ m, (m < n)%nat → ¬ terminated l m
  | None => ∀ m, ¬ terminated l m
  end.
Proof.
  unfold frame_end. fold lf2 crlf2.
  pose proof (find_sub_spec lf2 l ltac:(done) 0) as Hl. pose proof (find_sub_spec crlf2 l ltac:(done) 0) as Hc.
  destruct (find_sub crlf2 l 0) as [j|], (find_sub lf2 l 0) as [i|].
  - destruct Hl as (i' & -> & Hi & Himin), Hc as (j' & -> & Hj & Hjmin). simpl.
    assert (i' ≠ j') as Hij.
    { intros ->. pose proof (at_pos_lookup _ _ _ Hi 0 _ eq_refl). pose proof (at_pos_lookup _ _ _ Hj 0 _ eq_refl). congruence. }
    assert (i' ≠ S j') as Hij2.
    { intros ->. pose proof (at_pos_lookup _ _ _ Hi 1 _ eq_refl) as H1. pose proof (at_pos_lookup _ _ _ Hj 2 _ eq_refl) as H2.
      replace (S j' + 1)%nat with (j' + 2)%nat in H1 by lia. congruence. }
    destruct (Nat.ltb_spec j' i').
    + split; [exists j'; by right|]. intros m Hm (k & [[-> Hk]|[-> Hk]]).
      * destruct (decide (k < i')%nat) as [Hlt|]; [by apply (Himin k)|lia].
      * apply (Hjmin k); [lia|done].
    + split; [exists i'; by left|]. intros m Hm (k & [[-> Hk]|[-> Hk]]).
      * apply (Himin k); [lia|done].
      * destruct (decide (k < j')%nat) as [Hlt|]; [by apply (Hjmin k)|lia].
  - destruct Hc as (j' & -> & Hj & Hjmin). split; [exists j'; by right|].
    intros m Hm (k & [[-> Hk]|[-> Hk]]); [by apply (Hl k)|]. apply (Hjmin k); [lia|done].
  - destruct Hl as (i' & -> & Hi & Himin). split; [exists i'; by left|].
    intros m Hm (k & [[-> Hk]|[-> Hk]]); [|by apply (Hc k)]. apply (Himin k); [lia|done].
  - intros m (k & [[-> Hk]|[-> Hk]]); [by apply (Hl k)|by apply (Hc k)].
Qed.

Lemma terminated_le l n : terminated l n → (2 <= n <= length l)%nat.
Proof.
  intros (k & [[-> Hk]|[-> Hk]]); apply at_pos_len in Hk; try done; unfold lf2, crlf2 in Hk; simpl in Hk; lia.
Qed.
Lemma terminated_app l q n : (n <= length l)%nat → terminated (l ++ q) n ↔ terminated l n.
Proof.
  intros Hn. unfold terminated. split; intros (k & [[-> Hk]|[-> Hk]]); exists k; [left|right|left|right]; (split; [done|]);
    apply (at_pos_app _ l q); try done; unfold lf2, crlf2; simpl; lia.
Qed.

(** More bytes do not move the end of the first frame. *)
Lemma frame_end_app p q n : frame_end p = Some n → frame_end (p ++ q) = Some n.
Proof.
  intros E. pose proof (frame_end_spec p) as Hp. rewrite E in Hp. destruct Hp as [Ht Hmin].
  pose proof (terminated_le p n Ht) as Hn. pose proof (frame_end_spec (p ++ q)) as Hq.
  destruct (frame_end (p ++ q)) as [m|].
  - destruct Hq as [Hm Hqmin]. f_equal. destruct (decide (m < n)%nat) as [Hlt|Hge].
    + destruct (Hmin m Hlt). apply (terminated_app p q m); [lia|done].
    + destruct (decide (n < m)%nat) as [Hlt|]; [|lia]. destruct (Hqmin n Hlt). apply terminated_app; [lia|done].
  - destruct (Hq n). apply terminated_app; [lia|done].
Qed.

Lemma frame_end_le p n : frame_end p = Some n → (2 <= n <= length p)%nat.
Proof. intros E. pose proof (frame_end_spec p) as Hp. rewrite E in Hp. apply terminated_le, Hp. Qed.

(** Enough fuel makes no difference. *)
Lemma split_fuel p f1 f2 : (length p < f1)%nat → (length p < f2)%nat → split_frames f1 p = split_frames f2 p.
Proof.
  revert p f2. induction f1 as [|f1 IH]; intros p f2 H1 H2; [lia|]. destruct f2 as [|f2]; [lia|]. cbn [split_frames].
  destruct (frame_end p) as [n|] eqn:E; [|done]. pose proof (frame_end_le p n E).
  rewrite (IH (drop n p) f2); [done| |]; rewrite length_drop; lia.
Qed.

Lemma cut_unfold p :
  cut p = match frame_end p with
          | None => ([], p)
          | Some n => (take n p :: (cut (drop n p)).1, (cut (drop n p)).2)
          end.
Proof.
  unfold cut at 1. cbn [split_frames]. destruct (frame_end p) as [n|] eqn:E; [|done].
  pose proof (frame_end_le p n E). unfold cut.
  rewrite (split_fuel (drop n p) (length p) (S (length (drop n p)))); [|rewrite length_drop; lia|lia].
  by destruct (split_frames _ _).
Qed.

(** Cutting what is left together with the next bytes gives the frames of all bytes. *)
Lemma cut_app p q : cut (p ++ q) = ((cut p).1 ++ (cut ((cut p).2 ++ q)).1, (cut ((cut p).2 ++ q)).2).
Proof.
  remember (length p) as n eqn:Hn. assert (length p <= n)%nat as Hle by lia. clear Hn. revert p Hle.
  induction n as [|n IH]; intros p Hle.
  - destruct p; [|simpl in *; lia]. simpl. by destruct (cut q).
  - rewrite (cut_unfold p). destruct (frame_end p) as [k|] eqn:E; cbn [fst snd]; [|by destruct (cut (p ++ q))].
    pose proof (frame_end_le p k E) as Hk. rewrite (cut_unfold (p ++ q)), (frame_end_app p q k E).
    rewrite drop_app_le, take_app_le by lia. rewrite IH by (rewrite length_drop; lia). by cbn [fst snd].
Qed.

(** Nothing is lost or invented. *)
Lemma cut_concat p : concat (cut p).1 ++ (cut p).2 = p.
Proof.
  remember (length p) as n eqn:Hn. assert (length p <= n)%nat as Hle by lia. clear Hn. revert p Hle.
  induction n as [|n IH]; intros p Hle; rewrite cut_unfold; destruct (frame_end p) as [k|] eqn:E; try done.
  - pose proof (frame_end_le p k E). lia.
  - pose proof (frame_end_le p k E). cbn [fst snd concat]. rewrite <- app_assoc, IH by (rewrite length_drop; lia). apply take_drop.
Qed.

(** The frames of all the bytes of a stream: the last one may lack its end. *)
Definition frames_of (bytes : list ascii) : list (list ascii) :=
  (cut bytes).1 ++ (if decide ((cut bytes).2 = []) then [] else [(cut bytes).2]).

(** A body that writes down its frames. *)
Definition log (f : string) (l : list string) : M RS (option (list string)) := mret (Some (l ++ [f])).

Lemma each_frame_log frames l s : each_frame log frames l s = (s, Ret (Some (l ++ map of_chars frames))).
Proof.
  revert l. induction frames as [|f frames IH]; intros l; cbn [each_frame map]; [by rewrite app_nil_r|].
  erewrite M_bind_Ret by reflexivity. cbv beta iota. rewrite IH. by rewrite <- app_assoc.
Qed.

Lemma each_chunk_log env chunks : ∀ pending l s,
  (cut pending).1 = [] →
  (each_chunk env log chunks None pending l s).2 = Ret (Some (l ++ map of_chars (frames_of (pending ++ concat (map chars chunks))))).
Proof.
  induction chunks as [|c chunks IH]; intros pending l s Hp; cbn [each_chunk map concat].
  - pose proof (cut_concat pending) as Hc. rewrite Hp in Hc. simpl in Hc. rewrite app_nil_r. unfold frames_of. rewrite Hp, Hc. simpl.
    destruct (decide (pending = [])); simpl; [by rewrite app_nil_r|done].
  - erewrite M_bind_Ret by reflexivity.
    match goal with |- context [(if ?b then _ else _) ≫= _] => set (bb := b) end.
    assert (∃ s', (if bb then mmodify (λ s, set_first s true) ;; set_state env FIRST_TOKEN_FINISH else mret tt) s = (s', Ret tt)) as [s' E].
    { destruct bb; by eexists. }
    rewrite (M_bind_Ret _ _ _ _ _ E). destruct (cut (pending ++ chars c)) as [frames rest] eqn:Ec.
    erewrite M_bind_Ret; [|apply each_frame_log]. cbv iota.
    pose proof (cut_app (pending ++ chars c) []) as Hr. rewrite !app_nil_r, Ec in Hr. cbn [fst snd] in Hr.
    injection Hr as Hf Hr. assert ((cut rest).1 = []) as Hnil by (apply (app_inv_head frames); by rewrite app_nil_r).
    rewrite IH by done. rewrite <- app_assoc, <- map_app. do 4 f_equal.
    pose proof (cut_app (pending ++ chars c) (concat (map chars chunks))) as Ha. rewrite Ec in Ha. cbn [fst snd] in Ha.
    unfold frames_of. rewrite (app_assoc pending), Ha. cbn [fst snd]. by rewrite <- app_assoc.
Qed.

(** C31: what the router hands on does not depend on how the network cuts the stream.
    However the bytes of a response are split into chunks, the reader calls its loop
    body with the same frames: the bytes cut after every first empty line, whichever
    of the two line endings it uses, with an unfinished last frame at the end.  The
    frames put together are exactly the bytes received. *)
Theorem frames_independent_of_chunks env chunks chunks' s s' :
  concat (map chars chunks) = concat (map chars chunks') →
  (each_chunk env log chunks None [] [] s).2 = (each_chunk env log chunks' None [] [] s').2 ∧
  (∃ frames, (each_chunk env log chunks None [] [] s).2 = Ret (Some (map of_chars frames)) ∧
     concat frames = concat (map chars chunks) ∧ Forall (λ f, f ≠ []) frames).
Proof.
  intros Hb. rewrite !each_chunk_log by done. simpl. rewrite Hb. split; [done|]. eexists. split; [reflexivity|].
  set (b := concat (map chars chunks')). unfold frames_of. split.
  - rewrite concat_app. etrans; [|apply cut_concat]. f_equal. destruct (decide _) as [->|]; [done|]. simpl. by rewrite app_nil_r.
  - apply Forall_app. split.
    + remember (length b) as n eqn:Hn. assert (length b <= n)%nat as Hle by lia. clear Hn. clearbody b. clear Hb. revert b Hle.
      induction n as [|n IH]; intros b Hle; rewrite cut_unfold; destruct (frame_end b) as [k|] eqn:E; try (by constructor).
      * pose proof (frame_end_le b k E). lia.
      * pose proof (frame_end_le b k E). cbn [fst]. constructor; [|apply IH; rewrite length_drop; lia].
        destruct b; [simpl in *; lia|]. destruct k; [lia|done].
    + destruct (decide _); [done|by constructor].
Qed.

Lemma frames_independent_of_chunks_witness :
  (each_chunk (sample_env (λ _, mkStream [] None)) log [frame "A"; "data: B"] None [] [] sample_rs).2 =
    (each_chunk (sample_env (λ _, mkStream [] None)) log ["dat"; ""; "a: A" +:+ LF; LF +:+ "data: B"] None [] [] sample_rs).2 ∧
  ∃ frames, (each_chunk (sample_env (λ _, mkStream [] None)) log [frame "A"; "data: B"] None [] [] sample_rs).2 =
      Ret (Some (map of_chars frames)) ∧
    concat frames = concat (map chars [frame "A"; "data: B"%string]) ∧ Forall (λ f, f ≠ []) frames.
Proof.
  exact (frames_independent_of_chunks (sample_env (λ _, mkStream [] None)) [frame "A"; "data: B"%string]
    ["dat"; ""; "a: A" +:+ LF; LF +:+ "data: B"] sample_rs sample_rs eq_refl).
Defined.

(** ** Token ids *)

(** No token ids, and no stop reason of the engine's own. *)
Definition clean_choice (c : json) : Prop :=
  match c with
  | JObj d => dget d TOKEN_IDS = None ∧ dget d PROMPT_TOKEN_IDS = None ∧ dget d stop_reason ≠ Some (JStr recomputed)
  | _ => True
  end.
Definition clean_body (j : json) : Prop :=
  match j with
  | JObj d => dget d PROMPT_TOKEN_IDS = None ∧
      match dget d CHOICES with Some (JList l) => Forall clean_choice l | _ => True end
  | _ => False
  end.

Lemma strip_choice_clean c : clean_choice (strip_choice false c).
Proof.
  destruct c as [| | | | | |d]; try done. unfold strip_choice. set (d' := ddel (ddel d TOKEN_IDS) PROMPT_TOKEN_IDS).
  assert (dget d' TOKEN_IDS = None ∧ dget d' PROMPT_TOKEN_IDS = None) as [H1 H2].
  { unfold d'. rewrite !dget_ddel. done. }
  unfold dget_or. destruct (dget d' stop_reason) as [v|] eqn:Ev; simpl; [|by rewrite Ev].
  destruct (is_JStr recomputed v) eqn:Es; simpl.
  - rewrite !dget_dset. by split_and!.
  - rewrite Ev. split_and!; try done. intros [= ->]. done.
Qed.

Lemma strip_clean j j' : strip_openai_token_id_fields_for_client j false = Ret j' → clean_body j'.
Proof.
  unfold strip_openai_token_id_fields_for_client. destruct j as [| | | | | |d]; try done.
  change (jdel (JObj d) PROMPT_TOKEN_IDS) with (Ret (JObj (ddel d PROMPT_TOKEN_IDS))).
  set (d' := ddel d PROMPT_TOKEN_IDS). assert (dget d' PROMPT_TOKEN_IDS = None) as Hp by apply dget_ddel_eq.
  unfold mbind, py_bind, jget. cbv beta iota.
  destruct (dget d' CHOICES) as [v|] eqn:Ev; cbn [jor truthy]; cycle 1.
  { intros [= <-]. simpl. by rewrite Ev. }
  unfold jor. destruct (truthy v) eqn:Et; [|intros [= <-]; simpl; split; [done|]; rewrite Ev; by destruct v as [| | | | |[]|]].
  destruct v as [| | | | |[|x l]|]; try done; intros [= <-]; simpl; try (by rewrite Ev).
  rewrite dget_dset_ne, dget_dset_eq by done. split; [done|]. constructor; [apply strip_choice_clean|].
  apply Forall_fmap, Forall_true. intros y. apply strip_choice_clean.
Qed.

Lemma bind_inv {A B} (m : py A) (k : A → py B) b : m ≫= k = Ret b → ∃ a, m = Ret a ∧ k a = Ret b.
Proof. destruct m as [a|e]; [|done]. intros H. by exists a. Qed.

(** Case analysis of a computation that returned. *)
Ltac run H :=
  repeat first
  [ match type of H with (_ ≫= _) = Ret _ => let a := fresh "a" in let E := fresh "E" in
      apply bind_inv in H as (a & E & H); try (run E) end
  | match type of H with
    | mret _ = Ret _ => injection H as H
    | Ret _ = Ret _ => injection H as H
    | Raise _ = Ret _ => discriminate H
    | (if ?b then _ else _) = Ret _ => destruct b eqn:?
    | (match ?x with _ => _ end) = Ret _ => destruct x eqn:?
    end ].

Lemma cache_keep i j i' : update_token_id_cache i j = Ret i' → client_return_token_ids i' = client_return_token_ids i.
Proof. unfold update_token_id_cache. intros H. run H; subst; repeat case_match; done. Qed.
Lemma completion_keep i j i' : update_completion_tokens i j = Ret i' → client_return_token_ids i' = client_return_token_ids i.
Proof. unfold update_completion_tokens. intros H. run H; by subst. Qed.

(** C32: a client that did not ask for token ids does not see them.  The coordinator asks
    the engines for token ids so that it can recompute; whatever chunk arrives, what
    [process_stream_chunk] hands to such a client is nothing, the end marker as it came,
    or the encoding of a body without prompt token ids, without token ids in any choice
    and without the stop reason [recomputed]. *)
Theorem client_sees_no_token_ids json_loads json_encode chunk i n api role_sent id re i' role_sent' out :
  client_return_token_ids i = false →
  process_stream_chunk json_loads json_encode chunk i n api role_sent id re = Ret (i', role_sent', Some out) →
  client_return_token_ids i' = false ∧
  (out = ""%string ∨ (out = chunk ∧ is_in "[DONE]" (strip chunk) = true) ∨
   ∃ j, clean_body j ∧ (out = json_encode j ∨ out = encode_stream_chunk_bytes json_encode chunk j)).
Proof.
  intros Hk H. unfold process_stream_chunk in H. destruct (parse_stream_chunk_json json_loads chunk) as [j|].
  2: { injection H as <- <- <-. split; [done|]. unfold not_json. destruct (is_in _ _) eqn:E; [right; left|left]; done. }
  apply bind_inv in H as (i1 & E1 & H). assert (client_return_token_ids i1 = false) as K1.
  { destruct re; [|by injection E1 as <-]. by rewrite (cache_keep _ _ _ E1). }
  apply bind_inv in H as (adapt & _ & H). apply bind_inv in H as ([j2 rs] & _ & H). rewrite K1 in H.
  apply bind_inv in H as (choices & _ & H). destruct (negb (truthy choices)).
  - apply bind_inv in H as (j3 & E3 & H). injection H as <- <- <-. split; [done|]. right. right.
    exists j3. split; [by eapply strip_clean|by right].
  - apply bind_inv in H as (c0 & _ & H). apply bind_inv in H as (content & _ & H). apply bind_inv in H as (i2 & E2 & H).
    assert (client_return_token_ids i2 = false) as K2 by (by rewrite (completion_keep _ _ _ E2)).
    apply bind_inv in H as (stop & _ & H). destruct (is_JStr recomputed stop).
    { destruct re; [apply bind_inv in H as (i3 & _ & H)|]; by injection H. }
    apply bind_inv in H as (j3 & E3 & H). injection H as <- <- <-. split; [done|]. right. right.
    exists j3. split; [by eapply strip_clean|]. destruct (_ && _); [by left|by right].
Qed.

Lemma client_sees_no_token_ids_witness : ∃ i' role_sent' out,
  process_stream_chunk sample_loads sample_encode (frame "A")
    (mkRI true false (JStr "x") (JInt 10) "" (JInt 0) None [] false None false) 0 "v1/completions" false "id" true =
    Ret (i', role_sent', Some out) ∧
  client_return_token_ids i' = false ∧
  (out = ""%string ∨ (out = frame "A" ∧ is_in "[DONE]" (strip (frame "A")) = true) ∨
   ∃ j, clean_body j ∧ (out = sample_encode j ∨ out = encode_stream_chunk_bytes sample_encode (frame "A") j)).
Proof.
  eexists _, _, _. split; [vm_compute; reflexivity|].
  refine (client_sees_no_token_ids sample_loads sample_encode (frame "A")
    (mkRI true false (JStr "x") (JInt 10) "" (JInt 0) None [] false None false) 0 "v1/completions" false "id" true _ _ _ eq_refl _).
  vm_compute. reflexivity.
Defined.

(** ** The token budget *)

Section budget.
Context (json_dumps_len : json → Z).
Abbreviation RetryS := (Retry (Scope := Router.Scope)).

(** What a prepared attempt asks for, with the tokens used before it and in this leg. *)
Lemma prepare_ok i (t t2 : RetryS) cap used a p :
  prepare_retry_request json_dumps_len i t = (t2, Ret tt) → recompute_kv_transfer i = Some (a, p) →
  dget_or (rt_data t) ORIGIN_MAX_TOKENS_KEY (origin_max_tokens i) = JInt cap →
  dget_or (rt_data t) CUMULATIVE_COMPLETION_TOKENS_KEY (JInt 0) = JInt used →
  let used' := used + (Z.of_nat (length a) - Z.of_nat (length p)) in
  dget (rt_data t2) ORIGIN_MAX_TOKENS_KEY = Some (JInt cap) ∧
  dget (rt_data t2) CUMULATIVE_COMPLETION_TOKENS_KEY = Some (JInt used') ∧
  dget (rt_data t2) MAX_TOKENS = Some (JInt (Z.max 1 (cap - used' + 1))) ∧
  dget (rt_data t2) PROMPT = Some (JList a) ∧ req_data (rt_req t2) = rt_data t2.
Proof.
  intros H Hk Ho Hc. unfold prepare_retry_request in H. rewrite Hk in H. rewrite (M_bind_Ret _ _ t t t eq_refl) in H. cbv beta in H.
  destruct (jint_or _ (Raise _)) as [n|e]; [|by rewrite (M_bind_Raise _ _ t t e eq_refl) in H]. erewrite M_bind_Ret in H by reflexivity. destruct (negb (n =? 1)); [done|].
  rewrite Ho in H. set (d1 := if dhas (rt_data t) _ then _ else _) in H.
  assert (dget d1 ORIGIN_MAX_TOKENS_KEY = Some (JInt cap) ∧ dget_or d1 CUMULATIVE_COMPLETION_TOKENS_KEY (JInt 0) = JInt used) as [H1 H2].
  { unfold d1. destruct (dhas _ _) eqn:Eh.
    - apply dhas_true in Eh as [v Ev]. unfold dget_or in Ho. rewrite Ev in Ho. by rewrite Ev, Ho.
    - rewrite dget_dset_eq. split; [done|]. unfold dget_or in *. by rewrite dget_dset_ne. }
  clearbody d1. rewrite H2 in H. change (jint_or (JInt used) (Ret 0)) with (Ret used) in H.
  unfold mbind, M_bind, set_data, mmodify, mlift in H. cbv beta iota in H.
  set (u := used + _) in *. change (jbudget (JInt cap) u) with (Ret (JInt (cap - u + 1))) in H. cbv beta iota in H.
  change (jmax1 (JInt (cap - u + 1))) with (JInt (Z.max 1 (cap - u + 1))) in H.
  set (d2 := ddel _ "kv_transfer_params") in H.
  assert (dget d2 ORIGIN_MAX_TOKENS_KEY = Some (JInt cap) ∧ dget d2 CUMULATIVE_COMPLETION_TOKENS_KEY = Some (JInt u) ∧
    dget d2 MAX_TOKENS = Some (JInt (Z.max 1 (cap - u + 1)))) as (F1 & F2 & F3).
  { unfold d2. rewrite !dget_ddel_ne, !dget_dset by done. by split_and!. }
  clearbody d2. cbv zeta. destruct (chat_flag i).
  - destruct (completions_retry_eligible_for_chat_request d2) as [[]|]; try done. injection H as <-.
    cbn [rt_data rt_req req_data set_retry_data set_retry_api].
    rewrite dget_dset_eq, !dget_dset_ne by done. unfold CHAT_ONLY_KEYS_RECOMPUTE. cbn [fold_left].
    rewrite !dget_ddel_ne by done. by split_and!.
  - injection H as <-. cbn [rt_data rt_req req_data set_retry_data set_retry_mode].
    rewrite dget_dset_eq, !dget_dset_ne by done. by split_and!.
Qed.

(** A leg that was given up: [g] tokens, fewer than it was asked for, else it would
    have ended with its length. *)
Definition given_up (d : jdict) (i : RecInfo) (g : Z) : Prop :=
  ∃ a p m, recompute_kv_transfer i = Some (a, p) ∧ g = Z.of_nat (length a) - Z.of_nat (length p) ∧ 0 <= g ∧
    dget d MAX_TOKENS = Some (JInt m) ∧ g < m ∧ origin_max_tokens i = dget_or d ORIGIN_MAX_TOKENS_KEY (JInt m).

(** The legs of one request, with the tokens of each. *)
Inductive session (t : RetryS) : list Z → RetryS → Prop :=
| session_nil : session t [] t
| session_leg gs t1 i g t2 :
    session t gs t1 → given_up (rt_data t1) i g → prepare_retry_request json_dumps_len i t1 = (t2, Ret tt) →
    session t (gs ++ [g]) t2.

Definition total (gs : list Z) : Z := fold_right Z.add 0 gs.
Lemma total_snoc gs g : total (gs ++ [g]) = total gs + g.
Proof. unfold total. induction gs as [|x gs IH]; simpl; lia. Qed.

Lemma session_budget t gs t' cap :
  session t gs t' → dget (rt_data t) MAX_TOKENS = Some (JInt cap) → 1 <= cap →
  dget (rt_data t) ORIGIN_MAX_TOKENS_KEY = None → dget (rt_data t) CUMULATIVE_COMPLETION_TOKENS_KEY = None →
  (gs = [] ∧ t' = t) ∨
  (dget (rt_data t') ORIGIN_MAX_TOKENS_KEY = Some (JInt cap) ∧
   dget (rt_data t') CUMULATIVE_COMPLETION_TOKENS_KEY = Some (JInt (total gs)) ∧
   dget (rt_data t') MAX_TOKENS = Some (JInt (cap - total gs + 1)) ∧
   req_data (rt_req t') = rt_data t' ∧ 0 <= total gs <= cap).
Proof.
  intros Hs Hm Hcap Ho Hc. induction Hs as [|gs t1 i g t2 Hs IH (a & p & m & Hk & -> & Hg & Hm1 & Hlt & Hi) Hprep]; [by left|].
  right. rewrite total_snoc.
  assert (dget_or (rt_data t1) ORIGIN_MAX_TOKENS_KEY (origin_max_tokens i) = JInt cap ∧
    dget_or (rt_data t1) CUMULATIVE_COMPLETION_TOKENS_KEY (JInt 0) = JInt (total gs) ∧
    0 <= total gs ∧ m <= cap - total gs + 1) as (H1 & H2 & H3 & H4).
  { destruct IH as [[-> ->]|(I1 & I2 & I3 & _ & I4)].
    - rewrite Hm in Hm1. injection Hm1 as ->. unfold dget_or in *. rewrite Ho in *. rewrite Hc, Hi. simpl. split_and!; try done. lia.
    - rewrite I3 in Hm1. injection Hm1 as <-. unfold dget_or in *. rewrite I1, I2. split_and!; try done; lia. }
  destruct (prepare_ok i t1 t2 cap (total gs) a p Hprep Hk H1 H2) as (P1 & P2 & P3 & _ & P5).
  set (g := Z.of_nat (length a) - Z.of_nat (length p)) in *.
  rewrite P3. split_and!; try done; try lia. do 2 f_equal. lia.
Qed.
End budget.

(** The tokens of a request that is recomputed.  Over any number of legs, each given
    up before it used its own budget, the body of the next attempt carries the client's
    [max_tokens] as it came, the tokens generated so far in all legs, and a budget of
    exactly one token more than is left of the client's: the lower bound of one never
    applies, and with the next leg the request gets at most [max_tokens + 1] tokens,
    however often it is recomputed. *)
Theorem recompute_budget json_dumps_len t gs t' cap :
  session json_dumps_len t gs t' → gs ≠ [] → 1 <= cap → dget (rt_data t) MAX_TOKENS = Some (JInt cap) →
  dget (rt_data t) ORIGIN_MAX_TOKENS_KEY = None → dget (rt_data t) CUMULATIVE_COMPLETION_TOKENS_KEY = None →
  req_data (rt_req t') = rt_data t' ∧
  dget (rt_data t') ORIGIN_MAX_TOKENS_KEY = Some (JInt cap) ∧
  dget (rt_data t') CUMULATIVE_COMPLETION_TOKENS_KEY = Some (JInt (total gs)) ∧
  ∃ budget, dget (rt_data t') MAX_TOKENS = Some (JInt budget) ∧ 1 <= budget ∧ total gs + budget = cap + 1.
Proof.
  intros Hs Hne Hcap Hm Ho Hc.
  destruct (session_budget json_dumps_len t gs t' cap Hs Hm Hcap Ho Hc) as [[-> _]|(P1 & P2 & P3 & P4 & P5)]; [done|].
  split_and!; try done. eexists. split; [exact P3|]. lia.
Qed.

(** Two legs of a completion request: four tokens and then two. *)
Definition leg_info (all prompt : list json) : RecInfo :=
  mkRI true false (JStr "x") (JInt 10) "" (JInt 0) None [] false (Some (all, prompt)) false.
Definition leg_start : Retry (Scope := Router.Scope) := mkRetry sample_body (r_req sample_rs).
Definition ids (n : nat) : list json := map (λ k, JInt (Z.of_nat k)) (seq 0 n).
Definition leg_1 := Eval vm_compute in prepare_retry_request (λ _, 0) (leg_info (ids 6) (ids 2)) leg_start.
Definition leg_2 := Eval vm_compute in prepare_retry_request (λ _, 0) (leg_info (ids 8) (ids 6)) leg_1.1.

Lemma sample_session : session (λ _, 0) leg_start [4; 2] leg_2.1.
Proof.
  apply (session_leg _ _ [4] leg_1.1 (leg_info (ids 8) (ids 6)) 2).
  - apply (session_leg _ _ [] leg_start (leg_info (ids 6) (ids 2)) 4); [constructor| |reflexivity].
    exists (ids 6), (ids 2), 10. vm_compute. by split_and!.
  - exists (ids 8), (ids 6), 7. vm_compute. by split_and!.
  - reflexivity.
Qed.

Lemma recompute_budget_witness :
  req_data (rt_req leg_2.1) = rt_data leg_2.1 ∧
  dget (rt_data leg_2.1) ORIGIN_MAX_TOKENS_KEY = Some (JInt 10) ∧
  dget (rt_data leg_2.1) CUMULATIVE_COMPLETION_TOKENS_KEY = Some (JInt 6) ∧
  ∃ budget, dget (rt_data leg_2.1) MAX_TOKENS = Some (JInt budget) ∧ 1 <= budget ∧ 6 + budget = 10 + 1.
Proof.
  exact (recompute_budget (λ _, 0) leg_start [4; 2] leg_2.1 10 sample_session ltac:(discriminate) ltac:(vm_compute; discriminate)
    eq_refl eq_refl eq_refl).
Defined.
