(* ===== verification/CoordInstanceManager.v ===== *)
(** * Instance pools of the coordinator

    Models [coordinator/domain/instance_manager.py] and the KV registration loops of
    [coordinator/api_client/conductor_api_client.py].  The pools share references
    to mutable [Instance] objects, and the endpoint cache shares references to
    their endpoints, so instances live in a store ([store]) and the pools map ids
    to store addresses.  Every method runs under [_lock], except that the last two
    additions of [update_instance_workload] run under the instance's own lock:
    they are the separate step [apply_workload]. *)

From stdpp Require Import base option list strings sets.
From Stdlib Require Import ZArith Lia.
From S2P Require Import Prelude Float64 Resources.
Open Scope Z_scope.

Inductive EventType := EV_ADD | EV_DEL | EV_SET.
Inductive UpdateInstanceMode := AVAILABLE | UNAVAILABLE.
Inductive InstanceReadiness := REQUIRED_MET | ONLY_PREFILL | ONLY_DECODE | READY_NONE | UNKNOWN.
Inductive DeployMode :=
  SINGLE_NODE | PD_SEPARATE | CDP_SEPARATE | CPCD_SEPARATE | PD_DUAL_DISPATCH
| PD_DISAGGREGATION_SINGLE_CONTAINER.

#[global] Instance EventType_eq_dec : EqDecision EventType.
Proof. solve_decision. Defined.
#[global] Instance InstanceReadiness_eq_dec : EqDecision InstanceReadiness.
Proof. solve_decision. Defined.

Abbreviation pool := (dict Z ref).

Record InstanceManager := mkIM {
  store : ref → Instance;
  typename_mgmt : bool;
  workload_locks : list Z;
  available_pool : pool;
  unavailable_pool : pool;
  prefill_pool : pool;
  decode_pool : pool;
  hybrid_pool : pool;
  endpoint_id_cache : dict Z (dict Z epref);
  (** the calls [register_post] (true) and [unregister_post] (false) made so far:
      instance id and endpoint id *)
  kv_posts : list (bool * Z * Z)
}.

Definition InstanceManager_init (st : ref → Instance) (mgmt : bool) : InstanceManager :=
  mkIM st mgmt [] [] [] [] [] [] [] [].

Definition set_store (m : InstanceManager) st : InstanceManager :=
  mkIM st (typename_mgmt m) (workload_locks m) (available_pool m) (unavailable_pool m)
    (prefill_pool m) (decode_pool m) (hybrid_pool m) (endpoint_id_cache m) (kv_posts m).
Definition set_locks (m : InstanceManager) l : InstanceManager :=
  mkIM (store m) (typename_mgmt m) l (available_pool m) (unavailable_pool m)
    (prefill_pool m) (decode_pool m) (hybrid_pool m) (endpoint_id_cache m) (kv_posts m).
Definition set_available (m : InstanceManager) d : InstanceManager :=
  mkIM (store m) (typename_mgmt m) (workload_locks m) d (unavailable_pool m)
    (prefill_pool m) (decode_pool m) (hybrid_pool m) (endpoint_id_cache m) (kv_posts m).
Definition set_unavailable (m : InstanceManager) d : InstanceManager :=
  mkIM (store m) (typename_mgmt m) (workload_locks m) (available_pool m) d
    (prefill_pool m) (decode_pool m) (hybrid_pool m) (endpoint_id_cache m) (kv_posts m).
Definition set_ep_cache (m : InstanceManager) c : InstanceManager :=
  mkIM (store m) (typename_mgmt m) (workload_locks m) (available_pool m) (unavailable_pool m)
    (prefill_pool m) (decode_pool m) (hybrid_pool m) c (kv_posts m).
Definition set_kv_posts (m : InstanceManager) l : InstanceManager :=
  mkIM (store m) (typename_mgmt m) (workload_locks m) (available_pool m) (unavailable_pool m)
    (prefill_pool m) (decode_pool m) (hybrid_pool m) (endpoint_id_cache m) l.

(** [_available_role_pools[role]]. *)
Definition role_pool (m : InstanceManager) (r : PDRole) : pool :=
  match r with ROLE_P => prefill_pool m | ROLE_D => decode_pool m | ROLE_U => hybrid_pool m end.
Definition set_role_pool (m : InstanceManager) (r : PDRole) (d : pool) : InstanceManager :=
  mkIM (store m) (typename_mgmt m) (workload_locks m) (available_pool m) (unavailable_pool m)
    (match r with ROLE_P => d | _ => prefill_pool m end)
    (match r with ROLE_D => d | _ => decode_pool m end)
    (match r with ROLE_U => d | _ => hybrid_pool m end)
    (endpoint_id_cache m) (kv_posts m).

(** ** Queries *)

Definition get_required_instances_status (m : InstanceManager) (deploy_mode : option DeployMode)
    : InstanceReadiness :=
  match deploy_mode with
  | None => UNKNOWN
  | Some mode =>
      let has_p := negb (bool_decide (prefill_pool m = [])) in
      let has_d := negb (bool_decide (decode_pool m = [])) in
      let has_u := negb (bool_decide (hybrid_pool m = [])) in
      match mode with
      | SINGLE_NODE => if has_u then REQUIRED_MET else READY_NONE
      | _ => if has_p && has_d then REQUIRED_MET
             else if has_p then ONLY_PREFILL else if has_d then ONLY_DECODE else READY_NONE
      end
  end.

Definition is_ready (r : InstanceReadiness) : bool := bool_decide (r = REQUIRED_MET).
Definition has_required_instances (m : InstanceManager) (d : option DeployMode) : bool :=
  is_ready (get_required_instances_status m d).

Definition get_available_instances (m : InstanceManager) (r : option PDRole) : pool :=
  match r with
  | None => dupdate (dupdate (dupdate [] (prefill_pool m)) (decode_pool m)) (hybrid_pool m)
  | Some r => role_pool m r
  end.

Definition get_all_instances (m : InstanceManager) : pool * pool :=
  (available_pool m, unavailable_pool m).

(** [ep_cache[ep.id] = ep] over one pod, and over all pods. *)
Definition pod_ep_cache (r : ref) (ip : string) (acc : dict Z epref) (pod : pod_endpoints)
    : dict Z epref :=
  fold_left (λ acc '(k, e), dset acc (ep_id e) (r, (ip, k))) pod acc.
Definition build_ep_cache (r : ref) (i : Instance) : dict Z epref :=
  fold_left (λ acc '(ip, pod), pod_ep_cache r ip acc pod) (endpoints i) [].

(** ** Workload updates *)

(** The cache of an instance, built on demand. *)
Definition ensure_ep_cache (m : InstanceManager) (instance_id : Z) (r : ref)
    : dict Z epref * InstanceManager :=
  match dget (endpoint_id_cache m) instance_id with
  | Some c => (c, m)
  | None => let c := build_ep_cache r (store m r) in
            (c, set_ep_cache m (dset (endpoint_id_cache m) instance_id c))
  end.

(** The part of [update_instance_workload] under [_lock]: whom to charge. *)
Definition lookup_workload (m : InstanceManager) (instance_id endpoint_id : Z)
    : option (ref * epref) * InstanceManager :=
  match dget (available_pool m) instance_id with
  | None => (None, m)
  | Some r =>
      let '(c, m1) := ensure_ep_cache m instance_id r in
      match dget c endpoint_id with
      | None => (None, m1)
      | Some p =>
          (Some (r, p),
           set_locks m1 (if decide (instance_id ∈ workload_locks m1) then workload_locks m1
                         else workload_locks m1 ++ [instance_id]))
      end
  end.

(** [endpoint.workload += change] through a reference. *)
Definition charge_endpoint (i : Instance) (p : eptr) (w : Workload) : Instance :=
  match deref i p, dget (endpoints i) p.1 with
  | Some e, Some pod =>
      set_endpoints i (dset (endpoints i) p.1
        (dset pod p.2 (set_ep_workload e (workload_iadd (workload e) w))))
  | _, _ => i
  end.

(** The part under the instance's workload lock: charge the instance, then the endpoint. *)
Definition apply_workload (st : ref → Instance) (target : ref * epref) (w : Workload)
    : ref → Instance :=
  let '(r, (re, p)) := target in
  let st1 := store_set st r (set_gathered (st r) (workload_iadd (gathered_workload (st r)) w)) in
  store_set st1 re (charge_endpoint (st1 re) p w).

#[global] Arguments apply_workload : simpl never.

Definition update_instance_workload (m : InstanceManager) (instance_id endpoint_id : Z)
    (w : Workload) : InstanceManager :=
  match lookup_workload m instance_id endpoint_id with
  | (None, m1) => m1
  | (Some t, m1) => set_store m1 (apply_workload (store m1) t w)
  end.

(** [(role, workload)]; [PDRole(instance.role)] raises on an unknown role string. *)
Definition get_endpoint_workload (m : InstanceManager) (instance_id endpoint_id : Z)
    : py (option PDRole * option Workload) * InstanceManager :=
  match dget (available_pool m) instance_id with
  | None => (Ret (None, None), m)
  | Some r =>
      let '(c, m1) := ensure_ep_cache m instance_id r in
      match dget c endpoint_id with
      | None => (Ret (None, None), m1)
      | Some (re, p) =>
          let rl := if decide (role (store m1 r) = ""%string) then Ret ROLE_U
                    else PDRole_of_string (role (store m1 r)) in
          (rl ← rl; Ret (Some rl, workload <$> deref (store m1 re) p), m1)
      end
  end.

Definition has_instance_endpoint (m : InstanceManager) (instance_id endpoint_id : Z) : bool :=
  match dget (available_pool m) instance_id with
  | None => false
  | Some r =>
      match dget (endpoint_id_cache m) instance_id with
      | None => existsb (λ e, ep_id e =? endpoint_id) (endpoints_flat (store m r))
      | Some c => dhas c endpoint_id
      end
  end.

(** ** Pool changes *)

Definition delete_unavailable_instance (m : InstanceManager) (instance_id : Z) : InstanceManager :=
  if dhas (unavailable_pool m) instance_id
  then set_unavailable m (ddel (unavailable_pool m) instance_id) else m.

Abbreviation IM := (M InstanceManager).

Definition add_instance_to_available_pool (r : ref) : IM bool :=
  m ← mget;
  let i := store m r in
  rl ← mlift (PDRole_of_string (role i));
  if dhas (role_pool m rl) (ins_id i) then mret false
  else
    mmodify (λ m, set_role_pool m rl (dset (role_pool m rl) (ins_id i) r)) ;;
    mmodify (λ m, set_available m (dset (available_pool m) (ins_id i) r)) ;;
    mmodify (λ m, set_ep_cache m (dset (endpoint_id_cache m) (ins_id i) (build_ep_cache r i))) ;;
    mret true.

(** [_find_available_pool]: the role whose pool it is. *)
Definition find_available_pool (instance_id : Z) : IM (option PDRole) :=
  m ← mget;
  match dget (available_pool m) instance_id with
  | None => mret None
  | Some r => rl ← mlift (PDRole_of_string (role (store m r))); mret (Some rl)
  end.

Definition delete_instance_from_available_pool (instance_id : Z) : IM bool :=
  found ← find_available_pool instance_id;
  match found with
  | None => mret false
  | Some rl =>
      m ← mget;
      if dhas (role_pool m rl) instance_id then
        mmodify (λ m, set_role_pool m rl (ddel (role_pool m rl) instance_id)) ;;
        mmodify (λ m, set_available m (ddel (available_pool m) instance_id)) ;;
        mmodify (λ m, set_locks m (List.filter (λ k, negb (k =? instance_id)) (workload_locks m))) ;;
        mmodify (λ m, set_ep_cache m (ddel (endpoint_id_cache m) instance_id)) ;;
        mret true
      else mraise KeyError
  end.

Definition update_instance_state (instance_id : Z) (mode : UpdateInstanceMode) : IM unit :=
  m ← mget;
  match mode with
  | AVAILABLE =>
      match dget (unavailable_pool m) instance_id with
      | None => mret tt
      | Some r =>
          mmodify (λ m, set_unavailable m (ddel (unavailable_pool m) instance_id)) ;;
          add_instance_to_available_pool r ;;
          mret tt
      end
  | UNAVAILABLE =>
      match dget (available_pool m) instance_id with
      | None => mret tt
      | Some r =>
          deleted ← delete_instance_from_available_pool instance_id;
          if deleted : bool
          then mmodify (λ m, set_unavailable m (dset (unavailable_pool m) instance_id r))
          else mret tt
      end
  end.

(** ** Refresh *)

(** [register_kv_instance] / [unregister_kv_instance]: a post per endpoint of each
    prefill instance. *)
Definition kv_posts_of (m : InstanceManager) (is_register : bool) (rs : list ref)
    : list (bool * Z * Z) :=
  concat (map (λ r,
    if decide (role (store m r) = "prefill"%string)
    then map (λ e, (is_register, ins_id (store m r), ep_id e)) (endpoints_flat (store m r))
    else []) rs).

Definition register_kv_instance (is_register : bool) (rs : list ref) : IM unit :=
  mmodify (λ m, if typename_mgmt m
                then set_kv_posts m (kv_posts m ++ kv_posts_of m is_register rs) else m).

(** A fresh [Workload()] for the instance and each of its endpoints. *)
Definition reset_workloads (i : Instance) : Instance :=
  let j := set_gathered i Workload0 in
  set_endpoints j (map (λ '(ip, pod), (ip, map (λ '(k, e), (k, set_ep_workload e Workload0)) pod))
                     (endpoints j)).

Definition add_one (r : ref) : IM bool :=
  m ← mget;
  if dhas (unavailable_pool m) (ins_id (store m r)) then mret false
  else
    added ← add_instance_to_available_pool r;
    if added : bool then
      mmodify (λ m, set_store m (store_set (store m) r (reset_workloads (store m r)))) ;; mret true
    else mret false.

(** The loop of [_add_instances]: the references that were added, in order. *)
Fixpoint add_loop (rs : list ref) : IM (list ref) :=
  match rs with
  | [] => mret []
  | r :: rs =>
      added ← add_one r;
      rest ← add_loop rs;
      mret (if added : bool then r :: rest else rest)
  end.

Definition add_instances (rs : list ref) : IM bool :=
  added ← add_loop rs;
  register_kv_instance true added ;;
  mret (bool_decide (added ≠ [])).

Definition delete_one (instance_id : Z) : IM bool :=
  m ← mget;
  if dhas (unavailable_pool m) instance_id then
    mmodify (λ m, set_unavailable m (ddel (unavailable_pool m) instance_id)) ;; mret true
  else delete_instance_from_available_pool instance_id.

Fixpoint delete_instances (rs : list ref) : IM bool :=
  match rs with
  | [] => mret false
  | r :: rs =>
      m ← mget;
      b ← delete_one (ins_id (store m r));
      b' ← delete_instances rs;
      mret (b || b')
  end.

(** [to_remove_ids] is a Python set of ints; its iteration order is unspecified, here
    the pools' order. *)
Definition compute_set_diff (m : InstanceManager) (rs : list ref) : list ref * list ref :=
  let current_ids := dkeys (available_pool m) ++ dkeys (unavailable_pool m) in
  let new_ids := (λ r, ins_id (store m r)) <$> rs in
  let to_remove_ids := filter (λ id, id ∉ new_ids) (remove_dups current_ids) in
  let to_remove := omap (λ id, match dget (available_pool m) id with
                               | Some r => Some r
                               | None => dget (unavailable_pool m) id
                               end) to_remove_ids in
  let to_add := filter (λ r, ins_id (store m r) ∉ current_ids) rs in
  (to_add, to_remove).

Definition apply_set_diff (rs : list ref) : IM bool :=
  m ← mget;
  let '(to_add, to_remove) := compute_set_diff m rs in
  match to_add, to_remove with
  | [], [] => mret false
  | _, _ =>
      match to_remove with [] => mret false | _ => delete_instances to_remove end ;;
      match to_add with [] => mret false | _ => add_instances to_add end ;;
      mret true
  end.

Definition refresh_instances (event : EventType) (rs : list ref) : IM bool :=
  match event with
  | EV_ADD => add_instances rs
  | EV_DEL =>
      result ← delete_instances rs;
      register_kv_instance false rs ;;
      mret result
  | EV_SET => apply_set_diff rs
  end.

(** [stop]. *)
Definition stop (m : InstanceManager) : InstanceManager :=
  mkIM (store m) (typename_mgmt m) [] [] [] [] [] [] [] (kv_posts m).

(** ** Sequences of operations *)

Inductive im_op :=
| ImRefresh (event : EventType) (rs : list ref)
| ImState (instance_id : Z) (mode : UpdateInstanceMode)
| ImDeleteUnavailable (instance_id : Z)
| ImWorkload (instance_id endpoint_id : Z) (w : Workload)
| ImReadWorkload (instance_id endpoint_id : Z)
| ImStop.

(** One operation and whether it completed without an exception. *)
Definition im_step (m : InstanceManager) (o : im_op) : InstanceManager * bool :=
  match o with
  | ImRefresh ev rs => let '(m', a) := refresh_instances ev rs m in (m', is_ret a)
  | ImState id mode => let '(m', a) := update_instance_state id mode m in (m', is_ret a)
  | ImDeleteUnavailable id => (delete_unavailable_instance m id, true)
  | ImWorkload id ep w => (update_instance_workload m id ep w, true)
  | ImReadWorkload id ep => let '(a, m') := get_endpoint_workload m id ep in (m', is_ret a)
  | ImStop => (stop m, true)
  end.

Fixpoint im_run (m : InstanceManager) (ops : list im_op) : InstanceManager * bool :=
  match ops with
  | [] => (m, true)
  | o :: ops => let '(m1, b1) := im_step m o in
                let '(m2, b2) := im_run m1 ops in (m2, b1 && b2)
  end.

(** The role of an id never changes: the instances of [rs] have the role [f] gives
    their id. *)
Definition role_ok (f : Z → PDRole) (st : ref → Instance) (r : ref) : Prop :=
  role (st r) = PDRole_value (f (ins_id (st r))).

Definition op_ok (f : Z → PDRole) (st : ref → Instance) (o : im_op) : Prop :=
  match o with ImRefresh _ rs => Forall (role_ok f st) rs | _ => True end.

(** What workload updates leave alone. *)
Definition eshape (i : Instance) : list (string * list (Z * Z)) :=
  map (λ '(ip, pod), (ip, map (λ '(k, e), (k, ep_id e)) pod)) (endpoints i).
Definition same_static (i j : Instance) : Prop :=
  ins_id i = ins_id j ∧ role i = role j ∧ eshape i = eshape j.

(** The pool invariant. *)
Record im_ok (f : Z → PDRole) (m : InstanceManager) : Prop := {
  ok_wf : dict_wf (available_pool m);
  ok_role_wf : ∀ rl, dict_wf (role_pool m rl);
  ok_available : ∀ id r, dget (available_pool m) id = Some r →
    ins_id (store m r) = id ∧ role (store m r) = PDRole_value (f id) ∧
    dget (role_pool m (f id)) id = Some r ∧ dget (unavailable_pool m) id = None ∧
    dget (endpoint_id_cache m) id = Some (build_ep_cache r (store m r));
  ok_role : ∀ rl id r, dget (role_pool m rl) id = Some r →
    rl = f id ∧ dget (available_pool m) id = Some r;
  ok_unavailable : ∀ id r, dget (unavailable_pool m) id = Some r →
    ins_id (store m r) = id ∧ role (store m r) = PDRole_value (f id);
  ok_cache : ∀ id c, dget (endpoint_id_cache m) id = Some c →
    is_Some (dget (available_pool m) id)
}.

(** A batch of workload updates, and the changes it holds for one endpoint or, over
    the endpoints the instance has, for one instance. *)
Definition workload_update := (Z * Z * Workload)%type.

Definition update_batch (m : InstanceManager) (us : list workload_update) : InstanceManager :=
  fold_left (λ m '(id, ep, w), update_instance_workload m id ep w) us m.

Definition changes_for (known : Z → bool) (id : Z) (us : list workload_update) : list Workload :=
  omap (λ '(id', ep, w), if (id' =? id) && known ep then Some w else None) us.

Definition charge_all (w : Workload) (l : list Workload) : Workload := fold_left workload_iadd l w.

(** Dictionaries of the object have no duplicate keys. *)
Definition inst_dicts_wf (i : Instance) : Prop :=
  dict_wf (endpoints i) ∧ Forall (λ kv : string * pod_endpoints, dict_wf kv.2) (endpoints i).

(** The store of the witnesses: prefill instances at even addresses, decode ones at
    odd addresses. *)
Definition sample_store (r : ref) : Instance :=
  sample_instance (Z.of_nat r) (if Nat.even r then "prefill" else "decode").
Definition sample_roles (id : Z) : PDRole := if Z.even id then ROLE_P else ROLE_D.

(** Lemmas *)

Lemma PDRole_of_value r : PDRole_of_string (PDRole_value r) = Ret r.
Proof. by destruct r. Qed.

Lemma role_pool_set m rl d rl' :
  role_pool (set_role_pool m rl d) rl' = if decide (rl' = rl) then d else role_pool m rl'.
Proof. by destruct rl, rl'. Qed.

Lemma same_static_refl i : same_static i i.
Proof. done. Qed.

Lemma same_static_trans i j k : same_static i j → same_static j k → same_static i k.
Proof. unfold same_static. intuition congruence. Qed.

Lemma same_static_reset i : same_static (reset_workloads i) i.
Proof.
  split; [done|]. split; [done|]. unfold eshape, reset_workloads. simpl.
  rewrite map_map. apply map_ext. intros [ip pod]. f_equal. rewrite map_map.
  apply map_ext. by intros [k e].
Qed.

Lemma eshape_dset_pod (d : dict string pod_endpoints) ip pod pod' :
  dget d ip = Some pod →
  map (λ '(k, e), (k, ep_id e)) pod' = map (λ '(k, e), (k, ep_id e)) pod →
  map (λ '(ip, pod), (ip, map (λ '(k, e), (k, ep_id e)) pod)) (dset d ip pod')
  = map (λ '(ip, pod), (ip, map (λ '(k, e), (k, ep_id e)) pod)) d.
Proof.
  intros Hg Hp. induction d as [|[ip' p] d IH]; simpl in *; [done|].
  case_decide; simpl; [|f_equal; by apply IH]. injection Hg as ->. subst. by rewrite Hp.
Qed.

Lemma eshape_dset_ep (pod : pod_endpoints) k e e' :
  dget pod k = Some e → ep_id e' = ep_id e →
  map (λ '(k, e), (k, ep_id e)) (dset pod k e') = map (λ '(k, e), (k, ep_id e)) pod.
Proof.
  intros Hg He. induction pod as [|[k' e0] pod IH]; simpl in *; [done|].
  case_decide; simpl; [|f_equal; by apply IH]. injection Hg as ->. subst. by rewrite He.
Qed.

Lemma same_static_charge i p w : same_static (charge_endpoint i p w) i.
Proof.
  unfold charge_endpoint, deref. destruct (dget (endpoints i) p.1) as [pod|] eqn:E1; [|done].
  destruct (dget pod p.2) as [e|] eqn:E2; [|done].
  split; [done|]. split; [done|]. unfold eshape. simpl.
  eapply eshape_dset_pod; [done|]. by eapply eshape_dset_ep.
Qed.

Lemma same_static_apply st t w r : same_static (apply_workload st t w r) (st r).
Proof.
  destruct t as [r1 [re p]]. unfold apply_workload, store_set.
  repeat case_decide; subst; try done.
  - eapply same_static_trans; [apply same_static_charge|done].
  - eapply same_static_trans; [apply same_static_charge|done].
Qed.

(** The cache of an object depends on its shape only. *)
Lemma build_ep_cache_shape r i j : eshape i = eshape j → build_ep_cache r i = build_ep_cache r j.
Proof.
  unfold build_ep_cache, pod_ep_cache, eshape. generalize ([] : dict Z epref).
  generalize (endpoints j) as d'. generalize (endpoints i) as d.
  induction d as [|[ip pod] d IH]; intros [|[ip' pod'] d'] acc; simpl; try done.
  intros [= -> Hp Hd]. rewrite (IH d') by done. f_equal. clear IH Hd.
  revert pod' acc Hp. induction pod as [|[k e] pod IH]; intros [|[k' e'] pod'] acc; simpl; try done.
  intros [= -> He Hp]. rewrite He. by apply IH.
Qed.

Lemma inst_dicts_wf_shape i j : eshape i = eshape j → inst_dicts_wf j → inst_dicts_wf i.
Proof.
  unfold inst_dicts_wf, dict_wf, dkeys, eshape.
  generalize (endpoints j) as d. generalize (endpoints i) as d'.
  intros d' d Hs [Hw1 Hw2]. split.
  - assert (d'.*1 = d.*1) as ->; [|done]. clear Hw1 Hw2. revert d Hs.
    induction d' as [|[ip pod] d' IH]; intros [|[ip' pod'] d]; simpl; try done.
    intros [= -> _ H]. f_equal. by apply IH.
  - clear Hw1. revert d Hs Hw2. induction d' as [|[ip pod] d' IH]; intros [|[ip' pod'] d]; simpl; try done.
    intros [= -> Hp H] [Hp' Hw2]%Forall_cons. apply Forall_cons. split; [|by eapply IH].
    simpl in *. assert (pod.*1 = pod'.*1) as ->; [|done]. clear -Hp. revert pod' Hp.
    induction pod as [|[k e] pod IH]; intros [|[k' e'] pod']; simpl; try done.
    intros [= -> _ H]. f_equal. by apply IH.
Qed.

Section invariant.
Context (f : Z → PDRole).

Lemma im_ok_store m st :
  (∀ r, same_static (st r) (store m r)) → im_ok f m → im_ok f (set_store m st).
Proof.
  intros Hst [H1 H2 H3 H4 H5 H6]. split; simpl; try done.
  - intros id r Hr. destruct (H3 id r Hr) as (A & B & C & D & E).
    destruct (Hst r) as (S1 & S2 & S3).
    rewrite S1, S2, (build_ep_cache_shape _ _ _ S3). split_and!; try done; by destruct (f id).
  - intros id r Hr. destruct (H5 id r Hr), (Hst r) as (S1 & S2 & _). by rewrite S1, S2.
Qed.

Lemma im_ok_init st mgmt : im_ok f (InstanceManager_init st mgmt).
Proof. split; try done; try (intros []; done); apply dict_wf_nil || (intros []; apply dict_wf_nil). Qed.

Lemma im_ok_stop m : im_ok f (stop m).
Proof. split; try done; try (intros []; done); apply dict_wf_nil || (intros []; apply dict_wf_nil). Qed.

(** The state after a successful addition. *)
Definition added_state (m : InstanceManager) (r : ref) : InstanceManager :=
  let i := store m r in
  let rl := f (ins_id i) in
  set_ep_cache (set_available (set_role_pool m rl (dset (role_pool m rl) (ins_id i) r))
                  (dset (available_pool m) (ins_id i) r))
    (dset (endpoint_id_cache m) (ins_id i) (build_ep_cache r i)).

Lemma add_available_eq m r :
  im_ok f m → role_ok f (store m) r →
  add_instance_to_available_pool r m =
  if dhas (available_pool m) (ins_id (store m r)) then (m, Ret false) else (added_state m r, Ret true).
Proof.
  intros Hm Hr. unfold add_instance_to_available_pool, mbind, M_bind, mget, mlift. simpl.
  rewrite Hr, PDRole_of_value. simpl.
  assert (dhas (role_pool m (f (ins_id (store m r)))) (ins_id (store m r)) =
          dhas (available_pool m) (ins_id (store m r))) as ->; [|by destruct (dhas _ _)].
  apply eq_true_iff_eq. rewrite !dhas_true. split; intros [r' Hr'].
  - apply (ok_role _ _ Hm) in Hr' as [_ ?]. eauto.
  - apply (ok_available _ _ Hm) in Hr' as (_ & _ & ? & _). eauto.
Qed.

Lemma im_ok_added m r :
  im_ok f m → role_ok f (store m) r → dget (available_pool m) (ins_id (store m r)) = None →
  dget (unavailable_pool m) (ins_id (store m r)) = None → im_ok f (added_state m r).
Proof.
  intros [H1 H2 H3 H4 H5 H6] Hr Hn Hu. unfold added_state.
  set (id0 := ins_id (store m r)) in *. split; simpl.
  - by apply dict_wf_dset.
  - intros rl. change (dict_wf (role_pool (set_role_pool m (f id0)
      (dset (role_pool m (f id0)) id0 r)) rl)). rewrite role_pool_set.
    case_decide; [by apply dict_wf_dset|done].
  - intros id r'. rewrite !dget_dset. change (role_pool _ ?x) with
      (role_pool (set_role_pool m (f id0) (dset (role_pool m (f id0)) id0 r)) x).
    rewrite role_pool_set. case_decide as E.
    + intros [= <-]. subst id. rewrite decide_True by done. rewrite dget_dset_eq.
      split_and!; done.
    + intros Hr'. destruct (H3 _ _ Hr') as (A & B & C & D & F). split_and!; try done.
      case_decide as E2; [|done]. rewrite dget_dset_ne by done. by rewrite <- E2.
  - intros rl id r'. change (role_pool _ ?x) with
      (role_pool (set_role_pool m (f id0) (dset (role_pool m (f id0)) id0 r)) x).
    rewrite role_pool_set, dget_dset. case_decide as E.
    + subst rl. rewrite dget_dset. case_decide as E2; [intros [= <-]; by subst|apply H4].
    + intros Hr'. destruct (H4 _ _ _ Hr') as [-> ?]. case_decide as E2; [|done]. by subst.
  - done.
  - intros id c. rewrite !dget_dset. case_decide; [by eauto|apply H6].
Qed.

(** The state after a deletion from the available pool. *)
Definition deleted_state (m : InstanceManager) (id : Z) : InstanceManager :=
  set_ep_cache (set_locks (set_available (set_role_pool m (f id) (ddel (role_pool m (f id)) id))
                  (ddel (available_pool m) id))
      (List.filter (λ k, negb (k =? id)) (workload_locks m)))
    (ddel (endpoint_id_cache m) id).

Lemma delete_available_eq m id :
  im_ok f m →
  delete_instance_from_available_pool id m =
  if dhas (available_pool m) id then (deleted_state m id, Ret true) else (m, Ret false).
Proof.
  intros Hm. unfold delete_instance_from_available_pool, find_available_pool, mbind, M_bind, mget,
    mlift. simpl. destruct (dget (available_pool m) id) as [r|] eqn:E.
  - destruct (ok_available _ _ Hm _ _ E) as (A & B & C & _ & _).
    rewrite B, PDRole_of_value. simpl.
    rewrite !(proj2 (dhas_true _ _)) by eauto. done.
  - rewrite (proj2 (dhas_false _ _)) by done. done.
Qed.

Lemma im_ok_deleted m id : im_ok f m → im_ok f (deleted_state m id).
Proof.
  intros [H1 H2 H3 H4 H5 H6]. unfold deleted_state. split; simpl.
  - by apply dict_wf_ddel.
  - intros rl. change (role_pool _ rl) with
      (role_pool (set_role_pool m (f id) (ddel (role_pool m (f id)) id)) rl).
    rewrite role_pool_set. case_decide; [by apply dict_wf_ddel|done].
  - intros id' r'. rewrite !dget_ddel. change (role_pool _ ?x) with
      (role_pool (set_role_pool m (f id) (ddel (role_pool m (f id)) id)) x).
    rewrite role_pool_set. case_decide as E; [done|]. intros Hr'.
    destruct (H3 _ _ Hr') as (A & B & C & D & F). split_and!; try done.
    case_decide as E2; [|done]. rewrite dget_ddel_ne by done. by rewrite <- E2.
  - intros rl id' r'. change (role_pool _ ?x) with
      (role_pool (set_role_pool m (f id) (ddel (role_pool m (f id)) id)) x).
    rewrite role_pool_set, dget_ddel. case_decide as E.
    + subst rl. rewrite dget_ddel. case_decide as E2; [done|apply H4].
    + intros Hr'. destruct (H4 _ _ _ Hr') as [-> ?]. case_decide as E2; [|done]. by subst.
  - done.
  - intros id' c. rewrite !dget_ddel. case_decide; [done|apply H6].
Qed.

Lemma added_state_store m r : store (added_state m r) = store m.
Proof. done. Qed.

(** Workload accounting changes the store within the shape and the caches. *)
Lemma im_ok_ensure m id r :
  im_ok f m → dget (available_pool m) id = Some r →
  ensure_ep_cache m id r = (build_ep_cache r (store m r), m).
Proof.
  intros Hm Hr. destruct (ok_available _ _ Hm _ _ Hr) as (_ & _ & _ & _ & Hc).
  unfold ensure_ep_cache. by rewrite Hc.
Qed.

Lemma im_ok_locks m l : im_ok f m → im_ok f (set_locks m l).
Proof. by intros []. Qed.

Lemma im_ok_lookup m id ep : im_ok f m → im_ok f (lookup_workload m id ep).2.
Proof.
  intros Hm. unfold lookup_workload. destruct (dget (available_pool m) id) as [r|] eqn:E; [|done].
  rewrite (im_ok_ensure _ _ _ Hm E). destruct (dget _ ep); [by apply im_ok_locks|done].
Qed.

Lemma im_ok_workload m id ep w : im_ok f m → im_ok f (update_instance_workload m id ep w).
Proof.
  intros Hm. pose proof (im_ok_lookup m id ep Hm) as Hl. unfold update_instance_workload.
  destruct (lookup_workload m id ep) as [[t|] m1]; [|done].
  apply im_ok_store; [|done]. intros r. apply same_static_apply.
Qed.

Lemma im_ok_read m id ep :
  im_ok f m → (get_endpoint_workload m id ep).2 = m ∧ is_ret (get_endpoint_workload m id ep).1 = true.
Proof.
  intros Hm. unfold get_endpoint_workload. destruct (dget (available_pool m) id) as [r|] eqn:E; [|done].
  rewrite (im_ok_ensure _ _ _ Hm E). destruct (dget _ ep) as [[re p]|]; [|done].
  split; [done|]. simpl. case_decide; [done|].
  destruct (ok_available _ _ Hm _ _ E) as (_ & B & _). by rewrite B, PDRole_of_value.
Qed.

Lemma im_ok_delete_unavailable m id : im_ok f m → im_ok f (delete_unavailable_instance m id).
Proof.
  intros Hm. unfold delete_unavailable_instance. destruct (dhas _ _); [|done].
  destruct Hm as [H1 H2 H3 H4 H5 H6]. split; simpl; try done.
  - intros id' r Hr. destruct (H3 _ _ Hr) as (A & B & C & D & F). split_and!; try done.
    rewrite dget_ddel. by case_decide.
  - intros id' r. rewrite dget_ddel. case_decide; [done|apply H5].
Qed.

Lemma im_ok_set_unavailable m id r :
  im_ok f m → dget (available_pool m) id = None →
  ins_id (store m r) = id → role (store m r) = PDRole_value (f id) →
  im_ok f (set_unavailable m (dset (unavailable_pool m) id r)).
Proof.
  intros [H1 H2 H3 H4 H5 H6] Hn Hid Hr. split; simpl; try done.
  - intros id' r' Hr'. destruct (H3 _ _ Hr') as (A & B & C & D & F). split_and!; try done.
    rewrite dget_dset. case_decide; [congruence|done].
  - intros id' r'. rewrite dget_dset. case_decide; [|apply H5]. intros [= <-]. by subst.
Qed.

(** [update_instance_state] succeeds and keeps the invariant. *)
Lemma update_instance_state_spec m id mode :
  im_ok f m → ∃ m', update_instance_state id mode m = (m', Ret tt) ∧ im_ok f m' ∧ store m' = store m.
Proof.
  intros Hm. unfold update_instance_state, mbind, M_bind, mget. simpl. destruct mode.
  - destruct (dget (unavailable_pool m) id) as [r|] eqn:E; [|by eexists].
    destruct (ok_unavailable _ _ Hm _ _ E) as [Hid Hr]. unfold mmodify.
    pose proof (im_ok_delete_unavailable m id Hm) as Hd.
    unfold delete_unavailable_instance in Hd. rewrite (proj2 (dhas_true _ _)) in Hd by eauto.
    set (m1 := set_unavailable m _) in *.
    assert (role_ok f (store m1) r) as Hok by (unfold role_ok; simpl; by rewrite Hid).
    rewrite (add_available_eq m1 r Hd Hok).
    destruct (dhas (available_pool m1) _) eqn:Eh; [by eexists|]. apply dhas_false in Eh.
    eexists. split; [done|]. split; [|done]. apply im_ok_added; try done.
    simpl. rewrite Hid. apply dget_ddel_eq.
  - destruct (dget (available_pool m) id) as [r|] eqn:E; [|by eexists].
    destruct (ok_available _ _ Hm _ _ E) as (A & B & _).
    rewrite (delete_available_eq m id Hm), (proj2 (dhas_true _ _)) by eauto.
    unfold mmodify. eexists. split; [done|]. split; [|done].
    apply im_ok_set_unavailable; [by apply im_ok_deleted|simpl; apply dget_ddel_eq|done|done].
Qed.

(** What a refresh may do to the store: nothing but workloads. *)
Definition statics (m m' : InstanceManager) : Prop := ∀ r, same_static (store m' r) (store m r).

Lemma role_ok_statics m m' r : statics m m' → role_ok f (store m) r → role_ok f (store m') r.
Proof. intros Hs. destruct (Hs r) as (H1 & H2 & _). unfold role_ok. by rewrite H1, H2. Qed.

Lemma add_one_spec m r :
  im_ok f m → role_ok f (store m) r →
  ∃ b m', add_one r m = (m', Ret b) ∧ im_ok f m' ∧ statics m m' ∧
    unavailable_pool m' = unavailable_pool m ∧ kv_posts m' = kv_posts m ∧
    (b = true ↔ dget (available_pool m) (ins_id (store m r)) = None ∧
                dget (unavailable_pool m) (ins_id (store m r)) = None) ∧
    available_pool m' = if b then dset (available_pool m) (ins_id (store m r)) r
                        else available_pool m.
Proof.
  intros Hm Hr. unfold add_one, mbind, M_bind, mget. simpl.
  destruct (dhas (unavailable_pool m) _) eqn:Eu.
  - apply dhas_true in Eu as [r' Hr']. exists false, m. split_and!; try done.
    rewrite Hr'. split; [done|by intros []].
  - apply dhas_false in Eu. rewrite (add_available_eq m r Hm Hr).
    destruct (dhas (available_pool m) _) eqn:Ea.
    + apply dhas_true in Ea as [r' Hr']. exists false, m. split_and!; try done.
      rewrite Hr'. split; [done|by intros []].
    + apply dhas_false in Ea. exists true. eexists. split; [done|].
      assert (statics m (set_store (added_state m r)
        (store_set (store m) r (reset_workloads (store m r))))) as Hs.
      { intros r'. simpl. unfold store_set. case_decide; [|done]. subst. apply same_static_reset. }
      split_and!; try done. by apply im_ok_store; [|apply im_ok_added].
Qed.

Lemma add_loop_spec rs m :
  im_ok f m → Forall (role_ok f (store m)) rs →
  ∃ added m', add_loop rs m = (m', Ret added) ∧ im_ok f m' ∧ statics m m' ∧
    unavailable_pool m' = unavailable_pool m ∧ kv_posts m' = kv_posts m ∧
    (∀ id r, dget (available_pool m) id = Some r → dget (available_pool m') id = Some r) ∧
    (∀ id, is_Some (dget (available_pool m') id) ↔ is_Some (dget (available_pool m) id) ∨
       (dget (unavailable_pool m) id = None ∧ id ∈ (λ r, ins_id (store m r)) <$> rs)) ∧
    (added = [] → available_pool m' = available_pool m).
Proof.
  revert m. induction rs as [|r rs IH]; intros m Hm Hrs; simpl.
  - exists [], m. split_and!; try done. intros id. set_solver.
  - apply Forall_cons in Hrs as [Hr Hrs].
    destruct (add_one_spec m r Hm Hr) as (b & m1 & E1 & Hm1 & Hs1 & Hu1 & Hk1 & Hb & Ha1).
    destruct (IH m1 Hm1) as (added & m2 & E2 & Hm2 & Hs2 & Hu2 & Hk2 & Hp2 & Hd2 & He2).
    { eapply Forall_impl; [done|]. intros x. by apply role_ok_statics. }
    unfold mbind, M_bind. rewrite E1, E2. eexists _, m2. split; [done|]. split; [done|].
    split. { intros x. eapply same_static_trans; [apply Hs2|apply Hs1]. }
    split; [congruence|]. split; [congruence|].
    assert ((λ r, ins_id (store m1 r)) <$> rs = (λ r, ins_id (store m r)) <$> rs) as Hids.
    { apply list_fmap_ext. intros _ x _. apply Hs1. }
    split_and!.
    + intros id x Hx. apply Hp2. rewrite Ha1. destruct b; [|done].
      rewrite dget_dset. case_decide; [|done]. subst. destruct Hb as [Hb _].
      destruct (Hb eq_refl). congruence.
    + intros id. rewrite Hd2, Hids, Hu1, Ha1. change ((λ r0, ins_id (store m r0)) <$> r :: rs) with (ins_id (store m r) :: ((λ r0, ins_id (store m r0)) <$> rs)). rewrite elem_of_cons.
      destruct b.
      * destruct Hb as [Hb _]. destruct (Hb eq_refl) as [Hn Hu]. rewrite dget_dset.
        case_decide; subst; rewrite ?Hn, ?Hu; naive_solver.
      * split; [naive_solver|]. intros [H|[Hn [->|H]]]; [by left| |naive_solver].
        destruct (dget (available_pool m) (ins_id (store m r))) eqn:En; [by left; eauto|].
        by destruct Hb as [_ Hb]; discriminate (Hb (conj eq_refl Hn)).
    + destruct b; [done|]. intros ->. rewrite He2 by done. done.
Qed.

Lemma delete_one_spec m id :
  im_ok f m →
  ∃ b m', delete_one id m = (m', Ret b) ∧ im_ok f m' ∧ store m' = store m ∧
    kv_posts m' = kv_posts m ∧
    (∀ id', dget (available_pool m') id' =
       if decide (id' = id) then None else dget (available_pool m) id') ∧
    (∀ id', dget (unavailable_pool m') id' =
       if decide (id' = id) then None else dget (unavailable_pool m) id') ∧
    (b = true ↔ is_Some (dget (available_pool m) id) ∨ is_Some (dget (unavailable_pool m) id)).
Proof.
  intros Hm. unfold delete_one, mbind, M_bind, mget. simpl.
  destruct (dhas (unavailable_pool m) id) eqn:Eu.
  - pose proof (im_ok_delete_unavailable m id Hm) as Hd. unfold delete_unavailable_instance in Hd.
    rewrite Eu in Hd. apply dhas_true in Eu as Hu. exists true. eexists. split; [done|].
    split; [done|]. split_and!; try done.
    + simpl. intros id'. case_decide; [|done]. subst. destruct (dget (available_pool m) id) eqn:E; [|done].
      destruct (ok_available _ _ Hm _ _ E) as (_ & _ & _ & D & _). rewrite D in Hu. by destruct Hu.
    + simpl. intros id'. rewrite dget_ddel. repeat case_decide; congruence.
    + split; [by right|done].
  - apply dhas_false in Eu. rewrite (delete_available_eq m id Hm).
    destruct (dhas (available_pool m) id) eqn:Ea.
    + apply dhas_true in Ea. exists true. eexists. split; [done|]. split; [by apply im_ok_deleted|].
      split_and!; try done.
      * simpl. intros id'. rewrite dget_ddel. repeat case_decide; congruence.
      * simpl. intros id'. case_decide; by subst.
      * split; [by left|done].
    + apply dhas_false in Ea. exists false, m. split_and!; try done.
      * intros id'. case_decide; by subst.
      * intros id'. case_decide; by subst.
      * rewrite Eu, Ea. split; [done|]. by intros [[]|[]].
Qed.

Lemma delete_instances_spec rs m :
  im_ok f m →
  ∃ b m', delete_instances rs m = (m', Ret b) ∧ im_ok f m' ∧ store m' = store m ∧
    kv_posts m' = kv_posts m ∧
    (∀ id, dget (available_pool m') id =
       if decide (id ∈ (λ r, ins_id (store m r)) <$> rs) then None else dget (available_pool m) id) ∧
    (∀ id, dget (unavailable_pool m') id =
       if decide (id ∈ (λ r, ins_id (store m r)) <$> rs) then None else dget (unavailable_pool m) id).
Proof.
  revert m. induction rs as [|r rs IH]; intros m Hm; cbn [delete_instances].
  - exists false, m. split_and!; try done; intros id; (case_decide as H; [|done]);
      by apply elem_of_nil in H.
  - destruct (delete_one_spec m (ins_id (store m r)) Hm)
      as (b & m1 & E1 & Hm1 & Hs1 & Hk1 & Ha1 & Hu1 & _).
    destruct (IH m1 Hm1) as (b' & m2 & E2 & Hm2 & Hs2 & Hk2 & Ha2 & Hu2).
    unfold mbind, M_bind, mget. rewrite E1, E2. eexists _, m2. split; [done|].
    split; [done|]. split; [congruence|]. split; [congruence|]. rewrite Hs1 in *.
    split; intros id; rewrite ?Ha2, ?Hu2, ?Ha1, ?Hu1;
      repeat case_decide; try done; set_solver.
Qed.

Lemma add_instances_spec rs m :
  im_ok f m → Forall (role_ok f (store m)) rs →
  ∃ b m', add_instances rs m = (m', Ret b) ∧ im_ok f m' ∧ statics m m' ∧
    unavailable_pool m' = unavailable_pool m ∧
    (∀ id r, dget (available_pool m) id = Some r → dget (available_pool m') id = Some r) ∧
    (∀ id, is_Some (dget (available_pool m') id) ↔ is_Some (dget (available_pool m) id) ∨
       (dget (unavailable_pool m) id = None ∧ id ∈ (λ r, ins_id (store m r)) <$> rs)) ∧
    (∃ posts, kv_posts m' = kv_posts m ++ posts ∧ Forall (λ p, p.1.1 = true) posts).
Proof.
  intros Hm Hrs. destruct (add_loop_spec rs m Hm Hrs)
    as (added & m1 & E1 & Hm1 & Hs1 & Hu1 & Hk1 & Hp1 & Hd1 & _).
  unfold add_instances, mbind, M_bind, register_kv_instance, mmodify. rewrite E1.
  eexists _, _. split; [done|]. destruct (typename_mgmt m1).
  - split; [by destruct Hm1|]. split; [done|]. split_and!; try done.
    exists (kv_posts_of m1 true added). split; [simpl; by rewrite Hk1|].
    apply Forall_forall. intros p. unfold kv_posts_of. rewrite list_elem_of_In, in_concat.
    intros (l & Hl & Hp). apply in_map_iff in Hl as (r & <- & _).
    case_decide; [|done]. by apply in_map_iff in Hp as (e & <- & _).
  - split_and!; try done. exists []. by rewrite app_nil_r.
Qed.

(** The difference [_apply_set_diff] acts on. *)
Lemma compute_set_diff_spec m rs :
  im_ok f m →
  let '(to_add, to_remove) := compute_set_diff m rs in
  let ids := (λ r, ins_id (store m r)) <$> rs in
  let here id := is_Some (dget (available_pool m) id) ∨ is_Some (dget (unavailable_pool m) id) in
  (∀ r, r ∈ to_add ↔ r ∈ rs ∧ ¬ here (ins_id (store m r))) ∧
  (∀ id, id ∈ (λ r, ins_id (store m r)) <$> to_remove ↔ here id ∧ id ∉ ids).
Proof.
  intros Hm. simpl. split.
  - intros r. rewrite list_elem_of_filter, elem_of_app, !elem_of_dkeys. tauto.
  - intros id. rewrite list_elem_of_fmap. split.
    + intros (r & -> & Hr). apply list_elem_of_omap in Hr as (id & Hid & Hr).
      apply list_elem_of_filter in Hid as [Hn Hid].
      rewrite elem_of_remove_dups, elem_of_app, !elem_of_dkeys in Hid.
      assert (ins_id (store m r) = id) as ->; [|done].
      destruct (dget (available_pool m) id) eqn:E; simplify_eq.
      * by apply (ok_available _ _ Hm) in E as [].
      * by apply (ok_unavailable _ _ Hm) in Hr as [].
    + intros [Hh Hn].
      assert (∃ r, match dget (available_pool m) id with Some r => Some r
               | None => dget (unavailable_pool m) id end = Some r ∧ ins_id (store m r) = id)
        as (r & Hr & Hid).
      { destruct (dget (available_pool m) id) as [r|] eqn:E.
        - exists r. split; [done|]. by apply (ok_available _ _ Hm) in E as [].
        - destruct Hh as [[? ?]|[r Hr]]; [done|]. exists r. split; [done|].
          by apply (ok_unavailable _ _ Hm) in Hr as []. }
      exists r. split; [done|]. apply list_elem_of_omap. exists id. split; [|done].
      apply list_elem_of_filter. split; [done|].
      by rewrite elem_of_remove_dups, elem_of_app, !elem_of_dkeys.
Qed.

Lemma statics_refl m : statics m m.
Proof. done. Qed.

(** Deleting then adding what the difference says. *)
Lemma delete_add_spec m to_add to_remove :
  im_ok f m → Forall (role_ok f (store m)) to_add →
  ∃ m', (match to_remove with [] => mret false | _ => delete_instances to_remove end ;;
         match to_add with [] => mret false | _ => add_instances to_add end ;;
         mret true) m = (m', Ret true) ∧ im_ok f m' ∧ statics m m' ∧
    let removed id := id ∈ (λ r, ins_id (store m r)) <$> to_remove in
    (∀ id r, dget (available_pool m) id = Some r → ¬ removed id →
       dget (available_pool m') id = Some r) ∧
    (∀ id, dget (unavailable_pool m') id =
       if decide (removed id) then None else dget (unavailable_pool m) id) ∧
    (∀ id, is_Some (dget (available_pool m') id) ↔
       (is_Some (dget (available_pool m) id) ∧ ¬ removed id) ∨
       ((removed id ∨ dget (unavailable_pool m) id = None) ∧
        id ∈ (λ r, ins_id (store m r)) <$> to_add)) ∧
    (∃ posts, kv_posts m' = kv_posts m ++ posts ∧ Forall (λ p, p.1.1 = true) posts).
Proof.
  intros Hm Hadd.
  assert (∃ b m1, match to_remove with [] => mret false | _ => delete_instances to_remove end m
     = (m1, Ret b) ∧ im_ok f m1 ∧ store m1 = store m ∧ kv_posts m1 = kv_posts m ∧
    (∀ id, dget (available_pool m1) id =
       if decide (id ∈ (λ r, ins_id (store m r)) <$> to_remove) then None else dget (available_pool m) id) ∧
    (∀ id, dget (unavailable_pool m1) id =
       if decide (id ∈ (λ r, ins_id (store m r)) <$> to_remove) then None else dget (unavailable_pool m) id))
    as (b & m1 & E1 & Hm1 & Hs1 & Hk1 & Ha1 & Hu1).
  { destruct to_remove as [|r l]; [|by apply delete_instances_spec].
    apply (delete_instances_spec [] m Hm). }
  assert (∃ b m2, match to_add with [] => mret false | _ => add_instances to_add end m1
     = (m2, Ret b) ∧ im_ok f m2 ∧ statics m1 m2 ∧ unavailable_pool m2 = unavailable_pool m1 ∧
    (∀ id r, dget (available_pool m1) id = Some r → dget (available_pool m2) id = Some r) ∧
    (∀ id, is_Some (dget (available_pool m2) id) ↔ is_Some (dget (available_pool m1) id) ∨
       (dget (unavailable_pool m1) id = None ∧ id ∈ (λ r, ins_id (store m r)) <$> to_add)) ∧
    (∃ posts, kv_posts m2 = kv_posts m1 ++ posts ∧ Forall (λ p, p.1.1 = true) posts))
    as (b2 & m2 & E2 & Hm2 & Hs2 & Hu2 & Hp2 & Hd2 & Hk2).
  { rewrite <- Hs1 in Hadd |- *. destruct to_add as [|r l]; [|by apply add_instances_spec].
    exists false, m1. split_and!; try done; [|exists []; by rewrite app_nil_r].
    intros id. split; [by left|]. intros [?|[_ []%elem_of_nil]]. done. }
  unfold mbind, M_bind. rewrite E1, E2. exists m2. split; [done|]. split; [done|].
  split; [intros r; rewrite <- Hs1; apply Hs2|]. cbv zeta. split_and!.
  - intros id r Hr Hn. apply Hp2. by rewrite Ha1, decide_False.
  - intros id. by rewrite Hu2, Hu1.
  - intros id. rewrite Hd2, Ha1, Hu1. case_decide; naive_solver.
  - by rewrite <- Hk1.
Qed.

Lemma apply_set_diff_spec m rs :
  im_ok f m → Forall (role_ok f (store m)) rs →
  let ids := (λ r, ins_id (store m r)) <$> rs in
  let here m id := is_Some (dget (available_pool m) id) ∨ is_Some (dget (unavailable_pool m) id) in
  ∃ b m', apply_set_diff rs m = (m', Ret b) ∧ im_ok f m' ∧ statics m m' ∧
    (∀ id, here m' id ↔ id ∈ ids) ∧
    (∀ id r, id ∈ ids → dget (available_pool m) id = Some r →
       dget (available_pool m') id = Some r) ∧
    (∀ id, id ∈ ids → dget (unavailable_pool m') id = dget (unavailable_pool m) id) ∧
    (b = false ↔ ∀ id, here m id ↔ id ∈ ids) ∧
    (∃ posts, kv_posts m' = kv_posts m ++ posts ∧ Forall (λ p, p.1.1 = true) posts).
Proof.
  intros Hm Hrs ids here. pose proof (compute_set_diff_spec m rs Hm) as Hd.
  unfold apply_set_diff, mbind, M_bind, mget. destruct (compute_set_diff m rs) as [to_add to_remove].
  cbv zeta in Hd. destruct Hd as [Hadd Hrem].
  assert (∀ id, ¬ here m id → id ∈ ids → id ∈ (λ r, ins_id (store m r)) <$> to_add) as Hadd'.
  { intros id Hn (r & -> & Hr)%list_elem_of_fmap. apply list_elem_of_fmap. exists r.
    split; [done|]. by apply Hadd. }
  destruct (decide (to_add = [] ∧ to_remove = [])) as [[-> ->]|Hne].
  - assert (∀ id, here m id ↔ id ∈ ids) as Hall.
    { intros id. split; intros H.
      - destruct (decide (id ∈ ids)); [done|]. pose proof (proj2 (Hrem id) (conj H n)) as Hc. by apply elem_of_nil in Hc.
      - destruct (decide (here m id)); [done|]. by apply Hadd', elem_of_nil in H. }
    exists false, m. split_and!; try done. exists []. by rewrite app_nil_r.
  - destruct (delete_add_spec m to_add to_remove Hm) as (m' & E & Hm' & Hs & Hp & Hu & Ha & Hk).
    { apply Forall_forall. intros r Hr. apply Hadd in Hr as [Hr _]. by eapply Forall_forall in Hrs. }
    exists true, m'. split.
    { destruct to_add, to_remove; try exact E. by destruct Hne. }
    split; [done|]. split; [done|]. split_and!; try done.
    + intros id. unfold here. rewrite Ha, Hu. specialize (Hrem id). case_decide as Hr.
      * apply Hrem in Hr as Hr'. destruct Hr' as [_ Hn]. split; [|done].
        intros [[[_ Hc]|[_ Hin]]|Hc]; [by destruct Hc| |by destruct Hc].
        apply list_elem_of_fmap in Hin as (r & -> & Hra). apply Hadd in Hra as [Hra _].
        apply list_elem_of_fmap. by exists r.
      * split.
        -- intros H. destruct (decide (id ∈ ids)) as [|Hn]; [done|]. exfalso.
           destruct H as [[[H _]|[_ Hin]]|H]; [apply Hr, Hrem; split; [by left|done]| |].
           ++ apply list_elem_of_fmap in Hin as (r & -> & Hin). apply Hadd in Hin as [Hin _].
              apply Hn, list_elem_of_fmap. by exists r.
           ++ apply Hr, Hrem. split; [by right|done].
        -- intros Hin. destruct (dget (unavailable_pool m) id) eqn:Eu; [by right; eauto|].
           left. destruct (dget (available_pool m) id) eqn:Ea; [left; eauto|]. right.
           split; [by right|]. apply Hadd'; [|done]. unfold here. rewrite Ea, Eu. by intros [[]|[]].
    + intros id r Hin Hr. apply Hp; [done|]. intros Hrm. by apply Hrem in Hrm as [_ ?].
    + intros id Hin. rewrite Hu. case_decide as Hrm; [|done]. by apply Hrem in Hrm as [_ ?].
    + split; [done|]. intros Hall. exfalso. apply Hne. split.
      * destruct to_add as [|r l]; [done|]. destruct (proj1 (Hadd r) ltac:(by left)) as [Hr Hn].
        destruct Hn. apply Hall, list_elem_of_fmap. by exists r.
      * destruct to_remove as [|r l]; [done|].
        destruct (proj1 (Hrem (ins_id (store m r))) ltac:(by left)) as [Hh Hn]. by apply Hall in Hh.
Qed.

Lemma refresh_instances_spec m ev rs :
  im_ok f m → Forall (role_ok f (store m)) rs →
  ∃ b m', refresh_instances ev rs m = (m', Ret b) ∧ im_ok f m' ∧ statics m m'.
Proof.
  intros Hm Hrs. destruct ev; simpl.
  - destruct (add_instances_spec rs m Hm Hrs) as (b & m' & ? & ? & ? & _). by exists b, m'.
  - destruct (delete_instances_spec rs m Hm) as (b & m1 & E & Hm1 & Hs & _).
    unfold mbind, M_bind. rewrite E. unfold register_kv_instance, mmodify.
    eexists b, _. split; [done|]. destruct (typename_mgmt m1); (split; [by destruct Hm1|]);
      intros r; simpl; by rewrite Hs.
  - destruct (apply_set_diff_spec m rs Hm Hrs) as (b & m' & ? & ? & ? & _). by exists b, m'.
Qed.

Lemma im_step_spec m o :
  im_ok f m → op_ok f (store m) o →
  im_ok f (im_step m o).1 ∧ (im_step m o).2 = true ∧ statics m (im_step m o).1.
Proof.
  intros Hm Ho. destruct o as [ev rs|id mode|id|id ep w|id ep|]; simpl.
  - destruct (refresh_instances_spec m ev rs Hm Ho) as (b & m' & -> & ? & ?). done.
  - destruct (update_instance_state_spec m id mode Hm) as (m' & -> & ? & Hs). split_and!; try done.
    simpl. intros r. by rewrite Hs.
  - split; [by apply im_ok_delete_unavailable|]. split; [done|]. intros r.
    unfold delete_unavailable_instance. by destruct (dhas _ _).
  - split; [by apply im_ok_workload|]. split; [done|]. intros r. unfold update_instance_workload.
    assert (store (lookup_workload m id ep).2 = store m) as Hs.
    { unfold lookup_workload, ensure_ep_cache. repeat case_match; simplify_eq/=; done. }
    destruct (lookup_workload m id ep) as [[t|] m1]; simpl in *; rewrite <- Hs;
      [apply same_static_apply|done].
  - destruct (im_ok_read m id ep Hm) as [H1 H2].
    destruct (get_endpoint_workload m id ep) as [a m']. simpl in *. by subst.
  - split; [apply im_ok_stop|done].
Qed.

Lemma im_run_spec m ops :
  im_ok f m → Forall (op_ok f (store m)) ops →
  im_ok f (im_run m ops).1 ∧ (im_run m ops).2 = true.
Proof.
  revert m. induction ops as [|o ops IH]; intros m Hm Ho; [done|]. simpl.
  apply Forall_cons in Ho as [Ho Hos].
  destruct (im_step_spec m o Hm Ho) as (Hm1 & Hb & Hs).
  destruct (im_step m o) as [m1 b1]. simpl in *. destruct (IH m1 Hm1) as [Hm2 Hb2].
  { eapply Forall_impl; [done|]. intros o'. destruct o' as [ev rs| | | | |]; simpl; try done.
    intros H. eapply Forall_impl; [done|]. intros r. by apply role_ok_statics. }
  destruct (im_run m1 ops) as [m2 b2]. simpl in *. by rewrite Hb, Hb2.
Qed.
End invariant.

(** ** Accounting *)

Lemma deref_charge i p w q e :
  deref i p = Some e →
  deref (charge_endpoint i p w) q =
  if decide (q = p) then Some (set_ep_workload e (workload_iadd (workload e) w)) else deref i q.
Proof.
  intros He. unfold charge_endpoint. rewrite He. unfold deref in *.
  destruct (dget (endpoints i) p.1) as [pod|] eqn:E; [|done]. simpl. rewrite dget_dset.
  destruct p as [ip k], q as [ip' k']. simpl in *. case_decide as H1.
  - subst. rewrite E, dget_dset. repeat case_decide; congruence.
  - case_decide; [congruence|done].
Qed.

Lemma ep_cache_pod_deref r ip (pod : pod_endpoints) acc ep x :
  dget (pod_ep_cache r ip acc pod) ep = Some x →
  (∃ k e, x = (r, (ip, k)) ∧ (k, e) ∈ pod ∧ ep_id e = ep) ∨ dget acc ep = Some x.
Proof.
  unfold pod_ep_cache. revert acc. induction pod as [|[k e] pod IH]; intros acc; simpl; [by right|].
  intros [(k' & e' & -> & Hin & He)|H]%IH; [left; exists k', e'; split_and!; try done; by right|].
  rewrite dget_dset in H. case_decide; [|by right]. injection H as <-. left. exists k, e.
  split_and!; try done. left.
Qed.

Lemma build_ep_cache_deref r i ep x :
  inst_dicts_wf i → dget (build_ep_cache r i) ep = Some x →
  ∃ p e, x = (r, p) ∧ deref i p = Some e ∧ ep_id e = ep.
Proof.
  intros [Hw Hp] Hx.
  assert (∃ ip pod k e, x = (r, (ip, k)) ∧ (ip, pod) ∈ endpoints i ∧ (k, e) ∈ pod ∧ ep_id e = ep)
    as (ip & pod & k & e & -> & Hip & Hk & He).
  { clear Hw Hp. unfold build_ep_cache in Hx.
    assert (dget ([] : dict Z epref) ep ≠ Some x) as Hacc by done. revert Hx Hacc.
    generalize ([] : dict Z epref). induction (endpoints i) as [|[ip pod] d IH]; intros acc Hx Hacc; [done|].
    simpl in Hx. destruct (decide (dget (pod_ep_cache r ip acc pod) ep
      = Some x)) as [H|H].
    - apply ep_cache_pod_deref in H as [(k & e & -> & Hin & He)|H]; [|done].
      exists ip, pod, k, e. split_and!; try done. left.
    - destruct (IH _ Hx H) as (ip' & pod' & k & e & -> & ? & ? & ?). exists ip', pod', k, e.
      split_and!; try done. by right. }
  exists (ip, k), e. split; [done|]. split; [|done]. unfold deref. simpl.
  rewrite (dget_in_wf _ _ _ Hw Hip). apply dget_in_wf; [|done].
  eapply Forall_forall in Hp; [|done]. done.
Qed.

(** What the manager answers for an endpoint. *)
Definition known_ep (m : InstanceManager) (id ep : Z) : bool :=
  match dget (available_pool m) id with
  | Some r => dhas (build_ep_cache r (store m r)) ep
  | None => false
  end.

Definition ep_workload (m : InstanceManager) (id ep : Z) : option Workload :=
  r ← dget (available_pool m) id;
  x ← dget (build_ep_cache r (store m r)) ep;
  workload <$> deref (store m x.1) x.2.

Section accounting.
Context (f : Z → PDRole).

Definition stores_wf (m : InstanceManager) : Prop :=
  ∀ id r, dget (available_pool m) id = Some r → inst_dicts_wf (store m r).

(** One update, in full. *)
Lemma update_workload_effect m id ep w :
  im_ok f m → stores_wf m →
  let m' := update_instance_workload m id ep w in
  available_pool m' = available_pool m ∧
  (∀ id' ep', known_ep m' id' ep' = known_ep m id' ep') ∧
  (∀ id' r, dget (available_pool m) id' = Some r →
     gathered_workload (store m' r) =
       if (id =? id') && known_ep m id ep then workload_iadd (gathered_workload (store m r)) w
       else gathered_workload (store m r)) ∧
  (∀ id' ep', ep_workload m' id' ep' =
     (λ x, if (id =? id') && (ep =? ep') then workload_iadd x w else x) <$> ep_workload m id' ep').
Proof.
  intros Hm Hw m'.
  assert (∀ r, same_static (store m' r) (store m r)) as Hst.
  { intros r. destruct (im_step_spec f m (ImWorkload id ep w) Hm I) as (_ & _ & Hs). apply Hs. }
  unfold m', update_instance_workload, lookup_workload in *.
  destruct (dget (available_pool m) id) as [r0|] eqn:E0.
  2: { assert (known_ep m id ep = false) as Hk by (unfold known_ep; by rewrite E0).
       rewrite Hk. split; [done|]. split; [done|]. split; [intros; by rewrite andb_false_r|].
       intros id' ep'. unfold ep_workload. destruct (Z.eqb_spec id id'); [|by destruct (_ ≫= _)].
       subst. by rewrite E0. }
  rewrite (im_ok_ensure f m id r0 Hm E0) in *. unfold known_ep, ep_workload. simpl.
  destruct (dget (build_ep_cache r0 (store m r0)) ep) as [x|] eqn:Ex.
  2: { rewrite E0. assert (dhas (build_ep_cache r0 (store m r0)) ep = false) as ->
         by (by apply dhas_false).
       split; [done|]. split; [done|]. split; [intros; by rewrite andb_false_r|].
       intros id' ep'. destruct (Z.eqb_spec id id'); [subst|by destruct (_ ≫= _)].
       destruct (Z.eqb_spec ep ep'); [|by destruct (_ ≫= _)]. subst. rewrite E0. simpl. by rewrite Ex. }
  destruct (build_ep_cache_deref _ _ _ _ (Hw _ _ E0) Ex) as (p & e & -> & He & Hid).
  assert (dhas (build_ep_cache r0 (store m r0)) ep = true) as Hk by (apply dhas_true; eauto).
  simpl in Hst |- *. set (st' := apply_workload (store m) (r0, (r0, p)) w) in *.
  assert (∀ r, build_ep_cache r (st' r) = build_ep_cache r (store m r)) as Hb
    by (intros r; apply build_ep_cache_shape, Hst).
  assert (∀ id' r, dget (available_pool m) id' = Some r → (r = r0 ↔ id' = id)) as Hinj.
  { intros id' r Hr. apply (ok_available f m Hm) in Hr as Hr'. destruct Hr' as [Hi _].
    apply (ok_available f m Hm) in E0 as Hr0. destruct Hr0 as [Hi0 _]. split; intros; subst; congruence. }
  assert (st' r0 = charge_endpoint (set_gathered (store m r0)
    (workload_iadd (gathered_workload (store m r0)) w)) p w) as Hr0.
  { unfold st', apply_workload, store_set. by rewrite !decide_True by done. }
  assert (∀ r, r ≠ r0 → st' r = store m r) as Hr1.
  { intros r Hr. unfold st', apply_workload, store_set. by rewrite !decide_False by done. }
  split; [done|]. split; [intros id' ep'; case_match; [by rewrite Hb|done]|]. split.
  - intros id' r Hr. rewrite E0, Hk, andb_true_r. destruct (Z.eqb_spec id id') as [<-|Hne].
    + assert (r = r0) as -> by (by apply (Hinj id)). rewrite Hr0.
      unfold charge_endpoint. by repeat case_match.
    + rewrite Hr1; [done|]. intros ->. apply Hne. symmetry. by apply (proj1 (Hinj _ _ Hr)).
  - intros id' ep'. destruct (dget (available_pool m) id') as [r|] eqn:Er; [|done]. simpl. rewrite Hb.
    destruct (dget (build_ep_cache r (store m r)) ep') as [x'|] eqn:Ex'; [|done]. simpl.
    destruct (build_ep_cache_deref _ _ _ _ (Hw _ _ Er) Ex') as (p' & e' & -> & He' & Hid').
    simpl. destruct (Z.eqb_spec id id') as [<-|Hne].
    + assert (r = r0) as -> by (by apply (Hinj id)). rewrite Hr0, (deref_charge _ _ _ _ e) by done.
      destruct (Z.eqb_spec ep ep') as [<-|Hne].
      * rewrite Ex in Ex'. injection Ex' as <-. rewrite decide_True by done. simpl.
        unfold deref in *. by rewrite He.
      * rewrite decide_False by (intros ->; congruence). unfold deref at 1. simpl.
        unfold deref in He' |- *. by rewrite He'.
    + rewrite Hr1; [|intros ->; apply Hne; symmetry; by apply (proj1 (Hinj _ _ Er))].
      simpl. by rewrite He'.
Qed.

Lemma stores_wf_update m id ep w :
  im_ok f m → stores_wf m → stores_wf (update_instance_workload m id ep w).
Proof.
  intros Hm Hw id' r Hr.
  destruct (update_workload_effect m id ep w Hm Hw) as (Ha & _). rewrite Ha in Hr.
  specialize (Hw _ _ Hr).
  destruct (im_step_spec f m (ImWorkload id ep w) Hm I) as (_ & _ & Hs). specialize (Hs r).
  simpl in Hs. destruct Hs as (_ & _ & Hs). by eapply inst_dicts_wf_shape.
Qed.

Lemma update_batch_effect m us :
  im_ok f m → stores_wf m →
  let m' := update_batch m us in
  available_pool m' = available_pool m ∧ im_ok f m' ∧
  (∀ id r, dget (available_pool m) id = Some r →
     gathered_workload (store m' r) =
       charge_all (gathered_workload (store m r)) (changes_for (known_ep m id) id us)) ∧
  (∀ id ep, ep_workload m' id ep =
     (λ x, charge_all x (changes_for (Z.eqb ep) id us)) <$> ep_workload m id ep).
Proof.
  unfold update_batch. revert m. induction us as [|[[id0 ep0] w] us IH]; intros m Hm Hw; simpl.
  { split_and!; try done. intros id ep. by destruct (ep_workload m id ep). }
  destruct (update_workload_effect m id0 ep0 w Hm Hw) as (Ha & Hk & Hg & He).
  pose proof (im_ok_workload f m id0 ep0 w Hm) as Hm1.
  pose proof (stores_wf_update m id0 ep0 w Hm Hw) as Hw1.
  set (m1 := update_instance_workload m id0 ep0 w) in *.
  destruct (IH m1 Hm1 Hw1) as (Ha' & Hm' & Hg' & He'). split; [congruence|]. split; [done|]. split.
  - intros id r Hr. rewrite (Hg' id r) by (by rewrite Ha). rewrite (Hg id r) by done.
    assert (changes_for (known_ep m1 id) id us = changes_for (known_ep m id) id us) as ->.
    { unfold changes_for. clear -Hk. induction us as [|[[a b] c] us IHu]; [done|]. simpl.
      rewrite Hk. case_match; [by f_equal|done]. }
    destruct (Z.eqb_spec id0 id) as [->|]; [|done]. simpl. by destruct (known_ep m id ep0).
  - intros id ep. rewrite He', He. destruct (ep_workload m id ep) as [x|]; [|done]. simpl. f_equal.
    rewrite (Z.eqb_sym ep ep0). by destruct ((id0 =? id) && (ep0 =? ep)).
Qed.
End accounting.

(** Properties *)



(** SET makes the known instances exactly the announced ones.  In any reachable
    state, a SET with role-consistent instances succeeds; afterwards an id is known
    (available or unavailable) exactly if it was announced; an announced instance
    that was available keeps its object, and with it its accumulated workload; an
    announced instance that was unavailable stays unavailable; the answer is false
    exactly when there was nothing to change.  All KV posts it makes are
    registrations: a prefill instance removed by SET is never unregistered from the
    conductor, unlike one removed by DEL. *)
Theorem set_refresh_exact f st mgmt ops rs :
  Forall (op_ok f st) ops →
  let m := (im_run (InstanceManager_init st mgmt) ops).1 in
  Forall (role_ok f (store m)) rs →
  let ids := (λ r, ins_id (store m r)) <$> rs in
  let here m id := is_Some (dget (available_pool m) id) ∨ is_Some (dget (unavailable_pool m) id) in
  ∃ changed m', refresh_instances EV_SET rs m = (m', Ret changed) ∧
    (∀ id, here m' id ↔ id ∈ ids) ∧
    (∀ id r, id ∈ ids → dget (available_pool m) id = Some r →
       dget (available_pool m') id = Some r) ∧
    (∀ id, id ∈ ids → dget (unavailable_pool m') id = dget (unavailable_pool m) id) ∧
    (changed = false ↔ ∀ id, here m id ↔ id ∈ ids) ∧
    (∃ posts, kv_posts m' = kv_posts m ++ posts ∧ Forall (λ p, p.1.1 = true) posts).
Proof.
  intros Ho m Hrs ids here.
  destruct (im_run_spec f (InstanceManager_init st mgmt) ops (im_ok_init f _ _) Ho) as [Hm _].
  destruct (apply_set_diff_spec f m rs Hm Hrs) as (b & m' & E & _ & _ & H).
  exists b, m'. by split.
Qed.

Lemma set_refresh_exact_witness :
  let m := (im_run (InstanceManager_init sample_store true) [ImRefresh EV_ADD [1; 2]%nat]).1 in
  ∃ changed m', refresh_instances EV_SET [2; 3]%nat m = (m', Ret changed) ∧
    ∀ id, is_Some (dget (available_pool m') id) ∨ is_Some (dget (unavailable_pool m') id) ↔
          id ∈ (λ r, ins_id (store m r)) <$> [2; 3]%nat.
Proof.
  destruct (set_refresh_exact sample_roles sample_store true [ImRefresh EV_ADD [1; 2]%nat] [2; 3]%nat
    ltac:(repeat constructor) ltac:(repeat constructor)) as (b & m' & E & H & _).
  exists b, m'. split; [exact E|exact H].
Defined.

(** A role change under the same id corrupts the pools.  The duplicate check of an
    addition looks only in the pool of the new role, so announcing id 7 as prefill and
    then as decode overwrites the available entry; a DEL of id 7 then empties the
    available and the decode pool but leaves the first object in the prefill pool,
    where the schedulers still select it, and neither a SET without id 7 nor a
    further DEL removes it. *)
Theorem role_change_leaves_stale_entry :
  let st r := sample_instance 7 (if Nat.even r then "prefill" else "decode") in
  let m := (im_run (InstanceManager_init st false)
    [ImRefresh EV_ADD [0]%nat; ImRefresh EV_ADD [1]%nat; ImRefresh EV_DEL [1]%nat;
     ImRefresh EV_SET []; ImRefresh EV_DEL [0]%nat]).1 in
  available_pool m = [] ∧ decode_pool m = [] ∧
  get_available_instances m (Some ROLE_P) = [(7, 0%nat)] ∧
  get_required_instances_status m (Some PD_SEPARATE) = ONLY_PREFILL.
Proof. vm_compute. done. Qed.

(** Workload accounting is exact per target.  After any batch of updates, the
    gathered workload of each available instance is its old value with, in order,
    exactly the changes addressed to an endpoint it has, and each endpoint's workload
    is its old value with exactly the changes addressed to it; updates addressed to
    unknown instances or endpoints change nothing, and no update changes the
    available pool. *)
Theorem workload_updates_exact f m us :
  im_ok f m → stores_wf m →
  let m' := update_batch m us in
  available_pool m' = available_pool m ∧
  (∀ id r, dget (available_pool m) id = Some r →
     gathered_workload (store m' r) =
       charge_all (gathered_workload (store m r)) (changes_for (known_ep m id) id us)) ∧
  (∀ id ep, ep_workload m' id ep =
     (λ x, charge_all x (changes_for (Z.eqb ep) id us)) <$> ep_workload m id ep).
Proof. intros Hm Hw. by destruct (update_batch_effect f m us Hm Hw) as (? & _ & ? & ?). Qed.

Lemma workload_updates_exact_witness :
  let m := (im_run (InstanceManager_init sample_store true) [ImRefresh EV_ADD [1; 2]%nat]).1 in
  let w := mkWorkload (f_of_Z 2) (f_of_Z 3) in
  ep_workload (update_batch m [(1, 0, w); (2, 1, w); (9, 0, w); (1, 0, w)]) 1 0 =
  Some (mkWorkload (f_of_Z 4) (f_of_Z 6)).
Proof.
  cbv zeta. set (m := (im_run _ _).1).
  destruct (workload_updates_exact sample_roles m
    (let w := mkWorkload (f_of_Z 2) (f_of_Z 3) in [(1, 0, w); (2, 1, w); (9, 0, w); (1, 0, w)]))
    as (_ & _ & H).
  - apply (im_run_spec sample_roles); [apply im_ok_init|repeat constructor].
  - intros id r Hr%dget_Some_in. unfold m in *. vm_compute in Hr.
    apply elem_of_cons in Hr as [[= -> ->]|Hr]; [|apply elem_of_cons in Hr as [[= -> ->]|Hr]].
    + vm_compute. repeat constructor; set_solver.
    + vm_compute. repeat constructor; set_solver.
    + by apply elem_of_nil in Hr.
  - rewrite H. vm_compute. reflexivity.
Defined.
