(* ===== verification/RouterModes.v ===== *)
(** * The other routers, and which one a request goes to

    Models [coordinator/router/strategies/pd_hybrid.py] and [pd_dual_dispatch.py], and
    [coordinator/router/dispatch.py] with the path check of
    [common/http/security_utils.py]. *)

From stdpp Require Import base option list strings pretty sets.
From Stdlib Require Import ZArith Lia Ascii.
From S2P Require Import Prelude Float64 PyText Resources RequestManager Recompute Router RouterLedger CoordInstanceManager.
Open Scope Z_scope.

Section modes.
Context (json_loads : string → option json) (json_encode : json → string).
Context (env : REnv) (cfg : ExceptionConfig).

(** ** Contexts of base.py *)

(** [_manage_resource_context]: the resource is released however the body ends. *)
Definition manage_resource {A} (rl : PDRole) (release : Instance * Endpoint → M RS bool)
    (body : Instance * Endpoint → M RS A) : M RS A :=
  res ← prepare_resource env cfg rl;
  mfinally (body res) (ignore (release res)).

(** [_manage_request_context]. *)
Definition manage_request {A} (body : M RS A) : M RS A :=
  mmodify (λ s, set_mgr s (add_req_info req_id (r_mgr s) (r_req s)).2) ;;
  mfinally body (mmodify (λ s, set_mgr s (del_req_info (r_mgr s) (req_id (r_req s))).2)).

(** A chunk for the client, as it came but for the token ids. *)
Definition pass_chunk (chunk : string) (l : unit) : M RS (option unit) :=
  s ← mget;
  out ← mlift (strip_stream_chunk_bytes_for_client json_loads json_encode chunk (client_keeps_ids s));
  yield env (Chunk out) ;;
  mret (Some tt).

(** ** pd_hybrid.py *)

(** One attempt of the stream: whether the request is over. *)
Definition hybrid_stream_attempt (req_data : jdict) (attempt : Z) : M RS bool :=
  mexcept
    (manage_resource ROLE_P (release_all env) (λ res,
       ignore (forward_stream_request env pass_chunk req_data tt) ;;
       set_state env DECODE_END ;;
       mret true))
    (λ e,
     s ← mget;
     if first_chunk_sent s || last_attempt cfg attempt then
       set_state env EXCEPTION ;; yield env (ErrorChunk (error_code e)) ;; mret true
     else mret false).

Fixpoint hybrid_stream_for (attempts : nat) (req_data : jdict) (attempt : Z) : M RS bool :=
  match attempts with
  | O => mret false
  | S attempts =>
      over ← hybrid_stream_attempt req_data attempt;
      if over : bool then mret true else hybrid_stream_for attempts req_data (attempt + 1)
  end.

Definition hybrid_stream : M RS bool :=
  s ← mget;
  hybrid_stream_for (Z.to_nat (transport_retry_limit cfg)) (req_data (r_req s)) 0.

Definition hybrid_post_attempt (req_data : jdict) (attempt : Z) : M RS (option json) :=
  mexcept
    (manage_resource ROLE_P (release_all env) (λ res,
       body ← forward_request env req_data;
       set_state env DECODE_END ;;
       body ← client_body body;
       mret (Some body)))
    (λ e,
     if attempt <? transport_retry_limit cfg - 1 then mret None
     else set_state env EXCEPTION ;; mraise e).

(** Falling out of the loop returns nothing. *)
Fixpoint hybrid_post_for (attempts : nat) (req_data : jdict) (attempt : Z) : M RS (option json) :=
  match attempts with
  | O => mret None
  | S attempts =>
      r ← hybrid_post_attempt req_data attempt;
      match r with Some b => mret (Some b) | None => hybrid_post_for attempts req_data (attempt + 1) end
  end.

Definition hybrid_post : M RS (option json) :=
  s ← mget;
  hybrid_post_for (Z.to_nat (transport_retry_limit cfg)) (req_data (r_req s)) 0.

(** ** pd_dual_dispatch.py *)

(** The port and the random room of the bootstrap, and whether the prefill task has
    failed, which cancels the scopes, when the decode half comes back. *)
Context (bootstrap_port : json) (room : nat → Z) (prefill_failed : nat → bool).

Definition cancel_scopes : M RS unit := mmodify (λ s, set_req s (cancel_scope scope_cancelled scope_cancel (r_req s))).
Definition new_scope (rl : PDRole) : M RS unit := mmodify (λ s, set_req s (set_cancel_scope (r_req s) (O, false) rl)).
Definition cancelled (s : RS) : bool := is_cancelled scope_cancelled (r_req s).

(** [with d_scope]: a cancellation of the scope ends the body quietly. *)
Definition in_scope {A} (m : M RS A) : M RS (option A) :=
  r ← (λ s, match m s with
            | (s, Ret a) => (s, Ret (Ret a))
            | (s, Raise e) => (s, Ret (Raise e))
            end);
  failed ← ask prefill_failed;
  (if failed : bool then cancel_scopes else mret tt) ;;
  match r with
  | Ret a => mret (Some a)
  | Raise CancelledError => if failed : bool then mret None else mraise CancelledError
  | Raise e => mraise e
  end.

(** [_dual_env_context]. *)
Definition dual_env {A} (body : Instance * Endpoint → M RS A) : M RS A :=
  manage_request
    (manage_resource ROLE_P (release_all env) (λ pres,
       manage_resource ROLE_D (release_tokens env) (λ dres, body pres))).

Definition gen_dual_request (pres : Instance * Endpoint) : M RS jdict :=
  s ← mget;
  r ← ask room;
  mret (dset (dset (dset (req_data (r_req s)) "bootstrap_host" (JStr (ep_ip pres.2)))
                "bootstrap_port" bootstrap_port) "bootstrap_room" (JInt r)).

Definition gen_dual_p_request (req_data : jdict) : jdict := apply_prefill_params req_data None false.

(** The prefill task posts its request in the background. *)
Definition run_prefill (p_data : jdict) : M RS unit :=
  mmodify (λ s, add_post s (copy_req_data_for_engine p_data)).

(** The exception a failed prefill raises in the decode half is a plain [Exception]. *)
Definition after_prefill : M RS unit :=
  s ← mget;
  if cancelled s then mraise RuntimeError else mret tt.

(** [except CancelledError: cancel_scope(); raise] around [except Exception]. *)
Definition with_dual_handlers {A} (m : M RS A) (h : pyexn → M RS A) : M RS A :=
  mtry m (λ e, cancel_scopes ;; match e with CancelledError => mraise e | _ => h e end).

Definition dual_stream_attempt (attempt : Z) : M RS bool :=
  with_dual_handlers
    (dual_env (λ pres,
       new_scope ROLE_P ;;
       new_scope ROLE_D ;;
       d ← gen_dual_request pres;
       run_prefill (gen_dual_p_request d) ;;
       mfinally
         (in_scope (ignore (forward_stream_request env pass_chunk d tt)) ;;
          set_state env DECODE_END ;;
          mret true)
         after_prefill))
    (λ e,
     s ← mget;
     if first_chunk_sent s || last_attempt cfg attempt then
       set_state env EXCEPTION ;; yield env (ErrorChunk (error_code e)) ;; mret true
     else mret false).

Fixpoint dual_stream_for (attempts : nat) (attempt : Z) : M RS bool :=
  match attempts with
  | O => mret false
  | S attempts =>
      over ← dual_stream_attempt attempt;
      if over : bool then mret true else dual_stream_for attempts (attempt + 1)
  end.
Definition dual_stream : M RS bool := dual_stream_for (Z.to_nat (transport_retry_limit cfg)) 0.

(** After a cancelled scope the response is not bound, and reading it is an error. *)
Definition dual_post_attempt (attempt : Z) : M RS (option json) :=
  with_dual_handlers
    (dual_env (λ pres,
       new_scope ROLE_P ;;
       new_scope ROLE_D ;;
       d ← gen_dual_request pres;
       run_prefill (gen_dual_p_request d) ;;
       mfinally
         (response ← in_scope (forward_request env d);
          set_state env DECODE_END ;;
          match response with
          | None => mraise RuntimeError
          | Some body =>
              s ← mget;
              body ← mlift (strip_openai_token_id_fields_for_client body (client_keeps_ids s));
              mret (Some body)
          end)
         after_prefill))
    (λ e,
     if attempt <? transport_retry_limit cfg - 1 then mret None
     else set_state env EXCEPTION ;; mraise e).

Fixpoint dual_post_for (attempts : nat) (attempt : Z) : M RS (option json) :=
  match attempts with
  | O => mret None
  | S attempts =>
      r ← dual_post_attempt attempt;
      match r with Some b => mret (Some b) | None => dual_post_for attempts (attempt + 1) end
  end.
Definition dual_post : M RS (option json) := dual_post_for (Z.to_nat (transport_retry_limit cfg)) 0.
End modes.

(** ** Everything is released *)

Section released.
Context (json_loads : string → option json) (json_encode : json → string).
Context (env : REnv) (cfg : ExceptionConfig).
Context (own : string → Prop) (Hrel : accounts env).

(** What the ledger depends on. *)
Definition held_view (s : RS) := (req_id (r_req s), req_workload_dict (r_mgr s), r_ledger s).
Abbreviation quietly := (unchanged held_view).
Abbreviation JJ p d := (J own (hpd p d)).
Definition keeps {A} (p d : hold) (m : M RS A) : Prop := triple (JJ p d) m (λ _, JJ p d) (λ _, JJ p d).

Lemma quietly_ask {A} (f : nat → A) : quietly (ask f).
Proof. by intros s. Qed.
#[local] Hint Resolve quietly_ask : unchanged.
Lemma quietly_state st : quietly (set_state env st). Proof. unfold set_state. unchanged. Qed.
Lemma quietly_yield x : quietly (yield env x). Proof. unfold yield. unchanged. Qed.
Lemma quietly_body b : quietly (client_body b). Proof. unfold client_body. unchanged. Qed.
#[local] Hint Resolve quietly_state quietly_yield quietly_body : unchanged.
Lemma quietly_pass c l : quietly (pass_chunk json_loads json_encode env c l).
Proof. unfold pass_chunk. unchanged. Qed.
#[local] Hint Resolve quietly_pass : unchanged.

Lemma quietly_frames {L} (body : string → L → M RS (option L)) :
  (∀ c l, quietly (body c l)) → ∀ frames l, quietly (each_frame body frames l).
Proof. intros Hb. induction frames as [|f fs IH]; intros l; simpl; unchanged. Qed.
Lemma quietly_chunks {L} (body : string → L → M RS (option L)) :
  (∀ c l, quietly (body c l)) → ∀ chunks e pending l, quietly (each_chunk env body chunks e pending l).
Proof.
  intros Hb. pose proof (quietly_frames body Hb). induction chunks as [|c cs IH]; intros e pending l; simpl; unchanged.
Qed.
Lemma quietly_stream d l : quietly (forward_stream_request env (pass_chunk json_loads json_encode env) d l).
Proof. unfold forward_stream_request, forward_stream_at. pose proof (quietly_chunks _ quietly_pass). unchanged. Qed.
Lemma quietly_forward d : quietly (forward_request env d).
Proof. unfold forward_request, forward_request_at. unchanged. Qed.
#[local] Hint Resolve quietly_stream quietly_forward : unchanged.

Lemma quietly_keeps {A} p d (m : M RS A) : quietly m → keeps p d m.
Proof.
  intros Hm s Hs. specialize (Hm s). unfold held_view in Hm. injection Hm as H1 H2 H3.
  destruct (m s) as [s' [a|e]]; simpl in *; by apply (J_frame own _ s).
Qed.

Lemma keeps_bind {A B} p d (m : M RS A) (k : A → M RS B) : keeps p d m → (∀ a, keeps p d (k a)) → keeps p d (m ≫= k).
Proof. intros Hm Hk. by eapply triple_bind. Qed.
Lemma keeps_except {A} p d (m : M RS A) h : keeps p d m → (∀ e, keeps p d (h e)) → keeps p d (mexcept m h).
Proof. intros Hm Hh. eapply triple_except; [exact Hm|done|intros e _; apply Hh]. Qed.
Lemma keeps_try {A} p d (m : M RS A) h : keeps p d m → (∀ e, keeps p d (h e)) → keeps p d (mtry m h).
Proof.
  intros Hm Hh s Hs. specialize (Hm s Hs). unfold mtry. destruct (m s) as [s' [a|e]]; [done|]. by apply Hh.
Qed.

(** A resource context gives back what it took. *)
Lemma manage_prefill {A} (body : Instance * Endpoint → M RS A) :
  (∀ res, normalize_role res.1 = Some ROLE_P → keeps (full ROLE_P res) Free (body res)) →
  keeps Free Free (manage_resource env cfg ROLE_P (release_all env) body).
Proof.
  intros Hb. unfold manage_resource. eapply triple_bind.
  { eapply triple_conseq; [by apply (prepare_J env cfg own Hrel (hpd Free Free) ROLE_P)|done|intros a s H; exact H|by intros e s [_ H]]. }
  intros res. apply triple_pre. intros Hr.
  assert (∀ s, J own (upd (hpd Free Free) ROLE_P (full ROLE_P res)) s → JJ (full ROLE_P res) Free s) as Hu.
  { intros s. apply J_ext. intros r. symmetry. apply upd_p. }
  assert (∀ E, triple (JJ (full ROLE_P res) Free) (ignore (release_all env res)) (λ _, JJ Free Free) E) as Hall.
  { intros E. eapply triple_conseq; [by apply (release_all_J env own Hrel res Free Hr)|done|done|done]. }
  eapply triple_finally; [eapply triple_conseq; [by apply (Hb res Hr)|exact Hu|intros a s H; exact H|intros e s H; exact H]
    |intros a; apply Hall|intros e; apply Hall].
Qed.

Lemma manage_decode {A} p (body : Instance * Endpoint → M RS A) :
  (∀ res, normalize_role res.1 = Some ROLE_D → keeps p (full ROLE_D res) (body res)) →
  keeps p Free (manage_resource env cfg ROLE_D (release_tokens env) body).
Proof.
  intros Hb. unfold manage_resource. eapply triple_bind.
  { eapply triple_conseq; [by apply (prepare_J env cfg own Hrel (hpd p Free) ROLE_D)|done|intros a s H; exact H|by intros e s [_ H]]. }
  intros res. apply triple_pre. intros Hr.
  assert (∀ s, J own (upd (hpd p Free) ROLE_D (full ROLE_D res)) s → JJ p (full ROLE_D res) s) as Hu.
  { intros s. apply J_ext. intros r. symmetry. apply upd_d. }
  assert (∀ E, triple (JJ p (full ROLE_D res)) (ignore (release_tokens env res)) (λ _, JJ p Free) E) as Hall.
  { intros E. eapply triple_conseq; [by apply (release_d_all env own Hrel p res Hr)|done|done|done]. }
  eapply triple_finally; [eapply triple_conseq; [by apply (Hb res Hr)|exact Hu|intros a s H; exact H|intros e s H; exact H]
    |intros a; apply Hall|intros e; apply Hall].
Qed.
Lemma del_info_none (m : RequestManager Router.Req) id k :
  dget (req_workload_dict m) k = None → dget (req_workload_dict (del_req_info m id).2) k = None.
Proof.
  intros H. unfold del_req_info. destruct (dhas _ _); [|done]. simpl. rewrite del_keys_get. by destruct (decide _).
Qed.

Lemma add_request_J p E :
  triple (JJ p Free) (mmodify (λ s, set_mgr s (add_req_info req_id (r_mgr s) (r_req s)).2)) (λ _, JJ p Free) E.
Proof.
  apply triple_modify. intros s Hs. apply (J_frame own (hpd p Free) s); [done| |done|exact Hs]. simpl.
  unfold add_req_info. by destruct (dhas _ _).
Qed.
Lemma del_request_J p E :
  p = Free ∨ p = Any →
  triple (JJ p Free) (mmodify (λ s, set_mgr s (del_req_info (r_mgr s) (req_id (r_req s))).2)) (λ _, JJ p Free) E.
Proof.
  intros Hp. apply triple_modify. intros s (Ho & Hoth & Hacc). split; [done|]. split.
  - intros id r Hn Hid Hne. apply del_info_none. by apply Hoth.
  - intros r. specialize (Hacc r). assert (hpd p Free r = Free ∨ hpd p Free r = Any) as [Er|Er] by (destruct r; simpl; auto);
      rewrite Er in *; [|done]. destruct Hacc as [H1 H2]. split; [by apply del_info_none|done].
Qed.

Lemma manage_request_keeps {A} p (body : M RS A) :
  p = Free ∨ p = Any → keeps p Free body → keeps p Free (manage_request body).
Proof.
  intros Hp Hb. unfold manage_request. eapply triple_seq; [apply add_request_J|].
  eapply triple_finally; [exact Hb|intros a; by apply del_request_J|intros e; by apply del_request_J].
Qed.

Ltac quiet_keeps := apply quietly_keeps; unchanged.

Lemma hybrid_stream_keeps : keeps Free Free (hybrid_stream json_loads json_encode env cfg).
Proof.
  unfold hybrid_stream. apply triple_read. intros s0. generalize (req_data (r_req s0)) as d. intros d. generalize 0 as attempt.
  induction (Z.to_nat (transport_retry_limit cfg)) as [|n IH]; intros attempt; cbn [hybrid_stream_for]; [quiet_keeps|].
  apply keeps_bind; [|intros []; [quiet_keeps|apply IH]]. unfold hybrid_stream_attempt. apply keeps_except.
  - apply manage_prefill. intros res Hr. unfold ignore. quiet_keeps.
  - intros e. quiet_keeps.
Qed.

Lemma hybrid_post_keeps : keeps Free Free (hybrid_post env cfg).
Proof.
  unfold hybrid_post. apply triple_read. intros s0. generalize (req_data (r_req s0)) as d. intros d. generalize 0 as attempt.
  induction (Z.to_nat (transport_retry_limit cfg)) as [|n IH]; intros attempt; cbn [hybrid_post_for]; [quiet_keeps|].
  apply keeps_bind; [|intros [b|]; [quiet_keeps|apply IH]]. unfold hybrid_post_attempt. apply keeps_except.
  - apply manage_prefill. intros res Hr. quiet_keeps.
  - intros e. quiet_keeps.
Qed.

Context (bootstrap_port : json) (room : nat → Z) (prefill_failed : nat → bool).

Lemma quietly_scoped {A} (m : M RS A) : quietly m → quietly (in_scope prefill_failed m).
Proof.
  intros Hm. unfold in_scope. apply unchanged_bind.
  - intros s. specialize (Hm s). destruct (m s) as [s' [a|e]]; done.
  - intros r. unfold cancel_scopes. unchanged.
Qed.
#[local] Hint Extern 1 (quietly (in_scope _ _)) => apply quietly_scoped; unfold ignore; unchanged : unchanged.
Lemma quietly_dual pres : quietly (gen_dual_request bootstrap_port room pres).
Proof. unfold gen_dual_request. unchanged. Qed.
Lemma quietly_new rl : quietly (new_scope rl).
Proof. unfold new_scope. apply unchanged_modify. intros s. by destruct rl. Qed.
#[local] Hint Resolve quietly_dual quietly_new : unchanged.

Lemma dual_keeps {A} (body : Instance * Endpoint → M RS A) h :
  (∀ res, quietly (body res)) → (∀ e, quietly (h e)) →
  keeps Free Free (with_dual_handlers (dual_env env cfg body) h).
Proof.
  intros Hb Hh. unfold with_dual_handlers. apply keeps_try.
  - unfold dual_env. apply manage_request_keeps; [by left|]. apply manage_prefill. intros pres Hp. apply manage_decode. intros dres Hd.
    by apply quietly_keeps.
  - intros e. apply quietly_keeps. unfold cancel_scopes. unchanged. 
Qed.

Lemma dual_stream_keeps : keeps Free Free (dual_stream json_loads json_encode env cfg bootstrap_port room prefill_failed).
Proof.
  unfold dual_stream. generalize 0 as attempt.
  induction (Z.to_nat (transport_retry_limit cfg)) as [|n IH]; intros attempt; cbn [dual_stream_for]; [quiet_keeps|].
  apply keeps_bind; [|intros []; [quiet_keeps|apply IH]]. unfold dual_stream_attempt. apply dual_keeps.
  - intros res. unfold run_prefill, after_prefill, ignore. unchanged.
  - intros e. unchanged.
Qed.

Lemma dual_post_keeps : keeps Free Free (dual_post env cfg bootstrap_port room prefill_failed).
Proof.
  unfold dual_post. generalize 0 as attempt.
  induction (Z.to_nat (transport_retry_limit cfg)) as [|n IH]; intros attempt; cbn [dual_post_for]; [quiet_keeps|].
  apply keeps_bind; [|intros [b|]; [quiet_keeps|apply IH]]. unfold dual_post_attempt. apply dual_keeps.
  - intros res. unfold run_prefill, after_prefill. unchanged.
  - intros e. unchanged.
Qed.
End released.

(** ** Properties *)


Lemma sample_accounts st : accounts (sample_env st).
Proof. apply (sample_reliable st). Qed.

