(* ===== verification/RouterCdp.v ===== *)
(** * The CDP router: decode first, prefill through the metaserver

    Models [coordinator/router/strategies/cdp_separate.py].  The request is sent to a
    decode instance, which calls back a metaserver of the worker; the call schedules a
    prefill instance in a second task over the same request record.  The decode half is
    a computation; at each of its awaits a schedule says which calls of the metaserver
    arrive and which prefill tasks get their answer. *)

From stdpp Require Import base option list strings pretty sets.
From Stdlib Require Import ZArith Lia Ascii.
From S2P Require Import Prelude Float64 PyText Resources RequestManager Recompute Router RouterLedger RouterModes.
Open Scope Z_scope.

Definition CHAT_COMPLETION_PREFIX : string := "chatcmpl-".
Definition COMPLETION_PREFIX : string := "cmpl-".
Definition COMPLETION_SUFFIX : string := "-0".

Definition removeprefix (s prefix : string) : string :=
  if startswith s prefix then of_chars (drop (String.length prefix) (chars s)) else s.
Definition removesuffix (s suffix : string) : string :=
  if ends_with s suffix then of_chars (take (String.length s - String.length suffix) (chars s)) else s.

Definition trim_request_id_prefix (id : string) : string :=
  if startswith id CHAT_COMPLETION_PREFIX then removeprefix id CHAT_COMPLETION_PREFIX
  else if startswith id COMPLETION_PREFIX && ends_with id COMPLETION_SUFFIX
  then removesuffix (removeprefix id COMPLETION_PREFIX) COMPLETION_SUFFIX
  else id.

(** What the metaserver sees: a call with its body, or the answer to a prefill task. *)
Inductive MetaEvent := Arrive (body : jdict) | Resume (k : nat).

Section cdp.
Context (json_loads : string → option json) (json_encode : json → string) (json_dumps_len : json → Z).
Context (env : REnv) (cfg : ExceptionConfig).
Context (meta : nat → list MetaEvent) (host : string) (worker_port : option Z).

(** ** The prefill tasks *)

(** [req_info.cancel_scope()]: the task under the prefill scope sees it at its next
    step. *)
Definition mark_cancelled (l : list Task) (sc : option Scope) : list Task :=
  match sc with
  | Some (k, false) =>
      match l !! k with
      | Some (Prefilling res _) => <[k := Prefilling res true]> l
      | _ => l
      end
  | _ => l
  end.
Definition cdp_cancel : M RS unit :=
  mmodify (λ s, set_req (set_tasks s (mark_cancelled (r_tasks s) (p_cancel_scope (r_req s))))
                  (cancel_scope scope_cancelled scope_cancel (r_req s))).

(** What ends the metaserver call. *)
Definition meta_failed {A} (e : pyexn) : M RS A :=
  cdp_cancel ;;
  match e with CancelledError => mraise e | _ => set_state env EXCEPTION ;; mraise e end.

(** The record found under the id is the one of this request. *)
Definition get_origin_request_info (body : jdict) : M RS unit :=
  v ← mlift (match dget body "request_id" with Some v => Ret v | None => Raise KeyError end);
  match v with
  | JStr id =>
      s ← mget;
      let id := trim_request_id_prefix id in
      if bool_decide (id = req_id (r_req s)) && dhas (req_info_dict (r_mgr s)) id then mret tt
      else mraise (HTTPException 404)
  | _ => mraise AttributeError
  end.

(** [handle_metaserver_request] up to the prefill request it awaits. *)
Definition meta_arrive (body : jdict) : M RS unit :=
  get_origin_request_info body ;;
  s ← mget;
  let p_data := apply_prefill_params (req_data (r_req s)) (Some (JObj body)) true in
  mtry
    (res ← prepare_resource env cfg ROLE_P;
     mmodify (λ s, set_tasks (set_req s (set_cancel_scope (r_req s) (length (r_tasks s), false) ROLE_P))
                     (r_tasks s ++ [Prefilling res false])) ;;
     mmodify (λ s, add_post s (copy_req_data_for_engine p_data)))
    meta_failed.

(** The rest, when the answer comes or the scope was cancelled: then a plain
    [Exception] is raised, unless the record has got new scopes since. *)
Definition meta_resume (k : nat) : M RS unit :=
  s ← mget;
  match r_tasks s !! k with
  | Some (Prefilling res was_cancelled) =>
      r ← (λ s, let '(s', r) :=
             mtry
               (mfinally
                  (if was_cancelled : bool then
                     s ← mget;
                     if is_cancelled scope_cancelled (r_req s) then mraise RuntimeError else mret JNull
                   else
                     j ← ask (e_post env);
                     j ← mlift j;
                     set_state env PREFILL_END ;;
                     mret j)
                  (ignore (release_all env res)))
               meta_failed s in (s', Ret r));
      mmodify (λ s, set_tasks s (<[k := Returned r]> (r_tasks s)))
  | _ => mret tt
  end.

(** The exception of a call goes to the decode instance that made it. *)
Definition meta_step (ev : MetaEvent) : M RS unit :=
  mtry (match ev with Arrive body => meta_arrive body | Resume k => meta_resume k end) (λ _, mret tt).

Fixpoint meta_steps (evs : list MetaEvent) : M RS unit :=
  match evs with [] => mret tt | ev :: evs => meta_step ev ;; meta_steps evs end.

(** ** The decode half *)

Definition d_cancelled (s : RS) : bool := scope_called scope_cancelled (d_cancel_scope (r_req s)).

(** An await under the decode scope: the other tasks run, and the scope may be
    cancelled. *)
Definition await : M RS unit :=
  evs ← ask meta;
  meta_steps evs ;;
  s ← mget;
  if d_cancelled s then mraise CancelledError else mret tt.

(** [with cancel_scope]: nothing comes out when the scope was cancelled. *)
Definition in_d_scope {A} (m : M RS A) : M RS (option A) := λ s,
  match m s with
  | (s, Ret a) => (s, Ret (Some a))
  | (s, Raise CancelledError) => if d_cancelled s then (s, Ret None) else (s, Raise CancelledError)
  | (s, Raise e) => (s, Raise e)
  end.

Definition worker_metaserver_url : py string :=
  match worker_port with
  | None => Raise RuntimeError
  | Some p => Ret ("http://" +:+ host +:+ ":" +:+ pretty p +:+ "/v1/metaserver")
  end.

Definition attach_cdp_decode_kv_params : M RS unit :=
  url ← mlift worker_metaserver_url;
  mmodify (λ s,
    let d := dset (r_data s) "kv_transfer_params"
               (JObj [("do_remote_decode"%string, JBool false); ("do_remote_prefill"%string, JBool true);
                      ("metaserver"%string, JStr url)]) in
    let ids := if recompute_enabled cfg then JBool true else dget_or d CLIENT_RETURN_TOKEN_IDS_KEY (JBool false) in
    set_rdata s (dset d "return_token_ids" ids)).

Definition cdp_gen_d_request : M RS unit :=
  mmodify (λ s, set_rdata s (req_data (r_req s))) ;;
  attach_cdp_decode_kv_params.

(** [_prepare_recompute_retry] on the body the router passes around; the count goes up
    when it returns. *)
Definition cdp_prepare (i : RecInfo) : M RS unit :=
  if negb (recompute_enabled cfg) then mraise (HTTPException 503)
  else
    (λ s, let '(t, r) := prepare_retry_request json_dumps_len i (mkRetry (r_data s) (r_req s)) in
          (set_rdata (set_req s (rt_req t)) (rt_data t), r)) ;;
    mmodify (λ s, set_count s (retry_count s + 1)).

Definition cdp_recompute (i : RecInfo) : M RS unit :=
  s ← mget;
  check_recompute_limit cfg (retry_count s) ;;
  set_state env RECOMPUTE ;;
  cdp_prepare i.

Definition cdp_chunk (chunk : string) (l : RecInfo * bool) : M RS (option (RecInfo * bool)) :=
  await ;;
  s ← mget;
  '(i, role_sent, out) ← mlift (process_stream_chunk json_loads json_encode chunk l.1 (retry_count s)
     (effective_entry_api (r_req s)) l.2 (req_id (r_req s)) (recompute_enabled cfg));
  match out with
  | None =>
      if recompute_blocked i then mraise (HTTPException 503)
      else cdp_recompute i ;; mret None
  | Some out =>
      (if bool_decide (out = ""%string) then mret tt
       else mmodify (λ s, set_stream_sent s true) ;; yield env (Chunk out)) ;;
      mret (Some (i, role_sent))
  end.

(** A leg ended with the response, with a recomputation, or with nothing. *)
Inductive Leg (A : Type) := LegDone (a : A) | LegAgain | LegNothing.
Arguments LegDone {A} _.
Arguments LegAgain {A}.
Arguments LegNothing {A}.

Definition after_scope {A} (o : option (Leg A)) : M RS (Leg A) :=
  match o with
  | Some l => mret l
  | None =>
      s ← mget;
      if is_cancelled scope_cancelled (r_req s) then mraise RuntimeError else mret LegNothing
  end.

Definition cdp_leg {A} (body : M RS (Leg A)) : M RS (Leg A) :=
  manage_request
    (manage_resource env cfg ROLE_D (release_tokens env) (λ res,
       new_scope ROLE_D ;;
       o ← in_d_scope body;
       after_scope o)).

Definition cdp_stream_leg : M RS (Leg unit) :=
  attach_cdp_decode_kv_params ;;
  s ← mget;
  i ← mlift (extract_request_info (r_data s));
  cdp_leg
    (r ← forward_stream_at env cdp_chunk await (r_data s) (i, false);
     match r with
     | None => mret LegAgain
     | Some _ => set_state env DECODE_END ;; mret (LegDone tt)
     end).

Definition cdp_post_leg : M RS (Leg json) :=
  attach_cdp_decode_kv_params ;;
  s ← mget;
  cdp_leg
    (body ← forward_request_at env await (r_data s);
     again ← mlift (is_recomputed_nonstream_response body);
     if again : bool then
       if negb (recompute_enabled cfg) then mraise (HTTPException 503)
       else
         s ← mget;
         check_recompute_limit cfg (retry_count s) ;;
         set_state env RECOMPUTE ;;
         mlift (validate_nonstream_recompute_body body) ;;
         s ← mget;
         i ← mlift (build_request_info_for_nonstream_recompute (r_data s) body);
         cdp_prepare i ;;
         mret LegAgain
     else
       set_state env DECODE_END ;;
       body ← client_body body;
       mret (LegDone body)).

(** How an attempt ended: the request is over, the next attempt follows, or the fuel is
    used up. *)
Inductive AttemptEnd (A : Type) := Over (a : A) | Next | NoFuel.
Arguments Over {A} _.
Arguments Next {A}.
Arguments NoFuel {A}.

(** [while True] with streaming: a recomputation goes around the loop with a new id. *)
Fixpoint cdp_stream_while {A} (fuel : nat) (leg : M RS (Leg A)) : M RS (AttemptEnd A) :=
  match fuel with
  | O => mret NoFuel
  | S fuel =>
      l ← leg;
      match l with
      | LegDone a => mret (Over a)
      | LegAgain => bump_req_id ;; cdp_stream_while fuel leg
      | LegNothing => cdp_stream_while fuel leg
      end
  end.

(** [while True] without: the [break] of a recomputation is the one of this loop, so the
    attempt is over and the id stays. *)
Fixpoint cdp_post_while {A} (fuel : nat) (leg : M RS (Leg A)) : M RS (AttemptEnd A) :=
  match fuel with
  | O => mret NoFuel
  | S fuel =>
      l ← leg;
      match l with
      | LegDone a => mret (Over a)
      | LegAgain => mret Next
      | LegNothing => cdp_post_while fuel leg
      end
  end.

(** Every exception cancels the scopes; a cancellation and an [HTTPException] go on. *)
Definition with_cdp_handlers {A} (m : M RS A) (h : pyexn → M RS A) : M RS A :=
  mtry m (λ e, cdp_cancel ;; match e with CancelledError | HTTPException _ => mraise e | _ => h e end).

Definition cdp_stream_attempt (fuel : nat) (attempt : Z) : M RS (AttemptEnd unit) :=
  mmodify (λ s, set_stream_sent s false) ;;
  with_cdp_handlers
    (cdp_stream_while fuel cdp_stream_leg)
    (λ e,
     s ← mget;
     if stream_chunk_sent s || last_attempt cfg attempt then
       set_state env EXCEPTION ;; yield env (ErrorChunk (error_code e)) ;; mret (Over tt)
     else mret Next).

Definition cdp_post_attempt (fuel : nat) (attempt : Z) : M RS (AttemptEnd json) :=
  with_cdp_handlers
    (cdp_post_while fuel cdp_post_leg)
    (λ e,
     if attempt <? transport_retry_limit cfg - 1 then mret Next
     else set_state env EXCEPTION ;; mraise e).

(** After the last attempt the method returns [None]: [Next]. *)
Fixpoint cdp_for {A} (attempts : nat) (attempt_of : Z → M RS (AttemptEnd A)) (attempt : Z) : M RS (AttemptEnd A) :=
  match attempts with
  | O => mret Next
  | S attempts =>
      r ← attempt_of attempt;
      match r with Next => cdp_for attempts attempt_of (attempt + 1) | r => mret r end
  end.

Definition cdp_stream (fuel : nat) : M RS (AttemptEnd unit) :=
  cdp_gen_d_request ;;
  cdp_for (Z.to_nat (transport_retry_limit cfg)) (cdp_stream_attempt fuel) 0.
Definition cdp_post (fuel : nat) : M RS (AttemptEnd json) :=
  cdp_gen_d_request ;;
  cdp_for (Z.to_nat (transport_retry_limit cfg)) (cdp_post_attempt fuel) 0.
End cdp.

Arguments LegDone {A} _.
Arguments LegAgain {A}.
Arguments LegNothing {A}.
Arguments Over {A} _.
Arguments Next {A}.
Arguments NoFuel {A}.

(** ** The decode half gives back what it took *)

Section settled.
Context (json_loads : string → option json) (json_encode : json → string) (json_dumps_len : json → Z).
Context (env : REnv) (cfg : ExceptionConfig).
Context (meta : nat → list MetaEvent) (host : string) (worker_port : option Z).
Context (own : string → Prop) (own_bump : ∀ id, own id → own (modify_req_id_retry_segment id)) (Hrel : accounts env).

(** The prefill tasks hold prefill instances; of the prefill charges nothing is claimed. *)
Definition tasks_prefill (l : list Task) : Prop := ∀ res c, Prefilling res c ∈ l → normalize_role res.1 = Some ROLE_P.
Abbreviation JA d := (J own (hpd Any d)).
Definition K (d : hold) (s : RS) : Prop := JA d s ∧ tasks_prefill (r_tasks s).
Definition keep {A} (d : hold) (m : M RS A) : Prop := triple (K d) m (λ _, K d) (λ _, K d).

Definition kview (s : RS) := (req_id (r_req s), req_workload_dict (r_mgr s), r_ledger s, r_tasks s).
Abbreviation hush := (unchanged kview).
Abbreviation same_tasks := (unchanged r_tasks).

Lemma hush_keep {A} d (m : M RS A) : hush m → keep d m.
Proof.
  intros Hm s [Hs Ht]. specialize (Hm s). unfold kview in Hm. injection Hm as H1 H2 H3 H4.
  destruct (m s) as [s' [a|e]]; simpl in *; (split; [by apply (J_frame own _ s)|by rewrite H4]).
Qed.

Lemma keep_bind {A B} d (m : M RS A) (k : A → M RS B) : keep d m → (∀ a, keep d (k a)) → keep d (m ≫= k).
Proof. intros Hm Hk. by eapply triple_bind. Qed.
Lemma keep_try {A} d (m : M RS A) h : keep d m → (∀ e, keep d (h e)) → keep d (mtry m h).
Proof. intros Hm Hh s Hs. specialize (Hm s Hs). unfold mtry. destruct (m s) as [s' [a|e]]; [done|]. by apply Hh. Qed.
Lemma keep_finally {A} d (m : M RS A) f : keep d m → keep d f → keep d (mfinally m f).
Proof. intros Hm Hf. eapply triple_finally; [exact Hm|intros a; exact Hf|intros e; exact Hf]. Qed.
Lemma keep_read {A} d (k : RS → M RS A) : (∀ s, K d s → keep d (k s)) → keep d (mget ≫= k).
Proof. intros Hk. apply triple_get. intros s Hs s' ->. by apply (Hk s Hs). Qed.

(** What is proved of the charges, for a step that leaves the tasks alone. *)
Lemma keep_of {A} d (m : M RS A) : same_tasks m → triple (JA d) m (λ _, JA d) (λ _, JA d) → keep d m.
Proof.
  intros Ht Hm s [Hs Hp]. specialize (Hm s Hs). specialize (Ht s). unfold K.
  destruct (m s) as [s' [a|e]]; simpl in *; by rewrite Ht.
Qed.

Lemma hush_ask {A} (f : nat → A) : hush (ask f). Proof. by intros s. Qed.
#[local] Hint Resolve hush_ask : unchanged.
Lemma hush_state st : hush (set_state env st). Proof. unfold set_state. unchanged. Qed.
Lemma hush_yield x : hush (yield env x). Proof. unfold yield. unchanged. Qed.
Lemma hush_body b : hush (client_body b). Proof. unfold client_body. unchanged. Qed.
#[local] Hint Resolve hush_state hush_yield hush_body : unchanged.
Lemma hush_scope : hush (new_scope ROLE_D). Proof. unfold new_scope. unchanged. Qed.
Lemma hush_attach : hush (attach_cdp_decode_kv_params cfg host worker_port).
Proof. unfold attach_cdp_decode_kv_params. unchanged. Qed.
Lemma hush_origin b : hush (get_origin_request_info b).
Proof. unfold get_origin_request_info. unchanged. Qed.
#[local] Hint Resolve hush_scope hush_attach hush_origin : unchanged.

Lemma tasks_ask {A} (f : nat → A) : same_tasks (ask f). Proof. by intros s. Qed.
#[local] Hint Resolve tasks_ask : unchanged.
Lemma tasks_state st : same_tasks (set_state env st). Proof. unfold set_state. unchanged. Qed.
#[local] Hint Resolve tasks_state : unchanged.
Lemma tasks_once rl : same_tasks (prepare_once env rl).
Proof. unfold prepare_once. unchanged. Qed.
Lemma tasks_prepare rl : same_tasks (prepare_resource env cfg rl).
Proof.
  unfold prepare_resource. apply unchanged_bind; [unchanged|]. intros u.
  induction (Z.to_nat (max_retry cfg)) as [|n IH]; simpl; [unchanged|]. apply unchanged_except; [apply tasks_once|done].
Qed.
Lemma tasks_update res a : same_tasks (update_workload env res a).
Proof. unfold update_workload. unchanged. Qed.
#[local] Hint Resolve tasks_prepare tasks_update : unchanged.
Lemma tasks_release res : same_tasks (ignore (release_tokens env res)).
Proof. unfold ignore, release_tokens. unchanged. Qed.
Lemma tasks_release_all res : same_tasks (ignore (release_all env res)).
Proof. unfold ignore, release_all, release_tokens, release_kv. unchanged. Qed.
#[local] Hint Resolve tasks_release tasks_release_all : unchanged.

(** *** The prefill tasks *)

Lemma mark_prefill l sc : tasks_prefill l → tasks_prefill (mark_cancelled l sc).
Proof.
  intros Hl. unfold mark_cancelled. destruct sc as [[k []]|]; try done. destruct (l !! k) as [[res c|r]|] eqn:E; try done.
  intros res' c' Hin. apply list_elem_of_lookup in Hin as [n Hn]. destruct (decide (n = k)) as [->|Hne].
  - rewrite list_lookup_insert_eq in Hn by (by eapply lookup_lt_Some). injection Hn as <- <-.
    apply (Hl res c). by eapply list_elem_of_lookup_2.
  - rewrite list_lookup_insert_ne in Hn by done. apply (Hl res' c'). by eapply list_elem_of_lookup_2.
Qed.

Lemma keep_cancel d : keep d cdp_cancel.
Proof. intros s [Hs Ht]. simpl. split; [by apply (J_frame own _ s)|by apply mark_prefill]. Qed.

Lemma keep_failed {A} d e : keep d (meta_failed (A := A) env e).
Proof.
  unfold meta_failed. apply keep_bind; [apply keep_cancel|]. intros u. apply hush_keep. destruct e; unchanged.
Qed.

Lemma keep_prefill_release d res :
  normalize_role res.1 = Some ROLE_P → keep d (ignore (release_all env res)).
Proof.
  intros Hr. apply keep_of; [unchanged|]. unfold ignore, release_all, release_tokens, release_kv.
  assert (∀ a, a ≠ ALLOCATION → triple (JA d) (update_workload env res a) (λ _, JA d) (λ _, JA d)) as H.
  { intros a Ha. eapply triple_conseq; [by apply (release_J env own Hrel a (hpd Any d) ROLE_P res)|done| |done].
    intros b s Hs. eapply J_ext; [|exact Hs]. intros r. unfold upd. by destruct (decide (r = ROLE_P)) as [->|]. }
  apply (triple_bind _ _ _ (λ _, JA d)); [|intros a; by apply triple_ret]. eapply triple_bind; [by apply H|]. intros a.
  eapply triple_bind; [by apply H|]. intros b. by apply triple_ret.
Qed.

Lemma keep_arrive d body : keep d (meta_arrive env cfg body).
Proof.
  unfold meta_arrive. apply keep_bind; [apply hush_keep; unchanged|]. intros u. apply keep_read. intros s0 _.
  apply keep_try; [|intros e; apply keep_failed].
  apply (triple_bind _ _ _ (λ res s, normalize_role res.1 = Some ROLE_P ∧ K d s)).
  - intros s [Hs Ht]. pose proof (prepare_any_J env cfg own Hrel (hpd Any d) ROLE_P eq_refl s Hs) as H.
    pose proof (tasks_prepare ROLE_P s) as Et. unfold K.
    destruct (prepare_resource env cfg ROLE_P s) as [s' [res|e]]; simpl in *; rewrite Et; [by destruct H|by destruct H].
  - intros res. apply triple_pre. intros Hr. eapply (triple_bind _ _ _ (λ _, K d)); [|intros u2; by apply hush_keep; unchanged].
    apply triple_modify. intros s [Hs Ht]. split; [by apply (J_frame own _ s)|]. simpl.
    intros res' c' [Hin|Hin]%elem_of_app; [by apply (Ht res' c')|]. apply list_elem_of_singleton in Hin. by injection Hin as -> ->.
Qed.

Lemma keep_resume d k : keep d (meta_resume env k).
Proof.
  unfold meta_resume. apply keep_read. intros s0 [_ Ht0]. destruct (r_tasks s0 !! k) as [[res c|r]|] eqn:E; [|by apply hush_keep; unchanged|by apply hush_keep; unchanged].
  assert (normalize_role res.1 = Some ROLE_P) as Hr by (apply (Ht0 res c); by eapply list_elem_of_lookup_2).
  apply keep_bind.
  - match goal with |- context [mtry ?m ?h] => assert (keep d (mtry m h)) as Hm end.
    { apply keep_try; [|intros e; apply keep_failed]. apply keep_finally; [|by apply keep_prefill_release].
      apply hush_keep. destruct c; unchanged. }
    intros s Hs. specialize (Hm s Hs). by destruct (mtry _ _ s) as [s' [a|e]].
  - intros r. apply triple_modify. intros s [Hs Ht]. split; [by apply (J_frame own _ s)|]. simpl.
    intros res' c' Hin. apply list_elem_of_lookup in Hin as [n Hn]. destruct (decide (n = k)) as [->|Hne].
    + destruct (decide (k < length (r_tasks s))%nat); [by rewrite list_lookup_insert_eq in Hn|].
      rewrite list_insert_ge in Hn by lia. apply (Ht res' c'). by eapply list_elem_of_lookup_2.
    + rewrite list_lookup_insert_ne in Hn by done. apply (Ht res' c'). by eapply list_elem_of_lookup_2.
Qed.

Lemma keep_steps d evs : keep d (meta_steps env cfg evs).
Proof.
  induction evs as [|ev evs IH]; simpl; [apply hush_keep; unchanged|]. apply keep_bind; [|done].
  unfold meta_step. apply keep_try; [destruct ev; [apply keep_arrive|apply keep_resume]|]. intros e. apply hush_keep. unchanged.
Qed.
(** *** The decode half *)

Lemma keep_await d : keep d (await env cfg meta).
Proof.
  unfold await. apply keep_bind; [apply hush_keep; unchanged|]. intros evs. apply keep_bind; [apply keep_steps|].
  intros u. apply hush_keep. unchanged.
Qed.

Lemma keep_scope {A} d (m : M RS A) : keep d m → keep d (in_d_scope m).
Proof.
  intros Hm s Hs. specialize (Hm s Hs). unfold in_d_scope. destruct (m s) as [s' [a|e]]; [done|].
  destruct e; try done. by destruct (d_cancelled s').
Qed.

Lemma keep_retry d i : keep d (cdp_prepare json_dumps_len cfg i).
Proof.
  unfold cdp_prepare. destruct (negb _); [apply hush_keep; unchanged|]. apply keep_bind; [|intros u; apply hush_keep; unchanged].
  intros s [Hs Ht]. pose proof (prepare_retry_id json_dumps_len i (req_id (r_req s)) (mkRetry (r_data s) (r_req s)) eq_refl) as H.
  destruct (prepare_retry_request _ _ _) as [t [u|e]]; (split; [|exact Ht]); apply (J_frame own _ s); try done.
  by destruct H.
Qed.

Lemma keep_recompute d i : keep d (cdp_recompute json_dumps_len env cfg i).
Proof.
  unfold cdp_recompute. apply keep_read. intros s0 _. apply keep_bind; [apply hush_keep; unfold check_recompute_limit; unchanged|].
  intros u. apply keep_bind; [apply hush_keep; unchanged|]. intros u2. apply keep_retry.
Qed.

Lemma keep_chunk d c l : keep d (cdp_chunk json_loads json_encode json_dumps_len env cfg meta c l).
Proof.
  unfold cdp_chunk. apply keep_bind; [apply keep_await|]. intros u. apply keep_read. intros s0 _.
  apply keep_bind; [apply hush_keep; unchanged|]. intros [[i rs] [out|]].
  - apply hush_keep. unchanged.
  - destruct (recompute_blocked i); [apply hush_keep; unchanged|]. apply keep_bind; [apply keep_recompute|].
    intros u2. apply hush_keep. unchanged.
Qed.

Lemma keep_frames {L} d (body : string → L → M RS (option L)) :
  (∀ c l, keep d (body c l)) → ∀ frames l, keep d (each_frame body frames l).
Proof.
  intros Hb. induction frames as [|f fs IH]; intros l; simpl; [apply hush_keep; unchanged|].
  apply keep_bind; [apply Hb|]. intros [l'|]; [apply IH|apply hush_keep; unchanged].
Qed.
Lemma keep_chunks {L} d (body : string → L → M RS (option L)) :
  (∀ c l, keep d (body c l)) → ∀ chunks e pending l, keep d (each_chunk env body chunks e pending l).
Proof.
  intros Hb. induction chunks as [|c cs IH]; intros e pending l; simpl.
  - destruct e; [apply hush_keep; unchanged|]. destruct (decide _); [apply hush_keep; unchanged|apply Hb].
  - apply keep_read. intros s0 _. apply keep_bind; [apply hush_keep; unchanged|]. intros u. destruct (cut _) as [frames rest].
    apply keep_bind; [by apply keep_frames|]. intros [l'|]; [apply IH|apply hush_keep; unchanged].
Qed.

Lemma keep_stream d data l :
  keep d (forward_stream_at env (cdp_chunk json_loads json_encode json_dumps_len env cfg meta) (await env cfg meta) data l).
Proof.
  unfold forward_stream_at. apply keep_bind; [apply hush_keep; unchanged|]. intros u. apply keep_bind; [apply keep_await|].
  intros u2. apply keep_bind; [apply hush_keep; unchanged|]. intros r. apply keep_chunks. intros c l'. apply keep_chunk.
Qed.

Lemma K_free res s : K (Held false false res) s → K Free s.
Proof. intros [Hs Ht]. split; [|done]. by apply (J_free_d own res Any). Qed.

(** The decode context: prepared from nothing, released to nothing. *)
Lemma manage_decode_keep {A} (body : Instance * Endpoint → M RS A) :
  (∀ res d, keep d (body res)) → keep Free (manage_resource env cfg ROLE_D (release_tokens env) body).
Proof.
  intros Hb. unfold manage_resource.
  apply (triple_bind _ _ _ (λ res s, normalize_role res.1 = Some ROLE_D ∧ K (full ROLE_D res) s)).
  - intros s [Hs Ht]. pose proof (prepare_J env cfg own Hrel (hpd Any Free) ROLE_D eq_refl s Hs) as H.
    pose proof (tasks_prepare ROLE_D s) as Et. unfold K.
    destruct (prepare_resource env cfg ROLE_D s) as [s' [res|e]]; simpl in *; rewrite Et.
    + destruct H as [Hr H]. split; [done|]. split; [|done]. eapply J_ext; [|exact H]. intros r. symmetry. apply upd_d.
    + by destruct H.
  - intros res. apply triple_pre. intros Hr.
    assert (∀ E, triple (K (full ROLE_D res)) (ignore (release_tokens env res)) (λ _, K Free) E) as Hrls.
    { intros E s [Hs Ht]. pose proof (release_d_all env own Hrel Any res Hr s Hs) as H. pose proof (tasks_release res s) as Et.
      destruct (ignore (release_tokens env res) s) as [s' [u|e]]; [|done]. simpl in Et. unfold K. by rewrite Et. }
    eapply triple_finally; [apply (Hb res)|intros a; apply Hrls|intros e; apply Hrls].
Qed.

Lemma manage_request_keep {A} (body : M RS A) : keep Free body → keep Free (manage_request body).
Proof.
  intros Hb. unfold manage_request. apply keep_bind; [apply keep_of; [unchanged|by apply add_request_J]|].
  intros u. apply keep_finally; [exact Hb|]. apply keep_of; [unchanged|]. apply del_request_J. by right.
Qed.

Lemma leg_keep {A} (body : M RS (Leg A)) : (∀ d, keep d body) → keep Free (cdp_leg env cfg body).
Proof.
  intros Hb. unfold cdp_leg. apply manage_request_keep, manage_decode_keep. intros res d.
  apply keep_bind; [apply hush_keep; unchanged|]. intros u. apply keep_bind; [by apply keep_scope|]. intros o.
  apply hush_keep. unfold after_scope. unchanged.
Qed.

Lemma stream_leg_keep : keep Free (cdp_stream_leg json_loads json_encode json_dumps_len env cfg meta host worker_port).
Proof.
  unfold cdp_stream_leg. apply keep_bind; [apply hush_keep; unchanged|]. intros u. apply keep_read. intros s0 _.
  apply keep_bind; [apply hush_keep; unchanged|]. intros i. apply leg_keep. intros d.
  apply keep_bind; [apply keep_stream|]. intros [l|]; apply hush_keep; unchanged.
Qed.

Lemma post_leg_keep : keep Free (cdp_post_leg json_dumps_len env cfg meta host worker_port).
Proof.
  unfold cdp_post_leg. apply keep_bind; [apply hush_keep; unchanged|]. intros u. apply keep_read. intros s0 _.
  apply leg_keep. intros d. apply keep_bind.
  { unfold forward_request_at. apply keep_bind; [apply hush_keep; unchanged|]. intros u2. apply keep_bind; [apply keep_await|].
    intros u3. apply hush_keep. unchanged. }
  intros body. apply keep_bind; [apply hush_keep; unchanged|]. intros again. destruct again; [|apply hush_keep; unchanged].
  destruct (negb _); [apply hush_keep; unchanged|]. apply keep_read. intros s1 _.
  apply keep_bind; [apply hush_keep; unfold check_recompute_limit; unchanged|]. intros u2.
  apply keep_bind; [apply hush_keep; unchanged|]. intros u3. apply keep_bind; [apply hush_keep; unchanged|]. intros u4.
  apply keep_read. intros s2 _. apply keep_bind; [apply hush_keep; unchanged|]. intros i.
  apply keep_bind; [apply keep_retry|]. intros u5. apply hush_keep. unchanged.
Qed.

Lemma stream_while_keep {A} fuel (leg : M RS (Leg A)) : keep Free leg → keep Free (cdp_stream_while fuel leg).
Proof.
  intros Hl. induction fuel as [|fuel IH]; simpl; [apply hush_keep; unchanged|]. apply keep_bind; [exact Hl|].
  intros [a| |]; [apply hush_keep; unchanged| |exact IH]. apply keep_bind; [|intros u; exact IH].
  apply keep_of; [unfold bump_req_id; unchanged|].
  eapply triple_conseq; [apply (bump_J own own_bump Any); by right|done|done|done].
Qed.

Lemma post_while_keep {A} fuel (leg : M RS (Leg A)) : keep Free leg → keep Free (cdp_post_while fuel leg).
Proof.
  intros Hl. induction fuel as [|fuel IH]; simpl; [apply hush_keep; unchanged|]. apply keep_bind; [exact Hl|].
  intros [a| |]; [apply hush_keep; unchanged..|exact IH].
Qed.

Lemma handlers_keep {A} (m : M RS A) h : keep Free m → (∀ e, keep Free (h e)) → keep Free (with_cdp_handlers m h).
Proof.
  intros Hm Hh. unfold with_cdp_handlers. apply keep_try; [exact Hm|]. intros e. apply keep_bind; [apply keep_cancel|].
  intros u. destruct e; first [apply Hh|apply hush_keep; unchanged].
Qed.

Lemma for_keep {A} n (attempt_of : Z → M RS (AttemptEnd A)) : (∀ k, keep Free (attempt_of k)) → ∀ k, keep Free (cdp_for n attempt_of k).
Proof.
  intros Ha. induction n as [|n IH]; intros k; simpl; [apply hush_keep; unchanged|]. apply keep_bind; [apply Ha|].
  intros [a| |]; [apply hush_keep; unchanged|apply IH|apply hush_keep; unchanged].
Qed.

Lemma cdp_stream_keep fuel : keep Free (cdp_stream json_loads json_encode json_dumps_len env cfg meta host worker_port fuel).
Proof.
  unfold cdp_stream, cdp_gen_d_request. apply keep_bind; [apply hush_keep; unchanged|]. intros u. apply for_keep. intros k.
  unfold cdp_stream_attempt. apply keep_bind; [apply hush_keep; unchanged|]. intros u2. apply handlers_keep.
  - apply stream_while_keep, stream_leg_keep.
  - intros e. apply hush_keep. unchanged.
Qed.

Lemma cdp_post_keep fuel : keep Free (cdp_post json_dumps_len env cfg meta host worker_port fuel).
Proof.
  unfold cdp_post, cdp_gen_d_request. apply keep_bind; [apply hush_keep; unchanged|]. intros u. apply for_keep. intros k.
  unfold cdp_post_attempt. apply handlers_keep.
  - apply post_while_keep, post_leg_keep.
  - intros e. apply hush_keep. unchanged.
Qed.
End settled.

(** ** Properties *)


(** A call arrives at the first wait; its prefill task gets its answer at the next one. *)
Definition sample_meta (t : nat) : list MetaEvent :=
  if (t <? 5)%nat then [Arrive [("request_id"%string, JStr "cmpl-1234567890123456000000abcdef01-0")]] else [Resume 0].

