(* ===== verification/RouterCdpFailures.v ===== *)
(** * A CDP request that leaks

    The exact run of [SeparateCDPRouter] when the decode connection fails while the
    prefill task it started still waits for its instance. *)

From stdpp Require Import base option list strings pretty sets.
From Stdlib Require Import ZArith Lia Ascii.
From S2P Require Import Prelude Float64 PyText Resources RequestManager Recompute Router RouterLedger RouterFailures RouterModes RouterCdp.
Open Scope Z_scope.

Section leak.
Context (json_loads : string → option json) (json_encode : json → string) (json_dumps_len : json → Z).
Context (env : REnv) (cfg : ExceptionConfig).
Context (body : jdict) (host : string) (port : Z) (st : option Z).
Context (Hal : allocates env) (Hre : refunds env) (Hgone : ∀ t, e_gone env t = false) (Hmax : 1 <= max_retry cfg).
Context (Hstream : ∀ t, e_stream env t = mkStream [] (Some (TransportError st))).

(** What allocations and refunds leave alone. *)
Definition fview (s : RS) :=
  (req_info_dict (r_mgr s), r_tasks s, p_cancel_scope (r_req s), d_cancel_scope (r_req s), r_data s).

Lemma compute_info (m : RequestManager Router.Req) res id a n :
  req_info_dict (compute_and_update m res id a n).2 = req_info_dict m.
Proof.
  unfold compute_and_update, add_req_workload, update_req_workload, del_req_workload. repeat (case_match; try done; simplify_eq/=; try done).
Qed.

Lemma fview_ask {A} (f : nat → A) : unchanged fview (ask f). Proof. by intros s. Qed.
#[local] Hint Resolve fview_ask : unchanged.
Lemma fview_state x : unchanged fview (set_state env x). Proof. unfold set_state. unchanged. Qed.
#[local] Hint Resolve fview_state : unchanged.
Lemma fview_once rl : unchanged fview (prepare_once env rl).
Proof.
  unfold prepare_once. apply unchanged_bind; [unchanged|]. intros r. apply unchanged_bind; [unchanged|]. intros u.
  apply unchanged_bind; [unchanged|]. intros [[[i e] w]|]; [|unchanged]. intros s. erewrite M_bind_Ret by reflexivity.
  unfold add_req_workload. destruct (dhas _ _); done.
Qed.
Lemma fview_prepare rl : unchanged fview (prepare_resource env cfg rl).
Proof.
  unfold prepare_resource. apply unchanged_bind; [unchanged|]. intros u.
  induction (Z.to_nat (max_retry cfg)) as [|n IH]; simpl; [unchanged|]. apply unchanged_except; [apply fview_once|done].
Qed.
Lemma fview_update res a : unchanged fview (update_workload env res a).
Proof.
  intros s. unfold update_workload. erewrite M_bind_Ret by reflexivity.
  pose proof (compute_info (r_mgr s) (Some (mkSR (Some res.1) (Some res.2))) (req_id (r_req s)) a (req_len (r_req s))) as Hi.
  destruct (compute_and_update _ _ _ _ _) as [[[w r]|] m]; simpl in Hi; (erewrite M_bind_Ret by reflexivity);
    [|unfold fview; simpl; by rewrite Hi]. erewrite M_bind_Ret by reflexivity. rewrite Hre. cbn [upd_applied upd_result].
  erewrite M_bind_Ret by reflexivity. unfold fview. simpl. by rewrite Hi.
Qed.

Definition core (s : RS) := (req_id (r_req s), req_data (r_req s), stream_chunk_sent s, r_sent s).
Lemma core_ctl s s' : ctl s' = ctl s → core s' = core s.
Proof. unfold ctl, core. intros [=]. congruence. Qed.

(** The metaserver call of this request. *)
Definition calls_back (s : RS) : Prop :=
  ∃ id, dget body "request_id" = Some (JStr id) ∧ trim_request_id_prefix id = req_id (r_req s).

Definition leaks (w : Workload) (res : Instance * Endpoint) : Prop :=
  normalize_role res.1 = Some ROLE_P ∧ fle (active_kv_cache w) f0 = false.

Lemma arrive_exact s :
  calls_back s → is_Some (dget (req_info_dict (r_mgr s)) (req_id (r_req s))) → slot s ROLE_P = None →
  ∃ s' i e w, meta_arrive env cfg body s = (s', Ret tt) ∧ core s' = core s ∧ leaks w (i, e) ∧
    r_tasks s' = r_tasks s ++ [Prefilling (i, e) false] ∧ p_cancel_scope (r_req s') = Some (length (r_tasks s), false) ∧
    d_cancel_scope (r_req s') = d_cancel_scope (r_req s) ∧ r_data s' = r_data s ∧
    req_info_dict (r_mgr s') = req_info_dict (r_mgr s) ∧ r_ledger s' = r_ledger s ++ [charge_of (i, e, w)].
Proof.
  intros (id & Hb & Hid) Hi Hs. unfold meta_arrive.
  assert (get_origin_request_info body s = (s, Ret tt)) as Eo.
  { unfold get_origin_request_info. rewrite Hb. erewrite M_bind_Ret by reflexivity. cbv beta iota. erewrite M_bind_Ret by reflexivity.
    rewrite Hid, bool_decide_eq_true_2 by done. by rewrite (proj2 (dhas_true _ _) Hi). }
  rewrite (M_bind_Ret _ _ _ _ _ Eo). erewrite M_bind_Ret by reflexivity. unfold mtry.
  destruct (prepare_exact env cfg Hal Hmax ROLE_P s Hs) as (s1 & i & e & w & E1 & C1 & R1 & _ & K1 & _ & _ & L1).
  pose proof (fview_prepare ROLE_P s) as Hf. rewrite E1 in Hf. unfold fview in Hf. simpl in Hf. injection Hf as F1 F2 F3 F4 F5.
  rewrite (M_bind_Ret _ _ _ _ _ E1). erewrite M_bind_Ret by reflexivity.
  eexists _, i, e, w. split; [reflexivity|]. simpl. rewrite F1, F2, F4, F5, L1.
  split; [apply (core_ctl _ _ C1)|]. split; [by split; [|apply K1]|]. by split_and!.
Qed.

Definition each_await (t : nat) : list MetaEvent := [Arrive body].
Abbreviation leg := (cdp_stream_leg json_loads json_encode json_dumps_len env cfg each_await host (Some port)).

(** The wait for the stream, in which the call arrives. *)
Lemma await_exact s :
  calls_back s → is_Some (dget (req_info_dict (r_mgr s)) (req_id (r_req s))) → slot s ROLE_P = None →
  d_cancelled s = false →
  ∃ s' i e w, await env cfg each_await s = (s', Ret tt) ∧ core s' = core s ∧ leaks w (i, e) ∧
    r_tasks s' = r_tasks s ++ [Prefilling (i, e) false] ∧ p_cancel_scope (r_req s') = Some (length (r_tasks s), false) ∧
    r_data s' = r_data s ∧
    req_info_dict (r_mgr s') = req_info_dict (r_mgr s) ∧ r_ledger s' = r_ledger s ++ [charge_of (i, e, w)].
Proof.
  intros Hc Hi Hs Hd. destruct (arrive_exact (tick s) Hc Hi Hs) as (s1 & i & e & w & E1 & H1 & H2 & H3 & H4 & H5 & H6 & H7 & H8).
  exists s1, i, e, w. split; [|by split_and!]. unfold await. erewrite M_bind_Ret by reflexivity. unfold each_await.
  cbn [meta_steps meta_step]. erewrite M_bind_Ret.
  2: { unfold meta_step. erewrite M_bind_Ret; [reflexivity|]. unfold mtry. rewrite E1. reflexivity. }
  erewrite M_bind_Ret by reflexivity. unfold d_cancelled in *. rewrite H5. cbn [tick r_req]. by rewrite Hd.
Qed.

(** A leg whose connection fails: the prefill task is left, its record is gone. *)
Lemma leg_exact s p :
  calls_back s → dget (req_info_dict (r_mgr s)) (req_id (r_req s)) = None → (∀ r, slot s r = None) →
  dget (r_data s) PROMPT = Some p →
  ∃ s' i e w, leg s = (s', Raise (TransportError st)) ∧ core s' = core s ∧ leaks w (i, e) ∧
    r_tasks s' = r_tasks s ++ [Prefilling (i, e) false] ∧ p_cancel_scope (r_req s') = Some (length (r_tasks s), false) ∧
    dget (r_data s') PROMPT = Some p ∧ dget (req_info_dict (r_mgr s')) (req_id (r_req s')) = None ∧ (∀ r, slot s' r = None) ∧
    role_ledger (r_ledger s') ROLE_P = role_ledger (r_ledger s) ROLE_P ++ [charge_of (i, e, w)].
Proof.
  intros Hc Hi Hs Hp. unfold cdp_stream_leg.
  set (url := "http://" +:+ host +:+ ":" +:+ pretty port +:+ "/v1/metaserver").
  assert (∃ d, attach_cdp_decode_kv_params cfg host (Some port) s = (set_rdata s d, Ret tt) ∧ dget d PROMPT = Some p) as (d & Ea & Hd).
  { eexists. split; [reflexivity|]. rewrite !dget_dset_ne by done. exact Hp. }
  rewrite (M_bind_Ret _ _ _ _ _ Ea). erewrite M_bind_Ret by reflexivity. cbn [r_data set_rdata].
  destruct (extract_exact d p Hd) as [ri Hri]. erewrite M_bind_Ret; [|unfold mlift; by rewrite Hri].
  unfold cdp_leg, manage_request. erewrite M_bind_Ret by reflexivity. cbn [fst mmodify].
  set (s1 := set_mgr (set_rdata s d) _).
  assert (is_Some (dget (req_info_dict (r_mgr s1)) (req_id (r_req s1))) ∧ (∀ r, slot s1 r = slot s r)) as [Hi1 Hs1].
  { unfold s1, add_req_info. cbn [r_mgr set_rdata r_req]. rewrite (proj2 (dhas_false _ _) Hi). simpl.
    split; [rewrite dget_dset_eq; eauto|done]. }
  destruct (prepare_exact env cfg Hal Hmax ROLE_D s1) as (s2 & i2 & e2 & w2 & E2 & C2 & R2 & W2 & _ & P2 & O2 & L2); [by rewrite Hs1|].
  pose proof (fview_prepare ROLE_D s1) as Hf. rewrite E2 in Hf. unfold fview in Hf. simpl in Hf. injection Hf as F1 F2 F3 F4 F5.
  set (s3 := set_req s2 (set_cancel_scope (r_req s2) (O, false) ROLE_D)).
  set (s4 := add_post (set_first s3 false) (copy_req_data_for_engine d)).
  apply core_ctl in C2. change (core s1) with (core s) in C2. unfold core in C2. injection C2 as C21 C22 C23 C24.
  destruct (await_exact s4) as (s5 & i & e & w & E5 & C5 & K5 & T5 & P5 & D5 & I5 & L5).
  { destruct Hc as (id & H1 & H2). exists id. split; [done|]. by rewrite H2. }
  { simpl. rewrite F1, C21. exact Hi1. }
  { change (slot s4 ROLE_P) with (slot s2 ROLE_P). by rewrite O2, Hs1. }
  { done. }
  destruct (ignore_exact env Hre (i2, e2) RELEASE_TOKENS (tick s5) ROLE_D) as (s6 & E6 & C6 & _ & _ & _ & L6); [done|done|].
  change (ignore (update_workload env (i2, e2) RELEASE_TOKENS) (tick s5)) with (ignore (release_tokens env (i2, e2)) (tick s5)) in E6.
  pose proof (fview_update (i2, e2) RELEASE_TOKENS (tick s5)) as Hf6.
  assert ((ignore (release_tokens env (i2, e2)) (tick s5)).1 = s6) as E6' by (by rewrite E6).
  assert (fview s6 = fview (tick s5)) as Hf6'.
  { rewrite <- E6', <- Hf6. unfold ignore, mbind, M_bind, release_tokens. by destruct (update_workload _ _ _ _) as [x [y|y]]. }
  clear Hf6. unfold fview in Hf6'. simpl in Hf6'. injection Hf6' as G1 G2 G3 G4 G5.
  apply core_ctl in C6. change (core (tick s5)) with (core s5) in C6. rewrite C5 in C6. unfold core in C6. simpl in C6.
  injection C6 as C61 C62 C63 C64.
  set (s7 := set_mgr s6 (del_req_info (r_mgr s6) (req_id (r_req s6))).2).
  pose proof (del_req_info_spec (r_mgr s6) (req_id (r_req s6))) as Hdel.
  destruct (del_req_info (r_mgr s6) (req_id (r_req s6))) as [bd md] eqn:Ed.
  assert (is_Some (get_req_info (r_mgr s6) (req_id (r_req s6)))) as Hin.
  { unfold get_req_info. rewrite G1, I5. simpl. rewrite C61, F1, C21. exact Hi1. }
  destruct Hdel as (Hb & _ & Hdel). destruct (Hdel (proj2 Hb Hin)) as (Hn1 & Hn2 & _). clear Hdel Hb.
  exists s7, i, e, w. split; [|split_and!].
  - eapply (mfinally_eq _ _ _ s6 s7 _ tt); [|unfold s7, mmodify; by rewrite Ed]. unfold manage_resource.
    rewrite (M_bind_Ret _ _ _ _ _ E2). eapply mfinally_eq; [|exact E6].
    erewrite M_bind_Ret by reflexivity. cbn [fst mmodify]. fold s3.
    apply M_bind_Raise. match goal with |- in_d_scope ?m _ = _ => assert (m s3 = (tick s5, Raise (TransportError st))) as Eb end.
    { apply M_bind_Raise. unfold forward_stream_at. erewrite M_bind_Ret by reflexivity. cbn [fst mmodify]. fold s4.
      rewrite (M_bind_Ret _ _ _ _ _ E5). erewrite M_bind_Ret by reflexivity. by rewrite Hstream. }
    unfold in_d_scope. by rewrite Eb.
  - unfold core. simpl. rewrite C61, C62, C63, C64, C21, C22, C23, C24. done.
  - exact K5.
  - unfold s7. simpl. rewrite G2, T5. simpl. by rewrite F2.
  - unfold s7. simpl. rewrite G3, P5. simpl. by rewrite F2.
  - unfold s7. simpl. rewrite G5, D5. simpl. by rewrite F5.
  - exact Hn1.
  - intros r. apply Hn2.
  - unfold s7. simpl. rewrite L6. change (r_ledger (tick s5)) with (r_ledger s5). rewrite L5. simpl. rewrite L2. change (r_ledger s1) with (r_ledger s).
    unfold role_ledger. rewrite !List.filter_app. simpl. pose proof (proj1 K5) as K51. simpl in K51. rewrite R2, K51. simpl. rewrite app_nil_r.
    destruct (slot (tick s5) ROLE_D); simpl; by rewrite ?app_nil_r.
Qed.

(** *** The attempts *)

(** Before an attempt: no record is left, and the call will come. *)
Definition ready (s : RS) : Prop :=
  calls_back s ∧ dget (req_info_dict (r_mgr s)) (req_id (r_req s)) = None ∧ (∀ r, slot s r = None) ∧
  ∃ p, dget (r_data s) PROMPT = Some p.

Definition failure_code : Z := error_code (TransportError st).

Lemma cdp_attempt_exact fuel attempt s :
  ready s →
  ∃ s' res w, cdp_stream_attempt json_loads json_encode json_dumps_len env cfg each_await host (Some port) (S fuel) attempt s =
      (s', Ret (if last_attempt cfg attempt then Over tt else Next)) ∧
    ready s' ∧ leaks w res ∧ r_tasks s' = r_tasks s ++ [Prefilling res true] ∧
    role_ledger (r_ledger s') ROLE_P = role_ledger (r_ledger s) ROLE_P ++ [charge_of (res.1, res.2, w)] ∧
    r_sent s' = r_sent s ++ (if last_attempt cfg attempt then [ErrorChunk failure_code] else []).
Proof.
  intros (Hc & Hi & Hs & p & Hp). set (s0 := set_stream_sent s false).
  destruct (leg_exact s0 p Hc Hi Hs Hp) as (s1 & i & e & w & E1 & C1 & K1 & T1 & P1 & D1 & I1 & S1 & L1).
  set (s2 := (cdp_cancel s1).1).
  assert (r_tasks s2 = r_tasks s ++ [Prefilling (i, e) true]) as T2.
  { unfold s2. simpl. rewrite P1. simpl. rewrite T1. change (r_tasks s0) with (r_tasks s).
    rewrite list_lookup_middle by done. by rewrite insert_app_r_alt, Nat.sub_diag by lia. }
  unfold core in C1. simpl in C1. injection C1 as C11 C12 C13 C14.
  assert (cdp_stream_attempt json_loads json_encode json_dumps_len env cfg each_await host (Some port) (S fuel) attempt s =
    (s3 ← mget;
     if stream_chunk_sent s3 || last_attempt cfg attempt then
       set_state env EXCEPTION ;; yield env (ErrorChunk failure_code) ;; mret (Over tt)
     else mret Next) s2) as Ea.
  { unfold cdp_stream_attempt. erewrite M_bind_Ret by reflexivity. cbn [fst mmodify]. fold s0.
    unfold with_cdp_handlers, mtry. cbn [cdp_stream_while]. erewrite M_bind_Raise by exact E1.
    erewrite M_bind_Ret by reflexivity. done. }
  assert (ready s2) as Hr2.
  { split; [|split; [|split; [|exists p]]].
    - destruct Hc as (id & H1 & H2). exists id. split; [done|]. simpl. by rewrite C11.
    - exact I1.
    - exact S1.
    - exact D1. }
  rewrite Ea. erewrite M_bind_Ret by reflexivity. change (stream_chunk_sent s2) with (stream_chunk_sent s1). rewrite C13. cbn [orb].
  destruct (last_attempt cfg attempt).
  - erewrite M_bind_Ret by reflexivity. cbn [fst]. unfold yield. erewrite M_bind_Ret.
    2: { erewrite M_bind_Ret by reflexivity. erewrite M_bind_Ret by reflexivity. by rewrite Hgone. }
    eexists _, (i, e), w. split; [reflexivity|]. split; [exact Hr2|]. split; [done|]. split; [exact T2|]. split; [exact L1|].
    simpl. by rewrite C14.
  - eexists s2, (i, e), w. split; [reflexivity|]. split; [exact Hr2|]. split; [done|]. split; [exact T2|]. split; [exact L1|].
    rewrite app_nil_r. exact C14.
Qed.

(** What the attempts leave: an allocation each, and a prefill task that still waits. *)
Definition left_over (n : nat) (s s' : RS) : Prop :=
  ∃ l : list (Workload * (Instance * Endpoint)), length l = n ∧ Forall (λ x, leaks x.1 x.2) l ∧
    role_ledger (r_ledger s') ROLE_P = role_ledger (r_ledger s) ROLE_P ++ map (λ x, charge_of (x.2.1, x.2.2, x.1)) l ∧
    r_tasks s' = r_tasks s ++ map (λ x, Prefilling x.2 true) l.

Lemma for_exact fuel n : ∀ attempt s,
  ready s → attempt + Z.of_nat (S n) = transport_retry_limit cfg →
  ∃ s', cdp_for (S n) (cdp_stream_attempt json_loads json_encode json_dumps_len env cfg each_await host (Some port) (S fuel)) attempt s =
      (s', Ret (Over tt)) ∧ ready s' ∧ left_over (S n) s s' ∧ r_sent s' = r_sent s ++ [ErrorChunk failure_code].
Proof.
  induction n as [|n IH]; intros attempt s Hr Hn; cbn [cdp_for];
    destruct (cdp_attempt_exact fuel attempt s Hr) as (s1 & res & w & E & Hr1 & K1 & T1 & L1 & S1); rewrite (M_bind_Ret _ _ _ _ _ E).
  - assert (last_attempt cfg attempt = true) as Hl by (unfold last_attempt; lia). rewrite Hl in *.
    exists s1. split; [done|]. split; [done|]. split; [|done]. exists [(w, res)]. split; [done|]. split; [by constructor|done].
  - assert (last_attempt cfg attempt = false) as Hl by (unfold last_attempt; lia). rewrite Hl in *.
    destruct (IH (attempt + 1) s1 Hr1) as (s' & E' & Hr' & (l & Hlen & Hall & HL & HT) & HS); [lia|].
    exists s'. split; [exact E'|]. split; [done|]. split; [|by rewrite HS, S1, app_nil_r].
    exists ((w, res) :: l). split; [simpl; lia|]. split; [by constructor|]. rewrite HL, HT, L1, T1, <- !app_assoc. done.
Qed.

(** *** The prefill tasks afterwards *)

(** No prefill record is left: a release has nothing to give back. *)
Definition nothing_left (l : list Charge) (s : RS) : Prop :=
  slot s ROLE_P = None ∧ role_ledger (r_ledger s) ROLE_P = l ∧ tasks_prefill (r_tasks s).
Definition inert {A} (m : M RS A) : Prop := ∀ l, triple (nothing_left l) m (λ _, nothing_left l) (λ _, nothing_left l).

Lemma hush_inert {A} (m : M RS A) : unchanged kview m → inert m.
Proof.
  intros Hm l s (H1 & H2 & H3). specialize (Hm s). unfold kview in Hm. injection Hm as E1 E2 E3 E4.
  unfold nothing_left, slot in *. destruct (m s) as [s' [a|e]]; simpl in *; rewrite E1, E2, E3, E4; done.
Qed.
Lemma inert_bind {A B} (m : M RS A) (k : A → M RS B) : inert m → (∀ a, inert (k a)) → inert (m ≫= k).
Proof. intros Hm Hk l. eapply triple_bind; [apply Hm|]. intros a. apply Hk. Qed.
Lemma inert_try {A} (m : M RS A) h : inert m → (∀ e, inert (h e)) → inert (mtry m h).
Proof. intros Hm Hh l s Hs. specialize (Hm l s Hs). unfold mtry. destruct (m s) as [s' [a|e]]; [done|]. by apply Hh. Qed.
Lemma inert_read {A} (k : RS → M RS A) : (∀ l s, nothing_left l s → triple (nothing_left l) (k s) (λ _, nothing_left l) (λ _, nothing_left l)) → inert (mget ≫= k).
Proof. intros Hk l. apply triple_get. intros s Hs s' ->. by apply (Hk l s Hs). Qed.

Lemma quiet_mark x : unchanged kview (set_state env x). Proof. unfold set_state. unchanged. Qed.
Lemma quiet_reply {A} (f : nat → A) : unchanged kview (ask f). Proof. by intros s. Qed.
#[local] Hint Resolve quiet_mark quiet_reply : unchanged.

Lemma inert_failed {A} e : inert (meta_failed (A := A) env e).
Proof.
  unfold meta_failed. apply inert_bind; [|intros u; apply hush_inert; destruct e; unchanged].
  intros l s (H1 & H2 & H3). split; [exact H1|]. split; [exact H2|]. by apply mark_prefill.
Qed.

Lemma inert_release res : normalize_role res.1 = Some ROLE_P → inert (ignore (release_all env res)).
Proof.
  intros Hr.
  assert (∀ a, a ≠ ALLOCATION → inert (update_workload env res a)) as H.
  { intros a Ha l s (H1 & H2 & H3). destruct (update_exact env Hre res a s ROLE_P Ha Hr) as (s' & b & E & _ & _ & _ & Hs & Hl).
    rewrite H1 in Hs, Hl. simpl in Hs. rewrite app_nil_r in Hl. rewrite E. split; [done|]. split; [by rewrite Hl|].
    pose proof (tasks_update env res a s) as Ht. rewrite E in Ht. simpl in Ht. by rewrite Ht. }
  assert (inert (release_all env res)) as Hall.
  { unfold release_all, release_tokens, release_kv. apply inert_bind; [by apply H|]. intros a. apply inert_bind; [by apply H|].
    intros b. apply hush_inert. unchanged. }
  unfold ignore. apply inert_bind; [exact Hall|]. intros b. apply hush_inert. unchanged.
Qed.

(** Whatever its answer, a prefill task that ends now gives nothing back. *)
Lemma inert_resume k : inert (meta_step env cfg (Resume k)).
Proof.
  unfold meta_step. apply inert_try; [|intros e; apply hush_inert; unchanged]. unfold meta_resume.
  apply inert_read. intros l0 s0 (_ & _ & Ht0). revert l0.
  assert (∀ r, inert (mmodify (λ s, set_tasks s (<[k := Returned r]> (r_tasks s))))) as Hmark.
  { intros r l. apply triple_modify. intros s (H1 & H2 & H3). split; [exact H1|]. split; [exact H2|]. intros res' c' Hin. cbn [r_tasks set_tasks] in Hin.
    apply list_elem_of_lookup in Hin as [n Hn]. destruct (decide (n = k)) as [->|Hne].
    - destruct (decide (k < length (r_tasks s))%nat); [by rewrite list_lookup_insert_eq in Hn|].
      rewrite list_insert_ge in Hn by lia. apply (H3 res' c'). by eapply list_elem_of_lookup_2.
    - rewrite list_lookup_insert_ne in Hn by done. apply (H3 res' c'). by eapply list_elem_of_lookup_2. }
  destruct (r_tasks s0 !! k) as [[res c|r]|] eqn:E; [|apply hush_inert; unchanged..].
  assert (normalize_role res.1 = Some ROLE_P) as Hr by (apply (Ht0 res c); by eapply list_elem_of_lookup_2).
  apply inert_bind; [|done].
  match goal with |- context [mtry ?m ?h] => assert (inert (mtry m h)) as Hm end.
  { apply inert_try; [|intros e; apply inert_failed]. intros l. eapply triple_finally.
    - assert (∀ P : M RS json, unchanged kview P → triple (nothing_left l) P (λ _, nothing_left l) (λ _, nothing_left l)) as Hh
        by (intros P HP; by apply hush_inert). apply Hh. destruct c; unchanged.
    - intros a. by apply inert_release.
    - intros e. by apply inert_release. }
  intros l s Hs. specialize (Hm l s Hs). by destruct (mtry _ _ s) as [s' [a|e]].
Qed.
Lemma inert_resumes ks : inert (meta_steps env cfg (map Resume ks)).
Proof.
  induction ks as [|k ks IH]; cbn [map meta_steps]; [apply hush_inert; unchanged|]. apply inert_bind; [apply inert_resume|]. by intros u.
Qed.
End leak.

(** ** Properties *)

(** A decode instance that fails while its prefill is in flight leaks the prefill
    instance.  When the scheduler always finds instances, every refund is applied and
    the decode instance makes its metaserver call before its connection breaks, every
    transport attempt allocates prefill tokens and KV cache, cancels the prefill task
    and deletes the request together with its workload records before the task runs
    again.  The client gets a single error, and when the prefill tasks end, in any order
    and with any answers, the release of each finds no record: all
    [transport_retry_limit] prefill allocations stay charged. *)
Theorem cdp_failure_leaks json_loads json_encode json_dumps_len env cfg body host port st fuel s :
  allocates env → refunds env → (∀ t, e_gone env t = false) → 1 <= max_retry cfg → 1 <= transport_retry_limit cfg →
  (∀ t, e_stream env t = mkStream [] (Some (TransportError st))) → new_request s → r_tasks s = [] →
  dget (req_info_dict (r_mgr s)) (req_id (r_req s)) = None → calls_back body s →
  ∃ s' l,
    cdp_stream json_loads json_encode json_dumps_len env cfg (each_await body) host (Some port) (S fuel) s = (s', Ret (Over tt)) ∧
    r_sent s' = r_sent s ++ [ErrorChunk (error_code (TransportError st))] ∧
    Z.of_nat (length l) = transport_retry_limit cfg ∧ Forall (λ x : Workload * (Instance * Endpoint), leaks x.1 x.2) l ∧
    ∀ ks, role_ledger (r_ledger (meta_steps env cfg (map Resume ks) s').1) ROLE_P =
      role_ledger (r_ledger s) ROLE_P ++ map (λ x, charge_of (x.2.1, x.2.2, x.1)) l.
Proof.
  intros Hal Hre Hgone Hmax Ht Hst (Hslot & _ & p & Hp) Hta Hin Hc. unfold cdp_stream, cdp_gen_d_request.
  erewrite M_bind_Ret by reflexivity. cbn [fst]. destruct (Z.to_nat (transport_retry_limit cfg)) as [|n] eqn:En; [lia|].
  match goal with |- context [cdp_for _ _ 0 ?x] => set (s0 := x) end.
  destruct (for_exact json_loads json_encode json_dumps_len env cfg body host port st Hal Hre Hgone Hmax Hst fuel n 0 s0)
    as (s' & E & (_ & _ & Hs' & _) & (l & Hlen & Hall & HL & HT) & HS); [|lia|].
  { split; [exact Hc|]. split; [exact Hin|]. split; [exact Hslot|]. exists p. unfold s0. simpl. by rewrite !dget_dset_ne by done. }
  exists s', l. split; [exact E|]. split; [exact HS|]. split; [lia|]. split; [done|]. intros ks.
  assert (nothing_left (role_ledger (r_ledger s') ROLE_P) s') as Hleft.
  { split; [apply Hs'|]. split; [done|]. intros res c Hr. rewrite HT in Hr. change (r_tasks s0) with (r_tasks s) in Hr.
    rewrite Hta in Hr. apply list_elem_of_fmap in Hr as ([w res'] & [= -> ->] & Hx).
    rewrite Forall_forall in Hall. by destruct (Hall _ Hx). }
  pose proof (inert_resumes env cfg Hre ks _ s' Hleft) as H. change (r_ledger s) with (r_ledger s0).
  rewrite <- HL. by destruct (meta_steps _ _ _ _) as [s2 [u|e]]; destruct H as (_ & H & _).
Qed.

(** *** Samples *)

Definition sample_call : jdict := [("request_id"%string, JStr "cmpl-1234567890123456000000abcdef01-0")].
Lemma sample_calls_back : calls_back sample_call sample_rs.
Proof. eexists. split; [reflexivity|]. by vm_compute. Qed.

Lemma cdp_failure_leaks_witness : ∃ s' l,
  cdp_stream sample_loads sample_encode (λ _, 0) (sample_env (λ _, mkStream [] (Some (TransportError None)))) sample_cfg
    (each_await sample_call) "127.0.0.1" (Some 1030) 1 sample_rs = (s', Ret (Over tt)) ∧
  r_sent s' = [ErrorChunk 500] ∧ Z.of_nat (length l) = 2 ∧ Forall (λ x : Workload * (Instance * Endpoint), leaks x.1 x.2) l ∧
  ∀ ks, role_ledger (r_ledger (meta_steps (sample_env (λ _, mkStream [] (Some (TransportError None)))) sample_cfg (map Resume ks) s').1) ROLE_P =
    map (λ x, charge_of (x.2.1, x.2.2, x.1)) l.
Proof.
  exact (cdp_failure_leaks sample_loads sample_encode (λ _, 0) (sample_env (λ _, mkStream [] (Some (TransportError None)))) sample_cfg
    sample_call "127.0.0.1" 1030 None 0 sample_rs (sample_allocates _) (sample_refunds _) (λ _, eq_refl)
    ltac:(vm_compute; discriminate) ltac:(vm_compute; discriminate) (λ _, eq_refl) sample_new eq_refl eq_refl sample_calls_back).
Defined.

(** ** Without streaming a recomputation costs a transport attempt *)

Section post.
Context (json_dumps_len : json → Z) (env : REnv) (cfg : ExceptionConfig) (host : string) (worker_port : option Z).

Definition no_calls (t : nat) : list MetaEvent := [].
Definition all_recompute : Prop := ∀ t, ∃ j, e_post env t = Ret j ∧ is_recomputed_nonstream_response j = Ret true.

Definition pview (s : RS) := (req_id (r_req s), d_cancelled s, length (r_posted s)).
Definition bounded (id : string) (n : nat) (s : RS) : Prop := req_id (r_req s) = id ∧ (length (r_posted s) <= n)%nat.
Definition running (id : string) (n : nat) (s : RS) : Prop := bounded id n s ∧ d_cancelled s = false.
Abbreviation quiet := (unchanged pview).

(** A leg is never left by a cancelled scope, and has a response only to a final answer. *)
Definition leg_answered (l : Leg json) : Prop :=
  match l with LegDone _ => ¬ all_recompute | LegAgain => True | LegNothing => False end.

Lemma quiet_running {A} id n (m : M RS A) : quiet m → triple (running id n) m (λ _, running id n) (λ _, running id n).
Proof.
  intros Hm s [[H1 H2] H3]. specialize (Hm s). unfold pview in Hm. injection Hm as E1 E2 E3.
  destruct (m s) as [s' [a|e]]; simpl in *; (split; [split|]; congruence || lia).
Qed.
Lemma quiet_bounded {A} id n (m : M RS A) : quiet m → triple (bounded id n) m (λ _, bounded id n) (λ _, bounded id n).
Proof.
  intros Hm s [H1 H2]. specialize (Hm s). unfold pview in Hm. injection Hm as E1 E2 E3.
  destruct (m s) as [s' [a|e]]; simpl in *; (split; congruence || lia).
Qed.

Lemma quiet_ask {A} (f : nat → A) : quiet (ask f). Proof. by intros s. Qed.
#[local] Hint Resolve quiet_ask : unchanged.
Lemma quiet_state x : quiet (set_state env x). Proof. unfold set_state. unchanged. Qed.
Lemma quiet_body b : quiet (client_body b). Proof. unfold client_body. unchanged. Qed.
#[local] Hint Resolve quiet_state quiet_body : unchanged.
Lemma quiet_prepare rl : quiet (prepare_resource env cfg rl).
Proof.
  unfold prepare_resource. apply unchanged_bind; [unchanged|]. intros u.
  induction (Z.to_nat (max_retry cfg)) as [|n IH]; simpl; [unchanged|]. apply unchanged_except; [unfold prepare_once; unchanged|done].
Qed.
Lemma quiet_release res : quiet (ignore (release_tokens env res)).
Proof. unfold ignore, release_tokens, update_workload. unchanged. Qed.
Lemma quiet_retry i : quiet (cdp_prepare json_dumps_len cfg i).
Proof.
  unfold cdp_prepare. destruct (negb _); [unchanged|]. apply unchanged_bind; [|intros u; unchanged]. intros s.
  assert (unchanged (λ t : Retry, (req_id (rt_req t), d_cancel_scope (rt_req t))) (prepare_retry_request (Scope := Scope) json_dumps_len i)) as H
    by (unfold prepare_retry_request; destruct (recompute_kv_transfer i) as [[? ?]|]; unfold set_data; unchanged).
  specialize (H (mkRetry (r_data s) (r_req s))). destruct (prepare_retry_request _ _ _) as [t [u|e]]; simpl in *;
    injection H as H1 H2; unfold pview, d_cancelled; simpl; by rewrite H1, H2.
Qed.
Lemma quiet_attach : quiet (attach_cdp_decode_kv_params cfg host worker_port).
Proof. unfold attach_cdp_decode_kv_params. unchanged. Qed.
#[local] Hint Resolve quiet_prepare quiet_release quiet_retry quiet_attach : unchanged.


Lemma forward_running id n data :
  triple (running id n) (forward_request_at env (await env cfg no_calls) data)
    (λ j s, running id (S n) s ∧ ∃ t, e_post env t = Ret j) (λ _, running id (S n)).
Proof.
  intros s [[H1 H2] H3]. unfold forward_request_at. erewrite M_bind_Ret by reflexivity. cbn [fst mmodify].
  set (s1 := add_post s (copy_req_data_for_engine data)).
  assert (await env cfg no_calls s1 = (tick s1, Ret tt)) as Ea.
  { unfold await. erewrite M_bind_Ret by reflexivity. unfold no_calls. cbn [meta_steps]. erewrite M_bind_Ret by reflexivity.
    erewrite M_bind_Ret by reflexivity. change (d_cancelled (tick s1)) with (d_cancelled s). by rewrite H3. }
  rewrite (M_bind_Ret _ _ _ _ _ Ea). erewrite M_bind_Ret by reflexivity.
  assert (∀ s', r_req s' = r_req s → r_posted s' = r_posted s1 → running id (S n) s') as Hrun.
  { intros s' E1 E2. split; [split; [by rewrite E1|]|unfold d_cancelled; rewrite E1; exact H3]. rewrite E2. unfold s1. simpl. rewrite length_app. simpl. lia. }
  destruct (e_post env _) as [j|e] eqn:Ej; simpl; [split; [by apply Hrun|eauto]|by apply Hrun].
Qed.

Lemma running_again id n m s : (n <= m)%nat → running id n s → running id m s.
Proof. intros Hn [[H1 H2] H3]. split; [split; [done|lia]|done]. Qed.

(** What follows a computation without touching id, scope or requests. *)
Lemma finally_quiet {A} id n (Q : A → Prop) P (m : M RS A) f :
  triple P m (λ a s, Q a ∧ bounded id n s) (λ _, bounded id n) → quiet f →
  triple P (mfinally m f) (λ a s, Q a ∧ bounded id n s) (λ _, bounded id n).
Proof.
  intros Hm Hf. eapply triple_finally; [exact Hm|intros a|intros e; by apply (quiet_bounded id n)].
  apply triple_pre. intros Ha. eapply triple_conseq; [by apply (quiet_bounded id n)|done|by intros u s Hs|done].
Qed.

(** The part under the decode scope. *)
Lemma in_scope_running {A} id n (Q : A → Prop) (m : M RS A) :
  triple (running id n) m (λ a s, Q a ∧ running id (S n) s) (λ _, running id (S n)) →
  triple (running id n) (in_d_scope m) (λ o s, (∃ a, o = Some a ∧ Q a) ∧ bounded id (S n) s) (λ _, bounded id (S n)).
Proof.
  intros Hm s Hs. specialize (Hm s Hs). unfold in_d_scope. destruct (m s) as [s' [a|e]].
  - destruct Hm as [Ha [H _]]. split; [by eexists|done].
  - destruct Hm as [H Hd]. destruct e; try exact H. by rewrite Hd.
Qed.

Lemma answer_running id n body :
  (∃ t, e_post env t = Ret body) →
  triple (running id n)
    (again ← mlift (is_recomputed_nonstream_response body);
     if again : bool then
       if negb (recompute_enabled cfg) then mraise (HTTPException 503)
       else
         s ← mget;
         check_recompute_limit cfg (retry_count s) ;;
         set_state env RECOMPUTE ;;
         mlift (validate_nonstream_recompute_body body) ;;
         s ← mget;
         i ← mlift (build_request_info_for_nonstream_recompute (r_data s) body);
         cdp_prepare json_dumps_len cfg i ;;
         mret LegAgain
     else
       set_state env DECODE_END ;;
       body ← client_body body;
       mret (LegDone body))
    (λ l s, leg_answered l ∧ running id n s) (λ _, running id n).
Proof.
  intros [t Ht]. eapply (triple_bind _ _ _ (λ again s, is_recomputed_nonstream_response body = Ret again ∧ running id n s)).
  { by apply triple_lift. }
  intros again. apply triple_pre. intros Hagain.
  assert (∀ (m : M RS (Leg json)) , quiet m → (∀ s l, (m s).2 = Ret l → leg_answered l) →
    triple (running id n) m (λ l s, leg_answered l ∧ running id n s) (λ _, running id n)) as Hq.
  { intros m Hm Hl s Hs. pose proof (quiet_running id n m Hm s Hs) as H. specialize (Hl s).
    destruct (m s) as [s' [l|e]]; [split; [by apply Hl|done]|done]. }
  destruct again.
  - apply Hq; [destruct (negb _); unfold check_recompute_limit; unchanged|]. intros s l. destruct (negb _); [done|].
    cbv [mbind M_bind mret M_ret]. repeat case_match; intros H'; simplify_eq/=; done.
  - apply Hq; [unchanged|]. intros s l. cbv [mbind M_bind mret M_ret]. repeat case_match; intros H'; simplify_eq/=.
    all: intros Hall; destruct (Hall t) as (j & Hj & Hr); congruence.
Qed.

Lemma post_leg_bounded id n :
  triple (bounded id n) (cdp_post_leg json_dumps_len env cfg no_calls host worker_port)
    (λ l s, leg_answered l ∧ bounded id (S n) s) (λ _, bounded id (S n)).
Proof.
  assert (∀ s, bounded id n s → bounded id (S n) s) as Hup by (intros s [H1 H2]; split; [done|lia]).
  assert (∀ A (m : M RS A), quiet m → triple (bounded id n) m (λ _, bounded id n) (λ _, bounded id (S n))) as Hq.
  { intros A m Hm. eapply triple_conseq; [by apply (quiet_bounded id n)|done|done|intros e s; apply Hup]. }
  unfold cdp_post_leg. eapply triple_bind; [apply Hq; unchanged|]. intros u. apply triple_get. intros s0 Hs0.
  eapply triple_conseq with (P' := bounded id n); [|by intros s ->|intros l s H; exact H|intros e s H; exact H].
  unfold cdp_leg, manage_request. eapply triple_bind; [apply Hq; unchanged|]. intros u2. apply finally_quiet; [|unchanged].
  unfold manage_resource. eapply triple_bind; [apply Hq; unchanged|]. intros res. apply finally_quiet; [|unchanged].
  eapply (triple_bind _ _ _ (λ _, running id n)); [apply triple_modify; intros s [H1 H2]; by repeat split|]. intros u3.
  eapply triple_bind.
  - apply (in_scope_running id n leg_answered). eapply triple_bind; [apply forward_running|]. intros body.
    intros s [Hs Ht]. apply (answer_running id (S n) body Ht s Hs).
  - intros o. apply triple_pre. intros (l & -> & Hl). by apply triple_ret.
Qed.

(** An attempt sends one request at most and does not go around the loop. *)
Definition end_answered (r : AttemptEnd json) : Prop :=
  match r with Over _ => ¬ all_recompute | Next => True | NoFuel => False end.

Lemma post_attempt_bounded id n fuel attempt :
  triple (bounded id n) (cdp_post_attempt json_dumps_len env cfg no_calls host worker_port (S fuel) attempt)
    (λ r s, end_answered r ∧ bounded id (S n) s) (λ _, bounded id (S n)).
Proof.
  unfold cdp_post_attempt, with_cdp_handlers. intros s Hs. unfold mtry.
  assert (triple (bounded id n) (cdp_post_while (S fuel) (cdp_post_leg json_dumps_len env cfg no_calls host worker_port))
    (λ r s, end_answered r ∧ bounded id (S n) s) (λ _, bounded id (S n))) as H.
  { cbn [cdp_post_while]. eapply triple_bind; [apply post_leg_bounded|]. intros [a| |]; apply triple_pre; intros Hl; [by apply triple_ret..|done]. }
  specialize (H s Hs). destruct (cdp_post_while _ _ _) as [s1 [r|e]]; [exact H|].
  assert (∀ h, triple (bounded id (S n)) h (λ r s, end_answered r ∧ bounded id (S n) s) (λ _, bounded id (S n)) →
    match (cdp_cancel ;; h) s1 with (s', Ret r) => end_answered r ∧ bounded id (S n) s' | (s', Raise e) => bounded id (S n) s' end) as Hc.
  { intros h Hh. erewrite M_bind_Ret by reflexivity. cbn [fst]. specialize (Hh (cdp_cancel s1).1). by apply Hh. }
  apply Hc. destruct e; first
    [by apply triple_raise
    |destruct (_ <? _); [by apply triple_ret|]; eapply triple_bind; [apply (quiet_bounded id (S n)); unchanged|]; intros u; by apply triple_raise].
Qed.

Lemma post_for_bounded id fuel k : ∀ attempt n,
  triple (bounded id n) (cdp_for k (cdp_post_attempt json_dumps_len env cfg no_calls host worker_port (S fuel)) attempt)
    (λ r s, end_answered r ∧ bounded id (k + n) s) (λ _, bounded id (k + n)).
Proof.
  induction k as [|k IH]; intros attempt n; cbn [cdp_for]; [by apply triple_ret|].
  assert (∀ s, bounded id (S n) s → bounded id (S k + n) s) as Hup by (intros s [H1 H2]; split; [done|lia]).
  eapply triple_bind; [eapply triple_conseq; [apply post_attempt_bounded|done|intros r s H; exact H|intros e s; apply Hup]|].
  intros [a| |]; apply triple_pre; intros Hl; [apply triple_ret; intros s Hs; split; [done|by apply Hup]| |done].
  eapply triple_conseq; [apply (IH (attempt + 1) (S n))|done| |]; cbv beta.
  - intros r s [H [H1 H2]]. split; [done|]. split; [done|lia].
  - intros e s [H1 H2]. split; [done|lia].
Qed.
End post.

(** Without streaming, recomputations use up the transport attempts.  When no call of
    the metaserver comes in between, [_generate_response] sends at most
    [transport_retry_limit] requests to decode instances, whatever
    [recompute_retry_limit] allows, under an id that never changes: the [break] after a
    recomputed answer leaves the [while True] loop, not a loop inside it.  The method
    always returns, and if every answer asks for a recomputation it never returns a
    response: it raises, or falls off its end and returns [None]. *)
Theorem cdp_post_ends json_dumps_len env cfg host worker_port fuel s :
  let '(s', r) := cdp_post json_dumps_len env cfg no_calls host worker_port (S fuel) s in
  r ≠ Ret NoFuel ∧ (length (r_posted s') <= length (r_posted s) + Z.to_nat (transport_retry_limit cfg))%nat ∧
  req_id (r_req s') = req_id (r_req s) ∧
  (all_recompute env → (∃ e, r = Raise e) ∨ r = Ret Next).
Proof.
  set (id := req_id (r_req s)). set (n := length (r_posted s)). set (k := Z.to_nat (transport_retry_limit cfg)).
  assert (triple (bounded id n) (cdp_post json_dumps_len env cfg no_calls host worker_port (S fuel))
    (λ r s, end_answered env r ∧ bounded id (k + n) s) (λ _, bounded id (k + n))) as H.
  { unfold cdp_post. eapply triple_bind with (R := λ _, bounded id n); [|intros u; apply post_for_bounded].
    eapply triple_conseq; [apply (quiet_bounded id n)|done|done|intros e s' [H1 H2]; split; [done|lia]].
    unfold cdp_gen_d_request, attach_cdp_decode_kv_params. unchanged. }
  specialize (H s ltac:(split; done)). destruct (cdp_post _ _ _ _ _ _ _ _) as [s' [r|e]].
  - destruct H as [Hr [H1 H2]]. split; [intros [= ->]; done|]. split; [lia|]. split; [done|]. intros Hall. right.
    destruct r as [a| |]; [destruct Hr; done|done|done].
  - destruct H as [H1 H2]. split; [done|]. split; [lia|]. split; [done|]. intros _. left. eauto.
Qed.

(** A request whose answers all ask for a recomputation ends with [None] after the
    transport attempts, with the recomputation limit not reached. *)
Definition sample_recomputed : json :=
  JObj [(CHOICES, JList [JObj [(TEXT, JStr "hi"); (stop_reason, JStr recomputed); (TOKEN_IDS, JList [JInt 7])]]);
        (PROMPT_TOKEN_IDS, JList [JInt 1]); (USAGE, JObj [(COMPLETION_TOKENS, JInt 1)])].
Example cdp_post_none :
  let '(s', r) := cdp_post (λ _, 0) (sample_posts sample_recomputed) sample_cfg no_calls "127.0.0.1" (Some 1030) 1 sample_rs in
  r = Ret Next ∧ length (r_posted s') = 2%nat ∧ retry_count s' = 2 ∧ recompute_retry_limit sample_cfg = 5 ∧
  req_id (r_req s') = req_id (r_req sample_rs).
Proof. vm_compute. done. Qed.

Lemma cdp_post_ends_witness :
  (∃ e, (cdp_post (λ _, 0) (sample_posts sample_recomputed) sample_cfg no_calls "127.0.0.1" (Some 1030) 1 sample_rs).2 = Raise e) ∨
  (cdp_post (λ _, 0) (sample_posts sample_recomputed) sample_cfg no_calls "127.0.0.1" (Some 1030) 1 sample_rs).2 = Ret Next.
Proof.
  pose proof (cdp_post_ends (λ _, 0) (sample_posts sample_recomputed) sample_cfg "127.0.0.1" (Some 1030) 0 sample_rs) as H.
  destruct (cdp_post _ _ _ _ _ _ _ _) as [s' r]. apply H. intros t. by eexists.
Defined.
