(* ===== verification/Dispatch.v ===== *)
(** * From an HTTP request to a router

    Models [coordinator/router/dispatch.py] and the request checks of
    [common/http/security_utils.py]: the request record made of a body and a path, the
    router its deploy mode selects, and what becomes of exceptions.  Strings are bytes;
    [lower] is the ASCII one. *)

From stdpp Require Import base option list strings pretty sets.
From Stdlib Require Import ZArith Lia Ascii.
From S2P Require Import Prelude Float64 PyText Resources RequestManager Recompute Router RecomputeProps CoordInstanceManager RouterModes RouterCdp.
Open Scope Z_scope.

#[global] Instance DeployMode_eq_dec : EqDecision DeployMode.
Proof. solve_decision. Defined.

(** ** common/http/security_utils.py *)

Definition lower (l : list ascii) : list ascii := map lower_char l.

Definition MAX_PATH_LENGTH : Z := 2048.
Definition illegal_chars : list ascii := ["<"; ">"; ":"; "034"; "|"; "?"; "*"]%char.

(** One of the [dangerous_patterns] is found, whatever the case. *)
Definition dangerous (l : list ascii) : bool :=
  sub_in ".." l || sub_in "//" l || existsb (λ c, bool_decide (c ∈ illegal_chars)) l ||
  sub_in "%2e%2e" (lower l) || sub_in "%2f" (lower l) || sub_in "%5c" (lower l).

Definition validate_and_sanitize_path (path : string) : py string :=
  let sanitized := drop_while (λ c, bool_decide (c = "/"%char)) (chars path) in
  if dangerous sanitized then Raise (HTTPException 400)
  else if MAX_PATH_LENGTH <? Z.of_nat (length sanitized) then Raise (HTTPException 400)
  else Ret (of_chars sanitized).

Definition sensitive_header_keys : list string :=
  ["authorization"; "cookie"; "x-api-key"; "x-auth-token"; "proxy-authorization"; "x-forwarded-authorization"]%string.
Definition filter_sensitive_headers {V} (headers : dict string V) : dict string V :=
  fold_left (λ d kv, if decide (of_chars (lower (chars kv.1)) ∈ sensitive_header_keys) then d else dset d kv.1 kv.2) headers [].

Definition sensitive_keys : list string :=
  ["password"; "passwd"; "pwd"; "secret"; "token"; "api_key"; "apikey"; "access_token"; "refresh_token";
   "authorization"; "credit_card"; "ssn"; "social_security_number"]%string.
Definition sensitive (key : string) : bool := existsb (λ w, sub_in w (lower (chars key))) sensitive_keys.

Fixpoint filter_sensitive_body (max_depth : nat) (body : json) : json :=
  match max_depth with
  | O => JStr "***MAX_DEPTH_REACHED***"
  | S depth =>
      match body with
      | JObj d => JObj (map (λ kv, (kv.1, filter_sensitive_body depth kv.2)) (List.filter (λ kv, negb (sensitive kv.1)) d))
      | JList l => JList (map (filter_sensitive_body depth) l)
      | v => v
      end
  end.

(** ** The request record *)

Section dispatch.
Context (json_loads : string → option json) (json_encode : json → string) (json_dumps_len : json → Z).
Context (env : REnv) (cfg : ExceptionConfig).
Context (meta : nat → list MetaEvent) (host : string) (worker_port : option Z).
Context (bootstrap_port : json) (room : nat → Z) (prefill_failed : nat → bool).

(** [__create_request_info], at clock [now] and [stamp], with the hex digits drawn. *)
Definition create_request_info (m : RequestManager Req) (body path : string) (metaserver_request : bool)
    (now : f64) (stamp : Z) (suffix : string) : RequestManager Req * py Req :=
  if decide (body = ""%string) then (m, Raise (HTTPException 400))
  else
    match json_loads body with
    | None => (m, Raise (HTTPException 400))
    | Some j =>
        if negb (truthy j) then (m, Raise (HTTPException 400))
        else
          let '(id, m) := if metaserver_request then (""%string, m) else generate_request_id m stamp suffix in
          (m,
           api ← validate_and_sanitize_path path;
           match j with
           | JObj d =>
               let data := dset d CLIENT_RETURN_TOKEN_IDS_KEY (JBool (truthy (dget_or d "return_token_ids" (JBool false)))) in
               Ret (mkReq id data (Z.of_nat (String.length body)) api api None (dhas d "messages") ARRIVE [(ARRIVE, now)] None None)
           | _ => Raise AttributeError
           end)
    end.

(** ** The router *)

Inductive RouterKind := SeparateCDP | SeparatePD | PDHybrid | SeparatePDDualDispatch.

Definition router_map (mode : DeployMode) : RouterKind :=
  match mode with
  | CDP_SEPARATE | PD_SEPARATE | PD_DISAGGREGATION_SINGLE_CONTAINER => SeparateCDP
  | CPCD_SEPARATE => SeparatePD
  | SINGLE_NODE => PDHybrid
  | PD_DUAL_DISPATCH => SeparatePDDualDispatch
  end.

(** Without decode instances the separated modes fall back. *)
Definition effective_mode (config_mode : DeployMode) (readiness : InstanceReadiness) : DeployMode :=
  if bool_decide (config_mode ∈ [PD_SEPARATE; CDP_SEPARATE; CPCD_SEPARATE; PD_DISAGGREGATION_SINGLE_CONTAINER]) &&
     bool_decide (readiness = ONLY_PREFILL)
  then SINGLE_NODE else config_mode.

(** What [handle_request] of a router returns: a stream still to be drained, a JSON
    response, the error response of the CPCD router, or [None]. *)
Inductive Reply := Streaming (kind : RouterKind) | Answer (code : Z) (body : option json) | Nothing.

Definition of_body (b : option json) : Reply := match b with Some j => Answer 200 (Some j) | None => Nothing end.

(** [None] when the fuel of a loop is used up. *)
Definition router_handle (kind : RouterKind) (fuel : nat) : M RS (option Reply) :=
  s ← mget;
  let stream := truthy (dget_or (req_data (r_req s)) STREAM (JBool false)) in
  match kind with
  | SeparateCDP =>
      cdp_gen_d_request cfg host worker_port ;;
      if stream then mret (Some (Streaming kind))
      else
        r ← cdp_post json_dumps_len env cfg meta host worker_port fuel;
        mret (match r with Over b => Some (Answer 200 (Some b)) | Next => Some Nothing | NoFuel => None end)
  | SeparatePD =>
      if stream then mret (Some (Streaming kind))
      else
        r ← generate_nonstream_json json_dumps_len env cfg fuel;
        mret (match r with
              | inl resp => Some (Answer (resp_code resp) (resp_body resp))
              | inr OutOfFuel => None
              | inr _ => Some Nothing
              end)
  | PDHybrid =>
      if stream then mret (Some (Streaming kind)) else b ← hybrid_post env cfg; mret (Some (of_body b))
  | SeparatePDDualDispatch =>
      if stream then mret (Some (Streaming kind))
      else b ← dual_post env cfg bootstrap_port room prefill_failed; mret (Some (of_body b))
  end.

(** The response is drained by the server, after [handle_request] returned. *)
Definition drain (kind : RouterKind) (fuel : nat) : M RS unit :=
  match kind with
  | SeparateCDP => ignore (cdp_stream json_loads json_encode json_dumps_len env cfg meta host worker_port fuel)
  | SeparatePD => ignore (generate_stream json_loads json_encode json_dumps_len env cfg fuel)
  | PDHybrid => ignore (hybrid_stream json_loads json_encode env cfg)
  | SeparatePDDualDispatch => ignore (dual_stream json_loads json_encode env cfg bootstrap_port room prefill_failed)
  end.

Definition new_run (r : Req) (m : RequestManager Req) : RS :=
  mkRS r m [] [] [] false false 0 false false 0 [] [].

(** A request that was refused before a router took it, or the run of a router. *)
Inductive Handled := Refused (m : RequestManager Req) (e : pyexn) | Run (s : RS) (r : py (option Reply)).

(** [handle_request]: what is not an [HTTPException] becomes one. *)
Definition handle_request (config_mode : DeployMode) (readiness : InstanceReadiness) (scheduler : bool) (fuel : nat)
    (m : RequestManager Req) (body path : string) (now : f64) (stamp : Z) (suffix : string) : Handled :=
  match create_request_info m body path false now stamp suffix with
  | (m, Raise e) => Refused m e
  | (m, Ret req) =>
      if negb scheduler then Refused m (HTTPException 500)
      else
        let kind := router_map (effective_mode config_mode readiness) in
        let '(s, r) :=
          mexcept (router_handle kind fuel)
            (λ e, mraise (match e with HTTPException c => HTTPException c | _ => HTTPException 500 end))
            (new_run req m) in
        Run s r
  end.

(** The modes whose decode instances call the metaserver. *)
Definition metaserver_mode (mode : option DeployMode) : bool :=
  match mode with
  | Some m => bool_decide (m ∈ [CDP_SEPARATE; PD_SEPARATE; PD_DISAGGREGATION_SINGLE_CONTAINER])
  | None => false
  end.
End dispatch.

(** ** Paths *)

Lemma sub_in_false sub l : sub ≠ ""%string → sub_in sub l = false ↔ ∀ k, ¬ at_pos (chars sub) l k.
Proof.
  intros Hne. unfold sub_in. assert (chars sub ≠ []) as Hc by (destruct sub; done).
  pose proof (find_sub_spec (chars sub) l Hc 0) as H. destruct (find_sub _ _ _) as [j|].
  - destruct H as (k & _ & Hk & _). split; [done|]. intros Hall. by destruct (Hall k).
  - done.
Qed.

(** [sub] occurs somewhere in [l]. *)
Definition occurs (sub : string) (l : list ascii) : Prop := ∃ pre post, l = pre ++ chars sub ++ post.

Lemma at_pos_occurs sub l : (∃ k, at_pos (chars sub) l k) ↔ occurs sub l.
Proof.
  split.
  - intros [k Hk]. exists (take k l), (drop (length (chars sub)) (drop k l)). unfold at_pos in Hk.
    rewrite <- (take_drop k l) at 1. f_equal. rewrite <- (take_drop (length (chars sub)) (drop k l)) at 1. by rewrite Hk.
  - intros (pre & post & ->). exists (length pre). unfold at_pos. by rewrite drop_app_length, take_app_length.
Qed.
Lemma sub_in_occurs sub l : sub ≠ ""%string → sub_in sub l = true ↔ occurs sub l.
Proof.
  intros Hne. rewrite <- at_pos_occurs. destruct (sub_in sub l) eqn:E.
  - split; [|done]. intros _. unfold sub_in in E. assert (chars sub ≠ []) as Hc by (destruct sub; done).
    pose proof (find_sub_spec (chars sub) l Hc 0) as H. destruct (find_sub _ _ _) as [j|]; [|done]. destruct H as (k & _ & Hk & _). eauto.
  - split; [done|]. intros [k Hk]. by destruct (proj1 (sub_in_false sub l Hne) E k).
Qed.

Lemma drop_while_fix {A} (p : A → bool) l : drop_while p (drop_while p l) = drop_while p l.
Proof. induction l as [|x l IH]; simpl; [done|]. destruct (p x) eqn:E; [done|]. simpl. by rewrite E. Qed.
Lemma drop_while_app {A} (p : A → bool) l : ∃ pre, l = pre ++ drop_while p l ∧ Forall (λ x, p x = true) pre.
Proof.
  induction l as [|x l (pre & E & H)]; simpl; [by exists []|]. destruct (p x) eqn:Ep.
  - exists (x :: pre). split; [by rewrite E at 1|by constructor].
  - by exists [].
Qed.
Lemma drop_while_head {A} (p : A → bool) l x : head (drop_while p l) = Some x → p x = false.
Proof. induction l as [|y l IH]; simpl; [done|]. destruct (p y) eqn:E; [done|]. by intros [= <-]. Qed.
Lemma drop_while_stop {A} (p : A → bool) pre l :
  Forall (λ x, p x = true) pre → (∀ x, head l = Some x → p x = false) → drop_while p (pre ++ l) = l.
Proof.
  intros Hp Hl. induction Hp as [|x pre Hx _ IH]; simpl; [|by rewrite Hx]. destruct l as [|y l]; [done|]. simpl. by rewrite Hl.
Qed.

(** What an engine may be asked for. *)
Definition safe_path (q : list ascii) : Prop :=
  head q ≠ Some "/"%char ∧ ¬ occurs ".." q ∧ ¬ occurs "//" q ∧ (∀ c, c ∈ illegal_chars → c ∉ q) ∧
  ¬ occurs "%2e%2e" (lower q) ∧ ¬ occurs "%2f" (lower q) ∧ ¬ occurs "%5c" (lower q) ∧ Z.of_nat (length q) <= 2048.

Lemma not_dangerous l : dangerous l = false ↔
  ¬ occurs ".." l ∧ ¬ occurs "//" l ∧ (∀ c, c ∈ illegal_chars → c ∉ l) ∧
  ¬ occurs "%2e%2e" (lower l) ∧ ¬ occurs "%2f" (lower l) ∧ ¬ occurs "%5c" (lower l).
Proof.
  unfold dangerous. rewrite !orb_false_iff. rewrite <- !sub_in_occurs by done. rewrite !not_true_iff_false.
  assert (existsb (λ c, bool_decide (c ∈ illegal_chars)) l = false ↔ ∀ c, c ∈ illegal_chars → c ∉ l) as ->; [|tauto].
  rewrite <- not_true_iff_false, existsb_exists. split.
  - intros H c Hc Hin. apply H. exists c. split; [by apply list_elem_of_In|by apply bool_decide_eq_true].
  - intros H (c & Hin & Hc). apply bool_decide_eq_true in Hc. apply (H c Hc). by apply list_elem_of_In.
Qed.

(** ** Properties *)

(** C35: [validate_and_sanitize_path] lets through exactly the safe paths.  A path is
    accepted as [q] if and only if it is [q] behind some slashes, and [q] does not
    start with a slash, has no [..], no empty segment, no character that is illegal in
    file names, no encoded dots or separators in either case, and at most 2048
    characters; so an accepted path is accepted again, unchanged.  Every other path is
    answered with 400. *)
Theorem path_accepted_iff_safe path q :
  (validate_and_sanitize_path path = Ret q ↔
   safe_path (chars q) ∧ ∃ slashes, Forall (λ c, c = "/"%char) slashes ∧ chars path = slashes ++ chars q) ∧
  (∀ e, validate_and_sanitize_path path = Raise e → e = HTTPException 400).
Proof.
  unfold validate_and_sanitize_path. set (sl := λ c, bool_decide (c = "/"%char)).
  assert (∀ l, Forall (λ c, c = "/"%char) l ↔ Forall (λ c, sl c = true) l) as Hsl.
  { intros l. apply Forall_iff. intros c. symmetry. apply bool_decide_eq_true. }
  set (p := drop_while sl (chars path)). split.
  - split.
    + destruct (dangerous p) eqn:Ed; [done|]. destruct (_ <? _) eqn:El; [done|]. intros [= <-]. rewrite chars_of_chars. split.
      * apply not_dangerous in Ed. destruct Ed as (H1 & H2 & H3 & H4 & H5 & H6). split_and!; try done; [|unfold MAX_PATH_LENGTH in El; lia].
        intros Hh. pose proof (drop_while_head sl (chars path) _ Hh) as H. by apply bool_decide_eq_false in H.
      * destruct (drop_while_app sl (chars path)) as (pre & E & Hp). exists pre. split; [by apply Hsl|exact E].
    + intros [(H0 & H1 & H2 & H3 & H4 & H5 & H6 & H7) (slashes & Hs & E)].
      assert (p = chars q) as ->.
      { unfold p. rewrite E. apply drop_while_stop; [by apply Hsl|]. intros x Hx. apply bool_decide_eq_false. by intros ->. }
      rewrite (proj2 (not_dangerous _)) by done. rewrite (proj2 (Z.ltb_ge _ _)) by (unfold MAX_PATH_LENGTH; lia). by rewrite of_chars_chars.
  - intros e. destruct (dangerous p); [by intros [= <-]|]. destruct (_ <? _); [by intros [= <-]|done].
Qed.

(** [key] is a key of some object inside a value. *)
Inductive exposes : json → string → Prop :=
| exposes_key d key v : (key, v) ∈ d → exposes (JObj d) key
| exposes_value d k v key : (k, v) ∈ d → exposes v key → exposes (JObj d) key
| exposes_item l v key : v ∈ l → exposes v key → exposes (JList l) key.

(** What is logged of a request body has no sensitive key at any depth, and of an object
    within the depth keeps every other key. *)
Lemma filter_sensitive_body_clean depth body key : exposes (filter_sensitive_body depth body) key → sensitive key = false.
Proof.
  revert body. induction depth as [|depth IH]; intros body; [by inversion 1|].
  destruct body as [|b|z|f|t|l|d]; simpl; intros H; inversion H as [d' k' v Hin|d' k v k' Hin Hv|l' v k' Hin Hv]; subst.
  - apply list_elem_of_fmap in Hin as (v' & -> & Hin). by apply (IH v').
  - apply list_elem_of_fmap in Hin as ([k2 v2] & [= -> ->] & Hin). apply list_elem_of_In, filter_In in Hin as [_ Hs].
    by apply negb_true_iff in Hs.
  - apply list_elem_of_fmap in Hin as ([k2 v2] & [= -> ->] & Hin). by apply (IH v2).
Qed.

(** Exceptions of [handle_request]. *)
Definition leaves (h : Handled) : option pyexn :=
  match h with Refused _ e => Some e | Run _ (Raise e) => Some e | Run _ (Ret _) => None end.

(** What the server sees of a request that fails.  Whatever the engines, the scheduler
    and the routers do, an exception that leaves [handle_request] is an
    [HTTPException], the cancellation of the task, or, for a body that is JSON but not
    an object, the [AttributeError] of building the request record; an empty body, a
    body that is not JSON and an empty JSON value are refused with 400 before an id is
    drawn, and a refused request leaves the records of the request manager alone. *)
Theorem handle_request_failures json_loads json_dumps_len env cfg meta host worker_port bootstrap_port room prefill_failed
    config_mode readiness scheduler fuel m body path now stamp suffix :
  let h := handle_request json_loads json_dumps_len env cfg meta host worker_port bootstrap_port room prefill_failed
             config_mode readiness scheduler fuel m body path now stamp suffix in
  (∀ e, leaves h = Some e →
     (∃ c, e = HTTPException c) ∨ e = CancelledError ∨
     (e = AttributeError ∧ ∃ j, json_loads body = Some j ∧ ∀ d, j ≠ JObj d)) ∧
  (body = ""%string ∨ json_loads body = None ∨ (∃ j, json_loads body = Some j ∧ truthy j = false) → h = Refused m (HTTPException 400)) ∧
  (∀ m' e, h = Refused m' e → req_info_dict m' = req_info_dict m ∧ req_workload_dict m' = req_workload_dict m).
Proof.
  cbv zeta. unfold handle_request, create_request_info.
  destruct (decide (body = ""%string)) as [->|Hb].
  { split_and!; [intros e [= <-]; left; by eexists|done|by intros m' e [= <- <-]]. }
  destruct (json_loads body) as [j|] eqn:Ej; [|split_and!; [intros e [= <-]; left; by eexists|done|by intros m' e [= <- <-]]].
  destruct (truthy j) eqn:Et; cbn [negb]; [|split_and!; [intros e [= <-]; left; by eexists|done|by intros m' e [= <- <-]]].
  destruct (generate_request_id m stamp suffix) as [id m1] eqn:Eg.
  assert (req_info_dict m1 = req_info_dict m ∧ req_workload_dict m1 = req_workload_dict m) as Hm1.
  { unfold generate_request_id in Eg. injection Eg as _ <-. by destruct (_ =? _). }
  assert (body = ""%string ∨ Some j = None ∨ (∃ j', Some j = Some j' ∧ truthy j' = false) → False) as Hno.
  { intros [H|[H|(j' & [= <-] & H)]]; [done|done|congruence]. }
  destruct (validate_and_sanitize_path path) as [a|e] eqn:Ep.
  2: { assert (e = HTTPException 400) as ->.
    { revert Ep. unfold validate_and_sanitize_path. repeat case_match; by intros [= <-]. }
    split_and!; [intros e [= <-]; left; by eexists|intros H; by destruct (Hno H)|by intros m' e [= <- <-]]. }
  destruct j as [|b|z|f|t|l|d]; simpl mbind; cbv beta iota;
    try (split_and!; [intros e [= <-]; right; right; split; [done|eexists; split; [reflexivity|done]]|intros H; by destruct (Hno H)|by intros m' e [= <- <-]]).
  destruct scheduler; cbn [negb]; cbv beta iota;
    [|split_and!; [intros e [= <-]; left; by eexists|intros H; by destruct (Hno H)|by intros m' e [= <- <-]]].
  match goal with |- context [mexcept ?m ?h ?s0] => unfold mexcept; destruct (m s0) as [s1 [r|e1]] end.
  - split_and!; [done|intros H; by destruct (Hno H)|done].
  - split_and!; [|intros H; by destruct e1, (Hno H)|intros m' e; by destruct e1].
    intros e. destruct e1; simpl; intros [= <-]; first [by left; eexists|by right; left].
Qed.

(** A path with an encoded separator is refused, one for an engine is not. *)
Lemma path_accepted_iff_safe_witness :
  safe_path (chars "v1/completions") ∧ validate_and_sanitize_path "v1/%2Fetc" = Raise (HTTPException 400).
Proof.
  split; [|by vm_compute].
  apply (proj1 (path_accepted_iff_safe "//v1/completions" "v1/completions")). vm_compute. reflexivity.
Defined.

(** A body that is a JSON array ends in the [AttributeError], for any path that is fine. *)
Example array_body :
  leaves (handle_request (λ _, Some (JList [JInt 1])) (λ _, 0) (sample_posts JNull) sample_cfg (λ _, []) "127.0.0.1" None JNull
    (λ _, 0) (λ _, false) SINGLE_NODE REQUIRED_MET true 1 RequestManager_init "[1]" "/v1/completions" f0 1 "ab") = Some AttributeError.
Proof. reflexivity. Qed.
