(* ===== verification/Metrics.v ===== *)
(** * The metrics of the coordinator

    Models [coordinator/metrics/metrics_collector.py]: the text the engine servers give,
    parsed, summed per instance and over instances, kept for instances that went away,
    and written back as text.  One round of the metrics thread is [update_round]; what
    the engine servers answer and what the scheduler says of the instances are its
    inputs. *)

From stdpp Require Import base option list strings pretty.
From Stdlib Require Import ZArith Lia Ascii.
From S2P Require Import Prelude Float64 PyText FloatText Resources.
Open Scope Z_scope.

(** ** Data *)

Inductive MetricType := GAUGE | COUNTER | HISTOGRAM | SUMMARY | NONE.

#[global] Instance MetricType_eq_dec : EqDecision MetricType.
Proof. solve_decision. Defined.

Definition type_value (t : MetricType) : string :=
  match t with
  | GAUGE => "gauge" | COUNTER => "counter" | HISTOGRAM => "histogram" | SUMMARY => "summary" | NONE => ""
  end.

(** [MetricType[s.upper()]]; [None] is the [KeyError]. *)
Definition type_from_string (s : string) : option MetricType :=
  let u := of_chars (map upper_char (chars s)) in
  if decide (u = "GAUGE"%string) then Some GAUGE
  else if decide (u = "COUNTER"%string) then Some COUNTER
  else if decide (u = "HISTOGRAM"%string) then Some HISTOGRAM
  else if decide (u = "SUMMARY"%string) then Some SUMMARY
  else if decide (u = "NONE"%string) then Some NONE
  else None.

(** A value is a float read from an engine, or a count of instances. *)
Inductive number := Flt (x : f64) | Count (z : Z).
Definition as_float (v : number) : f64 := match v with Flt x => x | Count z => f_of_Z z end.

(** Labels and values of equal length, kept together. *)
Record SingleMetric := mkMetric {
  m_name : string;
  m_help : string;
  m_type : MetricType;
  m_samples : list (string * number)
}.

(** [SingleMetric(metric)]: the labels with zeros. *)
Definition zeroed (m : SingleMetric) : SingleMetric :=
  mkMetric (m_name m) (m_help m) (m_type m) (map (λ x, (x.1, Flt f0)) (m_samples m)).

Record Collector := mkCollector {
  inactive_aggregate : list SingleMetric;
  metrics_cached : dict Z (list SingleMetric);
  last_metrics : string;
  last_instance_metrics : dict Z (list SingleMetric)
}.
Definition Collector_init : Collector := mkCollector [] [] "" [].

(** ** Parsing *)

(** [s.split()]. *)
Fixpoint words_from (l : list ascii) (w : list ascii) : list (list ascii) :=
  match l with
  | [] => match w with [] => [] | _ => [w] end
  | c :: l =>
      if is_space c then match w with [] => words_from l [] | _ => w :: words_from l [] end
      else words_from l (w ++ [c])
  end.
Definition words (s : string) : list string := map of_chars (words_from (chars s) []).

Definition join (sep : string) (l : list string) : string := String.concat sep l.

Definition parse_metric_help (line : string) : option SingleMetric :=
  match words line with
  | sharp :: mark :: name :: help0 :: help =>
      if decide (sharp = "#"%string ∧ mark = "HELP"%string) then Some (mkMetric name (join " " (help0 :: help)) NONE [])
      else None
  | _ => None
  end.

Definition parse_metric_type (m : SingleMetric) (line : string) : option SingleMetric :=
  match words line with
  | [sharp; mark; _; t] =>
      if decide (sharp = "#"%string ∧ mark = "TYPE"%string) then
        option_map (λ t, mkMetric (m_name m) (m_help m) t (m_samples m)) (type_from_string t)
      else None
  | _ => None
  end.

(** [engine="] digits [",]: the length of a match at the head. *)
Definition engine_prefix : list ascii := chars "engine=" ++ ["034"%char].
Definition engine_suffix : list ascii := ["034"; ","]%char.
Definition engine_match (l : list ascii) : option nat :=
  let k := length engine_prefix in
  if decide (take k l = engine_prefix) then
    let digits := (length (drop k l) - length (drop_while is_digit (drop k l)))%nat in
    if (0 <? Z.of_nat digits) && bool_decide (take 2 (drop (k + digits) l) = engine_suffix)
    then Some (k + digits + 2)%nat else None
  else None.

(** [re.sub]: the matches are cut out from left to right; [skip] characters of a match
    are still to be passed. *)
Fixpoint cut_engine (skip : nat) (l : list ascii) : list ascii :=
  match l with
  | [] => []
  | c :: l' =>
      match skip with
      | S skip => cut_engine skip l'
      | O =>
          match engine_match l with
          | Some n => cut_engine (n - 1) l'
          | None => c :: cut_engine 0 l'
          end
      end
  end.
Definition without_engine (label : string) : string := of_chars (cut_engine 0 (chars label)).

Definition parse_metric_body_block (m : SingleMetric) (line : string) : option SingleMetric :=
  match words line with
  | [label; value] =>
      match parse_float value with
      | Some v =>
          if flt v f0 then None
          else Some (mkMetric (m_name m) (m_help m) (m_type m) (m_samples m ++ [(without_engine label, Flt v)]))
      | None => None
      end
  | _ => None
  end.

(** Where the loop over the lines stands: before a HELP line, after one, or in a body. *)
Inductive place := AtHelp | AtType (m : SingleMetric) | InBody (m : SingleMetric).

(** [None] is the empty list returned on failure; an empty line in a body raises. *)
Fixpoint parse_lines (at_ : place) (lines : list string) (array : list SingleMetric) : py (option (list SingleMetric)) :=
  let help line lines :=
    match parse_metric_help line with
    | Some m => parse_lines (AtType m) lines
    | None => λ _, Ret None
    end in
  match at_, lines with
  | AtHelp, [] => Ret (Some array)
  | AtType m, [] | InBody m, [] => Ret (Some (array ++ [m]))
  | AtHelp, line :: lines => help line lines array
  | AtType m, line :: lines =>
      match parse_metric_type m line with
      | Some m => parse_lines (InBody m) lines array
      | None => Ret None
      end
  | InBody m, line :: lines =>
      match chars line with
      | [] => Raise IndexError
      | c :: _ =>
          if decide (c = "#"%char) then help line lines (array ++ [m])
          else
            match parse_metric_body_block m line with
            | Some m => parse_lines (InBody m) lines array
            | None => Ret None
            end
      end
  end.

Definition LFc : ascii := "010"%char.
Definition parse_metric_text (text : string) : py (option (list SingleMetric)) :=
  parse_lines AtHelp (split LFc (strip text)) [].

(** ** Aggregation *)

Abbreviation table := (dict string f64).

Definition add_sample (t : table) (x : string * number) : table :=
  dset t x.1 (fadd (default f0 (dget t x.1)) (as_float x.2)).
Definition aggregate_labels_by_sum (l : list SingleMetric) : table :=
  fold_left add_sample (concat (map m_samples l)) [].
Definition aggregate_labels_by_mean (l : list SingleMetric) : table :=
  map (λ x, (x.1, fdiv x.2 (f_of_Z (Z.of_nat (length l))))) (aggregate_labels_by_sum l).

Definition usage_metric : string := "vllm:kv_cache_usage_perc".

Definition aggregate_metric_common (l : list SingleMetric) : py SingleMetric :=
  match l with
  | [] => Raise IndexError
  | m :: _ =>
      let t := if decide (m_name m = usage_metric) then aggregate_labels_by_mean l else aggregate_labels_by_sum l in
      Ret (mkMetric (m_name m) (m_help m) (m_type m) (map (λ x, (x.1, Flt x.2)) t))
  end.

(** The first of the longest lists. *)
Definition longest {A} (first : list A) (l : list (list A)) : list A :=
  fold_left (λ best x, if (length best <? length x)%nat then x else best) l first.

Definition add_metric (t : dict string (list SingleMetric)) (m : SingleMetric) : py (dict string (list SingleMetric)) :=
  match dget t (m_name m) with
  | Some l => Ret (dset t (m_name m) (l ++ [m]))
  | None => Raise KeyError
  end.

Fixpoint py_fold {A B} (f : B → A → py B) (l : list A) (b : B) : py B :=
  match l with [] => Ret b | a :: l => b ← f b a; py_fold f l b end.
Fixpoint py_map {A B} (f : A → py B) (l : list A) : py (list B) :=
  match l with [] => Ret [] | a :: l => b ← f a; bs ← py_map f l; Ret (b :: bs) end.

Definition aggregate_metrics_common (l : list (list SingleMetric)) : py (list SingleMetric) :=
  match l with
  | [] => Raise IndexError
  | first :: _ =>
      let format := fold_left (λ t m, dset t (m_name m) []) (longest first l) [] in
      aggr_input ← py_fold add_metric (concat l) format;
      py_map aggregate_metric_common (dvalues aggr_input)
  end.

(** ** Writing *)

Definition get_value_str (v : number) : string :=
  match v with
  | Flt (S754_infinity neg) => if neg : bool then "-Inf" else "+Inf"
  | Flt x => float_str x
  | Count z => pretty z
  end.

Definition sample_line (x : string * number) : string := x.1 +:+ " " +:+ get_value_str x.2.
Definition metric_lines (m : SingleMetric) : list string :=
  ("# HELP " +:+ m_name m +:+ " " +:+ m_help m) :: ("# TYPE " +:+ m_name m +:+ " " +:+ type_value (m_type m)) ::
  map sample_line (m_samples m).
Definition get_serialize_metrics (l : list SingleMetric) : string :=
  join (of_chars [LFc]) (concat (map metric_lines l)).

(** ** A round of the metrics thread *)

Section round.
(** The answer of an engine server to [/metrics], empty when it failed. *)
Context (query_metrics : string → string).
(** [p_instances_num] and [d_instances_num]. *)
Context (p_num d_num : Z).

(** The metrics texts of an instance, [None] when one failed. *)
Fixpoint query_all (eps : list Endpoint) (collect : dict Z string) : option (dict Z string) :=
  match eps with
  | [] => Some collect
  | e :: eps =>
      let text := query_metrics (ep_ip e +:+ ":" +:+ mgmt_port e) in
      if decide (text = ""%string) then None else query_all eps (dset collect (ep_id e) text)
  end.
Definition get_server_metrics_endpoints (i : Instance) : option (dict Z string) :=
  query_all (concat (map dvalues (dvalues (endpoints i)))) [].

Definition get_server_metrics (available : dict Z Instance) : dict Z (dict Z string) :=
  fold_left (λ d i, match get_server_metrics_endpoints i with Some c => dset d (ins_id i) c | None => d end)
    (dvalues available) [].

(** The texts of an instance parsed; [None] when one is not a list of metrics. *)
Fixpoint parse_pods (pods : dict Z string) : py (option (dict Z (list SingleMetric))) :=
  match pods with
  | [] => Ret (Some [])
  | (e, text) :: pods =>
      p ← parse_metric_text text;
      match p with
      | Some ((_ :: _) as ms) =>
          r ← parse_pods pods;
          Ret (option_map (λ r, (e, ms) :: r) r)
      | _ => Ret None
      end
  end.
Fixpoint parse_metrics (collects : dict Z (dict Z string)) : py (option (dict Z (dict Z (list SingleMetric)))) :=
  match collects with
  | [] => Ret (Some [])
  | (i, pods) :: collects =>
      p ← parse_pods pods;
      match p with
      | Some p => r ← parse_metrics collects; Ret (option_map (λ r, (i, p) :: r) r)
      | None => Ret None
      end
  end.

Definition set_cached c d := mkCollector (inactive_aggregate c) d (last_metrics c) (last_instance_metrics c).
Definition set_inactive c l := mkCollector l (metrics_cached c) (last_metrics c) (last_instance_metrics c).
Definition set_last c t i := mkCollector (inactive_aggregate c) (metrics_cached c) t i.

(** Each instance that answered is summed over its endpoints into the cache; one
    without endpoints is passed over. *)
Fixpoint aggregate_metrics_by_instance (collects : dict Z (dict Z (list SingleMetric))) : M Collector unit :=
  match collects with
  | [] => mret tt
  | (i, pods) :: collects =>
      (match dvalues pods with
       | [] => mret tt
       | input =>
           ms ← mlift (aggregate_metrics_common input);
           mmodify (λ c, set_cached c (dset (metrics_cached c) i ms))
       end) ;;
      aggregate_metrics_by_instance collects
  end.

(** Gauges count for instances that answered only. *)
Definition counted (active : bool) (m : SingleMetric) : SingleMetric :=
  if bool_decide (m_type m = GAUGE) && negb active then zeroed m else m.

Definition aggregate_metrics_all_instance (collects : list Z) : M Collector (list SingleMetric) :=
  c ← mget;
  match metrics_cached c with
  | [] => mret []
  | cached =>
      mlift (aggregate_metrics_common
        (map (λ x, map (counted (bool_decide (x.1 ∈ collects))) x.2) cached ++ [inactive_aggregate c]))
  end.

Definition clear_inactive_metrics (unavailable : dict Z Instance) : M Collector unit :=
  c ← mget;
  let gone := List.filter (λ i, dhas (metrics_cached c) i) (dkeys unavailable) in
  aggregate ← mlift (aggregate_metrics_common
    (map (λ i, map (counted false) (default [] (dget (metrics_cached c) i))) gone ++ [inactive_aggregate c]));
  mmodify (λ c, set_cached (set_inactive c aggregate) (fold_left ddel gone (metrics_cached c))).

Definition get_instances_metrics (name : string) (num : Z) : SingleMetric :=
  mkMetric name "Number of instances" GAUGE [(name, Count num)].

Definition count_role (r : PDRole) (available : dict Z Instance) : Z :=
  Z.of_nat (length (List.filter (λ i, bool_decide (role i = PDRole_value r)) (dvalues available))).

Definition coordinator_metrics (available : dict Z Instance) : list SingleMetric :=
  let p := count_role ROLE_P available in
  let d := count_role ROLE_D available in
  [get_instances_metrics "motor_active_prefill_workers" p; get_instances_metrics "motor_active_decode_workers" d;
   get_instances_metrics "motor_inactive_prefill_workers" (p_num - p); get_instances_metrics "motor_inactive_decode_workers" (d_num - d)].

Fixpoint get_serialize_instance_metrics (c : Collector) (collects : list Z) : py (dict Z (list SingleMetric)) :=
  match collects with
  | [] => Ret []
  | i :: collects =>
      match dget (metrics_cached c) i with
      | Some ms => r ← get_serialize_instance_metrics c collects; Ret ((i, ms) :: r)
      | None => Raise KeyError
      end
  end.

(** The instances of the scheduler, or two empty pools when it could not be asked. *)
Abbreviation pools := (option (dict Z Instance * dict Z Instance)).

Definition get_and_aggregate_metrics (answer : pools) : M Collector (string * dict Z (list SingleMetric)) :=
  let '(available, unavailable) := default ([], []) answer in
  clear_inactive_metrics unavailable ;;
  parsed ← mlift (parse_metrics (get_server_metrics available));
  match parsed with
  | None => mret (""%string, [])
  | Some collects =>
      aggregate_metrics_by_instance collects ;;
      aggregate ← aggregate_metrics_all_instance (dkeys collects);
      c ← mget;
      instance_metrics ← mlift (get_serialize_instance_metrics c (dkeys collects));
      mret (get_serialize_metrics (aggregate ++ coordinator_metrics available), instance_metrics)
  end.

(** The body of [_update_metrics_thread]; an exception ends the thread. *)
Definition update_round (answer : pools) : M Collector unit :=
  '(metrics, instance_metrics) ← get_and_aggregate_metrics answer;
  if bool_decide (metrics = ""%string) || bool_decide (instance_metrics = []) then mret tt
  else mmodify (λ c, set_last c metrics instance_metrics).

(** The rounds until the thread ends. *)
Fixpoint update_metrics_thread (answers : list pools) : M Collector unit :=
  match answers with [] => mret tt | a :: answers => update_round a ;; update_metrics_thread answers end.
End round.

(** ** Text *)

Definition is_word (s : string) : Prop := s ≠ ""%string ∧ Forall (λ c, is_space c = false) (chars s).

Lemma chars_nil s : chars s = [] → s = ""%string.
Proof. by destruct s. Qed.

Lemma words_from_app a : Forall (λ c, is_space c = false) a → ∀ l w, words_from (a ++ l) w = words_from l (w ++ a).
Proof.
  induction 1 as [|c a Hc _ IH]; intros l w; simpl; [by rewrite app_nil_r|].
  by rewrite Hc, IH, <- app_assoc.
Qed.

Lemma join_cons sep x y l : join sep (x :: y :: l) = x +:+ sep +:+ join sep (y :: l).
Proof. done. Qed.

Lemma words_join ws : Forall is_word ws → words (join " " ws) = ws.
Proof.
  unfold words. intros Hw. assert (words_from (chars (join " " ws)) [] = map chars ws) as ->.
  { induction Hw as [|x ws [Hx Hs] Hw IH]; [done|]. assert (∃ c a, chars x = c :: a) as (c & a & Ex).
    { destruct x; [done|]. by eexists _, _. }
    destruct ws as [|y ws].
    - change (join " " [x]) with x. rewrite <- (app_nil_r (chars x)) at 1. rewrite words_from_app by done. simpl. by rewrite Ex.
    - rewrite join_cons, !chars_app, words_from_app by done. rewrite app_nil_l.
      change (map chars (x :: y :: ws)) with (chars x :: map chars (y :: ws)). rewrite <- IH.
      change (chars " ") with [" "%char]. cbn [app words_from].
      assert (is_space " " = true) as -> by done. by rewrite Ex. }
  rewrite map_map. rewrite <- (map_id ws) at 2. apply map_ext. intros x. apply of_chars_chars.
Qed.

(** Lines without line feeds. *)
Lemma split_chars_app a : Forall (λ c, c ≠ LFc) a → ∀ l, split_chars LFc (a ++ LFc :: l) = a :: split_chars LFc l.
Proof.
  induction 1 as [|c a Hc _ IH]; intros l; [done|]. cbn [app split_chars].
  rewrite decide_False by done. by rewrite IH.
Qed.
Lemma split_chars_last a : Forall (λ c, c ≠ LFc) a → split_chars LFc a = [a].
Proof. induction 1 as [|c a Hc _ IH]; simpl; [done|]. rewrite decide_False by done. by rewrite IH. Qed.

Lemma split_join lines :
  lines ≠ [] → Forall (λ s, Forall (λ c, c ≠ LFc) (chars s)) lines → split LFc (join (of_chars [LFc]) lines) = lines.
Proof.
  intros Hne Hl. unfold split. assert (split_chars LFc (chars (join (of_chars [LFc]) lines)) = map chars lines) as ->.
  { induction Hl as [|x lines Hx Hl IH]; [done|]. destruct lines as [|y lines].
    - change (join _ [x]) with x. by rewrite split_chars_last.
    - rewrite join_cons, !chars_app. change (chars (of_chars [LFc])) with [LFc]. cbn [app].
      rewrite split_chars_app by done. by rewrite IH. }
  rewrite map_map. rewrite <- (map_id lines) at 2. apply map_ext. intros x. apply of_chars_chars.
Qed.

(** A text that starts and ends with other characters than white space. *)
Lemma strip_same l c d : head l = Some c → last l = Some d → is_space c = false → is_space d = false → strip_with is_space l = l.
Proof.
  intros Hc Hd Hsc Hsd. unfold strip_with. destruct l as [|x l]; [done|]. injection Hc as ->. simpl. rewrite Hsc.
  destruct (reverse (c :: l)) as [|y r] eqn:E.
  { apply (f_equal reverse) in E. by rewrite reverse_involutive in E. }
  assert (y = d) as ->.
  { apply (f_equal reverse) in E. rewrite reverse_involutive, reverse_cons in E. rewrite E, last_snoc in Hd. by injection Hd. }
  simpl. rewrite Hsd, <- E. apply reverse_involutive.
Qed.

(** *** What a metric that can be written looks like *)

Definition sample_ok (x : string * number) : Prop :=
  is_word x.1 ∧ head (chars x.1) ≠ Some "#"%char ∧ without_engine x.1 = x.1 ∧
  ∃ v, x.2 = Flt v ∧ flt v f0 = false ∧ is_word (get_value_str (Flt v)) ∧ parse_float (get_value_str (Flt v)) = Some v.
Definition metric_ok (m : SingleMetric) : Prop :=
  is_word (m_name m) ∧ (∃ hs, hs ≠ [] ∧ Forall is_word hs ∧ m_help m = join " " hs) ∧ m_type m ≠ NONE ∧ Forall sample_ok (m_samples m).

Lemma word_no_lf s : is_word s → Forall (λ c, c ≠ LFc) (chars s).
Proof. intros [_ H]. eapply Forall_impl; [exact H|]. by intros c Hc ->. Qed.
Lemma join_no_lf ws : Forall is_word ws → Forall (λ c, c ≠ LFc) (chars (join " " ws)).
Proof.
  induction 1 as [|x ws Hx Hw IH]; [constructor|]. destruct ws as [|y ws]; [by apply word_no_lf|].
  rewrite join_cons, !chars_app. apply Forall_app. split; [by apply word_no_lf|]. by constructor.
Qed.

Lemma join_app ws vs : ws ≠ [] → vs ≠ [] → join " " (ws ++ vs) = join " " ws +:+ " " +:+ join " " vs.
Proof.
  intros Hw Hv. induction ws as [|x ws IH]; [done|]. destruct ws as [|y ws].
  - destruct vs; [done|]. done.
  - change ((x :: y :: ws) ++ vs) with (x :: y :: (ws ++ vs)). rewrite !join_cons. change (y :: ws ++ vs) with ((y :: ws) ++ vs).
    rewrite IH by done. by rewrite !str_app_assoc.
Qed.

Lemma metric_lines_ok m : metric_ok m → ∃ hs, Forall is_word hs ∧ hs ≠ [] ∧ m_help m = join " " hs ∧
  metric_lines m = join " " ("#" :: "HELP" :: m_name m :: hs)%string :: join " " ["#"; "TYPE"; m_name m; type_value (m_type m)]%string ::
    map (λ x, join " " [x.1; get_value_str x.2]) (m_samples m).
Proof.
  intros (Hn & (hs & Hne & Hhs & Hh) & Ht & Hs). exists hs. split; [done|]. split; [done|]. split; [done|].
  unfold metric_lines. rewrite Hh. f_equal. destruct hs; [done|]. by rewrite !join_cons.
Qed.

Ltac words_ok :=
  repeat match goal with
    | |- Forall is_word (_ :: _) => apply Forall_cons; split
    | |- Forall is_word [] => constructor
    end; first [assumption | by split; [|repeat constructor]].

Lemma type_from_value t : t ≠ NONE → is_word (type_value t) ∧ type_from_string (type_value t) = Some t.
Proof. destruct t; try done; intros _; (split; [|done]); (split; [done|]); by repeat constructor. Qed.

Lemma parse_help_line name hs :
  is_word name → Forall is_word hs → hs ≠ [] →
  parse_metric_help (join " " ("#" :: "HELP" :: name :: hs)%string) = Some (mkMetric name (join " " hs) NONE []).
Proof.
  intros Hn Hh Hne. unfold parse_metric_help. rewrite words_join by words_ok.
  destruct hs as [|h hs]; [done|]. by rewrite decide_True.
Qed.

Lemma parse_type_line m t :
  is_word (m_name m) → t ≠ NONE →
  parse_metric_type m (join " " ["#"; "TYPE"; m_name m; type_value t]%string) = Some (mkMetric (m_name m) (m_help m) t (m_samples m)).
Proof.
  intros Hn Ht. destruct (type_from_value t Ht) as [Hw Hf]. unfold parse_metric_type.
  rewrite words_join by words_ok. rewrite decide_True by done. by rewrite Hf.
Qed.

Lemma parse_sample_line m x :
  sample_ok x → parse_metric_body_block m (join " " [x.1; get_value_str x.2]) =
    Some (mkMetric (m_name m) (m_help m) (m_type m) (m_samples m ++ [x])).
Proof.
  destruct x as [l n]. intros (Hl & _ & He & v & Hv & Hpos & Hw & Hp). cbn [fst snd] in *. subst n. unfold parse_metric_body_block.
  rewrite words_join by words_ok. rewrite Hp, Hpos, He. done.
Qed.

Lemma sample_line_head x : sample_ok x → ∃ c cs, chars (join " " [x.1; get_value_str x.2]) = c :: cs ∧ c ≠ "#"%char.
Proof.
  intros ([Hne Hs] & Hh & _). rewrite join_cons, !chars_app. destruct (chars x.1) as [|c cs] eqn:E; [by apply chars_nil in E|].
  eexists c, _. split; [done|]. intros ->. by apply Hh.
Qed.

(** The body of a metric is read back to its end. *)
Lemma parse_body samples : ∀ m lines array,
  Forall sample_ok samples →
  parse_lines (InBody m) (map (λ x, join " " [x.1; get_value_str x.2]) samples ++ lines) array =
    parse_lines (InBody (mkMetric (m_name m) (m_help m) (m_type m) (m_samples m ++ samples))) lines array.
Proof.
  induction samples as [|x samples IH]; intros m lines array Hs; cbn [map app].
  - rewrite app_nil_r. by destruct m.
  - apply Forall_cons in Hs as [Hx Hs]. cbn [parse_lines]. destruct (sample_line_head x Hx) as (c & cs & E & Hc).
    rewrite E, decide_False by done. rewrite parse_sample_line by done. rewrite IH by done. simpl. by rewrite <- app_assoc.
Qed.

Lemma parse_one m lines array :
  metric_ok m →
  (lines = [] ∨ ∃ c l, lines = c :: l ∧ head (chars c) = Some "#"%char) →
  parse_lines AtHelp (metric_lines m ++ lines) array = parse_lines AtHelp lines (array ++ [m]).
Proof.
  intros Hm Hl. destruct (metric_lines_ok m Hm) as (hs & Hhs & Hne & Hh & ->). destruct Hm as (Hn & _ & Ht & Hs).
  cbn [app parse_lines]. rewrite parse_help_line by done. cbn [parse_lines].
  rewrite (parse_type_line (mkMetric (m_name m) (join " " hs) NONE [])) by done. cbn [m_name m_help m_samples].
  rewrite parse_body by done. cbn [m_name m_help m_type m_samples app]. rewrite <- Hh.
  assert (mkMetric (m_name m) (m_help m) (m_type m) (m_samples m) = m) as -> by (by destruct m).
  destruct Hl as [->|(c & l & -> & Hc)]; [done|]. cbn [parse_lines]. destruct (chars c) as [|c0 cs]; [done|]. injection Hc as ->.
  by rewrite decide_True.
Qed.

Lemma metric_lines_head m : ∃ c l, metric_lines m = c :: l ∧ head (chars c) = Some "#"%char.
Proof. by eexists _, _. Qed.

Lemma parse_all ms : ∀ array, Forall metric_ok ms →
  parse_lines AtHelp (concat (map metric_lines ms)) array = Ret (Some (array ++ ms)).
Proof.
  induction ms as [|m ms IH]; intros array Hm; cbn [map concat]; [simpl; by rewrite app_nil_r|].
  apply Forall_cons in Hm as [Hm Hms]. rewrite parse_one; [|done|].
  - rewrite IH by done. by rewrite <- app_assoc.
  - destruct ms as [|m' ms]; [by left|]. right. destruct (metric_lines_head m') as (c & l & E & Hc).
    exists c, (l ++ concat (map metric_lines ms)). split; [cbn [map concat]; by rewrite E|done].
Qed.

(** The text has no line feed but between lines, and white space at neither end. *)
Lemma metric_lines_no_lf m : metric_ok m → Forall (λ s, Forall (λ c, c ≠ LFc) (chars s)) (metric_lines m).
Proof.
  intros Hm. destruct (metric_lines_ok m Hm) as (hs & Hhs & Hne & Hh & ->). destruct Hm as (Hn & _ & Ht & Hs).
  destruct (type_from_value _ Ht) as [Hw _]. constructor; [|constructor].
  - apply join_no_lf. words_ok.
  - apply join_no_lf. words_ok.
  - apply Forall_fmap. eapply Forall_impl; [exact Hs|]. intros [l n] (Hl & _ & _ & v & Hv & _ & Hwv & _). simpl in Hv. subst n.
    apply join_no_lf. words_ok.
Qed.

Lemma word_last s : is_word s → ∃ c, last (chars s) = Some c ∧ is_space c = false.
Proof.
  intros [Hne Hs]. destruct (last (chars s)) as [c|] eqn:E.
  - exists c. split; [done|]. rewrite Forall_forall in Hs. apply Hs. apply last_Some in E as [l ->]. apply elem_of_app. right. by apply list_elem_of_singleton.
  - apply last_None in E. by apply chars_nil in E.
Qed.

Lemma last_join sep lines x c : last lines = Some x → last (chars x) = Some c → last (chars (join sep lines)) = Some c.
Proof.
  induction lines as [|y lines IH]; [done|]. intros Hx Hc. destruct lines as [|z lines].
  - injection Hx as ->. done.
  - rewrite join_cons, !chars_app, app_assoc. rewrite last_app. by rewrite (IH Hx Hc).
Qed.

Lemma metric_lines_last m : metric_ok m → ∃ x c, last (metric_lines m) = Some x ∧ last (chars x) = Some c ∧ is_space c = false.
Proof.
  intros Hm. destruct (metric_lines_ok m Hm) as (hs & Hhs & Hne & Hh & ->). destruct Hm as (Hn & _ & Ht & Hs).
  destruct (type_from_value _ Ht) as [Hw _]. destruct (last (m_samples m)) as [[l n]|] eqn:E.
  - assert ((l, n) ∈ m_samples m) as Hin by (apply last_Some in E as [k ->]; apply elem_of_app; right; by apply list_elem_of_singleton).
    rewrite Forall_forall in Hs. destruct (Hs _ Hin) as (_ & _ & _ & v & Hv & _ & Hwv & _). simpl in Hv. subst n.
    destruct (word_last _ Hwv) as (c & Hc & Hsp). eexists _, c. split; [|split; [|done]].
    + rewrite !last_cons, map_fmap, fmap_last, E. reflexivity.
    + eapply last_join; [reflexivity|exact Hc].
  - apply last_None in E. rewrite E. destruct (word_last _ Hw) as (c & Hc & Hsp). eexists _, c. split; [reflexivity|]. split; [|done].
    eapply last_join; [reflexivity|exact Hc].
Qed.

(** ** Aggregation in closed form *)

Lemma py_map_map {A B C} (h : A → B) (f : B → py C) (g : A → C) l :
  (∀ a, a ∈ l → f (h a) = Ret (g a)) → py_map f (map h l) = Ret (map g l).
Proof.
  induction l as [|a l IH]; intros Hf; simpl; [done|]. rewrite Hf by by left. simpl.
  rewrite IH; [done|]. intros a' Ha. apply Hf. by right.
Qed.

Definition named (name : string) (l : list SingleMetric) : list SingleMetric := List.filter (λ m, bool_decide (m_name m = name)) l.

(** The sum of the metrics of one name. *)
Definition summed (name : string) (l : list SingleMetric) : SingleMetric :=
  let ms := named name l in
  match ms with
  | [] => mkMetric name "" NONE []
  | m :: _ =>
      mkMetric name (m_help m) (m_type m)
        (map (λ x, (x.1, Flt x.2)) (if decide (name = usage_metric) then aggregate_labels_by_mean ms else aggregate_labels_by_sum ms))
  end.

Definition format_of (l : list SingleMetric) : dict string (list SingleMetric) := fold_left (λ t m, dset t (m_name m) []) l [].

Lemma format_empty l : ∀ t : dict string (list SingleMetric),
  dict_wf t → (∀ k v, (k, v) ∈ t → v = []) →
  let t' := fold_left (λ t m, dset t (m_name m) []) l t in
  dict_wf t' ∧ (∀ k v, (k, v) ∈ t' → v = []) ∧ ∀ n, n ∈ dkeys t' ↔ n ∈ dkeys t ∨ n ∈ map m_name l.
Proof.
  induction l as [|m l IH]; intros t Hw Ht; simpl.
  - split; [done|]. split; [done|]. intros n. split; [by left|]. intros [H|H]; [done|by apply elem_of_nil in H].
  - assert (dict_wf (dset t (m_name m) [])) as Hw' by by apply dict_wf_dset.
    destruct (IH (dset t (m_name m) []) Hw') as (H1 & H2 & H3).
    { intros k v Hin. apply dget_in_wf in Hin; [|done]. rewrite dget_dset in Hin. destruct (decide _); [by injection Hin|].
      apply dget_Some_in in Hin. by apply (Ht k). }
    split; [done|]. split; [done|]. intros n. rewrite H3. rewrite elem_of_cons.
    assert (n ∈ dkeys (dset t (m_name m) []) ↔ n = m_name m ∨ n ∈ dkeys t) as ->; [|tauto].
    rewrite !elem_of_dkeys, dget_dset. destruct (decide _) as [->|Hne]; [split; [by left|by eexists]|].
    split; [by right|]. by intros [->|H].
Qed.

Lemma longest_in {A} (l : list (list A)) : ∀ best, longest best l = best ∨ longest best l ∈ l.
Proof.
  induction l as [|x l IH]; intros best; [by left|].
  change (longest best (x :: l)) with (longest (if (length best <? length x)%nat then x else best) l).
  destruct (IH (if (length best <? length x)%nat then x else best)) as [->|H]; [|right; by right].
  destruct (_ <? _)%nat; [right; by left|by left].
Qed.

(** Metrics with a known name are added in place; the keys keep their order. *)
Lemma add_all l : ∀ t : dict string (list SingleMetric),
  dict_wf t → Forall (λ m, m_name m ∈ dkeys t) l →
  py_fold add_metric l t = Ret (map (λ x, (x.1, x.2 ++ named x.1 l)) t).
Proof.
  induction l as [|m l IH]; intros t Hw Hl; simpl.
  - f_equal. rewrite <- (map_id t) at 1. apply map_ext. intros [k v]. simpl. by rewrite app_nil_r.
  - apply Forall_cons in Hl as [Hm Hl]. apply elem_of_dkeys in Hm as [v Hv].
    assert (add_metric t m = Ret (dset t (m_name m) (v ++ [m]))) as -> by (unfold add_metric; by rewrite Hv).
    simpl. rewrite IH.
    + f_equal. clear IH Hl. unfold dict_wf in Hw. induction t as [|[k w] t IHt]; [done|].
      simpl in Hw. apply NoDup_cons in Hw as [Hk Hw]. simpl in Hv. simpl. destruct (decide (m_name m = k)) as [->|Hne].
      * injection Hv as ->. rewrite bool_decide_eq_true_2 by done. simpl. rewrite <- app_assoc. f_equal.
        apply map_ext_in. intros [k' v'] Hin. simpl. rewrite bool_decide_eq_false_2; [done|]. intros ->. apply Hk.
        apply list_elem_of_fmap. exists (k', v'). split; [done|]. by apply list_elem_of_In.
      * rewrite bool_decide_eq_false_2 by done. simpl. f_equal. by apply IHt.
    + by apply dict_wf_dset.
    + eapply Forall_impl; [exact Hl|]. intros m' Hm'. apply elem_of_dkeys. rewrite dget_dset. destruct (decide _); [by eexists|].
      by apply elem_of_dkeys.
Qed.

Lemma add_unknown l : ∀ t : dict string (list SingleMetric),
  ¬ Forall (λ m, m_name m ∈ dkeys t) l → py_fold add_metric l t = Raise KeyError.
Proof.
  induction l as [|m l IH]; intros t Hl; simpl; [by destruct Hl|].
  destruct (dget t (m_name m)) as [v|] eqn:Hv.
  2: { assert (add_metric t m = Raise KeyError) as -> by (unfold add_metric; by rewrite Hv). done. }
  assert (add_metric t m = Ret (dset t (m_name m) (v ++ [m]))) as -> by (unfold add_metric; by rewrite Hv). simpl. apply IH. intros H. apply Hl. apply Forall_cons.
  split; [apply elem_of_dkeys; by eexists|]. eapply Forall_impl; [exact H|]. intros m' Hm'. apply elem_of_dkeys in Hm' as [w Hw].
  rewrite dget_dset in Hw. apply elem_of_dkeys. destruct (decide _) as [E|]; [|by eexists].
  first [rewrite E|rewrite <- E]; by eexists.
Qed.

Lemma in_named m n l : m ∈ named n l ↔ m ∈ l ∧ m_name m = n.
Proof. unfold named. by rewrite !list_elem_of_In, filter_In, bool_decide_eq_true. Qed.

Lemma common_summed n l : named n l ≠ [] → aggregate_metric_common (named n l) = Ret (summed n l).
Proof.
  intros Hne. unfold summed. destruct (named n l) as [|m ms] eqn:E; [done|]. simpl.
  assert (m_name m = n) as -> by (eapply (proj1 (in_named m n l)); rewrite E; by left). done.
Qed.

(** The names of the longest list decide: with another name in some list the
    aggregation raises. *)
Lemma aggregate_closed first l :
  let long := longest first (first :: l) in
  let all := concat (first :: l) in
  aggregate_metrics_common (first :: l) =
    if decide (Forall (λ m, m_name m ∈ map m_name long) all) then Ret (map (λ n, summed n all) (dkeys (format_of long)))
    else Raise KeyError.
Proof.
  cbv zeta. set (long := longest first (first :: l)). set (all := concat (first :: l)).
  assert (∀ m, m ∈ long → m ∈ all) as Hlong.
  { intros m Hm. unfold long in Hm. destruct (longest_in (first :: l) first) as [E|E].
    - rewrite E in Hm. unfold all. simpl. apply elem_of_app. by left.
    - unfold all. rewrite list_elem_of_In, in_concat. eexists. split; [apply list_elem_of_In; exact E|by apply list_elem_of_In]. }
  destruct (format_empty long [] ltac:(constructor) ltac:(intros k v H; by apply elem_of_nil in H)) as (Hw & He & Hk).
  fold (format_of long) in Hw, He, Hk.
  assert (∀ n, n ∈ dkeys (format_of long) ↔ n ∈ map m_name long) as Hk'.
  { intros n. rewrite Hk. split; [intros [H|H]; [by apply elem_of_nil in H|done]|by right]. }
  unfold aggregate_metrics_common. fold long. fold all. fold (format_of long).
  destruct (decide _) as [Hall|Hall].
  - rewrite add_all; [|done|eapply Forall_impl; [exact Hall|]; intros m Hm; by apply Hk']. simpl.
    unfold dvalues, dkeys. rewrite <- !map_fmap, !map_map. apply py_map_map. intros [n v] Hin. simpl.
    rewrite (He n v Hin). apply common_summed. intros E.
    assert (n ∈ map m_name long) as Hn.
    { apply Hk'. apply elem_of_dkeys. exists v. by apply dget_in_wf. }
    rewrite map_fmap in Hn. apply list_elem_of_fmap in Hn as (m & -> & Hm).
    assert (m ∈ named (m_name m) all) as Hin' by (apply in_named; split; [by apply Hlong|done]).
    rewrite E in Hin'. by apply elem_of_nil in Hin'.
  - rewrite add_unknown; [done|]. intros HF. apply Hall. eapply Forall_impl; [exact HF|]. intros m Hm. by apply Hk'.
Qed.

(** *** What one instance contributes *)

(** Distinct names, and distinct labels in each metric. *)
Definition distinct (ms : list SingleMetric) : Prop :=
  NoDup (map m_name ms) ∧ Forall (λ m, NoDup (map fst (m_samples m))) ms.
(** Metrics that are not averaged and that stay when an instance goes. *)
Definition counters (ms : list SingleMetric) : Prop := Forall (λ m, m_name m ≠ usage_metric ∧ m_type m ≠ GAUGE) ms.

(** Every value replaced. *)
Definition with_values (f : f64 → f64) (m : SingleMetric) : SingleMetric :=
  mkMetric (m_name m) (m_help m) (m_type m) (map (λ x, (x.1, Flt (f (as_float x.2)))) (m_samples m)).

Lemma format_names ms : ∀ t : dict string (list SingleMetric),
  NoDup (dkeys t ++ map m_name ms) → dkeys (fold_left (λ t m, dset t (m_name m) []) ms t) = dkeys t ++ map m_name ms.
Proof.
  induction ms as [|m ms IH]; intros t Hn; simpl; [by rewrite app_nil_r|].
  assert (dget t (m_name m) = None) as Hd.
  { apply dget_None_keys. intros Hin. simpl in Hn. apply NoDup_app in Hn as (_ & H & _). apply (H _ Hin). by left. }
  assert (dkeys (dset t (m_name m) []) = dkeys t ++ [m_name m]) as E by (unfold dkeys; rewrite dset_new by done; by rewrite fmap_app).
  rewrite IH; [by rewrite E, <- app_assoc|]. by rewrite E, <- app_assoc.
Qed.

Lemma named_unique ms m : NoDup (map m_name ms) → m ∈ ms → named (m_name m) ms = [m].
Proof.
  induction ms as [|m' ms IH]; intros Hn Hm; [by apply elem_of_nil in Hm|]. simpl in Hn. apply NoDup_cons in Hn as [Hm' Hn].
  assert (∀ l n, n ∉ map m_name l → named n l = []) as Hnone.
  { intros l n. induction l as [|x l IHl]; intros Hx; [done|]. simpl in Hx. apply not_elem_of_cons in Hx as [Hx1 Hx2].
    unfold named. simpl. rewrite bool_decide_eq_false_2 by done. by apply IHl. }
  apply elem_of_cons in Hm as [->|Hm].
  - unfold named. simpl. rewrite bool_decide_eq_true_2 by done. f_equal. by apply Hnone.
  - unfold named. simpl. rewrite bool_decide_eq_false_2; [by apply IH|]. intros E. apply Hm'. rewrite E.
    rewrite map_fmap. apply list_elem_of_fmap. by exists m.
Qed.

Lemma named_app n l l' : named n (l ++ l') = named n l ++ named n l'.
Proof. unfold named. by rewrite List.filter_app. Qed.

(** Samples with new labels are appended, samples of known labels are added up. *)
Lemma sum_new xs : ∀ t : table, NoDup (dkeys t ++ map fst xs) →
  fold_left add_sample xs t = t ++ map (λ x, (x.1, fadd f0 (as_float x.2))) xs.
Proof.
  induction xs as [|x xs IH]; intros t Hn; simpl; [by rewrite app_nil_r|].
  assert (dget t x.1 = None) as Hd.
  { apply dget_None_keys. intros Hin. simpl in Hn. apply NoDup_app in Hn as (_ & H & _). apply (H _ Hin). by left. }
  assert (add_sample t x = t ++ [(x.1, fadd f0 (as_float x.2))]) as Ea by (unfold add_sample; rewrite Hd; by rewrite dset_new).
  rewrite Ea, IH; [by rewrite <- app_assoc|]. unfold dkeys. rewrite fmap_app. simpl. rewrite <- app_assoc. exact Hn.
Qed.

Lemma dset_middle (l l' : table) k v w :
  k ∉ dkeys l → dset (l ++ (k, v) :: l') k w = l ++ (k, w) :: l' ∧ dget (l ++ (k, v) :: l') k = Some v.
Proof.
  intros Hl. induction l as [|[k' u] l IH]; simpl; [by rewrite !decide_True by done|].
  simpl in Hl. apply not_elem_of_cons in Hl as [Hl1 Hl]. rewrite !decide_False by done. by destruct (IH Hl) as [-> ->].
Qed.

Lemma sum_again (a : string * number → f64) (b : string * number → number) xs : ∀ t0 : table, NoDup (dkeys t0 ++ map fst xs) →
  fold_left add_sample (map (λ x, (x.1, b x)) xs) (t0 ++ map (λ x, (x.1, a x)) xs) =
    t0 ++ map (λ x, (x.1, fadd (a x) (as_float (b x)))) xs.
Proof.
  induction xs as [|x xs IH]; intros t0 Hn; simpl; [done|].
  assert (x.1 ∉ dkeys t0) as H0.
  { intros Hin. apply NoDup_app in Hn as (_ & H & _). apply (H _ Hin). by left. }
  destruct (dset_middle t0 (map (λ x, (x.1, a x)) xs) x.1 (a x) (fadd (a x) (as_float (b x))) H0) as [Es Eg].
  unfold add_sample at 2. simpl. rewrite Eg. simpl. rewrite Es.
  specialize (IH (t0 ++ [(x.1, fadd (a x) (as_float (b x)))])). rewrite <- !app_assoc in IH. apply IH.
  unfold dkeys. rewrite fmap_app, <- app_assoc. exact Hn.
Qed.

Lemma with_values_with f g m : with_values f (with_values g m) = with_values (λ v, f (g v)) m.
Proof. unfold with_values. simpl. by rewrite map_map. Qed.
Lemma with_values_ext f g m : (∀ v, f v = g v) → with_values f m = with_values g m.
Proof. intros H. unfold with_values. f_equal. apply map_ext. intros x. by rewrite H. Qed.

Lemma distinct_with f ms : distinct ms → distinct (map (with_values f) ms).
Proof.
  intros [H1 H2]. split; [by rewrite map_map|]. apply Forall_fmap. eapply Forall_impl; [exact H2|]. intros m Hm.
  cbn. by rewrite map_map.
Qed.
Lemma counters_with f ms : counters ms → counters (map (with_values f) ms).
Proof. intros H. apply Forall_fmap. eapply Forall_impl; [exact H|]. done. Qed.
Lemma counted_counters b ms : counters ms → map (counted b) ms = ms.
Proof.
  intros H. rewrite <- (map_id ms) at 2. apply map_ext_in. intros m Hm. apply list_elem_of_In in Hm.
  unfold counters in H. rewrite Forall_forall in H. destruct (H m Hm) as [_ Hg]. unfold counted. by rewrite bool_decide_eq_false_2.
Qed.

Lemma longest_shorter {A} (best : list A) l : Forall (λ x, (length x <= length best)%nat) l → longest best l = best.
Proof.
  induction 1 as [|x l Hx _ IH]; [done|]. change (longest best (x :: l)) with (longest (if (length best <? length x)%nat then x else best) l).
  rewrite (proj2 (Nat.ltb_ge _ _)) by done. exact IH.
Qed.

Lemma keys_of_format ms : NoDup (map m_name ms) → dkeys (format_of ms) = map m_name ms.
Proof. intros H. unfold format_of. by rewrite format_names. Qed.

(** The lists of one shape, aggregated: one list with empty ones, or two. *)
Lemma aggregate_single ms rest :
  distinct ms → counters ms → Forall (λ x, x = []) rest →
  aggregate_metrics_common (ms :: rest) = Ret (map (with_values (fadd f0)) ms).
Proof.
  intros [Hn Hl] Hc Hr. rewrite aggregate_closed.
  assert (longest ms (ms :: rest) = ms) as ->.
  { apply longest_shorter. constructor; [lia|]. eapply Forall_impl; [exact Hr|]. intros x ->. simpl. lia. }
  assert (concat (ms :: rest) = ms) as ->.
  { simpl. assert (concat rest = []) as ->; [|apply app_nil_r]. induction Hr as [|x rest -> _ IH]; [done|exact IH]. }
  rewrite decide_True by (apply Forall_forall; intros m Hm; rewrite map_fmap; apply list_elem_of_fmap; eauto).
  f_equal. rewrite keys_of_format by done. rewrite map_map. apply map_ext_in. intros m Hm. apply list_elem_of_In in Hm.
  unfold summed. rewrite named_unique by done. unfold counters in Hc. rewrite Forall_forall in Hc, Hl. destruct (Hc m Hm) as [Hu _].
  rewrite decide_False by done. unfold aggregate_labels_by_sum. simpl. rewrite app_nil_r.
  rewrite (sum_new _ []) by exact (Hl m Hm). unfold with_values. f_equal. simpl. by rewrite map_map.
Qed.

Lemma aggregate_pair f g ms :
  distinct ms → counters ms →
  aggregate_metrics_common [map (with_values f) ms; map (with_values g) ms] =
    Ret (map (with_values (λ v, fadd (fadd f0 (f v)) (g v))) ms).
Proof.
  intros [Hn Hl] Hc. rewrite aggregate_closed.
  assert (∀ h, map m_name (map (with_values h) ms) = map m_name ms) as Hnames by (intros h; by rewrite map_map).
  rewrite longest_shorter by (constructor; [lia|constructor; [rewrite !length_map; lia|constructor]]).
  assert (concat [map (with_values f) ms; map (with_values g) ms] = map (with_values f) ms ++ map (with_values g) ms) as ->
    by (simpl; by rewrite app_nil_r).
  rewrite decide_True.
  2: { apply Forall_forall. intros m Hm. rewrite Hnames, map_fmap. apply list_elem_of_fmap.
    apply elem_of_app in Hm as [Hm|Hm]; rewrite map_fmap in Hm; apply list_elem_of_fmap in Hm as (m' & -> & Hm); by exists m'. }
  f_equal. rewrite keys_of_format by by rewrite Hnames. rewrite Hnames, map_map. apply map_ext_in. intros m Hm. apply list_elem_of_In in Hm.
  assert (∀ h, named (m_name m) (map (with_values h) ms) = [with_values h m]) as Hnamed.
  { intros h. change (m_name m) with (m_name (with_values h m)). apply named_unique; [by rewrite Hnames|].
    rewrite map_fmap. by apply list_elem_of_fmap_2. }
  unfold summed. simpl m_name. rewrite named_app, !Hnamed. unfold counters in Hc. rewrite Forall_forall in Hc, Hl. destruct (Hc m Hm) as [Hu _].
  cbn [app]. rewrite decide_False by done. unfold aggregate_labels_by_sum. simpl. rewrite app_nil_r, fold_left_app.
  assert (∀ h, map fst (map (λ x : string * number, (x.1, Flt (h (as_float x.2)))) (m_samples m)) = map fst (m_samples m)) as Hfst
    by (intros h; by rewrite map_map).
  rewrite (sum_new _ []) by (simpl; rewrite Hfst; exact (Hl m Hm)).
  rewrite map_map. pose proof (sum_again (λ x, fadd f0 (f (as_float x.2))) (λ x, Flt (g (as_float x.2))) (m_samples m) [] (Hl m Hm)) as Hsum.
  unfold with_values. f_equal. transitivity (map (λ x : string * f64, (x.1, Flt x.2))
    ([] ++ map (λ x, (x.1, fadd (fadd f0 (f (as_float x.2))) (g (as_float x.2)))) (m_samples m))).
  - f_equal. exact Hsum.
  - simpl. by rewrite map_map.
Qed.

Lemma serialize_nonempty m l : get_serialize_metrics (m :: l) ≠ ""%string.
Proof.
  unfold get_serialize_metrics. cbn [map concat]. unfold metric_lines at 1. cbn [app].
  intros E. apply (f_equal chars) in E. by rewrite join_cons, !chars_app in E.
Qed.

(** *** Rounds with one instance *)

Section one.
Context (query_metrics : string → string) (p_num d_num : Z) (i : Instance) (e : Endpoint) (ms : list SingleMetric).
Context (Heps : concat (map dvalues (dvalues (endpoints i))) = [e]).
Abbreviation address := (ep_ip e +:+ ":" +:+ mgmt_port e).
Context (Hq : query_metrics address ≠ ""%string) (Hp : parse_metric_text (query_metrics address) = Ret (Some ms)).
Context (Hne : ms ≠ []) (Hd : distinct ms) (Hc : counters ms).

Abbreviation here := [(ins_id i, i)].
Abbreviation z := (fadd f0).
Abbreviation known := (map (with_values z) ms).
Definition report (f : f64 → f64) : string :=
  get_serialize_metrics (map (with_values f) ms ++ coordinator_metrics p_num d_num here).

Lemma z_twice v : z (z v) = z v.
Proof. rewrite !fadd_0_l. by destruct v. Qed.

Lemma known_again rest : Forall (λ x, x = []) rest → aggregate_metrics_common (known :: rest) = Ret known.
Proof.
  intros Hr. rewrite aggregate_single by (try done; by first [apply distinct_with|apply counters_with]).
  f_equal. rewrite map_map. apply map_ext. intros m. rewrite with_values_with. apply with_values_ext. intros v. apply z_twice.
Qed.

Lemma history_kept h : h = [] ∨ h = known → aggregate_metrics_common [h] = Ret h.
Proof.
  intros [->| ->]; [|by apply known_again]. rewrite aggregate_single; [done|split; constructor|constructor|constructor].
Qed.

Lemma server_metrics : get_server_metrics query_metrics here = [(ins_id i, [(ep_id e, query_metrics address)])].
Proof. unfold get_server_metrics, get_server_metrics_endpoints. cbn. rewrite Heps. cbn. by rewrite decide_False. Qed.

Lemma parsed_metrics : parse_metrics (get_server_metrics query_metrics here) = Ret (Some [(ins_id i, [(ep_id e, ms)])]).
Proof. rewrite server_metrics. cbn [parse_metrics parse_pods]. rewrite Hp. by destruct ms. Qed.

(** A round that finds the instance. *)
Lemma round_up c f :
  metrics_cached c = [] → (inactive_aggregate c = [] ∧ f = z ∨ inactive_aggregate c = known ∧ f = λ v, fadd (z v) (z v)) →
  update_round query_metrics p_num d_num (Some (here, [])) c =
    (mkCollector (inactive_aggregate c) [(ins_id i, known)] (report f) [(ins_id i, known)], Ret tt).
Proof.
  intros Hcache Hh.
  assert (inactive_aggregate c = [] ∨ inactive_aggregate c = known) as Hhist by (destruct Hh as [[-> _]|[-> _]]; auto).
  set (c1 := set_cached (set_inactive c (inactive_aggregate c)) []).
  assert (clear_inactive_metrics [] c = (c1, Ret tt)) as E1.
  { unfold clear_inactive_metrics. erewrite M_bind_Ret by reflexivity. cbn [dkeys List.filter map fmap list_fmap app].
    erewrite M_bind_Ret; [|unfold mlift; rewrite history_kept by done; reflexivity]. unfold mmodify, c1. cbn. by rewrite Hcache. }
  set (c2 := set_cached c1 [(ins_id i, known)]).
  assert (aggregate_metrics_by_instance [(ins_id i, [(ep_id e, ms)])] c1 = (c2, Ret tt)) as E2.
  { cbn [aggregate_metrics_by_instance dvalues fmap list_fmap snd].
    erewrite M_bind_Ret; [|erewrite M_bind_Ret; [reflexivity|unfold mlift; rewrite aggregate_single by (done || constructor); reflexivity]].
    done. }
  assert (aggregate_metrics_all_instance (dkeys [(ins_id i, [(ep_id e, ms)])]) c2 = (c2, Ret (map (with_values f) ms))) as E3.
  { unfold aggregate_metrics_all_instance. erewrite M_bind_Ret by reflexivity. unfold c2, c1. cbn [metrics_cached set_cached set_inactive inactive_aggregate].
    cbn [map fst snd app]. rewrite counted_counters by by apply counters_with.
    unfold mlift. destruct Hh as [[-> ->]|[-> ->]]; [by rewrite known_again by repeat constructor|].
    rewrite (aggregate_pair z z ms) by done. do 2 f_equal. apply map_ext. intros m. apply with_values_ext. intros v. by rewrite z_twice. }
  unfold update_round. erewrite M_bind_Ret.
  2: { unfold get_and_aggregate_metrics, default. cbn [from_option id]. cbv beta iota. rewrite (M_bind_Ret _ _ _ _ _ E1).
    erewrite M_bind_Ret; [|unfold mlift; rewrite parsed_metrics; reflexivity]. cbv beta iota.
    rewrite (M_bind_Ret _ _ _ _ _ E2), (M_bind_Ret _ _ _ _ _ E3). erewrite M_bind_Ret by reflexivity.
    erewrite M_bind_Ret by (unfold mlift, c2; cbn; rewrite decide_True by done; reflexivity). reflexivity. }
  cbv beta iota. rewrite bool_decide_eq_false_2; [done|]. destruct ms as [|m ms']; [done|]. apply serialize_nonempty.
Qed.

(** A round that finds it gone. *)
Lemma round_down c :
  metrics_cached c = [(ins_id i, known)] → inactive_aggregate c = [] →
  update_round query_metrics p_num d_num (Some ([], here)) c =
    (mkCollector known [] (last_metrics c) (last_instance_metrics c), Ret tt).
Proof.
  intros Hcache Hh. unfold update_round, get_and_aggregate_metrics, default. cbn [from_option id]. cbv beta iota.
  assert (clear_inactive_metrics here c = (set_cached (set_inactive c known) [], Ret tt)) as E1.
  { unfold clear_inactive_metrics. erewrite M_bind_Ret by reflexivity. cbn [dkeys List.filter fmap list_fmap fst].
    assert (dhas (metrics_cached c) (ins_id i) = true) as -> by (rewrite Hcache; unfold dhas; cbn; by rewrite decide_True).
    cbn [map app]. rewrite Hcache, Hh. cbn [dget]. rewrite decide_True by done. cbn [default].
    rewrite counted_counters by by apply counters_with.
    erewrite M_bind_Ret; [|unfold mlift; rewrite known_again by repeat constructor; reflexivity].
    unfold mmodify. cbn [fold_left]. cbn. rewrite Hcache. cbn. by rewrite decide_True. }
  erewrite M_bind_Ret; [|rewrite (M_bind_Ret _ _ _ _ _ E1); reflexivity]. cbv beta iota. by rewrite orb_true_r.
Qed.
End one.

(** ** Properties *)



(** An instance that comes back is counted twice, and one that is away is still
    reported.  When the only instance, with one endpoint and counters only, is scraped,
    then found unavailable, then available again with its counters unchanged, the
    thread publishes its counters, keeps publishing them with the old number of active
    workers while no instance is there, and then publishes every counter doubled: what
    [_clear_inactive_metrics] put into the history is added to what the instance still
    reports. *)
Theorem returned_instance_counted_twice query_metrics p_num d_num i e ms :
  concat (map dvalues (dvalues (endpoints i))) = [e] →
  query_metrics (ep_ip e +:+ ":" +:+ mgmt_port e) ≠ ""%string →
  parse_metric_text (query_metrics (ep_ip e +:+ ":" +:+ mgmt_port e)) = Ret (Some ms) →
  ms ≠ [] → distinct ms → counters ms →
  let here := [(ins_id i, i)] in
  let up := Some (here, []) in
  let down := Some ([], here) in
  let report f := get_serialize_metrics (map (with_values f) ms ++ coordinator_metrics p_num d_num here) in
  let run answers := update_metrics_thread query_metrics p_num d_num answers Collector_init in
  (run [up; down; up]).2 = Ret tt ∧
  last_metrics (run [up]).1 = report (fadd f0) ∧
  last_metrics (run [up; down]).1 = report (fadd f0) ∧
  last_metrics (run [up; down; up]).1 = report (λ v, fadd (fadd f0 v) (fadd f0 v)).
Proof.
  intros Heps Hq Hp Hne Hd Hc here up down report' run.
  pose proof (round_up query_metrics p_num d_num i e ms Heps Hq Hp Hne Hd Hc Collector_init (fadd f0) eq_refl ltac:(by left)) as E1.
  set (c1 := mkCollector _ _ _ _) in E1.
  pose proof (round_down query_metrics p_num d_num i ms Hd Hc c1 eq_refl eq_refl) as E2. set (c2 := mkCollector _ _ _ _) in E2.
  pose proof (round_up query_metrics p_num d_num i e ms Heps Hq Hp Hne Hd Hc c2 _ eq_refl ltac:(by right)) as E3.
  unfold run, up, down, here. cbn [update_metrics_thread]. rewrite !(M_bind_Ret _ _ _ _ _ E1), !(M_bind_Ret _ _ _ _ _ E2), !(M_bind_Ret _ _ _ _ _ E3).
  done.
Qed.

(** *** Samples *)

Definition sample_metrics : list SingleMetric :=
  [mkMetric "vllm:prompt_tokens_total" "Prefill tokens processed." COUNTER
     [("vllm:prompt_tokens_total{model=m}"%string, Flt (f_of_Z 1200)); ("vllm:prompt_tokens_total{model=n}"%string, Flt (fdiv f0 (f_of_Z 1)))];
   mkMetric "vllm:e2e_seconds" "Latency." HISTOGRAM [("vllm:e2e_seconds_sum"%string, Flt (fdiv (f_of_Z 1) (f_of_Z 10)))]].

Lemma word_ok s : negb (bool_decide (s = ""%string)) && forallb (λ c, negb (is_space c)) (chars s) = true → is_word s.
Proof.
  intros [Hne H]%andb_prop. split.
  - intros ->. done.
  - rewrite forallb_forall in H. apply Forall_forall. intros c Hc. apply negb_true_iff, H. by apply list_elem_of_In.
Qed.

Lemma sample_metrics_ok : Forall metric_ok sample_metrics.
Proof.
  assert (∀ l v, negb (bool_decide (l = ""%string)) && forallb (λ c, negb (is_space c)) (chars l) = true → head (chars l) ≠ Some "#"%char →
    without_engine l = l → flt v f0 = false →
    negb (bool_decide (get_value_str (Flt v) = ""%string)) && forallb (λ c, negb (is_space c)) (chars (get_value_str (Flt v))) = true →
    parse_float (get_value_str (Flt v)) = Some v → sample_ok (l, Flt v)) as Hs.
  { intros l v H1 H2 H3 H4 H5 H6. split; [by apply word_ok|]. split; [done|]. split; [done|]. exists v. split_and!; try done. by apply word_ok. }
  apply Forall_cons. split; [|apply Forall_cons; split; [|constructor]].
  - split; [by apply word_ok|]. split; [|split; [done|]].
    + exists ["Prefill"; "tokens"; "processed."]%string. split; [done|]. split; [|reflexivity].
      repeat (apply Forall_cons; split; [by apply word_ok|]). constructor.
    + repeat (apply Forall_cons; split; [apply Hs; first [discriminate|vm_compute; first [reflexivity|discriminate]]|]). constructor.
  - split; [by apply word_ok|]. split; [|split; [done|]].
    + exists ["Latency."]%string. split; [done|]. split; [|reflexivity]. repeat (apply Forall_cons; split; [by apply word_ok|]). constructor.
    + repeat (apply Forall_cons; split; [apply Hs; first [discriminate|vm_compute; first [reflexivity|discriminate]]|]). constructor.
Qed.


Definition single_endpoint : Instance :=
  mkInstance "job" "model" 7 "prefill" ACTIVE None false [] [("10.0.0.1"%string, [(0, sample_endpoint 0)])] Workload0 1 None None.
Definition answers_sample (address : string) : string := get_serialize_metrics sample_metrics.

Lemma sample_distinct : distinct sample_metrics.
Proof.
  assert (∀ l : list string, bool_decide (NoDup l) = true → NoDup l) as H by (intros l; apply bool_decide_eq_true).
  split; [apply H; by vm_compute|]. repeat (apply Forall_cons; split; [apply H; by vm_compute|]). constructor.
Qed.
Lemma sample_counters : counters sample_metrics.
Proof. by repeat (apply Forall_cons; split). Qed.

Lemma sample_parses : parse_metric_text (get_serialize_metrics sample_metrics) = Ret (Some sample_metrics).
Proof. vm_compute. reflexivity. Qed.

Lemma returned_instance_counted_twice_witness :
  let here := [(7, single_endpoint)] in
  let up := Some (here, []) in
  let down := Some ([], here) in
  let report f := get_serialize_metrics (map (with_values f) sample_metrics ++ coordinator_metrics 1 1 here) in
  let run answers := update_metrics_thread answers_sample 1 1 answers Collector_init in
  (run [up; down; up]).2 = Ret tt ∧
  last_metrics (run [up]).1 = report (fadd f0) ∧
  last_metrics (run [up; down]).1 = report (fadd f0) ∧
  last_metrics (run [up; down; up]).1 = report (λ v, fadd (fadd f0 v) (fadd f0 v)).
Proof.
  exact (returned_instance_counted_twice answers_sample 1 1 single_endpoint (sample_endpoint 0) sample_metrics eq_refl
    ltac:(vm_compute; discriminate) sample_parses ltac:(discriminate) sample_distinct sample_counters).
Defined.

(** A metric that only a shorter answer has ends the thread; so does an empty line. *)
Definition odd_metrics : list SingleMetric := [mkMetric "x" "h" COUNTER [("x"%string, Flt f0)]].
Example unknown_name_raises : aggregate_metrics_common [sample_metrics; odd_metrics] = Raise KeyError.
Proof. by vm_compute. Qed.
Definition text_with_gap : string := join (of_chars [LFc]) ["# HELP a b"; "# TYPE a gauge"; "a 1"; ""; "a 2"].
Example empty_line_raises : parse_metric_text text_with_gap = Raise IndexError.
Proof. by vm_compute. Qed.
(** The mean of the KV cache usage counts the history of instances that are gone. *)
Definition usage (v : f64) : SingleMetric := mkMetric usage_metric "h" GAUGE [("u"%string, Flt v)].
Example mean_is_diluted :
  aggregate_metrics_common [[usage (f_of_Z 1)]; [zeroed (usage (f_of_Z 1))]] = Ret [usage (fdiv (f_of_Z 1) (f_of_Z 2))].
Proof. by vm_compute. Qed.
