(* ===== verification/WorkloadShm.v ===== *)
(** * The workload shared memory

    Models [coordinator/scheduler/runtime/workload_shm]: the byte layout (a header of
    64 bytes and entries of 32 bytes, little-endian), the scheduler's writer (full
    snapshot, single entry, heartbeat) and the workers' reader.  A buffer is the list
    of its bytes; a memory-view slice assignment replaces bytes in place and raises
    when the slice does not have the length of the data. *)

From stdpp Require Import base option list strings sets.
From Stdlib Require Import ZArith Lia.
From S2P Require Import Prelude Float64 Resources CoordInstanceManager.
Open Scope Z_scope.

(** ** Bytes, slices and the [struct] module *)

Abbreviation bytes := (list Z).

(** [struct.pack("<...")] of an unsigned field of [n] bytes, and its inverse. *)
Fixpoint le_bytes (n : nat) (z : Z) : bytes :=
  match n with
  | O => []
  | S n => (z mod 256) :: le_bytes n (z / 256)
  end.
Fixpoint le_int (b : bytes) : Z :=
  match b with [] => 0 | x :: b => x + 256 * le_int b end.

(** Signed fields, two's complement. *)
Definition signed (bits : Z) (u : Z) : Z := if u <? 2 ^ (bits - 1) then u else u - 2 ^ bits.

(** Fields out of range raise [struct.error]. *)
Definition pack_u (n : nat) (z : Z) : py bytes :=
  if (0 <=? z) && (z <? 2 ^ (8 * Z.of_nat n)) then Ret (le_bytes n z) else Raise StructError.
Definition pack_s (n : nat) (z : Z) : py bytes :=
  if (- 2 ^ (8 * Z.of_nat n - 1) <=? z) && (z <? 2 ^ (8 * Z.of_nat n - 1))
  then Ret (le_bytes n (z mod 2 ^ (8 * Z.of_nat n))) else Raise StructError.

(** The binary64 interchange format of a double. *)
Definition f64_bits (x : f64) : Z :=
  match x with
  | S754_nan => 2047 * 2 ^ 52 + 2 ^ 51
  | S754_infinity s => (if s then 2 ^ 63 else 0) + 2047 * 2 ^ 52
  | S754_zero s => if s then 2 ^ 63 else 0
  | S754_finite s m e =>
      (if s then 2 ^ 63 else 0) +
      (if Zpos m <? 2 ^ 52 then Zpos m else (e + 1075) * 2 ^ 52 + (Zpos m - 2 ^ 52))
  end.
Definition bits_f64 (u : Z) : f64 :=
  let s := 2 ^ 63 <=? u in
  let u' := if s then u - 2 ^ 63 else u in
  let ex := u' / 2 ^ 52 in
  let fr := u' mod 2 ^ 52 in
  if ex =? 2047 then (if fr =? 0 then S754_infinity s else S754_nan)
  else if ex =? 0 then
    match fr with Zpos m => S754_finite s m (-1074) | _ => S754_zero s end
  else match fr + 2 ^ 52 with Zpos m => S754_finite s m (ex - 1075) | _ => S754_nan end.

Definition pack_d (x : f64) : bytes := le_bytes 8 (f64_bits x).
Definition unpack_d (b : bytes) : f64 := bits_f64 (le_int b).

(** [buf[o: o + n]] and [buf[o: o + len(d)] = d]. *)
Definition slice (o n : nat) (b : bytes) : bytes := take n (drop o b).
Definition splice (o : nat) (d : bytes) (b : bytes) : py bytes :=
  if decide (o + length d ≤ length b)%nat then Ret (take o b ++ d ++ drop (o + length d) b)
  else Raise ValueError.

(** ** layout.py *)

Definition MAGIC : Z := 0x574B4C44.
Definition SCHEMA_VERSION : Z := 1.
Definition ROLE_PREFILL : Z := 0.
Definition ROLE_DECODE : Z := 1.
Definition ROLE_HYBRID : Z := 2.
Definition HEADER_SIZE : nat := 64.
Definition ENTRY_SIZE : nat := 32.
Definition HEARTBEAT_OFFSET : nat := 32.
Definition HEARTBEAT_STALE_SEC : f64 := f_of_Z 5.

Record WorkloadShmEntry := mkShmE {
  e_instance_id : Z; e_endpoint_id : Z; e_role : Z; e_tokens : f64; e_kv : f64
}.
Record WorkloadShmHeader := mkShmH {
  magic : Z; schema_version : Z; sequence : Z; entry_count : Z; max_entries : Z;
  instance_version : Z; heartbeat_sequence : Z
}.

Definition pack_header (h : WorkloadShmHeader) : py bytes :=
  let iv := if (instance_version h <? 0) || (2 ^ 64 - 1 <? instance_version h)
            then instance_version h mod 2 ^ 64 else instance_version h in
  let hb := if (heartbeat_sequence h <? 0) || (2 ^ 64 - 1 <? heartbeat_sequence h)
            then heartbeat_sequence h mod 2 ^ 64 else heartbeat_sequence h in
  b1 ← pack_u 4 (magic h);
  b2 ← pack_u 2 (schema_version h);
  b3 ← pack_u 2 0;
  b4 ← pack_s 8 (sequence h);
  b5 ← pack_u 4 (entry_count h);
  b6 ← pack_u 4 (max_entries h);
  b7 ← pack_u 8 iv;
  b8 ← pack_u 8 hb;
  Ret (b1 ++ b2 ++ b3 ++ b4 ++ b5 ++ b6 ++ b7 ++ b8 ++ replicate 24 0).

Definition unpack_header (buf : bytes) : py WorkloadShmHeader :=
  if decide (length buf < HEADER_SIZE)%nat then Raise ValueError
  else
    let b := slice 0 HEADER_SIZE buf in
    Ret (mkShmH (le_int (slice 0 4 b)) (le_int (slice 4 2 b))
           (signed 64 (le_int (slice 8 8 b))) (le_int (slice 16 4 b)) (le_int (slice 20 4 b))
           (le_int (slice 24 8 b)) (le_int (slice 32 8 b))).

Definition pack_entry (e : WorkloadShmEntry) : py bytes :=
  b1 ← pack_s 4 (e_instance_id e);
  b2 ← pack_s 4 (e_endpoint_id e);
  b3 ← pack_u 1 (e_role e);
  Ret (b1 ++ b2 ++ b3 ++ replicate 3 0 ++ pack_d (e_tokens e) ++ pack_d (e_kv e) ++ replicate 4 0).

Definition unpack_entry (buf : bytes) (slot : nat) : py WorkloadShmEntry :=
  let offset := (HEADER_SIZE + slot * ENTRY_SIZE)%nat in
  if decide (length buf < offset + ENTRY_SIZE)%nat then Raise ValueError
  else
    let b := slice offset ENTRY_SIZE buf in
    Ret (mkShmE (signed 32 (le_int (slice 0 4 b))) (signed 32 (le_int (slice 4 4 b)))
           (le_int (slice 8 1 b)) (unpack_d (slice 12 8 b)) (unpack_d (slice 20 8 b))).

Definition total_size (max_entries : nat) : nat := (HEADER_SIZE + max_entries * ENTRY_SIZE)%nat.

(** ** writer.py *)

Definition pdrole_to_shm_role (r : PDRole) : Z :=
  match r with ROLE_P => ROLE_PREFILL | ROLE_D => ROLE_DECODE | ROLE_U => ROLE_HYBRID end.

(** The (instance id, endpoint) pairs of the pools, in the order of the loops. *)
Definition pool_endpoints (m : InstanceManager) : list (Z * Z * Endpoint) :=
  concat (map (λ rl,
    concat (map (λ r,
      map (λ e, (ins_id (store m r), pdrole_to_shm_role rl, e)) (endpoints_flat (store m r)))
      (dvalues (get_available_instances m (Some rl))))) [ROLE_P; ROLE_D; ROLE_U]).

Definition entry_of (x : Z * Z * Endpoint) : WorkloadShmEntry :=
  let '(iid, rl, e) := x in
  mkShmE iid (ep_id e) rl (active_tokens (workload e)) (active_kv_cache (workload e)).

(** The entries, cut at the capacity, and the slot of each (instance, endpoint) pair,
    the last one where a pair occurs twice. *)
Fixpoint slot_map_from (slot : nat) (es : list WorkloadShmEntry) (acc : dict (Z * Z) nat)
    : dict (Z * Z) nat :=
  match es with
  | [] => acc
  | e :: es => slot_map_from (S slot) es (dset acc (e_instance_id e, e_endpoint_id e) slot)
  end.

Definition collect_entries_and_slot_map (m : InstanceManager) (max : nat)
    : list WorkloadShmEntry * dict (Z * Z) nat :=
  let es := take max (map entry_of (pool_endpoints m)) in
  (es, slot_map_from 0 es []).

Record Writer := mkWriter {
  buf : bytes;
  w_max_entries : nat;
  slot_map : dict (Z * Z) nat;
  w_sequence : Z;
  w_entry_count : nat;
  w_instance_version : Z;
  w_heartbeat : Z
}.

Definition Writer_init (b : bytes) (max : nat) : Writer := mkWriter b max [] 0 0 0 0.

Definition set_buf (w : Writer) (b : bytes) : Writer :=
  mkWriter b (w_max_entries w) (slot_map w) (w_sequence w) (w_entry_count w)
    (w_instance_version w) (w_heartbeat w).
Definition set_counters (w : Writer) (sm : dict (Z * Z) nat) (sq : Z) (n : nat) (iv hb : Z) : Writer :=
  mkWriter (buf w) (w_max_entries w) sm sq n iv hb.

Definition write_at (o : nat) (d : bytes) : M Writer unit :=
  w ← mget; b ← mlift (splice o d (buf w)); mmodify (λ w, set_buf w b).

Definition write_heartbeat : M Writer unit :=
  mmodify (λ w, set_counters w (slot_map w) (w_sequence w) (w_entry_count w)
                  (w_instance_version w) ((w_heartbeat w + 1) mod 2 ^ 64)) ;;
  w ← mget;
  b ← mlift (pack_u 8 (w_heartbeat w));
  write_at HEARTBEAT_OFFSET b.

Definition write_entry_at_slot (slot : nat) (e : WorkloadShmEntry) : M Writer unit :=
  d ← mlift (pack_entry e);
  write_at (HEADER_SIZE + slot * ENTRY_SIZE) d.

(** The heartbeat kept is the larger of the field and the buffer. *)
Definition write_header : M Writer unit :=
  mmodify (λ w, set_counters w (slot_map w) (w_sequence w) (w_entry_count w) (w_instance_version w)
                  (Z.max (w_heartbeat w) (le_int (slice HEARTBEAT_OFFSET 8 (buf w))))) ;;
  w ← mget;
  d ← mlift (pack_header (mkShmH MAGIC SCHEMA_VERSION (w_sequence w) (Z.of_nat (w_entry_count w))
               (Z.of_nat (w_max_entries w)) (w_instance_version w) (w_heartbeat w)));
  write_at 0 d.

Fixpoint write_entries (slot : nat) (es : list WorkloadShmEntry) : M Writer unit :=
  match es with
  | [] => mret tt
  | e :: es => write_entry_at_slot slot e ;; write_entries (S slot) es
  end.

Definition write_snapshot (m : InstanceManager) : M Writer unit :=
  w ← mget;
  let '(entries, sm) := collect_entries_and_slot_map m (w_max_entries w) in
  mmodify (λ w, set_counters w sm (w_sequence w) (length entries) (w_instance_version w)
                  (w_heartbeat w)) ;;
  write_entries 0 entries ;;
  mmodify (λ w, set_counters w (slot_map w) (w_sequence w + 1) (w_entry_count w)
                  (w_instance_version w + 1) (w_heartbeat w)) ;;
  write_header.

(** [write_single_entry]; the endpoint's role and workload come from the pools (the
    endpoint cache they may build on the way is not observable here). *)
Definition write_single_entry (m : InstanceManager) (instance_id endpoint_id : Z) : M Writer unit :=
  w ← mget;
  match dget (slot_map w) (instance_id, endpoint_id) with
  | None => write_snapshot m
  | Some slot =>
      found ← mlift (get_endpoint_workload m instance_id endpoint_id).1;
      match found with
      | (Some rl, Some wl) =>
          write_entry_at_slot slot
            (mkShmE instance_id endpoint_id (pdrole_to_shm_role rl) (active_tokens wl)
               (active_kv_cache wl)) ;;
          mmodify (λ w, set_counters w (slot_map w) (w_sequence w + 1) (w_entry_count w)
                          (w_instance_version w) (w_heartbeat w)) ;;
          write_header
      | _ => mret tt
      end
  end.

(** ** reader.py *)

Definition shm_role_to_pdrole (r : Z) : PDRole :=
  if r =? ROLE_PREFILL then ROLE_P else if r =? ROLE_DECODE then ROLE_D else ROLE_U.

Record Reader := mkReader { last_heartbeat_value : Z; last_heartbeat_time : f64 }.
Definition Reader_init : Reader := mkReader 0 f0.

Section reader.
(** The cache being patched, and its [patch_workload_from_shm]. *)
Context {C : Type} (patch : C → Z → Z → PDRole → f64 → f64 → C).

Fixpoint patch_slots (b : bytes) (slot n : nat) (c : C) : py unit * C :=
  match n with
  | O => (Ret tt, c)
  | S n =>
      match unpack_entry b slot with
      | Raise e => (Raise e, c)
      | Ret e => patch_slots b (S slot) n
                   (patch c (e_instance_id e) (e_endpoint_id e) (shm_role_to_pdrole (e_role e))
                      (e_tokens e) (e_kv e))
      end
  end.

(** [(instance_version | None, heartbeat_stale)]; every exception is [(None, False)]. *)
Definition read_and_patch_cache (r : Reader) (b : option bytes) (now : f64) (c : C)
    : (option Z * bool) * Reader * C :=
  match b with
  | None => ((None, false), r, c)
  | Some b =>
      match unpack_header b with
      | Raise _ => ((None, false), r, c)
      | Ret h =>
          if negb (magic h =? MAGIC) then ((None, false), r, c)
          else if (entry_count h <? 0) || (max_entries h <? entry_count h)
          then ((None, false), r, c)
          else if Z.of_nat (length b) <? Z.of_nat HEADER_SIZE + entry_count h * Z.of_nat ENTRY_SIZE
          then ((None, false), r, c)
          else
            let r1 := if heartbeat_sequence h =? last_heartbeat_value r then r
                      else mkReader (heartbeat_sequence h) now in
            let stale := fgt (last_heartbeat_time r1) f0
                         && fgt (fsub now (last_heartbeat_time r1)) HEARTBEAT_STALE_SEC in
            match patch_slots b 0 (Z.to_nat (entry_count h)) c with
            | (Ret _, c') => ((Some (instance_version h), stale), r1, c')
            | (Raise _, c') => ((None, false), r1, c')
            end
      end
  end.
End reader.

(** ** Abstract specification

    What readers should see: a version and a list of entries.  A snapshot replaces
    the list by the pools' endpoints and bumps the version; a single entry updates
    the workload of a published endpoint in place. *)
Inductive shm_op :=
| ShmSnapshot (m : InstanceManager)
| ShmSingle (m : InstanceManager) (instance_id endpoint_id : Z)
| ShmHeartbeat.

Definition abs_state := (Z * list WorkloadShmEntry)%type.

Definition published (max : nat) (m : InstanceManager) : list WorkloadShmEntry :=
  take max (map entry_of (pool_endpoints m)).

(** The slot readers take an endpoint's workload from: its last one. *)
Fixpoint last_slot (slot : nat) (es : list WorkloadShmEntry) (k : Z * Z) : option nat :=
  match es with
  | [] => None
  | e :: es =>
      match last_slot (S slot) es k with
      | Some s => Some s
      | None => if decide ((e_instance_id e, e_endpoint_id e) = k) then Some slot else None
      end
  end.

Definition abs_step (max : nat) (a : abs_state) (o : shm_op) : abs_state :=
  let '(v, es) := a in
  match o with
  | ShmSnapshot m => (v + 1, published max m)
  | ShmSingle m iid eid =>
      match last_slot 0 es (iid, eid) with
      | None => (v + 1, published max m)
      | Some slot =>
          match (get_endpoint_workload m iid eid).1 with
          | Ret (Some rl, Some wl) =>
              (v, <[slot := mkShmE iid eid (pdrole_to_shm_role rl) (active_tokens wl)
                              (active_kv_cache wl)]> es)
          | _ => (v, es)
          end
      end
  | ShmHeartbeat => a
  end.

Definition writer_step (w : Writer) (o : shm_op) : Writer * py unit :=
  match o with
  | ShmSnapshot m => write_snapshot m w
  | ShmSingle m iid eid => write_single_entry m iid eid w
  | ShmHeartbeat => write_heartbeat w
  end.

Fixpoint writer_run (w : Writer) (ops : list shm_op) : Writer * py unit :=
  match ops with
  | [] => (w, Ret tt)
  | o :: ops => match writer_step w o with
                | (w', Ret _) => writer_run w' ops
                | (w', Raise e) => (w', Raise e)
                end
  end.

(** Fields the format can carry: 32-bit ids, valid doubles, a byte for the role. *)
Definition int32 (z : Z) : Prop := - 2 ^ 31 <= z < 2 ^ 31.
Definition entry_ok (e : WorkloadShmEntry) : Prop :=
  int32 (e_instance_id e) ∧ int32 (e_endpoint_id e) ∧ 0 <= e_role e < 256 ∧
  f64_valid (e_tokens e) ∧ f64_valid (e_kv e).
Definition pools_ok (m : InstanceManager) : Prop :=
  Forall entry_ok (map entry_of (pool_endpoints m)) ∧
  ∀ iid eid, match (get_endpoint_workload m iid eid).1 with
             | Ret (Some rl, Some wl) => f64_valid (active_tokens wl) ∧ f64_valid (active_kv_cache wl)
             | Ret _ => True
             | Raise _ => False
             end.
Definition shm_op_ok (o : shm_op) : Prop :=
  match o with ShmSnapshot m | ShmSingle m _ _ => pools_ok m | ShmHeartbeat => True end.

(** Lemmas *)

Lemma length_le_bytes n z : length (le_bytes n z) = n.
Proof. revert z. induction n; intros z; simpl; auto. Qed.

Lemma le_int_bytes n z : le_int (le_bytes n z) = z mod 2 ^ (8 * Z.of_nat n).
Proof.
  revert z. induction n as [|n IH]; intros z; [by rewrite Z.mod_1_r|].
  cbn [le_bytes le_int]. rewrite IH.
  replace (8 * Z.of_nat (S n)) with (8 + 8 * Z.of_nat n) by lia.
  rewrite Z.pow_add_r by lia. change (2 ^ 8) with 256.
  rewrite Z.rem_mul_r by (try apply Z.pow_pos_nonneg; lia). lia.
Qed.

Lemma le_int_u n z : 0 <= z < 2 ^ (8 * Z.of_nat n) → le_int (le_bytes n z) = z.
Proof. intros. rewrite le_int_bytes. by apply Z.mod_small. Qed.

Lemma signed_mod bits z :
  0 < bits → - 2 ^ (bits - 1) <= z < 2 ^ (bits - 1) → signed bits (z mod 2 ^ bits) = z.
Proof.
  intros Hb Hz. unfold signed.
  assert (2 ^ bits = 2 * 2 ^ (bits - 1)) as Hp by (rewrite <- Z.pow_succ_r by lia; f_equal; lia).
  destruct (decide (0 <= z)).
  - rewrite Z.mod_small by lia. destruct (Z.ltb_spec z (2 ^ (bits - 1))); lia.
  - rewrite <- (Z.mod_add z 1) by lia. rewrite Z.mod_small by lia.
    destruct (Z.ltb_spec (z + 1 * 2 ^ bits) (2 ^ (bits - 1))); lia.
Qed.

Lemma pack_u_Ret n z b : pack_u n z = Ret b ↔ 0 <= z < 2 ^ (8 * Z.of_nat n) ∧ b = le_bytes n z.
Proof.
  unfold pack_u. destruct ((0 <=? z) && (z <? 2 ^ (8 * Z.of_nat n))) eqn:E.
  - split; [intros [= <-]; split; [lia|done]|by intros [_ ->]].
  - split; [done|]. intros [? _]. lia.
Qed.

Lemma pack_s_Ret n z b :
  pack_s n z = Ret b ↔ - 2 ^ (8 * Z.of_nat n - 1) <= z < 2 ^ (8 * Z.of_nat n - 1) ∧
    b = le_bytes n (z mod 2 ^ (8 * Z.of_nat n)).
Proof.
  unfold pack_s. destruct ((- 2 ^ (8 * Z.of_nat n - 1) <=? z) && (z <? 2 ^ (8 * Z.of_nat n - 1))) eqn:E.
  - split; [intros [= <-]; split; [lia|done]|by intros [_ ->]].
  - split; [done|]. intros [? _]. lia.
Qed.

(** *** Doubles *)

Lemma digits2_bounds p : 2 ^ (Zpos (digits2_pos p) - 1) <= Zpos p < 2 ^ Zpos (digits2_pos p).
Proof.
  induction p as [p IH|p IH|]; simpl digits2_pos; [| |by split].
  - rewrite Pos2Z.inj_succ. replace (Z.succ (Zpos (digits2_pos p)) - 1) with (Zpos (digits2_pos p)) by lia.
    rewrite Z.pow_succ_r by lia. rewrite Z.pow_sub_r in IH by lia. change (2 ^ 1) with 2 in IH.
    assert (2 ^ Zpos (digits2_pos p) = 2 * (2 ^ Zpos (digits2_pos p) / 2)) as Hd.
    { apply Z_div_exact_2; [lia|]. replace (Zpos (digits2_pos p)) with (Z.succ (Zpos (digits2_pos p) - 1)) by lia.
      rewrite Z.pow_succ_r by lia. rewrite Z.mul_comm. apply Z_mod_mult. }
    lia.
  - rewrite Pos2Z.inj_succ. replace (Z.succ (Zpos (digits2_pos p)) - 1) with (Zpos (digits2_pos p)) by lia.
    rewrite Z.pow_succ_r by lia. rewrite Z.pow_sub_r in IH by lia. change (2 ^ 1) with 2 in IH.
    assert (2 ^ Zpos (digits2_pos p) = 2 * (2 ^ Zpos (digits2_pos p) / 2)) as Hd.
    { apply Z_div_exact_2; [lia|]. replace (Zpos (digits2_pos p)) with (Z.succ (Zpos (digits2_pos p) - 1)) by lia.
      rewrite Z.pow_succ_r by lia. rewrite Z.mul_comm. apply Z_mod_mult. }
    lia.
Qed.

(** A valid double is subnormal (smallest exponent) or has a 53-bit mantissa. *)
Lemma valid_shape m e :
  bounded 53 1024 m e = true →
  (e = -1074 ∧ Zpos m < 2 ^ 53) ∨ (2 ^ 52 <= Zpos m < 2 ^ 53 ∧ -1074 <= e <= 971).
Proof.
  unfold bounded, canonical_mantissa, fexp, emin. rewrite andb_true_iff.
  intros [Hc%Zeq_bool_eq He%Z.leb_le]. pose proof (digits2_bounds m) as Hd.
  set (d := Zpos (digits2_pos m)) in *. assert (0 < d) by (subst d; lia).
  destruct (decide (d = 53)) as [Hd53|Hd53].
  - right. rewrite Hd53 in *. simpl in Hd. lia.
  - assert (d < 53) by lia. left. split; [lia|].
    eapply Z.lt_trans; [apply Hd|]. apply Z.pow_lt_mono_r; lia.
Qed.

Lemma f64_bits_range x :
  f64_valid x → 0 <= f64_bits x < 2 ^ 64.
Proof.
  destruct x as [s|s| |s m e]; simpl; try (destruct s; lia); [lia|].
  intros H%valid_shape. destruct (Z.ltb_spec (Zpos m) (2 ^ 52)); destruct s; lia.
Qed.

Lemma bits_roundtrip x : f64_valid x → bits_f64 (f64_bits x) = x.
Proof.
  destruct x as [s|s| |s m e]; [by destruct s|by destruct s|done|].
  intros H%valid_shape. unfold bits_f64, f64_bits.
  set (u := if Zpos m <? 2 ^ 52 then Zpos m else (e + 1075) * 2 ^ 52 + (Zpos m - 2 ^ 52)).
  assert (0 <= u < 2047 * 2 ^ 52) as Hu by (subst u; destruct (Z.ltb_spec (Zpos m) (2 ^ 52)); lia).
  assert ((2 ^ 63 <=? (if s then 2 ^ 63 else 0) + u) = s) as -> by (destruct s; lia).
  assert ((if s then (if s then 2 ^ 63 else 0) + u - 2 ^ 63 else (if s then 2 ^ 63 else 0) + u) = u)
    as -> by (destruct s; lia).
  cbv zeta. subst u. destruct (Z.ltb_spec (Zpos m) (2 ^ 52)) as [Hm|Hm].
  - rewrite Z.div_small, Z.mod_small by lia. simpl.
    destruct H as [[-> _]|H]; [done|lia].
  - assert (((e + 1075) * 2 ^ 52 + (Zpos m - 2 ^ 52)) / 2 ^ 52 = e + 1075) as ->.
    { rewrite Z.div_add_l by lia. rewrite Z.div_small by lia. lia. }
    assert (((e + 1075) * 2 ^ 52 + (Zpos m - 2 ^ 52)) mod 2 ^ 52 = Zpos m - 2 ^ 52) as ->.
    { rewrite Z.add_comm, Z.mod_add by lia. apply Z.mod_small. lia. }
    destruct (Z.eqb_spec (e + 1075) 2047); [lia|]. destruct (Z.eqb_spec (e + 1075) 0); [lia|].
    replace (Zpos m - 2 ^ 52 + 2 ^ 52) with (Zpos m) by lia. f_equal. lia.
Qed.

Lemma pack_d_roundtrip x : f64_valid x → unpack_d (pack_d x) = x.
Proof.
  intros H. unfold unpack_d, pack_d. rewrite le_int_u by (by apply f64_bits_range).
  by apply bits_roundtrip.
Qed.

(** *** Slices *)

Lemma length_splice o d b b' : splice o d b = Ret b' → length b' = length b.
Proof.
  unfold splice. case_decide; [|done]. intros [= <-].
  rewrite !length_app, length_take, length_drop. lia.
Qed.

Lemma slice_splice_same o d b b' : splice o d b = Ret b' → slice o (length d) b' = d.
Proof.
  unfold splice, slice. case_decide; [|done]. intros [= <-].
  rewrite drop_app_length' by (rewrite length_take; lia). apply take_app_length.
Qed.

Lemma slice_splice_other o d b b' o' n' :
  splice o d b = Ret b' → (o' + n' ≤ o ∨ o + length d ≤ o')%nat → slice o' n' b' = slice o' n' b.
Proof.
  unfold splice, slice. case_decide; [|done]. intros [= <-] [Ho|Ho].
  - rewrite drop_app_le, take_app_le by (rewrite ?length_drop, length_take; lia).
    rewrite List.skipn_firstn_comm, take_take. f_equal. lia.
  - rewrite drop_app_ge by (rewrite length_take; lia). rewrite length_take, Nat.min_l by lia.
    rewrite drop_app_ge by lia. rewrite drop_drop. do 2 f_equal. lia.
Qed.

Lemma splice_ok o d b : (o + length d ≤ length b)%nat → ∃ b', splice o d b = Ret b'.
Proof. intros H. unfold splice. rewrite decide_True by done. eauto. Qed.

Lemma slice_slice o n o' n' b : (o' + n' ≤ n)%nat → slice o' n' (slice o n b) = slice (o + o') n' b.
Proof.
  intros H. unfold slice. rewrite List.skipn_firstn_comm, take_take, drop_drop. f_equal. lia.
Qed.

Lemma unpack_header_eq b :
  (HEADER_SIZE ≤ length b)%nat →
  unpack_header b = Ret (mkShmH (le_int (slice 0 4 b)) (le_int (slice 4 2 b))
    (signed 64 (le_int (slice 8 8 b))) (le_int (slice 16 4 b)) (le_int (slice 20 4 b))
    (le_int (slice 24 8 b)) (le_int (slice 32 8 b))).
Proof.
  intros H. unfold unpack_header. rewrite decide_False by lia.
  by rewrite !slice_slice by (unfold HEADER_SIZE; lia).
Qed.

(** What survives of a version outside the 64-bit field. *)
Lemma clamp_mod z :
  (if (z <? 0) || (2 ^ 64 - 1 <? z) then z mod 2 ^ 64 else z) = z mod 2 ^ 64.
Proof. destruct ((z <? 0) || (2 ^ 64 - 1 <? z)) eqn:E; [done|]. rewrite Z.mod_small; lia. Qed.

Definition header_ok (h : WorkloadShmHeader) : Prop :=
  0 <= magic h < 2 ^ 32 ∧ 0 <= schema_version h < 2 ^ 16 ∧ - 2 ^ 63 <= sequence h < 2 ^ 63 ∧
  0 <= entry_count h < 2 ^ 32 ∧ 0 <= max_entries h < 2 ^ 32.

Definition norm_header (h : WorkloadShmHeader) : WorkloadShmHeader :=
  mkShmH (magic h) (schema_version h) (sequence h) (entry_count h) (max_entries h)
    (instance_version h mod 2 ^ 64) (heartbeat_sequence h mod 2 ^ 64).

Lemma pack_header_spec h :
  (header_ok h → ∃ d, pack_header h = Ret d) ∧
  ∀ d, pack_header h = Ret d → header_ok h ∧ length d = HEADER_SIZE ∧
    ∀ b, slice 0 HEADER_SIZE b = d → unpack_header b = Ret (norm_header h).
Proof.
  unfold pack_header. rewrite !clamp_mod. split.
  - intros (H1 & H2 & H3 & H4 & H5).
    assert (∀ n z, 0 <= z < 2 ^ (8 * Z.of_nat n) → pack_u n z = Ret (le_bytes n z)) as Hu
      by (intros; by apply pack_u_Ret).
    rewrite (Hu 4%nat (magic h)), (Hu 2%nat (schema_version h)), (Hu 2%nat 0), (Hu 4%nat (entry_count h)),
      (Hu 4%nat (max_entries h)), !(Hu 8%nat) by (try apply Z.mod_pos_bound; simpl; lia).
    rewrite (proj2 (pack_s_Ret 8 (sequence h) _)) by (split; [simpl; lia|reflexivity]).
    by eexists.
  - intros d H. apply bind_Ret in H as (b1 & [H1 ->]%pack_u_Ret & H).
    apply bind_Ret in H as (b2 & [H2 ->]%pack_u_Ret & H).
    apply bind_Ret in H as (b3 & [H3 ->]%pack_u_Ret & H).
    apply bind_Ret in H as (b4 & [H4 ->]%pack_s_Ret & H).
    apply bind_Ret in H as (b5 & [H5 ->]%pack_u_Ret & H).
    apply bind_Ret in H as (b6 & [H6 ->]%pack_u_Ret & H).
    apply bind_Ret in H as (b7 & [H7 ->]%pack_u_Ret & H).
    apply bind_Ret in H as (b8 & [H8 ->]%pack_u_Ret & [= Hd]).
    assert (length d = HEADER_SIZE) as Hlen by (rewrite <- Hd; reflexivity).
    split; [done|]. split; [done|].
    intros b Hb. assert (HEADER_SIZE ≤ length b)%nat as Hl.
    { apply (f_equal length) in Hb. unfold slice in Hb. rewrite length_take, length_drop in Hb. lia. }
    rewrite unpack_header_eq by done.
    assert (∀ o n, (o + n ≤ HEADER_SIZE)%nat → slice o n b = slice o n (slice 0 HEADER_SIZE b)) as Hs
      by (intros; by rewrite slice_slice).
    rewrite (Hs 0 4)%nat, (Hs 4 2)%nat, (Hs 8 8)%nat, (Hs 16 4)%nat, (Hs 20 4)%nat, (Hs 24 8)%nat,
      (Hs 32 8)%nat by (unfold HEADER_SIZE; lia).
    rewrite Hb, <- Hd. unfold norm_header.
    f_equal. f_equal.
    + transitivity (le_int (le_bytes 4 (magic h))); [done|by apply le_int_u].
    + transitivity (le_int (le_bytes 2 (schema_version h))); [done|by apply le_int_u].
    + transitivity (signed 64 (le_int (le_bytes 8 (sequence h mod 2 ^ 64)))); [done|].
      rewrite le_int_u by (apply Z.mod_pos_bound; simpl; lia). apply signed_mod; [lia|done].
    + transitivity (le_int (le_bytes 4 (entry_count h))); [done|by apply le_int_u].
    + transitivity (le_int (le_bytes 4 (max_entries h))); [done|by apply le_int_u].
    + transitivity (le_int (le_bytes 8 (instance_version h mod 2 ^ 64))); [done|by apply le_int_u].
    + transitivity (le_int (le_bytes 8 (heartbeat_sequence h mod 2 ^ 64))); [done|by apply le_int_u].
Qed.

Lemma pack_entry_spec e :
  entry_ok e →
  ∃ d, pack_entry e = Ret d ∧ length d = ENTRY_SIZE ∧
    ∀ b slot, slice (HEADER_SIZE + slot * ENTRY_SIZE) ENTRY_SIZE b = d → unpack_entry b slot = Ret e.
Proof.
  intros (H1 & H2 & H3 & H4 & H5). unfold pack_entry, int32 in *.
  rewrite (proj2 (pack_s_Ret 4 (e_instance_id e) _)) by (split; [simpl; lia|reflexivity]).
  rewrite (proj2 (pack_s_Ret 4 (e_endpoint_id e) _)) by (split; [simpl; lia|reflexivity]).
  rewrite (proj2 (pack_u_Ret 1 (e_role e) _)) by (split; [simpl; lia|reflexivity]).
  eexists. split; [done|]. split.
  { unfold pack_d. by rewrite !length_app, !length_le_bytes, !length_replicate. }
  intros b slot Hb. set (o := (HEADER_SIZE + slot * ENTRY_SIZE)%nat) in *.
  assert (o + ENTRY_SIZE ≤ length b)%nat as Hl.
  { apply (f_equal length) in Hb. unfold slice in Hb. rewrite length_take, length_drop in Hb.
    unfold pack_d in Hb. rewrite !length_app, !length_le_bytes, !length_replicate in Hb.
    unfold ENTRY_SIZE in *. lia. }
  unfold unpack_entry. fold o. rewrite decide_False by lia. rewrite Hb. f_equal.
  destruct e as [iid eid rl tk kv]. simpl in H1, H2, H3, H4, H5. simpl e_instance_id. f_equal.
  - transitivity (signed 32 (le_int (le_bytes 4 (iid mod 2 ^ 32)))); [done|].
    rewrite le_int_u by (apply Z.mod_pos_bound; simpl; lia). apply signed_mod; [lia|done].
  - transitivity (signed 32 (le_int (le_bytes 4 (eid mod 2 ^ 32)))); [done|].
    rewrite le_int_u by (apply Z.mod_pos_bound; simpl; lia). apply signed_mod; [lia|done].
  - transitivity (le_int (le_bytes 1 rl)); [done|by apply le_int_u].
  - transitivity (unpack_d (pack_d tk)); [done|by apply pack_d_roundtrip].
  - transitivity (unpack_d (pack_d kv)); [done|by apply pack_d_roundtrip].
Qed.

(** *** The writer *)

(** The bounds the writer's own counters keep. *)
Definition writer_wf (w : Writer) : Prop :=
  length (buf w) = total_size (w_max_entries w) ∧ Z.of_nat (w_max_entries w) < 2 ^ 32 ∧
  - 2 ^ 63 <= w_sequence w.

(** What the buffer shows: the entries [es] under the header. *)
Definition slots_hold (b : bytes) (es : list WorkloadShmEntry) : Prop :=
  ∀ slot e, es !! slot = Some e → unpack_entry b slot = Ret e.

Definition shows (w : Writer) (v : Z) (es : list WorkloadShmEntry) : Prop :=
  writer_wf w ∧ Forall entry_ok es ∧ w_instance_version w = v ∧ w_entry_count w = length es ∧
  (length es ≤ w_max_entries w)%nat ∧ slot_map w = slot_map_from 0 es [] ∧ slots_hold (buf w) es ∧
  ∃ sq hb, unpack_header (buf w) =
    Ret (mkShmH MAGIC SCHEMA_VERSION sq (Z.of_nat (length es)) (Z.of_nat (w_max_entries w))
           (v mod 2 ^ 64) hb).

Lemma unpack_entry_slice b b' slot :
  length b = length b' →
  slice (HEADER_SIZE + slot * ENTRY_SIZE) ENTRY_SIZE b = slice (HEADER_SIZE + slot * ENTRY_SIZE) ENTRY_SIZE b' →
  unpack_entry b slot = unpack_entry b' slot.
Proof. intros Hl Hs. unfold unpack_entry. by rewrite Hl, Hs. Qed.

Lemma write_at_spec o d w :
  (o + length d ≤ length (buf w))%nat →
  ∃ b', write_at o d w = (set_buf w b', Ret tt) ∧ splice o d (buf w) = Ret b'.
Proof.
  intros H. destruct (splice_ok _ _ _ H) as [b' Hb']. exists b'. split; [|done].
  unfold write_at, mbind, M_bind, mget, mlift. by rewrite Hb'.
Qed.

Lemma write_entry_spec slot e w :
  entry_ok e → length (buf w) = total_size (w_max_entries w) → (slot < w_max_entries w)%nat →
  ∃ b', write_entry_at_slot slot e w = (set_buf w b', Ret tt) ∧ length b' = length (buf w) ∧
    unpack_entry b' slot = Ret e ∧
    slice 0 HEADER_SIZE b' = slice 0 HEADER_SIZE (buf w) ∧
    ∀ s, s ≠ slot → unpack_entry b' s = unpack_entry (buf w) s.
Proof.
  intros He Hl Hs. destruct (pack_entry_spec e He) as (d & Hd & Hld & Hu).
  destruct (write_at_spec (HEADER_SIZE + slot * ENTRY_SIZE) d w) as (b' & Hw & Hb').
  { rewrite Hl, Hld. unfold total_size, HEADER_SIZE, ENTRY_SIZE. lia. }
  exists b'. split. { unfold write_entry_at_slot, mbind, M_bind, mlift. by rewrite Hd. }
  pose proof (length_splice _ _ _ _ Hb') as Hlen. split; [done|]. split.
  { apply Hu. pose proof (slice_splice_same _ _ _ _ Hb') as Hsame. by rewrite Hld in Hsame. }
  split; [eapply slice_splice_other; [done|unfold HEADER_SIZE; lia]|].
  intros s Hne. apply unpack_entry_slice; [done|]. eapply slice_splice_other; [done|].
  rewrite Hld. unfold ENTRY_SIZE. lia.
Qed.

Lemma write_entries_spec slot es w :
  Forall entry_ok es → length (buf w) = total_size (w_max_entries w) →
  (slot + length es ≤ w_max_entries w)%nat →
  ∃ b', write_entries slot es w = (set_buf w b', Ret tt) ∧ length b' = length (buf w) ∧
    (∀ i e, es !! i = Some e → unpack_entry b' (slot + i) = Ret e) ∧
    slice 0 HEADER_SIZE b' = slice 0 HEADER_SIZE (buf w) ∧
    ∀ s, (s < slot)%nat → unpack_entry b' s = unpack_entry (buf w) s.
Proof.
  revert slot w. induction es as [|e es IH]; intros slot w He Hl Hs; simpl.
  - exists (buf w). split; [by destruct w|]. by repeat split.
  - apply Forall_cons in He as [He Hes]. simpl in Hs.
    destruct (write_entry_spec slot e w He Hl) as (b1 & H1 & Hl1 & Hu1 & Hh1 & Ho1); [lia|].
    destruct (IH (S slot) (set_buf w b1)) as (b2 & H2 & Hl2 & Hu2 & Hh2 & Ho2);
      [done|simpl; congruence|simpl; lia|].
    exists b2. unfold mbind, M_bind. rewrite H1, H2. split; [done|]. simpl in *.
    split; [congruence|]. split_and!.
    + intros [|i] e' Hi; simpl in Hi.
      * injection Hi as <-. rewrite Nat.add_0_r, Ho2 by lia. done.
      * rewrite <- Hu2 with (i := i) by done. f_equal. lia.
    + congruence.
    + intros s Hlt. rewrite Ho2, Ho1 by lia. done.
Qed.

(** The header write publishes the counters and leaves the slots alone. *)
Lemma write_header_spec w :
  writer_wf w → w_sequence w < 2 ^ 63 → (w_entry_count w ≤ w_max_entries w)%nat →
  ∃ w' sq hb, write_header w = (w', Ret tt) ∧ writer_wf w' ∧
    w_max_entries w' = w_max_entries w ∧ slot_map w' = slot_map w ∧ w_sequence w' = w_sequence w ∧
    w_entry_count w' = w_entry_count w ∧ w_instance_version w' = w_instance_version w ∧
    (∀ s, unpack_entry (buf w') s = unpack_entry (buf w) s) ∧
    unpack_header (buf w') = Ret (mkShmH MAGIC SCHEMA_VERSION sq (Z.of_nat (w_entry_count w))
      (Z.of_nat (w_max_entries w)) (w_instance_version w mod 2 ^ 64) hb).
Proof.
  intros (Hl & Hm & Hsq) Hsq' Hc. unfold write_header, mmodify.
  set (w1 := set_counters w (slot_map w) (w_sequence w) (w_entry_count w) (w_instance_version w)
               (Z.max (w_heartbeat w) (le_int (slice HEARTBEAT_OFFSET 8 (buf w))))).
  set (h := mkShmH MAGIC SCHEMA_VERSION (w_sequence w1) (Z.of_nat (w_entry_count w1))
    (Z.of_nat (w_max_entries w1)) (w_instance_version w1) (w_heartbeat w1)).
  destruct (pack_header_spec h) as [Hp Hu].
  destruct Hp as [d Hd].
  { unfold header_ok, h, w1, MAGIC, SCHEMA_VERSION. simpl. lia. }
  destruct (Hu d Hd) as (_ & Hld & Hun).
  destruct (write_at_spec 0 d w1) as (b' & Hw & Hb').
  { unfold w1. simpl. rewrite Hl, Hld. unfold total_size. lia. }
  pose proof (length_splice _ _ _ _ Hb') as Hlen.
  exists (set_buf w1 b'), (w_sequence w1), (w_heartbeat w1 mod 2 ^ 64). split.
  { unfold mbind, M_bind, mget, mlift. fold w1 h. rewrite Hd. done. }
  split_and!; try done.
  - unfold writer_wf. simpl. rewrite Hlen. done.
  - intros s. apply unpack_entry_slice; [done|]. eapply slice_splice_other; [done|].
    right. rewrite Hld. lia.
  - simpl. rewrite (Hun b'); [done|]. pose proof (slice_splice_same _ _ _ _ Hb') as Hsame. by rewrite Hld in Hsame.
Qed.

Lemma published_ok max m : pools_ok m → Forall entry_ok (published max m).
Proof. intros [H _]. by apply Forall_take. Qed.

Lemma snapshot_shows w m v :
  writer_wf w → w_instance_version w = v → w_sequence w + 1 < 2 ^ 63 → pools_ok m →
  ∃ w', write_snapshot m w = (w', Ret tt) ∧ shows w' (v + 1) (published (w_max_entries w) m) ∧
    w_max_entries w' = w_max_entries w ∧ w_sequence w' = w_sequence w + 1.
Proof.
  intros Hw Hv Hsq Hm. pose proof (published_ok (w_max_entries w) m Hm) as Hok.
  unfold write_snapshot, collect_entries_and_slot_map, mbind, M_bind, mget, mmodify.
  fold (published (w_max_entries w) m). set (es := published (w_max_entries w) m) in *.
  assert (length es ≤ w_max_entries w)%nat as Hle by (unfold es, published; rewrite length_take; lia).
  destruct Hw as (Hl & Hmx & Hsq0).
  destruct (write_entries_spec 0 es (set_counters w (slot_map_from 0 es []) (w_sequence w) (length es)
    (w_instance_version w) (w_heartbeat w)) Hok Hl Hle) as (b1 & H1 & Hl1 & Hu1 & _ & _).
  rewrite H1. simpl in Hl1 |- *.
  match goal with |- context [write_header ?x] => set (w2 := x) end.
  destruct (write_header_spec w2) as (w' & sq & hb & Hwr & Hwf' & E1 & E2 & E3 & E4 & E5 & Hs & Hh).
  { unfold writer_wf, w2. simpl. split_and!; [congruence|done|lia]. }
  { unfold w2. simpl. lia. }
  { done. }
  exists w'. rewrite Hwr. split; [done|]. split; [|by rewrite E1, E3].
  unfold w2 in *. simpl in *. split_and!; try done.
  - by rewrite E5, Hv.
  - by rewrite E1.
  - intros s e He. rewrite Hs. by apply (Hu1 s).
  - exists sq, hb. by rewrite Hh, E1, Hv.
Qed.

Lemma slot_map_last es slot acc k :
  dget (slot_map_from slot es acc) k =
  match last_slot slot es k with Some s => Some s | None => dget acc k end.
Proof.
  revert slot acc. induction es as [|e es IH]; intros slot acc; simpl; [done|].
  rewrite IH, dget_dset. destruct (last_slot (S slot) es k); [done|]. by case_decide.
Qed.

Lemma last_slot_lookup es slot k s :
  last_slot slot es k = Some s →
  (slot ≤ s)%nat ∧ ∃ e, es !! (s - slot)%nat = Some e ∧ (e_instance_id e, e_endpoint_id e) = k.
Proof.
  revert slot. induction es as [|e es IH]; intros slot; simpl; [done|].
  destruct (last_slot (S slot) es k) as [s'|] eqn:E.
  - intros [= ->]. destruct (IH _ E) as (? & e' & He & Hk). split; [lia|]. exists e'.
    replace (s - slot)%nat with (S (s - S slot)) by lia. done.
  - case_decide; [|done]. intros [= ->]. split; [lia|]. exists e.
    by rewrite Nat.sub_diag.
Qed.

Lemma slot_map_insert es i e e' slot acc :
  es !! i = Some e → e_instance_id e' = e_instance_id e → e_endpoint_id e' = e_endpoint_id e →
  slot_map_from slot (<[i := e']> es) acc = slot_map_from slot es acc.
Proof.
  revert i slot acc. induction es as [|x es IH]; intros [|i] slot acc; simpl; try done.
  - intros [= ->] -> ->. done.
  - intros. by apply IH.
Qed.

Lemma single_shows w v es m iid eid :
  shows w v es → w_sequence w + 1 < 2 ^ 63 → pools_ok m →
  ∃ w', write_single_entry m iid eid w = (w', Ret tt) ∧
    (let '(v', es') := abs_step (w_max_entries w) (v, es) (ShmSingle m iid eid) in shows w' v' es') ∧
    w_max_entries w' = w_max_entries w ∧ w_sequence w <= w_sequence w' <= w_sequence w + 1.
Proof.
  intros (Hwf & Hes & Hv & Hc & Hle & Hsm & Hsl & sq0 & hb0 & Hh0) Hsq Hm.
  unfold write_single_entry. unfold mbind at 1, M_bind at 1, mget. simpl.
  rewrite Hsm, slot_map_last. simpl dget. destruct (last_slot 0 es (iid, eid)) as [s|] eqn:Es.
  2: { destruct (snapshot_shows w m v Hwf Hv Hsq Hm) as (w' & E & Hs & E1 & E2).
       exists w'. split; [done|]. split; [done|]. split; [done|lia]. }
  destruct (last_slot_lookup _ _ _ _ Es) as (_ & e & Hse & Hk). rewrite Nat.sub_0_r in Hse.
  injection Hk as <- <-. unfold mbind, M_bind, mlift.
  assert (entry_ok e) as Heok by (by eapply Forall_lookup_1).
  destruct Hm as [_ Hm]. specialize (Hm (e_instance_id e) (e_endpoint_id e)).
  destruct (get_endpoint_workload m (e_instance_id e) (e_endpoint_id e)).1 as [[[rl|] [wl|]]|ex];
    try done; try (eexists; split; [done|]; split; [|split; [done|lia]]; split_and!; eauto; done).
  destruct Hm as [Hv1 Hv2]. set (e' := mkShmE _ _ _ _ _).
  assert (entry_ok e') as Hok'.
  { destruct Heok as (A1 & A2 & _). unfold entry_ok, e'. simpl. split_and!; try done; by destruct rl. }
  apply lookup_lt_Some in Hse as Hlt.
  destruct (write_entry_spec s e' w Hok') as (b1 & H1 & Hl1 & Hu1 & Hh1 & Ho1);
    [apply Hwf|lia|]. rewrite H1. unfold mmodify.
  match goal with |- context [write_header ?x] => set (w2 := x) end.
  destruct Hwf as (Hl & Hmx & Hsq0).
  destruct (write_header_spec w2) as (w' & sq & hb & Hwr & Hwf' & E1 & E2 & E3 & E4 & E5 & Hs & Hh).
  { unfold writer_wf, w2. simpl. split_and!; [congruence|done|lia]. }
  { unfold w2. simpl. lia. }
  { unfold w2. simpl. lia. }
  exists w'. rewrite Hwr. split; [done|]. unfold w2 in *. simpl in *.
  split; [|split; [done|lia]]. split_and!; try done.
  - by apply Forall_insert.
  - by rewrite E5.
  - by rewrite E4, length_insert.
  - by rewrite length_insert, E1.
  - rewrite E2, Hsm. symmetry. by eapply slot_map_insert.
  - intros s' x Hx. rewrite Hs. destruct (decide (s' = s)) as [->|Hne].
    + rewrite list_lookup_insert_eq in Hx by done. by simplify_eq.
    + rewrite list_lookup_insert_ne in Hx by done. rewrite Ho1 by done. by apply Hsl.
  - exists sq, hb. by rewrite Hh, E1, length_insert, Hv, Hc.
Qed.

Lemma heartbeat_shows w v es :
  shows w v es → ∃ w', write_heartbeat w = (w', Ret tt) ∧ shows w' v es ∧
    w_max_entries w' = w_max_entries w ∧ w_sequence w' = w_sequence w.
Proof.
  intros (Hwf & Hes & Hv & Hc & Hle & Hsm & Hsl & sq0 & hb0 & Hh0).
  unfold write_heartbeat, mbind, M_bind, mmodify, mget, mlift.
  set (w1 := set_counters w (slot_map w) (w_sequence w) (w_entry_count w) (w_instance_version w)
               ((w_heartbeat w + 1) mod 2 ^ 64)). destruct Hwf as (Hl & Hmx & Hsq0).
  assert (pack_u 8 (w_heartbeat w1) = Ret (le_bytes 8 (w_heartbeat w1))) as ->.
  { apply pack_u_Ret. split; [|done]. unfold w1. simpl. apply Z.mod_pos_bound. lia. }
  destruct (write_at_spec HEARTBEAT_OFFSET (le_bytes 8 (w_heartbeat w1)) w1) as (b' & -> & Hb').
  { unfold w1. simpl. rewrite Hl. unfold total_size, HEADER_SIZE. lia. }
  pose proof (length_splice _ _ _ _ Hb') as Hlen.
  eexists. split; [done|]. split; [|done].
  assert (HEADER_SIZE ≤ length (buf w))%nat as Hlh by (rewrite Hl; unfold total_size; lia).
  split_and!; try done.
  - unfold writer_wf. simpl. by rewrite Hlen.
  - intros s e He. rewrite <- (Hsl s e He). simpl. apply unpack_entry_slice; [done|].
    eapply slice_splice_other; [done|]. right.
    rewrite length_le_bytes. unfold HEARTBEAT_OFFSET, HEADER_SIZE. lia.
  - simpl. rewrite unpack_header_eq by (simpl in Hlen; lia). rewrite unpack_header_eq in Hh0 by done.
    injection Hh0 as A1 A2 A3 A4 A5 A6 A7. exists sq0, (le_int (slice 32 8 b')).
    assert (∀ o n, (o + n ≤ 32)%nat → slice o n b' = slice o n (buf w)) as Ho.
    { intros o n Hon. apply (slice_splice_other _ _ _ _ o n Hb'). left. exact Hon. }
    rewrite !Ho by lia. by rewrite A1, A2, A3, A4, A5, A6.
Qed.

(** One operation refines its abstract step. *)
Lemma writer_step_shows w v es o :
  shows w v es → shm_op_ok o → w_sequence w + 1 < 2 ^ 63 →
  ∃ w', writer_step w o = (w', Ret tt) ∧
    (let '(v', es') := abs_step (w_max_entries w) (v, es) o in shows w' v' es') ∧
    w_max_entries w' = w_max_entries w ∧ w_sequence w' <= w_sequence w + 1.
Proof.
  intros Hw Ho Hsq. destruct o as [m|m iid eid|]; simpl in Ho.
  - destruct (snapshot_shows w m v (proj1 Hw) (proj1 (proj2 (proj2 Hw))) Hsq Ho) as (w' & E & Hs & E1 & E2).
    exists w'. split; [done|]. split; [done|]. split; [done|lia].
  - destruct (single_shows w v es m iid eid Hw Hsq Ho) as (w' & E & Hs & E1 & E2).
    exists w'. split; [done|]. split; [done|]. split; [done|lia].
  - destruct (heartbeat_shows w v es Hw) as (w' & E & Hs & E1 & E2).
    exists w'. split; [done|]. split; [done|]. split; [done|lia].
Qed.

Lemma writer_run_shows ops w v es :
  shows w v es → Forall shm_op_ok ops → w_sequence w + Z.of_nat (length ops) < 2 ^ 63 →
  ∃ w', writer_run w ops = (w', Ret tt) ∧
    let '(v', es') := fold_left (abs_step (w_max_entries w)) ops (v, es) in shows w' v' es'.
Proof.
  revert w v es. induction ops as [|o ops IH]; intros w v es Hw Ho Hsq; [by exists w|].
  apply Forall_cons in Ho as [Ho Hos].
  change (length (o :: ops)) with (S (length ops)) in Hsq.
  destruct (writer_step_shows w v es o Hw Ho) as (w1 & E1 & Hs1 & M1 & Q1); [lia|].
  cbn [writer_run fold_left]. rewrite E1. rewrite <- M1 in Hs1 |- *.
  destruct (abs_step (w_max_entries w1) (v, es) o) as [v1 es1].
  apply IH; [done|done|lia].
Qed.

Section reader_lemmas.
Context {C : Type} (patch : C → Z → Z → PDRole → f64 → f64 → C).

Definition patch_entry (c : C) (e : WorkloadShmEntry) : C :=
  patch c (e_instance_id e) (e_endpoint_id e) (shm_role_to_pdrole (e_role e)) (e_tokens e) (e_kv e).

Lemma patch_slots_spec b es slot c :
  (∀ i e, es !! i = Some e → unpack_entry b (slot + i) = Ret e) →
  patch_slots patch b slot (length es) c = (Ret tt, fold_left patch_entry es c).
Proof.
  revert slot c. induction es as [|e es IH]; intros slot c H; [done|]. simpl.
  specialize (H 0%nat) as H0. rewrite Nat.add_0_r in H0. rewrite (H0 e eq_refl).
  apply IH. intros i e' Hi. replace (S slot + i)%nat with (slot + S i)%nat by lia. by apply H.
Qed.

Lemma read_shows w v es r now c :
  shows w v es →
  ∃ stale r', read_and_patch_cache patch r (Some (buf w)) now c
    = ((Some (v mod 2 ^ 64), stale), r', fold_left patch_entry es c).
Proof.
  intros ((Hl & Hm & _) & _ & _ & _ & Hle & _ & Hsl & sq & hb & Hh). unfold read_and_patch_cache.
  rewrite Hh. cbn [magic entry_count max_entries heartbeat_sequence instance_version].
  rewrite Z.eqb_refl. cbn [negb].
  assert ((Z.of_nat (length es) <? 0) || (Z.of_nat (w_max_entries w) <? Z.of_nat (length es)) = false)
    as -> by lia.
  assert (Z.of_nat (length (buf w)) <? Z.of_nat HEADER_SIZE + Z.of_nat (length es) * Z.of_nat ENTRY_SIZE
    = false) as ->.
  { apply Z.ltb_ge. rewrite Hl. unfold total_size. rewrite Nat2Z.inj_add, Nat2Z.inj_mul. nia. }
  rewrite Nat2Z.id, (patch_slots_spec _ es) by (intros i e Hi; by apply Hsl). by eexists _, _.
Qed.
End reader_lemmas.

(** Properties *)

(** The shared memory refines its abstract specification.  From a zeroed buffer of
    the right size, after the first snapshot and then any sequence of snapshots,
    single-entry writes and heartbeats, no write has failed and a reader that
    attaches at that moment patches its cache with exactly the abstract entries, in
    slot order, and gets the abstract version modulo 2^64: bytes, offsets, truncation
    at the capacity, slot bookkeeping and header included.  Ids are 32-bit and
    workloads valid doubles. *)
Theorem shm_refines_entries {C} (patch : C → Z → Z → PDRole → f64 → f64 → C) max m0 ops r now c :
  Z.of_nat max < 2 ^ 32 → pools_ok m0 → Forall shm_op_ok ops →
  Z.of_nat (length ops) < 2 ^ 62 →
  let w0 := Writer_init (replicate (total_size max) 0) max in
  let '(v, es) := fold_left (abs_step max) ops (1, published max m0) in
  ∃ w stale r', writer_run w0 (ShmSnapshot m0 :: ops) = (w, Ret tt) ∧
    read_and_patch_cache patch r (Some (buf w)) now c
      = ((Some (v mod 2 ^ 64), stale), r', fold_left (patch_entry patch) es c).
Proof.
  intros Hmax Hm0 Hops Hlen w0.
  assert (writer_wf w0) as Hw0.
  { unfold writer_wf, w0. cbn [Writer_init buf w_max_entries w_sequence].
    rewrite length_replicate. split_and!; [done|done|lia]. }
  destruct (snapshot_shows w0 m0 0 Hw0 eq_refl ltac:(simpl; lia) Hm0) as (w1 & E1 & Hs1 & M1 & Q1).
  destruct (writer_run_shows ops w1 (0 + 1) (published max m0) Hs1 Hops) as (w & E & Hs).
  { rewrite Q1. simpl. lia. }
  rewrite M1 in Hs. change (w_max_entries w0) with max in Hs. change (0 + 1) with 1 in Hs.
  destruct (fold_left (abs_step max) ops (1, published max m0)) as [v es].
  destruct (read_shows patch w v es r now c Hs) as (stale & r' & Hr).
  exists w, stale, r'. split; [|done]. cbn [writer_run writer_step]. by rewrite E1.
Qed.

(** The pools of the witness: two instances with two endpoints each. *)
Definition sample_pools : InstanceManager :=
  (im_run (InstanceManager_init sample_store true) [ImRefresh EV_ADD [1; 2]%nat]).1.

Lemma sample_pools_ok : pools_ok sample_pools.
Proof.
  split.
  - assert (map entry_of (pool_endpoints sample_pools) =
      [mkShmE 2 0 0 f0 f0; mkShmE 2 1 0 f0 f0; mkShmE 1 0 1 f0 f0; mkShmE 1 1 1 f0 f0])
      as -> by reflexivity.
    repeat apply Forall_cons_2; try apply Forall_nil_2; unfold entry_ok, int32, f64_valid; simpl; lia.
  - intros iid eid. unfold get_endpoint_workload.
    assert (available_pool sample_pools = [(1, 1%nat); (2, 2%nat)]) as -> by reflexivity.
    unfold ensure_ep_cache.
    assert (endpoint_id_cache sample_pools =
      [(1, [(0, (1%nat, ("10.0.0.1"%string, 0))); (1, (1%nat, ("10.0.0.1"%string, 1)))]);
       (2, [(0, (2%nat, ("10.0.0.1"%string, 0))); (1, (2%nat, ("10.0.0.1"%string, 1)))])])
      as -> by reflexivity.
    cbn [dget]. destruct (decide (iid = 1)), (decide (iid = 2)); cbn [dget fst]; try done;
      destruct (decide (eid = 0)), (decide (eid = 1)); cbn [dget fst]; try done;
      by split.
Qed.

Lemma shm_refines_entries_witness :
  let w0 := Writer_init (replicate (total_size 3) 0) 3 in
  let '(v, es) := fold_left (abs_step 3) [ShmHeartbeat; ShmSingle sample_pools 2 0]
                    (1, published 3 sample_pools) in
  ∃ w stale r', writer_run w0 [ShmSnapshot sample_pools; ShmHeartbeat; ShmSingle sample_pools 2 0]
      = (w, Ret tt) ∧
    read_and_patch_cache (λ l a b _ _ _, (a, b) :: l) Reader_init (Some (buf w)) f0 []
      = ((Some (v mod 2 ^ 64), stale), r',
         fold_left (patch_entry (λ l a b _ _ _, (a, b) :: l)) es []).
Proof.
  apply (shm_refines_entries (λ l a b _ _ _, (a, b) :: l) 3 sample_pools
    [ShmHeartbeat; ShmSingle sample_pools 2 0] Reader_init f0 []).
  - reflexivity.
  - apply sample_pools_ok.
  - repeat apply Forall_cons_2; try apply Forall_nil_2; [exact I|apply sample_pools_ok].
  - reflexivity.
Defined.

(** The header format round-trips.  Packing succeeds exactly when the fixed-width
    fields are in range; reading the 64 bytes back, whatever follows them, gives the
    header with version and heartbeat reduced modulo 2^64. *)
Theorem header_roundtrip h :
  (header_ok h ↔ ∃ d, pack_header h = Ret d) ∧
  ∀ d rest, pack_header h = Ret d →
    length d = HEADER_SIZE ∧ unpack_header (d ++ rest) = Ret (norm_header h).
Proof.
  destruct (pack_header_spec h) as [Hp Hu]. split.
  - split; [done|]. intros [d Hd]. by destruct (Hu d Hd).
  - intros d rest Hd. destruct (Hu d Hd) as (_ & Hl & Hun). split; [done|]. apply Hun.
    unfold slice. simpl. rewrite <- Hl. apply take_app_length.
Qed.
