(* ===== verification/SchedulerServer.v ===== *)
(** * The scheduler process

    Models [coordinator/scheduler/scheduler.py] (the in-process facade over a policy),
    [scheduler/policy/factory.py], and the request side of
    [scheduler/runtime/scheduler_server.py]: the dispatcher's four handlers, the
    conversion of escaping exceptions to error responses, the heartbeat tick and the
    notification of instance changes.  Sockets and message encoding are left out: a
    request is its decoded content, whose instances are objects of the store. *)

From stdpp Require Import base option list strings sets.
From Stdlib Require Import ZArith Lia.
From S2P Require Import Prelude Float64 Resources Policies RequestManager CoordInstanceManager WorkloadShm.
Open Scope Z_scope.

(** ** Scheduler *)

Inductive SchedulerType := LOAD_BALANCE | ROUND_ROBIN | KV_CACHE_AFFINITY.

(** The policy object the factory creates, with its state. *)
Inductive policy_object :=
| PolicyLB
| PolicyRR (p : RoundRobinPolicy)
| PolicyKV.

Definition create (t : SchedulerType) : policy_object :=
  match t with
  | LOAD_BALANCE => PolicyLB
  | ROUND_ROBIN => PolicyRR RoundRobinPolicy_init
  | KV_CACHE_AFFINITY => PolicyKV
  end.

(** [hasattr(policy, "update_workload")]. *)
Definition tracks (p : policy_object) : bool :=
  match p with
  | PolicyLB => policy_tracks (P := unit)
  | PolicyRR _ => policy_tracks (P := RoundRobinPolicy)
  | PolicyKV => policy_tracks (P := KvCacheAffinityPolicy)
  end.

Definition policy_select (p : policy_object) (active : list Instance) (r : option PDRole)
    : option (Instance * eptr) * policy_object :=
  match p with
  | PolicyLB => let '(x, _) := select_instance_and_endpoint tt active r in (x, PolicyLB)
  | PolicyRR p => let '(x, p') := select_instance_and_endpoint p active r in (x, PolicyRR p')
  | PolicyKV => let '(x, _) := select_instance_and_endpoint KvCacheAffinity active r in (x, PolicyKV)
  end.

Record Scheduler := mkSched {
  provider : InstanceManager;
  policy : policy_object;
  sched_deploy_mode : option DeployMode
}.

Definition Scheduler_init (im : InstanceManager) (t : SchedulerType) (d : option DeployMode) : Scheduler :=
  mkSched im (create t) d.

Definition set_provider (s : Scheduler) im : Scheduler := mkSched im (policy s) (sched_deploy_mode s).

Definition active_instances (im : InstanceManager) (r : option PDRole) : list Instance :=
  store im <$> dvalues (get_available_instances im r).

(** [select_instance_and_endpoint]: the endpoint listing caches itself in the chosen
    object. *)
Definition sched_select (s : Scheduler) (r : option PDRole) : option (Instance * eptr) * Scheduler :=
  let '(sel, p) := policy_select (policy s) (active_instances (provider s) r) r in
  let im := provider s in
  let im' := match sel with
             | Some (i, _) =>
                 match dget (get_available_instances im r) (ins_id i) with
                 | Some ref => set_store im (store_set (store im) ref i)
                 | None => im
                 end
             | None => im
             end in
  (sel, mkSched im' p (sched_deploy_mode s)).

(** Policies that track no workload accept every update without effect. *)
Definition sched_update_workload (s : Scheduler) (instance_id endpoint_id : Z) (w : Workload)
    : bool * Scheduler :=
  if tracks (policy s)
  then (true, set_provider s (update_instance_workload (provider s) instance_id endpoint_id w))
  else (true, s).

Definition select_and_allocate (s : Scheduler) (r : PDRole) (len : Z)
    : option (Instance * eptr * Workload) * Scheduler :=
  let '(sel, s1) := sched_select s (Some r) in
  match sel with
  | None => (None, s1)
  | Some (i, p) =>
      match deref i p with
      | None => (None, s1)
      | Some e =>
          let w := if tracks (policy s1) then calculate_demand_workload r len else Workload0 in
          let '(success, s2) := sched_update_workload s1 (ins_id i) (ep_id e) w in
          if success then (Some (i, p, w), s2) else (None, s2)
      end
  end.

Definition sched_get_available_instances (s : Scheduler) (r : option PDRole) : pool :=
  get_available_instances (provider s) r.
Definition sched_has_required_instances (s : Scheduler) : InstanceReadiness :=
  get_required_instances_status (provider s) (Some (default PD_SEPARATE (sched_deploy_mode s))).
Definition sched_refresh_instances (s : Scheduler) (ev : EventType) (rs : list ref)
    : Scheduler * py bool :=
  let '(im, a) := refresh_instances ev rs (provider s) in (set_provider s im, a).

(** ** Requests and responses *)

(** A workload field of a request: absent or empty, malformed, or valid. *)
Inductive raw_workload := RawMissing | RawInvalid | RawWorkload (w : Workload).

Inductive SchedulerRequestType :=
  ALLOCATE_ONLY | UPDATE_WORKLOAD | GET_AVAILABLE_INSTANCES | REFRESH_INSTANCES | OTHER_REQUEST.

Record SchedulerRequest := mkRequest {
  request_type : SchedulerRequestType;
  request_id : string;
  data_instance_id : option Z;
  data_endpoint_id : option Z;
  data_role : option string;
  data_action : option string;
  data_workload : raw_workload;
  data_event : option string;
  (** the decoded instances; [None] where decoding failed *)
  data_instances : list (option ref)
}.

(** The fields of [_serialize_instance_minimal] and [_serialize_endpoint_minimal]. *)
Record instance_minimal := mkIMin { im_id : Z; im_role : string; im_job : string; im_model : string }.
Record endpoint_minimal := mkEMin {
  em_id : Z; em_ip : string; em_business : string; em_mgmt : string; em_status : EndpointStatus
}.
Definition serialize_instance_minimal (i : Instance) : instance_minimal :=
  mkIMin (ins_id i) (role i) (job_name i) (model_name i).
Definition serialize_endpoint_minimal (e : Endpoint) : endpoint_minimal :=
  mkEMin (ep_id e) (ep_ip e) (business_port e) (mgmt_port e) (ep_status e).

Inductive response_data :=
| RspError
| RspUpdate (success : bool)
| RspInstances (l : list Instance) (workload_shm_name : option string)
| RspRefreshed (count : nat) (changed : bool)
| RspAllocated (a : option (instance_minimal * option endpoint_minimal)).

Record SchedulerResponse := mkResponse { rsp_request_id : string; rsp_data : response_data }.

Definition EventType_of_string (s : string) : py EventType :=
  if decide (s = "add") then Ret EV_ADD
  else if decide (s = "del") then Ret EV_DEL
  else if decide (s = "set") then Ret EV_SET
  else Raise ValueError.

Definition WorkloadAction_of_string (s : option string) : py WorkloadAction :=
  match s with
  | Some s =>
      if decide (s = "Allocation") then Ret ALLOCATION
      else if decide (s = "Release_KV") then Ret RELEASE_KV
      else if decide (s = "Release_Tokens") then Ret RELEASE_TOKENS
      else Raise ValueError
  | None => Raise ValueError
  end.

(** [role_str] missing or empty, and [EventType(s) if s else None]. *)
Definition truthy (s : option string) : option string :=
  match s with Some s => if decide (s = ""%string) then None else Some s | None => None end.

(** ** The server *)

Record Server := mkServer {
  sched : Scheduler;
  writer : option Writer;
  (** versions published on the PUB socket *)
  published_versions : list Z;
  shm_name : string
}.

Definition im_of (s : Server) : InstanceManager := provider (sched s).
Definition set_sched (s : Server) x : Server := mkServer x (writer s) (published_versions s) (shm_name s).
Definition set_im (s : Server) im : Server := set_sched s (set_provider (sched s) im).
Definition set_writer (s : Server) w : Server := mkServer (sched s) w (published_versions s) (shm_name s).

Definition respond (r : SchedulerRequest) (d : response_data) : M Server SchedulerResponse :=
  mret (mkResponse (request_id r) d).

(** [if self._workload_writer: writer.op(...)]. *)
Definition with_writer (op : InstanceManager → M Writer unit) : M Server unit := λ s,
  match writer s with
  | None => (s, Ret tt)
  | Some w => let '(w', a) := op (im_of s) w in (set_writer s (Some w'), a)
  end.

(** The writer asks the manager for the endpoint, which may build its cache. *)
Definition shm_single (iid eid : Z) : M Server unit :=
  with_writer (λ im, write_single_entry im iid eid) ;;
  mmodify (λ s, match writer s with
                | Some _ => set_im s (get_endpoint_workload (im_of s) iid eid).2
                | None => s
                end).

Definition do_update (iid eid : Z) (w : Workload) : M Server bool := λ s,
  let '(b, x) := sched_update_workload (sched s) iid eid w in (set_sched s x, Ret b).

Definition handle_update_workload (r : SchedulerRequest) : M Server SchedulerResponse :=
  match data_instance_id r, data_endpoint_id r with
  | Some iid, Some eid =>
      match data_workload r with
      | RawMissing | RawInvalid => respond r RspError
      | RawWorkload change =>
          action ← mlift (WorkloadAction_of_string (data_action r));
          rl ← mlift (match truthy (data_role r) with
                      | Some s => PDRole_of_string s | None => Ret ROLE_U end);
          success ← do_update iid eid change;
          (if success : bool then shm_single iid eid else mret tt) ;;
          respond r (RspUpdate success)
      end
  | _, _ => respond r RspError
  end.

Definition handle_get_available_instances (r : SchedulerRequest) : M Server SchedulerResponse :=
  rl ← mlift (match truthy (data_role r) with
              | Some s => x ← PDRole_of_string s; Ret (Some x) | None => Ret None end);
  s ← mget;
  respond r (RspInstances (active_instances (im_of s) rl)
               (match writer s with Some _ => Some (shm_name s) | None => None end)).

Definition publish_instance_changed : M Server unit :=
  mmodify (λ s, mkServer (sched s) (writer s)
    (published_versions s ++ [match writer s with Some w => w_instance_version w | None => 0 end])
    (shm_name s)).

Definition handle_refresh_instances (r : SchedulerRequest) : M Server SchedulerResponse :=
  ev ← mlift (match truthy (data_event r) with
              | Some s => x ← EventType_of_string s; Ret (Some x) | None => Ret None end);
  let instances := omap id (data_instances r) in
  match ev with
  | None => respond r RspError
  | Some ev =>
      changed ← (λ s, let '(x, a) := sched_refresh_instances (sched s) ev instances in
                      (set_sched s x, a));
      (if changed : bool then
         with_writer write_snapshot ;; publish_instance_changed
       else mret tt) ;;
      respond r (RspRefreshed (length instances) changed)
  end.

(** The role pools are searched for the instance, its pods for the endpoint. *)
Definition find_allocated (im : InstanceManager) (iid eid : Z)
    : option (instance_minimal * option endpoint_minimal) :=
  let step acc rl :=
    match acc with
    | Some (_, Some _) => acc
    | _ =>
        match dget (get_available_instances im (Some rl)) iid with
        | None => acc
        | Some ref =>
            let i := store im ref in
            Some (serialize_instance_minimal i,
                  serialize_endpoint_minimal <$>
                    last (omap (λ pod, List.find (λ e, ep_id e =? eid) (dvalues pod))
                            (dvalues (endpoints i))))
        end
    end in
  fold_left step [ROLE_P; ROLE_D; ROLE_U] None.

Definition handle_allocate_only (r : SchedulerRequest) : M Server SchedulerResponse :=
  match data_instance_id r, data_endpoint_id r with
  | Some iid, Some eid =>
      match data_workload r with
      | RawMissing | RawInvalid => respond r RspError
      | RawWorkload w =>
          s ← mget;
          if has_instance_endpoint (im_of s) iid eid then
            success ← do_update iid eid w;
            if success : bool then
              shm_single iid eid ;;
              s' ← mget;
              respond r (RspAllocated (find_allocated (im_of s') iid eid))
            else respond r (RspAllocated None)
          else respond r (RspAllocated None)
      end
  | _, _ => respond r RspError
  end.

Definition dispatch (r : SchedulerRequest) : M Server SchedulerResponse :=
  match request_type r with
  | UPDATE_WORKLOAD => handle_update_workload r
  | GET_AVAILABLE_INSTANCES => handle_get_available_instances r
  | REFRESH_INSTANCES => handle_refresh_instances r
  | ALLOCATE_ONLY => handle_allocate_only r
  | OTHER_REQUEST => respond r RspError
  end.

(** [_handle_request_async]: an exception becomes an error response for the same
    request id; what was changed before it stays changed. *)
Definition handle_request (s : Server) (r : SchedulerRequest) : Server * SchedulerResponse :=
  match dispatch r s with
  | (s', Ret rsp) => (s', rsp)
  | (s', Raise _) => (s', mkResponse (request_id r) RspError)
  end.

(** One turn of [_heartbeat_loop]. *)
Definition heartbeat_tick (s : Server) : Server := (with_writer (λ _, write_heartbeat) s).1.

(** [start]: the zeroed shared memory and its first snapshot. *)
Definition start (sc : Scheduler) (max : nat) (name : string) : Server :=
  (with_writer write_snapshot
     (mkServer sc (Some (Writer_init (replicate (total_size max) 0) max)) [] name)).1.

Inductive server_event := SrvRequest (r : SchedulerRequest) | SrvHeartbeat.

Definition server_step (s : Server) (e : server_event) : Server :=
  match e with
  | SrvRequest r => (handle_request s r).1
  | SrvHeartbeat => heartbeat_tick s
  end.

Definition server_run (s : Server) (es : list server_event) : Server := fold_left server_step es s.

(** Well-formed objects: dictionaries without duplicate keys, distinct endpoint ids,
    32-bit ids, and workloads that are doubles. *)
Definition ep_good (e : Endpoint) : Prop :=
  int32 (ep_id e) ∧ f64_valid (active_tokens (workload e)) ∧ f64_valid (active_kv_cache (workload e)).
Definition inst_good (i : Instance) : Prop :=
  inst_dicts_wf i ∧ NoDup (ep_id <$> endpoints_flat i) ∧ int32 (ins_id i) ∧
  Forall ep_good (endpoints_flat i).
Definition store_good (m : InstanceManager) : Prop := ∀ r, inst_good (store m r).

(** A request's instances have the role of their id; its workload is made of doubles. *)
Definition request_ok (f : Z → PDRole) (st : ref → Instance) (r : SchedulerRequest) : Prop :=
  Forall (role_ok f st) (omap id (data_instances r)) ∧
  match data_workload r with
  | RawWorkload w => f64_valid (active_tokens w) ∧ f64_valid (active_kv_cache w)
  | _ => True
  end.

(** Lemmas *)

Definition ekey (x : Z * Z * Endpoint) : Z * Z := (x.1.1, ep_id x.2).

Definition pool_refs (m : InstanceManager) : list (PDRole * ref) :=
  concat (map (λ rl, map (pair rl) (dvalues (role_pool m rl))) [ROLE_P; ROLE_D; ROLE_U]).

Definition ref_endpoints (m : InstanceManager) (x : PDRole * ref) : list (Z * Z * Endpoint) :=
  map (λ e, (ins_id (store m x.2), pdrole_to_shm_role x.1, e)) (endpoints_flat (store m x.2)).

Lemma pool_endpoints_refs m : pool_endpoints m = concat (map (ref_endpoints m) (pool_refs m)).
Proof.
  unfold pool_endpoints, pool_refs, get_available_instances. simpl.
  rewrite !map_app, !concat_app, !map_map. simpl. by rewrite !app_nil_r.
Qed.

Lemma elem_of_flat i e :
  e ∈ endpoints_flat i ↔ ∃ ip pod k, (ip, pod) ∈ endpoints i ∧ (k, e) ∈ pod.
Proof.
  unfold endpoints_flat. rewrite list_elem_of_In, in_concat. split.
  - intros (l & Hl & He). apply in_map_iff in Hl as (pod & <- & Hp).
    apply list_elem_of_In, in_dvalues in Hp as [ip Hip].
    apply list_elem_of_In, in_dvalues in He as [k Hk]. by exists ip, pod, k.
  - intros (ip & pod & k & Hip & Hk). exists (dvalues pod). split.
    + apply in_map_iff. exists pod. split; [done|]. apply list_elem_of_In, in_dvalues. by exists ip.
    + apply list_elem_of_In, in_dvalues. by exists k.
Qed.

Lemma deref_flat i p e : deref i p = Some e → e ∈ endpoints_flat i.
Proof.
  unfold deref. destruct (dget (endpoints i) p.1) as [pod|] eqn:E; [|done]. intros H.
  apply elem_of_flat. exists p.1, pod, p.2. by split; apply dget_Some_in.
Qed.

Lemma pod_ep_cache_mono r ip pod acc k :
  is_Some (dget acc k) → is_Some (dget (pod_ep_cache r ip acc pod) k).
Proof.
  unfold pod_ep_cache. revert acc. induction pod as [|[k' e] pod IH]; intros acc H; simpl; [done|].
  apply IH. rewrite dget_dset. case_decide; [by eexists|done].
Qed.

Lemma pod_ep_cache_has r ip pod acc k e :
  (k, e) ∈ pod → is_Some (dget (pod_ep_cache r ip acc pod) (ep_id e)).
Proof.
  revert acc. induction pod as [|[k' e'] pod IH]; intros acc; [by intros ?%elem_of_nil|].
  intros [[= <- <-]|H]%elem_of_cons; [|by apply IH].
  change (is_Some (dget (pod_ep_cache r ip (dset acc (ep_id e) (r, (ip, k))) pod) (ep_id e))).
  apply pod_ep_cache_mono. rewrite dget_dset_eq. by eexists.
Qed.

Lemma build_ep_cache_has r i e :
  e ∈ endpoints_flat i → is_Some (dget (build_ep_cache r i) (ep_id e)).
Proof.
  intros (ip & pod & k & Hip & Hk)%elem_of_flat. unfold build_ep_cache.
  generalize ([] : dict Z epref). induction (endpoints i) as [|[ip' pod'] d IH]; intros acc;
    [by apply elem_of_nil in Hip|].
  simpl. apply elem_of_cons in Hip as [[= <- <-]|Hip]; [|by apply IH].
  assert (∀ d acc, is_Some (dget acc (ep_id e)) →
    is_Some (dget (fold_left (λ acc '(ip, pod), pod_ep_cache r ip acc pod) d acc) (ep_id e))) as Hm.
  { clear. induction d as [|[ip pod] d IH]; intros acc H; simpl; [done|].
    apply IH. by apply pod_ep_cache_mono. }
  apply Hm. by eapply pod_ep_cache_has.
Qed.

(** A charge touches the endpoint with the pointer's id only. *)
Lemma flat_charge i p w e0 :
  deref i p = Some e0 →
  Forall2 (λ e e', ep_id e' = ep_id e ∧ (e' = e ∨ (ep_id e = ep_id e0 ∧
             e' = set_ep_workload e (workload_iadd (workload e) w))))
    (endpoints_flat i) (endpoints_flat (charge_endpoint i p w)).
Proof.
  intros Hd. unfold charge_endpoint. rewrite Hd. unfold deref in Hd.
  destruct (dget (endpoints i) p.1) as [pod|] eqn:E; [|done].
  unfold endpoints_flat. cbn [endpoints set_endpoints]. set (R := λ _ _, _).
  assert (∀ l : list Endpoint, Forall2 R l l) as Hrefl.
  { intros l. induction l; constructor; [|done]. subst R. simpl. auto. }
  assert (Forall2 R (dvalues pod) (dvalues (dset pod p.2 (set_ep_workload e0 (workload_iadd (workload e0) w)))))
    as Hpod.
  { clear E. induction pod as [|[k e] pod IH]; simpl in *; [done|]. case_decide.
    - injection Hd as ->. constructor; [|apply Hrefl]. subst R. simpl. auto.
    - constructor; [|by apply IH]. subst R. simpl. auto. }
  clear Hd. induction (endpoints i) as [|[ip pod'] d IH]; simpl in *; [done|]. case_decide.
  - injection E as ->. simpl. apply Forall2_app; [done|apply Hrefl].
  - simpl. apply Forall2_app; [apply Hrefl|by apply IH].
Qed.

Section mirror.
Context (f : Z → PDRole).

Lemma pool_refs_elem m rl r :
  im_ok f m → (rl, r) ∈ pool_refs m →
  dget (available_pool m) (ins_id (store m r)) = Some r ∧ rl = f (ins_id (store m r)).
Proof.
  intros Hm Hin. unfold pool_refs in Hin. apply list_elem_of_In, in_concat in Hin as (l & Hl & Hin).
  apply in_map_iff in Hl as (rl' & <- & _). apply in_map_iff in Hin as (r' & [= -> ->] & Hin).
  apply list_elem_of_In, in_dvalues in Hin as [id Hin].
  apply (dget_in_wf _ _ _ (ok_role_wf f m Hm rl)) in Hin.
  apply (ok_role f m Hm) in Hin as [-> Ha]. destruct (ok_available f m Hm _ _ Ha) as [<- _]. done.
Qed.

Lemma pool_refs_ids_NoDup m :
  im_ok f m → NoDup ((λ x, ins_id (store m x.2)) <$> pool_refs m).
Proof.
  intros Hm. unfold pool_refs.
  apply (NoDup_concat_tagged _ _ f id).
  - intros rl [rl' r] _ Hin. apply list_elem_of_In, in_map_iff in Hin as (r' & [= -> ->] & Hin).
    simpl. apply list_elem_of_In, in_dvalues in Hin as [id Hin].
    apply (dget_in_wf _ _ _ (ok_role_wf f m Hm rl')) in Hin.
    apply (ok_role f m Hm) in Hin as [-> Ha]. destruct (ok_available f m Hm _ _ Ha) as [<- _]. done.
  - repeat constructor; set_solver.
  - intros rl _. change (map (pair rl)) with (fmap (M := list) (pair rl : ref → PDRole * ref)).
    rewrite <- list_fmap_compose. simpl.
    assert ((λ r, ins_id (store m r)) <$> dvalues (role_pool m rl) = dkeys (role_pool m rl)) as Hk.
    { unfold dvalues, dkeys. rewrite <- list_fmap_compose. apply list_fmap_ext.
      intros i [id r] Hi. simpl. apply list_elem_of_lookup_2 in Hi.
      apply (dget_in_wf _ _ _ (ok_role_wf f m Hm rl)) in Hi.
      apply (ok_role f m Hm) in Hi as [_ Ha]. by apply (ok_available f m Hm) in Ha as []. }
    unfold compose. simpl. rewrite Hk. apply (ok_role_wf f m Hm).
Qed.

Lemma pool_keys_NoDup m : im_ok f m → store_good m → NoDup (ekey <$> pool_endpoints m).
Proof.
  intros Hm Hg. rewrite pool_endpoints_refs.
  apply (NoDup_concat_tagged _ _ fst (λ x, ins_id (store m x.2))).
  - intros [rl r] x _ Hx. unfold ref_endpoints in Hx. apply list_elem_of_In, in_map_iff in Hx as (e & <- & _).
    done.
  - by apply pool_refs_ids_NoDup.
  - intros [rl r] _. unfold ref_endpoints. simpl.
    change (map ?g) with (fmap (M := list) g). rewrite <- list_fmap_compose.
    destruct (Hg r) as (_ & Hn & _).
    assert (ekey ∘ (λ e, (ins_id (store m r), pdrole_to_shm_role rl, e)) <$> endpoints_flat (store m r) =
      pair (ins_id (store m r)) <$> (ep_id <$> endpoints_flat (store m r))) as ->.
    { rewrite <- list_fmap_compose. done. }
    apply NoDup_fmap_2; [|done]. by intros ?? [= ->].
Qed.

Lemma pool_endpoints_elem m x :
  im_ok f m → x ∈ pool_endpoints m →
  ∃ r, dget (available_pool m) x.1.1 = Some r ∧ x.1.2 = pdrole_to_shm_role (f x.1.1) ∧
       x.2 ∈ endpoints_flat (store m r) ∧ ins_id (store m r) = x.1.1.
Proof.
  intros Hm Hx. rewrite pool_endpoints_refs in Hx.
  apply list_elem_of_In, in_concat in Hx as (l & Hl & Hx).
  apply in_map_iff in Hl as ([rl r] & <- & Hr). apply list_elem_of_In in Hr.
  unfold ref_endpoints in Hx. apply in_map_iff in Hx as (e & <- & He). simpl.
  apply pool_refs_elem in Hr as [Ha ->]; [|done]. exists r. by rewrite list_elem_of_In.
Qed.

(** What the manager answers about an endpoint of the pools. *)
Lemma get_endpoint_pool m x :
  im_ok f m → store_good m → x ∈ pool_endpoints m →
  (get_endpoint_workload m x.1.1 (ep_id x.2)).1 = Ret (Some (f x.1.1), Some (workload x.2)).
Proof.
  intros Hm Hg Hx. destruct (pool_endpoints_elem m x Hm Hx) as (r & Ha & _ & He & _).
  unfold get_endpoint_workload. rewrite Ha, (im_ok_ensure f m _ r Hm Ha).
  destruct (build_ep_cache_has r (store m r) x.2 He) as [y Hy]. rewrite Hy.
  destruct (Hg r) as (Hw & Hn & _).
  destruct (build_ep_cache_deref r (store m r) _ _ Hw Hy) as (p & e & -> & Hd & Hid).
  destruct (ok_available f m Hm _ _ Ha) as (_ & Hr & _). cbn [fst]. rewrite Hr, PDRole_of_value.
  rewrite decide_False by (by destruct (f x.1.1)). cbn. rewrite Hd. cbn.
  assert (e = x.2) as ->; [|done]. apply deref_flat in Hd.
  apply list_elem_of_lookup in Hd as [i Hi]. apply list_elem_of_lookup in He as [j Hj].
  assert (i = j) as ->; [|congruence].
  eapply NoDup_lookup; [exact Hn| |]; rewrite list_lookup_fmap, ?Hi, ?Hj; simpl; by rewrite ?Hid.
Qed.

Lemma get_endpoint_valid m iid eid :
  im_ok f m → store_good m →
  match (get_endpoint_workload m iid eid).1 with
  | Ret (Some _, Some wl) => f64_valid (active_tokens wl) ∧ f64_valid (active_kv_cache wl)
  | Ret _ => True
  | Raise _ => False
  end.
Proof.
  intros Hm Hg. unfold get_endpoint_workload.
  destruct (dget (available_pool m) iid) as [r|] eqn:Ha; [|done].
  rewrite (im_ok_ensure f m _ r Hm Ha).
  destruct (dget (build_ep_cache r (store m r)) eid) as [y|] eqn:Hy; [|done].
  destruct (Hg r) as (Hw & Hn & _ & Hf).
  destruct (build_ep_cache_deref r (store m r) _ _ Hw Hy) as (p & e & -> & Hd & Hid).
  destruct (ok_available f m Hm _ _ Ha) as (_ & Hr & _). cbn [fst]. rewrite Hr, PDRole_of_value.
  rewrite decide_False by (by destruct (f iid)). cbn. rewrite Hd. cbn.
  apply deref_flat in Hd. eapply Forall_forall in Hf; [|done]. by destruct Hf.
Qed.

Lemma pools_good m : im_ok f m → store_good m → pools_ok m.
Proof.
  intros Hm Hg. split; [|intros; by apply get_endpoint_valid].
  apply Forall_forall. intros y Hy. apply list_elem_of_In, in_map_iff in Hy as (x & <- & Hx).
  apply list_elem_of_In in Hx. destruct (pool_endpoints_elem m x Hm Hx) as (r & Ha & Hr & He & Hi).
  destruct x as [[iid rl] e]. simpl in *. destruct (Hg r) as (_ & _ & H32 & Hf).
  eapply Forall_forall in Hf as (A & B & C); [|done]. rewrite Hi in H32. subst rl.
  unfold entry_ok. simpl. split_and!; try done; by destruct (f iid).
Qed.

(** How the published entries change with the pools: entry by entry. *)
Definition entry_rel (iid eid : Z) (x x' : Z * Z * Endpoint) : Prop :=
  ekey x' = ekey x ∧ x'.1.2 = x.1.2 ∧ (ekey x ≠ (iid, eid) → x' = x).

Lemma published_insert max m m' iid eid s :
  im_ok f m' → store_good m' → Forall2 (entry_rel iid eid) (pool_endpoints m) (pool_endpoints m') →
  last_slot 0 (published max m) (iid, eid) = Some s →
  ∃ rl wl, (get_endpoint_workload m' iid eid).1 = Ret (Some rl, Some wl) ∧
    <[s := mkShmE iid eid (pdrole_to_shm_role rl) (active_tokens wl) (active_kv_cache wl)]>
      (published max m) = published max m'.
Proof.
  intros Hm Hg HF Hs. destruct (last_slot_lookup _ _ _ _ Hs) as (_ & e & He & Hk).
  rewrite Nat.sub_0_r in He. unfold published in He.
  apply lookup_take_Some in He as [He Hlt]. rewrite map_fmap in He.
  apply list_lookup_fmap_Some in He as (x & -> & Hx).
  destruct (Forall2_lookup_l _ _ _ _ _ HF Hx) as (x' & Hx' & Hkey & Hrl & _).
  assert (ekey x' = (iid, eid)) as Hkx by (rewrite Hkey; by destruct x as [[]]).
  pose proof (get_endpoint_pool m' x' Hm Hg (list_elem_of_lookup_2 _ _ _ Hx')) as Hget.
  destruct (pool_endpoints_elem m' x' Hm (list_elem_of_lookup_2 _ _ _ Hx')) as (_ & _ & Hrole & _ & _).
  pose proof Hkx as Hkx'. injection Hkx' as Hi He. rewrite Hi, He in Hget. eexists _, _. split; [exact Hget|].
  apply list_eq. intros i. unfold published.
  assert (length (pool_endpoints m) = length (pool_endpoints m')) as Hlen by (by eapply Forall2_length).
  destruct (decide (i = s)) as [->|Hne].
  - rewrite list_lookup_insert_eq.
    + rewrite lookup_take_lt by done. rewrite map_fmap, list_lookup_fmap, Hx'. simpl.
      destruct x' as [[i' r'] e']. simpl in *. subst. by rewrite Hrole.
    + rewrite length_take, length_map. apply lookup_lt_Some in Hx. lia.
  - rewrite list_lookup_insert_ne by done. destruct (decide (i < max)%nat).
    + rewrite !lookup_take_lt by done. rewrite !map_fmap, !list_lookup_fmap.
      destruct (pool_endpoints m !! i) as [y|] eqn:Ey.
      * destruct (Forall2_lookup_l _ _ _ _ _ HF Ey) as (y' & Hy' & Hky & _ & Hsame).
        rewrite Hy'. simpl. rewrite Hsame; [done|]. intros Heq. apply Hne.
        apply (NoDup_lookup (ekey <$> pool_endpoints m') i s (iid, eid));
          [by apply pool_keys_NoDup| |]; rewrite list_lookup_fmap, ?Hy', ?Hx'; simpl; congruence.
      * apply lookup_ge_None in Ey. rewrite (proj2 (lookup_ge_None (pool_endpoints m') i)) by lia. done.
    + rewrite !lookup_take_ge by lia. done.
Qed.

(** The pools after a workload update. *)
Lemma update_entry_rel m iid eid w :
  im_ok f m → store_good m →
  let m' := update_instance_workload m iid eid w in
  Forall2 (entry_rel iid eid) (pool_endpoints m) (pool_endpoints m').
Proof.
  intros Hm Hg m'. rewrite !pool_endpoints_refs.
  assert (∀ x, entry_rel iid eid x x) as Hrefl by done.
  assert (∀ r, ins_id (store m' r) = ins_id (store m r)) as Hids.
  { intros r. destruct (im_step_spec f m (ImWorkload iid eid w) Hm I) as (_ & _ & Hs). apply (Hs r). }
  assert (∀ rl, role_pool m' rl = role_pool m rl) as Hrp.
  { intros rl. unfold m', update_instance_workload, lookup_workload, ensure_ep_cache.
    repeat case_match; simplify_eq/=; done. }
  assert (pool_refs m' = pool_refs m) as -> by (unfold pool_refs; cbn [map]; by rewrite (Hrp ROLE_P), (Hrp ROLE_D), (Hrp ROLE_U)).
  apply Forall2_concat_map. intros [rl r] Hin. unfold ref_endpoints. simpl. rewrite Hids.
  destruct (pool_refs_elem m rl r Hm Hin) as [Ha _].
  rewrite !map_fmap. apply Forall2_fmap.
  assert (Forall2 (λ e e', ep_id e' = ep_id e ∧ (e' = e ∨ (ins_id (store m r) = iid ∧ ep_id e = eid)))
    (endpoints_flat (store m r)) (endpoints_flat (store m' r))) as HF.
  { assert (∀ l : list Endpoint, Forall2 (λ e e', ep_id e' = ep_id e ∧
      (e' = e ∨ (ins_id (store m r) = iid ∧ ep_id e = eid))) l l) as Hl
      by (intros l; induction l; constructor; auto).
    unfold m', update_instance_workload, lookup_workload.
    destruct (dget (available_pool m) iid) as [r0|] eqn:E0; [|apply Hl].
    rewrite (im_ok_ensure f m iid r0 Hm E0).
    destruct (dget (build_ep_cache r0 (store m r0)) eid) as [x|] eqn:Ex; [|apply Hl].
    destruct (Hg r0) as (Hw0 & _).
    destruct (build_ep_cache_deref _ _ _ _ Hw0 Ex) as (p & e0 & -> & Hd & Hid). simpl.
    unfold apply_workload, store_set. destruct (decide (r = r0)) as [->|Hne];
      [|rewrite ?decide_False by done; apply Hl].
    rewrite !decide_True by done. destruct (ok_available f m Hm _ _ E0) as [Hi0 _].
    eapply Forall2_impl; [apply (flat_charge (set_gathered (store m r0)
      (workload_iadd (gathered_workload (store m r0)) w)) p w e0 Hd)|].
    intros e e' [H1 H2]. split; [done|]. destruct H2 as [->|[H2 _]]; [by left|right].
    split; [done|congruence]. }
  eapply Forall2_impl; [exact HF|]. intros e e' [H1 H2]. unfold entry_rel, ekey. simpl.
  split; [congruence|]. split; [done|]. intros Hne. destruct H2 as [->|[H2 H3]]; [done|].
  by subst.
Qed.

(** Well-formed objects stay so. *)
Lemma inst_good_charge i p w :
  f64_valid (active_tokens w) → f64_valid (active_kv_cache w) → inst_good i →
  inst_good (charge_endpoint i p w).
Proof.
  intros Hv1 Hv2 Hg. destruct (deref i p) as [e0|] eqn:Hd.
  2: { unfold charge_endpoint. by rewrite Hd. }
  pose proof (flat_charge i p w e0 Hd) as HF. destruct Hg as (Hw & Hn & H32 & Hf).
  split; [|split; [|split]].
  - destruct (same_static_charge i p w) as (_ & _ & Hs). by eapply inst_dicts_wf_shape.
  - assert (ep_id <$> endpoints_flat (charge_endpoint i p w) = ep_id <$> endpoints_flat i) as ->; [|done].
    clear Hn Hf. induction HF as [|e e' l l' [He _] _ IH]; [done|]. rewrite !fmap_cons. by rewrite He, IH.
  - by destruct (same_static_charge i p w) as (-> & _).
  - clear Hn. revert HF Hf. generalize (endpoints_flat i) (endpoints_flat (charge_endpoint i p w)).
    intros l l' HF. induction HF as [|e e' l l' [_ He] _ IH]; [done|].
    intros [[A [B C]] Hl]%Forall_cons. apply Forall_cons. split; [|by apply IH].
    destruct He as [->|[_ ->]]; [done|]. unfold ep_good. simpl. split; [done|].
    split; by apply fadd_valid.
Qed.

Lemma store_good_update m iid eid w :
  f64_valid (active_tokens w) → f64_valid (active_kv_cache w) →
  store_good m → store_good (update_instance_workload m iid eid w).
Proof.
  intros Hv1 Hv2 Hg. unfold update_instance_workload.
  assert (store (lookup_workload m iid eid).2 = store m) as Hs.
  { unfold lookup_workload, ensure_ep_cache. repeat case_match; simplify_eq/=; done. }
  destruct (lookup_workload m iid eid) as [[[r [re p]]|] m1]; simpl in Hs; intros x; simpl; rewrite Hs;
    [|apply Hg].
  unfold apply_workload, store_set. repeat case_decide; try apply Hg.
  - apply inst_good_charge; [done|done|apply (Hg r)].
  - apply inst_good_charge; [done|done|apply (Hg re)].
Qed.

Lemma inst_good_reset i : inst_good i → inst_good (reset_workloads i).
Proof.
  intros (Hw & Hn & H32 & Hf).
  assert (endpoints_flat (reset_workloads i) = (λ e, set_ep_workload e Workload0) <$> endpoints_flat i)
    as Hfl.
  { unfold endpoints_flat, reset_workloads, dvalues. simpl. induction (endpoints i) as [|[ip pod] d IH]; [done|].
    simpl. rewrite fmap_app. f_equal; [|exact IH].
    clear. induction pod as [|[k e] pod IH]; [done|]. simpl. f_equal. exact IH. }
  split; [|split; [|split]]; [|by rewrite Hfl, <- list_fmap_compose|done|].
  - destruct (same_static_reset i) as (_ & _ & Hs). by eapply inst_dicts_wf_shape.
  - rewrite Hfl. apply Forall_fmap. eapply Forall_impl; [done|]. by intros e [? _].
Qed.
End mirror.

(** Refreshes only reset workloads in the store. *)
Ltac preserves_step := first
  [ apply preserves_ret | apply preserves_raise | apply preserves_lift | apply preserves_get
  | (apply preserves_modify; intros ? H; exact H)
  | (apply preserves_bind; [|intros ?]) | case_match ].

Lemma preserves_good_delete id : preserves store_good (delete_instance_from_available_pool id).
Proof. unfold delete_instance_from_available_pool, find_available_pool. repeat preserves_step. Qed.

Lemma preserves_good_deletes rs : preserves store_good (delete_instances rs).
Proof.
  induction rs as [|r rs IH]; simpl; repeat (apply IH || apply preserves_good_delete || preserves_step).
Qed.

Lemma preserves_good_add_one r : preserves store_good (add_one r).
Proof.
  unfold add_one, add_instance_to_available_pool. repeat preserves_step.
  apply preserves_modify. intros m Hg x. simpl. unfold store_set.
  case_decide; [apply inst_good_reset|]; apply Hg.
Qed.

Lemma preserves_good_register b rs : preserves store_good (register_kv_instance b rs).
Proof. apply preserves_modify. intros m Hg. by destruct (typename_mgmt m). Qed.

Lemma preserves_good_adds rs : preserves store_good (add_instances rs).
Proof.
  unfold add_instances. apply preserves_bind; [|intros added; apply preserves_bind;
    [apply preserves_good_register|intros _; apply preserves_ret]].
  induction rs as [|r rs IH]; simpl; repeat (apply IH || apply preserves_good_add_one || preserves_step).
Qed.

Lemma preserves_good_refresh ev rs : preserves store_good (refresh_instances ev rs).
Proof.
  destruct ev; simpl; [apply preserves_good_adds| |].
  - repeat (apply preserves_good_deletes || apply preserves_good_register || preserves_step).
  - unfold apply_set_diff. apply preserves_bind; [apply preserves_get|]. intros m.
    destruct (compute_set_diff m rs) as [to_add to_remove].
    repeat (apply preserves_good_deletes || apply preserves_good_adds || preserves_step).
Qed.

(** A refresh that reports no change has changed nothing that is published. *)
Definition same_pools (m m' : InstanceManager) : Prop :=
  store m' = store m ∧ ∀ rl, role_pool m' rl = role_pool m rl.

Lemma same_pools_published max m m' : same_pools m m' → published max m' = published max m.
Proof.
  intros [Hs Hr]. unfold published. rewrite !pool_endpoints_refs. unfold pool_refs, ref_endpoints.
  cbn [map]. by rewrite (Hr ROLE_P), (Hr ROLE_D), (Hr ROLE_U), Hs.
Qed.

Section refresh_false.
Context (f : Z → PDRole).

Lemma add_one_false m r m' :
  im_ok f m → role_ok f (store m) r → add_one r m = (m', Ret false) → m' = m.
Proof.
  intros Hm Hr. unfold add_one, mbind, M_bind, mget. simpl.
  destruct (dhas (unavailable_pool m) _); [by intros [=]|].
  rewrite (add_available_eq f m r Hm Hr). destruct (dhas (available_pool m) _); by intros [=].
Qed.

Lemma add_loop_nil rs m m' :
  im_ok f m → Forall (role_ok f (store m)) rs → add_loop rs m = (m', Ret []) → m' = m.
Proof.
  revert m. induction rs as [|r rs IH]; intros m Hm Hrs; simpl; [by intros [=]|].
  apply Forall_cons in Hrs as [Hr Hrs].
  destruct (add_one_spec f m r Hm Hr) as (b & m1 & E1 & Hm1 & Hs1 & _).
  destruct (add_loop_spec f rs m1 Hm1) as (added & m2 & E2 & _).
  { eapply Forall_impl; [done|]. intros x. by apply role_ok_statics. }
  unfold mbind, M_bind. rewrite E1, E2. destruct b; [done|]. intros [= <- ->].
  pose proof (add_one_false m r m1 Hm Hr E1) as ->. by apply IH.
Qed.

Lemma delete_one_false m id m' : im_ok f m → delete_one id m = (m', Ret false) → m' = m.
Proof.
  intros Hm. unfold delete_one, mbind, M_bind, mget. simpl.
  destruct (dhas (unavailable_pool m) id); [done|]. rewrite (delete_available_eq f m id Hm).
  destruct (dhas (available_pool m) id); by intros [=].
Qed.

Lemma deletes_false rs m m' : im_ok f m → delete_instances rs m = (m', Ret false) → m' = m.
Proof.
  revert m. induction rs as [|r rs IH]; intros m Hm; simpl; [by intros [=]|].
  destruct (delete_one_spec f m (ins_id (store m r)) Hm) as (b & m1 & E1 & Hm1 & _).
  destruct (delete_instances_spec f rs m1 Hm1) as (b' & m2 & E2 & _).
  unfold mbind, M_bind, mget. rewrite E1, E2. intros [= <- Hb]. destruct b, b'; try done.
  pose proof (delete_one_false m _ m1 Hm E1) as ->. by apply IH.
Qed.

Lemma refresh_false_same ev rs m m' :
  im_ok f m → Forall (role_ok f (store m)) rs →
  refresh_instances ev rs m = (m', Ret false) → same_pools m m'.
Proof.
  intros Hm Hrs. destruct ev; simpl.
  - destruct (add_loop_spec f rs m Hm Hrs) as (added & m1 & E1 & _).
    unfold add_instances, mbind, M_bind, register_kv_instance, mmodify. rewrite E1.
    intros [= <- Hb]. destruct added; [|done]. apply (add_loop_nil rs m m1 Hm Hrs) in E1 as ->.
    by destruct (typename_mgmt m).
  - destruct (delete_instances_spec f rs m Hm) as (b & m1 & E1 & _).
    unfold mbind, M_bind, register_kv_instance, mmodify. rewrite E1.
    intros [= <- ->]. apply (deletes_false rs m m1 Hm) in E1 as ->. by destruct (typename_mgmt m).
  - unfold apply_set_diff, mbind, M_bind, mget. destruct (compute_set_diff m rs) as [to_add to_remove] eqn:Ed.
    assert (Forall (role_ok f (store m)) to_add) as Hadd.
    { pose proof (compute_set_diff_spec f m rs Hm) as Hd. rewrite Ed in Hd. destruct Hd as [Hd _].
      apply Forall_forall. intros r Hr. apply Hd in Hr as [Hr _]. by eapply Forall_forall in Hrs. }
    destruct (delete_add_spec f m to_add to_remove Hm Hadd) as (m1 & E & _).
    unfold mbind, M_bind in E. destruct to_add, to_remove; [by intros [= <-]|..]; by rewrite E.
Qed.
End refresh_false.

(** ** The mirror invariant *)

Definition srv_ok (f : Z → PDRole) (n : Z) (s : Server) : Prop :=
  im_ok f (im_of s) ∧ store_good (im_of s) ∧
  ∃ w v, writer s = Some w ∧ w_sequence w <= n ∧ shows w v (published (w_max_entries w) (im_of s)).

Lemma srv_ok_heartbeat f n s : srv_ok f n s → srv_ok f (n + 1) (heartbeat_tick s).
Proof.
  intros (Hm & Hg & w & v & Hw & Hn & Hs). unfold heartbeat_tick, with_writer. rewrite Hw.
  destruct (heartbeat_shows w v _ Hs) as (w' & -> & Hs' & M & Q). simpl.
  split; [done|]. split; [done|]. exists w', v. simpl. rewrite M. split; [done|]. split; [lia|done].
Qed.

(** The single-entry write after an update (or after none) restores the mirror. *)
Lemma srv_single f n s iid eid m :
  im_ok f m → store_good m → im_ok f (im_of s) → store_good (im_of s) →
  Forall2 (entry_rel iid eid) (pool_endpoints m) (pool_endpoints (im_of s)) → n + 1 < 2 ^ 63 →
  (∃ w v, writer s = Some w ∧ w_sequence w <= n ∧ shows w v (published (w_max_entries w) m)) →
  ∃ s', shm_single iid eid s = (s', Ret tt) ∧ srv_ok f (n + 1) s' ∧ im_of s' = im_of s.
Proof.
  intros Hm Hg Hm' Hg' HF Hb (w & v & Hw & Hn & Hs).
  unfold shm_single, with_writer, mbind, M_bind, mmodify. rewrite Hw.
  destruct (single_shows w v _ (im_of s) iid eid Hs ltac:(lia) (pools_good f _ Hm' Hg'))
    as (w' & -> & Hs' & M & Q). simpl.
  destruct (im_ok_read f (im_of s) iid eid Hm') as [Hr _].
  assert (set_im (set_writer s (Some w')) (get_endpoint_workload (im_of (set_writer s (Some w'))) iid eid).2
    = set_writer s (Some w')) as ->.
  { change (im_of (set_writer s (Some w'))) with (im_of s). rewrite Hr.
    unfold im_of. by destruct s as [[] ? ? ?]. }
  exists (set_writer s (Some w')). split; [done|]. split; [|done].
  split; [done|]. split; [done|]. change (im_of (set_writer s (Some w'))) with (im_of s).
  unfold abs_step in Hs'. destruct (last_slot 0 (published (w_max_entries w) m) (iid, eid)) as [sl|] eqn:El.
  - destruct (published_insert f _ _ _ _ _ sl Hm' Hg' HF El) as (rl & wl & Hget & Hins).
    rewrite Hget, Hins in Hs'. exists w', v. simpl. rewrite M. split; [done|]. split; [lia|done].
  - exists w', (v + 1). simpl. rewrite M. split; [done|]. split; [lia|done].
Qed.

Lemma srv_update f n s iid eid w :
  srv_ok f n s → f64_valid (active_tokens w) → f64_valid (active_kv_cache w) → n + 1 < 2 ^ 63 →
  ∃ s1 s2, do_update iid eid w s = (s1, Ret true) ∧ shm_single iid eid s1 = (s2, Ret tt) ∧
    srv_ok f (n + 1) s2 ∧ im_of s2 = im_of s1.
Proof.
  intros (Hm & Hg & w0 & v & Hw & Hn & Hs) Hv1 Hv2 Hb. unfold do_update, sched_update_workload.
  destruct (tracks (policy (sched s))).
  - eexists _. destruct (srv_single f n (set_sched s (set_provider (sched s)
      (update_instance_workload (provider (sched s)) iid eid w))) iid eid (im_of s)) as (s2 & E & H & H').
    + done.
    + done.
    + by apply im_ok_workload.
    + by apply store_good_update.
    + by apply (update_entry_rel f).
    + done.
    + by exists w0, v.
    + exists s2. done.
  - exists s. destruct (srv_single f n s iid eid (im_of s)) as (s2 & E & H & H'); try done.
    + generalize (pool_endpoints (im_of s)). intros l. induction l; constructor; done.
    + by exists w0, v.
    + exists s2. destruct s. done.
Qed.

(** Every event keeps the mirror. *)
Definition static_from (st : ref → Instance) (m : InstanceManager) : Prop :=
  ∀ r, same_static (store m r) (st r).

Lemma static_from_update f st m iid eid w :
  im_ok f m → static_from st m → static_from st (update_instance_workload m iid eid w).
Proof.
  intros Hm Hs r. destruct (im_step_spec f m (ImWorkload iid eid w) Hm I) as (_ & _ & H).
  eapply same_static_trans; [apply (H r)|apply Hs].
Qed.

Lemma do_update_static f st s iid eid w b s1 :
  im_ok f (im_of s) → static_from st (im_of s) → do_update iid eid w s = (s1, b) →
  static_from st (im_of s1).
Proof.
  unfold do_update, sched_update_workload. intros Hm Hs.
  destruct (tracks _); intros [= <- _]; [|done]. by apply (static_from_update f).
Qed.

Definition srv_inv (f : Z → PDRole) (st : ref → Instance) (n : Z) (s : Server) : Prop :=
  srv_ok f n s ∧ static_from st (im_of s).

Lemma srv_inv_weaken f st n s : srv_inv f st n s → srv_inv f st (n + 1) s.
Proof.
  intros [(Hm & Hg & w & v & Hw & Hn & Hs) Hst]. split; [|done]. split; [done|]. split; [done|].
  exists w, v. split; [done|]. split; [lia|done].
Qed.

Lemma srv_charge f st n s iid eid w :
  srv_inv f st n s → f64_valid (active_tokens w) → f64_valid (active_kv_cache w) → n + 1 < 2 ^ 63 →
  ∃ s1 s2, do_update iid eid w s = (s1, Ret true) ∧ shm_single iid eid s1 = (s2, Ret tt) ∧
    srv_inv f st (n + 1) s2.
Proof.
  intros [Hs Hst] Hv1 Hv2 Hb. destruct (srv_update f n s iid eid w Hs Hv1 Hv2 Hb)
    as (s1 & s2 & E1 & E2 & Hok & Him).
  exists s1, s2. split; [done|]. split; [done|]. split; [done|]. rewrite Him.
  eapply do_update_static; [apply Hs|exact Hst|exact E1].
Qed.

Lemma srv_refresh f st n s ev rs :
  srv_inv f st n s → Forall (role_ok f st) rs → n + 1 < 2 ^ 63 →
  ∃ b x s1, sched_refresh_instances (sched s) ev rs = (x, Ret b) ∧
    (if b then ∃ s2, with_writer write_snapshot (set_sched s x) = (s2, Ret tt) ∧ s1 = (publish_instance_changed s2).1
     else s1 = set_sched s x) ∧ srv_inv f st (n + 1) s1.
Proof.
  intros [(Hm & Hg & w & v & Hw & Hn & Hs) Hst] Hrs Hb. unfold sched_refresh_instances.
  assert (Forall (role_ok f (store (provider (sched s)))) rs) as Hrs'.
  { eapply Forall_impl; [done|]. intros r. destruct (Hst r) as (H1 & H2 & _). unfold role_ok.
    unfold im_of in *. by rewrite H1, H2. }
  destruct (refresh_instances_spec f (im_of s) ev rs Hm Hrs') as (b & m' & E & Hm' & Hst').
  pose proof (preserves_good_refresh ev rs (im_of s) Hg) as Hg'. unfold im_of in *. rewrite E in *.
  simpl in Hg'. exists b, (set_provider (sched s) m').
  assert (static_from st m') as Hst2 by (intros r; eapply same_static_trans; [apply Hst'|apply Hst]).
  destruct b.
  - unfold with_writer. simpl. rewrite Hw. unfold im_of. simpl.
    destruct (snapshot_shows w m' v) as (w' & Hwr & Hs' & M & Q);
      [apply Hs|apply Hs|lia|by apply (pools_good f)|].
    rewrite Hwr. eexists. split; [done|]. split; [by eexists|]. split; [|done].
    split; [done|]. split; [done|]. exists w', (v + 1). unfold im_of. simpl. rewrite M.
    split; [done|]. split; [lia|done].
  - eexists. split; [done|]. split; [done|]. split; [|done]. split; [done|]. split; [done|].
    exists w, v. simpl. split; [done|]. split; [lia|]. unfold im_of. simpl.
    rewrite (same_pools_published _ (provider (sched s)) m'); [done|].
    by apply (refresh_false_same f ev rs).
Qed.

Lemma srv_step_inv f st n s e :
  srv_inv f st n s → n + 1 < 2 ^ 63 →
  match e with SrvRequest r => request_ok f st r | SrvHeartbeat => True end →
  srv_inv f st (n + 1) (server_step s e).
Proof.
  intros Hinv Hb He. pose proof (srv_inv_weaken f st n s Hinv) as Hw. destruct e as [r|].
  2: { destruct Hinv as [Hok Hst]. split; [by apply srv_ok_heartbeat|].
       destruct Hok as (_ & _ & w & v & Hwr & _ & Hs). simpl. unfold heartbeat_tick, with_writer.
       rewrite Hwr. by destruct (write_heartbeat w). }
  destruct He as [Hrs Hwl]. simpl. unfold handle_request, dispatch.
  destruct (request_type r).
  - unfold handle_allocate_only. destruct (data_instance_id r) as [iid|]; [|done].
    destruct (data_endpoint_id r) as [eid|]; [|done].
    destruct (data_workload r) as [| |w]; try done. destruct Hwl as [Hv1 Hv2].
    unfold mbind, M_bind, mget. destruct (has_instance_endpoint (im_of s) iid eid); [|done].
    destruct (srv_charge f st n s iid eid w Hinv Hv1 Hv2 Hb) as (s1 & s2 & E1 & E2 & Hs2).
    by rewrite E1, E2.
  - unfold handle_update_workload. destruct (data_instance_id r) as [iid|]; [|done].
    destruct (data_endpoint_id r) as [eid|]; [|done].
    destruct (data_workload r) as [| |w]; try done. destruct Hwl as [Hv1 Hv2].
    unfold mbind, M_bind, mlift. destruct (WorkloadAction_of_string _); [|done].
    destruct (match truthy _ with Some _ => _ | None => _ end); [|done].
    destruct (srv_charge f st n s iid eid w Hinv Hv1 Hv2 Hb) as (s1 & s2 & E1 & E2 & Hs2).
    by rewrite E1, E2.
  - unfold handle_get_available_instances, mbind, M_bind, mlift, mget.
    destruct (match truthy _ with Some _ => _ | None => _ end); done.
  - unfold handle_refresh_instances, mbind, M_bind, mlift.
    destruct (match truthy _ with Some _ => _ | None => _ end) as [[ev|]|]; try done.
    destruct (srv_refresh f st n s ev (omap id (data_instances r)) Hinv Hrs Hb)
      as (b & x & s1 & E & Hb1 & Hs1). rewrite E. destruct b.
    + destruct Hb1 as (s2 & -> & ->). done.
    + by subst s1.
  - done.
Qed.

Lemma srv_run_inv f st es n s :
  srv_inv f st n s → n + Z.of_nat (length es) < 2 ^ 63 →
  Forall (λ e, match e with SrvRequest r => request_ok f st r | SrvHeartbeat => True end) es →
  ∃ n', srv_inv f st n' (server_run s es).
Proof.
  revert n s. induction es as [|e es IH]; intros n s Hs Hn He; [by exists n|].
  apply Forall_cons in He as [He Hes]. change (length (e :: es)) with (S (length es)) in Hn.
  apply (IH (n + 1)); [|lia|done]. by apply srv_step_inv; [|lia|].
Qed.

Lemma srv_start_inv f st mgmt t d max name :
  (∀ r, inst_good (st r)) → Z.of_nat max < 2 ^ 32 →
  srv_inv f st 1 (start (Scheduler_init (InstanceManager_init st mgmt) t d) max name).
Proof.
  intros Hg Hmax. unfold start, with_writer. cbn [writer].
  set (m0 := InstanceManager_init st mgmt). set (w0 := Writer_init _ max).
  assert (writer_wf w0) as Hw0.
  { unfold writer_wf, w0. cbn [Writer_init buf w_max_entries w_sequence].
    rewrite length_replicate. split_and!; [done|done|lia]. }
  destruct (snapshot_shows w0 m0 0 Hw0 eq_refl ltac:(done)) as (w1 & E & Hs & M & Q).
  { apply (pools_good f); [apply im_ok_init|exact Hg]. }
  unfold im_of. cbn [sched provider Scheduler_init]. fold m0. rewrite E. split; [|done].
  split; [apply im_ok_init|]. split; [exact Hg|]. exists w1, (0 + 1). simpl. rewrite M, Q.
  split; [done|]. split; [done|exact Hs].
Qed.

Lemma do_update_known f s iid eid w s1 b :
  im_ok f (im_of s) → do_update iid eid w s = (s1, b) →
  has_instance_endpoint (im_of s) iid eid = true → has_instance_endpoint (im_of s1) iid eid = true.
Proof.
  intros Hm. unfold do_update, sched_update_workload. destruct (tracks _); intros [= <- _]; [|done].
  unfold im_of, has_instance_endpoint in *. cbn [sched set_sched provider set_provider].
  assert (available_pool (update_instance_workload (provider (sched s)) iid eid w)
    = available_pool (provider (sched s))) as ->.
  { unfold update_instance_workload, lookup_workload, ensure_ep_cache. repeat case_match; simplify_eq/=; done. }
  destruct (dget (available_pool (provider (sched s))) iid) as [r|] eqn:Ha; [|done].
  assert (endpoint_id_cache (update_instance_workload (provider (sched s)) iid eid w)
    = endpoint_id_cache (provider (sched s))) as ->.
  { unfold update_instance_workload, lookup_workload. rewrite Ha, (im_ok_ensure f _ iid r Hm Ha).
    by destruct (dget _ eid). }
  destruct (ok_available f _ Hm _ _ Ha) as (_ & _ & _ & _ & ->). done.
Qed.

(** A known endpoint is found again for the answer. *)
Lemma find_allocated_spec f m iid eid :
  im_ok f m → has_instance_endpoint m iid eid = true →
  ∃ r i e, dget (available_pool m) iid = Some r ∧ i = serialize_instance_minimal (store m r) ∧
    im_id i = iid ∧ find_allocated m iid eid = Some (i, Some (serialize_endpoint_minimal e)) ∧
    ep_id e = eid ∧ e ∈ endpoints_flat (store m r).
Proof.
  intros Hm. unfold has_instance_endpoint. destruct (dget (available_pool m) iid) as [r|] eqn:Ha; [|done].
  destruct (ok_available f m Hm _ _ Ha) as (Hi & Hr & Hp & _ & Hc). rewrite Hc. intros [x Hx]%dhas_true.
  assert (∃ ip pod k e, (ip, pod) ∈ endpoints (store m r) ∧ (k, e) ∈ pod ∧ ep_id e = eid)
    as (ip & pod & k & e0 & Hip & Hk & He0).
  { clear -Hx. unfold build_ep_cache in Hx.
    assert (dget ([] : dict Z epref) eid ≠ Some x) as Hacc by done. revert Hx Hacc.
    generalize ([] : dict Z epref). induction (endpoints (store m r)) as [|[ip pod] d IH]; intros acc Hx Hacc; [done|].
    simpl in Hx. destruct (decide (dget (pod_ep_cache r ip acc pod) eid = Some x)) as [H|H].
    - apply ep_cache_pod_deref in H as [(k & e & -> & Hin & He)|H]; [|done].
      exists ip, pod, k, e. split_and!; try done. left.
    - destruct (IH _ Hx H) as (ip' & pod' & k & e & ? & ? & ?). exists ip', pod', k, e.
      split_and!; try done. by right. }
  set (l := omap (λ pod, List.find (λ e, ep_id e =? eid) (dvalues pod)) (dvalues (endpoints (store m r)))).
  assert (∀ e, e ∈ l → ep_id e = eid ∧ e ∈ endpoints_flat (store m r)) as Hl.
  { intros e (pod' & Hp' & Hf)%list_elem_of_omap. apply List.find_some in Hf as [Hin Heq%Z.eqb_eq].
    split; [done|]. apply in_dvalues in Hp' as [ip' Hip']. apply list_elem_of_In, in_dvalues in Hin as [k' Hk'].
    apply elem_of_flat. by exists ip', pod', k'. }
  assert (∃ e, last l = Some e ∧ ep_id e = eid ∧ e ∈ endpoints_flat (store m r)) as (e & Hlast & He & Hin).
  { destruct (last l) as [e|] eqn:El; [exists e; split; [done|]; by apply Hl, last_Some_elem_of|].
    apply last_None in El. exfalso.
    destruct (List.find (λ e, ep_id e =? eid) (dvalues pod)) as [e|] eqn:Ef.
    - assert (e ∈ l) as Hin; [|rewrite El in Hin; by apply elem_of_nil in Hin].
      apply list_elem_of_omap. exists pod. split; [|done]. apply in_dvalues. by exists ip.
    - eapply List.find_none in Ef; [|apply list_elem_of_In, in_dvalues; by exists k]. simpl in Ef. lia. }
  exists r, (serialize_instance_minimal (store m r)), e. split_and!; try done.
  assert (∀ rl, rl ≠ f iid → dget (role_pool m rl) iid = None) as Hother.
  { intros rl Hne. destruct (dget (role_pool m rl) iid) as [r'|] eqn:E; [|done].
    by apply (ok_role f m Hm) in E as [-> _]. }
  unfold find_allocated. simpl.
  pose proof (Hother ROLE_P) as HP. pose proof (Hother ROLE_D) as HD. pose proof (Hother ROLE_U) as HU.
  simpl in HP, HD, HU. destruct (f iid); simpl in Hp; rewrite ?Hp.
  - fold l. rewrite Hlast. done.
  - rewrite HP by done. fold l. rewrite Hlast. done.
  - rewrite HP, HD by done. fold l. by rewrite Hlast.
Qed.

(** Properties *)

(** C1: the shared memory mirrors the pools.  From the start of the scheduler process,
    after any sequence of client requests (allocations, workload updates, instance
    queries, refreshes, malformed and unknown requests) and heartbeats, a worker that
    reads the shared memory sees exactly the available instances' endpoints with
    their current workloads, up to the capacity, for every scheduling policy; no
    handler leaves the buffer behind the pools. *)
Theorem shm_mirrors_pools {C} (patch : C → Z → Z → PDRole → f64 → f64 → C) f st mgmt t d max name es rd now c :
  (∀ r, inst_good (st r)) → Z.of_nat max < 2 ^ 32 → Z.of_nat (length es) < 2 ^ 62 →
  Forall (λ e, match e with SrvRequest r => request_ok f st r | SrvHeartbeat => True end) es →
  let s := server_run (start (Scheduler_init (InstanceManager_init st mgmt) t d) max name) es in
  ∃ w version stale rd', writer s = Some w ∧
    read_and_patch_cache patch rd (Some (buf w)) now c
      = ((Some version, stale), rd',
         fold_left (patch_entry patch) (published (w_max_entries w) (im_of s)) c).
Proof.
  intros Hg Hmax Hlen He s.
  destruct (srv_run_inv f st es 1 _ (srv_start_inv f st mgmt t d max name Hg Hmax) ltac:(lia) He)
    as [n [(Hm & _ & w & v & Hw & _ & Hs) _]]. fold s in Hm, Hw, Hs.
  destruct (read_shows patch w v _ rd now c Hs) as (stale & r' & Hr).
  exists w, (v mod 2 ^ 64), stale, r'. done.
Qed.

(** Every object of the sample store is well formed when ids fit. *)
Lemma sample_inst_good id r : int32 id → inst_good (sample_instance id r).
Proof.
  intros H. split; [|split; [|split]]; [| |done|].
  - split; simpl; repeat constructor; set_solver.
  - repeat constructor; set_solver.
  - repeat constructor; simpl; unfold int32; lia.
Qed.

(** Two prefill and decode objects, whatever the address. *)
Definition small_store (r : ref) : Instance :=
  sample_instance (Z.of_nat (r mod 8)) (if Nat.even (r mod 8) then "prefill" else "decode").

Lemma small_store_good r : inst_good (small_store r).
Proof. apply sample_inst_good. unfold int32. pose proof (Nat.mod_upper_bound r 8). lia. Qed.

(** A refresh and an allocation, as the witnesses send them. *)
Definition sample_refresh : SchedulerRequest :=
  mkRequest REFRESH_INSTANCES "q0" None None None None RawMissing (Some "add"%string) [Some 2%nat; None; Some 3%nat].
Definition sample_allocate : SchedulerRequest :=
  mkRequest ALLOCATE_ONLY "q1" (Some 2) (Some 1) (Some "prefill"%string) None
    (RawWorkload (mkWorkload (f_of_Z 3) (f_of_Z 4))) None [].

Lemma shm_mirrors_pools_witness :
  let s := server_run (start (Scheduler_init (InstanceManager_init small_store false) LOAD_BALANCE None) 3 "shm")
             [SrvRequest sample_refresh; SrvHeartbeat; SrvRequest sample_allocate] in
  ∃ w version stale rd', writer s = Some w ∧
    read_and_patch_cache (λ (l : list (Z * Z)) a b _ _ _, (a, b) :: l) Reader_init (Some (buf w)) f0 []
      = ((Some version, stale), rd',
         fold_left (patch_entry (λ l a b _ _ _, (a, b) :: l)) (published (w_max_entries w) (im_of s)) []).
Proof.
  apply (shm_mirrors_pools (λ (l : list (Z * Z)) a b _ _ _, (a, b) :: l) sample_roles small_store false
    LOAD_BALANCE None 3 "shm" [SrvRequest sample_refresh; SrvHeartbeat; SrvRequest sample_allocate]
    Reader_init f0 []).
  - apply small_store_good.
  - reflexivity.
  - reflexivity.
  - repeat constructor.
Defined.

(** What an allocation request does.  On a server whose pools are consistent, an
    ALLOCATE_ONLY naming an endpoint of the available pool is answered with the
    instance and endpoint, and charges the endpoint exactly if the policy tracks
    workload (load balance does, round-robin and KV-cache affinity do not); naming
    anything else is answered with nothing and changes nothing; a request without
    ids or workload is an error and changes nothing. *)
Theorem allocate_only_outcomes f st n s r :
  srv_inv f st n s → n + 1 < 2 ^ 63 → request_ok f st r → request_type r = ALLOCATE_ONLY →
  let '(s', rsp) := handle_request s r in
  rsp_request_id rsp = request_id r ∧
  match data_instance_id r, data_endpoint_id r, data_workload r with
  | Some iid, Some eid, RawWorkload w =>
      if has_instance_endpoint (im_of s) iid eid then
        (∃ i e, rsp_data rsp = RspAllocated (Some (i, Some e)) ∧ im_id i = iid ∧ em_id e = eid) ∧
        ep_workload (im_of s') iid eid =
          (λ x, if tracks (policy (sched s)) then workload_iadd x w else x) <$> ep_workload (im_of s) iid eid
      else rsp_data rsp = RspAllocated None ∧ s' = s
  | _, _, _ => rsp_data rsp = RspError ∧ s' = s
  end.
Proof.
  intros Hinv Hb [_ Hwl] Ht. unfold handle_request, dispatch. rewrite Ht. unfold handle_allocate_only.
  destruct (data_instance_id r) as [iid|]; [|done]. destruct (data_endpoint_id r) as [eid|]; [|done].
  destruct (data_workload r) as [| |w]; try done. destruct Hwl as [Hv1 Hv2].
  unfold mbind, M_bind, mget. destruct (has_instance_endpoint (im_of s) iid eid) eqn:Eh; [|done].
  destruct Hinv as [Hok Hst]. destruct (srv_update f n s iid eid w Hok Hv1 Hv2 Hb)
    as (s1 & s2 & E1 & E2 & Hok2 & Him). rewrite E1, E2. simpl. split; [done|].
  assert (has_instance_endpoint (im_of s2) iid eid = true) as Hh.
  { rewrite Him. by apply (do_update_known f s iid eid w s1 (Ret true)); [apply Hok| |]. }
  destruct (find_allocated_spec f (im_of s2) iid eid (proj1 Hok2) Hh)
    as (r0 & i & e & _ & -> & Hi & -> & He & _).
  split; [by eexists _, _|]. rewrite Him. unfold do_update, sched_update_workload in E1.
  destruct (tracks (policy (sched s))); injection E1 as <-.
  - destruct Hok as (Hm & Hg & _).
    destruct (update_workload_effect f (im_of s) iid eid w Hm (λ id r _, proj1 (Hg r))) as (_ & _ & _ & Heff).
    etransitivity; [apply Heff|]. by rewrite !Z.eqb_refl.
  - change (im_of (set_sched s (sched s))) with (im_of s). by destruct (ep_workload (im_of s) iid eid).
Qed.

Lemma allocate_only_outcomes_witness :
  let s := server_run (start (Scheduler_init (InstanceManager_init small_store false) ROUND_ROBIN None) 3 "shm")
             [SrvRequest sample_refresh] in
  let '(s', rsp) := handle_request s sample_allocate in
  rsp_request_id rsp = "q1"%string.
Proof.
  cbv zeta. set (s := server_run _ _).
  assert (srv_inv sample_roles small_store 2 s) as Hs.
  { apply (srv_step_inv sample_roles small_store 1 _ (SrvRequest sample_refresh)).
    - apply srv_start_inv; [apply small_store_good|reflexivity].
    - lia.
    - repeat constructor. }
  assert (2 + 1 < 2 ^ 63) as Hb by lia.
  assert (request_ok sample_roles small_store sample_allocate) as Hr by repeat constructor.
  clearbody s.
  pose proof (allocate_only_outcomes sample_roles small_store 2 s sample_allocate Hs Hb Hr eq_refl) as H.
  destruct (handle_request s sample_allocate) as [s' rsp]. apply H.
Defined.
