(* ===== verification/SchedulerClient.v ===== *)
(** * The worker's scheduler client

    Models [coordinator/scheduler/runtime/scheduler_client.py]: the instance cache
    patched from shared memory, local selection with per-worker staggering, the
    ALLOCATE_ONLY and UPDATE_WORKLOAD calls, cache refresh by version, and the
    transport's table of pending requests.  The replies of the scheduler are an
    input: each call takes the next element of [inbox] (no reply is [None]).
    Sockets are left out. *)

From stdpp Require Import sorting base option list strings sets numbers.
From Stdlib Require Import ZArith Lia.
From stdpp Require Import base list.
From S2P Require Import Prelude Float64 Resources Policies RequestManager CoordInstanceManager WorkloadShm SchedulerServer.
Open Scope Z_scope.

(** ** _SchedulerInstanceCache *)

(** The cached lists, maps and endpoint map share the decoded objects; [cnext] is the
    first store address not used yet. *)
Record Cache := mkCache {
  cstore : ref → Instance;
  cnext : ref;
  instance_cache : PDRole → list ref;
  instance_map : PDRole → dict Z ref;
  endpoint_map : dict (Z * Z) epref
}.

Definition Cache_init (st : ref → Instance) : Cache := mkCache st 0 (λ _, []) (λ _, []) [].

Definition set_cstore (c : Cache) st : Cache :=
  mkCache st (cnext c) (instance_cache c) (instance_map c) (endpoint_map c).

Definition upd {A} (g : PDRole → A) (r : PDRole) (a : A) : PDRole → A :=
  λ r', if decide (r' = r) then a else g r'.

Definition get_instances (c : Cache) (r : PDRole) : list ref := instance_cache c r.

(** [self._endpoint_map[(inst.id, ep.id)] = ep] over the pods of an instance. *)
Definition map_endpoints (c : Cache) (r : ref) (em : dict (Z * Z) epref) : dict (Z * Z) epref :=
  fold_left (λ acc '(ip, pod),
    fold_left (λ acc '(k, e), dset acc (ins_id (cstore c r), ep_id e) (r, (ip, k))) pod acc)
    (endpoints (cstore c r)) em.

(** [_apply_role_under_lock], the body of [replace_all]. *)
Definition replace_all (c : Cache) (rl : PDRole) (rs : list ref) : Cache :=
  let old_ids := dkeys (instance_map c rl) in
  let map' := fold_left (λ acc r, dset acc (ins_id (cstore c r)) r) rs [] in
  let em1 := fold_left (λ acc k, if decide (k.1 ∈ old_ids) then ddel acc k else acc)
               (dkeys (endpoint_map c)) (endpoint_map c) in
  let em2 := fold_left (λ acc r, map_endpoints c r acc) rs em1 in
  mkCache (cstore c) (cnext c) (upd (instance_cache c) rl rs) (upd (instance_map c) rl map') em2.

Definition set_ep_workload_at (i : Instance) (p : eptr) (w : Workload) : Instance :=
  match deref i p, dget (endpoints i) p.1 with
  | Some e, Some pod =>
      set_endpoints i (dset (endpoints i) p.1 (dset pod p.2 (set_ep_workload e w)))
  | _, _ => i
  end.

(** The endpoint's workload is replaced, then the instance's is summed again. *)
Definition patch_workload_from_shm (c : Cache) (instance_id endpoint_id : Z) (rl : PDRole)
    (tokens kv : f64) : Cache :=
  match dget (instance_map c rl) instance_id, dget (endpoint_map c) (instance_id, endpoint_id) with
  | Some r, Some (re, p) =>
      let st1 := store_set (cstore c) re (set_ep_workload_at (cstore c re) p (mkWorkload kv tokens)) in
      let gathered := fold_left (λ acc '((iid, eid), (re, p)),
        if iid =? instance_id
        then match deref (st1 re) p with Some e => workload_iadd acc (workload e) | None => acc end
        else acc) (endpoint_map c) Workload0 in
      set_cstore c (store_set st1 r (set_gathered (st1 r) gathered))
  | _, _ => c
  end.

(** [_collect_active_endpoints_from_cache]. *)
Definition collect_active_endpoints (c : Cache) : list (string * string) :=
  concat (map (λ rl, concat (map (λ r,
    omap (λ e, if decide (ep_status e = EP_NORMAL) then Some (ep_ip e, business_port e) else None)
      (endpoints_flat (cstore c r))) (get_instances c rl))) [ROLE_P; ROLE_D; ROLE_U]).

(** ** AsyncSchedulerClient *)

Record Client := mkClient {
  client_index : Z;
  client_count : Z;
  client_deploy_mode : option DeployMode;
  scheduler_type : string;
  cache : Cache;
  instance_rr : dict PDRole Z;
  endpoint_rr : dict Z Z;
  workload_reader : option (string * Reader);
  last_instance_version : option Z;
  inbox : list (option SchedulerResponse);
  outbox : list SchedulerRequest;
  refreshed_calls : list (list (string * string))
}.

Definition Client_init (idx count : Z) (d : option DeployMode) (t : option string)
    (st : ref → Instance) (replies : list (option SchedulerResponse)) : Client :=
  mkClient (Z.max 0 idx) (Z.max 1 count) d (default "round_robin"%string (truthy t)) (Cache_init st)
    [] [] None None replies [] [].

Definition set_cache_of (s : Client) c : Client :=
  mkClient (client_index s) (client_count s) (client_deploy_mode s) (scheduler_type s) c
    (instance_rr s) (endpoint_rr s) (workload_reader s) (last_instance_version s) (inbox s) (outbox s)
    (refreshed_calls s).
Definition set_instance_rr (s : Client) d : Client :=
  mkClient (client_index s) (client_count s) (client_deploy_mode s) (scheduler_type s) (cache s)
    d (endpoint_rr s) (workload_reader s) (last_instance_version s) (inbox s) (outbox s)
    (refreshed_calls s).
Definition set_endpoint_rr (s : Client) d : Client :=
  mkClient (client_index s) (client_count s) (client_deploy_mode s) (scheduler_type s) (cache s)
    (instance_rr s) d (workload_reader s) (last_instance_version s) (inbox s) (outbox s)
    (refreshed_calls s).
Definition set_reader (s : Client) r : Client :=
  mkClient (client_index s) (client_count s) (client_deploy_mode s) (scheduler_type s) (cache s)
    (instance_rr s) (endpoint_rr s) r (last_instance_version s) (inbox s) (outbox s)
    (refreshed_calls s).
Definition set_version (s : Client) v : Client :=
  mkClient (client_index s) (client_count s) (client_deploy_mode s) (scheduler_type s) (cache s)
    (instance_rr s) (endpoint_rr s) (workload_reader s) v (inbox s) (outbox s)
    (refreshed_calls s).
Definition set_boxes (s : Client) i o : Client :=
  mkClient (client_index s) (client_count s) (client_deploy_mode s) (scheduler_type s) (cache s)
    (instance_rr s) (endpoint_rr s) (workload_reader s) (last_instance_version s) i o
    (refreshed_calls s).
Definition log_refreshed (s : Client) l : Client :=
  mkClient (client_index s) (client_count s) (client_deploy_mode s) (scheduler_type s) (cache s)
    (instance_rr s) (endpoint_rr s) (workload_reader s) (last_instance_version s) (inbox s) (outbox s)
    (refreshed_calls s ++ [l]).

(** What a call sees of the outside: the clock, the shared memory behind a name
    ([None]: no such segment), the conductor's answer, a fresh request id, and whether
    the [on_instance_refreshed] callback is configured. *)
Record Env := mkEnv {
  env_now : f64;
  env_shm : string → option bytes;
  env_tenant : option (dict Z kv_entry);
  env_uuid : string;
  env_has_callback : bool
}.

Definition id_le (st : ref → Instance) (a b : ref) : Prop := ins_id (st a) <= ins_id (st b).
#[global] Instance id_le_dec st a b : Decision (id_le st a b).
Proof. unfold id_le. apply _. Defined.

Section client.
Context (env : Env).

(** One request over the transport. *)
Definition rpc (r : SchedulerRequest) : M Client (option SchedulerResponse) := λ s,
  match inbox s with
  | [] => (set_boxes s [] (outbox s ++ [r]), Ret None)
  | x :: rest => (set_boxes s rest (outbox s ++ [r]), Ret x)
  end.

(** *** Selection *)

Definition start_offset (s : Client) (n : Z) : Z := (n * client_index s) / client_count s.

Definition is_load_policy (t : string) : bool :=
  bool_decide (t = "load_balance"%string ∨ t = "kv_cache_affinity"%string).

Definition select_endpoint_for_instance (r : ref) : M Client (option (ref * eptr)) := λ s,
  let st := cstore (cache s) in
  let '(all, i1) := get_all_endpoints (st r) in
  let put i s := set_cache_of s (set_cstore (cache s) (store_set (cstore (cache s)) r i)) in
  match all with
  | [] => (put i1 s, Ret None)
  | p0 :: _ =>
      if is_load_policy (scheduler_type s) then
        let '(p, i2) := lb_select_endpoint_from_instance i1 in
        (put i2 s, Ret (Some (r, default p0 p)))
      else
        let '(p, i2, cs) := rr_select_endpoint_from_instance i1 (endpoint_rr s) in
        (set_endpoint_rr (put i2 s) cs, Ret ((λ p, (r, p)) <$> p))
  end.

(** The object an instance value of the list stands for. *)
Definition find_ref (st : ref → Instance) (rs : list ref) (i : Instance) : option ref :=
  List.find (λ r, ins_id (st r) =? ins_id i) rs.

Definition select_by_load_balance (rs : list ref) : M Client (option ref) := λ s,
  let st := cstore (cache s) in
  let start := match rs with [] => 0 | _ => start_offset s (Z.of_nat (length rs)) end in
  (s, Ret (i ← lb_select_instance_from_list (st <$> rs) start; find_ref st rs i)).

Definition select_by_round_robin (rs : list ref) (rl : PDRole) : M Client (option ref) := λ s,
  let st := cstore (cache s) in
  let cs := if dhas (instance_rr s) rl then instance_rr s else dset (instance_rr s) rl 0 in
  let offset := match rs with [] => 0 | _ => start_offset s (Z.of_nat (length rs)) end in
  let counter := default 0 (dget cs rl) in
  let '(sel, next) := rr_select_instance_from_list (st <$> rs) (counter + offset) in
  (set_instance_rr s (dset cs rl (next - offset)), Ret (i ← sel; find_ref st rs i)).

(** [_select_instance_and_endpoint_from_list]. *)
Definition select_from_list (rs : list ref) (rl : PDRole) : M Client (option (ref * eptr)) :=
  s ← mget;
  let rr :=
    sel ← select_by_round_robin rs rl;
    match sel with None => mret None | Some r => select_endpoint_for_instance r end in
  let lb_then_rr :=
    sel ← select_by_load_balance rs;
    match sel with Some r => select_endpoint_for_instance r | None => rr end in
  match rs with
  | [] => mret None
  | _ =>
      if decide (scheduler_type s = "load_balance"%string) then lb_then_rr
      else if decide (scheduler_type s = "kv_cache_affinity"%string) then
        match rl with
        | ROLE_P =>
            match kv_select_endpoint_from_list (cstore (cache s) <$> rs) (env_tenant env) with
            | Some (i, p) =>
                match find_ref (cstore (cache s)) rs i with
                | Some r => mret (Some (r, p))
                | None => mret None
                end
            | None => lb_then_rr
            end
        | _ => lb_then_rr
        end
      else rr
  end.

(** *** Cache refresh *)

(** Decoding allocates an object per instance. *)
Definition alloc_instance (i : Instance) : M Client ref := λ s,
  let c := cache s in
  (set_cache_of s (mkCache (store_set (cstore c) (cnext c) i) (S (cnext c)) (instance_cache c)
                     (instance_map c) (endpoint_map c)), Ret (cnext c)).

Fixpoint decode_instances (l : list Instance) (acc : dict Z ref) : M Client (dict Z ref) :=
  match l with
  | [] => mret acc
  | i :: l => r ← alloc_instance i; decode_instances l (dset acc (ins_id i) r)
  end.

Definition sort_by_id (st : ref → Instance) (rs : list ref) : list ref :=
  merge_sort (id_le st) rs.

(** The role strings of the client's table; "hybrid" counts as ROLE_U. *)
Definition client_role (s : string) : option PDRole :=
  if decide (s = "prefill"%string) then Some ROLE_P
  else if decide (s = "decode"%string) then Some ROLE_D
  else if decide (s = "both"%string) then Some ROLE_U
  else if decide (s = "hybrid"%string) then Some ROLE_U
  else None.

Definition store_fetched (rl : option PDRole) (instances : dict Z ref) : M Client unit :=
  mmodify (λ s,
    let c := cache s in
    let st := cstore c in
    match instances with
    | [] => s
    | _ =>
        match rl with
        | Some rl => set_cache_of s (replace_all c rl (sort_by_id st (dvalues instances)))
        | None =>
            let of_role rl := filter (λ r, client_role (role (st r)) = Some rl) (dvalues instances) in
            set_cache_of s
              (fold_left (λ c rl, replace_all c rl (sort_by_id st (of_role rl)))
                 [ROLE_P; ROLE_D; ROLE_U] c)
        end
    end).

(** Attach to the named segment when it is not the one in use. *)
Definition attach_reader (name : option string) : M Client unit :=
  mmodify (λ s,
    match truthy name with
    | None => s
    | Some n =>
        if decide (fst <$> workload_reader s = Some n) then s
        else match env_shm env n with
             | None => set_reader s None
             | Some _ => set_version (set_reader s (Some (n, Reader_init))) None
             end
    end).

Definition get_request (rl : option PDRole) : SchedulerRequest :=
  mkRequest GET_AVAILABLE_INSTANCES (env_uuid env) None None (PDRole_value <$> rl) None RawMissing None [].

Definition get_available_instances (rl : option PDRole) : M Client (dict Z ref) :=
  rsp ← rpc (get_request rl);
  match rsp with
  | Some rsp =>
      match rsp_data rsp with
      | RspInstances l name =>
          instances ← decode_instances l [];
          attach_reader name ;;
          store_fetched rl instances ;;
          mret instances
      | RspError => mret []
      | _ => mret []
      end
  | None => mret []
  end.

(** *** Requests *)

Definition select_instance_and_endpoint (rl : option PDRole) : M Client (option (ref * eptr)) :=
  let cache_role := default ROLE_U rl in
  s ← mget;
  sel ← match get_instances (cache s) cache_role with
        | [] => mret None
        | cached => select_from_list cached cache_role
        end;
  match sel with
  | Some x => mret (Some x)
  | None =>
      instances ← get_available_instances rl;
      match instances with
      | [] => mret None
      | _ => s ← mget;
             select_from_list (sort_by_id (cstore (cache s)) (dvalues instances)) cache_role
      end
  end.

Definition notify_refreshed : M Client unit :=
  mmodify (λ s, let active := collect_active_endpoints (cache s) in
                if env_has_callback env && bool_decide (active ≠ []) then log_refreshed s active else s).

(** The shared-memory step at the head of [select_and_allocate]. *)
Definition sync_from_shm : M Client unit :=
  s ← mget;
  match workload_reader s with
  | None => mret tt
  | Some (name, rd) =>
      let '((version, stale), rd', c) :=
        read_and_patch_cache patch_workload_from_shm rd (env_shm env name) (env_now env) (cache s) in
      mmodify (λ s, set_reader (set_cache_of s c) (Some (name, rd'))) ;;
      let refetch := get_available_instances None ;;
                     mmodify (λ s, set_version s version) ;; notify_refreshed in
      if stale then refetch
      else match version with
           | None => mret tt
           | Some v =>
               match last_instance_version s with
               | Some v0 => if decide (v = v0) then mmodify (λ s, set_version s (Some v)) else refetch
               | None => mmodify (λ s, set_version s (Some v))
               end
           end
  end.

Definition allocate_request (i : Instance) (e : Endpoint) (rl : PDRole) (id : string) (w : Workload)
    : SchedulerRequest :=
  mkRequest ALLOCATE_ONLY (env_uuid env) (Some (ins_id i)) (Some (ep_id e)) (Some (PDRole_value rl)) None
    (RawWorkload w) None [].

Definition select_and_allocate (rl : PDRole) (id : string) (len : Z)
    : M Client (option (instance_minimal * endpoint_minimal * Workload)) :=
  sync_from_shm ;;
  selected ← select_instance_and_endpoint (Some rl);
  match selected with
  | None => mret None
  | Some (r, p) =>
      s ← mget;
      let i := cstore (cache s) r in
      match deref i p with
      | None => mraise AttributeError
      | Some e =>
          let w := if decide (scheduler_type s = "round_robin"%string) then Workload0
                   else calculate_demand_workload rl len in
          rsp ← rpc (allocate_request i e rl id w);
          match rsp with
          | Some rsp =>
              match rsp_data rsp with
              | RspAllocated (Some (im, Some em)) => mret (Some (im, em, w))
              | _ => mret None
              end
          | None => mret None
          end
      end
  end.

Definition WorkloadAction_value (a : WorkloadAction) : string :=
  match a with
  | ALLOCATION => "Allocation" | RELEASE_KV => "Release_KV" | RELEASE_TOKENS => "Release_Tokens"
  end.

Definition client_update_workload (instance_id endpoint_id : Z) (rl : PDRole) (a : WorkloadAction)
    (w : Workload) : M Client bool :=
  rsp ← rpc (mkRequest UPDATE_WORKLOAD (env_uuid env) (Some instance_id) (Some endpoint_id)
               (Some (PDRole_value rl)) (Some (WorkloadAction_value a)) (RawWorkload w) None []);
  match rsp with
  | Some rsp => match rsp_data rsp with RspUpdate b => mret b | _ => mret false end
  | None => mret false
  end.

Definition client_status (s : Client) : InstanceReadiness :=
  let mode := default PD_SEPARATE (client_deploy_mode s) in
  let has rl := negb (bool_decide (get_instances (cache s) rl = [])) in
  match mode with
  | SINGLE_NODE => if has ROLE_U then REQUIRED_MET else READY_NONE
  | _ => if has ROLE_P && has ROLE_D then REQUIRED_MET
         else if has ROLE_P then ONLY_PREFILL else if has ROLE_D then ONLY_DECODE else READY_NONE
  end.

Definition client_has_required_instances : M Client InstanceReadiness :=
  s ← mget;
  if is_ready (client_status s) then mret (client_status s)
  else get_available_instances None ;; s' ← mget; mret (client_status s').

(** [_on_instance_change_notify]. *)
Definition on_instance_change_notify (version : option Z) : M Client unit :=
  s ← mget;
  if decide (version ≠ None ∧ version = last_instance_version s) then mret tt
  else
    get_available_instances None ;;
    mmodify (λ s, match version with Some v => set_version s (Some v) | None => s end) ;;
    notify_refreshed.
End client.

(** ** _SchedulerTransport: pending requests

    Per request id, whether the waiter's event is set ([None]: the waiter timed out)
    and when it was sent; and the responses not yet collected. *)
Record Transport := mkTransport {
  pending_requests : dict string (option bool * f64);
  pending_responses : dict string SchedulerResponse;
  cleanup_delay : f64
}.

Definition Transport_init (timeout : f64) : Transport :=
  mkTransport [] [] (fmul timeout (f_of_Z 2)).

Definition set_pending (t : Transport) p r : Transport := mkTransport p r (cleanup_delay t).

Definition t_send (t : Transport) (id : string) (now : f64) : Transport :=
  set_pending t (dset (pending_requests t) id (Some false, now)) (pending_responses t).

(** The waiter gives up. *)
Definition t_timeout (t : Transport) (id : string) (sent : f64) : Transport :=
  if dhas (pending_requests t) id
  then set_pending t (dset (pending_requests t) id (None, sent)) (pending_responses t) else t.

(** The waiter resumes with its event set. *)
Definition t_wake (t : Transport) (id : string) : option SchedulerResponse * Transport :=
  match dget (pending_requests t) id with
  | Some (ev, _) =>
      (if decide (ev = Some true) then dget (pending_responses t) id else None,
       set_pending t (ddel (pending_requests t) id) (ddel (pending_responses t) id))
  | None => (None, set_pending t (pending_requests t) (ddel (pending_responses t) id))
  end.

Definition t_cancel (t : Transport) (id : string) : Transport :=
  set_pending t (ddel (pending_requests t) id) (ddel (pending_responses t) id).

(** The receive loop on one response. *)
Definition t_receive (t : Transport) (r : SchedulerResponse) (now : f64) : Transport :=
  let id := rsp_request_id r in
  match dget (pending_requests t) id with
  | None => set_pending t (pending_requests t) (ddel (pending_responses t) id)
  | Some (None, sent) =>
      if fgt (fsub now sent) (cleanup_delay t)
      then set_pending t (ddel (pending_requests t) id) (ddel (pending_responses t) id) else t
  | Some (Some false, sent) =>
      set_pending t (dset (pending_requests t) id (Some true, sent))
        (dset (pending_responses t) id r)
  | Some (Some true, _) => set_pending t (pending_requests t) (ddel (pending_responses t) id)
  end.

Inductive transport_op :=
| TSend (id : string) (now : f64)
| TTimeout (id : string) (sent : f64)
| TWake (id : string)
| TCancel (id : string)
| TReceive (r : SchedulerResponse) (now : f64).

Definition t_op (t : Transport) (o : transport_op) : Transport :=
  match o with
  | TSend id now => t_send t id now
  | TTimeout id sent => t_timeout t id sent
  | TWake id => (t_wake t id).2
  | TCancel id => t_cancel t id
  | TReceive r now => t_receive t r now
  end.

(** The request an operation is about. *)
Definition t_id (o : transport_op) : string :=
  match o with
  | TSend id _ | TTimeout id _ | TWake id | TCancel id => id
  | TReceive r _ => rsp_request_id r
  end.

Definition t_run (t : Transport) (ops : list transport_op) : Transport := fold_left t_op ops t.

(** The calls a worker makes, each with what it sees of the outside. *)
Inductive client_call :=
| CallAllocate (rl : PDRole) (id : string) (len : Z)
| CallSelect (rl : option PDRole)
| CallFetch (rl : option PDRole)
| CallUpdate (instance_id endpoint_id : Z) (rl : PDRole) (a : WorkloadAction) (w : Workload)
| CallReadiness
| CallNotify (version : option Z).

Definition client_step (s : Client) (x : Env * client_call) : Client :=
  let env := x.1 in
  match x.2 with
  | CallAllocate rl id len => (select_and_allocate env rl id len s).1
  | CallSelect rl => (select_instance_and_endpoint env rl s).1
  | CallFetch rl => (get_available_instances env rl s).1
  | CallUpdate iid eid rl a w => (client_update_workload env iid eid rl a w s).1
  | CallReadiness => (client_has_required_instances env s).1
  | CallNotify v => (on_instance_change_notify env v s).1
  end.

Definition client_run (s : Client) (cs : list (Env * client_call)) : Client := fold_left client_step cs s.

(** [k] consecutive round-robin choices by one client over the same list. *)
Fixpoint client_rr_run (k : nat) (rs : list ref) (rl : PDRole) (s : Client) : list (option ref) * Client :=
  match k with
  | O => ([], s)
  | S k =>
      match select_by_round_robin rs rl s with
      | (s1, Ret x) => let '(xs, s2) := client_rr_run k rs rl s1 in (x :: xs, s2)
      | (s1, Raise _) => ([], s1)
      end
  end.

(** The cache's maps and objects agree. *)
Definition cache_wf (c : Cache) : Prop :=
  (∀ iid eid re p, dget (endpoint_map c) (iid, eid) = Some (re, p) →
     ∃ e, deref (cstore c re) p = Some e ∧ ep_id e = eid ∧ ins_id (cstore c re) = iid) ∧
  (∀ rl iid r, dget (instance_map c rl) iid = Some r → ins_id (cstore c r) = iid).

(** The workload the client would score the endpoint with. *)
Definition cached_workload (c : Cache) (iid eid : Z) : option Workload :=
  x ← dget (endpoint_map c) (iid, eid);
  workload <$> deref (cstore c x.1) x.2.

(** Lemmas *)

Lemma find_ref_same st rs r :
  NoDup ((λ r, ins_id (st r)) <$> rs) → r ∈ rs → find_ref st rs (st r) = Some r.
Proof.
  unfold find_ref. induction rs as [|r' rs IH]; intros Hn Hin; [by apply elem_of_nil in Hin|].
  apply NoDup_cons in Hn as [Hn Hnd]. simpl. destruct (Z.eqb_spec (ins_id (st r')) (ins_id (st r))) as [E|E].
  - apply elem_of_cons in Hin as [->|Hin]; [done|]. exfalso. apply Hn. rewrite E.
    apply list_elem_of_fmap. by exists r.
  - apply elem_of_cons in Hin as [->|Hin]; [done|]. by apply IH.
Qed.

Lemma select_rr_spec rs rl s c :
  rs ≠ [] → NoDup ((λ r, ins_id (cstore (cache s) r)) <$> rs) →
  default 0 (dget (instance_rr s) rl) = c →
  let n := Z.of_nat (length rs) in
  ∃ s', select_by_round_robin rs rl s =
          (s', Ret (rs !! Z.to_nat ((c + start_offset s n) mod n))) ∧
        default 0 (dget (instance_rr s') rl) = c + 1 ∧
        cache s' = cache s ∧ client_index s' = client_index s ∧ client_count s' = client_count s ∧
        ∀ rl', rl' ≠ rl → dget (instance_rr s') rl' = dget (instance_rr s) rl'.
Proof.
  intros Hne Hnd Hc n. unfold select_by_round_robin.
  assert (default 0 (dget (if dhas (instance_rr s) rl then instance_rr s
          else dset (instance_rr s) rl 0) rl) = c) as Hc'.
  { destruct (dhas (instance_rr s) rl) eqn:E; [done|].
    apply dhas_false in E. rewrite dget_dset_eq. rewrite E in Hc. done. }
  rewrite Hc'. destruct rs as [|r0 rs0]; [done|]. set (rs := r0 :: rs0) in *.
  unfold rr_select_instance_from_list.
  change (cstore (cache s) <$> rs) with (cstore (cache s) r0 :: (cstore (cache s) <$> rs0)).
  cbv beta iota zeta. eexists. split.
  - f_equal. f_equal.
    change (cstore (cache s) r0 :: (cstore (cache s) <$> rs0)) with (cstore (cache s) <$> rs).
    rewrite length_fmap. fold n. rewrite list_lookup_fmap.
    destruct (rs !! Z.to_nat ((c + start_offset s n) mod n)) as [r|] eqn:E; [|done].
    change (find_ref (cstore (cache s)) rs (cstore (cache s) r) = Some r).
    apply find_ref_same; [done|]. by eapply list_elem_of_lookup_2.
  - simpl. rewrite dget_dset_eq. split; [simpl; lia|]. split_and!; try done.
    intros rl' Hrl. rewrite dget_dset_ne by done. case_match; [done|]. by rewrite dget_dset_ne.
Qed.

Lemma client_rr_run_spec k rs rl s c :
  rs ≠ [] → NoDup ((λ r, ins_id (cstore (cache s) r)) <$> rs) →
  default 0 (dget (instance_rr s) rl) = c →
  let n := Z.of_nat (length rs) in
  (client_rr_run k rs rl s).1 =
    (λ i, rs !! Z.to_nat ((c + start_offset s n + Z.of_nat i) mod n)) <$> seq 0 k.
Proof.
  intros Hne. revert s c. induction k as [|k IH]; intros s c Hnd Hc n; [done|].
  destruct (select_rr_spec rs rl s c Hne Hnd Hc) as (s1 & E & Hc1 & Hcache & Hi & Hn & _).
  fold n in E. simpl. rewrite E. specialize (IH s1 (c + 1)). rewrite Hcache in IH.
  specialize (IH Hnd Hc1). cbv zeta in IH. destruct (client_rr_run k rs rl s1) as [xs s2].
  simpl in IH |- *. rewrite IH. f_equal; [by rewrite Z.add_0_r|].
  rewrite <- fmap_S_seq, <- list_fmap_compose. apply list_fmap_ext. intros _ i _. simpl.
  unfold start_offset. rewrite Hi, Hn. fold n. do 3 f_equal. lia.
Qed.

(** *** Patching *)

Lemma deref_set_ep_workload i p w e q :
  deref i p = Some e →
  deref (set_ep_workload_at i p w) q = if decide (q = p) then Some (set_ep_workload e w) else deref i q.
Proof.
  intros He. unfold set_ep_workload_at. rewrite He. unfold deref in *.
  destruct (dget (endpoints i) p.1) as [pod|] eqn:E; [|done]. simpl. rewrite dget_dset.
  destruct p as [ip k], q as [ip' k']. simpl in *. case_decide as H1.
  - subst. rewrite E, dget_dset. repeat case_decide; congruence.
  - case_decide; [congruence|done].
Qed.

Lemma ins_id_set_ep_workload i p w : ins_id (set_ep_workload_at i p w) = ins_id i.
Proof. unfold set_ep_workload_at. by repeat case_match. Qed.

(** The store after a patch: one endpoint's workload and one gathered workload. *)
Lemma patch_cases c iid eid rl tk kv :
  let c' := patch_workload_from_shm c iid eid rl tk kv in
  endpoint_map c' = endpoint_map c ∧ instance_map c' = instance_map c ∧
  instance_cache c' = instance_cache c ∧
  ((c' = c ∧ ∀ r x, dget (instance_map c rl) iid = Some r → dget (endpoint_map c) (iid, eid) ≠ Some x) ∨
   ∃ r re p, dget (instance_map c rl) iid = Some r ∧ dget (endpoint_map c) (iid, eid) = Some (re, p) ∧
     ∃ g, cstore c' = (let st1 := store_set (cstore c) re (set_ep_workload_at (cstore c re) p (mkWorkload kv tk)) in
                       store_set st1 r (set_gathered (st1 r) g))).
Proof.
  unfold patch_workload_from_shm. destruct (dget (instance_map c rl) iid) as [r|] eqn:E1;
    [|split_and!; try done; by left].
  destruct (dget (endpoint_map c) (iid, eid)) as [[re p]|] eqn:E2; [|split_and!; try done; by left].
  cbv zeta. split_and!; try done. right. exists r, re, p. split; [done|]. split; [done|].
  by eexists.
Qed.

Lemma deref_set_gathered i g p : deref (set_gathered i g) p = deref i p.
Proof. done. Qed.

Lemma patched_deref st re p w r g x q :
  deref (let st1 := store_set st re (set_ep_workload_at (st re) p w) in
         store_set st1 r (set_gathered (st1 r) g) x) q =
  deref (store_set st re (set_ep_workload_at (st re) p w) x) q.
Proof. cbv zeta. unfold store_set at 1. case_decide; [by subst|done]. Qed.

Lemma patch_wf c iid eid rl tk kv :
  cache_wf c → cache_wf (patch_workload_from_shm c iid eid rl tk kv).
Proof.
  intros [H1 H2]. destruct (patch_cases c iid eid rl tk kv) as (E1 & E2 & _ & [[-> _]|(r & re & p & Hr & Hp & g & E4)]);
    [done|].
  destruct (H1 _ _ _ _ Hp) as (e & He & Hid & Hiid).
  assert (∀ x, ins_id (cstore (patch_workload_from_shm c iid eid rl tk kv) x) = ins_id (cstore c x)) as Hids.
  { intros x. rewrite E4. cbv zeta. unfold store_set. repeat case_decide; subst; simpl;
      by rewrite ?ins_id_set_ep_workload. }
  split.
  - intros i' e' re' p'. rewrite E1. intros Hp'. destruct (H1 _ _ _ _ Hp') as (e0 & He0 & Hid0 & Hiid0).
    rewrite Hids, E4, patched_deref. unfold store_set. case_decide as Hre; [|by exists e0].
    subst re'. rewrite (deref_set_ep_workload _ _ _ e) by done. case_decide as Hpp.
    + subst p'. eexists. split; [done|]. simpl. split; [congruence|done].
    + by exists e0.
  - intros rl' i' r'. rewrite E2. intros Hr'. rewrite Hids. by apply (H2 rl').
Qed.

Lemma patch_cached c iid eid rl tk kv iid' eid' :
  cache_wf c →
  cached_workload (patch_workload_from_shm c iid eid rl tk kv) iid' eid' =
  if decide ((iid', eid') = (iid, eid) ∧ is_Some (dget (instance_map c rl) iid))
  then (λ _, mkWorkload kv tk) <$> cached_workload c iid' eid'
  else cached_workload c iid' eid'.
Proof.
  intros Hwf. pose proof Hwf as [H1 H2].
  destruct (patch_cases c iid eid rl tk kv) as (E1 & E2 & _ & Hc).
  unfold cached_workload. rewrite E1.
  destruct (dget (endpoint_map c) (iid', eid')) as [[re' p']|] eqn:Ep'; simpl; [|by case_decide].
  destruct (H1 _ _ _ _ Ep') as (e0 & He0 & Hid0 & Hiid0).
  destruct Hc as [[-> Hc]|(r & re & p & Hr & Hp & g & E4)].
  - case_decide as Hd; [|done]. destruct Hd as [[= -> ->] [r Hr]]. by destruct (Hc r _ Hr Ep').
  - rewrite E4, patched_deref. destruct (H1 _ _ _ _ Hp) as (e & He & Hid & Hiid).
    destruct (decide ((iid', eid') = (iid, eid))) as [[= -> ->]|Hne].
    + rewrite decide_True by eauto. rewrite Hp in Ep'. injection Ep' as <- <-.
      unfold store_set. rewrite decide_True by done.
      rewrite (deref_set_ep_workload _ _ _ e), decide_True, He by done. done.
    + rewrite decide_False by naive_solver. unfold store_set. case_decide as Hre; [|done]. subst re'.
      rewrite (deref_set_ep_workload _ _ _ e) by done. case_decide as Hpp; [|done]. subst p'.
      exfalso. apply Hne. congruence.
Qed.

(** Patching a list of entries with distinct keys. *)
Lemma patch_all_cached es c iid eid :
  cache_wf c → NoDup ((λ e, (e_instance_id e, e_endpoint_id e)) <$> es) →
  let c' := fold_left (patch_entry patch_workload_from_shm) es c in
  cache_wf c' ∧ instance_map c' = instance_map c ∧ endpoint_map c' = endpoint_map c ∧
  (∀ e, e ∈ es → (e_instance_id e, e_endpoint_id e) = (iid, eid) →
     is_Some (dget (instance_map c (shm_role_to_pdrole (e_role e))) iid) →
     cached_workload c' iid eid =
       (λ _, mkWorkload (e_kv e) (e_tokens e)) <$> cached_workload c iid eid) ∧
  ((iid, eid) ∉ ((λ e, (e_instance_id e, e_endpoint_id e)) <$> es) →
     cached_workload c' iid eid = cached_workload c iid eid).
Proof.
  revert c. induction es as [|e0 es IH]; intros c Hwf Hnd; simpl.
  { split_and!; try done. by intros e ?%elem_of_nil. }
  apply NoDup_cons in Hnd as [Hn Hnd].
  set (c1 := patch_entry patch_workload_from_shm c e0).
  assert (cache_wf c1) as Hwf1 by (by apply patch_wf).
  destruct (patch_cases c (e_instance_id e0) (e_endpoint_id e0) (shm_role_to_pdrole (e_role e0))
    (e_tokens e0) (e_kv e0)) as (Em & Ei & _).
  pose proof (patch_cached c (e_instance_id e0) (e_endpoint_id e0) (shm_role_to_pdrole (e_role e0))
    (e_tokens e0) (e_kv e0) iid eid Hwf) as Hc1.
  fold (patch_entry patch_workload_from_shm c e0) in Em, Ei, Hc1. fold c1 in Em, Ei, Hc1.
  destruct (IH c1 Hwf1 Hnd) as (Hw & Hi & He & Hin & Hout).
  split; [done|]. split; [congruence|]. split; [congruence|]. split.
  - intros e [->|Hes]%elem_of_cons Hk Hs.
    + rewrite Hout by (rewrite <- Hk; done). rewrite Hc1. rewrite decide_True; [done|].
      split; [done|]. by injection Hk as -> _.
    + rewrite (Hin e Hes Hk) by (by rewrite Ei). rewrite Hc1. rewrite decide_False; [done|].
      intros [Heq _]. apply Hn. apply list_elem_of_fmap. exists e. by rewrite Hk.
  - intros [Hne Hni]%not_elem_of_cons.
    rewrite Hout by done. rewrite Hc1. by rewrite decide_False by naive_solver.
Qed.

(** *** Replacing a role's instances *)

Lemma fold_dset_elem {A K V} `{!EqDecision K} (key : A → K) (val : A → V) l acc k x :
  dget (fold_left (λ acc a, dset acc (key a) (val a)) l acc) k = Some x →
  dget acc k = Some x ∨ ∃ a, a ∈ l ∧ key a = k ∧ val a = x.
Proof.
  revert acc. induction l as [|a l IH]; intros acc H; simpl in H; [by left|].
  apply IH in H as [H|(b & Hb & Hk & Hv)].
  - rewrite dget_dset in H. case_decide as Hk; [|by left].
    injection H as <-. right. exists a. split; [left|done].
  - right. exists b. split; [by right|done].
Qed.

Lemma map_endpoints_elem c r em k x :
  inst_dicts_wf (cstore c r) → dget (map_endpoints c r em) k = Some x →
  dget em k = Some x ∨
  ∃ p e, x = (r, p) ∧ deref (cstore c r) p = Some e ∧ k = (ins_id (cstore c r), ep_id e).
Proof.
  intros [Hw Hp]. unfold map_endpoints.
  assert (∀ d em, (∀ ip pod, (ip, pod) ∈ d → dget (endpoints (cstore c r)) ip = Some pod ∧ dict_wf pod) →
    dget (fold_left (λ acc '(ip, pod), fold_left (λ acc '(k, e),
      dset acc (ins_id (cstore c r), ep_id e) (r, (ip, k))) pod acc) d em) k = Some x →
    dget em k = Some x ∨
    ∃ p e, x = (r, p) ∧ deref (cstore c r) p = Some e ∧ k = (ins_id (cstore c r), ep_id e)) as Hgen.
  { induction d as [|[ip pod] d IH]; intros em0 Hd H; simpl in H; [by left|].
    apply IH in H as [H|H]; [|by right|intros; apply Hd; by right].
    destruct (Hd ip pod ltac:(left)) as [Hip Hpod].
    assert (fold_left (λ acc '(k0, e), dset acc (ins_id (cstore c r), ep_id e) (r, (ip, k0))) pod em0 =
      fold_left (λ acc a, dset acc (ins_id (cstore c r), ep_id a.2) (r, (ip, a.1))) pod em0) as E.
    { clear. revert em0. induction pod as [|[k e] pod IH]; intros em0; simpl; [done|apply IH]. }
    rewrite E in H. apply fold_dset_elem in H as [H|([k' e] & Hin & <- & <-)]; [by left|].
    right. exists (ip, k'), e. split; [done|]. split; [|done]. unfold deref. simpl.
    rewrite Hip. simpl. by apply dget_in_wf. }
  apply Hgen. intros ip pod Hin. split; [by apply dget_in_wf|].
  rewrite Forall_forall in Hp. by apply (Hp (ip, pod)).
Qed.

(** Replacing keeps the maps and the objects in agreement. *)
Lemma replace_all_wf c rl rs :
  cache_wf c → (∀ r, r ∈ rs → inst_dicts_wf (cstore c r)) → cache_wf (replace_all c rl rs).
Proof.
  intros [H1 H2] Hrs. split; unfold replace_all; cbn [endpoint_map instance_map cstore].
  - set (em1 := fold_left _ (dkeys (endpoint_map c)) (endpoint_map c)).
    assert (∀ k x, dget em1 k = Some x → dget (endpoint_map c) k = Some x) as Hem1.
    { subst em1. generalize (dkeys (endpoint_map c)) as ks. intros ks. generalize (endpoint_map c) as em.
      induction ks as [|k0 ks IH]; intros em k x H; simpl in H; [done|].
      apply IH in H. case_decide; [|done]. rewrite dget_ddel in H. by case_decide. }
    clearbody em1.
    assert (∀ rs em, (∀ r, r ∈ rs → inst_dicts_wf (cstore c r)) →
      (∀ k re p, dget em k = Some (re, p) →
         ∃ e, deref (cstore c re) p = Some e ∧ ep_id e = k.2 ∧ ins_id (cstore c re) = k.1) →
      ∀ k re p, dget (fold_left (λ acc r, map_endpoints c r acc) rs em) k = Some (re, p) →
         ∃ e, deref (cstore c re) p = Some e ∧ ep_id e = k.2 ∧ ins_id (cstore c re) = k.1) as Hgen.
    { clear. induction rs as [|r rs IH]; intros em Hrs Hem k re p Hd; simpl in Hd; [by apply Hem|].
      apply (IH (map_endpoints c r em)); [intros; apply Hrs; by right| |done].
      intros k' re' p' H'. apply map_endpoints_elem in H' as [H'|(p0 & e & [= -> ->] & He & ->)];
        [by apply Hem|by exists e|apply Hrs; left]. }
    intros iid eid re p. apply (Hgen rs em1 Hrs) with (k := (iid, eid)).
    intros [i' e'] re' p' Hx. by apply (H1 i' e'), Hem1.
  - intros rl' iid r. unfold upd. case_decide; [|by apply H2].
    intros [Hd|(a & _ & <- & <-)]%fold_dset_elem; done.
Qed.

(** *** Every client call keeps the cache in agreement *)

(** The maps and objects agree, the objects are well formed, and addresses from
    [cnext] on are unused. *)
Definition cache_ok_full (c : Cache) : Prop :=
  cache_wf c ∧ (∀ r, (r < cnext c)%nat → inst_dicts_wf (cstore c r)) ∧
  (∀ k x, dget (endpoint_map c) k = Some x → (x.1 < cnext c)%nat) ∧
  (∀ rl k r, dget (instance_map c rl) k = Some r → (r < cnext c)%nat) ∧
  (∀ rl r, r ∈ instance_cache c rl → (r < cnext c)%nat).

(** The replies hold instances whose dictionaries are well formed, as decoding yields. *)
Definition reply_ok (x : option SchedulerResponse) : Prop :=
  match x with
  | Some r => match rsp_data r with RspInstances l _ => Forall inst_dicts_wf l | _ => True end
  | None => True
  end.

Definition client_ok (s : Client) : Prop := cache_ok_full (cache s) ∧ Forall reply_ok (inbox s).

Lemma same_static_set_ep i p w : same_static (set_ep_workload_at i p w) i.
Proof.
  unfold set_ep_workload_at, deref. destruct (dget (endpoints i) p.1) as [pod|] eqn:E1; [|done].
  simpl. destruct (dget pod p.2) as [e|] eqn:E2; [|done].
  split; [done|]. split; [done|]. unfold eshape. simpl.
  eapply eshape_dset_pod; [done|]. by eapply eshape_dset_ep.
Qed.

Lemma deref_shape i j p e :
  eshape i = eshape j → deref j p = Some e → ∃ e', deref i p = Some e' ∧ ep_id e' = ep_id e.
Proof.
  unfold eshape, deref. generalize (endpoints j) as d'. generalize (endpoints i) as d.
  induction d as [|[ip pod] d IH]; intros [|[ip' pod'] d']; simpl; try done.
  intros [= -> Hp Hd]. case_decide; [|by apply IH]. simpl. clear IH Hd.
  revert pod' Hp. induction pod as [|[k e0] pod IH]; intros [|[k' e0'] pod']; simpl; try done.
  intros [= -> He Hp]. case_decide; [|by apply IH]. intros [= <-]. by exists e0.
Qed.

Lemma cache_ok_static c st :
  (∀ r, same_static (st r) (cstore c r)) → cache_ok_full c → cache_ok_full (set_cstore c st).
Proof.
  intros Hst ([H1 H2] & Hw & He & Hi & Hc).
  split; [split|]; cbn [endpoint_map instance_map cstore cnext instance_cache set_cstore].
  - intros iid eid re p Hp. destruct (H1 _ _ _ _ Hp) as (e & Hd & Hid & Hii).
    destruct (Hst re) as (A & _ & B). destruct (deref_shape _ _ _ _ B Hd) as (e' & Hd' & Hid').
    exists e'. split; [done|]. split; congruence.
  - intros rl iid r Hr. destruct (Hst r) as (-> & _). by apply (H2 rl).
  - split; [|done]. intros r Hr. destruct (Hst r) as (_ & _ & B).
    by apply (inst_dicts_wf_shape _ (cstore c r)); [|apply Hw].
Qed.

Lemma store_set_static st r i : same_static i (st r) → ∀ r', same_static (store_set st r i r') (st r').
Proof. intros H r'. unfold store_set. by case_decide; [subst|]. Qed.

Lemma cache_ok_patch c iid eid rl tk kv :
  cache_ok_full c → cache_ok_full (patch_workload_from_shm c iid eid rl tk kv).
Proof.
  intros H. unfold patch_workload_from_shm. destruct (dget (instance_map c rl) iid) as [r|]; [|done].
  destruct (dget (endpoint_map c) (iid, eid)) as [[re p]|]; [|done].
  apply cache_ok_static; [|done]. intros r'.
  eapply same_static_trans; [apply store_set_static; by split_and!|].
  apply store_set_static, same_static_set_ep.
Qed.

Lemma cache_ok_patch_slots b n slot c :
  cache_ok_full c → cache_ok_full (patch_slots patch_workload_from_shm b slot n c).2.
Proof.
  revert slot c. induction n as [|n IH]; intros slot c H; simpl; [done|].
  destruct (unpack_entry b slot); [|done]. apply IH. by apply cache_ok_patch.
Qed.

Lemma cache_ok_read rd b now c :
  cache_ok_full c → cache_ok_full (read_and_patch_cache patch_workload_from_shm rd b now c).2.
Proof.
  intros H. unfold read_and_patch_cache. destruct b as [b|]; [|done].
  destruct (unpack_header b) as [h|]; [|done]. do 3 (case_match; [done|]).
  pose proof (cache_ok_patch_slots b (Z.to_nat (entry_count h)) 0 c H) as Hp.
  by destruct (patch_slots _ _ _ _ _) as [[|] c'].
Qed.

Lemma cache_ok_replace c rl rs :
  cache_ok_full c → (∀ r, r ∈ rs → (r < cnext c)%nat) → cache_ok_full (replace_all c rl rs).
Proof.
  intros (Hwf & Hw & He & Hi & Hc) Hrs. split; [apply replace_all_wf; [done|]; intros; by apply Hw, Hrs|].
  unfold replace_all; cbn [endpoint_map instance_map cstore cnext instance_cache]. split_and!.
  - done.
  - set (em1 := fold_left _ (dkeys (endpoint_map c)) (endpoint_map c)).
    assert (∀ k x, dget em1 k = Some x → (x.1 < cnext c)%nat) as Hem1.
    { subst em1. generalize (dkeys (endpoint_map c)) as ks. intros ks. revert He.
      generalize (endpoint_map c) as em. induction ks as [|k0 ks IH]; intros em He; simpl; [done|].
      apply IH. intros k x. case_decide; [|apply He]. rewrite dget_ddel. case_decide; [done|apply He]. }
    clearbody em1. revert em1 Hem1. induction rs as [|r rs IH]; intros em Hem; [done|]. simpl.
    apply IH; [intros; apply Hrs; by right|]. intros k x Hx.
    apply map_endpoints_elem in Hx as [Hx|(p & e & -> & _)]; [by apply (Hem k)|apply Hrs; left|].
    apply Hw, Hrs. left.
  - intros rl' k r. unfold upd. case_decide; [|by apply Hi].
    intros [Hd|(a & Ha & _ & <-)]%fold_dset_elem; [done|by apply Hrs].
  - intros rl' r. unfold upd. case_decide; [by apply Hrs|by apply (Hc rl')].
Qed.

Section client_invariant.
Context (env : Env).

Lemma client_ok_rpc r s :
  client_ok s → client_ok (rpc r s).1 ∧ ∀ x, (rpc r s).2 = Ret x → reply_ok x.
Proof.
  intros [Hc Hi]. unfold rpc. destruct (inbox s) as [|x l] eqn:E.
  - split; [by split|]. by intros x [= <-].
  - apply Forall_cons in Hi as [Hx Hl]. split; [by split|]. by intros y [= <-].
Qed.

Lemma client_ok_decode l acc s :
  client_ok s → Forall inst_dicts_wf l → (∀ r, r ∈ dvalues acc → (r < cnext (cache s))%nat) →
  ∃ s' d, decode_instances l acc s = (s', Ret d) ∧ client_ok s' ∧
    (∀ r, r ∈ dvalues d → (r < cnext (cache s'))%nat).
Proof.
  revert acc s. induction l as [|i l IH]; intros acc s Hs Hl Ha; simpl.
  { by exists s, acc. }
  apply Forall_cons in Hl as [Hi Hl]. unfold mbind, M_bind, alloc_instance. cbv beta iota zeta.
  set (s1 := set_cache_of s _).
  assert (client_ok s1) as Hs1.
  { destruct Hs as [([H1 H2] & Hw & He & Hm & Hc) Hin]. split; [|done].
    assert (∀ r, (r < cnext (cache s))%nat → store_set (cstore (cache s)) (cnext (cache s)) i r = cstore (cache s) r)
      as Hold. { intros r Hr. unfold store_set. case_decide; [lia|done]. }
    split; [split|split_and!]; cbn [s1 set_cache_of cache endpoint_map instance_map cstore cnext instance_cache].
    - intros iid eid re p Hp. rewrite Hold by (by apply (He _ _ Hp)). by apply (H1 iid eid).
    - intros rl iid r Hr. rewrite Hold by (by apply (Hm _ _ _ Hr)). by apply (H2 rl).
    - intros r Hr. unfold store_set. case_decide; [done|]. apply Hw. lia.
    - intros k x Hx. apply He in Hx. lia.
    - intros rl k r Hr. apply Hm in Hr. lia.
    - intros rl r Hr. apply Hc in Hr. lia. }
  apply IH; [done|done|]. intros r Hr. cbn [s1 set_cache_of cache cnext].
  apply in_dvalues in Hr as [k Hk]. apply elem_of_dset in Hk as [[= _ ->]|Hk]; [lia|].
  assert (r ∈ dvalues acc) as Hr by (apply in_dvalues; by exists k). apply Ha in Hr. lia.
Qed.

Lemma client_ok_store rl d s :
  client_ok s → (∀ r, r ∈ dvalues d → (r < cnext (cache s))%nat) → client_ok (store_fetched rl d s).1.
Proof.
  intros [Hc Hi] Hd. unfold store_fetched, mmodify. cbn [fst].
  assert (∀ c st rs rl, cache_ok_full c → cnext c = cnext (cache s) →
    (∀ r, r ∈ rs → r ∈ dvalues d) → cache_ok_full (replace_all c rl (sort_by_id st rs))) as Hr.
  { intros c st rs rl' Hok Hn Hrs. apply cache_ok_replace; [done|]. intros r Hr.
    rewrite Hn. apply Hd, Hrs. unfold sort_by_id in Hr. by rewrite merge_sort_Permutation in Hr. }
  destruct d as [|x d]; [done|]. set (ds := x :: d) in *.
  destruct rl as [rl|]; split; try done; [by apply Hr|].
  cbn [fold_left set_cache_of cache]. repeat (apply Hr; [|done|by intros r [_ Hin]%list_elem_of_filter]).
  done.
Qed.

Lemma client_ok_attach name s : client_ok s → client_ok (attach_reader env name s).1.
Proof.
  intros H. unfold attach_reader, mmodify. cbn [fst]. destruct (truthy name) as [n|]; [|done].
  case_decide; [done|]. by destruct (env_shm env n).
Qed.

Lemma client_ok_fetch rl s :
  client_ok s →
  ∃ s' d, get_available_instances env rl s = (s', Ret d) ∧ client_ok s' ∧
    ∀ r, r ∈ dvalues d → (r < cnext (cache s'))%nat.
Proof.
  intros Hs. unfold get_available_instances, mbind, M_bind.
  destruct (client_ok_rpc (get_request env rl) s Hs) as [Hs1 Hx].
  destruct (rpc (get_request env rl) s) as [s1 [x|e]] eqn:Er; cbn [fst snd] in *.
  2: { unfold rpc in Er. by destruct (inbox s). }
  specialize (Hx x eq_refl).
  assert (∃ s' d, (s1, Ret []) = (s', Ret d) ∧ client_ok s' ∧
    ∀ r : ref, r ∈ dvalues (d : dict Z ref) → (r < cnext (cache s'))%nat) as Hnil.
  { exists s1, []. split; [done|]. split; [done|]. by intros r ?%elem_of_nil. }
  destruct x as [x|]; [|exact Hnil]. simpl in Hx. destruct (rsp_data x) as [| |l name| |]; try exact Hnil.
  destruct (client_ok_decode l [] s1 Hs1 Hx) as (s2 & d & Ed & Hs2 & Hd); [by intros r ?%elem_of_nil|].
  rewrite Ed. pose proof (client_ok_attach name s2 Hs2) as Hs3.
  assert (cnext (cache (attach_reader env name s2).1) = cnext (cache s2)) as Hn.
  { unfold attach_reader, mmodify. cbn [fst]. destruct (truthy name) as [n|]; [|done].
    case_decide; [done|]. by destruct (env_shm env n). }
  destruct (attach_reader env name s2) as [s3 [u|e]] eqn:Ea; [|by unfold attach_reader, mmodify in Ea].
  cbn [fst] in *. pose proof (client_ok_store rl d s3 Hs3) as Hs4. rewrite Hn in Hs4. specialize (Hs4 Hd).
  assert (cnext (cache (store_fetched rl d s3).1) = cnext (cache s3)) as Hn4.
  { unfold store_fetched, mmodify. cbn [fst]. destruct d; [done|]. by destruct rl. }
  destruct (store_fetched rl d s3) as [s4 [u'|e]] eqn:Es; [|by unfold store_fetched, mmodify in Es].
  cbn [fst snd] in *. exists s4, d. split; [done|]. split; [done|]. rewrite Hn4, Hn. done.
Qed.

Lemma preserves_fetch rl : preserves client_ok (get_available_instances env rl).
Proof. intros s Hs. by destruct (client_ok_fetch rl s Hs) as (s' & d & -> & ? & _). Qed.

Lemma preserves_rpc r : preserves client_ok (rpc r).
Proof. intros s Hs. by apply client_ok_rpc. Qed.

(** Setters that leave the cache and the replies alone. *)
Lemma client_ok_same s s' : cache s' = cache s → inbox s' = inbox s → client_ok s → client_ok s'.
Proof. unfold client_ok. by intros -> ->. Qed.

Lemma client_ok_touch s r i :
  same_static i (cstore (cache s) r) → client_ok s →
  client_ok (set_cache_of s (set_cstore (cache s) (store_set (cstore (cache s)) r i))).
Proof.
  intros Hi [Hc Hb]. split; [|done]. apply cache_ok_static; [|done]. by apply store_set_static.
Qed.

Lemma get_all_static i : same_static (get_all_endpoints i).2 i.
Proof. unfold get_all_endpoints. destruct (cached_endpoints_tuple i); [case_decide|]; done. Qed.

Lemma preserves_select_endpoint r : preserves client_ok (select_endpoint_for_instance r).
Proof.
  intros s Hs. unfold select_endpoint_for_instance.
  pose proof (get_all_static (cstore (cache s) r)) as H1.
  destruct (get_all_endpoints (cstore (cache s) r)) as [all i1]. simpl in H1.
  destruct all as [|p0 ps]; [by apply client_ok_touch|].
  destruct (is_load_policy (scheduler_type s)).
  - unfold lb_select_endpoint_from_instance. pose proof (get_all_static i1) as H2.
    destruct (get_all_endpoints i1) as [all2 i2]. simpl in H2.
    assert (same_static i2 (cstore (cache s) r)) as H3 by (by eapply same_static_trans).
    by destruct all2; apply client_ok_touch.
  - unfold rr_select_endpoint_from_instance. pose proof (get_all_static i1) as H2.
    destruct (get_all_endpoints i1) as [all2 i2]. simpl in H2.
    assert (same_static i2 (cstore (cache s) r)) as H3 by (by eapply same_static_trans).
    destruct all2; (eapply client_ok_same; [..|by apply (client_ok_touch s r i2)]); done.
Qed.

Lemma preserves_select_rr rs rl : preserves client_ok (select_by_round_robin rs rl).
Proof.
  intros s Hs. unfold select_by_round_robin. destruct (rr_select_instance_from_list _ _). done.
Qed.

Lemma preserves_select_lb rs : preserves client_ok (select_by_load_balance rs).
Proof. intros s Hs. done. Qed.

Lemma preserves_select_from_list rs rl : preserves client_ok (select_from_list env rs rl).
Proof.
  unfold select_from_list. apply preserves_bind; [apply preserves_get|]. intros s0.
  set (rr := select_by_round_robin rs rl ≫= _).
  assert (preserves client_ok rr) as Hrr.
  { apply preserves_bind; [apply preserves_select_rr|]. intros [r|]; [apply preserves_select_endpoint|apply preserves_ret]. }
  set (lb := select_by_load_balance rs ≫= _).
  assert (preserves client_ok lb) as Hlb.
  { apply preserves_bind; [apply preserves_select_lb|]. intros [r|]; [apply preserves_select_endpoint|exact Hrr]. }
  clearbody rr lb. destruct rs as [|r rs]; [apply preserves_ret|].
  case_decide; [exact Hlb|]. case_decide; [|exact Hrr]. destruct rl; try exact Hlb.
  destruct (kv_select_endpoint_from_list _ _) as [[i p]|]; [|exact Hlb].
  destruct (find_ref _ _ _); apply preserves_ret.
Qed.

Lemma preserves_select rl : preserves client_ok (select_instance_and_endpoint env rl).
Proof.
  unfold select_instance_and_endpoint. apply preserves_bind; [apply preserves_get|]. intros s0.
  apply preserves_bind.
  - destruct (get_instances _ _); [apply preserves_ret|apply preserves_select_from_list].
  - intros [x|]; [apply preserves_ret|]. apply preserves_bind; [apply preserves_fetch|].
    intros [|x d]; [apply preserves_ret|]. apply preserves_bind; [apply preserves_get|].
    intros s1. apply preserves_select_from_list.
Qed.

Lemma preserves_notify : preserves client_ok (notify_refreshed env).
Proof. intros s Hs. unfold notify_refreshed, mmodify. simpl. by case_match. Qed.

Lemma preserves_version v : preserves client_ok (mmodify (λ s, set_version s v)).
Proof. by intros s Hs. Qed.

Lemma preserves_refetch v :
  preserves client_ok (get_available_instances env None ;; mmodify (λ s, set_version s v) ;; notify_refreshed env).
Proof.
  apply preserves_bind; [apply preserves_fetch|]. intros _.
  apply preserves_bind; [apply preserves_version|]. intros _. apply preserves_notify.
Qed.

Lemma preserves_sync : preserves client_ok (sync_from_shm env).
Proof.
  intros s Hs. unfold sync_from_shm, mbind at 1, M_bind at 1, mget. simpl.
  destruct (workload_reader s) as [[name rd]|]; [|done].
  pose proof (cache_ok_read rd (env_shm env name) (env_now env) (cache s) (proj1 Hs)) as Hc.
  destruct (read_and_patch_cache _ _ _ _ _) as [[[version stale] rd'] c]. simpl in Hc.
  unfold mbind at 1, M_bind at 1, mmodify at 1. set (s1 := set_reader _ _).
  assert (client_ok s1) as Hs1 by (split; [exact Hc|apply Hs]). clearbody s1. clear Hs.
  destruct stale; [by apply preserves_refetch|]. destruct version as [v|]; [|done].
  destruct (last_instance_version s) as [v0|]; [|done]. case_decide; [done|by apply preserves_refetch].
Qed.

Lemma preserves_client_allocate rl id len : preserves client_ok (select_and_allocate env rl id len).
Proof.
  unfold select_and_allocate. apply preserves_bind; [apply preserves_sync|]. intros _.
  apply preserves_bind; [apply preserves_select|]. intros [[r p]|]; [|apply preserves_ret].
  apply preserves_bind; [apply preserves_get|]. intros s.
  destruct (deref _ p); [|apply preserves_raise].
  apply preserves_bind; [apply preserves_rpc|]. intros [x|]; [|apply preserves_ret].
  destruct (rsp_data x) as [| | | |[[im [em|]]|]]; apply preserves_ret.
Qed.
End client_invariant.

Lemma client_run_ok cs s : client_ok s → client_ok (client_run s cs).
Proof.
  revert s. induction cs as [|[env c] cs IH]; intros s Hs; simpl; [done|]. apply IH.
  unfold client_step. destruct c as [rl id len|rl|rl|iid eid rl a w| |v]; cbn [fst snd].
  - by apply preserves_client_allocate.
  - by apply preserves_select.
  - by apply preserves_fetch.
  - revert s Hs. apply preserves_bind; [apply preserves_rpc|]. intros [x|]; [|apply preserves_ret].
    destruct (rsp_data x); apply preserves_ret.
  - revert s Hs. apply preserves_bind; [apply preserves_get|]. intros s0.
    destruct (is_ready _); [apply preserves_ret|]. apply preserves_bind; [apply preserves_fetch|]. intros _.
    apply preserves_bind; [apply preserves_get|]. intros s1. apply preserves_ret.
  - revert s Hs. apply preserves_bind; [apply preserves_get|]. intros s0. case_decide; [apply preserves_ret|].
    apply preserves_bind; [apply preserves_fetch|]. intros _.
    apply preserves_bind; [|intros _; apply preserves_notify].
    intros s Hs. by destruct v.
Qed.

(** *** Transport *)

Definition pending_of (t : Transport) (id : string) :=
  (dget (pending_requests t) id, dget (pending_responses t) id).

Lemma t_op_other t o id : t_id o ≠ id → pending_of (t_op t o) id = pending_of t id.
Proof.
  unfold pending_of. destruct o as [i now|i sent|i|i|r now]; simpl; intros Hne.
  - by rewrite dget_dset_ne.
  - unfold t_timeout. destruct (dhas _ _); [|done]. simpl. by rewrite dget_dset_ne.
  - unfold t_wake. destruct (dget (pending_requests t) i) as [[ev sent]|]; simpl; by rewrite ?dget_ddel_ne.
  - by rewrite !dget_ddel_ne.
  - unfold t_receive. destruct (dget (pending_requests t) (rsp_request_id r)) as [[[[]|] sent]|];
      simpl; try (case_match; simpl); by rewrite ?dget_ddel_ne, ?dget_dset_ne.
Qed.

Lemma t_run_other t ops id :
  Forall (λ o, t_id o ≠ id) ops → pending_of (t_run t ops) id = pending_of t id.
Proof.
  revert t. induction ops as [|o ops IH]; intros t H; simpl; [done|].
  apply Forall_cons in H as [Ho H]. rewrite (IH (t_op t o)) by done. by apply t_op_other.
Qed.

Lemma send_timeout_entry t id now :
  dget (pending_requests (t_op (t_op t (TSend id now)) (TTimeout id now))) id = Some (None, now).
Proof.
  simpl. unfold t_timeout. assert (dhas (pending_requests (t_send t id now)) id = true) as ->.
  { apply dhas_true. simpl. rewrite dget_dset_eq. by eexists. }
  simpl. by rewrite dget_dset_eq.
Qed.

(** Collected responses carry their own id and belong to a pending request. *)
Definition transport_ok (t : Transport) : Prop :=
  ∀ id r, dget (pending_responses t) id = Some r →
    rsp_request_id r = id ∧ is_Some (dget (pending_requests t) id).

Lemma transport_ok_op t o : transport_ok t → transport_ok (t_op t o).
Proof.
  intros H id r. destruct (decide (t_id o = id)) as [<-|Hne].
  2: { pose proof (t_op_other t o id Hne) as [= -> ->]. apply H. }
  destruct o as [i now|i sent|i|i|x now]; simpl.
  - intros Hr. split; [by apply (H i)|]. rewrite dget_dset_eq. by eexists.
  - unfold t_timeout. destruct (dhas _ _) eqn:E; [|apply H]. simpl. intros Hr.
    split; [by apply (H i)|]. rewrite dget_dset_eq. by eexists.
  - unfold t_wake. destruct (dget (pending_requests t) i) as [[ev sent]|]; simpl; by rewrite dget_ddel_eq.
  - by rewrite dget_ddel_eq.
  - unfold t_receive. destruct (dget (pending_requests t) (rsp_request_id x)) as [[[[]|] sent]|] eqn:E;
      simpl; rewrite ?dget_ddel_eq, ?dget_dset_eq; try done.
    + intros [= <-]. split; [done|by eexists].
    + case_match; simpl; rewrite ?dget_ddel_eq; [done|apply H].
Qed.

Lemma transport_ok_run ops timeout : transport_ok (t_run (Transport_init timeout) ops).
Proof.
  assert (∀ t, transport_ok t → transport_ok (t_run t ops)) as Hr.
  { induction ops as [|o ops IH]; intros t H; simpl; [done|]. apply (IH (t_op t o)). by apply transport_ok_op. }
  apply Hr. by intros id r.
Qed.

(** Properties *)

(** Replies reach their own waiter.  After any traffic on the transport, a waiter
    that resumes gets a response with its own request id or nothing, and no response
    is kept for a request that is no longer pending.  And a request is answered with
    exactly the first response that carries its id, whatever sends, time-outs,
    cancellations and replies for other ids come before and after it, after which
    no trace of the request is left. *)
Theorem transport_delivers timeout ops :
  let t := t_run (Transport_init timeout) ops in
  (∀ id r, (t_wake t id).1 = Some r → rsp_request_id r = id) ∧
  (∀ id, is_Some (dget (pending_responses t) id) → is_Some (dget (pending_requests t) id)) ∧
  (∀ id now now' r before after,
     dget (pending_requests t) id = None → rsp_request_id r = id →
     Forall (λ o, t_id o ≠ id) before → Forall (λ o, t_id o ≠ id) after →
     let t1 := t_run (t_receive (t_run (t_send t id now) before) r now') after in
     (t_wake t1 id).1 = Some r ∧ pending_of (t_wake t1 id).2 id = (None, None)).
Proof.
  intros t. pose proof (transport_ok_run ops timeout) as Hok. fold t in Hok.
  split; [|split].
  - intros id r. unfold t_wake. destruct (dget (pending_requests t) id) as [[ev sent]|]; simpl; [|done].
    case_decide; [|done]. intros Hr. by apply Hok.
  - intros id [r Hr]. by eapply Hok.
  - intros id now now' r before after Hn Hid Hb Ha t1.
    assert (pending_of t1 id = (Some (Some true, now), Some r)) as Hp.
    { unfold t1. rewrite t_run_other by done. pose proof (t_run_other (t_send t id now) before id Hb) as [= E1 E2].
      unfold t_receive. rewrite Hid, E1. unfold t_send at 1. simpl. rewrite dget_dset_eq.
      unfold pending_of. simpl. by rewrite !dget_dset_eq. }
    injection Hp as E1 E2. unfold t_wake. rewrite E1. rewrite decide_True, E2 by done.
    split; [done|]. unfold pending_of. simpl. by rewrite !dget_ddel_eq.
Qed.

(** Timed-out requests are never forgotten.  Each request that times out leaves an
    entry in the table of pending requests for ever: other traffic does not remove
    it, and neither does its own late reply unless that arrives more than twice the
    time-out after the request was sent.  After [k] time-outs of distinct requests
    the table has at least [k] entries. *)
Theorem timed_out_requests_leak t reqs :
  NoDup reqs.*1 →
  let t' := t_run t (concat ((λ '(id, now), [TSend id now; TTimeout id now]) <$> reqs)) in
  (∀ id sent, (id, sent) ∈ reqs → dget (pending_requests t') id = Some (None, sent)) ∧
  (length reqs <= length (pending_requests t'))%nat ∧
  ∀ id sent r now, (id, sent) ∈ reqs → fgt (fsub now sent) (cleanup_delay t) = false →
    dget (pending_requests (t_receive t' r now)) id = Some (None, sent).
Proof.
  intros Hnd t'.
  assert (cleanup_delay t' = cleanup_delay t) as Hcd.
  { subst t'. clear Hnd. revert t. induction reqs as [|[id now] reqs IH]; intros t; [done|].
    cbn [fmap list_fmap concat app t_run fold_left]. etransitivity; [apply IH|].
    cbn [t_op]. unfold t_timeout. by destruct (dhas _ _). }
  assert (∀ id sent, (id, sent) ∈ reqs → dget (pending_requests t') id = Some (None, sent)) as Hin.
  { subst t'. clear Hcd. revert t. induction reqs as [|[id now] reqs IH]; intros t id' sent Hin;
      [by apply elem_of_nil in Hin|].
    apply NoDup_cons in Hnd as [Hn Hnd]. cbn [fmap list_fmap concat app t_run fold_left].
    apply elem_of_cons in Hin as [[= -> ->]|Hin]; [|by apply IH].
    set (t2 := t_op (t_op t _) _).
    assert (Forall (λ o, t_id o ≠ id) (concat ((λ '(id, now), [TSend id now; TTimeout id now]) <$> reqs))) as Ho.
    { apply Forall_concat, Forall_fmap, Forall_forall. intros [i n] Hi.
      assert (i ≠ id) by (intros ->; apply Hn; apply list_elem_of_fmap; by exists (id, n)).
      by repeat constructor. }
    pose proof (t_run_other t2 _ id Ho) as [= E _].
    etransitivity; [exact E|]. apply send_timeout_entry. }
  split; [done|]. split.
  - assert (reqs.*1 ⊆ dkeys (pending_requests t')) as Hs.
    { intros id ([i s] & -> & Hi)%list_elem_of_fmap. apply elem_of_dkeys. simpl. rewrite (Hin i s) by done. by eexists. }
    pose proof (NoDup_submseteq _ _ Hnd Hs) as Hsub. apply submseteq_length in Hsub.
    unfold dkeys in Hsub. by rewrite !length_fmap in Hsub.
  - intros id sent r now Hi Hd. destruct (decide (rsp_request_id r = id)) as [Hid|Hne].
    + unfold t_receive. rewrite Hid, (Hin id sent Hi), Hcd, Hd. by apply Hin.
    + pose proof (t_op_other t' (TReceive r now) id Hne) as [= E _]. rewrite E. by apply Hin.
Qed.

Lemma timed_out_requests_leak_witness :
  let t := Transport_init (f_of_Z 5) in
  let reqs := [("a"%string, f_of_Z 1); ("b"%string, f_of_Z 2)] in
  let t' := t_run t (concat ((λ '(id, now), [TSend id now; TTimeout id now]) <$> reqs)) in
  (2 <= length (pending_requests t'))%nat.
Proof.
  apply (timed_out_requests_leak (Transport_init (f_of_Z 5)) [("a"%string, f_of_Z 1); ("b"%string, f_of_Z 2)]).
  repeat constructor; set_solver.
Defined.

(** A worker's cache stays coherent.  Whatever calls a worker makes — allocations,
    selections, refreshes, updates, readiness checks, change notifications — under
    every clock, shared-memory content, conductor answer and sequence of replies
    with well-formed instances, every entry of the endpoint map points at a live
    endpoint with the ids it is filed under, and every id of the instance maps at
    the instance with that id: a patch from shared memory never hits the wrong
    object. *)
Theorem client_cache_coherent idx count d t st replies calls :
  Forall reply_ok replies →
  let c := cache (client_run (Client_init idx count d t st replies) calls) in
  (∀ iid eid r p, dget (endpoint_map c) (iid, eid) = Some (r, p) →
     ∃ e, deref (cstore c r) p = Some e ∧ ep_id e = eid ∧ ins_id (cstore c r) = iid) ∧
  (∀ rl iid r, dget (instance_map c rl) iid = Some r → ins_id (cstore c r) = iid).
Proof.
  intros Hr c. assert (client_ok (Client_init idx count d t st replies)) as H0.
  { split; [|exact Hr]. split; [by split|]. split_and!; simpl; try done; [lia|].
    by intros rl r ?%elem_of_nil. }
  apply (client_run_ok calls) in H0. exact (proj1 (proj1 H0)).
Qed.

(** An environment without shared memory, and one reply with two instances. *)
Definition sample_env : Env := mkEnv f0 (λ _, None) None "u"%string true.
Definition sample_reply : SchedulerResponse :=
  mkResponse "u"%string (RspInstances [sample_instance 2 "prefill"; sample_instance 3 "decode"] None).

Lemma sample_reply_ok : Forall reply_ok [Some sample_reply].
Proof. repeat constructor; simpl; set_solver. Qed.

Lemma client_cache_coherent_witness :
  let c := cache (client_run (Client_init 0 2 None None small_store [Some sample_reply])
                    [(sample_env, CallFetch None); (sample_env, CallAllocate ROLE_P "r" 10)]) in
  ∃ r, dget (instance_map c ROLE_P) 2 = Some r ∧ ins_id (cstore c r) = 2.
Proof.
  eexists. split; [reflexivity|].
  apply (proj2 (client_cache_coherent 0 2 None None small_store [Some sample_reply]
           [(sample_env, CallFetch None); (sample_env, CallAllocate ROLE_P "r" 10)] sample_reply_ok)) with ROLE_P.
  reflexivity.
Defined.

(** Workers take turns from different starts.  A round-robin worker's picks over [n]
    instances walk the list cyclically from its own offset, so [n] consecutive picks
    are a rotation of the list, each instance once; and with as many workers as
    instances, the first picks of the workers are the instances in order, no two
    workers starting on the same one. *)
Theorem client_round_robin_staggered rs rl s :
  rs ≠ [] → NoDup ((λ r, ins_id (cstore (cache s) r)) <$> rs) →
  let n := length rs in
  let start := Z.to_nat ((default 0 (dget (instance_rr s) rl) + start_offset s (Z.of_nat n)) mod Z.of_nat n) in
  (client_rr_run n rs rl s).1 = Some <$> rotate_left start rs ∧
  (client_count s = Z.of_nat n → 0 <= client_index s < Z.of_nat n → dget (instance_rr s) rl = None →
   start = Z.to_nat (client_index s)).
Proof.
  intros Hne Hnd n start. assert (0 < Z.of_nat n) as Hn by (subst n; destruct rs; [done|cbn [length]; lia]).
  split.
  - rewrite (client_rr_run_spec n rs rl s _ Hne Hnd eq_refl). fold n.
    set (b := default 0 (dget (instance_rr s) rl) + start_offset s (Z.of_nat n)) in *.
    assert (0 <= b mod Z.of_nat n < Z.of_nat n) as Hb by (by apply Z.mod_pos_bound).
    apply list_eq. intros i. rewrite !list_lookup_fmap.
    destruct (decide (i < n)%nat) as [Hi|Hi].
    2: { rewrite !lookup_ge_None_2; [done| |]; rewrite ?length_rotate_left, ?length_seq; fold n; lia. }
    rewrite lookup_seq_lt by done. simpl. rewrite rotate_left_lookup by (fold n; lia). fold n.
    assert (is_Some (rs !! ((start + i) mod n)%nat)) as [x Hx].
    { apply lookup_lt_is_Some_2. fold n. apply Nat.mod_upper_bound. lia. }
    rewrite Hx. simpl. f_equal. rewrite <- Hx. f_equal.
    unfold start. rewrite <- Zplus_mod_idemp_l. apply Nat2Z.inj.
    rewrite Z2Nat.id by (apply Z.mod_pos_bound; lia).
    rewrite Nat2Z.inj_mod, Nat2Z.inj_add, Z2Nat.id by lia. done.
  - intros Hc Hi Hs. unfold start, start_offset. rewrite Hs, Hc. simpl. f_equal.
    rewrite Z.mul_comm, Z.div_mul by lia. apply Z.mod_small. lia.
Qed.

Lemma client_round_robin_staggered_witness :
  let s := Client_init 1 2 None None small_store [] in
  (client_rr_run 2 [2; 3]%nat ROLE_P s).1 = Some <$> rotate_left 1 [2; 3]%nat.
Proof.
  apply (client_round_robin_staggered [2; 3]%nat ROLE_P (Client_init 1 2 None None small_store [])); [done|].
  vm_compute. repeat constructor; set_solver.
Defined.

(** C2: workers see the scheduler's workloads.  In every state the scheduler reaches,
    when a worker with a coherent cache reads the shared memory, each endpoint that
    is published (within the capacity) and cached by the worker under its role gets
    exactly the workload the scheduler holds for it, and every other cached endpoint
    keeps its own. *)
Theorem client_sees_pool_workloads f st mgmt t d max name es rd now c :
  (∀ r, inst_good (st r)) → Z.of_nat max < 2 ^ 32 → Z.of_nat (length es) < 2 ^ 62 →
  Forall (λ e, match e with SrvRequest r => request_ok f st r | SrvHeartbeat => True end) es →
  cache_wf c →
  let s := server_run (start (Scheduler_init (InstanceManager_init st mgmt) t d) max name) es in
  ∃ w version stale rd' c', writer s = Some w ∧
    read_and_patch_cache patch_workload_from_shm rd (Some (buf w)) now c = ((Some version, stale), rd', c') ∧
    (∀ x, x ∈ take (w_max_entries w) (pool_endpoints (im_of s)) →
       is_Some (dget (instance_map c (shm_role_to_pdrole x.1.2)) x.1.1) →
       is_Some (cached_workload c x.1.1 (ep_id x.2)) →
       cached_workload c' x.1.1 (ep_id x.2) = Some (workload x.2)) ∧
    (∀ k, k ∉ ekey <$> take (w_max_entries w) (pool_endpoints (im_of s)) →
       cached_workload c' k.1 k.2 = cached_workload c k.1 k.2).
Proof.
  intros Hg Hmax Hlen He Hc s.
  destruct (srv_run_inv f st es 1 _ (srv_start_inv f st mgmt t d max name Hg Hmax) ltac:(lia) He)
    as [n [(Hm & Hsg & w & v & Hw & _ & Hs) _]]. fold s in Hm, Hsg, Hw, Hs.
  destruct (read_shows patch_workload_from_shm w v _ rd now c Hs) as (stale & r' & Hr).
  set (l := take (w_max_entries w) (pool_endpoints (im_of s))).
  assert (published (w_max_entries w) (im_of s) = entry_of <$> l) as Hpub.
  { unfold published, l. by rewrite map_fmap, fmap_take. }
  rewrite Hpub in Hr.
  assert ((λ e, (e_instance_id e, e_endpoint_id e)) <$> (entry_of <$> l) = ekey <$> l) as Hk.
  { rewrite <- list_fmap_compose. apply list_fmap_ext. by intros _ [[iid rl] e] _. }
  assert (NoDup (ekey <$> l)) as Hnd.
  { unfold l. rewrite fmap_take. eapply sublist_NoDup; [by eapply pool_keys_NoDup|apply sublist_take]. }
  rewrite <- Hk in Hnd.
  exists w, (v mod 2 ^ 64), stale, r', (fold_left (patch_entry patch_workload_from_shm) (entry_of <$> l) c).
  split; [done|]. split; [done|]. split.
  - intros [[iid rl] e] Hx Hi [wl Hwl]. simpl in Hi, Hwl |- *.
    destruct (patch_all_cached (entry_of <$> l) c iid (ep_id e) Hc Hnd) as (_ & _ & _ & Hin & _).
    rewrite (Hin (entry_of (iid, rl, e))); [|by apply list_elem_of_fmap; eexists|done|done].
    rewrite Hwl. simpl. by destruct (workload e).
  - intros [iid eid] Hn.
    destruct (patch_all_cached (entry_of <$> l) c iid eid Hc Hnd) as (_ & _ & _ & _ & Hout).
    apply Hout. by rewrite Hk.
Qed.

(** The worker's cache of the witness: the two instances of the sample refresh. *)
Definition sample_cache : Cache :=
  replace_all (replace_all (mkCache small_store 8 (λ _, []) (λ _, []) []) ROLE_P [2%nat]) ROLE_D [3%nat].

Lemma sample_cache_wf : cache_wf sample_cache.
Proof.
  apply replace_all_wf; [|intros r _; apply small_store_good].
  apply replace_all_wf; [done|intros r _; apply small_store_good].
Qed.

Lemma client_sees_pool_workloads_witness :
  let s := server_run (start (Scheduler_init (InstanceManager_init small_store false) LOAD_BALANCE None) 3 "shm")
             [SrvRequest sample_refresh; SrvHeartbeat; SrvRequest sample_allocate] in
  ∃ w version stale rd' c', writer s = Some w ∧
    read_and_patch_cache patch_workload_from_shm Reader_init (Some (buf w)) f0 sample_cache
      = ((Some version, stale), rd', c').
Proof.
  cbv zeta.
  destruct (client_sees_pool_workloads sample_roles small_store false LOAD_BALANCE None 3 "shm"
    [SrvRequest sample_refresh; SrvHeartbeat; SrvRequest sample_allocate] Reader_init f0 sample_cache)
    as (w & v & stale & rd' & c' & H1 & H2 & _).
  - apply small_store_good.
  - reflexivity.
  - reflexivity.
  - repeat constructor.
  - apply sample_cache_wf.
  - exists w, v, stale, rd', c'. by split.
Defined.

(** An empty answer, or none, leaves the cached instances as they were. *)
Lemma empty_answer_keeps_cache env rl name s :
  (∃ rest, inbox s = Some (mkResponse (env_uuid env) (RspInstances [] name)) :: rest) →
  cache (get_available_instances env rl s).1 = cache s ∧ (get_available_instances env rl s).2 = Ret [].
Proof.
  intros [rest Hi]. unfold get_available_instances, mbind, M_bind, rpc. rewrite Hi. simpl.
  unfold attach_reader, mmodify. destruct (truthy name) as [n|]; simpl; [|done].
  case_decide; [done|]. by destruct (env_shm env n).
Qed.
