(* ===== verification/CtlInstanceManager.v ===== *)
(** * The controller's instance manager

    Models [controller/core/instance_manager.py] (and [observer.py], [persistent_state.py]):
    the life-cycle state machine of instances, driven by heartbeats and time-outs,
    forced separation and recovery, notification of the observers, alarms, and
    persistence to etcd.  Instances are shared objects in a store; every method is an
    atomic step, except that the transition of a heartbeat is also given as the two
    halves between which another thread may run. *)

From stdpp Require Import base option list strings sets gmap.
From Stdlib Require Import ZArith Lia.
From S2P Require Import Prelude Float64 Resources.
Open Scope Z_scope.

(** ** Observers *)

Inductive ObserverEvent := INSTANCE_INITIAL | INSTANCE_READY | INSTANCE_SEPERATED | INSTANCE_REMOVED.

#[global] Instance ObserverEvent_eq_dec : EqDecision ObserverEvent.
Proof. solve_decision. Defined.

(** What the manager needs of its observers: [update], which may look at the notified
    instance (a shared object), and the SET event pushed after a restart. *)
Class Observer (O : Type) := {
  obs_update : (ref → Instance) → ref → ObserverEvent → O → O;
  obs_push_set : O → O
}.

(** Two observers attached one after the other. *)
#[global] Instance pair_observer {O1 O2} `{!Observer O1, !Observer O2} : Observer (O1 * O2) := {|
  obs_update st r ev o := (obs_update st r ev o.1, obs_update st r ev o.2);
  obs_push_set o := (obs_push_set o.1, obs_push_set o.2)
|}.

(** An observer that ignores everything. *)
#[global] Instance unit_observer : Observer unit := {|
  obs_update _ _ _ _ := tt;
  obs_push_set _ := tt
|}.

(** ** The state machine *)

Definition transitions (from : InsStatus) (ev : InsConditionEvent) : option InsStatus :=
  match from, ev with
  | INITIAL, INSTANCE_INIT => Some INITIAL
  | INITIAL, INSTANCE_NORMAL => Some ACTIVE
  | INITIAL, INSTANCE_ABNORMAL => Some INACTIVE
  | INITIAL, INSTANCE_HEARTBEAT_TIMEOUT => Some DELETED
  | ACTIVE, INSTANCE_NORMAL => Some ACTIVE
  | ACTIVE, INSTANCE_HEARTBEAT_TIMEOUT => Some INACTIVE
  | ACTIVE, INSTANCE_ABNORMAL => Some INACTIVE
  | INACTIVE, INSTANCE_ABNORMAL => Some INACTIVE
  | INACTIVE, INSTANCE_NORMAL => Some ACTIVE
  | INACTIVE, INSTANCE_INIT => Some INITIAL
  | INACTIVE, INSTANCE_HEARTBEAT_TIMEOUT => Some DELETED
  | _, _ => None
  end.

(** ** Persistence

    [D] is the JSON form of an instance ([dump] is [model_dump], [load] validation,
    [None] when it fails), [checksum] the hash over items, version and timestamp. *)
Class Codec (D : Type) := {
  dump : Instance → D;
  load : D → option Instance;
  checksum_of : dict Z D → Z → f64 → string
}.

Record PersistentState (D : Type) := mkPState {
  ps_data : dict Z D;
  ps_version : Z;
  ps_timestamp : f64;
  ps_checksum : string
}.
Arguments mkPState {D}.
Arguments ps_data {D}.
Arguments ps_version {D}.
Arguments ps_timestamp {D}.
Arguments ps_checksum {D}.

Definition calculate_checksum `{Codec D} (p : PersistentState D) : string :=
  checksum_of (ps_data p) (ps_version p) (ps_timestamp p).

Definition is_valid `{Codec D} (p : PersistentState D) : bool :=
  bool_decide (ps_checksum p = calculate_checksum p).

(** How [EtcdClient.persist_data] ends: the old data stays, as when the lock is not taken; the
    old data is deleted but the new is not stored; stored, though the call reports that it
    failed; stored. *)
Inductive etcd_outcome := EtcdLocked | EtcdLost | EtcdUnsure | EtcdStored.

(** ** State *)

Inductive ctl_alarm :=
| InstanceAlarm (job : string) (cleared : bool)
| CoordinatorAlarm (cleared : bool)
| ServerAlarm (groups : dict string (list Z)).

Section manager.
Context {O D : Type} `{!Observer O, !Codec D}.

Record Ctl := mkCtl {
  cstore : ref → Instance;
  cnext : ref;
  instances : dict Z ref;
  forced_separated_instances : gset Z;
  data_version : Z;
  enable_persistence : bool;
  etcd : option (PersistentState D);
  observers : O;
  (** the calls of [notify] and the alarms raised, in order *)
  notified : list (ref * ObserverEvent);
  alarms : list ctl_alarm
}.

Definition Ctl_init (st : ref → Instance) (next : ref) (persist : bool) (e : option (PersistentState D)) (o : O)
    : Ctl :=
  mkCtl st next [] ∅ 0 persist e o [] [].

Definition set_cstore (s : Ctl) st : Ctl :=
  mkCtl st (cnext s) (instances s) (forced_separated_instances s) (data_version s) (enable_persistence s)
    (etcd s) (observers s) (notified s) (alarms s).
Definition set_next (s : Ctl) n : Ctl :=
  mkCtl (cstore s) n (instances s) (forced_separated_instances s) (data_version s) (enable_persistence s)
    (etcd s) (observers s) (notified s) (alarms s).
Definition set_instances (s : Ctl) d : Ctl :=
  mkCtl (cstore s) (cnext s) d (forced_separated_instances s) (data_version s) (enable_persistence s)
    (etcd s) (observers s) (notified s) (alarms s).
Definition set_forced (s : Ctl) f : Ctl :=
  mkCtl (cstore s) (cnext s) (instances s) f (data_version s) (enable_persistence s)
    (etcd s) (observers s) (notified s) (alarms s).
Definition set_version (s : Ctl) v : Ctl :=
  mkCtl (cstore s) (cnext s) (instances s) (forced_separated_instances s) v (enable_persistence s)
    (etcd s) (observers s) (notified s) (alarms s).
Definition set_etcd (s : Ctl) e : Ctl :=
  mkCtl (cstore s) (cnext s) (instances s) (forced_separated_instances s) (data_version s)
    (enable_persistence s) e (observers s) (notified s) (alarms s).
Definition set_observers (s : Ctl) o : Ctl :=
  mkCtl (cstore s) (cnext s) (instances s) (forced_separated_instances s) (data_version s)
    (enable_persistence s) (etcd s) o (notified s) (alarms s).
Definition log_notified (s : Ctl) x : Ctl :=
  mkCtl (cstore s) (cnext s) (instances s) (forced_separated_instances s) (data_version s)
    (enable_persistence s) (etcd s) (observers s) (notified s ++ [x]) (alarms s).
Definition log_alarm (s : Ctl) x : Ctl :=
  mkCtl (cstore s) (cnext s) (instances s) (forced_separated_instances s) (data_version s)
    (enable_persistence s) (etcd s) (observers s) (notified s) (alarms s ++ [x]).

(** What a step sees of the outside: the clock, the answer of a node manager's status
    query ([None]: failed or malformed), how a write to etcd ends and whether reads of it succeed. *)
Record CtlEnv := mkCtlEnv {
  now : f64;
  query_status : NodeManagerInfo → option bool;
  etcd_write : etcd_outcome;
  etcd_reads : bool
}.

(** ** Methods *)

Definition set_ins (s : Ctl) (r : ref) (i : Instance) : Ctl := set_cstore s (store_set (cstore s) r i).

Definition update_status (r : ref) (st : InsStatus) : M Ctl unit :=
  mmodify (λ s, set_ins s r (update_instance_status (cstore s r) st)).

Definition notify (r : ref) (ev : ObserverEvent) : M Ctl unit :=
  mmodify (λ s, set_observers (log_notified s (r, ev)) (obs_update (cstore s) r ev (observers s))).

Definition add_alarm (a : ctl_alarm) : M Ctl unit := mmodify (λ s, log_alarm s a).

Definition of_status (s : Ctl) (st : InsStatus) : list ref :=
  filter (λ r, status (cstore s r) = st) (dvalues (instances s)).
Definition get_active_instances (s : Ctl) : list ref := of_status s ACTIVE.
Definition get_initial_instances (s : Ctl) : list ref := of_status s INITIAL.
Definition get_inactive_instances (s : Ctl) : list ref := of_status s INACTIVE.

Definition get_instance (s : Ctl) (ins_id : Z) : option ref := dget (instances s) ins_id.

Definition get_instance_by_podip (s : Ctl) (ip : string) : option ref :=
  List.find (λ r, is_ip_in_endpoints (cstore s r) ip) (dvalues (instances s)).

Definition has_instance_by_job_name (s : Ctl) (job : string) : bool :=
  existsb (λ r, bool_decide (job_name (cstore s r) = job)) (dvalues (instances s)).

Definition has_active_instance_by_job_name (s : Ctl) (job : string) : bool :=
  existsb (λ r, bool_decide (job_name (cstore s r) = job) && bool_decide (status (cstore s r) = ACTIVE))
    (dvalues (instances s)).

(** [persist_data]; the write deletes the old data first. *)
Definition persist_data (env : CtlEnv) : M Ctl bool := λ s,
  let v := data_version s + 1 in
  let data := map (λ '(id, r), (id, dump (cstore s r))) (instances s) in
  let p := mkPState data v (now env) ""%string in
  let p := mkPState data v (now env) (calculate_checksum p) in
  let s := set_version s v in
  match etcd_write env with
  | EtcdLocked => (s, Ret false)
  | EtcdLost => (set_etcd s None, Ret false)
  | EtcdUnsure => (set_etcd s (Some p), Ret false)
  | EtcdStored => (set_etcd s (Some p), Ret true)
  end.

(** The heartbeat of every endpoint is set to the current time. *)
Definition refresh_heartbeats (i : Instance) (t : f64) : Instance :=
  set_endpoints i (map (λ '(ip, pod), (ip, map (λ '(k, e), (k, set_hb e t)) pod)) (endpoints i)).

Definition maybe_refresh_heartbeat (r : ref) (t : f64) (should_notify : bool) : M Ctl unit :=
  s ← mget;
  if decide (status (cstore s r) = ACTIVE) then
    mmodify (λ s, set_ins s r (refresh_heartbeats (cstore s r) t)) ;;
    (if should_notify then notify r INSTANCE_READY else mret tt)
  else mret tt.

(** One entry of the data: a new object, announced when active, then filed. *)
Definition restore_instance (env : CtlEnv) (i : Instance) : M Ctl unit :=
  s ← mget;
  let r := cnext s in
  mmodify (λ s, set_next (set_ins s r i) (S r)) ;;
  maybe_refresh_heartbeat r (now env) true ;;
  mmodify (λ s, set_instances s (dset (instances s) (ins_id i) r)).

(** Entries that cannot be read are skipped. *)
Fixpoint restore_instances (env : CtlEnv) (l : list (Z * D)) : M Ctl unit :=
  match l with
  | [] => mret tt
  | (_, d) :: l =>
      match load d with
      | None => mret tt
      | Some i => restore_instance env i
      end ;;
      restore_instances env l
  end.

(** [restore_data]: a read that fails gives no data. *)
Definition restore_data (env : CtlEnv) : M Ctl bool :=
  s ← mget;
  match (if etcd_reads env then etcd s else None) with
  | None => mret true
  | Some p =>
      if is_valid p then
        mmodify (λ s, set_version s (Z.max (data_version s) (ps_version p))) ;;
        mmodify (λ s, set_instances s []) ;;
        restore_instances env (ps_data p) ;;
        mmodify (λ s, set_observers s (obs_push_set (observers s))) ;;
        mret true
      else mret false
  end.

(** [start], up to the creation of the thread. *)
Definition start (env : CtlEnv) : M Ctl unit :=
  s ← mget;
  if enable_persistence s then restore_data env ;; mret tt
  else mfor (dvalues (instances s)) (λ r, maybe_refresh_heartbeat r (now env) false).

Definition add_instance (env : CtlEnv) (r : ref) : M Ctl unit :=
  s ← mget;
  let i := cstore s r in
  if dhas (instances s) (ins_id i) then mret tt
  else
    mmodify (λ s, set_instances s (dset (instances s) (ins_id i) r)) ;;
    mfor (dkeys (endpoints i)) (λ ip,
      s ← mget;
      let initial_status :=
        fold_left (λ acc e, dset acc (ep_id e) EP_INITIAL) (dvalues (get_endpoints (cstore s r) ip)) [] in
      let '(i', res) := update_heartbeat (cstore s r) ip (now env) initial_status in
      mmodify (λ s, set_ins s r i') ;; mlift (_ ← res; mret tt)) ;;
    notify r INSTANCE_INITIAL.

Definition del_instance (ins_id : Z) : M Ctl unit :=
  mmodify (λ s,
    if dhas (instances s) ins_id
    then set_forced (set_instances s (ddel (instances s) ins_id)) (forced_separated_instances s ∖ {[ins_id]})
    else s).

Definition report_inst_alarm (r : ref) (is_cleared : bool) : M Ctl unit :=
  s ← mget; add_alarm (InstanceAlarm (job_name (cstore s r)) is_cleared).

Definition role_to_partner (rl : string) : option string :=
  if decide (rl = "prefill"%string) then Some "decode"%string
  else if decide (rl = "decode"%string) then Some "prefill"%string else None.

Definition report_coordinator_alarm (r : ref) (is_cleared : bool) : M Ctl unit :=
  s ← mget;
  let rl := if is_cleared then role_to_partner (role (cstore s r)) else Some (role (cstore s r)) in
  match rl with
  | None => mret tt
  | Some rl =>
      let has_role := existsb (λ r', bool_decide (role (cstore s r') = rl)) (get_active_instances s) in
      if Bool.eqb has_role is_cleared then add_alarm (CoordinatorAlarm is_cleared) else mret tt
  end.

(** True when a node manager is missing, unreachable or reports abnormal. *)
Definition check_node_managers_status (env : CtlEnv) (i : Instance) : bool :=
  match node_managers i with
  | [] => true
  | nms => existsb (λ nm, match query_status env nm with Some b => negb b | None => true end) nms
  end.

(** The handlers of the target states. *)
Definition handle_initial (from : InsStatus) (ev : InsConditionEvent) (r : ref) : M Ctl unit :=
  if decide (from = INITIAL) then mret tt
  else if decide (from = INACTIVE ∧ ev = INSTANCE_INIT) then update_status r INITIAL
  else mret tt.

Definition handle_active (from : InsStatus) (ev : InsConditionEvent) (r : ref) : M Ctl unit :=
  if decide (from = ACTIVE) then mret tt
  else if decide (ev = INSTANCE_NORMAL) then
    update_status r ACTIVE ;; notify r INSTANCE_READY ;;
    report_inst_alarm r true ;; report_coordinator_alarm r true
  else mret tt.

Definition handle_inactive (env : CtlEnv) (from : InsStatus) (ev : InsConditionEvent) (r : ref) : M Ctl unit :=
  if decide (from = INACTIVE) then mret tt
  else if decide (ev = INSTANCE_ABNORMAL) then update_status r INACTIVE ;; notify r INSTANCE_SEPERATED
  else if decide (ev = INSTANCE_HEARTBEAT_TIMEOUT) then
    s ← mget;
    if check_node_managers_status env (cstore s r) then
      update_status r INACTIVE ;; notify r INSTANCE_SEPERATED ;;
      report_inst_alarm r false ;; report_coordinator_alarm r false
    else mmodify (λ s, set_ins s r (refresh_heartbeats (cstore s r) (now env)))
  else mret tt.

Definition handle_deleted (from : InsStatus) (ev : InsConditionEvent) (r : ref) : M Ctl unit :=
  if decide (from = DELETED) then mret tt
  else if decide (ev = INSTANCE_HEARTBEAT_TIMEOUT ∨ ev = INSTANCE_ABNORMAL) then
    update_status r DELETED ;; notify r INSTANCE_REMOVED ;;
    s ← mget; del_instance (ins_id (cstore s r))
  else mret tt.

Definition state_handler (env : CtlEnv) (to from : InsStatus) (ev : InsConditionEvent) (r : ref) : M Ctl unit :=
  match to with
  | INITIAL => handle_initial from ev r
  | ACTIVE => handle_active from ev r
  | INACTIVE => handle_inactive env from ev r
  | DELETED => handle_deleted from ev r
  end.

(** The event is the one given, or read off the endpoints (which may raise an alarm). *)
Definition detect_event (r : ref) (override : option InsConditionEvent) : M Ctl InsConditionEvent :=
  match override with
  | Some ev => mret ev
  | None =>
      s ← mget;
      if is_all_endpoints_ready (cstore s r) then mret INSTANCE_NORMAL
      else
        let '(abnormal, groups) := is_have_one_endpoint_abnormal (cstore s r) in
        (if abnormal then add_alarm (ServerAlarm groups) else mret tt) ;;
        mret (if abnormal then INSTANCE_ABNORMAL else INSTANCE_INIT)
  end.

(** First half of [_handle_state_transition]: what it decided before calling a
    handler: nothing to do, with the value returned, or the handler's arguments. *)
Definition transition_decide (r : ref) (override : option InsConditionEvent)
    : M Ctl (bool + InsStatus * InsConditionEvent * InsStatus) :=
  s ← mget;
  let from := status (cstore s r) in
  ev ← detect_event r override;
  match transitions from ev with
  | None => mret (inl false)
  | Some to =>
      if bool_decide (ins_id (cstore s r) ∈ forced_separated_instances s) && bool_decide (to = ACTIVE)
      then mret (inl true)
      else mret (inr (from, ev, to))
  end.

(** Second half: the handler, persistence on a change, and the forced set. *)
Definition transition_apply (env : CtlEnv) (r : ref) (from : InsStatus) (ev : InsConditionEvent)
    (to : InsStatus) : M Ctl bool :=
  state_handler env to from ev r ;;
  s ← mget;
  (if bool_decide (from ≠ status (cstore s r)) && enable_persistence s
   then persist_data env ;; mret tt else mret tt) ;;
  mmodify (λ s,
    if decide (to = DELETED)
    then set_forced s (forced_separated_instances s ∖ {[ins_id (cstore s r)]}) else s) ;;
  mret true.

Definition handle_state_transition (env : CtlEnv) (r : ref) (override : option InsConditionEvent)
    : M Ctl bool :=
  d ← transition_decide r override;
  match d with
  | inl b => mret b
  | inr (from, ev, to) => transition_apply env r from ev to
  end.

Definition HEARTBEAT_HANDLER_SUCCESS : Z := 200.
Definition HEARTBEAT_HANDLER_ERROR : Z := 500.
Definition HEARTBEAT_HANDLER_RE_REGISTER : Z := 503.

Record HeartbeatMsg := mkHb { hb_ins_id : Z; hb_ip : string; hb_status : dict Z EndpointStatus }.

Definition handle_heartbeat (env : CtlEnv) (msg : option HeartbeatMsg) : M Ctl (bool * Z) :=
  match msg with
  | None => mret (false, HEARTBEAT_HANDLER_ERROR)
  | Some msg =>
      s ← mget;
      match dget (instances s) (hb_ins_id msg) with
      | None => mraise (HTTPException HEARTBEAT_HANDLER_RE_REGISTER)
      | Some r =>
          let '(i, res) := update_heartbeat (cstore s r) (hb_ip msg) (now env) (hb_status msg) in
          mmodify (λ s, set_ins s r i) ;;
          updated ← mlift res;
          if updated : bool then
            ok ← handle_state_transition env r None;
            if ok : bool then mret (true, HEARTBEAT_HANDLER_SUCCESS)
            else mraise (HTTPException HEARTBEAT_HANDLER_ERROR)
          else mraise (HTTPException HEARTBEAT_HANDLER_ERROR)
      end
  end.

(** One instance of the management loop's round, and the round. *)
Definition manage_one (env : CtlEnv) (r : ref) : M Ctl unit :=
  s ← mget;
  if decide (status (cstore s r) = DELETED) then mret tt
  else
    let '(alive, groups) := is_all_endpoints_alive (cstore s r) (now env) in
    if alive then mret tt
    else add_alarm (ServerAlarm groups) ;;
         handle_state_transition env r (Some INSTANCE_HEARTBEAT_TIMEOUT) ;; mret tt.

Definition instances_management_round (env : CtlEnv) : M Ctl unit :=
  s ← mget; mfor (dvalues (instances s)) (manage_one env).

Definition separate_instance (env : CtlEnv) (instance_id : Z) : M Ctl unit :=
  s ← mget;
  match get_instance s instance_id with
  | None => mret tt
  | Some r =>
      mmodify (λ s, set_forced s ({[ins_id (cstore s r)]} ∪ forced_separated_instances s)) ;;
      s ← mget;
      if decide (status (cstore s r) = ACTIVE) then
        update_status r INACTIVE ;; notify r INSTANCE_SEPERATED ;;
        s ← mget;
        if enable_persistence s then persist_data env ;; mret tt else mret tt
      else mret tt
  end.

Definition is_instance_separated (s : Ctl) (instance_id : Z) : bool :=
  match get_instance s instance_id with
  | Some r => bool_decide (ins_id (cstore s r) ∈ forced_separated_instances s)
  | None => false
  end.

Definition recover_instance (instance_id : Z) : M Ctl unit :=
  s ← mget;
  match get_instance s instance_id with
  | Some r =>
      if decide (ins_id (cstore s r) ∈ forced_separated_instances s)
      then mmodify (λ s, set_forced s (forced_separated_instances s ∖ {[ins_id (cstore s r)]}))
      else mret tt
  | None => mret tt
  end.

(** ** Sequences of operations *)

Inductive ctl_op :=
| OAdd (r : ref)
| OHeartbeat (msg : HeartbeatMsg)
| ORound
| OSeparate (instance_id : Z)
| ORecover (instance_id : Z)
| OPersist.

Definition ctl_step (x : CtlEnv * ctl_op) : M Ctl unit :=
  let env := x.1 in
  match x.2 with
  | OAdd r => add_instance env r
  | OHeartbeat msg => handle_heartbeat env (Some msg) ;; mret tt
  | ORound => instances_management_round env
  | OSeparate id => separate_instance env id
  | ORecover id => recover_instance id
  | OPersist => persist_data env ;; mret tt
  end.

(** Exceptions end the request, not the process. *)
Definition ctl_run (s : Ctl) (ops : list (CtlEnv * ctl_op)) : Ctl :=
  fold_left (λ s x, (ctl_step x s).1) ops s.

(** Only fresh instances are added (what the assembler does). *)
Fixpoint ops_ok (s : Ctl) (ops : list (CtlEnv * ctl_op)) : Prop :=
  match ops with
  | [] => True
  | x :: ops =>
      match x.2 with
      | OAdd r => status (cstore s r) = INITIAL
      | _ => True
      end ∧ ops_ok (ctl_step x s).1 ops
  end.
End manager.

(** ** Abstract life cycle

    Per id a status, the separated ids, and the events observers saw: what the manager
    promises the rest of the controller. *)
Record Life := mkLife {
  l_status : gmap Z InsStatus;
  l_forced : gset Z;
  l_events : list (Z * ObserverEvent)
}.

Inductive life_label :=
| LAdd (id : Z)
| LMove (id : Z) (ev : InsConditionEvent)
| LSeparate (id : Z)
| LRecover (id : Z).

(** The event a change of status is announced with. *)
Definition notice_of (to : InsStatus) : option ObserverEvent :=
  match to with
  | INITIAL => None
  | ACTIVE => Some INSTANCE_READY
  | INACTIVE => Some INSTANCE_SEPERATED
  | DELETED => Some INSTANCE_REMOVED
  end.

Definition announce (id : Z) (to : InsStatus) : list (Z * ObserverEvent) :=
  match notice_of to with Some ev => [(id, ev)] | None => [] end.

Definition put_status (m : gmap Z InsStatus) (id : Z) (to : InsStatus) : gmap Z InsStatus :=
  if decide (to = DELETED) then delete id m else <[id := to]> m.

Definition life_step (a : Life) (l : life_label) : option Life :=
  match l with
  | LAdd id =>
      match l_status a !! id with
      | None => Some (mkLife (<[id := INITIAL]> (l_status a)) (l_forced a)
                        (l_events a ++ [(id, INSTANCE_INITIAL)]))
      | Some _ => None
      end
  | LMove id ev =>
      from ← l_status a !! id;
      to ← transitions from ev;
      if decide (to = from) then None
      else if decide (to = ACTIVE ∧ id ∈ l_forced a) then None
      else Some (mkLife (put_status (l_status a) id to)
                   (if decide (to = DELETED) then l_forced a ∖ {[id]} else l_forced a)
                   (l_events a ++ announce id to))
  | LSeparate id =>
      st ← l_status a !! id;
      let a' := mkLife (l_status a) ({[id]} ∪ l_forced a) (l_events a) in
      if decide (st = ACTIVE)
      then Some (mkLife (<[id := INACTIVE]> (l_status a')) (l_forced a')
                   (l_events a' ++ [(id, INSTANCE_SEPERATED)]))
      else Some a'
  | LRecover id =>
      match l_status a !! id with
      | Some _ => Some (mkLife (l_status a) (l_forced a ∖ {[id]}) (l_events a))
      | None => None
      end
  end.

Fixpoint life_run (a : Life) (ls : list life_label) : option Life :=
  match ls with
  | [] => Some a
  | l :: ls => a' ← life_step a l; life_run a' ls
  end.

(** ** Refinement: the manager implements the life cycle *)

Section refinement.
Context {O D : Type} `{!Observer O, !Codec D}.
Implicit Types (s : Ctl (O := O) (D := D)).

(** The abstract state a manager stands for. *)
Definition life_of s : Life :=
  mkLife (list_to_map (map (λ '(id, r), (id, status (cstore s r))) (instances s)))
    (forced_separated_instances s)
    (map (λ '(r, ev), (ins_id (cstore s r), ev)) (notified s)).

(** The table is keyed by the ids of its objects, none of which is deleted. *)
Definition ctl_ok s : Prop :=
  dict_wf (instances s) ∧
  ∀ id r, dget (instances s) id = Some r → ins_id (cstore s r) = id ∧ status (cstore s r) ≠ DELETED.

Definition same_core (i j : Instance) : Prop :=
  ins_id i = ins_id j ∧ job_name i = job_name j ∧ role i = role j ∧ node_managers i = node_managers j.

(** Nothing an observer of the life cycle could notice. *)
Definition quiet s s' : Prop :=
  (∀ r, same_core (cstore s' r) (cstore s r) ∧ status (cstore s' r) = status (cstore s r)) ∧
  instances s' = instances s ∧ forced_separated_instances s' = forced_separated_instances s ∧
  notified s' = notified s.

Definition in_table s (r : ref) : Prop := dget (instances s) (ins_id (cstore s r)) = Some r.

(** [s'] is reached from [s] by abstract steps with labels satisfying [ok]. *)
Definition sim (ok : life_label → Prop) s s' : Prop :=
  ctl_ok s' ∧ (∀ r, same_core (cstore s' r) (cstore s r)) ∧
  ∃ ls, Forall ok ls ∧ life_run (life_of s) ls = Some (life_of s').

(** Lemmas *)

Lemma same_core_refl i : same_core i i.
Proof. done. Qed.

Lemma same_core_trans i j k : same_core i j → same_core j k → same_core i k.
Proof. unfold same_core. intuition congruence. Qed.

Lemma store_set_eq (st : ref → Instance) r i : store_set st r i r = i.
Proof. unfold store_set. by rewrite decide_True. Qed.

Lemma store_set_ne (st : ref → Instance) r i x : x ≠ r → store_set st r i x = st x.
Proof. intros H. unfold store_set. by rewrite decide_False. Qed.

Lemma store_set_core st r i x : same_core i (st r) → same_core (store_set st r i x) (st x).
Proof. intros H. unfold store_set. destruct (decide (x = r)); [by subst|apply same_core_refl]. Qed.

Lemma list_to_map_dget {A B} (g : A → B) (d : dict Z A) k :
  (list_to_map (map (λ '(k, v), (k, g v)) d) : gmap Z B) !! k = g <$> dget d k.
Proof.
  induction d as [|[k' v] d IH]; simpl; [apply lookup_empty|]. case_decide as H.
  - subst. by rewrite lookup_insert_eq.
  - by rewrite lookup_insert_ne.
Qed.

Lemma life_status s id :
  l_status (life_of s) !! id = (λ r, status (cstore s r)) <$> dget (instances s) id.
Proof. apply list_to_map_dget. Qed.

Lemma life_eq a b :
  (∀ id, l_status a !! id = l_status b !! id) → l_forced a = l_forced b → l_events a = l_events b → a = b.
Proof. destruct a, b. simpl. intros H -> ->. f_equal. by apply map_eq. Qed.

Lemma life_run_app a ls ls' : life_run a (ls ++ ls') = life_run a ls ≫= λ b, life_run b ls'.
Proof.
  revert a. induction ls as [|l ls IH]; intros a; simpl; [done|]. by destruct (life_step a l); simpl.
Qed.

Lemma events_core s s' l :
  (∀ r, same_core (cstore s' r) (cstore s r)) →
  map (λ '(r, ev), (ins_id (cstore s' r), ev : ObserverEvent)) l
  = map (λ '(r, ev), (ins_id (cstore s r), ev)) l.
Proof. intros H. apply map_ext. intros [r ev]. by destruct (H r) as (-> & _). Qed.

Lemma quiet_refl s : quiet s s.
Proof. by repeat split. Qed.

Lemma quiet_trans s1 s2 s3 : quiet s1 s2 → quiet s2 s3 → quiet s1 s3.
Proof.
  intros (A1 & B1 & C1 & D1) (A2 & B2 & C2 & D2). split_and!; [|congruence..].
  intros r. destruct (A1 r), (A2 r). split; [by eapply same_core_trans|congruence].
Qed.

Lemma quiet_life s s' : quiet s s' → life_of s' = life_of s.
Proof.
  intros (A & B & C & D'). apply life_eq; simpl; [|done|].
  - intros id. rewrite !list_to_map_dget, B. destruct (dget (instances s) id) as [r|]; simpl; [|done].
    f_equal. apply A.
  - rewrite D'. apply events_core. intros r. apply A.
Qed.

Lemma quiet_ok s s' : quiet s s' → ctl_ok s → ctl_ok s'.
Proof.
  intros (A & B & _) [H1 H2]. unfold ctl_ok. rewrite B. split; [done|]. intros id r Hr.
  destruct (A r) as [(-> & _) ->]. by apply H2.
Qed.

Lemma quiet_in_table s s' r : quiet s s' → in_table s r → in_table s' r.
Proof. intros (A & B & _). unfold in_table. destruct (A r) as [(-> & _) _]. by rewrite B. Qed.

Lemma quiet_sim ok s s' : ctl_ok s → quiet s s' → sim ok s s'.
Proof.
  intros Hs Hq. split; [by eapply quiet_ok|]. split; [intros r; apply Hq|].
  exists []. split; [constructor|]. simpl. by rewrite (quiet_life s s').
Qed.

Lemma sim_trans ok s1 s2 s3 : sim ok s1 s2 → sim ok s2 s3 → sim ok s1 s3.
Proof.
  intros (A1 & B1 & ls1 & C1 & D1) (A2 & B2 & ls2 & C2 & D2).
  split; [done|]. split; [intros r; by eapply same_core_trans|].
  exists (ls1 ++ ls2). split; [by apply Forall_app|]. rewrite life_run_app, D1. exact D2.
Qed.

Lemma in_table_status s r : in_table s r → l_status (life_of s) !! ins_id (cstore s r) = Some (status (cstore s r)).
Proof. intros H. rewrite life_status. unfold in_table in H. by rewrite H. Qed.

Lemma in_table_inj s r r' : in_table s r → in_table s r' → ins_id (cstore s r) = ins_id (cstore s r') → r = r'.
Proof. unfold in_table. intros H1 H2 E. rewrite E in H1. congruence. Qed.

(** A change of status with its announcement is one abstract step. *)
Definition moved s s' r to : Prop :=
  (∃ i, same_core i (cstore s r) ∧ status i = to ∧ ∀ x, cstore s' x = store_set (cstore s) r i x) ∧
  instances s' = (if decide (to = DELETED) then ddel (instances s) (ins_id (cstore s r)) else instances s) ∧
  forced_separated_instances s' =
    (if decide (to = DELETED) then forced_separated_instances s ∖ {[ins_id (cstore s r)]}
     else forced_separated_instances s) ∧
  notified s' = notified s ++ match notice_of to with Some e => [(r, e)] | None => [] end.

Lemma move_sim ok s s' r ev to :
  ctl_ok s → in_table s r → transitions (status (cstore s r)) ev = Some to → to ≠ status (cstore s r) →
  (to = ACTIVE → ins_id (cstore s r) ∉ forced_separated_instances s) →
  ok (LMove (ins_id (cstore s r)) ev) → moved s s' r to → sim ok s s'.
Proof.
  intros [Hwf Hid] Ht Htr Hne Hg Hok ((i & Hc & Hst & Hcs) & Hin & Hf & Hn).
  assert (∀ x, same_core (cstore s' x) (cstore s x)) as Hcore.
  { intros x. rewrite Hcs. by apply store_set_core. }
  assert (∀ id x, dget (instances s) id = Some x → id ≠ ins_id (cstore s r) → cstore s' x = cstore s x) as Hoth.
  { intros id x Hx Hne'. rewrite Hcs. apply store_set_ne. intros ->. by destruct (Hid _ _ Hx). }
  assert (status (cstore s' r) = to) as Hr by (by rewrite Hcs, store_set_eq).
  assert (∀ id, dget (instances s') id =
    if decide (to = DELETED ∧ id = ins_id (cstore s r)) then None else dget (instances s) id) as Hget.
  { intros id. rewrite Hin. destruct (decide (to = DELETED)) as [Hd|Hd].
    - rewrite dget_ddel. destruct (decide (ins_id (cstore s r) = id)) as [He|He].
      + by rewrite decide_True by done.
      + rewrite decide_False by naive_solver. done.
    - rewrite decide_False by naive_solver. done. }
  split; [|split; [done|]].
  - split; [rewrite Hin; destruct (decide (to = DELETED)); [by apply dict_wf_ddel|done]|].
    intros id x Hx. rewrite Hget in Hx. destruct (decide _) as [|Hnd] in Hx; [done|].
    destruct (Hid id x Hx) as [E1 E2]. destruct (Hcore x) as (-> & _). split; [done|].
    destruct (decide (id = ins_id (cstore s r))) as [->|He].
    + assert (x = r) as -> by (unfold in_table in Ht; congruence). rewrite Hr. naive_solver.
    + by rewrite (Hoth id).
  - exists [LMove (ins_id (cstore s r)) ev]. split; [by repeat constructor|]. simpl.
    rewrite in_table_status by done. simpl. rewrite Htr. simpl. rewrite decide_False by done.
    rewrite decide_False by naive_solver. simpl. f_equal. apply life_eq; cbn [l_status l_forced l_events].
    + intros id. rewrite life_status, Hget. unfold put_status.
      destruct (decide (id = ins_id (cstore s r))) as [->|He].
      * destruct (decide (to = DELETED)) as [Hd|Hd].
        -- rewrite decide_True by done. by rewrite lookup_delete_eq.
        -- rewrite decide_False by naive_solver. rewrite lookup_insert_eq. unfold in_table in Ht.
           rewrite Ht. simpl. by rewrite Hr.
      * rewrite (decide_False (P := to = DELETED ∧ _)) by naive_solver.
        destruct (decide (to = DELETED)); rewrite ?lookup_delete_ne, ?lookup_insert_ne by done;
          rewrite list_to_map_dget; destruct (dget (instances s) id) as [x|] eqn:E; simpl; rewrite ?(Hoth id) by done; done.
    + done.
    + simpl. rewrite Hn, map_app, (events_core s s') by done. f_equal. unfold announce.
      destruct (notice_of to); simpl; [|done]. by destruct (Hcore r) as (-> & _).
Qed.

Lemma moved_in_table s s' r to r' :
  moved s s' r to → in_table s r → in_table s r' → r' ≠ r → in_table s' r'.
Proof.
  intros ((i & Hc & _ & Hcs) & Hin & _) Ht Ht' Hne. unfold in_table. rewrite Hcs, Hin.
  rewrite store_set_ne by done. destruct (decide (to = DELETED)); [|done].
  rewrite dget_ddel_ne; [done|]. intros E. apply Hne. by eapply in_table_inj.
Qed.

Lemma quiet_alarm s a : quiet s (log_alarm s a).
Proof. by repeat split. Qed.

Lemma detect_event_spec r ov s :
  ∃ s1 ev, detect_event r ov s = (s1, Ret ev) ∧ quiet s s1 ∧ cstore s1 = cstore s.
Proof.
  unfold detect_event, mbind, M_bind, mget. destruct ov as [ev|]; [by exists s, ev; split; [|split]; [|apply quiet_refl|]|].
  destruct (is_all_endpoints_ready _); [by exists s, INSTANCE_NORMAL; split; [|split]; [|apply quiet_refl|]|].
  destruct (is_have_one_endpoint_abnormal _) as [[] g]; simpl.
  - exists (log_alarm s (ServerAlarm g)), INSTANCE_ABNORMAL. split; [done|]. split; [apply quiet_alarm|done].
  - exists s, INSTANCE_INIT. split; [done|]. split; [apply quiet_refl|done].
Qed.

Lemma persist_quiet env s : ∃ s' b, persist_data env s = (s', Ret b) ∧ quiet s s' ∧ cstore s' = cstore s.
Proof. unfold persist_data. destruct (etcd_write env); eexists _, _; (split; [done|by repeat split]). Qed.

Lemma report_coordinator_quiet r c s : ∃ s', report_coordinator_alarm r c s = (s', Ret tt) ∧ quiet s s'.
Proof.
  unfold report_coordinator_alarm, mbind, M_bind, mget.
  destruct (if c then _ else _); [|by exists s; split; [|apply quiet_refl]].
  destruct (Bool.eqb _ _); [by eexists; split; [|apply quiet_alarm]|by exists s; split; [|apply quiet_refl]].
Qed.

(** The state after a status change and its announcement. *)
Definition announced s r to e : Ctl := (notify r e (update_status r to s).1).1.

Lemma announce_moved r to e s :
  notice_of to = Some e → to ≠ DELETED → moved s (announced s r to e) r to.
Proof.
  intros Hn Hd. split.
  - by eexists; split; [|split]; [..|done].
  - simpl. rewrite Hn. by rewrite !decide_False.
Qed.

Lemma quiet_refresh s r t : quiet s (set_ins s r (refresh_heartbeats (cstore s r) t)).
Proof.
  split; [|done]. intros x. simpl. unfold store_set. destruct (decide (x = r)); [by subst|done].
Qed.

(** What a handler did: nothing an observer sees (then the target is the source, or the
    time-out was a false alarm), or the move with its announcement. *)
Definition handled env to from ev r s s' : Prop :=
  (to ≠ DELETED ∧ quiet s s' ∧
   (to = from ∨ (ev = INSTANCE_HEARTBEAT_TIMEOUT ∧ check_node_managers_status env (cstore s r) = false ∧
                 cstore s' = store_set (cstore s) r (refresh_heartbeats (cstore s r) (now env))))) ∨
  (to ≠ from ∧ (ev = INSTANCE_HEARTBEAT_TIMEOUT → to = INACTIVE → check_node_managers_status env (cstore s r) = true) ∧
   ∃ s1, moved s s1 r to ∧ quiet s1 s').

Lemma handler_spec env to from ev r s :
  from = status (cstore s r) → transitions from ev = Some to → in_table s r →
  ∃ s', state_handler env to from ev r s = (s', Ret tt) ∧
    handled env to from ev r s s'.
Proof.
  intros Hf Ht Hin. destruct to; simpl.
  - unfold handle_initial. destruct (decide (from = INITIAL)); [exists s; split; [done|left; split; [done|]; split; [apply quiet_refl|left; by destruct from, ev; naive_solver]]|].
    destruct (decide _) as [[E1 E2]|]; [|exists s; split; [done|left; split; [done|]; split; [apply quiet_refl|left; by destruct from, ev; naive_solver]]].
    eexists. split; [done|]. right. split; [done|]. split; [done|]. eexists. split; [|apply quiet_refl].
    split; [by eexists; split; [|split]; [..|done]|]. simpl. by rewrite app_nil_r.
  - unfold handle_inactive. destruct (decide (from = INACTIVE)); [exists s; split; [done|left; split; [done|]; split; [apply quiet_refl|left; by destruct from, ev; naive_solver]]|].
    pose proof (announce_moved r INACTIVE INSTANCE_SEPERATED s eq_refl ltac:(done)) as Hm. set (s1 := announced s r INACTIVE INSTANCE_SEPERATED) in *.
    destruct (decide (ev = INSTANCE_ABNORMAL)).
    { exists s1. split; [done|]. right. split; [done|]. split; [by intros ->|]. exists s1. split; [done|apply quiet_refl]. }
    destruct (decide (ev = INSTANCE_HEARTBEAT_TIMEOUT)); [|exists s; split; [done|left; split; [done|]; split; [apply quiet_refl|left; by destruct from, ev; naive_solver]]].
    erewrite M_bind_Ret by reflexivity. destruct (check_node_managers_status _ _) eqn:Ec.
    + set (s2 := log_alarm s1 (InstanceAlarm (job_name (cstore s1 r)) false)).
      destruct (report_coordinator_quiet r false s2) as (s3 & E3 & Hq).
      exists s3. split; [do 3 (erewrite M_bind_Ret by reflexivity); exact E3|].
      right. split; [done|]. split; [done|]. exists s1. split; [done|]. by apply (quiet_trans _ s2).
    + eexists. split; [done|]. left. split; [done|]. split; [apply quiet_refresh|by right].
  - unfold handle_active. destruct (decide (from = ACTIVE)); [exists s; split; [done|left; split; [done|]; split; [apply quiet_refl|left; by destruct from, ev; naive_solver]]|].
    destruct (decide (ev = INSTANCE_NORMAL)); [|exists s; split; [done|left; split; [done|]; split; [apply quiet_refl|left; by destruct from, ev; naive_solver]]].
    pose proof (announce_moved r ACTIVE INSTANCE_READY s eq_refl ltac:(done)) as Hm. set (s1 := announced s r ACTIVE INSTANCE_READY) in *.
    set (s2 := log_alarm s1 (InstanceAlarm (job_name (cstore s1 r)) true)).
    destruct (report_coordinator_quiet r true s2) as (s3 & E3 & Hq).
    exists s3. split; [do 3 (erewrite M_bind_Ret by reflexivity); exact E3|].
    right. split; [done|]. split; [done|]. exists s1. split; [done|]. by apply (quiet_trans _ s2).
  - unfold handle_deleted. assert (from ≠ DELETED) as Hd by (intros ->; by destruct ev).
    rewrite decide_False by done. rewrite decide_True by (destruct from, ev; naive_solver).
    eexists. split; [done|]. right. split; [done|]. split; [done|]. eexists. split; [|apply quiet_refl].
    unfold del_instance, mmodify. cbn.
    assert (dhas (instances s) (ins_id (store_set (cstore s) r (update_instance_status (cstore s r) DELETED) r)) = true)
      as ->.
    { apply dhas_true. rewrite store_set_eq. simpl. unfold in_table in Hin. rewrite Hin. by eexists. }
    rewrite store_set_eq. split; [by eexists; split; [|split]; [..|done]|done].
Qed.

Lemma apply_spec env r from ev to s :
  from = status (cstore s r) → transitions from ev = Some to → in_table s r →
  ∃ s', transition_apply env r from ev to s = (s', Ret true) ∧
    handled env to from ev r s s'.
Proof.
  intros Hf Htr Ht. unfold transition_apply.
  destruct (handler_spec env to from ev r s Hf Htr Ht) as (s2 & E2 & Hcase).
  rewrite (M_bind_Ret _ _ _ _ _ E2). erewrite M_bind_Ret by reflexivity.
  assert (∃ s3, (if bool_decide (from ≠ status (cstore s2 r)) && enable_persistence s2
    then persist_data env ;; mret tt else mret tt) s2 = (s3, Ret tt) ∧ quiet s2 s3 ∧ cstore s3 = cstore s2)
    as (s3 & E3 & Hq3 & Hcs3).
  { destruct (_ && _); [|by exists s2; split; [|split; [apply quiet_refl|]]].
    destruct (persist_quiet env s2) as (s3 & b & E & Hq & Hc). exists s3. split; [|done].
    by rewrite (M_bind_Ret _ _ _ _ _ E). }
  rewrite (M_bind_Ret _ _ _ _ _ E3). erewrite M_bind_Ret by reflexivity.
  eexists. split; [done|]. destruct Hcase as [(Hd & Hq & He)|(Hne & Hc & sm & Hm & Hq)].
  - left. split; [done|]. rewrite decide_False by done. split; [by apply (quiet_trans _ s2)|].
    destruct He as [|(A & B & C)]; [by left|right]. split; [done|]. split; [done|]. by rewrite Hcs3.
  - right. split; [done|]. split; [done|]. exists sm. split; [done|].
    assert (quiet sm s3) as Hq2 by (by eapply quiet_trans).
    destruct (decide (to = DELETED)) as [->|]; [|done]. eapply quiet_trans; [done|].
    split; [done|]. split; [done|]. split; [|done]. simpl. destruct Hq2 as (A & _ & -> & _).
    destruct Hm as ((i & Hi & _ & Hcs) & _ & -> & _). rewrite decide_True by done.
    destruct (A r) as [(-> & _) _]. rewrite Hcs, store_set_eq. destruct Hi as (-> & _). set_solver.
Qed.

(** A transition of an object of the table is at most one abstract move. *)
Lemma transition_sim ok env r ov s :
  ctl_ok s → in_table s r → (∀ id ev, ok (LMove id ev)) →
  ∃ s' b, handle_state_transition env r ov s = (s', Ret b) ∧ sim ok s s' ∧
    ∀ r', r' ≠ r → in_table s r' → in_table s' r'.
Proof.
  intros Hs Ht Hok. unfold handle_state_transition, transition_decide.
  destruct (detect_event_spec r ov s) as (s1 & ev & E1 & Hq1 & Hc1).
  assert (sim ok s s1 ∧ ∀ r', r' ≠ r → in_table s r' → in_table s1 r') as Hstop.
  { split; [by apply quiet_sim|]. intros r' _. by apply quiet_in_table. }
  unfold mbind, M_bind, mget. rewrite E1.
  destruct (transitions (status (cstore s r)) ev) as [to|] eqn:Htr; [|by exists s1, false].
  destruct (_ && _) eqn:Hg; [by exists s1, true|].
  pose proof (quiet_ok s s1 Hq1 Hs) as Hs1. pose proof (quiet_in_table s s1 r Hq1 Ht) as Ht1.
  destruct (apply_spec env r (status (cstore s r)) ev to s1) as (s2 & E2 & Hcase); [by rewrite Hc1|done|done|].
  exists s2, true. split; [exact E2|].
  destruct Hcase as [(Hd & Hq & _)|(Hne & _ & sm & Hm & Hq)].
  - assert (quiet s s2) by (by eapply quiet_trans).
    split; [by apply quiet_sim|]. intros r' _. by apply quiet_in_table.
  - rewrite <- Hc1 in Hne, Htr. assert (sim ok s1 sm) as Hsim.
    { eapply move_sim; try done. intros ->. rewrite Hc1. destruct Hq1 as (_ & _ & -> & _).
      apply andb_false_iff in Hg as [Hg|Hg]; by apply bool_decide_eq_false in Hg. }
    split.
    + apply (sim_trans _ _ s1); [by apply quiet_sim|]. apply (sim_trans _ _ sm); [done|].
      apply quiet_sim; [apply Hsim|done].
    + intros r' Hr' Ht'. eapply quiet_in_table; [done|]. eapply moved_in_table; [done|done| |done].
      by apply (quiet_in_table s).
Qed.

(** *** The operations *)

(** A write that keeps ids, names, roles and status. *)
Lemma quiet_set_ins s r i :
  same_core i (cstore s r) → status i = status (cstore s r) → quiet s (set_ins s r i).
Proof.
  intros Hc Hs. split; [|done]. intros x. simpl. split; [by apply store_set_core|].
  unfold store_set. by destruct (decide (x = r)) as [->|].
Qed.

Lemma update_heartbeat_core i ip ts st :
  let i' := (update_heartbeat i ip ts st).1 in same_core i' i ∧ status i' = status i.
Proof.
  unfold update_heartbeat. destruct (dget (endpoints i) ip) as [pod|]; [|done].
  destruct (bool_decide _); [done|]. by destruct (heartbeat_pod ts st pod).
Qed.

Lemma update_heartbeat_refused i ip ts st :
  (update_heartbeat i ip ts st).2 = Ret false → (update_heartbeat i ip ts st).1 = i.
Proof.
  unfold update_heartbeat. destruct (dget (endpoints i) ip) as [pod|]; [|done].
  destruct (bool_decide (length pod ≠ length st)); [done|]. by destruct (heartbeat_pod ts st pod) as [? []].
Qed.

Lemma initial_status_covers (l : list Endpoint) (acc : dict Z EndpointStatus) e :
  e ∈ l ∨ is_Some (dget acc (ep_id e)) →
  is_Some (dget (fold_left (λ acc e, dset acc (ep_id e) EP_INITIAL) l acc) (ep_id e)).
Proof.
  revert acc. induction l as [|x l IH]; intros acc [H|H]; simpl; [by apply elem_of_nil in H|done|..].
  - apply IH. apply elem_of_cons in H as [->|H]; [|by left]. right. rewrite dget_dset_eq. by eexists.
  - apply IH. right. rewrite dget_dset. case_decide; [by eexists|done].
Qed.

(** The heartbeats written by an addition never fail. *)
Lemma add_heartbeats_quiet env r ips s :
  ∃ s', mfor ips (λ ip,
      s ← mget;
      let initial_status :=
        fold_left (λ acc e, dset acc (ep_id e) EP_INITIAL) (dvalues (get_endpoints (cstore s r) ip)) [] in
      let '(i', res) := update_heartbeat (cstore s r) ip (now env) initial_status in
      mmodify (λ s, set_ins s r i') ;; mlift (_ ← res; mret tt)) s = (s', Ret tt) ∧ quiet s s'.
Proof.
  revert s. induction ips as [|ip ips IH]; intros s; [by exists s; split; [|apply quiet_refl]|].
  cbn [mfor]. set (st := fold_left (λ (acc : dict Z EndpointStatus) e, dset acc (ep_id e) EP_INITIAL)
    (dvalues (get_endpoints (cstore s r) ip)) []).
  assert (∃ b, (update_heartbeat (cstore s r) ip (now env) st).2 = Ret b) as [b Hb].
  { unfold update_heartbeat, get_endpoints in *. destruct (dget (endpoints (cstore s r)) ip) as [pod|] eqn:E;
      [|by exists false].
    destruct (bool_decide _); [by exists false|]. rewrite heartbeat_pod_ok; [by exists true|].
    intros e He. apply initial_status_covers. by left. }
  pose proof (update_heartbeat_core (cstore s r) ip (now env) st) as [Hc Hst].
  destruct (update_heartbeat (cstore s r) ip (now env) st) as [i' res] eqn:Eu. simpl in Hb, Hc, Hst. subst res.
  set (s1 := set_ins s r i'). destruct (IH s1) as (s' & E' & Hq).
  exists s'. split; [|by eapply quiet_trans; [apply quiet_set_ins|]].
  erewrite M_bind_Ret; [exact E'|]. unfold mbind, M_bind, mget. fold st. rewrite Eu. done.
Qed.

Definition op_labels s (o : ctl_op) (l : life_label) : Prop :=
  match l with
  | LAdd id => ∃ r, o = OAdd r ∧ ins_id (cstore s r) = id
  | LMove _ _ => match o with OHeartbeat _ | ORound => True | _ => False end
  | LSeparate id => o = OSeparate id
  | LRecover id => o = ORecover id
  end.

Lemma add_sim env r s :
  ctl_ok s → status (cstore s r) = INITIAL → sim (op_labels s (OAdd r)) s (add_instance env r s).1.
Proof.
  intros Hs Hst. pose proof Hs as [Hwf Hid]. unfold add_instance. erewrite M_bind_Ret by reflexivity.
  destruct (dhas (instances s) (ins_id (cstore s r))) eqn:Eh; [apply quiet_sim; [done|apply quiet_refl]|].
  apply dhas_false in Eh. erewrite M_bind_Ret by reflexivity.
  set (s1 := set_instances s (dset (instances s) (ins_id (cstore s r)) r)).
  destruct (add_heartbeats_quiet env r (dkeys (endpoints (cstore s r))) s1) as (s2 & E2 & Hq).
  rewrite (M_bind_Ret _ _ _ _ _ E2). destruct Hq as (A & B & C & N). cbn [notify mmodify fst].
  assert (∀ x, same_core (cstore s2 x) (cstore s x) ∧ status (cstore s2 x) = status (cstore s x)) as A' by apply A.
  split; [|split].
  - split; simpl; rewrite B; simpl; [by apply dict_wf_dset|]. intros id x Hx. rewrite dget_dset in Hx.
    destruct (A' x) as [(-> & _) ->]. case_decide as Hd; [|by apply Hid].
    injection Hx as <-. split; [done|]. by rewrite Hst.
  - intros x. apply A'.
  - exists [LAdd (ins_id (cstore s r))]. split; [by repeat constructor; exists r|].
    cbn [life_run life_step]. rewrite life_status, Eh. simpl. f_equal. apply life_eq; simpl; [|done|].
    + intros id. rewrite list_to_map_dget, B. simpl. rewrite lookup_insert, dget_dset.
      destruct (A' r) as [_ Er]. repeat case_decide; try done; simpl; [by rewrite Er, Hst|].
      rewrite list_to_map_dget. destruct (dget (instances s) id) as [x|]; simpl; [|done].
      by destruct (A' x) as [_ ->].
    + rewrite N, map_app, (events_core s s2) by apply A'. simpl. by destruct (A' r) as [(-> & _) _].
Qed.

Lemma heartbeat_sim ok env msg s :
  ctl_ok s → (∀ id ev, ok (LMove id ev)) → sim ok s (handle_heartbeat env (Some msg) s).1.
Proof.
  intros Hs Hok. unfold handle_heartbeat. erewrite M_bind_Ret by reflexivity.
  destruct (dget (instances s) (hb_ins_id msg)) as [r|] eqn:Er; [|by apply quiet_sim; [|apply quiet_refl]].
  assert (in_table s r) as Ht by (unfold in_table; by destruct (proj2 Hs _ _ Er) as [-> _]).
  pose proof (update_heartbeat_core (cstore s r) (hb_ip msg) (now env) (hb_status msg)) as [Hc Hst].
  destruct (update_heartbeat _ _ _ _) as [i res]. simpl in Hc, Hst. erewrite M_bind_Ret by reflexivity.
  pose proof (quiet_set_ins s r i Hc Hst) as Hq. set (s1 := set_ins s r i) in *.
  assert (sim ok s s1) as H1 by (by apply quiet_sim).
  destruct res as [[]|]; try done. erewrite M_bind_Ret by reflexivity. cbv iota.
  destruct (transition_sim ok env r None s1) as (s2 & b & E & H2 & _);
    [by eapply quiet_ok|by eapply quiet_in_table|done|].
  rewrite (M_bind_Ret _ _ _ _ _ E). eapply sim_trans; [exact H1|]. by destruct b.
Qed.

Lemma manage_one_sim ok env r s :
  ctl_ok s → in_table s r → (∀ id ev, ok (LMove id ev)) →
  ∃ s', manage_one env r s = (s', Ret tt) ∧ sim ok s s' ∧
    ∀ r', r' ≠ r → in_table s r' → in_table s' r'.
Proof.
  intros Hs Ht Hok. assert (∃ s', (s, Ret tt) = (s', Ret tt) ∧ sim ok s s' ∧
    ∀ r', r' ≠ r → in_table s r' → in_table s' r') as Hid.
  { exists s. split; [done|]. split; [by apply quiet_sim; [|apply quiet_refl]|done]. }
  unfold manage_one. erewrite M_bind_Ret by reflexivity. destruct (decide _); [exact Hid|].
  destruct (is_all_endpoints_alive _ _) as [[] g]; [exact Hid|]. erewrite M_bind_Ret by reflexivity.
  set (s1 := log_alarm s (ServerAlarm g)). pose proof (quiet_alarm s (ServerAlarm g)) as Hq. fold s1 in Hq.
  destruct (transition_sim ok env r (Some INSTANCE_HEARTBEAT_TIMEOUT) s1) as (s2 & b & E & H2 & Hoth);
    [by eapply quiet_ok|by eapply quiet_in_table|done|].
  exists s2. split; [by rewrite (M_bind_Ret _ _ _ _ _ E)|]. split; [|done].
  eapply sim_trans; [by apply quiet_sim|exact H2].
Qed.

Lemma manage_all_sim ok env rs s :
  ctl_ok s → NoDup rs → Forall (in_table s) rs → (∀ id ev, ok (LMove id ev)) →
  ∃ s', mfor rs (manage_one env) s = (s', Ret tt) ∧ sim ok s s'.
Proof.
  revert s. induction rs as [|r rs IH]; intros s Hs Hnd Hrs Hok.
  { exists s. split; [done|]. by apply quiet_sim; [|apply quiet_refl]. }
  apply NoDup_cons in Hnd as [Hn Hnd]. apply Forall_cons in Hrs as [Hr Hrs].
  destruct (manage_one_sim ok env r s Hs Hr Hok) as (s1 & E1 & H1 & Hoth).
  destruct (IH s1) as (s2 & E2 & H2); [apply H1|done| |done|].
  { rewrite Forall_forall in Hrs |- *. intros x Hx. apply Hoth; [|by apply Hrs]. by intros ->. }
  exists s2. split; [|by eapply sim_trans]. cbn [mfor]. by rewrite (M_bind_Ret _ _ _ _ _ E1).
Qed.

Lemma table_refs s : ctl_ok s → NoDup (dvalues (instances s)) ∧ Forall (in_table s) (dvalues (instances s)).
Proof.
  intros [Hwf Hid]. assert (Forall (in_table s) (dvalues (instances s))) as HF.
  { apply Forall_forall. intros r [id Hin]%in_dvalues. apply (dget_in_wf _ _ _ Hwf) in Hin.
    unfold in_table. by destruct (Hid _ _ Hin) as [-> _]. }
  split; [|done].
  assert ((λ r, ins_id (cstore s r)) <$> dvalues (instances s) = dkeys (instances s)) as E.
  { unfold dvalues, dkeys. rewrite <- list_fmap_compose. apply list_fmap_ext.
    intros i [id r] Hi. simpl. apply list_elem_of_lookup_2 in Hi. apply (dget_in_wf _ _ _ Hwf) in Hi.
    by destruct (Hid _ _ Hi). }
  apply (NoDup_fmap_1 (λ r, ins_id (cstore s r))). by rewrite E.
Qed.

Lemma separate_sim env id s : ctl_ok s → sim (op_labels s (OSeparate id)) s (separate_instance env id s).1.
Proof.
  intros Hs. pose proof Hs as [Hwf Hid]. unfold separate_instance. erewrite M_bind_Ret by reflexivity.
  unfold get_instance. destruct (dget (instances s) id) as [r|] eqn:Er; [|by apply quiet_sim; [|apply quiet_refl]].
  destruct (Hid _ _ Er) as [Eid Hd]. do 2 (erewrite M_bind_Ret by reflexivity). rewrite Eid.
  set (s1 := set_forced s ({[id]} ∪ forced_separated_instances s)). change (cstore s1 r) with (cstore s r).
  destruct (decide (status (cstore s r) = ACTIVE)) as [Ha|Ha].
  - do 3 (erewrite M_bind_Ret by reflexivity). set (s2 := announced s1 r INACTIVE INSTANCE_SEPERATED).
    assert (∃ s3, (if enable_persistence s2 then persist_data env ;; mret tt else mret tt) s2 = (s3, Ret tt) ∧
      quiet s2 s3) as (s3 & E3 & Hq).
    { destruct (enable_persistence s2); [|by exists s2; split; [|apply quiet_refl]].
      destruct (persist_quiet env s2) as (s3 & b & E & Hq & _). exists s3. by rewrite (M_bind_Ret _ _ _ _ _ E). }
    change (sim (op_labels s (OSeparate id)) s
      ((if enable_persistence s2 then persist_data env ;; mret tt else mret tt) s2).1).
    rewrite E3. simpl. eapply sim_trans; [|apply quiet_sim; [|exact Hq]].
    + assert (∀ x, same_core (cstore s2 x) (cstore s x)) as Hcore by (intros x; by apply store_set_core).
      assert (status (cstore s2 r) = INACTIVE) as Hr by (simpl; by rewrite store_set_eq).
      assert (∀ x, x ≠ r → cstore s2 x = cstore s x) as Hne by (intros x Hx; simpl; by apply store_set_ne).
      split; [|split; [done|]].
      * split; [done|]. intros id' x Hx. destruct (Hid _ _ Hx). destruct (Hcore x) as (-> & _).
        split; [done|]. destruct (decide (x = r)) as [->|Hxr]; [by rewrite Hr|by rewrite Hne].
      * exists [LSeparate id]. split; [by repeat constructor|]. cbn [life_run life_step].
        rewrite life_status, Er. cbn [fmap option_fmap option_map mbind option_bind].
        rewrite Ha, decide_True by done. simpl. f_equal. apply life_eq; simpl; [|done|].
        -- intros id'. rewrite lookup_insert, !list_to_map_dget. destruct (decide (id = id')) as [<-|Hi].
           ++ rewrite Er. simpl. by rewrite store_set_eq.
           ++ destruct (dget (instances s) id') as [x|] eqn:Ex; simpl; [|done].
              rewrite store_set_ne; [done|]. intros ->. by destruct (Hid _ _ Ex) as [? _]; congruence.
        -- rewrite map_app. simpl. rewrite store_set_eq. simpl. rewrite Eid. f_equal.
           symmetry. apply (events_core s s2). done.
    + assert (∀ x, status (cstore s2 x) ≠ DELETED ∨ status (cstore s x) = DELETED) as Hnd.
      { intros x. simpl. unfold store_set. destruct (decide (x = r)); [by left|].
        destruct (decide (status (cstore s x) = DELETED)); [by right|by left]. }
      split; [done|]. intros id' x Hx. destruct (Hid _ _ Hx) as [E1 E2]. destruct (Hnd x) as [H|H]; [|done].
      split; [|done]. simpl. destruct (store_set_core (cstore s) r (update_instance_status (cstore s r) INACTIVE) x)
        as (-> & _); done.
  - split; [done|]. split; [done|]. exists [LSeparate id]. split; [by repeat constructor|].
    cbn [life_run life_step]. rewrite life_status, Er. cbn [fmap option_fmap option_map mbind option_bind].
    by rewrite decide_False by done.
Qed.

Lemma recover_sim id s : ctl_ok s → sim (op_labels s (ORecover id)) s (recover_instance id s).1.
Proof.
  intros Hs. pose proof Hs as [Hwf Hid]. unfold recover_instance. erewrite M_bind_Ret by reflexivity.
  unfold get_instance. destruct (dget (instances s) id) as [r|] eqn:Er; [|by apply quiet_sim; [|apply quiet_refl]].
  destruct (Hid _ _ Er) as [Eid Hd]. destruct (decide _); [|by apply quiet_sim; [|apply quiet_refl]].
  split; [done|]. split; [done|]. exists [LRecover id]. split; [by repeat constructor|].
  cbn [life_run life_step]. rewrite life_status, Er. simpl. by rewrite Eid.
Qed.

Lemma step_sim env o s :
  ctl_ok s → match o with OAdd r => status (cstore s r) = INITIAL | _ => True end →
  sim (op_labels s o) s (ctl_step (env, o) s).1.
Proof.
  intros Hs Ho. unfold ctl_step. cbn [fst snd]. destruct o as [r|msg| |id|id|].
  - by apply add_sim.
  - pose proof (heartbeat_sim (op_labels s (OHeartbeat msg)) env msg s Hs (λ _ _, I)) as H.
    unfold mbind, M_bind. by destruct (handle_heartbeat env (Some msg) s) as [s' [x|e]].
  - unfold instances_management_round. erewrite M_bind_Ret by reflexivity.
    destruct (table_refs s Hs) as [Hnd HF].
    destruct (manage_all_sim (op_labels s ORound) env _ s Hs Hnd HF (λ _ _, I)) as (s' & -> & H). exact H.
  - by apply separate_sim.
  - by apply recover_sim.
  - destruct (persist_quiet env s) as (s' & b & E & Hq & _). rewrite (M_bind_Ret _ _ _ _ _ E).
    by apply quiet_sim.
Qed.

Lemma op_labels_add s o l s' : (∀ r, same_core (cstore s' r) (cstore s r)) → op_labels s' o l → op_labels s o l.
Proof.
  intros Hc. destruct l as [id| | |]; simpl; try done. intros (r & -> & <-). exists r. split; [done|].
  by destruct (Hc r) as (-> & _).
Qed.

(** A whole run, with where its labels come from. *)
Lemma run_sim ops s :
  ctl_ok s → ops_ok s ops →
  sim (λ l, ∃ o, o ∈ ops.*2 ∧ op_labels s o l) s (ctl_run s ops).
Proof.
  revert s. induction ops as [|[env o] ops IH]; intros s Hs Hok.
  { simpl. by apply quiet_sim; [|apply quiet_refl]. }
  destruct Hok as [Ho Hok]. pose proof (step_sim env o s Hs Ho) as H1.
  destruct (IH _ (proj1 H1) Hok) as (A2 & B2 & ls2 & C2 & D2). destruct H1 as (A1 & B1 & ls1 & C1 & D1).
  split; [exact A2|]. split; [intros r; by eapply same_core_trans|].
  exists (ls1 ++ ls2). split.
  - apply Forall_app. split.
    + eapply Forall_impl; [exact C1|]. intros l Hl. exists o. split; [left|done].
    + eapply Forall_impl; [exact C2|]. intros l (o' & Ho' & Hl). exists o'. split; [by right|].
      by eapply op_labels_add.
  - rewrite life_run_app, D1. exact D2.
Qed.

(** *** Separation in the abstract life cycle *)

Definition not_recover (id : Z) (l : life_label) : Prop := l ≠ LRecover id.

(** A known id, separated and not active. *)
Definition kept_out (a : Life) (id : Z) : Prop :=
  id ∈ l_forced a ∧ ∃ st, l_status a !! id = Some st ∧ st ≠ ACTIVE.

(** While an id stays separated it is neither announced ready nor active. *)
Lemma life_step_separated a l a' id :
  not_recover id l → life_step a l = Some a' → kept_out a id →
  ∃ new, l_events a' = l_events a ++ new ∧ (id, INSTANCE_READY) ∉ new ∧
    ((id, INSTANCE_REMOVED) ∉ new → kept_out a' id).
Proof.
  intros Hl Hs [Hf (st0 & Hst & Hna)]. unfold kept_out. destruct l as [i|i ev|i|i]; simpl in Hs.
  - destruct (l_status a !! i) eqn:E; [done|]. injection Hs as <-. eexists. split; [done|].
    split; [set_solver|]. intros _. split; [done|]. simpl. assert (i ≠ id) by congruence.
    exists st0. by rewrite lookup_insert_ne.
  - destruct (l_status a !! i) as [from|] eqn:E; [|done]. simpl in Hs.
    destruct (transitions from ev) as [to|]; [|done]. simpl in Hs.
    destruct (decide (to = from)); [done|]. destruct (decide _) as [|Hg]; [done|]. injection Hs as <-.
    exists (announce i to). split; [done|]. split.
    + unfold announce. destruct to; simpl; set_solver.
    + intros Hr. simpl. unfold put_status. destruct (decide (to = DELETED)) as [->|Hd].
      * assert (i ≠ id) as Hne by (intros ->; apply Hr; left). split; [set_solver|].
        exists st0. by rewrite lookup_delete_ne.
      * split; [done|]. destruct (decide (i = id)) as [->|Hne].
        -- exists to. rewrite lookup_insert_eq. split; [done|]. intros ->. by apply Hg.
        -- exists st0. by rewrite lookup_insert_ne.
  - destruct (l_status a !! i) as [st|] eqn:E; [|done]. simpl in Hs.
    destruct (decide (st = ACTIVE)); injection Hs as <-; simpl.
    + eexists. split; [done|]. split; [set_solver|]. intros _. split; [set_solver|].
      exists st0. rewrite lookup_insert_ne by congruence. done.
    + exists []. rewrite app_nil_r. split; [done|]. split; [set_solver|]. intros _. split; [set_solver|by exists st0].
  - destruct (l_status a !! i) as [st|] eqn:E; [|done]. injection Hs as <-. exists []. rewrite app_nil_r.
    split; [done|]. split; [set_solver|]. intros _. simpl.
    assert (i ≠ id) by (intros ->; by apply Hl). split; [set_solver|by exists st0].
Qed.

Lemma life_step_mono a l a' : life_step a l = Some a' → ∃ n, l_events a' = l_events a ++ n.
Proof.
  destruct l as [i|i ev|i|i]; simpl; intros E.
  - destruct (l_status a !! i); [done|]. injection E as <-. by eexists.
  - destruct (l_status a !! i); [|done]. simpl in E. destruct (transitions _ _); [|done]. simpl in E.
    destruct (decide _); [done|]. destruct (decide _); [done|]. injection E as <-. by eexists.
  - destruct (l_status a !! i); [|done]. simpl in E. destruct (decide _); injection E as <-; [by eexists|].
    exists []. by rewrite app_nil_r.
  - destruct (l_status a !! i); [|done]. injection E as <-. exists []. by rewrite app_nil_r.
Qed.

Lemma life_run_mono ls a a' : life_run a ls = Some a' → ∃ n, l_events a' = l_events a ++ n.
Proof.
  revert a. induction ls as [|l ls IH]; intros a H; simpl in H.
  - injection H as <-. exists []. by rewrite app_nil_r.
  - destruct (life_step a l) as [a1|] eqn:E; [|done]. simpl in H. destruct (IH _ H) as [n ->].
    destruct (life_step_mono _ _ _ E) as [m ->]. exists (m ++ n). by rewrite app_assoc.
Qed.

Lemma life_run_separated a ls a' id :
  Forall (not_recover id) ls → life_run a ls = Some a' → kept_out a id →
  ∃ new, l_events a' = l_events a ++ new ∧
    ((id, INSTANCE_REMOVED) ∉ new → (id, INSTANCE_READY) ∉ new ∧ kept_out a' id).
Proof.
  revert a. induction ls as [|l ls IH]; intros a Hls Hr Hk; simpl in Hr.
  { injection Hr as <-. exists []. rewrite app_nil_r. split; [done|]. intros _. split; [set_solver|done]. }
  apply Forall_cons in Hls as [Hl Hls]. destruct (life_step a l) as [a1|] eqn:E; [|done]. simpl in Hr.
  destruct (life_step_separated a l a1 id Hl E Hk) as (n1 & E1 & Hn1 & H1).
  destruct (decide ((id, INSTANCE_REMOVED) ∈ n1)) as [Hrem|Hrem].
  - destruct (life_run_mono _ _ _ Hr) as [n En]. exists (n1 ++ n). rewrite En, E1, app_assoc. split; [done|].
    intros Hno. exfalso. apply Hno. apply elem_of_app. by left.
  - destruct (IH a1 Hls Hr (H1 Hrem)) as (n2 & E2 & H2).
    exists (n1 ++ n2). rewrite E2, E1, app_assoc. split; [done|]. intros Hno.
    destruct H2 as (A & B); [intros H; apply Hno; apply elem_of_app; by right|].
    split; [|done]. intros [|]%elem_of_app; done.
Qed.

(** Right after a separation the id is kept out. *)
Lemma separate_kept_out env id s :
  ctl_ok s → is_Some (dget (instances s) id) → kept_out (life_of (separate_instance env id s).1) id.
Proof.
  intros Hs [r Hr]. unfold separate_instance, get_instance. erewrite M_bind_Ret by reflexivity. rewrite Hr.
  destruct (proj2 Hs _ _ Hr) as [Eid Hd]. do 2 (erewrite M_bind_Ret by reflexivity). rewrite Eid.
  set (sf := set_forced s ({[id]} ∪ forced_separated_instances s)). change (cstore sf r) with (cstore s r).
  destruct (decide (status (cstore s r) = ACTIVE)) as [Ha|Ha].
  - do 3 (erewrite M_bind_Ret by reflexivity). set (s2 := announced sf r INACTIVE INSTANCE_SEPERATED).
    change (kept_out (life_of ((if enable_persistence s2 then persist_data env ;; mret tt else mret tt) s2).1) id).
    assert (∃ s3, (if enable_persistence s2 then persist_data env ;; mret tt else mret tt) s2 = (s3, Ret tt) ∧
      quiet s2 s3) as (s3 & E3 & Hq).
    { destruct (enable_persistence s2); [|by exists s2; split; [|apply quiet_refl]].
      destruct (persist_quiet env s2) as (s3 & b & E & Hq & _). exists s3. by rewrite (M_bind_Ret _ _ _ _ _ E). }
    rewrite E3. cbn [fst]. rewrite (quiet_life _ _ Hq). split; [simpl; set_solver|].
    exists INACTIVE. rewrite life_status. simpl. rewrite Hr. simpl. by rewrite store_set_eq.
  - split; [simpl; set_solver|]. exists (status (cstore s r)). rewrite life_status. simpl. by rewrite Hr.
Qed.

(** *** Predicates of what observers see

    A predicate that survives writes keeping names and ids, notifications, and changes
    that touch neither objects nor observers, survives every operation. *)
Section observed.
Context (P : Ctl (O := O) (D := D) → Prop).
Context (P_ins : ∀ s r i, same_core i (cstore s r) → P s → P (set_ins s r i)).
Context (P_notify : ∀ s r ev, P s → P (notify r ev s).1).
Context (P_other : ∀ s s', cstore s' = cstore s → observers s' = observers s → notified s' = notified s → P s → P s').

Lemma keeps_status r st : preserves P (update_status r st).
Proof. intros s Hs. by apply P_ins. Qed.

Lemma keeps_notify r ev : preserves P (notify r ev).
Proof. intros s Hs. by apply P_notify. Qed.

Lemma keeps_alarm a : preserves P (add_alarm a).
Proof. intros s Hs. by apply (P_other s). Qed.

Lemma keeps_persist env : preserves P (persist_data env).
Proof. intros s Hs. unfold persist_data. destruct (etcd_write env); by apply (P_other s). Qed.

Ltac keep_with tac := repeat first
  [ tac | apply preserves_ret | apply preserves_raise | apply preserves_lift | apply preserves_get
  | apply keeps_status | apply keeps_notify | apply keeps_alarm | apply keeps_persist
  | (apply preserves_bind; [|intros ?])
  | match goal with
    | |- preserves _ (if ?b then _ else _) => destruct b
    | |- preserves _ (match ?x with _ => _ end) => destruct x
    end
  | (apply preserves_modify; intros ? ?; first [by apply P_ins | by eapply P_other; [..|eassumption]]) ].
Ltac keep := keep_with fail.

Lemma keeps_coordinator_alarm r c : preserves P (report_coordinator_alarm r c).
Proof. unfold report_coordinator_alarm. keep. Qed.

Lemma keeps_del id : preserves P (del_instance id).
Proof. apply preserves_modify. intros s Hs. destruct (dhas _ _); [by apply (P_other s)|done]. Qed.

Lemma keeps_handler env to from ev r : preserves P (state_handler env to from ev r).
Proof.
  unfold state_handler, handle_initial, handle_active, handle_inactive, handle_deleted, report_inst_alarm.
  keep_with ltac:(first [apply keeps_coordinator_alarm | apply keeps_del]).
Qed.

Lemma keeps_transition env r ov : preserves P (handle_state_transition env r ov).
Proof.
  unfold handle_state_transition, transition_decide, detect_event, transition_apply.
  keep_with ltac:(apply keeps_handler). apply preserves_modify. intros s Hs. destruct (decide _); [by apply (P_other s)|done].
Qed.

Lemma keeps_heartbeat env msg : preserves P (handle_heartbeat env msg).
Proof.
  unfold handle_heartbeat. destruct msg as [msg|]; [|apply preserves_ret].
  intros s Hs. erewrite M_bind_Ret by reflexivity. destruct (dget _ _) as [r|]; [|by apply preserves_raise].
  pose proof (update_heartbeat_core (cstore s r) (hb_ip msg) (now env) (hb_status msg)) as [Hc _].
  destruct (update_heartbeat _ _ _ _) as [i res]. simpl in Hc. erewrite M_bind_Ret by reflexivity.
  set (s1 := set_ins s r i). assert (P s1) as H1 by (by apply P_ins).
  assert (preserves P (updated ← mlift res;
    if updated : bool then
      ok ← handle_state_transition env r None;
      if ok : bool then mret (true, HEARTBEAT_HANDLER_SUCCESS) else mraise (HTTPException HEARTBEAT_HANDLER_ERROR)
    else mraise (HTTPException HEARTBEAT_HANDLER_ERROR))) as H; [|by apply H].
  keep_with ltac:(apply keeps_transition).
Qed.

Lemma keeps_round env : preserves P (instances_management_round env).
Proof.
  apply preserves_bind; [apply preserves_get|]. intros s. apply preserves_for. intros r _.
  unfold manage_one. keep_with ltac:(apply keeps_transition).
Qed.

Lemma keeps_separate env id : preserves P (separate_instance env id).
Proof. unfold separate_instance. keep. Qed.

Lemma keeps_recover id : preserves P (recover_instance id).
Proof. unfold recover_instance. keep. Qed.

Lemma keeps_add env r : preserves P (add_instance env r).
Proof.
  unfold add_instance. keep. apply preserves_for. intros ip _ s Hs. erewrite M_bind_Ret by reflexivity. cbv zeta.
  match goal with |- context [update_heartbeat ?i ?ip ?t ?st] =>
    pose proof (update_heartbeat_core i ip t st) as [Hc _]; destruct (update_heartbeat i ip t st) as [i' res] end.
  simpl in Hc. erewrite M_bind_Ret by reflexivity. by apply P_ins.
Qed.

Lemma keeps_step env o : preserves P (ctl_step (env, o)).
Proof.
  unfold ctl_step. destruct o; cbn [fst snd];
    [apply keeps_add| |apply keeps_round|apply keeps_separate|apply keeps_recover|];
    (apply preserves_bind; [|intros _; apply preserves_ret]);
    [apply keeps_heartbeat|apply keeps_persist].
Qed.
End observed.

(** *** Restoring *)

(** An instance read back: the private fields are those of a new object, and the
    heartbeats of an active one are refreshed. *)
Definition reload (i : Instance) : Instance :=
  mkInstance (job_name i) (model_name i) (ins_id i) (role i) (status i) (parallel_config i)
    (enable_multi_endpoints i) (node_managers i) (endpoints i) (gathered_workload i) 0 None None.
Definition restored (t : f64) (i : Instance) : Instance :=
  if decide (status i = ACTIVE) then refresh_heartbeats (reload i) t else reload i.

Lemma restored_core t i : same_core (restored t i) i ∧ status (restored t i) = status i.
Proof. unfold restored. by case_decide. Qed.

Definition ready_notices (st : ref → Instance) (l : list (Z * ref)) : list (Z * ObserverEvent) :=
  omap (λ '(id, r), if decide (status (st r) = ACTIVE) then Some (id, INSTANCE_READY) else None) l.

(** One restored instance. *)
Lemma restore_one env s i :
  let r := cnext s in
  ∃ s', restore_instance env i s = (s', Ret tt) ∧
    cnext s' = S r ∧ data_version s' = data_version s ∧
    forced_separated_instances s' = forced_separated_instances s ∧
    instances s' = dset (instances s) (ins_id i) r ∧
    (∀ x, x ≠ r → cstore s' x = cstore s x) ∧
    cstore s' r = (if decide (status i = ACTIVE) then refresh_heartbeats i (now env) else i) ∧
    notified s' = notified s ++ (if decide (status i = ACTIVE) then [(r, INSTANCE_READY)] else []).
Proof.
  intros r. unfold restore_instance. do 2 (erewrite M_bind_Ret by reflexivity). fold r.
  set (s1 := set_next (set_ins s r i) (S r)).
  assert (cstore s1 r = i) as E1 by apply store_set_eq.
  unfold maybe_refresh_heartbeat, mbind, M_bind, mget. rewrite E1.
  destruct (decide (status i = ACTIVE)); simpl.
  - eexists. split; [done|]. simpl. split_and!; try done.
    + intros x Hx. by rewrite !store_set_ne.
    + by rewrite !store_set_eq.
  - eexists. split; [done|]. simpl. rewrite app_nil_r. split_and!; try done.
    intros x Hx. by rewrite store_set_ne.
Qed.

Lemma restore_list_spec env (st : ref → Instance) l s :
  (∀ i, load (dump i) = Some (reload i)) → NoDup l.*1 →
  (∀ id r, (id, r) ∈ l → ins_id (st r) = id) → (∀ id, id ∈ l.*1 → dget (instances s) id = None) →
  (∀ id r, dget (instances s) id = Some r → (r < cnext s)%nat) →
  ∃ s', restore_instances env (map (λ '(id, r), (id, dump (st r))) l) s = (s', Ret tt) ∧
    data_version s' = data_version s ∧ forced_separated_instances s' = forced_separated_instances s ∧
    dkeys (instances s') = dkeys (instances s) ++ l.*1 ∧
    (∀ x, (x < cnext s)%nat → cstore s' x = cstore s x) ∧
    (∀ id, id ∉ l.*1 → dget (instances s') id = dget (instances s) id) ∧
    (∀ id r, (id, r) ∈ l → ∃ r', dget (instances s') id = Some r' ∧ cstore s' r' = restored (now env) (st r)) ∧
    ∃ new, notified s' = notified s ++ new ∧
      map (λ '(r, ev), (ins_id (cstore s' r), ev)) new = ready_notices st l.
Proof.
  intros Hload. revert s. induction l as [|[id r0] l IH]; intros s Hnd Hid Hfresh Hlt.
  { exists s. split_and!; try done; [by rewrite app_nil_r|by intros ?? ?%elem_of_nil|].
    exists []. by rewrite app_nil_r. }
  apply NoDup_cons in Hnd as [Hn Hnd].
  assert (ins_id (st r0) = id) as Eid by (apply Hid; left).
  destruct (restore_one env s (reload (st r0))) as (s1 & E1 & Hnx & Hv & Hf & Hi & Ho & Hr & Hno).
  simpl in Hi, Hr, Hno. rewrite Eid in Hi.
  assert (dget (instances s) id = None) as Hnone by (apply Hfresh; left).
  destruct (IH s1) as (s2 & E2 & Hv2 & Hf2 & Hk2 & Ho2 & Hout2 & Hin2 & new & Hno2 & Hnew2); [done|..].
  { intros id' r' H. apply Hid. by right. }
  { intros id' H. rewrite Hi, dget_dset_ne; [apply Hfresh; by right|]. by intros ->. }
  { intros id' r'. rewrite Hi, Hnx, dget_dset. destruct (decide (id = id')); [intros [= E']; lia|].
    intros H%Hlt. lia. }
  exists s2. split.
  { cbn [map restore_instances]. rewrite Hload. by rewrite (M_bind_Ret _ _ _ _ _ E1). }
  rewrite Hv2, Hf2, Hk2. split_and!; [done|done|..].
  - rewrite Hi. simpl. unfold dkeys at 1. rewrite dset_new by done. rewrite fmap_app. simpl. by rewrite <- app_assoc.
  - intros x Hx. rewrite Ho2 by (rewrite Hnx; lia). apply Ho. lia.
  - intros id' [Hne Hni]%not_elem_of_cons. rewrite Hout2 by done. rewrite Hi. by apply dget_dset_ne.
  - intros id' r' [[= -> ->]|H]%elem_of_cons; [|by apply Hin2]. exists (cnext s).
    rewrite Hout2 by done. rewrite Hi, dget_dset_eq. split; [done|]. rewrite Ho2 by (rewrite Hnx; lia). done.
  - eexists. rewrite Hno2, Hno, <- app_assoc. split; [done|]. rewrite map_app, Hnew2. simpl.
    case_decide; simpl; [|done]. rewrite Ho2 by (rewrite Hnx; lia). rewrite Hr. simpl. by rewrite Eid.
Qed.

(** The event read off an instance's endpoints. *)
Definition event_of (i : Instance) : InsConditionEvent :=
  if is_all_endpoints_ready i then INSTANCE_NORMAL
  else if (is_have_one_endpoint_abnormal i).1 then INSTANCE_ABNORMAL else INSTANCE_INIT.

Lemma transition_outcome env r s :
  ctl_ok s → in_table s r →
  let i := cstore s r in
  ∃ s' b, handle_state_transition env r None s = (s', Ret b) ∧
    match transitions (status i) (event_of i) with
    | None => b = false ∧ status (cstore s' r) = status i
    | Some to => b = true ∧
        status (cstore s' r) =
          if decide (to = ACTIVE ∧ ins_id i ∈ forced_separated_instances s) then status i else to
    end.
Proof.
  intros Hs Ht i. unfold handle_state_transition, transition_decide.
  assert (∃ s1, detect_event r None s = (s1, Ret (event_of i)) ∧ quiet s s1 ∧ cstore s1 = cstore s)
    as (s1 & E1 & Hq1 & Hc1).
  { destruct (detect_event_spec r None s) as (s1 & ev & E1 & Hq1 & Hc1). exists s1. rewrite E1.
    split; [|done]. do 2 f_equal. unfold detect_event, mbind, M_bind, mget, event_of in *. fold i in E1 |- *.
    destruct (is_all_endpoints_ready i); [by injection E1 as _ <-|].
    destruct (is_have_one_endpoint_abnormal i) as [[] g]; simpl in *; by injection E1 as _ <-. }
  unfold mbind, M_bind, mget. rewrite E1. fold i.
  destruct (transitions (status i) (event_of i)) as [to|] eqn:Htr.
  2: { exists s1, false. split; [done|]. split; [done|]. by rewrite Hc1. }
  destruct (_ && _) eqn:Hg.
  { exists s1, true. split; [done|]. split; [done|]. apply andb_true_iff in Hg as [H1 H2].
    apply bool_decide_eq_true in H1. apply bool_decide_eq_true in H2. rewrite decide_True; [|done].
    by rewrite Hc1. }
  assert (¬ (to = ACTIVE ∧ ins_id i ∈ forced_separated_instances s)) as Hng.
  { intros [-> Hin]. by rewrite !bool_decide_true in Hg by done. }
  destruct (apply_spec env r (status i) (event_of i) to s1) as (s2 & E2 & Hcase);
    [by rewrite Hc1|done|by eapply quiet_in_table|].
  exists s2, true. split; [exact E2|]. split; [done|]. rewrite decide_False by done.
  destruct Hcase as [(_ & Hq & He)|(_ & _ & sm & Hm & Hq)].
  - destruct He as [->|(He & _)]; [|exfalso; clear -He; unfold event_of in He; by repeat case_match].
    destruct Hq as (A & _). destruct (A r) as [_ ->]. by rewrite Hc1.
  - destruct Hq as (A & _). destruct (A r) as [_ ->]. destruct Hm as ((j & _ & Hj & Hcs) & _).
    by rewrite Hcs, store_set_eq.
Qed.

(** Properties *)

(** C3: the controller's instance manager implements the abstract life cycle.  From a
    table keyed by id with no deleted object, any sequence of additions of fresh
    instances, heartbeats (malformed ones included), management rounds, separations,
    recoveries and writes to etcd — under every clock, node-manager answer, etcd
    outcome and observer — is a run of the abstract life cycle: every status follows
    the transition table, every change is announced to the observers exactly once
    and in order, a deleted instance leaves the table and the separated set, and
    an id becomes separated or recovered only by a request for it. *)
Theorem ctl_refines_lifecycle s ops :
  ctl_ok s → ops_ok s ops →
  let s' := ctl_run s ops in
  ctl_ok s' ∧
  ∃ ls, life_run (life_of s) ls = Some (life_of s') ∧
    ∀ l, l ∈ ls → match l with
                  | LSeparate id => OSeparate id ∈ ops.*2
                  | LRecover id => ORecover id ∈ ops.*2
                  | LAdd id => ∃ r, OAdd r ∈ ops.*2 ∧ ins_id (cstore s r) = id
                  | LMove _ _ => True
                  end.
Proof.
  intros Hs Hok s'. destruct (run_sim ops s Hs Hok) as (H1 & _ & ls & Hls & Hr).
  split; [done|]. exists ls. split; [done|]. intros l Hl. rewrite Forall_forall in Hls.
  destruct (Hls l Hl) as (o & Ho & Hlab). destruct l; simpl in Hlab; try (by subst).
  destruct Hlab as (r & -> & E). by exists r.
Qed.


(** What a heartbeat does.  An unknown id is answered 503 (register again) and
    changes nothing; a heartbeat the instance refuses is answered 500 and changes no
    status; otherwise the endpoints are written and the state machine is driven by
    the event read off them — all normal, one abnormal, or still initialising — and
    the answer is 200, except for an active instance one of whose endpoints goes
    back to initialising without being abnormal: no transition exists, and the
    heartbeat is answered 500 although it was recorded. *)
Theorem heartbeat_outcomes env msg s :
  ctl_ok s →
  let '(s', out) := handle_heartbeat env (Some msg) s in
  match dget (instances s) (hb_ins_id msg) with
  | None => out = Raise (HTTPException 503) ∧ s' = s
  | Some r =>
      let '(i, res) := update_heartbeat (cstore s r) (hb_ip msg) (now env) (hb_status msg) in
      match res with
      | Raise e => out = Raise e ∧ s' = set_ins s r i
      | Ret false => out = Raise (HTTPException 500) ∧ s' = set_ins s r i ∧ i = cstore s r
      | Ret true =>
          match transitions (status i) (event_of i) with
          | None => out = Raise (HTTPException 500) ∧ status (cstore s' r) = status i ∧
                    status i = ACTIVE ∧ event_of i = INSTANCE_INIT
          | Some to =>
              out = Ret (true, 200) ∧
              status (cstore s' r) =
                if decide (to = ACTIVE ∧ hb_ins_id msg ∈ forced_separated_instances s) then status i else to
          end
      end
  end.
Proof.
  intros Hs. unfold handle_heartbeat. erewrite M_bind_Ret by reflexivity.
  destruct (dget (instances s) (hb_ins_id msg)) as [r|] eqn:Er; [|done].
  destruct (proj2 Hs _ _ Er) as [Eid Hnd].
  assert (in_table s r) as Ht by (unfold in_table; by rewrite Eid).
  pose proof (update_heartbeat_core (cstore s r) (hb_ip msg) (now env) (hb_status msg)) as [Hc Hst].
  pose proof (update_heartbeat_refused (cstore s r) (hb_ip msg) (now env) (hb_status msg)) as Hsame.
  destruct (update_heartbeat _ _ _ _) as [i res]. simpl in Hc, Hst, Hsame. erewrite M_bind_Ret by reflexivity.
  pose proof (quiet_set_ins s r i Hc Hst) as Hq. set (s1 := set_ins s r i) in *.
  assert (cstore s1 r = i) as Ei by apply store_set_eq.
  destruct res as [[]|e]; [| |done].
  2: { erewrite M_bind_Ret by reflexivity. cbv iota. unfold mraise. by rewrite Hsame. }
  erewrite M_bind_Ret by reflexivity. cbv iota.
  destruct (transition_outcome env r s1) as (s2 & b & E & H); [by eapply quiet_ok|by eapply quiet_in_table|].
  rewrite (M_bind_Ret _ _ _ _ _ E). rewrite Ei in H.
  assert (ins_id i = hb_ins_id msg) as Ei' by (destruct Hc as (-> & _); done). rewrite Ei' in H.
  destruct (transitions (status i) (event_of i)) as [to|] eqn:Htr.
  - destruct H as [-> H]. split; [done|exact H].
  - destruct H as [-> H]. split; [done|]. split; [exact H|]. rewrite <- Hst in Hnd.
    clear -Htr Hnd. by destruct (status i), (event_of i).
Qed.

(** How a heartbeat time-out ends.  A round that finds an active instance with an
    expired heartbeat asks its node managers: if one is missing, unreachable or
    reports abnormal the instance becomes inactive; if all are fine it stays active
    and every heartbeat is refreshed to now.  An instance that is not active is
    deleted, leaving the table and the separated set. *)
Theorem timeout_outcomes env r s :
  ctl_ok s → in_table s r → (is_all_endpoints_alive (cstore s r) (now env)).1 = false →
  let s' := (manage_one env r s).1 in
  let i := cstore s r in
  if decide (status i = ACTIVE) then
    if check_node_managers_status env i
    then status (cstore s' r) = INACTIVE ∧ l_events (life_of s') = l_events (life_of s) ++ [(ins_id i, INSTANCE_SEPERATED)]
    else cstore s' r = refresh_heartbeats i (now env) ∧ instances s' = instances s
  else status (cstore s' r) = DELETED ∧ dget (instances s') (ins_id i) = None ∧
       ins_id i ∉ forced_separated_instances s'.
Proof.
  intros Hs Ht Hd s' i. destruct (proj2 Hs _ _ Ht) as [_ Hnd].
  set (s1 := log_alarm s (ServerAlarm (is_all_endpoints_alive (cstore s r) (now env)).2)).
  assert (in_table s1 r) as Ht1 by done.
  assert (s' = (handle_state_transition env r (Some INSTANCE_HEARTBEAT_TIMEOUT) s1).1) as ->.
  { unfold s', manage_one, mbind, M_bind, mget. rewrite decide_False by done. unfold s1.
    destruct (is_all_endpoints_alive (cstore s r) (now env)) as [al g]. simpl in Hd. subst al.
    cbn [add_alarm mmodify snd]. by destruct (handle_state_transition _ _ _ _) as [? []]. }
  assert (∀ to, transitions (status i) INSTANCE_HEARTBEAT_TIMEOUT = Some to → to ≠ ACTIVE →
    (handle_state_transition env r (Some INSTANCE_HEARTBEAT_TIMEOUT) s1).1 =
    (transition_apply env r (status i) INSTANCE_HEARTBEAT_TIMEOUT to s1).1) as Hstep.
  { intros to Hto Hna. unfold handle_state_transition, transition_decide, detect_event, mbind, M_bind, mget, mret, M_ret.
    change (cstore s1 r) with i. rewrite Hto. rewrite (bool_decide_false (to = ACTIVE)), andb_false_r by done.
    by destruct (transition_apply _ _ _ _ _ _). }
  assert (∀ to, transitions (status i) INSTANCE_HEARTBEAT_TIMEOUT = Some to →
    ∃ s2, transition_apply env r (status i) INSTANCE_HEARTBEAT_TIMEOUT to s1 = (s2, Ret true) ∧
      handled env to (status i) INSTANCE_HEARTBEAT_TIMEOUT r s1 s2) as Happ by (intros to Hto; by apply apply_spec).
  destruct (decide (status i = ACTIVE)) as [Ha|Ha].
  - rewrite (Hstep INACTIVE) by (by rewrite ?Ha). destruct (Happ INACTIVE) as (s2 & -> & Hcase); [by rewrite Ha|].
    cbn [fst]. destruct Hcase as [(_ & Hq & [He|(_ & Hc & He)])|(_ & Hc & sm & Hm & Hq)].
    + by rewrite Ha in He.
    + change (cstore s1 r) with i in Hc, He. rewrite Hc, He, store_set_eq. split; [done|]. apply Hq.
    + change (cstore s1 r) with i in Hc. rewrite Hc by done.
      rewrite (quiet_life _ _ Hq). destruct Hq as (A & _). destruct (A r) as [_ ->].
      destruct Hm as ((j & Hj & Hst & Hcs) & _ & _ & Hn). rewrite Hcs, store_set_eq. split; [done|].
      simpl. rewrite Hn, map_app. simpl. rewrite Hcs, store_set_eq. rewrite (proj1 Hj).
      f_equal. apply (events_core s1 sm). intros x. rewrite Hcs. by apply store_set_core.
  - assert (transitions (status i) INSTANCE_HEARTBEAT_TIMEOUT = Some DELETED) as Hto
      by (clear -Ha Hnd; fold i in Hnd; by destruct (status i)).
    rewrite (Hstep DELETED) by done. destruct (Happ DELETED Hto) as (s2 & -> & Hcase). cbn [fst].
    destruct Hcase as [(Hx & _)|(_ & _ & sm & Hm & Hq)]; [done|].
    destruct Hq as (A & -> & -> & _). destruct (A r) as [_ ->].
    destruct Hm as ((j & Hj & Hst & Hcs) & -> & -> & _). rewrite Hcs, store_set_eq. split; [done|].
    rewrite decide_True by done. split; [apply dget_ddel_eq|]. simpl. set_solver.
Qed.


(** A separation can be lost to a heartbeat under way.  When a healthy instance that
    is not active and not separated sends a heartbeat, and between the decision of
    the transition and the handler the instance is separated, the handler still
    makes it active: it ends up active and separated at the same time, announced as
    ready after the separation, and every later healthy heartbeat keeps it so. *)
Theorem separation_race env env' r s :
  ctl_ok s → in_table s r → is_all_endpoints_ready (cstore s r) = true →
  (status (cstore s r) = INITIAL ∨ status (cstore s r) = INACTIVE) →
  ins_id (cstore s r) ∉ forced_separated_instances s →
  let '(s1, d) := transition_decide r None s in
  let s2 := (separate_instance env' (ins_id (cstore s r)) s1).1 in
  ∃ s3, d = Ret (inr (status (cstore s r), INSTANCE_NORMAL, ACTIVE)) ∧
    transition_apply env r (status (cstore s r)) INSTANCE_NORMAL ACTIVE s2 = (s3, Ret true) ∧
    status (cstore s3 r) = ACTIVE ∧ is_instance_separated s3 (ins_id (cstore s r)) = true ∧
    l_events (life_of s3) = l_events (life_of s) ++ [(ins_id (cstore s r), INSTANCE_READY)] ∧
    (is_all_endpoints_ready (cstore s3 r) = true → handle_state_transition env r None s3 = (s3, Ret true)).
Proof.
  intros Hs Ht Hready Hst Hnf. set (id := ins_id (cstore s r)).
  assert (transition_decide r None s = (s, Ret (inr (status (cstore s r), INSTANCE_NORMAL, ACTIVE)))) as ->.
  { unfold transition_decide, detect_event, mbind, M_bind, mget. rewrite Hready. simpl.
    assert (transitions (status (cstore s r)) INSTANCE_NORMAL = Some ACTIVE) as -> by (by destruct Hst as [-> | ->]).
    by rewrite bool_decide_false. }
  assert (status (cstore s r) ≠ ACTIVE) as Hna by (destruct Hst; congruence).
  assert (separate_instance env' id s = (set_forced s ({[id]} ∪ forced_separated_instances s), Ret tt)) as E.
  { unfold separate_instance, get_instance. erewrite M_bind_Ret by reflexivity.
    assert (dget (instances s) id = Some r) as -> by apply Ht. do 2 (erewrite M_bind_Ret by reflexivity).
    by rewrite decide_False. }
  rewrite E. cbn [fst]. set (s2 := set_forced s ({[id]} ∪ forced_separated_instances s)).
  destruct (apply_spec env r (status (cstore s r)) INSTANCE_NORMAL ACTIVE s2) as (s3 & E3 & Hcase);
    [done|by destruct Hst as [-> | ->]|done|].
  exists s3. split; [done|]. split; [done|].
  destruct Hcase as [(_ & _ & [He|(He & _)])|(_ & _ & sm & Hm & Hq)]; [congruence|done|].
  pose proof (quiet_life _ _ Hq) as Hlife. destruct Hq as (A & Hi & Hf & Hn). destruct (A r) as [HcA ->].
  destruct Hm as ((j & Hj & Hjs & Hcs) & Hi' & Hf' & Hn'). rewrite Hcs, store_set_eq. split; [done|].
  rewrite decide_False in Hi' by done. rewrite decide_False in Hf' by done.
  assert (ins_id (cstore s3 r) = id) as Hid3.
  { destruct HcA as (-> & _). rewrite Hcs, store_set_eq. by destruct Hj as (-> & _). }
  assert (id ∈ forced_separated_instances s3) as Hin by (rewrite Hf, Hf'; simpl; set_solver).
  split.
  { unfold is_instance_separated, get_instance. rewrite Hi, Hi'. simpl.
    assert (dget (instances s) id = Some r) as -> by apply Ht. rewrite Hid3. by apply bool_decide_eq_true. }
  split.
  { rewrite Hlife. simpl. rewrite Hn', map_app. simpl. rewrite Hcs, store_set_eq, (proj1 Hj). f_equal.
    apply (events_core s2 sm). intros x. rewrite Hcs. by apply store_set_core. }
  assert (status (cstore s3 r) = ACTIVE) as Ha by (destruct (A r) as [_ ->]; by rewrite Hcs, store_set_eq).
  intros Hr3. unfold handle_state_transition, transition_decide, detect_event, mbind, M_bind, mget.
  rewrite Hr3, Ha, Hid3. simpl. by rewrite (bool_decide_true (id ∈ _)).
Qed.
End refinement.

(** ** Witnesses *)

Section witnesses.

(** A codec: instances themselves as data, validated by resetting the private fields. *)
#[local] Instance sample_codec : Codec Instance := {|
  dump i := i; load i := Some (reload i); checksum_of d v _ := "sum"%string
|}.

Definition sample_cenv : CtlEnv := mkCtlEnv (f_of_Z 1) (λ _, Some true) EtcdStored true.
Definition sample_ctl : Ctl (O := unit) (D := Instance) :=
  ctl_run (Ctl_init (λ r, sample_instance (Z.of_nat r) "prefill") 8 true None tt)
    [(sample_cenv, OAdd 2%nat); (sample_cenv, OAdd 3%nat)].
Definition sample_hb : HeartbeatMsg := mkHb 2 "10.0.0.1" [(0, EP_NORMAL); (1, EP_NORMAL)].

Lemma sample_ctl_ok : ctl_ok sample_ctl.
Proof.
  apply (run_sim [(sample_cenv, OAdd 2%nat); (sample_cenv, OAdd 3%nat)]);
    [by split; [apply dict_wf_nil|]|].
  repeat split; reflexivity.
Qed.

Lemma ctl_refines_lifecycle_witness :
  let ops := [(sample_cenv, OHeartbeat sample_hb); (sample_cenv, OSeparate 2); (sample_cenv, ORound)] in
  ctl_ok (ctl_run sample_ctl ops).
Proof.
  apply (ctl_refines_lifecycle sample_ctl [(sample_cenv, OHeartbeat sample_hb); (sample_cenv, OSeparate 2); (sample_cenv, ORound)]).
  - apply sample_ctl_ok.
  - repeat split.
Defined.


Lemma heartbeat_outcomes_witness :
  (handle_heartbeat sample_cenv (Some sample_hb) sample_ctl).2 = Ret (true, 200).
Proof.
  pose proof (heartbeat_outcomes sample_cenv sample_hb sample_ctl sample_ctl_ok) as H.
  destruct (handle_heartbeat sample_cenv (Some sample_hb) sample_ctl) as [s' out].
  change (dget (instances sample_ctl) (hb_ins_id sample_hb)) with (Some 2%nat) in H. cbv iota in H.
  exact (proj1 H).
Defined.

Lemma timeout_outcomes_witness :
  let env := mkCtlEnv (f_of_Z 1000) (λ _, None) EtcdStored true in
  dget (instances (manage_one env 2%nat sample_ctl).1) 2 = None.
Proof.
  pose proof (timeout_outcomes (mkCtlEnv (f_of_Z 1000) (λ _, None) EtcdStored true) 2%nat sample_ctl
    sample_ctl_ok eq_refl ltac:(vm_compute; reflexivity)) as H.
  exact (proj1 (proj2 H)).
Defined.


(** The state in which the race can happen: all endpoints normal, not yet active. *)
Definition sample_racing : Ctl (O := unit) (D := Instance) :=
  set_ins sample_ctl 2%nat
    (set_endpoints (cstore sample_ctl 2%nat)
       [("10.0.0.1"%string, [(0, set_ep_status (sample_endpoint 0) EP_NORMAL)])]).

Lemma sample_racing_ok : ctl_ok sample_racing.
Proof. apply (quiet_ok sample_ctl); [by apply quiet_set_ins|apply sample_ctl_ok]. Qed.

Lemma separation_race_witness :
  let '(s1, d) := transition_decide 2%nat None sample_racing in
  let s2 := (separate_instance sample_cenv 2 s1).1 in
  ∃ s3, transition_apply sample_cenv 2%nat INITIAL INSTANCE_NORMAL ACTIVE s2 = (s3, Ret true) ∧
    status (cstore s3 2%nat) = ACTIVE ∧ is_instance_separated s3 2 = true.
Proof.
  pose proof (separation_race sample_cenv sample_cenv 2%nat sample_racing sample_racing_ok eq_refl eq_refl
    (or_introl eq_refl) ltac:(vm_compute; set_solver)) as H.
  destruct (transition_decide 2%nat None sample_racing) as [s1 d]. cbv zeta in H |- *.
  destruct H as (s3 & _ & H1 & H2 & H3 & _). exists s3. split; [exact H1|]. by split.
Defined.
End witnesses.
