(* ===== verification/EventPusher.v ===== *)
(** * The event pusher: keeping the coordinator informed

    Models [controller/core/event_pusher.py]: the observer that turns changes of
    instances into a queue of ADD and DEL events, the consumer thread that turns
    events into messages, and the detector that asks for a SET when the coordinator
    seems to have restarted.  The system of this file is the instance manager with
    this observer, the consumer, the detector, and the coordinator's set of ids. *)

From stdpp Require Import base option list strings sets gmap pretty.
From Stdlib Require Import ZArith Lia.
From S2P Require Import Prelude Float64 Resources CoordInstanceManager CtlInstanceManager.
Open Scope Z_scope.

(** [Event]: the instance is the copy made when the event was put. *)
Record Event := mkEvent { ev_type : EventType; ev_instance : option Instance }.

(** [self.instances] holds read-only views of the shared objects; [None] in the queue
    is the element that wakes the consumer up at shutdown. *)
Record EventPusher := mkEP {
  is_coordinator_reset : bool;
  is_first_heartbeat_success : bool;
  event_queue : list (option Event);
  ep_instances : dict string ref;
  hb_loss_cnt : Z
}.

Definition EventPusher_init : EventPusher := mkEP false false [] [] 0.

Definition set_queue (e : EventPusher) q : EventPusher :=
  mkEP (is_coordinator_reset e) (is_first_heartbeat_success e) q (ep_instances e) (hb_loss_cnt e).
Definition set_ep_instances (e : EventPusher) d : EventPusher :=
  mkEP (is_coordinator_reset e) (is_first_heartbeat_success e) (event_queue e) d (hb_loss_cnt e).

Definition put_event (e : EventPusher) (x : option Event) : EventPusher := set_queue e (event_queue e ++ [x]).

Definition ep_update (st : ref → Instance) (r : ref) (ev : ObserverEvent) (e : EventPusher) : EventPusher :=
  let job := job_name (st r) in
  match ev with
  | INSTANCE_READY =>
      put_event (set_ep_instances e (dset (ep_instances e) job r)) (Some (mkEvent EV_ADD (Some (to_instance (st r)))))
  | INSTANCE_SEPERATED =>
      if dhas (ep_instances e) job
      then put_event (set_ep_instances e (ddel (ep_instances e) job))
             (Some (mkEvent EV_DEL (Some (to_instance (st r)))))
      else e
  | _ => e
  end.

Definition push_event (t : EventType) (e : EventPusher) : EventPusher := put_event e (Some (mkEvent t None)).

#[global] Instance event_pusher_observer : Observer EventPusher := {|
  obs_update := ep_update;
  obs_push_set := push_event EV_SET
|}.

(** [stop]: a last element when the queue is empty. *)
Definition ep_stop (e : EventPusher) : EventPusher :=
  match event_queue e with [] => put_event e None | _ => e end.

(** [InsEventMsg]. *)
Record InsEventMsg := mkMsg { msg_event : EventType; msg_instances : list Instance }.

(** The message of an event, as the consumer builds it: a SET carries copies of the
    current instances, and is skipped without a prefill instance. *)
Definition event_message (st : ref → Instance) (e : EventPusher) (ev : Event) : option InsEventMsg :=
  match ev_type ev with
  | EV_ADD => Some (mkMsg EV_ADD (option_list (ev_instance ev)))
  | EV_DEL => Some (mkMsg EV_DEL (option_list (ev_instance ev)))
  | EV_SET =>
      let instances := dvalues (ep_instances e) in
      if existsb (λ r, bool_decide (role (st r) = "prefill"%string)) instances
      then Some (mkMsg EV_SET (map (λ r, to_instance (st r)) instances))
      else None
  end.

(** One round of [_event_consumer] on a non-empty queue. *)
Definition event_consumer (st : ref → Instance) (e : EventPusher) : option InsEventMsg * EventPusher :=
  match event_queue e with
  | [] => (None, e)
  | None :: q => (None, set_queue e q)
  | Some ev :: q => (event_message st e ev, set_queue e q)
  end.

(** The coordinator's answer to the heartbeat: no answer, or its [ready] field if any. *)
Inductive hb_answer := HbException | HbResponse (ready : option bool).

(** One round of [_coordinator_heartbeat_detector]. *)
Definition heartbeat_detector (a : hb_answer) (e : EventPusher) : EventPusher :=
  match a with
  | HbResponse ready =>
      let reset := match ready with Some true => is_coordinator_reset e | _ => true end in
      if reset
      then mkEP false true (event_queue e ++ [Some (mkEvent EV_SET None)]) (ep_instances e) 0
      else mkEP false true (event_queue e) (ep_instances e) (hb_loss_cnt e)
  | HbException =>
      if is_first_heartbeat_success e then
        if 2 <=? hb_loss_cnt e + 1
        then mkEP true true (event_queue e) (ep_instances e) 0
        else mkEP (is_coordinator_reset e) true (event_queue e) (ep_instances e) (hb_loss_cnt e + 1)
      else e
  end.

Definition detector_run (e : EventPusher) (l : list hb_answer) : EventPusher :=
  fold_left (λ e a, heartbeat_detector a e) l e.

(** ** The system *)

Section system.
Context {D : Type} `{!Codec D}.

(** The controller with its event pusher, the ids the coordinator has, and whether a
    message was lost or the coordinator restarted since it last took a SET. *)
Record System := mkSys {
  ctl : Ctl (O := EventPusher) (D := D);
  view : gset Z;
  dirty : bool
}.

Definition ids_of (l : list Instance) : gset Z := list_to_set (map ins_id l).

(** What the coordinator's pools do with a message, on ids. *)
Definition apply_message (v : gset Z) (m : InsEventMsg) : gset Z :=
  match msg_event m with
  | EV_ADD => v ∪ ids_of (msg_instances m)
  | EV_DEL => v ∖ ids_of (msg_instances m)
  | EV_SET => ids_of (msg_instances m)
  end.

Inductive sys_op :=
| SysCtl (env : CtlEnv) (o : ctl_op)
| SysConsume (delivered : bool)
| SysDetector (a : hb_answer)
| SysCoordinatorRestart.

Definition sys_step (s : System) (o : sys_op) : System :=
  let c := ctl s in
  match o with
  | SysCtl env o => mkSys (ctl_step (env, o) c).1 (view s) (dirty s)
  | SysConsume delivered =>
      let '(m, e') := event_consumer (cstore c) (observers c) in
      let c' := set_observers c e' in
      match m with
      | None => mkSys c' (view s) (dirty s)
      | Some m =>
          if delivered
          then mkSys c' (apply_message (view s) m) (if decide (msg_event m = EV_SET) then false else dirty s)
          else mkSys c' (view s) true
      end
  | SysDetector a => mkSys (set_observers c (heartbeat_detector a (observers c))) (view s) (dirty s)
  | SysCoordinatorRestart => mkSys c ∅ true
  end.

Definition sys_run (s : System) (ops : list sys_op) : System := fold_left sys_step ops s.

Definition sys_init (st : ref → Instance) (persist : bool) : System :=
  mkSys (Ctl_init st 0 persist None EventPusher_init) ∅ false.

(** Fresh instances are added, as in the manager's runs. *)
Fixpoint sys_ok (s : System) (ops : list sys_op) : Prop :=
  match ops with
  | [] => True
  | o :: ops =>
      match o with
      | SysCtl _ (OAdd r) => status (cstore (ctl s) r) = INITIAL
      | _ => True
      end ∧ sys_ok (sys_step s o) ops
  end.

(** Different instances have different job names. *)
Definition jobs_unique (st : ref → Instance) : Prop :=
  ∀ r r', job_name (st r) = job_name (st r') ↔ ins_id (st r) = ins_id (st r').

(** The ids of the active instances in the table. *)
Definition active_ids (c : Ctl (O := EventPusher) (D := D)) : gset Z :=
  list_to_set (map (λ r, ins_id (cstore c r)) (get_active_instances c)).
End system.

(** ** Lemmas *)

(** The ids of the instances the pusher knows. *)
Definition known_ids (st : ref → Instance) (d : dict string ref) : gset Z :=
  list_to_set (map (λ r, ins_id (st r)) (dvalues d)).

Definition keyed (st : ref → Instance) (d : dict string ref) : Prop :=
  dict_wf d ∧ ∀ job r, dget d job = Some r → job_name (st r) = job.

(** What the announced events say is active. *)
Definition active_step (a : gset Z) (x : Z * ObserverEvent) : gset Z :=
  match x.2 with
  | INSTANCE_READY => {[x.1]} ∪ a
  | INSTANCE_SEPERATED => a ∖ {[x.1]}
  | _ => a
  end.
Definition active_fold (evs : list (Z * ObserverEvent)) : gset Z := fold_left active_step evs ∅.

(** What an element of the queue, and the last element of a queue, say about an id. *)
Definition mention (x : Z) (ev : option Event) : option bool :=
  match ev with
  | Some (mkEvent EV_ADD (Some i)) => if decide (ins_id i = x) then Some true else None
  | Some (mkEvent EV_DEL (Some i)) => if decide (ins_id i = x) then Some false else None
  | _ => None
  end.

Fixpoint last_mention (x : Z) (q : list (option Event)) : option bool :=
  match q with
  | [] => None
  | ev :: q => match last_mention x q with Some b => Some b | None => mention x ev end
  end.

Lemma last_mention_app x q ev :
  last_mention x (q ++ [ev]) = match mention x ev with Some b => Some b | None => last_mention x q end.
Proof.
  induction q as [|e q IH]; simpl; [by destruct (mention x ev)|].
  rewrite IH. by destruct (mention x ev).
Qed.

Lemma elem_of_known st d x :
  dict_wf d → x ∈ known_ids st d ↔ ∃ job r, dget d job = Some r ∧ ins_id (st r) = x.
Proof.
  intros Hd. unfold known_ids. rewrite elem_of_list_to_set. rewrite list_elem_of_In, in_map_iff. split.
  - intros (r & <- & Hr). apply list_elem_of_In, in_dvalues in Hr as [job Hj]. exists job, r.
    split; [by apply dget_in_wf|done].
  - intros (job & r & Hr & <-). exists r. split; [done|]. apply list_elem_of_In, in_dvalues. exists job.
    by apply dget_Some_in.
Qed.

Lemma known_dset st d r :
  jobs_unique st → keyed st d →
  keyed st (dset d (job_name (st r)) r) ∧
  known_ids st (dset d (job_name (st r)) r) = {[ins_id (st r)]} ∪ known_ids st d.
Proof.
  intros Hu [Hwf Hk]. assert (keyed st (dset d (job_name (st r)) r)) as Hk'.
  { split; [by apply dict_wf_dset|]. intros job r'. rewrite dget_dset. case_decide; [by intros [= <-]|apply Hk]. }
  split; [done|]. apply set_eq. intros x. rewrite elem_of_union, elem_of_singleton.
  rewrite !elem_of_known by (done || apply Hk'). split.
  - intros (job & r' & Hr & <-). rewrite dget_dset in Hr. case_decide; [left; congruence|].
    right. by exists job, r'.
  - intros [->|(job & r' & Hr & <-)].
    + exists (job_name (st r)), r. by rewrite dget_dset_eq.
    + destruct (decide (job_name (st r) = job)) as [<-|Hne].
      * exists (job_name (st r)), r. rewrite dget_dset_eq. split; [done|]. apply Hu. symmetry. by apply Hk.
      * exists job, r'. by rewrite dget_dset_ne.
Qed.

Lemma known_ddel st d r :
  jobs_unique st → keyed st d →
  keyed st (ddel d (job_name (st r))) ∧
  known_ids st (ddel d (job_name (st r))) = known_ids st d ∖ {[ins_id (st r)]}.
Proof.
  intros Hu [Hwf Hk]. assert (keyed st (ddel d (job_name (st r)))) as Hk'.
  { split; [by apply dict_wf_ddel|]. intros job r'. rewrite dget_ddel. case_decide; [done|apply Hk]. }
  split; [done|]. apply set_eq. intros x. rewrite elem_of_difference, elem_of_singleton.
  rewrite !elem_of_known by (done || apply Hk'). split.
  - intros (job & r' & Hr & <-). rewrite dget_ddel in Hr. case_decide as Hj; [done|].
    split; [by exists job, r'|]. intros E. apply Hu in E. apply Hj. rewrite <- E. by apply Hk.
  - intros [(job & r' & Hr & <-) Hne]. exists job, r'. rewrite dget_ddel_ne; [done|]. intros <-.
    apply Hne. apply Hu. by apply Hk.
Qed.

Lemma known_none st d r :
  jobs_unique st → keyed st d → dhas d (job_name (st r)) = false → ins_id (st r) ∉ known_ids st d.
Proof.
  intros Hu [Hwf Hk] Hn Hin. apply dhas_false in Hn. apply elem_of_known in Hin as (job & r' & Hr & E); [|done].
  apply Hu in E. rewrite (Hk _ _ Hr) in E. subst job. by rewrite Hn in Hr.
Qed.

Lemma known_core st st' d :
  (∀ r, ins_id (st' r) = ins_id (st r)) → known_ids st' d = known_ids st d.
Proof. intros H. unfold known_ids. f_equal. apply map_ext. done. Qed.

Section inv.
Context {D : Type} `{!Codec D}.
Implicit Types (c : Ctl (O := EventPusher) (D := D)).

(** The pusher's table is what was announced, and each id is right at the coordinator
    once the queue is through, unless a message was lost. *)
Definition obs_inv (view : gset Z) (dirty : bool) c : Prop :=
  jobs_unique (cstore c) ∧ keyed (cstore c) (ep_instances (observers c)) ∧
  known_ids (cstore c) (ep_instances (observers c)) = active_fold (l_events (life_of c)) ∧
  ∀ x, match last_mention x (event_queue (observers c)) with
       | Some b => b = bool_decide (x ∈ known_ids (cstore c) (ep_instances (observers c)))
       | None => dirty = true ∨ (x ∈ view ↔ x ∈ known_ids (cstore c) (ep_instances (observers c)))
       end.

Lemma obs_inv_core view dirty c c' :
  (∀ r, same_core (cstore c' r) (cstore c r)) → observers c' = observers c → notified c' = notified c →
  obs_inv view dirty c → obs_inv view dirty c'.
Proof.
  intros Hc Ho Hn (Hu & [Hk1 Hk2] & HK & HQ).
  assert (known_ids (cstore c') (ep_instances (observers c')) =
          known_ids (cstore c) (ep_instances (observers c))) as E.
  { rewrite Ho. apply known_core. intros r. by destruct (Hc r). }
  unfold obs_inv. rewrite E. rewrite Ho. split_and!.
  - intros r r'. destruct (Hc r) as (-> & -> & _), (Hc r') as (-> & -> & _). apply Hu.
  - split; [done|]. intros job r Hr. destruct (Hc r) as (_ & -> & _). by apply Hk2.
  - rewrite HK. f_equal. simpl. rewrite Hn. symmetry. by apply events_core.
  - exact HQ.
Qed.

Lemma active_fold_app evs x : active_fold (evs ++ [x]) = active_step (active_fold evs) x.
Proof. unfold active_fold. by rewrite fold_left_app. Qed.

Lemma obs_inv_notify view dirty c r ev : obs_inv view dirty c → obs_inv view dirty (notify r ev c).1.
Proof.
  intros (Hu & Hk & HK & HQ). unfold notify, mmodify. cbn [fst].
  set (st := cstore c) in *. set (d := ep_instances (observers c)) in *. set (q := event_queue (observers c)) in *.
  assert (∀ e', (observers (set_observers (log_notified c (r, ev)) e')) = e') as Eo by done.
  unfold obs_inv. rewrite Eo. cbn [cstore set_observers log_notified]. fold st.
  assert (l_events (life_of (set_observers (log_notified c (r, ev)) (obs_update st r ev (observers c)))) =
    l_events (life_of c) ++ [(ins_id (st r), ev)]) as Ee by (simpl; by rewrite map_app).
  rewrite Ee, active_fold_app, <- HK. unfold active_step. cbn [fst snd].
  destruct ev; simpl; try (by split_and!).
  - destruct (known_dset st d r Hu Hk) as [Hk' EK]. fold d. rewrite EK. split_and!; try done; try apply Hk'.
    intros x. rewrite last_mention_app. simpl. case_decide as Hx.
    + symmetry. apply bool_decide_eq_true. set_solver.
    + specialize (HQ x). fold q. destruct (last_mention x q); [rewrite HQ; apply bool_decide_ext; set_solver|].
      destruct HQ as [|HQ]; [by left|right]. set_solver.
  - fold d. destruct (dhas d (job_name (st r))) eqn:Eh.
    + destruct (known_ddel st d r Hu Hk) as [Hk' EK]. simpl. fold d. rewrite EK. split_and!; try done; try apply Hk'.
      intros x. rewrite last_mention_app. simpl. case_decide as Hx.
      * symmetry. apply bool_decide_eq_false. set_solver.
      * specialize (HQ x). fold q. destruct (last_mention x q); [rewrite HQ; apply bool_decide_ext; set_solver|].
        destruct HQ as [|HQ]; [by left|right]. set_solver.
    + pose proof (known_none st d r Hu Hk Eh) as Hni. split_and!; try done; try apply Hk.
      fold d. set_solver.
Qed.

Lemma obs_inv_step view dirty env o c : obs_inv view dirty c → obs_inv view dirty (ctl_step (env, o) c).1.
Proof.
  apply (keeps_step (obs_inv view dirty)).
  - intros s r i Hc. apply obs_inv_core; [|done|done]. intros x. by apply store_set_core.
  - intros s r ev. apply obs_inv_notify.
  - intros s s' Hst Ho Hn. apply obs_inv_core; [|done|done]. intros x. by rewrite Hst.
Qed.

(** A change of the pusher that adds nothing about any id. *)
Lemma obs_inv_silent view dirty c e' :
  ep_instances e' = ep_instances (observers c) →
  (∀ x, last_mention x (event_queue e') = last_mention x (event_queue (observers c))) →
  obs_inv view dirty c → obs_inv view dirty (set_observers c e').
Proof.
  intros Ei Eq (Hu & Hk & HK & HQ). unfold obs_inv. cbn [observers set_observers cstore]. rewrite Ei.
  split; [done|]. split; [done|]. split; [done|]. intros x. rewrite Eq. apply HQ.
Qed.

Lemma obs_inv_detector view dirty a c :
  obs_inv view dirty c → obs_inv view dirty (set_observers c (heartbeat_detector a (observers c))).
Proof.
  assert (∀ x q, last_mention x (q ++ [Some (mkEvent EV_SET None)]) = last_mention x q) as Hset
    by (intros; apply last_mention_app).
  apply obs_inv_silent; unfold heartbeat_detector; destruct a as [|ready].
  - destruct (is_first_heartbeat_success _); [|done]. by destruct (2 <=? _).
  - by destruct (match ready with Some true => _ | _ => true end).
  - destruct (is_first_heartbeat_success _); [|done]. by destruct (2 <=? _).
  - destruct (match ready with Some true => _ | _ => true end); [intros x; apply Hset|done].
Qed.

Lemma ids_of_copies st (l : list ref) : ids_of (map (λ r, to_instance (st r)) l) = list_to_set (map (λ r, ins_id (st r)) l).
Proof. unfold ids_of. by rewrite map_map. Qed.

Lemma obs_inv_consume s delivered :
  obs_inv (view s) (dirty s) (ctl s) →
  obs_inv (view (sys_step s (SysConsume delivered))) (dirty (sys_step s (SysConsume delivered)))
    (ctl (sys_step s (SysConsume delivered))).
Proof.
  intros Hinv. pose proof Hinv as (Hu & Hk & HK & HQ). unfold sys_step, event_consumer.
  set (c := ctl s) in *. destruct (event_queue (observers c)) as [|[ev|] q] eqn:Eq.
  - simpl. apply obs_inv_silent; [done|by rewrite Eq|done].
  - assert (∀ x, last_mention x (event_queue (observers c)) =
      match last_mention x q with Some b => Some b | None => mention x (Some ev) end) as Elm by (by rewrite Eq).
    destruct (event_message (cstore c) (observers c) ev) as [m|] eqn:Em.
    + destruct delivered.
      2: { simpl. unfold obs_inv. cbn [observers set_observers cstore set_queue ep_instances event_queue].
           split; [done|]. split; [done|]. split; [done|]. intros x. specialize (HQ x). simpl in HQ.
           destruct (last_mention x q); [exact HQ|by left]. }
      cbn [ctl view dirty]. unfold obs_inv. cbn [observers set_observers cstore set_queue ep_instances event_queue].
      split; [done|]. split; [done|]. split; [done|]. intros x. specialize (HQ x). simpl in HQ.
      destruct (last_mention x q); [exact HQ|]. unfold event_message in Em. destruct ev as [[] oi]; cbn [ev_type ev_instance] in Em.
      * injection Em as <-. unfold apply_message. simpl. destruct oi as [i|]; simpl in *.
        -- unfold ids_of. simpl. case_decide as Hx.
           ++ right. symmetry in HQ. apply bool_decide_eq_true in HQ. set_solver.
           ++ destruct HQ as [|HQ]; [by left|right]. set_solver.
        -- destruct HQ as [|HQ]; [by left|right]. unfold ids_of. simpl. set_solver.
      * injection Em as <-. unfold apply_message. simpl. destruct oi as [i|]; simpl in *.
        -- unfold ids_of. simpl. case_decide as Hx.
           ++ right. symmetry in HQ. apply bool_decide_eq_false in HQ. set_solver.
           ++ destruct HQ as [|HQ]; [by left|right]. set_solver.
        -- destruct HQ as [|HQ]; [by left|right]. unfold ids_of. simpl. set_solver.
      * destruct (existsb _ _); [|done]. injection Em as <-. right. unfold apply_message. simpl.
        by rewrite ids_of_copies.
    + simpl. apply obs_inv_silent; [done| |done]. intros x. rewrite Elm. simpl.
      destruct (last_mention x q); [done|]. unfold event_message in Em. by destruct ev as [[] oi].
  - simpl. apply obs_inv_silent; [done| |done]. intros x. rewrite Eq. simpl. by destruct (last_mention x q).
Qed.

(** In the abstract life cycle the active ids are those the events announce. *)
Definition active_agrees (a : Life) : Prop :=
  ∀ id, l_status a !! id = Some ACTIVE ↔ id ∈ active_fold (l_events a).

Lemma active_agrees_step a l a' : life_step a l = Some a' → active_agrees a → active_agrees a'.
Proof.
  intros Hs H. destruct l as [i|i ev|i|i]; simpl in Hs.
  - destruct (l_status a !! i) eqn:E; [done|]. injection Hs as <-. intros id. simpl.
    rewrite active_fold_app. unfold active_step. simpl. rewrite <- (H id), lookup_insert. case_decide; [|done].
    subst. by rewrite E.
  - destruct (l_status a !! i) as [from|] eqn:E; [|done]. simpl in Hs.
    destruct (transitions from ev) as [to|] eqn:Et; [|done]. simpl in Hs.
    destruct (decide (to = from)) as [|Hne]; [done|]. destruct (decide _); [done|]. injection Hs as <-.
    intros id. specialize (H id). simpl. unfold announce, put_status.
    destruct (decide (i = id)) as [<-|Hid].
    + rewrite E in H. destruct to; simpl; rewrite ?lookup_insert_eq, ?lookup_delete_eq, ?active_fold_app, ?app_nil_r;
        unfold active_step; simpl; [| |set_solver|].
      * rewrite <- H. by destruct from, ev.
      * set_solver.
      * rewrite <- H. by destruct from, ev.
    + destruct to; simpl; rewrite ?lookup_insert_ne, ?lookup_delete_ne by done;
        rewrite ?active_fold_app, ?app_nil_r; unfold active_step; simpl; set_solver.
  - destruct (l_status a !! i) as [st|] eqn:E; [|done]. simpl in Hs.
    destruct (decide (st = ACTIVE)); injection Hs as <-; [|done]. intros id. specialize (H id). simpl.
    rewrite active_fold_app. unfold active_step. simpl. rewrite lookup_insert. case_decide; set_solver.
  - destruct (l_status a !! i); [|done]. injection Hs as <-. exact H.
Qed.

Lemma active_agrees_run ls a a' : life_run a ls = Some a' → active_agrees a → active_agrees a'.
Proof.
  revert a. induction ls as [|l ls IH]; intros a H Ha; simpl in H; [by injection H as <-|].
  destruct (life_step a l) as [a1|] eqn:E; [|done]. simpl in H. apply (IH a1 H). by eapply active_agrees_step.
Qed.

Lemma active_ids_life c x : ctl_ok c → x ∈ active_ids c ↔ l_status (life_of c) !! x = Some ACTIVE.
Proof.
  intros [Hwf Hid]. unfold active_ids, get_active_instances, of_status.
  rewrite elem_of_list_to_set, life_status, list_elem_of_In, in_map_iff. split.
  - intros (r & <- & Hr). apply list_elem_of_In, list_elem_of_filter in Hr as [Ha Hr].
    apply in_dvalues in Hr as [id Hin]. apply (dget_in_wf _ _ _ Hwf) in Hin.
    destruct (Hid _ _ Hin) as [-> _]. rewrite Hin. simpl. by rewrite Ha.
  - destruct (dget (instances c) x) as [r|] eqn:E; [|done]. simpl. intros [= Ha]. exists r.
    destruct (Hid _ _ E) as [Ei _]. split; [done|]. apply list_elem_of_In, list_elem_of_filter. split; [done|].
    apply in_dvalues. exists x. by apply dget_Some_in.
Qed.

Definition sys_inv s : Prop :=
  ctl_ok (ctl s) ∧ active_agrees (life_of (ctl s)) ∧ obs_inv (view s) (dirty s) (ctl s).

Lemma sys_inv_step s o :
  match o with SysCtl _ (OAdd r) => status (cstore (ctl s) r) = INITIAL | _ => True end →
  sys_inv s → sys_inv (sys_step s o).
Proof.
  intros Ho (Hc & Ha & Hi). destruct o as [env o|delivered|a|].
  - destruct (step_sim env o (ctl s) Hc) as (Hc' & _ & ls & _ & Hr); [by destruct o|].
    split; [done|]. split; [by eapply active_agrees_run|]. by apply obs_inv_step.
  - pose proof (obs_inv_consume s delivered Hi) as Hi'. unfold sys_step in *.
    destruct (event_consumer _ _) as [[m|] e']; [destruct delivered|]; by split.
  - split; [done|]. split; [done|]. by apply obs_inv_detector.
  - split; [done|]. split; [done|]. destruct Hi as (Hu & Hk & HK & HQ). split; [done|]. split; [done|].
    split; [done|]. intros x. specialize (HQ x). simpl. destruct (last_mention _ _); [done|by left].
Qed.

Lemma sys_inv_run ops s : sys_ok s ops → sys_inv s → sys_inv (sys_run s ops).
Proof.
  revert s. induction ops as [|o ops IH]; intros s Hok Hs; simpl; [done|]. destruct Hok as [Ho Hok].
  apply IH; [done|]. by apply sys_inv_step.
Qed.

(** Properties *)

End inv.

(** When the detector asks for a SET.  Before the first answer failures are ignored.
    An answer that is not ready asks for a SET at once; so does, at the next answer, a
    second lost heartbeat — even if heartbeats succeeded in between: one failure,
    any number of good answers, and another failure count as two losses. *)
Theorem detector_set_rule e n :
  (is_first_heartbeat_success e = false → heartbeat_detector HbException e = e) ∧
  (∀ ready, ready ≠ Some true →
     event_queue (heartbeat_detector (HbResponse ready) e) = event_queue e ++ [Some (mkEvent EV_SET None)]) ∧
  (is_first_heartbeat_success e = true → is_coordinator_reset e = false → hb_loss_cnt e = 0 →
   let good := HbResponse (Some true) in
   event_queue (detector_run e ([HbException] ++ replicate n good)) = event_queue e ∧
   event_queue (detector_run e ([HbException] ++ replicate n good ++ [HbException; good])) =
     event_queue e ++ [Some (mkEvent EV_SET None)]).
Proof.
  split; [|split].
  - intros H. unfold heartbeat_detector. by rewrite H.
  - intros ready Hr. unfold heartbeat_detector. by destruct ready as [[]|].
  - intros Hf Hn Hc good.
    assert (∀ n e1, is_coordinator_reset e1 = false → is_first_heartbeat_success e1 = true →
      detector_run e1 (replicate n good) = e1) as Hgood.
    { clear. induction n as [|n IH]; intros e1 H1 H2; [done|]. simpl. rewrite H1.
      destruct e1 as [b1 b2 q d c]. simpl in *. subst. by apply IH. }
    set (e1 := heartbeat_detector HbException e).
    assert (e1 = mkEP false true (event_queue e) (ep_instances e) 1) as E1.
    { unfold e1, heartbeat_detector. by rewrite Hf, Hn, Hc. }
    unfold detector_run. rewrite !fold_left_app. cbn [fold_left]. fold e1.
    change (fold_left (λ e a, heartbeat_detector a e) (replicate n good) e1) with (detector_run e1 (replicate n good)).
    rewrite Hgood by (by rewrite E1). rewrite E1. done.
Qed.

(** ** Witness *)

Section witness.
#[local] Instance unit_codec : Codec unit := {| dump _ := tt; load _ := None; checksum_of _ _ _ := ""%string |}.

Definition named_store (r : ref) : Instance :=
  add_endpoints (Instance_init (pretty r) "m" (Z.of_nat r) "prefill" None true)
    "10.0.0.1" (Some [(0, sample_endpoint 0)]).

Lemma named_store_unique : jobs_unique named_store.
Proof.
  intros r r'. simpl. split; [intros E%(inj pretty); by subst|intros E%Nat2Z.inj; by subst].
Qed.

Definition sample_sys_ops : list sys_op :=
  let env := mkCtlEnv (f_of_Z 1) (λ _, Some true) EtcdStored true in
  [SysCtl env (OAdd 1%nat); SysCtl env (OHeartbeat (mkHb 1 "10.0.0.1" [(0, EP_NORMAL)]));
   SysConsume true; SysDetector (HbResponse (Some false)); SysConsume true].

End witness.
