(* ===== verification/FaultCodes.v ===== *)
(** * Cluster faults: codes, levels and their configuration data

    Models [controller/fault_tolerance/k8s/cluster_fault_codes.py], the parser
    [configmap_parser.py], and the data side of [resource_monitor.py]: what faults a
    ConfigMap says a node has, and whether a new list of faults is a change.  JSON
    decoding is a parameter, [json_loads]. *)

From stdpp Require Import base option list strings sorting.
From Stdlib Require Import ZArith Lia Ascii.
From S2P Require Import Prelude Float64 PyText.
Open Scope Z_scope.

(** ** Codes and levels *)

Definition NODE_REBOOT : Z := 1.

Inductive NodeStatus := READY | NOT_READY.
Inductive FaultType := CARD_UNHEALTHY | CARD_NETWORK_UNHEALTHY | NODE_UNHEALTHY.
Inductive OriginFaultLevel :=
| NOT_HANDLE_FAULT | RESTART_REQUEST | RESTART_BUSINESS | FREE_RESTART_NPU
| RESTART_NPU | SEPARATE_NPU | PRE_SEPARATE_NPU.
Inductive FaultLevel := HEALTHY | L1 | L2 | L3 | L4 | L5 | L6.

#[global] Instance NodeStatus_eq_dec : EqDecision NodeStatus.
Proof. solve_decision. Defined.
#[global] Instance FaultType_eq_dec : EqDecision FaultType.
Proof. solve_decision. Defined.
#[global] Instance OriginFaultLevel_eq_dec : EqDecision OriginFaultLevel.
Proof. solve_decision. Defined.
#[global] Instance FaultLevel_eq_dec : EqDecision FaultLevel.
Proof. solve_decision. Defined.

(** The value of a level; levels are compared by it. *)
Definition level_val (l : FaultLevel) : Z :=
  match l with HEALTHY => 0 | L1 => 1 | L2 => 2 | L3 => 3 | L4 => 4 | L5 => 5 | L6 => 6 end.

Definition fault_type_val (t : FaultType) : string :=
  match t with
  | CARD_UNHEALTHY => "CardUnhealthy"
  | CARD_NETWORK_UNHEALTHY => "CardNetworkUnhealthy"
  | NODE_UNHEALTHY => "NodeUnhealthy"
  end.

Record FaultInfo := mkFault {
  fault_type : FaultType;
  npu_name : string;
  fi_code : Z;
  fi_level : FaultLevel;
  origin_fault_level : OriginFaultLevel
}.

#[global] Instance FaultInfo_eq_dec : EqDecision FaultInfo.
Proof. solve_decision. Defined.

(** [map_fault_type] on a decoded value; a value that cannot be hashed raises. *)
Definition map_fault_type (v : json) : py FaultType :=
  if hashable v then
    Ret match v with
        | JStr s =>
            if decide (s = "CardUnhealthy"%string) then CARD_UNHEALTHY
            else if decide (s = "CardNetworkUnhealthy"%string) then CARD_NETWORK_UNHEALTHY
            else NODE_UNHEALTHY
        | _ => NODE_UNHEALTHY
        end
  else Raise TypeError.

Definition map_fault_level (o : OriginFaultLevel) : FaultLevel :=
  match o with
  | NOT_HANDLE_FAULT => L1
  | RESTART_REQUEST => L2
  | RESTART_BUSINESS => L3
  | FREE_RESTART_NPU => L4
  | RESTART_NPU => L5
  | SEPARATE_NPU => L6
  | PRE_SEPARATE_NPU => L6
  end.

(** [OriginFaultLevel(value)]; [None] is [ValueError]. *)
Definition origin_of_string (s : string) : option OriginFaultLevel :=
  if decide (s = "NotHandleFault"%string) then Some NOT_HANDLE_FAULT
  else if decide (s = "RestartRequest"%string) then Some RESTART_REQUEST
  else if decide (s = "RestartBusiness"%string) then Some RESTART_BUSINESS
  else if decide (s = "FreeRestartNPU"%string) then Some FREE_RESTART_NPU
  else if decide (s = "RestartNPU"%string) then Some RESTART_NPU
  else if decide (s = "SeparateNPU"%string) then Some SEPARATE_NPU
  else if decide (s = "PreSeparateNPU"%string) then Some PRE_SEPARATE_NPU
  else None.

(** The original level both constructors of faults use: unknown values count as
    "not handled". *)
Definition origin_level (v : json) : OriginFaultLevel :=
  match v with
  | JStr s => default NOT_HANDLE_FAULT (origin_of_string s)
  | _ => NOT_HANDLE_FAULT
  end.

(** ** The parser *)

(** [_parse_device_fault_code]: hexadecimal with or without prefix. *)
Definition parse_device_fault_code (v : json) : py Z :=
  match v with
  | JStr s => Ret (default 0x1001 (py_int 16 s))
  | _ => Raise AttributeError
  end.

Definition create_device_fault_info (ty npu level : json) (fault_code : Z) : py FaultInfo :=
  t ← map_fault_type ty;
  let origin := origin_level level in
  match npu with
  | JStr name => mret (mkFault t name fault_code (map_fault_level origin) origin)
  | _ => Raise ValueError
  end.

Definition process_single_device_fault (fault_device : json) : option FaultInfo :=
  let r :=
    ty ← jget fault_device "fault_type" (JStr "");
    npu ← jget fault_device "npu_name" (JStr "");
    level ← jget fault_device "fault_level" (JStr "");
    code ← jget fault_device "fault_code" (JStr "");
    c ← parse_device_fault_code code;
    create_device_fault_info ty npu level c in
  match r with Ret f => Some f | Raise _ => None end.

(** [_parse_switch_fault_key]: the code, the chip and the port. *)
Definition parse_switch_fault_key (fault_key : string) : Z * Z * Z :=
  if contains fault_key "_"%char then
    match split "_"%char fault_key with
    | p0 :: p1 :: p2 :: _ =>
        let num s := if isdigit s then default 0 (py_int 10 s) else 0 in
        let fault_code :=
          if startswith p0 "[" && endswith p0 "]"%char then
            let inner := of_chars (removelast (drop 1 (chars p0))) in
            let code_info := strip (default ""%string (head (split ","%char inner))) in
            if startswith code_info "0x" then default 0x2001 (py_int 16 code_info) else 0x2001
          else 0x2001 in
        (fault_code, num p1, num p2)
    | _ => (0x2001, 0, 0)
    end
  else (0x2001, 0, 0).

Definition create_switch_fault_info (level : json) (fault_code : Z) : FaultInfo :=
  let origin := origin_level level in
  mkFault NODE_UNHEALTHY "" fault_code (map_fault_level origin) origin.

Definition process_single_switch_fault (fault_key : string) (data : json) : option FaultInfo :=
  let r :=
    _ ← jget data "fault_time" (JInt 0);
    level ← jget data "fault_level" (JStr "NotHandle");
    mret (create_switch_fault_info level (parse_switch_fault_key fault_key).1.1) in
  match r with Ret f => Some f | Raise _ => None end.

(** [process_manually_separate_npu]: the ranks it logs. *)
Definition process_manually_separate_npu (s : string) : list Z :=
  let names := List.filter (λ n, negb (bool_decide (n = ""%string))) (map strip (split ","%char s)) in
  omap (λ n,
    if startswith n "Ascend910-" then py_int 10 (default ""%string (last (split "-"%char n))) else None) names.

Section parser.
Context (json_loads : string → option json).

Definition parse_json_string (s : string) : option json :=
  if decide (s = ""%string) then None else json_loads (strip s).

Definition process_device_info (s : string) : list FaultInfo :=
  match parse_json_string s with
  | None => []
  | Some device_info =>
      if truthy device_info then
        let r :=
          data ← jget device_info "DeviceInfo" (JObj []);
          device_list ← jget data "DeviceList" (JObj []);
          _ ← jget device_info "UpdateTime" (JInt 0);
          jget device_list "huawei.com/Ascend910-Fault" (JList []) in
        match r with
        | Ret (JList l) => omap process_single_device_fault l
        | _ => []
        end
      else []
  end.

Definition process_switch_info (s : string) : list FaultInfo :=
  match parse_json_string s with
  | None => []
  | Some switch_info =>
      if truthy switch_info then
        let r :=
          level ← jget switch_info "FaultLevel" (JStr "NotHandle");
          if hashable level then
            _ ← jget switch_info "UpdateTime" (JInt 0);
            jget switch_info "FaultTimeAndLevelMap" (JObj [])
          else Raise TypeError in
        match r with
        | Ret (JObj d) => omap (λ '(k, v), process_single_switch_fault k v) d
        | _ => []
        end
      else []
  end.

(** [is_configmap_valid], on the data of the ConfigMap. *)
Definition is_configmap_valid (data : dict string string) : bool :=
  dhas data "DeviceInfoCfg"%string || dhas data "SwitchInfoCfg"%string ||
  dhas data "ManuallySeparateNPU"%string.

(** [_process_configmap_data]: device faults, then switch faults. *)
Definition process_configmap_data (data : dict string string) : list FaultInfo :=
  if is_configmap_valid data then
    let cfg key := default ""%string (dget data key) in
    process_device_info (cfg "DeviceInfoCfg"%string) ++ process_switch_info (cfg "SwitchInfoCfg"%string)
  else [].
End parser.

(** ** Change detection *)

(** [str] comparison, by character codes. *)
Fixpoint str_compare (a b : list Ascii.ascii) : comparison :=
  match a, b with
  | [], [] => Eq
  | [], _ => Lt
  | _, [] => Gt
  | x :: a, y :: b => match Z.compare (code x) (code y) with Eq => str_compare a b | c => c end
  end.

Definition lex (c1 c2 : comparison) : comparison := match c1 with Eq => c2 | _ => c1 end.

(** The comparison of the sort keys [(fault_type, npu_name, fault_code, fault_level)]. *)
Definition key_compare (f g : FaultInfo) : comparison :=
  lex (str_compare (chars (fault_type_val (fault_type f))) (chars (fault_type_val (fault_type g))))
  (lex (str_compare (chars (npu_name f)) (chars (npu_name g)))
  (lex (Z.compare (fi_code f) (fi_code g)) (Z.compare (level_val (fi_level f)) (level_val (fi_level g))))).

(** [sorted]: stable; an element goes before the first that is not smaller. *)
Fixpoint insert_fault (f : FaultInfo) (l : list FaultInfo) : list FaultInfo :=
  match l with
  | [] => [f]
  | g :: l' => match key_compare f g with Gt => g :: insert_fault f l' | _ => f :: l end
  end.
Definition sorted_faults (l : list FaultInfo) : list FaultInfo := foldr insert_fault [] l.

(** [_has_fault_info_changed]. *)
Definition has_fault_info_changed (last new : list FaultInfo) : bool :=
  if decide (length new = length last)
  then bool_decide (sorted_faults new ≠ sorted_faults last)
  else true.

(** ** Lemmas *)

Lemma map_fault_level_pos o : 0 < level_val (map_fault_level o).
Proof. by destruct o. Qed.

Lemma level_val_inj l l' : level_val l = level_val l' → l = l'.
Proof. by destruct l, l'. Qed.

Lemma device_fault_pos v f : process_single_device_fault v = Some f → 0 < level_val (fi_level f).
Proof.
  unfold process_single_device_fault, create_device_fault_info. intros H.
  repeat match type of H with
  | context [jget ?a ?b ?c] => destruct (jget a b c); simpl in H; try done
  end.
  destruct (parse_device_fault_code _); simpl in H; [|done].
  destruct (map_fault_type _); simpl in H; [|done].
  match type of H with context [match ?n with JStr _ => _ | _ => _ end] => destruct n end; try done.
  injection H as <-. apply map_fault_level_pos.
Qed.

Lemma switch_fault_pos k v f : process_single_switch_fault k v = Some f → 0 < level_val (fi_level f).
Proof.
  unfold process_single_switch_fault. intros H.
  repeat match type of H with
  | context [jget ?a ?b ?c] => destruct (jget a b c); simpl in H; try done
  end.
  injection H as <-. apply map_fault_level_pos.
Qed.

(** A comparison that is a total preorder. *)
Record good_cmp {A} (c : A → A → comparison) : Prop := {
  cmp_flip : ∀ x y, c y x = CompOpp (c x y);
  cmp_trans : ∀ x y z r, c x y = r → c y z = r → c x z = r;
  cmp_eq_l : ∀ x y z, c x y = Eq → c x z = c y z
}.

Lemma cmp_eq_r {A} (c : A → A → comparison) : good_cmp c → ∀ x y z, c y z = Eq → c x y = c x z.
Proof.
  intros [Hf _ He] x y z H. rewrite (Hf y x), (Hf z x). by rewrite (He _ _ x H).
Qed.

Lemma good_lex {A B} (f : A → B) (c : B → B → comparison) (d : A → A → comparison) :
  good_cmp c → good_cmp d → good_cmp (λ x y, lex (c (f x) (f y)) (d x y)).
Proof.
  intros Hc Hd. pose proof (cmp_eq_r c Hc) as Hr. destruct Hc as [Fc Tc Ec], Hd as [Fd Td Ed]. split.
  - intros x y. rewrite (Fc (f x)), (Fd x). by destruct (c (f x) (f y)).
  - intros x y z r H1 H2. unfold lex in *.
    destruct (c (f x) (f y)) eqn:E1, (c (f y) (f z)) eqn:E2; subst; try done;
      rewrite ?(Ec _ _ _ E1), ?E2, <- ?(Hr _ _ _ E2), ?E1, ?(Tc _ _ _ _ E1 E2); eauto.
  - intros x y z H. unfold lex in *. destruct (c (f x) (f y)) eqn:E1; [|done|done].
    rewrite (Ec _ _ (f z) E1). by rewrite (Ed _ _ z H).
Qed.

Lemma good_Z {A} (f : A → Z) : good_cmp (λ x y, Z.compare (f x) (f y)).
Proof.
  split.
  - intros. apply Z.compare_antisym.
  - intros x y z r. destruct (Z.compare_spec (f x) (f y)), (Z.compare_spec (f y) (f z)),
      (Z.compare_spec (f x) (f z)); intros <- ?; try done; lia.
  - intros x y z H%Z.compare_eq_iff. by rewrite H.
Qed.

Lemma str_compare_eq a b : str_compare a b = Eq → a = b.
Proof.
  revert b. induction a as [|x a IH]; intros [|y b]; simpl; try done.
  destruct (Z.compare (code x) (code y)) eqn:E; [|done|done]. intros H. f_equal; [|auto].
  apply Z.compare_eq_iff in E. unfold code in E. rewrite <- (Ascii.ascii_N_embedding x), <- (Ascii.ascii_N_embedding y).
  f_equal. lia.
Qed.

Lemma str_compare_refl a : str_compare a a = Eq.
Proof. induction a as [|x a IH]; simpl; [done|]. by rewrite Z.compare_refl. Qed.

Lemma good_str : good_cmp str_compare.
Proof.
  split.
  - intros a b. revert a. induction b as [|x b IH]; intros [|y a]; simpl; try done.
    rewrite (Z.compare_antisym (code y)). destruct (Z.compare (code y) (code x)); simpl; auto.
  - intros a b c r. revert b c. induction a as [|x a IH]; intros [|y b] [|z c] H1 H2; simpl in *; subst; try done.
    destruct (Z.compare_spec (code x) (code y)) as [E|E|E], (Z.compare_spec (code y) (code z)) as [F|F|F];
      try done; destruct (Z.compare_spec (code x) (code z)); try lia; try done; by apply (IH b).
  - intros a b c ->%str_compare_eq. done.
Qed.

Lemma good_key : good_cmp key_compare.
Proof.
  apply (good_lex (λ f, chars (fault_type_val (fault_type f)))); [apply good_str|].
  apply (good_lex (λ f, chars (npu_name f))); [apply good_str|].
  apply (good_lex fi_code Z.compare); [apply (good_Z id)|]. apply (good_Z (λ f, level_val (fi_level f))).
Qed.

Definition key_le (f g : FaultInfo) : Prop := key_compare f g ≠ Gt.

Lemma insert_perm f l : insert_fault f l ≡ₚ f :: l.
Proof.
  induction l as [|g l IH]; simpl; [done|]. destruct (key_compare f g); [done|done|].
  rewrite IH. apply Permutation_swap.
Qed.

Lemma sorted_perm l : sorted_faults l ≡ₚ l.
Proof. induction l as [|f l IH]; simpl; [done|]. by rewrite insert_perm, IH. Qed.

Lemma key_le_trans f g h : key_le f g → key_le g h → key_le f h.
Proof.
  unfold key_le. pose proof good_key as [Hf Ht He]. pose proof (cmp_eq_r _ good_key) as Hr.
  destruct (key_compare f g) eqn:E1, (key_compare g h) eqn:E2; try done; intros _ _.
  - by rewrite (Ht _ _ _ _ E1 E2).
  - by rewrite (He _ _ _ E1), E2.
  - by rewrite <- (Hr _ _ _ E2), E1.
  - by rewrite (Ht _ _ _ _ E1 E2).
Qed.

Lemma sorted_sorted l : StronglySorted key_le (sorted_faults l).
Proof.
  induction l as [|f l IH]; simpl; [constructor|]. revert IH. generalize (sorted_faults l) as k. clear l.
  induction k as [|g k IHk]; intros Hs; simpl; [repeat constructor|]. apply StronglySorted_inv in Hs as [Hk Hg].
  destruct (key_compare f g) eqn:E.
  - constructor; [by constructor|]. constructor; [unfold key_le; by rewrite E|].
    eapply Forall_impl; [exact Hg|]. intros h. apply key_le_trans. unfold key_le. by rewrite E.
  - constructor; [by constructor|]. constructor; [unfold key_le; by rewrite E|].
    eapply Forall_impl; [exact Hg|]. intros h. apply key_le_trans. unfold key_le. by rewrite E.
  - constructor; [by apply IHk|]. apply Forall_forall. intros x Hx. rewrite insert_perm in Hx.
    apply elem_of_cons in Hx as [->|Hx].
    + unfold key_le. destruct good_key as [Hf _ _]. rewrite Hf, E. done.
    + by eapply Forall_forall in Hx.
Qed.

Lemma has_changed_false last new :
  has_fault_info_changed last new = false ↔ length new = length last ∧ sorted_faults new = sorted_faults last.
Proof.
  unfold has_fault_info_changed. case_decide; [|by split; [|intros []]].
  rewrite bool_decide_eq_false. split; [intros Hn; split; [done|by apply dec_stable]|by intros [_ ->] ?].
Qed.

(** A device entry of the document, and the fault it stands for. *)
Record DeviceEntry := mkEntry { de_type : string; de_npu : string; de_level : string; de_code : string }.

Definition json_of_entry (e : DeviceEntry) : json :=
  JObj [("fault_type", JStr (de_type e)); ("npu_name", JStr (de_npu e));
        ("fault_level", JStr (de_level e)); ("fault_code", JStr (de_code e))]%string.

Definition device_document (l : list json) : json :=
  JObj [("DeviceInfo", JObj [("DeviceList", JObj [("huawei.com/Ascend910-Fault", JList l)])]);
        ("UpdateTime", JInt 0)]%string.

(** The fault an entry means: unknown types are node faults, unknown levels are L1, codes
    that are not hexadecimal numbers are 0x1001. *)
Definition fault_of_entry (e : DeviceEntry) : FaultInfo :=
  let o := default NOT_HANDLE_FAULT (origin_of_string (de_level e)) in
  mkFault (if decide (de_type e = "CardUnhealthy"%string) then CARD_UNHEALTHY
           else if decide (de_type e = "CardNetworkUnhealthy"%string) then CARD_NETWORK_UNHEALTHY
           else NODE_UNHEALTHY)
    (de_npu e) (default 0x1001 (py_int 16 (de_code e))) (map_fault_level o) o.

Lemma process_entry e : process_single_device_fault (json_of_entry e) = Some (fault_of_entry e).
Proof. reflexivity. Qed.

(** ** Properties *)

(** What a ConfigMap means.  Whatever the JSON decoder returns, every fault that comes
    out is at least L1, so a node with any parsed fault is never healthy; an entry that
    is not of the expected shape is skipped and costs no other entry; and a document
    of well-formed entries gives exactly their faults in order — an unknown level
    string counts as L1, not as healthy. *)
Theorem configmap_faults_exact json_loads :
  (∀ data, Forall (λ f, 1 <= level_val (fi_level f)) (process_configmap_data json_loads data)) ∧
  (∀ s bad es1 es2,
     s ≠ ""%string → process_single_device_fault bad = None →
     json_loads (strip s) = Some (device_document (map json_of_entry es1 ++ bad :: map json_of_entry es2)) →
     process_configmap_data json_loads [("DeviceInfoCfg"%string, s)] = map fault_of_entry (es1 ++ es2)) ∧
  (∀ ty npu code, fi_level (fault_of_entry (mkEntry ty npu "NoSuchLevel" code)) = L1).
Proof.
  split; [|split; [|done]].
  - intros data. unfold process_configmap_data. destruct (is_configmap_valid data); [|done].
    apply Forall_app. split; apply Forall_forall; intros f Hf; apply (Z.le_succ_l 0).
    + unfold process_device_info in Hf. destruct (parse_json_string _ _) as [j|]; [|by apply elem_of_nil in Hf].
      destruct (truthy j); [|by apply elem_of_nil in Hf]. cbv zeta in Hf.
      match type of Hf with context [match ?r with Ret _ => _ | _ => _ end] => destruct r as [[]|] end;
        try by apply elem_of_nil in Hf.
      apply list_elem_of_omap in Hf as (v & _ & Hv). by eapply device_fault_pos.
    + unfold process_switch_info in Hf. destruct (parse_json_string _ _) as [j|]; [|by apply elem_of_nil in Hf].
      destruct (truthy j); [|by apply elem_of_nil in Hf]. cbv zeta in Hf.
      match type of Hf with context [match ?r with Ret _ => _ | _ => _ end] => destruct r as [[]|] end;
        try by apply elem_of_nil in Hf.
      apply list_elem_of_omap in Hf as ([k v] & _ & Hv). by eapply switch_fault_pos.
  - intros s bad es1 es2 Hs Hbad Hj. unfold process_configmap_data, process_device_info, parse_json_string. simpl.
    rewrite decide_False by done. rewrite Hj. simpl.
    assert (∀ es, omap process_single_device_fault (map json_of_entry es) = map fault_of_entry es) as Hes.
    { induction es as [|e es IH]; [done|]. cbn [map omap list_omap]. by rewrite process_entry, <- IH. }
    rewrite omap_app. cbn [omap list_omap]. rewrite Hbad.
    rewrite !Hes. rewrite map_app. apply app_nil_r.
Qed.

(** A change of the faults of a node is never missed.  When the comparison says nothing
    changed, the new faults are the last ones up to order; and it says so for any
    reordering, provided faults with the same type, device, code and level are the
    same fault. *)
Theorem change_detection last new :
  (has_fault_info_changed last new = false → new ≡ₚ last) ∧
  ((∀ f g, f ∈ last → g ∈ last → key_compare f g = Eq → f = g) →
   new ≡ₚ last → has_fault_info_changed last new = false).
Proof.
  split.
  - intros [_ H]%has_changed_false. by rewrite <- (sorted_perm new), H, sorted_perm.
  - intros Hk Hp. apply has_changed_false. split; [by apply Permutation_length|].
    eapply (StronglySorted_unique_strong key_le); [|apply sorted_sorted|apply sorted_sorted|by rewrite !sorted_perm].
    intros f g Hf Hg. rewrite sorted_perm in Hf. rewrite sorted_perm in Hg. rewrite Hp in Hf. unfold key_le. intros H1 H2.
    apply Hk; [done|done|]. destruct good_key as [F _ _]. rewrite F in H2. by destruct (key_compare f g).
Qed.

Definition sample_entry : DeviceEntry := mkEntry "CardUnhealthy" "Ascend910-3" "SeparateNPU" "0x80E18005".

Lemma configmap_faults_exact_witness :
  process_configmap_data (λ _, Some (device_document [JNull; json_of_entry sample_entry])) [("DeviceInfoCfg", "{..}")]%string =
  [mkFault CARD_UNHEALTHY "Ascend910-3" 2162262021 L6 SEPARATE_NPU].
Proof.
  apply (proj1 (proj2 (configmap_faults_exact (λ _, Some (device_document [JNull; json_of_entry sample_entry])))))
    with (bad := JNull) (es1 := []) (es2 := [sample_entry]); done.
Defined.

Lemma change_detection_witness :
  let a := fault_of_entry sample_entry in let b := fault_of_entry (mkEntry "CardUnhealthy" "Ascend910-4" "RestartNPU" "0x1") in
  has_fault_info_changed [a; b] [b; a] = false.
Proof.
  intros a b. apply (change_detection [a; b] [b; a]).
  - intros f g Hf Hg. repeat (apply elem_of_cons in Hf as [->|Hf] || apply elem_of_nil in Hf);
      repeat (apply elem_of_cons in Hg as [->|Hg] || apply elem_of_nil in Hg); done.
  - apply Permutation_swap.
Defined.
