(* ===== verification/FaultManager.v ===== *)
(** * The fault manager

    Models [controller/fault_tolerance/fault_manager.py], the change handlers of
    [k8s/resource_monitor.py] and the strategies of [strategy/*.py].  The manager is an
    observer of the instance manager and calls it back to separate and recover
    instances, so its methods act on the state of the instance manager with the fault
    manager as (second) observer.  Handlers run one at a time. *)

From stdpp Require Import base option list strings sets gmap sorting pretty.
From Stdlib Require Import ZArith Lia.
From S2P Require Import Prelude Float64 PyText FaultCodes Resources CtlInstanceManager.
Open Scope Z_scope.

(** ** Data *)

Record NodeMetadata := mkNode {
  nm_pod_ip : string;
  nm_node_name : string;
  nm_instance_id : Z;
  node_status : NodeStatus;
  fault_infos : dict Z FaultInfo
}.

(** The strategy classes. *)
Inductive StrategyClass := LingquNetworkRecoverStrategy | ScaleP2DStrategy.
#[global] Instance StrategyClass_eq_dec : EqDecision StrategyClass.
Proof. solve_decision. Defined.

(** A strategy object: its event is what [execute] loops on. *)
Record Strategy := mkStrategy { st_class : StrategyClass; st_event : bool; is_finished : bool }.

Definition Strategy_init (c : StrategyClass) : Strategy := mkStrategy c false false.

(** [stop]: only ScaleP2D can be stopped. *)
Definition strategy_stop (s : Strategy) : Strategy :=
  match st_class s with
  | LingquNetworkRecoverStrategy => s
  | ScaleP2DStrategy => mkStrategy ScaleP2DStrategy true true
  end.

(** [strategy] is the index of the strategy object. *)
Record InstanceMetadata := mkMeta {
  im_instance_id : Z;
  fault_level : FaultLevel;
  fault_code : Z;
  strategy : option nat
}.

Definition InstanceMetadata_init (id : Z) : InstanceMetadata := mkMeta id HEALTHY 0 None.

(** A monitor, with the caches of what it last reported. *)
Record ResourceMonitor := mkMon {
  mon_namespace : string;
  mon_prefix : string;
  mon_alive : bool;
  last_fault_infos : option (list FaultInfo);
  last_node_status : option NodeStatus
}.

Record FtConfig := mkFtConfig {
  enable_lingqu_network_recover : bool;
  enable_scale_p2d : bool;
  configmap_prefix : string;
  configmap_namespace : string;
  ft_persistence : bool
}.

(** What is stored: the tables, without strategies. *)
Record FmState := mkFmState {
  fs_nodes : dict string NodeMetadata;
  fs_instances : dict Z InstanceMetadata;
  fs_version : Z;
  fs_timestamp : f64;
  fs_checksum : string
}.

(** The manager; [strategies] are the strategy objects in the order they were submitted to
    the executor; [hostname] and [k8s_up] are what Kubernetes currently answers. *)
Record FM := mkFM {
  nodes : dict string NodeMetadata;
  fm_instances : dict Z InstanceMetadata;
  fm_data_version : Z;
  monitors : dict string ResourceMonitor;
  fm_config : FtConfig;
  strategies : list Strategy;
  fm_etcd : option FmState;
  hostname : string → option string;
  k8s_up : bool
}.

Definition FM_init (cfg : FtConfig) (h : string → option string) (up : bool) (e : option FmState) : FM :=
  mkFM [] [] 0 [] cfg [] e h up.

Definition set_nodes (f : FM) d : FM :=
  mkFM d (fm_instances f) (fm_data_version f) (monitors f) (fm_config f) (strategies f) (fm_etcd f) (hostname f) (k8s_up f).
Definition set_metas (f : FM) d : FM :=
  mkFM (nodes f) d (fm_data_version f) (monitors f) (fm_config f) (strategies f) (fm_etcd f) (hostname f) (k8s_up f).
Definition set_monitors (f : FM) d : FM :=
  mkFM (nodes f) (fm_instances f) (fm_data_version f) d (fm_config f) (strategies f) (fm_etcd f) (hostname f) (k8s_up f).
Definition set_strategies (f : FM) l : FM :=
  mkFM (nodes f) (fm_instances f) (fm_data_version f) (monitors f) (fm_config f) l (fm_etcd f) (hostname f) (k8s_up f).
Definition set_config (f : FM) c : FM :=
  mkFM (nodes f) (fm_instances f) (fm_data_version f) (monitors f) c (strategies f) (fm_etcd f) (hostname f) (k8s_up f).
Definition set_stored (f : FM) v e : FM :=
  mkFM (nodes f) (fm_instances f) v (monitors f) (fm_config f) (strategies f) e (hostname f) (k8s_up f).
Definition set_k8s (f : FM) h up : FM :=
  mkFM (nodes f) (fm_instances f) (fm_data_version f) (monitors f) (fm_config f) (strategies f) (fm_etcd f) h up.

Definition put_node (f : FM) (n : NodeMetadata) : FM := set_nodes f (dset (nodes f) (nm_node_name n) n).
Definition put_meta (f : FM) (m : InstanceMetadata) : FM := set_metas f (dset (fm_instances f) (im_instance_id m) m).

(** ** Nodes and monitors *)

Definition monitor_matches (f : FM) (m : ResourceMonitor) : bool :=
  bool_decide (mon_namespace m = configmap_namespace (fm_config f)) &&
  bool_decide (mon_prefix m = configmap_prefix (fm_config f)).

(** A running monitor with the same configuration is kept; without Kubernetes the new one
    never starts. *)
Definition create_resource_monitor (f : FM) (name : string) : FM :=
  let fresh := mkMon (configmap_namespace (fm_config f)) (configmap_prefix (fm_config f)) (k8s_up f) None None in
  match dget (monitors f) name with
  | Some m => if mon_alive m && monitor_matches f m then f else set_monitors f (dset (monitors f) name fresh)
  | None => set_monitors f (dset (monitors f) name fresh)
  end.

Definition stop_resource_monitor (f : FM) (name : string) : FM := set_monitors f (ddel (monitors f) name).

(** [_build_node_name_mapping]: pod address to node name, unresolved pods left out. *)
Definition build_node_name_mapping (f : FM) (nms : list NodeManagerInfo) : dict string string :=
  fold_left (λ acc nm,
    match hostname f (pod_ip nm) with
    | Some name => if decide (name = ""%string) then acc else dset acc (pod_ip nm) name
    | None => acc
    end) nms [].

(** [_ensure_node_metadata]: the node, and whether it is new. *)
Definition ensure_node_metadata (f : FM) (name ip : string) (id : Z) (update_instance_id : bool)
    : NodeMetadata * bool :=
  match dget (nodes f) name with
  | Some n =>
      (mkNode ip (nm_node_name n) (if update_instance_id then id else nm_instance_id n) (node_status n) (fault_infos n),
       false)
  | None => (mkNode ip name id READY [], true)
  end.

Definition nodes_of (f : FM) (id : Z) : list (string * NodeMetadata) :=
  List.filter (λ '(_, n), bool_decide (nm_instance_id n = id)) (nodes f).

(** Removal of a node and of its monitor. *)
Definition remove_node (f : FM) (name : string) : FM :=
  stop_resource_monitor (set_nodes f (ddel (nodes f) name)) name.

Definition sync_existing_instance_nodes (f : FM) (id : Z) (mapping : dict string string) : FM :=
  let removed := List.filter (λ name, negb (bool_decide (name ∈ dvalues mapping))) (dkeys (nodes_of f id)) in
  let f := fold_left remove_node removed f in
  fold_left (λ f '(ip, name),
    let '(n, is_new) := ensure_node_metadata f name ip id false in
    let f := set_nodes f (dset (nodes f) name n) in
    if is_new then create_resource_monitor f name else f) mapping f.

(** [_ensure_node_metadata] writes into the existing node objects at once; new nodes are
    filed after the loop. *)
Definition add_new_instance_with_nodes (f : FM) (id : Z) (mapping : dict string string) : FM :=
  let '(f, metas) := fold_left (λ '(f, metas) '(ip, name),
      let '(n, is_new) := ensure_node_metadata f name ip id true in
      (if is_new then f else set_nodes f (dset (nodes f) name n), dset metas name n)) mapping (f, []) in
  let f := put_meta f (InstanceMetadata_init id) in
  let f := set_nodes f (dupdate (nodes f) metas) in
  fold_left create_resource_monitor (dkeys metas) f.

Definition sync_instance_nodes (i : Instance) (f : FM) : FM :=
  let mapping := build_node_name_mapping f (get_node_managers i) in
  if dhas (fm_instances f) (ins_id i)
  then sync_existing_instance_nodes f (ins_id i) mapping
  else add_new_instance_with_nodes f (ins_id i) mapping.

(** [update]. *)
Definition fm_update (st : ref → Instance) (r : ref) (ev : ObserverEvent) (f : FM) : FM :=
  let i := st r in
  match ev with
  | INSTANCE_INITIAL => if dhas (fm_instances f) (ins_id i) then f else sync_instance_nodes i f
  | INSTANCE_REMOVED =>
      if dhas (fm_instances f) (ins_id i) then
        let names := dkeys (nodes_of f (ins_id i)) in
        let f := fold_left stop_resource_monitor names f in
        let f := fold_left (λ f name, set_nodes f (ddel (nodes f) name)) names f in
        set_metas f (ddel (fm_instances f) (ins_id i))
      else f
  | _ => f
  end.

#[global] Instance fault_manager_observer : Observer FM := {|
  obs_update := fm_update;
  obs_push_set f := f
|}.

(** ** Levels *)

(** [_eval_node_status]: the first fault with the highest level above healthy. *)
Definition worse (best : option FaultInfo) (fi : FaultInfo) : option FaultInfo :=
  let cur := match best with Some b => level_val (fi_level b) | None => 0 end in
  if cur <? level_val (fi_level fi) then Some fi else best.

Definition eval_node_status (f : FM) (name : string) : option FaultInfo :=
  match dget (nodes f) name with
  | None => None
  | Some n => fold_left worse (dvalues (fault_infos n)) None
  end.

(** [_update_highest_fault_level]: level and code change only together with the level. *)
Definition highest_fault (f : FM) (ns : list NodeMetadata) : option FaultInfo :=
  fold_left (λ best n, match eval_node_status f (nm_node_name n) with Some fi => worse best fi | None => best end) ns None.

Definition update_highest_fault_level (f : FM) (ns : list NodeMetadata) (m : InstanceMetadata) : InstanceMetadata :=
  let info := highest_fault f ns in
  let level := match info with Some fi => fi_level fi | None => HEALTHY end in
  if decide (fault_level m = level) then m
  else mkMeta (im_instance_id m) level (match info with Some fi => fi_code fi | None => 0 end) (strategy m).

(** The nodes of an instance that have faults. *)
Definition faulty_nodes (f : FM) (id : Z) : list NodeMetadata :=
  List.filter (λ n, bool_decide (nm_instance_id n = id) && negb (bool_decide (fault_infos n = []))) (dvalues (nodes f)).

(** ** Strategies *)

Definition whitelisted (code : Z) : bool := (code =? 0x00f1fef5) || (code =? 0x08520003).

(** [strategies[level](code, id, config)]; [role] is the role of the instance, if the
    instance manager knows it. *)
Definition strategy_for (cfg : FtConfig) (level : FaultLevel) (code : Z) (role : option string) : option StrategyClass :=
  match level with
  | HEALTHY | L1 | L3 => None
  | L2 => if enable_lingqu_network_recover cfg && whitelisted code then Some LingquNetworkRecoverStrategy else None
  | L4 | L5 | L6 =>
      if enable_scale_p2d cfg && bool_decide (role = Some "decode"%string) then Some ScaleP2DStrategy else None
  end.

(** The executor's workers: the first five submitted strategies still looping. *)
Definition max_workers : nat := 5.
Definition running (f : FM) : list nat :=
  take max_workers (List.filter (λ k, match strategies f !! k with Some s => negb (st_event s) | None => false end)
                      (seq 0 (length (strategies f)))).

(** ** Methods

    [O1] is the observer attached first (the event pusher); [D] is the JSON form of
    instances, [fm_checksum] the hash over the stored tables, version and timestamp. *)
Section methods.
Context {O1 D : Type} `{!Observer O1, !Codec D}.
Context (fm_checksum : dict string NodeMetadata → dict Z InstanceMetadata → Z → f64 → string).

Abbreviation C := (Ctl (O := O1 * FM) (D := D)).

Definition fm (c : C) : FM := (observers c).2.
Definition set_fm (c : C) (f : FM) : C := set_observers c ((observers c).1, f).
Definition fm_modify (g : FM → FM) : M C unit := mmodify (λ c, set_fm c (g (fm c))).

(** What [model_dump] keeps of an instance's record. *)
Definition without_strategy (m : InstanceMetadata) : InstanceMetadata :=
  mkMeta (im_instance_id m) (fault_level m) (fault_code m) None.

Definition fm_persist_data (env : CtlEnv) : M C bool := λ c,
  let f := fm c in
  let v := fm_data_version f + 1 in
  let ins := map (λ '(id, m), (id, without_strategy m)) (fm_instances f) in
  let p := mkFmState (nodes f) ins v (now env) (fm_checksum (nodes f) ins v (now env)) in
  match etcd_write env with
  | EtcdLocked => (set_fm c (set_stored f v (fm_etcd f)), Ret false)
  | EtcdLost => (set_fm c (set_stored f v None), Ret false)
  | EtcdUnsure => (set_fm c (set_stored f v (Some p)), Ret false)
  | EtcdStored => (set_fm c (set_stored f v (Some p)), Ret true)
  end.

Definition fm_valid (p : FmState) : bool :=
  bool_decide (fs_checksum p = fm_checksum (fs_nodes p) (fs_instances p) (fs_version p) (fs_timestamp p)).

(** [restore_data]; [reads]: etcd can be read. *)
Definition fm_restore_data (reads : bool) : M C bool :=
  c ← mget;
  match (if reads then fm_etcd (fm c) else None) with
  | None => mret true
  | Some p =>
      if fm_valid p then
        fm_modify (λ f,
          let f := set_stored f (Z.max (fm_data_version f) (fs_version p)) (fm_etcd f) in
          let f := set_nodes f (fold_left (λ d '(k, n), dset d k n) (fs_nodes p) []) in
          set_metas f (fold_left (λ d '(_, m), dset d (im_instance_id m) m) (fs_instances p) [])) ;;
        mret true
      else mret false
  end.

(** [start], up to the creation of the thread. *)
Definition fm_start (reads : bool) : M C unit :=
  c ← mget;
  (if ft_persistence (fm_config (fm c)) then fm_restore_data reads ;; mret tt else mret tt) ;;
  fm_modify (λ f, fold_left create_resource_monitor (dkeys (nodes f)) f).

Definition fm_stop : M C unit := fm_modify (λ f, set_monitors f []).

(** [update_config]: new names for the ConfigMaps restart every monitor. *)
Definition fm_update_config (cfg : FtConfig) : M C unit :=
  fm_modify (λ f,
    let config_changed :=
      negb (bool_decide (configmap_prefix (fm_config f) = configmap_prefix cfg)) ||
      negb (bool_decide (configmap_namespace (fm_config f) = configmap_namespace cfg)) in
    let f := set_config f cfg in
    if config_changed
    then fold_left create_resource_monitor (map nm_node_name (dvalues (nodes f))) (set_monitors f [])
    else f).

Definition persist_if_enabled (env : CtlEnv) : M C unit :=
  c ← mget;
  if ft_persistence (fm_config (fm c)) then fm_persist_data env ;; mret tt else mret tt.

Definition refresh_instance_fault_level (env : CtlEnv) (id : Z) : M C unit :=
  c ← mget;
  match dget (fm_instances (fm c)) id with
  | None => mret tt
  | Some m =>
      match faulty_nodes (fm c) id with
      | [] =>
          if decide (fault_level m = HEALTHY) then mret tt
          else
            fm_modify (λ f, put_meta f (mkMeta (im_instance_id m) HEALTHY 0 (strategy m))) ;;
            recover_instance id
      | ns =>
          let m' := update_highest_fault_level (fm c) ns m in
          fm_modify (λ f, put_meta f m') ;;
          (if level_val L2 <? level_val (fault_level m') then separate_instance env id
           else
             c ← mget;
             if is_instance_separated c id then recover_instance id else mret tt) ;;
          persist_if_enabled env
      end
  end.

(** [_handle_fault_info_update]: the list replaces what was known, but for the entry under
    the code of a reboot. *)
Definition replace_faults (n : NodeMetadata) (infos : list FaultInfo) : NodeMetadata :=
  let d := fold_left (λ d fi, dset d (fi_code fi) fi) infos [] in
  let d := match dget (fault_infos n) NODE_REBOOT with Some r => dset d NODE_REBOOT r | None => d end in
  mkNode (nm_pod_ip n) (nm_node_name n) (nm_instance_id n) (node_status n) d.

Definition handle_fault_info_update (env : CtlEnv) (infos : list FaultInfo) (name : string) : M C unit :=
  c ← mget;
  match dget (nodes (fm c)) name with
  | None => mret tt
  | Some n =>
      fm_modify (λ f, set_nodes f (dset (nodes f) name (replace_faults n infos))) ;;
      refresh_instance_fault_level env (nm_instance_id n)
  end.

Definition reboot_fault : FaultInfo := mkFault NODE_UNHEALTHY "" NODE_REBOOT L6 NOT_HANDLE_FAULT.

(** [_handle_node_status_update]: a change of status adds or removes the reboot fault. *)
Definition set_node_status (n : NodeMetadata) (st : NodeStatus) : NodeMetadata :=
  let infos :=
    if decide (node_status n = st) then fault_infos n
    else match st with
         | NOT_READY => dset (fault_infos n) NODE_REBOOT reboot_fault
         | READY => ddel (fault_infos n) NODE_REBOOT
         end in
  mkNode (nm_pod_ip n) (nm_node_name n) (nm_instance_id n) st infos.

Definition handle_node_status_update (env : CtlEnv) (st : NodeStatus) (name : string) : M C unit :=
  c ← mget;
  match dget (nodes (fm c)) name with
  | None => mret tt
  | Some n =>
      fm_modify (λ f, set_nodes f (dset (nodes f) name (set_node_status n st))) ;;
      refresh_instance_fault_level env (nm_instance_id n)
  end.

(** *** Monitors *)

Inductive watch_event := WADDED | WMODIFIED | WDELETED.

(** [_get_node_ready_status]: the first condition of type Ready. *)
Definition get_node_ready_status (conditions : list (string * string)) : NodeStatus :=
  match dget conditions "Ready"%string with
  | Some st => if decide (st = "True"%string) then READY else NOT_READY
  | None => NOT_READY
  end.

Definition upd_monitor (name : string) (g : ResourceMonitor → ResourceMonitor) : M C unit :=
  fm_modify (λ f, match dget (monitors f) name with
                  | Some m => set_monitors f (dset (monitors f) name (g m))
                  | None => f
                  end).

Definition set_last_status (x : option NodeStatus) (m : ResourceMonitor) : ResourceMonitor :=
  mkMon (mon_namespace m) (mon_prefix m) (mon_alive m) (last_fault_infos m) x.
Definition set_last_infos (x : option (list FaultInfo)) (m : ResourceMonitor) : ResourceMonitor :=
  mkMon (mon_namespace m) (mon_prefix m) (mon_alive m) x (last_node_status m).

(** [_handle_node_change] of the monitor of a node. *)
Definition handle_node_change (env : CtlEnv) (name : string) (ev : watch_event) (conditions : list (string * string))
    : M C unit :=
  c ← mget;
  match dget (monitors (fm c)) name with
  | None => mret tt
  | Some m =>
      match ev with
      | WADDED | WMODIFIED =>
          let st := get_node_ready_status conditions in
          if decide (last_node_status m = Some st) then mret tt
          else upd_monitor name (set_last_status (Some st)) ;; handle_node_status_update env st name
      | WDELETED => upd_monitor name (set_last_status None) ;; handle_node_status_update env NOT_READY name
      end
  end.

(** [_handle_configmap_change], on the faults the data parses to. *)
Definition handle_configmap_change (json_loads : string → option json) (env : CtlEnv) (name : string)
    (ev : watch_event) (data : dict string string) : M C unit :=
  c ← mget;
  match dget (monitors (fm c)) name with
  | None => mret tt
  | Some m =>
      match ev with
      | WADDED | WMODIFIED =>
          let infos := process_configmap_data json_loads data in
          let changed := match last_fault_infos m with
                         | None => true
                         | Some last => has_fault_info_changed last infos
                         end in
          if changed
          then upd_monitor name (set_last_infos (Some infos)) ;; handle_fault_info_update env infos name
          else mret tt
      | WDELETED => upd_monitor name (set_last_infos None) ;; handle_fault_info_update env [] name
      end
  end.

(** *** The strategy center *)

Definition upd_strategy (k : nat) (g : Strategy → Strategy) : M C unit :=
  fm_modify (λ f, set_strategies f (alter g k (strategies f))).

Definition put_meta_of (m : InstanceMetadata) : M C unit := fm_modify (λ f, put_meta f m).

(** A new object, submitted to the executor. *)
Definition start_strategy (c : StrategyClass) : M C nat :=
  s ← mget;
  fm_modify (λ f, set_strategies f (strategies f ++ [Strategy_init c])) ;;
  mret (length (strategies (fm s))).

Definition process_instance_strategy (env : CtlEnv) (id : Z) : M C unit :=
  c ← mget;
  match dget (fm_instances (fm c)) id with
  | None => mret tt
  | Some m =>
      let lvl := fault_level m in
      let code := fault_code m in
      let new_cls := strategy_for (fm_config (fm c)) lvl code
                       (option_map (λ r, role (cstore c r)) (get_instance c id)) in
      let current := k ← strategy m; s ← strategies (fm c) !! k; Some (k, s) in
      strat ← match new_cls with
              | None => mret (strategy m)
              | Some cls =>
                  match current with
                  | Some (k, s) =>
                      if decide (cls = st_class s) then mret (Some k)
                      else upd_strategy k strategy_stop ;; k' ← start_strategy cls; mret (Some k')
                  | None => k' ← start_strategy cls; mret (Some k')
                  end
              end;
      put_meta_of (mkMeta (im_instance_id m) lvl code strat) ;;
      c ← mget;
      match strat with
      | None => mret tt
      | Some k =>
          if match strategies (fm c) !! k with Some s => is_finished s | None => false end
          then put_meta_of (mkMeta (im_instance_id m) HEALTHY 0 None) ;; persist_if_enabled env
          else mret tt
      end
  end.

(** One round of [_ft_strategy_center]. *)
Definition ft_strategy_center (env : CtlEnv) : M C unit :=
  c ← mget; mfor (dkeys (fm_instances (fm c))) (process_instance_strategy env).

(** [update_instances]. *)
Definition update_instances (rs : list ref) : M C unit :=
  mfor rs (λ r, c ← mget; fm_modify (sync_instance_nodes (cstore c r))).

(** *** Steps *)

Inductive fm_op :=
| FCtl (o : ctl_op)
| FNodeChange (name : string) (ev : watch_event) (conditions : list (string * string))
| FConfigMap (name : string) (ev : watch_event) (data : dict string string)
| FFaultInfo (infos : list FaultInfo) (name : string)
| FNodeStatus (st : NodeStatus) (name : string)
| FStrategies
| FConfig (cfg : FtConfig)
| FPersist
| FK8s (h : string → option string) (up : bool).

Definition fm_step (json_loads : string → option json) (x : CtlEnv * fm_op) : M C unit :=
  let env := x.1 in
  match x.2 with
  | FCtl o => ctl_step (env, o)
  | FNodeChange name ev conds => handle_node_change env name ev conds
  | FConfigMap name ev data => handle_configmap_change json_loads env name ev data
  | FFaultInfo infos name => handle_fault_info_update env infos name
  | FNodeStatus st name => handle_node_status_update env st name
  | FStrategies => ft_strategy_center env
  | FConfig cfg => fm_update_config cfg
  | FPersist => fm_persist_data env ;; mret tt
  | FK8s h up => fm_modify (λ f, set_k8s f h up)
  end.

Definition fm_run json_loads (c : C) (ops : list (CtlEnv * fm_op)) : C :=
  fold_left (λ c x, (fm_step json_loads x c).1) ops c.
End methods.

(** ** Lemmas *)

Definition val (o : option FaultInfo) : Z := match o with Some fi => level_val (fi_level fi) | None => 0 end.

Lemma level_nonneg l : 0 <= level_val l <= 6.
Proof. by destruct l. Qed.

Lemma val_nonneg o : 0 <= val o.
Proof. destruct o as [fi|]; simpl; [apply level_nonneg|done]. Qed.

Lemma worse_spec best fi :
  val (worse best fi) = Z.max (val best) (level_val (fi_level fi)) ∧
  (worse best fi = best ∨ worse best fi = Some fi).
Proof.
  unfold worse, val. destruct (Z.ltb_spec (match best with Some b => level_val (fi_level b) | None => 0 end)
    (level_val (fi_level fi))); split; auto; destruct best; simpl in *; lia.
Qed.

Lemma worse_fold l best :
  let r := fold_left worse l best in
  val best <= val r ∧ (∀ fi, fi ∈ l → level_val (fi_level fi) <= val r) ∧
  (r = best ∨ ∃ fi, fi ∈ l ∧ r = Some fi).
Proof.
  revert best. induction l as [|x l IH]; intros best; simpl; [split; [lia|]; split; [by intros ? ?%elem_of_nil|by left]|].
  destruct (IH (worse best x)) as (H1 & H2 & H3). destruct (worse_spec best x) as [E Hx]. split; [lia|]. split.
  - intros fi [->|Hfi]%elem_of_cons; [lia|auto].
  - destruct H3 as [->|(fi & Hfi & ->)]; [|right; exists fi; split; [by right|done]].
    destruct Hx as [->| ->]; [by left|right; exists x; split; [left|done]].
Qed.

Definition node_best (n : NodeMetadata) : option FaultInfo := fold_left worse (dvalues (fault_infos n)) None.

Definition node_ok (name : string) (n : NodeMetadata) : Prop :=
  nm_node_name n = name ∧ dict_wf (fault_infos n) ∧
  (node_status n = NOT_READY → ∃ fi, dget (fault_infos n) NODE_REBOOT = Some fi ∧ fi_level fi = L6).

(** The tables of the manager. *)
Definition nodes_wf (d : dict string NodeMetadata) : Prop :=
  dict_wf d ∧ ∀ name n, dget d name = Some n → node_ok name n.

Definition metas_wf (d : dict Z InstanceMetadata) (ss : list Strategy) : Prop :=
  dict_wf d ∧ (∀ id m, dget d id = Some m → im_instance_id m = id) ∧
  (∀ id m k, dget d id = Some m → strategy m = Some k → ∃ s, ss !! k = Some s ∧ is_finished s = false) ∧
  (∀ id id' m m' k, dget d id = Some m → dget d id' = Some m' → strategy m = Some k → strategy m' = Some k → id = id').

Definition fm_wf (f : FM) : Prop := nodes_wf (nodes f) ∧ metas_wf (fm_instances f) (strategies f).

(** The level is the highest of the faults of the nodes of the instance. *)
Definition is_highest (f : FM) (id : Z) (l : FaultLevel) : Prop :=
  (∀ name n fi, dget (nodes f) name = Some n → nm_instance_id n = id → fi ∈ dvalues (fault_infos n) →
     level_val (fi_level fi) <= level_val l) ∧
  (l = HEALTHY ∨ ∃ name n fi, dget (nodes f) name = Some n ∧ nm_instance_id n = id ∧
     fi ∈ dvalues (fault_infos n) ∧ fi_level fi = l).

Lemma elem_of_faulty f id n :
  nodes_wf (nodes f) →
  n ∈ faulty_nodes f id ↔ ∃ name, dget (nodes f) name = Some n ∧ nm_instance_id n = id ∧ fault_infos n ≠ [].
Proof.
  intros [Hw _]. unfold faulty_nodes. rewrite list_elem_of_In, filter_In, <- list_elem_of_In, in_dvalues.
  rewrite andb_true_iff, negb_true_iff, bool_decide_eq_true, bool_decide_eq_false. split.
  - intros [[name Hn] [? ?]]. exists name. split; [by apply dget_in_wf|done].
  - intros (name & Hn & ? & ?). split; [exists name; by apply dget_Some_in|done].
Qed.

Lemma highest_fault_spec f ns best :
  (∀ n, n ∈ ns → dget (nodes f) (nm_node_name n) = Some n) →
  let r := fold_left (λ best n, match eval_node_status f (nm_node_name n) with Some fi => worse best fi | None => best end)
             ns best in
  val best <= val r ∧ (∀ n fi, n ∈ ns → fi ∈ dvalues (fault_infos n) → level_val (fi_level fi) <= val r) ∧
  (r = best ∨ ∃ n fi, n ∈ ns ∧ fi ∈ dvalues (fault_infos n) ∧ r = Some fi).
Proof.
  revert best. induction ns as [|n ns IH]; intros best Hn; simpl.
  { split; [lia|]. split; [by intros ? ? ?%elem_of_nil|by left]. }
  unfold eval_node_status at 2 4 6 8. rewrite (Hn n) by left.
  destruct (worse_fold (dvalues (fault_infos n)) None) as (_ & Hall & Hin). fold (node_best n) in *.
  remember (match node_best n with Some fi => worse best fi | None => best end) as b1 eqn:Eb1.
  destruct (IH b1) as (H1 & H2 & H3); [intros; apply Hn; by right|].
  assert (val b1 = Z.max (val best) (val (node_best n)) ∧ (b1 = best ∨ b1 = node_best n)) as [E Hb].
  { subst b1. destruct (node_best n) as [fi|]; [apply worse_spec|]. split; [|by left].
    pose proof (val_nonneg best). simpl. lia. }
  split; [lia|]. split.
  - intros n' fi [->|Hn']%elem_of_cons Hfi; [specialize (Hall fi Hfi); lia|by eapply H2].
  - destruct H3 as [->|(n' & fi & Hn' & Hfi & ->)]; [|right; exists n', fi; split; [by right|done]].
    destruct Hb as [Hb|Hb]; [by left|]. destruct Hin as [Hnone|(fi & Hfi & Hs)].
    + left. by rewrite Eb1, Hnone.
    + right. exists n, fi. split; [left|]. split; [done|congruence].
Qed.

Lemma update_level f id m :
  nodes_wf (nodes f) →
  let m' := update_highest_fault_level f (faulty_nodes f id) m in
  is_highest f id (fault_level m') ∧ im_instance_id m' = im_instance_id m ∧ strategy m' = strategy m.
Proof.
  intros Hw m'. unfold m', update_highest_fault_level.
  assert (is_highest f id (match highest_fault f (faulty_nodes f id) with Some fi => fi_level fi | None => HEALTHY end)) as H.
  { destruct (highest_fault_spec f (faulty_nodes f id) None) as (_ & Hall & Hin).
    { intros n Hn. apply elem_of_faulty in Hn as (name & Hn & _); [|done]. by destruct (proj2 Hw _ _ Hn) as [-> _]. }
    fold (highest_fault f (faulty_nodes f id)) in *. set (r := highest_fault f (faulty_nodes f id)) in *.
    assert (val r = level_val (match r with Some fi => fi_level fi | None => HEALTHY end)) as Ev by by destruct r.
    split.
    - intros name n fi Hn Hid Hfi. rewrite <- Ev. apply (Hall n); [|done]. apply elem_of_faulty; [done|].
      exists name. split_and!; [done|done|]. intros E. rewrite E in Hfi. by apply elem_of_nil in Hfi.
    - destruct Hin as [->|(n & fi & Hn & Hfi & ->)]; [by left|right].
      apply elem_of_faulty in Hn as (name & Hn & Hid & _); [|done]. by exists name, n, fi. }
  case_decide as E; [by rewrite E|done].
Qed.

Lemma no_faulty_healthy f id : nodes_wf (nodes f) → faulty_nodes f id = [] → is_highest f id HEALTHY.
Proof.
  intros Hw E. split; [|by left]. intros name n fi Hn Hid Hfi. exfalso.
  assert (n ∈ faulty_nodes f id) as Hin; [|rewrite E in Hin; by apply elem_of_nil in Hin].
  apply elem_of_faulty; [done|]. exists name. split_and!; [done|done|].
  intros E'. rewrite E' in Hfi. by apply elem_of_nil in Hfi.
Qed.

(** *** The tables *)

Lemma nodes_wf_set d name n : nodes_wf d → node_ok name n → nodes_wf (dset d name n).
Proof.
  intros [Hd Hn] Hok. split; [by apply dict_wf_dset|]. intros name' n'. rewrite dget_dset.
  case_decide; [|apply Hn]. intros [= <-]. by subst.
Qed.

Lemma nodes_wf_del d name : nodes_wf d → nodes_wf (ddel d name).
Proof.
  intros [Hd Hn]. split; [by apply dict_wf_ddel|]. intros name' n'. rewrite dget_ddel. case_decide; [done|apply Hn].
Qed.

Lemma metas_wf_set d ss id m m' :
  metas_wf d ss → dget d id = Some m → im_instance_id m' = id → strategy m' = strategy m ∨ strategy m' = None →
  metas_wf (dset d id m') ss.
Proof.
  intros (H1 & H2 & H3 & H4) Hm Hid Hs. split_and!.
  - by apply dict_wf_dset.
  - intros id' m2. rewrite dget_dset. case_decide; [intros [= <-]; congruence|apply H2].
  - intros id' m2 k. rewrite dget_dset. case_decide; [|apply H3]. intros [= <-] E.
    destruct Hs as [Hs|Hs]; [|congruence]. apply (H3 id m); congruence.
  - intros id1 id2 m1 m2 k. rewrite !dget_dset. intros G1 G2 E1 E2.
    destruct (decide (id = id1)) as [<-|N1], (decide (id = id2)) as [<-|N2]; try done.
    + injection G1 as <-. destruct Hs as [Hs|Hs]; [|congruence]. apply (H4 id id2 m m2 k); congruence.
    + injection G2 as <-. destruct Hs as [Hs|Hs]; [|congruence]. apply (H4 id1 id m1 m k); congruence.
    + by apply (H4 id1 id2 m1 m2 k).
Qed.

Lemma metas_wf_new d ss id : metas_wf d ss → metas_wf (dset d id (InstanceMetadata_init id)) ss.
Proof.
  intros (H1 & H2 & H3 & H4). split_and!.
  - by apply dict_wf_dset.
  - intros id' m2. rewrite dget_dset. case_decide; [intros [= <-]; by subst|apply H2].
  - intros id' m2 k. rewrite dget_dset. case_decide; [by intros [= <-]|apply H3].
  - intros id1 id2 m1 m2 k. rewrite !dget_dset.
    destruct (decide (id = id1)), (decide (id = id2)); intros G1 G2 E1 E2; simplify_eq/=. by apply (H4 id1 id2 m1 m2 k).
Qed.

Lemma metas_wf_del d ss id : metas_wf d ss → metas_wf (ddel d id) ss.
Proof.
  intros (H1 & H2 & H3 & H4). split_and!.
  - by apply dict_wf_ddel.
  - intros id' m2. rewrite dget_ddel. case_decide; [done|apply H2].
  - intros id' m2 k. rewrite dget_ddel. case_decide; [done|apply H3].
  - intros id1 id2 m1 m2 k. rewrite !dget_ddel. case_decide; [done|]. case_decide; [done|]. apply H4.
Qed.

(** The level of an instance the manager knows. *)
Definition lv (f : FM) (id : Z) : option FaultLevel := fault_level <$> dget (fm_instances f) id.

(** What does not concern nodes, records and strategies. *)
Definition same_tables (f g : FM) : Prop :=
  nodes f = nodes g ∧ fm_instances f = fm_instances g ∧ strategies f = strategies g.

Lemma same_tables_wf f g : same_tables f g → fm_wf g → fm_wf f.
Proof. intros (E1 & E2 & E3). unfold fm_wf. by rewrite E1, E2, E3. Qed.

Lemma create_same f name : same_tables (create_resource_monitor f name) f.
Proof. unfold create_resource_monitor. destruct (dget _ _); [|done]. by destruct (_ && _). Qed.

(** Folds over steps that keep a relation to the start. *)
Lemma fold_keeps {A B} (R : A → A → Prop) (g : A → B → A) l a :
  (∀ a, R a a) → (∀ a b c, R a b → R b c → R a c) → (∀ a b, R (g a b) a) → R (fold_left g l a) a.
Proof.
  intros Hr Ht Hg. revert a. induction l as [|b l IH]; intros a; simpl; [done|]. eapply Ht; [apply IH|apply Hg].
Qed.

Lemma same_tables_trans f g h : same_tables f g → same_tables g h → same_tables f h.
Proof. unfold same_tables. intuition congruence. Qed.

Lemma create_all_same names f : same_tables (fold_left create_resource_monitor names f) f.
Proof. apply fold_keeps; [done|apply same_tables_trans|apply create_same]. Qed.

Lemma stop_all_same names f : same_tables (fold_left stop_resource_monitor names f) f.
Proof. by apply fold_keeps; [|apply same_tables_trans|]. Qed.

(** Steps that keep records and strategies and the well-formedness of nodes. *)
Definition keeps_nodes (f g : FM) : Prop :=
  fm_instances f = fm_instances g ∧ strategies f = strategies g ∧ (nodes_wf (nodes g) → nodes_wf (nodes f)).

Lemma keeps_nodes_trans f g h : keeps_nodes f g → keeps_nodes g h → keeps_nodes f h.
Proof. unfold keeps_nodes. intuition congruence. Qed.

Lemma same_keeps_nodes f g : same_tables f g → keeps_nodes f g.
Proof. intros (E1 & E2 & E3). unfold keeps_nodes. by rewrite E1, E2, E3. Qed.

Lemma ensure_ok f name ip id b : nodes_wf (nodes f) → node_ok name (ensure_node_metadata f name ip id b).1.
Proof.
  intros [_ H]. unfold ensure_node_metadata. destruct (dget (nodes f) name) as [n|] eqn:E; [apply (H _ _ E)|].
  simpl. split_and!; [done|apply dict_wf_nil|done].
Qed.

Lemma sync_existing_keeps f id mapping : keeps_nodes (sync_existing_instance_nodes f id mapping) f.
Proof.
  unfold sync_existing_instance_nodes. cbv zeta.
  match goal with |- keeps_nodes (fold_left _ _ ?f1) _ => apply (keeps_nodes_trans _ f1) end.
  - apply fold_keeps; [done|apply keeps_nodes_trans|]. intros g [ip name].
    destruct (ensure_node_metadata g name ip id false) as [n is_new] eqn:E.
    assert (keeps_nodes (set_nodes g (dset (nodes g) name n)) g) as H.
    { split_and!; [done|done|]. intros Hw. apply nodes_wf_set; [done|].
      pose proof (ensure_ok g name ip id false Hw) as Hok. by rewrite E in Hok. }
    destruct is_new; [|done]. eapply keeps_nodes_trans; [apply same_keeps_nodes, create_same|done].
  - apply fold_keeps; [done|apply keeps_nodes_trans|]. intros g name. split_and!; [done|done|]. apply nodes_wf_del.
Qed.

Lemma add_new_spec f id mapping :
  let f' := add_new_instance_with_nodes f id mapping in
  fm_instances f' = dset (fm_instances f) id (InstanceMetadata_init id) ∧ strategies f' = strategies f ∧
  (nodes_wf (nodes f) → nodes_wf (nodes f')).
Proof.
  intros f'. unfold f', add_new_instance_with_nodes.
  match goal with |- context [fold_left ?g mapping (f, [])] => set (step := g) end.
  assert (∀ l g metas, let r := fold_left step l (g, metas) in
    fm_instances r.1 = fm_instances g ∧ strategies r.1 = strategies g ∧
    (nodes_wf (nodes g) → nodes_wf metas → nodes_wf (nodes r.1) ∧ nodes_wf r.2)) as H.
  { induction l as [|[ip name] l IH]; intros g metas; simpl; [done|].
    destruct (ensure_node_metadata g name ip id true) as [n is_new] eqn:E.
    match goal with |- context [fold_left step l (?g1, ?m1)] => destruct (IH g1 m1) as (-> & -> & Hw) end.
    split; [by destruct is_new|]. split; [by destruct is_new|]. intros Hg Hm.
    pose proof (ensure_ok g name ip id true Hg) as Hok. rewrite E in Hok. simpl in Hok.
    apply Hw; [|by apply nodes_wf_set]. destruct is_new; [done|]. by apply nodes_wf_set. }
  destruct (H mapping f []) as (E1 & E2 & Hw). destruct (fold_left step mapping (f, [])) as [g metas]. simpl in *.
  set (g' := set_nodes _ _). destruct (create_all_same (dkeys metas) g') as (C1 & C2 & C3).
  rewrite C1, C2, C3. subst g'. simpl. rewrite E1, E2. split; [done|]. split; [done|]. intros Hf.
  destruct (Hw Hf) as [[W1 W1'] [W2 W2']]; [by split; [apply dict_wf_nil|]|].
  split; [by apply dict_wf_dupdate|]. intros name n. rewrite dget_dupdate by done.
  destruct (dget metas name) eqn:E; [|by apply W1']. intros [= <-]. by apply W2'.
Qed.

(** What an announced event does to the level of an id. *)
Definition lv_step (id : Z) (l : option FaultLevel) (x : Z * ObserverEvent) : option FaultLevel :=
  if decide (x.1 = id) then
    match x.2 with
    | INSTANCE_INITIAL => Some (default HEALTHY l)
    | INSTANCE_REMOVED => None
    | _ => l
    end
  else l.

Lemma del_nodes_keeps names f :
  keeps_nodes (fold_left (λ f name, set_nodes f (ddel (nodes f) name)) names f) f.
Proof.
  apply fold_keeps; [done|apply keeps_nodes_trans|]. intros g name. split_and!; [done|done|]. apply nodes_wf_del.
Qed.

Lemma fm_update_spec st r ev f :
  fm_wf f →
  fm_wf (fm_update st r ev f) ∧
  ∀ id, lv (fm_update st r ev f) id = lv_step id (lv f id) (ins_id (st r), ev).
Proof.
  intros [Hn Hm]. unfold lv_step. cbn [fst snd]. destruct ev; simpl.
  2,3: split; [by split|intros id; by case_decide].
  - destruct (dhas (fm_instances f) (ins_id (st r))) eqn:E.
    + split; [by split|]. intros id. case_decide; [|done]. subst. apply dhas_true in E as [m Em].
      unfold lv. by rewrite Em.
    + unfold sync_instance_nodes. rewrite E.
      match goal with |- context [add_new_instance_with_nodes f ?i ?mp] =>
        destruct (add_new_spec f i mp) as (E1 & E2 & Hw) end.
      split; [split; [by apply Hw|rewrite E1, E2; by apply metas_wf_new]|].
      intros id. unfold lv. rewrite E1, dget_dset. case_decide; [|done]. subst.
      apply dhas_false in E. by rewrite E.
  - destruct (dhas (fm_instances f) (ins_id (st r))) eqn:E.
    + set (f1 := fold_left stop_resource_monitor _ f). destruct (stop_all_same (dkeys (nodes_of f (ins_id (st r)))) f) as (S1 & S2 & S3).
      fold f1 in S1, S2, S3. destruct (del_nodes_keeps (dkeys (nodes_of f (ins_id (st r)))) f1) as (K1 & K2 & K3).
      split.
      * split; simpl; [apply K3; by rewrite S1|]. rewrite K1, S2, K2, S3. by apply metas_wf_del.
      * intros id. unfold lv. simpl. rewrite K1, S2, dget_ddel. by case_decide.
    + split; [by split|]. intros id. case_decide; [|done]. subst. apply dhas_false in E. unfold lv. by rewrite E.
Qed.

Section system.
Context {O1 D : Type} `{!Observer O1, !Codec D}.
Context (fm_checksum : dict string NodeMetadata → dict Z InstanceMetadata → Z → f64 → string).
Context (json_loads : string → option json).
Implicit Types (c : Ctl (O := O1 * FM) (D := D)).

(** *** Agreement of the fault manager with the life cycle *)

(** Both know the same ids; the separated instances are exactly those above L2, and none of
    them is active. *)
Definition agree (a : Life) (L : Z → option FaultLevel) : Prop :=
  ∀ id, (is_Some (L id) ↔ is_Some (l_status a !! id)) ∧
        (id ∈ l_forced a ↔ ∃ l, L id = Some l ∧ 2 < level_val l) ∧
        (id ∈ l_forced a → l_status a !! id ≠ Some ACTIVE).

Definition sys_ok c : Prop := ctl_ok c ∧ fm_wf (fm c) ∧ agree (life_of c) (lv (fm c)).

Definition lv_fold (L : Z → option FaultLevel) (evs : list (Z * ObserverEvent)) (id : Z) : option FaultLevel :=
  fold_left (lv_step id) evs (L id).

Lemma agree_step a l a' L :
  life_step a l = Some a' → match l with LAdd _ | LMove _ _ => True | _ => False end → agree a L →
  ∃ new, l_events a' = l_events a ++ new ∧ agree a' (lv_fold L new).
Proof.
  intros Hs Hl H. destruct l as [i|i ev| |]; try done; simpl in Hs.
  - destruct (l_status a !! i) eqn:E; [done|]. injection Hs as <-. exists [(i, INSTANCE_INITIAL)].
    split; [done|]. intros id. destruct (H id) as (A & B & C). unfold lv_fold, lv_step. simpl.
    destruct (decide (i = id)) as [<-|Hne].
    + rewrite lookup_insert_eq. assert (L i = None) as EL.
      { destruct (L i) eqn:EL; [|done]. rewrite E in A. destruct A as [A _]. by destruct (A ltac:(eauto)). }
      rewrite EL in *. simpl. split_and!; [naive_solver| |naive_solver].
      rewrite B. split; [by intros (? & ? & _)|]. intros (l & [= <-] & Hlt). simpl in Hlt. lia.
    + rewrite lookup_insert_ne by done. by split_and!.
  - destruct (l_status a !! i) as [from|] eqn:E; [|done]. simpl in Hs.
    destruct (transitions from ev) as [to|] eqn:Et; [|done]. simpl in Hs.
    destruct (decide (to = from)) as [|Hne]; [done|]. destruct (decide _) as [|Hf]; [done|]. injection Hs as <-.
    exists (announce i to). split; [done|]. intros id. destruct (H id) as (A & B & C). cbn [l_status l_forced].
    unfold lv_fold, lv_step, announce, put_status. destruct (decide (i = id)) as [<-|Hid].
    + destruct to; simpl; rewrite ?lookup_insert_eq, ?lookup_delete_eq; try rewrite decide_True by done.
      * split_and!; [|done|naive_solver]. rewrite A, E. naive_solver.
      * split_and!; [|done|naive_solver]. rewrite A, E. naive_solver.
      * split_and!; [|done|]; [rewrite A, E; naive_solver|]. intros Hin. destruct Hf. done.
      * split_and!; [naive_solver| |naive_solver]. set_solver.
    + assert (fold_left (λ l (x : Z * ObserverEvent), if decide (x.1 = id) then
          match x.2 with INSTANCE_INITIAL => Some (default HEALTHY l) | INSTANCE_REMOVED => None | _ => l end else l)
          (match notice_of to with Some ev0 => [(i, ev0)] | None => [] end) (L id) = L id) as EL.
      { destruct to; simpl; try done; by rewrite decide_False. }
      rewrite EL. destruct to; simpl; rewrite ?lookup_insert_ne, ?lookup_delete_ne by done; split_and!; try done; set_solver.
Qed.

Lemma agree_run ls a a' L :
  life_run a ls = Some a' → Forall (λ l, match l with LAdd _ | LMove _ _ => True | _ => False end) ls → agree a L →
  ∃ new, l_events a' = l_events a ++ new ∧ agree a' (lv_fold L new).
Proof.
  revert a L. induction ls as [|l ls IH]; intros a L Hr Hf Ha; simpl in Hr.
  { injection Hr as <-. exists []. by rewrite app_nil_r. }
  destruct (life_step a l) as [a1|] eqn:E; [|done]. simpl in Hr. apply Forall_cons in Hf as [Hl Hf].
  destruct (agree_step a l a1 L E Hl Ha) as (n1 & E1 & A1). destruct (IH a1 _ Hr Hf A1) as (n2 & E2 & A2).
  exists (n1 ++ n2). split; [by rewrite E2, E1, app_assoc|]. intros id. specialize (A2 id).
  unfold lv_fold in *. by rewrite fold_left_app.
Qed.

Lemma agree_ext a L L' : (∀ id, L id = L' id) → agree a L → agree a L'.
Proof. intros E H id. specialize (H id). by rewrite E in H. Qed.

(** The instance manager's own operations. *)
Lemma ctl_op_ok env o c :
  match o with OAdd r => status (cstore c r) = INITIAL | OSeparate _ | ORecover _ => False | _ => True end →
  sys_ok c → sys_ok (ctl_step (env, o) c).1.
Proof.
  intros Ho (Hc & Hw & Ha).
  destruct (step_sim env o c Hc) as (Hc' & _ & ls & Hls & Hr); [by destruct o|].
  assert (Forall (λ l, match l with LAdd _ | LMove _ _ => True | _ => False end) ls) as Hls'.
  { eapply Forall_impl; [exact Hls|]. intros [| | |]; simpl; try done; intros ->; done. }
  destruct (agree_run ls _ _ _ Hr Hls' Ha) as (new & Enew & Ha').
  assert (fm_wf (fm (ctl_step (env, o) c).1) ∧
    ∃ n, l_events (life_of (ctl_step (env, o) c).1) = l_events (life_of c) ++ n ∧
      ∀ id, lv (fm (ctl_step (env, o) c).1) id = lv_fold (lv (fm c)) n id) as (Hw' & n & En & EL).
  { set (P c' := fm_wf (fm c') ∧ ∃ n, l_events (life_of c') = l_events (life_of c) ++ n ∧
        ∀ id, lv (fm c') id = lv_fold (lv (fm c)) n id).
    change (P (ctl_step (env, o) c).1). apply (keeps_step P).
    - intros s r i Hi (W & n & E & EL). split; [done|]. exists n. split; [|done]. rewrite <- E. simpl.
      apply (events_core s (set_ins s r i)). intros x. by apply store_set_core.
    - intros s r ev (W & n & E & EL). unfold notify, mmodify. cbn [fst].
      destruct (fm_update_spec (cstore s) r ev (fm s) W) as [W' L']. split; [exact W'|].
      exists (n ++ [(ins_id (cstore s r), ev)]). split.
      + rewrite app_assoc, <- E. simpl. by rewrite map_app.
      + intros id. unfold lv_fold. rewrite fold_left_app. simpl. fold (lv_fold (lv (fm c)) n id). rewrite <- EL. apply L'.
    - intros s s' E1 E2 E3 (W & n & E & EL). unfold P. assert (fm s' = fm s) as -> by (unfold fm; by rewrite E2).
      split; [done|]. exists n. split; [|done]. rewrite <- E. simpl. by rewrite E1, E3.
    - split; [done|]. exists []. by rewrite app_nil_r. }
  split; [done|]. split; [done|]. assert (new = n) as -> by (rewrite Enew in En; by apply app_inv_head in En).
  eapply agree_ext; [|exact Ha']. done.
Qed.

(** Changes of the fault manager alone. *)
Lemma sys_ok_fm c f :
  fm_wf f → (∀ id, lv f id = lv (fm c) id) → sys_ok c → sys_ok (set_fm c f).
Proof.
  intros Hw Hl (Hc & _ & Ha). split; [exact Hc|]. split; [exact Hw|]. eapply agree_ext; [|exact Ha].
  intros id. symmetry. apply Hl.
Qed.

Lemma sys_ok_tables c f : same_tables f (fm c) → sys_ok c → sys_ok (set_fm c f).
Proof.
  intros Hs Hc. apply sys_ok_fm; [|intros id; unfold lv; by destruct Hs as (_ & -> & _)|done].
  eapply same_tables_wf; [exact Hs|apply Hc].
Qed.

(** *** Separation and recovery as the fault manager uses them *)

Lemma separate_fm env id f : preserves (λ c, fm c = f) (separate_instance env id).
Proof.
  unfold separate_instance. apply preserves_bind; [apply preserves_get|]. intros s. destruct (get_instance s id) as [r|]; [|apply preserves_ret].
  apply preserves_bind; [by intros c H|]. intros _. apply preserves_bind; [apply preserves_get|]. intros s1.
  destruct (decide _); [|apply preserves_ret].
  apply preserves_bind; [by intros c H|]. intros _. apply preserves_bind; [by intros c H|]. intros _.
  apply preserves_bind; [apply preserves_get|]. intros s2. destruct (enable_persistence s2); [|apply preserves_ret].
  apply preserves_bind; [|intros _; apply preserves_ret].
  intros c H. unfold persist_data. by destruct (etcd_write env).
Qed.

Lemma life_separations a ls a' id :
  life_run a ls = Some a' → Forall (λ l, l = LSeparate id) ls →
  (∀ x, is_Some (l_status a' !! x) ↔ is_Some (l_status a !! x)) ∧
  (∀ x, x ∈ l_forced a' → x = id ∨ x ∈ l_forced a) ∧ l_forced a ⊆ l_forced a' ∧
  (∀ x, l_status a' !! x = Some ACTIVE → l_status a !! x = Some ACTIVE).
Proof.
  revert a. induction ls as [|l ls IH]; intros a Hr Hf; simpl in Hr; [injection Hr as <-; split_and!; auto|].
  apply Forall_cons in Hf as [-> Hf]. destruct (life_step a (LSeparate id)) as [a1|] eqn:E; [|done].
  destruct (IH a1 Hr Hf) as (H1 & H2 & H3 & H4). simpl in E.
  destruct (l_status a !! id) as [st|] eqn:Es; [|done]. simpl in E.
  assert ((∀ x, is_Some (l_status a1 !! x) ↔ is_Some (l_status a !! x)) ∧ l_forced a1 = {[id]} ∪ l_forced a ∧
          (∀ x, l_status a1 !! x = Some ACTIVE → l_status a !! x = Some ACTIVE)) as (K1 & K2 & K3).
  { destruct (decide (st = ACTIVE)) as [Ha|Ha]; injection E as <-; [|done]. simpl. split_and!; [|done|].
    - intros x. rewrite lookup_insert. case_decide; [|done]. subst. rewrite Es. split; intros _; eauto.
    - intros x. rewrite lookup_insert. by case_decide. }
  split_and!.
  - intros x. by rewrite H1.
  - intros x Hx. specialize (H2 x Hx). set_solver.
  - set_solver.
  - auto.
Qed.

Lemma separate_effect env id c :
  ctl_ok c → is_Some (dget (instances c) id) →
  let c' := (separate_instance env id c).1 in
  fm c' = fm c ∧ ctl_ok c' ∧ l_forced (life_of c') = {[id]} ∪ l_forced (life_of c) ∧
  (∀ x, is_Some (l_status (life_of c') !! x) ↔ is_Some (l_status (life_of c) !! x)) ∧
  (∀ x, l_status (life_of c') !! x = Some ACTIVE → x ≠ id ∧ l_status (life_of c) !! x = Some ACTIVE).
Proof.
  intros Hc Hid c'. destruct (separate_sim env id c Hc) as (Hc' & _ & ls & Hls & Hr). fold c' in Hc', Hr.
  assert (Forall (λ l, l = LSeparate id) ls) as Hls'.
  { eapply Forall_impl; [exact Hls|]. intros [i|i ev|i|i]; simpl; [by intros (? & ? & _)|done|by intros [= ->]|done]. }
  destruct (life_separations _ _ _ _ Hr Hls') as (H1 & H2 & H3 & H4).
  destruct (separate_kept_out env id c Hc Hid) as [K1 (st & K2 & K3)]. fold c' in K1, K2.
  split; [by apply separate_fm|]. split; [done|]. split; [set_solver|]. split; [done|].
  intros x Hx. split; [|by apply H4]. intros ->. rewrite K2 in Hx. congruence.
Qed.

Lemma recover_effect id c :
  ctl_ok c → is_Some (dget (instances c) id) →
  ∃ c', recover_instance id c = (c', Ret tt) ∧ fm c' = fm c ∧ ctl_ok c' ∧
    l_forced (life_of c') = l_forced (life_of c) ∖ {[id]} ∧ l_status (life_of c') = l_status (life_of c).
Proof.
  intros Hc [r Hr]. unfold recover_instance. erewrite M_bind_Ret by reflexivity. unfold get_instance. rewrite Hr.
  destruct (proj2 Hc _ _ Hr) as [Eid _]. rewrite Eid. destruct (decide _) as [Hin|Hin].
  - eexists. split; [reflexivity|]. split; [done|]. split; [exact Hc|]. simpl. by rewrite Eid.
  - exists c. split; [done|]. split; [done|]. split; [done|]. simpl. split; [|done]. set_solver.
Qed.

Lemma agree_set a a' L id l :
  agree a L → is_Some (L id) →
  (∀ x, is_Some (l_status a' !! x) ↔ is_Some (l_status a !! x)) →
  (∀ x, x ≠ id → (x ∈ l_forced a' ↔ x ∈ l_forced a)) → (id ∈ l_forced a' ↔ 2 < level_val l) →
  (∀ x, l_status a' !! x = Some ACTIVE → l_status a !! x = Some ACTIVE ∧ (x = id → id ∉ l_forced a')) →
  agree a' (λ x, if decide (id = x) then Some l else L x).
Proof.
  intros H Hl Hst Hf Hid Hact x. destruct (H x) as (A & B & C). rewrite Hst. destruct (decide (id = x)) as [<-|Hne].
  - split_and!; [naive_solver| |naive_solver]. rewrite Hid. naive_solver.
  - split_and!; [done|rewrite Hf by done; done|]. intros Hin Hx. apply Hact in Hx as [Hx _].
    apply Hf in Hin; [|done]. by apply C.
Qed.

(** The record of an instance gets a new level. *)
Lemma put_level_lv f id m m' :
  im_instance_id m' = id → dget (fm_instances f) id = Some m →
  ∀ x, lv (put_meta f m') x = if decide (id = x) then Some (fault_level m') else lv f x.
Proof. intros <- Hm x. unfold lv. simpl. rewrite dget_dset. by case_decide. Qed.

Lemma put_level_wf f id m m' :
  fm_wf f → dget (fm_instances f) id = Some m → im_instance_id m' = id → strategy m' = strategy m ∨ strategy m' = None →
  fm_wf (put_meta f m').
Proof. intros [Hn Hm] E Ei Es. split; [done|]. simpl. rewrite Ei. by eapply metas_wf_set. Qed.

Lemma persist_effect env c :
  ∃ c', persist_if_enabled fm_checksum env c = (c', Ret tt) ∧ same_tables (fm c') (fm c) ∧ (sys_ok c → sys_ok c').
Proof.
  unfold persist_if_enabled. erewrite M_bind_Ret by reflexivity. destruct (ft_persistence _); [|by exists c].
  unfold mbind, M_bind, fm_persist_data. destruct (etcd_write env); (eexists; split; [reflexivity|]; split; [done|]);
    by apply sys_ok_tables.
Qed.

Lemma in_diff_ne (X : gset Z) id x : x ≠ id → x ∈ X ∖ {[id]} ↔ x ∈ X.
Proof. set_solver. Qed.
Lemma not_in_diff (X : gset Z) id : id ∉ X ∖ {[id]}.
Proof. set_solver. Qed.
Lemma in_union_ne (X : gset Z) id x : x ≠ id → x ∈ {[id]} ∪ X ↔ x ∈ X.
Proof. set_solver. Qed.
Lemma in_union_same (X : gset Z) id : id ∈ ({[id]} ∪ X : gset Z).
Proof. set_solver. Qed.

Lemma refresh_ok env id c :
  sys_ok c →
  let c' := (refresh_instance_fault_level fm_checksum env id c).1 in
  sys_ok c' ∧ nodes (fm c') = nodes (fm c) ∧ strategies (fm c') = strategies (fm c) ∧
  (is_Some (dget (fm_instances (fm c)) id) →
   ∃ m', dget (fm_instances (fm c')) id = Some m' ∧ is_highest (fm c') id (fault_level m')).
Proof.
  intros Hs. pose proof Hs as (Hc & Hw & Ha). cbv zeta. unfold refresh_instance_fault_level.
  erewrite M_bind_Ret by reflexivity.
  destruct (dget (fm_instances (fm c)) id) as [m|] eqn:Em; [|by split; [|split; [|split; [|intros []]]]].
  assert (im_instance_id m = id) as Ei by by apply Hw.
  assert (is_Some (lv (fm c) id)) as Hlv by (unfold lv; rewrite Em; done).
  assert (is_Some (dget (instances c) id)) as Hin.
  { apply (Ha id) in Hlv. rewrite life_status in Hlv. by apply fmap_is_Some in Hlv. }
  assert (∀ m', im_instance_id m' = id → dget (fm_instances (put_meta (fm c) m')) id = Some m') as Hput.
  { intros m' <-. simpl. apply dget_dset_eq. }
  assert (∀ c' l, ctl_ok c' → fm_wf (fm c') →
    (∀ x, lv (fm c') x = if decide (id = x) then Some l else lv (fm c) x) →
    (∀ x, is_Some (l_status (life_of c') !! x) ↔ is_Some (l_status (life_of c) !! x)) →
    (∀ x, x ≠ id → (x ∈ l_forced (life_of c') ↔ x ∈ l_forced (life_of c))) →
    (id ∈ l_forced (life_of c') ↔ 2 < level_val l) →
    (∀ x, l_status (life_of c') !! x = Some ACTIVE →
       l_status (life_of c) !! x = Some ACTIVE ∧ (x = id → id ∉ l_forced (life_of c'))) → sys_ok c') as Hsys.
  { intros c' l Hc' Hw' HL H1 H2 H3 H4. split; [done|]. split; [done|].
    eapply agree_ext; [intros x; symmetry; apply HL|]. by eapply agree_set. }
  destruct (faulty_nodes (fm c) id) as [|n ns] eqn:Ef.
  - pose proof (no_faulty_healthy (fm c) id (proj1 Hw) Ef) as Hh.
    destruct (decide (fault_level m = HEALTHY)) as [El|El].
    { split; [done|]. split; [done|]. split; [done|]. intros _. exists m. by rewrite El. }
    set (m' := mkMeta (im_instance_id m) HEALTHY 0 (strategy m)). erewrite M_bind_Ret by reflexivity.
    set (c1 := set_fm c (put_meta (fm c) m')).
    destruct (recover_effect id c1 Hc Hin) as (c' & -> & Efm & Hc' & Hf & Hst). cbn [fst].
    assert (sys_ok c') as Hs'.
    { apply (Hsys c' HEALTHY); rewrite ?Efm, ?Hf, ?Hst; try done.
      - by eapply put_level_wf; [| |exact Ei|left].
      - by apply put_level_lv with m.
      - intros x Hx. by apply in_diff_ne.
      - split; [intros Hx; by apply not_in_diff in Hx|simpl; lia].
      - intros x Hx. split; [exact Hx|intros _; apply not_in_diff]. }
    split; [done|]. split; [by rewrite Efm|]. split; [by rewrite Efm|]. intros _. exists m'. rewrite Efm. split; [by apply Hput|exact Hh].
  - destruct (update_level (fm c) id m (proj1 Hw)) as (Hh & Ei' & Est). rewrite Ef in Hh, Ei', Est.
    set (m' := update_highest_fault_level (fm c) (n :: ns) m) in *. rewrite Ei in Ei'.
    erewrite M_bind_Ret by reflexivity. set (c1 := set_fm c (put_meta (fm c) m')).
    assert (∃ c2, (if level_val L2 <? level_val (fault_level m') then separate_instance env id
       else c ← mget; if is_instance_separated c id then recover_instance id else mret tt) c1 = (c2, Ret tt) ∧
       fm c2 = fm c1 ∧ sys_ok c2) as (c2 & E2 & Efm & Hs2).
    { assert (fm_wf (fm c1)) as Hw1 by (eapply put_level_wf; [done|exact Em|exact Ei'|by left]).
      pose proof (put_level_lv (fm c) id m m' Ei' Em) as Hlv1. change (put_meta (fm c) m') with (fm c1) in Hlv1.
      destruct (Z.ltb_spec (level_val L2) (level_val (fault_level m'))) as [Hlt|Hge]; change (level_val L2) with 2 in *.
      - destruct (separate_effect env id c1 Hc Hin) as (Efm & Hc2 & Hf & Hst & Hact).
        assert ((separate_instance env id c1).2 = Ret tt) as Er.
        { clear -c1. unfold separate_instance. erewrite M_bind_Ret by reflexivity. destruct (get_instance c1 id); [|done].
          do 2 (erewrite M_bind_Ret by reflexivity). destruct (decide _); [|done].
          do 3 (erewrite M_bind_Ret by reflexivity). destruct (enable_persistence _); [|done].
          unfold mbind, M_bind, persist_data. by destruct (etcd_write env). }
        destruct (separate_instance env id c1) as [c2 r2]. cbn [fst snd] in *. subst r2. exists c2. split; [done|]. split; [done|].
        apply (Hsys c2 (fault_level m')); rewrite ?Efm, ?Hf; try done.
        + intros x Hx. by apply in_union_ne.
        + split; [done|intros _; apply in_union_same].
        + intros x Hx. apply Hact in Hx as [Hne Hx]. split; [exact Hx|done].
      - erewrite M_bind_Ret by reflexivity. unfold is_instance_separated, get_instance.
        destruct Hin as [r Hr]. change (instances c1) with (instances c). rewrite Hr. change (cstore c1) with (cstore c).
        destruct (proj2 Hc _ _ Hr) as [-> _]. change (forced_separated_instances c1) with (forced_separated_instances c).
        case_bool_decide as Hin.
        + destruct (recover_effect id c1 Hc) as (c2 & E2 & Efm & Hc2 & Hf & Hst); [by exists r|].
          exists c2. split; [exact E2|]. split; [done|].
          apply (Hsys c2 (fault_level m')); rewrite ?Efm, ?Hf, ?Hst; try done.
          * intros x Hx. by apply in_diff_ne.
          * split; [intros Hx; by apply not_in_diff in Hx|simpl; lia].
          * intros x Hx. split; [exact Hx|intros _; apply not_in_diff].
        + exists c1. split; [done|]. split; [done|]. apply (Hsys c1 (fault_level m')); try done.
          split; [done|lia]. }
    rewrite (M_bind_Ret _ _ _ _ _ E2). destruct (persist_effect env c2) as (c3 & -> & (T1 & T2 & T3) & Hp). cbn [fst].
    split; [by apply Hp|]. rewrite T1, T2, T3, Efm. split; [done|]. split; [done|]. intros _. exists m'. split; [by apply Hput|].
    unfold is_highest. rewrite T1, Efm. exact Hh.
Qed.

(** *** Every operation keeps the system well-formed *)

Lemma fold_faults_wf infos (d : dict Z FaultInfo) :
  dict_wf d → dict_wf (fold_left (λ d fi, dset d (fi_code fi) fi) infos d).
Proof. revert d. induction infos as [|fi infos IH]; intros d Hd; simpl; [done|]. apply IH. by apply dict_wf_dset. Qed.

Lemma replace_faults_ok name n infos : node_ok name n → node_ok name (replace_faults n infos).
Proof.
  intros (H1 & H2 & H3). unfold replace_faults. pose proof (fold_faults_wf infos [] dict_wf_nil) as Hd.
  split_and!; simpl; [done| |].
  - destruct (dget _ _); [by apply dict_wf_dset|done].
  - intros Hn. destruct (H3 Hn) as (fi & E & El). exists fi. rewrite E, dget_dset_eq. done.
Qed.

Lemma set_node_status_ok name n st : node_ok name n → node_ok name (set_node_status n st).
Proof.
  intros (H1 & H2 & H3). unfold set_node_status. split_and!; simpl; [done| |].
  - destruct (decide _); [done|]. destruct st; [by apply dict_wf_ddel|by apply dict_wf_dset].
  - intros ->. destruct (decide _) as [E|]; [by apply H3|]. exists reboot_fault. by rewrite dget_dset_eq.
Qed.

Lemma set_node_ok c name n : sys_ok c → node_ok name n → sys_ok (set_fm c (set_nodes (fm c) (dset (nodes (fm c)) name n))).
Proof.
  intros Hs Hn. apply sys_ok_fm; [|done|done]. destruct (proj1 (proj2 Hs)) as [Hw Hm]. split; [|done]. by apply nodes_wf_set.
Qed.

(** A handler that rewrites one node and refreshes its instance. *)
Definition node_update env name (g : NodeMetadata → NodeMetadata) : M (Ctl (O := O1 * FM) (D := D)) unit :=
  c ← mget;
  match dget (nodes (fm c)) name with
  | None => mret tt
  | Some n =>
      fm_modify (λ f, set_nodes f (dset (nodes f) name (g n))) ;;
      refresh_instance_fault_level fm_checksum env (nm_instance_id n)
  end.

Lemma node_update_ok env name g c :
  (∀ n, node_ok name n → node_ok name (g n)) → sys_ok c →
  let c' := (node_update env name g c).1 in
  sys_ok c' ∧ strategies (fm c') = strategies (fm c) ∧
  ∀ n, dget (nodes (fm c)) name = Some n →
    nodes (fm c') = dset (nodes (fm c)) name (g n) ∧
    (is_Some (dget (fm_instances (fm c)) (nm_instance_id n)) →
     ∃ m', dget (fm_instances (fm c')) (nm_instance_id n) = Some m' ∧
           is_highest (fm c') (nm_instance_id n) (fault_level m')).
Proof.
  intros Hg Hs. cbv zeta. unfold node_update. erewrite M_bind_Ret by reflexivity.
  destruct (dget (nodes (fm c)) name) as [n|] eqn:En; [|by split_and!].
  erewrite M_bind_Ret by reflexivity.
  pose proof (proj2 (proj1 (proj1 (proj2 Hs))) _ _ En) as Hn.
  destruct (refresh_ok env (nm_instance_id n) _ (set_node_ok c name (g n) Hs (Hg n Hn))) as (H1 & H2 & H2' & H3).
  split; [exact H1|]. split; [exact H2'|]. intros n' [= <-]. split; [exact H2|exact H3].
Qed.

Lemma upd_monitor_ok c name g : sys_ok c → sys_ok (upd_monitor name g c).1.
Proof. intros Hs. apply sys_ok_tables; [|done]. by destruct (dget _ _). Qed.

Lemma upd_monitor_nodes c name g : nodes (fm (upd_monitor name g c).1) = nodes (fm c).
Proof. unfold upd_monitor, fm_modify, mmodify, set_fm, fm. simpl. by destruct (dget _ _). Qed.

Lemma metas_wf_start d ss ss' id m lvl code cls :
  metas_wf d ss → dget d id = Some m → length ss' = length ss →
  (∀ j, strategy m ≠ Some j → ss' !! j = ss !! j) →
  metas_wf (dset d id (mkMeta id lvl code (Some (length ss)))) (ss' ++ [Strategy_init cls]).
Proof.
  intros (H1 & H2 & H3 & H4) Hm Hlen Hss. split_and!.
  - by apply dict_wf_dset.
  - intros id' m2. rewrite dget_dset. case_decide; [by intros [= <-]|apply H2].
  - intros id' m2 k. rewrite dget_dset. case_decide as Hid.
    + intros [= <-] [= <-]. exists (Strategy_init cls). by rewrite <- Hlen, lookup_app_r, Nat.sub_diag by lia.
    + intros G E. destruct (H3 id' m2 k G E) as (s & Hs & Hf). exists s. split; [|done].
      apply lookup_app_l_Some. rewrite Hss; [done|]. intros E'. apply Hid. by eapply H4.
  - intros id1 id2 m1 m2 k. rewrite !dget_dset.
    assert (∀ i mi, dget d i = Some mi → strategy mi ≠ Some (length ss)) as Hfresh.
    { intros i mi G E. destruct (H3 i mi _ G E) as (s & Hs & _). apply lookup_lt_Some in Hs. lia. }
    destruct (decide (id = id1)) as [<-|], (decide (id = id2)) as [<-|]; intros G1 G2 E1 E2; simplify_eq/=; try done.
    + by destruct (Hfresh _ _ G2).
    + by destruct (Hfresh _ _ G1).
    + by eapply H4.
Qed.

(** What a round of the strategy center does to one instance. *)
Definition strategy_effect (f : FM) (m : InstanceMetadata) (role : option string) : FM :=
  match strategy_for (fm_config f) (fault_level m) (fault_code m) role with
  | None => put_meta f m
  | Some cls =>
      let fresh ss := put_meta (set_strategies f (ss ++ [Strategy_init cls]))
                        (mkMeta (im_instance_id m) (fault_level m) (fault_code m) (Some (length (strategies f)))) in
      match k ← strategy m; s ← strategies f !! k; Some (k, s) with
      | Some (k, s) => if decide (cls = st_class s) then put_meta f m else fresh (alter strategy_stop k (strategies f))
      | None => fresh (strategies f)
      end
  end.

Lemma process_effect env id c m :
  sys_ok c → dget (fm_instances (fm c)) id = Some m →
  process_instance_strategy fm_checksum env id c =
    (set_fm c (strategy_effect (fm c) m (option_map (λ r, role (cstore c r)) (get_instance c id))), Ret tt) ∧
  sys_ok (process_instance_strategy fm_checksum env id c).1.
Proof.
  intros Hs Em. pose proof Hs as (Hc & [Hn Hm] & Ha). pose proof (proj1 (proj2 Hm) _ _ Em) as Ei.
  pose proof (proj1 (proj2 (proj2 Hm))) as Hun.
  set (rl := option_map _ _). 
  assert (process_instance_strategy fm_checksum env id c = (set_fm c (strategy_effect (fm c) m rl), Ret tt)) as E.
  { unfold process_instance_strategy, strategy_effect. erewrite M_bind_Ret by reflexivity. rewrite Em. cbv zeta. fold rl.
    assert (m = mkMeta (im_instance_id m) (fault_level m) (fault_code m) (strategy m)) as Eta by by destruct m.
    assert (∀ c1 f k s, fm c1 = f → strategies f !! k = Some s → is_finished s = false →
      (c2 ← mget; if match strategies (fm c2) !! k with Some s => is_finished s | None => false end
        then put_meta_of (mkMeta (im_instance_id m) HEALTHY 0 None) ;; persist_if_enabled fm_checksum env
        else mret tt) c1 = (c1, Ret tt)) as Hnot.
    { intros c1 f k s <- Ek Ef. erewrite M_bind_Ret by reflexivity. by rewrite Ek, Ef. }
    destruct (strategy_for _ _ _ rl) as [cls|].
    - destruct (strategy m) as [k|] eqn:Ek; simpl.
      + destruct (Hun id m k Em Ek) as (s & Ess & Ef). rewrite Ess. simpl. case_decide as Ecls.
        * erewrite M_bind_Ret by reflexivity. erewrite M_bind_Ret by reflexivity.
          rewrite <- Eta. erewrite Hnot; [reflexivity|reflexivity|exact Ess|exact Ef].
        * rewrite (M_bind_Ret _ _ c (set_fm c (set_strategies (fm c) (alter strategy_stop k (strategies (fm c)) ++ [Strategy_init cls])))
                     (Some (length (strategies (fm c))))).
          2: { transitivity (set_fm c (set_strategies (fm c) (alter strategy_stop k (strategies (fm c)) ++ [Strategy_init cls])),
                 Ret (A := option nat) (Some (length (alter strategy_stop k (strategies (fm c)))))); [reflexivity|].
               by rewrite length_alter. }
          erewrite M_bind_Ret by reflexivity. erewrite Hnot; [reflexivity|reflexivity| |].
          { simpl. rewrite lookup_app_r by (rewrite length_alter; lia). by rewrite length_alter, Nat.sub_diag. }
          done.
      + rewrite (M_bind_Ret _ _ c (set_fm c (set_strategies (fm c) (strategies (fm c) ++ [Strategy_init cls])))
                   (Some (length (strategies (fm c))))) by reflexivity.
        erewrite M_bind_Ret by reflexivity. erewrite Hnot; [reflexivity|reflexivity| |].
        { simpl. by rewrite lookup_app_r, Nat.sub_diag by lia. }
        done.
    - do 2 (erewrite M_bind_Ret by reflexivity). rewrite <- Eta.
      destruct (strategy m) as [k|] eqn:Ek; [|reflexivity].
      destruct (Hun id m k Em Ek) as (s & Ess & Ef). erewrite Hnot; [reflexivity|reflexivity|exact Ess|exact Ef]. }
  split; [exact E|]. rewrite E. cbn [fst]. apply sys_ok_fm; [| |done].
  - assert (fm_wf (put_meta (fm c) m)) as Hsame by (eapply put_level_wf; [by split|exact Em|done|by left]).
    unfold strategy_effect. destruct (strategy_for _ _ _ rl) as [cls|]; [|done].
    destruct (strategy m) as [k|] eqn:Ek; simpl.
    + destruct (Hun id m k Em Ek) as (s & Ess & Ef). rewrite Ess. simpl. case_decide; [done|]. split; [done|].
      simpl. rewrite Ei. eapply metas_wf_start; [done|exact Em|apply length_alter|].
      intros j Hj. rewrite list_lookup_alter_ne; [done|congruence].
    + split; [done|]. simpl. rewrite Ei. by eapply metas_wf_start.
  - intros x. assert (∀ m', im_instance_id m' = id → fault_level m' = fault_level m →
      lv (put_meta (fm c) m') x = lv (fm c) x) as Hlv.
    { intros m' E1 E2. rewrite (put_level_lv (fm c) id m m' E1 Em). case_decide; [|done]. subst x.
      unfold lv. by rewrite Em, E2. }
    unfold strategy_effect. destruct (strategy_for _ _ _ rl) as [cls|]; [|by apply Hlv].
    destruct (k ← strategy m; s ← strategies (fm c) !! k; Some (k, s)) as [[k s]|]; [case_decide; [by apply Hlv|]|];
      apply (Hlv (mkMeta (im_instance_id m) (fault_level m) (fault_code m) (Some (length (strategies (fm c)))))); done.
Qed.

Lemma center_ok env ids c : sys_ok c → sys_ok (mfor ids (process_instance_strategy fm_checksum env) c).1.
Proof.
  intros Hs. apply (preserves_for sys_ok); [|done]. intros id _ c1 H1.
  destruct (dget (fm_instances (fm c1)) id) as [m|] eqn:Em; [by apply (process_effect env id c1 m)|].
  unfold process_instance_strategy. erewrite M_bind_Ret by reflexivity. by rewrite Em.
Qed.

Definition fm_op_ok c (o : fm_op) : Prop :=
  match o with
  | FCtl (OAdd r) => status (cstore c r) = INITIAL
  | FCtl (OSeparate _) | FCtl (ORecover _) => False
  | _ => True
  end.

(** Only fresh instances are added, and only the fault manager separates and recovers. *)
Fixpoint fm_ops_ok c (ops : list (CtlEnv * fm_op)) : Prop :=
  match ops with
  | [] => True
  | x :: ops => fm_op_ok c x.2 ∧ fm_ops_ok (fm_step fm_checksum json_loads x c).1 ops
  end.

Lemma fm_step_ok x c : fm_op_ok c x.2 → sys_ok c → sys_ok (fm_step fm_checksum json_loads x c).1.
Proof.
  destruct x as [env o]. unfold fm_step. cbn [fst snd]. intros Ho Hs.
  assert (∀ infos name c1, sys_ok c1 → sys_ok (handle_fault_info_update fm_checksum env infos name c1).1) as Hfault.
  { intros infos name c1 H1. apply (node_update_ok env name (λ n, replace_faults n infos) c1); [|done].
    intros n. apply replace_faults_ok. }
  assert (∀ st name c1, sys_ok c1 → sys_ok (handle_node_status_update fm_checksum env st name c1).1) as Hstatus.
  { intros st name c1 H1. apply (node_update_ok env name (λ n, set_node_status n st) c1); [|done].
    intros n. apply set_node_status_ok. }
  destruct o as [o|name ev conds|name ev data|infos name|st name| |cfg| |h up].
  - apply ctl_op_ok; [|done]. by destruct o.
  - unfold handle_node_change. erewrite M_bind_Ret by reflexivity. destruct (dget _ name) as [m|]; [|done].
    destruct ev; [destruct (decide _); [done|]..|]; erewrite M_bind_Ret by reflexivity; apply Hstatus; by apply upd_monitor_ok.
  - unfold handle_configmap_change. erewrite M_bind_Ret by reflexivity. destruct (dget _ name) as [m|]; [|done].
    cbv zeta. destruct ev.
    1,2: match goal with |- context [if ?b then _ else _] => destruct b; [|done] end;
      erewrite M_bind_Ret by reflexivity; apply Hfault; by apply upd_monitor_ok.
    erewrite M_bind_Ret by reflexivity. apply Hfault. by apply upd_monitor_ok.
  - by apply Hfault.
  - by apply Hstatus.
  - unfold ft_strategy_center. erewrite M_bind_Ret by reflexivity. by apply center_ok.
  - apply sys_ok_tables; [|done]. cbv zeta. destruct (_ || _); [|done].
    eapply same_tables_trans; [apply create_all_same|done].
  - unfold mbind, M_bind, fm_persist_data. destruct (etcd_write env); by apply sys_ok_tables.
  - by apply sys_ok_tables.
Qed.

Lemma fm_run_ok ops c : fm_ops_ok c ops → sys_ok c → sys_ok (fm_run fm_checksum json_loads c ops).
Proof.
  revert c. induction ops as [|x ops IH]; intros c; simpl; [done|]. intros [Hx Ho] Hs. apply IH; [done|].
  by apply fm_step_ok.
Qed.

(** The controller at its first start. *)
Definition sys_init (st : ref → Instance) (persist : bool) (o1 : O1) (cfg : FtConfig) h up : Ctl (O := O1 * FM) (D := D) :=
  Ctl_init st 0%nat persist None (o1, FM_init cfg h up None).

Lemma sys_init_ok st persist o1 cfg h up : sys_ok (sys_init st persist o1 cfg h up).
Proof.
  split; [by split; [apply dict_wf_nil|]|]. split.
  - split; [by split; [apply dict_wf_nil|]|]. split_and!; try done. apply dict_wf_nil.
  - intros id. simpl. rewrite lookup_empty. split; [by split; intros []|]. split; [|set_solver].
    split; [set_solver|]. by intros (l & [=] & _).
Qed.

(** *** What any operation leaves of the strategy objects *)

(** A Lingqu strategy that runs is never stopped. *)
Definition lingqu_kept (f g : FM) : Prop :=
  ∀ k s, strategies f !! k = Some s → st_class s = LingquNetworkRecoverStrategy → strategies g !! k = Some s.

Lemma lingqu_kept_trans f g h : lingqu_kept f g → lingqu_kept g h → lingqu_kept f h.
Proof. unfold lingqu_kept. eauto. Qed.

Lemma lingqu_kept_eq f g : strategies g = strategies f → lingqu_kept f g.
Proof. intros E k s. by rewrite E. Qed.

Lemma fm_update_strategies st r ev f : strategies (fm_update st r ev f) = strategies f.
Proof.
  destruct ev; simpl; try done.
  - destruct (dhas _ _) eqn:E; [done|]. unfold sync_instance_nodes. rewrite E. by apply add_new_spec.
  - destruct (dhas _ _); [|done]. set (f1 := fold_left stop_resource_monitor _ f).
    change (strategies (fold_left (λ f name, set_nodes f (ddel (nodes f) name)) (dkeys (nodes_of f (ins_id (st r)))) f1) = strategies f).
    destruct (del_nodes_keeps (dkeys (nodes_of f (ins_id (st r)))) f1) as (_ & -> & _).
    unfold f1. by destruct (stop_all_same (dkeys (nodes_of f (ins_id (st r)))) f) as (_ & _ & ->).
Qed.

Lemma strategy_effect_kept f m role : lingqu_kept f (strategy_effect f m role).
Proof.
  unfold strategy_effect. destruct (strategy_for _ _ _ _) as [cls|]; [|by apply lingqu_kept_eq].
  destruct (k ← strategy m; s ← strategies f !! k; Some (k, s)) as [[k s]|] eqn:E.
  - case_decide; [by apply lingqu_kept_eq|]. intros j sj Hj Hc. simpl. apply lookup_app_l_Some.
    destruct (decide (k = j)) as [<-|]; [|by rewrite list_lookup_alter_ne].
    rewrite list_lookup_alter_eq, Hj. simpl. unfold strategy_stop. by rewrite Hc.
  - intros j sj Hj _. simpl. by apply lookup_app_l_Some.
Qed.

Lemma fm_step_kept x c : fm_op_ok c x.2 → sys_ok c → lingqu_kept (fm c) (fm (fm_step fm_checksum json_loads x c).1).
Proof.
  destruct x as [env o]. unfold fm_step. cbn [fst snd]. intros Ho Hs.
  assert (∀ g name c1, (∀ n, node_ok name n → node_ok name (g n)) → sys_ok c1 →
     strategies (fm (node_update env name g c1).1) = strategies (fm c1)) as Hnode.
  { intros g name c1 Hg H1. by apply node_update_ok. }
  assert (∀ name g, strategies (fm (upd_monitor name g c).1) = strategies (fm c)) as Hmon.
  { intros name g. unfold upd_monitor, fm_modify, mmodify, set_fm, fm. simpl. by destruct (dget _ _). }
  destruct o as [o|name ev conds|name ev data|infos name|st name| |cfg| |h up].
  - apply lingqu_kept_eq. set (P c' := strategies (fm c') = strategies (fm c)).
    change (P (ctl_step (env, o) c).1). apply (keeps_step P); try done.
    + intros s r ev H. unfold P, notify, mmodify, fm. simpl. by rewrite fm_update_strategies.
    + intros s s' _ E _ H. unfold P, fm in *. by rewrite E.
  - apply lingqu_kept_eq. unfold handle_node_change. erewrite M_bind_Ret by reflexivity.
    destruct (dget _ name) as [m|]; [|done].
    destruct ev; [destruct (decide _); [done|]..|]; erewrite M_bind_Ret by reflexivity.
    all: etransitivity; [refine (Hnode (λ n, set_node_status n _) name _ _ _)|apply Hmon];
      [intros ?; apply set_node_status_ok|by apply upd_monitor_ok].
  - apply lingqu_kept_eq. unfold handle_configmap_change. erewrite M_bind_Ret by reflexivity.
    destruct (dget _ name) as [m|]; [|done]. cbv zeta. destruct ev.
    1,2: match goal with |- context [if ?b then _ else _] => destruct b; [|done] end.
    all: erewrite M_bind_Ret by reflexivity;
      (etransitivity; [refine (Hnode (λ n, replace_faults n _) name _ _ _)|apply Hmon];
      [intros ?; apply replace_faults_ok|by apply upd_monitor_ok]).
  - apply lingqu_kept_eq. apply (Hnode (λ n, replace_faults n infos)); [intros ?; apply replace_faults_ok|done].
  - apply lingqu_kept_eq. apply (Hnode (λ n, set_node_status n st)); [intros ?; apply set_node_status_ok|done].
  - unfold ft_strategy_center. erewrite M_bind_Ret by reflexivity.
    apply (preserves_for (λ c', sys_ok c' ∧ lingqu_kept (fm c) (fm c'))); [|by split; [|apply lingqu_kept_eq]].
    intros id _ c1 [H1 Hk]. destruct (dget (fm_instances (fm c1)) id) as [m|] eqn:Em.
    + destruct (process_effect env id c1 m H1 Em) as [E Hs1]. split; [exact Hs1|]. rewrite E.
      eapply lingqu_kept_trans; [exact Hk|apply strategy_effect_kept].
    + unfold process_instance_strategy. erewrite M_bind_Ret by reflexivity. by rewrite Em.
  - apply lingqu_kept_eq. unfold fm_update_config, fm_modify, mmodify. cbv zeta. cbn [fst].
    unfold set_fm, fm. cbn [observers set_observers snd]. destruct (_ || _); [|done].
    match goal with |- strategies (fold_left _ ?l ?f1) = _ => by destruct (create_all_same l f1) as (_ & _ & ->) end.
  - apply lingqu_kept_eq. unfold mbind, M_bind, fm_persist_data. by destruct (etcd_write env).
  - by apply lingqu_kept_eq.
Qed.

Lemma fm_run_kept ops c :
  fm_ops_ok c ops → sys_ok c → lingqu_kept (fm c) (fm (fm_run fm_checksum json_loads c ops)).
Proof.
  revert c. induction ops as [|x ops IH]; intros c; [by intros _ _; apply lingqu_kept_eq|]. intros [Hx Ho] Hs. simpl.
  eapply lingqu_kept_trans; [by apply fm_step_kept|]. apply IH; [done|]. by apply fm_step_ok.
Qed.

(** ** Properties *)


(** The last entry of a list with a given code. *)
Definition last_with_code (code : Z) (infos : list FaultInfo) : option FaultInfo :=
  last (List.filter (λ fi, bool_decide (fi_code fi = code)) infos).

Lemma fold_faults_get infos (d : dict Z FaultInfo) code :
  dget (fold_left (λ d fi, dset d (fi_code fi) fi) infos d) code =
  match last_with_code code infos with Some fi => Some fi | None => dget d code end.
Proof.
  revert d. induction infos as [|fi infos IH]; intros d; simpl; [done|]. rewrite IH. unfold last_with_code. simpl.
  case_bool_decide as E.
  - rewrite last_cons. destruct (last _); [done|]. by rewrite dget_dset, decide_True.
  - destruct (last _); [done|]. by rewrite dget_dset_ne.
Qed.

(** What a report of faults or of the status of a node does.  The faults recorded for
    the node become, per code, the last of the list with that code — a lower level
    hides a higher one reported earlier under the same code — except the reboot entry,
    which stays; a change of status adds or removes exactly the reboot entry.  Either
    way the level of the instance becomes the highest of all recorded faults of all its
    nodes, and it is separated exactly when that is above L2. *)
Theorem fault_update_exact st persist o1 cfg h up ops env name n upd :
  let c0 := sys_init st persist o1 cfg h up in
  fm_ops_ok c0 ops →
  let c := fm_run fm_checksum json_loads c0 ops in
  dget (nodes (fm c)) name = Some n →
  is_Some (dget (fm_instances (fm c)) (nm_instance_id n)) →
  let id := nm_instance_id n in
  let c' := (match upd with
             | inl infos => handle_fault_info_update fm_checksum env infos name
             | inr status => handle_node_status_update fm_checksum env status name
             end c).1 in
  (∃ n', dget (nodes (fm c')) name = Some n' ∧
     ∀ code, dget (fault_infos n') code =
       match upd with
       | inl infos =>
           if decide (code = NODE_REBOOT ∧ is_Some (dget (fault_infos n) NODE_REBOOT))
           then dget (fault_infos n) NODE_REBOOT else last_with_code code infos
       | inr status =>
           if decide (code = NODE_REBOOT ∧ status ≠ node_status n)
           then match status with NOT_READY => Some reboot_fault | READY => None end
           else dget (fault_infos n) code
       end) ∧
  (∀ name', name' ≠ name → dget (nodes (fm c')) name' = dget (nodes (fm c)) name') ∧
  ∃ m', dget (fm_instances (fm c')) id = Some m' ∧ is_highest (fm c') id (fault_level m') ∧
        (is_instance_separated c' id = true ↔ 2 < level_val (fault_level m')).
Proof.
  intros c0 Hops c Hn Hid id c'. pose proof (fm_run_ok ops c0 Hops (sys_init_ok _ _ _ _ _ _)) as Hs. fold c in Hs.
  set (g := match upd with inl infos => λ n, replace_faults n infos | inr status => λ n, set_node_status n status end).
  assert (∀ n, node_ok name n → node_ok name (g n)) as Hg.
  { intros n1. unfold g. destruct upd; [apply replace_faults_ok|apply set_node_status_ok]. }
  assert (c' = (node_update env name g c).1) as Ec by (unfold c', g; by destruct upd).
  destruct (node_update_ok env name g c Hg Hs) as (Hs' & _ & H). rewrite <- Ec in Hs', H. clear Ec.
  destruct (H n Hn) as (En & Hm). destruct (Hm Hid) as (m' & Em & Hh). clear H Hm. rewrite En.
  split; [|split].
  - exists (g n). rewrite dget_dset_eq. split; [done|]. intros code. unfold g. destruct upd as [infos|status]; simpl.
    + pose proof (fold_faults_get infos [] code) as Ef. simpl in Ef.
      destruct (dget (fault_infos n) NODE_REBOOT) as [fi|] eqn:Er.
      * rewrite dget_dset. destruct (decide (NODE_REBOOT = code)) as [<-|Hne].
        -- by rewrite decide_True.
        -- rewrite decide_False by naive_solver. rewrite Ef. by destruct (last_with_code code infos).
      * rewrite decide_False by (intros [_ [? ?]]; done). rewrite Ef. by destruct (last_with_code code infos).
    + destruct (decide (node_status n = status)) as [E|E].
      * by rewrite decide_False by (intros [_ ?]; congruence).
      * destruct (decide (NODE_REBOOT = code)) as [<-|Hne].
        -- rewrite decide_True by (split; [done|congruence]). destruct status; [apply dget_ddel_eq|apply dget_dset_eq].
        -- rewrite decide_False by (intros [? _]; congruence). destruct status; [by apply dget_ddel_ne|by apply dget_dset_ne].
  - intros name' Hne. by apply dget_dset_ne.
  - exists m'. split; [done|]. split; [done|]. destruct Hs' as (Hc' & _ & Ha). destruct (Ha id) as (A & B & _).
    rewrite life_status in A. unfold lv in A, B. fold id in Em. rewrite Em in A, B. simpl in A, B.
    assert (is_Some (dget (instances c') id)) as [r Hr] by (eapply fmap_is_Some, A; done).
    unfold is_instance_separated, get_instance. rewrite Hr, bool_decide_eq_true. destruct (proj2 Hc' _ _ Hr) as [-> _].
    unfold life_of in B. simpl in B. rewrite B. split; [by intros (l & [= <-] & ?)|]. intros ?. by exists (fault_level m').
Qed.

(** A node that is not ready drives the level of its instance to the top. *)
Lemma not_ready_top c name n l :
  sys_ok c → dget (nodes (fm c)) name = Some n → node_status n = NOT_READY →
  is_highest (fm c) (nm_instance_id n) l → l = L6.
Proof.
  intros Hs Hn Hst [Hle _]. destruct (proj2 (proj1 (proj1 (proj2 Hs))) _ _ Hn) as (_ & Hwf & Hr).
  destruct (Hr Hst) as (fi & Hfi & El). assert (fi ∈ dvalues (fault_infos n)) as Hin.
  { apply in_dvalues. exists NODE_REBOOT. by apply dget_Some_in. }
  specialize (Hle name n fi Hn eq_refl Hin). rewrite El in Hle. by destruct l.
Qed.

(** What a level above L2 means for the instance manager. *)
Lemma severe_separated c id m :
  sys_ok c → dget (fm_instances (fm c)) id = Some m → 2 < level_val (fault_level m) →
  is_instance_separated c id = true ∧ ∃ r, dget (instances c) id = Some r ∧ status (cstore c r) ≠ ACTIVE.
Proof.
  intros (Hc & _ & Ha) Hm Hlt. destruct (Ha id) as (A & B & C). rewrite life_status in A, C. unfold lv in A, B.
  rewrite Hm in A, B. simpl in A, B. assert (id ∈ l_forced (life_of c)) as Hin by (apply B; by exists (fault_level m)).
  assert (is_Some (dget (instances c) id)) as [r Hr] by (eapply fmap_is_Some, A; done).
  unfold is_instance_separated, get_instance. rewrite Hr. destruct (proj2 Hc _ _ Hr) as [-> _].
  split; [by apply bool_decide_eq_true|]. exists r. split; [done|]. specialize (C Hin). rewrite Hr in C. simpl in C. congruence.
Qed.

(** A node that is not ready takes its instance out, and keeps it out.  The report that a
    node is not ready puts its instance at level L6, separated and not active; and
    while the node stays so, no report of faults for any node of the instance — an
    empty one included — brings it below. *)
Theorem not_ready_isolates st persist o1 cfg h up ops env name n (report : option (string * list FaultInfo)) :
  let c0 := sys_init st persist o1 cfg h up in
  fm_ops_ok c0 ops →
  let c := fm_run fm_checksum json_loads c0 ops in
  let id := nm_instance_id n in
  dget (nodes (fm c)) name = Some n → is_Some (dget (fm_instances (fm c)) id) →
  match report with
  | Some (name2, _) => node_status n = NOT_READY ∧ nm_instance_id <$> dget (nodes (fm c)) name2 = Some id
  | None => True
  end →
  let c' := (match report with
             | Some (name2, infos) => handle_fault_info_update fm_checksum env infos name2
             | None => handle_node_status_update fm_checksum env NOT_READY name
             end c).1 in
  fault_level <$> dget (fm_instances (fm c')) id = Some L6 ∧ is_instance_separated c' id = true ∧
  ∃ r, dget (instances c') id = Some r ∧ status (cstore c' r) ≠ ACTIVE.
Proof.
  intros c0 Hops c id Hn Hid Hrep c'. pose proof (fm_run_ok ops c0 Hops (sys_init_ok _ _ _ _ _ _)) as Hs. fold c in Hs.
  assert (sys_ok c' ∧ ∃ n' m', dget (nodes (fm c')) name = Some n' ∧ node_status n' = NOT_READY ∧ nm_instance_id n' = id ∧
    dget (fm_instances (fm c')) id = Some m' ∧ is_highest (fm c') id (fault_level m')) as (Hs' & n' & m' & E1 & E2 & E3 & E4 & E5).
  { destruct report as [[name2 infos]|].
    - destruct Hrep as [Hst (n2 & Hn2 & Hid2)%fmap_Some].
      destruct (node_update_ok env name2 (λ n, replace_faults n infos) c (λ n, replace_faults_ok name2 n infos) Hs) as (Hs' & _ & H).
      destruct (H n2 Hn2) as [En Hm]. rewrite <- Hid2 in Hm. destruct (Hm Hid) as (m' & Em & Hh). split; [exact Hs'|].
      destruct (decide (name2 = name)) as [->|Hne].
      + rewrite Hn in Hn2. injection Hn2 as <-. exists (replace_faults n infos), m'.
        split; [|by split]. etransitivity; [exact (f_equal (λ d, dget d name) En)|]. apply dget_dset_eq.
      + exists n, m'. split; [|by split]. etransitivity; [exact (f_equal (λ d, dget d name) En)|]. by rewrite dget_dset_ne.
    - destruct (node_update_ok env name (λ n, set_node_status n NOT_READY) c
        (λ n, set_node_status_ok name n NOT_READY) Hs) as (Hs' & _ & H).
      destruct (H n Hn) as [En Hm]. destruct (Hm Hid) as (m' & Em & Hh). split; [exact Hs'|].
      exists (set_node_status n NOT_READY), m'.
      split; [|by split]. etransitivity; [exact (f_equal (λ d, dget d name) En)|]. apply dget_dset_eq. }
  assert (fault_level m' = L6) as El by (rewrite <- E3 in E5; by eapply not_ready_top).
  split; [by rewrite E4; simpl; rewrite El|]. apply (severe_separated c' id m' Hs' E4). by rewrite El.
Qed.

(** A device fault with code 1 never clears.  The entry under the code of a reboot is
    kept by every later report, so a device fault whose code is 1 — as ["0x1"] parses
    — survives any number of reports without it, and the level of the instance stays
    at least its level. *)
Theorem reboot_code_sticks st persist o1 cfg h up ops name n fi reports :
  let c0 := sys_init st persist o1 cfg h up in
  fm_ops_ok c0 ops →
  let c := fm_run fm_checksum json_loads c0 ops in
  dget (nodes (fm c)) name = Some n → is_Some (dget (fm_instances (fm c)) (nm_instance_id n)) →
  let report c x := (handle_fault_info_update fm_checksum x.1 x.2 name c).1 in
  (∀ env ty npu lvl, let f := fault_of_entry (mkEntry ty npu lvl "0x1") in
     dget (fault_infos n) NODE_REBOOT = None →
     ∃ n', dget (nodes (fm (report c (env, [f])))) name = Some n' ∧ dget (fault_infos n') NODE_REBOOT = Some f) ∧
  (dget (fault_infos n) NODE_REBOOT = Some fi → reports ≠ [] →
   let c' := fold_left report reports c in
   ∃ n' m', dget (nodes (fm c')) name = Some n' ∧ dget (fault_infos n') NODE_REBOOT = Some fi ∧
     dget (fm_instances (fm c')) (nm_instance_id n) = Some m' ∧ level_val (fi_level fi) <= level_val (fault_level m')).
Proof.
  intros c0 Hops c Hn Hid report. pose proof (fm_run_ok ops c0 Hops (sys_init_ok _ _ _ _ _ _)) as Hs. fold c in Hs.
  assert (∀ c1 n1 x, sys_ok c1 → dget (nodes (fm c1)) name = Some n1 → sys_ok (report c1 x) ∧
    nodes (fm (report c1 x)) = dset (nodes (fm c1)) name (replace_faults n1 x.2) ∧
    (is_Some (dget (fm_instances (fm c1)) (nm_instance_id n1)) →
     ∃ m', dget (fm_instances (fm (report c1 x))) (nm_instance_id n1) = Some m' ∧
           is_highest (fm (report c1 x)) (nm_instance_id n1) (fault_level m'))) as Hstep.
  { intros c1 n1 x H1 En. destruct (node_update_ok x.1 name (λ n, replace_faults n x.2) c1
      (λ n, replace_faults_ok name n x.2) H1) as (H2 & _ & H3). split; [exact H2|]. exact (H3 n1 En). }
  split.
  - intros env ty npu lvl f Hno. destruct (Hstep c n (env, [f]) Hs Hn) as (_ & En & _). exists (replace_faults n [f]).
    rewrite En, dget_dset_eq. split; [done|]. unfold replace_faults. by rewrite Hno.
  - clearbody c. clear c0 Hops. revert c n Hs Hn Hid. induction reports as [|x reports IH]; intros c n Hs Hn Hid Hfi Hne; [done|].
    simpl. destruct (Hstep c n x Hs Hn) as (Hs1 & En & Hm). destruct (Hm Hid) as (m1 & Em & Hh).
    set (n1 := replace_faults n x.2). assert (dget (nodes (fm (report c x))) name = Some n1) as Hn1 by (rewrite En; apply dget_dset_eq).
    assert (dget (fault_infos n1) NODE_REBOOT = Some fi) as Hf1.
    { unfold n1, replace_faults. simpl. rewrite Hfi. apply dget_dset_eq. }
    destruct (decide (reports = [])) as [->|Hr].
    + exists n1, m1. split; [exact Hn1|]. split; [exact Hf1|]. split; [exact Em|].
      apply (proj1 Hh name n1); [exact Hn1|done|]. apply in_dvalues. exists NODE_REBOOT. by apply dget_Some_in.
    + apply (IH (report c x) n1 Hs1 Hn1); [by exists m1|done|done].
Qed.

(** What the strategy center does.  The recorded level and code never change.  Without a
    strategy for them — healthy included — a running strategy is left alone; a running
    strategy of the class wanted is kept; any other class, for a lower level as for a
    higher one, stops the old strategy and starts a fresh one. *)
Theorem strategy_rules st persist o1 cfg h up ops env id m :
  let c0 := sys_init st persist o1 cfg h up in
  fm_ops_ok c0 ops →
  let c := fm_run fm_checksum json_loads c0 ops in
  dget (fm_instances (fm c)) id = Some m →
  let c' := (process_instance_strategy fm_checksum env id c).1 in
  let ss := strategies (fm c) in
  let ss' := strategies (fm c') in
  let wanted := strategy_for (fm_config (fm c)) (fault_level m) (fault_code m)
                  (option_map (λ r, role (cstore c r)) (get_instance c id)) in
  ∃ m', dget (fm_instances (fm c')) id = Some m' ∧ fault_level m' = fault_level m ∧ fault_code m' = fault_code m ∧
  match wanted, strategy m with
  | None, _ => m' = m ∧ ss' = ss
  | Some cls, None => strategy m' = Some (length ss) ∧ ss' = ss ++ [Strategy_init cls]
  | Some cls, Some k =>
      if decide (st_class <$> ss !! k = Some cls) then m' = m ∧ ss' = ss
      else strategy m' = Some (length ss) ∧ ss' = alter strategy_stop k ss ++ [Strategy_init cls]
  end.
Proof.
  intros c0 Hops c Hm c' ss ss' wanted. pose proof (fm_run_ok ops c0 Hops (sys_init_ok _ _ _ _ _ _)) as Hs. fold c in Hs.
  destruct (process_effect env id c m Hs Hm) as [E _]. unfold ss', c'. rewrite E. cbn [fst].
  destruct (proj2 (proj1 (proj2 Hs))) as (_ & Hids & Hun & _). pose proof (Hids _ _ Hm) as Eid.
  assert (∀ f m1, im_instance_id m1 = id → dget (fm_instances (put_meta f m1)) id = Some m1) as Hput.
  { intros f m1 <-. simpl. apply dget_dset_eq. }
  unfold strategy_effect. fold wanted. destruct wanted as [cls|]; [|exists m; by split; [apply Hput|]].
  destruct (strategy m) as [k|] eqn:Ek.
  - destruct (Hun id m k Hm Ek) as (s & Hk & _). unfold ss.
    assert ((k ← Some k; s ← strategies (fm c) !! k; Some (k, s)) = Some (k, s)) as -> by (simpl; by rewrite Hk).
    rewrite Hk. change (st_class <$> Some s) with (Some (st_class s)).
    destruct (decide (cls = st_class s)) as [->|Hne].
    + exists m. rewrite !decide_True by done. by split; [apply Hput|].
    + eexists. rewrite !decide_False by congruence. split; [by apply Hput|]. done.
  - eexists. split; [by apply Hput|]. done.
Qed.

Lemma filter_seq_sorted (p : nat → bool) n len :
  StronglySorted lt (List.filter p (seq n len)) ∧ Forall (λ k, (n <= k)%nat) (List.filter p (seq n len)).
Proof.
  revert n. induction len as [|len IH]; intros n; simpl; [by split; constructor|].
  destruct (IH (S n)) as [H1 H2]. assert (Forall (λ k, (n < k)%nat) (List.filter p (seq (S n) len))) as H3.
  { eapply Forall_impl; [exact H2|]. simpl. lia. }
  destruct (p n); split; repeat (constructor || done); eapply Forall_impl; eauto; simpl; lia.
Qed.

Lemma running_blocked f ks k' :
  NoDup ks → length ks = max_workers →
  (∀ k, k ∈ ks → (k < k')%nat ∧ ∃ s, strategies f !! k = Some s ∧ st_event s = false) → k' ∉ running f.
Proof.
  intros Hnd Hlen Hks Hin. unfold running in Hin.
  match type of Hin with _ ∈ take _ (List.filter ?p ?l) =>
    destruct (filter_seq_sorted p 0 (length (strategies f))) as [Hs _]; set (l0 := List.filter p l) in * end.
  assert (∀ k, k ∈ ks → k ∈ take max_workers l0) as Hall.
  { intros k Hk. destruct (Hks k Hk) as (Hlt & s & Es & Ev). assert (k ∈ l0) as Hl.
    { unfold l0. apply list_elem_of_In, filter_In. rewrite Es, Ev. split; [|done].
      apply in_seq. apply lookup_lt_Some in Es. lia. }
    rewrite <- (take_drop max_workers l0) in Hl, Hs. apply elem_of_app in Hl as [Hl|Hl]; [done|].
    pose proof (StronglySorted_app_1_elem_of lt _ _ _ _ Hs Hin Hl). lia. }
  assert (length (k' :: ks) <= length (take max_workers l0))%nat as Hle.
  { apply NoDup_incl_length.
    - apply NoDup_ListNoDup. apply NoDup_cons. split; [|done]. intros Hk. destruct (Hks k' Hk). lia.
    - intros x [<-|Hx%list_elem_of_In]; apply list_elem_of_In; auto. }
  rewrite length_take in Hle. cbn [length] in Hle. rewrite Hlen in Hle. lia.
Qed.

(** Five Lingqu strategies block the executor for good.  Once five strategies that
    recover the Lingqu network have been started, no strategy submitted later ever
    runs, whatever happens next: they loop until their event is set, and nothing sets
    it, [stop] included. *)
Theorem executor_starvation st persist o1 cfg h up ops ops' ks k' :
  let c0 := sys_init st persist o1 cfg h up in
  fm_ops_ok c0 ops →
  let c := fm_run fm_checksum json_loads c0 ops in
  fm_ops_ok c ops' →
  NoDup ks → length ks = max_workers →
  (∀ k, k ∈ ks → (k < k')%nat ∧ strategies (fm c) !! k = Some (Strategy_init LingquNetworkRecoverStrategy)) →
  k' ∉ running (fm (fm_run fm_checksum json_loads c ops')).
Proof.
  intros c0 Hops c Hops' Hnd Hlen Hks. apply (running_blocked _ ks); [done|done|].
  intros k Hk. destruct (Hks k Hk) as [Hlt Ek]. split; [done|]. exists (Strategy_init LingquNetworkRecoverStrategy). split; [|reflexivity].
  apply (fm_run_kept ops' c Hops'); [|by apply Ek|done]. by apply fm_run_ok; [|apply sys_init_ok].
Qed.

(** *** Restarts *)

Lemma rebuild_dict {K V} `{EqDecision K} (d d0 : dict K V) :
  dict_wf (d0 ++ d) → fold_left (λ d '(k, v), dset d k v) d d0 = d0 ++ d.
Proof.
  revert d0. induction d as [|[k v] d IH]; intros d0 Hd; simpl; [by rewrite app_nil_r|].
  rewrite dset_new.
  - rewrite IH; rewrite <- app_assoc; [done|exact Hd].
  - apply dget_None_keys. unfold dict_wf, dkeys in *. rewrite fmap_app in Hd. simpl in Hd.
    apply NoDup_app in Hd as (_ & Hd & _). intros Hk. apply (Hd k Hk). left.
Qed.

Lemma mapped_keys {K V W} (g : V → W) (d : dict K V) : ([] ++ map (λ '(k, v), (k, g v)) d).*1 = d.*1.
Proof. induction d as [|[k v] d IH]; simpl; [done|]. by f_equal. Qed.

Lemma without_strategy_fold (d : dict Z InstanceMetadata) :
  (∀ id m, (id, m) ∈ d → im_instance_id m = id) → ∀ d0,
  fold_left (λ (d : dict Z InstanceMetadata) '(_, m), dset d (im_instance_id m) m)
    (map (λ '(id, m), (id, without_strategy m)) d) d0 =
  fold_left (λ d '(k, v), dset d k v) (map (λ '(id, m), (id, without_strategy m)) d) d0.
Proof.
  induction d as [|[id m] d IH]; intros H d0; simpl; [done|]. rewrite (H id m) by left.
  apply IH. intros id' m' Hin. apply H. by right.
Qed.

(** What survives a restart.  A manager started on what another one persisted has its
    nodes, with their faults and status, and its levels and codes, but no strategies,
    and one monitor per node; data whose checksum does not match is refused.  But the
    return of an instance to healthy is not persisted: whenever no node of it has a
    fault left, a refresh leaves the stored data as they were. *)
Theorem restart_restores_persisted st persist o1 cfg h up ops env :
  let c0 := sys_init st persist o1 cfg h up in
  fm_ops_ok c0 ops →
  let c := fm_run fm_checksum json_loads c0 ops in
  (etcd_write env = EtcdStored →
   ∀ (c2 : Ctl (O := O1 * FM) (D := D)) cfg2 h2 up2, ft_persistence cfg2 = true →
   fm c2 = FM_init cfg2 h2 up2 (fm_etcd (fm (fm_persist_data fm_checksum env c).1)) →
   let f := fm (fm_start fm_checksum true c2).1 in
   nodes f = nodes (fm c) ∧
   fm_instances f = map (λ '(id, m), (id, without_strategy m)) (fm_instances (fm c)) ∧
   ∀ name, dhas (monitors f) name = dhas (nodes f) name) ∧
  (∀ (c2 : Ctl (O := O1 * FM) (D := D)) p,
     fm_etcd (fm c2) = Some p →
     fs_checksum p ≠ fm_checksum (fs_nodes p) (fs_instances p) (fs_version p) (fs_timestamp p) →
     fm_restore_data fm_checksum true c2 = (c2, Ret false)) ∧
  (∀ id, faulty_nodes (fm c) id = [] →
     fm_etcd (fm (refresh_instance_fault_level fm_checksum env id c).1) = fm_etcd (fm c)).
Proof.
  intros c0 Hops c. pose proof (fm_run_ok ops c0 Hops (sys_init_ok _ _ _ _ _ _)) as Hs. fold c in Hs.
  destruct Hs as (Hc & [[Hn1 Hn2] (Hm1 & Hm2 & _)] & Ha). split; [|split].
  - intros He c2 cfg2 h2 up2 Hp E f. unfold fm_persist_data in E. rewrite He in E. cbn [fst] in E.
    set (ins := map _ (fm_instances (fm c))) in E.
    assert (∃ f1, f = fold_left create_resource_monitor (dkeys (nodes f1)) f1 ∧ nodes f1 = nodes (fm c) ∧
      fm_instances f1 = ins ∧ monitors f1 = []) as (f1 & Ef & E1 & E2 & E3).
    { unfold f, fm_start. erewrite M_bind_Ret by reflexivity. rewrite E. cbn [fm_config FM_init]. rewrite Hp.
      unfold fm_restore_data. unfold mbind at 1, M_bind at 1. unfold mbind at 1, M_bind at 1. unfold mbind at 1, M_bind at 1.
      cbn [mget]. rewrite E. cbn [fm_etcd FM_init fm set_fm set_observers observers snd set_stored].
      unfold fm_valid. cbn [fs_checksum fs_nodes fs_instances fs_version fs_timestamp]. rewrite bool_decide_eq_true_2 by done.
      eexists. split; [reflexivity|]. cbn. rewrite E. split_and!; [| |done].
      - cbn. by rewrite rebuild_dict.
      - cbn. unfold ins. rewrite without_strategy_fold.
        + rewrite rebuild_dict; [done|]. unfold dict_wf, dkeys. rewrite mapped_keys. exact Hm1.
        + intros id m Hin. apply Hm2. by apply dget_in_wf. }
    destruct (create_all_same (dkeys (nodes f1)) f1) as (C1 & C2 & C3). rewrite <- Ef in C1, C2.
    split; [by rewrite C1|]. split; [by rewrite C2|]. intros name. rewrite C1, Ef.
    assert (∀ names g, dhas (monitors (fold_left create_resource_monitor names g)) name =
      bool_decide (name ∈ names) || dhas (monitors g) name) as Hmon.
    { induction names as [|x names IH]; intros g; simpl; [done|]. rewrite IH. clear IH.
      assert (dhas (monitors (create_resource_monitor g x)) name = bool_decide (name = x) || dhas (monitors g) name) as ->.
      { unfold create_resource_monitor. destruct (dget (monitors g) x) as [mo|] eqn:Ex; [destruct (_ && _)|].
        - case_bool_decide; [|done]. subst. simpl. apply dhas_true. eauto.
        - simpl. unfold dhas. rewrite dget_dset. repeat case_bool_decide; try done; case_decide; naive_solver.
        - simpl. unfold dhas. rewrite dget_dset. repeat case_bool_decide; try done; case_decide; naive_solver. }
      rewrite orb_assoc. f_equal. repeat case_bool_decide; set_solver. }
    rewrite Hmon, E3, orb_false_r. unfold dhas. apply bool_decide_ext. apply elem_of_dkeys.
  - intros c2 p E Hne. unfold fm_restore_data. erewrite M_bind_Ret by reflexivity. rewrite E. unfold fm_valid.
    by rewrite bool_decide_eq_false_2.
  - intros id Hf. unfold refresh_instance_fault_level. erewrite M_bind_Ret by reflexivity.
    destruct (dget (fm_instances (fm c)) id) as [m|] eqn:Em; [|done]. rewrite Hf. destruct (decide _); [done|].
    erewrite M_bind_Ret by reflexivity.
    assert (is_Some (dget (instances c) id)) as Hin.
    { destruct (Ha id) as (A & _). rewrite life_status in A. unfold lv in A. rewrite Em in A. by eapply fmap_is_Some, A. }
    match goal with |- context [recover_instance id ?c1] => destruct (recover_effect id c1) as (c' & -> & E & _) end; [done|done|].
    cbn [fst]. by rewrite E.
Qed.
End system.

(** ** Witnesses *)

Section witnesses.
#[local] Instance unit_codec : Codec unit := {| dump _ := tt; load _ := None; checksum_of _ _ _ := ""%string |}.

Definition fm_store (r : ref) : Instance :=
  set_node_managers (sample_instance (Z.of_nat r) "decode") [mkNM ("10.0.0." +:+ pretty.pretty r) "80" 8].
Definition fm_cfg : FtConfig := mkFtConfig true true "mindx-dl-deviceinfo-" "kube-system" true.
Definition fm_sum : dict string NodeMetadata → dict Z InstanceMetadata → Z → f64 → string := λ _ _ v _, pretty.pretty v.
Definition fm_loads : string → option json := λ _, None.
Definition fm_env : CtlEnv := mkCtlEnv (f_of_Z 1) (λ _, Some true) EtcdStored true.
Abbreviation fm_c0 := (sys_init (O1 := unit) (D := unit) fm_store true tt fm_cfg Some true).

Definition lingqu_fault : FaultInfo := mkFault CARD_NETWORK_UNHEALTHY "Ascend910-0" 0x08520003 L2 RESTART_REQUEST.
Definition chip_fault : FaultInfo := mkFault CARD_UNHEALTHY "Ascend910-1" 0x80E18005 L4 FREE_RESTART_NPU.
Definition name_of (k : nat) : string := "10.0.0." +:+ pretty.pretty k.

(** An instance in service whose node breaks. *)
Definition fm_ops : list (CtlEnv * fm_op) :=
  [(fm_env, FCtl (OAdd 1%nat));
   (fm_env, FCtl (OHeartbeat (mkHb 1 "10.0.0.1" [(0, EP_NORMAL); (1, EP_NORMAL)])));
   (fm_env, FNodeStatus NOT_READY (name_of 1))].

Abbreviation fm_sample := (fm_run fm_sum fm_loads fm_c0 fm_ops).
Definition fm_node (c : Ctl (O := unit * FM) (D := unit)) : NodeMetadata :=
  default (mkNode "" "" 0 READY []) (dget (nodes (fm c)) (name_of 1)).


Lemma fm_ops_ok_sample : fm_ops_ok fm_sum fm_loads fm_c0 fm_ops.
Proof. repeat split; vm_compute; reflexivity. Qed.
Lemma fm_node_get : dget (nodes (fm fm_sample)) (name_of 1) = Some (fm_node fm_sample).
Proof. vm_compute; reflexivity. Qed.
Lemma fm_meta_get : is_Some (dget (fm_instances (fm fm_sample)) (nm_instance_id (fm_node fm_sample))).
Proof. eexists. vm_compute; reflexivity. Qed.

Lemma fault_update_exact_witness :
  let id := nm_instance_id (fm_node fm_sample) in
  let c' := (handle_fault_info_update fm_sum fm_env [chip_fault] (name_of 1) fm_sample).1 in
  ∃ m', dget (fm_instances (fm c')) id = Some m' ∧ is_highest (fm c') id (fault_level m') ∧
        (is_instance_separated c' id = true ↔ 2 < level_val (fault_level m')).
Proof.
  pose proof (fault_update_exact fm_sum fm_loads fm_store true tt fm_cfg Some true fm_ops fm_env (name_of 1)
    (fm_node fm_sample) (inl [chip_fault]) fm_ops_ok_sample fm_node_get fm_meta_get) as H.
  exact (proj2 (proj2 H)).
Defined.

Lemma fm_report_ok :
  node_status (fm_node fm_sample) = NOT_READY ∧
  nm_instance_id <$> dget (nodes (fm fm_sample)) (name_of 1) = Some (nm_instance_id (fm_node fm_sample)).
Proof. split; vm_compute; reflexivity. Qed.

Lemma not_ready_isolates_witness :
  let id := nm_instance_id (fm_node fm_sample) in
  let c' := (handle_fault_info_update fm_sum fm_env [] (name_of 1) fm_sample).1 in
  fault_level <$> dget (fm_instances (fm c')) id = Some L6 ∧ is_instance_separated c' id = true ∧
  ∃ r, dget (instances c') id = Some r ∧ status (cstore c' r) ≠ ACTIVE.
Proof.
  pose proof (not_ready_isolates fm_sum fm_loads fm_store true tt fm_cfg Some true fm_ops fm_env (name_of 1)
    (fm_node fm_sample) (Some (name_of 1, [])) fm_ops_ok_sample fm_node_get fm_meta_get fm_report_ok) as H.
  exact H.
Defined.

Lemma fm_reboot_entry : dget (fault_infos (fm_node fm_sample)) NODE_REBOOT = Some reboot_fault.
Proof. vm_compute; reflexivity. Qed.

Lemma reboot_code_sticks_witness :
  let c' := fold_left (λ c x, (handle_fault_info_update fm_sum x.1 x.2 (name_of 1) c).1)
              [(fm_env, [chip_fault]); (fm_env, [])] fm_sample in
  ∃ n' m', dget (nodes (fm c')) (name_of 1) = Some n' ∧ dget (fault_infos n') NODE_REBOOT = Some reboot_fault ∧
    dget (fm_instances (fm c')) (nm_instance_id (fm_node fm_sample)) = Some m' ∧
    level_val (fi_level reboot_fault) <= level_val (fault_level m').
Proof.
  pose proof (reboot_code_sticks fm_sum fm_loads fm_store true tt fm_cfg Some true fm_ops (name_of 1)
    (fm_node fm_sample) reboot_fault [(fm_env, [chip_fault]); (fm_env, [])] fm_ops_ok_sample fm_node_get fm_meta_get) as [_ H].
  exact (H fm_reboot_entry ltac:(discriminate)).
Defined.

Definition meta_of (c : Ctl (O := unit * FM) (D := unit)) (id : Z) : InstanceMetadata :=
  default (InstanceMetadata_init id) (dget (fm_instances (fm c)) id).

Lemma meta_of_get : dget (fm_instances (fm fm_sample)) 1 = Some (meta_of fm_sample 1).
Proof. vm_compute; reflexivity. Qed.

Lemma strategy_rules_witness :
  let c' := (process_instance_strategy fm_sum fm_env 1 fm_sample).1 in
  ∃ m', dget (fm_instances (fm c')) 1 = Some m' ∧ fault_level m' = fault_level (meta_of fm_sample 1).
Proof.
  destruct (strategy_rules fm_sum fm_loads fm_store true tt fm_cfg Some true fm_ops fm_env 1 (meta_of fm_sample 1)
    fm_ops_ok_sample meta_of_get) as (m' & H1 & H2 & _).
  exists m'. exact (conj H1 H2).
Defined.

(** Five instances with a Lingqu fault, and a sixth. *)
Definition lingqu_ops : list (CtlEnv * fm_op) :=
  map (λ k, (fm_env, FCtl (OAdd k))) (seq 1 5) ++ map (λ k, (fm_env, FFaultInfo [lingqu_fault] (name_of k))) (seq 1 5) ++
  [(fm_env, FStrategies)].
Definition sixth_ops : list (CtlEnv * fm_op) :=
  [(fm_env, FCtl (OAdd 6%nat)); (fm_env, FFaultInfo [chip_fault] (name_of 6)); (fm_env, FStrategies)].

Lemma lingqu_ops_ok : fm_ops_ok fm_sum fm_loads fm_c0 lingqu_ops ∧
  fm_ops_ok fm_sum fm_loads (fm_run fm_sum fm_loads fm_c0 lingqu_ops) sixth_ops.
Proof. split; repeat split; vm_compute; reflexivity. Qed.

Lemma lingqu_started k : k ∈ seq 0 5 →
  (k < 5)%nat ∧ strategies (fm (fm_run fm_sum fm_loads fm_c0 lingqu_ops)) !! k = Some (Strategy_init LingquNetworkRecoverStrategy).
Proof.
  intros Hk. repeat (apply elem_of_cons in Hk as [->|Hk]; [split; [lia|vm_compute; reflexivity]|]). by apply elem_of_nil in Hk.
Qed.

Lemma executor_starvation_witness :
  5%nat ∉ running (fm (fm_run fm_sum fm_loads (fm_run fm_sum fm_loads fm_c0 lingqu_ops) sixth_ops)).
Proof.
  exact (executor_starvation fm_sum fm_loads fm_store true tt fm_cfg Some true lingqu_ops sixth_ops (seq 0 5) 5%nat
    (proj1 lingqu_ops_ok) (proj2 lingqu_ops_ok) (NoDup_seq 0 5) eq_refl lingqu_started).
Defined.

Definition fm_restarted : Ctl (O := unit * FM) (D := unit) :=
  Ctl_init fm_store 0%nat true None (tt, FM_init fm_cfg Some true (fm_etcd (fm (fm_persist_data fm_sum fm_env fm_sample).1))).

Lemma restart_restores_persisted_witness : nodes (fm (fm_start fm_sum true fm_restarted).1) = nodes (fm fm_sample).
Proof.
  pose proof (restart_restores_persisted fm_sum fm_loads fm_store true tt fm_cfg Some true fm_ops fm_env fm_ops_ok_sample) as [H _].
  exact (proj1 (H eq_refl fm_restarted fm_cfg Some true eq_refl eq_refl)).
Defined.
End witnesses.
