(* ===== verification/InstanceAssembler.v ===== *)
(** * The instance assembler

    Models [controller/core/instance_assembler.py]: node managers register their pods, the
    assembler builds the endpoints of an instance, hands a complete instance to the
    instance manager and sends the start command.  The instance objects are those of
    the store of the instance manager, since both hold the same objects. *)

From stdpp Require Import base option list strings sets gmap pretty.
From Stdlib Require Import ZArith Lia.
From S2P Require Import Prelude Float64 Resources CtlInstanceManager.
Open Scope Z_scope.

(** ** Messages *)

Record ServerInfo := mkServer { server_id : string; container_ip : string; device : list DeviceInfo }.
Record Ranktable := mkRanktable { rt_version : string; rt_status : string; server_count : string; server_list : list ServerInfo }.

Record RegisterMsg := mkReg {
  rg_job_name : string;
  rg_model_name : string;
  rg_role : string;
  rg_pod_ip : string;
  rg_business_port : list string;
  rg_mgmt_port : list string;
  rg_nm_port : string;
  rg_parallel_config : ParallelConfig;
  rg_multi_endpoints : bool;
  rg_device_num : Z;
  rg_ranktable : option Ranktable
}.

Record ReregisterMsg := mkRereg {
  rr_job_name : string;
  rr_model_name : string;
  rr_instance_id : Z;
  rr_role : string;
  rr_pod_ip : string;
  rr_nm_port : string;
  rr_parallel_config : ParallelConfig;
  rr_multi_endpoints : bool;
  rr_device_num : Z;
  rr_endpoints : list Endpoint
}.

Record StartCmdMsg := mkStart {
  sc_job_name : string;
  sc_role : string;
  sc_instance_id : Z;
  sc_endpoints : list Endpoint;
  sc_master_dp_ip : string;
  sc_ranktable : option Ranktable
}.

(** ** State *)

Inductive RegisterStatus := NOT_REGISTERED | ASSEMBLING | ASSEMBLED.
#[global] Instance RegisterStatus_eq_dec : EqDecision RegisterStatus.
Proof. solve_decision. Defined.

(** [AssembleInstanceMetadata]: the instance is an object of the store. *)
Record AsmMeta := mkAsm {
  am_instance : ref;
  register_status : RegisterStatus;
  start_command_send_times : Z;
  register_timestamp : f64;
  is_reregister : bool;
  am_ranktable : option Ranktable
}.

Definition set_am_status (m : AsmMeta) st : AsmMeta :=
  mkAsm (am_instance m) st (start_command_send_times m) (register_timestamp m) (is_reregister m) (am_ranktable m).
Definition set_am_sends (m : AsmMeta) n : AsmMeta :=
  mkAsm (am_instance m) (register_status m) n (register_timestamp m) (is_reregister m) (am_ranktable m).
Definition set_am_time (m : AsmMeta) t : AsmMeta :=
  mkAsm (am_instance m) (register_status m) (start_command_send_times m) t (is_reregister m) (am_ranktable m).
Definition set_am_rereg (m : AsmMeta) : AsmMeta :=
  mkAsm (am_instance m) (register_status m) (start_command_send_times m) (register_timestamp m) true (am_ranktable m).
Definition set_am_ranktable (m : AsmMeta) rt : AsmMeta :=
  mkAsm (am_instance m) (register_status m) (start_command_send_times m) (register_timestamp m) (is_reregister m) rt.

Record AsmConfig := mkAsmConfig {
  instance_assemble_timeout : f64;
  send_cmd_retry_times : Z;
  asm_persistence : bool
}.

(** Endpoints of one pod, as [_build_endpoints] makes them. *)
Definition index {A} (l : list A) (i : Z) : py A :=
  let i := if i <? 0 then i + Z.of_nat (length l) else i in
  match (if i <? 0 then None else l !! Z.to_nat i) with Some x => Ret x | None => Raise IndexError end.

(** [l[:n]]. *)
Definition slice_to {A} (l : list A) (n : Z) : list A :=
  take (Z.to_nat (if n <? 0 then Z.of_nat (length l) + n else n)) l.

Definition build_device_infos (msg : RegisterMsg) (start_idx devices_per_endpoint id_offset : Z) : py (list DeviceInfo) :=
  match rg_ranktable msg with
  | Some rt => s ← index (server_list rt) 0; mret (device s)
  | None =>
      mret (omap (λ j,
        let device_idx := start_idx + Z.of_nat j in
        if device_idx <? rg_device_num msg
        then Some (mkDeviceInfo None (pretty device_idx) (pretty (id_offset * devices_per_endpoint + device_idx)) None)
        else None) (seq 0 (Z.to_nat devices_per_endpoint)))
  end.

Definition devices_per_endpoint (msg : RegisterMsg) : Z :=
  tp_size (rg_parallel_config msg) * pp_size (rg_parallel_config msg).

Definition build_single_endpoint (now : f64) (msg : RegisterMsg) (id_offset : Z) : py pod_endpoints :=
  devs ← build_device_infos msg 0 (devices_per_endpoint msg) id_offset;
  bport ← index (rg_business_port msg) 0;
  mport ← index (rg_mgmt_port msg) 0;
  mret [(0, Endpoint_init now id_offset (rg_pod_ip msg) bport mport None (Some devs) None None)].

(** The loop over the ports, from index [i]. *)
Fixpoint multi_loop (now : f64) (msg : RegisterMsg) (id_offset i : Z) (ports : list string) (acc : pod_endpoints)
    : py pod_endpoints :=
  match ports with
  | [] => mret acc
  | bport :: ports =>
      let dpe := devices_per_endpoint msg in
      if rg_device_num msg <? dpe * i + dpe then mret acc
      else
        devs ← build_device_infos msg (dpe * i) dpe id_offset;
        mport ← index (rg_mgmt_port msg) i;
        multi_loop now msg id_offset (i + 1) ports
          (dset acc i (Endpoint_init now (id_offset + i) (rg_pod_ip msg) bport mport None (Some devs) None None))
  end.

Definition build_multi_endpoints (now : f64) (msg : RegisterMsg) (id_offset : Z) : py pod_endpoints :=
  let dpe := devices_per_endpoint msg in
  ports ←
    (if rg_device_num msg <? Z.of_nat (length (rg_business_port msg)) * dpe then
       if dpe =? 0 then Raise ZeroDivisionError
       else mret (slice_to (rg_business_port msg) (rg_device_num msg / dpe))
     else mret (rg_business_port msg));
  multi_loop now msg id_offset 0 ports [].

(** The ranktable of the instance grows by the servers of the message. *)
Definition merge_ranktable (old new : option Ranktable) : option Ranktable :=
  match new with
  | None => old
  | Some rt =>
      match old with
      | None => Some rt
      | Some o =>
          let l := server_list o ++ server_list rt in
          Some (mkRanktable (rt_version o) (rt_status o) (pretty (length l)) l)
      end
  end.

Section assembler.
Context {O D : Type} `{!Observer O, !Codec D}.

(** What is stored for a job, and the stored state. *)
Record AsmEntry := mkEntry {
  en_instance : D;
  en_meta : AsmMeta
}.

Record AsmState := mkAsmState {
  as_cnt : Z;
  as_entries : dict string AsmEntry;
  as_version : Z;
  as_timestamp : f64;
  as_checksum : string
}.

Context (asm_checksum : Z → dict string AsmEntry → Z → f64 → string).

Record Asm := mkAssembler {
  ins_id_cnt : Z;
  asm_instances : dict string AsmMeta;
  asm_version : Z;
  asm_config : AsmConfig;
  asm_etcd : option AsmState;
  commands : list (NodeManagerInfo * StartCmdMsg)
}.

Definition Asm_init (cfg : AsmConfig) (e : option AsmState) : Asm := mkAssembler 1 [] 0 cfg e [].

Definition set_cnt (a : Asm) n : Asm :=
  mkAssembler n (asm_instances a) (asm_version a) (asm_config a) (asm_etcd a) (commands a).
Definition set_asm_instances (a : Asm) d : Asm :=
  mkAssembler (ins_id_cnt a) d (asm_version a) (asm_config a) (asm_etcd a) (commands a).
Definition set_asm_stored (a : Asm) v e : Asm :=
  mkAssembler (ins_id_cnt a) (asm_instances a) v (asm_config a) e (commands a).
Definition log_command (a : Asm) c : Asm :=
  mkAssembler (ins_id_cnt a) (asm_instances a) (asm_version a) (asm_config a) (asm_etcd a) (commands a ++ [c]).

(** The instance manager and the assembler. *)
Record ASys := mkASys { a_ctl : Ctl (O := O) (D := D); a_asm : Asm }.

Definition on_ctl {A} (m : M Ctl A) : M ASys A := λ s, let '(c, r) := m (a_ctl s) in (mkASys c (a_asm s), r).
Definition asm_modify (g : Asm → Asm) : M ASys unit := mmodify (λ s, mkASys (a_ctl s) (g (a_asm s))).
Definition ins_modify (r : ref) (g : Instance → Instance) : M ASys unit :=
  mmodify (λ s, mkASys (set_ins (a_ctl s) r (g (cstore (a_ctl s) r))) (a_asm s)).
Definition put_am (job : string) (m : AsmMeta) : M ASys unit :=
  asm_modify (λ a, set_asm_instances a (dset (asm_instances a) job m)).
Definition pop_am (job : string) : M ASys unit :=
  asm_modify (λ a, set_asm_instances a (ddel (asm_instances a) job)).

(** What a step sees of the outside: the instance manager's environment, whether a node
    manager can be reached, and whether it takes a start command. *)
Record AsmEnv := mkAEnv {
  ctl_env : CtlEnv;
  nm_alive : NodeManagerInfo → bool;
  start_ok : NodeManagerInfo → bool
}.

Definition asm_persist_data (env : AsmEnv) : M ASys bool := λ s,
  let a := a_asm s in
  let v := asm_version a + 1 in
  let t := now (ctl_env env) in
  let entries := map (λ '(job, m), (job, mkEntry (dump (cstore (a_ctl s) (am_instance m))) m)) (asm_instances a) in
  let p := mkAsmState (ins_id_cnt a) entries v t (asm_checksum (ins_id_cnt a) entries v t) in
  match etcd_write (ctl_env env) with
  | EtcdLocked => (mkASys (a_ctl s) (set_asm_stored a v (asm_etcd a)), Ret false)
  | EtcdLost => (mkASys (a_ctl s) (set_asm_stored a v None), Ret false)
  | EtcdUnsure => (mkASys (a_ctl s) (set_asm_stored a v (Some p)), Ret false)
  | EtcdStored => (mkASys (a_ctl s) (set_asm_stored a v (Some p)), Ret true)
  end.

Definition asm_persist_if (env : AsmEnv) (changed : bool) : M ASys unit :=
  s ← mget;
  if changed && asm_persistence (asm_config (a_asm s)) then asm_persist_data env ;; mret tt else mret tt.

(** Entries that cannot be read are skipped; an instance read is a new object. *)
Fixpoint restore_entries (l : list (string * AsmEntry)) : M ASys unit :=
  match l with
  | [] => mret tt
  | (job, e) :: l =>
      match load (en_instance e) with
      | None => mret tt
      | Some i =>
          s ← mget;
          let r := cnext (a_ctl s) in
          on_ctl (mmodify (λ c, set_next (set_ins c r i) (S r))) ;;
          put_am job (mkAsm r (register_status (en_meta e)) (start_command_send_times (en_meta e))
                        (register_timestamp (en_meta e)) (is_reregister (en_meta e)) (am_ranktable (en_meta e)))
      end ;;
      restore_entries l
  end.

Definition asm_restore_data (env : AsmEnv) : M ASys bool :=
  s ← mget;
  match (if etcd_reads (ctl_env env) then asm_etcd (a_asm s) else None) with
  | None => mret true
  | Some p =>
      if decide (as_checksum p = asm_checksum (as_cnt p) (as_entries p) (as_version p) (as_timestamp p)) then
        asm_modify (λ a, set_asm_stored a (Z.max (asm_version a) (as_version p)) (asm_etcd a)) ;;
        asm_modify (λ a, set_asm_instances a []) ;;
        asm_modify (λ a, set_cnt a (as_cnt p)) ;;
        restore_entries (as_entries p) ;;
        mret true
      else mret false
  end.

(** [start], up to the creation of the threads. *)
Definition asm_start (env : AsmEnv) : M ASys unit :=
  s ← mget;
  if asm_persistence (asm_config (a_asm s)) then asm_restore_data env ;; mret tt else mret tt.

(** ** Registration *)

Definition eval_register_status (s : ASys) (job : string) : RegisterStatus :=
  if has_active_instance_by_job_name (a_ctl s) job then ASSEMBLED
  else if dhas (asm_instances (a_asm s)) job then ASSEMBLING
  else NOT_REGISTERED.

(** A new instance object and its metadata. *)
Definition new_instance (job model : string) (id : Z) (rl : string) (pc : ParallelConfig) (multi : bool)
    (t : f64) (rereg : bool) : M ASys AsmMeta :=
  s ← mget;
  let r := cnext (a_ctl s) in
  on_ctl (mmodify (λ c, set_next (set_ins c r (Instance_init job model id rl (Some pc) multi)) (S r))) ;;
  let m := mkAsm r NOT_REGISTERED 0 t rereg None in
  put_am job m ;;
  mret m.

Definition build_endpoints (t : f64) (msg : RegisterMsg) (i : Instance) : py pod_endpoints :=
  let id_offset := get_endpoints_num i in
  if rg_multi_endpoints msg then build_multi_endpoints t msg id_offset else build_single_endpoint t msg id_offset.

(** The second half of [register]: the pod of the message joins the instance. *)
Definition register_pod (env : AsmEnv) (msg : RegisterMsg) (m : AsmMeta) : M ASys Z :=
  s ← mget;
  let r := am_instance m in
  if has_node_mgr (cstore (a_ctl s) r) (rg_pod_ip msg) then mret 0
  else
    ins_modify r (λ i, add_node_mgr i (Some (rg_pod_ip msg)) (Some (rg_nm_port msg)) (rg_device_num msg)) ;;
    s ← mget;
    pod ← mlift (build_endpoints (now (ctl_env env)) msg (cstore (a_ctl s) r));
    put_am (rg_job_name msg) (set_am_ranktable m (merge_ranktable (am_ranktable m) (rg_ranktable msg))) ;;
    ins_modify r (λ i, add_endpoints i (rg_pod_ip msg) (Some pod)) ;;
    asm_persist_if env true ;;
    mret 0.

Definition register (env : AsmEnv) (msg : RegisterMsg) : M ASys Z :=
  s ← mget;
  let job := rg_job_name msg in
  let t := now (ctl_env env) in
  match eval_register_status s job with
  | ASSEMBLED => mret (-1)
  | NOT_REGISTERED =>
      m ← new_instance job (rg_model_name msg) (ins_id_cnt (a_asm s)) (rg_role msg) (rg_parallel_config msg)
            (rg_multi_endpoints msg) t false;
      asm_modify (λ a, set_cnt a (ins_id_cnt a + 1)) ;;
      register_pod env msg m
  | ASSEMBLING =>
      match dget (asm_instances (a_asm s)) job with
      | None => mraise KeyError
      | Some m =>
          let m := set_am_time m t in
          put_am job m ;; register_pod env msg m
      end
  end.

Definition reregister (env : AsmEnv) (msg : ReregisterMsg) : M ASys Z :=
  s ← mget;
  let job := rr_job_name msg in
  let t := now (ctl_env env) in
  let finish (m : AsmMeta) : M ASys Z :=
    asm_modify (λ a, set_cnt a (Z.max (ins_id_cnt a) (rr_instance_id msg + 1))) ;;
    ins_modify (am_instance m) (λ i, add_node_mgr i (Some (rr_pod_ip msg)) (Some (rr_nm_port msg)) (rr_device_num msg)) ;;
    ins_modify (am_instance m) (λ i, add_endpoints i (rr_pod_ip msg)
      (Some (fold_left (λ d e, dset d (ep_id e) e) (rr_endpoints msg) []))) ;;
    asm_persist_if env true ;;
    mret 0 in
  match eval_register_status s job with
  | ASSEMBLED => mret (-1)
  | NOT_REGISTERED =>
      m ← new_instance job (rr_model_name msg) (rr_instance_id msg) (rr_role msg) (rr_parallel_config msg)
            (rr_multi_endpoints msg) t true;
      finish m
  | ASSEMBLING =>
      match dget (asm_instances (a_asm s)) job with
      | None => mraise KeyError
      | Some m =>
          let m := set_am_rereg (set_am_time m t) in
          put_am job m ;; finish m
      end
  end.

(** ** Assembly *)

(** The pods whose node manager cannot be reached lose their endpoints. *)
Definition filter_abnormal_endpoints (env : AsmEnv) (i : Instance) : Instance :=
  fold_left (λ i nm,
    if nm_alive env nm then i
    else del_node_mgr (del_endpoints i (pod_ip nm)) (Some (pod_ip nm)) (Some (port nm))) (get_node_managers i) i.

Definition assemble_instance (env : AsmEnv) (job : string) (m : AsmMeta) : M ASys unit :=
  let r := am_instance m in
  ins_modify r (filter_abnormal_endpoints env) ;;
  s ← mget;
  let name := job_name (cstore (a_ctl s) r) in
  if is_endpoints_enough (cstore (a_ctl s) r) then
    put_am job (set_am_status m ASSEMBLED) ;;
    on_ctl (add_instance (ctl_env env) r) ;;
    if is_reregister m then pop_am name ;; asm_persist_if env true else mret tt
  else
    if flt (instance_assemble_timeout (asm_config (a_asm s))) (fsub (now (ctl_env env)) (register_timestamp m))
    then pop_am name ;; asm_persist_if env true
    else mret tt.

(** One round of [_instances_assembler_loop]. *)
Definition assembler_round (env : AsmEnv) : M ASys unit :=
  s ← mget;
  mfor (dkeys (asm_instances (a_asm s))) (λ job,
    s ← mget;
    match dget (asm_instances (a_asm s)) job with
    | None => mret tt
    | Some m => if decide (register_status m = ASSEMBLED) then mret tt else assemble_instance env job m
    end).

(** ** Start commands *)

(** The address of the endpoint with id 0. *)
Definition master_dp_ip (i : Instance) : option string :=
  ep ← head (List.filter (λ e, ep_id e =? 0) (omap (deref i) (get_all_endpoints i).1));
  if decide (ep_ip ep = ""%string) then None else Some (ep_ip ep).

(** Every node manager with endpoints gets the command, whether or not others fail. *)
Definition send_start_command (env : AsmEnv) (m : AsmMeta) : M ASys bool :=
  s ← mget;
  let i := cstore (a_ctl s) (am_instance m) in
  ins_modify (am_instance m) (λ i, (get_all_endpoints i).2) ;;
  match master_dp_ip i with
  | None => mret false
  | Some ip =>
      let targets := List.filter (λ nm, negb (bool_decide (get_endpoints i (pod_ip nm) = []))) (get_node_managers i) in
      mfor targets (λ nm, asm_modify (λ a, log_command a
        (nm, mkStart (job_name i) (role i) (ins_id i) (dvalues (get_endpoints i (pod_ip nm))) ip (am_ranktable m)))) ;;
      mret (forallb (start_ok env) targets)
  end.

(** One job of the sender's round: whether its entry changed. *)
Definition send_one (env : AsmEnv) (job : string) : M ASys bool :=
  s ← mget;
  match dget (asm_instances (a_asm s)) job with
  | None => mret false
  | Some m =>
      if decide (register_status m = ASSEMBLED) then
        ok ← send_start_command env m;
        (if ok : bool then pop_am job
         else
           let retry_times := start_command_send_times m + 1 in
           if retry_times <? send_cmd_retry_times (asm_config (a_asm s))
           then put_am job (set_am_sends m retry_times)
           else pop_am job) ;;
        mret true
      else mret false
  end.

Fixpoint send_all (env : AsmEnv) (jobs : list string) : M ASys bool :=
  match jobs with
  | [] => mret false
  | job :: jobs => c ← send_one env job; c' ← send_all env jobs; mret (c || c')
  end.

(** One round of [_start_commmand_sender]. *)
Definition start_command_round (env : AsmEnv) : M ASys unit :=
  s ← mget;
  changed ← send_all env (dkeys (asm_instances (a_asm s)));
  asm_persist_if env changed.

Definition asm_update_config (cfg : AsmConfig) : M ASys unit :=
  asm_modify (λ a, mkAssembler (ins_id_cnt a) (asm_instances a) (asm_version a) cfg (asm_etcd a) (commands a)).

(** ** Steps *)

Inductive asm_op :=
| ARegister (msg : RegisterMsg)
| AReregister (msg : ReregisterMsg)
| AAssemble
| ASend
| ACtl (o : ctl_op).

Definition asm_step (x : AsmEnv * asm_op) : M ASys unit :=
  match x.2 with
  | ARegister msg => register x.1 msg ;; mret tt
  | AReregister msg => reregister x.1 msg ;; mret tt
  | AAssemble => assembler_round x.1
  | ASend => start_command_round x.1
  | ACtl o => on_ctl (ctl_step (ctl_env x.1, o))
  end.

Definition asm_run (s : ASys) (ops : list (AsmEnv * asm_op)) : ASys := fold_left (λ s x, (asm_step x s).1) ops s.
End assembler.

(** ** Lemmas *)

(** *** What the instance manager's operations leave of its table *)

Section tables.
Context {O D : Type} `{!Observer O, !Codec D}.
Implicit Types (c : Ctl (O := O) (D := D)).
Context (c0 : Ctl (O := O) (D := D)).

Definition tab_kept c : Prop :=
  (∀ r, same_core (cstore c r) (cstore c0 r)) ∧ cnext c = cnext c0 ∧
  (dict_wf (instances c0) → dict_wf (instances c)) ∧
  ∀ id r, dget (instances c) id = Some r → dget (instances c0) id = Some r.

Lemma tab_same c c' :
  (∀ r, same_core (cstore c' r) (cstore c r)) → cnext c' = cnext c → instances c' = instances c → tab_kept c → tab_kept c'.
Proof.
  intros H1 H2 H3 (K1 & K2 & K3 & K4). split; [intros r; by eapply same_core_trans|].
  rewrite H2, H3. by split_and!.
Qed.

Lemma tab_ins c r i : same_core i (cstore c r) → tab_kept c → tab_kept (set_ins c r i).
Proof. intros H. apply tab_same; [|done|done]. intros x. by apply store_set_core. Qed.

Lemma tab_del c id : tab_kept c → tab_kept (del_instance id c).1.
Proof.
  intros (K1 & K2 & K3 & K4). unfold del_instance, mmodify. cbn [fst]. destruct (dhas _ _); [|by split_and!].
  split; [exact K1|]. split; [exact K2|]. split; [intros Hw; apply dict_wf_ddel; auto|].
  intros id' r. simpl. rewrite dget_ddel. case_decide; [done|apply K4].
Qed.

Ltac tab_with tac := repeat first
  [ tac | apply preserves_ret | apply preserves_raise | apply preserves_lift | apply preserves_get
  | (apply preserves_bind; [|intros ?])
  | (intros c Hc; by apply tab_del)
  | match goal with
    | |- preserves _ (if ?b then _ else _) => destruct b
    | |- preserves _ (match ?x with _ => _ end) => destruct x
    | |- preserves _ (persist_data ?e) => intros c Hc; unfold persist_data; destruct (etcd_write e); by apply (tab_same c)
    end
  | (intros c Hc; first [by apply tab_ins | by apply (tab_same c)]) ].
Ltac tab := tab_with fail.

Lemma tab_transition env r ov : preserves tab_kept (handle_state_transition env r ov).
Proof.
  unfold handle_state_transition, transition_decide, detect_event, transition_apply, state_handler, handle_initial,
    handle_active, handle_inactive, handle_deleted, report_inst_alarm, report_coordinator_alarm.
  tab. intros c Hc. cbn [mmodify fst]. destruct (decide _); [by apply (tab_same c)|done].
Qed.

Lemma tab_heartbeat env msg : preserves tab_kept (handle_heartbeat env msg).
Proof.
  unfold handle_heartbeat. destruct msg as [msg|]; [|apply preserves_ret].
  intros c Hc. erewrite M_bind_Ret by reflexivity. destruct (dget _ _) as [r|]; [|by apply preserves_raise].
  pose proof (update_heartbeat_core (cstore c r) (hb_ip msg) (now env) (hb_status msg)) as [Hcore _].
  destruct (update_heartbeat _ _ _ _) as [i res]. simpl in Hcore. erewrite M_bind_Ret by reflexivity.
  pose proof (tab_ins c r i Hcore Hc) as H1.
  match goal with |- tab_kept (?m ?x).1 => assert (preserves tab_kept m) as H; [|by apply H] end.
  tab_with ltac:(apply tab_transition).
Qed.

Lemma tab_round env : preserves tab_kept (instances_management_round env).
Proof.
  apply preserves_bind; [apply preserves_get|]. intros c. apply preserves_for. intros r _.
  unfold manage_one. tab_with ltac:(apply tab_transition).
Qed.

Lemma tab_op env o : match o with OAdd _ => False | _ => True end → preserves tab_kept (ctl_step (env, o)).
Proof.
  intros Ho. unfold ctl_step. destruct o; cbn [fst snd]; [done| |apply tab_round|..];
    try (apply preserves_bind; [|intros _; apply preserves_ret]); try apply tab_heartbeat;
    unfold separate_instance, recover_instance; tab.
Qed.
End tables.

Lemma tab_refl {O D} `{!Observer O, !Codec D} (c : Ctl (O := O) (D := D)) : tab_kept c c.
Proof. split; [intros r; apply same_core_refl|]. by split_and!. Qed.

(** Adding an instance files at most that instance. *)
Lemma add_tab {O D} `{!Observer O, !Codec D} env r (c : Ctl (O := O) (D := D)) :
  let c' := (add_instance env r c).1 in
  (∀ x, same_core (cstore c' x) (cstore c x)) ∧ cnext c' = cnext c ∧
  instances c' = if dhas (instances c) (ins_id (cstore c r)) then instances c
                 else dset (instances c) (ins_id (cstore c r)) r.
Proof.
  cbv zeta. unfold add_instance. erewrite M_bind_Ret by reflexivity. destruct (dhas _ _) eqn:E; [done|].
  erewrite M_bind_Ret by reflexivity. set (c1 := set_instances c _).
  set (P (c' : Ctl (O := O) (D := D)) := (∀ x, same_core (cstore c' x) (cstore c x)) ∧ cnext c' = cnext c ∧ instances c' = instances c1).
  match goal with |- context [(?m c1).1] => change (P (m c1).1) end.
  assert (∀ m : M (Ctl (O := O) (D := D)) unit, preserves P m → P (m c1).1) as Hm.
  { intros m H. apply H. split; [intros x; apply same_core_refl|done]. }
  apply Hm. apply preserves_bind; [|intros _; intros c2 H2; exact H2].
  apply preserves_for. intros ip _ c2 (K1 & K2 & K3). erewrite M_bind_Ret by reflexivity. cbv zeta.
  match goal with |- context [update_heartbeat ?i ?ip ?t ?st] =>
    pose proof (update_heartbeat_core i ip t st) as [Hc _]; destruct (update_heartbeat i ip t st) as [i' res] end.
  simpl in Hc. erewrite M_bind_Ret by reflexivity. split; [|done]. intros x.
  eapply same_core_trans; [by apply store_set_core|apply K1].
Qed.

(** *** Ids *)

Section ids.
Context {O D : Type} `{!Observer O, !Codec D}.
Context (asm_checksum : Z → dict string (AsmEntry (D := D)) → Z → f64 → string).
Abbreviation SYS := (ASys (O := O) (D := D)).
Implicit Types (s : SYS).

(** An object belongs to a job and has an id that was given out. *)
Definition ref_ok s (job : string) (r : ref) : Prop :=
  (r < cnext (a_ctl s))%nat ∧ job_name (cstore (a_ctl s) r) = job ∧ ins_id (cstore (a_ctl s) r) < ins_id_cnt (a_asm s).

(** Both tables are keyed by what their objects say, and every id in them was given out. *)
Definition asm_ok s : Prop :=
  dict_wf (asm_instances (a_asm s)) ∧ dict_wf (instances (a_ctl s)) ∧
  (∀ job m, dget (asm_instances (a_asm s)) job = Some m → ref_ok s job (am_instance m)) ∧
  (∀ id r, dget (instances (a_ctl s)) id = Some r →
     (r < cnext (a_ctl s))%nat ∧ ins_id (cstore (a_ctl s) r) = id ∧ id < ins_id_cnt (a_asm s)).

Definition job_ok (job : string) (r : ref) s : Prop := asm_ok s ∧ ref_ok s job r.

Definition keeps_core (g : Instance → Instance) : Prop :=
  ∀ i, ins_id (g i) = ins_id i ∧ job_name (g i) = job_name i.

(** Changes of the store and the counter under which everything stays given out. *)
Lemma asm_ok_change s s' :
  (∀ r, ins_id (cstore (a_ctl s') r) = ins_id (cstore (a_ctl s) r) ∧ job_name (cstore (a_ctl s') r) = job_name (cstore (a_ctl s) r)) →
  cnext (a_ctl s') = cnext (a_ctl s) → ins_id_cnt (a_asm s) <= ins_id_cnt (a_asm s') →
  (dict_wf (asm_instances (a_asm s')) ∧
   ∀ job m, dget (asm_instances (a_asm s')) job = Some m → ref_ok s job (am_instance m)) →
  (dict_wf (instances (a_ctl s')) ∧ ∀ id r, dget (instances (a_ctl s')) id = Some r →
     (r < cnext (a_ctl s))%nat ∧ ins_id (cstore (a_ctl s) r) = id ∧ id < ins_id_cnt (a_asm s')) →
  asm_ok s' ∧ ∀ job r, ref_ok s job r → ref_ok s' job r.
Proof.
  intros Hc Hn Hle [A1 A2] [B1 B2].
  assert (∀ job r, ref_ok s job r → ref_ok s' job r) as Href.
  { intros job r (H1 & H2 & H3). unfold ref_ok. rewrite Hn. destruct (Hc r) as [-> ->]. split_and!; try done. lia. }
  split; [|exact Href]. split_and!; [done|done| |].
  - intros job m Hm. auto.
  - intros id r Hr. rewrite Hn. destruct (Hc r) as [-> _]. auto.
Qed.

Lemma ins_modify_core s r g x :
  keeps_core g → ins_id (store_set (cstore (a_ctl s)) r (g (cstore (a_ctl s) r)) x) = ins_id (cstore (a_ctl s) x) ∧
  job_name (store_set (cstore (a_ctl s)) r (g (cstore (a_ctl s) r)) x) = job_name (cstore (a_ctl s) x).
Proof. intros Hg. unfold store_set. destruct (decide (x = r)) as [->|]; [apply Hg|done]. Qed.

Lemma keep_ins job r r' g : keeps_core g → preserves (job_ok job r) (ins_modify r' g : M SYS unit).
Proof.
  intros Hg s [Hs Hr]. destruct (asm_ok_change s (ins_modify r' g s).1) as [H1 H2]; simpl; try done; try (split; [exact H1|by apply H2]).
  - intros x. by apply ins_modify_core.
  - split; apply Hs.
  - split; apply Hs.
Qed.

Lemma keep_put job r m : am_instance m = r → preserves (job_ok job r) (put_am job m : M SYS unit).
Proof.
  intros Em s [Hs Hr]. destruct (asm_ok_change s (put_am job m s).1) as [H1 H2]; simpl; try done; try (split; [exact H1|by apply H2]).
  - split; [by apply dict_wf_dset, Hs|]. intros job' m'. rewrite dget_dset. case_decide; [|apply Hs].
    intros [= <-]. by subst.
  - split; apply Hs.
Qed.

Lemma keep_pop job r job' : preserves (job_ok job r) (pop_am job' : M SYS unit).
Proof.
  intros s [Hs Hr]. destruct (asm_ok_change s (pop_am job' s).1) as [H1 H2]; simpl; try done; try (split; [exact H1|by apply H2]).
  - split; [by apply dict_wf_ddel, Hs|]. intros j m'. rewrite dget_ddel. case_decide; [done|apply Hs].
  - split; apply Hs.
Qed.

Lemma keep_cnt job r n : preserves (job_ok job r) (asm_modify (λ a, set_cnt a (Z.max (ins_id_cnt a) n)) : M SYS unit).
Proof.
  intros s [Hs Hr]. destruct (asm_ok_change s (asm_modify (λ a, set_cnt a (Z.max (ins_id_cnt a) n)) s).1) as [H1 H2]; simpl; try done; try (split; [exact H1|by apply H2]).
  - lia.
  - split; apply Hs.
  - split; [apply Hs|]. intros id x Hx. destruct (proj2 (proj2 (proj2 Hs)) _ _ Hx) as (? & ? & ?). split_and!; try done. lia.
Qed.

Lemma keep_stored job r (g : Asm → Asm) :
  (∀ a, asm_instances (g a) = asm_instances a ∧ ins_id_cnt (g a) = ins_id_cnt a) →
  preserves (job_ok job r) (asm_modify g : M SYS unit).
Proof.
  intros Hg s [Hs Hr]. unfold job_ok, asm_ok, ref_ok, asm_modify, mmodify in *. cbn [fst a_asm a_ctl].
  destruct (Hg (a_asm s)) as [-> ->]. done.
Qed.

Lemma keep_persist job r env b : preserves (job_ok job r) (asm_persist_if asm_checksum env b : M SYS unit).
Proof.
  unfold asm_persist_if. apply preserves_bind; [apply preserves_get|]. intros s. destruct (b && _); [|apply preserves_ret].
  apply preserves_bind; [|intros _; apply preserves_ret].
  intros s1 H1. unfold asm_persist_data. by destruct (etcd_write (ctl_env env)).
Qed.

Lemma keep_add job r env : preserves (job_ok job r) (on_ctl (add_instance (ctl_env env) r) : M SYS unit).
Proof.
  intros s [Hs Hr]. pose proof (add_tab (ctl_env env) r (a_ctl s)) as H. unfold on_ctl.
  destruct (add_instance (ctl_env env) r (a_ctl s)) as [c' res]. cbn [fst] in *. destruct H as (K1 & K2 & K3).
  destruct (asm_ok_change s (mkASys c' (a_asm s))) as [H1 H2]; simpl; try done; try (split; [exact H1|by apply H2]).
  - intros x. destruct (K1 x) as (? & ? & _). done.
  - split; apply Hs.
  - rewrite K3. destruct (dhas _ _) eqn:E; [split; apply Hs|]. split; [by apply dict_wf_dset, Hs|].
    intros id x. rewrite dget_dset. case_decide as Hid; [|apply Hs]. intros [= <-]. destruct Hr as (R1 & R2 & R3). by subst.
Qed.

Lemma core_add_node_mgr ip pt n : keeps_core (λ i, add_node_mgr i ip pt n).
Proof. intros i. unfold add_node_mgr. destruct ip, pt; try done. by destruct (decide _). Qed.
Lemma core_add_endpoints ip eps : keeps_core (λ i, add_endpoints i ip eps).
Proof. intros i. by destruct eps. Qed.
Lemma core_all_endpoints : keeps_core (λ i, (get_all_endpoints i).2).
Proof. intros i. unfold get_all_endpoints. by repeat case_match. Qed.
Lemma core_filter env : keeps_core (filter_abnormal_endpoints env).
Proof.
  intros i. unfold filter_abnormal_endpoints. generalize (get_node_managers i) as nms. intros nms. revert i.
  induction nms as [|nm nms IH]; intros i; cbn [fold_left]; [done|]. destruct (nm_alive env nm); [apply IH|].
  destruct (IH (del_node_mgr (del_endpoints i (pod_ip nm)) (Some (pod_ip nm)) (Some (port nm)))) as [-> ->].
  unfold del_node_mgr, del_endpoints. destruct (dhas _ _), (decide _); done.
Qed.
#[local] Hint Resolve core_add_node_mgr core_add_endpoints core_all_endpoints core_filter : core.

Lemma store_set_old (st : ref → Instance) n i r : (r < n)%nat → store_set st n i r = st r.
Proof. intros H. apply store_set_ne. lia. Qed.

Lemma create_ok job model id rl pc multi t b n s :
  asm_ok s → id < n → ins_id_cnt (a_asm s) <= n →
  let r := cnext (a_ctl s) in
  let m := mkAsm r NOT_REGISTERED 0 t b None in
  let s1 := (new_instance job model id rl pc multi t b s).1 in
  new_instance job model id rl pc multi t b s = (s1, Ret m) ∧
  job_ok job r (mkASys (a_ctl s1) (set_cnt (a_asm s1) n)) ∧
  a_ctl s1 = set_next (set_ins (a_ctl s) r (Instance_init job model id rl (Some pc) multi)) (S r) ∧
  asm_instances (a_asm s1) = dset (asm_instances (a_asm s)) job m ∧ ins_id_cnt (a_asm s1) = ins_id_cnt (a_asm s).
Proof.
  intros (A1 & A2 & A3 & A4) Hid Hn. simpl. split; [done|]. split; [|done].
  set (r := cnext (a_ctl s)). set (i := Instance_init job model id rl (Some pc) multi).
  assert (ref_ok (mkASys (set_next (set_ins (a_ctl s) r i) (S r)) (set_cnt (a_asm s) n)) job r) as Hr.
  { unfold ref_ok. simpl. rewrite !store_set_eq. simpl. split_and!; [lia|done|done]. }
  split; [|exact Hr]. split_and!; simpl.
  - by apply dict_wf_dset.
  - exact A2.
  - intros job' m'. rewrite dget_dset. case_decide as Hj.
    + intros [= <-]. subst job'. exact Hr.
    + intros Hm. destruct (A3 _ _ Hm) as (B1 & B2 & B3). unfold ref_ok. simpl. rewrite !store_set_old by done.
      split_and!; [lia|done|lia].
  - intros id' x Hx. destruct (A4 _ _ Hx) as (B1 & B2 & B3). rewrite store_set_old by done. split_and!; [lia|done|lia].
Qed.

Lemma register_pod_ok env msg m s :
  job_ok (rg_job_name msg) (am_instance m) s → job_ok (rg_job_name msg) (am_instance m) (register_pod asm_checksum env msg m s).1.
Proof.
  revert s. change (preserves (job_ok (rg_job_name msg) (am_instance m)) (register_pod asm_checksum env msg m : M SYS Z)).
  unfold register_pod. apply preserves_bind; [apply preserves_get|]. intros s. destruct (has_node_mgr _ _); [apply preserves_ret|].
  apply preserves_bind; [apply keep_ins; auto with core|]. intros _.
  apply preserves_bind; [apply preserves_get|]. intros s2. apply preserves_bind; [apply preserves_lift|]. intros pod.
  apply preserves_bind; [by apply keep_put|]. intros _. apply preserves_bind; [apply keep_ins; auto with core|]. intros _.
  apply preserves_bind; [apply keep_persist|]. intros _. apply preserves_ret.
Qed.

(** An entry of the table is fine. *)
Lemma entry_ok s job m : asm_ok s → dget (asm_instances (a_asm s)) job = Some m → job_ok job (am_instance m) s.
Proof. intros H Hm. split; [done|]. by apply H. Qed.

Lemma register_ok env msg s : asm_ok s → asm_ok (register asm_checksum env msg s).1.
Proof.
  intros Hs. unfold register. erewrite M_bind_Ret by reflexivity. cbv zeta. destruct (eval_register_status _ _).
  - destruct (create_ok (rg_job_name msg) (rg_model_name msg) (ins_id_cnt (a_asm s)) (rg_role msg) (rg_parallel_config msg)
      (rg_multi_endpoints msg) (now (ctl_env env)) false (ins_id_cnt (a_asm s) + 1) s Hs) as (E & Hj & _); [lia|lia|].
    rewrite (M_bind_Ret _ _ _ _ _ E). erewrite M_bind_Ret by reflexivity. by apply register_pod_ok.
  - destruct (dget _ _) as [m|] eqn:Em; [|done]. erewrite M_bind_Ret by reflexivity.
    apply (register_pod_ok env msg (set_am_time m (now (ctl_env env)))).
    apply (keep_put (rg_job_name msg) (am_instance m)); [done|]. by apply entry_ok.
  - done.
Qed.

Lemma reregister_ok env msg s : asm_ok s → asm_ok (reregister asm_checksum env msg s).1.
Proof.
  intros Hs. unfold reregister. erewrite M_bind_Ret by reflexivity. cbv zeta.
  assert (∀ m, preserves (job_ok (rr_job_name msg) (am_instance m))
    (ins_modify (am_instance m) (λ i, add_node_mgr i (Some (rr_pod_ip msg)) (Some (rr_nm_port msg)) (rr_device_num msg)) ;;
     ins_modify (am_instance m) (λ i, add_endpoints i (rr_pod_ip msg)
       (Some (fold_left (λ d e, dset d (ep_id e) e) (rr_endpoints msg) []))) ;;
     asm_persist_if asm_checksum env true ;; mret 0 : M SYS Z)) as Hfin.
  { intros m. repeat (apply preserves_bind; [|intros _]); try apply preserves_ret; try apply keep_persist;
      apply keep_ins; [apply core_add_node_mgr|apply core_add_endpoints]. }
  destruct (eval_register_status _ _).
  - destruct (create_ok (rr_job_name msg) (rr_model_name msg) (rr_instance_id msg) (rr_role msg) (rr_parallel_config msg)
      (rr_multi_endpoints msg) (now (ctl_env env)) true (Z.max (ins_id_cnt (a_asm s)) (rr_instance_id msg + 1)) s Hs)
      as (E & Hj & _); [lia|lia|].
    rewrite (M_bind_Ret _ _ _ _ _ E). erewrite M_bind_Ret by reflexivity.
    apply (Hfin (mkAsm (cnext (a_ctl s)) NOT_REGISTERED 0 (now (ctl_env env)) true None) _ Hj).
  - destruct (dget _ _) as [m|] eqn:Em; [|done]. erewrite M_bind_Ret by reflexivity.
    erewrite M_bind_Ret by reflexivity.
    apply (Hfin (set_am_rereg (set_am_time m (now (ctl_env env))))).
    apply keep_cnt. apply (keep_put (rr_job_name msg) (am_instance m)); [done|]. by apply entry_ok.
  - done.
Qed.

Lemma assemble_ok env job m s : job_ok job (am_instance m) s → job_ok job (am_instance m) (assemble_instance asm_checksum env job m s).1.
Proof.
  revert s. change (preserves (job_ok job (am_instance m)) (assemble_instance asm_checksum env job m : M SYS unit)).
  unfold assemble_instance. apply preserves_bind; [apply keep_ins; auto with core|]. intros _.
  apply preserves_bind; [apply preserves_get|]. intros s. cbv zeta.
  destruct (is_endpoints_enough _).
  - apply preserves_bind; [by apply keep_put|]. intros _. apply preserves_bind; [apply keep_add|]. intros _.
    destruct (is_reregister m); [|apply preserves_ret]. apply preserves_bind; [apply keep_pop|intros _; apply keep_persist].
  - destruct (flt _ _); [|apply preserves_ret]. apply preserves_bind; [apply keep_pop|intros _; apply keep_persist].
Qed.

Lemma send_one_ok env job s : asm_ok s → asm_ok (send_one env job s).1.
Proof.
  intros Hs. unfold send_one. erewrite M_bind_Ret by reflexivity. destruct (dget _ job) as [m|] eqn:Em; [|done].
  destruct (decide _); [|done].
  match goal with |- asm_ok (?p s).1 => assert (preserves (job_ok job (am_instance m)) p) as H end.
  { apply preserves_bind.
    - unfold send_start_command. apply preserves_bind; [apply preserves_get|]. intros s1. cbv zeta.
      apply preserves_bind; [apply keep_ins; auto with core|]. intros _. destruct (master_dp_ip _); [|apply preserves_ret].
      apply preserves_bind; [|intros _; apply preserves_ret]. apply preserves_for. intros nm _. by apply keep_stored.
    - intros ok. apply preserves_bind; [|intros _; apply preserves_ret]. destruct ok; [apply keep_pop|].
      destruct (_ <? _); [by apply keep_put|apply keep_pop]. }
  apply H. by apply entry_ok.
Qed.

Lemma send_all_ok env jobs s : asm_ok s → asm_ok (send_all env jobs s).1.
Proof.
  revert s. induction jobs as [|job jobs IH]; intros s Hs; simpl; [done|].
  pose proof (send_one_ok env job s Hs) as H1. unfold mbind at 1, M_bind at 1.
  destruct (send_one env job s) as [s1 [c|e]]; [|done]. pose proof (IH s1 H1) as H2.
  unfold mbind, M_bind. by destruct (send_all env jobs s1) as [s2 [c'|e]].
Qed.

Lemma persist_asm_ok env b s : asm_ok s → asm_ok (asm_persist_if asm_checksum env b s).1.
Proof.
  intros Hs. unfold asm_persist_if. erewrite M_bind_Ret by reflexivity. destruct (b && _); [|done].
  unfold mbind, M_bind, asm_persist_data. by destruct (etcd_write (ctl_env env)).
Qed.

(** Instances reach the instance manager through the assembler only. *)
Definition asm_op_ok (o : asm_op) : Prop := match o with ACtl (OAdd _) => False | _ => True end.

Lemma asm_step_ok x s : asm_op_ok x.2 → asm_ok s → asm_ok (asm_step asm_checksum x s).1.
Proof.
  destruct x as [env o]. unfold asm_step. cbn [fst snd]. intros Ho Hs. destruct o as [msg|msg| | |o].
  - pose proof (register_ok env msg s Hs). unfold mbind, M_bind. by destruct (register asm_checksum env msg s) as [s' [a|e]].
  - pose proof (reregister_ok env msg s Hs). unfold mbind, M_bind. by destruct (reregister asm_checksum env msg s) as [s' [a|e]].
  - unfold assembler_round. erewrite M_bind_Ret by reflexivity. apply (preserves_for asm_ok); [|done].
    intros job _ s1 H1. erewrite M_bind_Ret by reflexivity. destruct (dget _ job) as [m|] eqn:Em; [|done].
    destruct (decide _); [done|]. apply (assemble_ok env job m). by apply entry_ok.
  - unfold start_command_round. erewrite M_bind_Ret by reflexivity.
    match goal with |- context [send_all env ?l] => pose proof (send_all_ok env l s Hs) as H1 end.
    unfold mbind, M_bind. destruct (send_all env _ s) as [s1 [c|e]]; [|done]. by apply persist_asm_ok.
  - unfold on_ctl. assert (tab_kept (a_ctl s) (ctl_step (ctl_env env, o) (a_ctl s)).1) as (K1 & K2 & K3 & K4).
    { apply (tab_op (a_ctl s) (ctl_env env) o); [by destruct o|apply tab_refl]. }
    destruct (ctl_step (ctl_env env, o) (a_ctl s)) as [c' r]. cbn [fst] in *.
    destruct (asm_ok_change s (mkASys c' (a_asm s))) as [H1 H2]; simpl; try done.
    + intros r'. destruct (K1 r') as (? & ? & _). done.
    + split; apply Hs.
    + split; [by apply K3, Hs|]. intros id r' Hr. by apply Hs, K4.
Qed.

Lemma asm_run_ok ops s : Forall (λ x, asm_op_ok x.2) ops → asm_ok s → asm_ok (asm_run asm_checksum s ops).
Proof.
  revert s. induction ops as [|x ops IH]; intros s; simpl; [done|]. intros [Hx Ho]%Forall_cons Hs.
  apply IH; [done|]. by apply asm_step_ok.
Qed.

(** The controller at its first start. *)
Definition asm_sys_init (st : ref → Instance) (persist : bool) (o : O) (cfg : AsmConfig) : SYS :=
  mkASys (Ctl_init st 0%nat persist None o) (Asm_init cfg None).

Lemma asm_sys_init_ok st persist o cfg : asm_ok (asm_sys_init st persist o cfg).
Proof. split; [apply dict_wf_nil|]. split; [apply dict_wf_nil|]. by split. Qed.
End ids.

(** *** Endpoint ids *)

Definition ep_ids (i : Instance) : list Z := map ep_id (endpoints_flat i).

Lemma num_ids i : get_endpoints_num i = Z.of_nat (length (ep_ids i)).
Proof.
  unfold get_endpoints_num, ep_ids, endpoints_flat. rewrite length_map. generalize (dvalues (endpoints i)) as l.
  induction l as [|pod l IH]; simpl; [done|]. rewrite IH, length_app. unfold dvalues. rewrite length_fmap. lia.
Qed.

Lemma multi_loop_ids t msg off ports : ∀ i acc pod,
  multi_loop t msg off i ports acc = Ret pod → (∀ k, k ∈ dkeys acc → k < i) →
  ∃ new, pod = acc ++ new ∧ map ep_id (dvalues new) = seqZ (off + i) (Z.of_nat (length new)).
Proof.
  induction ports as [|bport ports IH]; intros i acc pod H Hk; simpl in H.
  { injection H as <-. exists []. by rewrite app_nil_r. }
  destruct (_ <? _); [injection H as <-; exists []; by rewrite app_nil_r|].
  destruct (build_device_infos _ _ _ _) as [devs|]; simpl in H; [|done].
  destruct (index (rg_mgmt_port msg) i) as [mport|]; simpl in H; [|done].
  assert (dget acc i = None) as Hn by (apply dget_None_keys; intros Hi; specialize (Hk i Hi); lia).
  rewrite dset_new in H by done. apply IH in H as (new & -> & E).
  - eexists (_ :: new). rewrite <- app_assoc. split; [reflexivity|].
    transitivity ((off + i) :: map ep_id (dvalues new)); [reflexivity|]. rewrite E. cbn [length].
    rewrite (seqZ_cons (off + i)) by lia. f_equal. f_equal; lia.
  - intros k. unfold dkeys. rewrite fmap_app. intros [Hin|Hin]%elem_of_app; [specialize (Hk k Hin); lia|].
    apply list_elem_of_singleton in Hin. simpl in Hin. lia.
Qed.

(** Whatever builds, it builds consecutive ids from the offset. *)
Lemma build_ids t msg i pod :
  build_endpoints t msg i = Ret pod → ∃ k, map ep_id (dvalues pod) = seqZ (get_endpoints_num i) k.
Proof.
  unfold build_endpoints. destruct (rg_multi_endpoints msg).
  - unfold build_multi_endpoints. intros H.
    match type of H with context [?p ≫= _] => destruct p as [ports|] end; [|done]. simpl in H.
    apply multi_loop_ids in H as (new & -> & E); [|by intros ? ?%elem_of_nil]. eexists. simpl. rewrite E. f_equal. lia.
  - unfold build_single_endpoint. intros H.
    destruct (build_device_infos _ _ _ _); simpl in H; [|done].
    destruct (index (rg_business_port msg) 0); simpl in H; [|done].
    destruct (index (rg_mgmt_port msg) 0); simpl in H; [|done]. injection H as <-. by exists 1.
Qed.

Lemma add_pod_ids i ip pod :
  dget (endpoints i) ip = None → ep_ids (add_endpoints i ip (Some pod)) = ep_ids i ++ map ep_id (dvalues pod).
Proof.
  intros H. unfold ep_ids, endpoints_flat. simpl. rewrite dset_new by done. unfold dvalues at 2 4.
  rewrite fmap_app, !map_app, concat_app, map_app. simpl. by rewrite app_nil_r.
Qed.

Lemma node_mgr_endpoints i ip pt n : endpoints (add_node_mgr i ip pt n) = endpoints i.
Proof. unfold add_node_mgr. destruct ip, pt; try done. by destruct (decide _). Qed.

(** *** What registering a pod does to its instance *)

Section pods.
Context {O D : Type} `{!Observer O, !Codec D}.
Context (asm_checksum : Z → dict string (AsmEntry (D := D)) → Z → f64 → string).
Abbreviation SYS := (ASys (O := O) (D := D)).
Implicit Types (s : SYS).

Lemma persist_if_effect env b s :
  ∃ s', asm_persist_if asm_checksum env b s = (s', Ret tt) ∧ a_ctl s' = a_ctl s ∧
    asm_instances (a_asm s') = asm_instances (a_asm s) ∧ asm_config (a_asm s') = asm_config (a_asm s) ∧
    commands (a_asm s') = commands (a_asm s).
Proof.
  unfold asm_persist_if. erewrite M_bind_Ret by reflexivity. destruct (b && _); [|by exists s].
  unfold mbind, M_bind, asm_persist_data. destruct (etcd_write (ctl_env env)); by eexists.
Qed.

(** The instance of a new pod after a registration that returns. *)
Lemma register_pod_effect env msg m s s' code :
  register_pod asm_checksum env msg m s = (s', Ret code) →
  has_node_mgr (cstore (a_ctl s) (am_instance m)) (rg_pod_ip msg) = false →
  let i := cstore (a_ctl s) (am_instance m) in
  ∃ pod i1, code = 0 ∧ i1 = add_node_mgr i (Some (rg_pod_ip msg)) (Some (rg_nm_port msg)) (rg_device_num msg) ∧
    build_endpoints (now (ctl_env env)) msg i1 = Ret pod ∧
    cstore (a_ctl s') (am_instance m) = add_endpoints i1 (rg_pod_ip msg) (Some pod).
Proof.
  intros H Hn i. unfold register_pod in H. erewrite M_bind_Ret in H by reflexivity. cbv zeta in H. rewrite Hn in H.
  erewrite M_bind_Ret in H by reflexivity. erewrite M_bind_Ret in H by reflexivity.
  cbn [a_ctl fst] in H. set (i1 := add_node_mgr _ _ _ _) in H.
  assert (cstore (set_ins (a_ctl s) (am_instance m) i1) (am_instance m) = i1) as E1 by (simpl; apply store_set_eq).
  rewrite E1 in H. destruct (build_endpoints _ msg i1) as [pod|e] eqn:Eb.
  - erewrite M_bind_Ret in H by reflexivity. do 2 (erewrite M_bind_Ret in H by reflexivity).
    match type of H with _ ?s2 = _ =>
      destruct (persist_if_effect env true s2) as (s3 & E3 & Ec & _) end.
    rewrite (M_bind_Ret _ _ _ _ _ E3) in H. injection H as <- <-. exists pod, i1. split; [done|]. split; [done|]. split; [done|].
    rewrite Ec. simpl. rewrite !store_set_eq. done.
  - unfold mbind at 1, M_bind at 1 in H. done.
Qed.
End pods.

(** *** Filtering pods that cannot be reached *)

Lemma del_endpoints_nms i ip : node_managers (del_endpoints i ip) = node_managers i.
Proof. unfold del_endpoints. by destruct (dhas _ _). Qed.
Lemma del_node_mgr_eps i ip pt : endpoints (del_node_mgr i ip pt) = endpoints i.
Proof. unfold del_node_mgr. destruct ip, pt; try done. by destruct (decide _). Qed.

Lemma remove_first_other {A} `{!EqDecision A} (x y : A) l : x ≠ y → y ∈ l → y ∈ list_remove_first x l.
Proof.
  intros Hx. induction l as [|z l IH]; simpl; [done|]. intros Hin. case_decide as E; apply elem_of_cons in Hin as [->|Hin]; try done.
  - left.
  - right. auto.
Qed.

Lemma del_endpoints_gone i ip ip' :
  ip' = ip ∨ dget (endpoints i) ip = None → dget (endpoints (del_endpoints i ip')) ip = None.
Proof.
  intros H. unfold del_endpoints. destruct (dhas (endpoints i) ip') eqn:E.
  - simpl. rewrite dget_ddel. case_decide; [done|]. by destruct H as [->|].
  - destruct H as [->|H]; [|done]. unfold dhas in E. by destruct (dget _ _).
Qed.

(** A filtered pod with devices loses its endpoints and keeps its node manager: the
    node manager looked for has [device_num] 0. *)
Lemma filter_dead env i nm :
  nm ∈ node_managers i → device_num nm ≠ 0 → nm_alive env nm = false →
  let i' := filter_abnormal_endpoints env i in
  nm ∈ node_managers i' ∧ dget (endpoints i') (pod_ip nm) = None.
Proof.
  intros Hin Hdev Hdead. unfold filter_abnormal_endpoints, get_node_managers.
  assert (∀ nms i, nm ∈ node_managers i → nm ∈ nms ∨ dget (endpoints i) (pod_ip nm) = None →
    let i' := fold_left (λ i nm, if nm_alive env nm then i
       else del_node_mgr (del_endpoints i (pod_ip nm)) (Some (pod_ip nm)) (Some (port nm))) nms i in
    nm ∈ node_managers i' ∧ dget (endpoints i') (pod_ip nm) = None) as H; [|apply H; auto].
  clear i Hin. induction nms as [|x nms IH]; intros i Hin Hor; cbn [fold_left].
  { split; [done|]. by destruct Hor as [?%elem_of_nil|]. }
  destruct (nm_alive env x) eqn:Ex; apply IH; try done.
  - destruct Hor as [[->|Hx]%elem_of_cons|Hx]; [congruence|auto|auto].
  - unfold del_node_mgr. rewrite del_endpoints_nms. case_decide; simpl; [|by rewrite del_endpoints_nms].
    apply remove_first_other; [|done]. by intros <-.
  - rewrite del_node_mgr_eps. destruct Hor as [[->|Hx]%elem_of_cons|Hx]; [right; apply del_endpoints_gone; auto|auto|].
    right. apply del_endpoints_gone. auto.
Qed.

(** *** The sender's rounds *)

Section sender.
Context {O D : Type} `{!Observer O, !Codec D}.
Context (asm_checksum : Z → dict string (AsmEntry (D := D)) → Z → f64 → string).
Abbreviation SYS := (ASys (O := O) (D := D)).
Implicit Types (s : SYS).

Definition entry_of s (job : string) : option AsmMeta := dget (asm_instances (a_asm s)) job.
Definition retries s : Z := send_cmd_retry_times (asm_config (a_asm s)).

(** Sending leaves the table and the configuration alone. *)
Lemma send_command_table env m s :
  ∃ s' ok, send_start_command env m s = (s', Ret ok) ∧
    asm_instances (a_asm s') = asm_instances (a_asm s) ∧ asm_config (a_asm s') = asm_config (a_asm s).
Proof.
  unfold send_start_command. erewrite M_bind_Ret by reflexivity. cbv zeta. erewrite M_bind_Ret by reflexivity.
  destruct (master_dp_ip _) as [ip|]; [|by do 2 eexists].
  match goal with |- context [mfor ?l ?g] => set (targets := l); set (body := g) end.
  assert (∀ l s, ∃ s', mfor l body s = (s', Ret tt) ∧ asm_instances (a_asm s') = asm_instances (a_asm s) ∧
    asm_config (a_asm s') = asm_config (a_asm s)) as Hfor.
  { induction l as [|nm l IH]; intros s1; simpl; [by exists s1|].
    erewrite M_bind_Ret by reflexivity. match goal with |- context [mfor l body ?s2] => destruct (IH s2) as (s' & E & E1 & E2) end.
    exists s'. split; [exact E|]. split; [by rewrite E1|by rewrite E2]. }
  match goal with |- context [_ ?s1 = _] => destruct (Hfor targets s1) as (s' & E & E1 & E2) end.
  rewrite (M_bind_Ret _ _ _ _ _ E). do 2 eexists. split; [reflexivity|]. split; [by rewrite E1|by rewrite E2].
Qed.

(** One job of the round: an assembled entry is sent; it goes, or one try is counted. *)
Lemma send_one_effect env job s :
  ∃ s' c, send_one env job s = (s', Ret c) ∧ asm_config (a_asm s') = asm_config (a_asm s) ∧
    (∀ job', job' ≠ job → entry_of s' job' = entry_of s job') ∧
    match entry_of s job with
    | Some m =>
        if decide (register_status m = ASSEMBLED) then
          entry_of s' job = None ∨
          (entry_of s' job = Some (set_am_sends m (start_command_send_times m + 1)) ∧ start_command_send_times m + 1 < retries s)
        else entry_of s' job = Some m
    | None => entry_of s' job = None
    end.
Proof.
  unfold send_one. erewrite M_bind_Ret by reflexivity. unfold entry_of, retries.
  destruct (dget (asm_instances (a_asm s)) job) as [m|] eqn:Em.
  2: { exists s, false. rewrite Em. by split_and!. }
  destruct (decide (register_status m = ASSEMBLED)) as [Hst|Hst].
  2: { exists s, false. rewrite Em. by split_and!. }
  destruct (send_command_table env m s) as (s1 & ok & E & E1 & E2). rewrite (M_bind_Ret _ _ _ _ _ E).
  assert (∀ s2 (p : M SYS unit), p s1 = (s2, Ret tt) → (p ;; mret true) s1 = (s2, Ret true)) as Hp.
  { intros s2 p Ep. by rewrite (M_bind_Ret _ _ _ _ _ Ep). }
  destruct ok.
  - do 2 eexists. split; [apply Hp; reflexivity|]. simpl. rewrite E1. split; [done|]. split.
    + intros job' Hne. by rewrite dget_ddel_ne.
    + left. apply dget_ddel_eq.
  - destruct (Z.ltb_spec (start_command_send_times m + 1) (send_cmd_retry_times (asm_config (a_asm s)))) as [Hlt|Hge].
    + do 2 eexists. split; [apply Hp; reflexivity|]. simpl. rewrite E1. split; [done|]. split.
      * intros job' Hne. by rewrite dget_dset_ne.
      * right. split; [apply dget_dset_eq|done].
    + do 2 eexists. split; [apply Hp; reflexivity|]. simpl. rewrite E1. split; [done|]. split.
      * intros job' Hne. by rewrite dget_ddel_ne.
      * left. apply dget_ddel_eq.
Qed.

Lemma send_all_effect env jobs : ∀ s, NoDup jobs →
  ∃ s' c, send_all env jobs s = (s', Ret c) ∧ asm_config (a_asm s') = asm_config (a_asm s) ∧
    (∀ job, job ∉ jobs → entry_of s' job = entry_of s job) ∧
    (∀ job m, job ∈ jobs → entry_of s job = Some m → register_status m = ASSEMBLED →
       entry_of s' job = None ∨
       (entry_of s' job = Some (set_am_sends m (start_command_send_times m + 1)) ∧ start_command_send_times m + 1 < retries s)) ∧
    (∀ job, entry_of s job = None → entry_of s' job = None).
Proof.
  induction jobs as [|j jobs IH]; intros s Hnd; simpl.
  { exists s, false. split_and!; try done. by intros ? ? ?%elem_of_nil. }
  apply NoDup_cons in Hnd as [Hj Hnd]. destruct (send_one_effect env j s) as (s1 & c1 & E1 & C1 & O1 & H1).
  destruct (IH s1 Hnd) as (s2 & c2 & E2 & C2 & O2 & H2 & N2). exists s2, (c1 || c2).
  rewrite (M_bind_Ret _ _ _ _ _ E1), (M_bind_Ret _ _ _ _ _ E2). split; [done|]. split; [by rewrite C2|].
  assert (retries s1 = retries s) as Er by (unfold retries; by rewrite C1).
  split_and!.
  - intros job [Hne Hnin]%not_elem_of_cons. by rewrite O2, O1.
  - intros job m [->|Hin]%elem_of_cons Hm Hst.
    + rewrite Hm, decide_True in H1 by done. rewrite O2 by done. exact H1.
    + rewrite <- Er. apply H2; [done| |done]. rewrite O1; [done|]. by intros ->.
  - intros job Hn. apply N2. destruct (decide (job = j)) as [->|Hne]; [by rewrite Hn in H1|by rewrite O1].
Qed.

Definition rounds s (envs : list AsmEnv) : SYS := fold_left (λ s env, (start_command_round asm_checksum env s).1) envs s.

Lemma round_effect env s job m :
  dict_wf (asm_instances (a_asm s)) →
  let s' := (start_command_round asm_checksum env s).1 in
  retries s' = retries s ∧
  (entry_of s job = None → entry_of s' job = None) ∧
  (entry_of s job = Some m → register_status m = ASSEMBLED →
   entry_of s' job = None ∨
   (entry_of s' job = Some (set_am_sends m (start_command_send_times m + 1)) ∧ start_command_send_times m + 1 < retries s)).
Proof.
  intros Hwf. cbv zeta. unfold start_command_round. erewrite M_bind_Ret by reflexivity.
  destruct (send_all_effect env (dkeys (asm_instances (a_asm s))) s Hwf) as (s1 & c & E & C & _ & H & N).
  rewrite (M_bind_Ret _ _ _ _ _ E). destruct (persist_if_effect asm_checksum env c s1) as (s2 & -> & _ & Et & Ec & _).
  cbn [fst]. unfold retries, entry_of in *. rewrite Ec, C, Et. split; [done|]. split; [apply N|].
  intros Hm Hst. apply H; [|done|done]. apply elem_of_dkeys. by rewrite Hm.
Qed.
Lemma round_wf env s :
  dict_wf (asm_instances (a_asm s)) → dict_wf (asm_instances (a_asm (start_command_round asm_checksum env s).1)).
Proof.
  set (P s := dict_wf (asm_instances (a_asm s))). revert s. change (preserves P (start_command_round asm_checksum env)).
  assert (∀ b, preserves P (asm_persist_if asm_checksum env b)) as Hp.
  { intros b s Hs. destruct (persist_if_effect asm_checksum env b s) as (s' & -> & _ & Et & _). unfold P. cbn [fst]. by rewrite Et. }
  assert (∀ job, preserves P (send_one env job)) as Hone.
  { intros job s Hs. unfold send_one. erewrite M_bind_Ret by reflexivity. destruct (dget _ _) as [m|]; [|done].
    destruct (decide _); [|done]. destruct (send_command_table env m s) as (s1 & ok & E & E1 & _).
    rewrite (M_bind_Ret _ _ _ _ _ E). assert (P s1) as H1 by (unfold P; by rewrite E1).
    destruct ok; [|destruct (_ <? _)]; erewrite M_bind_Ret by reflexivity; cbn [fst mret M_ret];
      first [by apply dict_wf_ddel|by apply dict_wf_dset]. }
  unfold start_command_round. apply preserves_bind; [apply preserves_get|]. intros s. apply preserves_bind; [|auto].
  induction (dkeys _) as [|j jobs IH]; [apply preserves_ret|]. simpl. apply preserves_bind; [apply Hone|]. intros c.
  apply preserves_bind; [apply IH|]. intros c'. apply preserves_ret.
Qed.
End sender.

(** ** Properties *)

Section properties.
Context {O D : Type} `{!Observer O, !Codec D}.
Context (asm_checksum : Z → dict string (AsmEntry (D := D)) → Z → f64 → string).
Abbreviation SYS := (ASys (O := O) (D := D)).
Implicit Types (s : SYS).

(** C40: ids are never given out twice.  In every state reached by registrations,
    re-registrations, assembly and command rounds and the instance manager's own
    operations, the instance a new registration creates gets the counter as its id; no
    other instance in assembly has it, and the instance manager has none with it.  Both
    hold even when the registration ends in an error. *)
Theorem fresh_ids st persist o cfg ops env msg :
  Forall (λ x, asm_op_ok x.2) ops →
  let s := asm_run asm_checksum (asm_sys_init (D := D) st persist o cfg) ops in
  eval_register_status s (rg_job_name msg) = NOT_REGISTERED →
  let s' := (register asm_checksum env msg s).1 in
  ∃ m, dget (asm_instances (a_asm s')) (rg_job_name msg) = Some m ∧
    let id := ins_id (cstore (a_ctl s') (am_instance m)) in
    id = ins_id_cnt (a_asm s) ∧ ins_id_cnt (a_asm s') = id + 1 ∧
    (∀ job' m', job' ≠ rg_job_name msg → dget (asm_instances (a_asm s')) job' = Some m' →
       ins_id (cstore (a_ctl s') (am_instance m')) < id) ∧
    dget (instances (a_ctl s')) id = None.
Proof.
  intros Hops s Hst s'. pose proof (asm_run_ok asm_checksum ops _ Hops (asm_sys_init_ok st persist o cfg)) as Hs. fold s in Hs.
  set (job := rg_job_name msg) in *. set (t := now (ctl_env env)).
  destruct (create_ok job (rg_model_name msg) (ins_id_cnt (a_asm s)) (rg_role msg) (rg_parallel_config msg)
      (rg_multi_endpoints msg) t false (ins_id_cnt (a_asm s) + 1) s Hs) as (E & Hj & Ec & Ea & En); [lia|lia|].
  set (m := mkAsm (cnext (a_ctl s)) NOT_REGISTERED 0 t false None) in *.
  set (s1 := (new_instance _ _ _ _ _ _ _ _ s).1) in *.
  set (s2 := mkASys (a_ctl s1) (set_cnt (a_asm s1) (ins_id_cnt (a_asm s) + 1))) in *.
  assert (s' = (register_pod asm_checksum env msg m s2).1) as Es'.
  { unfold s', register. erewrite M_bind_Ret by reflexivity. cbv zeta. fold job. rewrite Hst. fold t.
    rewrite (M_bind_Ret _ _ _ _ _ E). erewrite M_bind_Ret by reflexivity.
    replace (ins_id_cnt (a_asm s1) + 1) with (ins_id_cnt (a_asm s) + 1) by (rewrite En; lia). done. }
  set (P s3 := ins_id_cnt (a_asm s3) = ins_id_cnt (a_asm s) + 1 ∧ instances (a_ctl s3) = instances (a_ctl s) ∧
    (∀ x, ins_id (cstore (a_ctl s3) x) = ins_id (cstore (a_ctl s2) x)) ∧
    (∃ m3, dget (asm_instances (a_asm s3)) job = Some m3 ∧ am_instance m3 = am_instance m) ∧
    ∀ job', job' ≠ job → dget (asm_instances (a_asm s3)) job' = dget (asm_instances (a_asm s)) job').
  assert (P s') as (P1 & P2 & P3 & (m3 & P4 & P5) & P6).
  { rewrite Es'. revert s2 P Hj Es'. intros s2 P Hj _.
    assert (∀ r g, keeps_core g → preserves P (ins_modify r g)) as Hins.
    { intros r g Hg s3 (Q1 & Q2 & Q3 & Q4). split; [exact Q1|]. split; [exact Q2|]. split; [|exact Q4].
      intros x. rewrite <- Q3. by apply ins_modify_core. }
    assert (preserves P (register_pod asm_checksum env msg m)) as HP.
    { unfold register_pod. apply preserves_bind; [apply preserves_get|]. intros s3. destruct (has_node_mgr _ _); [apply preserves_ret|].
      apply preserves_bind; [apply Hins, core_add_node_mgr|]. intros _. apply preserves_bind; [apply preserves_get|]. intros s4.
      apply preserves_bind; [apply preserves_lift|]. intros pod. apply preserves_bind; [|intros _; apply preserves_bind;
        [apply Hins, core_add_endpoints|intros _; apply preserves_bind; [|intros _; apply preserves_ret]]].
      - intros s5 (Q1 & Q2 & Q3 & _ & Q5). split; [exact Q1|]. split; [exact Q2|]. split; [exact Q3|]. simpl. split.
        + eexists. split; [apply dget_dset_eq|done].
        + intros job' Hne. rewrite dget_dset_ne by done. by apply Q5.
      - intros s5 Q. destruct (persist_if_effect asm_checksum env true s5) as (s6 & E6 & F1 & F2 & _). rewrite E6.
        destruct Q as (Q1 & Q2 & Q3 & Q4 & Q5). unfold P. cbn [fst]. rewrite F1, F2. split; [|by split_and!].
        unfold asm_persist_if in E6. erewrite M_bind_Ret in E6 by reflexivity. destruct (true && _); [|by injection E6 as <-].
        unfold mbind, M_bind, asm_persist_data in E6. by destruct (etcd_write (ctl_env env)); injection E6 as <-. }
    apply HP. split; [done|]. split; [change (a_ctl s2) with (a_ctl s1); by rewrite Ec|]. split; [done|].
    change (asm_instances (a_asm s2)) with (asm_instances (a_asm s1)). rewrite Ea. split.
    - exists m. split; [apply dget_dset_eq|done].
    - intros job' Hne. by rewrite dget_dset_ne. }
  exists m3. split; [exact P4|]. cbv zeta. rewrite P5, P3.
  assert (ins_id (cstore (a_ctl s2) (am_instance m)) = ins_id_cnt (a_asm s)) as Eid.
  { change (a_ctl s2) with (a_ctl s1). rewrite Ec. exact (f_equal ins_id (store_set_eq _ _ _)). }
  rewrite Eid. split; [done|]. split; [done|]. split.
  - intros job' m' Hne Hm'. rewrite P6 in Hm' by done. rewrite P3. destruct Hs as (_ & _ & A & _).
    destruct (A _ _ Hm') as (B1 & _ & B3). change (a_ctl s2) with (a_ctl s1). rewrite Ec.
    assert (∀ i, store_set (cstore (a_ctl s)) (cnext (a_ctl s)) i (am_instance m') = cstore (a_ctl s) (am_instance m')) as Eo
      by (intros i; by apply store_set_old).
    rewrite <- (Eo (Instance_init job (rg_model_name msg) (ins_id_cnt (a_asm s)) (rg_role msg) (Some (rg_parallel_config msg)) (rg_multi_endpoints msg))) in B3.
    exact B3.
  - rewrite P2. destruct (dget (instances (a_ctl s)) (ins_id_cnt (a_asm s))) as [r|] eqn:Er; [|done].
    destruct Hs as (_ & _ & _ & B). destruct (B _ _ Er) as (_ & _ & B3). lia.
Qed.

(** Which ids the endpoints of a new pod get.  A registration that returns appends to the
    endpoint ids of the instance the next consecutive ones, counted from the number of
    its endpoints: ids that run from 0 without gaps go on so, but when a pod has been
    filtered out and its number is an id still in use, the new endpoints take ids
    that exist already. *)
Theorem endpoint_ids st persist o cfg ops env msg m s' code :
  Forall (λ x, asm_op_ok x.2) ops →
  let s := asm_run asm_checksum (asm_sys_init (D := D) st persist o cfg) ops in
  eval_register_status s (rg_job_name msg) = ASSEMBLING →
  dget (asm_instances (a_asm s)) (rg_job_name msg) = Some m →
  let i := cstore (a_ctl s) (am_instance m) in
  has_node_mgr i (rg_pod_ip msg) = false → dget (endpoints i) (rg_pod_ip msg) = None →
  register asm_checksum env msg s = (s', Ret code) →
  let i' := cstore (a_ctl s') (am_instance m) in
  let n := Z.of_nat (length (ep_ids i)) in
  ∃ k, ep_ids i' = ep_ids i ++ seqZ n k ∧
    (ep_ids i = seqZ 0 n → 0 <= k → ep_ids i' = seqZ 0 (n + k)) ∧
    (n ∈ ep_ids i → 0 < k → ¬ NoDup (ep_ids i')).
Proof.
  intros _ s Hst Hm i Hn He Hr i' n. unfold register in Hr. erewrite M_bind_Ret in Hr by reflexivity. cbv zeta in Hr.
  rewrite Hst, Hm in Hr. erewrite M_bind_Ret in Hr by reflexivity.
  match type of Hr with register_pod _ _ _ ?m1 ?s1 = _ =>
    destruct (register_pod_effect asm_checksum env msg m1 s1 s' code Hr Hn) as (pod & i1 & _ & Ei1 & Hb & Ei') end.
  cbn [a_ctl am_instance set_am_time fst] in Ei', Ei1. change (cstore _ (am_instance m)) with i in Ei1. fold i' in Ei'.
  apply build_ids in Hb as [k Hk]. exists k.
  assert (endpoints i1 = endpoints i) as Ee by (rewrite Ei1; apply node_mgr_endpoints).
  assert (ep_ids i1 = ep_ids i) as Eids by (unfold ep_ids, endpoints_flat; by rewrite Ee).
  assert (ep_ids i' = ep_ids i ++ seqZ n k) as E.
  { rewrite Ei', add_pod_ids by (by rewrite Ee). rewrite Hk, num_ids, Eids. done. }
  split; [done|]. split.
  - intros H0 Hk0. rewrite E, H0. symmetry. rewrite seqZ_app by lia. f_equal; lia.
  - intros Hin Hk0 Hnd. rewrite E in Hnd. apply NoDup_app in Hnd as (_ & Hd & _). apply (Hd n Hin).
    apply elem_of_seqZ. lia.
Qed.

(** A pod that was once unreachable cannot come back.  When the node manager of a pod
    with a real device count does not answer while its instance is assembled, and the
    instance is not given up, the pod has lost its endpoints but stays listed; its next
    registration is answered with success, changes nothing of the instance, and
    restarts the assembly time-out. *)
Theorem filtered_pod_stuck s env env' job m msg nm :
  dget (asm_instances (a_asm s)) job = Some m → rg_job_name msg = job →
  has_active_instance_by_job_name (a_ctl s) job = false → register_status m ≠ ASSEMBLED →
  let r := am_instance m in
  let i := filter_abnormal_endpoints env (cstore (a_ctl s) r) in
  nm ∈ node_managers (cstore (a_ctl s) r) → rg_pod_ip msg = pod_ip nm → device_num nm ≠ 0 → nm_alive env nm = false →
  is_endpoints_enough i = false →
  flt (instance_assemble_timeout (asm_config (a_asm s))) (fsub (now (ctl_env env)) (register_timestamp m)) = false →
  let s1 := (assemble_instance asm_checksum env job m s).1 in
  eval_register_status s1 job = ASSEMBLING →
  ∃ s2, register asm_checksum env' msg s1 = (s2, Ret 0) ∧
    cstore (a_ctl s2) r = i ∧ get_endpoints i (pod_ip nm) = [] ∧
    dget (asm_instances (a_asm s2)) job = Some (set_am_time m (now (ctl_env env'))).
Proof.
  intros Hm Hjob Hact Hst r i Hnm Hip Hdev Hdead Hen Hto s1 Hev.
  assert (s1 = mkASys (set_ins (a_ctl s) r i) (a_asm s)) as Es1.
  { unfold s1, assemble_instance. erewrite M_bind_Ret by reflexivity. erewrite M_bind_Ret by reflexivity.
    cbn [fst a_ctl a_asm set_ins set_cstore cstore]. fold r. rewrite store_set_eq. fold i. rewrite Hen.
    cbn [a_asm ins_modify mmodify fst]. by rewrite Hto. }
  destruct (filter_dead env _ nm Hnm Hdev Hdead) as [F1 F2]. fold i in F1, F2.
  assert (dget (asm_instances (a_asm s1)) job = Some m) as Hm1 by (by rewrite Es1).
  assert (cstore (a_ctl s1) r = i) as Hi by (rewrite Es1; apply store_set_eq).
  clearbody s1. unfold register, register_pod. erewrite M_bind_Ret by reflexivity. cbv zeta. rewrite Hjob, Hev, Hm1.
  erewrite M_bind_Ret by reflexivity. erewrite M_bind_Ret by reflexivity. cbn [fst a_ctl am_instance set_am_time]. fold r.
  cbn [put_am asm_modify mmodify fst a_ctl].
  rewrite Hi. assert (has_node_mgr i (rg_pod_ip msg) = true) as ->.
  { unfold has_node_mgr. apply existsb_exists. exists nm. split; [by apply list_elem_of_In|]. by rewrite Hip, bool_decide_eq_true_2. }
  eexists. split; [reflexivity|]. split; [exact Hi|]. split; [unfold get_endpoints; by rewrite F2|].
  simpl. apply dget_dset_eq.
Qed.

(** The command of an assembled instance is not sent for ever.  Whatever the node
    managers answer, the entry is gone from the assembler after as many rounds as the
    sends left before the configured number of retries, one at least, and it never
    comes back by the rounds alone. *)
Theorem start_command_terminates s job m envs :
  dict_wf (asm_instances (a_asm s)) → entry_of s job = Some m → register_status m = ASSEMBLED →
  Z.max 1 (retries s - start_command_send_times m) <= Z.of_nat (length envs) →
  entry_of (rounds asm_checksum s envs) job = None.
Proof.
  intros Hwf Hm Hst Hlen.
  assert (∀ envs s, dict_wf (asm_instances (a_asm s)) → entry_of s job = None → entry_of (rounds asm_checksum s envs) job = None) as Hgone.
  { clear. induction envs as [|env envs IH]; intros s Hwf Hn; [done|]. cbn [rounds fold_left].
    apply IH; [by apply round_wf|]. by apply (round_effect asm_checksum env s job (mkAsm 0%nat ASSEMBLED 0 f0 false None)). }
  revert s m Hwf Hm Hst Hlen. induction envs as [|env envs IH]; intros s m Hwf Hm Hst Hlen; [simpl in Hlen; lia|].
  destruct (round_effect asm_checksum env s job m Hwf) as (Hr & _ & H). cbn [rounds fold_left].
  destruct (H Hm Hst) as [Hn|[Hs Hlt]]; [apply Hgone; [by apply round_wf|done]|].
  apply (IH _ (set_am_sends m (start_command_send_times m + 1))); [by apply round_wf|exact Hs|done|].
  rewrite Hr. cbn [start_command_send_times set_am_sends]. simpl length in Hlen. lia.
Qed.
End properties.

(** ** Witnesses *)

Section witnesses.
#[local] Instance asm_codec : Codec Instance := {| dump i := i; load i := Some i; checksum_of d v _ := "sum"%string |}.

(** Two node managers with two devices each register the pods of one instance; the
    first one then does not answer. *)
Definition sample_register (ip : string) : RegisterMsg :=
  mkReg "job" "m" "prefill" ip ["1001"; "1002"]%string ["2001"; "2002"]%string "8000"
    (mkPC 8 1 1 1 1 1 8) true 2 None.
Definition sample_aenv (t : Z) : AsmEnv :=
  mkAEnv (mkCtlEnv (f_of_Z t) (λ _, Some true) EtcdStored true) (λ nm, negb (bool_decide (pod_ip nm = "10.0.0.1"%string))) (λ _, false).
Definition no_sum (_ : Z) (_ : dict string (AsmEntry (D := Instance))) (_ : Z) (_ : f64) : string := "sum".
Definition sample_asm : ASys (O := unit) (D := Instance) :=
  asm_sys_init (λ r, Instance_init "" "" (Z.of_nat r) "" None true) true tt (mkAsmConfig (f_of_Z 60) 3 true).
Definition sample_ops : list (AsmEnv * asm_op) :=
  [(sample_aenv 1, ARegister (sample_register "10.0.0.1")); (sample_aenv 2, ARegister (sample_register "10.0.0.2"))].

(** The first pod is filtered out. *)
Definition filtered_ops : list (AsmEnv * asm_op) := sample_ops ++ [(sample_aenv 3, AAssemble)].
Abbreviation filtered := (asm_run no_sum sample_asm filtered_ops).
Abbreviation sample_meta := (mkAsm 0 NOT_REGISTERED 0 (f_of_Z 2) false None).

Lemma sample_ops_ok : Forall (λ x, asm_op_ok x.2) filtered_ops.
Proof. by repeat apply Forall_cons_2. Qed.

Lemma fresh_ids_witness :
  let s' := (register no_sum (sample_aenv 4) (mkReg "job2" "m" "decode" "10.0.0.9" ["1001"]%string ["2001"]%string "8000"
    (mkPC 1 1 1 1 1 1 1) true 1 None) filtered).1 in
  ∃ m, dget (asm_instances (a_asm s')) "job2" = Some m ∧
    let id := ins_id (cstore (a_ctl s') (am_instance m)) in
    id = ins_id_cnt (a_asm filtered) ∧ ins_id_cnt (a_asm s') = id + 1 ∧
    (∀ job' m', job' ≠ "job2"%string → dget (asm_instances (a_asm s')) job' = Some m' →
       ins_id (cstore (a_ctl s') (am_instance m')) < id) ∧
    dget (instances (a_ctl s')) id = None.
Proof.
  exact (fresh_ids no_sum _ true tt (mkAsmConfig (f_of_Z 60) 3 true) filtered_ops (sample_aenv 4)
    (mkReg "job2" "m" "decode" "10.0.0.9" ["1001"]%string ["2001"]%string "8000" (mkPC 1 1 1 1 1 1 1) true 1 None)
    sample_ops_ok ltac:(vm_compute; reflexivity)).
Defined.

(** Ids 0 to 3 were given; with 0 and 1 filtered out, the third pod gets 2 and 3 again. *)
Lemma endpoint_ids_witness :
  let s' := (register no_sum (sample_aenv 4) (sample_register "10.0.0.3") filtered).1 in
  ep_ids (cstore (a_ctl filtered) 0%nat) = [2; 3] ∧ ep_ids (cstore (a_ctl s') 0%nat) = [2; 3; 2; 3] ∧
  ∃ k, ep_ids (cstore (a_ctl s') 0%nat) = ep_ids (cstore (a_ctl filtered) 0%nat) ++ seqZ 2 k ∧
    (ep_ids (cstore (a_ctl filtered) 0%nat) = seqZ 0 2 → 0 <= k → ep_ids (cstore (a_ctl s') 0%nat) = seqZ 0 (2 + k)) ∧
    (2 ∈ ep_ids (cstore (a_ctl filtered) 0%nat) → 0 < k → ¬ NoDup (ep_ids (cstore (a_ctl s') 0%nat))).
Proof.
  split; [vm_compute; reflexivity|]. split; [vm_compute; reflexivity|].
  exact (endpoint_ids no_sum _ true tt (mkAsmConfig (f_of_Z 60) 3 true) filtered_ops (sample_aenv 4)
    (sample_register "10.0.0.3") sample_meta _ 0
    sample_ops_ok ltac:(vm_compute; reflexivity) ltac:(vm_compute; reflexivity) ltac:(vm_compute; reflexivity)
    ltac:(vm_compute; reflexivity) ltac:(vm_compute; reflexivity)).
Defined.

Abbreviation registered := (asm_run no_sum sample_asm sample_ops).
Abbreviation sample_nm := (mkNM "10.0.0.1" "8000" 2).

Lemma sample_nm_listed : sample_nm ∈ node_managers (cstore (a_ctl registered) 0%nat).
Proof. apply (bool_decide_unpack _). vm_compute. exact I. Qed.

Lemma filtered_pod_stuck_witness :
  let i := filter_abnormal_endpoints (sample_aenv 3) (cstore (a_ctl registered) 0%nat) in
  let s1 := (assemble_instance no_sum (sample_aenv 3) "job" sample_meta registered).1 in
  ∃ s2, register no_sum (sample_aenv 4) (sample_register "10.0.0.1") s1 = (s2, Ret 0) ∧
    cstore (a_ctl s2) 0%nat = i ∧ get_endpoints i "10.0.0.1" = [] ∧
    dget (asm_instances (a_asm s2)) "job" = Some (set_am_time sample_meta (f_of_Z 4)).
Proof.
  exact (filtered_pod_stuck no_sum registered (sample_aenv 3) (sample_aenv 4) "job" sample_meta (sample_register "10.0.0.1") sample_nm
    ltac:(vm_compute; reflexivity) eq_refl ltac:(vm_compute; reflexivity) ltac:(done) sample_nm_listed eq_refl ltac:(done)
    ltac:(vm_compute; reflexivity) ltac:(vm_compute; reflexivity) ltac:(vm_compute; reflexivity) ltac:(vm_compute; reflexivity)).
Defined.

(** An assembled job whose node managers refuse the command: three rounds. *)
Abbreviation assembled_meta := (mkAsm 0 ASSEMBLED 0 (f_of_Z 2) false None).
Abbreviation assembled := (mkASys (a_ctl registered) (set_asm_instances (a_asm registered) [("job"%string, assembled_meta)])).

Lemma start_command_terminates_witness :
  entry_of (rounds no_sum assembled [sample_aenv 3; sample_aenv 4]) "job" ≠ None ∧
  entry_of (rounds no_sum assembled [sample_aenv 3; sample_aenv 4; sample_aenv 5]) "job" = None.
Proof.
  split; [vm_compute; discriminate|].
  exact (start_command_terminates no_sum assembled "job" assembled_meta [sample_aenv 3; sample_aenv 4; sample_aenv 5]
    ltac:(apply (bool_decide_unpack _); vm_compute; exact I) ltac:(vm_compute; reflexivity) eq_refl ltac:(vm_compute; discriminate)).
Defined.
End witnesses.
