(* ===== verification/NodeConfig.v ===== *)
(** * The configuration of a node manager

    Models [config/node_manager.py]: the part of the user configuration a node manager
    takes, the share of devices and ports of an instance in a single container, and the
    ports of its endpoints.  Sizes and ports are the integers the format documents;
    another JSON value in their place is a [TypeError] here. *)

From stdpp Require Import base option list strings pretty.
From Stdlib Require Import ZArith Lia.
From S2P Require Import Prelude Float64 PyText Resources Recompute.
Open Scope Z_scope.

(** ** JSON access *)

(** [v[i]]. *)
Definition jat (v : json) (i : nat) : py json :=
  match v with
  | JList l => match l !! i with Some x => Ret x | None => Raise IndexError end
  | _ => Raise TypeError
  end.
Definition jsize (v : json) : py Z := match v with JInt z => Ret z | _ => Raise TypeError end.
Definition jz (v : json) (keys : list string) : py Z := x ← jsubs v keys; jsize x.

Definition MOTOR_ENGINE_PREFILL_CONFIG_KEY : string := "motor_engine_prefill_config".
Definition MOTOR_ENGINE_DECODE_CONFIG_KEY : string := "motor_engine_decode_config".
Definition MODEL_CONFIG_KEY : string := "model_config".
Definition PARALLEL_CONFIG_KEY : string := "parallel_config".
Definition BASIC_CONFIG_KEY : string := "basic_config".

(** The environment of the process. *)
Record NodeEnv := mkEnv { env_job_name : option string; env_role : option string; env_index : option string; env_pod_ip : option string }.

(** ** SingleContainerNodemanagerConfig *)

Record SingleContainer := mkSC {
  single_container_flag : bool;
  node_manager_port_offset : Z;
  base_port_offset : Z;
  device_offset : Z;
  sc_device_num : option Z;
  kv_port : option Z;
  lookup_rpc_port : option Z;
  dp_rpc_port : option Z
}.
Definition no_single_container : SingleContainer := mkSC false 0 0 0 None None None None.

(** The sizes a deployment in one container is made of. *)
Record Deployment := mkDep {
  p_instances_num : Z; d_instances_num : Z;
  p_dp_size : Z; p_tp_size : Z; p_pp_size : Z;
  d_dp_size : Z; d_tp_size : Z; d_pp_size : Z
}.

Definition read_deployment (user : json) : py Deployment :=
  p ← jz user ["motor_deploy_config"; "p_instances_num"]%string;
  d ← jz user ["motor_deploy_config"; "d_instances_num"]%string;
  pc ← jsubs user [MOTOR_ENGINE_PREFILL_CONFIG_KEY; MODEL_CONFIG_KEY];
  dc ← jsubs user [MOTOR_ENGINE_DECODE_CONFIG_KEY; MODEL_CONFIG_KEY];
  pc ← jsub pc PARALLEL_CONFIG_KEY;
  dc ← jsub dc PARALLEL_CONFIG_KEY;
  p_dp ← jz pc ["dp_size"%string]; p_tp ← jz pc ["tp_size"%string]; p_pp ← jz pc ["pp_size"%string];
  d_dp ← jz dc ["dp_size"%string]; d_tp ← jz dc ["tp_size"%string]; d_pp ← jz dc ["pp_size"%string];
  Ret (mkDep p d p_dp p_tp p_pp d_dp d_tp d_pp).

(** The share of an instance, and the offsets of its other ports. *)
Record Share := mkShare {
  sh_node_manager : Z; sh_base : Z; sh_device : Z; sh_devices : Z; sh_kv : Z; sh_lookup : Z; sh_dp_rpc : Z
}.
Definition share (d : Deployment) (is_prefill : bool) (index : Z) : Share :=
  let p_world := p_dp_size d * p_tp_size d * p_pp_size d in
  let d_world := d_dp_size d * d_tp_size d * d_pp_size d in
  if is_prefill then
    mkShare index (index * d_dp_size d * 2) (index * p_dp_size d * p_tp_size d * p_pp_size d) p_world
      (index * p_dp_size d * p_tp_size d * p_pp_size d) index index
  else
    mkShare (p_instances_num d * p_dp_size d + index) ((p_instances_num d * p_dp_size d + index * d_dp_size d) * 2)
      (p_instances_num d * p_dp_size d * p_tp_size d * p_pp_size d + index * d_dp_size d * d_tp_size d * d_pp_size d) d_world
      (p_instances_num d * p_dp_size d * p_tp_size d * p_pp_size d + index * d_dp_size d * d_tp_size d * d_pp_size d)
      (p_instances_num d + index) (p_instances_num d + index).

Definition jport (v : json) (key : string) : py Z := x ← jsub v key; jint x.

Definition single_container_from_json (env : NodeEnv) (user : json) : py SingleContainer :=
  c ← jget user "motor_coordinator_config" (JObj []);
  s ← jget c "scheduler_config" (JObj []);
  mode ← jget s "deploy_mode" (JStr "");
  match env_role env, env_index env with
  | Some role, Some index =>
      if negb (is_JStr "pd_disaggregation_single_container" mode) || bool_decide (role = ""%string) then Ret no_single_container
      else
        d ← read_deployment user;
        index ← match py_int 10 index with Some i => Ret i | None => Raise ValueError end;
        let sh := share d (bool_decide (role = "prefill"%string)) index in
        engine ← jsubs user [MOTOR_ENGINE_PREFILL_CONFIG_KEY; "engine_config"%string];
        kv ← jget engine "kv_transfer_config" (JObj []);
        ports ←
          (if truthy kv then
             connector ← jsub kv "kv_connector";
             if is_JStr "MultiConnector" connector then
               connectors ← jsubs kv ["kv_connector_extra_config"; "connectors"]%string;
               c0 ← jat connectors 0;
               k ← jport c0 "kv_port";
               c1 ← jat connectors 1;
               l ← jport c1 "lookup_rpc_port";
               Ret (Some (k + sh_kv sh), Some (l + sh_lookup sh))
             else
               k ← jport kv "kv_port";
               Ret (Some (k + sh_kv sh), None)
           else Ret (None, None));
        pc ← jsubs user [MOTOR_ENGINE_PREFILL_CONFIG_KEY; MODEL_CONFIG_KEY; PARALLEL_CONFIG_KEY];
        rpc ← jport pc "dp_rpc_port";
        Ret (mkSC true (sh_node_manager sh) (sh_base sh) (sh_device sh) (Some (sh_devices sh))
               ports.1 ports.2 (Some (rpc + sh_dp_rpc sh)))
  | _, _ => Ret no_single_container
  end.

(** ** NodeManagerConfig *)

Record NodeConfig := mkNC {
  nc_job_name : option string;
  nc_role : PDRole;
  nc_model_name : json;
  nc_heartbeat_interval : Z;
  nc_device_num : Z;
  nc_parallel : ParallelConfig;
  nc_multi_endpoints : bool;
  nc_pod_ip : option string;
  nc_node_manager_port : Z;
  nc_endpoint_num : Z;
  nc_base_port : Z;
  nc_mgmt_ports : list string;
  nc_service_ports : list string;
  nc_log_level : string;
  nc_log_max_line_length : Z;
  nc_single : SingleContainer
}.

Definition NodeConfig_default (env : NodeEnv) : NodeConfig :=
  mkNC (env_job_name env) ROLE_U (JStr "") 1 0 (ParallelConfig_init None None None None None None None false) true
    (Some (match env_pod_ip env with Some ip => if decide (ip = ""%string) then "127.0.0.1"%string else ip | None => "127.0.0.1"%string end))
    1026 0 10000 [] [] "INFO" 8192 no_single_container.

Definition set_role c r := mkNC (nc_job_name c) r (nc_model_name c) (nc_heartbeat_interval c) (nc_device_num c) (nc_parallel c)
  (nc_multi_endpoints c) (nc_pod_ip c) (nc_node_manager_port c) (nc_endpoint_num c) (nc_base_port c) (nc_mgmt_ports c)
  (nc_service_ports c) (nc_log_level c) (nc_log_max_line_length c) (nc_single c).
Definition set_single c s := mkNC (nc_job_name c) (nc_role c) (nc_model_name c) (nc_heartbeat_interval c) (nc_device_num c) (nc_parallel c)
  (nc_multi_endpoints c) (nc_pod_ip c) (nc_node_manager_port c) (nc_endpoint_num c) (nc_base_port c) (nc_mgmt_ports c)
  (nc_service_ports c) (nc_log_level c) (nc_log_max_line_length c) s.
Definition set_ports c nm base := mkNC (nc_job_name c) (nc_role c) (nc_model_name c) (nc_heartbeat_interval c) (nc_device_num c) (nc_parallel c)
  (nc_multi_endpoints c) (nc_pod_ip c) nm (nc_endpoint_num c) base (nc_mgmt_ports c)
  (nc_service_ports c) (nc_log_level c) (nc_log_max_line_length c) (nc_single c).
Definition set_devices c n := mkNC (nc_job_name c) (nc_role c) (nc_model_name c) (nc_heartbeat_interval c) n (nc_parallel c)
  (nc_multi_endpoints c) (nc_pod_ip c) (nc_node_manager_port c) (nc_endpoint_num c) (nc_base_port c) (nc_mgmt_ports c)
  (nc_service_ports c) (nc_log_level c) (nc_log_max_line_length c) (nc_single c).
Definition set_endpoint_ports c n mgmt service := mkNC (nc_job_name c) (nc_role c) (nc_model_name c) (nc_heartbeat_interval c) (nc_device_num c)
  (nc_parallel c) (nc_multi_endpoints c) (nc_pod_ip c) (nc_node_manager_port c) n (nc_base_port c) mgmt
  service (nc_log_level c) (nc_log_max_line_length c) (nc_single c).

(** The fields of a section that the object has; the others keep their value. *)
Definition field {A} (d : jdict) (key : string) (read : json → py A) (old : A) : py A :=
  match dget d key with Some v => read v | None => Ret old end.
Definition jstring (v : json) : py string := match v with JStr s => Ret s | _ => Raise TypeError end.
Definition jstring_opt (v : json) : py (option string) := match v with JNull => Ret None | JStr s => Ret (Some s) | _ => Raise TypeError end.
Definition jstrings (v : json) : py (list string) :=
  match v with
  | JList l => foldr (λ v r, s ← jstring v; ss ← r; Ret (s :: ss)) (Ret []) l
  | _ => Raise TypeError
  end.
Definition section (cfg : jdict) (key : string) : py jdict :=
  match dget cfg key with Some (JObj d) => Ret d | Some _ => Raise AttributeError | None => Ret [] end.

(** [ParallelConfig] of keyword arguments: pydantic refuses what is not an integer. *)
Definition jsize_opt (d : jdict) (key : string) : py (option Z) :=
  match dget d key with Some (JInt z) => Ret (Some z) | Some JNull | None => Ret None | Some _ => Raise ValueError end.
Definition read_parallel (v : json) : py ParallelConfig :=
  match v with
  | JObj d =>
      dp ← jsize_opt d "dp_size"; cp ← jsize_opt d "cp_size"; tp ← jsize_opt d "tp_size"; sp ← jsize_opt d "sp_size";
      ep ← jsize_opt d "ep_size"; pp ← jsize_opt d "pp_size"; w ← jsize_opt d "world_size";
      Ret (ParallelConfig_init dp cp tp sp ep pp w (truthy (dget_or d "enable_ep" (JBool false))))
  | _ => Raise TypeError
  end.

(** [_load_node_manager_config_data], without the TLS section it adds. *)
Definition load_node_manager_config_data (env : NodeEnv) (user : jdict) : py jdict :=
  let key := match env_role env with
             | Some r => if decide (r = "prefill"%string) then Some MOTOR_ENGINE_PREFILL_CONFIG_KEY
                         else if decide (r = "decode"%string) then Some MOTOR_ENGINE_DECODE_CONFIG_KEY else None
             | None => None
             end in
  match key with
  | Some key =>
      match dget user key with
      | None => Ret user
      | Some engine =>
          own ← jget engine "motor_nodemanger_config" (JObj []);
          data ← match own with JObj d => Ret d | _ => Raise TypeError end;
          basic ← match dget data BASIC_CONFIG_KEY with Some (JObj d) => Ret d | Some _ => Raise TypeError | None => Ret [] end;
          model ← jsubs engine [MODEL_CONFIG_KEY; "model_name"%string];
          hardware ← jsubs (JObj user) ["motor_deploy_config"; "hardware_type"]%string;
          pc ← jsubs engine [MODEL_CONFIG_KEY; PARALLEL_CONFIG_KEY];
          multi ← jget engine "enable_multi_endpoints" (JBool true);
          Ret (dset data BASIC_CONFIG_KEY
            (JObj (dset (dset (dset (dset basic "model_name" model) "hardware_type" hardware) PARALLEL_CONFIG_KEY pc)
                     "enable_multi_endpoints" multi)))
      end
  | None => Ret user
  end.

Definition update_from_config_data (env : NodeEnv) (c : NodeConfig) (cfg : jdict) : py NodeConfig :=
  logging ← section cfg "logging_config";
  level ← field logging "log_level" jstring (nc_log_level c);
  line_length ← field logging "log_max_line_length" jsize (nc_log_max_line_length c);
  api ← section cfg "api_config";
  pod_ip ← field api "pod_ip" jstring_opt (nc_pod_ip c);
  nm_port ← field api "node_manager_port" jsize (nc_node_manager_port c);
  endpoint ← section cfg "endpoint_config";
  num ← field endpoint "endpoint_num" jsize (nc_endpoint_num c);
  base ← field endpoint "base_port" jsize (nc_base_port c);
  mgmt ← field endpoint "mgmt_ports" jstrings (nc_mgmt_ports c);
  service ← field endpoint "service_ports" jstrings (nc_service_ports c);
  basic ← section cfg BASIC_CONFIG_KEY;
  job ← field basic "job_name" jstring_opt (nc_job_name c);
  model ← field basic "model_name" Ret (nc_model_name c);
  interval ← field basic "heartbeat_interval_seconds" jsize (nc_heartbeat_interval c);
  devices ← field basic "device_num" jsize (nc_device_num c);
  multi ← field basic "enable_multi_endpoints" (λ v, Ret (truthy v)) (nc_multi_endpoints c);
  parallel ← field basic PARALLEL_CONFIG_KEY read_parallel (nc_parallel c);
  let sc := nc_single c in
  let '(nm_port, base) := if single_container_flag sc then (nm_port + node_manager_port_offset sc, base + base_port_offset sc) else (nm_port, base) in
  role ← match env_role env with Some r => PDRole_of_string r | None => Raise ValueError end;
  Ret (mkNC job role model interval devices parallel multi pod_ip nm_port num base mgmt service level line_length sc).

(** [[f(i) for i in range(n)]]. *)
Definition for_range {A} (n : Z) (f : Z → A) : list A := map (λ i, f (Z.of_nat i)) (seq 0 (Z.to_nat n)).

Definition generate_endpoint_ports (c : NodeConfig) : py NodeConfig :=
  let dp := dp_size (nc_parallel c) in
  let devices_per_dp := tp_size (nc_parallel c) * pp_size (nc_parallel c) in
  if (nc_multi_endpoints c && (nc_device_num c <? devices_per_dp)) || (dp <? 1) then Raise ValueError
  else if nc_multi_endpoints c && (devices_per_dp =? 0) then Raise ZeroDivisionError
  else
    let n := if nc_multi_endpoints c then Z.min dp (nc_device_num c / devices_per_dp) else 1 in
    Ret (set_endpoint_ports c n (for_range n (λ i, pretty (nc_base_port c + i * 2 + 1)))
                                (for_range n (λ i, pretty (nc_base_port c + i * 2)))).

Definition no_endpoints (c : NodeConfig) : NodeConfig := set_endpoint_ports (set_devices c 0) 0 [] [].

Definition device_count_single_container (c : NodeConfig) : Z :=
  if 0 <? world_size (nc_parallel c) then world_size (nc_parallel c)
  else match sc_device_num (nc_single c) with Some n => n | None => 0 end.
Definition device_count_normal_mode (env : NodeEnv) (raw : json) : py Z :=
  deploy ← jsub raw "motor_deploy_config";
  n ← match env_role env with
      | Some r =>
          if decide (r = "prefill"%string) then v ← jget deploy "p_pod_npu_num" (JInt 0); jsize v
          else if decide (r = "decode"%string) then v ← jget deploy "d_pod_npu_num" (JInt 0); jsize v
          else Ret 0
      | None => Ret 0
      end;
  Ret (if 0 <? n then n else 0).

(** Any exception leaves the node manager without devices and endpoints. *)
Definition set_device_count_from_config (env : NodeEnv) (c : NodeConfig) (raw : option json) : NodeConfig :=
  match raw with
  | Some (JObj d) =>
      if negb (dhas d "motor_deploy_config") then no_endpoints c
      else
        let r :=
          n ← (if single_container_flag (nc_single c) then Ret (device_count_single_container c)
               else device_count_normal_mode env (JObj d));
          generate_endpoint_ports (set_devices c n) in
        match r with Ret c' => c' | Raise _ => no_endpoints c end
  | _ => no_endpoints c
  end.

Definition validate_config (c : NodeConfig) : py unit :=
  let ok :=
    (0 <? nc_node_manager_port c) && (nc_node_manager_port c <=? 65535) &&
    (0 <=? nc_base_port c) && (nc_base_port c <=? 65535) && (0 <=? nc_endpoint_num c) && (0 <? nc_heartbeat_interval c) &&
    bool_decide (of_chars (map upper_char (chars (nc_log_level c))) ∈ ["DEBUG"; "INFO"; "WARNING"; "ERROR"]%string) &&
    (0 <? nc_log_max_line_length c) in
  if ok then Ret tt else Raise ValueError.

(** [from_json] with the content of the file, [None] when there is none. *)
Definition config_from_json (env : NodeEnv) (raw : option json) : py NodeConfig :=
  let c := NodeConfig_default env in
  c ← match raw with
      | Some user =>
          sc ← single_container_from_json env user;
          cfg ← match user with JObj d => load_node_manager_config_data env d | _ => Raise TypeError end;
          update_from_config_data env (set_single c sc) cfg
      | None => Ret c
      end;
  let c := set_device_count_from_config env c raw in
  validate_config c ;; Ret c.

(** [reload], when the file exists with modification time [mtime]: whether it worked, and
    the configuration and time afterwards. *)
Definition config_reload (env : NodeEnv) (c : NodeConfig) (last_modified : option Z) (mtime : Z) (raw : json)
    : bool * NodeConfig * option Z :=
  let unchanged := match last_modified with Some t => negb (t =? 0) && (mtime <=? t) | None => false end in
  if unchanged then (true, c, last_modified)
  else match config_from_json env (Some raw) with
       | Ret c' => (true, c', Some mtime)
       | Raise _ => (false, c, last_modified)
       end.

(** ** Instances in one container *)

(** An instance: its role and its index. *)
Abbreviation member := (bool * Z)%type.
Definition is_member (d : Deployment) (m : member) : Prop :=
  0 <= m.2 < (if m.1 then p_instances_num d else d_instances_num d).
Definition positive_sizes (d : Deployment) : Prop :=
  0 < p_dp_size d ∧ 0 < p_tp_size d ∧ 0 < p_pp_size d ∧ 0 < d_dp_size d ∧ 0 < d_tp_size d ∧ 0 < d_pp_size d.

Definition world_of (d : Deployment) (is_prefill : bool) : Z := sh_devices (share d is_prefill 0).
Definition dp_of (d : Deployment) (is_prefill : bool) : Z := if is_prefill then p_dp_size d else d_dp_size d.

(** The configuration of a member whose node manager is given [base] as base port. *)
Definition member_config (env : NodeEnv) (d : Deployment) (base : Z) (m : member) : NodeConfig :=
  let sh := share d m.1 m.2 in
  let c := NodeConfig_default env in
  let pc := if m.1 then ParallelConfig_init (Some (p_dp_size d)) None (Some (p_tp_size d)) None None (Some (p_pp_size d)) None false
            else ParallelConfig_init (Some (d_dp_size d)) None (Some (d_tp_size d)) None None (Some (d_pp_size d)) None false in
  let sc := mkSC true (sh_node_manager sh) (sh_base sh) (sh_device sh) (Some (sh_devices sh)) None None None in
  let c := mkNC (nc_job_name c) (if m.1 then ROLE_P else ROLE_D) (nc_model_name c) (nc_heartbeat_interval c) 0 pc true (nc_pod_ip c)
             (nc_node_manager_port c + sh_node_manager sh) 0 (base + sh_base sh) [] [] (nc_log_level c) (nc_log_max_line_length c) sc in
  set_devices c (device_count_single_container c).

Definition member_ports (env : NodeEnv) (d : Deployment) (base : Z) (m : member) : list string :=
  match generate_endpoint_ports (member_config env d base m) with
  | Ret c => nc_service_ports c ++ nc_mgmt_ports c
  | Raise _ => []
  end.

Lemma elem_of_for_range {A} n (f : Z → A) x : x ∈ for_range n f ↔ ∃ i, 0 <= i < n ∧ x = f i.
Proof.
  unfold for_range. rewrite map_fmap, list_elem_of_fmap. split.
  - intros (i & -> & Hi). apply elem_of_seq in Hi. exists (Z.of_nat i). split; [lia|done].
  - intros (i & Hi & ->). exists (Z.to_nat i). split; [by rewrite Z2Nat.id by lia|]. apply elem_of_seq. lia.
Qed.

(** Two ports for every rank of data parallelism, from the base of the share on. *)
Lemma member_ports_spec env d base m x :
  positive_sizes d →
  x ∈ member_ports env d base m ↔
  ∃ k, 0 <= k < 2 * dp_of d m.1 ∧ x = pretty (base + sh_base (share d m.1 m.2) + k).
Proof.
  intros (H1 & H2 & H3 & H4 & H5 & H6). unfold member_ports, generate_endpoint_ports.
  set (dp := dp_of d m.1). set (per := if m.1 then p_tp_size d * p_pp_size d else d_tp_size d * d_pp_size d).
  assert (0 < per) as Hper by (unfold per; destruct m.1; nia).
  assert (0 < dp) as Hdp by (unfold dp, dp_of; destruct m.1; done).
  assert (dp_size (nc_parallel (member_config env d base m)) = dp) as -> by (unfold dp, dp_of; by destruct m as [[] i]).
  assert (tp_size (nc_parallel (member_config env d base m)) * pp_size (nc_parallel (member_config env d base m)) = per) as ->
    by (unfold per; by destruct m as [[] i]).
  assert (nc_device_num (member_config env d base m) = dp * per) as ->.
  { unfold member_config, device_count_single_container, dp, dp_of, per. destruct m as [[] i]; cbn; (destruct (0 <? _) eqn:E; [nia|]);
      apply Z.ltb_ge in E; nia. }
  assert (nc_multi_endpoints (member_config env d base m) = true) as -> by (by destruct m as [[] i]).
  assert (nc_base_port (member_config env d base m) = base + sh_base (share d m.1 m.2)) as -> by (by destruct m as [[] i]).
  rewrite (proj2 (Z.ltb_ge _ _)) by nia. rewrite (proj2 (Z.ltb_ge dp 1)) by lia. rewrite (proj2 (Z.eqb_neq per 0)) by lia.
  cbn [andb orb]. rewrite Z.div_mul, Z.min_id by lia. cbn [nc_service_ports nc_mgmt_ports set_endpoint_ports].
  rewrite elem_of_app, !elem_of_for_range. split.
  - intros [(i & Hi & ->)|(i & Hi & ->)]; [exists (2 * i)|exists (2 * i + 1)]; (split; [lia|f_equal; lia]).
  - intros (k & Hk & ->). pose proof (Z.div_mod k 2 ltac:(lia)). pose proof (Z.mod_pos_bound k 2 ltac:(lia)).
    destruct (decide (k mod 2 = 0)); [left|right]; exists (k / 2); (split; [lia|f_equal; lia]).
Qed.

(** The first port of a share and the one after its last, in pairs of ports. *)
Definition first_pair (d : Deployment) (m : member) : Z :=
  if m.1 then m.2 * d_dp_size d else p_instances_num d * p_dp_size d + m.2 * d_dp_size d.

Lemma shares_clash env d base m m' :
  positive_sizes d →
  (∃ x, x ∈ member_ports env d base m ∧ x ∈ member_ports env d base m') ↔
  first_pair d m < first_pair d m' + dp_of d m'.1 ∧ first_pair d m' < first_pair d m + dp_of d m.1.
Proof.
  intros Hd. assert (∀ m, sh_base (share d m.1 m.2) = 2 * first_pair d m) as Hb by (intros [[] i]; cbn; lia).
  setoid_rewrite member_ports_spec; [|done..]. rewrite !Hb. split.
  - intros (x & (k & Hk & ->) & (k' & Hk' & E)). apply (inj pretty) in E. lia.
  - intros [H1 H2].
    assert (0 < dp_of d m.1 ∧ 0 < dp_of d m'.1) as [Hp Hp'] by (destruct Hd as (? & ? & ? & ? & ? & ?); unfold dp_of; destruct m.1, m'.1; done).
    destruct (decide (first_pair d m <= first_pair d m')).
    + exists (pretty (base + 2 * first_pair d m')). split; [exists (2 * (first_pair d m' - first_pair d m))|exists 0]; (split; [lia|f_equal; lia]).
    + exists (pretty (base + 2 * first_pair d m)). split; [exists 0|exists (2 * (first_pair d m - first_pair d m'))]; (split; [lia|f_equal; lia]).
Qed.

(** With more data parallelism in decode a prefill share reaches into the decode ports. *)
Lemma wide_decode_clash d :
  positive_sizes d → 2 <= p_instances_num d → p_dp_size d < d_dp_size d →
  let i := (p_instances_num d * p_dp_size d - p_dp_size d + d_dp_size d) / d_dp_size d in
  0 <= i < p_instances_num d ∧ first_pair d (true, i) < first_pair d (false, 0) + d_dp_size d ∧
  first_pair d (false, 0) < first_pair d (true, i) + p_dp_size d.
Proof.
  intros (H1 & H2 & H3 & H4 & H5 & H6) Hp Hlt i. unfold first_pair. cbn [fst snd].
  set (S := p_instances_num d * p_dp_size d) in *.
  assert (d_dp_size d * i <= S - p_dp_size d + d_dp_size d < d_dp_size d * i + d_dp_size d) as Hi.
  { unfold i. pose proof (Z.div_mod (S - p_dp_size d + d_dp_size d) (d_dp_size d) ltac:(lia)).
    pose proof (Z.mod_pos_bound (S - p_dp_size d + d_dp_size d) (d_dp_size d) ltac:(lia)). lia. }
  assert (S = p_instances_num d * p_dp_size d) as ES by done.
  split; [|lia]. split; nia.
Qed.

(** ** Properties *)

(** The instances in one container share out the devices exactly.  With prefill and
    decode instances numbered from zero, the device ranges computed from the parallel
    sizes cover the devices from zero on without overlap: every device number below the
    total is in the range of exactly one instance. *)
Theorem devices_shared_exactly d n :
  positive_sizes d → 0 <= p_instances_num d → 0 <= d_instances_num d →
  0 <= n < p_instances_num d * world_of d true + d_instances_num d * world_of d false →
  exists ! m, is_member d m ∧ sh_device (share d m.1 m.2) <= n < sh_device (share d m.1 m.2) + sh_devices (share d m.1 m.2).
Proof.
  intros (H1 & H2 & H3 & H4 & H5 & H6) Hp Hdn Hn. unfold world_of in Hn. cbn [share sh_devices fst snd] in Hn.
  set (pw := p_dp_size d * p_tp_size d * p_pp_size d) in *. set (dw := d_dp_size d * d_tp_size d * d_pp_size d) in *.
  assert (0 < pw) as Hpw by (unfold pw; nia). assert (0 < dw) as Hdw by (unfold dw; nia).
  assert (∀ m, sh_devices (share d m.1 m.2) = if m.1 then pw else dw) as Hs by (by intros [[] i]).
  assert (∀ m, sh_device (share d m.1 m.2) = if m.1 then m.2 * pw else p_instances_num d * pw + m.2 * dw) as Ho.
  { intros [[] i]; unfold pw, dw; cbn; lia. }
  destruct (decide (n < p_instances_num d * pw)) as [Hlt|Hge].
  - pose proof (Z.div_mod n pw ltac:(lia)). pose proof (Z.mod_pos_bound n pw ltac:(lia)).
    exists (true, n / pw). split; [rewrite Hs, Ho; unfold is_member; cbn [fst snd]; split; nia|].
    intros m [Hm Hi]. rewrite Hs, Ho in Hi. destruct m as [[] i]; unfold is_member in Hm; cbn [fst snd] in Hm, Hi; [f_equal; nia|nia].
  - set (r := n - p_instances_num d * pw) in *. pose proof (Z.div_mod r dw ltac:(lia)). pose proof (Z.mod_pos_bound r dw ltac:(lia)).
    exists (false, r / dw). split; [rewrite Hs, Ho; unfold is_member; cbn [fst snd]; split; nia|].
    intros m [Hm Hi]. rewrite Hs, Ho in Hi. destruct m as [[] i]; unfold is_member in Hm; cbn [fst snd] in Hm, Hi; [nia|f_equal; nia].
Qed.

(** The ports are not shared out.  With two prefill instances or more and a decode
    instance in one container, no port is given to two instances if and only if prefill
    and decode have the same data parallelism: the base port of a prefill instance is
    computed from the data parallelism of decode. *)
Theorem ports_disjoint_iff env d base :
  positive_sizes d → 2 <= p_instances_num d → 1 <= d_instances_num d →
  (∀ m m', is_member d m → is_member d m' → m ≠ m' → ∀ x, x ∈ member_ports env d base m → x ∉ member_ports env d base m') ↔
  p_dp_size d = d_dp_size d.
Proof.
  intros Hd Hp Hn. pose proof Hd as (H1 & _ & _ & H4 & _). split.
  - intros Hdis. assert (∀ m m', is_member d m → is_member d m' → m ≠ m' →
      first_pair d m < first_pair d m' + dp_of d m'.1 → first_pair d m' < first_pair d m + dp_of d m.1 → False) as Hno.
    { intros m m' Hm Hm' Hne Ha Hb. destruct (proj2 (shares_clash env d base m m' Hd) (conj Ha Hb)) as (x & Hx & Hx').
      by apply (Hdis m m' Hm Hm' Hne x). }
    destruct (Z.lt_trichotomy (p_dp_size d) (d_dp_size d)) as [Hlt|[He|Hgt]]; [exfalso|done|exfalso].
    + destruct (wide_decode_clash d Hd Hp Hlt) as (Hi & Ha & Hb).
      apply (Hno (true, (p_instances_num d * p_dp_size d - p_dp_size d + d_dp_size d) / d_dp_size d) (false, 0)); try done; unfold is_member; cbn; lia.
    + apply (Hno (true, 0) (true, 1)); unfold is_member, first_pair; cbn; [lia|lia|done|lia|lia].
  - intros He m m' Hm Hm' Hne x Hx Hx'.
    destruct (proj1 (shares_clash env d base m m' Hd) (ex_intro _ x (conj Hx Hx'))) as [Ha Hb].
    unfold first_pair, dp_of in Ha, Hb. unfold is_member in Hm, Hm'. destruct m as [[] i], m' as [[] i']; cbn [fst snd] in *; rewrite ?He in *.
    1,4: assert (i ≠ i') by congruence; nia.
    all: nia.
Qed.

Definition sample_deployment : Deployment := mkDep 2 1 2 2 1 4 1 1.
Lemma sample_sizes : positive_sizes sample_deployment.
Proof. by repeat split. Qed.

Lemma devices_shared_exactly_witness :
  exists ! m, is_member sample_deployment m ∧
    sh_device (share sample_deployment m.1 m.2) <= 9 < sh_device (share sample_deployment m.1 m.2) + sh_devices (share sample_deployment m.1 m.2).
Proof.
  exact (devices_shared_exactly sample_deployment 9 sample_sizes ltac:(vm_compute; discriminate) ltac:(vm_compute; discriminate)
    ltac:(split; vm_compute; [discriminate|reflexivity])).
Defined.

Lemma ports_disjoint_iff_witness :
  ¬ (∀ m m', is_member sample_deployment m → is_member sample_deployment m' → m ≠ m' → ∀ x,
       x ∈ member_ports (mkEnv None None None None) sample_deployment 10000 m → x ∉ member_ports (mkEnv None None None None) sample_deployment 10000 m').
Proof.
  intros H. apply (ports_disjoint_iff (mkEnv None None None None) sample_deployment 10000 sample_sizes) in H;
    [discriminate H|vm_compute; discriminate|vm_compute; discriminate].
Defined.

(** The configuration of [sample_deployment] as a file, and what a member reads from it:
    the second prefill instance is given ports of the decode instance. *)
Definition sizes (dp tp : Z) : json := JObj [("dp_size", JInt dp); ("tp_size", JInt tp); ("pp_size", JInt 1); ("dp_rpc_port", JInt 9000)]%string.
Definition sample_file : json :=
  JObj [("motor_deploy_config", JObj [("p_instances_num", JInt 2); ("d_instances_num", JInt 1); ("hardware_type", JStr "800I-A2")]);
        ("motor_coordinator_config", JObj [("scheduler_config", JObj [("deploy_mode", JStr "pd_disaggregation_single_container")])]);
        ("motor_engine_prefill_config", JObj [("engine_config", JObj []); ("model_config", JObj [("model_name", JStr "m"); ("parallel_config", sizes 2 2)])]);
        ("motor_engine_decode_config", JObj [("engine_config", JObj []); ("model_config", JObj [("model_name", JStr "m"); ("parallel_config", sizes 4 1)])])]%string.
Definition loaded_ports (role index : string) : list string :=
  match config_from_json (mkEnv None (Some role) (Some index) None) (Some sample_file) with
  | Ret c => nc_service_ports c ++ nc_mgmt_ports c
  | Raise _ => []
  end.
Example members_loaded :
  loaded_ports "prefill" "1" = member_ports (mkEnv None None None None) sample_deployment 10000 (true, 1) ∧
  loaded_ports "decode" "0" = member_ports (mkEnv None None None None) sample_deployment 10000 (false, 0) ∧
  (loaded_ports "prefill" "1", loaded_ports "decode" "0") =
    (["10008"; "10010"; "10009"; "10011"], ["10008"; "10010"; "10012"; "10014"; "10009"; "10011"; "10013"; "10015"])%string.
Proof. vm_compute. by split_and!. Qed.
