(* ===== verification/IpText.v ===== *)
(** * IP addresses in text

    [ipaddress.ip_address] of Python's standard library, for a string: which texts it
    takes as an IPv4 or an IPv6 address. *)

From stdpp Require Import base option list strings pretty.
From Stdlib Require Import Ascii ZArith Lia.
From S2P Require Import Prelude PyText.
Open Scope Z_scope.

(** An octet: one to three ASCII digits without a leading zero, at most 255. *)
Definition parse_octet (s : string) : bool :=
  isdigit s && (Z.of_nat (String.length s) <=? 3) &&
  (bool_decide (s = "0"%string) || negb (startswith s "0")) &&
  match py_int 10 s with Some v => v <=? 255 | None => false end.
Definition is_ipv4 (s : string) : bool :=
  negb (contains s "/"%char) &&
  match split "."%char s with [a; b; c; d] => parse_octet a && parse_octet b && parse_octet c && parse_octet d | _ => false end.

Definition is_hex_digit (c : Ascii.ascii) : bool :=
  is_digit c || ((97 <=? code c) && (code c <=? 102)) || ((65 <=? code c) && (code c <=? 70)).
(** A group of four hexadecimal digits at most. *)
Definition parse_hextet (s : string) : bool :=
  negb (bool_decide (s = ""%string)) && forallb is_hex_digit (chars s) && (Z.of_nat (String.length s) <=? 4).

(** The groups of an address: eight, or fewer with one empty group inside for the zeros. *)
Definition hextets_ok (parts : list string) : bool :=
  let n := length parts in
  let empty (i : nat) := bool_decide (parts !! i = Some ""%string) in
  let skips := List.filter empty (seq 1 (n - 2)) in
  match skips with
  | [] => Nat.eqb n 8 && forallb parse_hextet parts
  | [skip] =>
      let hi := if empty 0%nat then pred skip else skip in
      let lo := if empty (pred n) then (n - skip - 2)%nat else (n - skip - 1)%nat in
      negb (empty 0%nat && negb (Nat.eqb hi 0)) && negb (empty (pred n) && negb (Nat.eqb lo 0)) &&
      Nat.ltb (hi + lo) 8 && forallb parse_hextet (take hi parts) && forallb parse_hextet (drop (n - lo) parts)
  | _ => false
  end.

Definition is_ipv6 (s : string) : bool :=
  negb (contains s "/"%char) &&
  match split "%"%char s with
  | addr :: scope =>
      match scope with [] => true | [id] => negb (bool_decide (id = ""%string)) | _ => false end &&
      (let parts := split ":"%char addr in
       Nat.leb 3 (length parts) &&
       match last parts with
       | Some l =>
           if contains l "."%char
           then is_ipv4 l && Nat.leb (S (length parts)) 9 && hextets_ok (take (pred (length parts)) parts ++ ["0"; "0"]%string)
           else Nat.leb (length parts) 9 && hextets_ok parts
       | None => false
       end)
  | [] => false
  end.

(** Whether [ip_address(s)] returns. *)
Definition ip_address (s : string) : bool := is_ipv4 s || is_ipv6 s.

Example ip_texts :
  map ip_address ["10.0.0.1"; "255.255.255.255"; "::1"; "::"; "fe80::1%eth0"; "1:2:3:4:5:6:7:8"; "::ffff:10.0.0.1"; "1::"; "1:2:3:4:5:6:7::"]%string
    = replicate 9 true ∧
  map ip_address [""; "10.0.0"; "10.0.0.256"; "10.0.0.01"; "10.0.0.1/8"; "localhost"; "1::2::3"; ":1:2:3:4:5:6:7"; "12345::"; "1:2:3:4:5:6:7:8::"; "fe80::1%"]%string
    = replicate 11 false.
Proof. split; reflexivity. Qed.
