(* ===== verification/NodeManager.v ===== *)
(** * The node manager

    Models [node_manager/core/engine_manager.py], [heartbeat_manager.py], [daemon.py] and the
    handlers of [node_manager/api_server/node_manager_api.py].  The endpoints of a start
    command are objects that the engine manager, the heartbeat manager and the thread that
    queries the engines all hold, so they live in a heap.  The threads interleave at the
    steps of [nm_op], each of which is one critical section or one call to the outside. *)

From stdpp Require Import base option list strings pretty.
From Stdlib Require Import ZArith Lia.
From S2P Require Import Prelude Float64 PyText IpText Resources Recompute NodeConfig CtlInstanceManager InstanceAssembler.
Open Scope Z_scope.

(** ** State *)

(** [EngineManager]: the instance it was told to run, and the ranktable it wrote. *)
Record EngineManager := mkEM { em_instance_id : Z; em_endpoints : list ref; ranktable_file : option Ranktable }.

(** An engine process: its arguments and the devices it is given to see. *)
Record EngineCmd := mkCmd { cmd_args : list string; visible_devices : option (list Z) }.

(** [Daemon]: the processes it counts as its engines; those it started, and killed. *)
Record Daemon := mkDaemon { engine_pids : list Z; started : list (Z * EngineCmd); killed : list Z }.

(** What a heartbeat reads of the endpoints. *)
Record Report := mkReport { has_abnormal : bool; endpoint_status_list : dict Z EndpointStatus }.

(** [HeartbeatManager]. *)
Record Heartbeat := mkHeart {
  hb_job_name : string;
  hb_role : string;
  hb_instance_id : Z;
  hb_endpoints : list ref;
  thread_started : bool;
  start_time : option f64;
  is_within_grace_period : bool;
  consecutive_abnormal_count : Z;
  should_suicide : bool
}.

(** What the node manager and the controller told each other, oldest first. *)
Inductive exchange :=
| XRegister (msg : RegisterMsg)
| XReregister (msg : ReregisterMsg)
| XHeartbeat (job : string) (msg : HeartbeatMsg)
| XStart (cmd : StartCmdMsg).

(** The locals of the status thread and of the heartbeat thread are part of the state. *)
Record NodeManager := mkNode {
  nm_config : NodeConfig;
  nm_heap : ref → Endpoint;
  nm_next : ref;
  nm_em : EngineManager;
  nm_daemon : Daemon;
  nm_hb : Heartbeat;
  nm_scan : option (list ref * list ref);
  nm_report : option Report;
  nm_history : list exchange
}.

Definition set_em (s : NodeManager) em := mkNode (nm_config s) (nm_heap s) (nm_next s) em (nm_daemon s) (nm_hb s) (nm_scan s) (nm_report s) (nm_history s).
Definition set_daemon (s : NodeManager) d := mkNode (nm_config s) (nm_heap s) (nm_next s) (nm_em s) d (nm_hb s) (nm_scan s) (nm_report s) (nm_history s).
Definition set_heart (s : NodeManager) h := mkNode (nm_config s) (nm_heap s) (nm_next s) (nm_em s) (nm_daemon s) h (nm_scan s) (nm_report s) (nm_history s).
Definition set_scan (s : NodeManager) x := mkNode (nm_config s) (nm_heap s) (nm_next s) (nm_em s) (nm_daemon s) (nm_hb s) x (nm_report s) (nm_history s).
Definition set_report (s : NodeManager) x := mkNode (nm_config s) (nm_heap s) (nm_next s) (nm_em s) (nm_daemon s) (nm_hb s) (nm_scan s) x (nm_history s).
Definition set_heap (s : NodeManager) h n := mkNode (nm_config s) h n (nm_em s) (nm_daemon s) (nm_hb s) (nm_scan s) (nm_report s) (nm_history s).
Definition tell (s : NodeManager) (x : exchange) := mkNode (nm_config s) (nm_heap s) (nm_next s) (nm_em s) (nm_daemon s) (nm_hb s) (nm_scan s) (nm_report s) (nm_history s ++ [x]).

Definition Heartbeat_init : Heartbeat := mkHeart "" "prefill" (-1) [] false None true 0 false.
Definition NodeManager_init (c : NodeConfig) : NodeManager :=
  mkNode c (λ _, Endpoint_init f0 0 "" "" "" None None None None) 0 (mkEM 0 [] None) (mkDaemon [] [] []) Heartbeat_init None None [].

(** ** The heap of endpoints *)

Definition heap_set (h : ref → Endpoint) (r : ref) (e : Endpoint) : ref → Endpoint := λ r', if decide (r' = r) then e else h r'.
Fixpoint alloc (h : ref → Endpoint) (next : ref) (eps : list Endpoint) : ref → Endpoint :=
  match eps with [] => h | e :: eps => alloc (heap_set h next e) (S next) eps end.

(** The objects of a received message. *)
Definition new_endpoints (eps : list Endpoint) : M NodeManager (list ref) := λ s,
  (set_heap s (alloc (nm_heap s) (nm_next s) eps) (nm_next s + length eps)%nat, Ret (seq (nm_next s) (length eps))).

(** ** EngineManager *)

(** What a step sees of the outside: the HCCL file, whether the ranktable can be written,
    the clock, the path of the user's configuration. *)
Record NodeOutside := mkOutside {
  hccl_file : option json;
  ranktable_written : bool;
  user_config_path : string;
  clock : f64
}.

Definition check_cmd_para (c : NodeConfig) (cmd : StartCmdMsg) : bool :=
  bool_decide (Some (sc_job_name cmd) = nc_job_name c) &&
  (Z.of_nat (length (sc_endpoints cmd)) =? nc_endpoint_num c) &&
  forallb (λ e, bool_decide (Some (ep_ip e) = nc_pod_ip c)) (sc_endpoints cmd).

Definition write_ranktable (out : NodeOutside) (rt : option Ranktable) (file : option Ranktable) : option Ranktable :=
  match rt with Some _ => if ranktable_written out then rt else file | None => file end.

Definition parse_start_cmd (out : NodeOutside) (cmd : StartCmdMsg) (refs : list ref) : M NodeManager bool :=
  s ← mget;
  if check_cmd_para (nm_config s) cmd then
    mmodify (λ s, set_em s (mkEM (sc_instance_id cmd) refs (write_ranktable out (sc_ranktable cmd) (ranktable_file (nm_em s))))) ;;
    mret true
  else mret false.

(** [DeviceInfo], [ServerInfo] and [Ranktable] of a JSON object: pydantic refuses what is
    missing or is not text. *)
Definition text_of (d : jdict) (key : string) : py string :=
  match dget d key with Some (JStr s) => Ret s | _ => Raise ValueError end.
Definition text_opt (d : jdict) (key : string) : py (option string) :=
  match dget d key with Some (JStr s) => Ret (Some s) | Some JNull | None => Ret None | _ => Raise ValueError end.
Definition list_of {A} (read : jdict → py A) (d : jdict) (key : string) : py (list A) :=
  match dget d key with
  | Some (JList l) =>
      foldr (λ v r, x ← match v with JObj o => read o | _ => Raise ValueError end; xs ← r; Ret (x :: xs)) (Ret []) l
  | _ => Raise ValueError
  end.
Definition read_device (d : jdict) : py DeviceInfo :=
  ip ← text_opt d "device_ip"; id ← text_of d "device_id"; rank ← text_of d "rank_id"; super ← text_opt d "super_device_id";
  Ret (mkDeviceInfo ip id rank super).
Definition read_server (d : jdict) : py ServerInfo :=
  id ← text_of d "server_id"; ip ← text_of d "container_ip"; devs ← list_of read_device d "device"; Ret (mkServer id ip devs).
Definition read_ranktable (d : jdict) : py Ranktable :=
  v ← text_of d "version"; st ← text_of d "status"; n ← text_of d "server_count"; l ← list_of read_server d "server_list";
  Ret (mkRanktable v st n l).

(** [l[a : b]]. *)
Definition slice {A} (l : list A) (a b : Z) : list A :=
  let at_end i := if i <? 0 then Z.of_nat (length l) + i else i in
  drop (Z.to_nat (at_end a)) (take (Z.to_nat (at_end b)) l).

(** In a single container the first server keeps the devices of the instance's share. *)
Definition share_devices (sc : SingleContainer) (data : jdict) : py jdict :=
  match dget data "server_list" with
  | None => Ret data
  | Some (JList []) => Ret data
  | Some (JList (JObj server :: others)) =>
      match dget server "device" with
      | None => Ret data
      | Some (JList devs) =>
          match sc_device_num sc with
          | Some n => Ret (dset data "server_list" (JList (JObj (dset server "device" (JList (slice devs (device_offset sc) (device_offset sc + n)))) :: others)))
          | None => Raise TypeError
          end
      | Some _ => Raise TypeError
      end
  | Some _ => Raise TypeError
  end.

(** Whatever goes wrong leaves the registration without a ranktable. *)
Definition get_ranktable (out : NodeOutside) (c : NodeConfig) : option Ranktable :=
  match hccl_file out with
  | Some (JObj data) =>
      match (data ← (if single_container_flag (nc_single c) then share_devices (nc_single c) data else Ret data); read_ranktable data) with
      | Ret rt => Some rt
      | Raise _ => None
      end
  | _ => None
  end.

(** The messages hold text: pydantic refuses a model name or a pod address that is not. *)
Definition gen_register_msg (out : NodeOutside) (c : NodeConfig) : py (option RegisterMsg) :=
  match nc_job_name c with
  | None => Ret None
  | Some job =>
      match nc_model_name c, nc_pod_ip c with
      | JStr model, Some ip =>
          Ret (Some (mkReg job model (PDRole_value (nc_role c)) ip (nc_service_ports c) (nc_mgmt_ports c)
            (pretty (nc_node_manager_port c)) (nc_parallel c) (nc_multi_endpoints c) (nc_device_num c) (get_ranktable out c)))
      | _, _ => Raise ValueError
      end
  end.

Definition gen_reregister_msg (s : NodeManager) : py (option ReregisterMsg) :=
  let c := nm_config s in
  match nc_job_name c with
  | None => Ret None
  | Some job =>
      if bool_decide (em_endpoints (nm_em s) = []) || (em_instance_id (nm_em s) <=? 0) then Ret None
      else match nc_model_name c, nc_pod_ip c with
           | JStr model, Some ip =>
               Ret (Some (mkRereg job model (em_instance_id (nm_em s)) (PDRole_value (nc_role c)) ip
                 (pretty (nc_node_manager_port c)) (nc_parallel c) (nc_multi_endpoints c) (nc_device_num c)
                 (map (nm_heap s) (em_endpoints (nm_em s)))))
           | _, _ => Raise ValueError
           end
  end.

(** [post_register_msg] and [post_reregister_msg]: whether the controller took the message. *)
Definition post_register_msg (out : NodeOutside) (accepted : bool) : M NodeManager bool :=
  s ← mget;
  m ← mlift (gen_register_msg out (nm_config s));
  match m with
  | None => mret false
  | Some msg => (if accepted then mmodify (λ s, tell s (XRegister msg)) else mret tt) ;; mret accepted
  end.
Definition post_reregister_msg (accepted : bool) : M NodeManager bool :=
  s ← mget;
  m ← mlift (gen_reregister_msg s);
  match m with
  | None => mret false
  | Some msg => (if accepted then mmodify (λ s, tell s (XReregister msg)) else mret tt) ;; mret accepted
  end.

(** The loop of [_register]: [attempts] are what becomes of each attempt.  The outcome is
    whether it registered, and the seconds slept before each further attempt; it sends
    SIGTERM to the process when it did not. *)
Fixpoint register_loop (out : NodeOutside) (retries max_retries : nat) (retry_interval : Z) (attempts : nat → bool) (slept : list Z)
    : M NodeManager (bool * list Z) :=
  match max_retries with
  | O => mret (false, slept)
  | S more =>
      success ← post_register_msg out (attempts retries);
      if success : bool then mret (true, slept)
      else match more with
           | O => mret (false, slept)
           | _ => register_loop out (S retries) more (retry_interval * 2) attempts (slept ++ [retry_interval])
           end
  end.
Definition register_node (out : NodeOutside) (attempts : nat → bool) : M NodeManager (bool * list Z) :=
  register_loop out 0 5 2 attempts [].

(** ** Daemon *)

Definition MAX_PORT : Z := 65535.
Definition MIN_PORT : Z := 1024.

Definition check_params (e : Endpoint) : bool :=
  match py_int 10 (business_port e) with
  | Some port => (MIN_PORT <=? port) && (port <=? MAX_PORT) && ip_address (ep_ip e)
  | None => false
  end.

Definition z_range (a b : Z) : list Z := map (λ i, a + Z.of_nat i) (seq 0 (Z.to_nat (b - a))).

Definition calc_visible_device_ids (c : NodeConfig) (i device_size : Z) : py (list Z) :=
  let local_world_size := tp_size (nc_parallel c) * pp_size (nc_parallel c) in
  if device_size =? 0 then Raise ZeroDivisionError
  else
    let start_device_id := (i * local_world_size) mod device_size in
    let end_device_id := start_device_id + local_world_size in
    let device_ids :=
      if device_size <? end_device_id then z_range start_device_id device_size ++ z_range 0 (end_device_id - device_size)
      else z_range start_device_id end_device_id in
    Ret (if single_container_flag (nc_single c) then map (λ x, x + device_offset (nc_single c)) device_ids else device_ids).

(** What becomes of a started process. *)
Inductive spawned := SpawnFails | SpawnExits | SpawnRuns (pid : Z).

Definition port_text (p : option Z) : string := match p with Some z => pretty z | None => "None" end.
Definition flag (name : string) (value : string) : list string := [name; value].

(** The arguments of the engine of an endpoint. *)
Definition engine_args (out : NodeOutside) (c : NodeConfig) (role : PDRole) (e : Endpoint) (business mgmt instance_id : Z) (master : string)
    : list string :=
  let sc := nc_single c in
  ["engine_server"%string] ++ flag "--dp-rank" (pretty (ep_id e)) ++ flag "--instance-id" (pretty instance_id) ++
  flag "--role" (PDRole_value role) ++ flag "--host" (ep_ip e) ++ flag "--port" (pretty business) ++ flag "--mgmt-port" (pretty mgmt) ++
  flag "--master-dp-ip" master ++ flag "--config-path" (user_config_path out) ++
  (if single_container_flag sc then
     flag "--kv-port" (port_text (kv_port sc)) ++ flag "--dp-rpc-port" (port_text (dp_rpc_port sc)) ++
     match lookup_rpc_port sc with Some p => flag "--lookup-rpc-port" (pretty p) | None => [] end
   else []).

(** The command of the [i]-th endpoint. *)
Definition engine_cmd (out : NodeOutside) (c : NodeConfig) (role : PDRole) (i : Z) (e : Endpoint) (instance_id : Z) (master : string) : py EngineCmd :=
  if negb (check_params e) then Raise ValueError
  else
    devices ← (if nc_multi_endpoints c then ids ← calc_visible_device_ids c i (nc_device_num c); Ret (Some ids) else Ret None);
    business ← match py_int 10 (business_port e) with Some p => Ret p | None => Raise ValueError end;
    mgmt ← match py_int 10 (mgmt_port e) with Some p => Ret p | None => Raise ValueError end;
    Ret (mkCmd (engine_args out c role e business mgmt instance_id master) devices).

Definition add_engine (pid : Z) (cmd : EngineCmd) (s : NodeManager) : NodeManager :=
  set_daemon s (mkDaemon (engine_pids (nm_daemon s) ++ [pid]) (started (nm_daemon s) ++ [(pid, cmd)]) (killed (nm_daemon s))).

Definition spawn (cmd : EngineCmd) (x : spawned) : M NodeManager unit :=
  match x with
  | SpawnFails => mraise RuntimeError
  | SpawnExits => mraise RuntimeError
  | SpawnRuns pid => mmodify (add_engine pid cmd)
  end.

(** [pull_engine], for the configuration the daemon was created with. *)
Fixpoint pull_from (out : NodeOutside) (c : NodeConfig) (role : PDRole) (i : nat) (eps : list ref) (instance_id : Z) (master : string)
    (spawns : nat → spawned) : M NodeManager unit :=
  match eps with
  | [] => mret tt
  | r :: eps =>
      s ← mget;
      cmd ← mlift (engine_cmd out c role (Z.of_nat i) (nm_heap s r) instance_id master);
      spawn cmd (spawns i) ;;
      pull_from out c role (S i) eps instance_id master spawns
  end.
Definition pull_engine (out : NodeOutside) (c : NodeConfig) (role : PDRole) (eps : list ref) (instance_id : Z) (master : string)
    (spawns : nat → spawned) : M NodeManager unit :=
  mtry (pull_from out c role 0 eps instance_id master spawns) (λ _, mraise RuntimeError).

(** [Daemon.stop]: the processes it counts are killed and forgotten. *)
Definition kill_engines (s : NodeManager) : NodeManager :=
  set_daemon s (mkDaemon [] (started (nm_daemon s)) (killed (nm_daemon s) ++ engine_pids (nm_daemon s))).

(** ** HeartbeatManager *)

Definition start_threads (now : f64) (h : Heartbeat) : Heartbeat :=
  if thread_started h then h
  else mkHeart (hb_job_name h) (hb_role h) (hb_instance_id h) (hb_endpoints h) true (Some now) (is_within_grace_period h)
         (consecutive_abnormal_count h) (should_suicide h).

(** [update_endpoint]: the instance of the command, the count and the flag reset. *)
Definition update_endpoint (cmd : StartCmdMsg) (refs : list ref) (h : Heartbeat) : Heartbeat :=
  mkHeart (sc_job_name cmd) (sc_role cmd) (sc_instance_id cmd) refs (thread_started h) (start_time h) (is_within_grace_period h) 0 false.

Definition set_hb_endpoints (h : Heartbeat) l : Heartbeat :=
  mkHeart (hb_job_name h) (hb_role h) (hb_instance_id h) l (thread_started h) (start_time h) (is_within_grace_period h)
    (consecutive_abnormal_count h) (should_suicide h).
Definition set_grace (h : Heartbeat) g : Heartbeat :=
  mkHeart (hb_job_name h) (hb_role h) (hb_instance_id h) (hb_endpoints h) (thread_started h) (start_time h) g
    (consecutive_abnormal_count h) (should_suicide h).
Definition set_abnormal (h : Heartbeat) n flag : Heartbeat :=
  mkHeart (hb_job_name h) (hb_role h) (hb_instance_id h) (hb_endpoints h) (thread_started h) (start_time h) (is_within_grace_period h) n flag.

Definition modify_hb (f : Heartbeat → Heartbeat) : M NodeManager unit := mmodify (λ s, set_heart s (f (nm_hb s))).

Definition check_all_endpoints_normal (s : NodeManager) : bool :=
  forallb (λ r, bool_decide (ep_status (nm_heap s r) = EP_NORMAL)) (hb_endpoints (nm_hb s)).

(** [EndpointStatus(v)]. *)
Definition EndpointStatus_of_json (v : json) : py EndpointStatus :=
  match v with
  | JStr s =>
      if decide (s = "initial"%string) then Ret EP_INITIAL else if decide (s = "normal"%string) then Ret EP_NORMAL
      else if decide (s = "abnormal"%string) then Ret EP_ABNORMAL else if decide (s = "paused"%string) then Ret EP_PAUSED
      else if decide (s = "wait2start"%string) then Ret EP_WAIT2START else Raise ValueError
  | _ => Raise ValueError
  end.

(** The status detected from the answer of an engine, or from the exception of the query. *)
Definition detected_status (response : py json) : EndpointStatus :=
  match response with
  | Ret (JObj d) =>
      match dget d "status" with
      | Some v => match EndpointStatus_of_json v with Ret st => st | Raise _ => EP_ABNORMAL end
      | None => EP_ABNORMAL
      end
  | _ => EP_ABNORMAL
  end.

(** [_get_engine_server_status]: the snapshot and the grace period, one query of each
    endpoint, and the new list. *)
Definition scan_begin (now : f64) : M NodeManager unit := mmodify (λ s,
  let h := nm_hb s in
  let grace := match start_time h with
               | Some t => if is_within_grace_period h then flt (fsub now t) (f_of_Z 60) else false
               | None => is_within_grace_period h
               end in
  set_scan (set_heart s (set_grace h grace)) (Some (hb_endpoints h, []))).

Definition scan_one (response : py json) : M NodeManager unit := mmodify (λ s,
  match nm_scan s with
  | Some (r :: todo, seen) =>
      let detected := detected_status response in
      let e := nm_heap s r in
      let st := if is_within_grace_period (nm_hb s) && bool_decide (detected = EP_ABNORMAL) then ep_status e else detected in
      set_scan (set_heap s (heap_set (nm_heap s) r (set_ep_status e st)) (nm_next s)) (Some (todo, seen ++ [r]))
  | _ => s
  end).

Definition scan_commit : M NodeManager unit := mmodify (λ s,
  match nm_scan s with
  | Some ([], seen) => set_scan (set_heart s (set_hb_endpoints (nm_hb s) seen)) None
  | _ => s
  end).

(** The whole of [_get_engine_server_status], undisturbed. *)
Definition get_engine_server_status (now : f64) (responses : list (py json)) : M NodeManager unit :=
  scan_begin now ;; mfor responses scan_one ;; scan_commit.

(** One round of [_report_heartbeat_loop]: what is read of the endpoints, then the report.
    The controller takes it, or the exception of the call has "503" in its text, or
    another exception ends the call. *)
Inductive report_outcome := ReportTaken | ReportUnavailable (reregister_accepted : bool) | ReportFails.

Definition collect_report : M NodeManager unit := mmodify (λ s,
  let eps := map (nm_heap s) (hb_endpoints (nm_hb s)) in
  set_report s (Some (mkReport (existsb (λ e, bool_decide (ep_status e = EP_ABNORMAL)) eps)
                        (fold_left (λ d e, dset d (ep_id e) (ep_status e)) eps [])))).

(** The count of consecutive abnormal heartbeats, and the flag at the fifth. *)
Definition count_report (abnormal : bool) (h : Heartbeat) : Heartbeat :=
  if abnormal then
    let n := consecutive_abnormal_count h + 1 in set_abnormal h n (if 5 <=? n then true else should_suicide h)
  else set_abnormal h 0 (should_suicide h).

(** The message has the pod address as text: without one the round ends in an exception. *)
Definition send_report (x : report_outcome) : M NodeManager unit :=
  s ← mget;
  match nm_report s with
  | None => mret tt
  | Some rp =>
      mmodify (λ s, set_report s None) ;;
      match nc_pod_ip (nm_config s) with
      | None => mret tt
      | Some ip =>
          match x with
          | ReportTaken =>
              mmodify (λ s, tell s (XHeartbeat (hb_job_name (nm_hb s)) (mkHb (hb_instance_id (nm_hb s)) ip (endpoint_status_list rp)))) ;;
              modify_hb (count_report (has_abnormal rp))
          | ReportUnavailable accepted => post_reregister_msg accepted ;; mret tt
          | ReportFails => mret tt
          end
      end
  end.

(** ** The handlers of the node manager's API *)

(** The effects of a start command once its engines run. *)
Definition commit_start (cmd : StartCmdMsg) (refs : list ref) (now : f64) (s : NodeManager) : NodeManager :=
  tell (set_heart s (start_threads now (update_endpoint cmd refs (nm_hb s)))) (XStart cmd).

(** [start_instance], for a payload that may not be a start command. *)
Definition start_instance (out : NodeOutside) (daemon_config : NodeConfig) (payload : option StartCmdMsg) (spawns : nat → spawned)
    : M NodeManager unit :=
  match payload with
  | None => mraise (HTTPException 500)
  | Some cmd =>
      refs ← new_endpoints (sc_endpoints cmd);
      parsed_ok ← parse_start_cmd out cmd refs;
      if parsed_ok : bool then
        mtry (role ← mlift (PDRole_of_string (sc_role cmd));
              pull_engine out daemon_config role refs (sc_instance_id cmd) (sc_master_dp_ip cmd) spawns)
             (λ _, mraise (HTTPException 500)) ;;
        mmodify (commit_start cmd refs (clock out))
      else mraise (HTTPException 422)
  end.

Definition stop_instance : M NodeManager unit := mmodify kill_engines.
Definition get_instance_status : M NodeManager bool := s ← mget; mret (check_all_endpoints_normal s).

(** [reload] replaces every field of the configuration that the engine manager reads; the
    file's modification time is left out. *)
Definition reload_config (env : NodeEnv) (raw : json) : M NodeManager unit := mmodify (λ s,
  let c := (config_reload env (nm_config s) None 0 raw).1.2 in
  mkNode c (nm_heap s) (nm_next s) (nm_em s) (nm_daemon s) (nm_hb s) (nm_scan s) (nm_report s) (nm_history s)).

(** ** Interleaved steps

    The status thread begins a scan when it has ended the one before. *)

Inductive nm_op :=
| OReceive (eps : list Endpoint)
| OParse (out : NodeOutside) (cmd : StartCmdMsg) (refs : list ref)
| OEngine (pid : Z) (cmd : EngineCmd)
| OCommit (cmd : StartCmdMsg) (refs : list ref) (now : f64)
| OStop
| OScanBegin (now : f64)
| OScanOne (response : py json)
| OScanCommit
| OCollect
| OReport (x : report_outcome)
| ORegister (out : NodeOutside) (attempts : nat → bool)
| OReload (env : NodeEnv) (raw : json).

Definition nm_step (o : nm_op) (s : NodeManager) : NodeManager :=
  match o with
  | OReceive eps => (new_endpoints eps s).1
  | OParse out cmd refs => (parse_start_cmd out cmd refs s).1
  | OEngine pid cmd => add_engine pid cmd s
  | OCommit cmd refs now => commit_start cmd refs now s
  | OStop => (stop_instance s).1
  | OScanBegin now => match nm_scan s with None => (scan_begin now s).1 | Some _ => s end
  | OScanOne response => (scan_one response s).1
  | OScanCommit => (scan_commit s).1
  | OCollect => (collect_report s).1
  | OReport x => (send_report x s).1
  | ORegister out attempts => (register_node out attempts s).1
  | OReload env raw => (reload_config env raw s).1
  end.
Definition nm_run (s : NodeManager) (ops : list nm_op) : NodeManager := fold_left (λ s o, nm_step o s) ops s.

(** ** Lemmas *)

(** *** The heap *)

Lemma alloc_old eps : ∀ h next r, (r < next)%nat → alloc h next eps r = h r.
Proof.
  induction eps as [|e eps IH]; intros h next r Hr; simpl; [done|]. rewrite IH by lia. unfold heap_set. by rewrite decide_False by lia.
Qed.

Lemma alloc_new eps : ∀ h next, map (alloc h next eps) (seq next (length eps)) = eps.
Proof.
  induction eps as [|e eps IH]; intros h next; simpl; [done|]. f_equal; [|apply IH].
  rewrite alloc_old by lia. unfold heap_set. by rewrite decide_True.
Qed.

Definition ids_of (s : NodeManager) (l : list ref) : list Z := map (λ r, ep_id (nm_heap s r)) l.
(** References to objects that exist, with distinct endpoint ids. *)
Definition refs_ok (s : NodeManager) (l : list ref) : Prop := Forall (λ r, (r < nm_next s)%nat) l ∧ NoDup (ids_of s l).

(** A step changes no id of an object that exists, and forgets none. *)
Definition grows (s s' : NodeManager) : Prop :=
  (nm_next s <= nm_next s')%nat ∧ ∀ r, (r < nm_next s)%nat → ep_id (nm_heap s' r) = ep_id (nm_heap s r).

Lemma grows_same s s' : nm_heap s' = nm_heap s → nm_next s' = nm_next s → grows s s'.
Proof. intros H1 H2. split; [lia|]. intros r _. by rewrite H1. Qed.

Lemma refs_ok_grows s s' l : grows s s' → refs_ok s l → refs_ok s' l.
Proof.
  intros [H1 H2] [H3 H4]. split; [eapply Forall_impl; [exact H3|]; intros r Hr; cbn in Hr; lia|].
  unfold ids_of. rewrite (map_ext_in (λ r, ep_id (nm_heap s' r)) (λ r, ep_id (nm_heap s r))); [done|].
  intros r Hr. apply H2. rewrite Forall_forall in H3. apply H3. by apply list_elem_of_In.
Qed.

(** *** What the steps leave alone *)

(** Read the fields of an updated state. *)
Ltac node_in H := cbn [fst nm_config nm_heap nm_next nm_em nm_daemon nm_hb nm_scan nm_report nm_history
  set_em set_daemon set_heart set_scan set_report set_heap tell] in H.
Ltac node := cbn [fst nm_config nm_heap nm_next nm_em nm_daemon nm_hb nm_scan nm_report nm_history
  set_em set_daemon set_heart set_scan set_report set_heap tell].

Lemma parse_start_cmd_same out cmd refs s :
  let s' := (parse_start_cmd out cmd refs s).1 in
  nm_heap s' = nm_heap s ∧ nm_next s' = nm_next s ∧ nm_hb s' = nm_hb s ∧ nm_scan s' = nm_scan s ∧ nm_report s' = nm_report s ∧
  nm_history s' = nm_history s ∧ nm_daemon s' = nm_daemon s.
Proof. unfold parse_start_cmd, mget, mbind, M_bind. by destruct (check_cmd_para (nm_config s) cmd). Qed.

Lemma post_register_same out ok s :
  let s' := (post_register_msg out ok s).1 in
  nm_heap s' = nm_heap s ∧ nm_next s' = nm_next s ∧ nm_hb s' = nm_hb s ∧ nm_scan s' = nm_scan s ∧ nm_report s' = nm_report s ∧
  nm_daemon s' = nm_daemon s ∧ ∃ new, nm_history s' = nm_history s ++ new ∧ Forall (λ x, ∃ m, x = XRegister m) new.
Proof.
  unfold post_register_msg, mget, mlift, mbind, M_bind. destruct (gen_register_msg out (nm_config s)) as [[msg|]|e]; cbn; [destruct ok; cbn|..]; split_and!; try done.
  1: { exists [XRegister msg]. split; [done|]. apply Forall_singleton. by eexists. }
  all: exists []; by rewrite app_nil_r.
Qed.

Lemma register_loop_same out attempts n : ∀ i k slept s,
  let s' := (register_loop out i n k attempts slept s).1 in
  nm_heap s' = nm_heap s ∧ nm_next s' = nm_next s ∧ nm_hb s' = nm_hb s ∧ nm_scan s' = nm_scan s ∧ nm_report s' = nm_report s ∧
  nm_daemon s' = nm_daemon s ∧ ∃ new, nm_history s' = nm_history s ++ new ∧ Forall (λ x, ∃ m, x = XRegister m) new.
Proof.
  induction n as [|n IH]; intros i k slept s; cbn [register_loop].
  { split_and!; try done. exists []. by rewrite app_nil_r. }
  pose proof (post_register_same out (attempts i) s) as Hp. cbv zeta in Hp |- *.
  destruct (post_register_msg out (attempts i) s) as [s1 [b|e]] eqn:E; cbn [fst] in Hp;
    [rewrite !(M_bind_Ret _ _ _ _ _ E)|by rewrite !(M_bind_Raise _ _ _ _ _ E)].
  destruct b; [done|]. destruct n as [|n]; [done|].
  specialize (IH (S i) (k * 2) (slept ++ [k]) s1). cbv zeta in IH.
  destruct IH as (-> & -> & -> & -> & -> & -> & new & -> & Hnew), Hp as (-> & -> & -> & -> & -> & -> & new1 & -> & Hnew1).
  split_and!; try done. exists (new1 ++ new). rewrite app_assoc. split; [done|]. by apply Forall_app.
Qed.

(** Steps that change neither the endpoints nor the heartbeats. *)
Definition silent (x : exchange) : Prop := match x with XRegister _ | XReregister _ => True | _ => False end.
Definition quiet (s s' : NodeManager) : Prop :=
  nm_heap s' = nm_heap s ∧ nm_next s' = nm_next s ∧ nm_hb s' = nm_hb s ∧ nm_scan s' = nm_scan s ∧ nm_report s' = nm_report s ∧
  ∃ new, nm_history s' = nm_history s ++ new ∧ Forall silent new.

Lemma quiet_same s s' :
  nm_heap s' = nm_heap s → nm_next s' = nm_next s → nm_hb s' = nm_hb s → nm_scan s' = nm_scan s → nm_report s' = nm_report s →
  nm_history s' = nm_history s → quiet s s'.
Proof. intros. split_and!; try done. exists []. by rewrite app_nil_r. Qed.

Definition is_quiet (o : nm_op) : bool :=
  match o with OParse _ _ _ | OEngine _ _ | OStop | ORegister _ _ | OReload _ _ => true | _ => false end.

Lemma quiet_step o s : is_quiet o = true → quiet s (nm_step o s).
Proof.
  destruct o; intros Hq; try done; cbn [nm_step].
  - destruct (parse_start_cmd_same out cmd refs s) as (H1 & H2 & H3 & H4 & H5 & H6 & _).
    by apply quiet_same.
  - by apply quiet_same.
  - by apply quiet_same.
  - destruct (register_loop_same out attempts 5 0 2 [] s) as (H1 & H2 & H3 & H4 & H5 & _ & new & H6 & Hn).
    split_and!; try done. exists new. split; [done|]. eapply Forall_impl; [exact Hn|]. by intros x [m ->].
  - by apply quiet_same.
Qed.

Lemma quiet_reregister ok s : quiet s (post_reregister_msg ok s).1.
Proof.
  unfold post_reregister_msg, mget, mlift, mbind, M_bind.
  destruct (gen_reregister_msg s) as [[msg|]|e]; cbn; [destruct ok; cbn|..]; try by apply quiet_same.
  split_and!; try done. exists [XReregister msg]. split; [done|]. by apply Forall_singleton.
Qed.

(** *** Reports since the last start *)

Definition is_abnormal (st : EndpointStatus) : bool := bool_decide (st = EP_ABNORMAL).
Definition message_abnormal (m : HeartbeatMsg) : bool := existsb is_abnormal (dvalues (hb_status m)).
Definition report_step (l : list bool) (x : exchange) : list bool :=
  match x with XStart _ => [] | XHeartbeat _ m => l ++ [message_abnormal m] | _ => l end.
(** For each heartbeat the controller took since the last start command, oldest first,
    whether it names an abnormal endpoint. *)
Definition reports (h : list exchange) : list bool := fold_left report_step h [].
Definition five_in_a_row (l : list bool) : Prop := ∃ l1 l2, l = l1 ++ replicate 5 true ++ l2.

Lemma reports_snoc h x : reports (h ++ [x]) = report_step (reports h) x.
Proof. unfold reports. by rewrite fold_left_app. Qed.
Lemma reports_silent h new : Forall silent new → reports (h ++ new) = reports h.
Proof.
  intros H. unfold reports. rewrite fold_left_app. generalize (fold_left report_step h []) as l.
  induction H as [|x new Hx _ IH]; intros l; simpl; [done|]. by destruct x; rewrite IH.
Qed.

Definition streak (l : list bool) : Z := fold_left (λ n (b : bool), if b then n + 1 else 0) l 0.
Lemma streak_snoc l b : streak (l ++ [b]) = if b then streak l + 1 else 0.
Proof. unfold streak. by rewrite fold_left_app. Qed.

Lemma streak_suffix n : ∀ l, Z.of_nat n <= streak l ↔ ∃ l1, l = l1 ++ replicate n true.
Proof.
  induction n as [|n IH]; intros l.
  - split; [intros _; exists l; by rewrite app_nil_r|]. intros _. unfold streak.
    assert (∀ l k, 0 <= k → 0 <= fold_left (λ n (b : bool), if b then n + 1 else 0) l k) as H; [|by apply H].
    clear l. induction l as [|[] l IH]; intros k Hk; simpl; [done|apply IH; lia|by apply IH].
  - destruct l as [|b l _] using rev_ind.
    { split; [unfold streak; cbn; lia|]. intros [l1 H]. symmetry in H. apply app_eq_nil in H as [_ H]. discriminate H. }
    rewrite streak_snoc. destruct b.
    + transitivity (Z.of_nat n <= streak l); [lia|]. rewrite IH. split.
      * intros [l1 ->]. exists l1. by rewrite <- app_assoc, <- replicate_S_end.
      * intros [l1 H]. exists l1. rewrite replicate_S_end, app_assoc in H. by apply app_inj_tail in H as [-> _].
    + split; [lia|]. intros [l1 H]. rewrite replicate_S_end, app_assoc in H. by apply app_inj_tail in H as [_ H].
Qed.

Lemma five_snoc l b : five_in_a_row (l ++ [b]) ↔ five_in_a_row l ∨ 5 <= streak (l ++ [b]).
Proof.
  change 5 with (Z.of_nat 5). rewrite streak_suffix. split.
  - intros (l1 & l2 & H). destruct l2 as [|b2 l2 _] using rev_ind.
    + right. exists l1. by rewrite H, app_nil_r.
    + left. rewrite !app_assoc in H. apply app_inj_tail in H as [-> _]. exists l1, l2. by rewrite <- app_assoc.
  - intros [(l1 & l2 & ->)|[l1 ->]]; [exists l1, (l2 ++ [b])|exists l1, []]; by rewrite ?app_nil_r, <- ?app_assoc.
Qed.

Lemma five_nil : ¬ five_in_a_row [].
Proof. intros (l1 & l2 & H). symmetry in H. apply app_eq_nil in H as [_ H]. discriminate H. Qed.

(** What a heartbeat carries names an abnormal endpoint iff one was read. *)
Lemma statuses_dset (eps : list Endpoint) : ∀ d,
  NoDup (dkeys d ++ map ep_id eps) →
  fold_left (λ d e, dset d (ep_id e) (ep_status e)) eps d = d ++ map (λ e, (ep_id e, ep_status e)) eps.
Proof.
  induction eps as [|e eps IH]; intros d Hn; cbn [fold_left map]; [by rewrite app_nil_r|].
  cbn [map] in Hn. assert (dget d (ep_id e) = None) as Hnone.
  { apply dget_None_keys. intros Hin. apply NoDup_app in Hn as (_ & Hd & _). apply (Hd _ Hin). left. }
  rewrite dset_new by done. rewrite IH; [by rewrite <- app_assoc|].
  unfold dkeys in *. rewrite fmap_app, <- app_assoc. exact Hn.
Qed.

Lemma collected_abnormal (eps : list Endpoint) :
  NoDup (map ep_id eps) →
  existsb is_abnormal (dvalues (fold_left (λ d e, dset d (ep_id e) (ep_status e)) eps [])) = existsb (λ e, is_abnormal (ep_status e)) eps.
Proof.
  intros Hn. rewrite statuses_dset by done. rewrite app_nil_l. unfold dvalues. clear Hn.
  induction eps as [|e eps IH]; [done|]. cbn. by rewrite <- IH.
Qed.

(** *** The heartbeats and the flag *)

Definition report_ok (rp : Report) : Prop := has_abnormal rp = existsb is_abnormal (dvalues (endpoint_status_list rp)).
Definition in_scan (s : NodeManager) : list ref := match nm_scan s with Some (todo, seen) => seen ++ todo | None => [] end.

Record nm_inv (s : NodeManager) : Prop := {
  inv_monitored : refs_ok s (hb_endpoints (nm_hb s));
  inv_scanned : refs_ok s (in_scan s);
  inv_report : match nm_report s with Some rp => report_ok rp | None => True end;
  inv_count : consecutive_abnormal_count (nm_hb s) = streak (reports (nm_history s));
  inv_flag : should_suicide (nm_hb s) = true ↔ five_in_a_row (reports (nm_history s))
}.

(** A start command is committed for objects that exist, with distinct endpoint ids. *)
Definition op_ok (s : NodeManager) (o : nm_op) : Prop := match o with OCommit _ refs _ => refs_ok s refs | _ => True end.

Lemma refs_ok_nil s : refs_ok s [].
Proof. split; constructor. Qed.

Lemma nm_inv_init c : nm_inv (NodeManager_init c).
Proof.
  constructor; try done; [apply refs_ok_nil..|].
  split; [done|]. intros H. by apply five_nil in H.
Qed.

Lemma nm_inv_quiet s s' : quiet s s' → nm_inv s → nm_inv s'.
Proof.
  intros (H1 & H2 & H3 & H4 & H5 & new & H6 & Hn) []. assert (grows s s') as Hg by by apply grows_same.
  constructor; unfold in_scan; rewrite ?H3, ?H4, ?H5, ?H6, ?(reports_silent _ new Hn); try done; by eapply refs_ok_grows.
Qed.

Lemma nm_inv_grows s s' :
  grows s s' → nm_scan s' = nm_scan s → nm_report s' = nm_report s → nm_history s' = nm_history s → nm_hb s' = nm_hb s → nm_inv s → nm_inv s'.
Proof.
  intros Hg H1 H2 H3 H4 []. constructor; unfold in_scan; rewrite ?H1, ?H2, ?H3, ?H4; try done; by eapply refs_ok_grows.
Qed.

Lemma count_report_flag abnormal h :
  (should_suicide (count_report abnormal h) = true ↔ should_suicide h = true ∨ abnormal = true ∧ 5 <= consecutive_abnormal_count h + 1) ∧
  consecutive_abnormal_count (count_report abnormal h) = (if abnormal then consecutive_abnormal_count h + 1 else 0) ∧
  hb_endpoints (count_report abnormal h) = hb_endpoints h.
Proof.
  unfold count_report. destruct abnormal; cbn -[Z.leb Z.add]; (split; [|done]).
  - destruct (5 <=? _) eqn:E; [apply Z.leb_le in E|apply Z.leb_gt in E]; (split; [auto|]); [done|]. intros [H|[_ H]]; [done|lia].
  - split; [by left|]. by intros [H|[[=] _]].
Qed.

Lemma nm_inv_report x s : nm_inv s → nm_inv (send_report x s).1.
Proof.
  intros Hs. unfold send_report. erewrite M_bind_Ret by reflexivity. destruct (nm_report s) as [rp|] eqn:Er; [|done].
  erewrite M_bind_Ret by reflexivity. set (s1 := set_report s None).
  assert (nm_inv s1) as Hs1 by (destruct Hs; by constructor).
  destruct (nc_pod_ip (nm_config s)) as [ip|]; [|done]. destruct x as [|ok|]; [| |done].
  - pose proof (inv_report s Hs) as Hr. rewrite Er in Hr. destruct Hs1 as [H1 H2 H3 H4 H5]. unfold s1 in H4, H5. node_in H4. node_in H5.
    set (m := mkHb (hb_instance_id (nm_hb s)) ip (endpoint_status_list rp)). assert (message_abnormal m = has_abnormal rp) as Hm by (symmetry; exact Hr).
    destruct (count_report_flag (has_abnormal rp) (nm_hb s)) as (Hf & Hc & He).
    change (nm_inv (set_heart (tell (set_report s None) (XHeartbeat (hb_job_name (nm_hb s)) m)) (count_report (has_abnormal rp) (nm_hb s)))).
    constructor; node; rewrite ?reports_snoc; cbn [report_step]; rewrite ?Hm, ?Hc, ?Hf, ?He; node.
    + exact H1.
    + exact H2.
    + done.
    + rewrite streak_snoc. by rewrite <- H4.
    + rewrite five_snoc, streak_snoc, <- H4, H5. destruct (has_abnormal rp); [tauto|].
      split; [intros [?|[? _]]; [by left|done]|intros [?|?]; [by left|lia]].
  - apply (nm_inv_quiet s1); [|done]. pose proof (quiet_reregister ok s1) as Hq. revert Hq.
    unfold mbind, M_bind. fold s1. destruct (post_reregister_msg ok s1) as [s2 [b|e]]; intros Hq; exact Hq.
Qed.

Lemma nm_inv_receive eps s : nm_inv s → nm_inv (new_endpoints eps s).1.
Proof.
  apply nm_inv_grows; try done. split; [unfold new_endpoints; node; lia|].
  intros r Hr. unfold new_endpoints. node. by rewrite alloc_old.
Qed.

Lemma nm_inv_commit cmd refs now s : refs_ok s refs → nm_inv s → nm_inv (commit_start cmd refs now s).
Proof.
  intros Hr [H1 H2 H3 _ _]. unfold commit_start, start_threads.
  constructor; node; rewrite ?reports_snoc; cbn [report_step]; destruct (thread_started (update_endpoint cmd refs (nm_hb s))); try done.
  all: split; [done|]; intros H; by apply five_nil in H.
Qed.

Lemma nm_inv_scan_begin now s : nm_inv s → nm_inv (scan_begin now s).1.
Proof. intros [H1 H2 H3 H4 H5]. unfold scan_begin, mmodify. constructor; node; done. Qed.

Lemma nm_inv_scan_one x s : nm_inv s → nm_inv (scan_one x s).1.
Proof.
  intros Hs. unfold scan_one, mmodify. node. destruct (nm_scan s) as [[[|r todo] seen]|] eqn:E; [done| |done].
  set (st := if _ && _ then _ else _). set (s1 := set_heap s (heap_set (nm_heap s) r (set_ep_status (nm_heap s r) st)) (nm_next s)).
  assert (grows s s1) as Hg.
  { split; [done|]. intros r' _. unfold s1, heap_set. node. by case_decide as Heq; [rewrite Heq|]. }
  assert (nm_inv s1) as [H1 H2 H3 H4 H5] by by apply (nm_inv_grows s s1).
  constructor; try done. unfold in_scan in *. change (nm_scan s1) with (nm_scan s) in H2. rewrite E in H2. node. by rewrite <- app_assoc.
Qed.

Lemma nm_inv_scan_commit s : nm_inv s → nm_inv (scan_commit s).1.
Proof.
  intros [H1 H2 H3 H4 H5]. unfold scan_commit, mmodify. node. unfold in_scan in H2.
  destruct (nm_scan s) as [[[|r todo] seen]|] eqn:E; try by constructor; unfold in_scan; rewrite ?E.
  rewrite app_nil_r in H2. constructor; node; try done. apply refs_ok_nil.
Qed.

Lemma nm_inv_step o s : op_ok s o → nm_inv s → nm_inv (nm_step o s).
Proof.
  intros Ho Hs. destruct (is_quiet o) eqn:Hq; [eapply nm_inv_quiet; [by apply quiet_step|done]|].
  destruct o; try done; cbn [nm_step].
  - by apply nm_inv_receive.
  - by apply nm_inv_commit.
  - destruct (nm_scan s); [done|]. by apply nm_inv_scan_begin.
  - by apply nm_inv_scan_one.
  - by apply nm_inv_scan_commit.
  - pose proof (inv_monitored s Hs) as [_ Hn]. destruct Hs as [H1 H2 H3 H4 H5]. unfold collect_report, mmodify. constructor; node; try done.
    unfold report_ok. cbn [has_abnormal endpoint_status_list]. rewrite collected_abnormal; [done|]. by rewrite map_map.
  - by apply nm_inv_report.
Qed.

(** The states a node manager reaches from its creation. *)
Inductive nm_reach (c : NodeConfig) : NodeManager → Prop :=
| reach_init : nm_reach c (NodeManager_init c)
| reach_step s o : nm_reach c s → op_ok s o → nm_reach c (nm_step o s).

Lemma reach_inv c s : nm_reach c s → nm_inv s.
Proof. induction 1 as [|s o _ IH Ho]; [apply nm_inv_init|by apply nm_inv_step]. Qed.

(** *** A scan and a start command *)

Definition commits (o : nm_op) : bool := match o with OCommit _ _ _ => true | _ => false end.

Lemma send_report_monitored x s :
  let s' := (send_report x s).1 in
  hb_instance_id (nm_hb s') = hb_instance_id (nm_hb s) ∧ hb_endpoints (nm_hb s') = hb_endpoints (nm_hb s) ∧ nm_scan s' = nm_scan s.
Proof.
  unfold send_report. erewrite M_bind_Ret by reflexivity. destruct (nm_report s) as [rp|]; [|done].
  erewrite M_bind_Ret by reflexivity. destruct (nc_pod_ip _) as [ip|]; [|done]. destruct x as [|ok|]; [| |done].
  - unfold count_report. cbn. by destruct (has_abnormal rp).
  - destruct (quiet_reregister ok (set_report s None)) as (_ & _ & H3 & H4 & _). revert H3 H4.
    unfold mbind, M_bind. destruct (post_reregister_msg ok _) as [s2 [b|e]]; intros H3 H4; cbn in *; by rewrite H3, H4.
Qed.

(** Steps other than a start command keep what is monitored, or put what was scanned there. *)
Lemma step_monitored o s :
  commits o = false →
  let s' := nm_step o s in
  hb_instance_id (nm_hb s') = hb_instance_id (nm_hb s) ∧
  ((hb_endpoints (nm_hb s') = hb_endpoints (nm_hb s) ∧
    match nm_scan s with
    | None => nm_scan s' = None ∨ nm_scan s' = Some (hb_endpoints (nm_hb s), [])
    | Some _ => is_Some (nm_scan s') ∧ in_scan s' = in_scan s
    end) ∨
   (is_Some (nm_scan s) ∧ nm_scan s' = None ∧ hb_endpoints (nm_hb s') = in_scan s)).
Proof.
  intros Hc. destruct (is_quiet o) eqn:Hq.
  { destruct (quiet_step o s Hq) as (_ & _ & H3 & H4 & _). unfold in_scan. rewrite H3, H4. split; [done|]. left. split; [done|].
    destruct (nm_scan s); [by split|by left]. }
  destruct o; try done; unfold in_scan; cbn [nm_step].
  - split; [done|]. left. split; [done|]. destruct (nm_scan s) eqn:E; cbn; rewrite E; [by split|by left].
  - destruct (nm_scan s) as [p|] eqn:E; [rewrite ?E; split; [done|]; left; split; [done|]; rewrite ?E; by split|].
    split; [done|]. left. split; [done|]. by right.
  - unfold scan_one, mmodify. destruct (nm_scan s) as [[[|r todo] seen]|] eqn:E; node; rewrite ?E; (split; [done|]); left; (split; [done|]); auto.
    split; [done|]. by rewrite <- app_assoc.
  - unfold scan_commit, mmodify. destruct (nm_scan s) as [[[|r todo] seen]|] eqn:E; node; rewrite ?E; (split; [done|]); [right|left..].
    + by rewrite app_nil_r.
    + split; [done|]. by split.
    + split; [done|]. by left.
  - split; [done|]. left. split; [done|]. destruct (nm_scan s) eqn:E; cbn; rewrite E; [by split|by left].
  - destruct (send_report_monitored x s) as (-> & -> & ->).
    split; [done|]. left. split; [done|]. destruct (nm_scan s); [by split|by left].
Qed.

(** What is monitored until the next start command: what the scan in flight ends with. *)
Lemma monitored_run refs l ops : ∀ s,
  forallb (λ o, negb (commits o)) ops = true →
  (is_Some (nm_scan s) ∧ in_scan s = l ∧ hb_endpoints (nm_hb s) = refs) ∨
  (hb_endpoints (nm_hb s) = l ∧ (nm_scan s = None ∨ in_scan s = l)) →
  let s' := nm_run s ops in
  hb_instance_id (nm_hb s') = hb_instance_id (nm_hb s) ∧ (nm_scan s' = None → hb_endpoints (nm_hb s') = l).
Proof.
  induction ops as [|o ops IH]; intros s Hops Hs; cbn [nm_run fold_left].
  { split; [done|]. intros Hn. destruct Hs as [([x Hx] & _)|[H _]]; [by rewrite Hn in Hx|done]. }
  cbn [forallb] in Hops. apply andb_true_iff in Hops as [Ho Hops]. apply negb_true_iff in Ho.
  destruct (step_monitored o s Ho) as [Hid Hstep]. rewrite <- Hid. apply IH; [done|].
  destruct Hstep as [[Hh Hscan]|(Hsome & Hnone & Hh)].
  - destruct Hs as [(Hsome & Hl & Hr)|[Hl Hn]].
    + destruct (nm_scan s) as [p|]; [|by destruct Hsome]. destruct Hscan as [H1 H2]. left. split_and!; congruence.
    + right. split; [congruence|]. destruct (nm_scan s) as [p|] eqn:Es.
      * destruct Hscan as [H1 H2]. right. destruct Hn as [[=]|Hn]. congruence.
      * destruct Hscan as [H1|H1]; [by left|right]. unfold in_scan. rewrite H1. by rewrite app_nil_l.
  - right. rewrite Hh. split; [|by left]. destruct Hs as [(_ & Hl & _)|[Hl [Hn|Hn]]]; [done| |done]. destruct Hsome as [p Hp]. by rewrite Hn in Hp.
Qed.

(** *** The grace period *)

Definition healthy (h : ref → Endpoint) : Prop := ∀ r, is_abnormal (ep_status (h r)) = false.

(** A scan that starts within a minute of the start of the threads. *)
Definition within_minute (s : NodeManager) (now : f64) : Prop :=
  match start_time (nm_hb s) with Some t => flt (fsub now t) (f_of_Z 60) = true | None => True end.
Definition op_young (s : NodeManager) (o : nm_op) : Prop :=
  match o with
  | OScanBegin now => within_minute s now
  | OReceive eps => Forall (λ e, is_abnormal (ep_status e) = false) eps
  | _ => True
  end.
(** The states reached while every scan starts in that minute; a received endpoint is not
    abnormal. *)
Inductive nm_young (c : NodeConfig) : NodeManager → Prop :=
| young_init : nm_young c (NodeManager_init c)
| young_step s o : nm_young c s → op_young s o → nm_young c (nm_step o s).

Record grace_inv (s : NodeManager) : Prop := {
  gr_period : is_within_grace_period (nm_hb s) = true;
  gr_healthy : healthy (nm_heap s);
  gr_report : match nm_report s with Some rp => has_abnormal rp = false | None => True end;
  gr_count : consecutive_abnormal_count (nm_hb s) = 0;
  gr_flag : should_suicide (nm_hb s) = false
}.

Lemma grace_quiet s s' : quiet s s' → grace_inv s → grace_inv s'.
Proof. intros (H1 & H2 & H3 & H4 & H5 & _) []. constructor; by rewrite ?H1, ?H3, ?H5. Qed.

Lemma alloc_healthy eps : ∀ h next,
  Forall (λ e, is_abnormal (ep_status e) = false) eps → healthy h → healthy (alloc h next eps).
Proof.
  induction eps as [|e eps IH]; intros h next He Hh; simpl; [done|]. apply Forall_cons in He as [He Hes]. apply IH; [done|].
  intros r. unfold heap_set. by case_decide.
Qed.

Lemma grace_scan_one x s : grace_inv s → grace_inv (scan_one x s).1.
Proof.
  intros Hs. unfold scan_one, mmodify. node. destruct (nm_scan s) as [[[|r todo] seen]|] eqn:E; [done| |done].
  destruct Hs as [H1 H2 H3 H4 H5]. constructor; node; try done. intros r'. unfold heap_set. case_decide; [|done].
  rewrite H1. cbn [ep_status set_ep_status andb]. case_bool_decide as Hd; [apply H2|]. unfold is_abnormal. by rewrite bool_decide_false.
Qed.

Lemma grace_report x s : grace_inv s → grace_inv (send_report x s).1.
Proof.
  intros Hs. unfold send_report. erewrite M_bind_Ret by reflexivity. destruct (nm_report s) as [rp|] eqn:Er; [|done].
  erewrite M_bind_Ret by reflexivity. pose proof (gr_report s Hs) as Hr. rewrite Er in Hr.
  assert (grace_inv (set_report s None)) as Hs1 by (destruct Hs; by constructor).
  destruct (nc_pod_ip _) as [ip|]; [|done]. destruct x as [|ok|]; [| |done].
  - unfold count_report. rewrite Hr. destruct Hs1 as [H1 H2 _ H4 H5]. by constructor.
  - pose proof (grace_quiet _ _ (quiet_reregister ok (set_report s None)) Hs1) as Hq. revert Hq.
    unfold mbind, M_bind. destruct (post_reregister_msg ok _) as [s2 [b|e]]; intros Hq; exact Hq.
Qed.

Lemma grace_step o s : op_young s o → grace_inv s → grace_inv (nm_step o s).
Proof.
  intros Ho Hs. destruct (is_quiet o) eqn:Hq; [eapply grace_quiet; [by apply quiet_step|done]|].
  destruct o; try done; cbn [nm_step].
  - destruct Hs. constructor; try done. by apply alloc_healthy.
  - destruct Hs. unfold commit_start, start_threads. destruct (thread_started _); by constructor.
  - destruct (nm_scan s); [done|]. destruct Hs as [H1 H2 H3 H4 H5]. unfold scan_begin, mmodify. constructor; node; try done.
    cbn [op_young] in Ho. unfold within_minute in Ho. rewrite H1. by destruct (start_time (nm_hb s)).
  - by apply grace_scan_one.
  - unfold scan_commit, mmodify. node. destruct (nm_scan s) as [[[|r todo] seen]|]; [|done..]. destruct Hs. by constructor.
  - destruct Hs as [H1 H2 H3 H4 H5]. constructor; try done. unfold collect_report, mmodify. node. cbn [has_abnormal].
    rewrite <- not_true_iff_false, existsb_exists. intros (e & He & Ha). apply in_map_iff in He as (r & <- & _).
    specialize (H2 r). unfold is_abnormal in H2. by rewrite Ha in H2.
  - by apply grace_report.
Qed.

(** *** Engines *)

Definition accounted (s : NodeManager) : Prop := map fst (started (nm_daemon s)) = killed (nm_daemon s) ++ engine_pids (nm_daemon s).

Lemma report_daemon x s : nm_daemon (send_report x s).1 = nm_daemon s.
Proof.
  unfold send_report. erewrite M_bind_Ret by reflexivity. destruct (nm_report s) as [rp|]; [|done].
  erewrite M_bind_Ret by reflexivity. destruct (nc_pod_ip _) as [ip|]; [|done]. destruct x as [|ok|]; [done| |done].
  unfold post_reregister_msg, mget, mlift, mbind, M_bind. destruct (gen_reregister_msg _) as [[msg|]|e]; [|done..]. by destruct ok.
Qed.

Lemma daemon_step o s :
  nm_daemon (nm_step o s) =
    match o with OEngine pid cmd => nm_daemon (add_engine pid cmd s) | OStop => nm_daemon (kill_engines s) | _ => nm_daemon s end.
Proof.
  destruct o; cbn [nm_step]; try reflexivity.
  - by destruct (parse_start_cmd_same out cmd refs s) as (_ & _ & _ & _ & _ & _ & ->).
  - by destruct (nm_scan s).
  - unfold scan_one, mmodify. node. by destruct (nm_scan s) as [[[|r todo] seen]|].
  - unfold scan_commit, mmodify. node. by destruct (nm_scan s) as [[[|r todo] seen]|].
  - by rewrite report_daemon.
  - unfold register_node. by destruct (register_loop_same out attempts 5 0 2 [] s) as (_ & _ & _ & _ & _ & -> & _).
Qed.
Lemma accounted_step o s : accounted s → accounted (nm_step o s).
Proof.
  intros Hs. unfold accounted in *. rewrite daemon_step. destruct o; try exact Hs.
  - unfold add_engine. node. cbn [started killed engine_pids]. by rewrite map_app, Hs, <- app_assoc.
  - unfold kill_engines. node. cbn [started killed engine_pids]. by rewrite app_nil_r.
Qed.

Lemma accounted_run ops : ∀ s, accounted s → accounted (nm_run s ops).
Proof. induction ops as [|o ops IH]; intros s Hs; [done|]. apply IH. by apply accounted_step. Qed.

Section start.
Context (out : NodeOutside) (dc : NodeConfig) (cmd : StartCmdMsg) (role : PDRole) (spawns : nat → spawned).

(** The [i]-th engine of the command gets its arguments and runs. *)
Definition runs (i : nat) (x : Z * EngineCmd) : Prop :=
  ∃ e, sc_endpoints cmd !! i = Some e ∧
    engine_cmd out dc role (Z.of_nat i) e (sc_instance_id cmd) (sc_master_dp_ip cmd) = Ret x.2 ∧ spawns i = SpawnRuns x.1.

Definition add_engines (l : list (Z * EngineCmd)) (s : NodeManager) : NodeManager := fold_left (λ s x, add_engine x.1 x.2 s) l s.

Lemma add_engines_daemon l : ∀ s,
  nm_daemon (add_engines l s) = mkDaemon (engine_pids (nm_daemon s) ++ map fst l) (started (nm_daemon s) ++ l) (killed (nm_daemon s)).
Proof.
  induction l as [|[pid c] l IH]; intros s; cbn [add_engines fold_left]; [rewrite !app_nil_r; by destruct (nm_daemon s)|].
  etransitivity; [apply IH|]. unfold add_engine. node. cbn [engine_pids started killed map fst snd]. by rewrite <- !app_assoc.
Qed.
Lemma add_engines_same l : ∀ s,
  nm_heap (add_engines l s) = nm_heap s ∧ nm_em (add_engines l s) = nm_em s ∧ nm_hb (add_engines l s) = nm_hb s ∧
  nm_history (add_engines l s) = nm_history s ∧ nm_config (add_engines l s) = nm_config s.
Proof. induction l as [|x l IH]; intros s; cbn [add_engines fold_left]; [done|]. destruct (IH (add_engine x.1 x.2 s)) as (H1 & H2 & H3 & H4 & H5). by split_and!. Qed.

(** The loop starts the engines up to the first that cannot be started. *)
Lemma pull_from_engines eps : ∀ i s,
  map (nm_heap s) eps = drop i (sc_endpoints cmd) →
  ∃ l, (∀ k x, l !! k = Some x → runs (i + k) x) ∧
    (pull_from out dc role i eps (sc_instance_id cmd) (sc_master_dp_ip cmd) spawns s).1 = add_engines l s ∧
    (length l = length eps ∧ (pull_from out dc role i eps (sc_instance_id cmd) (sc_master_dp_ip cmd) spawns s).2 = Ret tt ∨
     (length l < length eps)%nat ∧ (∀ x, ¬ runs (i + length l) x) ∧
     ∃ e, (pull_from out dc role i eps (sc_instance_id cmd) (sc_master_dp_ip cmd) spawns s).2 = Raise e).
Proof.
  induction eps as [|r eps IH]; intros i s Hm; cbn [pull_from]; [exists []; split_and!; [done|done|by left]|].
  cbn [map] in Hm. assert (sc_endpoints cmd !! i = Some (nm_heap s r)) as Hi.
  { rewrite <- (Nat.add_0_r i), <- lookup_drop, <- Hm. done. }
  assert (map (nm_heap s) eps = drop (S i) (sc_endpoints cmd)) as Hm'.
  { replace (S i) with (i + 1)%nat by lia. rewrite <- drop_drop, <- Hm. done. }
  erewrite M_bind_Ret by reflexivity.
  destruct (engine_cmd _ _ _ _ _ _ _) as [c|e] eqn:Ec.
  2: { erewrite M_bind_Raise by reflexivity. exists []. split; [done|]. split; [done|]. right. split; [cbn; lia|]. split; [|by exists e].
       intros x (e' & He' & Hx & _). rewrite Nat.add_0_r, Hi in He'. injection He' as <-. rewrite Nat.add_0_r, Ec in Hx. done. }
  erewrite (M_bind_Ret (mlift (Ret c))) by reflexivity.
  destruct (spawns i) as [| |pid] eqn:Es.
  1, 2: erewrite M_bind_Raise by reflexivity; exists []; (split; [done|]); (split; [done|]); right; (split; [cbn; lia|]); (split; [|by eexists]);
    intros x (_ & _ & _ & Hx); rewrite Nat.add_0_r, Es in Hx; done.
  erewrite M_bind_Ret by reflexivity. destruct (IH (S i) (add_engine pid c s) Hm') as (l & Hl & H1 & H2).
  exists ((pid, c) :: l). split; [|split; [exact H1|]].
  - intros [|k] x Hx.
    + injection Hx as <-. exists (nm_heap s r). by rewrite Nat.add_0_r.
    + replace (i + S k)%nat with (S i + k)%nat by lia. by apply Hl.
  - cbn [length]. destruct H2 as [[H2 H3]|(H2 & H3 & H4)]; [left; split; [by rewrite H2|exact H3]|right].
    split; [lia|]. split; [|exact H4]. by replace (i + S (length l))%nat with (S i + length l)%nat by lia.
Qed.
End start.

(** *** The registration of a node and the command built from it *)

Lemma for_range_length {A} n (f : Z → A) : length (for_range n f) = Z.to_nat n.
Proof. unfold for_range. by rewrite length_map, length_seq. Qed.
Lemma for_range_lookup {A} n (f : Z → A) (i : nat) : (i < Z.to_nat n)%nat → for_range n f !! i = Some (f (Z.of_nat i)).
Proof.
  intros Hi. unfold for_range. rewrite map_fmap, list_lookup_fmap, lookup_seq_lt by done. done.
Qed.

(** What [generate_endpoint_ports] promises: as many endpoints as fit the devices. *)
Record ports_ok (c : NodeConfig) : Prop := {
  po_service : nc_service_ports c = for_range (nc_endpoint_num c) (λ i, pretty (nc_base_port c + i * 2));
  po_mgmt : nc_mgmt_ports c = for_range (nc_endpoint_num c) (λ i, pretty (nc_base_port c + i * 2 + 1));
  po_num : 0 < nc_endpoint_num c;
  po_devices : nc_multi_endpoints c = true → nc_endpoint_num c * (tp_size (nc_parallel c) * pp_size (nc_parallel c)) <= nc_device_num c;
  po_single : nc_multi_endpoints c = false → nc_endpoint_num c = 1
}.

Lemma generated_ports c0 c :
  generate_endpoint_ports c0 = Ret c → 0 < tp_size (nc_parallel c0) * pp_size (nc_parallel c0) →
  ports_ok c ∧ nc_parallel c = nc_parallel c0.
Proof.
  unfold generate_endpoint_ports. intros H Hw.
  destruct ((nc_multi_endpoints c0 && _) || _) eqn:E; [done|]. apply orb_false_iff in E as [E1 E2]. apply Z.ltb_ge in E2.
  rewrite (proj2 (Z.eqb_neq _ 0)), andb_false_r in H by lia. injection H as <-. split; [|done].
  destruct (nc_multi_endpoints c0) eqn:Em; cbn [andb] in *.
  - apply Z.ltb_ge in E1. set (per := tp_size (nc_parallel c0) * pp_size (nc_parallel c0)) in *.
    assert (1 <= nc_device_num c0 / per) by (apply Z.div_le_lower_bound; lia).
    constructor; cbn; try done; [lia| |by rewrite Em]. intros _. fold per.
    pose proof (Z.mul_div_le (nc_device_num c0) per Hw). nia.
  - constructor; cbn; try done. by rewrite Em.
Qed.

Lemma multi_loop_all t msg off dpe f ports : ∀ i acc,
  devices_per_endpoint msg = dpe →
  (∀ k, k ∈ dkeys acc → k < i) → 0 <= i →
  (∀ j, i <= j < i + Z.of_nat (length ports) →
     dpe * j + dpe <= rg_device_num msg ∧ build_device_infos msg (dpe * j) dpe off = Ret (f j) ∧ is_ret (index (rg_mgmt_port msg) j) = true) →
  ∃ pod, multi_loop t msg off i ports acc = Ret pod ∧
    dvalues pod = dvalues acc ++ map (λ '(j, b), Endpoint_init t (off + Z.of_nat j) (rg_pod_ip msg) b
                     (match index (rg_mgmt_port msg) (Z.of_nat j) with Ret m => m | Raise _ => ""%string end) None (Some (f (Z.of_nat j))) None None)
                   (zip (seq (Z.to_nat i) (length ports)) ports).
Proof.
  induction ports as [|bport ports IH]; intros i acc Hd Hk Hi Hall.
  { exists acc. cbn. by rewrite app_nil_r. }
  cbn [multi_loop]. rewrite Hd. destruct (Hall i) as (H1 & H2 & H3); [cbn [length]; lia|].
  rewrite (proj2 (Z.ltb_ge _ _)) by lia. rewrite H2. cbn [mbind py_bind].
  destruct (index (rg_mgmt_port msg) i) as [mport|e] eqn:Em; [|done].
  assert (dget acc i = None) as Hn by (apply dget_None_keys; intros Hx; specialize (Hk i Hx); lia).
  destruct (IH (i + 1) (dset acc i (Endpoint_init t (off + i) (rg_pod_ip msg) bport mport None (Some (f i)) None None)) Hd) as (pod & Hpod & Hv).
  - intros k. rewrite dset_new by done. unfold dkeys. rewrite fmap_app. intros [Hx|Hx]%elem_of_app; [specialize (Hk k Hx); lia|].
    apply list_elem_of_singleton in Hx. cbn in Hx. lia.
  - lia.
  - intros j Hj. apply Hall. cbn [length]. lia.
  - exists pod. split; [exact Hpod|]. rewrite Hv. rewrite dset_new by done. unfold dvalues. rewrite fmap_app, <- app_assoc. f_equal.
    cbn [fmap list_fmap app length seq zip_with map snd]. rewrite Z2Nat.id by done. rewrite Em.
    replace (Z.to_nat (i + 1)) with (S (Z.to_nat i)) by lia. done.
Qed.

Lemma index_for_range {A} n (f : Z → A) i : 0 <= i < n → index (for_range n f) i = Ret (f i).
Proof.
  intros Hi. unfold index. rewrite (proj2 (Z.ltb_ge i 0)) by lia. rewrite (proj2 (Z.ltb_ge i 0)) by lia.
  rewrite for_range_lookup by lia. by rewrite Z2Nat.id by lia.
Qed.

(** The devices of the [j]-th endpoint: what the ranktable has, or a range of the node's. *)
Definition recorded_devices (msg : RegisterMsg) (off j : Z) : list DeviceInfo :=
  match build_device_infos msg (devices_per_endpoint msg * j) (devices_per_endpoint msg) off with Ret l => l | Raise _ => [] end.

Lemma build_devices_ret msg off j :
  match rg_ranktable msg with Some r => server_list r ≠ [] | None => True end →
  build_device_infos msg (devices_per_endpoint msg * j) (devices_per_endpoint msg) off = Ret (recorded_devices msg off j).
Proof.
  intros H. unfold recorded_devices, build_device_infos. destruct (rg_ranktable msg) as [r|]; [|done]. by destruct (server_list r).
Qed.

(** The fields of a registration that say what endpoints it asks for. *)
Lemma registered_fields out c msg :
  gen_register_msg out c = Ret (Some msg) →
  rg_business_port msg = nc_service_ports c ∧ rg_mgmt_port msg = nc_mgmt_ports c ∧ rg_parallel_config msg = nc_parallel c ∧
  rg_multi_endpoints msg = nc_multi_endpoints c ∧ rg_device_num msg = nc_device_num c ∧ nc_pod_ip c = Some (rg_pod_ip msg) ∧
  nc_job_name c = Some (rg_job_name msg) ∧ rg_role msg = PDRole_value (nc_role c) ∧ rg_ranktable msg = get_ranktable out c.
Proof.
  unfold gen_register_msg. destruct (nc_job_name c) as [job|]; [|done]. destruct (nc_model_name c); try done.
  destruct (nc_pod_ip c) as [ip|]; [|done]. by intros [= <-].
Qed.

(** The endpoints the controller builds from a registration. *)
Lemma built_endpoints out c msg t i :
  ports_ok c → 0 < devices_per_endpoint msg → gen_register_msg out c = Ret (Some msg) →
  match rg_ranktable msg with Some r => server_list r ≠ [] | None => True end →
  ∃ pod, build_endpoints t msg i = Ret pod ∧ Z.of_nat (length (dvalues pod)) = nc_endpoint_num c ∧
    ∀ k e, dvalues pod !! k = Some e →
      ep_ip e = rg_pod_ip msg ∧ business_port e = pretty (nc_base_port c + Z.of_nat k * 2) ∧
      mgmt_port e = pretty (nc_base_port c + Z.of_nat k * 2 + 1) ∧
      device_infos e = recorded_devices msg (get_endpoints_num i) (Z.of_nat k).
Proof.
  intros [Hs Hm Hn Hd H1] Hw Hg Hr. destruct (registered_fields _ _ _ Hg) as (Eb & Emg & Epc & Emu & Edn & _).
  assert (Hw' := Hw). unfold devices_per_endpoint in Hw'. rewrite Epc in Hw'.
  unfold build_endpoints. rewrite Emu. destruct (nc_multi_endpoints c) eqn:Em.
  - specialize (Hd eq_refl). unfold build_multi_endpoints. rewrite Eb, Edn, Hs, for_range_length, Z2Nat.id by lia.
    rewrite (proj2 (Z.ltb_ge _ _)) by (unfold devices_per_endpoint; rewrite Epc; nia). cbn [mbind py_bind mret py_ret].
    destruct (multi_loop_all t msg (get_endpoints_num i) _ (recorded_devices msg (get_endpoints_num i))
      (for_range (nc_endpoint_num c) (λ i0, pretty (nc_base_port c + i0 * 2))) 0 [] eq_refl) as (pod & Hpod & Hv).
    { by intros k ?%elem_of_nil. } { done. }
    { intros j. rewrite for_range_length, Z2Nat.id by lia. intros Hj. split_and!.
      - rewrite Edn. unfold devices_per_endpoint. rewrite Epc. nia.
      - by apply build_devices_ret.
      - rewrite Emg, Hm, index_for_range by lia. done. }
    exists pod. split; [exact Hpod|]. rewrite Hv. cbn [dvalues fmap list_fmap app]. rewrite for_range_length.
    split; [rewrite length_map, length_zip_with, length_seq, for_range_length; lia|].
    intros k e. rewrite map_fmap, list_lookup_fmap, lookup_zip_with. intros Hk.
    destruct (decide (k < Z.to_nat (nc_endpoint_num c))%nat) as [Hlt|Hge];
      [|rewrite (lookup_ge_None_2 (seq _ _)) in Hk by (rewrite length_seq; lia); done].
    rewrite lookup_seq_lt, for_range_lookup in Hk by done. injection Hk as <-.
    rewrite Emg, Hm, index_for_range by lia. cbn. done.
  - specialize (H1 eq_refl). unfold build_single_endpoint. pose proof (build_devices_ret msg (get_endpoints_num i) 0 Hr) as Hb.
    rewrite Z.mul_0_r in Hb. rewrite Hb. cbn [mbind py_bind].
    rewrite Eb, Emg, Hs, Hm, !index_for_range by lia. eexists. split; [reflexivity|]. split; [by rewrite H1|].
    intros [|k] e Hk; [injection Hk as <-|done]. by split_and!.
Qed.

(** *** Devices *)

Lemma z_range_elem a b x : x ∈ z_range a b ↔ a <= x < b.
Proof.
  unfold z_range. rewrite map_fmap, list_elem_of_fmap. split.
  - intros (k & -> & Hk). apply elem_of_seq in Hk. lia.
  - intros Hx. exists (Z.to_nat (x - a)). split; [lia|]. apply elem_of_seq. lia.
Qed.

Lemma calc_devices c i :
  0 < tp_size (nc_parallel c) * pp_size (nc_parallel c) → 0 <= i →
  (i + 1) * (tp_size (nc_parallel c) * pp_size (nc_parallel c)) <= nc_device_num c →
  let w := tp_size (nc_parallel c) * pp_size (nc_parallel c) in
  let l := z_range (i * w) ((i + 1) * w) in
  calc_visible_device_ids c i (nc_device_num c) =
  Ret (if single_container_flag (nc_single c) then map (λ x, x + device_offset (nc_single c)) l else l).
Proof.
  intros Hw Hi Hd w l. unfold calc_visible_device_ids. fold w in Hw, Hd |- *.
  rewrite (proj2 (Z.eqb_neq _ 0)) by nia. rewrite (Z.mod_small (i * w)) by nia.
  rewrite (proj2 (Z.ltb_ge _ _)) by lia. unfold l. by replace (i * w + w) with ((i + 1) * w) by lia.
Qed.

Lemma recorded_range msg off i :
  rg_ranktable msg = None → 0 <= devices_per_endpoint msg → (i + 1) * devices_per_endpoint msg <= rg_device_num msg →
  map device_id (recorded_devices msg off i) = map pretty (z_range (i * devices_per_endpoint msg) ((i + 1) * devices_per_endpoint msg)).
Proof.
  intros Hr Hw Hd. unfold recorded_devices, build_device_infos. rewrite Hr. cbn [mret py_ret].
  set (w := devices_per_endpoint msg) in *. unfold z_range. replace ((i + 1) * w - i * w) with w by lia.
  assert (∀ j, j ∈ seq 0 (Z.to_nat w) → (j < Z.to_nat w)%nat) as Hj by (intros j ?%elem_of_seq; lia).
  revert Hj. generalize (seq 0 (Z.to_nat w)) as l. induction l as [|j l IH]; intros Hj; [done|]. cbn [omap list_omap map].
  rewrite (proj2 (Z.ltb_lt _ _)) by (specialize (Hj j ltac:(left)); nia). cbn [map device_id].
  rewrite IH by (intros j' Hj'; apply Hj; by right). f_equal. f_equal. lia.
Qed.

Lemma engine_cmd_ret out c role i e id master base :
  ip_address (ep_ip e) = true → 1024 <= base → base + 2 * nc_endpoint_num c <= 65536 → ports_ok c → 0 <= i < nc_endpoint_num c →
  0 < tp_size (nc_parallel c) * pp_size (nc_parallel c) →
  business_port e = pretty (base + i * 2) → mgmt_port e = pretty (base + i * 2 + 1) →
  ∃ ec, engine_cmd out c role i e id master = Ret ec.
Proof.
  intros Hip Hlo Hhi Hp Hi Hw Hb Hm. unfold engine_cmd, check_params. rewrite Hb, Hm, !py_int_pretty by lia. rewrite Hip.
  unfold MIN_PORT, MAX_PORT. rewrite !(proj2 (Z.leb_le _ _)) by lia. cbn [andb negb].
  destruct (nc_multi_endpoints c) eqn:E; [|by eexists].
  pose proof (po_devices c Hp E) as Hd. rewrite calc_devices by nia. by eexists.
Qed.

(** ** Properties *)

(** C16: the node manager gives itself up exactly on five abnormal heartbeats in a row.  In
    every state it reaches, whatever the interleaving of start commands, status scans,
    heartbeats and failures to report, the flag that makes it stop is set if and only if,
    among the heartbeats the controller took since the last start command, five
    consecutive ones name an abnormal endpoint. *)
Theorem suicide_flag_iff c s :
  nm_reach c s → should_suicide (nm_hb s) = true ↔ five_in_a_row (reports (nm_history s)).
Proof. intros H. apply inv_flag. by eapply reach_inv. Qed.

(** An engine that is slow to come up does not bring its node manager down.  While the
    status scans start within a minute of the first start command, whatever the engines
    answer or fail to answer, no endpoint is marked abnormal and the flag is not set. *)
Theorem no_suicide_within_grace c s :
  nm_young c s → should_suicide (nm_hb s) = false ∧ ∀ r, ep_status (nm_heap s r) ≠ EP_ABNORMAL.
Proof.
  intros H. assert (grace_inv s) as [_ Hh _ _ Hf].
  { induction H as [|s o _ IH Ho]; [by constructor|by apply grace_step]. }
  split; [done|]. intros r Hr. specialize (Hh r). unfold is_abnormal in Hh. by rewrite Hr in Hh.
Qed.

(** A start command can lose its endpoints to the scan in flight.  After a start
    command is committed and until the next one, whenever no scan is under way the
    heartbeats carry the new instance id; they speak of the endpoints of the command if
    no scan was under way when it came, and of the endpoints of the scan, those of the
    instance before, if one was. *)
Theorem scan_replaces_endpoints s cmd refs now ops :
  forallb (λ o, negb (commits o)) ops = true →
  let s' := nm_run (nm_step (OCommit cmd refs now) s) ops in
  hb_instance_id (nm_hb s') = sc_instance_id cmd ∧
  (nm_scan s' = None →
   hb_endpoints (nm_hb s') = match nm_scan s with None => refs | Some (todo, seen) => seen ++ todo end).
Proof.
  intros Hops s'. set (s1 := nm_step (OCommit cmd refs now) s) in *.
  assert (hb_instance_id (nm_hb s1) = sc_instance_id cmd ∧ hb_endpoints (nm_hb s1) = refs ∧ nm_scan s1 = nm_scan s) as (H1 & H2 & H3).
  { unfold s1. cbn [nm_step]. unfold commit_start, start_threads. by destruct (thread_started _). }
  rewrite <- H1. apply (monitored_run refs); [done|]. unfold in_scan. rewrite H3. destruct (nm_scan s) as [[todo seen]|]; [left|right].
  - by split_and!.
  - split; [done|by left].
Qed.

(** Every engine process is accounted for.  In whatever order engines are started and
    stopped, the processes the daemon started are those it killed and those it still
    counts, in the order of their start: a stop kills every engine started so far. *)
Theorem engines_accounted c ops :
  let d := nm_daemon (nm_run (NodeManager_init c) ops) in map fst (started d) = killed d ++ engine_pids d.
Proof. apply (accounted_run ops (NodeManager_init c)). done. Qed.

(** What a start command does.  When it passes the check of its parameters, engines are
    started in order up to the first that cannot be, and the engine manager takes the
    instance.  If all run, the answer is a success and the heartbeats are those of the
    endpoints of the command; if one does not, the answer is an error, the heartbeat
    manager keeps the instance before, and the engines already started keep running. *)
Theorem start_instance_result out dc cmd role spawns s :
  check_cmd_para (nm_config s) cmd = true → PDRole_of_string (sc_role cmd) = Ret role →
  ∃ engines,
    (∀ i x, engines !! i = Some x → runs out dc cmd role spawns i x) ∧
    (length engines = length (sc_endpoints cmd) ∨ ∀ x, ¬ runs out dc cmd role spawns (length engines) x) ∧
    let '(s', r) := start_instance out dc (Some cmd) spawns s in
    started (nm_daemon s') = started (nm_daemon s) ++ engines ∧
    engine_pids (nm_daemon s') = engine_pids (nm_daemon s) ++ map fst engines ∧
    em_instance_id (nm_em s') = sc_instance_id cmd ∧ map (nm_heap s') (em_endpoints (nm_em s')) = sc_endpoints cmd ∧
    if decide (length engines = length (sc_endpoints cmd)) then
      r = Ret tt ∧ hb_instance_id (nm_hb s') = sc_instance_id cmd ∧ map (nm_heap s') (hb_endpoints (nm_hb s')) = sc_endpoints cmd
    else r = Raise (HTTPException 500) ∧ nm_hb s' = nm_hb s ∧ nm_history s' = nm_history s.
Proof.
  intros Hc Hr. unfold start_instance. erewrite M_bind_Ret by reflexivity.
  set (s1 := set_heap s _ _). set (refs := seq (nm_next s) (length (sc_endpoints cmd))).
  set (s2 := set_em s1 (mkEM (sc_instance_id cmd) refs (write_ranktable out (sc_ranktable cmd) (ranktable_file (nm_em s))))).
  erewrite (M_bind_Ret _ _ _ s2 true) by (unfold parse_start_cmd; erewrite M_bind_Ret by reflexivity; cbn [nm_config s1 set_heap]; by rewrite Hc).
  assert (map (nm_heap s2) refs = sc_endpoints cmd) as Hrefs by apply alloc_new.
  destruct (pull_from_engines out dc cmd role spawns refs 0 s2 Hrefs) as (l & Hl & H1 & H2). exists l. split; [exact Hl|].
  assert (length refs = length (sc_endpoints cmd)) as Elen by apply length_seq. rewrite Elen in H2.
  destruct (pull_from out dc role 0 refs _ _ spawns s2) as [s3 r3] eqn:Ep. cbn [fst snd] in H1, H2. subst s3.
  pose proof (add_engines_daemon l s2) as Hd. destruct (add_engines_same l s2) as (Hheap & Hem & Hhb & Hhist & _).
  assert (nm_daemon s2 = nm_daemon s) as E by done. rewrite E in Hd.
  destruct H2 as [[Hlen ->]|(Hlen & Hno & e & ->)].
  - split; [by left|]. erewrite M_bind_Ret by (unfold mtry, pull_engine, mtry; rewrite Hr; erewrite M_bind_Ret by reflexivity; by rewrite Ep).
    unfold mmodify. cbv beta iota. rewrite decide_True by done. unfold commit_start. node. rewrite Hd, Hem, Hheap. cbn [started engine_pids em_instance_id em_endpoints].
    split_and!; try done; unfold start_threads; by destruct (thread_started _).
  - split; [by right|]. erewrite M_bind_Raise by (unfold mtry, pull_engine, mtry; rewrite Hr; erewrite M_bind_Ret by reflexivity; by rewrite Ep).
    cbv beta iota. rewrite decide_False by lia. by rewrite Hd, Hem, Hheap, Hhb, Hhist.
Qed.

(** C19: the controller's start command is one the node can carry out.  Take the endpoint
    ports of a configuration, the registration the node makes of it and the endpoints the
    controller builds from that registration: the start command with these endpoints
    passes the node's check, its role is the node's, and every endpoint gives the
    arguments of an engine, when the pod address is valid and the ports fit between 1024
    and 65535. *)
Theorem own_start_command_accepted c0 c out msg t i id master rt :
  generate_endpoint_ports c0 = Ret c → 0 < tp_size (nc_parallel c0) * pp_size (nc_parallel c0) →
  gen_register_msg out c = Ret (Some msg) → match rg_ranktable msg with Some r => server_list r ≠ [] | None => True end →
  ip_address (rg_pod_ip msg) = true → 1024 <= nc_base_port c → nc_base_port c + 2 * nc_endpoint_num c <= 65536 →
  ∃ pod, build_endpoints t msg i = Ret pod ∧
    let cmd := mkStart (rg_job_name msg) (rg_role msg) id (dvalues pod) master rt in
    check_cmd_para c cmd = true ∧ PDRole_of_string (sc_role cmd) = Ret (nc_role c) ∧
    ∀ k e, sc_endpoints cmd !! k = Some e → ∃ ec, engine_cmd out c (nc_role c) (Z.of_nat k) e id master = Ret ec.
Proof.
  intros Hp Hw Hg Hr Hip Hlo Hhi. destruct (generated_ports c0 c Hp Hw) as [Hok Epc]. rewrite <- Epc in Hw.
  destruct (registered_fields _ _ _ Hg) as (_ & _ & Epc' & _ & _ & Eip & Ejob & Erole & _).
  destruct (built_endpoints out c msg t i Hok) as (pod & Hpod & Hlen & Heps); [by unfold devices_per_endpoint; rewrite Epc'|done|done|].
  exists pod. split; [exact Hpod|]. cbn [sc_role sc_endpoints]. split; [|split].
  - unfold check_cmd_para. cbn [sc_job_name sc_endpoints]. rewrite Ejob, Eip, bool_decide_true by done. rewrite Hlen, Z.eqb_refl. cbn [andb].
    apply forallb_forall. intros e He. apply list_elem_of_In, list_elem_of_lookup in He as [k Hk].
    destruct (Heps k e Hk) as (-> & _). by rewrite bool_decide_true.
  - rewrite Erole. by destruct (nc_role c).
  - intros k e Hk. destruct (Heps k e Hk) as (Eei & Eb & Em & _). apply lookup_lt_Some in Hk.
    apply (engine_cmd_ret out c (nc_role c) (Z.of_nat k) e id master (nc_base_port c)); try done; [by rewrite Eei|lia].
Qed.

(** The engines of a node share out its devices.  With several endpoints the [i]-th
    engine sees the [i]-th block of devices, as many as tensor and pipeline parallelism
    need, and the blocks of all endpoints fit on the node; in a single container they are
    moved by the offset of the instance.  Without a ranktable the controller records for
    the endpoint the devices of the block, without that offset. *)
Theorem engine_devices c0 c out msg off i :
  generate_endpoint_ports c0 = Ret c → 0 < tp_size (nc_parallel c0) * pp_size (nc_parallel c0) → nc_multi_endpoints c = true →
  gen_register_msg out c = Ret (Some msg) → 0 <= i < nc_endpoint_num c →
  let w := tp_size (nc_parallel c) * pp_size (nc_parallel c) in
  let block := z_range (i * w) ((i + 1) * w) in
  calc_visible_device_ids c i (nc_device_num c) =
    Ret (if single_container_flag (nc_single c) then map (λ x, x + device_offset (nc_single c)) block else block) ∧
  nc_endpoint_num c * w <= nc_device_num c ∧
  (rg_ranktable msg = None → map device_id (recorded_devices msg off i) = map pretty block).
Proof.
  intros Hp Hw Hm Hg Hi w block. destruct (generated_ports c0 c Hp Hw) as [Hok Epc]. rewrite <- Epc in Hw. fold w in Hw.
  pose proof (po_devices c Hok Hm) as Hd. fold w in Hd.
  destruct (registered_fields _ _ _ Hg) as (_ & _ & Epc' & _ & Edn & _).
  assert (devices_per_endpoint msg = w) as Ew by (unfold devices_per_endpoint; by rewrite Epc').
  split_and!; [apply calc_devices; fold w; nia|done|]. intros Hr. unfold block. rewrite <- Ew. apply recorded_range; [done|lia|]. rewrite Ew, Edn. nia.
Qed.

(** The registration is tried five times, with 2, 4, 8 and 16 seconds between the attempts;
    the first that succeeds ends it. *)
Lemma registration_attempts out s msg attempts :
  gen_register_msg out (nm_config s) = Ret (Some msg) →
  register_node out attempts s =
  match find attempts (seq 0 5) with
  | Some k => (tell s (XRegister msg), Ret (true, take k [2; 4; 8; 16]))
  | None => (s, Ret (false, [2; 4; 8; 16]))
  end.
Proof.
  intros Hm. assert (∀ b, post_register_msg out b s = (if b then tell s (XRegister msg) else s, Ret b)) as Hp.
  { intros b. unfold post_register_msg, mget, mlift, mbind, M_bind. rewrite Hm. by destruct b. }
  unfold register_node. cbn [seq find].
  do 5 (cbn [register_loop]; rewrite (M_bind_Ret _ _ _ _ _ (Hp _)); destruct (attempts _); [reflexivity|]). reflexivity.
Qed.

(** *** Witnesses *)

Definition sample_node_env : NodeEnv := mkEnv (Some "job"%string) (Some "prefill"%string) None (Some "10.0.0.1"%string).
(** Two ranks of data parallelism with two devices each on a node of four. *)
Definition sample_user : json :=
  JObj [("motor_deploy_config", JObj [("p_pod_npu_num", JInt 4); ("hardware_type", JStr "800I-A2")]);
        ("motor_engine_prefill_config", JObj [("model_config", JObj [("model_name", JStr "m");
           ("parallel_config", JObj [("dp_size", JInt 2); ("tp_size", JInt 2); ("pp_size", JInt 1)])])])]%string.
Definition sample_node : NodeConfig :=
  match config_from_json sample_node_env (Some sample_user) with Ret c => c | Raise _ => NodeConfig_default sample_node_env end.
Definition sample_outside : NodeOutside := mkOutside None true "/conf" (f_of_Z 100).
Definition sample_msg : RegisterMsg :=
  mkReg "job" "m" "prefill" "10.0.0.1" ["10000"; "10002"] ["10001"; "10003"] "1026" (nc_parallel sample_node) true 4 None.
Lemma sample_registration : gen_register_msg sample_outside sample_node = Ret (Some sample_msg).
Proof. vm_compute. reflexivity. Qed.
Lemma sample_ports : generate_endpoint_ports sample_node = Ret sample_node.
Proof. vm_compute. reflexivity. Qed.

Definition sample_cmd (st : EndpointStatus) : StartCmdMsg :=
  mkStart "job" "prefill" 7 [mkEndpoint 0 "10.0.0.1" "10000" "10001" st [] f0 Workload0; mkEndpoint 1 "10.0.0.1" "10002" "10003" st [] f0 Workload0]
    "10.0.0.1" None.

Fixpoint ops_ok (s : NodeManager) (ops : list nm_op) : Prop :=
  match ops with [] => True | o :: ops => op_ok s o ∧ ops_ok (nm_step o s) ops end.
Lemma reach_run c ops : ∀ s, nm_reach c s → ops_ok s ops → nm_reach c (nm_run s ops).
Proof. induction ops as [|o ops IH]; intros s Hs H; [done|]. destruct H as [H1 H2]. apply IH; [by constructor|done]. Qed.

(** An abnormal instance, and five rounds of heartbeats with a failed one among them. *)
Definition sample_ops : list nm_op :=
  [OReceive (sc_endpoints (sample_cmd EP_ABNORMAL)); OCommit (sample_cmd EP_ABNORMAL) [0; 1]%nat (f_of_Z 100);
   OCollect; OReport ReportTaken; OCollect; OReport ReportTaken; OCollect; OReport ReportFails;
   OCollect; OReport ReportTaken; OCollect; OReport ReportTaken; OCollect; OReport ReportTaken].
Lemma sample_node_ops_ok : ops_ok (NodeManager_init sample_node) sample_ops.
Proof.
  cbn [ops_ok sample_ops]. split_and!; try exact I. split.
  - repeat constructor.
  - cbn. repeat (constructor; [rewrite ?list_elem_of_singleton; by intros ?%elem_of_nil || done|]). constructor.
Qed.
Lemma sample_reach : nm_reach sample_node (nm_run (NodeManager_init sample_node) sample_ops).
Proof. apply reach_run; [constructor|apply sample_node_ops_ok]. Qed.

Lemma suicide_flag_iff_witness :
  five_in_a_row (reports (nm_history (nm_run (NodeManager_init sample_node) sample_ops))).
Proof. exact (proj1 (suicide_flag_iff sample_node _ sample_reach) ltac:(vm_compute; reflexivity)). Defined.

(** The same engines answer nothing for a minute. *)
Definition quiet_ops : list nm_op :=
  [OReceive (sc_endpoints (sample_cmd EP_INITIAL)); OCommit (sample_cmd EP_INITIAL) [0; 1]%nat (f_of_Z 100);
   OScanBegin (f_of_Z 159); OScanOne (Raise (TransportError None)); OScanOne (Ret JNull); OScanCommit; OCollect; OReport ReportTaken].
Fixpoint ops_young (s : NodeManager) (ops : list nm_op) : Prop :=
  match ops with [] => True | o :: ops => op_young s o ∧ ops_young (nm_step o s) ops end.
Lemma young_run c ops : ∀ s, nm_young c s → ops_young s ops → nm_young c (nm_run s ops).
Proof. induction ops as [|o ops IH]; intros s Hs H; [done|]. destruct H as [H1 H2]. apply IH; [by constructor|done]. Qed.
Lemma quiet_young : nm_young sample_node (nm_run (NodeManager_init sample_node) quiet_ops).
Proof.
  apply young_run; [constructor|]. cbn [ops_young quiet_ops]. split_and!; try exact I; [repeat constructor|vm_compute; reflexivity].
Qed.

Lemma no_suicide_within_grace_witness : should_suicide (nm_hb (nm_run (NodeManager_init sample_node) quiet_ops)) = false.
Proof. exact (proj1 (no_suicide_within_grace sample_node _ quiet_young)). Defined.

(** A second later the same scan marks the endpoints. *)
Example after_grace :
  map (λ r, ep_status (nm_heap (nm_run (NodeManager_init sample_node)
    (take 2 quiet_ops ++ [OScanBegin (f_of_Z 160)] ++ drop 3 quiet_ops)) r)) [0; 1]%nat = [EP_ABNORMAL; EP_ABNORMAL].
Proof. reflexivity. Qed.

(** A start command while the endpoints of an instance before are queried. *)
Definition scanning_node : NodeManager :=
  nm_run (NodeManager_init sample_node) (take 3 quiet_ops ++ [OReceive (sc_endpoints (sample_cmd EP_NORMAL))]).
Lemma scan_replaces_endpoints_witness :
  hb_endpoints (nm_hb (nm_run (nm_step (OCommit (sample_cmd EP_NORMAL) [2; 3]%nat (f_of_Z 200)) scanning_node)
    [OScanOne (Ret JNull); OScanOne (Ret JNull); OScanCommit])) = [0; 1]%nat.
Proof.
  exact (proj2 (scan_replaces_endpoints scanning_node (sample_cmd EP_NORMAL) [2; 3]%nat (f_of_Z 200)
    [OScanOne (Ret JNull); OScanOne (Ret JNull); OScanCommit] eq_refl) ltac:(vm_compute; reflexivity)).
Defined.

(** The second engine exits at once: the first keeps running. *)
Definition sample_spawns (i : nat) : spawned := match i with O => SpawnRuns 4001 | _ => SpawnExits end.
Lemma start_instance_result_witness :
  ∃ engines, (∀ i x, engines !! i = Some x → runs sample_outside sample_node (sample_cmd EP_INITIAL) ROLE_P sample_spawns i x) ∧
    (length engines = length (sc_endpoints (sample_cmd EP_INITIAL)) ∨
     ∀ x, ¬ runs sample_outside sample_node (sample_cmd EP_INITIAL) ROLE_P sample_spawns (length engines) x) ∧
    started (nm_daemon (start_instance sample_outside sample_node (Some (sample_cmd EP_INITIAL)) sample_spawns (NodeManager_init sample_node)).1) = engines.
Proof.
  destruct (start_instance_result sample_outside sample_node (sample_cmd EP_INITIAL) ROLE_P sample_spawns (NodeManager_init sample_node)
    ltac:(vm_compute; reflexivity) ltac:(vm_compute; reflexivity)) as (engines & H1 & H2 & H3).
  exists engines. split; [exact H1|]. split; [exact H2|].
  destruct (start_instance _ _ _ _ _) as [s' r]. exact (proj1 H3).
Defined.
Example second_engine_exits :
  let '(s', r) := start_instance sample_outside sample_node (Some (sample_cmd EP_INITIAL)) sample_spawns (NodeManager_init sample_node) in
  (engine_pids (nm_daemon s'), em_instance_id (nm_em s'), hb_instance_id (nm_hb s'), r) = ([4001], 7, -1, Raise (HTTPException 500)).
Proof. reflexivity. Qed.

Lemma own_start_command_accepted_witness :
  ∃ pod, build_endpoints f0 sample_msg (Instance_init "job" "m" 7 "prefill" None true) = Ret pod ∧
    check_cmd_para sample_node (mkStart "job" "prefill" 7 (dvalues pod) "10.0.0.1" None) = true.
Proof.
  destruct (own_start_command_accepted sample_node sample_node sample_outside sample_msg f0 (Instance_init "job" "m" 7 "prefill" None true)
    7 "10.0.0.1" None sample_ports ltac:(vm_compute; reflexivity) sample_registration I ltac:(vm_compute; reflexivity)
    ltac:(vm_compute; discriminate) ltac:(vm_compute; discriminate)) as (pod & H1 & H2 & _).
  exists pod. split; [exact H1|exact H2].
Defined.

Lemma engine_devices_witness : calc_visible_device_ids sample_node 1 4 = Ret [2; 3].
Proof.
  exact (proj1 (engine_devices sample_node sample_node sample_outside sample_msg 0 1 sample_ports ltac:(vm_compute; reflexivity)
    ltac:(vm_compute; reflexivity) sample_registration ltac:(vm_compute; split; [discriminate|reflexivity]))).
Defined.
