(* ===== verification/Standby.v ===== *)
(** * Master and standby

    Models [common/standby/standby_manager.py] with the lock operations it uses of
    [common/etcd/etcd_client.py] and [common/etcd/locks.py]: processes of one job compete
    for a lock that etcd binds to a lease.  etcd itself is a service behind an interface
    with the laws its documentation states; the processes run interleaved, and time passes
    between their rounds. *)

From stdpp Require Import base option list strings gmap.
From Stdlib Require Import ZArith Lia.
From S2P Require Import Prelude PyText.
Open Scope Z_scope.

(** ** etcd *)

(** The calls of the lock code, and what they are about: the lease a key is bound to, the
    seconds a lease has left, the time it was granted, and the leases issued so far.  Any
    call can raise, before or after it took effect. *)
Class EtcdService (E : Type) := {
  lease_grant : Z → E → E * py Z;
  put_if_absent : string → Z → E → E * py bool;
  lease_keep_alive : Z → E → E * py Z;
  lease_revoke : Z → E → E * py unit;
  tick : E → E;
  holder : E → string → option Z;
  life : E → Z → Z;
  granted : E → Z → Z;
  issued : E → Z → Prop
}.

Class EtcdLaws (E : Type) `{!EtcdService E} := {
  grant_holder ttl e k : holder (lease_grant ttl e).1 k = holder e k;
  grant_life ttl e l : issued e l → life (lease_grant ttl e).1 l = life e l ∧ granted (lease_grant ttl e).1 l = granted e l ∧ issued (lease_grant ttl e).1 l;
  grant_new ttl e e' id : lease_grant ttl e = (e', Ret id) → ¬ issued e id ∧ issued e' id ∧ life e' id = ttl ∧ granted e' id = ttl;
  put_lease k id e l : life (put_if_absent k id e).1 l = life e l ∧ granted (put_if_absent k id e).1 l = granted e l ∧
    (issued e l → issued (put_if_absent k id e).1 l);
  put_taken k id e e' : put_if_absent k id e = (e', Ret true) → holder e k = None ∧ holder e' k = Some id;
  put_held k id e l : holder e k = Some l → holder (put_if_absent k id e).1 k = Some l;
  keep_holder l e k : holder (lease_keep_alive l e).1 k = holder e k;
  keep_lease l e l' : granted (lease_keep_alive l e).1 l' = granted e l' ∧ (issued e l' → issued (lease_keep_alive l e).1 l') ∧
    (l' ≠ l → life (lease_keep_alive l e).1 l' = life e l');
  keep_renewed l e e' t : lease_keep_alive l e = (e', Ret t) → 0 < t → life e' l = granted e l;
  revoke_holder l e k l' : holder e k = Some l' → l' ≠ l → holder (lease_revoke l e).1 k = Some l';
  revoke_lease l e l' : granted (lease_revoke l e).1 l' = granted e l' ∧ (issued e l' → issued (lease_revoke l e).1 l') ∧
    (l' ≠ l → life (lease_revoke l e).1 l' = life e l');
  tick_lease e l : life (tick e) l = life e l - 1 ∧ granted (tick e) l = granted e l ∧ (issued e l → issued (tick e) l);
  tick_holder e k l : holder e k = Some l → 0 < life (tick e) l → holder (tick e) k = Some l
}.

(** ** State *)

Inductive StandbyRole := STANDBY | MASTER.
#[global] Instance StandbyRole_eq_dec : EqDecision StandbyRole.
Proof. solve_decision. Defined.

(** What the manager asks of its process. *)
Inductive callback := OnBecomeMaster (should_report_event : bool) | OnBecomeStandby.

(** [StandbyManager], with the leases its etcd client holds and the callbacks it has made. *)
Record Manager := mkManager {
  current_role : StandbyRole;
  leases : dict string Z;
  has_set_role : bool;
  stop_event : bool;
  calls : list callback
}.
Definition Manager_init : Manager := mkManager STANDBY [] false false [].

Definition with_role (m : Manager) r := mkManager r (leases m) (has_set_role m) (stop_event m) (calls m).
Definition with_leases (m : Manager) l := mkManager (current_role m) l (has_set_role m) (stop_event m) (calls m).
Definition with_set_role (m : Manager) := mkManager (current_role m) (leases m) true (stop_event m) (calls m).
Definition with_call (m : Manager) c := mkManager (current_role m) (leases m) (has_set_role m) (stop_event m) (calls m ++ [c]).
Definition stopping (m : Manager) := mkManager (current_role m) (leases m) (has_set_role m) true (calls m).

(** The configuration: the job, and the lock of the standby section. *)
Record LockConfig := mkLock {
  namespace : string;
  lock_job : string;
  master_lock_key : string;
  master_lock_ttl : Z;
  master_lock_max_failures : nat
}.

Section service.
Context {E : Type} `{!EtcdService E} (cfg : LockConfig).

(** [get_key_with_namespace_and_job_name]. *)
Definition full_key (key : string) : string :=
  if startswith key (namespace cfg +:+ "/" +:+ lock_job cfg +:+ "/") then key else namespace cfg +:+ "/" +:+ lock_job cfg +:+ key.
Definition lock_prefix : string := "/locks/".
Definition etcd_key : string := lock_prefix +:+ full_key (master_lock_key cfg).

(** [Lock.acquire]: the lease of the lock, if it was taken.  A lease that does not get the
    key is given back; nothing is raised. *)
Definition Lock_acquire (key : string) (ttl : Z) (e : E) : E * option Z :=
  match lease_grant ttl e with
  | (e1, Raise _) => (e1, None)
  | (e1, Ret id) =>
      match put_if_absent (lock_prefix +:+ key) id e1 with
      | (e2, Ret true) => (e2, Some id)
      | (e2, _) => ((lease_revoke id e2).1, None)
      end
  end.

Abbreviation sys := (Manager * E)%type.

(** [EtcdClient.acquire_lock], [release_lock] and [renew_lease]. *)
Definition acquire_lock (lock_key : string) (ttl : Z) : M sys bool := λ s,
  let '(m, e) := s in
  let key := full_key lock_key in
  if dhas (leases m) key then (s, Ret false)
  else match Lock_acquire key ttl e with
       | (e', Some id) => ((with_leases m (dset (leases m) key id), e'), Ret true)
       | (e', None) => ((m, e'), Ret false)
       end.

Definition release_lock (lock_key : string) : M sys bool := λ s,
  let '(m, e) := s in
  let key := full_key lock_key in
  match dget (leases m) key with
  | None => (s, Ret false)
  | Some l => let '(e', r) := lease_revoke l e in ((with_leases m (ddel (leases m) key), e'), Ret (is_ret r))
  end.

Definition renew_lease (lock_key : string) : M sys bool := λ s,
  let '(m, e) := s in
  match dget (leases m) (full_key lock_key) with
  | None => (s, Ret false)
  | Some l =>
      let '(e', r) := lease_keep_alive l e in
      let renewed := match r with Ret new_ttl => 0 <? new_ttl | Raise _ => false end in
      if renewed then ((m, e'), Ret true) else (release_lock lock_key ;; mret false) (m, e')
  end.

(** ** StandbyManager *)

Definition set_role (r : StandbyRole) : M sys unit := mmodify (λ s, (with_role s.1 r, s.2)).
Definition call (c : callback) : M sys unit := mmodify (λ s, (with_call s.1 c, s.2)).
Definition is_master : M sys bool := s ← mget; mret (bool_decide (current_role s.1 = MASTER)).

Definition renew_master_lock : M sys bool :=
  b ← is_master; if b : bool then renew_lease (master_lock_key cfg) else mret false.

(** The attempts of [_try_become_master], [attempts] of them; the wait between two of them can
    be cut short by the stop event. *)
Fixpoint try_become_master (attempts : nat) : M sys bool :=
  match attempts with
  | O => mret false
  | S more =>
      s ← mget;
      if stop_event s.1 then mret false
      else
        mexcept
          (acquired ← acquire_lock (master_lock_key cfg) (master_lock_ttl cfg);
           if acquired : bool then set_role MASTER ;; mret true else set_role STANDBY ;; mret false)
          (λ _, match more with O => set_role STANDBY ;; mret false | _ => try_become_master more end)
  end.

(** One round of [_master_standby_loop]; [report] is what etcd has under
    "should_report_event", [callback_returns] whether the callback returns.  An exception
    ends the round. *)
Definition standby_round (report callback_returns : bool) : M sys unit :=
  mexcept
    (b ← is_master;
     if b : bool then
       renewed ← renew_master_lock;
       if renewed : bool then mret tt
       else set_role STANDBY ;; call OnBecomeStandby ;; if callback_returns then mret tt else mraise RuntimeError
     else
       became ← try_become_master (master_lock_max_failures cfg);
       (if became : bool then call (OnBecomeMaster report) ;; if callback_returns then mret tt else mraise RuntimeError else mret tt) ;;
       mmodify (λ s, (with_set_role s.1, s.2)))
    (λ _, mret tt).

(** The end of the loop once the stop event is set. *)
Definition loop_exit : M sys unit :=
  mmodify (λ s, (stopping s.1, s.2)) ;;
  b ← is_master;
  if b : bool then release_lock (master_lock_key cfg) ;; set_role STANDBY else mret tt.

(** ** Processes that compete *)

(** The managers, etcd, and for each manager the seconds since its last round. *)
Record Cluster := mkCluster { managers : nat → Manager; etcd : E; since : nat → Z }.

Inductive cluster_op := CRound (i : nat) (report callback_returns : bool) | CStop (i : nat) | CCrash (i : nat) | CTick.

Definition upd {A} (f : nat → A) (i : nat) (x : A) : nat → A := λ j, if decide (j = i) then x else f j.
Definition on_manager (i : nat) (f : M sys unit) (c : Cluster) : Cluster :=
  let '((m, e), _) := f (managers c i, etcd c) in mkCluster (upd (managers c) i m) e (upd (since c) i 0).

Definition cluster_step (o : cluster_op) (c : Cluster) : Cluster :=
  match o with
  | CRound i report ok => if stop_event (managers c i) then c else on_manager i (standby_round report ok) c
  | CStop i => on_manager i loop_exit c
  | CCrash i => mkCluster (upd (managers c) i Manager_init) (etcd c) (since c)
  | CTick => mkCluster (managers c) (tick (etcd c)) (λ i, since c i + 1)
  end.

(** A master gets to its next round before the time of the lease is over. *)
Definition punctual (c : Cluster) (o : cluster_op) : Prop :=
  match o with
  | CTick => ∀ i, current_role (managers c i) = MASTER → since c i + 1 < master_lock_ttl cfg
  | _ => True
  end.

Inductive cluster_reach (e : E) : Cluster → Prop :=
| cluster_init : cluster_reach e (mkCluster (λ _, Manager_init) e (λ _, 0))
| cluster_next c o : cluster_reach e c → punctual c o → cluster_reach e (cluster_step o c).

(** ** Lemmas *)

Context `{!EtcdLaws E}.
Local Abbreviation K := (full_key (master_lock_key cfg)).
Local Abbreviation ttl := (master_lock_ttl cfg).

(** What another lease keeps through a call. *)
Definition keeps (l : Z) (e e' : E) : Prop :=
  (holder e etcd_key = Some l → holder e' etcd_key = Some l) ∧ life e' l = life e l ∧ granted e' l = granted e l ∧ (issued e l → issued e' l).

Lemma keeps_trans l e1 e2 e3 : keeps l e1 e2 → keeps l e2 e3 → keeps l e1 e3.
Proof. intros (A1 & B1 & C1 & D1) (A2 & B2 & C2 & D2). split_and!; [auto|congruence|congruence|auto]. Qed.
Lemma keeps_grant l e : issued e l → keeps l e (lease_grant ttl e).1.
Proof. intros H. destruct (grant_life ttl e l H) as (H1 & H2 & H3). split_and!; try done. intros Hh. by rewrite grant_holder. Qed.
Lemma keeps_put l id e : keeps l e (put_if_absent etcd_key id e).1.
Proof. destruct (put_lease etcd_key id e l) as (H1 & H2 & H3). split_and!; try done. apply put_held. Qed.
Lemma keeps_revoke l l' e : l' ≠ l → keeps l' e (lease_revoke l e).1.
Proof. intros Hn. destruct (revoke_lease l e l') as (H1 & H2 & H3). split_and!; auto. intros Hh. by apply revoke_holder. Qed.

(** A failed attempt touches no lease issued before. *)
Lemma acquire_denied e e' l : Lock_acquire K ttl e = (e', None) → issued e l → keeps l e e'.
Proof.
  unfold Lock_acquire. intros H Hi. pose proof (keeps_grant l e Hi) as Hg. destruct (lease_grant ttl e) as [e1 [id|x]] eqn:Eg; [|by injection H as <-].
  destruct (grant_new ttl e e1 id Eg) as (Hnew & _). pose proof (keeps_put l id e1) as Hp. unfold etcd_key in Hp at 1.
  destruct (put_if_absent (lock_prefix +:+ K) id e1) as [e2 [[]|x]] eqn:Ep; [done|..]; injection H as <-;
    (eapply keeps_trans; [exact Hg|]; eapply keeps_trans; [exact Hp|]; apply keeps_revoke; by intros ->).
Qed.

Lemma acquire_taken e e' id :
  Lock_acquire K ttl e = (e', Some id) →
  holder e etcd_key = None ∧ holder e' etcd_key = Some id ∧ issued e' id ∧ granted e' id = ttl ∧ life e' id = ttl.
Proof.
  unfold Lock_acquire. intros H. destruct (lease_grant ttl e) as [e1 [i|x]] eqn:Eg; [|done].
  destruct (grant_new ttl e e1 i Eg) as (_ & H1 & H2 & H3). destruct (put_lease (lock_prefix +:+ K) i e1 i) as (H4 & H5 & H6).
  destruct (put_if_absent (lock_prefix +:+ K) i e1) as [e2 [[]|x]] eqn:Ep; try done. injection H as <- <-.
  destruct (put_taken _ _ _ _ Ep) as [H7 H8]. cbn in H4, H5, H6. rewrite <- (grant_holder ttl e), Eg. split_and!; auto; congruence.
Qed.

(** The ways a round or the end of the loop changes a manager and etcd. *)
Inductive moves (m : Manager) (e : E) (m' : Manager) : E → Prop :=
| mv_renew l t e' : current_role m = MASTER → dget (leases m) K = Some l → lease_keep_alive l e = (e', Ret t) → 0 < t →
    current_role m' = MASTER → leases m' = leases m → (stop_event m' = false → stop_event m = false) → calls m' = calls m → moves m e m' e'
| mv_lose e' : current_role m = MASTER → current_role m' = STANDBY → dget (leases m') K = None →
    (stop_event m' = false → stop_event m = false) → calls m' = calls m ++ [OnBecomeStandby] → moves m e m' e'
| mv_exit e' : current_role m = MASTER → current_role m' = STANDBY → dget (leases m') K = None →
    stop_event m' = true → moves m e m' e'
| mv_stay e' : current_role m = STANDBY → current_role m' = STANDBY → leases m' = leases m → (stop_event m' = false → stop_event m = false) → calls m' = calls m →
    e' = e ∨ Lock_acquire K ttl e = (e', None) → moves m e m' e'
| mv_take id e' report : current_role m = STANDBY → dget (leases m) K = None → Lock_acquire K ttl e = (e', Some id) →
    current_role m' = MASTER → leases m' = dset (leases m) K id → (stop_event m' = false → stop_event m = false) → calls m' = calls m ++ [OnBecomeMaster report] → moves m e m' e'.

(** Between rounds a manager has the lease iff it is master. *)
Definition consistent (m : Manager) : Prop :=
  match current_role m with MASTER => is_Some (dget (leases m) K) | STANDBY => dget (leases m) K = None end.

(** A failed renewal gives the lease up, whatever etcd answers. *)
Lemma release_gone m e : ∃ e' b, release_lock (master_lock_key cfg) (m, e) = ((with_leases m (ddel (leases m) K), e'), Ret b) ∨
  dget (leases m) K = None ∧ release_lock (master_lock_key cfg) (m, e) = ((m, e), Ret false).
Proof.
  unfold release_lock. destruct (dget (leases m) K) as [l|]; [|by exists e, false; right].
  destruct (lease_revoke l e) as [e' r]. exists e', (is_ret r). by left.
Qed.

Lemma renew_cases m e l :
  dget (leases m) K = Some l →
  (∃ t e', lease_keep_alive l e = (e', Ret t) ∧ 0 < t ∧ renew_lease (master_lock_key cfg) (m, e) = ((m, e'), Ret true)) ∨
  ∃ e', renew_lease (master_lock_key cfg) (m, e) = ((with_leases m (ddel (leases m) K), e'), Ret false).
Proof.
  intros Hl. unfold renew_lease. rewrite Hl. destruct (lease_keep_alive l e) as [e1 r] eqn:Ek.
  destruct (match r with Ret t => 0 <? t | Raise _ => false end) eqn:Et.
  - left. destruct r as [t|x]; [|done]. apply Z.ltb_lt in Et. by exists t, e1.
  - right. destruct (release_gone m e1) as (e2 & b & [H|[H _]]); [|by rewrite Hl in H].
    exists e2. by rewrite (M_bind_Ret _ _ _ _ _ H).
Qed.

Lemma acquire_cases m e :
  dget (leases m) K = None →
  (∃ e', Lock_acquire K ttl e = (e', None) ∧ acquire_lock (master_lock_key cfg) ttl (m, e) = ((m, e'), Ret false)) ∨
  ∃ e' id, Lock_acquire K ttl e = (e', Some id) ∧ acquire_lock (master_lock_key cfg) ttl (m, e) = ((with_leases m (dset (leases m) K id), e'), Ret true).
Proof.
  intros Hl. unfold acquire_lock, dhas. rewrite bool_decide_false by (rewrite Hl; by intros [? ?]).
  destruct (Lock_acquire K ttl e) as [e1 [id|]]; [right; by exists e1, id|left; by exists e1].
Qed.

(** The lock code raises nothing, so there is only ever one attempt. *)
Lemma try_once n m e :
  stop_event m = false → dget (leases m) K = None →
  try_become_master (S n) (m, e) =
  match Lock_acquire K ttl e with
  | (e', None) => ((with_role m STANDBY, e'), Ret false)
  | (e', Some id) => ((with_role (with_leases m (dset (leases m) K id)) MASTER, e'), Ret true)
  end.
Proof.
  intros Hs Hl. cbn [try_become_master]. erewrite M_bind_Ret by reflexivity. cbn [fst]. rewrite Hs. unfold mexcept.
  destruct (acquire_cases m e Hl) as [(e1 & -> & Ha)|(e1 & id & -> & Ha)]; by rewrite (M_bind_Ret _ _ _ _ _ Ha).
Qed.

Lemma ignore_raise {S} (body : M S unit) s : (mexcept body (λ _, mret tt) s).1 = (body s).1 .
Proof. unfold mexcept. destruct (body s) as [s' [a|[]]]; done. Qed.

Lemma round_moves report ok m e :
  consistent m → stop_event m = false →
  let s' := (standby_round report ok (m, e)).1 in moves m e s'.1 s'.2.
Proof.
  intros Hc Hs. cbv zeta. unfold standby_round. rewrite ignore_raise. erewrite M_bind_Ret by reflexivity. cbn [fst]. unfold consistent in Hc.
  destruct (current_role m) eqn:Hr.
  - rewrite bool_decide_false by done. destruct (master_lock_max_failures cfg) as [|n].
    { erewrite M_bind_Ret by reflexivity. erewrite M_bind_Ret by reflexivity. apply mv_stay; try done. by left. }
    pose proof (try_once n m e Hs Hc) as Ht. destruct (Lock_acquire K ttl e) as [e1 [id|]] eqn:Ea.
    + rewrite (M_bind_Ret _ _ _ _ _ Ht). destruct ok.
      * erewrite M_bind_Ret by (erewrite M_bind_Ret by reflexivity; reflexivity). by eapply mv_take.
      * erewrite M_bind_Raise by (erewrite M_bind_Ret by reflexivity; reflexivity). by eapply mv_take.
    + rewrite (M_bind_Ret _ _ _ _ _ Ht). erewrite M_bind_Ret by reflexivity. apply mv_stay; try done. by right.
  - rewrite bool_decide_true by done. destruct Hc as [l Hl].
    assert (renew_master_lock (m, e) = renew_lease (master_lock_key cfg) (m, e)) as Hn.
    { unfold renew_master_lock. erewrite M_bind_Ret by reflexivity. cbn [fst]. by rewrite Hr, bool_decide_true. }
    destruct (renew_cases m e l Hl) as [(t & e1 & Hk & Ht & H)|[e1 H]]; rewrite <- Hn in H; rewrite (M_bind_Ret _ _ _ _ _ H).
    + by eapply mv_renew.
    + erewrite M_bind_Ret by reflexivity. erewrite M_bind_Ret by reflexivity.
      assert (dget (ddel (leases m) K) K = None) as Hd by (rewrite dget_ddel; by rewrite decide_True).
      destruct ok; by apply mv_lose.
Qed.

Lemma exit_moves m e :
  consistent m → let s' := (loop_exit (m, e)).1 in moves m e s'.1 s'.2.
Proof.
  intros Hc. cbv zeta. unfold loop_exit. erewrite M_bind_Ret by reflexivity. erewrite M_bind_Ret by reflexivity. cbn [fst current_role stopping].
  unfold consistent in Hc. destruct (current_role m) eqn:Hr; [rewrite bool_decide_false by done|rewrite bool_decide_true by done].
  - apply mv_stay; try done. by left.
  - destruct Hc as [l Hl]. destruct (release_gone (stopping m) e) as (e1 & b & [H|[H _]]); [|change (leases (stopping m)) with (leases m) in H; by rewrite Hl in H].
    rewrite (M_bind_Ret _ _ _ _ _ H). apply mv_exit; try done. cbn. rewrite dget_ddel. by rewrite decide_True.
Qed.

Lemma moves_consistent m e m' e' : consistent m → moves m e m' e' → consistent m'.
Proof.
  unfold consistent. intros Hc Hm. destruct Hm as [l t e' H1 H2 _ _ H5 H6 _ _|e' H1 H2 H3 _ _|e' H1 H2 H3 _|e' H1 H2 H3 _ _ _|id e' r H1 H2 _ H4 H5 _ _].
  - by rewrite H5, H6, H2.
  - by rewrite H2.
  - by rewrite H2.
  - by rewrite H2, H3; rewrite H1 in Hc.
  - rewrite H4, H5, dget_dset_eq. by eexists.
Qed.

(** *** The cluster *)

Record cluster_inv (c : Cluster) : Prop := {
  cl_consistent i : consistent (managers c i);
  cl_lease i l : dget (leases (managers c i)) K = Some l →
    issued (etcd c) l ∧ granted (etcd c) l = ttl ∧ holder (etcd c) etcd_key = Some l ∧ ttl - since c i <= life (etcd c) l;
  cl_unique i j : is_Some (dget (leases (managers c i)) K) → is_Some (dget (leases (managers c j)) K) → i = j
}.

Lemma cluster_inv_init e : cluster_inv (mkCluster (λ _, Manager_init) e (λ _, 0)).
Proof. constructor; [done|done|]. by intros i j [l Hl]. Qed.

(** A move of one manager: the others keep their lease, and none gets a second one. *)
Lemma cluster_inv_move c i m' e' :
  cluster_inv c → moves (managers c i) (etcd c) m' e' → cluster_inv (mkCluster (upd (managers c) i m') e' (upd (since c) i 0)).
Proof.
  intros [Hc Hl Hu] Hm. pose proof (moves_consistent _ _ _ _ (Hc i) Hm) as Hc'.
  assert (∀ j l, j ≠ i → dget (leases (managers c j)) K = Some l → keeps l (etcd c) e' ∧ dget (leases m') K = None) as Hother.
  { intros j l Hne Hj. destruct (Hl j l Hj) as (Hi & _ & Hh & _).
    assert (dget (leases (managers c i)) K = None) as Hnone.
    { destruct (dget (leases (managers c i)) K) as [l'|] eqn:E'; [|done]. destruct Hne. apply Hu; rewrite ?Hj, ?E'; by eexists. }
    destruct Hm as [l0 t e' H1 H2 _ _ H5 H6 _ _|e' H1 _ H3 _ _|e' H1 _ H3 _|e' H1 H2 H3 _ _ H5|id e' r H1 H2 Ha H4 H5 _ _].
    - congruence.
    - specialize (Hc i). unfold consistent in Hc. rewrite H1, Hnone in Hc. by destruct Hc.
    - specialize (Hc i). unfold consistent in Hc. rewrite H1, Hnone in Hc. by destruct Hc.
    - rewrite H3. split; [|done]. destruct H5 as [->|Ha]; [by split_and!|by apply acquire_denied].
    - apply acquire_taken in Ha as (Ha & _). congruence. }
  constructor; cbn [managers etcd since].
  - intros j. unfold upd. by case_decide.
  - intros j l. unfold upd. case_decide as Hj; [subst j|].
    + intros Hm'. destruct Hm as [l0 t e' H1 H2 H3 H4 H5 H6 _ _|e' H1 _ H3 _ _|e' H1 _ H3 _|e' H1 H2 H3 _ _ H5|id e' r H1 H2 Ha H4 H5 _ _]; try congruence.
      * assert (l0 = l) as -> by congruence. destruct (Hl i l H2) as (Hi & Hg & Hh & _).
        destruct (keep_lease l (etcd c) l) as (K1 & K2 & _). pose proof (keep_holder l (etcd c) etcd_key) as K3.
        pose proof (keep_renewed l (etcd c) e' t H3 H4) as K4. rewrite H3 in K1, K2, K3. cbn in K1, K2, K3.
        split_and!; [auto|congruence|congruence|lia].
      * specialize (Hc i). unfold consistent in Hc. rewrite H1 in Hc. congruence.
      * rewrite H5, dget_dset_eq in Hm'. injection Hm' as <-. apply acquire_taken in Ha as (_ & K1 & K2 & K3 & K4). split_and!; [done..|lia].
    + intros Hj'. destruct (Hl j l Hj') as (Hi & Hg & Hh & Hlife). destruct (Hother j l Hj Hj') as [(K1 & K2 & K3 & K4) _].
      split_and!; [auto|congruence|auto|lia].
  - intros j k. unfold upd. do 2 case_decide; subst; [done| | |by apply Hu].
    + intros [l1 H1] [l2 H2]. destruct (Hother k l2) as [_ Hn]; [done|done|congruence].
    + intros [l1 H1] [l2 H2]. destruct (Hother j l1) as [_ Hn]; [done|done|congruence].
Qed.

Lemma cluster_inv_step c o : punctual c o → cluster_inv c → cluster_inv (cluster_step o c).
Proof.
  intros Hp Hc. destruct o as [i report ok|i|i|]; cbn [cluster_step].
  - destruct (stop_event (managers c i)) eqn:Es; [done|]. unfold on_manager.
    pose proof (round_moves report ok (managers c i) (etcd c) (cl_consistent c Hc i) Es) as Hm. cbv zeta in Hm.
    destruct (standby_round report ok (managers c i, etcd c)) as [[m e] r]. by apply cluster_inv_move.
  - unfold on_manager. pose proof (exit_moves (managers c i) (etcd c) (cl_consistent c Hc i)) as Hm. cbv zeta in Hm.
    destruct (loop_exit (managers c i, etcd c)) as [[m e] r]. by apply cluster_inv_move.
  - destruct Hc as [Hc Hl Hu]. constructor; cbn [managers etcd since]; unfold upd.
    + intros j. by case_decide.
    + intros j l. case_decide; [done|apply Hl].
    + intros j k. do 2 case_decide; [by intros [? ?] [? ?]..|apply Hu].
  - destruct Hc as [Hc Hl Hu]. constructor; cbn [managers etcd since]; [done| |done].
    intros i l Hi. destruct (Hl i l Hi) as (H1 & H2 & H3 & H4). destruct (tick_lease (etcd c) l) as (K1 & K2 & K3).
    assert (current_role (managers c i) = MASTER) as Hr.
    { specialize (Hc i). unfold consistent in Hc. destruct (current_role _); [congruence|done]. }
    specialize (Hp i Hr). split_and!; [auto|congruence| |lia]. apply tick_holder; [done|lia].
Qed.

Lemma cluster_reach_inv e c : cluster_reach e c → cluster_inv c.
Proof. induction 1 as [|c o _ IH Hp]; [apply cluster_inv_init|by apply cluster_inv_step]. Qed.

(** *** The callbacks *)

(** The role the callbacks say, while they alternate. *)
Definition role_step (r : option StandbyRole) (x : callback) : option StandbyRole :=
  match r, x with
  | Some STANDBY, OnBecomeMaster _ => Some MASTER
  | Some MASTER, OnBecomeStandby => Some STANDBY
  | _, _ => None
  end.
Definition role_told (l : list callback) : option StandbyRole := fold_left role_step l (Some STANDBY).

Lemma role_told_snoc l x : role_told (l ++ [x]) = role_step (role_told l) x.
Proof. unfold role_told. by rewrite fold_left_app. Qed.

Definition told (m : Manager) : Prop := stop_event m = false → role_told (calls m) = Some (current_role m).

Lemma moves_told m e m' e' : told m → moves m e m' e' → told m'.
Proof.
  intros Ht Hm Hs.
  destruct Hm as [l t e' H1 H2 _ _ H5 H6 H8 H7|e' H1 H2 H3 H8 H4|e' H1 H2 H3 H4|e' H1 H2 H3 H8 H4 _|id e' r H1 H2 _ H4 H5 H8 H6]; try specialize (Ht (H8 Hs)).
  - by rewrite H7, Ht, H1, H5.
  - by rewrite H4, role_told_snoc, Ht, H1, H2.
  - congruence.
  - by rewrite H4, Ht, H1, H2.
  - by rewrite H6, role_told_snoc, Ht, H1, H4.
Qed.

Lemma told_step c o : cluster_inv c → (∀ i, told (managers c i)) → ∀ i, told (managers (cluster_step o c) i).
Proof.
  intros Hc Ht. destruct o as [i report ok|i|i|]; cbn [cluster_step]; [| | |done].
  - destruct (stop_event (managers c i)) eqn:Es; [done|]. unfold on_manager.
    pose proof (round_moves report ok (managers c i) (etcd c) (cl_consistent c Hc i) Es) as Hm. cbv zeta in Hm.
    destruct (standby_round report ok (managers c i, etcd c)) as [[m e] r]. intros j. cbn [managers]. unfold upd. case_decide; [|done].
    by eapply moves_told.
  - unfold on_manager. pose proof (exit_moves (managers c i) (etcd c) (cl_consistent c Hc i)) as Hm. cbv zeta in Hm.
    destruct (loop_exit (managers c i, etcd c)) as [[m e] r]. intros j. cbn [managers]. unfold upd. case_decide; [|done]. by eapply moves_told.
  - intros j. cbn [managers]. unfold upd. by case_decide.
Qed.

Lemma cluster_reach_told e c : cluster_reach e c → ∀ i, told (managers c i).
Proof. induction 1 as [|c o Hr IH Hp]; [done|]. by apply told_step; [by eapply cluster_reach_inv|]. Qed.
End service.

(** ** An etcd

    One that never fails and expires leases on the second, to show that the laws hold of
    something and to run the managers on it. *)

Record Simple := mkSimple { time : Z; next_lease : Z; renewed_at : Z → Z; ttls : Z → Z; keys : string → option Z }.

Definition simple_life (e : Simple) (l : Z) : Z := renewed_at e l + ttls e l - time e.
Definition simple_holder (e : Simple) (k : string) : option Z :=
  match keys e k with Some l => if (l <? next_lease e) && (0 <? simple_life e l) then Some l else None | None => None end.
Definition set_at {A} (f : Z → A) (l : Z) (x : A) : Z → A := λ l', if decide (l' = l) then x else f l'.

#[global] Instance simple_service : EtcdService Simple := {
  lease_grant ttl e := (mkSimple (time e) (next_lease e + 1) (set_at (renewed_at e) (next_lease e) (time e)) (set_at (ttls e) (next_lease e) ttl)
    (λ k, if decide (keys e k = Some (next_lease e)) then None else keys e k), Ret (next_lease e));
  put_if_absent k l e :=
    match simple_holder e k with
    | Some _ => (e, Ret false)
    | None => if (l <? next_lease e) && (0 <? simple_life e l)
              then (mkSimple (time e) (next_lease e) (renewed_at e) (ttls e) (λ k', if decide (k' = k) then Some l else keys e k'), Ret true)
              else (e, Raise RuntimeError)
    end;
  lease_keep_alive l e :=
    if (0 <? simple_life e l) && (0 <? ttls e l)
    then (mkSimple (time e) (next_lease e) (set_at (renewed_at e) l (time e)) (ttls e) (keys e), Ret (ttls e l)) else (e, Ret 0);
  lease_revoke l e := (mkSimple (time e) (next_lease e) (set_at (renewed_at e) l (time e - ttls e l)) (ttls e) (keys e), Ret tt);
  tick e := mkSimple (time e + 1) (next_lease e) (renewed_at e) (ttls e) (keys e);
  holder := simple_holder;
  life := simple_life;
  granted := ttls;
  issued e l := l < next_lease e
}.

Ltac simple_etcd := intros; cbn in *; unfold simple_holder, simple_life, set_at in *; cbn in *;
  repeat (case_match || case_decide || simplify_eq/= || match goal with
    | H : _ && _ = true |- _ => apply andb_true_iff in H as [? ?]
    | H : _ && _ = false |- _ => apply andb_false_iff in H
    | H : (_ <? _) = true |- _ => apply Z.ltb_lt in H
    | H : (_ <? _) = false |- _ => apply Z.ltb_ge in H
    end); try (split_and!; intros); try lia; try congruence; try done.

#[global] Instance simple_laws : EtcdLaws Simple.
Proof. constructor; simple_etcd; exfalso; first [intuition lia|match goal with H : Some _ = Some _ |- _ => injection H as -> end; lia]. Qed.

(** ** Properties *)


(** The callbacks tell the process its role.  In every state the competing processes
    reach, the callbacks a running manager has made alternate, the first one makes its
    process master, and the last one agrees with the role of the manager, also when a
    callback raises. *)
Theorem callbacks_follow_role {E} `{!EtcdService E, !EtcdLaws E} cfg e c i :
  cluster_reach cfg e c → stop_event (managers c i) = false →
  role_told (calls (managers c i)) = Some (current_role (managers c i)).
Proof.
  intros Hr. by apply (cluster_reach_told cfg e c Hr).
Qed.

(** A free lock is taken at once, and the retries are never used.  A running standby
    that reaches its round while etcd grants a lease and gives it the key becomes master
    in that round and tells its process; if it does not get the key, the round ends after
    that one attempt, whatever the configured number of attempts. *)
Theorem standby_takes_lock {E} `{!EtcdService E, !EtcdLaws E} cfg e c i report :
  cluster_reach cfg e c → stop_event (managers c i) = false → current_role (managers c i) = STANDBY →
  (1 <= master_lock_max_failures cfg)%nat →
  let m := managers c i in
  let s' := (standby_round cfg report true (m, etcd c)).1 in
  match Lock_acquire (full_key cfg (master_lock_key cfg)) (master_lock_ttl cfg) (etcd c) with
  | (e', Some id) => s'.2 = e' ∧ current_role s'.1 = MASTER ∧ calls s'.1 = calls m ++ [OnBecomeMaster report]
  | (e', None) => s'.2 = e' ∧ current_role s'.1 = STANDBY ∧ calls s'.1 = calls m
  end.
Proof.
  intros Hr Hs Hrole Hn m s'. destruct (cluster_reach_inv cfg e c Hr) as [Hc _ _]. specialize (Hc i). unfold consistent in Hc. rewrite Hrole in Hc.
  destruct (master_lock_max_failures cfg) as [|n] eqn:En; [lia|].
  pose proof (try_once cfg n m (etcd c) Hs Hc) as Ht. unfold s', standby_round. rewrite ignore_raise, En.
  erewrite M_bind_Ret by reflexivity. cbn [fst]. unfold m in Ht |- *. rewrite bool_decide_false by (by rewrite Hrole).
  destruct (Lock_acquire _ _ _) as [e1 [id|]]; rewrite (M_bind_Ret _ _ _ _ _ Ht).
  - erewrite M_bind_Ret by (erewrite M_bind_Ret by reflexivity; reflexivity). done.
  - erewrite M_bind_Ret by reflexivity. done.
Qed.

(** A manager that is stopped does not tell its process.  Stopping a master gives the
    lock back and leaves the last callback the one that made the process master. *)
Theorem stop_tells_nothing {E} `{!EtcdService E, !EtcdLaws E} cfg m (e : E) :
  current_role m = MASTER → is_Some (dget (leases m) (full_key cfg (master_lock_key cfg))) →
  let s' := (loop_exit cfg (m, e)).1 in
  current_role s'.1 = STANDBY ∧ dget (leases s'.1) (full_key cfg (master_lock_key cfg)) = None ∧ calls s'.1 = calls m.
Proof.
  intros Hr [l Hl]. cbv zeta. unfold loop_exit. erewrite M_bind_Ret by reflexivity. erewrite M_bind_Ret by reflexivity.
  cbn [fst current_role stopping]. rewrite bool_decide_true by done.
  destruct (release_gone cfg (stopping m) e) as (e1 & b & [H|[H _]]); [|change (leases (stopping m)) with (leases m) in H; by rewrite Hl in H].
  rewrite (M_bind_Ret _ _ _ _ _ H). cbn [fst snd set_role mmodify with_role current_role leases calls with_leases stopping].
  rewrite dget_ddel. by rewrite decide_True.
Qed.

(** *** Witnesses *)

Definition sample_lock : LockConfig := mkLock "ns" "job" "/controller/master_lock" 10 3.
Definition sample_etcd : Simple := mkSimple 0 1 (λ _, 0) (λ _, 0) (λ _, None).
Fixpoint cluster_run (c : Cluster (E := Simple)) (ops : list cluster_op) : Cluster :=
  match ops with [] => c | o :: ops => cluster_run (cluster_step sample_lock o c) ops end.
Fixpoint all_punctual (c : Cluster (E := Simple)) (ops : list cluster_op) : Prop :=
  match ops with [] => True | o :: ops => punctual sample_lock c o ∧ all_punctual (cluster_step sample_lock o c) ops end.
Lemma cluster_run_reach e ops : ∀ c, cluster_reach sample_lock e c → all_punctual c ops → cluster_reach sample_lock e (cluster_run c ops).
Proof. induction ops as [|o ops IH]; intros c Hc H; [done|]. destruct H as [H1 H2]. apply IH; [by constructor|done]. Qed.
Definition sample_cluster : Cluster := mkCluster (λ _, Manager_init) sample_etcd (λ _, 0).
(** The first takes the lock, renews it after five seconds, and crashes; the second gets it
    when the lease is over. *)
Definition takeover : list cluster_op :=
  [CRound 0 false true; CRound 1 false true] ++ repeat CTick 5 ++ [CRound 0 false true; CRound 1 false true; CCrash 0] ++
  repeat CTick 10 ++ [CRound 1 true true].
Lemma takeover_reach : cluster_reach sample_lock sample_etcd (cluster_run sample_cluster takeover).
Proof.
  apply cluster_run_reach; [constructor|]. vm_compute. split_and!; try exact I;
    intros [|[|i]]; intros H; first [discriminate H|reflexivity].
Qed.
Example second_is_master : map (λ i, current_role (managers (cluster_run sample_cluster takeover) i)) [0; 1]%nat = [STANDBY; MASTER].
Proof. reflexivity. Qed.


Lemma callbacks_follow_role_witness :
  role_told (calls (managers (cluster_run sample_cluster takeover) 1)) = Some MASTER.
Proof. exact (callbacks_follow_role sample_lock sample_etcd (cluster_run sample_cluster takeover) 1 takeover_reach eq_refl). Defined.

Lemma standby_takes_lock_witness :
  current_role (standby_round sample_lock false true (Manager_init, sample_etcd)).1.1 = MASTER.
Proof.
  exact (proj1 (proj2 (standby_takes_lock sample_lock sample_etcd sample_cluster 0 false (cluster_init sample_lock sample_etcd) eq_refl eq_refl
    ltac:(vm_compute; lia)))).
Defined.

Lemma stop_tells_nothing_witness :
  calls (loop_exit sample_lock (managers (cluster_run sample_cluster takeover) 1, sample_etcd)).1.1 = [OnBecomeMaster true].
Proof.
  exact (proj2 (proj2 (stop_tells_nothing sample_lock (managers (cluster_run sample_cluster takeover) 1) sample_etcd eq_refl
    ltac:(vm_compute; by eexists)))).
Defined.

(** A master whose start of its process takes longer than the lease: two are master. *)
Example late_master :
  map (λ i, current_role (managers (cluster_run sample_cluster ([CRound 0 false true] ++ repeat CTick 10 ++ [CRound 1 false true])) i)) [0; 1]%nat
  = [MASTER; MASTER].
Proof. reflexivity. Qed.
