(* ===== verification/CoordDaemon.v ===== *)
(** * The coordinator daemon

    Models [coordinator/daemon] (the daemon's role callbacks, the supervisor of its
    processes, the role memory), [coordinator/process/base.py], the worker group of
    [coordinator/process/inference_manager.py], and the probes of
    [coordinator/domain/probe.py] that read the role memory.  Processes are numbers, alive
    or not; a list of processes is an object, since a finalizer keeps the list it was made
    for while the manager may move to a new one. *)

From stdpp Require Import base option list strings sets.
From Stdlib Require Import ZArith Lia.
From S2P Require Import Prelude Float64 Resources CoordInstanceManager WorkloadShm.
Open Scope Z_scope.

(** ** State *)

Abbreviation proc := nat.

(** [BaseProcessManager]; the inference workers override [is_running] and have
    [restart_dead_workers]. *)
Record ProcessManager := mkPM { inference : bool; process_count : nat; processes : ref; finalizer : option ref }.

Record Daemon := mkDaemon {
  alive : proc → bool;
  next_proc : proc;
  lists : ref → list proc;
  next_list : ref;
  process_managers : dict string ProcessManager;
  restart_limits : dict string (list f64);
  role_shm : option bytes
}.

Definition set_alive (s : Daemon) f n := mkDaemon f n (lists s) (next_list s) (process_managers s) (restart_limits s) (role_shm s).
Definition set_lists (s : Daemon) f n := mkDaemon (alive s) (next_proc s) f n (process_managers s) (restart_limits s) (role_shm s).
Definition put_manager (s : Daemon) name m := mkDaemon (alive s) (next_proc s) (lists s) (next_list s) (dset (process_managers s) name m) (restart_limits s) (role_shm s).
Definition put_limit (s : Daemon) name l := mkDaemon (alive s) (next_proc s) (lists s) (next_list s) (process_managers s) (dset (restart_limits s) name l) (role_shm s).
Definition put_shm (s : Daemon) b := mkDaemon (alive s) (next_proc s) (lists s) (next_list s) (process_managers s) (restart_limits s) b.

Definition PROCESS_KEY_SCHEDULER : string := "SchedulerProcess".
Definition PROCESS_KEY_MGMT : string := "MgmtProcess".
Definition PROCESS_KEY_INFERENCE : string := "InferenceWorkers".
Definition STOP_ORDER : list string := [PROCESS_KEY_INFERENCE; PROCESS_KEY_MGMT; PROCESS_KEY_SCHEDULER].

Definition fupd {A} (f : nat → A) (i : nat) (x : A) : nat → A := λ j, if decide (j = i) then x else f j.

(** ** Process managers *)

(** What becomes of a process that is created and started: an exception, or a process that
    is alive afterwards or not. *)
Inductive birth := BirthFails | Born (lives : bool).

Definition new_process (b : birth) : M Daemon proc := λ s,
  match b with
  | BirthFails => (s, Raise RuntimeError)
  | Born lives => (set_alive s (fupd (alive s) (next_proc s) lives) (S (next_proc s)), Ret (next_proc s))
  end.

Definition new_list (l : list proc) : M Daemon ref := λ s,
  (set_lists s (fupd (lists s) (next_list s) l) (S (next_list s)), Ret (next_list s)).
Definition write_list (r : ref) (l : list proc) : M Daemon unit := mmodify (λ s, set_lists s (fupd (lists s) r l) (next_list s)).

(** [is_running]: any process alive, or for the workers all of them and at least one. *)
Definition is_running (s : Daemon) (m : ProcessManager) : bool :=
  let l := lists s (processes m) in
  if inference m then negb (bool_decide (l = [])) && forallb (alive s) l else existsb (alive s) l.

(** Terminate, join, and kill if needed. *)
Definition kill_all (l : list proc) (s : Daemon) : Daemon :=
  set_alive s (λ p, if decide (p ∈ l) then false else alive s p) (next_proc s).

Fixpoint start_processes_from (r : ref) (i n : nat) (births : nat → birth) : M Daemon unit :=
  match n with
  | O => mret tt
  | S n =>
      p ← new_process (births i);
      s ← mget;
      write_list r (lists s r ++ [p]) ;;
      start_processes_from r (S i) n births
  end.

(** [start]: whether the processes run afterwards. *)
Definition pm_start (name : string) (m : ProcessManager) (births : nat → birth) : M Daemon bool :=
  s ← mget;
  if is_running s m then mret true
  else
    r ← new_list [];
    let m := mkPM (inference m) (process_count m) r (finalizer m) in
    mmodify (λ s, put_manager s name m) ;;
    started ← mexcept (start_processes_from r 0 (process_count m) births ;; mret true) (λ _, mret false);
    if started : bool then
      s ← mget;
      if is_running s m then mmodify (λ s, put_manager s name (mkPM (inference m) (process_count m) r (Some r))) ;; mret true
      else mret false
    else
      r' ← new_list [];
      mmodify (λ s, put_manager s name (mkPM (inference m) (process_count m) r' (finalizer m))) ;;
      mret false.

(** [stop]: the processes of the finalizer, then those of the manager. *)
Definition pm_stop (name : string) (m : ProcessManager) : M Daemon unit :=
  mmodify (λ s, match finalizer m with Some r => kill_all (lists s r) s | None => s end) ;;
  mmodify (λ s, kill_all (lists s (processes m)) s) ;;
  r ← new_list [];
  mmodify (λ s, put_manager s name (mkPM (inference m) (process_count m) r None)).

(** [restart_dead_workers]: each dead worker is replaced at its place; one that cannot be
    started is left. *)
Definition dead_indices (s : Daemon) (l : list proc) : list nat :=
  List.filter (λ i, match l !! i with Some p => negb (alive s p) | None => false end) (seq 0 (length l)).
Fixpoint replace_workers (r : ref) (dead : list nat) (births : nat → birth) : M Daemon unit :=
  match dead with
  | [] => mret tt
  | i :: dead =>
      mexcept (p ← new_process (births i); s ← mget; write_list r (<[i := p]> (lists s r))) (λ _, mret tt) ;;
      replace_workers r dead births
  end.
Definition restart_dead_workers (m : ProcessManager) (births : nat → birth) : M Daemon bool :=
  s ← mget;
  let dead := dead_indices s (lists s (processes m)) in
  if decide (dead = []) then mret true
  else
    replace_workers (processes m) dead births ;;
    s ← mget;
    mret (is_running s m).

(** ** SubprocessSupervisor *)

Definition RESTART_WINDOW_SECONDS : f64 := f_of_Z 60.
Definition MAX_RESTART_PER_MINUTE : nat := 5.

(** [RestartLimiter.can_restart], with the timestamps it keeps, and [record]. *)
Fixpoint prune_old (cutoff : f64) (l : list f64) : list f64 :=
  match l with t :: l' => if flt t cutoff then prune_old cutoff l' else l | [] => [] end.
Definition can_restart (now : f64) (l : list f64) : bool * list f64 :=
  let l := prune_old (fsub now RESTART_WINDOW_SECONDS) l in ((length l <? MAX_RESTART_PER_MINUTE)%nat, l).
Definition record (now : f64) (l : list f64) : list f64 := l ++ [now].

(** What a round of the supervisor sees: the clock when it asks and when it records, and
    what becomes of the processes it starts. *)
Record SupEnv := mkSup { asked_at : string → f64; recorded_at : string → f64; sup_births : string → nat → birth }.

Definition limit_of (s : Daemon) (name : string) : list f64 := default [] (dget (restart_limits s) name).

Definition supervise_one (env : SupEnv) (name : string) : M Daemon unit :=
  s ← mget;
  match dget (process_managers s) name with
  | None => mret tt
  | Some m =>
      if is_running s m then mret tt
      else
        let '(ok, l) := can_restart (asked_at env name) (limit_of s name) in
        mmodify (λ s, put_limit s name l) ;;
        if ok then
          started ←
            (if inference m then restart_dead_workers m (sup_births env name)
             else
               pm_stop name m ;;
               s ← mget;
               match dget (process_managers s) name with Some m => pm_start name m (sup_births env name) | None => mret false end);
          if started : bool then mmodify (λ s, put_limit s name (record (recorded_at env name) (limit_of s name))) else mret tt
        else mret tt
  end.

(** A round of [run], over the managers that are supervised. *)
Definition supervisor_round (env : SupEnv) (supervised : string → bool) : M Daemon unit :=
  s ← mget;
  mfor (dkeys (process_managers s)) (λ name, if supervised name then supervise_one env name else mret tt).

(** ** CoordinatorDaemon *)

Definition start_processes (names : list string) (births : string → nat → birth) : M Daemon unit :=
  mfor names (λ name,
    s ← mget;
    match dget (process_managers s) name with
    | None => mret tt
    | Some m => pm_start name m (births name) ;; mret tt
    end).

Definition stop_all_processes (exclude : list string) : M Daemon unit :=
  mfor STOP_ORDER (λ name,
    if bool_decide (name ∈ exclude) then mret tt
    else s ← mget; match dget (process_managers s) name with None => mret tt | Some m => pm_stop name m end).

(** *** The role memory: a byte for the role, eight for the time of the last heartbeat *)

Definition ROLE_SHM_SIZE : nat := 9.
Definition ROLE_SHM_MASTER : Z := 1.
Definition ROLE_SHM_STANDBY : Z := 0.

Definition write_role_shm_byte (b : Z) : M Daemon unit := mmodify (λ s,
  match role_shm s with Some buf => put_shm s (Some (<[0%nat := b]> buf)) | None => s end).

(** [RoleShmHolder._write_initial] and a beat of [_heartbeat_loop]: a time that does not
    fit is logged and not written. *)
Definition write_heartbeat (ns : Z) (buf : bytes) : bytes :=
  match (d ← pack_u 8 ns; splice 1 d buf) with Ret b => b | Raise _ => buf end.
Definition write_initial (initial_role_master : bool) (ns : Z) (buf : bytes) : bytes :=
  write_heartbeat ns (if initial_role_master then <[0%nat := ROLE_SHM_MASTER]> buf else buf).
(** [start] with a memory already there, or a new one of zeros. *)
Definition holder_start (existing : option bytes) (initial_role_master : bool) (ns : Z) : bytes :=
  match existing with
  | Some buf => if (ROLE_SHM_SIZE <=? length buf)%nat then write_initial initial_role_master ns buf
                else write_initial initial_role_master ns (replicate ROLE_SHM_SIZE 0)
  | None => write_initial initial_role_master ns (replicate ROLE_SHM_SIZE 0)
  end.
Definition heartbeat (ns : Z) : M Daemon unit := mmodify (λ s,
  match role_shm s with Some buf => put_shm s (Some (write_heartbeat ns buf)) | None => s end).

(** The callbacks of the standby manager. *)
Definition on_become_master (births : string → nat → birth) : M Daemon unit :=
  write_role_shm_byte ROLE_SHM_MASTER ;; start_processes [PROCESS_KEY_INFERENCE] births.
Definition on_become_standby : M Daemon unit :=
  write_role_shm_byte ROLE_SHM_STANDBY ;; stop_all_processes [PROCESS_KEY_MGMT; PROCESS_KEY_SCHEDULER].

Definition supervised_keys (enable_master_standby is_master : bool) (name : string) : bool :=
  negb enable_master_standby || is_master || bool_decide (name ∈ [PROCESS_KEY_SCHEDULER; PROCESS_KEY_MGMT]).

(** ** The probes *)

Record RoleHeartbeatResult := mkRole { is_master : bool; heartbeat_stale : bool; orphaned : bool }.
Inductive LivenessResult := LIVE_OK | LIVE_DAEMON_EXITED | LIVE_HEARTBEAT_STALE.
Inductive ReadinessResult := OK_MASTER | OK_STANDBY | NOT_MASTER | READY_HEARTBEAT_STALE | READY_DAEMON_EXITED.

(** [_is_heartbeat_stale], with the threshold in nanoseconds. *)
Definition is_heartbeat_stale (stale_ns now_ns : Z) (buf : bytes) : bool :=
  if (length buf <? ROLE_SHM_SIZE)%nat then false
  else
    let ns := le_int (slice 1 8 buf) in
    let age := now_ns - ns in
    if (ns =? 0) || (age <? 0) || (age <=? stale_ns) then false else true.

(** [read_role_and_heartbeat]: the parent is not the daemon, or the memory is not there. *)
Definition read_role_and_heartbeat (orphan : bool) (stale_ns now_ns : Z) (shm : option bytes) : RoleHeartbeatResult :=
  if orphan then mkRole false false true
  else match shm with
       | None => mkRole false false false
       | Some buf => mkRole (bool_decide (head buf = Some ROLE_SHM_MASTER)) (is_heartbeat_stale stale_ns now_ns buf) false
       end.

Definition liveness_check (r : RoleHeartbeatResult) : LivenessResult :=
  if orphaned r then LIVE_DAEMON_EXITED else if heartbeat_stale r then LIVE_HEARTBEAT_STALE else LIVE_OK.

Definition readiness_check (r : RoleHeartbeatResult) (readiness : InstanceReadiness) (enable_master_standby : bool) : ReadinessResult * bool :=
  let ready := is_ready readiness || bool_decide (readiness = ONLY_PREFILL) in
  let result :=
    if orphaned r then READY_DAEMON_EXITED
    else if heartbeat_stale r then READY_HEARTBEAT_STALE
    else if enable_master_standby then if is_master r then OK_MASTER else NOT_MASTER
    else OK_STANDBY in
  (result, match result with OK_MASTER | OK_STANDBY => ready | _ => false end).

(** ** Lemmas *)

(** *** The role memory *)

Inductive shm_write := WRole (b : Z) | WBeat (ns : Z).
Definition apply_write (buf : bytes) (w : shm_write) : bytes :=
  match w with WRole b => <[0%nat := b]> buf | WBeat ns => write_heartbeat ns buf end.
Definition last_role (first : Z) (ws : list shm_write) : Z :=
  fold_left (λ r w, match w with WRole b => b | WBeat _ => r end) ws first.
Definition last_beat (first : Z) (ws : list shm_write) : Z :=
  fold_left (λ t w, match w with WRole _ => t | WBeat ns => ns end) ws first.

(** A memory with this role and this heartbeat. *)
Definition shm_holds (role beat : Z) (buf : bytes) : Prop :=
  ∃ tail, buf = role :: le_bytes 8 beat ++ tail.

Lemma shm_holds_role role beat b buf : shm_holds role beat buf → shm_holds b beat (<[0%nat := b]> buf).
Proof. intros [tail ->]. by exists tail. Qed.

Lemma write_heartbeat_holds role ns buf :
  0 <= ns < 2 ^ 64 → (ROLE_SHM_SIZE <= length buf)%nat → head buf = Some role → shm_holds role ns (write_heartbeat ns buf).
Proof.
  intros Hns Hlen Hh. unfold write_heartbeat, pack_u. change (8 * Z.of_nat 8) with 64.
  rewrite (proj2 (Z.leb_le 0 ns)), (proj2 (Z.ltb_lt ns (2 ^ 64))) by lia. cbn [andb mbind py_bind]. unfold splice.
  assert (length (le_bytes 8 ns) = 8%nat) as H8 by done. rewrite decide_True by (rewrite H8; unfold ROLE_SHM_SIZE in Hlen; lia).
  destruct buf as [|b buf]; [done|]. injection Hh as ->. exists (drop 8 buf). done.
Qed.

Lemma shm_holds_length role beat buf : shm_holds role beat buf → (ROLE_SHM_SIZE <= length buf)%nat ∧ head buf = Some role.
Proof. intros [tail ->]. split; [|done]. cbn. unfold ROLE_SHM_SIZE. lia. Qed.

Lemma writes_hold ws : ∀ role beat buf,
  Forall (λ w, match w with WBeat ns => 0 <= ns < 2 ^ 64 | _ => True end) ws → shm_holds role beat buf →
  shm_holds (last_role role ws) (last_beat beat ws) (fold_left apply_write ws buf).
Proof.
  induction ws as [|w ws IH]; intros role beat buf Hw Hb; [done|]. apply Forall_cons in Hw as [Hw Hws]. cbn [fold_left last_role last_beat].
  destruct w as [b|ns]; apply IH; try done; [by eapply shm_holds_role|].
  destruct (shm_holds_length _ _ _ Hb) as [Hl Hh]. by apply write_heartbeat_holds.
Qed.

(** *** Stopping *)

Lemma kill_all_alive l s p : alive (kill_all l s) p = if decide (p ∈ l) then false else alive s p.
Proof. done. Qed.

Lemma pm_stop_result name m s :
  let s' := (pm_stop name m s).1 in
  let gone := match finalizer m with Some r => lists s r | None => [] end ++ lists s (processes m) in
  (pm_stop name m s).2 = Ret tt ∧
  (∀ p, alive s' p = if decide (p ∈ gone) then false else alive s p) ∧
  (∃ m', dget (process_managers s') name = Some m' ∧ lists s' (processes m') = [] ∧ finalizer m' = None) ∧
  (∀ name', name' ≠ name → dget (process_managers s') name' = dget (process_managers s) name') ∧ role_shm s' = role_shm s.
Proof.
  cbv zeta. unfold pm_stop. do 3 erewrite M_bind_Ret by reflexivity. cbn [fst snd mmodify]. split; [done|].
  split; [|split; [|split]].
  - intros p. cbn [alive put_manager set_lists]. rewrite kill_all_alive. destruct (finalizer m) as [r|].
    + cbn [lists kill_all set_alive]. rewrite kill_all_alive. repeat case_decide; set_solver.
    + done.
  - eexists. split; [cbn [process_managers put_manager]; apply dget_dset_eq|]. split; [|done].
    cbn [processes lists put_manager set_lists]. unfold fupd. by rewrite decide_True.
  - intros name' Hne. cbn [process_managers put_manager set_lists]. rewrite dget_dset_ne by done. by destruct (finalizer m).
  - cbn. by destruct (finalizer m).
Qed.

(** *** Starting *)

Lemma start_from_fails r k : ∀ n i births s,
  (k < n)%nat → (∀ j, (j < k)%nat → births (i + j)%nat = Born true) → births (i + k)%nat = BirthFails →
  ∃ s', start_processes_from r i n births s = (s', Raise RuntimeError) ∧ next_proc s' = (next_proc s + k)%nat ∧
    (∀ p, alive s' p = if decide (next_proc s <= p < next_proc s + k)%nat then true else alive s p) ∧
    process_managers s' = process_managers s ∧ restart_limits s' = restart_limits s ∧ role_shm s' = role_shm s.
Proof.
  induction k as [|k IH]; intros [|n] i births s Hn Hb Hf; try lia; cbn [start_processes_from].
  - rewrite Nat.add_0_r in Hf. rewrite Hf. erewrite M_bind_Raise by reflexivity. exists s. split_and!; try done; try lia.
    intros p. by rewrite decide_False by lia.
  - assert (births i = Born true) as Hi by (rewrite <- (Nat.add_0_r i); apply Hb; lia). rewrite Hi.
    do 3 erewrite M_bind_Ret by reflexivity.
    destruct (IH n (S i) births (set_lists (set_alive s (fupd (alive s) (next_proc s) true) (S (next_proc s)))
      (fupd (lists s) r (lists s r ++ [next_proc s])) (next_list s))) as (s' & Hs' & H1 & H2 & H3 & H4 & H5); [lia| | |].
    + intros j Hj. replace (S i + j)%nat with (i + S j)%nat by lia. apply Hb. lia.
    + by replace (S i + k)%nat with (i + S k)%nat by lia.
    + exists s'. split; [exact Hs'|]. cbn in H1, H2, H3, H4, H5. split_and!; try done; try lia.
      intros p. rewrite H2. unfold fupd. repeat case_decide; try done; try lia.
Qed.

(** *** The workers *)

Lemma replace_workers_result r births dead : ∀ s,
  NoDup dead → Forall (λ p, (p < next_proc s)%nat) (lists s r) → Forall (λ i, (i < length (lists s r))%nat) dead →
  let s' := (replace_workers r dead births s).1 in
  (replace_workers r dead births s).2 = Ret tt ∧ (next_proc s <= next_proc s')%nat ∧ (∀ p, (p < next_proc s)%nat → alive s' p = alive s p) ∧
  (∀ r', r' ≠ r → lists s' r' = lists s r') ∧ process_managers s' = process_managers s ∧
  length (lists s' r) = length (lists s r) ∧
  (∀ i p, lists s r !! i = Some p →
     (i ∉ dead → lists s' r !! i = Some p) ∧
     (i ∈ dead → match births i with
                 | Born b => ∃ q, lists s' r !! i = Some q ∧ (next_proc s <= q)%nat ∧ alive s' q = b
                 | BirthFails => lists s' r !! i = Some p
                 end)).
Proof.
  induction dead as [|i dead IH]; intros s Hnd Hlt Hin; cbn [replace_workers].
  { cbn. split_and!; try done. intros i p Hp. split; [done|]. by intros ?%elem_of_nil. }
  apply NoDup_cons in Hnd as [Hni Hnd]. apply Forall_cons in Hin as [Hi Hin].
  destruct (births i) as [|b] eqn:Eb.
  - erewrite M_bind_Ret by (unfold mexcept; erewrite M_bind_Raise by reflexivity; reflexivity).
    destruct (IH s Hnd Hlt Hin) as (H1 & H2 & H3 & H4 & H5 & H6 & H7). split_and!; try done.
    intros j p Hp. destruct (H7 j p Hp) as [K1 K2]. split; [intros Hj; apply K1; set_solver|].
    intros [->|Hj]%elem_of_cons; [|by apply K2]. rewrite Eb. by apply K1.
  - set (s1 := set_lists (set_alive s (fupd (alive s) (next_proc s) b) (S (next_proc s))) (fupd (lists s) r (<[i := next_proc s]> (lists s r))) (next_list s)).
    erewrite (M_bind_Ret _ _ _ s1 tt) by (unfold mexcept; do 2 erewrite M_bind_Ret by reflexivity; reflexivity).
    assert (lists s1 r = <[i := next_proc s]> (lists s r)) as El by (cbn; unfold fupd; by rewrite decide_True).
    destruct (IH s1 Hnd) as (H1 & H2 & H3 & H4 & H5 & H6 & H7).
    { rewrite El. apply Forall_insert; [|cbn; lia]. eapply Forall_impl; [exact Hlt|]. cbn. intros; lia. }
    { rewrite El, length_insert. done. }
    cbn [next_proc s1 set_lists set_alive] in H2, H3. split_and!; try done; [lia| | | |].
    + intros p Hp. rewrite H3 by lia. cbn. unfold fupd. by rewrite decide_False by lia.
    + intros r' Hr'. rewrite H4 by done. cbn. unfold fupd. by rewrite decide_False.
    + by rewrite H6, El, length_insert.
    + intros j p Hp. destruct (decide (j = i)) as [->|Hne].
      * split; [set_solver|]. intros _. rewrite Eb. destruct (H7 i (next_proc s)) as [K1 _]; [rewrite El; by apply list_lookup_insert_eq|].
        exists (next_proc s). split; [by apply K1|]. split; [lia|]. rewrite H3 by lia. cbn. unfold fupd. by rewrite decide_True.
      * destruct (H7 j p) as [K1 K2]; [rewrite El; by rewrite list_lookup_insert_ne|]. split; [intros Hj; apply K1; set_solver|].
        intros [?|Hj]%elem_of_cons; [done|]. specialize (K2 Hj). destruct (births j); [done|]. destruct K2 as (q & Q1 & Q2 & Q3).
        exists q. cbn in Q2. split_and!; [done|lia|done].
Qed.

Lemma elem_of_dead s l i : i ∈ dead_indices s l ↔ ∃ p, l !! i = Some p ∧ alive s p = false.
Proof.
  unfold dead_indices. rewrite list_elem_of_In, filter_In, <- list_elem_of_In, elem_of_seq. split.
  - intros [_ H]. destruct (l !! i) as [p|]; [|done]. exists p. split; [done|]. by apply negb_true_iff.
  - intros (p & Hp & Ha). rewrite Hp, Ha. apply lookup_lt_Some in Hp. split; [lia|done].
Qed.
Lemma dead_NoDup s l : NoDup (dead_indices s l).
Proof. apply NoDup_ListNoDup, List.NoDup_filter, NoDup_ListNoDup, NoDup_seq. Qed.

(** *** A group without workers *)

(** Supervision leaves the processes alone and changes only the times it keeps. *)
Definition same_processes (s s' : Daemon) : Prop :=
  (∀ p, alive s' p = alive s p) ∧ next_proc s' = next_proc s ∧ lists s' = lists s ∧ process_managers s' = process_managers s.

Lemma supervise_empty env name m s :
  dget (process_managers s) name = Some m → inference m = true → lists s (processes m) = [] →
  same_processes s (supervise_one env name s).1.
Proof.
  intros Hm Hi Hl. unfold supervise_one. erewrite M_bind_Ret by reflexivity. rewrite Hm.
  assert (is_running s m = false) as -> by (unfold is_running; by rewrite Hi, Hl).
  destruct (can_restart _ _) as [ok l]. erewrite M_bind_Ret by reflexivity. destruct ok; [|done]. rewrite Hi.
  unfold restart_dead_workers. erewrite M_bind_Ret by (erewrite M_bind_Ret by reflexivity; cbn [lists put_limit]; rewrite Hl; reflexivity). done.
Qed.

Lemma supervise_empty_many envs name m : ∀ s,
  dget (process_managers s) name = Some m → inference m = true → lists s (processes m) = [] →
  same_processes s (mfor envs (λ env, supervise_one env name) s).1.
Proof.
  induction envs as [|env envs IH]; intros s Hm Hi Hl; cbn [mfor]; [done|].
  pose proof (supervise_empty env name m s Hm Hi Hl) as (H1 & H2 & H3 & H4).
  destruct (supervise_one env name s) as [s1 [[]|e]] eqn:E; cbn [fst] in *; [|by rewrite (M_bind_Raise _ _ _ _ _ E)].
  rewrite (M_bind_Ret _ _ _ _ _ E). destruct (IH s1) as (K1 & K2 & K3 & K4); [by rewrite H4|done|by rewrite H3|].
  split_and!; [|congruence..]. intros p. by rewrite K1, H1.
Qed.

(** *** The restart limiter *)

(** Requests for a restart: when it was asked, and when it was recorded if it was allowed
    and succeeded. *)
Abbreviation request := (f64 * option f64)%type.
Definition request_step (x : list f64 * list f64) (r : request) : list f64 * list f64 :=
  let '(kept, all) := x in
  let '(ok, kept) := can_restart r.1 kept in
  match ok, r.2 with true, Some t => (record t kept, all ++ [t]) | _, _ => (kept, all) end.
(** The timestamps the limiter keeps, and the times of all restarts so far. *)
Definition requests_run (rs : list request) : list f64 * list f64 := fold_left request_step rs ([], []).

Definition cutoff (now : f64) : f64 := fsub now RESTART_WINDOW_SECONDS.
(** The clock does not go back: no cutoff is below one before. *)
Fixpoint clock_forward (last : f64) (rs : list f64) : Prop :=
  match rs with [] => True | t :: rs => is_nan (cutoff t) = false ∧ flt (cutoff t) last = false ∧ clock_forward (cutoff t) rs end.

Lemma flt_weaken x y z : flt x y = true → flt z y = false → is_nan z = false → flt x z = true.
Proof.
  intros Hxy Hzy Hz. destruct (flt x z) eqn:E; [done|]. pose proof (flt_neg_trans x z y Hz E Hzy). congruence.
Qed.

Lemma prune_old_spec c l : ∃ old, l = old ++ prune_old c l ∧ Forall (λ t, flt t c = true) old.
Proof.
  induction l as [|t l (old & Hl & Hold)]; [by exists []|]. cbn [prune_old]. destruct (flt t c) eqn:E; [|by exists []].
  exists (t :: old). split; [by rewrite Hl at 1|by constructor].
Qed.

(** What the limiter forgot is before the last cutoff. *)
Definition forgot (last : f64) (x : list f64 * list f64) : Prop := ∃ old, x.2 = old ++ x.1 ∧ Forall (λ t, flt t last = true) old.

Lemma forgot_prune last now kept all :
  is_nan (cutoff now) = false → flt (cutoff now) last = false → forgot last (kept, all) → forgot (cutoff now) ((can_restart now kept).2, all).
Proof.
  intros Hn Hl (old & Hall & Hold). cbn [fst snd] in Hall. destruct (prune_old_spec (cutoff now) kept) as (old' & Hk & Hold').
  exists (old ++ old'). cbn [fst snd can_restart]. split.
  - rewrite Hall, <- app_assoc. f_equal. exact Hk.
  - apply Forall_app. split; [|done]. eapply Forall_impl; [exact Hold|]. intros t Ht. exact (flt_weaken _ _ _ Ht Hl Hn).
Qed.

Lemma forgot_step last r x :
  is_nan (cutoff r.1) = false → flt (cutoff r.1) last = false → forgot last x → forgot (cutoff r.1) (request_step x r).
Proof.
  intros Hn Hl Hx. destruct x as [kept all]. unfold request_step. pose proof (forgot_prune last r.1 kept all Hn Hl Hx) as H.
  destruct (can_restart r.1 kept) as [ok kept']. cbn [snd] in H. destruct ok, r.2 as [t|]; try done.
  destruct H as (old & Ho & Hf). exists old. cbn [fst snd] in *. split; [|done]. unfold record. by rewrite Ho, <- app_assoc.
Qed.

Lemma forgot_run rs : ∀ last x, clock_forward last (map fst rs) → forgot last x → ∃ last', forgot last' (fold_left request_step rs x) ∧
  ∀ now, clock_forward last (map fst rs ++ [now]) → is_nan (cutoff now) = false ∧ flt (cutoff now) last' = false.
Proof.
  induction rs as [|r rs IH]; intros last x Hc Hx; cbn [fold_left map app].
  - exists last. split; [done|]. by intros now (H1 & H2 & _).
  - destruct Hc as (H1 & H2 & Hc). destruct (IH (cutoff r.1) (request_step x r) Hc) as (last' & Hl & Hn); [by eapply forgot_step|].
    exists last'. split; [done|]. intros now (_ & _ & H). by apply Hn.
Qed.

(** The role byte the memory starts with: master, or what an old memory that is large
    enough says, or standby. *)
Definition initial_role (existing : option bytes) (initial_role_master : bool) : Z :=
  if initial_role_master then ROLE_SHM_MASTER
  else match existing with Some (b :: buf) => if (ROLE_SHM_SIZE <=? S (length buf))%nat then b else 0 | _ => 0 end.

Lemma holder_start_holds existing init ns : 0 <= ns < 2 ^ 64 → shm_holds (initial_role existing init) ns (holder_start existing init ns).
Proof.
  intros Hns. unfold holder_start, write_initial, initial_role. destruct existing as [b|].
  - destruct (ROLE_SHM_SIZE <=? length b)%nat eqn:El.
    + pose proof (proj1 (Nat.leb_le _ _) El) as Hl.
      apply write_heartbeat_holds; [done|by destruct init; rewrite ?length_insert|].
      destruct b as [|x b]; [by cbn in Hl; unfold ROLE_SHM_SIZE in Hl; lia|]. destruct init; [done|]. change (S (length b)) with (length (x :: b)). by rewrite El.
    + apply write_heartbeat_holds; [done|by destruct init|]. destruct init; [done|]. destruct b as [|x b]; [done|].
      change (S (length b)) with (length (x :: b)). by rewrite El.
  - apply write_heartbeat_holds; [done|by destruct init|by destruct init].
Qed.

(** The restarts in the minute before [now]. *)
Definition recent (now : f64) (all : list f64) : list f64 := List.filter (λ t, negb (flt t (cutoff now))) all.

Lemma recent_kept now old kept : Forall (λ t, flt t (cutoff now) = true) old → (length (recent now (old ++ kept)) <= length kept)%nat.
Proof.
  intros Ho. unfold recent. rewrite List.filter_app. assert (List.filter (λ t, negb (flt t (cutoff now))) old = []) as ->.
  { induction Ho as [|t old Ht _ IH]; [done|]. cbn. by rewrite Ht. }
  rewrite app_nil_l. apply List.filter_length_le.
Qed.

(** ** Properties *)

(** C13: a process is restarted at most five times a minute.  Whenever the limiter allows a
    restart, fewer than five restarts were recorded in the sixty seconds before, counting
    all restarts ever recorded and not only those it still keeps, as long as the clock
    does not go back. *)
Theorem restart_rate rs now :
  clock_forward (cutoff f0) (map fst rs ++ [now]) →
  (can_restart now (requests_run rs).1).1 = true → (length (recent now (requests_run rs).2) < MAX_RESTART_PER_MINUTE)%nat.
Proof.
  intros Hc Hok. assert (clock_forward (cutoff f0) (map fst rs)) as Hc'.
  { revert Hc. generalize (cutoff f0) as last. induction (map fst rs) as [|t l IH]; intros last; cbn [app clock_forward]; [done|].
    intros (H1 & H2 & H3). split_and!; [done|done|by apply IH]. }
  destruct (forgot_run rs (cutoff f0) ([], []) Hc') as (last' & Hf & Hn); [by exists []|]. destruct (Hn now Hc) as [H1 H2].
  unfold requests_run in *. destruct (fold_left request_step rs ([], [])) as [kept all]. cbn [fst snd] in *.
  destruct (forgot_prune last' now kept all H1 H2 Hf) as (old & Ho & Hold). cbn [fst snd] in Ho. rewrite Ho.
  eapply Nat.le_lt_trans; [by apply recent_kept|]. cbn in Hok |- *. by apply Nat.ltb_lt.
Qed.

(** Becoming standby stops the workers.  Whatever the state of the daemon, after the
    callback every inference worker its manager knows is dead and the manager has none,
    the role byte says standby, and the scheduler, the management process and every other
    process are as before. *)
Theorem standby_stops_workers s m :
  dget (process_managers s) PROCESS_KEY_INFERENCE = Some m →
  let s' := (on_become_standby s).1 in
  let workers := match finalizer m with Some r => lists s r | None => [] end ++ lists s (processes m) in
  (∀ p, alive s' p = if decide (p ∈ workers) then false else alive s p) ∧
  (∃ m', dget (process_managers s') PROCESS_KEY_INFERENCE = Some m' ∧ lists s' (processes m') = []) ∧
  (∀ name, name ≠ PROCESS_KEY_INFERENCE → dget (process_managers s') name = dget (process_managers s) name) ∧
  ∀ buf, role_shm s = Some buf → role_shm s' = Some (<[0%nat := ROLE_SHM_STANDBY]> buf).
Proof.
  intros Hm. cbv zeta. unfold on_become_standby. erewrite M_bind_Ret by reflexivity. unfold stop_all_processes, STOP_ORDER. cbn [mfor].
  set (s0 := match role_shm s with Some _ => _ | None => s end).
  assert (process_managers s0 = process_managers s ∧ lists s0 = lists s ∧ alive s0 = alive s) as (E1 & E2 & E3) by (unfold s0; by destruct (role_shm s)).
  rewrite (bool_decide_false (PROCESS_KEY_INFERENCE ∈ _)) by (unfold PROCESS_KEY_INFERENCE, PROCESS_KEY_MGMT, PROCESS_KEY_SCHEDULER; set_solver).
  rewrite (bool_decide_true (PROCESS_KEY_MGMT ∈ _)) by set_solver. rewrite (bool_decide_true (PROCESS_KEY_SCHEDULER ∈ _)) by set_solver.
  destruct (pm_stop_result PROCESS_KEY_INFERENCE m s0) as (Hr & Ha & (m' & Hm' & Hl' & _) & Ho & Hs).
  destruct (pm_stop PROCESS_KEY_INFERENCE m s0) as [s1 r] eqn:Es. cbn [fst snd] in *. subst r.
  erewrite M_bind_Ret by (erewrite M_bind_Ret by reflexivity; rewrite E1, Hm; exact Es). do 2 erewrite M_bind_Ret by reflexivity. cbn [fst mret M_ret].
  split_and!.
  - intros p. by rewrite Ha, E2, E3.
  - by exists m'.
  - intros name Hne. by rewrite Ho, E1.
  - intros buf Hb. rewrite Hs. unfold s0. by rewrite Hb.
Qed.

(** Dead workers are replaced, live ones are left alone.  After the restart of dead
    workers every place of the group holds the worker it held if that one was alive, and
    otherwise a new process, unless its start failed; no other process changes, and the
    answer says whether all workers are alive. *)
Theorem dead_workers_replaced s m births :
  inference m = true → Forall (λ p, (p < next_proc s)%nat) (lists s (processes m)) →
  let '(s', r) := restart_dead_workers m births s in
  (∀ p, (p < next_proc s)%nat → alive s' p = alive s p) ∧ length (lists s' (processes m)) = length (lists s (processes m)) ∧
  (∀ i p, lists s (processes m) !! i = Some p →
     (alive s p = true → lists s' (processes m) !! i = Some p) ∧
     (alive s p = false → match births i with
                          | Born b => ∃ q, lists s' (processes m) !! i = Some q ∧ (next_proc s <= q)%nat ∧ alive s' q = b
                          | BirthFails => lists s' (processes m) !! i = Some p
                          end)) ∧
  (lists s (processes m) ≠ [] → r = Ret (is_running s' m)).
Proof.
  intros Hi Hlt. set (l := lists s (processes m)). unfold restart_dead_workers. erewrite M_bind_Ret by reflexivity. fold l.
  destruct (decide (dead_indices s l = [])) as [Hd|Hd].
  - assert (∀ i p, l !! i = Some p → alive s p = true) as Hall.
    { intros i p Hp. destruct (alive s p) eqn:Ea; [done|]. assert (i ∈ dead_indices s l) as Hin by (apply elem_of_dead; by exists p).
      rewrite Hd in Hin. by apply elem_of_nil in Hin. }
    split_and!; try done.
    + intros i p Hp. split; [done|]. by rewrite (Hall i p Hp).
    + intros Hne. unfold is_running. fold l. rewrite Hi, bool_decide_false by done. cbn [negb andb]. do 2 f_equal. symmetry. apply forallb_forall.
      intros p Hp. apply list_elem_of_In, list_elem_of_lookup in Hp as [i Hp]. by eapply Hall.
  - destruct (replace_workers_result (processes m) births (dead_indices s l) s (dead_NoDup s l) Hlt) as (H1 & _ & H3 & _ & _ & H6 & H7).
    { apply Forall_forall. intros i (p & Hp & _)%elem_of_dead. by apply lookup_lt_Some in Hp. }
    destruct (replace_workers (processes m) (dead_indices s l) births s) as [s' r] eqn:E. cbn [fst snd] in *. subst r.
    rewrite (M_bind_Ret _ _ _ _ _ E). erewrite M_bind_Ret by reflexivity. split_and!; try done. intros i p Hp. destruct (H7 i p Hp) as [K1 K2]. split; intros Ha.
    + apply K1. intros (p' & Hp' & Ha')%elem_of_dead. change (l !! i = Some p) in Hp. assert (p' = p) as -> by congruence. congruence.
    + apply K2. apply elem_of_dead. by exists p.
Qed.

(** A worker group whose start failed halfway is lost.  When a worker cannot be started
    after the first [k], the start reports a failure, the [k] workers stay alive in no
    manager, and however often the supervisor runs it starts no worker and stops none. *)
Theorem failed_start_loses_workers s m births k envs :
  dget (process_managers s) PROCESS_KEY_INFERENCE = Some m → inference m = true → is_running s m = false →
  (k < process_count m)%nat → (∀ j, (j < k)%nat → births j = Born true) → births k = BirthFails →
  let '(s1, r) := pm_start PROCESS_KEY_INFERENCE m births s in
  let s2 := (mfor envs (λ env, supervise_one env PROCESS_KEY_INFERENCE) s1).1 in
  r = Ret false ∧ (∀ j, (j < k)%nat → alive s2 (next_proc s + j)%nat = true) ∧ next_proc s2 = (next_proc s + k)%nat ∧
  ∃ m', dget (process_managers s2) PROCESS_KEY_INFERENCE = Some m' ∧ lists s2 (processes m') = [].
Proof.
  intros Hm Hi Hrun Hk Hb Hf. unfold pm_start. erewrite M_bind_Ret by reflexivity. rewrite Hrun.
  do 2 erewrite M_bind_Ret by reflexivity.
  set (s0 := put_manager _ _ _).
  destruct (start_from_fails (next_list s) k (process_count m) 0 births s0 Hk Hb Hf) as (s1 & Hs & H1 & H2 & H3 & _ & _).
  erewrite (M_bind_Ret (mexcept _ _)) by (unfold mexcept; erewrite M_bind_Raise by exact Hs; reflexivity).
  cbv iota. do 2 erewrite M_bind_Ret by reflexivity. cbn [mret M_ret].
  set (m' := mkPM (inference m) (process_count m) (next_list s1) (finalizer m)).
  set (s2 := put_manager (set_lists s1 (fupd (lists s1) (next_list s1) []) (S (next_list s1))) PROCESS_KEY_INFERENCE m').
  assert (dget (process_managers s2) PROCESS_KEY_INFERENCE = Some m') as Hm' by apply dget_dset_eq.
  assert (lists s2 (processes m') = []) as Hl' by (cbn; unfold fupd; by rewrite decide_True).
  destruct (supervise_empty_many envs _ m' s2 Hm' Hi Hl') as (K1 & K2 & K3 & K4).
  split_and!; [done| | |].
  - intros j Hj. rewrite K1. cbn [alive s2 put_manager set_lists]. rewrite H2. cbn [next_proc s0 put_manager set_lists]. by rewrite decide_True by lia.
  - etransitivity; [exact K2|exact H1].
  - exists m'. split.
    + etransitivity; [exact (f_equal (λ l, dget l _) K4)|exact Hm'].
    + etransitivity; [exact (f_equal (λ f, f (processes m')) K3)|exact Hl'].
Qed.

(** The probes see what the daemon last wrote.  After the start of the role memory and
    any writes of roles and heartbeats, the probe reads the last role written, master only
    if it is the master byte, and takes the daemon for dead exactly if the last heartbeat
    is older than the limit. *)
Theorem probe_reads_last_write existing init ns0 ws stale now :
  0 < ns0 < 2 ^ 64 → 0 <= stale → Forall (λ w, match w with WBeat ns => 0 < ns < 2 ^ 64 | _ => True end) ws →
  let first := initial_role existing init in
  let buf := fold_left apply_write ws (holder_start existing init ns0) in
  read_role_and_heartbeat false stale now (Some buf) =
  mkRole (bool_decide (last_role first ws = ROLE_SHM_MASTER)) (bool_decide (last_beat ns0 ws + stale < now)) false.
Proof.
  intros Hns Hst Hst' first buf.
  assert (0 <= ns0 < 2 ^ 64) as Hns' by lia. pose proof (holder_start_holds existing init ns0 Hns') as Hstart.
  assert (shm_holds (last_role first ws) (last_beat ns0 ws) buf) as Hend.
  { apply writes_hold; [|done]. eapply Forall_impl; [exact Hst'|]. intros [b|ns]; [done|lia]. }
  assert (0 < last_beat ns0 ws < 2 ^ 64) as Hbeat.
  { clear - Hns Hst'. unfold last_beat. revert ns0 Hns. induction Hst' as [|[b|ns] ws Hw _ IH]; intros t Ht; cbn [fold_left]; auto. }
  destruct (shm_holds_length _ _ _ Hend) as [Hlen Hhead]. destruct Hend as [tail Hend]. unfold read_role_and_heartbeat. f_equal.
  - rewrite Hhead. apply bool_decide_ext. clear. split; [by intros [= ->]|by intros ->].
  - unfold is_heartbeat_stale. rewrite (proj2 (Nat.ltb_ge _ _)) by done.
    assert (le_int (slice 1 8 buf) = last_beat ns0 ws) as ->.
    { rewrite Hend. unfold slice. cbn [drop]. rewrite drop_0, take_app_length' by done. apply le_int_u. change (8 * Z.of_nat 8) with 64. lia. }
    rewrite (proj2 (Z.eqb_neq _ 0)) by lia. cbn [orb]. case_bool_decide as Hd.
    + rewrite (proj2 (Z.ltb_ge _ 0)), (proj2 (Z.leb_gt _ _)) by lia. done.
    + destruct (_ <? 0); [done|]. by rewrite (proj2 (Z.leb_le _ _)) by lia.
Qed.

(** ** Witnesses *)

Definition one_live_worker : Daemon :=
  mkDaemon (λ p, bool_decide (p ∈ [0; 2; 3])%nat) 4 (λ r, if decide (r = 0)%nat then [0; 1]%nat else if decide (r = 1)%nat then [2]%nat else [3]%nat) 3
    [(PROCESS_KEY_SCHEDULER, mkPM false 1 1 (Some 1%nat)); (PROCESS_KEY_INFERENCE, mkPM true 2 0 (Some 0%nat)); (PROCESS_KEY_MGMT, mkPM false 1 2 (Some 2%nat))] []
    (Some [1; 0; 0; 0; 0; 0; 0; 0; 0]).
Definition workers : ProcessManager := mkPM true 2 0 (Some 0%nat).

Lemma restart_rate_witness :
  (length (recent (f_of_Z 70) (requests_run [(f_of_Z 1, Some (f_of_Z 2)); (f_of_Z 10, Some (f_of_Z 11))]).2) < MAX_RESTART_PER_MINUTE)%nat.
Proof.
  exact (restart_rate [(f_of_Z 1, Some (f_of_Z 2)); (f_of_Z 10, Some (f_of_Z 11))] (f_of_Z 70) ltac:(vm_compute; tauto) ltac:(vm_compute; reflexivity)).
Defined.

Lemma standby_stops_workers_witness :
  ∃ m, dget (process_managers (on_become_standby one_live_worker).1) PROCESS_KEY_INFERENCE = Some m ∧
    lists (on_become_standby one_live_worker).1 (processes m) = [].
Proof. exact (proj1 (proj2 (standby_stops_workers one_live_worker workers ltac:(vm_compute; reflexivity)))). Defined.

Lemma dead_workers_replaced_witness :
  let '(s', r) := restart_dead_workers workers (λ _, Born true) one_live_worker in
  alive s' 2%nat = true ∧ r = Ret (is_running s' workers).
Proof.
  pose proof (dead_workers_replaced one_live_worker workers (λ _, Born true) ltac:(vm_compute; reflexivity) ltac:(vm_compute; repeat constructor)) as H.
  destruct (restart_dead_workers _ _ _) as [s' r]. destruct H as (H1 & _ & _ & H4).
  exact (conj (H1 2%nat ltac:(vm_compute; repeat constructor)) (H4 ltac:(vm_compute; discriminate))).
Defined.

Definition no_worker : Daemon := mkDaemon (λ _, false) 0 (λ _, []) 1 [(PROCESS_KEY_INFERENCE, mkPM true 2 0 None)] [] None.

Lemma failed_start_loses_workers_witness :
  let '(s1, r) := pm_start PROCESS_KEY_INFERENCE (mkPM true 2 0 None) (λ i, if decide (i = 1)%nat then BirthFails else Born true) no_worker in
  r = Ret false ∧ alive s1 0%nat = true.
Proof.
  pose proof (failed_start_loses_workers no_worker (mkPM true 2 0 None) (λ i, if decide (i = 1)%nat then BirthFails else Born true) 1 []
    ltac:(vm_compute; reflexivity) ltac:(vm_compute; reflexivity) ltac:(vm_compute; reflexivity) ltac:(vm_compute; repeat constructor)
    (λ j Hj, ltac:(destruct j; [vm_compute; reflexivity|lia])) ltac:(vm_compute; reflexivity)) as H.
  destruct (pm_start _ _ _ _) as [s1 r]. destruct H as (H1 & H2 & _). exact (conj H1 (H2 0%nat ltac:(repeat constructor))).
Defined.

Lemma probe_reads_last_write_witness :
  read_role_and_heartbeat false 30 200 (Some (fold_left apply_write [WBeat 150; WRole 1; WBeat 160] (holder_start None false 100))) = mkRole true true false.
Proof.
  exact (probe_reads_last_write None false 100 [WBeat 150; WRole 1; WBeat 160] 30 200 ltac:(vm_compute; split; reflexivity) ltac:(vm_compute; discriminate)
    ltac:(repeat constructor)).
Defined.
