(* ===== verification/Observability.v ===== *)
(** * Observability of the controller

    Models [common/alarm/] (records and the alarms and events made from them),
    [controller/observability/alarm/alarm_store.py],
    [controller/observability/metrics/metrics_collector.py],
    [controller/observability/observability.py] and
    [controller/observability/inventory/inventory_collector.py].  The process environment
    and the clock are a record of what they answer; the HTTP query for metrics is answered
    by a parameter. *)

From stdpp Require Import base option list strings gmap sets pretty.
From Stdlib Require Import ZArith Lia.
From S2P Require Import Prelude Float64 PyText Resources CtlInstanceManager.
Open Scope Z_scope.

(** ** Alarm records *)

Inductive Category := ALARM | CLEAR | EVENT | LEVEL_CHANGE | CONFIRM | UNCONFIRM | OTHER_CHANGE.
Inductive Cleared := NO | YES.
Inductive ClearCategory := AUTO | MANUAL.
Inductive Severity := CRITICAL | MAJOR | MINOR | WARNING.
Inductive EventType :=
  COMMUNICATION | EQUIPMENT | PROCESSING_ERROR | QUALITY_OF_SERVICE | ENVIRONMENTAL | INTEGRITY_VIOLATION
| OPERATIONAL | PHYSICAL_VIOLATION | SECURITY_VIOLATION | TIME_DOMAIN | PROPERTY_CHANGE | OBJECT_CREATION
| OBJECT_DELETION | RELATION_CHANGE | STATE_CHANGE | ROUTE_CHANGE | PROTECTION_SWITCH | EXCEED_LIMIT
| FILE_TRANSFER_STATUS | BACKUP_STATUS | EVENT_HEARTBEAT.
Inductive ServiceAffectedType := NOT_AFFECTED | AFFECTED.

Definition category_value (c : Category) : Z :=
  match c with ALARM => 1 | CLEAR => 2 | EVENT => 3 | LEVEL_CHANGE => 4 | CONFIRM => 5 | UNCONFIRM => 6 | OTHER_CHANGE => 7 end.
Definition cleared_value (c : Cleared) : Z := match c with NO => 0 | YES => 1 end.
Definition clear_category_value (c : ClearCategory) : Z := match c with AUTO => 1 | MANUAL => 2 end.
Definition severity_value (s : Severity) : Z := match s with CRITICAL => 1 | MAJOR => 2 | MINOR => 3 | WARNING => 4 end.
Definition event_type_value (e : EventType) : Z :=
  match e with
  | COMMUNICATION => 1 | EQUIPMENT => 2 | PROCESSING_ERROR => 3 | QUALITY_OF_SERVICE => 4 | ENVIRONMENTAL => 5
  | INTEGRITY_VIOLATION => 6 | OPERATIONAL => 7 | PHYSICAL_VIOLATION => 8 | SECURITY_VIOLATION => 9 | TIME_DOMAIN => 10
  | PROPERTY_CHANGE => 11 | OBJECT_CREATION => 12 | OBJECT_DELETION => 13 | RELATION_CHANGE => 14 | STATE_CHANGE => 15
  | ROUTE_CHANGE => 16 | PROTECTION_SWITCH => 17 | EXCEED_LIMIT => 18 | FILE_TRANSFER_STATUS => 19 | BACKUP_STATUS => 20
  | EVENT_HEARTBEAT => 21
  end.
Definition service_affected_value (s : ServiceAffectedType) : Z := match s with NOT_AFFECTED => 0 | AFFECTED => 1 end.

#[global] Instance Cleared_eq_dec : EqDecision Cleared.
Proof. solve_decision. Defined.

Record Record_ := mkRecord {
  category : Category;
  cleared : Cleared;
  clear_category : ClearCategory;
  occur_utc : Z;
  occur_time : Z;
  native_me_dn : string;
  origin_system : string;
  origin_system_name : string;
  origin_system_type : string;
  location : string;
  moi : string;
  event_type : EventType;
  alarm_id : string;
  alarm_name : string;
  severity : Severity;
  probable_cause : string;
  reason_id : Z;
  service_affected_type : ServiceAffectedType;
  additional_information : string;
  instance_id : string
}.

(** What [os.getenv] and the clock answer when a record is made. *)
Record AlarmEnv := mkAlarmEnv { SERVICE_ID : option string; ENGINE_TYPE : option string; POD_IP : option string; utc_ms : Z; local_ms : Z }.

(** [Record()]. *)
Definition Record_init (env : AlarmEnv) : Record_ :=
  mkRecord ALARM NO AUTO 0 0 (default "Unknown" (SERVICE_ID env)) (default "Unknown" (ENGINE_TYPE env))
    (default "Unknown" (ENGINE_TYPE env)) (default "Unknown" (ENGINE_TYPE env)) "" ""
    COMMUNICATION "" "" CRITICAL "" 0 NOT_AFFECTED "" "".

Definition clear (r : Record_) : Record_ :=
  mkRecord CLEAR YES (clear_category r) (occur_utc r) (occur_time r) (native_me_dn r) (origin_system r)
    (origin_system_name r) (origin_system_type r) (location r) (moi r)
    (event_type r) (alarm_id r) (alarm_name r) (severity r) (probable_cause r) (reason_id r) (service_affected_type r)
    (additional_information r) (instance_id r).

(** What the constructors of the alarm classes share: the defaults of the class, then the
    reason, the time and the place. *)
Definition make_record (env : AlarmEnv) (cat : Category) (cl : Cleared) (et : EventType) (id name : string) (sev : Severity)
    (cause : string) (affected : ServiceAffectedType) (reason : Z) (place extra ins : string) : Record_ :=
  mkRecord cat cl AUTO (utc_ms env) (local_ms env) (default "Unknown" (SERVICE_ID env)) (default "Unknown" (ENGINE_TYPE env))
    (default "Unknown" (ENGINE_TYPE env)) (default "Unknown" (ENGINE_TYPE env)) place place et id name sev cause reason affected extra ins.

Definition INSTANCE_EXCEPTION_ALARM_ID : string := "0xFC001002".
Definition COORDINATOR_EXCEPTION_ALARM_ID : string := "0xFC001004".

Definition InstanceExceptionAlarm (env : AlarmEnv) (ins : string) (reason : Z) (is_cleared : bool) : Record_ :=
  let place := "servicename = controller,inst_type=p_inst_type or d_inst_type,inst_id=" +:+ ins +:+ ", service ip="
               +:+ default "" (POD_IP env) in
  let r := make_record env ALARM NO STATE_CHANGE INSTANCE_EXCEPTION_ALARM_ID "Model Instance Exception Alarm" CRITICAL
    "1:Hardware and software failures caused instance anomalies" AFFECTED reason place place ins in
  if is_cleared then clear r else r.

Definition CoordinatorExceptionAlarm (env : AlarmEnv) (reason : Z) (is_cleared : bool) : Record_ :=
  let place := "service name=Coordinator, service ip=" +:+ default "" (POD_IP env) in
  let r := make_record env ALARM NO QUALITY_OF_SERVICE COORDINATOR_EXCEPTION_ALARM_ID "Coordinator Service Exception Alarm" CRITICAL
    "1: No available P or D instances;2: Coordinator's own status is abnormal" AFFECTED reason place place "" in
  if is_cleared then clear r else r.

Definition ReqCongestionEvent (env : AlarmEnv) (reason : Z) (extra : string) : Record_ :=
  make_record env EVENT YES STATE_CHANGE "0xFC001005" "Coordinator Request Congestion Alarm" MAJOR
    "1:Requests being congested by the Coordinator" AFFECTED reason
    ("service name=Coordinator, service ip=" +:+ default "" (POD_IP env)) extra "".

Definition ControllerToSlaveEvent (env : AlarmEnv) (reason : Z) : Record_ :=
  let place := "service name=Controller, service ip=" +:+ default "" (POD_IP env) in
  make_record env EVENT YES STATE_CHANGE "0xFC001000" "Controller Master To Slave Alarm" WARNING
    "1:failures caused the original main controller to malfunction" NOT_AFFECTED reason place place "".

Definition ServerExceptionEvent (env : AlarmEnv) (reason : Z) (endpoint_ip : string) (endpoint_ids : list Z) : Record_ :=
  let place := "service name=Controller, endpoint ip=" +:+ endpoint_ip +:+ ", endpoint ids=["
               +:+ String.concat "," (map pretty endpoint_ids) +:+ "]" in
  make_record env EVENT YES STATE_CHANGE "0xFC001003" "Server Exception Alarm" MAJOR
    "1:Heartbeat timeout;2:endpoint abnormal;" AFFECTED reason place place "".

(** [Record.format]. *)
Definition format (r : Record_) : list (string * json) :=
  [("category", JInt (category_value (category r))); ("cleared", JInt (cleared_value (cleared r)));
   ("clearCategory", JInt (clear_category_value (clear_category r))); ("occurUtc", JInt (occur_utc r));
   ("occurTime", JInt (occur_time r)); ("nativeMeDn", JStr (native_me_dn r)); ("originSystem", JStr (origin_system r));
   ("originSystemName", JStr (origin_system_name r)); ("originSystemType", JStr (origin_system_type r)); ("location", JStr (location r));
   ("moi", JStr (moi r)); ("eventType", JInt (event_type_value (event_type r))); ("alarmId", JStr (alarm_id r));
   ("alarmName", JStr (alarm_name r)); ("severity", JInt (severity_value (severity r)));
   ("probableCause", JStr (probable_cause r)); ("reasonId", JInt (reason_id r));
   ("serviceAffectedType", JInt (service_affected_value (service_affected_type r)));
   ("additionalInformation", JStr (additional_information r +:+ ", pod id=" +:+ native_me_dn r))].

(** ** AlarmStore *)

(** The alarms that wait for each source that has asked, and the raised alarms that can be
    cleared.  A source is what the query names, or nothing. *)
Record AlarmStore := mkStore { stored : dict (option string) (list Record_); recoverable : dict string Record_ }.

Definition AlarmStore_init (north_platform : option string) : AlarmStore :=
  mkStore [(Some (strip (default "" north_platform)), [])] [].

Definition append_all (r : Record_) (s : AlarmStore) : AlarmStore :=
  mkStore (map (λ kv, (kv.1, kv.2 ++ [r])) (stored s)) (recoverable s).

Definition recovery_alarm_key (r : Record_) : string := alarm_id r +:+ "_" +:+ instance_id r.

Definition handle_instance_exception_alarm (r : Record_) (s : AlarmStore) : AlarmStore :=
  let key := recovery_alarm_key r in
  let s := if bool_decide (cleared r = NO) && negb (dhas (recoverable s) key)
           then let s := append_all r s in mkStore (stored s) (dset (recoverable s) key r) else s in
  if bool_decide (cleared r = YES) && dhas (recoverable s) key
  then let s := append_all r s in mkStore (stored s) (ddel (recoverable s) key) else s.

Definition is_recoverable (r : Record_) : bool :=
  bool_decide (alarm_id r = INSTANCE_EXCEPTION_ALARM_ID) || bool_decide (alarm_id r = COORDINATOR_EXCEPTION_ALARM_ID).

Definition add_alarm (r : Record_) (s : AlarmStore) : AlarmStore :=
  if is_recoverable r then handle_instance_exception_alarm r s else append_all r s.

(** [get_alarms]: what waits is handed out once, as one list if there is anything. *)
Definition get_alarms (source_id : option string) (s : AlarmStore) : AlarmStore * list (list (list (string * json))) :=
  let result := map format (default [] (dget (stored s) source_id)) in
  (mkStore (dset (stored s) source_id []) (recoverable s), match result with [] => [] | _ => [result] end).

(** ** MetricsCollector *)

Record MetricsCache := mkCache { last_metrics : option string; last_fetch_time : f64 }.
Definition MetricsCache_init : MetricsCache := mkCache None f0.

(** [get_full_metrics]: under its first lock it looks at the cache; the query is made
    without the lock, and its answer is written under the second. *)
Definition cached_metrics (ttl now : f64) (c : MetricsCache) : option string :=
  match last_metrics c with Some m => if flt (fsub now (last_fetch_time c)) ttl then Some m else None | None => None end.
Definition write_metrics (fetched : option string) (now : f64) (c : MetricsCache) : MetricsCache * string :=
  match fetched with
  | Some m => (mkCache (Some m) now, m)
  | None => (c, default "" (last_metrics c))
  end.
Definition get_full_metrics (ttl now : f64) (fetched : option string) (later : f64) (c : MetricsCache) : MetricsCache * string :=
  match cached_metrics ttl now c with Some m => (c, m) | None => write_metrics fetched later c end.

(** ** InventoryCollector *)

Inductive ModelState := HEALTHY | SUB_HEALTHY | UNHEALTHY.
Inductive InventoryStatus := RUNNING | ERROR | INIT.
#[global] Instance InventoryStatus_eq_dec : EqDecision InventoryStatus.
Proof. solve_decision. Defined.
Definition DPRole_CENTRAL : string := "Central".

(** An NPU is its id and its address. *)
Abbreviation npu := (string * option string)%type.
Record PodInfo := mkPod { podAssociatedInfoList : list npu; podID : string }.
Record InstanceInfo := mkInfo { info_name : string; InstanceStatus : InventoryStatus; podInfoList : list PodInfo }.

Definition npus_of (e : Endpoint) : list npu := map (λ d, (device_id d, device_ip d)) (device_infos e).

Definition get_instance_info_from_instance (i : Instance) (st : InventoryStatus) : InstanceInfo :=
  mkInfo (job_name i) st (map (λ pod, mkPod (flat_map npus_of (dvalues pod.2)) pod.1) (endpoints i)).

(** What a call of [collect_inventory] has read of the instance manager. *)
Record Collector := mkCollector { active_instance_list : list Instance; inactive_instance_list : list Instance; initial_instance_list : list Instance }.

(** A pass of [_get_p_d_instance_list]: the lists so far and the names seen.  The pass over
    the active instances does not look at the names. *)
Abbreviation pd_lists := (list InstanceInfo * list InstanceInfo * list string)%type.
Definition list_instance (st : InventoryStatus) (skip : bool) (acc : pd_lists) (i : Instance) : pd_lists :=
  let '(p, d, names) := acc in
  if skip && bool_decide (job_name i ∈ names) then acc
  else if bool_decide (role i = PDRole_value ROLE_P) then (p ++ [get_instance_info_from_instance i st], d, names ++ [job_name i])
  else if bool_decide (role i = PDRole_value ROLE_D) then (p, d ++ [get_instance_info_from_instance i st], names ++ [job_name i])
  else (p, d, names ++ [job_name i]).
Definition get_p_d_instance_list (c : Collector) : list InstanceInfo * list InstanceInfo :=
  let acc := fold_left (list_instance RUNNING false) (active_instance_list c) ([], [], []) in
  let acc := fold_left (list_instance INIT true) (initial_instance_list c) acc in
  (fold_left (list_instance ERROR true) (inactive_instance_list c) acc).1.

(** The data parallel groups: one per endpoint, each with all NPUs of its pod. *)
Record DpGroup := mkDp { DPGroupID : Z; PDInstID : string; dp_pod : PodInfo; NPUInfoList : list npu; serverIP : string }.
Definition pod_dp_groups (name : string) (pod : string * pod_endpoints) : list DpGroup :=
  map (λ ep, mkDp ep.1 name (mkPod (flat_map npus_of (dvalues pod.2)) pod.1) (npus_of ep.2) pod.1) pod.2.
Definition dp_instance (acc : list DpGroup * list string) (i : Instance) : list DpGroup * list string :=
  if bool_decide (job_name i ∈ acc.2) then acc
  else (acc.1 ++ flat_map (pod_dp_groups (job_name i)) (endpoints i), acc.2 ++ [job_name i]).
Definition get_dp_group_list (c : Collector) : list DpGroup :=
  (fold_left dp_instance (active_instance_list c ++ initial_instance_list c ++ inactive_instance_list c) ([], [])).1.

Definition get_model_name (c : Collector) : string :=
  match active_instance_list c with
  | i :: _ => model_name i
  | [] => match inactive_instance_list c with
          | i :: _ => model_name i
          | [] => match initial_instance_list c with i :: _ => model_name i | [] => "" end
          end
  end.

Definition get_model_state (c : Collector) : ModelState :=
  let count r := length (List.filter (λ i, bool_decide (role i = PDRole_value r)) (active_instance_list c)) in
  let known := map job_name (active_instance_list c) in
  let missing := existsb (λ i, negb (bool_decide (job_name i ∈ known))) in
  if (count ROLE_P =? 0)%nat || (count ROLE_D =? 0)%nat then UNHEALTHY
  else if missing (initial_instance_list c) then SUB_HEALTHY
  else if missing (inactive_instance_list c) then SUB_HEALTHY
  else HEALTHY.

Record Inventory := mkInventory {
  PInstanceList : list InstanceInfo;
  DInstanceList : list InstanceInfo;
  DPGroupList : list DpGroup;
  modelID : string;
  modelName : string;
  modelState : ModelState;
  modelType : string;
  inferenceFrameworkType : string;
  timestamp : Z
}.

Definition inventory_of (c : Collector) (sys_id engine_type : option string) (now_ms : Z) : Inventory :=
  let pd := get_p_d_instance_list c in
  mkInventory pd.1 pd.2 (get_dp_group_list c) (default "" sys_id) (get_model_name c) (get_model_state c) (get_model_name c)
    ("motor-" +:+ of_chars (map lower_char (chars (default "" engine_type)))) now_ms.

(** [collect_inventory]: the three lists are read one after the other, each under the lock of
    the instance manager, in the states [s1], [s2] and [s3]; the instances are the objects
    of the manager, looked at afterwards. *)
Definition collect_inventory {O D} (s1 s2 s3 : Ctl (O := O) (D := D)) (later : ref → Instance) : Collector :=
  mkCollector (map later (get_active_instances s1)) (map later (get_inactive_instances s3)) (map later (get_initial_instances s2)).

(** ** Lemmas *)

(** *** Alarms *)

(** The records a store lets through, given the alarms that are raised. *)
Fixpoint admitted (raised : gset string) (rs : list Record_) : list Record_ :=
  match rs with
  | [] => []
  | r :: rs =>
      if is_recoverable r then
        let key := recovery_alarm_key r in
        match cleared r with
        | NO => if decide (key ∈ raised) then admitted raised rs else r :: admitted ({[key]} ∪ raised) rs
        | YES => if decide (key ∈ raised) then r :: admitted (raised ∖ {[key]}) rs else admitted raised rs
        end
      else r :: admitted raised rs
  end.

Definition raised_keys (s : AlarmStore) : gset string := list_to_set (dkeys (recoverable s)).

Inductive alarm_op := AAdd (r : Record_) | AGet (source_id : option string).
Definition alarm_step (s : AlarmStore) (o : alarm_op) : AlarmStore :=
  match o with AAdd r => add_alarm r s | AGet src => (get_alarms src s).1 end.
(** What a source is handed out, all answers put together. *)
Fixpoint handed_out (src : option string) (s : AlarmStore) (ops : list alarm_op) : list (list (string * json)) :=
  match ops with
  | [] => []
  | o :: ops =>
      (match o with AGet src' => if decide (src' = src) then concat (get_alarms src' s).2 else [] | AAdd _ => [] end)
      ++ handed_out src (alarm_step s o) ops
  end.
Definition added (ops : list alarm_op) : list Record_ := omap (λ o, match o with AAdd r => Some r | AGet _ => None end) ops.
Definition alarms_run (s : AlarmStore) (ops : list alarm_op) : AlarmStore := fold_left alarm_step ops s.
Definition waiting (s : AlarmStore) (src : option string) : list Record_ := default [] (dget (stored s) src).

Lemma dget_append_all r s src : dget (stored (append_all r s)) src = (λ l, l ++ [r]) <$> dget (stored s) src.
Proof. unfold append_all. cbn [stored]. induction (stored s) as [|[k l] d IH]; cbn; [done|]. by case_decide. Qed.

Lemma raised_dhas s key : dhas (recoverable s) key = bool_decide (key ∈ raised_keys s).
Proof.
  unfold dhas, raised_keys. apply bool_decide_ext. by rewrite elem_of_list_to_set, elem_of_dkeys.
Qed.

Lemma raised_dset st (d : dict string Record_) key r : raised_keys (mkStore st (dset d key r)) = {[key]} ∪ list_to_set (dkeys d).
Proof.
  apply set_eq. intros k. unfold raised_keys. cbn [recoverable]. rewrite elem_of_union, elem_of_singleton, !elem_of_list_to_set, !elem_of_dkeys, dget_dset.
  case_decide; naive_solver.
Qed.

Lemma raised_ddel st (d : dict string Record_) key : raised_keys (mkStore st (ddel d key)) = list_to_set (dkeys d) ∖ {[key]}.
Proof.
  apply set_eq. intros k. unfold raised_keys. cbn [recoverable]. rewrite elem_of_difference, elem_of_singleton, !elem_of_list_to_set, !elem_of_dkeys, dget_ddel.
  case_decide; naive_solver.
Qed.

(** Adding a record appends what is let through and keeps the raised alarms. *)
Lemma add_alarm_spec r s : ∃ new,
  (∀ rs, admitted (raised_keys s) (r :: rs) = new ++ admitted (raised_keys (add_alarm r s)) rs) ∧
  ∀ src, dget (stored (add_alarm r s)) src = (λ l, l ++ new) <$> dget (stored s) src.
Proof.
  assert (∀ (d : option (list Record_)), d = (λ l, l ++ []) <$> d) as Hnil by (intros [l|]; cbn; [by rewrite app_nil_r|done]).
  cbn [admitted]. unfold add_alarm, handle_instance_exception_alarm. destruct (is_recoverable r); [|exists [r]; split; [done|by intros; apply dget_append_all]].
  destruct (cleared r); cbn [bool_decide decide andb].
  - rewrite (bool_decide_true (NO = NO)), (bool_decide_false (NO = YES)) by done. cbn [andb]. rewrite raised_dhas. destruct (decide (recovery_alarm_key r ∈ raised_keys s)) as [H|H].
    + rewrite bool_decide_true by done. exists []. by split; [|intros; apply Hnil].
    + rewrite bool_decide_false by done. exists [r]. split; [|intros; apply dget_append_all]. intros rs. cbn [negb]. by rewrite raised_dset.
  - rewrite (bool_decide_false (YES = NO)), (bool_decide_true (YES = YES)) by done. cbn [andb]. rewrite raised_dhas. destruct (decide (recovery_alarm_key r ∈ raised_keys s)) as [H|H].
    + rewrite bool_decide_true by done. exists [r]. split; [|intros; apply dget_append_all]. intros rs. cbv iota. by rewrite raised_ddel.
    + rewrite bool_decide_false by done. exists []. by split; [|intros; apply Hnil].
Qed.

Lemma get_alarms_concat src s : concat (get_alarms src s).2 = map format (waiting s src).
Proof. unfold get_alarms, waiting. cbn [snd]. destruct (map format _) eqn:E; cbn; rewrite ?app_nil_r; done. Qed.

(** For each alarm that can be cleared, what is let through alternates. *)
Definition about (key : string) (r : Record_) : bool := is_recoverable r && bool_decide (recovery_alarm_key r = key).
Fixpoint alternates (next : Cleared) (rs : list Record_) : Prop :=
  match rs with
  | [] => True
  | r :: rs => cleared r = next ∧ alternates (match next with NO => YES | YES => NO end) rs
  end.

(** *** Inventory *)

(** The instances of a list with a status, and those whose name did not occur before. *)
Definition named (st : InventoryStatus) (l : list Instance) : list (Instance * InventoryStatus) := map (λ i, (i, st)) l.
Definition of_role (r : PDRole) (x : Instance * InventoryStatus) : bool := bool_decide (role x.1 = PDRole_value r).
Definition info (x : Instance * InventoryStatus) : InstanceInfo := get_instance_info_from_instance x.1 x.2.
Fixpoint unseen (seen : list string) (l : list (Instance * InventoryStatus)) : list (Instance * InventoryStatus) :=
  match l with
  | [] => []
  | x :: l => if decide (job_name x.1 ∈ seen) then unseen seen l else x :: unseen (seen ++ [job_name x.1]) l
  end.

Lemma of_role_P i st : of_role ROLE_P (i, st) = bool_decide (role i = "prefill"%string).
Proof. done. Qed.
Lemma of_role_D i st : of_role ROLE_D (i, st) = bool_decide (role i = "decode"%string).
Proof. done. Qed.

Lemma list_active l : ∀ p d names,
  fold_left (list_instance RUNNING false) l (p, d, names) =
  (p ++ map info (List.filter (of_role ROLE_P) (named RUNNING l)), d ++ map info (List.filter (of_role ROLE_D) (named RUNNING l)), names ++ map job_name l).
Proof.
  induction l as [|i l IH]; intros p d names; cbn [fold_left named map List.filter]; [by rewrite !app_nil_r|].
  cbn [list_instance andb]. rewrite of_role_P, of_role_D. unfold PDRole_value.
  do 2 case_bool_decide; try congruence; rewrite IH; cbn [map]; by rewrite <- ?app_assoc.
Qed.

Lemma list_rest st l : ∀ p d names,
  fold_left (list_instance st true) l (p, d, names) =
  (p ++ map info (List.filter (of_role ROLE_P) (unseen names (named st l))),
   d ++ map info (List.filter (of_role ROLE_D) (unseen names (named st l))),
   names ++ map (λ x, job_name x.1) (unseen names (named st l))).
Proof.
  induction l as [|i l IH]; intros p d names; cbn [fold_left named map unseen List.filter]; [by rewrite !app_nil_r|].
  cbn [list_instance andb fst]. destruct (decide (job_name i ∈ names)) as [H|H].
  - rewrite bool_decide_true by done. apply IH.
  - rewrite bool_decide_false by done. cbn [List.filter map fst]. rewrite of_role_P, of_role_D. unfold PDRole_value.
    do 2 case_bool_decide; try congruence; rewrite IH; cbn [map]; by rewrite <- ?app_assoc.
Qed.

Lemma unseen_app l rest : ∀ names,
  unseen names (l ++ rest) = unseen names l ++ unseen (names ++ map (λ x, job_name x.1) (unseen names l)) rest.
Proof.
  induction l as [|x l IH]; intros names; cbn [app unseen map]; [by rewrite app_nil_r|].
  case_decide; [apply IH|]. cbn [app map]. rewrite IH. by rewrite <- app_assoc.
Qed.

(** The two lists: every active instance, and of the others the first of each name that no
    active one has. *)
Definition listed (c : Collector) : list (Instance * InventoryStatus) :=
  named RUNNING (active_instance_list c) ++
  unseen (map job_name (active_instance_list c)) (named INIT (initial_instance_list c) ++ named ERROR (inactive_instance_list c)).

Lemma p_d_listed c :
  get_p_d_instance_list c = (map info (List.filter (of_role ROLE_P) (listed c)), map info (List.filter (of_role ROLE_D) (listed c))).
Proof.
  unfold get_p_d_instance_list, listed. rewrite list_active, !list_rest, !app_nil_l, unseen_app, !List.filter_app, !map_app, <- !app_assoc. done.
Qed.

Lemma unseen_all l : ∀ seen, NoDup (seen ++ map (λ x, job_name x.1) l) → unseen seen l = l.
Proof.
  induction l as [|x l IH]; intros seen H; cbn [unseen]; [done|]. cbn [map] in H.
  rewrite decide_False.
  - rewrite IH; [done|]. by rewrite <- app_assoc.
  - apply NoDup_app in H as (_ & H & _). intros Hx. apply (H _ Hx). left.
Qed.

Lemma named_names st l : map (λ x, job_name x.1) (named st l) = map job_name l.
Proof. unfold named. by rewrite map_map. Qed.

Lemma dp_instances l : ∀ groups names, NoDup (names ++ map job_name l) →
  fold_left dp_instance l (groups, names) = (groups ++ flat_map (λ i, flat_map (pod_dp_groups (job_name i)) (endpoints i)) l, names ++ map job_name l).
Proof.
  induction l as [|i l IH]; intros groups names H; cbn [fold_left flat_map map]; [by rewrite !app_nil_r|].
  unfold dp_instance at 2. cbn [fst snd]. rewrite bool_decide_false.
  - rewrite IH; [by rewrite <- !app_assoc|]. by rewrite <- app_assoc.
  - apply NoDup_app in H as (_ & H & _). intros Hx. apply (H _ Hx). left.
Qed.

Definition all_instances (c : Collector) : list Instance := active_instance_list c ++ initial_instance_list c ++ inactive_instance_list c.

Lemma listed_all c : NoDup (map job_name (all_instances c)) →
  listed c = named RUNNING (active_instance_list c) ++ named INIT (initial_instance_list c) ++ named ERROR (inactive_instance_list c).
Proof.
  intros H. unfold listed. f_equal. apply unseen_all. unfold all_instances in H. by rewrite map_app, !named_names, <- !map_app.
Qed.

Lemma missing_all c l : NoDup (map job_name (active_instance_list c) ++ map job_name l) →
  existsb (λ i, negb (bool_decide (job_name i ∈ map job_name (active_instance_list c)))) l = negb (bool_decide (l = [])).
Proof.
  intros H. destruct l as [|i l]; [by rewrite bool_decide_true|]. rewrite (bool_decide_false (i :: l = [])) by done. cbn [existsb].
  rewrite bool_decide_false; [done|]. apply NoDup_app in H as (_ & H & _). intros Hx. apply (H _ Hx). left.
Qed.

Lemma filter_named st r l : map fst (List.filter (of_role r) (named st l)) = List.filter (λ i, bool_decide (role i = PDRole_value r)) l.
Proof.
  unfold named. induction l as [|i l IH]; cbn [map List.filter]; [done|]. unfold of_role at 1. cbn [fst]. case_bool_decide; cbn [map fst]; by rewrite IH.
Qed.

(** The status an inventory gives an instance, if it lists it. *)
Definition inventory_status (st : InsStatus) : option InventoryStatus :=
  match st with ACTIVE => Some RUNNING | INITIAL => Some INIT | INACTIVE => Some ERROR | DELETED => None end.
Definition listed_as (r : PDRole) (i : Instance) : option InstanceInfo :=
  if bool_decide (role i = PDRole_value r) then get_instance_info_from_instance i <$> inventory_status (status i) else None.

Definition listed_part (r : PDRole) (st : InventoryStatus) (x : InsStatus) (i : Instance) : option InstanceInfo :=
  if decide (status i = x) then if bool_decide (role i = PDRole_value r) then Some (get_instance_info_from_instance i st) else None else None.

Lemma listed_part_eq r st x (later : ref → Instance) (refs : list ref) :
  map info (List.filter (of_role r) (named st (map later (filter (λ r, status (later r) = x) refs)))) = omap (listed_part r st x) (map later refs).
Proof.
  induction refs as [|y refs IH]; [done|]. cbn [map omap list_omap]. unfold listed_part at 1. rewrite filter_cons.
  destruct (decide (status (later y) = x)) as [H|H]; [|exact IH].
  cbn [map named List.filter]. unfold of_role at 1. cbn [fst]. case_bool_decide; cbn [map]; [|exact IH]. f_equal. exact IH.
Qed.

Lemma parts_permutation {A B} (f g h k : A → option B) l :
  (∀ x, k x = f x ∧ g x = None ∧ h x = None ∨ k x = g x ∧ f x = None ∧ h x = None ∨ k x = h x ∧ f x = None ∧ g x = None) →
  omap f l ++ omap g l ++ omap h l ≡ₚ omap k l.
Proof.
  intros H. induction l as [|x l IH]; [done|]. cbn [omap list_omap].
  destruct (H x) as [(-> & -> & ->)|[(-> & -> & ->)|(-> & -> & ->)]]; case_match; try exact IH; rewrite <- IH; solve_Permutation.
Qed.

Lemma listed_permutation r (later : ref → Instance) (refs : list ref) :
  map info (List.filter (of_role r)
    (named RUNNING (map later (filter (λ r, status (later r) = ACTIVE) refs)) ++
     named INIT (map later (filter (λ r, status (later r) = INITIAL) refs)) ++
     named ERROR (map later (filter (λ r, status (later r) = INACTIVE) refs))))
  ≡ₚ omap (listed_as r) (map later refs).
Proof.
  rewrite !List.filter_app, !map_app, !listed_part_eq. apply parts_permutation. intros i. unfold listed_part, listed_as, inventory_status.
  case_bool_decide; destruct (status i); repeat (rewrite decide_True by done || rewrite decide_False by done); cbn; tauto.
Qed.

Lemma any_running r a b e :
  existsb (λ x, bool_decide (InstanceStatus x = RUNNING)) (map info (List.filter (of_role r) (named RUNNING a ++ named INIT b ++ named ERROR e)))
  = negb (length (List.filter (λ i, bool_decide (role i = PDRole_value r)) a) =? 0)%nat.
Proof.
  assert (∀ st l, st ≠ RUNNING → existsb (λ x, bool_decide (InstanceStatus x = RUNNING)) (map info (List.filter (of_role r) (named st l))) = false) as Hno.
  { intros st l Hst. unfold named. induction l as [|i l IH]; [done|]. cbn [map List.filter]. case_match; [|exact IH]. cbn [map existsb].
    rewrite IH, bool_decide_false by done. done. }
  rewrite !List.filter_app, !map_app, !existsb_app, (Hno INIT), (Hno ERROR), !orb_false_r by done. unfold named.
  induction a as [|i a IH]; [done|]. cbn [map List.filter]. unfold of_role at 1. cbn [fst]. destruct (bool_decide (role i = _)); [done|exact IH].
Qed.

(** ** Properties *)

(** C9: every alarm that is let through is handed out exactly once.  Whatever is added and
    whoever asks in between, what a source that has asked before is handed out, followed
    by what still waits for it, is what waited for it before followed by the records let
    through since, each once and in order. *)
Theorem alarms_delivered ops : ∀ s src,
  is_Some (dget (stored s) src) →
  handed_out src s ops ++ map format (waiting (alarms_run s ops) src)
  = map format (waiting s src ++ admitted (raised_keys s) (added ops)).
Proof.
  induction ops as [|[r|src'] ops IH]; intros s src [l Hl]; [by cbn; rewrite app_nil_r| |].
  - destruct (add_alarm_spec r s) as (new & Hn & Hg). specialize (IH (add_alarm r s) src). rewrite Hg, Hl in IH.
    specialize (IH (ex_intro _ _ eq_refl)). cbn [handed_out alarm_step app]. etransitivity; [exact IH|].
    change (added (AAdd r :: ops)) with (r :: added ops). rewrite Hn, app_assoc. unfold waiting. by rewrite Hg, Hl.
  - cbn [handed_out]. change (added (AGet src' :: ops)) with (added ops). change (alarms_run s (AGet src' :: ops)) with (alarms_run (get_alarms src' s).1 ops).
    change (raised_keys s) with (raised_keys (get_alarms src' s).1). cbn [alarm_step].
    assert (is_Some (dget (stored (get_alarms src' s).1) src)) as Hk.
    { cbn [get_alarms fst stored]. rewrite dget_dset. case_decide; eauto. }
    rewrite <- app_assoc, (IH _ _ Hk), !map_app, app_assoc. f_equal. unfold waiting at 1. cbn [get_alarms fst stored]. rewrite dget_dset.
    destruct (decide (src' = src)) as [->|H]; [by rewrite get_alarms_concat, app_nil_r|done].
Qed.

(** An alarm that can be cleared is reported when it is raised and when it is cleared,
    and not again in between: of the records about one alarm, those let through are in
    turn raised and cleared, whatever is reported. *)
Theorem alarm_alternates key rs : ∀ raised,
  alternates (if decide (key ∈ raised) then YES else NO) (List.filter (about key) (admitted raised rs)).
Proof.
  induction rs as [|r rs IH]; intros raised; [done|]. cbn [admitted].
  destruct (is_recoverable r) eqn:Er; [|cbn [List.filter]; change (about key r) with (is_recoverable r && bool_decide (recovery_alarm_key r = key)); rewrite Er; apply IH].
  assert (∀ l, List.filter (about key) (r :: l) = if decide (recovery_alarm_key r = key) then r :: List.filter (about key) l else List.filter (about key) l) as Hf.
  { intros l. cbn [List.filter]. change (about key r) with (is_recoverable r && bool_decide (recovery_alarm_key r = key)).
    rewrite Er. cbn [andb]. by case_decide; [rewrite bool_decide_true|rewrite bool_decide_false]. }
  destruct (cleared r) eqn:Ec; destruct (decide (recovery_alarm_key r ∈ raised)) as [H|H]; try apply IH; cbv zeta; fold (about key); rewrite Hf;
    destruct (decide (recovery_alarm_key r = key)) as [<-|Hne].
  - rewrite decide_False by done. split; [done|]. specialize (IH ({[recovery_alarm_key r]} ∪ raised)). by rewrite decide_True in IH by set_solver.
  - specialize (IH ({[recovery_alarm_key r]} ∪ raised)). destruct (decide (key ∈ raised)).
    + by rewrite decide_True in IH by set_solver.
    + by rewrite decide_False in IH by set_solver.
  - rewrite decide_True by done. split; [done|]. specialize (IH (raised ∖ {[recovery_alarm_key r]})). by rewrite decide_False in IH by set_solver.
  - specialize (IH (raised ∖ {[recovery_alarm_key r]})). destruct (decide (key ∈ raised)).
    + by rewrite decide_True in IH by set_solver.
    + by rewrite decide_False in IH by set_solver.
Qed.

(** The inventory is what the instance manager has.  When the lists are read in one state
    whose instances have different job names, the prefill list holds exactly one entry for
    each prefill instance that is not deleted, with its status and pods, the decode list
    for the decode instances, and the data parallel groups are those of all endpoints. *)
Theorem inventory_of_manager {O D} (s : Ctl (O := O) (D := D)) sys_id engine_type now_ms :
  NoDup (map job_name (all_instances (collect_inventory s s s (cstore s)))) →
  let inv := inventory_of (collect_inventory s s s (cstore s)) sys_id engine_type now_ms in
  let instances := map (cstore s) (dvalues (instances s)) in
  PInstanceList inv ≡ₚ omap (listed_as ROLE_P) instances ∧
  DInstanceList inv ≡ₚ omap (listed_as ROLE_D) instances ∧
  DPGroupList inv ≡ₚ flat_map (λ i, flat_map (pod_dp_groups (job_name i)) (endpoints i))
                      (List.filter (λ i, negb (bool_decide (status i = DELETED))) instances).
Proof.
  intros Hn. cbv zeta. unfold inventory_of. cbn [PInstanceList DInstanceList DPGroupList]. rewrite p_d_listed, (listed_all _ Hn).
  cbn [fst snd]. split_and!; [apply listed_permutation..|].
  unfold get_dp_group_list. rewrite dp_instances by done. rewrite app_nil_l. cbn [fst]. apply Permutation_flat_map.
  cbn [active_instance_list initial_instance_list inactive_instance_list collect_inventory].
  unfold get_active_instances, get_initial_instances, get_inactive_instances, of_status.
  induction (dvalues (instances s)) as [|x l IH]; [done|]. rewrite !filter_cons. cbn [map List.filter].
  destruct (status (cstore s x)) eqn:E; repeat (rewrite (decide_True (P := _ = _)) by done || rewrite (decide_False (P := _ = _)) by done);
    rewrite ?(bool_decide_true (_ = _)) by done; rewrite ?bool_decide_false by done; cbn [negb map]; rewrite <- IH; solve_Permutation.
Qed.

(** The state of the model.  When all job names differ, the model is unhealthy exactly if
    the inventory shows no running prefill or no running decode instance, and of the other
    cases healthy exactly if no instance is starting or in error; instances of neither
    role count for the second and not for the first. *)
Theorem model_state c sys_id engine_type now_ms :
  NoDup (map job_name (all_instances c)) →
  let inv := inventory_of c sys_id engine_type now_ms in
  let running := existsb (λ x, bool_decide (InstanceStatus x = RUNNING)) in
  modelState inv =
  if running (PInstanceList inv) && running (DInstanceList inv)
  then if bool_decide (initial_instance_list c = [] ∧ inactive_instance_list c = []) then HEALTHY else SUB_HEALTHY
  else UNHEALTHY.
Proof.
  intros Hn. cbv zeta. unfold inventory_of. cbn [PInstanceList DInstanceList modelState]. rewrite p_d_listed, (listed_all _ Hn). cbn [fst snd].
  unfold all_instances in Hn. rewrite !map_app in Hn. rewrite !any_running. unfold get_model_state.
  apply NoDup_app in Hn as (Ha & Hab & Hb). apply NoDup_app in Hb as (Hb & Hbc & Hc).
  rewrite !missing_all.
  2: { apply NoDup_app. split_and!; [done| |done]. intros x Hx Hy. apply (Hab x Hx). apply elem_of_app. by right. }
  2: { apply NoDup_app. split_and!; [done| |done]. intros x Hx Hy. apply (Hab x Hx). apply elem_of_app. by left. }
  destruct (_ =? 0)%nat; [done|]. destruct (_ =? 0)%nat; [done|]. cbn [orb negb andb].
  destruct (initial_instance_list c), (inactive_instance_list c); cbn [negb];
    rewrite ?bool_decide_true by done; rewrite ?bool_decide_false by (intros [? ?]; done); done.
Qed.

(** ** Witnesses *)

Definition sample_alarm_env : AlarmEnv := mkAlarmEnv (Some "ctl") None (Some "10.0.0.9") 1000 1000.
Definition sample_alarm (ins : string) (is_cleared : bool) : Record_ := InstanceExceptionAlarm sample_alarm_env ins 1 is_cleared.
Definition sample_alarm_ops : list alarm_op :=
  [AAdd (sample_alarm "p0" false); AAdd (sample_alarm "p0" false); AGet (Some "ccae"); AAdd (ControllerToSlaveEvent sample_alarm_env 1);
   AAdd (sample_alarm "d0" true); AGet None; AAdd (sample_alarm "p0" true); AGet (Some "ccae"); AGet None].

Lemma alarms_delivered_witness :
  handed_out (Some "ccae") (AlarmStore_init (Some " ccae ")) sample_alarm_ops
  = map format [sample_alarm "p0" false; ControllerToSlaveEvent sample_alarm_env 1; sample_alarm "p0" true].
Proof.
  exact (eq_trans (eq_sym (app_nil_r _)) (alarms_delivered sample_alarm_ops (AlarmStore_init (Some " ccae ")) (Some "ccae")
    ltac:(vm_compute; eexists; reflexivity))).
Defined.

(** A query without a source gets nothing of what came before its first one. *)
Example first_query_without_source :
  length (handed_out None (AlarmStore_init (Some "ccae")) sample_alarm_ops) = 1%nat.
Proof. reflexivity. Qed.

Definition sample_manager : Ctl (O := unit) (D := Instance) :=
  mkCtl (λ r, set_endpoints (set_status (Instance_init (if decide (r = 1)%nat then "p0" else "d0") "m" (Z.of_nat r)
                (if decide (r = 1)%nat then "prefill" else "decode") None false) (if decide (r = 1)%nat then ACTIVE else INACTIVE))
                [("10.0.0.1", [(0, sample_endpoint 0)])])
    3 [(1, 1%nat); (2, 2%nat)] ∅ 0 false None tt [] [].

Lemma inventory_of_manager_witness :
  PInstanceList (inventory_of (collect_inventory sample_manager sample_manager sample_manager (cstore sample_manager)) None None 0)
  ≡ₚ [get_instance_info_from_instance (cstore sample_manager 1%nat) RUNNING].
Proof.
  exact (proj1 (inventory_of_manager sample_manager None None 0
    ltac:(apply (bool_decide_unpack _); vm_compute; reflexivity))).
Defined.

Lemma model_state_witness :
  modelState (inventory_of (collect_inventory sample_manager sample_manager sample_manager (cstore sample_manager)) None None 0) = UNHEALTHY.
Proof.
  exact (model_state (collect_inventory sample_manager sample_manager sample_manager (cstore sample_manager)) None None 0
    ltac:(apply (bool_decide_unpack _); vm_compute; reflexivity)).
Defined.

(** The lists are read at different times: an instance that becomes active after the first is
    read is in none of them. *)
Example became_active_in_between :
  let before := mkCtl (λ r, set_status (cstore sample_manager r) INITIAL) 3 [(1, 1%nat)] ∅ 0 false None tt [] [] in
  let after := mkCtl (λ r, set_status (cstore sample_manager r) ACTIVE) 3 [(1, 1%nat)] ∅ 0 false None tt [] [] in
  all_instances (collect_inventory (O := unit) (D := Instance) before after after (cstore after)) = [].
Proof. reflexivity. Qed.

(** Instances that serve both roles are not listed, and a service of nothing else is
    unhealthy. *)
Example hybrid_service :
  let c := mkCollector [sample_instance 1 "both"] [] [] in
  let inv := inventory_of c None None 0 in (PInstanceList inv, DInstanceList inv, modelState inv) = ([], [], UNHEALTHY).
Proof. reflexivity. Qed.
