(* ===== verification/ControllerMain.v ===== *)
(** * The controller process

    Models [controller/main.py] (the modules of the controller, their start and stop with
    the role, the configuration callback, the shutdown) and the handlers and probes of
    [controller/api_server/controller_api.py].  A module is its name, with the number of
    groups of threads that run its loops; what the modules do is in their own files. *)

From stdpp Require Import base option list strings.
From Stdlib Require Import ZArith Lia.
From S2P Require Import Prelude Float64 PyText Resources CtlInstanceManager InstanceAssembler Standby.
Open Scope Z_scope.

(** ** State *)

Definition ASSEMBLER : string := "InstanceAssembler".
Definition PUSHER : string := "EventPusher".
Definition FAULTS : string := "FaultManager".
Definition MANAGER : string := "InstanceManager".
Definition OBSERVABILITY : string := "Observability".
Definition API : string := "ControllerAPI".

(** The fields of the configuration the process looks at. *)
Record MainConfig := mkMainConfig { enable_master_standby : bool; enable_fault_tolerance : bool; observability_enable : bool }.

Record Controller := mkController {
  config : MainConfig;
  (** the keys of [modules], in order *)
  modules : list string;
  (** the thread groups of each module object *)
  running : string → nat;
  (** the observers of the instance manager *)
  attached : list string;
  previous_fault_tolerance_enabled : bool;
  (** [ControllerAPI.enable_observability_api] *)
  observability_api : bool;
  (** the calls of [FaultManager.update_instances] *)
  ft_updates : list (list ref);
  (** the events added when it became master *)
  to_slave_events : nat;
  (** the standby manager and the configuration watcher, if they were made *)
  standby_manager : option bool;
  config_watcher : option bool
}.
Definition set_modules (s : Controller) m := mkController (config s) m (running s) (attached s) (previous_fault_tolerance_enabled s) (observability_api s) (ft_updates s) (to_slave_events s) (standby_manager s) (config_watcher s).
Definition set_running (s : Controller) r := mkController (config s) (modules s) r (attached s) (previous_fault_tolerance_enabled s) (observability_api s) (ft_updates s) (to_slave_events s) (standby_manager s) (config_watcher s).
Definition set_attached (s : Controller) a := mkController (config s) (modules s) (running s) a (previous_fault_tolerance_enabled s) (observability_api s) (ft_updates s) (to_slave_events s) (standby_manager s) (config_watcher s).
Definition set_previous (s : Controller) b := mkController (config s) (modules s) (running s) (attached s) b (observability_api s) (ft_updates s) (to_slave_events s) (standby_manager s) (config_watcher s).
Definition set_config (s : Controller) c := mkController c (modules s) (running s) (attached s) (previous_fault_tolerance_enabled s) (observability_api s) (ft_updates s) (to_slave_events s) (standby_manager s) (config_watcher s).
Definition set_api (s : Controller) b := mkController (config s) (modules s) (running s) (attached s) (previous_fault_tolerance_enabled s) b (ft_updates s) (to_slave_events s) (standby_manager s) (config_watcher s).
Definition log_update (s : Controller) l := mkController (config s) (modules s) (running s) (attached s) (previous_fault_tolerance_enabled s) (observability_api s) (ft_updates s ++ [l]) (to_slave_events s) (standby_manager s) (config_watcher s).
Definition log_event (s : Controller) := mkController (config s) (modules s) (running s) (attached s) (previous_fault_tolerance_enabled s) (observability_api s) (ft_updates s) (S (to_slave_events s)) (standby_manager s) (config_watcher s).
Definition set_standby (s : Controller) b := mkController (config s) (modules s) (running s) (attached s) (previous_fault_tolerance_enabled s) (observability_api s) (ft_updates s) (to_slave_events s) b (config_watcher s).
Definition set_watcher (s : Controller) b := mkController (config s) (modules s) (running s) (attached s) (previous_fault_tolerance_enabled s) (observability_api s) (ft_updates s) (to_slave_events s) (standby_manager s) b.

(** The process before anything is made. *)
Definition Controller_init (c : MainConfig) (watched : bool) : Controller :=
  mkController c [] (λ _, 0%nat) [] (enable_fault_tolerance c) (observability_enable c) [] 0 None (if watched then Some true else None).

(** ** Modules *)

Definition groups (f : string → nat) (name : string) (n : nat) : string → nat := λ x, if decide (x = name) then n else f x.

(** [modules[name] = ...]. *)
Definition add_module (s : Controller) (name : string) : Controller :=
  if bool_decide (name ∈ modules s) then s else set_modules s (modules s ++ [name]).
Definition attach (s : Controller) (name : string) : Controller :=
  set_attached s (if bool_decide (name ∈ attached s) then attached s else attached s ++ [name]).

(** [module.start()]: new threads, unless it raises; [Observability.start] starts none. *)
Definition start_module (starts : string → bool) (name : string) : M Controller unit :=
  if starts name
  then mmodify (λ s, if bool_decide (name = OBSERVABILITY) then s else set_running s (groups (running s) name (S (running s name))))
  else mraise RuntimeError.
(** [module.stop()]: its loops end. *)
Definition stop_module (name : string) : M Controller unit := mmodify (λ s, set_running s (groups (running s) name 0)).
(** [module.is_alive()]: [Observability] does not have it. *)
Definition module_is_alive (s : Controller) (name : string) : py bool :=
  if bool_decide (name = OBSERVABILITY) then Raise AttributeError else Ret (0 <? running s name)%nat.

Definition observers_list : list string := [PUSHER; FAULTS].

Definition init_all_modules : M Controller unit :=
  mmodify (λ s, add_module (add_module s ASSEMBLER) PUSHER) ;;
  mmodify (λ s, if enable_fault_tolerance (config s) then add_module s FAULTS else s) ;;
  mmodify (λ s, add_module s MANAGER) ;;
  mmodify (λ s, if observability_enable (config s) then add_module s OBSERVABILITY else s) ;;
  mmodify (λ s, add_module s API) ;;
  mmodify (λ s, fold_left (λ s name, if bool_decide (name ∈ observers_list) then attach s name else s) (modules s) s).

Definition start_all_modules (exclude_modules : list string) (starts : string → bool) : M Controller unit :=
  s ← mget;
  mfor (modules s) (λ name,
    if bool_decide (name ∈ exclude_modules) then mret tt else mexcept (start_module starts name) (λ _, mret tt)).

(** [is_alive] is asked outside the [try]. *)
Definition stop_all_modules (exclude_modules : list string) : M Controller unit :=
  s ← mget;
  mfor (modules s) (λ name,
    if bool_decide (name ∈ exclude_modules) then mret tt
    else
      s ← mget;
      alive ← mlift (module_is_alive s name);
      if alive : bool then mexcept (stop_module name) (λ _, mret tt) else mret tt).

Definition on_become_master (should_report_event : bool) (starts : string → bool) : M Controller unit :=
  s ← mget;
  (if bool_decide (modules s = []) then init_all_modules else mret tt) ;;
  start_all_modules [API] starts ;;
  if should_report_event then mmodify log_event else mret tt.

Definition on_become_standby : M Controller unit := stop_all_modules [API].

(** [on_config_updated] once the configuration was reloaded: fault tolerance switched on or
    off, then the new configuration for all modules.  The instance manager answers with
    the active and the inactive instances. *)
Definition enable_faults (starts : string → bool) (active inactive : list ref) : M Controller unit :=
  mmodify (λ s, add_module s FAULTS) ;;
  s ← mget;
  let instance_manager := bool_decide (MANAGER ∈ modules s) in
  (if instance_manager then mmodify (λ s, attach s FAULTS) else mret tt) ;;
  start_module starts FAULTS ;;
  if instance_manager
  then (if bool_decide (active ++ inactive = []) then mret tt else mmodify (λ s, log_update s (active ++ inactive)))
  else mret tt.
Definition disable_faults : M Controller unit :=
  s ← mget;
  if bool_decide (FAULTS ∈ modules s)
  then stop_module FAULTS ;; mmodify (λ s, set_modules s (List.filter (λ name, negb (bool_decide (name = FAULTS))) (modules s)))
  else mret tt.
Definition on_config_updated (new : MainConfig) (starts : string → bool) (active inactive : list ref) : M Controller unit :=
  mmodify (λ s, set_config s new) ;;
  s ← mget;
  let current := enable_fault_tolerance (config s) in
  (if Bool.eqb current (previous_fault_tolerance_enabled s) then mret tt
   else
     mexcept (if current then enable_faults starts active inactive else disable_faults) (λ _, mret tt) ;;
     mmodify (λ s, set_previous s current)) ;;
  mmodify (λ s, if bool_decide (API ∈ modules s) then set_api s (observability_enable (config s)) else s).

(** [main], up to its loop, and what it does after the loop; [signal_handler] does the same
    first. *)
Definition start_controller (starts : string → bool) : M Controller unit :=
  s ← mget;
  if enable_master_standby (config s) then
    init_all_modules ;;
    start_all_modules ([MANAGER; ASSEMBLER; PUSHER] ++ (if enable_fault_tolerance (config s) then [FAULTS] else [])
                       ++ (if observability_enable (config s) then [OBSERVABILITY] else [])) starts ;;
    mmodify (λ s, set_standby s (Some true))
  else init_all_modules ;; start_all_modules [] starts.
Definition cleanup : M Controller unit :=
  stop_all_modules [] ;;
  mmodify (λ s, set_standby s (match standby_manager s with Some _ => Some false | None => None end)) ;;
  mmodify (λ s, set_watcher s (match config_watcher s with Some _ => Some false | None => None end)).

(** ** The API *)

(** The role the standby manager has, if it was made; what a probe answers. *)
Record ControllerStatus := mkStatus { master_standby : bool; status_role : option StandbyRole; overall_healthy : bool }.

Fixpoint unhealthy_modules (s : Controller) (names : list string) : list string :=
  match names with
  | [] => []
  | name :: names =>
      match module_is_alive s name with
      | Raise _ => unhealthy_modules s names
      | Ret alive => if alive then unhealthy_modules s names else name :: unhealthy_modules s names
      end
  end.

(** [_get_controller_status]; a module without [is_alive] is passed over. *)
Definition get_controller_status (enable_standby : bool) (role : option StandbyRole) (s : Controller) : ControllerStatus :=
  let healthy := bool_decide (unhealthy_modules s (modules s) = []) in
  if enable_standby then
    mkStatus true (Some (default STANDBY role))
      (match role with Some STANDBY => true | _ => healthy end)
  else mkStatus false None healthy.

Inductive answer := Message (m : string) | Status503 (reason : string).

Definition readiness (st : ControllerStatus) : answer :=
  if negb (overall_healthy st) then Status503 "Overall not healthy"
  else if master_standby st && negb (bool_decide (status_role st = Some MASTER)) then Status503 "Not master"
  else Message "Controller is ready".
Definition liveness (st : ControllerStatus) : answer :=
  if negb (overall_healthy st) then Status503 "Overall not healthy" else Message "Controller is alive".

(** The handlers of the node managers; [None] is a body that is not a message. *)
Section handlers.
Context {O D : Type} `{!Observer O, !Codec D} (asm_checksum : Z → dict string (AsmEntry (D := D)) → Z → f64 → string).
Abbreviation SYS := (ASys (O := O) (D := D)).

Inductive reply := Error (e : string) | Result (z : Z) | Heartbeat (known : bool) (code : Z) | Done (r : string).

Definition api_heartbeat (env : CtlEnv) (body : option HeartbeatMsg) : M SYS reply :=
  match body with
  | None => mret (Error "Invalid HeartbeatMsg format")
  | Some msg => r ← on_ctl (handle_heartbeat env (Some msg)); mret (Heartbeat r.1 r.2)
  end.
Definition api_register (env : AsmEnv) (body : option RegisterMsg) : M SYS reply :=
  match body with
  | None => mret (Error "Invalid RegisterMsg format")
  | Some msg => ret ← register asm_checksum env msg; mret (if bool_decide (ret = -1) then Error "Instance already registered" else Result ret)
  end.
Definition api_reregister (env : AsmEnv) (body : option ReregisterMsg) : M SYS reply :=
  match body with
  | None => mret (Error "Invalid ReregisterMsg format")
  | Some msg => ret ← reregister asm_checksum env msg; mret (if bool_decide (ret = -1) then Error "Instance already registered" else Result ret)
  end.
(** [_terminate_instance], with the node managers it sends the stop to. *)
Definition api_terminate_instance (body : option Z) (s : SYS) : reply * list NodeManagerInfo :=
  match body with
  | None => (Error "Invalid TerminateInstanceMsg format", [])
  | Some id =>
      match get_instance (a_ctl s) id with
      | None => (Error "Instance not found", [])
      | Some r => (Done "Terminate instance succeed!", get_node_managers (cstore (a_ctl s) r))
      end
  end.
End handlers.

(** [_master_standby_middleware] and [observability_enabled_required], before the handlers of
    the observability server. *)
Definition observability_request {A} (enable_standby : bool) (role : option StandbyRole) (enabled : bool) (handler : py A) : py A :=
  if enable_standby && bool_decide (role = Some STANDBY) then Raise (HTTPException 500)
  else if negb enabled then Raise (HTTPException 500)
  else match handler with Ret a => Ret a | Raise _ => Raise (HTTPException 500) end.

(** ** Lemmas *)

Definition all_start : string → bool := λ _, true.

(** The modules of a configuration. *)
Definition modules_of (c : MainConfig) : list string :=
  [ASSEMBLER; PUSHER] ++ (if enable_fault_tolerance c then [FAULTS] else []) ++ [MANAGER]
  ++ (if observability_enable c then [OBSERVABILITY] else []) ++ [API].

(** The loops run [n] times, those of the fault manager only if it is configured. *)
Record settled (c : MainConfig) (n : nat) (s : Controller) : Prop := {
  st_config : config s = c;
  st_modules : modules s = modules_of c;
  st_assembler : running s ASSEMBLER = n;
  st_pusher : running s PUSHER = n;
  st_faults : running s FAULTS = if enable_fault_tolerance c then n else 0%nat;
  st_manager : running s MANAGER = n;
  st_api : running s API = 1%nat;
  st_standby : standby_manager s = Some true;
  st_previous : previous_fault_tolerance_enabled s = enable_fault_tolerance c
}.

Lemma started c watched : enable_master_standby c = true → settled c 0 (start_controller all_start (Controller_init c watched)).1.
Proof. destruct c as [[] [] []]; intros H; try discriminate H; constructor; vm_compute; reflexivity. Qed.

Lemma became_master c s report : settled c 0 s → settled c 1 (on_become_master report all_start s).1.
Proof.
  intros [H1 H2 H3 H4 H5 H6 H7 H8 H9]. destruct s as [c' m f a p ob u e sb w]. cbn in *. subst c' m sb p.
  destruct c as [sb ft ob'], ft, ob', report; constructor; vm_compute; try reflexivity;
    first [exact (f_equal S H3)|exact (f_equal S H4)|exact (f_equal S H5)|exact (f_equal S H6)|exact H7|exact H5].
Qed.

Lemma became_standby c s : settled c 1 s → settled c 0 (on_become_standby s).1.
Proof.
  intros [H1 H2 H3 H4 H5 H6 H7 H8 H9]. destruct s as [c' m f a p ob u e sb w]. cbn in *. subst c' m sb p.
  destruct c as [sb ft ob'], ft, ob'; vm_compute in H3, H4, H5, H6, H7; constructor; vm_compute; repeat (rewrite ?H3, ?H4, ?H5, ?H6, ?H7; vm_compute); reflexivity.
Qed.

(** The process of a standby manager that has made the callbacks [cs]: an exception of a
    callback ends the round of the manager and nothing else. *)
Definition do_callback (x : callback) : M Controller unit :=
  match x with OnBecomeMaster report => on_become_master report all_start | OnBecomeStandby => on_become_standby end.
Definition process_after (c : MainConfig) (watched : bool) (cs : list callback) : Controller :=
  fold_left (λ s x, (do_callback x s).1) cs (start_controller all_start (Controller_init c watched)).1.
Definition times (r : StandbyRole) : nat := match r with MASTER => 1 | STANDBY => 0 end.

Lemma settled_after c watched cs r : enable_master_standby c = true → role_told cs = Some r → settled c (times r) (process_after c watched cs).
Proof.
  intros Hc. revert r. induction cs as [|x cs IH] using rev_ind; intros r Hr.
  - injection Hr as <-. by apply started.
  - rewrite role_told_snoc in Hr. unfold process_after. rewrite fold_left_app. cbn [fold_left]. fold (process_after c watched cs).
    destruct (role_told cs) as [[]|], x as [report|]; try discriminate Hr; injection Hr as <-; specialize (IH _ eq_refl).
    + by apply became_master.
    + by apply became_standby.
Qed.

(** The loops of a configuration. *)
Definition loops_of (c : MainConfig) : list string := [ASSEMBLER; PUSHER; MANAGER] ++ (if enable_fault_tolerance c then [FAULTS] else []).

Lemma settled_loops c n s name : settled c n s → name ∈ loops_of c → running s name = n.
Proof.
  intros [] H. unfold loops_of in H. destruct (enable_fault_tolerance c); rewrite !elem_of_app, !elem_of_cons, elem_of_nil in H; naive_solver.
Qed.

(** A process that is master shuts down. *)
Lemma cleanup_plain c s : settled c 1 s → observability_enable c = false →
  let '(s', r) := cleanup s in r = Ret tt ∧ (∀ name, name ∈ API :: loops_of c → running s' name = 0%nat) ∧ standby_manager s' = Some false.
Proof.
  intros [H1 H2 H3 H4 H5 H6 H7 H8 H9] Hob. destruct s as [c' m f a p ob u e sb w]. cbn in *. subst c' m sb p.
  destruct c as [sb ft ob'], ft, ob'; try discriminate Hob; vm_compute in H3, H4, H5, H6, H7; vm_compute; repeat (rewrite ?H3, ?H4, ?H5, ?H6, ?H7; vm_compute);
    (split; [reflexivity|split; [|reflexivity]]); intros name Hn; repeat (apply elem_of_cons in Hn as [->|Hn]; [reflexivity|]); by apply elem_of_nil in Hn.
Qed.

Lemma cleanup_observed c s : settled c 1 s → observability_enable c = true →
  let '(s', r) := cleanup s in
  r = Raise AttributeError ∧ (∀ name, name ∈ loops_of c → running s' name = 0%nat) ∧ running s' API = 1%nat ∧
  standby_manager s' = Some true ∧ config_watcher s' = config_watcher s.
Proof.
  intros [H1 H2 H3 H4 H5 H6 H7 H8 H9] Hob. destruct s as [c' m f a p ob u e sb w]. cbn in *. subst c' m sb p.
  destruct c as [sb ft ob'], ft, ob'; try discriminate Hob; vm_compute in H3, H4, H5, H6, H7; vm_compute; repeat (rewrite ?H3, ?H4, ?H5, ?H6, ?H7; vm_compute);
    (split_and!; [reflexivity| |reflexivity..]); intros name Hn; repeat (apply elem_of_cons in Hn as [->|Hn]; [reflexivity|]); by apply elem_of_nil in Hn.
Qed.

Lemma healthy_when_running c s : settled c 1 s → unhealthy_modules s (modules s) = [].
Proof.
  intros [H1 H2 H3 H4 H5 H6 H7 H8 H9]. rewrite H2. destruct c as [sb ft ob], ft, ob; vm_compute in H3, H4, H5, H6, H7; vm_compute;
    repeat (rewrite ?H3, ?H4, ?H5, ?H6, ?H7; vm_compute); reflexivity.
Qed.

Lemma unhealthy_when_stopped c s : settled c 0 s → unhealthy_modules s (modules s) ≠ [].
Proof.
  intros [H1 H2 H3 H4 H5 H6 H7 H8 H9]. rewrite H2. change (modules_of c) with (ASSEMBLER :: tl (modules_of c)). cbn [unhealthy_modules].
  unfold module_is_alive. rewrite bool_decide_false by done. rewrite H3. done.
Qed.

(** Fault tolerance switched on. *)
Definition with_faults (c : MainConfig) : MainConfig := mkMainConfig (enable_master_standby c) true (observability_enable c).

Lemma start_each names : ∀ s,
  let s' := (mfor names (λ name, if bool_decide (name ∈ [API]) then mret tt else mexcept (start_module all_start name) (λ _, mret tt)) s) in
  s'.2 = Ret tt ∧ ∀ name, running s'.1 name =
    (running s name + if bool_decide (name ∈ [API; OBSERVABILITY]) then 0 else length (List.filter (λ n, bool_decide (n = name)) names))%nat.
Proof.
  induction names as [|n names IH]; intros s; cbn [mfor].
  - split; [done|]. intros name. cbn. case_bool_decide; lia.
  - set (s1 := if bool_decide (n ∈ [API; OBSERVABILITY]) then s else set_running s (groups (running s) n (S (running s n)))).
    erewrite (M_bind_Ret _ _ _ s1).
    2: { unfold s1. destruct (bool_decide (n ∈ [API])) eqn:Ea.
         - rewrite bool_decide_true; [reflexivity|]. apply bool_decide_eq_true in Ea. apply list_elem_of_singleton in Ea as ->. left.
         - apply bool_decide_eq_false in Ea. unfold mexcept, start_module, mmodify. cbn [all_start]. case_bool_decide as Eo.
           + rewrite bool_decide_true; [reflexivity|]. subst n. right. left.
           + rewrite bool_decide_false; [reflexivity|]. rewrite elem_of_cons, list_elem_of_singleton. intros [->|]; [apply Ea; left|done]. }
    destruct (IH s1) as [H1 H2]. split; [exact H1|]. intros name. rewrite H2. unfold s1. cbn [List.filter].
    repeat case_bool_decide; cbn [running set_running length]; unfold groups; try case_decide; subst; try done; lia.
Qed.

Lemma faults_switched_on c s active inactive : settled c 0 s → enable_fault_tolerance c = false →
  let s1 := (on_config_updated (with_faults c) all_start active inactive s).1 in
  let s2 := (on_become_master false all_start s1).1 in
  running s1 FAULTS = 1%nat ∧ (∀ name, name ∈ loops_of c → running s1 name = 0%nat) ∧ running s2 FAULTS = 2%nat ∧
  ft_updates s1 = ft_updates s ++ (if bool_decide (active ++ inactive = []) then [] else [active ++ inactive]).
Proof.
  intros Hs Hft s1 s2. assert (modules s1 = modules_of c ++ [FAULTS] ∧ running s1 = groups (running s) FAULTS 1%nat ∧
    ft_updates s1 = ft_updates s ++ (if bool_decide (active ++ inactive = []) then [] else [active ++ inactive])) as (E1 & E2 & E3).
  { destruct Hs as [H1 H2 H3 H4 H5 H6 H7 H8 H9]. unfold s1. clear s1 s2. destruct s as [c' m f a p ob u e sb w]. cbn in *. subst c' m sb p.
    destruct c as [sb ft ob']. cbn in Hft. subst ft. cbn in H5. replace 1%nat with (S (f FAULTS)) by (by rewrite H5). clear H3 H4 H6 H7.
    destruct ob', active as [|x active], inactive as [|y inactive]; (split_and!; [reflexivity|vm_compute; reflexivity|]); first [by rewrite app_nil_r|reflexivity]. }
  split_and!; [by rewrite E2| | |done].
  - intros name Hn. rewrite E2. unfold groups. rewrite decide_False.
    + by eapply settled_loops.
    + intros ->. unfold loops_of in Hn. rewrite Hft in Hn. by apply (bool_decide_eq_true_2 _) in Hn.
  - unfold s2, on_become_master. erewrite M_bind_Ret by reflexivity. rewrite bool_decide_false by (rewrite E1; by destruct (modules_of c)).
    erewrite M_bind_Ret by reflexivity. unfold start_all_modules. destruct (start_each (modules s1) s1) as [H1 H2].
    destruct (mfor _ _ s1) as [s' r] eqn:E. cbn [fst snd] in H1, H2. subst r. erewrite M_bind_Ret by (erewrite M_bind_Ret by reflexivity; exact E).
    cbn [fst mret M_ret]. rewrite H2, E1, E2. unfold modules_of. rewrite Hft. by destruct (observability_enable c).
Qed.

(** ** Properties *)


(** The shutdown of a master.  Without observability the cleanup stops every loop and the
    API and then the standby manager; with observability it raises at the module that has
    no [is_alive], after the loops were stopped: the API, the standby manager and the
    configuration watcher go on, so the lock is renewed by a process that does nothing. *)
Theorem shutdown_outcome c watched cs :
  enable_master_standby c = true → role_told cs = Some MASTER →
  let s := process_after c watched cs in
  let '(s', r) := cleanup s in
  (∀ name, name ∈ loops_of c → running s' name = 0%nat) ∧
  if observability_enable c
  then r = Raise AttributeError ∧ running s' API = 1%nat ∧ standby_manager s' = Some true ∧ config_watcher s' = config_watcher s
  else r = Ret tt ∧ running s' API = 0%nat ∧ standby_manager s' = Some false.
Proof.
  intros Hc Hr. cbv zeta. pose proof (settled_after c watched cs MASTER Hc Hr) as Hs. destruct (observability_enable c) eqn:Ho.
  - pose proof (cleanup_observed c _ Hs Ho) as H. destruct (cleanup _) as [s' r]. tauto.
  - pose proof (cleanup_plain c _ Hs Ho) as H. destruct (cleanup _) as [s' r]. destruct H as (H1 & H2 & H3).
    split_and!; [|done|apply H2; left|done]. intros name Hn. apply H2. by right.
Qed.

(** The probes.  A controller is ready exactly if its manager is master and its process
    was told so; it is alive in every case but one: a manager that is master already while
    its process has not started its modules yet answers 503 to the liveness probe. *)
Theorem probes_follow_role c watched cs told r :
  enable_master_standby c = true → role_told cs = Some told →
  let st := get_controller_status true (Some r) (process_after c watched cs) in
  (readiness st = Message "Controller is ready" ↔ r = MASTER ∧ told = MASTER) ∧
  (liveness st = Message "Controller is alive" ↔ ¬ (r = MASTER ∧ told = STANDBY)).
Proof.
  intros Hc Hr. cbv zeta. pose proof (settled_after c watched cs told Hc Hr) as Hs.
  unfold get_controller_status, readiness, liveness. cbn [overall_healthy master_standby status_role default]. destruct r.
  - cbn [negb andb]. rewrite bool_decide_false by done. cbn [negb]. split; split; try done; [by intros [? _]|by intros _ [? _]].
  - destruct told; cbn [times] in Hs.
    + rewrite bool_decide_false by (by eapply unhealthy_when_stopped). cbn [negb]. split; split; try done; [by intros [_ ?]|]. intros H. by destruct H.
    + rewrite bool_decide_true by (by eapply healthy_when_running). cbn [negb andb]. rewrite bool_decide_true by done. cbn [negb].
      split; split; try done. by intros _ [_ ?].
Qed.

(** Fault tolerance that is switched on at a standby.  The fault manager of a standby is
    started at once, although nothing else of it runs, and is started a second time when
    the controller becomes master; it is told of the active and the inactive instances and
    not of those that are starting. *)
Theorem faults_on_standby c watched cs active inactive :
  enable_master_standby c = true → enable_fault_tolerance c = false → role_told cs = Some STANDBY →
  let s := process_after c watched cs in
  let s1 := (on_config_updated (with_faults c) all_start active inactive s).1 in
  let s2 := (on_become_master false all_start s1).1 in
  running s1 FAULTS = 1%nat ∧ (∀ name, name ∈ loops_of c → running s1 name = 0%nat) ∧ running s2 FAULTS = 2%nat ∧
  ft_updates s1 = ft_updates s ++ (if bool_decide (active ++ inactive = []) then [] else [active ++ inactive]).
Proof. intros Hc Hft Hr. apply (faults_switched_on c); [by apply (settled_after c watched cs STANDBY)|done]. Qed.

(** ** Witnesses *)

Definition sample_main : MainConfig := mkMainConfig true true true.
Definition plain_main : MainConfig := mkMainConfig true false false.


Lemma shutdown_outcome_witness : let '(s', r) := cleanup (process_after sample_main true [OnBecomeMaster false]) in
  r = Raise AttributeError ∧ standby_manager s' = Some true.
Proof.
  pose proof (shutdown_outcome sample_main true [OnBecomeMaster false] eq_refl eq_refl) as H. cbv zeta in H.
  destruct (cleanup _) as [s' r]. destruct H as (_ & H1 & _ & H2 & _). exact (conj H1 H2).
Defined.

Lemma probes_follow_role_witness :
  readiness (get_controller_status true (Some MASTER) (process_after plain_main false [OnBecomeMaster true])) = Message "Controller is ready".
Proof. exact (proj2 (proj1 (probes_follow_role plain_main false [OnBecomeMaster true] MASTER MASTER eq_refl eq_refl)) (conj eq_refl eq_refl)). Defined.

(** Between the change of the role and the start of the modules. *)
Example becoming_master :
  liveness (get_controller_status true (Some MASTER) (process_after plain_main false [])) = Status503 "Overall not healthy".
Proof. reflexivity. Qed.

Lemma faults_on_standby_witness :
  running (on_config_updated (with_faults plain_main) all_start [1%nat] [] (process_after plain_main false [])).1 FAULTS = 1%nat.
Proof. exact (proj1 (faults_on_standby plain_main false [] [1%nat] [] eq_refl eq_refl eq_refl)). Defined.
