(* ===== verification/ApiKey.v ===== *)
(** * API keys

    Models [common/http/key_encryption.py] and the key check of
    [coordinator/api_server/inference_server.py] ([verify_api_key]).  Keys are stored as
    salt, iterations and PBKDF2 hash; [hashlib.pbkdf2_hmac] is written out over SHA-256, so
    that the check runs.  A string is the list of its UTF-8 bytes. *)

From stdpp Require Import base option list strings pretty.
From Stdlib Require Import ZArith Lia.
From Stdlib Require Import Ascii.
From S2P Require Import Prelude PyText.
Open Scope Z_scope.

(** ** SHA-256, HMAC and PBKDF2 *)

Definition w32 (z : Z) : Z := z mod 2 ^ 32.
Definition rotr (n x : Z) : Z := Z.lor (Z.shiftr x n) (w32 (Z.shiftl x (32 - n))).

(** The largest [r] below [2 ^ bits] above [acc] with [r ^ k <= n], bit by bit. *)
Fixpoint int_root (bits : nat) (k n acc : Z) : Z :=
  match bits with
  | O => acc
  | S bits => let r := acc + 2 ^ Z.of_nat bits in int_root bits k n (if r ^ k <=? n then r else acc)
  end.
(** The constants of FIPS 180-4: the first 32 bits of the fractional part of a root of a
    prime, the cube root for the rounds and the square root for the initial hash. *)
Definition root_fraction (k p : Z) : Z := w32 (int_root 38 k (Z.shiftl p (32 * k)) 0).
Definition is_prime (p : Z) : bool := forallb (λ d, negb (p mod Z.of_nat d =? 0)) (seq 2 (Z.to_nat p - 2)).
Definition primes (below : nat) : list Z := List.filter is_prime (map Z.of_nat (seq 2 (below - 2))).
Definition sha256_K : list Z := Eval vm_compute in map (root_fraction 3) (primes 312).
Definition sha256_H : list Z := Eval vm_compute in map (root_fraction 2) (primes 20).

Fixpoint words_of (l : list Z) : list Z :=
  match l with
  | a :: b :: c :: d :: l => (Z.shiftl a 24 + Z.shiftl b 16 + Z.shiftl c 8 + d) :: words_of l
  | _ => []
  end.
Definition bytes_of (w : Z) : list Z := [Z.shiftr w 24; Z.shiftr w 16 mod 256; Z.shiftr w 8 mod 256; w mod 256].

(** The message schedule, last word first. *)
Fixpoint schedule (n : nat) (w : list Z) : list Z :=
  match n with
  | O => w
  | S n =>
      let at_ i := nth i w 0 in
      let s0 := Z.lxor (Z.lxor (rotr 7 (at_ 14%nat)) (rotr 18 (at_ 14%nat))) (Z.shiftr (at_ 14%nat) 3) in
      let s1 := Z.lxor (Z.lxor (rotr 17 (at_ 1%nat)) (rotr 19 (at_ 1%nat))) (Z.shiftr (at_ 1%nat) 10) in
      schedule n (w32 (s1 + at_ 6%nat + s0 + at_ 15%nat) :: w)
  end.

Definition sha256_round (h : list Z) (kw : Z * Z) : list Z :=
  match h with
  | [a; b; c; d; e; f; g; h] =>
      let s1 := Z.lxor (Z.lxor (rotr 6 e) (rotr 11 e)) (rotr 25 e) in
      let ch := Z.lxor (Z.land e f) (Z.land (2 ^ 32 - 1 - e) g) in
      let t1 := h + s1 + ch + kw.1 + kw.2 in
      let s0 := Z.lxor (Z.lxor (rotr 2 a) (rotr 13 a)) (rotr 22 a) in
      let maj := Z.lxor (Z.lxor (Z.land a b) (Z.land a c)) (Z.land b c) in
      [w32 (t1 + s0 + maj); a; b; c; w32 (d + t1); e; f; g]
  | _ => h
  end.
Definition sha256_block (h block : list Z) : list Z :=
  let w := rev (schedule 48 (rev (words_of block))) in
  zip_with (λ x y, w32 (x + y)) h (fold_left sha256_round (zip sha256_K w) h).

Fixpoint sha256_blocks (fuel : nat) (h l : list Z) : list Z :=
  match fuel with
  | O => h
  | S fuel => match l with [] => h | _ => sha256_blocks fuel (sha256_block h (take 64 l)) (drop 64 l) end
  end.
Definition sha256_pad (l : list Z) : list Z :=
  let n := Z.of_nat (length l) in
  l ++ [128] ++ repeat 0 (Z.to_nat ((55 - n) mod 64)) ++ map (λ i, Z.shiftr (8 * n) (8 * i) mod 256) [7; 6; 5; 4; 3; 2; 1; 0].
Definition sha256 (l : list Z) : list Z :=
  let p := sha256_pad l in flat_map bytes_of (sha256_blocks (length p) sha256_H p).

Definition hmac_sha256 (key msg : list Z) : list Z :=
  let key := if (64 <? length key)%nat then sha256 key else key in
  let key := key ++ repeat 0 (64 - length key) in
  sha256 (map (Z.lxor 92) key ++ sha256 (map (Z.lxor 54) key ++ msg)).

(** One block of [dklen=32] bytes; the iterations must be positive and fit an int of C. *)
Definition pbkdf2_sha256 (password salt : list Z) (iterations : Z) : py (list Z) :=
  if iterations <? 1 then Raise ValueError
  else if 2 ^ 31 <=? iterations then Raise OverflowError
  else
    let u := hmac_sha256 password (salt ++ [0; 0; 0; 1]) in
    Ret (N.iter (Z.to_N (iterations - 1))
           (λ ut, let u := hmac_sha256 password ut.1 in (u, zip_with Z.lxor ut.2 u)) (u, u)).2.

Definition encode (s : string) : list Z := map code (chars s).
Definition hex_digit (d : Z) : Ascii.ascii := Ascii.ascii_of_N (Z.to_N (if d <? 10 then 48 + d else 87 + d)).
Definition hex (l : list Z) : string := of_chars (flat_map (λ b, [hex_digit (b / 16); hex_digit (b mod 16)]) l).

Example sha256_abc : hex (sha256 (encode "abc")) = "ba7816bf8f01cfea414140de5dae2223b00361a396177a9cb410ff61f20015ad".
Proof. vm_compute. reflexivity. Qed.

(** ** Stored keys *)

(** [s.split(':', 2)]: what is left of the second colon stays together. *)
Fixpoint partition_chars (sep : Ascii.ascii) (l : list Ascii.ascii) : option (list Ascii.ascii * list Ascii.ascii) :=
  match l with
  | [] => None
  | c :: l => if decide (c = sep) then Some ([], l) else '(a, b) ← partition_chars sep l; Some (c :: a, b)
  end.
Definition split_key (s : string) : option (string * string * string) :=
  '(a, r) ← partition_chars ":" (chars s); '(b, c) ← partition_chars ":" r; Some (of_chars a, of_chars b, of_chars c).

(** [PBKDF2KeyEncryption.encrypt_key]; [fresh] is the salt it makes if it is given none. *)
Definition encrypt_key (plain_key : string) (salt : option string) (iterations : Z) (fresh : string) : py string :=
  if bool_decide (plain_key = "") then Raise ValueError
  else
    let salt := match salt with None | Some "" => fresh | Some s => s end in
    d ← pbkdf2_sha256 (encode plain_key) (encode salt) iterations;
    Ret (salt +:+ ":" +:+ pretty iterations +:+ ":" +:+ hex d).

Definition get_salt (encrypted_key : string) : py string :=
  match split_key encrypted_key with Some (s, _, _) => Ret s | None => Raise ValueError end.

(** [verify_key]: whatever is raised is a key that does not match. *)
Definition verify_key (plain_key encrypted_key : string) : bool :=
  if bool_decide (plain_key = "") || bool_decide (encrypted_key = "") then false
  else
    match split_key encrypted_key with
    | None => false
    | Some (stored_salt, stored_iterations, stored_hash) =>
        match py_int 10 stored_iterations with
        | None => false
        | Some iterations =>
            match pbkdf2_sha256 (encode plain_key) (encode stored_salt) iterations with
            | Ret d => bool_decide (hex d = stored_hash)
            | Raise _ => false
            end
        end
    end.

(** The registry of algorithms and the default one; a name is its class. *)
Definition builtin_algorithms : list string := ["PBKDF2_SHA256"%string].
Record Encryption := mkEncryption { registry : list string; default_encryption : option string }.
Definition Encryption_init : Encryption := mkEncryption [] None.

Definition register_algorithm_from_config (name : string) : M Encryption unit :=
  if bool_decide (name ∈ builtin_algorithms)
  then mmodify (λ s, mkEncryption (if bool_decide (name ∈ registry s) then registry s else registry s ++ [name]) (default_encryption s))
  else mraise ValueError.
Definition get_encryption_algorithm (name : string) : M Encryption string :=
  s ← mget; if bool_decide (name ∈ registry s) then mret name else mraise ValueError.
Definition set_default_key_encryption_by_name (name : string) : M Encryption unit :=
  s ← mget;
  (if bool_decide (name ∈ registry s) then mret tt else register_algorithm_from_config name) ;;
  e ← get_encryption_algorithm name;
  mmodify (λ s, mkEncryption (registry s) (Some e)).
Definition get_default_key_encryption : M Encryption (option string) :=
  s ← mget;
  (match default_encryption s with None => set_default_key_encryption_by_name "PBKDF2_SHA256" | Some _ => mret tt end) ;;
  s ← mget; mret (default_encryption s).

Definition verify_api_key_against_valid_keys (plain_key : string) (valid_keys : list string) : bool :=
  existsb (verify_key plain_key) valid_keys.

(** ** The check of a request *)

Record APIKeyConfig := mkApiKey {
  enable_api_key : bool;
  valid_keys : list string;
  header_name : string;
  key_prefix : string;
  api_skip_paths : list string
}.

(** [verify_api_key]: [headers] answers the value of a header. *)
Definition presented_key (c : APIKeyConfig) (authorization : string) : string :=
  if negb (bool_decide (key_prefix c = "")) && startswith authorization (key_prefix c)
  then of_chars (drop (length (chars (key_prefix c))) (chars authorization)) else authorization.
Definition verify_api_key (c : APIKeyConfig) (path : string) (headers : string → option string) : py unit :=
  if negb (enable_api_key c) then Ret tt
  else if bool_decide (path ∈ api_skip_paths c) then Ret tt
  else
    match headers (header_name c) with
    | None | Some "" => Raise (HTTPException 401)
    | Some authorization =>
        let api_key := presented_key c authorization in
        if bool_decide (api_key ∈ valid_keys c) then Ret tt
        else if verify_api_key_against_valid_keys api_key (valid_keys c) then Ret tt
        else Raise (HTTPException 403)
    end.

(** ** Lemmas *)

Lemma partition_first sep a b : sep ∉ a → partition_chars sep (a ++ sep :: b) = Some (a, b).
Proof.
  induction a as [|c a IH]; intros H; cbn [app partition_chars]; [by rewrite decide_True|].
  apply not_elem_of_cons in H as [H1 H2]. rewrite decide_False by done. by rewrite (IH H2).
Qed.

Lemma split_key_parts a b c : ":"%char ∉ chars a → ":"%char ∉ chars b → split_key (a +:+ ":" +:+ b +:+ ":" +:+ c) = Some (a, b, c).
Proof.
  intros Ha Hb. unfold split_key. rewrite !chars_app. cbn [chars String.list_ascii_of_string app].
  rewrite partition_first by done. cbn [mbind option_bind]. rewrite partition_first by done. cbn [mbind option_bind]. by rewrite !of_chars_chars.
Qed.

Lemma pretty_digits z : 0 <= z → Forall (λ c, is_digit c = true) (chars (pretty z)).
Proof.
  intros Hz. destruct z as [|p|p]; [by repeat constructor| |lia].
  destruct (pretty_go_digits (N.pos p) ltac:(lia)) as (dx & _ & Hall & Hs & _).
  assert (chars (pretty (Z.pos p)) = dx) as -> by (etransitivity; [apply (Hs "")|apply app_nil_r]). exact Hall.
Qed.

Lemma no_colon z : 0 <= z → ":"%char ∉ chars (pretty z).
Proof.
  intros Hz Hin. pose proof (pretty_digits z Hz) as H. rewrite Forall_forall in H. specialize (H _ Hin). discriminate H.
Qed.

Lemma pbkdf2_runs p s it : 1 <= it < 2 ^ 31 → ∃ d, pbkdf2_sha256 p s it = Ret d.
Proof.
  intros H. unfold pbkdf2_sha256. rewrite (proj2 (Z.ltb_ge it 1)), (proj2 (Z.leb_gt _ it)) by lia. eauto.
Qed.

Lemma startswith_app a b : startswith (a +:+ b) a = true.
Proof. unfold startswith. induction a as [|c a IH]; [by destruct b|]. change (String c a +:+ b)%string with (String c (a +:+ b)).
  cbn [String.prefix]. by destruct (Ascii.ascii_dec c c).
Qed.

(** ** Properties *)

(** An encrypted key is verified by its plain key, and by another key only if its hash
    is the same.  The salt may be any text without a colon. *)
Theorem key_roundtrip plain_key salt iterations fresh :
  plain_key ≠ ""%string → salt ≠ ""%string → ":"%char ∉ chars salt → 1 <= iterations < 2 ^ 31 →
  ∃ e, encrypt_key plain_key (Some salt) iterations fresh = Ret e ∧ get_salt e = Ret salt ∧
    ∀ other, verify_key other e = true ↔
      other ≠ ""%string ∧
      (d ← pbkdf2_sha256 (encode other) (encode salt) iterations; Ret (hex d)) = (d ← pbkdf2_sha256 (encode plain_key) (encode salt) iterations; Ret (hex d)).
Proof.
  intros Hp Hs Hc Hit. destruct (pbkdf2_runs (encode plain_key) (encode salt) iterations Hit) as [d Hd].
  set (e := (salt +:+ ":" +:+ pretty iterations +:+ ":" +:+ hex d)%string). exists e.
  assert (split_key e = Some (salt, pretty iterations, hex d)) as Hsplit by (apply split_key_parts; [done|apply no_colon; lia]).
  assert (e ≠ ""%string) as He by (intros E; rewrite E in Hsplit; discriminate Hsplit).
  split_and!.
  - unfold encrypt_key. rewrite bool_decide_false by done. cbv zeta. destruct salt as [|c salt]; [done|]. by rewrite Hd.
  - unfold get_salt. by rewrite Hsplit.
  - intros other. unfold verify_key. rewrite Hsplit, py_int_pretty by lia. rewrite (bool_decide_false (e = "")) by done. rewrite orb_false_r.
    destruct (pbkdf2_runs (encode other) (encode salt) iterations Hit) as [d' Hd']. rewrite Hd, Hd'. cbn [mbind py_bind].
    case_bool_decide as Ho; [split; [done|by intros []]|]. rewrite bool_decide_eq_true. split; [intros ->; done|by intros [_ [= ->]]].
Qed.

(** C15: who may use the service.  A request is let through exactly if keys are not asked for,
    its path is one of those that are skipped, or it presents a key that is one of the
    stored keys or is verified by one of them; without the header it is answered 401, with
    another key 403. *)
Theorem request_admitted_iff c path headers :
  let presented k := ∃ a, headers (header_name c) = Some a ∧ a ≠ ""%string ∧ k = presented_key c a in
  let known k := k ∈ valid_keys c ∨ ∃ e, e ∈ valid_keys c ∧ verify_key k e = true in
  let free := enable_api_key c = false ∨ path ∈ api_skip_paths c in
  (verify_api_key c path headers = Ret tt ↔ free ∨ ∃ k, presented k ∧ known k) ∧
  (verify_api_key c path headers = Raise (HTTPException 401) ↔ ¬ free ∧ ∀ k, ¬ presented k) ∧
  (verify_api_key c path headers = Raise (HTTPException 403) ↔ ¬ free ∧ ∃ k, presented k ∧ ¬ known k).
Proof.
  cbv zeta. unfold verify_api_key. destruct (enable_api_key c); cbn [negb]; [|naive_solver].
  case_bool_decide as Hp; [naive_solver|]. destruct (headers (header_name c)) as [[|x a]|] eqn:Eh; [naive_solver| |naive_solver].
  set (k := presented_key c (String x a)).
  assert (∀ P : string → Prop, (∃ k', (∃ a', Some (String x a) = Some a' ∧ a' ≠ ""%string ∧ k' = presented_key c a') ∧ P k') ↔ P k) as Hk.
  { intros P. split; [by intros (k' & (a' & [= <-] & _ & ->) & HP)|]. intros HP. exists k. split; [|exact HP]. by exists (String x a). }
  assert (¬ (∀ k', ¬ ∃ a', Some (String x a) = Some a' ∧ a' ≠ ""%string ∧ k' = presented_key c a')) as Hno by (intros H; apply (H k); by exists (String x a)).
  rewrite !Hk. case_bool_decide as Hv; [naive_solver|]. unfold verify_api_key_against_valid_keys.
  destruct (existsb (verify_key k) (valid_keys c)) eqn:Ee.
  - apply existsb_exists in Ee as (e & He & Hver). apply list_elem_of_In in He. naive_solver.
  - assert (¬ ∃ e, e ∈ valid_keys c ∧ verify_key k e = true) as Hne.
    { intros (e & He & Hver). assert (existsb (verify_key k) (valid_keys c) = true) as E; [|congruence]. apply existsb_exists. exists e. by rewrite <- list_elem_of_In. }
    naive_solver.
Qed.

(** The stored form of a key opens the service.  Whoever presents what the configuration
    stores, the salt with the hash, is let through without knowing the key. *)
Theorem stored_key_opens c path headers e :
  e ∈ valid_keys c → e ≠ ""%string → headers (header_name c) = Some (key_prefix c +:+ e)%string →
  verify_api_key c path headers = Ret tt.
Proof.
  intros He Hne Hh. unfold verify_api_key. destruct (negb _); [done|]. case_bool_decide; [done|]. rewrite Hh.
  assert (presented_key c (key_prefix c +:+ e) = e) as Hk.
  { unfold presented_key, startswith. destruct (bool_decide (key_prefix c = "")) eqn:Ep.
    - apply bool_decide_eq_true in Ep. by rewrite Ep.
    - cbn [negb andb]. change (String.prefix (key_prefix c) (key_prefix c +:+ e)) with (startswith (key_prefix c +:+ e) (key_prefix c)). rewrite startswith_app, chars_app, drop_app_length. apply of_chars_chars. }
  destruct (key_prefix c +:+ e)%string as [|x a] eqn:E; [by destruct (key_prefix c), e|]. rewrite Hk. by rewrite bool_decide_true.
Qed.

(** ** Witnesses *)

Definition sample_key : string := "5a17:1:20206450dba6db6e41178c072a35b5a54135205d6a6a0869d108d9970f1005a3".
Definition sample_keys : APIKeyConfig := mkApiKey true [sample_key] "Authorization" "Bearer " ["/liveness"].
Definition with_header (v : string) (name : string) : option string := if bool_decide (name = "Authorization") then Some v else None.

Lemma key_roundtrip_witness : ∃ e, encrypt_key "secret" (Some "5a17") 1 "" = Ret e ∧ verify_key "secret" e = true.
Proof.
  assert (forall (P Q : string -> Prop), (exists e, P e /\ Q e /\ forall other, verify_key other e = true <-> other <> ""%string /\
    (d ← pbkdf2_sha256 (encode other) (encode "5a17") 1; Ret (hex d)) = (d ← pbkdf2_sha256 (encode "secret") (encode "5a17") 1; Ret (hex d))) ->
    exists e, P e /\ verify_key "secret" e = true) as H.
  { intros P Q (e & H1 & _ & H2). exists e. split; [exact H1|]. apply (proj2 (H2 _)). split; [discriminate|]. generalize (pbkdf2_sha256 (encode "secret") (encode "5a17") 1). reflexivity. }
  eapply H. exact (key_roundtrip "secret" "5a17" 1 "" ltac:(discriminate) ltac:(discriminate)
    ltac:(apply (bool_decide_unpack _); vm_compute; reflexivity) ltac:(split; [discriminate|reflexivity])).
Defined.

Lemma stored_key_opens_witness : verify_api_key sample_keys "/v1/completions" (with_header ("Bearer " +:+ sample_key)) = Ret tt.
Proof.
  exact (stored_key_opens sample_keys "/v1/completions" (with_header ("Bearer " +:+ sample_key)) sample_key
    ltac:(left) ltac:(vm_compute; discriminate) ltac:(vm_compute; reflexivity)).
Defined.

Example key_check :
  map (λ v, verify_api_key sample_keys "/v1/completions" (with_header v)) ["Bearer secret"; ""] = [Ret tt; Raise (HTTPException 401)].
Proof. vm_compute. reflexivity. Qed.

(** A colon in the salt moves the parts: what is verified is another salt, with 17 iterations. *)
Example colon_salt : split_key "5a:17:1:00" = Some ("5a", "17", "1:00")%string.
Proof. reflexivity. Qed.
