(* ===== verification/RateLimiter.v ===== *)
(** * Rate limiting

    Models [coordinator/middleware/rate_limiter.py], [coordinator/middleware/fastapi_middleware.py]
    and how [coordinator/api_server/inference_server.py] installs and reconfigures them.
    Tokens are Python numbers: an int at first, a float once time has passed.  The clock and
    the handlers of the application are what the environment answers; reporting an alarm
    catches what it raises. *)

From stdpp Require Import base option list strings pretty.
From Stdlib Require Import ZArith Lia.
From S2P Require Import Prelude Float64 PyText.
Open Scope Z_scope.

(** ** Python numbers *)

Inductive num := Int (z : Z) | Float (x : f64).

(** [float(z)], [z / w] and [int(x)]. *)
Definition to_float (z : Z) : py f64 := let x := f_of_Z z in if is_finite x then Ret x else Raise OverflowError.
Definition raw (z : Z) : f64 :=
  match z with Z0 => S754_zero false | Zpos p => S754_finite false p 0 | Zneg p => S754_finite true p 0 end.
Definition true_div (z w : Z) : py f64 :=
  if w =? 0 then Raise ZeroDivisionError
  else let x := fdiv (raw z) (raw w) in if is_finite x then Ret x else Raise OverflowError.
Definition int_of (n : num) : py Z :=
  match n with
  | Int z => Ret z
  | Float (S754_zero _) => Ret 0
  | Float (S754_finite s m e) => let z := Z.shiftl (Zpos m) e in Ret (if s : bool then - z else z)
  | Float (S754_infinity _) => Raise OverflowError
  | Float S754_nan => Raise ValueError
  end.

(** [x < z] of a float and an int is exact. *)
Definition float_lt_int (x : f64) (z : Z) : bool :=
  match x with
  | S754_zero _ => 0 <? z
  | S754_infinity s => s
  | S754_nan => false
  | S754_finite s m e =>
      let m := if s : bool then Zneg m else Zpos m in
      if 0 <=? e then m * 2 ^ e <? z else m <? z * 2 ^ (- e)
  end.
Definition num_lt_int (n : num) (z : Z) : bool := match n with Int w => w <? z | Float x => float_lt_int x z end.
Definition num_ge_int (n : num) (z : Z) : bool :=
  match n with Int w => z <=? w | Float x => negb (is_nan x) && negb (float_lt_int x z) end.
(** [min(z, n)]: the second only if it is smaller. *)
Definition min_int (z : Z) (n : num) : num := if num_lt_int n z then n else Int z.
Definition add_float (n : num) (x : f64) : py num := (y ← match n with Int z => to_float z | Float y => Ret y end; Ret (Float (fadd y x))).
Definition sub_int (n : num) (z : Z) : py num :=
  match n with Int w => Ret (Int (w - z)) | Float x => y ← to_float z; Ret (Float (fsub x y)) end.

(** ** TokenBucket *)

Record TokenBucket := mkBucket { capacity : Z; refill_rate : f64; tokens : num; last_refill : f64 }.

Definition TokenBucket_init (cap : Z) (rate now : f64) : TokenBucket := mkBucket cap rate (Int cap) now.

Definition refilled (now : f64) (b : TokenBucket) : py num :=
  n ← add_float (tokens b) (fmul (fsub now (last_refill b)) (refill_rate b)); Ret (min_int (capacity b) n).

(** [try_consume]; an exception leaves the bucket as far as it got. *)
Definition try_consume (now : f64) (n : Z) : M TokenBucket bool := λ b,
  match refilled now b with
  | Raise e => (b, Raise e)
  | Ret t =>
      let b := mkBucket (capacity b) (refill_rate b) t now in
      if num_ge_int t n
      then match sub_int t n with
           | Ret t' => (mkBucket (capacity b) (refill_rate b) t' now, Ret true)
           | Raise e => (b, Raise e)
           end
      else (b, Ret false)
  end.
Definition get_available_tokens (now : f64) (b : TokenBucket) : py Z := t ← refilled now b; int_of t.

(** ** SimpleRateLimiter *)

Record RateLimiter := mkLimiter { max_requests : Z; window_size : Z; congestion_alarm_sent : bool; bucket : TokenBucket }.

Definition RateLimiter_init (max window : Z) (now : f64) : py RateLimiter :=
  rate ← true_div max window; Ret (mkLimiter max window false (TokenBucket_init max rate now)).

(** 0.85 and 0.75. *)
Definition TRIGGER_RATIO : f64 := S754_finite false 7656119366529843 (-53).
Definition CLEAR_RATIO : f64 := S754_finite false 6755399441055744 (-53).
Definition threshold (ratio : f64) (l : RateLimiter) : py Z := m ← to_float (max_requests l); int_of (Float (fmul m ratio)).

(** What a check answers: whether the request may pass, and the tokens that are left unless
    the check failed. *)
Record LimitInfo := mkInfo { allowed : bool; available : option Z }.
Inductive congestion := Raised (available : Z) | Cleared (available : Z).

Definition try_limit (consumed_at looked_at : f64) : M RateLimiter (bool * Z * option congestion) := λ l,
  let '(b, r) := try_consume consumed_at 1 (bucket l) in
  let l := mkLimiter (max_requests l) (window_size l) (congestion_alarm_sent l) b in
  match (ok ← r; n ← get_available_tokens looked_at b; t ← threshold TRIGGER_RATIO l; c ← threshold CLEAR_RATIO l; Ret (ok, n, t, c)) with
  | Raise e => (l, Raise e)
  | Ret (ok, n, trigger, clear) =>
      if negb (congestion_alarm_sent l) && (trigger <=? n)
      then (mkLimiter (max_requests l) (window_size l) true b, Ret (ok, n, Some (Raised n)))
      else if congestion_alarm_sent l && (n <? clear)
      then (mkLimiter (max_requests l) (window_size l) false b, Ret (ok, n, Some (Cleared n)))
      else (l, Ret (ok, n, None))
  end.

(** [is_allowed]: what fails lets the request pass. *)
Definition is_allowed (consumed_at looked_at : f64) (l : RateLimiter) : RateLimiter * LimitInfo * option congestion :=
  match try_limit consumed_at looked_at l with
  | (l, Ret (ok, n, alarm)) => (l, mkInfo ok (Some n), alarm)
  | (l, Raise _) => (l, mkInfo true None, None)
  end.

(** ** SimpleRateLimitMiddleware *)

Record Middleware := mkMiddleware {
  skip_paths : list string;
  error_message : string;
  error_status_code : Z;
  mw_enabled : bool;
  total_requests : nat;
  allowed_requests : nat;
  blocked_requests : nat
}.

Definition default_skip_paths : list string := ["/liveness"; "/ready"; "/metrics"; "/docs"; "/redoc"; "/openapi.json"].
(** [skip_paths or [...]]. *)
Definition Middleware_init (skip : option (list string)) (message : string) (code : Z) : Middleware :=
  mkMiddleware (match skip with None | Some [] => default_skip_paths | Some l => l end) message code true 0 0 0.

Definition should_skip_path (m : Middleware) (path : string) : bool := existsb (startswith path) (skip_paths m).

(** What a client gets: the answer of the application with the headers of the limiter, or a
    refusal. *)
Inductive response (R : Type) := Answer (r : R) (headers : list (string * string)) | Refused (code : Z) (message : string) (headers : list (string * string)).
Arguments Answer {R} _ _.
Arguments Refused {R} _ _ _.

Definition rate_limit_headers (l : RateLimiter) (i : LimitInfo) : list (string * string) :=
  match available i with
  | Some n => [("X-RateLimit-Remaining", pretty n); ("X-RateLimit-Limit", pretty (max_requests l)); ("X-RateLimit-Window", pretty (window_size l))]%string
  | None => []
  end.

Section dispatch.
Context {R : Type}.

(** A request: its path, the clock, and what the application answers each time it is
    called. *)
Record Call := mkCall { path : string; consumed_at : f64; looked_at : f64; app : nat → py R }.

(** The state with the calls of the application that were made. *)
Record Serving := mkServing { limiter : RateLimiter; middleware : Middleware; app_calls : list string }.

Definition count (s : Serving) (t a b : nat) : Serving :=
  let m := middleware s in
  mkServing (limiter s)
    (mkMiddleware (skip_paths m) (error_message m) (error_status_code m) (mw_enabled m) (total_requests m + t) (allowed_requests m + a) (blocked_requests m + b))
    (app_calls s).
Definition call_next (c : Call) (n : nat) : M Serving R := λ s,
  (mkServing (limiter s) (middleware s) (app_calls s ++ [path c]), app c n).

(** [dispatch]: what is raised inside the [try], also by the application, leads to one more
    call of it. *)
Definition dispatch (c : Call) : M Serving (response R) :=
  mmodify (λ s, count s 1 0 0) ;;
  s ← mget;
  if negb (mw_enabled (middleware s)) || should_skip_path (middleware s) (path c)
  then r ← call_next c 0; mret (Answer r [])
  else
    mexcept
      (s ← mget;
       let '(l, i, _) := is_allowed (consumed_at c) (looked_at c) (limiter s) in
       mmodify (λ s, mkServing l (middleware s) (app_calls s)) ;;
       if allowed i then
         mmodify (λ s, count s 0 1 0) ;;
         r ← call_next c 0;
         mret (Answer r (rate_limit_headers l i))
       else
         mmodify (λ s, count s 0 0 1) ;;
         mret (Refused (error_status_code (middleware s)) (error_message (middleware s)) (rate_limit_headers l i)))
      (λ _, mmodify (λ s, count s 0 1 0) ;; r ← call_next c 1; mret (Answer r [])).
End dispatch.

(** [update_config]. *)
Definition update_config (skip : option (list string)) (message : option string) (code : option Z) (enabled : option bool) (m : Middleware) : Middleware :=
  mkMiddleware (default (skip_paths m) skip) (default (error_message m) message) (default (error_status_code m) code)
    (default (mw_enabled m) enabled) (total_requests m) (allowed_requests m) (blocked_requests m).

(** ** The inference server *)

Record RateLimitConfig := mkRateConfig {
  enable_rate_limit : bool;
  cfg_max_requests : Z;
  cfg_window_size : Z;
  cfg_skip_paths : list string;
  cfg_error_message : string;
  cfg_error_status_code : Z
}.

(** The middleware the server keeps, and the one its application was given; both have the
    same limiter. *)
Record Server := mkServer { kept : option Middleware; installed : option Middleware; server_limiter : option RateLimiter }.
Definition Server_init : Server := mkServer None None None.

(** [setup_rate_limiting], with [create_simple_rate_limit_middleware]. *)
Definition setup_rate_limiting (c : RateLimitConfig) (now : f64) : M Server unit := λ s,
  if enable_rate_limit c then
    match RateLimiter_init (cfg_max_requests c) (cfg_window_size c) now with
    | Raise e => (s, Raise e)
    | Ret l =>
        (mkServer (Some (Middleware_init (Some default_skip_paths) "Request too frequent, please try again later" 429))
           (Some (Middleware_init (Some (cfg_skip_paths c)) (cfg_error_message c) (cfg_error_status_code c))) (Some l), Ret tt)
    end
  else (s, Ret tt).

(** [_apply_config_changes], as far as it is about the rate limit. *)
Definition apply_config_changes (c : RateLimitConfig) (s : Server) : Server :=
  mkServer (update_config (Some (cfg_skip_paths c)) (Some (cfg_error_message c)) (Some (cfg_error_status_code c)) (Some (enable_rate_limit c)) <$> kept s)
    (installed s) (server_limiter s).

(** A request to the application. *)
Definition serve {R} (c : Call (R := R)) (s : Server) : Server * py (response R) * list string :=
  match installed s, server_limiter s with
  | Some m, Some l =>
      let '(s', r) := dispatch c (mkServing l m []) in (mkServer (kept s) (Some (middleware s')) (Some (limiter s')), r, app_calls s')
  | _, _ => (s, (r ← app c 0; Ret (Answer r [])), [path c])
  end.

(** ** Lemmas *)

(** Truncation stays below an int the float is below. *)
Lemma truncate_below x z n : float_lt_int x z = true → int_of (Float x) = Ret n → n <= z.
Proof.
  destruct x as [s|s| |s m e]; cbn [float_lt_int int_of]; intros Hlt Hn; try discriminate Hn; injection Hn as <-; [apply Z.ltb_lt in Hlt; lia|].
  destruct (0 <=? e) eqn:Ee.
  - apply Z.leb_le in Ee. rewrite Z.shiftl_mul_pow2 by done. apply Z.ltb_lt in Hlt. destruct s; lia.
  - apply Z.leb_gt in Ee. apply Z.ltb_lt in Hlt. rewrite <- Z.shiftr_opp_r, Z.opp_involutive || rewrite <- (Z.opp_involutive e), Z.shiftl_opp_r.
    rewrite Z.shiftr_div_pow2 by lia. set (k := 2 ^ - e) in *. assert (0 < k) as Hk by (apply Z.pow_pos_nonneg; lia).
    pose proof (Z.div_mod (Zpos m) k ltac:(lia)). pose proof (Z.mod_pos_bound (Zpos m) k Hk). destruct s; nia.
Qed.

Lemma available_bound now b n : get_available_tokens now b = Ret n → n <= capacity b.
Proof.
  unfold get_available_tokens, refilled. destruct (add_float _ _) as [t|e]; [|done]. cbn [mbind py_bind]. unfold min_int.
  destruct (num_lt_int t (capacity b)) eqn:E; intros Hn; [|cbn in Hn; injection Hn as <-; lia].
  destruct t as [z|x]; cbn in E; [cbn in Hn; injection Hn as <-; apply Z.ltb_lt in E; lia|]. by eapply truncate_below.
Qed.

(** No check changes the capacity of the bucket or the configuration of the limiter. *)
Definition frame (l : RateLimiter) : Z * Z * Z := (max_requests l, window_size l, capacity (bucket l)).

Lemma consume_capacity now n b : capacity (try_consume now n b).1 = capacity b.
Proof. unfold try_consume. destruct (refilled now b); [|done]. destruct (num_ge_int _ _); [|done]. by destruct (sub_int _ _). Qed.

Lemma try_limit_frame t1 t2 l : frame (try_limit t1 t2 l).1 = frame l.
Proof.
  unfold try_limit. pose proof (consume_capacity t1 1 (bucket l)) as Hc. destruct (try_consume t1 1 (bucket l)) as [b r]. cbn [fst] in Hc.
  unfold frame. rewrite <- Hc. destruct (_ ← r; _) as [[[[ok n] t] c]|e]; [|done]. by repeat case_match.
Qed.

Lemma is_allowed_frame t1 t2 l : frame (is_allowed t1 t2 l).1.1 = frame l.
Proof.
  unfold is_allowed. pose proof (try_limit_frame t1 t2 l) as H. by destruct (try_limit t1 t2 l) as [l' [[[ok n] a]|e]].
Qed.

Lemma is_allowed_available t1 t2 l n : available (is_allowed t1 t2 l).1.2 = Some n → n <= capacity (bucket l).
Proof.
  unfold is_allowed. destruct (try_limit t1 t2 l) as [l' [[[ok n'] a]|e]] eqn:E; [|done]. cbn. intros [= <-]. unfold try_limit in E.
  pose proof (consume_capacity t1 1 (bucket l)) as Hc. destruct (try_consume t1 1 (bucket l)) as [b r]. cbn [fst] in Hc. rewrite <- Hc.
  destruct r as [ok'|e']; cbn [mbind py_bind] in E; [|done]. cbn [bucket max_requests] in E.
  destruct (get_available_tokens t2 b) as [m|e'] eqn:Em; cbn [mbind py_bind] in E; [|done].
  assert (n' = m) as -> by (destruct (threshold TRIGGER_RATIO _); [|done]; cbn [mbind py_bind] in E; destruct (threshold CLEAR_RATIO _); [|done];
    cbn [mbind py_bind] in E; by repeat case_match; simplify_eq). by eapply available_bound.
Qed.

(** Checks one after the other. *)
Definition limiter_run (l : RateLimiter) (checks : list (f64 * f64)) : RateLimiter := fold_left (λ l t, (is_allowed t.1 t.2 l).1.1) checks l.

Lemma limiter_run_frame checks : ∀ l, frame (limiter_run l checks) = frame l.
Proof.
  induction checks as [|t checks IH]; intros l; [done|]. unfold limiter_run. cbn [fold_left]. fold (limiter_run (is_allowed t.1 t.2 l).1.1 checks).
  by rewrite IH, is_allowed_frame.
Qed.

Section requests.
Context {R : Type}.
Inductive server_op := Req (c : Call (R := R)) | Reload (c : RateLimitConfig).

(** The answers of the server, with the calls of the application for each. *)
Fixpoint answers (s : Server) (ops : list server_op) : list (py (response R) * list string) :=
  match ops with
  | [] => []
  | Reload c :: ops => answers (apply_config_changes c s) ops
  | Req c :: ops => let '(s, r, called) := serve c s in (r, called) :: answers s ops
  end.
Definition requests (ops : list server_op) : list server_op := List.filter (λ o, match o with Req _ => true | Reload _ => false end) ops.

Lemma answers_same ops : ∀ s s', installed s = installed s' → server_limiter s = server_limiter s' → answers s ops = answers s' (requests ops).
Proof.
  induction ops as [|[c|c] ops IH]; intros s s' Hi Hl; [done| |].
  - cbn [requests List.filter answers]. unfold serve. rewrite Hi, Hl. destruct (installed s') as [m|] eqn:Ei; [destruct (server_limiter s') as [l|] eqn:El|].
    + destruct (dispatch c (mkServing l m [])) as [sv r]. f_equal. by apply IH.
    + f_equal. apply IH; congruence.
    + f_equal. apply IH; congruence.
  - cbn [requests List.filter answers]. by apply IH.
Qed.
End requests.

(** ** Properties *)

(** What is left never exceeds the limit.  However many checks were made, and whatever the
    clock did in between, the tokens a client is told are at most the configured maximum. *)
Theorem remaining_bounded max window t0 l checks t1 t2 n :
  RateLimiter_init max window t0 = Ret l → available (is_allowed t1 t2 (limiter_run l checks)).1.2 = Some n → n <= max.
Proof.
  intros Hl Hn. apply is_allowed_available in Hn. pose proof (limiter_run_frame checks l) as Hf. unfold frame in Hf.
  injection Hf as _ _ Hc. rewrite Hc in Hn. unfold RateLimiter_init in Hl. destruct (true_div max window); [|done]. injection Hl as <-. exact Hn.
Qed.

(** What becomes of a request.  Without the limit, or on a path that is skipped, the
    application is called once and the limiter is not asked.  Otherwise a refused request
    does not reach the application, an allowed one is answered with its headers; but when
    the application raises, it is called a second time for the same request, which is then
    counted as allowed twice, and the second answer is what the client gets. *)
Theorem dispatch_outcome {R} (c : Call (R := R)) s :
  let m := middleware s in
  let '(l, i, _) := is_allowed (consumed_at c) (looked_at c) (limiter s) in
  let counted a b := mkMiddleware (skip_paths m) (error_message m) (error_status_code m) (mw_enabled m)
                       (total_requests m + 1) (allowed_requests m + a) (blocked_requests m + b) in
  let once := app_calls s ++ [path c] in
  dispatch c s =
  if negb (mw_enabled m) || should_skip_path m (path c)
  then (mkServing (limiter s) (counted 0%nat 0%nat) once, (r ← app c 0; Ret (Answer r [])))
  else if allowed i then
    match app c 0 with
    | Ret r => (mkServing l (counted 1%nat 0%nat) once, Ret (Answer r (rate_limit_headers l i)))
    | Raise CancelledError => (mkServing l (counted 1%nat 0%nat) once, Raise CancelledError)
    | Raise _ => (mkServing l (counted 2%nat 0%nat) (once ++ [path c]), (r ← app c 1; Ret (Answer r [])))
    end
  else (mkServing l (counted 0%nat 1%nat) (app_calls s), Ret (Refused (error_status_code m) (error_message m) (rate_limit_headers l i))).
Proof.
  destruct s as [l0 [sk msg code en t a b] calls], c as [p t1 t2 ap]. cbn [limiter middleware consumed_at looked_at path app].
  destruct (is_allowed t1 t2 l0) as [[l i] alarm] eqn:E. cbv zeta. unfold dispatch. erewrite M_bind_Ret by reflexivity. erewrite M_bind_Ret by reflexivity.
  unfold count. cbn [limiter middleware app_calls skip_paths error_message error_status_code mw_enabled total_requests allowed_requests blocked_requests path consumed_at looked_at app].
  change (should_skip_path (mkMiddleware sk msg code en (t + 1) (a + 0) (b + 0)) p) with (should_skip_path (mkMiddleware sk msg code en t a b) p).
  destruct (negb en || should_skip_path _ p).
  - unfold call_next. cbn. by destruct (ap 0%nat).
  - unfold mexcept. erewrite M_bind_Ret by reflexivity. cbn [limiter middleware app_calls]. rewrite E. erewrite M_bind_Ret by reflexivity.
    destruct (allowed i).
    + erewrite M_bind_Ret by reflexivity. unfold call_next, count. cbn. rewrite !Nat.add_0_r. destruct (ap 0%nat) as [r|e]; [done|].
      destruct e; try done; cbv [mbind M_bind mret M_ret mmodify py_bind]; cbn; rewrite ?Nat.add_0_r, <- ?Nat.add_assoc; by destruct (ap 1%nat).
    + erewrite M_bind_Ret by reflexivity. unfold count. cbn. by rewrite !Nat.add_0_r.
Qed.

(** The rate limit cannot be reconfigured.  A reload changes the middleware the server
    keeps, which is not the one its application was given: whatever is reloaded and when,
    every request is answered as if nothing had been, also if the limit is switched off. *)
Theorem reload_has_no_effect {R} s (ops : list (server_op (R := R))) : answers s ops = answers s (requests ops).
Proof. by apply answers_same. Qed.

(** ** Witnesses *)

(** Twenty requests a minute. *)
Definition sample_rate : RateLimitConfig := mkRateConfig true 20 60 ["/liveness"] "slow down" 429.
Definition sample_limiter : RateLimiter := match RateLimiter_init 20 60 (f_of_Z 1000) with Ret l => l | Raise _ => mkLimiter 0 0 false (TokenBucket_init 0 f0 f0) end.

Lemma remaining_bounded_witness : 20 <= 20.
Proof.
  exact (remaining_bounded 20 60 (f_of_Z 1000) sample_limiter [(f_of_Z 1000, f_of_Z 1000)] (f_of_Z 1003) (f_of_Z 1090) 20
    ltac:(vm_compute; reflexivity) ltac:(vm_compute; reflexivity)).
Defined.

(** The first twenty requests of an instant pass and the next one does not. *)
Example burst :
  map (λ n, allowed (is_allowed (f_of_Z 1000) (f_of_Z 1000) (limiter_run sample_limiter (repeat (f_of_Z 1000, f_of_Z 1000) n))).1.2) [0; 19; 20]%nat
  = [true; true; false].
Proof. vm_compute. reflexivity. Qed.

(** The first request of an idle limiter raises the congestion alarm, and a limiter that
    runs dry clears it. *)
Example alarm_of_an_idle_limiter : (is_allowed (f_of_Z 1000) (f_of_Z 1000) sample_limiter).2 = Some (Raised 19).
Proof. vm_compute. reflexivity. Qed.
Example alarm_cleared_by_load :
  (is_allowed (f_of_Z 1000) (f_of_Z 1000) (limiter_run sample_limiter (repeat (f_of_Z 1000, f_of_Z 1000) 5))).2 = Some (Cleared 14).
Proof. vm_compute. reflexivity. Qed.

(** An error of the application: it runs twice. *)
Example handler_runs_twice :
  let c := mkCall "/v1/completions" (f_of_Z 1000) (f_of_Z 1000) (λ n, if decide (n = 0)%nat then Raise RuntimeError else Ret tt) in
  let '(s, r) := dispatch c (mkServing sample_limiter (Middleware_init None "slow down" 429) []) in
  (app_calls s, allowed_requests (middleware s), r) = (["/v1/completions"; "/v1/completions"]%string, 2%nat, Ret (Answer tt [])).
Proof. vm_compute. reflexivity. Qed.
