(* ===== verification/CoordServers.v ===== *)
(** * The servers of the coordinator

    Models the request handlers of [coordinator/api_server/inference_server.py] and
    [coordinator/api_server/management_server.py], with the timeout of
    [coordinator/api_server/base_server.py]: what a request must satisfy before it reaches
    the router or the pools, and the status of every failure.  The body as Python reads it,
    the router ([Dispatch]) and the scheduler client are arguments. *)

From stdpp Require Import base option list strings.
From Stdlib Require Import ZArith Lia.
From S2P Require Import Prelude PyText Resources CoordInstanceManager WorkloadShm CoordDaemon Dispatch ApiKey.
Open Scope Z_scope.

(** ** OpenAI requests *)

Definition roles : list string := ["system"; "user"; "assistant"; "tool"]%string.

Definition validate_message (m : json) : py unit :=
  match m with
  | JObj d =>
      match dget d "role", dget d "content" with
      | Some (JStr r), Some _ => if bool_decide (r ∈ roles) then Ret tt else Raise (HTTPException 400)
      | _, _ => Raise (HTTPException 400)
      end
  | _ => Raise (HTTPException 400)
  end.
Fixpoint validate_messages (l : list json) : py unit :=
  match l with [] => Ret tt | m :: l => _ ← validate_message m; validate_messages l end.

(** [_validate_openai_request] for the OpenAI type, which every route gives. *)
Definition validate_openai_request (body : json) : py unit :=
  has_model ← json_in "model" body;
  if negb has_model then Raise (HTTPException 400)
  else
    has_prompt ← json_in "prompt" body;
    has_messages ← json_in "messages" body;
    if negb has_prompt && negb has_messages then Raise (HTTPException 400)
    else if negb has_messages then Ret tt
    else
      messages ← jsub body "messages";
      match messages with
      | JList [] => Raise (HTTPException 400)
      | JList l => validate_messages l
      | _ => Raise (HTTPException 400)
      end.

(** [_is_available]: the readiness the connected client answers. *)
Definition is_available (client : option (py InstanceReadiness)) : py bool :=
  match client with
  | None => Ret false
  | Some r => readiness ← r; Ret (is_ready readiness || bool_decide (readiness = ONLY_PREFILL))
  end.

(** [except HTTPException: raise; except Exception: raise HTTPException(500)]. *)
Definition as_http {A} (m : py A) : py A :=
  match m with
  | Raise (HTTPException c) => Raise (HTTPException c)
  | Raise CancelledError => Raise CancelledError
  | Raise _ => Raise (HTTPException 500)
  | Ret a => Ret a
  end.

(** [timeout_handler]: a handler that does not end in time is answered 504. *)
Definition timeout_handler {A} (timed_out : bool) (m : py A) : py A := if timed_out then Raise (HTTPException 504) else m.

Section inference.
Context {R : Type} (route : json → py R).

(** [_handle_openai_request]: [body] is what [json.loads] makes of the bytes. *)
Definition handle_openai_request (body : py json) (client : option (py InstanceReadiness)) : py R :=
  as_http
    (body_json ← body;
     _ ← validate_openai_request body_json;
     available ← is_available client;
     if available : bool then route body_json else Raise (HTTPException 503)).

(** [openai_completions] and [openai_chat_completions]. *)
Definition openai_endpoint (keys : APIKeyConfig) (path : string) (headers : string → option string) (body : py json)
    (client : option (py InstanceReadiness)) (timed_out : bool) : py R :=
  timeout_handler timed_out (_ ← verify_api_key keys path headers; handle_openai_request body client).

(** [handle_metaserver_request]; it does not ask for a key. *)
Definition metaserver_request (handled : py R) (client : option (py InstanceReadiness)) (timed_out : bool) : py R :=
  timeout_handler timed_out (as_http (available ← is_available client; if available : bool then handled else Raise (HTTPException 503))).
End inference.

(** [list_models] and [_build_models_metadata]: the configured model with the numbers of
    instances the client knows. *)
Definition list_models (aigw_model : option (list (string * json))) (client : option (nat * nat)) (created : Z) : py json :=
  models ← match aigw_model with
           | None | Some [] => Ret []
           | Some d =>
               match client with
               | None => Raise RuntimeError
               | Some (p, dd) =>
                   Ret [JObj (dset (dset (dset d "p_instances_num" (JInt (Z.of_nat p))) "d_instances_num" (JInt (Z.of_nat dd))) "created" (JInt created))]
               end
           end;
  match models with
  | [] => Raise (HTTPException 503)
  | _ => Ret (JObj [("object", JStr "list"); ("data", JList models)])%string
  end.

(** ** Management *)

Definition MAX_REQUEST_BODY_SIZE : Z := 10 * 1024 * 1024.

(** An [InsEventMsg], by the references of its instances. *)
Record InsEventMsg := mkEventMsg { event : EventType; event_instances : list ref }.

(** The checks of [_handle_refresh_instances]: [loads] reads the body and [parse] the
    message. *)
Definition read_refresh (size : Z) (loads : py json) (parse : json → py InsEventMsg) : py InsEventMsg :=
  if size =? 0 then Raise (HTTPException 400)
  else if MAX_REQUEST_BODY_SIZE <? size then Raise (HTTPException 400)
  else
    match loads with
    | Raise CancelledError => Raise CancelledError
    | Raise _ => Raise (HTTPException 400)
    | Ret body =>
        if negb (truthy body) then Raise (HTTPException 400)
        else match parse body with Ret m => Ret m | Raise CancelledError => Raise CancelledError | Raise _ => Raise (HTTPException 400) end
    end.

(** [_handle_refresh_instances]: the scheduler first, if there is one, then the pools of this
    process; the answer counts the instances of the message. *)
Definition handle_refresh_instances {S} (refresh : EventType → list ref → M S bool) (size : Z) (loads : py json)
    (parse : json → py InsEventMsg) (client : option (EventType → list ref → py bool)) : M S Z :=
  msg ← mlift (read_refresh size loads parse);
  (match client with None => mret tt | Some send => _ ← mlift (send (event msg) (event_instances msg)); mret tt end) ;;
  refresh (event msg) (event_instances msg) ;;
  mret (Z.of_nat (length (event_instances msg))).

(** The probes: what they answer, with the text and whether the coordinator is ready. *)
Definition liveness_endpoint (r : RoleHeartbeatResult) : py string :=
  match liveness_check r with LIVE_OK => Ret "Coordinator is alive"%string | _ => Raise (HTTPException 503) end.
Definition readiness_endpoint (r : RoleHeartbeatResult) (readiness : py InstanceReadiness) (enable_master_standby : bool) : py (string * bool) :=
  rd ← readiness;
  let '(result, ready) := readiness_check r rd enable_master_standby in
  match result with
  | OK_MASTER => Ret ("Coordinator is master"%string, ready)
  | OK_STANDBY => Ret ("Coordinator is ok"%string, ready)
  | _ => Raise (HTTPException 503)
  end.

(** ** Lemmas *)

(** What an OpenAI request must look like. *)
Definition valid_message (m : json) : Prop :=
  ∃ d r c, m = JObj d ∧ dget d "role"%string = Some (JStr r) ∧ r ∈ roles ∧ dget d "content"%string = Some c.
Definition valid_request (d : list (string * json)) : Prop :=
  is_Some (dget d "model"%string) ∧ (is_Some (dget d "prompt"%string) ∨ is_Some (dget d "messages"%string)) ∧
  ∀ ms, dget d "messages"%string = Some ms → ∃ l, ms = JList l ∧ l ≠ [] ∧ Forall valid_message l.

Lemma validate_message_spec m : validate_message m = Ret tt ∧ valid_message m ∨ validate_message m = Raise (HTTPException 400) ∧ ¬ valid_message m.
Proof.
  destruct m as [| | | | | |d]; try (right; split; [done|by intros (? & ? & ? & ? & _)]). cbn.
  destruct (dget d "role"%string) as [[]|] eqn:Er; try (right; split; [done|intros (? & ? & ? & [= <-] & ? & _); congruence]).
  destruct (dget d "content"%string) as [c|] eqn:Ec; [|right; split; [done|intros (? & ? & ? & [= <-] & _ & _ & ?); congruence]].
  case_bool_decide as Hs; [left; split; [done|]; by (exists d, s, c)|right; split; [done|]]. intros (? & ? & ? & [= <-] & ? & ? & _). congruence.
Qed.

Lemma validate_messages_spec l : validate_messages l = Ret tt ∧ Forall valid_message l ∨ validate_messages l = Raise (HTTPException 400) ∧ ¬ Forall valid_message l.
Proof.
  induction l as [|m l IH]; [by left|]. cbn [validate_messages]. rewrite Forall_cons.
  destruct (validate_message_spec m) as [[-> Hm]|[-> Hm]]; cbn [mbind py_bind]; [|right; by split; [|intros []]].
  destruct IH as [[-> Hl]|[-> Hl]]; [by left|right; by split; [|intros []]].
Qed.

Lemma validate_spec d :
  validate_openai_request (JObj d) = Ret tt ∧ valid_request d ∨ validate_openai_request (JObj d) = Raise (HTTPException 400) ∧ ¬ valid_request d.
Proof.
  unfold validate_openai_request, valid_request. cbn [json_in mbind py_bind jsub]. unfold dhas.
  case_bool_decide as Hm; cbn [negb]; [|right; by split; [|intros []]].
  destruct (dget d "messages"%string) as [ms|] eqn:Ems.
  - rewrite (bool_decide_true (is_Some (Some ms))) by eauto. cbn [negb]. rewrite andb_false_r. cbn [mbind py_bind].
    assert (∀ P : json → Prop, (∀ ms', Some ms = Some ms' → P ms') ↔ P ms) as Hone by (intros P; split; [auto|by intros HP ? [= <-]]).
    rewrite Hone. destruct ms as [| | | | |l|]; try (right; split; [done|by intros (_ & _ & ? & ? & _)]).
    destruct l as [|m l]; [right; split; [done|intros (_ & _ & l & [= <-] & ? & _); done]|].
    destruct (validate_messages_spec (m :: l)) as [[H1 H2]|[H1 H2]]; [left|right]; (split; [exact H1|]).
    + split_and!; [done|by right; eauto|by exists (m :: l)].
    + by intros (_ & _ & l' & [= <-] & _ & ?).
  - rewrite (bool_decide_false (is_Some None)) by (by intros []). cbn [negb]. rewrite andb_true_r.
    case_bool_decide as Hp; cbn [negb mbind py_bind]; [left; split; [done|]; split_and!; [done|by left|done]|right; split; [done|]].
    intros (_ & [?|[]] & _); done.
Qed.

(** ** Properties *)

(** What reaches the router.  For a body that is an object, the answer is, in this order:
    504 if the time is over; 401 or 403 without a valid key; 400 if it is not an OpenAI
    request; 503 if the client is not connected or the instances do not suffice; otherwise
    what the router answers, its failures that are not HTTP errors as 500. *)
Theorem endpoint_outcome {R} (route : json → py R) keys path headers d client timed_out :
  let answer := openai_endpoint route keys path headers (Ret (JObj d)) client timed_out in
  if timed_out then answer = Raise (HTTPException 504)
  else match verify_api_key keys path headers with
       | Raise e => answer = Raise e
       | Ret _ =>
           (¬ valid_request d → answer = Raise (HTTPException 400)) ∧
           (valid_request d →
              match is_available client with
              | Ret true => answer = as_http (route (JObj d))
              | Ret false => answer = Raise (HTTPException 503)
              | Raise e => answer = as_http (Raise e)
              end)
       end.
Proof.
  cbv zeta. unfold openai_endpoint, timeout_handler. destruct timed_out; [done|]. destruct (verify_api_key keys path headers); [|done].
  cbn [mbind py_bind]. unfold handle_openai_request. cbn [mbind py_bind].
  destruct (validate_spec d) as [[-> Hv]|[-> Hv]]; (split; [|intros Hv'; try done]); [done| |done].
  cbn [mbind py_bind]. by destruct (is_available client) as [[]|].
Qed.

(** A client sees HTTP errors only.  Whatever the body is, also one that is not JSON or
    not an object, and however the router fails, the endpoint raises nothing but an HTTP
    error, or the cancellation of the request. *)
Theorem only_http_errors {R} (route : json → py R) keys path headers body client timed_out e :
  openai_endpoint route keys path headers body client timed_out = Raise e → e = CancelledError ∨ ∃ code, e = HTTPException code.
Proof.
  unfold openai_endpoint, timeout_handler. destruct timed_out; [intros [= <-]; eauto|].
  destruct (verify_api_key keys path headers) as [u|e'] eqn:Ek; cbn [mbind py_bind].
  - unfold handle_openai_request, as_http. case_match; [done|]. case_match; intros [= <-]; eauto.
  - intros [= <-]. right. unfold verify_api_key in Ek. repeat case_match; simplify_eq; eauto.
Qed.

(** A refresh changes the pools of the management process only after the scheduler took
    it.  A body that is refused is answered 400 and changes nothing; if the scheduler
    raises, the pools stay as they are; otherwise the pools are refreshed with the same
    message, and the answer counts its instances. *)
Theorem refresh_outcome {S} (refresh : EventType → list ref → M S bool) size loads parse client s :
  let '(s', r) := handle_refresh_instances refresh size loads parse client s in
  match read_refresh size loads parse with
  | Raise e => s' = s ∧ r = Raise e ∧ (e = CancelledError ∨ e = HTTPException 400)
  | Ret msg =>
      match match client with None => Ret true | Some send => send (event msg) (event_instances msg) end with
      | Raise e => s' = s ∧ r = Raise e
      | Ret _ => s' = (refresh (event msg) (event_instances msg) s).1 ∧
                 (is_ret (refresh (event msg) (event_instances msg) s).2 = true → r = Ret (Z.of_nat (length (event_instances msg))))
      end
  end.
Proof.
  unfold handle_refresh_instances. destruct (read_refresh size loads parse) as [msg|e] eqn:Er.
  - erewrite M_bind_Ret by reflexivity. destruct client as [send|]; [destruct (send (event msg) (event_instances msg)) as [b|e] eqn:Es|].
    + erewrite M_bind_Ret by reflexivity. destruct (refresh _ _ s) as [s' [b'|e']] eqn:E.
      * by rewrite (M_bind_Ret _ _ _ _ _ E).
      * by rewrite (M_bind_Raise _ _ _ _ _ E).
    + by erewrite M_bind_Raise by reflexivity.
    + erewrite M_bind_Ret by reflexivity. destruct (refresh _ _ s) as [s' [b'|e']] eqn:E.
      * by rewrite (M_bind_Ret _ _ _ _ _ E).
      * by rewrite (M_bind_Raise _ _ _ _ _ E).
  - erewrite M_bind_Raise by reflexivity. split_and!; [done..|]. unfold read_refresh in Er. repeat case_match; simplify_eq; auto.
Qed.

(** ** Witnesses *)

Lemma only_http_errors_witness : HTTPException 500 = CancelledError ∨ ∃ code, HTTPException 500 = HTTPException code.
Proof.
  exact (only_http_errors (λ _, Ret tt) (mkApiKey false [] "Authorization" "Bearer " []) "/v1/completions" (λ _, None) (Raise ValueError) None false
    (HTTPException 500) eq_refl).
Defined.

Definition sample_chat (r : string) : list (string * json) :=
  [("model", JStr "m"); ("messages", JList [JObj [("role", JStr r); ("content", JStr "hi")]])]%string.

(** Requests that are taken and refused. *)
Example sample_statuses :
  map (λ r, openai_endpoint (λ _, Ret tt) (mkApiKey false [] "Authorization" "Bearer " []) "/v1/chat/completions" (λ _, None) (Ret (JObj (sample_chat r)))
              (Some (Ret REQUIRED_MET)) false) ["user"; "tool"; "robot"]%string = [Ret tt; Ret tt; Raise (HTTPException 400)].
Proof. reflexivity. Qed.

(** A body that is a text and not an object passes the validation if the words occur in it. *)
Example text_is_accepted : validate_openai_request (JStr "which model answers this prompt?") = Ret tt.
Proof. reflexivity. Qed.
(** A number is answered 500 and not 400. *)
Example number_is_internal_error :
  openai_endpoint (λ _, Ret tt) (mkApiKey false [] "Authorization" "Bearer " []) "/v1/completions" (λ _, None) (Ret (JInt 1)) None false
  = Raise (HTTPException 500).
Proof. reflexivity. Qed.
