(* ===== verification/ConfigUtils.v ===== *)
(** * Reading and writing configuration files

    Models [config/config_utils.py], the shared dataclasses of [config/standby.py],
    [config/etcd.py], [config/log_config.py] and [config/tls_config.py], and what
    [config/controller.py] and [config/coordinator.py] do alike.

    A configuration is read and written by reflection ([hasattr], [setattr], [asdict]), so a
    dataclass instance is the dictionary of its fields.  The file system maps a path to what
    a file holds, as far as [json] tells: nothing but blanks, a document, or neither.  The
    keys of a document name fields; keys that name a method or a double underscore attribute
    of a dataclass are not modelled. *)

From stdpp Require Import base option list strings.
From Stdlib Require Import Ascii ZArith Lia.
From S2P Require Import CoordInstanceManager SchedulerServer.
From S2P Require Import Prelude Float64 PyText.
Open Scope Z_scope.

(** ** Values and dataclasses *)

(** What a field holds: a value of a document, or what only a default holds.  A set is listed
    in its iteration order. *)
Inductive value :=
| V (j : json)
| VSet (l : list string)
| VMode (m : DeployMode)
| VType (t : SchedulerType).

Abbreviation object := (list (string * value)).
Abbreviation VStr s := (V (JStr s)).
Abbreviation VInt z := (V (JInt z)).
Abbreviation VBool b := (V (JBool b)).

Definition LOCK_SLASH : string := "/".
Definition StandbyConfig : object :=
  [("enable_master_standby", VBool false); ("master_standby_check_interval", VInt 5); ("master_lock_ttl", VInt 10);
   ("master_lock_retry_interval", VInt 5); ("master_lock_max_failures", VInt 3); ("master_lock_key", VStr "/master_lock")]%string.
Definition EtcdConfig : object :=
  [("etcd_host", VStr "etcd.default.svc.cluster.local"); ("etcd_port", VInt 2379); ("etcd_timeout", VInt 5);
   ("enable_etcd_persistence", VBool false)]%string.
Definition LoggingConfig : object :=
  [("log_level", VStr "INFO"); ("log_max_line_length", VInt 8192);
   ("log_format", VStr "%(asctime)s  [%(levelname)s][%(name)s][%(filename)s:%(lineno)d][proc:%(processName)s]  %(message)s");
   ("log_date_format", VStr "%Y-%m-%d %H:%M:%S"); ("host_log_dir", VStr "/root/ascend/log"); ("log_rotation_size", VInt 20);
   ("log_rotation_count", VInt 10); ("log_compress", VBool false); ("log_compress_level", VInt 6); ("log_max_total_size", VInt 200);
   ("log_cleanup_interval", VInt 1800)]%string.
Definition TLSConfig : object :=
  [("enable_tls", VBool false); ("ca_file", VStr "security/mgmt/cert/ca.crt"); ("cert_file", VStr "security/mgmt/cert/server.crt");
   ("key_file", VStr "security/mgmt/keys/server.key"); ("passwd_file", VStr "security/mgmt/keys/key_pwd.txt"); ("crl_file", VStr "")]%string.

(** [__post_init__]: the lock key gets the name of the component when it is the default. *)
Definition own_lock_key (component : string) (o : object) : object :=
  match dget o "master_lock_key"%string with
  | Some (VStr k) => if bool_decide (k = "/master_lock")%string then dset o "master_lock_key" (VStr (LOCK_SLASH +:+ component +:+ k)) else o
  | _ => o
  end.

(** ** Files *)

Inductive content := Blank | NotJson | Json (j : json).
Record file := mkFile { f_content : content; f_mtime : Z }.
(** [fs_writable path]: whether a file can be opened there for writing; what is written now
    has time [fs_now]. *)
Record filesystem := mkFS { fs_files : list (string * file); fs_writable : string → bool; fs_now : Z }.

Definition path_parts (p : string) : list string :=
  List.filter (λ x, negb (bool_decide (x = "")) && negb (bool_decide (x = ".")))%string (split "/"%char p).
(** [str(Path(p))]. *)
Definition path_str (p : string) : string :=
  let body := String.concat "/" (path_parts p) in
  let lead := if startswith p "//" && negb (startswith p "///") then "//"%string else if startswith p "/" then "/"%string else ""%string in
  if bool_decide (lead +:+ body = ""%string) then "."%string else lead +:+ body.
(** [Path(p).name]. *)
Definition path_name (p : string) : string := default ""%string (last (path_parts p)).

Definition lookup_file (fs : filesystem) (p : string) : option file := dget (fs_files fs) (path_str p).
Definition exists_file (fs : filesystem) (p : string) : bool := bool_decide (is_Some (lookup_file fs p)).
(** [open(path, "w")], and [json.dump] of a document, or of what it cannot write. *)
Definition write_file (fs : filesystem) (p : string) (j : option json) : filesystem * py unit :=
  if fs_writable fs p then
    (mkFS (dset (fs_files fs) (path_str p) (mkFile (match j with Some j => Json j | None => NotJson end) (fs_now fs))) (fs_writable fs) (fs_now fs),
     match j with Some _ => Ret tt | None => Raise TypeError end)
  else (fs, Raise RuntimeError).

(** ** config_utils.py *)

Definition MINDIE_MOTOR_CONFIG_FILENAME : string := "config_sample.json".
Definition MOTOR_DEPLOY_CONFIG : string := "motor_deploy_config".
Definition MOTOR_CONTROLLER : string := "motor_controller_config".
Definition MOTOR_COORDINATOR : string := "motor_coordinator_config".
Definition MOTOR_ENGINE_PREFILL : string := "motor_engine_prefill_config".
Definition MOTOR_ENGINE_DECODE : string := "motor_engine_decode_config".

(** What an existing unified file holds, if it can be read as a dictionary. *)
Definition existing_config (fs : filesystem) (p : string) : list (string * json) :=
  match lookup_file fs p with Some (mkFile (Json (JObj d)) _) => d | _ => [] end.
Definition save_config_to_json (fs : filesystem) (save_path config_key : string) (config : option json) : filesystem * py unit :=
  if bool_decide (path_name save_path = MINDIE_MOTOR_CONFIG_FILENAME)
  then write_file fs save_path (c ← config; Some (JObj (dset (existing_config fs save_path) config_key c)))
  else write_file fs save_path config.

Definition get_tls_config (user : json) : option (list (string * json)) :=
  match user with
  | JObj d =>
      match dget d MOTOR_DEPLOY_CONFIG with
      | Some (JObj deploy) => match dget deploy "tls_config" with Some (JObj tls) => Some tls | _ => None end
      | _ => None
      end
  | _ => None
  end.

(** [cfg[key] = value]. *)
Definition set_item (key : string) (v : json) : M json unit := λ cfg,
  match cfg with JObj d => (JObj (dset d key v), Ret tt) | _ => (cfg, Raise TypeError) end.

Definition update_tls_config (tls_configs : list string) (user : json) : M json unit :=
  match get_tls_config user with
  | None | Some [] => mret tt
  | Some tls => mfor tls_configs (λ key, match dget tls key with Some v => set_item key v | None => mret tt end)
  end.

Definition update_instances_num (user : json) : M json unit :=
  match user with
  | JObj d =>
      match dget d MOTOR_DEPLOY_CONFIG with
      | Some (JObj deploy) =>
          set_item "deploy_config"
            (JObj [("p_instances_num", default (JInt 1) (dget deploy "p_instances_num"));
                   ("d_instances_num", default (JInt 1) (dget deploy "d_instances_num"))]%string)
      | _ => mret tt
      end
  | _ => mret tt
  end.

Definition update_prefill_kv_event_config (user : json) : M json unit :=
  mtry
    (engine ← mlift (jsubs user [MOTOR_ENGINE_PREFILL; "engine_config"%string]);
     match engine with
     | JObj e =>
         match dget e "kv-events-config"%string with
         | Some (JObj kv) =>
             port ← mlift (jsubs user ["kv_conductor_config"; "http_server_port"]%string);
             model ← mlift (jsubs user [MOTOR_ENGINE_PREFILL; "model_config"; "model_path"]%string);
             set_item "prefill_kv_event_config"
               (JObj [("endpoint", default (JStr "") (dget kv "endpoint")); ("replay_endpoint", default (JStr "") (dget kv "replay_endpoint"));
                      ("block_size", default (JInt 128) (dget e "block-size")); ("http_server_port", port); ("model_path", model)]%string)
         | _ => mret tt
         end
     | _ => mret tt
     end)
    (λ _, mret tt).

(** ** What the two loaders share *)

(** The environment of the process, as [common/utils/env.py] reads it. *)
Record Env := mkEnv {
  user_config_path : option string;
  pod_ip : option string;
  controller_service : string;
  coordinator_service : string;
  conductor_service : string
}.
Definition str_or (s : option string) (d : string) : string := match s with Some s => if bool_decide (s = "")%string then d else s | None => d end.

(** How a section takes a key: the handlers of [special_handlers] make the value or ignore it,
    a property without a setter refuses it. *)
Record section := mkSection {
  s_name : string;
  s_handlers : list (string * (json → option value));
  s_readonly : list string
}.
Definition plain (name : string) : section := mkSection name [] [].

Definition set_field (s : section) (o : object) (kv : string * json) : py object :=
  match dget (s_handlers s) kv.1 with
  | Some h => Ret (match h kv.2 with Some v => dset o kv.1 v | None => o end)
  | None =>
      if dhas o kv.1 then Ret (dset o kv.1 (V kv.2))
      else if bool_decide (kv.1 ∈ s_readonly s) then Raise AttributeError
      else Ret o
  end.
Fixpoint set_fields (s : section) (o : object) (d : list (string * json)) : py object :=
  match d with [] => Ret o | kv :: d => o ← set_field s o kv; set_fields s o d end.
(** [update_config_from_dict]; no field holds a dataclass, so nothing is merged deeper. *)
Definition update_config_from_dict (s : section) (o : object) (d : json) : py object :=
  match d with JObj d => set_fields s o d | _ => Raise AttributeError end.

Abbreviation objects := (list (string * object)).
Definition get_object (secs : objects) (name : string) : object := default [] (dget secs name).
Definition update_section (cfg : json) (secs : objects) (s : section) : py objects :=
  present ← json_in (s_name s) cfg;
  if present : bool then
    d ← jsub cfg (s_name s);
    o ← update_config_from_dict s (get_object secs (s_name s)) d;
    Ret (dset secs (s_name s) o)
  else Ret secs.
Fixpoint update_sections (cfg : json) (secs : objects) (l : list section) : py objects :=
  match l with [] => Ret secs | s :: l => secs ← update_section cfg secs s; update_sections cfg secs l end.

(** The document a loader works on: its part of the file, changed by [update] with the rest
    of the file, and the whole file when it has such a part.  What cannot be read is empty. *)
Definition read_document (fs : filesystem) (path : option string) (key : string) (update : json → M json unit) : json * option json :=
  match p ← path; lookup_file fs p with
  | Some (mkFile (Json raw) _) =>
      let '(cfg, user) := match raw with
                          | JObj d => match dget d key with Some c => (c, Some raw) | None => (raw, None) end
                          | _ => (raw, None)
                          end in
      ((update raw cfg).1, user)
  | _ => (JObj [], None)
  end.
(** The path of a loader: its argument, or else the one of the environment. *)
Definition config_path_of (env : Env) (json_path : option string) : option string :=
  match match json_path with Some p => Some p | None => user_config_path env end with
  | Some p => if bool_decide (p = "")%string then None else Some (path_str p)
  | None => None
  end.
Definition mtime_of (fs : filesystem) (path : option string) : option Z := p ← path; f_mtime <$> lookup_file fs p.

(** *** Validation *)

(** [getattr(section, name)]. *)
Definition getf (secs : objects) (sec name : string) : value := default (V JNull) (dget (get_object secs sec) name).
Definition vtruthy (v : value) : bool := match v with V j => truthy j | VSet l => match l with [] => false | _ => true end | _ => true end.
(** Comparison of a number with a constant; nothing else compares with one. *)
Definition vcmp (f : Z → Z → bool) (g : f64 → f64 → bool) (v : value) (z : Z) : py bool :=
  match v with
  | V (JInt x) => Ret (f x z)
  | V (JBool b) => Ret (f (Z.b2z b) z)
  | V (JFloat x) => Ret (g x (f_of_Z z))
  | _ => Raise TypeError
  end.
Definition vle : value → Z → py bool := vcmp Z.leb fle.
Definition vlt : value → Z → py bool := vcmp Z.ltb flt.
Definition vge : value → Z → py bool := vcmp Z.geb fge.
Definition vgt : value → Z → py bool := vcmp Z.gtb fgt.

Definition error_if (cond : py bool) (msg : string) : py (list string) := b ← cond; Ret (if b : bool then [msg] else []).
Definition positive (v : value) (name : string) : py (list string) := error_if (vle v 0) (name +:+ " must be greater than 0").
Definition not_negative (v : value) (name : string) : py (list string) := error_if (vlt v 0) (name +:+ " cannot be negative").
(** [not (lo <= v <= hi)]. *)
Definition out_of_range (v : value) (lo hi : Z) : py bool :=
  above ← vge v lo; if above : bool then below ← vle v hi; Ret (negb below) else Ret true.
Definition port_range (v : value) (name : string) : py (list string) := error_if (out_of_range v 1 65535) (name +:+ " must be in range 1-65535").

Definition valid_log_levels : list string := ["DEBUG"; "INFO"; "WARNING"; "ERROR"]%string.
Definition upper (v : value) : py string := match v with VStr s => Ret (of_chars (map upper_char (chars s))) | _ => Raise AttributeError end.
Definition log_level_check (v : value) : py (list string) :=
  error_if (l ← upper v; Ret (negb (bool_decide (l ∈ valid_log_levels)))) "log_level must be one of: DEBUG, INFO, WARNING, ERROR".

(** The errors of the checks in their order; a check that raises ends it. *)
Fixpoint gather (l : list (py (list string))) : py (list string) :=
  match l with [] => Ret [] | m :: l => e ← m; es ← gather l; Ret (e ++ es) end.
Definition raise_errors (errors : py (list string)) : py unit :=
  es ← errors; match es with [] => Ret tt | _ => Raise ValueError end.

(** [asdict] of a value, as far as [json.dump] writes it. *)
Definition value_json (v : value) : option json := match v with V j => Some j | _ => None end.
Definition object_json (o : object) : option json :=
  JObj <$> mapM (λ kv, pair kv.1 <$> value_json kv.2) o.
Definition objects_json (secs : objects) : option (list (string * json)) :=
  mapM (λ kv, pair kv.1 <$> object_json kv.2) secs.

(** ** Lemmas *)

Lemma dict_ext {A} (d d' : list (string * A)) : dict_wf d → dkeys d = dkeys d' → (∀ k, dget d k = dget d' k) → d = d'.
Proof.
  revert d'. induction d as [|[k v] d IH]; intros [|[k' v'] d'] Hwf Hk Hget; try done. injection Hk as -> Hk.
  pose proof (Hget k') as Hv. cbn in Hv. rewrite decide_True in Hv by done. destruct (decide (k' = k')); [|done]. injection Hv as ->.
  f_equal. apply NoDup_cons in Hwf as [Hn Hwf]. apply IH; [done|done|]. intros k. destruct (decide (k = k')) as [->|Hne].
  - assert (dget d k' = None) as -> by by apply dget_None_keys. symmetry. apply dget_None_keys. unfold dkeys in *. by rewrite <- Hk.
  - specialize (Hget k). cbn in Hget. by destruct (decide (k = k')).
Qed.

Lemma dkeys_dset_in {A} (d : list (string * A)) k v : k ∈ dkeys d → dkeys (dset d k v) = dkeys d.
Proof. intros Hk. apply dkeys_dset_old. by apply elem_of_dkeys. Qed.

(** *** Sections *)

(** The handlers are for fields. *)
Definition section_ok (s : section) (o : object) : Prop := ∀ k, dhas (s_handlers s) k = true → k ∈ dkeys o.
(** A key that raises: a property without a setter. *)
Definition refused (s : section) (o : object) (k : string) : Prop :=
  dget (s_handlers s) k = None ∧ k ∉ dkeys o ∧ k ∈ s_readonly s.
(** The value of a field after a document has been applied. *)
Definition new_value (s : section) (d : list (string * json)) (k : string) (old : value) : value :=
  match dget d k with
  | None => old
  | Some j => match dget (s_handlers s) k with Some h => default old (h j) | None => V j end
  end.

Lemma plain_ok name o : section_ok (plain name) o.
Proof. by intros k H. Qed.
Lemma plain_refused name o k : ¬ refused (plain name) o k.
Proof. intros (_ & _ & H). by apply elem_of_nil in H. Qed.

Lemma set_field_spec s o kv : section_ok s o →
  refused s o kv.1 ∧ set_field s o kv = Raise AttributeError ∨
  ¬ refused s o kv.1 ∧ ∃ o', set_field s o kv = Ret o' ∧ dkeys o' = dkeys o ∧ ∀ k, dget o' k = new_value s [kv] k <$> dget o k.
Proof.
  intros Hok. destruct kv as [k v]. unfold set_field, refused, new_value. cbn.
  assert (∀ w, k ∈ dkeys o → ∀ k', dget (dset o k w) k' = (if decide (k' = k) then λ _, w else id) <$> dget o k') as Hset.
  { intros w Hk k'. rewrite dget_dset. case_decide as Hd.
    - subst k'. apply elem_of_dkeys in Hk as [x ->]. by rewrite decide_True.
    - rewrite decide_False by done. by destruct (dget o k'). }
  destruct (dget (s_handlers s) k) as [h|] eqn:Eh.
  - right. split; [by intros []|]. assert (k ∈ dkeys o) as Hk by (apply Hok, dhas_true; eauto).
    destruct (h v) as [w|] eqn:Ew; eexists; (split; [done|]).
    + split; [by apply dkeys_dset_in|]. intros k'. rewrite Hset by done. destruct (decide (k' = k)) as [->|]; [|done]. by rewrite Eh, Ew.
    + split; [done|]. intros k'. destruct (decide (k' = k)) as [->|]; [|by destruct (dget o k')]. rewrite Eh, Ew. by destruct (dget o k).
  - destruct (dhas o k) eqn:Ho.
    + right. apply dhas_true, elem_of_dkeys in Ho. split; [by intros (_ & ? & _)|]. eexists. split; [done|]. split; [by apply dkeys_dset_in|].
      intros k'. rewrite Hset by done. destruct (decide (k' = k)) as [->|]; [|done]. by rewrite Eh.
    + apply dhas_false in Ho. pose proof Ho as Ho'. apply dget_None_keys in Ho'. case_bool_decide as Hr; [by left|]. right. split; [by intros (_ & _ & ?)|].
      eexists. split; [done|]. split; [done|]. intros k'. destruct (decide (k' = k)) as [->|]; [by rewrite Ho|by destruct (dget o k')].
Qed.

Lemma set_fields_spec s d : ∀ o, section_ok s o → dict_wf d →
  (∃ k, k ∈ dkeys d ∧ refused s o k) ∧ set_fields s o d = Raise AttributeError ∨
  (∀ k, k ∈ dkeys d → ¬ refused s o k) ∧
  ∃ o', set_fields s o d = Ret o' ∧ dkeys o' = dkeys o ∧ ∀ k, dget o' k = new_value s d k <$> dget o k.
Proof.
  induction d as [|kv d IH]; intros o Hok Hwf.
  { right. split; [intros k Hk; by apply elem_of_nil in Hk|]. exists o. split_and!; [done|done|]. intros k. by destruct (dget o k). }
  apply NoDup_cons in Hwf as [Hn Hwf]. cbn [set_fields].
  destruct (set_field_spec s o kv Hok) as [[Hr ->]|[Hr (o1 & -> & Hk1 & Hg1)]].
  { left. split; [|done]. exists kv.1. split; [by left|done]. }
  cbn [mbind py_bind]. assert (section_ok s o1) as Hok1 by (intros k; rewrite Hk1; apply Hok).
  assert (∀ k, refused s o1 k ↔ refused s o k) as Heq by (intros k; unfold refused; by rewrite Hk1).
  destruct (IH o1 Hok1 Hwf) as [[(k & Hk & Hrk) ->]|[Hno (o' & -> & Hk' & Hg')]].
  - left. split; [|done]. exists k. split; [by right|by apply Heq].
  - right. split.
    { intros k Hk. apply elem_of_cons in Hk as [->|Hk]; [done|]. rewrite <- Heq. auto. }
    exists o'. split; [done|]. split; [congruence|]. intros k. rewrite Hg', Hg1. destruct (dget o k) as [old|]; [|done]. cbn. f_equal.
    destruct kv as [k0 v]. unfold new_value. cbn. destruct (decide (k = k0)) as [->|]; [|done].
    assert (dget d k0 = None) as -> by by apply dget_None_keys. done.
Qed.

(** A document whose fields give back the values of an object makes that object. *)
Lemma set_fields_back s o o' d : section_ok s o → dict_wf d → dict_wf o' → dkeys o = dkeys o' →
  (∀ k, k ∈ dkeys d → k ∈ dkeys o) → (∀ k old v, dget o k = Some old → dget o' k = Some v → new_value s d k old = v) →
  set_fields s o d = Ret o'.
Proof.
  intros Hok Hwf Hwf' Hk Hin Hback. destruct (set_fields_spec s d o Hok Hwf) as [[(k & Hd & _ & Hno & _) _]|[_ (o1 & -> & Hk1 & Hg)]].
  { by destruct (Hno (Hin k Hd)). }
  f_equal. symmetry. apply dict_ext; [done|congruence|]. intros k. rewrite Hg.
  destruct (dget o k) as [old|] eqn:Ho; cbn.
  - assert (k ∈ dkeys o') as Hk' by (rewrite <- Hk; apply elem_of_dkeys; eauto). apply elem_of_dkeys in Hk' as [v Hv].
    rewrite Hv. by rewrite (Hback k old v).
  - apply dget_None_keys. rewrite <- Hk. by apply dget_None_keys.
Qed.

(** *** The sections of a document *)

(** What becomes of a section: it is replaced when the document has it. *)
Definition section_result (d : list (string * json)) (secs : objects) (s : section) : py object :=
  match dget d (s_name s) with
  | None => Ret (get_object secs (s_name s))
  | Some j => update_config_from_dict s (get_object secs (s_name s)) j
  end.

Lemma update_section_obj d secs s : s_name s ∈ dkeys secs →
  update_section (JObj d) secs s = o ← section_result d secs s; Ret (dset secs (s_name s) o).
Proof.
  intros Hin. unfold update_section, section_result. cbn [json_in mbind py_bind jsub]. unfold dhas.
  destruct (dget d (s_name s)) as [j|]; [rewrite bool_decide_true by eauto; done|rewrite bool_decide_false by by intros []].
  cbn. apply elem_of_dkeys in Hin as [o Ho]. unfold get_object. rewrite Ho. cbn. f_equal. symmetry.
  revert Ho. clear. induction secs as [|[k v] secs IH]; intros H; [done|]. cbn in *. case_decide; [congruence|]. f_equal; auto.
Qed.

Lemma update_sections_spec d l : ∀ secs secs',
  NoDup (map s_name l) → (∀ s, s ∈ l → s_name s ∈ dkeys secs) →
  update_sections (JObj d) secs l = Ret secs' →
  dkeys secs' = dkeys secs ∧
  (∀ s, s ∈ l → section_result d secs s = Ret (get_object secs' (s_name s))) ∧
  (∀ k, k ∉ map s_name l → dget secs' k = dget secs k).
Proof.
  induction l as [|s l IH]; intros secs secs' Hnd Hin H.
  { injection H as <-. split_and!; [done|intros s Hs; by apply elem_of_nil in Hs|done]. }
  apply NoDup_cons in Hnd as [Hs Hnd]. cbn [update_sections] in H. rewrite update_section_obj in H by (apply Hin; constructor).
  destruct (section_result d secs s) as [o|e] eqn:Eo; [|done]. cbn in H.
  assert (dkeys (dset secs (s_name s) o) = dkeys secs) as Hk by (apply dkeys_dset_in, Hin; constructor).
  apply IH in H as (Hk' & Hres & Hoth); [|done|intros s' Hs'; rewrite Hk; apply Hin; by right]. split_and!; [congruence| |].
  - intros s' [->|Hs']%elem_of_cons.
    + rewrite Eo. unfold get_object. rewrite (Hoth _ Hs), dget_dset_eq. done.
    + rewrite <- (Hres s' Hs'). unfold section_result. assert (s_name s ≠ s_name s') as Hne.
      { intros He. apply Hs. rewrite He. by apply list_elem_of_fmap_2. }
      unfold get_object. by rewrite dget_dset_ne.
  - intros k Hk2. cbn in Hk2. rewrite Hoth by (intros ?; apply Hk2; by right). apply dget_dset_ne. intros <-. apply Hk2. by left.
Qed.

Lemma update_sections_total d l : ∀ secs secs',
  NoDup (map s_name l) → (∀ s, s ∈ l → s_name s ∈ dkeys secs) → dict_wf secs' → dkeys secs' = dkeys secs →
  (∀ s, s ∈ l → section_result d secs s = Ret (get_object secs' (s_name s))) →
  (∀ k, k ∉ map s_name l → dget secs' k = dget secs k) →
  update_sections (JObj d) secs l = Ret secs'.
Proof.
  induction l as [|s l IH]; intros secs secs' Hnd Hin Hwf Hk Hres Hoth.
  { cbn. f_equal. symmetry. apply dict_ext; [done|done|]. intros k. apply Hoth. apply not_elem_of_nil. }
  apply NoDup_cons in Hnd as [Hs Hnd]. cbn [update_sections]. rewrite update_section_obj by (apply Hin; constructor).
  rewrite Hres by constructor. cbn.
  assert (dkeys (dset secs (s_name s) (get_object secs' (s_name s))) = dkeys secs) as Hk1 by (apply dkeys_dset_in, Hin; constructor).
  apply IH; [done|intros s' Hs'; rewrite Hk1; apply Hin; by right|done|congruence| |].
  - intros s' Hs'. rewrite <- (Hres s') by by right. unfold section_result, get_object.
    assert (s_name s ≠ s_name s') as Hne by (intros He; apply Hs; rewrite He; by apply list_elem_of_fmap_2). by rewrite dget_dset_ne.
  - intros k Hkn. destruct (decide (k = s_name s)) as [->|Hne].
    + rewrite dget_dset_eq. unfold get_object. assert (s_name s ∈ dkeys secs') as [o ->]%elem_of_dkeys; [|done].
      rewrite Hk. apply Hin. constructor.
    + rewrite dget_dset_ne by done. apply Hoth. intros [->|Hc]%elem_of_cons; [done|]. by apply Hkn.
Qed.

Lemma update_sections_exists d l : ∀ secs,
  NoDup (map s_name l) → (∀ s, s ∈ l → s_name s ∈ dkeys secs) →
  (∀ s, s ∈ l → is_ret (section_result d secs s) = true) → ∃ secs', update_sections (JObj d) secs l = Ret secs'.
Proof.
  induction l as [|s l IH]; intros secs Hnd Hin Hres; [by exists secs|].
  apply NoDup_cons in Hnd as [Hs Hnd]. cbn [update_sections]. rewrite update_section_obj by (apply Hin; constructor).
  pose proof (Hres s ltac:(constructor)) as Hr. destruct (section_result d secs s) as [o|]; [|done]. cbn.
  assert (dkeys (dset secs (s_name s) o) = dkeys secs) as Hk by (apply dkeys_dset_in, Hin; constructor).
  apply IH; [done|intros s' Hs'; rewrite Hk; apply Hin; by constructor|].
  intros s' Hs'. rewrite <- (Hres s' ltac:(by constructor)). unfold section_result, get_object.
  assert (s_name s ≠ s_name s') as Hne by (intros He; apply Hs; rewrite He; by apply list_elem_of_fmap_2). by rewrite dget_dset_ne.
Qed.

(** *** Validation *)

Lemma gather_nil l : gather l = Ret [] ↔ Forall (λ m, m = Ret []) l.
Proof.
  induction l as [|m l IH]; [by split|]. rewrite Forall_cons, <- IH. cbn [gather]. destruct m as [e|]; [|by split; [|intros []]].
  cbn. destruct (gather l) as [es|]; cbn; [|by split; [|intros []]].
  split; [intros [= [-> ->]%app_eq_nil]; done|intros [[= ->] [= ->]]; done].
Qed.
Lemma raise_errors_ok m : raise_errors m = Ret tt ↔ m = Ret [].
Proof. unfold raise_errors. destruct m as [[|]|]; cbn; by split. Qed.
Lemma error_if_nil c msg : error_if c msg = Ret [] ↔ c = Ret false.
Proof. unfold error_if. destruct c as [[]|]; cbn; by split. Qed.

(** *** Writing *)

Lemma value_json_V v j : value_json v = Some j ↔ v = V j.
Proof. destruct v; cbn; split; congruence. Qed.

Lemma dget_mapM {A B} (f : A → option B) (l : list (string * A)) d k :
  mapM (λ kv, pair kv.1 <$> f kv.2) l = Some d → dkeys d = dkeys l ∧ dget d k = dget l k ≫= f.
Proof.
  revert d. induction l as [|[k' v] l IH]; intros d H; [by injection H as <-|]. cbn in H.
  destruct (f v) as [w|] eqn:Ew; [|done]. cbn in H. destruct (mapM _ l) as [d'|] eqn:Ed; [|done]. injection H as <-.
  destruct (IH d' eq_refl) as [Hk Hg]. cbn. split; [unfold dkeys in *; cbn; by rewrite Hk|]. destruct (decide (k = k')); [by cbn|done].
Qed.

(** *** Paths *)

Lemma split_chars_nosep sep l : Forall (λ p, sep ∉ p) (split_chars sep l).
Proof.
  induction l as [|c l IH]; cbn; [by repeat constructor; apply not_elem_of_nil|].
  destruct (decide (c = sep)) as [->|Hne]; [constructor; [apply not_elem_of_nil|done]|].
  destruct (split_chars sep l) as [|p ps]; [by repeat constructor; rewrite list_elem_of_singleton|].
  apply Forall_cons in IH as [Hp Hps]. constructor; [|done]. rewrite not_elem_of_cons. by split.
Qed.
Lemma split_chars_end sep l : sep ∉ l → split_chars sep l = [l].
Proof.
  induction l as [|c l IH]; [done|]. rewrite not_elem_of_cons. intros [Hc Hl]. cbn.
  rewrite decide_False by congruence. by rewrite IH.
Qed.
Lemma split_chars_at sep l l' : sep ∉ l → split_chars sep (l ++ sep :: l') = l :: split_chars sep l'.
Proof.
  induction l as [|c l IH]; cbn; [by rewrite decide_True|]. rewrite not_elem_of_cons. intros [Hc Hl].
  rewrite decide_False by congruence. by rewrite IH.
Qed.
Lemma split_concat sep l : l ≠ [] → Forall (λ p, sep ∉ chars p) l →
  split_chars sep (chars (String.concat (String sep "") l)) = map chars l.
Proof.
  intros Hne Hl. induction Hl as [|p l Hp Hl IH]; [done|]. destruct l as [|q l].
  - cbn. by apply split_chars_end.
  - change (String.concat (String sep "") (p :: q :: l)) with (p +:+ (String sep "" +:+ String.concat (String sep "") (q :: l))).
    rewrite !chars_app. change (chars (String sep "") ++ ?x) with (sep :: x). rewrite split_chars_at by done. cbn [map]. f_equal. by apply IH.
Qed.

Lemma path_parts_spec p : Forall (λ x, x ≠ "" ∧ x ≠ "." ∧ "/"%char ∉ chars x)%string (path_parts p).
Proof.
  unfold path_parts, split. pose proof (split_chars_nosep "/"%char (chars p)) as H. induction H as [|l ls Hl _ IH]; cbn; [constructor|].
  destruct (_ && _) eqn:E; [|done]. constructor; [|done]. apply andb_prop in E as [E1 E2].
  rewrite negb_true_iff, bool_decide_eq_false in E1, E2. by rewrite chars_of_chars.
Qed.

Lemma filter_keep {A} (f : A → bool) l : Forall (λ x, f x = true) l → List.filter f l = l.
Proof. induction 1 as [|x l Hx _ IH]; cbn; [done|]. by rewrite Hx, IH. Qed.

(** A normalised path is its own normal form. *)
Lemma path_str_idem p : path_str (path_str p) = path_str p.
Proof.
  unfold path_str at 2 3. set (lead := if _ && _ then _ else _).
  assert (lead = "//" ∨ lead = "/" ∨ lead = "")%string as Hlead by (subst lead; destruct (_ && _); [|destruct (startswith p "/")]; auto).
  clearbody lead. pose proof (path_parts_spec p) as Hp. destruct (path_parts p) as [|x l] eqn:El.
  { cbn. by destruct Hlead as [->|[->| ->]]. }
  assert (path_parts (lead +:+ String.concat "/" (x :: l)) = x :: l) as Hparts.
  { transitivity (path_parts (String.concat "/" (x :: l))); [by destruct Hlead as [->|[->| ->]]|].
    unfold path_parts, split. rewrite split_concat; [|done|by eapply Forall_impl; [exact Hp|]; intros ? (_ & _ & ?)].
    rewrite map_map. rewrite (map_ext _ id) by apply of_chars_chars. rewrite map_id. apply filter_keep.
    eapply Forall_impl; [exact Hp|]. intros y (H1 & H2 & _). cbn. by rewrite !bool_decide_false. }
  apply Forall_cons in Hp as [(Hx & _ & Hs) _]. destruct x as [|c x]; [done|].
  assert (c ≠ "/"%char) as Hc by (intros ->; apply Hs; constructor).
  assert (∃ s, String.concat "/" (String c x :: l) = String c s)%string as [s Hs'] by (destruct l; eexists; reflexivity).
  rewrite Hs' in *. rewrite bool_decide_false by by destruct Hlead as [->|[->| ->]].
  unfold path_str. rewrite Hparts. rewrite Hs'. unfold startswith.
  destruct Hlead as [->|[->| ->]];
    [change ("//" +:+ String c s)%string with (String "/" (String "/" (String c s)))
    |change ("/" +:+ String c s)%string with (String "/" (String c s))
    |change ("" +:+ String c s)%string with (String c s)];
    cbn -[Ascii.ascii_dec]; repeat (destruct (Ascii.ascii_dec _ _); try congruence); cbn; by rewrite ?bool_decide_false.
Qed.

(** *** The sections the deployment overrides *)

Definition deployed_tls (user : json) (key : string) : option json := tls ← get_tls_config user; dget tls key.
(** A section of the document after [update_tls_config]. *)
Definition with_tls (keys : list string) (user : json) (d : list (string * json)) (k : string) : option json :=
  if decide (k ∈ keys) then match deployed_tls user k with Some v => Some v | None => dget d k end else dget d k.

Lemma update_tls_spec keys user d : ∃ d',
  update_tls_config keys user (JObj d) = (JObj d', Ret tt) ∧ (∀ k, dget d' k = with_tls keys user d k) ∧ (dict_wf d → dict_wf d').
Proof.
  unfold update_tls_config, with_tls, deployed_tls. destruct (get_tls_config user) as [[|e tls]|] eqn:Et; cbn [mbind option_bind].
  1,3: exists d; split_and!; [done|intros k; by destruct (decide _)|done].
  clear Et. set (t := e :: tls). clearbody t. revert d. induction keys as [|key keys IH]; intros d; cbn [mfor].
  { exists d. split_and!; [done|intros k|done]. by rewrite decide_False by apply not_elem_of_nil. }
  destruct (dget t key) as [v|] eqn:Ev.
  - rewrite (M_bind_Ret _ _ _ (JObj (dset d key v)) tt) by done. destruct (IH (dset d key v)) as (d' & -> & Hg & Hwf). exists d'.
    split_and!; [done| |intros; by apply Hwf, dict_wf_dset]. intros k. rewrite Hg. destruct (decide (k = key)) as [->|Hne].
    + rewrite (decide_True (P := key ∈ key :: keys)) by constructor. rewrite Ev, dget_dset_eq. by destruct (decide _).
    + rewrite dget_dset_ne by done. destruct (decide (k ∈ keys)), (decide (k ∈ key :: keys)) as [Hin|Hin]; try done.
      * destruct Hin. by constructor.
      * apply elem_of_cons in Hin as [|]; done.
  - rewrite (M_bind_Ret _ _ _ (JObj d) tt) by done. destruct (IH d) as (d' & -> & Hg & Hwf). exists d'.
    split_and!; [done| |done]. intros k. rewrite Hg. destruct (decide (k = key)) as [->|Hne].
    + rewrite (decide_True (P := key ∈ key :: keys)) by constructor. rewrite Ev. by destruct (decide _).
    + destruct (decide (k ∈ keys)), (decide (k ∈ key :: keys)) as [Hin|Hin]; try done.
      * destruct Hin. by constructor.
      * apply elem_of_cons in Hin as [|]; done.
Qed.

Lemma set_item_keeps key v cfg : (∀ d, cfg ≠ JObj d) → (set_item key v cfg).1 = cfg.
Proof. intros H. destruct cfg; try done. by destruct (H d). Qed.

(** *** Files *)

Lemma lookup_written fs p j : fs_writable fs p = true → lookup_file (write_file fs p (Some j)).1 p = Some (mkFile (Json j) (fs_now fs)).
Proof. unfold write_file, lookup_file. intros ->. cbn. by rewrite dget_dset_eq. Qed.
Lemma lookup_idem fs p : lookup_file fs (path_str p) = lookup_file fs p.
Proof. unfold lookup_file. by rewrite path_str_idem. Qed.
Lemma path_str_nonempty p : path_str p ≠ ""%string.
Proof. unfold path_str. by case_bool_decide. Qed.

Lemma config_path_given env p : p ≠ ""%string → config_path_of env (Some p) = Some (path_str p).
Proof. intros H. unfold config_path_of. by rewrite bool_decide_false. Qed.

(** *** A configuration of the declared shape *)

(** The sections and the fields of each are those of the dataclasses. *)
Definition same_shape (secs defaults : objects) : Prop :=
  dkeys secs = dkeys defaults ∧ ∀ name, dkeys (get_object secs name) = dkeys (get_object defaults name).

#[global] Instance same_shape_preorder : PreOrder same_shape.
Proof. split; [by split|]. intros a b c [H1 H2] [H3 H4]. split; [congruence|]. intros k. by rewrite H2. Qed.

Lemma set_fields_shape s d : ∀ o o', section_ok s o → set_fields s o d = Ret o' → dkeys o' = dkeys o.
Proof.
  induction d as [|kv d IH]; intros o o' Hok H; [by injection H as ->|]. cbn [set_fields] in H.
  destruct (set_field_spec s o kv Hok) as [[_ E]|[_ (o1 & E & Hk & _)]]; rewrite E in H; [done|]. cbn in H.
  apply IH in H; [congruence|]. intros k. rewrite Hk. apply Hok.
Qed.

Lemma update_section_shape cfg secs secs' s : section_ok s (get_object secs (s_name s)) → s_name s ∈ dkeys secs →
  update_section cfg secs s = Ret secs' → same_shape secs' secs.
Proof.
  unfold update_section. intros Hok Hin H. destruct (json_in _ _) as [[]|]; cbn in H; [|by injection H as <-|done].
  destruct (jsub _ _) as [j|]; cbn in H; [|done]. destruct (update_config_from_dict _ _ _) as [o|] eqn:Eo; cbn in H; [|done].
  injection H as <-. split; [by apply dkeys_dset_in|]. intros name. unfold get_object at 1. destruct (decide (name = s_name s)) as [->|Hne].
  - rewrite dget_dset_eq. unfold update_config_from_dict in Eo. destruct j; try done. cbn. by eapply set_fields_shape.
  - by rewrite dget_dset_ne.
Qed.

Lemma update_sections_shape cfg l : ∀ secs secs',
  (∀ s, s ∈ l → section_ok s (get_object secs (s_name s)) ∧ s_name s ∈ dkeys secs) →
  update_sections cfg secs l = Ret secs' → same_shape secs' secs.
Proof.
  induction l as [|s l IH]; intros secs secs' Hok H; [by injection H as <-|]. cbn [update_sections] in H.
  destruct (update_section cfg secs s) as [secs1|] eqn:E1; cbn in H; [|done].
  destruct (Hok s ltac:(constructor)) as [Hs Hin]. pose proof (update_section_shape _ _ _ _ Hs Hin E1) as [Hk Hg].
  etransitivity; [eapply IH; [|done]|by split].
  intros s' Hs'. destruct (Hok s' ltac:(by constructor)) as [Hs1 Hin1]. split; [|by rewrite Hk]. intros k. rewrite Hg. apply Hs1.
Qed.

(** What a section reads for a field. *)
Definition read_value (s : section) (k : string) (old : value) (j : json) : value :=
  match dget (s_handlers s) k with Some h => default old (h j) | None => V j end.

(** The document of an object gives back the object its fields are read as. *)
Lemma object_back s o written o' d : section_ok s o → dict_wf o → dkeys written = dkeys o → dkeys o' = dkeys o →
  object_json written = Some (JObj d) →
  (∀ k old j v, dget o k = Some old → dget written k = Some (V j) → dget o' k = Some v → read_value s k old j = v) →
  update_config_from_dict s o (JObj d) = Ret o'.
Proof.
  intros Hok Hwf Hkw Hk Hj Hback. unfold object_json in Hj. destruct (mapM _ written) as [d'|] eqn:Ed; [|done]. injection Hj as <-.
  assert (∀ k, dkeys d' = dkeys written ∧ dget d' k = dget written k ≫= value_json) as Hd by (intros k; by apply dget_mapM).
  cbn. apply set_fields_back; [done| | |done| |].
  - unfold dict_wf. by rewrite (proj1 (Hd ""%string)), Hkw.
  - unfold dict_wf. by rewrite Hk.
  - intros k. by rewrite (proj1 (Hd k)), Hkw.
  - intros k old v Ho Hv. assert (k ∈ dkeys d') as Hin by (rewrite (proj1 (Hd k)), Hkw; apply elem_of_dkeys; eauto).
    apply elem_of_dkeys in Hin as [j Hjk]. pose proof (proj2 (Hd k)) as Hw. rewrite Hjk in Hw. unfold new_value. rewrite Hjk.
    destruct (dget written k) as [w|] eqn:Ew; [|done]. symmetry in Hw. apply value_json_V in Hw as ->. by apply (Hback k old j v).
Qed.

(** *** What the fields hold *)

Definition fields_are (P : string → string → value → Prop) (secs : objects) : Prop :=
  ∀ name k v, dget (get_object secs name) k = Some v → P name k v.
(** A section keeps a property of its fields. *)
Definition section_keeps (P : string → string → value → Prop) (s : section) : Prop :=
  ∀ k old j, P (s_name s) k old → P (s_name s) k (read_value s k old j).

Lemma set_fields_keep P s d : section_keeps P s → ∀ o o', section_ok s o → (∀ k v, dget o k = Some v → P (s_name s) k v) →
  set_fields s o d = Ret o' → ∀ k v, dget o' k = Some v → P (s_name s) k v.
Proof.
  intros Hkeep. induction d as [|[key j] d IH]; intros o o' Hok Ho H; [by injection H as <-|]. cbn [set_fields] in H.
  destruct (set_field_spec s o (key, j) Hok) as [[_ E]|[_ (o1 & E & Hk & Hg)]]; rewrite E in H; [done|]. cbn in H.
  eapply (IH o1); [intros k; rewrite Hk; apply Hok| |done]. intros k v Hv. rewrite Hg in Hv. destruct (dget o k) as [old|] eqn:Eo; [|done].
  injection Hv as <-. apply Ho in Eo. unfold new_value. cbn. destruct (decide (k = key)); [|done].
  by apply (Hkeep k old j).
Qed.

Lemma update_sections_keep P cfg l : ∀ secs secs',
  (∀ s, s ∈ l → section_keeps P s ∧ section_ok s (get_object secs (s_name s)) ∧ s_name s ∈ dkeys secs) →
  fields_are P secs → update_sections cfg secs l = Ret secs' → fields_are P secs'.
Proof.
  induction l as [|s l IH]; intros secs secs' Hok Hs H; [by injection H as <-|]. cbn [update_sections] in H.
  destruct (update_section cfg secs s) as [secs1|] eqn:E; cbn in H; [|done]. destruct (Hok s ltac:(constructor)) as (Hkeep & Hsok & Hin).
  pose proof (update_section_shape _ _ _ _ Hsok Hin E) as [Hk1 Hg1]. eapply (IH secs1); [| |done].
  { intros s' Hs'. destruct (Hok s' ltac:(by constructor)) as (? & Hok' & ?). split_and!; [done| |by rewrite Hk1]. intros k. rewrite Hg1. apply Hok'. }
  unfold update_section in E. destruct (json_in _ _) as [[]|]; cbn in E; [|by injection E as <-|done].
  destruct (jsub _ _) as [j|]; cbn in E; [|done]. destruct (update_config_from_dict _ _ _) as [o|] eqn:Eo; cbn in E; [|done]. injection E as <-.
  unfold update_config_from_dict in Eo. destruct j as [| | | | | |d]; try done. intros name k v. unfold get_object. destruct (decide (name = s_name s)) as [->|Hne].
  - rewrite dget_dset_eq. eapply set_fields_keep; [done|exact Hsok|intros k' v'; apply Hs|exact Eo].
  - rewrite dget_dset_ne by done. apply Hs.
Qed.

Definition savable (name k : string) (v : value) : Prop := is_Some (value_json v).
Lemma objects_json_some secs : dict_wf secs → (∀ n, dict_wf (get_object secs n)) → fields_are savable secs → is_Some (objects_json secs).
Proof.
  intros Hwf Hwfo Hs. apply mapM_is_Some, Forall_forall. intros [name o] Ho. apply dget_in_wf in Ho; [|done].
  assert (get_object secs name = o) as Hget by (unfold get_object; by rewrite Ho). cbn. unfold object_json.
  assert (is_Some (mapM (λ kv : string * value, pair kv.1 <$> value_json kv.2) o)) as [d ->]; [|by eexists].
  apply mapM_is_Some, Forall_forall. intros [k v] Hv. apply dget_in_wf in Hv; [|rewrite <- Hget; apply Hwfo]. rewrite <- Hget in Hv.
  destruct (Hs _ _ _ Hv) as [j Hj]. cbn. rewrite Hj. by eexists.
Qed.
Lemma plain_keeps (P : string → string → value → Prop) name : (∀ k j, P name k (V j)) → section_keeps P (plain name).
Proof. intros H k old j _. apply H. Qed.
(** The fields of the defaults, one by one. *)
Lemma fields_are_all (P : string → string → value → Prop) secs : Forall (λ so, Forall (λ kv, P so.1 kv.1 kv.2) so.2) secs → fields_are P secs.
Proof.
  intros H name k v Hv. unfold get_object in Hv. destruct (dget secs name) as [o|] eqn:E; [|done]. apply dget_Some_in in E, Hv.
  apply (proj1 (Forall_forall _ _) H) in E. by apply (proj1 (Forall_forall _ _) E) in Hv.
Qed.
Lemma same_shape_wf secs defaults : same_shape secs defaults → dict_wf defaults → (∀ n, dict_wf (get_object defaults n)) →
  dict_wf secs ∧ ∀ n, dict_wf (get_object secs n).
Proof. intros [Hk Hg] Hwf Hwfo. split; [unfold dict_wf; by rewrite Hk|]. intros n. unfold dict_wf. rewrite Hg. apply Hwfo. Qed.

(** Saved sections, loaded over the defaults: [secs] if every field is read back. *)
Lemma sections_back secs written defaults d d' l :
  same_shape secs defaults → same_shape written defaults → dict_wf defaults → (∀ n, dict_wf (get_object defaults n)) →
  (∀ n, n ∈ map s_name l ↔ n ∈ dkeys defaults) → NoDup (map s_name l) → (∀ s, s ∈ l → section_ok s (get_object defaults (s_name s))) →
  objects_json written = Some d → (∀ k, k ∈ map s_name l → dget d' k = dget d k) →
  (∀ s k old j v, s ∈ l → dget (get_object defaults (s_name s)) k = Some old → dget (get_object written (s_name s)) k = Some (V j) →
    dget (get_object secs (s_name s)) k = Some v → read_value s k old j = v) →
  update_sections (JObj d') defaults l = Ret secs.
Proof.
  intros [Hk Hg] [Hkw Hgw] Hwf Hwfo Hl Hnd Hok Hd Hd' Hback.
  assert (∀ s, s ∈ l → s_name s ∈ map s_name l) as Hname by (intros s Hs; by apply list_elem_of_fmap_2).
  apply update_sections_total; [done|intros s Hs; by apply Hl, Hname|unfold dict_wf; by rewrite Hk|done| |].
  - intros s Hs. unfold section_result. rewrite Hd' by auto. pose proof (proj2 (dget_mapM object_json written d (s_name s) Hd)) as Hj.
    assert (s_name s ∈ dkeys written) as [w Hw]%elem_of_dkeys by (rewrite Hkw; by apply Hl, Hname).
    assert (s_name s ∈ dkeys d) as [j Hjs]%elem_of_dkeys by (rewrite (proj1 (dget_mapM object_json written d (s_name s) Hd)); apply elem_of_dkeys; eauto).
    rewrite Hjs, Hw in *. cbn in Hj. symmetry in Hj.
    assert (∃ dd, j = JObj dd) as [dd ->] by (unfold object_json in Hj; destruct (mapM _ w); [injection Hj as <-; eauto|done]).
    assert (get_object written (s_name s) = w) as Hgo by (unfold get_object; by rewrite Hw).
    apply (object_back s _ w); [auto|auto|by rewrite <- Hgo|done|done|].
    intros k old j v Ho Hwk Hv. apply (Hback s k old j v); try done. by rewrite Hgo.
  - intros k Hkn. rewrite Hl in Hkn. transitivity (@None object); [|symmetry]; apply dget_None_keys; [by rewrite Hk|done].
Qed.

Lemma plain_read name k old j : read_value (plain name) k old j = V j.
Proof. done. Qed.

(** *** Saving *)

(** The document a file holds after a save. *)
Definition saved_document (fs : filesystem) (p key : string) (j : json) : json :=
  if bool_decide (path_name p = MINDIE_MOTOR_CONFIG_FILENAME) then JObj (dset (existing_config fs p) key j) else j.
Lemma save_spec fs p key j : fs_writable fs p = true →
  ∃ fs', save_config_to_json fs p key (Some j) = (fs', Ret tt) ∧ lookup_file fs' p = Some (mkFile (Json (saved_document fs p key j)) (fs_now fs)) ∧
    fs_writable fs' = fs_writable fs.
Proof.
  intros Hw. unfold save_config_to_json, saved_document, write_file, lookup_file. rewrite Hw.
  destruct (bool_decide _); cbn; eexists; (split_and!; [done| |done]); cbn; by rewrite dget_dset_eq.
Qed.

(** Key by key: [k] is not among the literal keys of a list. *)
Lemma not_in_decide (k : string) (l : list string) : bool_decide (k ∈ l) = false → k ∉ l.
Proof. by rewrite bool_decide_eq_false. Qed.
