(* ===== verification/CtlConfig.v ===== *)
(** * The configuration of the controller

    Models [config/controller.py]: the defaults, [from_json], [validate_config], [reload],
    [to_dict] and [save_to_json].  [reconfigure_logging] installs the handlers of the
    logging section and is an argument: it may refuse the section. *)

From stdpp Require Import base option list strings.
From Stdlib Require Import ZArith Lia.
From S2P Require Import Prelude Float64 PyText ConfigUtils.
Open Scope Z_scope.

Record ControllerConfig := mkConfig { sections : objects; config_path : option string; last_modified : option Z }.

Definition ApiConfig (env : Env) : object :=
  [("controller_api_host", VStr (str_or (pod_ip env) "127.0.0.1")); ("controller_api_dns", VStr (str_or (Some (controller_service env)) "127.0.0.1"));
   ("controller_api_port", VInt 1026); ("observability_api_port", VInt 1027)]%string.
Definition ObservabilityConfig : object := [("observability_enable", VBool false); ("metrics_ttl", VInt 5)]%string.
Definition InstanceConfig : object :=
  [("instance_assemble_timeout", VInt 600); ("instance_assembler_check_interval", VInt 1); ("instance_assembler_cmd_send_interval", VInt 1);
   ("instance_manager_check_interval", VInt 1); ("instance_heartbeat_timeout", VInt 5); ("instance_expired_timeout", VInt 1200);
   ("send_cmd_retry_times", VInt 3)]%string.
Definition EventPusherConfig : object :=
  [("event_consumer_sleep_interval", V (JFloat (f_of_Z 1))); ("coordinator_heartbeat_interval", V (JFloat (f_of_Z 5)))]%string.
Definition FaultToleranceConfig : object :=
  [("enable_fault_tolerance", VBool true); ("strategy_center_check_interval", VInt 1); ("configmap_namespace", VStr "kube-system");
   ("configmap_prefix", VStr "mindx-dl-deviceinfo-"); ("k8s_cert_path", VStr ""); ("enable_scale_p2d", VBool true);
   ("enable_lingqu_network_recover", VBool true)]%string.

Definition default_sections (env : Env) : objects :=
  [("logging_config", LoggingConfig); ("api_config", ApiConfig env); ("mgmt_tls_config", TLSConfig); ("etcd_tls_config", TLSConfig);
   ("grpc_tls_config", TLSConfig); ("observability_tls_config", TLSConfig); ("instance_config", InstanceConfig);
   ("event_config", EventPusherConfig); ("fault_tolerance_config", FaultToleranceConfig); ("observability_config", ObservabilityConfig);
   ("standby_config", own_lock_key "controller" StandbyConfig); ("etcd_config", EtcdConfig)]%string.

(** The order in which [from_json] updates the sections. *)
Definition section_names : list string :=
  ["logging_config"; "api_config"; "mgmt_tls_config"; "etcd_tls_config"; "grpc_tls_config"; "observability_tls_config"; "instance_config";
   "event_config"; "fault_tolerance_config"; "standby_config"; "etcd_config"; "observability_config"]%string.
Definition section_specs : list section := map plain section_names.

Definition config_errors (c : ControllerConfig) : py (list string) :=
  let get := getf (sections c) in
  gather
    [log_level_check (get "logging_config" "log_level");
     positive (get "logging_config" "log_max_line_length") "log_max_line_length";
     port_range (get "api_config" "controller_api_port") "controller_api_port";
     positive (get "instance_config" "instance_assemble_timeout") "instance_assemble_timeout";
     positive (get "instance_config" "instance_heartbeat_timeout") "instance_heartbeat_timeout";
     positive (get "instance_config" "instance_expired_timeout") "instance_expired_timeout";
     positive (get "instance_config" "instance_assembler_check_interval") "instance_assembler_check_interval";
     positive (get "instance_config" "instance_manager_check_interval") "instance_manager_check_interval";
     not_negative (get "instance_config" "send_cmd_retry_times") "send_cmd_retry_times";
     positive (get "event_config" "event_consumer_sleep_interval") "event_consumer_sleep_interval";
     positive (get "event_config" "coordinator_heartbeat_interval") "coordinator_heartbeat_interval";
     positive (get "fault_tolerance_config" "strategy_center_check_interval") "strategy_center_check_interval";
     positive (get "standby_config" "master_standby_check_interval") "master_standby_check_interval";
     port_range (get "etcd_config" "etcd_port") "etcd_port";
     positive (get "etcd_config" "etcd_timeout") "etcd_timeout";
     port_range (get "api_config" "observability_api_port") "observability_api_port"]%string.
Definition validate_config (c : ControllerConfig) : py unit := raise_errors (config_errors c).

(** [ControllerConfig()], with [__post_init__]. *)
Definition new_config (env : Env) : py ControllerConfig :=
  let c := mkConfig (default_sections env) None None in
  _ ← validate_config c; Ret c.

Definition tls_keys : list string := ["mgmt_tls_config"; "etcd_tls_config"; "grpc_tls_config"; "observability_tls_config"]%string.

(** [asdict] without the internal fields. *)
Definition to_dict (c : ControllerConfig) : option json := JObj <$> objects_json (sections c).

(** [save_to_json]: the files after it, and what it answers. *)
Definition save_to_json (fs : filesystem) (c : ControllerConfig) (json_path : option string) : filesystem * bool :=
  let path := match json_path with Some p => if bool_decide (p = "")%string then config_path c else Some p | None => config_path c end in
  match path with
  | None => (fs, false)
  | Some p =>
      if bool_decide (p = "")%string then (fs, false)
      else let '(fs', r) := save_config_to_json fs p MOTOR_CONTROLLER (to_dict c) in (fs', is_ret r)
  end.

Section logging.
Context (reconfigure_logging : object → py unit).

Definition from_json (env : Env) (fs : filesystem) (json_path : option string) : py ControllerConfig :=
  let path := config_path_of env json_path in
  let '(cfg, _) := read_document fs path MOTOR_CONTROLLER (update_tls_config tls_keys) in
  config ← new_config env;
  secs ← update_sections cfg (sections config) section_specs;
  let config := mkConfig secs path (mtime_of fs path) in
  _ ← reconfigure_logging (get_object secs "logging_config");
  Ret config.

Definition reload (env : Env) (fs : filesystem) (c : ControllerConfig) : ControllerConfig * bool :=
  match config_path c with
  | None => (c, false)
  | Some p =>
      if bool_decide (p = "")%string then (c, false)
      else
        match lookup_file fs p with
        | None => (c, false)
        | Some f =>
            if match last_modified c with Some t => negb (t =? 0) && (f_mtime f <=? t) | None => false end then (c, true)
            else
              match from_json env fs (Some p) with
              | Raise _ => (c, false)
              | Ret new =>
                  let c' := mkConfig (sections new) (config_path new) (Some (f_mtime f)) in
                  (c', is_ret (reconfigure_logging (get_object (sections c') "logging_config")))
              end
        end
  end.
End logging.

Definition sample_env : Env := mkEnv (Some "/cfg/user.json") (Some "10.0.0.5") "ctl.svc" "coord.svc" ""%string.
Definition one_file (p : string) (j : json) (t : Z) : filesystem := mkFS [(p, mkFile (Json j) t)] (λ _, true) (t + 1).
Definition quiet (o : object) : py unit := Ret tt.

Example defaults_load : is_ret (from_json quiet sample_env (mkFS [] (λ _, true) 0) None) = true.
Proof. vm_compute. reflexivity. Qed.
(** A value no check accepts is loaded all the same. *)
Example unchecked_port :
  match from_json quiet sample_env (one_file "/cfg/user.json" (JObj [(MOTOR_CONTROLLER, JObj [("etcd_config", JObj [("etcd_port", JInt 0); ("x", JNull)])])]%string) 7) None with
  | Ret c => getf (sections c) "etcd_config" "etcd_port" = VInt 0 ∧ validate_config c = Raise ValueError ∧ last_modified c = Some 7
  | _ => False
  end.
Proof. vm_compute. done. Qed.
(** A null part is not the default: it stops the controller. *)
Example null_part :
  from_json quiet sample_env (one_file "/cfg/user.json" (JObj [(MOTOR_CONTROLLER, JNull)]) 7) None = Raise TypeError.
Proof. vm_compute. done. Qed.
(** A lock key that is written out is shared with the other components. *)
Example written_lock_key :
  match from_json quiet sample_env (one_file "/cfg/user.json" (JObj [(MOTOR_CONTROLLER, JObj [("standby_config", JObj [("master_lock_key", JStr "/master_lock")])])]%string) 7) None with
  | Ret c => getf (sections c) "standby_config" "master_lock_key" = VStr "/master_lock"
  | _ => False
  end.
Proof. vm_compute. done. Qed.

(** ** Lemmas *)

Lemma default_valid env : validate_config (mkConfig (default_sections env) None None) = Ret tt.
Proof. reflexivity. Qed.
Lemma new_config_ok env : new_config env = Ret (mkConfig (default_sections env) None None).
Proof. reflexivity. Qed.

Lemma spec_names : NoDup (map s_name section_specs).
Proof. apply (bool_decide_unpack _). vm_compute. exact I. Qed.
Lemma spec_known env s : s ∈ section_specs → s_name s ∈ dkeys (default_sections env).
Proof.
  intros Hs. unfold section_specs in Hs. apply list_elem_of_fmap in Hs as (n & -> & Hn). cbn [s_name plain].
  revert n Hn. apply Forall_forall. vm_compute.
  repeat constructor; repeat (apply elem_of_list_here || apply elem_of_list_further).
Qed.

Lemma default_wf env : dict_wf (default_sections env).
Proof. apply (bool_decide_unpack _). vm_compute. exact I. Qed.
Lemma default_object_wf env name : dict_wf (get_object (default_sections env) name).
Proof.
  unfold get_object. destruct (dget (default_sections env) name) as [o|] eqn:E; [|apply dict_wf_nil].
  apply dget_Some_in in E. apply (list_elem_of_fmap_2 snd) in E. revert E. apply Forall_forall with (P := dict_wf).
  unfold dict_wf. repeat constructor; apply (bool_decide_unpack _); vm_compute; exact I.
Qed.

(** The part of a file that is the controller's. *)
Definition controller_part (raw : json) : json :=
  match raw with JObj d => default raw (dget d MOTOR_CONTROLLER) | _ => raw end.
Lemma read_controller fs p raw t : lookup_file fs p = Some (mkFile (Json raw) t) →
  (read_document fs (Some p) MOTOR_CONTROLLER (update_tls_config tls_keys)).1 = (update_tls_config tls_keys raw (controller_part raw)).1.
Proof. intros H. unfold read_document. cbn [mbind option_bind]. rewrite H. destruct raw; try done. cbn. by destruct (dget d MOTOR_CONTROLLER). Qed.

Lemma from_json_eq rl env fs p :
  from_json rl env fs p =
    (secs ← update_sections (read_document fs (config_path_of env p) MOTOR_CONTROLLER (update_tls_config tls_keys)).1 (default_sections env) section_specs;
     _ ← rl (get_object secs "logging_config"%string);
     Ret (mkConfig secs (config_path_of env p) (mtime_of fs (config_path_of env p)))).
Proof. unfold from_json. destruct (read_document _ _ _ _) as [cfg user]. rewrite new_config_ok. reflexivity. Qed.

Lemma from_json_shape rl env fs p c : from_json rl env fs p = Ret c → same_shape (sections c) (default_sections env).
Proof.
  rewrite from_json_eq. intros H. destruct (update_sections _ _ _) as [secs|] eqn:E; cbn in H; [|done].
  destruct (rl _); cbn in H; [|done]. injection H as <-. eapply update_sections_shape; [|done].
  intros s Hs. split; [|by apply spec_known]. unfold section_specs in Hs. apply list_elem_of_fmap in Hs as (n & -> & _). apply plain_ok.
Qed.

Lemma reload_cases rl env fs c :
  (reload rl env fs c).1 = c ∨
  ((reload rl env fs c).2 = true ∧ from_json rl env fs (config_path c) = Ret (reload rl env fs c).1).
Proof.
  unfold reload. destruct (config_path c) as [p|]; [|by left]. case_bool_decide as Hp; [by left|].
  destruct (lookup_file fs p) as [f|] eqn:Ef; [|by left].
  destruct (match last_modified c with Some t => _ | None => false end); [by left|].
  destruct (from_json rl env fs (Some p)) as [new|] eqn:E; [|by left]. right. cbn [fst snd sections].
  rewrite from_json_eq, config_path_given in E by done. destruct (update_sections _ _ _) as [secs|]; cbn in E; [|done].
  destruct (rl _) as [[]|] eqn:Erl; cbn in E; [|done]. injection E as <-.
  unfold mtime_of. cbn [sections config_path mbind option_bind]. rewrite Erl, lookup_idem, Ef. done.
Qed.

(** Files read one after the other. *)
Definition reloads (rl : object → py unit) (env : Env) (c : ControllerConfig) (l : list filesystem) : ControllerConfig :=
  fold_left (λ c fs, (reload rl env fs c).1) l c.

Lemma section_names_all env n : n ∈ map s_name section_specs ↔ n ∈ dkeys (default_sections env).
Proof.
  split; revert n; apply Forall_forall; vm_compute; repeat constructor.
Qed.
Lemma spec_plain s : s ∈ section_specs → ∃ n, s = plain n.
Proof. intros Hs. unfold section_specs in Hs. apply list_elem_of_fmap in Hs as (n & -> & _). eauto. Qed.
Lemma default_savable env : fields_are savable (default_sections env).
Proof. apply fields_are_all. unfold savable. repeat constructor; cbn; by eexists. Qed.

Lemma from_json_savable rl env fs p c : from_json rl env fs p = Ret c → fields_are savable (sections c).
Proof.
  rewrite from_json_eq. intros H. destruct (update_sections _ _ _) as [secs|] eqn:E; cbn in H; [|done].
  destruct (rl _); cbn in H; [|done]. injection H as <-. eapply update_sections_keep; [|apply default_savable|exact E].
  intros s Hs. pose proof (spec_known env s Hs). apply spec_plain in Hs as [n ->].
  split_and!; [apply plain_keeps; intros; by eexists|apply plain_ok|done].
Qed.

(** What holds of a configuration a file was loaded into holds after any reloads. *)
Lemma reloads_loaded (P : ControllerConfig → Prop) rl env c l :
  (∀ fs p c, from_json rl env fs p = Ret c → P c) → P c → P (reloads rl env c l).
Proof.
  intros Hload. revert c. induction l as [|fs l IH]; intros c Hc; [done|]. cbn. apply IH.
  destruct (reload_cases rl env fs c) as [->|[_ E]]; [done|by eapply Hload].
Qed.

(** A document with the saved sections loads as the saved configuration. *)
Lemma load_saved rl env fs p c d raw t d' : p ≠ ""%string → same_shape (sections c) (default_sections env) → (∀ o, rl o = Ret tt) →
  objects_json (sections c) = Some d → lookup_file fs p = Some (mkFile (Json raw) t) → controller_part raw = JObj d' →
  (∀ k, k ∈ section_names → with_tls tls_keys raw d' k = dget d k) →
  from_json rl env fs (Some p) = Ret (mkConfig (sections c) (Some (path_str p)) (Some t)).
Proof.
  intros Hp Hs Hrl Hd Hf Hpart Htls. rewrite from_json_eq, config_path_given, (read_controller fs (path_str p) raw t) by (done || by rewrite lookup_idem).
  rewrite Hpart. destruct (update_tls_spec tls_keys raw d') as (d2 & -> & Hg & _). cbn [fst].
  rewrite (sections_back (sections c) (sections c) (default_sections env) d d2 section_specs);
    [|done|done|apply default_wf|apply default_object_wf|apply section_names_all|apply spec_names| |done| |].
  - cbn [mbind py_bind]. rewrite Hrl. cbn. unfold mtime_of. cbn. by rewrite lookup_idem, Hf.
  - intros s Hin. apply spec_plain in Hin as [n ->]. apply plain_ok.
  - intros k Hk. rewrite Hg. apply Htls. unfold section_specs in Hk. by rewrite map_map, map_id in Hk.
  - intros s k old j v Hin _ Hj Hv. apply spec_plain in Hin as [n ->]. rewrite plain_read. congruence.
Qed.

(** ** Theorems *)

(** Loading is reading, not checking: from a file whose controller part is an object of
    objects the controller always gets a configuration, whatever the values; a field has the
    value of the document, where the TLS sections of the deployment come before the
    controller's own, and the default if the document has none. *)
Theorem controller_values rl env fs p raw t d :
  p ≠ ""%string → lookup_file fs p = Some (mkFile (Json raw) t) → controller_part raw = JObj d → dict_wf d →
  (∀ name j, with_tls tls_keys raw d name = Some j → ∃ o, j = JObj o ∧ dict_wf o) → (∀ o, rl o = Ret tt) →
  ∃ c, from_json rl env fs (Some p) = Ret c ∧ config_path c = Some (path_str p) ∧ last_modified c = Some t ∧
    ∀ name field old, dget (get_object (default_sections env) name) field = Some old →
      getf (sections c) name field =
        match with_tls tls_keys raw d name with
        | Some (JObj o) => match dget o field with Some j => V j | None => old end
        | _ => old
        end.
Proof.
  intros Hp Hf Hd Hwf Hobj Hrl. rewrite from_json_eq, config_path_given, (read_controller fs (path_str p) raw t) by (done || by rewrite lookup_idem).
  rewrite Hd. destruct (update_tls_spec tls_keys raw d) as (d' & -> & Hg & Hwf'). cbn [fst].
  assert (∀ s, s ∈ section_specs → is_ret (section_result d' (default_sections env) s) = true ∧ ∀ o field old,
      section_result d' (default_sections env) s = Ret o → dget (get_object (default_sections env) (s_name s)) field = Some old →
      dget o field = Some (match with_tls tls_keys raw d (s_name s) with
        | Some (JObj o) => match dget o field with Some j => V j | None => old end | _ => old end)) as Hres.
  { intros s Hs. unfold section_specs in Hs. apply list_elem_of_fmap in Hs as (n & -> & _). unfold section_result. cbn [s_name plain]. rewrite Hg.
    destruct (with_tls tls_keys raw d n) as [j|] eqn:Ej; [|by split; [|intros o field old [= <-]]].
    destruct (Hobj n j Ej) as (o & -> & Hwo). cbn [update_config_from_dict].
    destruct (set_fields_spec (plain n) o (get_object (default_sections env) n) (plain_ok _ _) Hwo) as [[(k & _ & Hr) _]|[_ (o' & -> & _ & Hg')]];
      [by apply plain_refused in Hr|]. split; [done|]. intros o1 field old [= <-] Hold. rewrite Hg', Hold. cbn. f_equal. }
  destruct (update_sections_exists d' section_specs (default_sections env) spec_names (spec_known env)) as [secs E]; [intros s Hs; by apply Hres|].
  rewrite E. cbn [mbind py_bind]. rewrite Hrl. cbn [py_bind]. eexists. split_and!; [done|done|unfold mtime_of; cbn; by rewrite lookup_idem, Hf|].
  intros name field old Hold. cbn [sections]. destruct (update_sections_spec _ _ _ _ spec_names (spec_known env) E) as (_ & Hsec & _).
  assert (name ∈ map s_name section_specs) as Hn.
  { assert (name ∈ dkeys (default_sections env)) as Hin by (apply elem_of_dkeys; unfold get_object in Hold; destruct (dget _ name); [eauto|done]).
    clear Hold. revert name Hin. apply Forall_forall. vm_compute. repeat constructor. }
  apply list_elem_of_fmap in Hn as (s & -> & Hs). unfold getf.
  by rewrite (proj2 (Hres s Hs) _ _ _ (Hsec s Hs) Hold).
Qed.

(** Whatever the files hold and however often they change, a configuration that was loaded
    has the sections and the fields of the dataclasses, and nothing else. *)
Theorem controller_shape rl env fs p c l :
  from_json rl env fs p = Ret c → same_shape (sections (reloads rl env c l)) (default_sections env).
Proof.
  intros H. apply (reloads_loaded (λ c, same_shape (sections c) (default_sections env))); [|by eapply from_json_shape].
  intros. by eapply from_json_shape.
Qed.

(** What the controller saves it loads again: after any reloads, saving to a writable path
    succeeds, and loading that path gives the same sections, provided that a unified file there
    has no TLS sections of the deployment, which come before the saved ones. *)
Theorem controller_save_load rl env fs0 p0 c0 l fs p :
  from_json rl env fs0 p0 = Ret c0 → (∀ o, rl o = Ret tt) →
  p ≠ ""%string → fs_writable fs p = true →
  (∀ k, k ∈ tls_keys → deployed_tls (JObj (existing_config fs p)) k = None) →
  let c := reloads rl env c0 l in
  (save_to_json fs c (Some p)).2 = true ∧
  from_json rl env (save_to_json fs c (Some p)).1 (Some p) = Ret (mkConfig (sections c) (Some (path_str p)) (Some (fs_now fs))).
Proof.
  intros H0 Hrl Hp Hw Hdep c.
  assert (same_shape (sections c) (default_sections env)) as Hshape.
  { apply (reloads_loaded (λ c, same_shape (sections c) (default_sections env))); [intros|]; by eapply from_json_shape. }
  assert (is_Some (objects_json (sections c))) as [d Hd].
  { destruct (same_shape_wf _ _ Hshape (default_wf env) (default_object_wf env)) as [Hwf Hwfo]. apply objects_json_some; [done|done|].
    apply (reloads_loaded (λ c, fields_are savable (sections c))); [intros|]; by eapply from_json_savable. }
  clearbody c. unfold save_to_json. rewrite !bool_decide_false by done. unfold to_dict. rewrite Hd. cbn [fmap option_fmap option_map].
  destruct (save_spec fs p MOTOR_CONTROLLER (JObj d) Hw) as (fs' & -> & Hf & _). cbn [fst snd is_ret]. split; [done|].
  assert (∀ k, k ∉ dkeys (default_sections env) → dget d k = None) as Hno.
  { intros k Hk. rewrite (proj2 (dget_mapM object_json _ _ k Hd)), (proj2 (dget_None_keys (sections c) k)); [done|]. by rewrite (proj1 Hshape). }
  assert (dget d MOTOR_CONTROLLER = None ∧ dget d MOTOR_DEPLOY_CONFIG = None) as [Hno1 Hno2] by (split; apply Hno, not_in_decide; by vm_compute).
  unfold saved_document in Hf. destruct (bool_decide _).
  - eapply (load_saved rl env fs' p c d); [done|done|done|done|exact Hf|cbn; by rewrite dget_dset_eq|].
    intros k Hk. unfold with_tls. destruct (decide (k ∈ tls_keys)) as [Ht|]; [|done].
    assert (deployed_tls (JObj (dset (existing_config fs p) MOTOR_CONTROLLER (JObj d))) k = None) as ->; [|done].
    unfold deployed_tls, get_tls_config. rewrite dget_dset_ne by done. by apply Hdep.
  - eapply (load_saved rl env fs' p c d); [done|done|done|done|exact Hf|cbn; by rewrite Hno1|].
    intros k Hk. unfold with_tls. destruct (decide (k ∈ tls_keys)) as [Ht|]; [|done].
    unfold deployed_tls, get_tls_config. by rewrite Hno2.
Qed.

(** ** Witnesses *)

Definition witness_part : list (string * json) :=
  [("etcd_config", JObj [("etcd_port", JInt 0)]); ("mgmt_tls_config", JObj [("enable_tls", JBool false)])]%string.
Definition witness_file : json :=
  JObj [(MOTOR_CONTROLLER, JObj witness_part); (MOTOR_DEPLOY_CONFIG, JObj [("tls_config", JObj [("mgmt_tls_config", JObj [("enable_tls", JBool true)])])])]%string.

Lemma witness_sections name j : with_tls tls_keys witness_file witness_part name = Some j → ∃ o, j = JObj o ∧ dict_wf o.
Proof.
  unfold with_tls. destruct (decide (name ∈ tls_keys)) as [Hin|_].
  - revert name Hin.
    refine (proj1 (Forall_forall (λ n, match deployed_tls witness_file n with Some v => Some v | None => dget witness_part n end = Some j →
      ∃ o, j = JObj o ∧ dict_wf o) tls_keys) _).
    repeat (apply Forall_cons_2; [intros H; vm_compute in H; first [discriminate | injection H as <-; eexists; split; [reflexivity|apply (bool_decide_unpack _); by vm_compute]]|]).
    apply Forall_nil_2.
  - intros H. apply dget_Some_in, (list_elem_of_fmap_2 snd) in H. revert H. apply Forall_forall with (P := λ j, ∃ o, j = JObj o ∧ dict_wf o).
    repeat (apply Forall_cons_2; [eexists; split; [reflexivity|apply (bool_decide_unpack _); by vm_compute]|]). apply Forall_nil_2.
Qed.

Lemma controller_values_witness :
  ∃ c, from_json quiet sample_env (one_file "/cfg/user.json" witness_file 7) (Some "/cfg/user.json"%string) = Ret c ∧
    getf (sections c) "mgmt_tls_config" "enable_tls" = VBool true ∧ getf (sections c) "etcd_config" "etcd_port" = VInt 0.
Proof.
  destruct (controller_values quiet sample_env (one_file "/cfg/user.json" witness_file 7) "/cfg/user.json" witness_file 7 witness_part)
    as (c & Hc & _ & _ & Hf); [discriminate|reflexivity|reflexivity|apply (bool_decide_unpack _); vm_compute; exact I|apply witness_sections|reflexivity|].
  exists c. split; [exact Hc|]. split.
  - exact (Hf "mgmt_tls_config" "enable_tls" (VBool false) eq_refl)%string.
  - exact (Hf "etcd_config" "etcd_port" (VInt 2379) eq_refl)%string.
Defined.
