(* ===== verification/CoordConfig.v ===== *)
(** * The configuration of the coordinator

    Models [config/coordinator.py]: the defaults, [from_json] with the enrichment of the
    [aigw] model, [validate_config] with its helpers, [reload], [to_dict] and
    [save_to_json].  [reconfigure_logging] is an argument, as in [CtlConfig]. *)

From stdpp Require Import base option list strings pretty.
From Stdlib Require Import Ascii ZArith Lia.
From S2P Require Import CoordInstanceManager SchedulerServer.
From S2P Require Import Prelude Float64 PyText FloatText IpText ConfigUtils.
Open Scope Z_scope.

(** ** Enumerations *)

Definition deploy_modes : list (DeployMode * string) :=
  [(SINGLE_NODE, "single_node"); (PD_SEPARATE, "pd_separate"); (CDP_SEPARATE, "cdp_separate"); (CPCD_SEPARATE, "cpcd_separate");
   (PD_DUAL_DISPATCH, "pd_dual_dispatch"); (PD_DISAGGREGATION_SINGLE_CONTAINER, "pd_disaggregation_single_container")]%string.
Definition scheduler_types : list (SchedulerType * string) :=
  [(LOAD_BALANCE, "load_balance"); (ROUND_ROBIN, "round_robin"); (KV_CACHE_AFFINITY, "kv_cache_affinity")]%string.
Definition upper_str (s : string) : string := of_chars (map upper_char (chars s)).
(** [cls[value.upper()]]: the names are the values in capitals. *)
Definition from_string {A} (members : list (A * string)) (s : string) : option A :=
  fst <$> find (λ m, bool_decide (upper_str m.2 = upper_str s)) members.
Definition mode_value (m : DeployMode) : string :=
  match m with
  | SINGLE_NODE => "single_node" | PD_SEPARATE => "pd_separate" | CDP_SEPARATE => "cdp_separate" | CPCD_SEPARATE => "cpcd_separate"
  | PD_DUAL_DISPATCH => "pd_dual_dispatch" | PD_DISAGGREGATION_SINGLE_CONTAINER => "pd_disaggregation_single_container"
  end.
Definition type_value (t : SchedulerType) : string :=
  match t with LOAD_BALANCE => "load_balance" | ROUND_ROBIN => "round_robin" | KV_CACHE_AFFINITY => "kv_cache_affinity" end.

(** ** Defaults *)

Definition jstrs (l : list string) : json := JList (map JStr l).
Definition default_skip_paths : list string :=
  ["/"; "/startup"; "/readiness"; "/liveness"; "/metrics"; "/instances/refresh"; "/docs"; "/redoc"; "/openapi.json"; "/favicon.ico"]%string.
Definition default_rate_limit_skip_paths : list string :=
  ["/liveness"; "/readiness"; "/metrics"; "/docs"; "/redoc"; "/openapi.json"; "/favicon.ico"; "/startup"]%string.

Definition SchedulerConfig : object := [("deploy_mode", VMode PD_SEPARATE); ("scheduler_type", VType LOAD_BALANCE)]%string.
Definition PrometheusMetricsConfig : object := [("reuse_time", VInt 3)]%string.
Definition ExceptionConfig : object :=
  [("max_retry", VInt 5); ("recompute_enabled", VBool true); ("transport_max_retry", V JNull); ("recompute_max_retry", V JNull);
   ("retry_delay", V (JFloat (f_of_decimal false 2 (-1)))); ("first_token_timeout", VInt 600); ("infer_timeout", VInt 3600)]%string.
Definition TimeoutConfig : object :=
  [("request_timeout", VInt 30); ("connection_timeout", VInt 10); ("read_timeout", VInt 15); ("write_timeout", VInt 15);
   ("keep_alive_timeout", VInt 60)]%string.
Definition APIKeyConfig : object :=
  [("enable_api_key", VBool false); ("valid_keys", VSet []); ("header_name", VStr "Authorization"); ("key_prefix", VStr "Bearer ");
   ("skip_paths", VSet default_skip_paths); ("encryption_algorithm", VStr "PBKDF2_SHA256")]%string.
Definition InferenceWorkersConfig : object := [("num_workers", VInt 4); ("worker_metaserver_base_port", VInt 12000)]%string.
Definition RateLimitConfig : object :=
  [("enable_rate_limit", VBool false); ("max_requests", VInt 1000); ("window_size", VInt 60); ("scope", VStr "global");
   ("skip_paths", V (jstrs default_rate_limit_skip_paths)); ("error_message", VStr "too many requests, please try again later");
   ("error_status_code", VInt 429)]%string.
Definition ApiConfig (env : Env) : object :=
  [("coordinator_api_host", VStr (str_or (pod_ip env) "127.0.0.1")); ("coordinator_api_dns", VStr (str_or (Some (coordinator_service env)) "127.0.0.1"));
   ("coordinator_api_infer_port", VInt 1025); ("coordinator_api_mgmt_port", VInt 1026)]%string.
Definition DeployConfig : object := [("p_instances_num", VInt 1); ("d_instances_num", VInt 1)]%string.
Definition TracerConfig : object :=
  ("endpoint", VStr "")%string ::
  map (λ k, (k, V (JFloat (f_of_Z 1))))
    ["root_sampling_rate"; "remote_parent_sampled"; "remote_parent_not_sampled"; "local_parent_sampled"; "local_parent_not_sampled"]%string.
Definition PrefillKvEventConfig (env : Env) : object :=
  [("conductor_service", VStr (conductor_service env)); ("http_server_port", VInt 13333); ("block_size", VInt 128); ("endpoint", VStr "");
   ("replay_endpoint", VStr ""); ("engine_type", VStr "vLLM"); ("model_path", VStr "")]%string.

Record CoordinatorConfig := mkConfig {
  sections : objects;
  aigw_model : option (list (string * json));
  config_path : option string;
  last_modified : option Z;
  errors : list string;
  worker_index : option Z;
  worker_metaserver_port : option Z
}.

Definition default_sections (env : Env) : objects :=
  [("logging_config", LoggingConfig); ("prometheus_metrics_config", PrometheusMetricsConfig); ("exception_config", ExceptionConfig);
   ("scheduler_config", SchedulerConfig); ("inference_workers_config", InferenceWorkersConfig); ("infer_tls_config", TLSConfig);
   ("mgmt_tls_config", TLSConfig); ("etcd_tls_config", TLSConfig); ("timeout_config", TimeoutConfig); ("api_key_config", APIKeyConfig);
   ("rate_limit_config", RateLimitConfig); ("standby_config", own_lock_key "coordinator" StandbyConfig); ("etcd_config", EtcdConfig);
   ("api_config", ApiConfig env); ("deploy_config", DeployConfig); ("tracer_config", TracerConfig);
   ("prefill_kv_event_config", PrefillKvEventConfig env)]%string.

(** ** Validation *)

Definition empty_str (v : value) : bool := negb (vtruthy v) || match v with VStr _ => false | _ => true end.
Definition is_alnum (c : ascii) : bool := is_digit c || ((97 <=? code c) && (code c <=? 122)) || ((65 <=? code c) && (code c <=? 90)).
(** A label of a host name: letters, digits and inner hyphens. *)
Definition label_ok (l : list ascii) : bool :=
  match head l, last l with
  | Some a, Some b => is_alnum a && is_alnum b && forallb (λ c, is_alnum c || bool_decide (c = "-"%char)) l
  | _, _ => false
  end.
(** The pattern of a host name; its [$] also matches before a last line feed. *)
Definition hostname (s : string) : bool :=
  let l := chars s in
  let l := if bool_decide (last l = Some "010"%char) then take (pred (length l)) l else l in
  forallb label_ok (split_chars "."%char l).
Definition validate_ip_or_hostname (v : value) (name : string) : list string :=
  match v with
  | VStr s =>
      if empty_str v then [name +:+ " cannot be empty"]
      else if ip_address s || hostname s then []
      else [name +:+ " must be a valid IP address or hostname"]
  | _ => [name +:+ " cannot be empty"]
  end.
Definition validate_endpoint_path (v : value) (name : string) : list string :=
  match v with
  | VStr s =>
      if empty_str v then [name +:+ " cannot be empty"]
      else if startswith s "/" then [] else [name +:+ " must start with '/'"]
  | _ => [name +:+ " cannot be empty"]
  end.

(** [a + b] of numbers; an integer too large for a float raises. *)
Definition to_float (z : Z) : py f64 := if is_finite (f_of_Z z) then Ret (f_of_Z z) else Raise OverflowError.
Definition vadd (a b : value) : py value :=
  let num v := match v with V (JInt z) => Some (inl z) | V (JBool x) => Some (inl (Z.b2z x)) | V (JFloat f) => Some (inr f) | _ => None end in
  match num a, num b with
  | Some (inl x), Some (inl y) => Ret (VInt (x + y))
  | Some (inl x), Some (inr g) => f ← to_float x; Ret (V (JFloat (fadd f g)))
  | Some (inr f), Some (inl y) => g ← to_float y; Ret (V (JFloat (fadd f g)))
  | Some (inr f), Some (inr g) => Ret (V (JFloat (fadd f g)))
  | _, _ => Raise TypeError
  end.
Definition num_str (v : value) : string :=
  match v with V (JInt z) => pretty z | V (JBool b) => if b then "True" else "False" | V (JFloat f) => float_str f | _ => "" end.

(** The last port of the worker metaservers. *)
Definition last_port_check (num base : value) : py (list string) :=
  many ← vgt num 1;
  if many : bool then
    enabled ← vgt base 0;
    if enabled : bool then
      sum ← vadd base num;
      last_port ← vadd sum (VInt (-1));
      too_far ← vgt last_port 65535;
      Ret (if too_far : bool
           then ["worker_metaserver_base_port(" +:+ num_str base +:+ ") + num_workers(" +:+ num_str num +:+ ") - 1 = " +:+
                 num_str last_port +:+ " exceeds max port 65535"]
           else [])
    else Ret []
  else Ret [].
Definition not_zero (v : value) : bool := negb match v with V j => match j with JInt z => z =? 0 | JBool b => negb b | JFloat f => fle f f0 && fle f0 f | _ => false end | _ => false end.
Definition optional (check : value → string → py (list string)) (v : value) (name : string) : py (list string) :=
  match v with V JNull => Ret [] | _ => check v name end.

Definition config_errors (c : CoordinatorConfig) : py (list string) :=
  let get := getf (sections c) in
  let num := get "inference_workers_config" "num_workers" in
  let base := get "inference_workers_config" "worker_metaserver_base_port" in
  gather
    [log_level_check (get "logging_config" "log_level");
     positive (get "logging_config" "log_max_line_length") "log_max_line_length";
     positive (get "timeout_config" "request_timeout") "request_timeout";
     positive (get "timeout_config" "connection_timeout") "connection_timeout";
     positive (get "timeout_config" "read_timeout") "read_timeout";
     positive (get "timeout_config" "write_timeout") "write_timeout";
     positive (get "timeout_config" "keep_alive_timeout") "keep_alive_timeout";
     not_negative (get "exception_config" "max_retry") "max_retry";
     optional not_negative (get "exception_config" "transport_max_retry") "transport_max_retry";
     optional not_negative (get "exception_config" "recompute_max_retry") "recompute_max_retry";
     positive (get "exception_config" "retry_delay") "retry_delay";
     positive (get "exception_config" "first_token_timeout") "first_token_timeout";
     positive (get "exception_config" "infer_timeout") "infer_timeout";
     positive (get "tracer_config" "root_sampling_rate") "root_sampling_rate";
     positive (get "tracer_config" "remote_parent_sampled") "remote_parent_sampled";
     positive (get "tracer_config" "remote_parent_not_sampled") "remote_parent_not_sampled";
     positive (get "tracer_config" "local_parent_sampled") "local_parent_sampled";
     positive (get "tracer_config" "local_parent_not_sampled") "local_parent_not_sampled";
     port_range (get "api_config" "coordinator_api_infer_port") "coordinator_api_infer_port";
     port_range (get "api_config" "coordinator_api_mgmt_port") "coordinator_api_mgmt_port";
     (if not_zero base then port_range base "worker_metaserver_base_port" else Ret []);
     positive num "num_workers";
     last_port_check num base;
     Ret (validate_ip_or_hostname (get "api_config" "coordinator_api_host") "coordinator_api_host");
     positive (get "rate_limit_config" "max_requests") "max_requests";
     positive (get "rate_limit_config" "window_size") "window_size";
     error_if (out_of_range (get "rate_limit_config" "error_status_code") 100 599) "error_status_code must be in range 100-599";
     positive (get "prometheus_metrics_config" "reuse_time") "reuse_time";
     positive (get "standby_config" "master_standby_check_interval") "master_standby_check_interval";
     positive (get "standby_config" "master_lock_ttl") "master_lock_ttl";
     positive (get "standby_config" "master_lock_retry_interval") "master_lock_retry_interval";
     not_negative (get "standby_config" "master_lock_max_failures") "master_lock_max_failures";
     Ret (validate_endpoint_path (get "standby_config" "master_lock_key") "master_lock_key");
     port_range (get "etcd_config" "etcd_port") "etcd_port";
     positive (get "etcd_config" "etcd_timeout") "etcd_timeout";
     Ret (validate_ip_or_hostname (get "etcd_config" "etcd_host") "etcd_host");
     Ret (if vtruthy (get "api_key_config" "enable_api_key")
          then List.concat
            [if vtruthy (get "api_key_config" "valid_keys") then [] else ["valid_keys cannot be empty when api_key authentication is enabled"];
             if vtruthy (get "api_key_config" "header_name") then [] else ["header_name cannot be empty when api_key authentication is enabled"];
             if vtruthy (get "api_key_config" "key_prefix") then [] else ["key_prefix cannot be empty when api_key authentication is enabled"]]
          else [])]%string.
Definition validate_config (c : CoordinatorConfig) : py unit := raise_errors (config_errors c).

Definition default_config (env : Env) : CoordinatorConfig := mkConfig (default_sections env) None None None [] None None.
(** [CoordinatorConfig()], with [__post_init__]. *)
Definition new_config (env : Env) : py CoordinatorConfig := _ ← validate_config (default_config env); Ret (default_config env).

(** ** Loading *)

Definition AIGW : string := "aigw".
(** [cfg["aigw"][key] = v]. *)
Definition set_aigw (key : string) (v : json) : M json unit := λ cfg,
  match jsub cfg AIGW with
  | Ret a => let '(a', r) := set_item key v a in (match cfg with JObj d => JObj (dset d AIGW a') | _ => cfg end, r)
  | Raise e => (cfg, Raise e)
  end.
(** [cfg["aigw"].setdefault(key, v)]. *)
Definition setdefault_aigw (key : string) (v : json) : M json unit :=
  cfg ← mget;
  a ← mlift (jsub cfg AIGW);
  match a with JObj d => if dhas d key then mret tt else set_aigw key v | _ => mraise AttributeError end.
Definition enrich_aigw (user : json) : M json unit :=
  mtry
    (prefill ← mlift (jsub user MOTOR_ENGINE_PREFILL);
     decode ← mlift (jsub user MOTOR_ENGINE_DECODE);
     id ← mlift (jsubs prefill ["model_config"; "model_name"]%string);
     set_aigw "id" id ;;
     set_aigw "object" (JStr "model") ;;
     set_aigw "owned_by" (JStr "motor") ;;
     p ← mlift (jsubs prefill ["engine_config"; "max_model_len"]%string);
     set_aigw "p_max_seqlen" p ;;
     d ← mlift (jsubs decode ["engine_config"; "max_model_len"]%string);
     set_aigw "d_max_seqlen" d ;;
     setdefault_aigw "slo_ttft" (JInt 1000) ;;
     setdefault_aigw "slo_tpot" (JInt 50))
    (λ _, mret tt).

(** [dict(v)] of a dictionary; a list of pairs, which [dict] takes too, is refused here. *)
Definition as_dict (v : json) : py (list (string * json)) :=
  match v with JObj d => Ret d | JList [] => Ret [] | JStr s => if bool_decide (s = "")%string then Ret [] else Raise ValueError | _ => Raise TypeError end.

Definition enum_handler {A} (members : list (A * string)) (make : A → value) (j : json) : option value :=
  match j with JStr s => make <$> from_string members s | _ => None end.
Definition scheduler_section : section :=
  mkSection "scheduler_config" [("deploy_mode", enum_handler deploy_modes VMode); ("scheduler_type", enum_handler scheduler_types VType)]%string [].
Definition exception_section : section := mkSection "exception_config" [] ["transport_retry_limit"; "recompute_retry_limit"]%string.
(** [config_mappings]. *)
Definition section_specs : list section :=
  [plain "logging_config"; plain "prometheus_metrics_config"; exception_section; scheduler_section; plain "inference_workers_config";
   plain "timeout_config"; plain "api_key_config"; plain "rate_limit_config"; plain "standby_config"; plain "etcd_config";
   plain "infer_tls_config"; plain "mgmt_tls_config"; plain "etcd_tls_config"; plain "api_config"; plain "deploy_config";
   plain "tracer_config"; plain "prefill_kv_event_config"]%string.

Definition tls_keys : list string := ["mgmt_tls_config"; "infer_tls_config"; "etcd_tls_config"]%string.
Definition update_document (raw : json) : M json unit :=
  update_tls_config tls_keys raw ;; update_instances_num raw ;; update_prefill_kv_event_config raw.

(** ** Saving *)

Definition plain_value (v : value) : value :=
  match v with VMode m => VStr (mode_value m) | VType t => VStr (type_value t) | VSet l => V (jstrs l) | V j => V j end.
(** The fields that are no values of a document. *)
Definition converted : list (string * list string) :=
  [("scheduler_config", ["deploy_mode"; "scheduler_type"]); ("api_key_config", ["valid_keys"; "skip_paths"])]%string.
Definition convert (secs : objects) : objects :=
  map (λ '(name, o), (name, match dget converted name with
                            | Some keys => map (λ '(k, v), (k, if bool_decide (k ∈ keys) then plain_value v else v)) o
                            | None => o end)) secs.
Definition opt_int (z : option Z) : json := match z with Some z => JInt z | None => JNull end.
Definition to_dict (c : CoordinatorConfig) : option json :=
  d ← objects_json (convert (sections c));
  Some (JObj (take 13 d ++ [("aigw_model", match aigw_model c with Some d => JObj d | None => JNull end)]%string ++ drop 13 d ++
              [("_errors", jstrs (errors c)); ("worker_index", opt_int (worker_index c)); ("worker_metaserver_port", opt_int (worker_metaserver_port c))]%string)).
Definition save_to_json (fs : filesystem) (c : CoordinatorConfig) (json_path : option string) : filesystem * bool :=
  let path := match json_path with Some p => if bool_decide (p = "")%string then config_path c else Some p | None => config_path c end in
  match path with
  | None => (fs, false)
  | Some p =>
      if bool_decide (p = "")%string then (fs, false)
      else let '(fs', r) := save_config_to_json fs p MOTOR_COORDINATOR (to_dict c) in (fs', is_ret r)
  end.

Section logging.
Context (reconfigure_logging : object → py unit).

Definition from_json (env : Env) (fs : filesystem) (json_path : option string) : py CoordinatorConfig :=
  let path := config_path_of env json_path in
  let '(cfg, user) := read_document fs path MOTOR_COORDINATOR update_document in
  config ← new_config env;
  cfg ← match user with
        | None => Ret cfg
        | Some user => present ← json_in AIGW cfg; Ret (if present : bool then (enrich_aigw user cfg).1 else cfg)
        end;
  secs ← update_sections cfg (sections config) section_specs;
  present ← json_in AIGW cfg;
  aigw ← (if present : bool then a ← jsub cfg AIGW; d ← as_dict a; Ret (Some d) else Ret (aigw_model config));
  let config := mkConfig secs aigw path (mtime_of fs path) [] None None in
  _ ← validate_config config;
  _ ← reconfigure_logging (get_object secs "logging_config");
  Ret config.

(** The runtime fields of the process stay. *)
Definition reload (env : Env) (fs : filesystem) (c : CoordinatorConfig) : CoordinatorConfig * bool :=
  match config_path c with
  | None => (c, false)
  | Some p =>
      if bool_decide (p = "")%string then (c, false)
      else
        match lookup_file fs p with
        | None => (c, false)
        | Some f =>
            if match last_modified c with Some t => negb (t =? 0) && (f_mtime f <=? t) | None => false end then (c, true)
            else
              match from_json env fs (Some p) with
              | Raise _ => (c, false)
              | Ret new =>
                  let c' := mkConfig (sections new) (aigw_model new) (config_path new) (Some (f_mtime f)) (errors c)
                              (worker_index c) (worker_metaserver_port c) in
                  (c', is_ret (reconfigure_logging (get_object (sections c') "logging_config")))
              end
        end
  end.
End logging.

(** Files read one after the other. *)
Definition reloads (rl : object → py unit) (env : Env) (c : CoordinatorConfig) (l : list filesystem) : CoordinatorConfig :=
  fold_left (λ c fs, (reload rl env fs c).1) l c.

(** ** Lemmas *)

Lemma upper_value_mode m : from_string deploy_modes (mode_value m) = Some m.
Proof. by destruct m. Qed.
Lemma upper_value_type t : from_string scheduler_types (type_value t) = Some t.
Proof. by destruct t. Qed.

Definition sample_env : Env := mkEnv (Some "/cfg/user.json") (Some "10.0.0.5") "ctl.svc" "coord.svc" ""%string.
Definition one_file (p : string) (j : json) (t : Z) : filesystem := mkFS [(p, mkFile (Json j) t)] (λ _, true) (t + 1).
Definition quiet (o : object) : py unit := Ret tt.

Example hosts :
  map (λ s, validate_ip_or_hostname (VStr s) "h") ["10.0.0.1"; "::1"; "etcd.default.svc.cluster.local"; "a-b.c"; "10.0.0.999"]%string = replicate 5 [] ∧
  Forall (λ s, validate_ip_or_hostname (VStr s) "h" ≠ []) [""; "-a"; "a-"; "a..b"; "a_b"; "1::2::3"]%string.
Proof. split; [reflexivity|repeat constructor; vm_compute; discriminate]. Qed.

Definition sample_coordinator : json :=
  JObj [("scheduler_config", JObj [("deploy_mode", JStr "cdp_Separate"); ("scheduler_type", JStr "unknown")]);
        ("exception_config", JObj [("max_retry", JInt 0)]); ("aigw", JObj [("slo_ttft", JInt 5)])]%string.
Definition sample_engine (model : string) (len : Z) : json :=
  JObj [("model_config", JObj [("model_name", JStr model)]); ("engine_config", JObj [("max_model_len", JInt len)])]%string.
Definition sample_user : json :=
  JObj [(MOTOR_COORDINATOR, sample_coordinator); (MOTOR_ENGINE_PREFILL, sample_engine "qwen" 4096); (MOTOR_ENGINE_DECODE, sample_engine "qwen" 8192);
        (MOTOR_DEPLOY_CONFIG, JObj [("p_instances_num", JInt 2); ("tls_config", JObj [("mgmt_tls_config", JObj [("enable_tls", JBool true)])])])]%string.
Example sample_loads :
  match from_json quiet sample_env (one_file "/cfg/user.json" sample_user 7) None with
  | Ret c =>
      getf (sections c) "scheduler_config" "deploy_mode" = VMode CDP_SEPARATE ∧ getf (sections c) "scheduler_config" "scheduler_type" = VType LOAD_BALANCE ∧
      getf (sections c) "deploy_config" "p_instances_num" = VInt 2 ∧ getf (sections c) "mgmt_tls_config" "enable_tls" = VBool true ∧
      (dget (default [] (aigw_model c)) "d_max_seqlen" = Some (JInt 8192) ∧ dget (default [] (aigw_model c)) "slo_ttft" = Some (JInt 5) ∧
       dget (default [] (aigw_model c)) "slo_tpot" = Some (JInt 50)) ∧ validate_config c = Ret tt
  | _ => False
  end%string.
Proof. vm_compute. done. Qed.
(** What no check accepts is refused, and so is a property. *)
Example refused_port :
  from_json quiet sample_env (one_file "/cfg/user.json" (JObj [("etcd_config", JObj [("etcd_port", JInt 0)])])%string 7) None = Raise ValueError ∧
  from_json quiet sample_env (one_file "/cfg/user.json" (JObj [("exception_config", JObj [("transport_retry_limit", JInt 1)])])%string 7) None = Raise AttributeError.
Proof. vm_compute. done. Qed.

(** *** The defaults *)

Lemma coord_spec_names : NoDup (map s_name section_specs).
Proof. apply (bool_decide_unpack _). vm_compute. exact I. Qed.
Lemma coord_section_names_all env n : n ∈ map s_name section_specs ↔ n ∈ dkeys (default_sections env).
Proof. split; revert n; apply Forall_forall; vm_compute; repeat constructor. Qed.
Lemma coord_spec_known env s : s ∈ section_specs → s_name s ∈ dkeys (default_sections env).
Proof. intros Hs. apply coord_section_names_all. by apply list_elem_of_fmap_2. Qed.
Lemma coord_default_wf env : dict_wf (default_sections env).
Proof. apply (bool_decide_unpack _). vm_compute. exact I. Qed.
Lemma coord_default_object_wf env name : dict_wf (get_object (default_sections env) name).
Proof.
  unfold get_object. destruct (dget (default_sections env) name) as [o|] eqn:E; [|apply dict_wf_nil].
  apply dget_Some_in in E. apply (list_elem_of_fmap_2 snd) in E. revert E. apply Forall_forall with (P := dict_wf).
  unfold dict_wf. repeat constructor; apply (bool_decide_unpack _); vm_compute; exact I.
Qed.
(** Every section but two takes what the document says. *)
Lemma spec_cases s : s ∈ section_specs →
  s = scheduler_section ∨ s_name s ≠ "scheduler_config"%string ∧ s_handlers s = [].
Proof.
  revert s. apply Forall_forall. unfold section_specs. repeat (apply Forall_cons; split); try apply Forall_nil_2;
    solve [by left | right; split; [cbn; discriminate|reflexivity]].
Qed.
Lemma spec_ok env s : s ∈ section_specs → section_ok s (get_object (default_sections env) (s_name s)).
Proof.
  intros Hs. destruct (spec_cases s Hs) as [->|[_ Hh]].
  - intros k Hk. apply dhas_true, elem_of_dkeys in Hk. revert k Hk. apply Forall_forall. repeat constructor.
  - intros k Hk. by rewrite Hh in Hk.
Qed.

(** *** The type of a field *)

(** The scheduler's fields hold members of their enumerations, the two sets of the API keys
    a set or what a document says, every other field what a document can say. *)
Definition typed (name k : string) (v : value) : Prop :=
  match v with
  | V _ => name ≠ "scheduler_config"
  | VMode _ => name = "scheduler_config" ∧ k = "deploy_mode"
  | VType _ => name = "scheduler_config" ∧ k = "scheduler_type"
  | VSet _ => name = "api_key_config" ∧ (k = "valid_keys" ∨ k = "skip_paths")
  end%string.

Lemma default_typed env : fields_are typed (default_sections env).
Proof.
  apply fields_are_all. vm_compute. repeat first [apply Forall_nil_2 | apply Forall_cons_2];
    first [discriminate | split; first [reflexivity | by left | by right]].
Qed.

Lemma spec_keeps_typed s : s ∈ section_specs → section_keeps typed s.
Proof.
  intros Hs k old j Hold. destruct (spec_cases s Hs) as [->|[Hn Hh]]; [|unfold read_value; by rewrite Hh].
  unfold read_value. cbn [s_handlers scheduler_section dget]. cbn [s_name scheduler_section] in *.
  repeat case_decide; subst; cbn.
  - unfold enum_handler. destruct j as [| | | |str| |]; try exact Hold. destruct (from_string deploy_modes str); [by split|exact Hold].
  - unfold enum_handler. destruct j as [| | | |str| |]; try exact Hold. destruct (from_string scheduler_types str); [by split|exact Hold].
  - destruct old; cbn in *; naive_solver.
Qed.

(** *** Loading *)

(** What a successful load went through. *)
Lemma from_json_inv rl env fs p c : from_json rl env fs p = Ret c →
  (∃ cfg, update_sections cfg (default_sections env) section_specs = Ret (sections c)) ∧ new_config env = Ret (default_config env) ∧
  validate_config c = Ret tt ∧ rl (get_object (sections c) "logging_config"%string) = Ret tt ∧
  c = mkConfig (sections c) (aigw_model c) (config_path_of env p) (mtime_of fs (config_path_of env p)) [] None None.
Proof.
  unfold from_json, new_config. destruct (read_document _ _ _ _) as [cfg user].
  destruct (validate_config (default_config env)) as [[]|]; cbn [mbind py_bind]; [|done].
  destruct (match user with None => _ | Some u => _ end) as [cfg'|]; cbn [mbind py_bind]; [|done].
  destruct (update_sections _ _ _) as [secs|] eqn:E; cbn [mbind py_bind]; [|done].
  destruct (json_in AIGW cfg') as [present|]; cbn [mbind py_bind]; [|done].
  destruct (if present : bool then _ else _) as [aigw|]; cbn [mbind py_bind]; [|done].
  destruct (validate_config _) as [[]|] eqn:Ev; cbn [mbind py_bind]; [|done].
  destruct (rl _) as [[]|] eqn:Er; cbn [mbind py_bind]; [|done]. intros [= <-]. split_and!; [by exists cfg'|done|done|done|done].
Qed.

(** The file is not newer than the configuration. *)
Definition not_modified (fs : filesystem) (c : CoordinatorConfig) : Prop :=
  ∃ p f t, config_path c = Some p ∧ lookup_file fs p = Some f ∧ last_modified c = Some t ∧ t ≠ 0 ∧ f_mtime f <= t.

Lemma coord_reload_cases rl env fs c :
  (reload rl env fs c).1 = c ∧ ((reload rl env fs c).2 = true → not_modified fs c) ∨
  ∃ new, (reload rl env fs c).2 = true ∧ from_json rl env fs (config_path c) = Ret new ∧
    (reload rl env fs c).1 = mkConfig (sections new) (aigw_model new) (config_path new) (last_modified new) (errors c) (worker_index c) (worker_metaserver_port c).
Proof.
  unfold reload, not_modified. destruct (config_path c) as [p|]; [|by left]. case_bool_decide as Hp; [by left|].
  destruct (lookup_file fs p) as [f|] eqn:Ef; [|by left].
  destruct (match last_modified c with Some t => _ | None => false end) eqn:Em.
  { left. split; [done|]. intros _. destruct (last_modified c) as [t|]; [|done]. exists p, f, t. split_and!; [done|done|done|lia|lia]. }
  destruct (from_json rl env fs (Some p)) as [new|] eqn:E; [|by left]. right. exists new. cbn [fst snd sections].
  pose proof (from_json_inv _ _ _ _ _ E) as (_ & _ & _ & -> & Hnew). split_and!; [done|done|]. rewrite Hnew. cbn [sections aigw_model config_path last_modified].
  unfold mtime_of. rewrite config_path_given by done. cbn. by rewrite lookup_idem, Ef.
Qed.

Lemma from_json_good rl env fs p c : from_json rl env fs p = Ret c →
  validate_config c = Ret tt ∧ same_shape (sections c) (default_sections env) ∧ fields_are typed (sections c).
Proof.
  intros H. apply from_json_inv in H as ((cfg & E) & _ & Hv & _). split_and!; [done| |].
  - eapply update_sections_shape; [|done]. intros s Hs. split; [by apply spec_ok|by apply coord_spec_known].
  - eapply update_sections_keep; [|apply default_typed|exact E].
    intros s Hs. split_and!; [by apply spec_keeps_typed|by apply spec_ok|by apply coord_spec_known].
Qed.

Definition good (env : Env) (c : CoordinatorConfig) : Prop :=
  validate_config c = Ret tt ∧ same_shape (sections c) (default_sections env) ∧ fields_are typed (sections c).
Lemma reloads_good rl env c l : good env c → good env (reloads rl env c l).
Proof.
  revert c. induction l as [|fs l IH]; intros c Hc; [done|]. cbn. apply IH.
  destruct (coord_reload_cases rl env fs c) as [[-> _]|(new & _ & E & ->)]; [done|]. exact (from_json_good _ _ _ _ _ E).
Qed.

(** *** What the checks accept *)

Lemma accepted c : validate_config c = Ret tt →
  let base := getf (sections c) "inference_workers_config" "worker_metaserver_base_port" in
  (if not_zero base then port_range base "worker_metaserver_base_port" else Ret []) = Ret [] ∧
  last_port_check (getf (sections c) "inference_workers_config" "num_workers") base = Ret [].
Proof.
  intros Hv. apply raise_errors_ok in Hv. unfold config_errors in Hv. apply gather_nil in Hv. cbv zeta in Hv.
  repeat (apply Forall_cons in Hv as [? Hv]). by split.
Qed.

(** *** Saving *)

(** What a saved value is read as: a set comes back as a list. *)
Definition read_back (v : value) : value := match v with VSet l => V (jstrs l) | _ => v end.
Definition map_fields (f : string → string → value → value) (secs : objects) : objects :=
  map (λ so, (so.1, map (λ kv, (kv.1, f so.1 kv.1 kv.2)) so.2)) secs.

Lemma get_object_map f secs name : get_object (map_fields f secs) name = map (λ kv, (kv.1, f name kv.1 kv.2)) (get_object secs name).
Proof.
  unfold get_object, map_fields. induction secs as [|[n o] secs IH]; [done|]. cbn. by destruct (decide (name = n)) as [->|].
Qed.
Lemma dget_map (f : string → value → value) (o : object) k : dget (map (λ kv, (kv.1, f kv.1 kv.2)) o) k = f k <$> dget o k.
Proof. induction o as [|[k' v] o IH]; [done|]. cbn. by destruct (decide (k = k')) as [->|]. Qed.
Lemma dget_map_fields f secs name k : dget (get_object (map_fields f secs) name) k = f name k <$> dget (get_object secs name) k.
Proof. rewrite get_object_map. apply (dget_map (f name)). Qed.
Lemma dkeys_map {A B} (f : string * A → B) (d : list (string * A)) : dkeys (map (λ kv, (kv.1, f kv)) d) = dkeys d.
Proof. induction d as [|[k v] d IH]; [done|]. unfold dkeys in *. cbn. by f_equal. Qed.
Lemma map_fields_shape f secs : same_shape (map_fields f secs) secs.
Proof. split; [apply dkeys_map|]. intros name. rewrite get_object_map. apply (dkeys_map (λ kv, f name kv.1 kv.2)). Qed.
Lemma convert_map secs :
  convert secs = map_fields (λ name k v, if bool_decide (k ∈ default [] (dget converted name)) then plain_value v else v) secs.
Proof.
  unfold convert, map_fields. apply map_ext. intros [name o]. cbn [fst snd]. f_equal. destruct (dget converted name) as [keys|]; cbn.
  - apply map_ext. by intros [k v].
  - rewrite (map_ext _ id); [by rewrite map_id|]. intros [k v]. by rewrite bool_decide_false by apply not_elem_of_nil.
Qed.

Definition saved_sections (secs : objects) : objects := map_fields (λ _ _, read_back) secs.

Lemma getf_saved secs sec name : getf (saved_sections secs) sec name = read_back (getf secs sec name).
Proof. unfold getf, saved_sections. rewrite dget_map_fields. by destruct (dget _ name). Qed.
Lemma vcmp_read_back f g v z : vcmp f g (read_back v) z = vcmp f g v z.
Proof. by destruct v. Qed.
Lemma checks_read_back v :
  (log_level_check (read_back v) = log_level_check v) ∧ (∀ n, positive (read_back v) n = positive v n) ∧
  (∀ n, not_negative (read_back v) n = not_negative v n) ∧ (∀ lo hi, out_of_range (read_back v) lo hi = out_of_range v lo hi) ∧
  (∀ n, validate_ip_or_hostname (read_back v) n = validate_ip_or_hostname v n) ∧
  (∀ n, validate_endpoint_path (read_back v) n = validate_endpoint_path v n) ∧ vtruthy (read_back v) = vtruthy v ∧ not_zero (read_back v) = not_zero v.
Proof. destruct v as [j|l|m|t]; split_and!; try done; by destruct l. Qed.
Lemma optional_read_back v n : optional not_negative (read_back v) n = optional not_negative v n.
Proof. by destruct v. Qed.
Lemma port_range_read_back v n : port_range (read_back v) n = port_range v n.
Proof. by destruct v. Qed.
Lemma last_port_read_back a b : last_port_check (read_back a) (read_back b) = last_port_check a b.
Proof. unfold last_port_check, vgt. rewrite !vcmp_read_back. by destruct a, b. Qed.

Lemma config_errors_saved c c' : sections c' = saved_sections (sections c) → config_errors c' = config_errors c.
Proof.
  intros E. unfold config_errors. rewrite E. cbv zeta. rewrite !getf_saved, last_port_read_back, !port_range_read_back, !optional_read_back.
  repeat match goal with
  | |- context [log_level_check (read_back ?v)] => rewrite (proj1 (checks_read_back v))
  | |- context [positive (read_back ?v) ?n] => rewrite (proj1 (proj2 (checks_read_back v)) n)
  | |- context [not_negative (read_back ?v) ?n] => rewrite (proj1 (proj2 (proj2 (checks_read_back v))) n)
  | |- context [out_of_range (read_back ?v) ?a ?b] => rewrite (proj1 (proj2 (proj2 (proj2 (checks_read_back v)))) a b)
  | |- context [validate_ip_or_hostname (read_back ?v) ?n] => rewrite (proj1 (proj2 (proj2 (proj2 (proj2 (checks_read_back v))))) n)
  | |- context [validate_endpoint_path (read_back ?v) ?n] => rewrite (proj1 (proj2 (proj2 (proj2 (proj2 (proj2 (checks_read_back v)))))) n)
  | |- context [vtruthy (read_back ?v)] => rewrite (proj1 (proj2 (proj2 (proj2 (proj2 (proj2 (proj2 (checks_read_back v))))))))
  | |- context [not_zero (read_back ?v)] => rewrite (proj2 (proj2 (proj2 (proj2 (proj2 (proj2 (proj2 (checks_read_back v))))))))
  end. reflexivity.
Qed.

(** A section reads back what [convert] makes of its fields. *)
Lemma converted_read name k old v j s : s ∈ section_specs → s_name s = name → typed name k v →
  (if bool_decide (k ∈ default [] (dget converted name)) then plain_value v else v) = V j → read_value s k old j = read_back v.
Proof.
  intros Hs <- Ht Hj. destruct (spec_cases s Hs) as [->|[Hn Hh]].
  - destruct v as [j'|l|m|t]; cbn in Ht; [done|by destruct Ht|destruct Ht as [_ ->]; injection Hj as <-; by destruct m|].
    destruct Ht as [_ ->]. injection Hj as <-. by destruct t.
  - unfold read_value. rewrite Hh. cbn. destruct v as [j'|l|m|t]; cbn in Ht.
    + destruct (bool_decide _); cbn in Hj; by injection Hj as <-.
    + destruct Ht as [E Hk]. rewrite E in Hj. destruct Hk as [-> | ->]; by injection Hj as <-.
    + by destruct Ht.
    + by destruct Ht.
Qed.
Lemma convert_savable secs : fields_are typed secs → fields_are savable (convert secs).
Proof.
  intros Ht name k v Hv. rewrite convert_map, dget_map_fields in Hv.
  destruct (dget (get_object secs name) k) as [w|] eqn:Ew; [|done]. injection Hv as <-. apply Ht in Ew. unfold savable.
  destruct w as [j|l|m|t]; cbn in Ew; [by destruct (bool_decide _); eexists| | |]; destruct Ew as [-> Hk]; try destruct Hk as [-> | ->]; subst; by eexists.
Qed.

Lemma dget_app {A} (a b : list (string * A)) k : dget (a ++ b) k = match dget a k with Some v => Some v | None => dget b k end.
Proof. induction a as [|[k' v] a IH]; [done|]. cbn. by destruct (decide (k = k')). Qed.

(** The keys of a saved document that are no sections. *)
Definition extra_keys : list string := ["aigw_model"; "_errors"; "worker_index"; "worker_metaserver_port"]%string.
Lemma to_dict_lookup c d : objects_json (convert (sections c)) = Some d →
  ∃ d', to_dict c = Some (JObj d') ∧ ∀ k, k ∉ extra_keys → dget d' k = dget d k.
Proof.
  intros Hd. unfold to_dict. rewrite Hd. cbn [mbind option_bind]. eexists. split; [done|]. intros k Hk.
  unfold extra_keys in Hk. rewrite !not_elem_of_cons in Hk. destruct Hk as (H1 & H2 & H3 & H4 & _).
  rewrite <- (take_drop 13 d) at 3. rewrite !dget_app. cbn [dget]. rewrite !decide_False by done.
  destruct (dget (take 13 d) k); [done|]. by destruct (dget (drop 13 d) k).
Qed.

(** A file without deployment and engine parts adds nothing to the document. *)
Lemma update_document_idle r cfg : dget r MOTOR_DEPLOY_CONFIG = None → dget r MOTOR_ENGINE_PREFILL = None →
  (update_document (JObj r) cfg).1 = cfg.
Proof.
  intros H1 H2. unfold update_document, update_tls_config, get_tls_config, update_instances_num, update_prefill_kv_event_config.
  rewrite H1. unfold jsubs. cbn. by rewrite H2.
Qed.

(** A document with the saved sections and no [aigw] loads as the saved configuration. *)
Lemma coord_load_saved rl env fs p c d raw t d' user : p ≠ ""%string → new_config env = Ret (default_config env) → good env c → (∀ o, rl o = Ret tt) →
  objects_json (convert (sections c)) = Some d → lookup_file fs p = Some (mkFile (Json raw) t) →
  read_document fs (Some (path_str p)) MOTOR_COORDINATOR update_document = (JObj d', user) →
  dget d' AIGW = None → (∀ k, k ∈ map s_name section_specs → dget d' k = dget d k) →
  from_json rl env fs (Some p) = Ret (mkConfig (saved_sections (sections c)) None (Some (path_str p)) (Some t) [] None None).
Proof.
  intros Hp Hnew (Hv & Hs & Ht) Hrl Hd Hf Hread Haigw Hkeys. unfold from_json. rewrite config_path_given by done. rewrite Hread, Hnew.
  assert (json_in AIGW (JObj d') = Ret false) as Hin by (cbn; f_equal; by apply dhas_false).
  assert (update_sections (JObj d') (default_sections env) section_specs = Ret (saved_sections (sections c))) as Hsec.
  { apply (sections_back _ (convert (sections c)) _ d); [|rewrite convert_map| | | | | |done|done|];
      [etransitivity; [apply map_fields_shape|done]|etransitivity; [apply map_fields_shape|done]|apply coord_default_wf|apply coord_default_object_wf
      |apply coord_section_names_all|apply coord_spec_names|apply spec_ok|].
    intros s k old j v Hsp _ Hj Hvk. rewrite convert_map, dget_map_fields in Hj. unfold saved_sections in Hvk. rewrite dget_map_fields in Hvk.
    destruct (dget (get_object (sections c) (s_name s)) k) as [w|] eqn:Ew; [|done]. injection Hj as Hj. injection Hvk as <-.
    eapply converted_read; [done|done|by apply Ht|done]. }
  unfold validate_config in Hv. cbn [mbind py_bind].
  destruct user as [user|]; rewrite ?Hin; cbn [mbind py_bind]; change (sections (default_config env)) with (default_sections env);
    rewrite Hsec; cbn [mbind py_bind]; rewrite Hin; cbn [mbind py_bind]; unfold validate_config; rewrite (config_errors_saved c), Hv by done;
    cbn [mbind py_bind]; rewrite Hrl; cbn; unfold mtime_of; cbn; by rewrite lookup_idem, Hf.
Qed.

(** ** Theorems *)

(** C14: A configuration of the coordinator is checked whenever it changes: after it was loaded
    and after any reloads, whatever the files hold, it passes the validation, has the sections
    and fields of the dataclasses with members of the enumerations in the scheduler's, and the
    runtime fields of the process are what they were. *)
Theorem coordinator_stays_valid rl env fs p c l :
  from_json rl env fs p = Ret c →
  good env (reloads rl env c l) ∧
  worker_index (reloads rl env c l) = worker_index c ∧ worker_metaserver_port (reloads rl env c l) = worker_metaserver_port c.
Proof.
  intros H. split; [apply reloads_good; exact (from_json_good _ _ _ _ _ H)|]. clear H. revert c.
  induction l as [|f l IH]; intros c; [done|].
  change (reloads rl env c (f :: l)) with (reloads rl env (reload rl env f c).1 l). destruct (IH (reload rl env f c).1) as [-> ->].
  by destruct (coord_reload_cases rl env f c) as [[-> _]|(new & _ & _ & ->)].
Qed.

(** A reload is all or nothing: either the configuration is untouched, and the answer is
    true only if the file is not newer; or it is exactly what the file loads as, with the
    runtime fields kept, and the answer is true.  A file whose values are refused changes
    nothing. *)
Theorem coordinator_reload_atomic rl env fs c :
  (reload rl env fs c).1 = c ∧ ((reload rl env fs c).2 = true → not_modified fs c) ∨
  ∃ new, from_json rl env fs (config_path c) = Ret new ∧ validate_config new = Ret tt ∧
    reload rl env fs c = (mkConfig (sections new) (aigw_model new) (config_path new) (last_modified new) (errors c)
                            (worker_index c) (worker_metaserver_port c), true).
Proof.
  destruct (coord_reload_cases rl env fs c) as [|(new & Hb & E & Hc)]; [by left|right]. exists new.
  split_and!; [done|by apply from_json_inv in E as (_ & _ & ? & _)|]. destruct (reload rl env fs c). cbn in *. congruence.
Qed.

(** The ports of the workers' metaservers fit: in a configuration that was loaded, and after
    any reloads, an enabled base port and a number of workers give every worker a port in range. *)
Theorem worker_ports_in_range rl env fs p c l n base i :
  from_json rl env fs p = Ret c →
  getf (sections (reloads rl env c l)) "inference_workers_config" "num_workers" = VInt n →
  getf (sections (reloads rl env c l)) "inference_workers_config" "worker_metaserver_base_port" = VInt base →
  base ≠ 0 → 0 <= i < n → 1 <= base + i <= 65535.
Proof.
  intros H Hn Hb Hb0 Hi. destruct (reloads_good rl env c l (from_json_good _ _ _ _ _ H)) as [Hv _].
  set (c' := reloads rl env c l) in *. clearbody c'.
  apply accepted in Hv as [Hp Hl]. rewrite Hb in Hp, Hl. rewrite Hn in Hl. unfold not_zero in Hp. rewrite (proj2 (Z.eqb_neq base 0) Hb0) in Hp.
  apply error_if_nil in Hp. unfold out_of_range in Hp. cbn in Hp. destruct (base >=? 1) eqn:E1; [|done]. cbn in Hp.
  destruct (base <=? 65535) eqn:E2; [|done]. unfold last_port_check in Hl. cbn in Hl.
  destruct (n >? 1) eqn:E3; [|lia]. cbn in Hl. destruct (base >? 0) eqn:E4; [|lia]. cbn in Hl.
  destruct (base + n + -1 >? 65535) eqn:E5; [done|lia].
Qed.

(** What the coordinator saves it loads again: after any reloads, saving to a writable path
    succeeds, and loading that path gives the same sections, the enumerations as members and the
    two sets as lists, provided that a unified file there has no deployment and prefill engine
    parts, which come before the saved sections.  The [aigw] model is always lost: it is saved
    as [aigw_model] and read as [aigw]. *)
Theorem coordinator_save_load rl env fs0 p0 c0 l fs p :
  from_json rl env fs0 p0 = Ret c0 → (∀ o, rl o = Ret tt) →
  p ≠ ""%string → fs_writable fs p = true →
  dget (existing_config fs p) MOTOR_DEPLOY_CONFIG = None → dget (existing_config fs p) MOTOR_ENGINE_PREFILL = None →
  let c := reloads rl env c0 l in
  (save_to_json fs c (Some p)).2 = true ∧
  from_json rl env (save_to_json fs c (Some p)).1 (Some p) =
    Ret (mkConfig (saved_sections (sections c)) None (Some (path_str p)) (Some (fs_now fs)) [] None None).
Proof.
  intros H0 Hrl Hp Hw Hdep Hpre c. assert (good env c) as Hgood by (apply reloads_good; exact (from_json_good _ _ _ _ _ H0)).
  assert (new_config env = Ret (default_config env)) as Hnew by by apply from_json_inv in H0 as (_ & ? & _).
  clearbody c. destruct Hgood as (Hv & Hs & Ht). assert (is_Some (objects_json (convert (sections c)))) as [d Hd].
  { assert (same_shape (convert (sections c)) (default_sections env)) as Hcs by (rewrite convert_map; etransitivity; [apply map_fields_shape|done]).
    destruct (same_shape_wf _ _ Hcs (coord_default_wf env) (coord_default_object_wf env)) as [Hwf Hwfo]. apply objects_json_some; [done|done|by apply convert_savable]. }
  destruct (to_dict_lookup c d Hd) as (d' & Hto & Hd').
  assert (∀ k, k ∉ dkeys (default_sections env) → k ∉ extra_keys → dget d' k = None) as Hno.
  { intros k Hk Hx. rewrite Hd', (proj2 (dget_mapM object_json _ _ k Hd)) by done. rewrite (proj2 (dget_None_keys (convert (sections c)) k)); [done|].
    rewrite convert_map, (proj1 (map_fields_shape _ _)). by rewrite (proj1 Hs). }
  assert (dget d' MOTOR_COORDINATOR = None ∧ dget d' MOTOR_DEPLOY_CONFIG = None ∧ dget d' MOTOR_ENGINE_PREFILL = None ∧ dget d' AIGW = None) as (N1 & N2 & N3 & N4)
    by (split_and!; apply Hno; apply not_in_decide; by vm_compute).
  unfold save_to_json. rewrite !bool_decide_false, Hto by done.
  destruct (save_spec fs p MOTOR_COORDINATOR (JObj d') Hw) as (fs' & -> & Hf & _). cbn [fst snd is_ret]. split; [done|].
  assert (∃ user, read_document fs' (Some (path_str p)) MOTOR_COORDINATOR update_document = (JObj d', user)) as [user Hread].
  { unfold read_document. cbn [mbind option_bind]. rewrite lookup_idem, Hf. unfold saved_document. destruct (bool_decide _).
    - rewrite dget_dset_eq, update_document_idle by (rewrite dget_dset_ne; done). by eexists.
    - rewrite N1, update_document_idle by done. by eexists. }
  eapply (coord_load_saved rl env fs' p c d); [done|done|done|done|done|exact Hf|exact Hread|done|].
  intros k Hk. apply Hd'. revert k Hk. apply Forall_forall. repeat (apply Forall_cons_2; [apply not_in_decide; by vm_compute|]). apply Forall_nil_2.
Qed.

(** ** Witnesses *)

Lemma coordinator_stays_valid_witness :
  ∃ c, from_json quiet sample_env (one_file "/cfg/user.json" sample_user 7) None = Ret c ∧
    good sample_env (reloads quiet sample_env c [one_file "/cfg/user.json" (JObj [("etcd_config", JObj [("etcd_port", JInt 0)])])%string 8]).
Proof.
  destruct (from_json quiet sample_env (one_file "/cfg/user.json" sample_user 7) None) as [c|] eqn:E.
  - exists c. split; [reflexivity|]. exact (proj1 (coordinator_stays_valid _ _ _ _ _ _ E)).
  - exfalso. revert E. vm_compute. discriminate.
Defined.

Lemma coordinator_save_load_witness :
  ∃ c, from_json quiet sample_env (one_file "/cfg/user.json" sample_user 7) None = Ret c ∧
    from_json quiet sample_env (save_to_json (one_file "/cfg/user.json" sample_user 7) c (Some "/tmp/config_sample.json"%string)).1 (Some "/tmp/config_sample.json"%string)
      = Ret (mkConfig (saved_sections (sections c)) None (Some "/tmp/config_sample.json"%string) (Some 8) [] None None).
Proof.
  destruct (from_json quiet sample_env (one_file "/cfg/user.json" sample_user 7) None) as [c|] eqn:E.
  - exists c. split; [reflexivity|].
    exact (proj2 (coordinator_save_load quiet sample_env _ _ c [] (one_file "/cfg/user.json" sample_user 7) "/tmp/config_sample.json" E
      (λ _, eq_refl) ltac:(discriminate) eq_refl eq_refl eq_refl)).
  - exfalso. revert E. vm_compute. discriminate.
Defined.

Lemma worker_ports_in_range_witness :
  ∃ c, from_json quiet sample_env (one_file "/cfg/user.json" sample_user 7) None = Ret c ∧ 1 <= 12000 + 3 <= 65535.
Proof.
  destruct (from_json quiet sample_env (one_file "/cfg/user.json" sample_user 7) None) as [c|] eqn:E.
  - exists c. split; [reflexivity|]. assert (c = match from_json quiet sample_env (one_file "/cfg/user.json" sample_user 7) None with Ret c => c | _ => c end) as Hc
      by by rewrite E.
    apply (worker_ports_in_range _ _ _ _ _ [] 4 12000 3 E); [rewrite Hc; by vm_compute|rewrite Hc; by vm_compute|lia|lia].
  - exfalso. revert E. vm_compute. discriminate.
Defined.
