(* ===== verification/EngineHealth.v ===== *)
(** * The health of an engine server

    Models [engine_server/core/sim_inference.py], [engine_server/core/health_collector.py],
    the status route of [engine_server/core/mgmt_endpoint.py] and
    [engine_server/utils/aicore.py]: virtual requests and the use of the AI core, measured by
    a second thread, decide whether an engine that answers its health query is abnormal.

    The two threads of [SimInference] share a condition variable and are a step relation:
    a step is what happens between two points where a thread can be interrupted, [wait]
    releases the lock and takes it again, and a timeout can come at any time. *)

From stdpp Require Import base option list strings relations pretty.
From Stdlib Require Import Ascii ZArith Lia.
From S2P Require Import Prelude PyText Recompute.
Open Scope Z_scope.

(** ** utils/aicore.py *)

(** [find_device_id]: the first entry in document order, [JNull] if there is none. *)
Fixpoint find_device_id (data : json) : json :=
  match data with
  | JObj d =>
      match dget d "device_id" with
      | Some v => v
      | None => (fix go d := match d with [] => JNull | kv :: d => match find_device_id kv.2 with JNull => go d | r => r end end) d
      end
  | JList l => (fix go l := match l with [] => JNull | v :: l => match find_device_id v with JNull => go l | r => r end end) l
  | _ => JNull
  end.

(** [get_device_info_from_rank_table]: [rank_table] is the file as it was read, [None] without
    [RANKTABLE_PATH]; the hardware type is of the user configuration. *)
Definition get_device_info_from_rank_table (rank_table : option (py json)) (hardware_type : json) : py (Z * Z) :=
  match rank_table with
  | None => Raise ValueError
  | Some (Raise _) => Raise RuntimeError
  | Some (Ret table) =>
      match find_device_id table with
      | JNull => Raise ValueError
      | v =>
          i ← jint v;
          if is_str "800I_A2" hardware_type then Ret (i, 0) else Ret (i / 2, i mod 2)
      end
  end.

(** [_get_hardware_type], of the user configuration as it was read. *)
Definition get_hardware_type (config : option (py json)) : json :=
  match config with
  | Some (Ret (JObj d)) =>
      match dget d "motor_deploy_config" with
      | Some (JObj deploy) => default (JStr "") (dget deploy "hardware_type")
      | _ => JStr ""
      end
  | _ => JStr ""
  end.

Fixpoint take_digits (l : list ascii) : list ascii :=
  match l with c :: l => if is_digit c then c :: take_digits l else [] | [] => [] end.
Definition usage_label : list ascii := chars "Aicore Usage Rate(%)".
(** The digits after the label, spaces, a colon and spaces at the start of a text. *)
Definition usage_here (l : list ascii) : option string :=
  if bool_decide (take (length usage_label) l = usage_label) then
    match drop_while is_space (drop (length usage_label) l) with
    | c :: l =>
        if bool_decide (c = ":"%char) then
          match take_digits (drop_while is_space l) with [] => None | ds => Some (of_chars ds) end
        else None
    | [] => None
    end
  else None.
(** [re.search] of the pattern: the first place where it matches. *)
Fixpoint search_usage (l : list ascii) : option string :=
  match usage_here l with
  | Some s => Some s
  | None => match l with [] => None | _ :: l => search_usage l end
  end.
(** [get_aicore_usage]: [npu_smi] is what the command prints for a device and a chip. *)
Definition get_aicore_usage (device : py (Z * Z)) (npu_smi : Z → Z → py string) : py Z :=
  d ← device;
  match npu_smi d.1 d.2 with
  | Raise _ => Raise RuntimeError
  | Ret output =>
      match search_usage (chars output) with
      | Some s => match py_int 10 s with Some z => Ret z | None => Raise ValueError end
      | None => Raise ValueError
      end
  end.

Definition LF : string := String "010" "".
Example usage_of_output :
  search_usage (chars ("  NPU ID : 3" +:+ LF +:+ "  Aicore Usage Rate(%)   : 42" +:+ LF +:+ "  x : 1")) = Some "42"%string ∧
  search_usage (chars "Aicore Usage Rate(%) : N/A"%string) = None.
Proof. split; reflexivity. Qed.
Example device_of_table :
  get_device_info_from_rank_table (Some (Ret (JObj [("version", JStr "1.0"); ("server_list", JList [JObj [("device", JList [JObj [("device_id", JStr "5")]])]])]%string))) (JStr "800I_A3")
    = Ret (2, 1).
Proof. reflexivity. Qed.

(** ** SimInference *)

Record HealthCheckConfig := mkHC {
  health_collector_timeout : Z;
  npu_usage_threshold : Z;
  enable_virtual_inference : bool;
  max_failure_count : Z
}.
Definition HealthCheckConfig_default : HealthCheckConfig := mkHC 2 3 false 6.

(** Whether [start_health_check] starts the threads. *)
Definition starts_health_check (c : HealthCheckConfig) : bool :=
  enable_virtual_inference c && negb ((npu_usage_threshold c <=? 0) || (100 <? npu_usage_threshold c)).

(** What [health_check_loop] keeps between two rounds. *)
Record Sim := mkSim { is_abnormal : bool; failure_count : Z; count_failure_flag : bool; sim_sleep : Z }.
Definition Sim_init : Sim := mkSim false 0 false 5.

(** The end of a round, after the use of the AI core has been read. *)
Definition evaluate (c : HealthCheckConfig) (s : Sim) (max_usage : Z) (sim_inference_success : bool) : Sim :=
  let sleep := if 80 <=? max_usage then 20 else sim_sleep s in
  if (max_usage <? npu_usage_threshold c) && negb sim_inference_success then
    if count_failure_flag s then
      let n := failure_count s + 1 in
      mkSim (if max_failure_count c <=? n then true else is_abnormal s) n true sleep
    else mkSim (is_abnormal s) (failure_count s) false sleep
  else mkSim false (if 0 <? failure_count s then 0 else failure_count s) true sleep.

(** [patched_record]: the finished requests that reach the metrics, by the numbers of their
    prompt and generated tokens. *)
Definition patched_record {A} (tokens : A → Z * Z) (finished_requests : list A) : list A :=
  List.filter (λ r, negb ((fst (tokens r) =? 2) && (snd (tokens r) =? 1))) finished_requests.

(** *** The two threads *)

(** Where the health check thread is; [ok]: the virtual request succeeded; [checked]: the check
    was over when it looked. *)
Inductive health_at :=
| HStart
| HSend
| HSignal (ok : bool)
| HEnter (ok : bool)
| HWaiting (ok : bool)
| HRead (ok checked : bool)
| HSleep.
(** Where [check_aicore_usage_worker] is; from [WSample] to [WFinish] it holds the lock. *)
Inductive worker_at := WEnter | WWaiting | WSample | WStore | WFinish.

Record threads := mkThreads {
  health : health_at;
  worker : worker_at;
  check_active : bool;
  max_aicore_usage : Z;
  check_count : Z;
  sim : Sim;
  (** What the last check measured so far, whether it began after the last signal, and what
      the checks measured that were stored since the round began. *)
  samples : list Z;
  since_signal : bool;
  complete : list (list Z);
  (** The rounds so far, oldest first. *)
  rounds : list (Z * bool)
}.
Definition threads_init : threads := mkThreads HStart WEnter false 0 0 Sim_init [] false [] [].

Definition holds_lock (w : worker_at) : bool := match w with WSample | WStore | WFinish => true | _ => false end.
Definition max_of (l : list Z) : Z := fold_left Z.max l 0.
Definition max_check_count : Z := 4.

Section threads.
Context (c : HealthCheckConfig).

Inductive step : threads → threads → Prop :=
| h_reset w a m n s l g d r :
    step (mkThreads HStart w a m n s l g d r) (mkThreads HSend w a 0 0 s l g [] r)
| h_send ok w a m n s l g d r :
    step (mkThreads HSend w a m n s l g d r) (mkThreads (HSignal ok) w a m n s l g d r)
| h_signal ok w a m n s l g d r :
    holds_lock w = false →
    step (mkThreads (HSignal ok) w a m n s l g d r) (mkThreads (HEnter ok) (match w with WWaiting => WEnter | w => w end) true m n s l false d r)
| h_enter ok w a m n s l g d r :
    holds_lock w = false →
    step (mkThreads (HEnter ok) w a m n s l g d r) (mkThreads (if a then HWaiting ok else HRead ok true) w a m n s l g d r)
| h_wake ok w a m n s l g d r :
    holds_lock w = false →
    step (mkThreads (HWaiting ok) w a m n s l g d r) (mkThreads (HRead ok (negb a)) w a m n s l g d r)
| h_evaluate ok checked w a m n s l g d r :
    step (mkThreads (HRead ok checked) w a m n s l g d r) (mkThreads HSleep w a m n (evaluate c s m ok) l g d (r ++ [(m, ok)]))
| h_slept w a m n s l g d r :
    step (mkThreads HSleep w a m n s l g d r) (mkThreads HStart w a m n s l g d r)
| w_enter h a m n s l g d r :
    step (mkThreads h WEnter a m n s l g d r) (if a then mkThreads h WSample a m 0 s [] true d r else mkThreads h WWaiting a m n s l g d r)
| w_sample usage h a m n s l g d r :
    step (mkThreads h WSample a m n s l g d r) (mkThreads h WSample a m (n + 1) s (match usage with Ret u => l ++ [u] | Raise _ => l end) g d r)
| w_enough h a m n s l g d r :
    max_check_count < n → step (mkThreads h WSample a m n s l g d r) (mkThreads h WStore a m n s l g d r)
| w_store h a m n s l g d r :
    step (mkThreads h WStore a m n s l g d r) (mkThreads h WFinish a (max_of l) n s l g (d ++ [l]) r)
| w_finish h a m n s l g d r :
    step (mkThreads h WFinish a m n s l g d r) (mkThreads h WEnter false m n s l g d r).

Definition reachable (t : threads) : Prop := rtc step threads_init t.
End threads.

(** ** The status of the endpoint *)

Inductive endpoint_status := INIT_STATUS | ABNORMAL_STATUS | NORMAL_STATUS.
Record MgmtEndpoint := mkMgmt {
  has_connected : bool;
  virtual_inference_started : bool;
  sim_abnormal : bool;
  (** how often [run_virtual_inference] was called *)
  virtual_inference_calls : Z
}.
Definition MgmtEndpoint_init : MgmtEndpoint := mkMgmt false false false 0.

(** [HealthCollector.is_healthy]: [health] is the text the engine answers, or what the client raises. *)
Definition lower_text (s : string) : string := of_chars (map lower_char (chars s)).
Definition is_healthy (health : py string) : M MgmtEndpoint bool := λ s,
  match health with
  | Ret text => (mkMgmt true (virtual_inference_started s) (sim_abnormal s) (virtual_inference_calls s), Ret (bool_decide (lower_text text = "true"%string)))
  | Raise CancelledError => (s, Raise CancelledError)
  | Raise e => (s, if has_connected s then Ret false else Raise e)
  end.

(** [get_status]. *)
Definition get_status (health : py string) : M MgmtEndpoint endpoint_status :=
  mexcept
    (healthy ← is_healthy health;
     if healthy : bool then
       s ← mget;
       (if virtual_inference_started s then mret tt
        else mmodify (λ s, mkMgmt (has_connected s) true (sim_abnormal s) (virtual_inference_calls s + 1))) ;;
       s ← mget;
       mret (if sim_abnormal s then ABNORMAL_STATUS else NORMAL_STATUS)
     else mret ABNORMAL_STATUS)
    (λ _, mret INIT_STATUS).

(** ** Lemmas *)

(** *** The threads *)

Definition waits_for_check (h : health_at) : Prop := match h with HEnter _ | HWaiting _ => True | _ => False end.

Record threads_inv (t : threads) : Prop := {
  inv_usage : max_aicore_usage t = default 0 (max_of <$> last (complete t));
  inv_idle : waits_for_check (health t) → since_signal t = false → check_active t = true ∧ holds_lock (worker t) = false;
  inv_check : waits_for_check (health t) → since_signal t = true →
    (holds_lock (worker t) = false → check_active t = false ∧ last (complete t) = Some (samples t)) ∧
    (worker t = WFinish → last (complete t) = Some (samples t));
  inv_read : ∀ ok, health t = HRead ok true →
    since_signal t = true ∧ holds_lock (worker t) = false ∧ check_active t = false ∧ last (complete t) = Some (samples t)
}.

Lemma threads_inv_init : threads_inv threads_init.
Proof. by split. Qed.

Lemma threads_inv_step c t t' : threads_inv t → step c t t' → threads_inv t'.
Proof.
  intros [H1 H2 H3 H4] Hs. destruct Hs; cbn in *; try (destruct a); split; cbn in *; rewrite ?last_snoc;
    try exact H1; try done; intros; try done;
    try match goal with H : _ = HRead ?ok true |- _ => specialize (H4 ok) end;
    try destruct g; try (intuition congruence); first [destruct w | destruct h]; cbn in *; intuition congruence.
Qed.

Lemma reachable_inv c t : reachable c t → threads_inv t.
Proof. intros H. eapply (rtc_invariant (step c) threads_inv (threads_inv_step c)); [apply threads_inv_init|exact H]. Qed.

(** *** The rounds *)

(** A round that found the AI core idle and no answer. *)
Definition bad (c : HealthCheckConfig) (r : Z * bool) : bool := (r.1 <? npu_usage_threshold c) && negb r.2.
(** The bad rounds since the last good one, if there was a good one. *)
Definition streak (c : HealthCheckConfig) (l : list (Z * bool)) : option Z :=
  fold_left (λ n r, if bad c r then Z.succ <$> n else Some 0) l None.
Definition run_rounds (c : HealthCheckConfig) (l : list (Z * bool)) : Sim := fold_left (λ s r, evaluate c s r.1 r.2) l Sim_init.

Lemma streak_app c l r : streak c (l ++ [r]) = if bad c r then Z.succ <$> streak c l else Some 0.
Proof. unfold streak. by rewrite fold_left_app. Qed.
Lemma run_rounds_app c l r : run_rounds c (l ++ [r]) = evaluate c (run_rounds c l) r.1 r.2.
Proof. unfold run_rounds. by rewrite fold_left_app. Qed.

(** A streak of [n] is a good round with [n] bad ones behind it. *)
Lemma streak_spec c l n : streak c l = Some n ↔
  ∃ l1 g l2, l = l1 ++ g :: l2 ∧ bad c g = false ∧ Forall (λ r, bad c r = true) l2 ∧ n = Z.of_nat (length l2).
Proof.
  revert n. induction l as [|r l IH] using rev_ind; intros n.
  { split; [done|]. by intros ([] & ? & ? & ? & _). }
  rewrite streak_app. destruct (bad c r) eqn:Hr.
  - split.
    + intros (m & Hm & ->)%fmap_Some. apply IH in Hm as (l1 & g & l2 & -> & Hg & Hl2 & ->). exists l1, g, (l2 ++ [r]).
      split_and!; [by rewrite <- app_assoc|done|apply Forall_app; by repeat constructor|rewrite length_app; cbn; lia].
    + intros (l1 & g & l2 & E & Hg & Hl2 & ->). destruct l2 as [|r' l2 _] using rev_ind.
      { apply app_inj_tail in E as [-> ->]. congruence. }
      rewrite app_comm_cons, app_assoc in E. apply app_inj_tail in E as [-> <-]. apply Forall_app in Hl2 as [Hl2 _].
      rewrite (proj2 (IH (Z.of_nat (length l2)))); [|by exists l1, g, l2]. cbn. f_equal. rewrite length_app. cbn. lia.
  - split.
    + intros [= <-]. by exists l, r, [].
    + intros (l1 & g & l2 & E & Hg & Hl2 & ->). destruct l2 as [|r' l2 _] using rev_ind; [done|].
      rewrite app_comm_cons, app_assoc in E. apply app_inj_tail in E as [-> <-]. apply Forall_app in Hl2 as [_ Hl2].
      apply Forall_cons in Hl2 as [Hl2 _]. congruence.
Qed.

(** What the rounds make of the state. *)
Lemma run_rounds_spec c l :
  let s := run_rounds c l in
  count_failure_flag s = bool_decide (is_Some (streak c l)) ∧ failure_count s = default 0 (streak c l) ∧ 0 <= failure_count s ∧
  (is_abnormal s = true ↔ ∃ n, streak c l = Some n ∧ 1 <= n ∧ max_failure_count c <= n) ∧
  (sim_sleep s = if existsb (λ r, 80 <=? r.1) l then 20 else 5).
Proof.
  cbv zeta. induction l as [|r l IH] using rev_ind.
  { split_and!; [done|done|done| |done]. split; [done|]. by intros (? & ? & _). }
  destruct IH as (Hf & Hc & H0 & Ha & Hsl). rewrite run_rounds_app, streak_app, existsb_app. unfold evaluate, bad. cbn [existsb].
  rewrite orb_false_r, Hsl. assert (∀ b : bool, (if 80 <=? r.1 then 20 else if b then 20 else 5) = if b || (80 <=? r.1) then 20 else 5) as Hs
    by (intros b; by destruct b, (80 <=? r.1)). rewrite Hs.
  destruct ((r.1 <? npu_usage_threshold c) && negb r.2).
  - rewrite Hf. destruct (streak c l) as [n|]; cbn in *.
    + split_and!; [done|lia|lia| |done]. rewrite Hc in *. destruct (max_failure_count c <=? n + 1) eqn:E.
      * split; [|done]. intros _. exists (Z.succ n). split; [done|lia].
      * rewrite Ha. split; intros (m & [= <-] & ? & ?); lia.
    + split_and!; [done|done|done| |done]. rewrite Ha. split; by intros (? & ? & _).
  - cbn. split_and!; [done|destruct (0 <? _) eqn:E; lia|destruct (0 <? _); lia| |done]. split; [done|]. intros (? & [= <-] & ? & _). lia.
Qed.

(** The state of the health check is what its rounds made it. *)
Lemma sim_step c t t' : sim t = run_rounds c (rounds t) → step c t t' → sim t' = run_rounds c (rounds t').
Proof.
  intros Ht Hs. destruct Hs; cbn [sim rounds] in *; try done; try (by destruct a). by rewrite run_rounds_app, Ht.
Qed.
Lemma sim_of_rounds c t : reachable c t → sim t = run_rounds c (rounds t).
Proof. intros H. by apply (rtc_invariant (step c) _ (sim_step c) threads_init t). Qed.

(** *** The status route *)

(** A query: the flag of the health check then, and what the engine answers to the health query. *)
Definition query : Type := bool * py string.
Definition asked (s : MgmtEndpoint) (q : query) : MgmtEndpoint * py endpoint_status :=
  get_status q.2 (mkMgmt (has_connected s) (virtual_inference_started s) q.1 (virtual_inference_calls s)).
Definition run_queries (l : list query) : MgmtEndpoint := fold_left (λ s q, (asked s q).1) l MgmtEndpoint_init.

Definition answers (q : query) : bool := is_ret q.2.
Definition healthy (q : query) : bool := match q.2 with Ret text => bool_decide (lower_text text = "true"%string) | _ => false end.

Lemma asked_state s q :
  let s' := (asked s q).1 in
  has_connected s' = has_connected s || answers q ∧ virtual_inference_started s' = virtual_inference_started s || healthy q ∧
  virtual_inference_calls s' = virtual_inference_calls s + (if healthy q && negb (virtual_inference_started s) then 1 else 0).
Proof.
  destruct s as [hc vs sa n], q as [ab [text|e]]; unfold asked, get_status, is_healthy, mexcept, answers, healthy; cbn.
  - cbv [mbind M_bind]. cbn. destruct (bool_decide _), vs, hc; cbn; split_and!; try done; lia.
  - cbv [mbind M_bind]. cbn. destruct e, hc, vs; cbn; split_and!; try done; lia.
Qed.

Lemma run_queries_state l :
  let s := run_queries l in
  has_connected s = existsb answers l ∧ virtual_inference_started s = existsb healthy l ∧
  virtual_inference_calls s = if existsb healthy l then 1 else 0.
Proof.
  cbv zeta. induction l as [|q l IH] using rev_ind; [done|]. unfold run_queries in *. rewrite fold_left_app. cbn [fold_left].
  destruct IH as (H1 & H2 & H3). destruct (asked_state (fold_left (λ s q, (asked s q).1) l MgmtEndpoint_init) q) as (-> & -> & ->).
  rewrite H1, H2, H3, !existsb_app. cbn. rewrite !orb_false_r. split_and!; try done. by destruct (existsb healthy l), (healthy q).
Qed.

(** ** Theorems *)

(** A round never works with a partial or an old measurement: however the two threads
    interleave and whenever the wait times out, the use of the AI core a round evaluates is the
    greatest of the last check completed since the round began, or zero; and if the round saw
    the check over, that check began after the round's signal. *)
Theorem usage_of_round c t ok checked :
  reachable c t → health t = HRead ok checked →
  max_aicore_usage t = default 0 (max_of <$> last (complete t)) ∧
  (checked = true → since_signal t = true ∧ last (complete t) = Some (samples t) ∧ check_active t = false).
Proof.
  intros Hr Hh. destruct (reachable_inv c t Hr) as [H1 _ _ H4]. split; [done|]. intros ->. by destruct (H4 ok Hh) as (? & _ & ? & ?).
Qed.

(** An engine is abnormal exactly if there was a round that found it working (an answer, or
    an AI core in use) and since the last such round as many rounds as configured, and at least
    one, found neither: an engine that never worked is never abnormal, and one good round clears
    it.  After a round with 80 percent the rounds are twenty seconds apart for ever. *)
Theorem sim_abnormal_iff c t :
  reachable c t →
  (is_abnormal (sim t) = true ↔
   ∃ l1 g l2, rounds t = l1 ++ g :: l2 ∧ bad c g = false ∧ Forall (λ r, bad c r = true) l2 ∧ l2 ≠ [] ∧ max_failure_count c <= Z.of_nat (length l2)) ∧
  sim_sleep (sim t) = if existsb (λ r, 80 <=? r.1) (rounds t) then 20 else 5.
Proof.
  intros H. rewrite (sim_of_rounds c t H). destruct (run_rounds_spec c (rounds t)) as (_ & _ & _ & Ha & Hs). split; [|done]. rewrite Ha. split.
  - intros (n & Hn & H1 & Hm). apply streak_spec in Hn as (l1 & g & l2 & E & Hg & Hl2 & ->). exists l1, g, l2. split_and!; try done. by intros ->.
  - intros (l1 & g & l2 & E & Hg & Hl2 & Hne & Hm). exists (Z.of_nat (length l2)). split; [|destruct l2; [done|cbn in *; lia]].
    apply streak_spec. by exists l1, g, l2.
Qed.

(** The status of an engine: it is initial exactly as long as no health query was ever
    answered; afterwards it is normal exactly if the engine answers that it is healthy and the
    health check does not find it abnormal.  The health check is started once, at the first
    healthy answer. *)
Theorem status_iff l q e :
  (asked (run_queries l) q).2 = Ret e →
  (e = INIT_STATUS ↔ existsb answers (l ++ [q]) = false) ∧ (e = NORMAL_STATUS ↔ healthy q = true ∧ q.1 = false) ∧
  virtual_inference_calls (run_queries (l ++ [q])) = if existsb healthy (l ++ [q]) then 1 else 0.
Proof.
  intros H. split; [|split; [|apply run_queries_state]].
  - destruct (run_queries_state l) as (Hc & _). rewrite existsb_app, <- Hc. cbn [existsb]. rewrite orb_false_r. revert H.
    destruct (run_queries l) as [hc vs sa n], q as [ab [text|x]]; unfold asked, get_status, is_healthy, mexcept, answers; cbn; cbv [mbind M_bind]; cbn.
    + rewrite orb_true_r. destruct (bool_decide _), vs, ab; cbn; intros [= <-]; by split.
    + destruct x, hc; cbn; intros [= <-]; by split.
  - revert H. destruct (run_queries l) as [hc vs sa n], q as [ab [text|x]]; unfold asked, get_status, is_healthy, mexcept, healthy; cbn; cbv [mbind M_bind]; cbn.
    + destruct (bool_decide _), vs, ab; cbn; intros [= <-]; split; try done; by intros [? ?].
    + destruct x, hc; cbn; intros [= <-]; split; try done; by intros [? ?].
Qed.

(** ** Witnesses *)

Definition sample_config : HealthCheckConfig := mkHC 2 3 true 1.
Definition first_check : list Z := [1; 2; 0; 0; 1].
(** A round in which the check runs while the loop waits. *)
Lemma first_round ok : reachable sample_config (mkThreads (HRead ok true) WEnter false 2 5 Sim_init first_check true [first_check] []).
Proof.
  unfold reachable. do 2 (eapply rtc_l; [constructor|]). eapply rtc_l; [apply w_enter|]. eapply rtc_l; [by apply (h_signal _ ok)|].
  eapply rtc_l; [by apply h_enter|]. eapply rtc_l; [apply w_enter|].
  eapply rtc_l; [apply (w_sample _ (Ret 1))|]. eapply rtc_l; [apply (w_sample _ (Ret 2))|]. do 2 (eapply rtc_l; [apply (w_sample _ (Ret 0))|]).
  eapply rtc_l; [apply (w_sample _ (Ret 1))|]. eapply rtc_l; [by apply w_enough|]. eapply rtc_l; [apply w_store|].
  eapply rtc_l; [apply w_finish|]. eapply rtc_l; [by apply h_wake|]. apply rtc_refl.
Qed.
Lemma usage_of_round_witness :
  reachable sample_config (mkThreads (HRead false true) WEnter false 2 5 Sim_init first_check true [first_check] []) ∧
  max_of first_check = 2.
Proof.
  split; [exact (first_round false)|].
  pose proof (usage_of_round _ _ false true (first_round false) eq_refl) as [H _]. exact (eq_sym H).
Defined.

(** A good first round and a bad second one. *)
Lemma two_rounds : reachable sample_config
  (mkThreads HSleep WEnter true 0 0 (mkSim true 1 true 5) first_check false [] [(2, true); (0, false)]).
Proof.
  unfold reachable. etransitivity; [exact (first_round true)|]. eapply rtc_l; [apply h_evaluate|]. eapply rtc_l; [constructor|].
  do 2 (eapply rtc_l; [constructor|]). eapply rtc_l; [by apply (h_signal _ false)|]. eapply rtc_l; [by apply h_enter|].
  eapply rtc_l; [by apply h_wake|]. eapply rtc_l; [apply h_evaluate|]. apply rtc_refl.
Qed.
Lemma sim_abnormal_iff_witness :
  ∃ l1 g l2, [(2, true); (0, false)] = l1 ++ g :: l2 ∧ bad sample_config g = false ∧ Forall (λ r, bad sample_config r = true) l2 ∧ l2 ≠ [] ∧
    max_failure_count sample_config <= Z.of_nat (length l2).
Proof. exact (proj1 (proj1 (sim_abnormal_iff _ _ two_rounds)) eq_refl). Defined.

Lemma status_iff_witness :
  ∃ e, (asked (run_queries [(false, Raise RuntimeError)]) (false, Ret "true"%string)).2 = Ret e ∧ (e = NORMAL_STATUS ↔ True).
Proof.
  eexists. split; [reflexivity|].
  destruct (proj1 (proj2 (status_iff [(false, Raise RuntimeError)] (false, Ret "true"%string) _ eq_refl))) as [_ H].
  split; [done|]. intros _. apply H. by split.
Defined.

(** A request of two prompt tokens and one generated token is taken for a virtual one. *)
Example short_requests_uncounted : patched_record (λ r, r) [(2, 1); (1, 1); (7, 1)] = [(1, 1); (7, 1)].
Proof. reflexivity. Qed.
