(* ===== verification/EngineConfig.v ===== *)
(** * The configuration of an engine server

    Models [config/endpoint.py] (the command line, its validation, the deployment
    configuration with the TLS settings of [config_utils.py]), the file check of
    [engine_server/utils/validators.py], [engine_server/utils/ip.py], and the arguments the
    engines are given by [engine_server/core/vllm/vllm_config.py] and
    [engine_server/core/sglang/sglang_config.py].

    Of [argparse] the forms the node manager writes are modelled: an option followed by its
    value; abbreviations and [--option=value] are not.  [int] and [float] products are of
    integers.  [str] and [json.dumps] of a value are arguments. *)

From stdpp Require Import base option list strings pretty.
From Stdlib Require Import Ascii ZArith Lia.
From S2P Require Import Float64 NodeConfig NodeManager.
From S2P Require Import Prelude PyText IpText Resources.
Open Scope Z_scope.

(** ** The command line *)

(** What [parse_cli_args] returns. *)
Record Cli := mkCli {
  c_host : option string;
  c_role : option string;
  c_kv_port : option Z;
  c_lookup_rpc_port : option Z;
  c_master_dp_ip : option string;
  c_dp_rpc_port : option Z;
  c_port : option Z;
  c_mgmt_port : option Z;
  c_instance_id : Z;
  c_dp_rank : Z;
  c_config_path : option string
}.
Definition Cli_default : Cli := mkCli None None None None None None None None 0 0 None.

(** A text [argparse] takes as the value of an option: it does not begin with a hyphen, or it
    is a hyphen alone, a negative number or a text with a space. *)
Definition negative_number (ds : list ascii) : bool :=
  match drop_while is_digit ds with
  | [] => true
  | "."%char :: f :: fs => forallb is_digit (f :: fs)
  | _ => false
  end.
Definition is_value (s : string) : bool :=
  match chars s with
  | "-"%char :: [] => true
  | "-"%char :: ds => negative_number ds || contains s " "%char && negb (contains s "="%char)
  | _ => true
  end.
Definition set_option (c : Cli) (name value : string) : option Cli :=
  let '(mkCli ho ro kv lo ma rp po mg id rk cf) := c in
  let int (k : Z → Cli) : option Cli := k <$> py_int 10 value in
  if bool_decide (name = "--host") then Some (mkCli (Some value) ro kv lo ma rp po mg id rk cf)
  else if bool_decide (name = "--role") then Some (mkCli ho (Some value) kv lo ma rp po mg id rk cf)
  else if bool_decide (name = "--kv-port") then int (λ z, mkCli ho ro (Some z) lo ma rp po mg id rk cf)
  else if bool_decide (name = "--lookup-rpc-port") then int (λ z, mkCli ho ro kv (Some z) ma rp po mg id rk cf)
  else if bool_decide (name = "--master-dp-ip") then Some (mkCli ho ro kv lo (Some value) rp po mg id rk cf)
  else if bool_decide (name = "--dp-rpc-port") then int (λ z, mkCli ho ro kv lo ma (Some z) po mg id rk cf)
  else if bool_decide (name = "--port") then int (λ z, mkCli ho ro kv lo ma rp (Some z) mg id rk cf)
  else if bool_decide (name = "--mgmt-port") then int (λ z, mkCli ho ro kv lo ma rp po (Some z) id rk cf)
  else if bool_decide (name = "--instance-id") then int (λ z, mkCli ho ro kv lo ma rp po mg z rk cf)
  else if bool_decide (name = "--dp-rank") then int (λ z, mkCli ho ro kv lo ma rp po mg id z cf)
  else if bool_decide (name = "--config-path") then Some (mkCli ho ro kv lo ma rp po mg id rk (Some value))
  else None.
(** [parse_cli_args], of the arguments behind the name of the program; [None]: [argparse] ends
    the process. *)
Fixpoint parse_cli_args (c : Cli) (args : list string) : option Cli :=
  match args with
  | [] => Some c
  | name :: value :: args => if is_value value then c' ← set_option c name value; parse_cli_args c' args else None
  | [_] => None
  end.

(** ** Validation *)

(** utils/ip.py: an address that can be listened on.  The properties are those of the parsed
    address, before Python 3.13. *)
Definition hex_value (s : string) : Z := default 0 (py_int 16 s).
Definition ipv4_value (s : string) : Z := fold_left (λ n o, n * 256 + default 0 (py_int 10 o)) (split "."%char s) 0.
(** The value of an IPv6 address: the groups left and right of the zeros. *)
Definition hextets_value (parts : list string) : Z :=
  let join l := fold_left (λ n p, n * 65536 + hex_value p) l 0 in
  let n := length parts in
  match List.filter (λ i, bool_decide (parts !! i = Some ""%string)) (seq 1 (n - 2)) with
  | [skip] => join (take skip parts) * 65536 ^ Z.of_nat (8 - length (List.filter (λ p, negb (bool_decide (p = ""%string))) (take skip parts)))
              + join (drop (S skip) parts)
  | _ => join parts
  end.
Definition ipv6_value (s : string) : Z :=
  let parts := split ":"%char (default ""%string (head (split "%"%char s))) in
  match last parts with
  | Some l =>
      if contains l "."%char
      then hextets_value (take (pred (length parts)) parts ++ ["0"; "0"]%string) + ipv4_value l
      else hextets_value parts
  | None => 0
  end.
Definition is_unspecified (s : string) : bool := if is_ipv4 s then ipv4_value s =? 0 else ipv6_value s =? 0.
Definition is_multicast (s : string) : bool :=
  if is_ipv4 s then Z.shiftr (ipv4_value s) 28 =? 14 else Z.shiftr (ipv6_value s) 120 =? 255.
Definition ip_valid_check (ip : option string) : py unit :=
  match ip with
  | None => Raise ValueError
  | Some s => if negb (ip_address s) then Raise ValueError else if is_unspecified s then Raise ValueError
              else if is_multicast s then Raise ValueError else Ret tt
  end.
Definition port_valid_check (port : Z) : py unit := if (port <? 1024) || (65535 <? port) then Raise ValueError else Ret tt.

Example checked_ips :
  map (λ s, is_ret (ip_valid_check (Some s))) ["10.0.0.1"; "::1"; "fe80::1%eth0"; "2001:db8::10.0.0.1"; "1::"]%string = replicate 5 true ∧
  map (λ s, is_ret (ip_valid_check (Some s))) ["0.0.0.0"; "::"; "224.0.0.1"; "ff02::1"; "host"; "239.255.255.255"]%string = replicate 6 false.
Proof. split; reflexivity. Qed.

(** What the system says of a path: whether it is a regular file, its real path, its size. *)
Record file_info := mkInfo { f_isfile : bool; f_realpath : string; f_size : Z }.
Definition MAX_SIZE : Z := 1024 * 1024.
Definition MIN_SIZE : Z := 0.
(** [FileValidator(path).check_not_soft_link().check_file_size().check().is_valid()]. *)
Definition file_valid (path : string) (i : file_info) : bool :=
  f_isfile i && bool_decide (f_realpath i = path) && ((MIN_SIZE <? f_size i) && (f_size i <=? MAX_SIZE)).

Definition supported_engine : list string := ["vllm"; "sglang"]%string.
Definition supported_role : list string := ["prefill"; "decode"; "union"]%string.
Definition raise_if (b : bool) (e : pyexn) : py unit := if b then Raise e else Ret tt.
Definition py_some {A} (o : option A) : py A := match o with Some a => Ret a | None => Raise TypeError end.
(** [EndpointConfig.validate]: [stat] is the system's answer for an existing path. *)
Definition validate (stat : string → option file_info) (c : Cli) : py unit :=
  _ ← raise_if (negb (match c_role c with Some r => bool_decide (r ∈ supported_role) | None => false end)) ValueError;
  _ ← raise_if (c_instance_id c <? 0) ValueError;
  _ ← ip_valid_check (c_host c);
  port ← py_some (c_port c);
  _ ← port_valid_check port;
  mgmt ← py_some (c_mgmt_port c);
  _ ← port_valid_check mgmt;
  _ ← raise_if ((c_dp_rank c <? 0) || (65535 <? c_dp_rank c)) ValueError;
  path ← py_some (c_config_path c);
  match stat path with
  | None => Raise ValueError
  | Some i => raise_if (negb (file_valid path i)) ValueError
  end.

(** ** The deployment configuration *)

Abbreviation jdict := (list (string * json)).
Definition MOTOR_ENGINE_PREFILL_CONFIG_KEY : string := "motor_engine_prefill_config".
Definition MOTOR_ENGINE_DECODE_CONFIG_KEY : string := "motor_engine_decode_config".

(** [v[key] = x], of an item of an item: [path] leads to the dictionary that is written. *)
Fixpoint set_path (v : json) (path : list string) (key : string) (x : json) : py json :=
  match v with
  | JObj d =>
      match path with
      | [] => Ret (JObj (dset d key x))
      | k :: path => match dget d k with None => Raise KeyError | Some v' => v'' ← set_path v' path key x; Ret (JObj (dset d k v'')) end
      end
  | _ => Raise TypeError
  end.
(** [if key not in v: v[key] = {}], behind [path]. *)
Definition set_default (v : json) (path : list string) (key : string) : py json :=
  o ← jsubs v path;
  present ← json_in key o;
  if present : bool then Ret v else set_path v path key (JObj []).
(** [x and x[key]]. *)
Definition truthy_and (v : json) (key : string) : py bool := if truthy v then x ← jsub v key; Ret (truthy x) else Ret false.

(** [_update_engine_server_tls_config], of the part of an engine and the whole file. *)
Definition update_engine_server_tls_config (data user : json) : py json :=
  deploy ← jsub user "motor_deploy_config";
  present ← json_in "tls_config" deploy;
  if negb present then Ret data
  else
    tls ← jsub deploy "tls_config";
    mgmt ← jget tls "mgmt_tls_config" JNull;
    data ← set_path data [] "mgmt_tls_config" mgmt;
    infer ← jget tls "infer_tls_config" JNull;
    data ← set_path data [] "infer_tls_config" infer;
    _ ← jsub data "engine_config";
    infer_on ← truthy_and infer "enable_tls";
    data ← (if infer_on : bool then
              k ← jsub infer "key_file"; data ← set_path data ["engine_config"%string] "ssl_keyfile" k;
              k ← jsub infer "cert_file"; data ← set_path data ["engine_config"%string] "ssl_certfile" k;
              k ← jsub infer "ca_file"; set_path data ["engine_config"%string] "ssl_ca_certs" k
            else Ret data);
    mgmt_on ← truthy_and mgmt "enable_tls";
    if mgmt_on : bool then
      let at1 := ["engine_config"; "kv_transfer_config"]%string in
      let at2 := ["engine_config"; "kv_transfer_config"; "kv_connector_extra_config"]%string in
      let at3 := ["engine_config"; "kv_transfer_config"; "kv_connector_extra_config"; "tls_config"]%string in
      data ← set_default data ["engine_config"%string] "kv_transfer_config";
      data ← set_default data at1 "kv_connector_extra_config";
      data ← set_default data at2 "tls_config";
      data ← set_path data at3 "ssl_enable" (JBool true);
      k ← jsub infer "key_file"; data ← set_path data at3 "ssl_keyfile" k;
      k ← jsub infer "cert_file"; data ← set_path data at3 "ssl_certfile" k;
      k ← jsub infer "ca_file"; set_path data at3 "ssl_ca_certs" k
    else Ret data.

(** A dataclass whose fields all have defaults, called with the entries of [v] as keyword
    arguments: the fields by name. *)
Definition from_kwargs (defaults : jdict) (v : json) : py jdict :=
  match v with
  | JObj d => if forallb (λ kv, dhas defaults kv.1) d then Ret (map (λ kv, (kv.1, default kv.2 (dget d kv.1))) defaults) else Raise TypeError
  | _ => Raise TypeError
  end.
Definition field (d : jdict) (k : string) : json := default JNull (dget d k).

Definition ParallelConfig_fields : jdict :=
  [("dp_size", JInt 1); ("tp_size", JInt 1); ("pp_size", JInt 1); ("world_size", JNull); ("enable_ep", JBool false); ("dp_rpc_port", JInt 9000)]%string.
Definition int_of (v : json) : py Z := match v with JInt z => Ret z | JBool b => Ret (Z.b2z b) | _ => Raise TypeError end.
(** [ParallelConfig.from_dict], with [__post_init__]. *)
Definition parallel_from_dict (v : json) : py jdict :=
  d ← from_kwargs ParallelConfig_fields v;
  match field d "world_size" with
  | JNull =>
      dp ← int_of (field d "dp_size"); tp ← int_of (field d "tp_size"); pp ← int_of (field d "pp_size");
      Ret (dset d "world_size" (JInt (dp * tp * pp)))
  | _ => Ret d
  end.

Record ModelConfig := mkModel { model_name : json; model_path : json; npu_mem_utils : json; prefill_parallel_config : jdict; decode_parallel_config : jdict }.
Definition model_from_dict (v : json) : py ModelConfig :=
  n ← jsub v "model_name"; p ← jsub v "model_path"; u ← jsub v "npu_mem_utils";
  pp ← jsub v "prefill_parallel_config"; pp ← parallel_from_dict pp;
  dp ← jsub v "decode_parallel_config"; dp ← parallel_from_dict dp;
  Ret (mkModel n p u pp dp).

Definition TLSConfig_fields : jdict :=
  [("enable_tls", JBool false); ("ca_file", JStr "security/mgmt/cert/ca.crt"); ("cert_file", JStr "security/mgmt/cert/server.crt");
   ("key_file", JStr "security/mgmt/keys/server.key"); ("passwd_file", JStr "security/mgmt/keys/key_pwd.txt"); ("crl_file", JStr "")]%string.
(** [TLSConfig.from_dict]: other keys are dropped. *)
Definition tls_from_dict (v : json) : py jdict :=
  match v with JObj d => from_kwargs TLSConfig_fields (JObj (List.filter (λ kv, dhas TLSConfig_fields kv.1) d)) | _ => Raise AttributeError end.
Definition HealthCheckConfig_fields : jdict :=
  [("health_collector_timeout", JInt 2); ("npu_usage_threshold", JInt 3); ("enable_virtual_inference", JBool false); ("max_failure_count", JInt 6)]%string.

Record DeployConfig := mkDeploy {
  engine_type : json;
  model_config : ModelConfig;
  engine_config : json;
  mgmt_tls_config : option jdict;
  infer_tls_config : option jdict;
  health_check_config : jdict
}.
Definition optional_tls (v : json) : py (option jdict) := if truthy v then d ← tls_from_dict v; Ret (Some d) else Ret None.

(** The parallel configurations the part of an engine does not have, from the parts of both. *)
Definition add_parallel (data raw : json) : py json :=
  model ← jget data "model_config" (JObj []);
  p ← jget raw MOTOR_ENGINE_PREFILL_CONFIG_KEY (JObj []); prefill ← jget p "model_config" (JObj []);
  d ← jget raw MOTOR_ENGINE_DECODE_CONFIG_KEY (JObj []); decode ← jget d "model_config" (JObj []);
  let add (model : json) (key : string) (cfg : json) : py json :=
    has ← json_in key model;
    if has : bool then Ret model
    else present ← json_in "parallel_config" cfg;
         if present : bool then v ← jsub cfg "parallel_config"; set_path model [] key v else Ret model in
  model ← add model "prefill_parallel_config"%string prefill;
  model ← add model "decode_parallel_config"%string decode;
  (match data with JObj d => Ret (if dhas d "model_config" then JObj (dset d "model_config" model) else data) | _ => Ret data end).

(** [DeployConfig.load]. *)
Definition is_unified (raw : json) : bool :=
  match raw with JObj d => dhas d MOTOR_ENGINE_PREFILL_CONFIG_KEY || dhas d MOTOR_ENGINE_DECODE_CONFIG_KEY | _ => false end.
Definition deploy_load (raw : json) (role : string) : py DeployConfig :=
  data ← (if is_unified raw then
            data ← jget raw (if bool_decide (role = "decode"%string) then MOTOR_ENGINE_DECODE_CONFIG_KEY else MOTOR_ENGINE_PREFILL_CONFIG_KEY) (JObj []);
            data ← update_engine_server_tls_config data raw;
            add_parallel data raw
          else Ret raw);
  mgmt ← jget data "mgmt_tls_config" JNull;
  infer ← jget data "infer_tls_config" JNull;
  et ← jsub data "engine_type";
  m ← jsub data "model_config"; m ← model_from_dict m;
  e ← jsub data "engine_config";
  mt ← optional_tls mgmt; it ← optional_tls infer;
  h ← jget data "health_check_config" (JObj []); h ← from_kwargs HealthCheckConfig_fields h;
  Ret (mkDeploy et m e mt it h).

(** [get_parallel_config]. *)
Definition get_parallel_config (m : ModelConfig) (role : string) : py jdict :=
  if bool_decide (role = "union") || bool_decide (role = "prefill") then Ret (prefill_parallel_config m)
  else if bool_decide (role = "decode") then Ret (decode_parallel_config m)
  else Raise ValueError.

(** ** EndpointConfig *)

Record EndpointConfig := mkEndpoint { cli : Cli; ep_engine_type : string; deploy_config : DeployConfig }.

(** [x[i] = v] of a list, behind a path of keys that ends in the list, with a path inside the item. *)
Fixpoint update_at (v : json) (path : list string) (f : json → py json) : py json :=
  match path with
  | [] => f v
  | k :: path =>
      match v with
      | JObj d => match dget d k with None => Raise KeyError | Some v' => v'' ← update_at v' path f; Ret (JObj (dset d k v'')) end
      | _ => Raise TypeError
      end
  end.
Definition update_item (i : nat) (f : json → py json) (v : json) : py json :=
  match v with
  | JList l => match l !! i with None => Raise IndexError | Some x => x' ← f x; Ret (JList (<[i := x']> l)) end
  | _ => Raise TypeError
  end.
Definition when_some {A} (o : option A) (f : A → json → py json) (v : json) : py json := match o with Some a => f a v | None => Ret v end.

Definition MULTI_CONNECTOR : string := "MultiConnector".
(** The ports of the command line in the configuration of the KV transfer. *)
Definition set_kv_ports (c : Cli) (kv : json) : py json :=
  connector ← jsub kv "kv_connector";
  if is_str MULTI_CONNECTOR connector then
    update_at kv ["kv_connector_extra_config"; "connectors"]%string (λ l,
      l ← when_some (c_kv_port c) (λ p, update_item 0 (λ x, set_path x [] "kv_port" (JStr (pretty p)))) l;
      when_some (c_lookup_rpc_port c) (λ p, update_item 1 (λ x, set_path x ["kv_connector_extra_config"%string] "lookup_rpc_port" (JStr (pretty p)))) l)
  else when_some (c_kv_port c) (λ p kv, set_path kv [] "kv_port" (JStr (pretty p))) kv.

Definition with_rpc_port (port : option Z) (p : jdict) : jdict := match port with Some z => dset p "dp_rpc_port" (JInt z) | None => p end.
Definition set_rpc_ports (c : Cli) (role : string) (m : ModelConfig) : ModelConfig :=
  mkModel (model_name m) (model_path m) (npu_mem_utils m)
    (if bool_decide (role = "prefill"%string) then with_rpc_port (c_dp_rpc_port c) (prefill_parallel_config m) else prefill_parallel_config m)
    (if bool_decide (role = "decode"%string) then with_rpc_port (c_dp_rpc_port c) (decode_parallel_config m) else decode_parallel_config m).

Section engine.
(** [str] of a value and [json.dumps]. *)
Context (py_str dumps : json → string).

(** [load_deploy_config]. *)
Definition load_deploy_config (c : Cli) (raw : json) : py EndpointConfig :=
  let role := default ""%string (c_role c) in
  d ← deploy_load raw role;
  kv ← jget (engine_config d) "kv_transfer_config" (JObj []);
  e ← (if truthy kv then kv' ← set_kv_ports c kv; set_path (engine_config d) [] "kv_transfer_config" kv' else Ret (engine_config d));
  let et := py_str (engine_type d) in
  if bool_decide (et ∈ supported_engine)
  then Ret (mkEndpoint c et (mkDeploy (engine_type d) (set_rpc_ports c role (model_config d)) e (mgmt_tls_config d) (infer_tls_config d) (health_check_config d)))
  else Raise ValueError.

(** [init_endpoint_config], of the arguments behind the name of the program: [None] if
    [argparse] ends the process. *)
Definition init_endpoint_config (stat : string → option file_info) (read : string → py json) (args : list string) : option (py EndpointConfig) :=
  c ← parse_cli_args Cli_default args;
  Some (_ ← validate stat c; path ← py_some (c_config_path c); raw ← read path; load_deploy_config c raw).

(** ** Engine arguments *)

(** [_add_argument_to_list]. *)
Definition add_argument (key : string) (v : json) : list string :=
  let name := "--" +:+ key in
  match v with
  | JBool b => if b then [name] else []
  | JList [] => []
  | JList l => name :: map py_str l
  | JObj _ => [name; dumps v]
  | _ => [name; py_str v]
  end.
Definition hyphens (s : string) : string := of_chars (map (λ ch, if bool_decide (ch = "_"%char) then "-"%char else ch) (chars s)).

Definition engine_dict (e : json) : py jdict := match e with JObj d => Ret d | _ => Raise TypeError end.
(** The fields of the model and of the parallel configuration the mapping names. *)
Definition mapped (mapping : list (string * string)) (fields : jdict) (flattened : jdict) : jdict :=
  fold_left (λ f kv, match dget fields kv.1 with Some JNull | None => f | Some v => dset f kv.2 v end) mapping flattened.
Definition model_fields (m : ModelConfig) : jdict :=
  [("model_name", model_name m); ("model_path", model_path m); ("npu_mem_utils", npu_mem_utils m)]%string.
Definition opt_str (s : option string) : json := match s with Some s => JStr s | None => JNull end.
Definition opt_z (z : option Z) : json := match z with Some z => JInt z | None => JNull end.

Definition default_mapping : list (string * string) :=
  [("model_path", "model"); ("model_name", "served_model_name"); ("npu_mem_utils", "gpu_memory_utilization"); ("dp_rank", "data_parallel_rank");
   ("dp_size", "data_parallel_size"); ("tp_size", "tensor_parallel_size"); ("pp_size", "pipeline_parallel_size"); ("enable_ep", "enable_expert_parallel")]%string.

(** The KV role of a prefill or a decode engine. *)
Definition set_kv_role (role : string) (kv : json) : py json :=
  if bool_decide (role = "prefill"%string) then set_path kv [] "kv_role" (JStr "kv_producer")
  else if bool_decide (role = "decode"%string) then set_path kv [] "kv_role" (JStr "kv_consumer")
  else Ret kv.
Definition parallel_sizes (p : jdict) : json := JObj [("dp_size", field p "dp_size"); ("tp_size", field p "tp_size")]%string.
Definition process_mooncake_connector (c : EndpointConfig) (role : string) (add_engine_id : bool) (kv : json) : py json :=
  kv ← set_kv_role role kv;
  kv ← (if add_engine_id then set_path kv [] "engine_id" (JStr (pretty (c_instance_id (cli c)))) else Ret kv);
  kv ← set_default kv [] "kv_connector_extra_config";
  kv ← set_path kv ["kv_connector_extra_config"%string] "prefill" (parallel_sizes (prefill_parallel_config (model_config (deploy_config c))));
  set_path kv ["kv_connector_extra_config"%string] "decode" (parallel_sizes (decode_parallel_config (model_config (deploy_config c)))).
Definition process_store_connector (c : EndpointConfig) (role : string) (kv : json) : py json :=
  kv ← set_kv_role role kv;
  connector ← jsub kv "kv_connector";
  let id := JStr (pretty (c_instance_id (cli c))) in
  if is_str "MooncakeConnectorStoreV1" connector then set_path kv ["kv_connector_extra_config"%string] "mooncake_rpc_port" id
  else if is_str "AscendStoreConnector" connector then set_path kv ["kv_connector_extra_config"%string] "lookup_rpc_port" id
  else Raise ValueError.
Definition process_multi_connector (c : EndpointConfig) (role : string) (kv : json) : py json :=
  kv ← set_kv_role role kv;
  kv ← set_path kv [] "engine_id" (JStr (pretty (c_instance_id (cli c))));
  present ← json_in "kv_connector_extra_config" kv;
  if negb present then Raise ValueError
  else
    update_at kv ["kv_connector_extra_config"; "connectors"]%string (λ l,
      match l with
      | JList items => if (length items <? 2)%nat then Raise ValueError
                       else l ← update_item 0 (process_mooncake_connector c role false) l; update_item 1 (process_store_connector c role) l
      | _ => Raise TypeError
      end).
(** [_process_kv_transfer_config]: the configuration as text; every failure is a [ValueError]. *)
Definition process_kv_transfer_config (c : EndpointConfig) (role : string) : py string :=
  kv ← jget (engine_config (deploy_config c)) "kv_transfer_config" JNull;
  match kv with
  | JNull => Raise ValueError
  | _ =>
      match (connector ← jsub kv "kv_connector";
             if is_str MULTI_CONNECTOR connector then process_multi_connector c role kv else process_mooncake_connector c role true kv) with
      | Ret kv => Ret (dumps kv)
      | Raise _ => Raise ValueError
      end
  end.

(** [VLLMConfig.initialize] and [_flatten_config]; more than one data parallel rank needs the
    address of the first. *)
Definition vllm_flatten (c : EndpointConfig) : py jdict :=
  let role := default ""%string (c_role (cli c)) in
  p ← get_parallel_config (model_config (deploy_config c)) role;
  dp ← int_of (field p "dp_size");
  let dp_address := if 1 <? dp then c_master_dp_ip (cli c) else None in
  kv ← (if bool_decide (role = "prefill"%string) || bool_decide (role = "decode"%string)
        then t ← process_kv_transfer_config c role; Ret (Some t) else Ret None);
  e ← engine_dict (engine_config (deploy_config c));
  let f := mapped default_mapping p (mapped default_mapping (model_fields (model_config (deploy_config c))) e) in
  let f := dset (dset f "host" (opt_str (c_host (cli c)))) "port" (opt_z (c_port (cli c))) in
  let f := match dp_address with
           | Some a => dset (dset (dset f "data_parallel_address" (JStr a)) "data_parallel_rpc_port" (field p "dp_rpc_port"))
                         "data_parallel_rank" (JInt (c_dp_rank (cli c)))
           | None => f
           end in
  Ret (match kv with Some t => dset f "kv_transfer_config" (JStr t) | None => f end).
Definition vllm_args (c : EndpointConfig) : py (list string) :=
  f ← vllm_flatten c; Ret (List.concat (map (λ kv, add_argument (hyphens kv.1) kv.2) f)).

Definition sglang_mapping : list (string * string) :=
  [("model_path", "model-path"); ("model_name", "served-model-name"); ("npu_mem_utils", "mem-fraction-static"); ("dp_size", "dp-size");
   ("tp_size", "tp-size"); ("pp_size", "pp-size")]%string.
Definition sglang_flatten (c : EndpointConfig) : py jdict :=
  let role := default ""%string (c_role (cli c)) in
  e ← engine_dict (engine_config (deploy_config c));
  p ← get_parallel_config (model_config (deploy_config c)) role;
  let f := mapped sglang_mapping p (mapped sglang_mapping (model_fields (model_config (deploy_config c))) e) in
  let f := dset (dset f "host" (opt_str (c_host (cli c)))) "port" (opt_z (c_port (cli c))) in
  nodes ← int_of (default (JInt 1) (dget f "nnodes"));
  let f := if 1 <? nodes
           then dset (dset f "dist-init-addr" (JStr (default "None" (c_master_dp_ip (cli c)) +:+ ":" +:+ py_str (field p "dp_rpc_port"))))
                  "node-rank" (JInt (c_dp_rank (cli c)))
           else f in
  Ret (dset f "disaggregation-mode"
         (JStr (if bool_decide (role = "prefill"%string) then "prefill" else if bool_decide (role = "decode"%string) then "decode" else "null"))).
Definition sglang_args (c : EndpointConfig) : py (list string) :=
  f ← sglang_flatten c;
  Ret (List.concat (map (λ kv, if bool_decide (kv.1 = "engine_type"%string) || bool_decide (kv.1 = "kv_transfer_config"%string) then []
                               else add_argument (hyphens kv.1) kv.2) f)).
(** [ConfigFactory.parse], up to the parser of the engine. *)
Definition engine_args_of (c : EndpointConfig) : py (list string) :=
  if bool_decide (ep_engine_type c = "vllm"%string) then vllm_args c
  else if bool_decide (ep_engine_type c = "sglang"%string) then sglang_args c
  else Raise ValueError.
End engine.

(** ** Lemmas *)

Lemma pretty_is_value z : 0 <= z → is_value (pretty z) = true.
Proof.
  intros Hz. destruct z as [|p|p]; [reflexivity| |lia].
  destruct (pretty_go_digits (N.pos p) ltac:(lia)) as (dx & Hne & Hall & Hs & _). unfold is_value.
  assert (chars (pretty (Z.pos p)) = dx) as -> by (etransitivity; [apply (Hs "")|apply app_nil_r]).
  destruct dx as [|ch dx]; [done|]. apply Forall_cons in Hall as [Hc _].
  destruct ch as [[] [] [] [] [] [] [] []]; (reflexivity || discriminate Hc).
Qed.

(** One option and its value are taken off the front of the arguments. *)
Lemma parse_option c c' name value args :
  is_value value = true → set_option c name value = Some c' → parse_cli_args c (name :: value :: args) = parse_cli_args c' args.
Proof. intros Hv Hs. cbn [parse_cli_args]. by rewrite Hv, Hs. Qed.
Lemma parse_options_app c c' xs args :
  parse_cli_args c (flat_map (λ nv, [nv.1; nv.2]) xs) = Some c' → parse_cli_args c (flat_map (λ nv, [nv.1; nv.2]) xs ++ args) = parse_cli_args c' args.
Proof.
  revert c. induction xs as [|[n v] xs IH]; intros c; cbn [flat_map app parse_cli_args fst snd]; [by intros [= ->]|].
  destruct (is_value v); [|done]. destruct (set_option c n v) as [c1|]; [|done]. apply IH.
Qed.

(** What the node manager tells the engine of the endpoint [e]. *)
Definition cli_of (out : NodeOutside) (c : NodeConfig) (role : PDRole) (e : Endpoint) (business mgmt instance_id : Z) (master : string) : Cli :=
  let sc := nc_single c in
  let single {A} (o : option A) : option A := if single_container_flag sc then o else None in
  mkCli (Some (ep_ip e)) (Some (PDRole_value role)) (single (kv_port sc)) (single (lookup_rpc_port sc)) (Some master) (single (dp_rpc_port sc))
    (Some business) (Some mgmt) instance_id (ep_id e) (Some (user_config_path out)).

(** The ports of a single container are there and not negative. *)
Definition container_ports (sc : SingleContainer) : Prop :=
  single_container_flag sc = true →
  (∃ p, kv_port sc = Some p ∧ 0 <= p) ∧ (∃ p, dp_rpc_port sc = Some p ∧ 0 <= p) ∧ (∀ p, lookup_rpc_port sc = Some p → 0 <= p).

Ltac parse_next :=
  erewrite parse_option;
  [|first [done | apply pretty_is_value; lia | reflexivity]|
    unfold set_option; repeat rewrite bool_decide_false by discriminate; rewrite bool_decide_true by done; rewrite ?py_int_pretty by lia; reflexivity].

Lemma parse_engine_args out c role e business mgmt id master :
  0 <= business → 0 <= mgmt → 0 <= id → 0 <= ep_id e →
  is_value (ep_ip e) = true → is_value master = true → is_value (user_config_path out) = true → container_ports (nc_single c) →
  parse_cli_args Cli_default (tail (engine_args out c role e business mgmt id master)) = Some (cli_of out c role e business mgmt id master).
Proof.
  intros Hb Hm Hid He Hip Hma Hpa Hports. assert (is_value (PDRole_value role) = true) as Hr by by destruct role.
  unfold engine_args, flag, cli_of, Cli_default. cbn [app tail].
  do 8 parse_next. destruct (single_container_flag (nc_single c)) eqn:Es; [|reflexivity].
  destruct (Hports Es) as ((kv & Ekv & Hkv) & (rp & Erp & Hrp) & Hl). rewrite Ekv, Erp. cbn [app port_text].
  do 2 parse_next. destruct (lookup_rpc_port (nc_single c)) as [lo|] eqn:El; [|reflexivity].
  specialize (Hl lo eq_refl). parse_next. reflexivity.
Qed.

Lemma raise_if_ret b e : raise_if b e = Ret tt ↔ b = false.
Proof. by destruct b. Qed.
Lemma port_valid_ret p : port_valid_check p = Ret tt ↔ 1024 <= p <= 65535.
Proof. unfold port_valid_check. destruct (p <? 1024) eqn:E1, (65535 <? p) eqn:E2; cbn [orb]; split; intros; try done; lia. Qed.
Lemma ip_valid_ret s : ip_address s = true → ip_valid_check (Some s) = Ret tt ↔ is_unspecified s = false ∧ is_multicast s = false.
Proof. intros H. unfold ip_valid_check. rewrite H. cbn [negb]. destruct (is_unspecified s), (is_multicast s); naive_solver. Qed.
Lemma bind_unit {A} (m : py unit) (k : unit → py A) (v : A) : (x ← m; k x) = Ret v ↔ m = Ret tt ∧ k tt = Ret v.
Proof. destruct m as [[]|e]; cbn; naive_solver. Qed.
Lemma supported_pd role : bool_decide (PDRole_value role ∈ supported_role) = negb (bool_decide (role = ROLE_U)).
Proof. by destruct role. Qed.

(** [validate], of a complete command line with a valid address. *)
Lemma validate_ret stat c r h port mgmt path :
  c_role c = Some r → c_host c = Some h → c_port c = Some port → c_mgmt_port c = Some mgmt → c_config_path c = Some path →
  ip_address h = true →
  validate stat c = Ret tt ↔
    r ∈ supported_role ∧ 0 <= c_instance_id c ∧ (is_unspecified h = false ∧ is_multicast h = false) ∧ 1024 <= port <= 65535 ∧
    1024 <= mgmt <= 65535 ∧ 0 <= c_dp_rank c <= 65535 ∧ ∃ i, stat path = Some i ∧ file_valid path i = true.
Proof.
  intros Er Eh Ep Em Ec Hip. unfold validate. rewrite Er, Eh, Ep, Em, Ec. cbn [py_some].
  repeat (rewrite bind_unit || change (mbind ?k (Ret ?x)) with (k x); cbv beta).
  rewrite !raise_if_ret, !port_valid_ret, ip_valid_ret, negb_false_iff, bool_decide_eq_true, orb_false_iff, !Z.ltb_ge by done.
  destruct (stat path) as [i|]; [rewrite raise_if_ret, negb_false_iff|]; naive_solver lia.
Qed.

(** *** Flattening *)

(** A value that is there and not null. *)
Definition given (d : jdict) (k : string) : option json := match dget d k with Some JNull => None | o => o end.

Lemma mapped_get mapping fields k k' : NoDup (snd <$> mapping) → (k, k') ∈ mapping → ∀ f,
  dget (mapped mapping fields f) k' = match given fields k with Some v => Some v | None => dget f k' end.
Proof.
  assert (∀ mapping f, k' ∉ mapping.*2 → dget (mapped mapping fields f) k' = dget f k') as Hout.
  { intros m. induction m as [|[a b] m IH]; intros f Hn; [done|]. apply not_elem_of_cons in Hn as [Hb Hn]. cbn [mapped fold_left fst snd].
    change (dget (mapped m fields (match dget fields a with Some JNull | None => f | Some v => dset f b v end)) k' = dget f k').
    rewrite IH by done. destruct (dget fields a) as [[]|]; rewrite ?dget_dset_ne by (intros ->; by apply Hb); done. }
  induction mapping as [|[a b] m IH]; intros Hnd Hin f; [by apply elem_of_nil in Hin|].
  apply NoDup_cons in Hnd as [Hb Hnd]. cbn [mapped fold_left fst snd].
  change (dget (mapped m fields (match dget fields a with Some JNull | None => f | Some v => dset f b v end)) k' =
    match given fields k with Some v => Some v | None => dget f k' end).
  apply elem_of_cons in Hin as [[= -> ->]|Hin].
  - rewrite Hout by done. unfold given. destruct (dget fields a) as [[]|]; rewrite ?dget_dset_eq; done.
  - rewrite IH by done. assert (b ≠ k') as Hne by (intros ->; apply Hb, list_elem_of_fmap; by exists (k, k')).
    destruct (given fields k); [done|]. destruct (dget fields a) as [[]|]; rewrite ?dget_dset_ne by done; done.
Qed.
Lemma default_mapping_nodup : NoDup (snd <$> default_mapping).
Proof. apply (bool_decide_unpack _). vm_compute. exact I. Qed.
Lemma dget_not_in_mapping k k' : (k, k') ∈ default_mapping → k' ∉ ["host"; "port"; "data_parallel_address"; "data_parallel_rpc_port"; "kv_transfer_config"]%string.
Proof.
  intros H. assert (Forall (λ kv, kv.2 ∉ ["host"; "port"; "data_parallel_address"; "data_parallel_rpc_port"; "kv_transfer_config"]%string) default_mapping) as Hall.
  { apply (bool_decide_unpack _). vm_compute. exact I. }
  exact (proj1 (Forall_forall _ _) Hall _ H).
Qed.

(** ** Properties *)


(** The values the configuration of an engine is given.  Of every mapped option the value of
    the parallel configuration of its role is taken, if there is none that of the model, and
    only then what the engine configuration says; the address and the port are always those
    of the command line. *)
Theorem vllm_precedence dumps c f p k k' :
  vllm_flatten dumps c = Ret f → get_parallel_config (model_config (deploy_config c)) (default ""%string (c_role (cli c))) = Ret p →
  (k, k') ∈ default_mapping → k' ≠ "data_parallel_rank"%string →
  ∃ e, engine_config (deploy_config c) = JObj e ∧
    dget f k' = match given p k with
                | Some v => Some v
                | None => match given (model_fields (model_config (deploy_config c))) k with Some v => Some v | None => dget e k' end
                end ∧
    dget f "host"%string = Some (opt_str (c_host (cli c))) ∧ dget f "port"%string = Some (opt_z (c_port (cli c))).
Proof.
  intros Hf Hp Hin Hrank. pose proof (dget_not_in_mapping _ _ Hin) as Hno. rewrite !not_elem_of_cons in Hno.
  destruct Hno as (N1 & N2 & N3 & N4 & N5 & _). unfold vllm_flatten in Hf. rewrite Hp in Hf. cbn [mbind py_bind] in Hf.
  destruct (int_of (field p "dp_size")) as [dp|]; [|discriminate Hf]. set (kv := if bool_decide _ || bool_decide _ then _ else _) in Hf.
  clearbody kv. destruct kv as [kv|]; [|discriminate Hf].
  change (Ret ?x ≫= ?g) with (g x) in Hf. cbv beta in Hf.
  destruct (engine_config (deploy_config c)) as [ | | | | | |e]; [discriminate Hf..|]. exists e. split; [done|].
  cbn [engine_dict mbind py_bind] in Hf. assert (∀ (x y : jdict), Ret x = Ret y → x = y) as Hinj by congruence.
  apply Hinj in Hf. subst f. clear Hinj.
  destruct kv as [t|]; destruct (if 1 <? dp then _ else _) as [a|]; rewrite ?dget_dset_ne by congruence;
    (split_and!; [|by rewrite ?dget_dset_ne, ?dget_dset_eq by discriminate..]);
    rewrite !(mapped_get default_mapping _ k k') by (assumption || apply default_mapping_nodup); reflexivity.
Qed.

(** TLS of the management plane is no use without TLS of the inference plane: the connector is
    given the certificates of the latter, and without its section the engine does not start. *)
Lemma mgmt_tls_needs_infer data user deploy tls mgmt :
  jsub user "motor_deploy_config" = Ret deploy → json_in "tls_config" deploy = Ret true → jsub deploy "tls_config" = Ret tls →
  jget tls "mgmt_tls_config" JNull = Ret mgmt → truthy_and mgmt "enable_tls" = Ret true → jget tls "infer_tls_config" JNull = Ret JNull →
  ∃ e, update_engine_server_tls_config data user = Raise e.
Proof.
  intros H1 H2 H3 H4 H5 H6. unfold update_engine_server_tls_config. rewrite H1. cbn [mbind py_bind]. rewrite H2. cbn [mbind py_bind negb].
  rewrite H3. cbn [mbind py_bind]. rewrite H4. cbn [mbind py_bind]. destruct (set_path data _ _ _) as [d|]; [cbn [mbind py_bind]|by eexists].
  rewrite H6. cbn [mbind py_bind]. destruct (set_path d _ _ _) as [d1|]; [cbn [mbind py_bind]|by eexists].
  destruct (jsub d1 _); [cbn [mbind py_bind]|by eexists]. change (truthy_and JNull _) with (Ret false). cbn [mbind py_bind].
  rewrite H5. cbn [mbind py_bind]. change (jsub JNull ?k) with (Raise (A := json) TypeError).
  repeat (match goal with |- ∃ _, (?m ≫= _) = _ => destruct m end; [cbn [mbind py_bind]|by eexists]). by eexists.
Qed.

(** *** Witnesses and samples *)

Definition sample_endpoint (i : Z) : Endpoint :=
  Resources.mkEndpoint i "10.0.0.1" (pretty (10000 + 2 * i)) (pretty (10001 + 2 * i)) EP_INITIAL [] f0 Workload0.
Definition sample_stat (path : string) : option file_info := if bool_decide (path = "/conf"%string) then Some (mkInfo true "/conf" 500) else None.
Definition sample_engine_cmd (role : PDRole) : EngineCmd :=
  match engine_cmd sample_outside sample_node role 1 (sample_endpoint 1) 7 "10.0.0.1" with Ret cmd => cmd | Raise _ => mkCmd [] None end.
(** A hybrid engine never passes: its role is called "both" on the command line. *)
Example hybrid_engine_rejected :
  (c ← parse_cli_args Cli_default (tail (cmd_args (sample_engine_cmd ROLE_U))); Some (validate sample_stat c)) = Some (Raise ValueError).
Proof. vm_compute. reflexivity. Qed.

(** A user configuration with both roles and TLS of the inference plane. *)
Definition sample_tls : json := JObj [("enable_tls", JBool true); ("key_file", JStr "k"); ("cert_file", JStr "c"); ("ca_file", JStr "a")]%string.
Definition sample_part (dp : Z) : json :=
  JObj [("engine_type", JStr "vllm");
        ("model_config", JObj [("model_name", JStr "m"); ("model_path", JStr "/m"); ("npu_mem_utils", JInt 1); ("parallel_config", JObj [("dp_size", JInt dp); ("tp_size", JInt 2)])]);
        ("engine_config", JObj [("tensor_parallel_size", JInt 64); ("max_model_len", JInt 2048); ("enforce_eager", JBool true);
           ("kv_transfer_config", JObj [("kv_connector", JStr "MooncakeConnectorV1")])])]%string.
Definition sample_deploy (tls : list (string * json)) : json :=
  JObj [("motor_deploy_config", JObj [("tls_config", JObj tls)]); ("motor_engine_prefill_config", sample_part 1); ("motor_engine_decode_config", sample_part 4)]%string.
Definition sample_str (v : json) : string := match v with JStr s => s | JInt z => pretty z | JNull => "None" | _ => "" end%string.
Definition sample_cli (role : string) : Cli :=
  mkCli (Some "10.0.0.1"%string) (Some role) (Some 20001) None (Some "10.0.0.9"%string) (Some 9100) (Some 10002) (Some 10003) 7 1 (Some "/conf"%string).
Definition sample_config (role : string) : py EndpointConfig := load_deploy_config sample_str (sample_cli role) (sample_deploy [("infer_tls_config"%string, sample_tls)]).

(** The tensor parallelism of the model wins over that of the engine; the other options stay. *)
Example sample_args :
  (c ← sample_config "decode"; engine_args_of sample_str (λ _, "{}"%string) c) = Ret
    ["--tensor-parallel-size"; "2"; "--max-model-len"; "2048"; "--enforce-eager"; "--kv-transfer-config"; "{}"; "--ssl-keyfile"; "k"; "--ssl-certfile"; "c";
     "--ssl-ca-certs"; "a"; "--model"; "/m"; "--served-model-name"; "m"; "--gpu-memory-utilization"; "1"; "--data-parallel-size"; "4";
     "--pipeline-parallel-size"; "1"; "--host"; "10.0.0.1"; "--port"; "10002"; "--data-parallel-address"; "10.0.0.9"; "--data-parallel-rpc-port"; "9100";
     "--data-parallel-rank"; "1"]%string.
Proof. vm_compute. reflexivity. Qed.
Lemma vllm_precedence_witness :
  ∃ c f, sample_config "decode" = Ret c ∧ vllm_flatten (λ _, "{}"%string) c = Ret f ∧ dget f "tensor_parallel_size"%string = Some (JInt 2).
Proof.
  destruct (sample_config "decode") as [c|e] eqn:Ec; [|exfalso; revert Ec; vm_compute; discriminate].
  destruct (vllm_flatten (λ _, "{}"%string) c) as [f|e] eqn:Ef; [|exfalso; revert Ef; injection Ec as <-; vm_compute; discriminate].
  exists c, f. split; [done|]. split; [done|].
  destruct (get_parallel_config (model_config (deploy_config c)) "decode") as [p|e] eqn:Ep; [|exfalso; revert Ep; injection Ec as <-; vm_compute; discriminate].
  injection Ec as <-.
  destruct (vllm_precedence (λ _, "{}"%string) _ f p "tp_size" "tensor_parallel_size" Ef Ep ltac:(apply (bool_decide_unpack _); vm_compute; exact I) ltac:(discriminate))
    as (e & _ & H & _).
  rewrite H. injection Ep as <-. reflexivity.
Defined.
Lemma mgmt_tls_needs_infer_witness :
  ∃ e, update_engine_server_tls_config (sample_part 1) (sample_deploy [("mgmt_tls_config"%string, sample_tls)]) = Raise e.
Proof.
  exact (mgmt_tls_needs_infer (sample_part 1) (sample_deploy [("mgmt_tls_config"%string, sample_tls)]) _ _ sample_tls
    eq_refl eq_refl eq_refl eq_refl eq_refl eq_refl).
Defined.
