(* ===== verification/Certificates.v ===== *)
(** * Certificates and TLS contexts

    Models [common/http/cert_util.py] and [common/http/password_utils.py]: which certificates,
    keys and revocation lists are accepted, which TLS contexts are built from them, and what the
    servers of the processes do with the context.

    OpenSSL is an argument: what it answers of a certificate, each answer of which may raise, and
    whether files load.  The times of certificates are the texts of fourteen digits and [Z] that
    it answers.  The defaults of an [ssl.SSLContext] are those of the standard library. *)

From stdpp Require Import base option list strings.
From Stdlib Require Import Ascii ZArith Lia.
From S2P Require Import Prelude PyText.
Open Scope Z_scope.

(** ** Times *)

Record utc := mkUtc { year : Z; month : Z; day : Z; hour : Z; minute : Z; second : Z; microsecond : Z }.
Definition utc_fields (t : utc) : list Z := [year t; month t; day t; hour t; minute t; second t; microsecond t].
(** [<] of two times in UTC: of the fields, the first that differs decides. *)
Fixpoint lex_lt (a b : list Z) : bool :=
  match a, b with
  | x :: a, y :: b => (x <? y) || ((x =? y) && lex_lt a b)
  | [], _ :: _ => true
  | _, [] => false
  end.
Definition before (t u : utc) : bool := lex_lt (utc_fields t) (utc_fields u).

Definition is_leap (y : Z) : bool := (y mod 4 =? 0) && (negb (y mod 100 =? 0) || (y mod 400 =? 0)).
Definition days_in_month (y m : Z) : Z :=
  if m =? 2 then (if is_leap y then 29 else 28) else if bool_decide (m ∈ [4; 6; 9; 11]) then 30 else 31.
Definition utc_valid (t : utc) : bool :=
  (1 <=? year t) && (year t <=? 9999) && (1 <=? month t) && (month t <=? 12) && (1 <=? day t) && (day t <=? days_in_month (year t) (month t)) &&
  (0 <=? hour t) && (hour t <=? 23) && (0 <=? minute t) && (minute t <=? 59) && (0 <=? second t) && (second t <=? 59).

Definition digit (c : ascii) : Z := code c - 48.
Definition number (l : list ascii) : Z := fold_left (λ n c, n * 10 + digit c) l 0.
(** [datetime.strptime] of a text of the form [%Y%m%d%H%M%SZ]. *)
Definition parse_time (s : string) : py utc :=
  let l := chars s in
  if (length l =? 15)%nat && forallb is_digit (take 14 l) && bool_decide (drop 14 l = ["Z"%char]) then
    let field (i n : nat) := number (take n (drop i l)) in
    let t := mkUtc (field 0%nat 4%nat) (field 4%nat 2%nat) (field 6%nat 2%nat) (field 8%nat 2%nat) (field 10%nat 2%nat) (field 12%nat 2%nat) 0 in
    if utc_valid t then Ret t else Raise ValueError
  else Raise ValueError.

(** The text of a time, [strftime('%Y%m%d%H%M%SZ')] from the year 1000 on. *)
Definition digit_char (z : Z) : ascii := ascii_of_N (Z.to_N (48 + z)).
Definition two_digits (z : Z) : list ascii := [digit_char (z / 10); digit_char (z mod 10)].
Definition four_digits (z : Z) : list ascii := two_digits (z / 100) ++ two_digits (z mod 100).
Definition print_time (t : utc) : string :=
  of_chars (four_digits (year t) ++ two_digits (month t) ++ two_digits (day t) ++ two_digits (hour t) ++ two_digits (minute t) ++ two_digits (second t) ++ ["Z"%char]).

(** ** What OpenSSL answers *)

Inductive public_key := RsaKey (key_size modulus : Z) | OtherKey.
Record KeyUsage := mkUsage { digital_signature : bool; key_cert_sign : bool; crl_sign : bool }.
(** [None]: the certificate has no such extension. *)
Record Extensions := mkExt { basic_constraints_ca : py (option bool); key_usage : py (option KeyUsage) }.
Record X509 := mkX509 {
  x_version : py Z;
  x_not_before : py string;
  x_not_after : py string;
  x_algorithm : py string;
  x_key : py public_key;
  x_extensions : py Extensions;
  x_digest : py string;
  x_issuer_hash : py Z;
  x_subject_hash : py Z
}.
Record CRL := mkCrl { last_update : py utc; next_update : py utc }.
Inductive key_loaded := KeyLoaded (k : public_key) | CryptoError | KeyRaises.

Definition MIN_RSA_LENGTH : Z := 3072.
Definition RSA_SHA : list string := ["sha256WithRSAEncryption"; "sha384WithRSAEncryption"; "sha512WithRSAEncryption"]%string.
(** [try: ... except Exception: return d]. *)
Definition or_else {A} (m : py A) (d : A) : A := match m with Ret a => a | Raise _ => d end.

(** [validate_certs_and_keys_modulus]. *)
Definition modulus_of (k : public_key) : py Z := match k with RsaKey _ n => Ret n | OtherKey => Raise AttributeError end.
Definition validate_certs_and_keys_modulus (server_crt : X509) (server_key : public_key) : bool :=
  or_else (k ← x_key server_crt; n ← modulus_of k; m ← modulus_of server_key; Ret (n =? m)) false.

Definition has_expired (now : utc) (cert : X509) : bool :=
  or_else (b ← x_not_before cert; before_time ← parse_time b; a ← x_not_after cert; after_time ← parse_time a;
           Ret (before now before_time || before after_time now)) true.

(** The flags of the extensions; what was read before a failure stays. *)
Definition ca_flag (o : option bool) : bool := match o with Some b => b | None => false end.
Definition no_usage : KeyUsage := mkUsage false false false.
Definition extension_flags (cert : X509) : bool * KeyUsage :=
  match x_extensions cert with
  | Raise _ => (false, no_usage)
  | Ret e =>
      match basic_constraints_ca e with
      | Raise _ => (false, no_usage)
      | Ret bc => (ca_flag bc, match key_usage e with Ret (Some u) => u | _ => no_usage end)
      end
  end.

(** [validate_server_certs]: the extensions are only logged. *)
Definition validate_server_certs (now : utc) (server_cert : X509) : bool :=
  or_else
    (v ← x_version server_cert;
     if negb (v =? 2) then Ret false
     else
       pkey_algorithm ← x_algorithm server_cert;
       if negb (bool_decide (pkey_algorithm ∈ RSA_SHA)) then Ret false
       else
         pkey ← x_key server_cert;
         match pkey with
         | RsaKey rsa_length _ => if rsa_length <? MIN_RSA_LENGTH then Ret false else Ret (negb (has_expired now server_cert))
         | OtherKey => Ret false
         end) false.

Section openssl.
(** The files, the parsers and the checks of signatures, and the time. *)
Context (path_exists : string → bool) (read_file : string → py string) (file_size directory_mode : string → py Z).
Context (load_certificate : string → py X509) (load_privatekey : string → option string → key_loaded) (load_crl : string → py CRL).
Context (verify_directly_issued_by : X509 → X509 → py unit) (is_signature_valid : CRL → X509 → py bool).
Context (load_cert_chain : string → string → option string → py unit) (load_verify_locations : string → py unit).
Context (now : utc).

Definition validate_cert_signature (cert ca_cert : X509) : bool :=
  or_else (_ ← verify_directly_issued_by cert ca_cert; i ← x_issuer_hash cert; s ← x_subject_hash ca_cert; Ret (i =? s)) false.

Definition read_certificate (path : string) : py X509 := data ← read_file path; load_certificate data.

(** [validate_revoke_list]. *)
Definition validate_revoke_list (crl_file_path : string) : bool :=
  if negb (path_exists crl_file_path) then false
  else or_else (data ← read_file crl_file_path; crl ← load_crl data; last ← last_update crl; next ← next_update crl;
                Ret (negb (before now last) && before now next)) false.

(** [validate_ca_certs]: the length of the key is looked at if it is an RSA key. *)
Definition validate_ca_certs (ca_crt_path : string) : bool :=
  or_else
    (ca_cert ← read_certificate ca_crt_path;
     v ← x_version ca_cert;
     if negb (v =? 2) then Ret false
     else
       let '(ca, u) := extension_flags ca_cert in
       if negb ca then Ret false
       else if negb (digital_signature u) then Ret false
       else if negb (key_cert_sign u) then Ret false
       else if negb (crl_sign u) then Ret false
       else
         pkey_algorithm ← x_algorithm ca_cert;
         if negb (bool_decide (pkey_algorithm ∈ RSA_SHA)) then Ret false
         else
           pkey ← x_key ca_cert;
           if match pkey with RsaKey rsa_length _ => rsa_length <? MIN_RSA_LENGTH | OtherKey => false end then Ret false
           else
             _ ← x_digest ca_cert;
             Ret (negb (has_expired now ca_cert))) false.

(** Bytes are falsy if there are none. *)
Definition given_text (p : option string) : option string := match p with Some s => if bool_decide (s = "") then None else Some s | None => None end.
(** The private key: with a password it is tried with and then without it. *)
Definition load_server_key (key_data : string) (plain_text : option string) : option public_key :=
  match given_text plain_text with
  | None => match load_privatekey key_data None with KeyLoaded k => Some k | _ => None end
  | Some p =>
      match load_privatekey key_data (Some p) with
      | KeyLoaded k => Some k
      | CryptoError => match load_privatekey key_data None with KeyLoaded k => Some k | _ => None end
      | KeyRaises => None
      end
  end.
Definition validate_cert_and_key (server_crt_path server_key_path : string) (plain_text ca_crt_path : option string) : bool :=
  or_else
    (server_cert ← read_certificate server_crt_path;
     key_data ← read_file server_key_path;
     match load_server_key key_data plain_text with
     | None => Ret false
     | Some server_key =>
         if negb (validate_server_certs now server_cert) then Ret false
         else if negb (validate_certs_and_keys_modulus server_cert server_key) then Ret false
         else
           match given_text ca_crt_path with
           | Some ca => ca_cert ← read_certificate ca; Ret (validate_cert_signature server_cert ca_cert)
           | None => Ret true
           end
     end) false.

Definition validate_ca_crl (ca_path crl_path : string) : bool :=
  if negb (path_exists ca_path) then false
  else if negb (path_exists crl_path) then false
  else or_else (data ← read_file crl_path; crl ← load_crl data; ca_cert ← read_certificate ca_path; is_signature_valid crl ca_cert) false.

Definition validate_certificate_chain (ca_file cert_file key_file : string) (crl_file : option string) (password : string) : bool :=
  if negb (validate_ca_certs ca_file) then false
  else if match given_text crl_file with Some crl => path_exists crl && negb (validate_ca_crl ca_file crl) | None => false end then false
  else validate_cert_and_key cert_file key_file (given_text (Some password)) (Some ca_file).

(** [PasswordDecryptor.decrypt]. *)
Definition decrypt (password_file : string) : string :=
  if path_exists password_file then match read_file password_file with Ret s => strip s | Raise _ => ""%string end else ""%string.

(** ** Contexts *)

Inductive purpose := SERVER_AUTH | CLIENT_AUTH.
Inductive protocol := PROTOCOL_TLS_SERVER | PROTOCOL_TLS_CLIENT.
(** [verify_peer]: [verify_mode] is [CERT_REQUIRED]; [own_chain]: the certificate and key it shows;
    [trusted]: the authorities it verifies a peer with. *)
Record SSLContext := mkCtx {
  ctx_protocol : protocol;
  verify_peer : bool;
  check_hostname : bool;
  tls13_only : bool;
  own_chain : option (string * string);
  trusted : option string;
  system_trusted : bool
}.
(** [ssl.SSLContext(protocol)] and [ssl.create_default_context(SERVER_AUTH)] of the standard library. *)
Definition SSLContext_init (p : protocol) : SSLContext :=
  match p with
  | PROTOCOL_TLS_SERVER => mkCtx p false false false None None false
  | PROTOCOL_TLS_CLIENT => mkCtx p true true false None None false
  end.
Definition create_default_context : SSLContext := mkCtx PROTOCOL_TLS_CLIENT true true false None None true.
Definition configure_tls13_only (c : SSLContext) : SSLContext :=
  mkCtx (ctx_protocol c) (verify_peer c) (check_hostname c) true (own_chain c) (trusted c) (system_trusted c).
Definition with_chain (cert key : string) (c : SSLContext) : SSLContext :=
  mkCtx (ctx_protocol c) (verify_peer c) (check_hostname c) (tls13_only c) (Some (cert, key)) (trusted c) (system_trusted c).
Definition with_trusted (ca : string) (c : SSLContext) : SSLContext :=
  mkCtx (ctx_protocol c) (verify_peer c) (check_hostname c) (tls13_only c) (own_chain c) (Some ca) (system_trusted c).
Definition unverified (c : SSLContext) : SSLContext :=
  mkCtx (ctx_protocol c) false false (tls13_only c) (own_chain c) (trusted c) (system_trusted c).

Record TLSConfig := mkTls { enable_tls : bool; ca_file : string; cert_file : string; key_file : string; passwd_file : string; crl_file : string }.
Definition empty (s : string) : bool := bool_decide (s = ""%string).
Definition caught {A} (m : py (option A)) : option A := or_else m None.

Definition create_ssl_context (tls_config : TLSConfig) (p : purpose) : option SSLContext :=
  let '(mkTls _ ca_file cert_file key_file password_file crl_file) := tls_config in
  if empty cert_file || empty key_file || empty ca_file then None
  else if negb (path_exists cert_file) || negb (path_exists key_file) || negb (path_exists ca_file) then None
  else
    let context := SSLContext_init (match p with SERVER_AUTH => PROTOCOL_TLS_SERVER | CLIENT_AUTH => PROTOCOL_TLS_CLIENT end) in
    let checks := negb (empty password_file) && path_exists password_file in
    let password_bytes := if checks then given_text (Some (decrypt password_file)) else None in
    if checks && negb (validate_cert_and_key cert_file key_file password_bytes (Some ca_file)) then None
    else caught
      (_ ← load_cert_chain cert_file key_file password_bytes;
       if negb (validate_ca_certs ca_file) then Ret None
       else
         _ ← load_verify_locations ca_file;
         if negb (empty crl_file) && negb (validate_ca_crl ca_file crl_file) then Ret None
         else Ret (Some (with_trusted ca_file (with_chain cert_file key_file context)))).

Definition create_ssl_context_no_client_cert (cert_file key_file ca_file password_file : string) : option SSLContext :=
  if empty cert_file || empty key_file then None
  else if negb (path_exists cert_file) || negb (path_exists key_file) then None
  else
    let ca := if negb (empty ca_file) && path_exists ca_file then Some ca_file else None in
    let password_bytes := given_text (Some (decrypt password_file)) in
    if negb (validate_cert_and_key cert_file key_file password_bytes ca) then None
    else
      let context := unverified (configure_tls13_only create_default_context) in
      let context := match ca with
                     | Some f => match load_verify_locations f with Ret _ => with_trusted f context | Raise _ => context end
                     | None => context
                     end in
      caught (_ ← load_cert_chain cert_file key_file password_bytes; Ret (Some (with_chain cert_file key_file context))).

(** [os.path.dirname]. *)
Definition dirname (path : string) : string :=
  let head := rev (drop_while (λ c, negb (bool_decide (c = "/"%char))) (rev (chars path))) in
  let stripped := rev (drop_while (λ c, bool_decide (c = "/"%char)) (rev head)) in
  of_chars (match stripped with [] => head | _ => stripped end).

(** [_check_invalid_ssl_path] and [_check_invalid_ssl_filesize], of the paths by key. *)
Definition SSL_MUST_KEYS : list string := ["ca_cert"; "tls_cert"; "tls_key"]%string.
Definition check_path (config : list (string * string)) (key : string) : py unit :=
  match dget config key with
  | None => Raise RuntimeError
  | Some path =>
      if negb (path_exists path) then Raise RuntimeError
      else mode ← directory_mode (dirname path); if mode =? 448 then Ret tt else Raise RuntimeError
  end.
Definition check_size (config : list (string * string)) (key : string) : py unit :=
  match dget config key with
  | None => Raise KeyError
  | Some path => size ← file_size path; if 10 * 1024 * 1024 <? size then Raise RuntimeError else Ret tt
  end.
Definition check_each (check : string → py unit) (keys : list string) : py unit := fold_left (λ r k, _ ← r; check k) keys (Ret tt).
Definition item (config : list (string * string)) (key : string) : py string := match dget config key with Some v => Ret v | None => Raise KeyError end.

Definition construct_cert_context (config : list (string * string)) : option SSLContext :=
  caught
    (let with_crl := dhas config "tls_crl" in
     let required_keys := SSL_MUST_KEYS ++ (if with_crl then ["tls_crl"%string] else []) in
     _ ← check_each (check_path config) required_keys;
     _ ← check_each (check_size config) SSL_MUST_KEYS;
     let password := default ""%string (dget config "tls_passwd"%string) in
     ca ← item config "ca_cert"; cert ← item config "tls_cert"; key ← item config "tls_key";
     if negb (validate_ca_certs ca) then Raise RuntimeError
     else if with_crl && negb (validate_ca_crl ca (default ""%string (dget config "tls_crl"%string))) then Raise RuntimeError
     else if negb (validate_cert_and_key cert key (Some password) (Some ca)) then Raise RuntimeError
     else
       _ ← load_verify_locations ca;
       _ ← load_cert_chain cert key (Some password);
       Ret (Some (with_chain cert key (with_trusted ca (configure_tls13_only create_default_context))))).

(** ** The servers *)

(** What a server listens with: [None] is plain HTTP. *)
Definition tls_of (c : TLSConfig) : option SSLContext := create_ssl_context c SERVER_AUTH.
(** [ManagementServer.run] and the inference workers of the coordinator. *)
Definition coordinator_listens (c : TLSConfig) : py (option SSLContext) := if enable_tls c then Ret (tls_of c) else Ret None.
(** The servers of the controller, the node manager and the engine. *)
Definition others_listen (c : TLSConfig) : py (option SSLContext) :=
  if enable_tls c then match tls_of c with Some context => Ret (Some context) | None => Raise RuntimeError end else Ret None.
End openssl.

(** ** Lemmas *)

(** *** Times *)

Lemma digit_char_spec z : 0 <= z < 10 → is_digit (digit_char z) = true ∧ digit (digit_char z) = z.
Proof.
  intros Hz. assert (z = 0 ∨ z = 1 ∨ z = 2 ∨ z = 3 ∨ z = 4 ∨ z = 5 ∨ z = 6 ∨ z = 7 ∨ z = 8 ∨ z = 9) as H by lia.
  repeat destruct H as [->|H]; [by split..|subst; by split].
Qed.
Lemma digit_inj c : is_digit c = true → 0 <= digit c < 10 ∧ digit_char (digit c) = c.
Proof. destruct c as [[] [] [] [] [] [] [] []]; first [discriminate 1 | intros _; split; [split; [discriminate|reflexivity]|reflexivity]]. Qed.
Lemma two_digits_spec z : 0 <= z < 100 → forallb is_digit (two_digits z) = true ∧ number (two_digits z) = z.
Proof.
  intros Hz. unfold two_digits, number. cbn [fold_left forallb].
  assert (0 <= z / 10 < 10) as H1 by (split; [apply Z.div_pos; lia|apply Z.div_lt_upper_bound; lia]).
  assert (0 <= z mod 10 < 10) as H2 by (apply Z.mod_pos_bound; lia).
  destruct (digit_char_spec _ H1) as [-> ->], (digit_char_spec _ H2) as [-> ->]. split; [done|]. pose proof (Z.div_mod z 10 ltac:(lia)). lia.
Qed.
Lemma number_app a b : number (a ++ b) = number a * 10 ^ Z.of_nat (length b) + number b.
Proof.
  unfold number. rewrite fold_left_app. generalize (fold_left (λ n c, n * 10 + digit c) a 0) as x. intros x.
  assert (∀ b y, fold_left (λ n c, n * 10 + digit c) b y = y * 10 ^ Z.of_nat (length b) + fold_left (λ n c, n * 10 + digit c) b 0) as H; [|apply H].
  clear. intros b. induction b as [|c b IH]; intros y; cbn [fold_left length]; [change (10 ^ Z.of_nat 0) with 1; lia|].
  rewrite IH, (IH (0 * 10 + digit c)). rewrite Nat2Z.inj_succ, Z.pow_succ_r by lia. ring.
Qed.
Lemma four_digits_spec z : 0 <= z < 10000 → forallb is_digit (four_digits z) = true ∧ number (four_digits z) = z.
Proof.
  intros Hz. unfold four_digits. assert (0 <= z / 100 < 100) as H1 by (split; [apply Z.div_pos; lia|apply Z.div_lt_upper_bound; lia]).
  assert (0 <= z mod 100 < 100) as H2 by (apply Z.mod_pos_bound; lia).
  destruct (two_digits_spec _ H1) as [Ha Hb], (two_digits_spec _ H2) as [Hc Hd]. rewrite forallb_app, Ha, Hc, number_app, Hb, Hd.
  split; [done|]. pose proof (Z.div_mod z 100 ltac:(lia)). change (10 ^ Z.of_nat (length (two_digits (z mod 100)))) with 100. lia.
Qed.

(** A text of fourteen digits is read field by field. *)
Lemma parse_fields y m d h i s :
  length y = 4%nat → length m = 2%nat → length d = 2%nat → length h = 2%nat → length i = 2%nat → length s = 2%nat →
  forallb is_digit (y ++ m ++ d ++ h ++ i ++ s) = true →
  parse_time (of_chars (y ++ m ++ d ++ h ++ i ++ s ++ ["Z"%char])) =
    let t := mkUtc (number y) (number m) (number d) (number h) (number i) (number s) 0 in if utc_valid t then Ret t else Raise ValueError.
Proof.
  intros Hy Hm Hd Hh Hi Hs Hall. unfold parse_time. rewrite chars_of_chars.
  destruct y as [|? [|? [|? [|? []]]]], m as [|? [|? []]], d as [|? [|? []]], h as [|? [|? []]], i as [|? [|? []]], s as [|? [|? []]]; try discriminate.
  cbn [app length take drop Nat.eqb] in *. by rewrite Hall, bool_decide_true.
Qed.

Lemma valid_bounds t : utc_valid t = true →
  0 <= year t < 10000 ∧ 0 <= month t < 100 ∧ 0 <= day t < 100 ∧ 0 <= hour t < 100 ∧ 0 <= minute t < 100 ∧ 0 <= second t < 100.
Proof.
  intros H. unfold utc_valid in H. rewrite !andb_true_iff, !Z.leb_le in H.
  assert (days_in_month (year t) (month t) <= 31) as Hd by (unfold days_in_month; repeat case_match; lia). lia.
Qed.
Lemma parse_print t : utc_valid t = true → microsecond t = 0 → parse_time (print_time t) = Ret t.
Proof.
  intros Hv Hm. destruct (valid_bounds t Hv) as (By & Bm & Bd & Bh & Bi & Bs). unfold print_time.
  destruct (four_digits_spec _ By) as [Fy Ny], (two_digits_spec _ Bm) as [Fm Nm], (two_digits_spec _ Bd) as [Fd Nd],
    (two_digits_spec _ Bh) as [Fh Nh], (two_digits_spec _ Bi) as [Fi Ni], (two_digits_spec _ Bs) as [Fs Ns].
  rewrite parse_fields by (reflexivity || by rewrite !forallb_app, Fy, Fm, Fd, Fh, Fi, Fs). rewrite Ny, Nm, Nd, Nh, Ni, Ns. cbv zeta.
  destruct t as [y m d h i s u]. cbn in Hm. subst u. cbn [year month day hour minute second]. by rewrite Hv.
Qed.

Lemma two_digits_number l : length l = 2%nat → forallb is_digit l = true → two_digits (number l) = l.
Proof.
  destruct l as [|a [|b []]]; try discriminate. intros _ H. cbn in H. rewrite andb_true_r in H. apply andb_true_iff in H as [Ha Hb].
  destruct (digit_inj a Ha) as [Ra Ea], (digit_inj b Hb) as [Rb Eb]. unfold two_digits, number. cbn [fold_left].
  replace ((0 * 10 + digit a) * 10 + digit b) with (digit a * 10 + digit b) by ring.
  rewrite Z.div_add_l, (Z.div_small (digit b)), Z.add_0_r by lia. rewrite Z.add_comm, Z.mod_add, Z.mod_small by lia. by rewrite Ea, Eb.
Qed.
Lemma four_digits_number l : length l = 4%nat → forallb is_digit l = true → four_digits (number l) = l.
Proof.
  intros Hl H. rewrite <- (take_drop 2 l) in *. set (a := take 2 l) in *. set (b := drop 2 l) in *.
  assert (length a = 2%nat ∧ length b = 2%nat) as [La Lb] by (destruct l as [|? [|? [|? [|? []]]]]; try discriminate; by split).
  rewrite forallb_app in H. apply andb_true_iff in H as [Ha Hb]. rewrite number_app, Lb. change (10 ^ Z.of_nat 2) with 100. unfold four_digits.
  assert (0 <= number b < 100) as Rb.
  { destruct b as [|x [|y []]]; try discriminate. cbn in Hb. rewrite andb_true_r in Hb. apply andb_true_iff in Hb as [Hx Hy].
    pose proof (digit_inj x Hx) as [? _]. pose proof (digit_inj y Hy) as [? _]. unfold number. cbn [fold_left]. lia. }
  rewrite Z.div_add_l, (Z.div_small (number b)), Z.add_0_r by lia. rewrite Z.add_comm, Z.mod_add, Z.mod_small by lia.
  by rewrite !two_digits_number.
Qed.
Lemma print_parse s t : parse_time s = Ret t → print_time t = s ∧ utc_valid t = true ∧ microsecond t = 0.
Proof.
  intros H. rewrite <- (of_chars_chars s) in H. rewrite <- (of_chars_chars s). revert H. generalize (chars s) as l. clear s. intros l H.
  assert (∃ y m d h i s, l = y ++ m ++ d ++ h ++ i ++ s ++ ["Z"%char] ∧ length y = 4%nat ∧ length m = 2%nat ∧ length d = 2%nat ∧ length h = 2%nat ∧
    length i = 2%nat ∧ length s = 2%nat ∧ forallb is_digit (y ++ m ++ d ++ h ++ i ++ s) = true) as (y & m & d & h & i & s & -> & Hy & Hm & Hd & Hh & Hi & Hs & Hall).
  { unfold parse_time in H. rewrite chars_of_chars in H. destruct (_ && _ && _) eqn:E; [|done]. rewrite !andb_true_iff, bool_decide_eq_true, Nat.eqb_eq in E.
    destruct E as [[Hlen Hdig] Hz]. destruct l as [|c1 [|c2 [|c3 [|c4 [|c5 [|c6 [|c7 [|c8 [|c9 [|c10 [|c11 [|c12 [|c13 [|c14 [|c15 []]]]]]]]]]]]]]]]; try discriminate Hlen.
    exists [c1; c2; c3; c4], [c5; c6], [c7; c8], [c9; c10], [c11; c12], [c13; c14]. cbn in Hz. injection Hz as ->. by split_and!. }
  rewrite parse_fields in H by done. cbv zeta in H. destruct (utc_valid _) eqn:Ev; [|done]. injection H as <-. split; [|done].
  rewrite !forallb_app, !andb_true_iff in Hall. destruct Hall as (A & B & C & D & E & F). unfold print_time. cbn [year month day hour minute second].
  by rewrite four_digits_number, !two_digits_number.
Qed.

(** *** What is accepted *)

Lemma or_else_true (m : py bool) : or_else m false = true ↔ m = Ret true.
Proof. destruct m as [[]|]; naive_solver. Qed.
Lemma caught_some {A} (m : py (option A)) a : caught m = Some a ↔ m = Ret (Some a).
Proof. destruct m as [[]|]; naive_solver. Qed.
Lemma given_text_some o p : given_text o = Some p ↔ o = Some p ∧ p ≠ ""%string.
Proof. unfold given_text. destruct o as [s|]; [case_bool_decide|]; naive_solver. Qed.

Section accepted.
Context (path_exists : string → bool) (read_file : string → py string) (file_size directory_mode : string → py Z).
Context (load_certificate : string → py X509) (load_privatekey : string → option string → key_loaded) (load_crl : string → py CRL).
Context (verify_directly_issued_by : X509 → X509 → py unit) (is_signature_valid : CRL → X509 → py bool).
Context (load_cert_chain : string → string → option string → py unit) (load_verify_locations : string → py unit).
Context (now : utc).

(** Now is neither before the first nor after the last moment of the certificate. *)
Definition in_window (c : X509) : Prop :=
  ∃ b first a final, x_not_before c = Ret b ∧ parse_time b = Ret first ∧ x_not_after c = Ret a ∧ parse_time a = Ret final ∧
    before now first = false ∧ before final now = false.
Definition strong_signature (c : X509) : Prop := ∃ a, x_algorithm c = Ret a ∧ a ∈ RSA_SHA.
Definition server_ok (c : X509) : Prop :=
  x_version c = Ret 2 ∧ strong_signature c ∧ (∃ size n, x_key c = Ret (RsaKey size n) ∧ MIN_RSA_LENGTH <= size) ∧ in_window c.
Definition ca_ok (c : X509) : Prop :=
  x_version c = Ret 2 ∧ extension_flags c = (true, mkUsage true true true) ∧ strong_signature c ∧
  (∃ k, x_key c = Ret k ∧ ∀ size n, k = RsaKey size n → MIN_RSA_LENGTH <= size) ∧ (∃ d, x_digest c = Ret d) ∧ in_window c.
Definition issued_by (c ca : X509) : Prop :=
  verify_directly_issued_by c ca = Ret tt ∧ ∃ h, x_issuer_hash c = Ret h ∧ x_subject_hash ca = Ret h.
(** The certificate and the key belong together, and the authority issued the certificate. *)
Definition own_ok (cert key : string) (password ca : option string) : Prop :=
  ∃ c data k size n ksize, read_certificate read_file load_certificate cert = Ret c ∧ read_file key = Ret data ∧
    load_server_key load_privatekey data password = Some k ∧ server_ok c ∧ x_key c = Ret (RsaKey size n) ∧ k = RsaKey ksize n ∧
    (∀ p, given_text ca = Some p → ∃ a, read_certificate read_file load_certificate p = Ret a ∧ issued_by c a).
Definition crl_ok (ca crl : string) : Prop :=
  path_exists ca = true ∧ path_exists crl = true ∧
  ∃ data l c, read_file crl = Ret data ∧ load_crl data = Ret l ∧ read_certificate read_file load_certificate ca = Ret c ∧ is_signature_valid l c = Ret true.

Lemma has_expired_false c : has_expired now c = false ↔ in_window c.
Proof.
  unfold has_expired, in_window. split.
  - intros H. destruct (x_not_before c) as [b|]; [|done]. cbn in H. destruct (parse_time b) as [t|] eqn:Eb; [|done]. cbn in H.
    destruct (x_not_after c) as [a|]; [|done]. cbn in H. destruct (parse_time a) as [u|] eqn:Ea; [|done]. cbn in H.
    apply orb_false_iff in H as [H1 H2]. by exists b, t, a, u.
  - intros (b & t & a & u & -> & Hb & -> & Ha & H1 & H2). cbn [mbind py_bind]. rewrite Hb. cbn [mbind py_bind]. rewrite Ha. cbn [mbind py_bind or_else].
    by rewrite H1, H2.
Qed.

Lemma server_accepted c : validate_server_certs now c = true ↔ server_ok c.
Proof.
  unfold validate_server_certs, server_ok, strong_signature. rewrite or_else_true, bind_Ret. rewrite <- has_expired_false. split.
  - intros (v & Hv & H). apply guard_Ret in H as [E H]; [|done]. apply negb_false_iff, Z.eqb_eq in E. subst v.
    apply bind_Ret in H as (al & Ha & H). apply guard_Ret in H as [E H]; [|done]. apply negb_false_iff, bool_decide_eq_true in E.
    apply bind_Ret in H as (k & Hk & H). destruct k as [size n|]; [|done]. apply guard_Ret in H as [E' H]; [|done]. apply Z.ltb_ge in E'.
    injection H as H. apply negb_true_iff in H. split_and!; try done; [by exists al|by exists size, n].
  - intros (Hv & (al & Ha & Hal) & (size & n & Hk & Hs) & He). exists 2. split; [done|]. cbn. rewrite Ha. cbn. rewrite bool_decide_true by done.
    cbn. rewrite Hk. cbn. rewrite (proj2 (Z.ltb_ge _ _)) by done. by rewrite He.
Qed.

Lemma ca_accepted path : validate_ca_certs read_file load_certificate now path = true ↔ ∃ c, read_certificate read_file load_certificate path = Ret c ∧ ca_ok c.
Proof.
  unfold validate_ca_certs, ca_ok, strong_signature. rewrite or_else_true, bind_Ret. apply exist_proper. intros c. rewrite <- has_expired_false.
  split; (intros [Hc H]; split; [exact Hc|]).
  - apply bind_Ret in H as (v & Hv & H). apply guard_Ret in H as [E H]; [|done]. apply negb_false_iff, Z.eqb_eq in E. subst v.
    destruct (extension_flags c) as [ca [ds ks cs]]. cbn [digital_signature key_cert_sign crl_sign] in H.
    repeat (apply guard_Ret in H as [?%negb_false_iff H]; [|done]). subst ca ds ks cs.
    apply bind_Ret in H as (al & Ha & H). apply guard_Ret in H as [E H]; [|done]. apply negb_false_iff, bool_decide_eq_true in E.
    apply bind_Ret in H as (k & Hk & H). apply guard_Ret in H as [E' H]; [|done]. apply bind_Ret in H as (d & Hd & H). injection H as H.
    apply negb_true_iff in H. split_and!; try done; [by exists al| |by exists d]. exists k. split; [done|]. intros size n ->. by apply Z.ltb_ge.
  - destruct H as (Hv & Hf & (al & Ha & Hal) & (k & Hk & Hs) & (d & Hd) & He). rewrite Hv. cbn. rewrite Hf. cbn. rewrite Ha. cbn.
    rewrite bool_decide_true by done. cbn. rewrite Hk. cbn.
    assert (match k with RsaKey l _ => l <? MIN_RSA_LENGTH | OtherKey => false end = false) as ->
      by (destruct k as [l m|]; [apply Z.ltb_ge; by apply (Hs l m)|done]).
    rewrite Hd. cbn. by rewrite He.
Qed.

Lemma issued_iff c a : validate_cert_signature verify_directly_issued_by c a = true ↔ issued_by c a.
Proof.
  unfold validate_cert_signature, issued_by. rewrite or_else_true, bind_Ret. split.
  - intros ([] & Hv & H). split; [done|]. apply bind_Ret in H as (i & Hi & H). apply bind_Ret in H as (s & Hs & H). injection H as H.
    apply Z.eqb_eq in H. subst s. by exists i.
  - intros (Hv & h & Hi & Hs). exists tt. split; [done|]. rewrite Hi. cbn. rewrite Hs. cbn. by rewrite Z.eqb_refl.
Qed.
Lemma modulus_iff c k : validate_certs_and_keys_modulus c k = true ↔ ∃ size n ksize, x_key c = Ret (RsaKey size n) ∧ k = RsaKey ksize n.
Proof.
  unfold validate_certs_and_keys_modulus. rewrite or_else_true, bind_Ret. split.
  - intros (kc & Hk & H). destruct kc as [size n|]; [|done]. cbn in H. destruct k as [ks m|]; [|done]. cbn in H. injection H as H.
    apply Z.eqb_eq in H. subst m. by exists size, n, ks.
  - intros (size & n & ks & Hk & ->). exists (RsaKey size n). split; [done|]. cbn. by rewrite Z.eqb_refl.
Qed.
Lemma own_accepted cert key password ca :
  validate_cert_and_key read_file load_certificate load_privatekey verify_directly_issued_by now cert key password ca = true ↔ own_ok cert key password ca.
Proof.
  unfold validate_cert_and_key, own_ok. rewrite or_else_true, bind_Ret. split.
  - intros (c & Hc & H). apply bind_Ret in H as (data & Hd & H). destruct (load_server_key _ _ _) as [k|] eqn:Ek; [|done].
    apply guard_Ret in H as [E H]; [|done]. apply negb_false_iff, server_accepted in E. apply guard_Ret in H as [E' H]; [|done].
    apply negb_false_iff, modulus_iff in E' as (size & n & ks & Hk & ->). exists c, data, (RsaKey ks n), size, n, ks. split_and!; try done.
    intros p Hp. rewrite Hp in H. apply bind_Ret in H as (a & Ha & H). injection H as H. exists a. split; [done|]. by apply issued_iff.
  - intros (c & data & k & size & n & ks & Hc & Hd & Hk & Hs & Hx & -> & Hca). exists c. split; [done|]. rewrite Hd. cbn. rewrite Hk.
    rewrite (proj2 (server_accepted c)) by done. rewrite (proj2 (modulus_iff c (RsaKey ks n))) by (by exists size, n, ks). cbn.
    destruct (given_text ca) as [p|] eqn:Ep; [|done]. destruct (Hca p eq_refl) as (a & Ha & Hi). rewrite Ha. cbn. by rewrite (proj2 (issued_iff c a)).
Qed.
Lemma crl_accepted ca crl :
  validate_ca_crl path_exists read_file load_certificate load_crl is_signature_valid ca crl = true ↔ crl_ok ca crl.
Proof.
  unfold validate_ca_crl, crl_ok. destruct (path_exists ca); [|split; [done|by intros []]]. destruct (path_exists crl); [|split; [done|by intros (_ & ? & _)]].
  cbn [negb]. rewrite or_else_true, bind_Ret. split.
  - intros (data & Hd & H). apply bind_Ret in H as (l & Hl & H). apply bind_Ret in H as (c & Hc & H). do 2 (split; [done|]). by exists data, l, c.
  - intros (_ & _ & data & l & c & Hd & Hl & Hc & H). exists data. split; [done|]. rewrite Hl. cbn [mbind py_bind]. by rewrite Hc.
Qed.

(** ** Properties *)

Lemma checks_ok (checks v : bool) : checks && negb v = false ↔ (checks = true → v = true).
Proof. destruct checks, v; naive_solver. Qed.
Lemma missing_false (b1 b2 b3 : bool) : b1 || b2 || b3 = false ↔ b1 = false ∧ b2 = false ∧ b3 = false.
Proof. destruct b1, b2, b3; naive_solver. Qed.
Lemma empty_false s : empty s = false ↔ s ≠ ""%string.
Proof. apply bool_decide_eq_false. Qed.
Lemma if_None_Some {A} (b : bool) (k : option A) (a : A) : (if b then None else k) = Some a ↔ b = false ∧ k = Some a.
Proof. destruct b; naive_solver. Qed.

(** C26: when a TLS context is made, and what it is.  It is made exactly if the three files are
    there and load, the authority is a current v3 certificate with all the flags of an authority
    and a strong signature, and a revocation list that is configured is signed by it; the
    certificate and the key are checked, against each other and against the authority, only if
    there is a file with a password.  The context of a server does not ask its clients for a
    certificate, that of a client verifies the server; neither is limited to TLS 1.3. *)
Theorem ssl_context_iff tls p ctx :
  create_ssl_context path_exists read_file load_certificate load_privatekey load_crl verify_directly_issued_by is_signature_valid load_cert_chain load_verify_locations now tls p = Some ctx ↔
  let with_password := negb (empty (passwd_file tls)) && path_exists (passwd_file tls) in
  let password := if with_password then given_text (Some (decrypt path_exists read_file (passwd_file tls))) else None in
  (cert_file tls ≠ "" ∧ key_file tls ≠ "" ∧ ca_file tls ≠ "")%string ∧
  (path_exists (cert_file tls) = true ∧ path_exists (key_file tls) = true ∧ path_exists (ca_file tls) = true) ∧
  (with_password = true → own_ok (cert_file tls) (key_file tls) password (Some (ca_file tls))) ∧
  load_cert_chain (cert_file tls) (key_file tls) password = Ret tt ∧
  (∃ c, read_certificate read_file load_certificate (ca_file tls) = Ret c ∧ ca_ok c) ∧ load_verify_locations (ca_file tls) = Ret tt ∧
  (crl_file tls ≠ ""%string → crl_ok (ca_file tls) (crl_file tls)) ∧
  ctx = match p with
        | SERVER_AUTH => mkCtx PROTOCOL_TLS_SERVER false false false (Some (cert_file tls, key_file tls)) (Some (ca_file tls)) false
        | CLIENT_AUTH => mkCtx PROTOCOL_TLS_CLIENT true true false (Some (cert_file tls, key_file tls)) (Some (ca_file tls)) false
        end.
Proof.
  destruct tls as [en ca cert key pw crl]. unfold create_ssl_context. cbn [ca_file cert_file key_file passwd_file crl_file]. cbv zeta.
  rewrite !if_None_Some, !missing_false, !empty_false, !negb_false_iff, checks_ok, own_accepted, caught_some.
  set (pass := if _ && _ then _ else _). rewrite bind_Ret. split.
  - intros (He & Hx & Ho & [] & Hl & H). apply guard_Ret in H as [Hca%negb_false_iff H]; [|done]. apply ca_accepted in Hca.
    apply bind_Ret in H as ([] & Hv & H). apply guard_Ret in H as [Hcrl H]; [|done]. rewrite checks_ok, negb_true_iff, empty_false, crl_accepted in Hcrl.
    injection H as <-. split_and!; try (by apply He); try (by apply Hx); try done. by destruct p.
  - intros (He & Hx & Ho & Hl & Hca & Hv & Hcrl & ->). split; [tauto|]. split; [done|]. split; [done|]. exists tt. split; [done|].
    apply ca_accepted in Hca. rewrite Hca. cbn [negb]. rewrite Hv. cbn [mbind py_bind].
    assert (negb (empty crl) && negb (validate_ca_crl path_exists read_file load_certificate load_crl is_signature_valid ca crl) = false) as ->
      by (rewrite checks_ok, negb_true_iff, empty_false, crl_accepted; exact Hcrl). by destruct p.
Qed.

(** A context made with full validation verifies its peer, speaks TLS 1.3 only, and has passed
    every check: the authority, the list, the certificate and its key. *)
Theorem strict_context_safe config ctx :
  construct_cert_context path_exists read_file file_size directory_mode load_certificate load_privatekey load_crl verify_directly_issued_by is_signature_valid load_cert_chain load_verify_locations now config = Some ctx →
  verify_peer ctx = true ∧ check_hostname ctx = true ∧ tls13_only ctx = true ∧
  ∃ ca cert key, dget config "ca_cert"%string = Some ca ∧ dget config "tls_cert"%string = Some cert ∧ dget config "tls_key"%string = Some key ∧
    trusted ctx = Some ca ∧ own_chain ctx = Some (cert, key) ∧ (∃ c, read_certificate read_file load_certificate ca = Ret c ∧ ca_ok c) ∧
    own_ok cert key (Some (default ""%string (dget config "tls_passwd"%string))) (Some ca) ∧
    (∀ crl, dget config "tls_crl"%string = Some crl → crl_ok ca crl).
Proof.
  unfold construct_cert_context. rewrite caught_some. intros H. apply bind_Ret in H as ([] & _ & H). apply bind_Ret in H as ([] & _ & H).
  apply bind_Ret in H as (ca & Hca & H). apply bind_Ret in H as (cert & Hcert & H). apply bind_Ret in H as (key & Hkey & H). unfold item in Hca, Hcert, Hkey.
  destruct (validate_ca_certs _ _ _ ca) eqn:Ea; [cbn [negb] in H|discriminate H]. apply ca_accepted in Ea.
  destruct (dhas config "tls_crl" && _) eqn:Ecrl; [discriminate H|]. rewrite checks_ok, crl_accepted in Ecrl.
  destruct (validate_cert_and_key _ _ _ _ _ cert key _ _) eqn:Eo; [cbn [negb] in H|discriminate H]. apply own_accepted in Eo.
  apply bind_Ret in H as ([] & _ & H). apply bind_Ret in H as ([] & _ & H). injection H as <-. split_and!; try done.
  exists ca, cert, key. destruct (dget config "ca_cert") as [?|]; [injection Hca as ->|done]. destruct (dget config "tls_cert") as [?|]; [injection Hcert as ->|done].
  destruct (dget config "tls_key") as [?|]; [injection Hkey as ->|done]. split_and!; try done.
  intros crl Hcrl. assert (dhas config "tls_crl" = true) as Hh by (apply dhas_true; by exists crl). specialize (Ecrl Hh). by rewrite Hcrl in Ecrl.
Qed.

(** With TLS switched on, the controller, the node manager and the engine never listen
    without it: if no context can be made they do not start.  The coordinator, in exactly these
    cases, listens with plain HTTP. *)
Theorem coordinator_fails_open tls :
  enable_tls tls = true →
  let listens := coordinator_listens path_exists read_file load_certificate load_privatekey load_crl verify_directly_issued_by is_signature_valid load_cert_chain load_verify_locations now tls in
  let others := others_listen path_exists read_file load_certificate load_privatekey load_crl verify_directly_issued_by is_signature_valid load_cert_chain load_verify_locations now tls in
  others ≠ Ret None ∧ (listens = Ret None ↔ others = Raise RuntimeError) ∧ (∀ ctx, listens = Ret (Some ctx) ↔ others = Ret (Some ctx)).
Proof.
  intros He. unfold coordinator_listens, others_listen. rewrite He. cbv zeta.
  destruct (tls_of _ _ _ _ _ _ _ _ _ _ _); split_and!; try discriminate; [split; discriminate|done|done|intros; split; discriminate].
Qed.
End accepted.

(** The times of certificates are read exactly: the text of a time that exists is read as
    that time, and a text that is read as a time is the text of that time, which exists. *)
Theorem time_roundtrip s t :
  parse_time s = Ret t ↔ print_time t = s ∧ utc_valid t = true ∧ microsecond t = 0.
Proof. split; [apply print_parse|]. intros (<- & Hv & Hm). by apply parse_print. Qed.

(** ** Samples *)

(** A directory with an authority, a server certificate it issued, and their keys. *)
Definition sample_now : utc := mkUtc 2026 3 1 12 0 0 0.
Definition sample_files : list (string * string) :=
  [("/tls/ca.crt", "CA"); ("/tls/server.crt", "SERVER"); ("/tls/old.crt", "OLD"); ("/tls/server.key", "KEY"); ("/tls/key_pwd.txt", "secret")]%string.
Definition sample_exists (path : string) : bool := dhas sample_files path.
Definition sample_read (path : string) : py string := match dget sample_files path with Some s => Ret s | None => Raise RuntimeError end.
Definition sample_cert (ca : bool) (until : string) : X509 :=
  mkX509 (Ret 2) (Ret "20250101000000Z"%string) (Ret until) (Ret "sha256WithRSAEncryption"%string) (Ret (RsaKey 4096 (if ca then 77 else 91)))
    (Ret (mkExt (Ret (Some ca)) (Ret (Some (mkUsage true ca ca))))) (Ret "00:11"%string) (Ret 5) (Ret (if ca then 5 else 6)).
Definition sample_load (data : string) : py X509 :=
  match dget [("CA", sample_cert true "20350101000000Z"); ("SERVER", sample_cert false "20270101000000Z"); ("OLD", sample_cert false "20260101000000Z")]%string data with
  | Some c => Ret c
  | None => Raise ValueError
  end.
Definition sample_key (data : string) (password : option string) : key_loaded :=
  if bool_decide (data = "KEY"%string) then (if bool_decide (password = Some "secret"%string) then KeyLoaded (RsaKey 4096 91) else CryptoError) else CryptoError.
Definition sample_create (tls : TLSConfig) (p : purpose) : option SSLContext :=
  create_ssl_context sample_exists sample_read sample_load sample_key (λ _, Raise ValueError) (λ _ _, Ret tt) (λ _ _, Ret true) (λ _ _ _, Ret tt) (λ _, Ret tt) sample_now tls p.

(** With a password file the expired certificate is refused, without one it is used. *)
Example password_file_decides :
  sample_create (mkTls true "/tls/ca.crt" "/tls/server.crt" "/tls/server.key" "/tls/key_pwd.txt" "") CLIENT_AUTH =
    Some (mkCtx PROTOCOL_TLS_CLIENT true true false (Some ("/tls/server.crt", "/tls/server.key")%string) (Some "/tls/ca.crt"%string) false) ∧
  sample_create (mkTls true "/tls/ca.crt" "/tls/old.crt" "/tls/server.key" "/tls/key_pwd.txt" "") SERVER_AUTH = None ∧
  sample_create (mkTls true "/tls/ca.crt" "/tls/old.crt" "/tls/server.key" "" "") SERVER_AUTH =
    Some (mkCtx PROTOCOL_TLS_SERVER false false false (Some ("/tls/old.crt", "/tls/server.key")%string) (Some "/tls/ca.crt"%string) false).
Proof. split_and!; vm_compute; reflexivity. Qed.
Example strict_context :
  is_Some (construct_cert_context sample_exists sample_read (λ _, Ret 4000) (λ d, if bool_decide (d = "/tls"%string) then Ret 448 else Raise RuntimeError)
    sample_load sample_key (λ _, Raise ValueError) (λ _ _, Ret tt) (λ _ _, Ret true) (λ _ _ _, Ret tt) (λ _, Ret tt) sample_now
    [("ca_cert", "/tls/ca.crt"); ("tls_cert", "/tls/server.crt"); ("tls_key", "/tls/server.key"); ("tls_passwd", "secret")]%string).
Proof. vm_compute. by eexists. Qed.
Example times_read :
  (parse_time "20240229235959Z", parse_time "20230229000000Z", parse_time "20240101000060Z", dirname "/tls//ca.crt", dirname "ca.crt", dirname "/ca.crt") =
  (Ret (mkUtc 2024 2 29 23 59 59 0), Raise ValueError, Raise ValueError, "/tls"%string, ""%string, "/"%string).
Proof. vm_compute. reflexivity. Qed.

Definition missing_key : TLSConfig := mkTls true "/tls/ca.crt" "/tls/server.crt" "/tls/gone.key" "" "".
Lemma coordinator_fails_open_witness :
  coordinator_listens sample_exists sample_read sample_load sample_key (λ _, Raise ValueError) (λ _ _, Ret tt) (λ _ _, Ret true) (λ _ _ _, Ret tt) (λ _, Ret tt) sample_now
    missing_key = Ret None.
Proof.
  apply (proj1 (proj2 (coordinator_fails_open sample_exists sample_read sample_load sample_key (λ _, Raise ValueError) (λ _ _, Ret tt) (λ _ _, Ret true)
    (λ _ _ _, Ret tt) (λ _, Ret tt) sample_now missing_key eq_refl))). vm_compute. reflexivity.
Defined.
