(* ===== verification/HttpClients.v ===== *)
(** * HTTP clients

    Models [common/http/http_client.py]: the URLs of the synchronous client, the clients the
    asynchronous factory makes, and the pool of the routers' clients with its operations, as the
    worker's callback on a change of the instances uses them
    ([InferenceServer._make_on_instance_refreshed]).

    Clients are numbered as they are made.  What runs under the lock of the pool is one step; the
    closing of a client that was taken out of the pool is a later step.  The hash of a TLS
    configuration, [hashlib.md5], is an argument, and an object of a TLS configuration is its
    identity with its fields. *)

From stdpp Require Import base option list strings.
From Stdlib Require Import Ascii ZArith Lia.
From S2P Require Import Prelude PyText Certificates.
Open Scope Z_scope.

(** ** URLs *)

Definition rstrip_slashes (s : string) : string := of_chars (rev (drop_while (λ c, bool_decide (c = "/"%char)) (rev (chars s)))).
Definition lstrip_slashes (s : string) : string := of_chars (drop_while (λ c, bool_decide (c = "/"%char)) (chars s)).
(** [SafeHTTPSClient.__init__] and the URL of [_request]. *)
Definition base_url (address protocol : string) (tls_config : option TLSConfig) : string :=
  (match tls_config with Some t => if enable_tls t then "https://" else protocol | None => protocol end) +:+ rstrip_slashes address.
Definition request_url (base endpoint : string) : string := base +:+ "/" +:+ lstrip_slashes endpoint.

(** What a request comes to: the library's exceptions become [Exception], here
    [RuntimeError]. *)
Inductive sent := Answered (status : Z) (body : py json) | SSLError | RequestFails.
Definition _request (s : sent) : py (py json) :=
  match s with
  | Answered status body => if (400 <=? status) && (status <? 600) then Raise RuntimeError else Ret body
  | SSLError | RequestFails => Raise RuntimeError
  end.
Definition request (s : sent) : py json := r ← _request s; r.

(** ** The pool *)

(** What a client verifies its server with: [None] is what a failed context leaves. *)
Inductive verification := VerifyDefault | VerifyContext (context : option SSLContext).
(** [AsyncSafeHTTPSClient.create_client]; [create_ssl_context]: for a client. *)
Definition create_client (create_ssl_context : TLSConfig → option SSLContext) (address : string) (tls_config : option TLSConfig) : string * verification :=
  match tls_config with
  | Some t => if enable_tls t then ("https://" +:+ address, VerifyContext (create_ssl_context t)) else ("http://" +:+ address, VerifyDefault)
  | None => ("http://" +:+ address, VerifyDefault)
  end.

(** The identity and the fields of an object. *)
Definition tls_object : Type := Z * TLSConfig.
Record Client := mkClient { made_for : string * string * option tls_object; is_closed : bool }.
Record HTTPClientPool := mkPool {
  client_pool : list (string * nat);
  tls_hash_cache : list (Z * string);
  (** Every client that was made, and those taken out of the pool that are still to be closed. *)
  clients : list Client;
  to_close : list nat
}.
Definition HTTPClientPool_init : HTTPClientPool := mkPool [] [] [] [].

Definition is_open (s : HTTPClientPool) (r : nat) : bool := match clients s !! r with Some c => negb (is_closed c) | None => false end.

Section pool.
Context (md5_8 : string → string).

Definition py_bool (b : bool) : string := if b then "True" else "False".
Definition tls_str (t : TLSConfig) : string := py_bool (enable_tls t) +:+ "_" +:+ ca_file t +:+ "_" +:+ cert_file t +:+ "_" +:+ key_file t.

(** [_get_pool_key]: the hash of an object is kept by its identity. *)
Definition tls_hash (tls : option tls_object) (s : HTTPClientPool) : HTTPClientPool * string :=
  match tls with
  | None => (s, ""%string)
  | Some (id, t) =>
      match dget (tls_hash_cache s) id with
      | Some h => (s, h)
      | None => let h := md5_8 (tls_str t) in (mkPool (client_pool s) (dset (tls_hash_cache s) id h) (clients s) (to_close s), h)
      end
  end.
Definition get_pool_key (ip port : string) (tls : option tls_object) (s : HTTPClientPool) : HTTPClientPool * string :=
  let '(s, h) := tls_hash tls s in (s, ip +:+ ":" +:+ port +:+ ":" +:+ h).

(** The open client of a key. *)
Definition pooled (s : HTTPClientPool) (key : string) : option nat :=
  match dget (client_pool s) key with Some r => if is_open s r then Some r else None | None => None end.
Definition add_client (key : string) (c : Client) (s : HTTPClientPool) : HTTPClientPool :=
  mkPool (dset (client_pool s) key (length (clients s))) (tls_hash_cache s) (clients s ++ [c]) (to_close s).
(** What [get_client] and [_warmup_single_client] do under the lock; the client that is replaced
    is closed, so none is left to close. *)
Definition get_locked (key : string) (c : Client) (s : HTTPClientPool) : HTTPClientPool * nat :=
  match pooled s key with
  | Some r => (s, r)
  | None => (add_client key c s, length (clients s))
  end.
(** [get_client]; [creates]: whether the factory makes a client. *)
Definition get_client (ip port : string) (tls : option tls_object) (creates : bool) (s : HTTPClientPool) : HTTPClientPool * py nat :=
  let '(s, key) := get_pool_key ip port tls s in
  match pooled s key with
  | Some r => (s, Ret r)
  | None => if creates then let '(s, r) := get_locked key (mkClient (ip, port, tls) false) s in (s, Ret r) else (s, Raise ValueError)
  end.

Definition take_out (rs : list nat) (pool : list (string * nat)) (s : HTTPClientPool) : HTTPClientPool :=
  mkPool pool (tls_hash_cache s) (clients s) (to_close s ++ rs).
(** [close_client] and [close_all], up to the closing. *)
Definition close_client (ip port : string) (tls : option tls_object) (s : HTTPClientPool) : HTTPClientPool :=
  let '(s, key) := get_pool_key ip port tls s in
  match dget (client_pool s) key with Some r => take_out [r] (ddel (client_pool s) key) s | None => s end.
Definition close_all (s : HTTPClientPool) : HTTPClientPool := take_out (dvalues (client_pool s)) [] s.
(** [cleanup_unused_clients], up to the closing: the clients of other keys, and how many. *)
Definition is_active (active : list string) (key : string) : bool := bool_decide (key ∈ active).
Definition unused (active : list string) (s : HTTPClientPool) : list (string * nat) := List.filter (λ kr, negb (is_active active kr.1)) (client_pool s).
Definition cleanup_unused_clients (active : list string) (s : HTTPClientPool) : HTTPClientPool * Z :=
  let to_remove := unused active s in
  (take_out (List.filter (is_open s) to_remove.*2) (List.filter (λ kr, is_active active kr.1) (client_pool s)) s, Z.of_nat (length to_remove)).

(** [get_pool_keys_for_endpoints] and [warmup_clients]: [creates] says which clients can be made.
    The results are only logged. *)
Fixpoint get_pool_keys_for_endpoints (endpoints : list (string * string)) (tls : option tls_object) (s : HTTPClientPool) : HTTPClientPool * list string :=
  match endpoints with
  | [] => (s, [])
  | (ip, port) :: endpoints =>
      let '(s, key) := get_pool_key ip port tls s in let '(s, keys) := get_pool_keys_for_endpoints endpoints tls s in (s, key :: keys)
  end.
Definition warmup_single_client (ip port : string) (tls : option tls_object) (creates : bool) (s : HTTPClientPool) : HTTPClientPool :=
  (get_client ip port tls creates s).1.
Fixpoint warmup_clients (endpoints : list (string * string)) (tls : option tls_object) (creates : string → string → bool) (s : HTTPClientPool) : HTTPClientPool :=
  match endpoints with
  | [] => s
  | (ip, port) :: endpoints => warmup_clients endpoints tls creates (warmup_single_client ip port tls (creates ip port) s)
  end.

(** The callback of a worker on a change of the instances: clean up, then warm up. *)
Definition on_instance_refreshed (active_endpoints : list (string * string)) (tls : option tls_object) (creates : string → string → bool) (s : HTTPClientPool) : HTTPClientPool :=
  let '(s, keys) := get_pool_keys_for_endpoints active_endpoints tls s in
  let s := (cleanup_unused_clients keys s).1 in
  match active_endpoints with [] => s | _ => warmup_clients active_endpoints tls creates s end.

(** A client is closed: [aclose], by the pool or by who uses it. *)
Definition aclose (r : nat) (s : HTTPClientPool) : HTTPClientPool :=
  mkPool (client_pool s) (tls_hash_cache s) (alter (λ c, mkClient (made_for c) true) r (clients s)) (to_close s).
(** The next client that was taken out. *)
Definition close_next (s : HTTPClientPool) : HTTPClientPool :=
  match to_close s with [] => s | r :: rs => let s := aclose r s in mkPool (client_pool s) (tls_hash_cache s) (clients s) rs end.

Inductive pool_op :=
| OpGet (ip port : string) (tls : option tls_object) (creates : bool)
| OpClose (ip port : string) (tls : option tls_object)
| OpCloseAll
| OpCleanup (active : list string)
| OpWarmup (endpoints : list (string * string)) (tls : option tls_object) (creates : string → string → bool)
| OpRefreshed (endpoints : list (string * string)) (tls : option tls_object) (creates : string → string → bool)
| OpCloseNext
| OpClosed (r : nat).
Definition pool_step (s : HTTPClientPool) (o : pool_op) : HTTPClientPool :=
  match o with
  | OpGet ip port tls creates => (get_client ip port tls creates s).1
  | OpClose ip port tls => close_client ip port tls s
  | OpCloseAll => close_all s
  | OpCleanup active => (cleanup_unused_clients active s).1
  | OpWarmup endpoints tls creates => warmup_clients endpoints tls creates s
  | OpRefreshed endpoints tls creates => on_instance_refreshed endpoints tls creates s
  | OpCloseNext => close_next s
  | OpClosed r => aclose r s
  end.
Definition pool_run (ops : list pool_op) : HTTPClientPool := fold_left pool_step ops HTTPClientPool_init.
End pool.

(** ** Lemmas *)

Section lemmas.
Context (md5_8 : string → string).

(** The objects of TLS configurations: none is used again for another configuration. *)
Context (ids : Z → TLSConfig).
Definition honest (tls : option tls_object) : Prop := match tls with Some (id, t) => ids id = t | None => True end.
Definition hash_of (tls : option tls_object) : string := match tls with Some (_, t) => md5_8 (tls_str t) | None => "" end%string.
Definition key_of (ip port : string) (tls : option tls_object) : string := ip +:+ ":" +:+ port +:+ ":" +:+ hash_of tls.

Definition in_pool (s : HTTPClientPool) (r : nat) : Prop := ∃ k, dget (client_pool s) k = Some r.

Record pool_inv (s : HTTPClientPool) : Prop := {
  pi_wf : dict_wf (client_pool s);
  pi_known : ∀ k r, dget (client_pool s) k = Some r →
    ∃ c ip port tls, clients s !! r = Some c ∧ made_for c = (ip, port, tls) ∧ k = key_of ip port tls;
  pi_out : ∀ r, r ∈ to_close s → (r < length (clients s))%nat ∧ ¬ in_pool s r;
  pi_leak : ∀ r, is_open s r = true → in_pool s r ∨ r ∈ to_close s;
  pi_cache : ∀ id h, dget (tls_hash_cache s) id = Some h → h = md5_8 (tls_str (ids id))
}.

Lemma pool_inv_init : pool_inv HTTPClientPool_init.
Proof. split; try done; [apply dict_wf_nil|by intros r ?%elem_of_nil]. Qed.

Lemma get_pool_key_spec ip port tls s : honest tls → pool_inv s →
  let '(s', k) := get_pool_key md5_8 ip port tls s in
  pool_inv s' ∧ k = key_of ip port tls ∧ client_pool s' = client_pool s ∧ clients s' = clients s ∧ to_close s' = to_close s.
Proof.
  intros Hh H. unfold get_pool_key, tls_hash, key_of, hash_of. destruct tls as [[id t]|]; [|by split_and!]. cbn in Hh.
  destruct (dget (tls_hash_cache s) id) as [h|] eqn:E.
  - apply (pi_cache s H) in E. subst h t. by split_and!.
  - split_and!; try done. destruct H as [H1 H2 H3 H4 H5]. split; try done. intros id' h'. cbn. rewrite dget_dset. case_decide; [intros [= <-]; by subst|apply H5].
Qed.

Lemma is_open_lt s r : is_open s r = true → (r < length (clients s))%nat.
Proof. unfold is_open. destruct (clients s !! r) eqn:E; [|done]. intros _. by eapply lookup_lt_Some. Qed.
Lemma is_open_add s key c r : is_open (add_client key c s) r = true → r = length (clients s) ∨ is_open s r = true.
Proof.
  unfold is_open, add_client. cbn. destruct (decide (r < length (clients s))%nat); [rewrite lookup_app_l by lia; by right|].
  destruct (decide (r = length (clients s))); [by left|]. by rewrite lookup_ge_None_2 by (rewrite length_app; cbn; lia).
Qed.

Lemma inv_add s ip port tls : pool_inv s → pooled s (key_of ip port tls) = None → pool_inv (add_client (key_of ip port tls) (mkClient (ip, port, tls) false) s).
Proof.
  intros [H1 H2 H3 H4 H5] Hno. set (k := key_of ip port tls) in *. split; cbn [client_pool tls_hash_cache to_close add_client clients]; [by apply dict_wf_dset| | | |done].
  - intros k' r. rewrite dget_dset. case_decide; [intros [= <-]; subst k'|].
    + eexists _, ip, port, tls. split; [by apply list_lookup_middle|done].
    + intros Hr. destruct (H2 k' r Hr) as (c & i & p & t & Hc & ?). exists c, i, p, t. split; [|done]. rewrite lookup_app_l; [done|by eapply lookup_lt_Some].
  - intros r Hr. destruct (H3 r Hr) as [Hlt Hn]. rewrite length_app. cbn. split; [lia|]. intros [k' Hk]. cbn in Hk. rewrite dget_dset in Hk. case_decide; [injection Hk as <-; lia|].
    apply Hn. by exists k'.
  - intros r [->|Ho]%is_open_add; [left; exists k; cbn; by rewrite dget_dset_eq|]. destruct (H4 r Ho) as [[k' Hk]|Hr]; [|by right].
    left. exists k'. cbn. rewrite dget_dset. case_decide as E; [|done]. subst k'. unfold pooled in Hno. by rewrite Hk, Ho in Hno.
Qed.

(** Some clients leave the pool: those that are open are to be closed. *)
Lemma inv_take_out s rs pool : pool_inv s → dict_wf pool → (∀ k r, dget pool k = Some r → dget (client_pool s) k = Some r) →
  (∀ r, r ∈ rs → in_pool s r ∧ ∀ k, dget pool k ≠ Some r) →
  (∀ k r, dget (client_pool s) k = Some r → is_open s r = true → dget pool k = Some r ∨ r ∈ rs) → pool_inv (take_out rs pool s).
Proof.
  intros [H1 H2 H3 H4 H5] Hwf Hsub Hrs Hall. split; cbn [client_pool tls_hash_cache to_close take_out clients]; [done| | | |done].
  - intros k r Hk. by apply H2, Hsub.
  - intros r [Hr|Hr]%elem_of_app.
    + destruct (H3 r Hr) as [Hlt Hn]. split; [done|]. intros [k Hk]. apply Hn. exists k. by apply Hsub.
    + destruct (Hrs r Hr) as [[k Hk] Hn]. split; [destruct (H2 k r Hk) as (c & _ & _ & _ & Hc & _); by eapply lookup_lt_Some|].
      intros [k' Hk']. by apply (Hn k').
  - intros r Ho. destruct (H4 r Ho) as [[k Hk]|Hr]; [|right; apply elem_of_app; by left].
    destruct (Hall k r Hk Ho) as [Hk'|Hr]; [left; by exists k|right; apply elem_of_app; by right].
Qed.

Lemma dget_filter (P : string → bool) (d : list (string * nat)) k : dget (List.filter (λ kr, P kr.1) d) k = if P k then dget d k else None.
Proof.
  induction d as [|[k' v] d IH]; cbn; [by destruct (P k)|]. destruct (P k') eqn:E; cbn; repeat case_decide; subst; rewrite ?IH, ?E; done.
Qed.
Lemma wf_filter (P : string → bool) (d : list (string * nat)) : dict_wf d → dict_wf (List.filter (λ kr, P kr.1) d).
Proof.
  unfold dict_wf, dkeys. induction d as [|[k v] d IH]; [done|]. cbn. intros [Hn Hd]%NoDup_cons. destruct (P k); cbn; [|by apply IH].
  apply NoDup_cons. split; [|by apply IH]. intros ([k' v'] & -> & Hin)%list_elem_of_fmap. apply Hn. apply list_elem_of_fmap. exists (k', v'). split; [done|].
  rewrite list_elem_of_In, filter_In in Hin. destruct Hin as [Hin _]. by apply list_elem_of_In.
Qed.
(** A client is in the pool under one key. *)
Lemma in_pool_once s k k' r : pool_inv s → dget (client_pool s) k = Some r → dget (client_pool s) k' = Some r → k = k'.
Proof.
  intros H Hk Hk'. destruct (pi_known s H k r Hk) as (c & ip & port & tls & Hc & Hm & ->). destruct (pi_known s H k' r Hk') as (c' & ip' & port' & tls' & Hc' & Hm' & ->).
  congruence.
Qed.

Lemma inv_get s ip port tls creates : honest tls → pool_inv s → pool_inv (get_client md5_8 ip port tls creates s).1.
Proof.
  intros Hh H. unfold get_client. pose proof (get_pool_key_spec ip port tls s Hh H) as Hk. destruct (get_pool_key md5_8 ip port tls s) as [s1 k].
  destruct Hk as (H1 & -> & _). destruct (pooled s1 (key_of ip port tls)) eqn:Ep; [done|]. destruct creates; [|done]. unfold get_locked. rewrite Ep.
  by apply inv_add.
Qed.
Lemma inv_close s ip port tls : honest tls → pool_inv s → pool_inv (close_client md5_8 ip port tls s).
Proof.
  intros Hh H. unfold close_client. pose proof (get_pool_key_spec ip port tls s Hh H) as Hk. destruct (get_pool_key md5_8 ip port tls s) as [s1 k].
  destruct Hk as (H1 & _ & _). destruct (dget (client_pool s1) k) as [r|] eqn:Er; [|done]. apply inv_take_out; try done.
  - apply dict_wf_ddel, H1.
  - intros k' r'. rewrite dget_ddel. by case_decide.
  - intros r' ->%list_elem_of_singleton. split; [by exists k|]. intros k'. rewrite dget_ddel. case_decide as E; [done|]. intros Hr. apply E. by eapply in_pool_once.
  - intros k' r' Hr _. rewrite dget_ddel. case_decide; [subst k'; right; apply list_elem_of_singleton; congruence|by left].
Qed.
Lemma inv_close_all s : pool_inv s → pool_inv (close_all s).
Proof.
  intros H. apply inv_take_out; try done; [apply dict_wf_nil| |].
  - intros r Hr. split; [|done]. apply in_dvalues in Hr as [k Hk]. exists k. by apply dget_in_wf; [apply H|].
  - intros k r Hk _. right. apply in_dvalues. exists k. by apply dget_Some_in.
Qed.
Lemma inv_cleanup s active : pool_inv s → pool_inv (cleanup_unused_clients active s).1.
Proof.
  intros H. unfold cleanup_unused_clients, unused. cbn [fst].
  assert (∀ r, r ∈ (List.filter (λ kr : string * nat, negb (is_active active kr.1)) (client_pool s)).*2 ↔
    ∃ k, dget (client_pool s) k = Some r ∧ k ∉ active) as Hin.
  { intros r. rewrite list_elem_of_fmap. split.
    - intros ([k r'] & -> & Hin). rewrite list_elem_of_In, filter_In in Hin. destruct Hin as [Hin Hb%negb_true_iff]. apply bool_decide_eq_false in Hb.
      exists k. split; [|done]. apply dget_in_wf; [apply H|by apply list_elem_of_In].
    - intros (k & Hk & Hn). exists (k, r). split; [done|]. rewrite list_elem_of_In, filter_In. split; [by apply list_elem_of_In, dget_Some_in|].
      unfold is_active. cbn. by rewrite bool_decide_false. }
  apply inv_take_out; try done; [by apply (wf_filter (is_active active)), H| | |].
  - intros k r. rewrite (dget_filter (is_active active)). by destruct (is_active active k).
  - intros r. rewrite list_elem_of_In, filter_In. intros [Hr _]. apply list_elem_of_In, Hin in Hr as (k & Hk & Hn). split; [by exists k|].
    intros k'. rewrite (dget_filter (is_active active)). unfold is_active; case_bool_decide as Ha; [|done]. intros Hk'. apply Hn. by rewrite (in_pool_once s k k' r H Hk Hk').
  - intros k r Hk Ho. rewrite (dget_filter (is_active active)). destruct (is_active active k) eqn:Ea; [by left|]. right. apply bool_decide_eq_false in Ea.
    rewrite list_elem_of_In, filter_In. split; [|done]. apply list_elem_of_In, Hin. by exists k.
Qed.
Lemma is_open_aclose s r r' : is_open (aclose r s) r' = if decide (r = r') then false else is_open s r'.
Proof.
  unfold is_open, aclose. cbn. case_decide as Hr; [subst r'; rewrite list_lookup_alter_eq; by destruct (clients s !! r)|by rewrite list_lookup_alter_ne].
Qed.
Lemma aclose_made s r r' c : clients s !! r' = Some c → ∃ c', clients (aclose r s) !! r' = Some c' ∧ made_for c' = made_for c.
Proof.
  intros Hc. cbn. destruct (decide (r = r')) as [->|Hne]; [rewrite list_lookup_alter_eq, Hc; by eexists|rewrite list_lookup_alter_ne by done; by eexists].
Qed.
Lemma inv_aclose s r : pool_inv s → pool_inv (aclose r s).
Proof.
  intros [H1 H2 H3 H4 H5]. split; [done| | | |done].
  - intros k r' Hk. destruct (H2 k r' Hk) as (c & ip & port & tls & Hc & Hm & ->). destruct (aclose_made s r r' c Hc) as (c' & Hc' & Hm').
    exists c', ip, port, tls. by rewrite Hm'.
  - intros r' Hr. destruct (H3 r' Hr) as [Hlt Hn]. split; [cbn; by rewrite length_alter|done].
  - intros r' Ho. rewrite is_open_aclose in Ho. case_decide; [done|]. by apply H4.
Qed.
Lemma inv_close_next s : pool_inv s → pool_inv (close_next s).
Proof.
  intros H. unfold close_next. destruct (to_close s) as [|r rs] eqn:E; [done|]. destruct (inv_aclose s r H) as [H1 H2 H3 H4 H5]. split; try done.
  - intros r' Hr. apply H3. cbn. rewrite E. by right.
  - intros r' Ho. change (is_open (aclose r s) r' = true) in Ho. destruct (H4 r' Ho) as [Hp|Hr]; [by left|]. cbn in Hr. rewrite E in Hr.
    apply elem_of_cons in Hr as [->|Hr]; [|by right]. rewrite is_open_aclose, decide_True in Ho by done. done.
Qed.
Lemma inv_warmup endpoints tls creates : honest tls → ∀ s, pool_inv s → pool_inv (warmup_clients md5_8 endpoints tls creates s).
Proof. intros Hh. induction endpoints as [|[ip port] l IH]; intros s H; [done|]. cbn. by apply IH, inv_get. Qed.
Lemma inv_keys endpoints tls : honest tls → ∀ s, pool_inv s → pool_inv (get_pool_keys_for_endpoints md5_8 endpoints tls s).1.
Proof.
  intros Hh. induction endpoints as [|[ip port] l IH]; intros s H; [done|]. cbn. pose proof (get_pool_key_spec ip port tls s Hh H) as Hk.
  destruct (get_pool_key md5_8 ip port tls s) as [s1 k]. destruct Hk as (H1 & _). specialize (IH s1 H1). by destruct (get_pool_keys_for_endpoints md5_8 l tls s1).
Qed.

Definition op_honest (o : pool_op) : Prop :=
  match o with OpGet _ _ tls _ | OpClose _ _ tls | OpWarmup _ tls _ | OpRefreshed _ tls _ => honest tls | _ => True end.
Lemma inv_step s o : op_honest o → pool_inv s → pool_inv (pool_step md5_8 s o).
Proof.
  intros Ho H. destruct o as [ip port tls cr|ip port tls| |active|l tls cr|l tls cr| |r]; cbn [pool_step].
  - by apply inv_get.
  - by apply inv_close.
  - by apply inv_close_all.
  - by apply inv_cleanup.
  - by apply inv_warmup.
  - unfold on_instance_refreshed. pose proof (inv_keys l tls Ho s H) as Hk. destruct (get_pool_keys_for_endpoints md5_8 l tls s) as [s1 keys].
    apply (inv_cleanup s1 keys) in Hk. destruct l; [done|]. by apply inv_warmup.
  - by apply inv_close_next.
  - by apply inv_aclose.
Qed.
Lemma inv_run ops : Forall op_honest ops → pool_inv (pool_run md5_8 ops).
Proof.
  unfold pool_run. assert (∀ s, Forall op_honest ops → pool_inv s → pool_inv (fold_left (pool_step md5_8) ops s)) as H.
  { induction ops as [|o ops IH]; intros s Hall Hs; [done|]. apply Forall_cons in Hall as [Ho Hall]. cbn. by apply IH, inv_step. }
  intros Hall. apply H; [done|apply pool_inv_init].
Qed.
End lemmas.

(** ** Properties *)

Section properties.
Context (md5_8 : string → string) (ids : Z → TLSConfig).

Lemma close_next_n n s : length (to_close s) = n → client_pool s = [] → pool_inv md5_8 ids s → ∀ r, is_open (Nat.iter n close_next s) r = false.
Proof.
  revert s. induction n as [|n IH]; intros s Hn Hp Hs r.
  - cbn. destruct (is_open s r) eqn:E; [|done]. apply (pi_leak _ _ s Hs) in E as [[k Hk]|Hr]; [by rewrite Hp in Hk|].
    by destruct (to_close s) as [|? ?]; [apply elem_of_nil in Hr|].
  - rewrite Nat.iter_succ_r. apply IH; [| |by apply inv_close_next]; unfold close_next; destruct (to_close s); cbn in *; congruence.
Qed.

(** No client is lost.  However the pool is used, an open client it made is in the pool, under
    one key, or was taken out to be closed and then is never handed out again; and once the pool
    is closed and the clients that were taken out are, none is open. *)
Theorem no_client_leaks ops :
  Forall (op_honest ids) ops →
  let s := pool_run md5_8 ops in
  (∀ r, is_open s r = true → in_pool s r ∨ r ∈ to_close s) ∧ (∀ r, r ∈ to_close s → ¬ in_pool s r) ∧
  (∀ k k' r, dget (client_pool s) k = Some r → dget (client_pool s) k' = Some r → k = k') ∧
  ∀ r, is_open (Nat.iter (length (to_close (close_all s))) close_next (close_all s)) r = false.
Proof.
  intros H. pose proof (inv_run md5_8 ids ops H) as Hs. cbv zeta. split_and!.
  - apply Hs.
  - intros r Hr. by apply (pi_out _ _ _ Hs).
  - intros k k' r. by eapply in_pool_once.
  - apply close_next_n; [done|done|by apply inv_close_all].
Qed.

Lemma get_pool_key_again ip port tls s s1 k s' :
  get_pool_key md5_8 ip port tls s = (s1, k) → tls_hash_cache s' = tls_hash_cache s1 → get_pool_key md5_8 ip port tls s' = (s', k).
Proof.
  unfold get_pool_key, tls_hash. intros H Hc. destruct tls as [[id t]|]; [|by injection H as <- <-]. rewrite Hc.
  destruct (dget (tls_hash_cache s) id) as [h|] eqn:E; injection H as <- <-; [by rewrite E|]. cbn. by rewrite dget_dset_eq.
Qed.
(** What is got is in the pool under its key. *)
Lemma get_client_pooled s ip port tls creates s' r :
  honest ids tls → pool_inv md5_8 ids s → get_client md5_8 ip port tls creates s = (s', Ret r) →
  pooled s' (key_of md5_8 ip port tls) = Some r ∧ get_pool_key md5_8 ip port tls s' = (s', key_of md5_8 ip port tls).
Proof.
  intros Hh Hs Hg. unfold get_client in Hg. pose proof (get_pool_key_spec md5_8 ids ip port tls s Hh Hs) as Hk.
  destruct (get_pool_key md5_8 ip port tls s) as [s1 k] eqn:Ek. destruct Hk as (_ & -> & _).
  destruct (pooled s1 (key_of md5_8 ip port tls)) as [r'|] eqn:Ep.
  { injection Hg as <- <-. split; [done|]. by eapply get_pool_key_again. }
  destruct creates; [|done]. unfold get_locked in Hg. rewrite Ep in Hg. injection Hg as <- <-. split; [|by eapply get_pool_key_again].
  unfold pooled, is_open, add_client. cbn. by rewrite dget_dset_eq, list_lookup_middle by done.
Qed.

(** C0: what a request gets is an open client for its address.  In every state the pool can be in
    the client was made for the same address and port and the same TLS fields, up to the hash,
    and asking again gives the same one until it is closed. *)
Theorem client_of_request ops ip port tls creates s' r :
  Forall (op_honest ids) ops → honest ids tls → get_client md5_8 ip port tls creates (pool_run md5_8 ops) = (s', Ret r) →
  is_open s' r = true ∧
  (∃ c ip' port' tls', clients s' !! r = Some c ∧ made_for c = (ip', port', tls') ∧ key_of md5_8 ip' port' tls' = key_of md5_8 ip port tls) ∧
  ∀ creates', get_client md5_8 ip port tls creates' s' = (s', Ret r).
Proof.
  intros Hops Hh Hg. pose proof (inv_run md5_8 ids ops Hops) as Hs. pose proof (inv_get md5_8 ids _ ip port tls creates Hh Hs) as Hs'.
  rewrite Hg in Hs'. cbn [fst] in Hs'. destruct (get_client_pooled _ _ _ _ _ _ _ Hh Hs Hg) as [Hp Hk].
  assert (dget (client_pool s') (key_of md5_8 ip port tls) = Some r ∧ is_open s' r = true) as [Hd Ho].
  { unfold pooled in Hp. destruct (dget _ _) as [n|]; [|done]. by destruct (is_open s' n) eqn:E; simplify_eq. }
  split_and!; [done| |].
  - destruct (pi_known _ _ _ Hs' _ _ Hd) as (c & ip' & port' & tls' & Hc & Hm & E). by exists c, ip', port', tls'.
  - intros cr. unfold get_client. by rewrite Hk, Hp.
Qed.
End properties.

(** ** Samples *)

Definition sample_tls : TLSConfig := mkTls true "/tls/ca.crt" "/tls/a.crt" "/tls/a.key" "" "".
Definition other_tls : TLSConfig := mkTls true "/tls/ca.crt" "/tls/b.crt" "/tls/b.key" "" "".
Definition sample_ids (id : Z) : TLSConfig := if id =? 1 then sample_tls else other_tls.
Definition sample_md5 (s : string) : string := s.
Definition sample_ops : list pool_op :=
  [OpGet "10.0.0.1" "8000" (Some (1, sample_tls)) true; OpGet "10.0.0.2" "8000" (Some (1, sample_tls)) true;
   OpRefreshed [("10.0.0.2", "8000"); ("10.0.0.3", "8000")]%string (Some (1, sample_tls)) (λ _ _, true)].
Lemma sample_honest : Forall (op_honest sample_ids) sample_ops.
Proof. by repeat constructor. Qed.

Lemma no_client_leaks_witness : ¬ in_pool (pool_run sample_md5 sample_ops) 0 ∧ is_open (pool_run sample_md5 sample_ops) 0 = true.
Proof.
  split; [|vm_compute; reflexivity].
  exact (proj1 (proj2 (no_client_leaks sample_md5 sample_ids sample_ops sample_honest)) 0%nat ltac:(vm_compute; left)).
Defined.
Lemma client_of_request_witness :
  is_open (get_client sample_md5 "10.0.0.2" "8000" (Some (1, sample_tls)) true (pool_run sample_md5 sample_ops)).1 1 = true.
Proof.
  exact (proj1 (client_of_request sample_md5 sample_ids sample_ops "10.0.0.2" "8000" (Some (1, sample_tls)) true _ 1%nat sample_honest eq_refl
    ltac:(vm_compute; reflexivity))).
Defined.

(** A client in use is closed when its instance leaves. *)
Example cleanup_closes_clients_in_use :
  let s := pool_run sample_md5 [OpGet "10.0.0.1" "8000" None true] in
  (snd (get_client sample_md5 "10.0.0.1" "8000" None true s), is_open (pool_run sample_md5 [OpGet "10.0.0.1" "8000" None true; OpRefreshed [("10.0.0.2", "8000")]%string None (λ _ _, true); OpCloseNext]) 0)
    = (Ret 0%nat, false).
Proof. vm_compute. reflexivity. Qed.
(** An object that is made where another was has its hash: the client of the other configuration is used. *)
Example identity_used_again :
  let s := pool_run sample_md5 [OpGet "10.0.0.1" "8000" (Some (1, sample_tls)) true] in
  (snd (get_client sample_md5 "10.0.0.1" "8000" (Some (1, other_tls)) true s), snd (get_client sample_md5 "10.0.0.1" "8000" (Some (2, other_tls)) true s)) = (Ret 0%nat, Ret 1%nat).
Proof. vm_compute. reflexivity. Qed.
Example sample_urls : (base_url "10.0.0.1:80//" "http://" (Some sample_tls), request_url "https://h" "//v1/x") = ("https://10.0.0.1:80", "https://h/v1/x")%string.
Proof. vm_compute. reflexivity. Qed.
