(* ===== verification/ZmqProtocol.v ===== *)
(** * Messages between the workers and the scheduler

    Models [coordinator/scheduler/runtime/zmq_protocol.py]: a message is one frame, or a frame
    that refers to others in which its large dictionaries and lists are, by their index.

    msgpack is an argument: [encode] and [decode] of a value, where bytes have a size; what is
    relied on is that what was encoded is decoded to the same value.  A [msgspec.Struct] is
    encoded as the dictionary of its fields.  A reference is resolved by recursion, which Python
    ends with a [RecursionError] (a [RuntimeError]): [depth] is what is left of its limit. *)

From stdpp Require Import base option list strings.
From Stdlib Require Import ZArith Lia.
From S2P Require Import Prelude PyText.
Open Scope Z_scope.

Abbreviation jdict := (list (string * json)).

Definition ZERO_COPY_REF_KEY : string := "__ref__".
Definition DEFAULT_ZERO_COPY_THRESHOLD : Z := 1024.

(** The fields are typed only when they are decoded; a response without data holds [JNull]. *)
Record SchedulerRequest := mkRequest { request_type : string; request_id : string; req_data : json }.
Record SchedulerResponse := mkResponse { response_type : string; resp_id : string; resp_data : json; error : option string }.

(** One frame, or a main frame and its parts. *)
Inductive payload (B : Type) := One (b : B) | Many (l : list B).
Arguments One {B} _.
Arguments Many {B} _.

Definition is_container (v : json) : bool := match v with JList _ | JObj _ => true | _ => false end.
(** A dictionary with the key of a reference alone that is not null. *)
Definition kept (d : jdict) : bool :=
  match d with [(k, v)] => bool_decide (k = ZERO_COPY_REF_KEY) && negb (match v with JNull => true | _ => false end) | _ => false end.
Definition ref_to (n : nat) : json := JObj [(ZERO_COPY_REF_KEY, JInt (Z.of_nat n))].
(** The index of a reference; [True] is an [int]. *)
Definition ref_index (d : jdict) : option Z :=
  match d with
  | [(k, JInt z)] => if bool_decide (k = ZERO_COPY_REF_KEY) then Some z else None
  | [(k, JBool b)] => if bool_decide (k = ZERO_COPY_REF_KEY) then Some (Z.b2z b) else None
  | _ => None
  end.

(** A comprehension whose items may raise, and one that appends to a list. *)
Fixpoint py_map {A C} (f : A → py C) (l : list A) : py (list C) :=
  match l with [] => Ret [] | x :: l => y ← f x; out ← py_map f l; Ret (y :: out) end.
Section accum.
Context {A C S : Type} (f : A → S → C * S).
Fixpoint map_accum (l : list A) (s : S) : list C * S :=
  match l with [] => ([], s) | x :: l => let '(y, s) := f x s in let '(out, s) := map_accum l s in (y :: out, s) end.
End accum.

Section msgpack.
Context {B : Type} (size : B → Z) (encode : json → py B) (decode : B → py json) (no_bytes : B) (threshold : Z).

(** A value whose encoding exceeds the threshold goes to a frame of its own: its encoding. *)
Definition large (v : json) : option B :=
  match encode v with Ret b => if threshold <? size b then Some b else None | Raise _ => None end.

(** A dictionary or list in a dictionary: large ones go to a frame, [f] looks into others. *)
Definition replace_value (f : json → list B → json * list B) (kv : string * json) (aux : list B) : (string * json) * list B :=
  if is_container kv.2 then
    match large kv.2 with
    | Some blob => ((kv.1, ref_to (length aux)), aux ++ [blob])
    | None => let '(v, aux) := f kv.2 aux in ((kv.1, v), aux)
    end
  else (kv, aux).

(** [_replace_large_with_refs]: [aux] is the list it appends to. *)
Fixpoint replace_large_with_refs (obj : json) (aux : list B) : json * list B :=
  match obj with
  | JObj d =>
      if kept d then (obj, aux)
      else let '(out, aux) := map_accum (λ kv aux, replace_value (λ v aux, replace_large_with_refs v aux) kv aux) d aux in (JObj out, aux)
  | JList l =>
      match large obj with
      | Some blob => (ref_to (length aux), aux ++ [blob])
      | None => let '(out, aux) := map_accum (λ x aux, replace_large_with_refs x aux) l aux in (JList out, aux)
      end
  | _ => (obj, aux)
  end.

(** [_resolve_refs]. *)
Fixpoint resolve_refs (depth : nat) (aux_buffers : list B) (obj : json) : py json :=
  match depth with
  | O => Raise RuntimeError
  | S depth =>
      let in_dict (d : jdict) : py json := out ← py_map (λ kv, v ← resolve_refs depth aux_buffers kv.2; Ret (kv.1, v)) d; Ret (JObj out) in
      match obj with
      | JObj d =>
          match ref_index d with
          | Some idx =>
              if (0 <=? idx) && (idx <? Z.of_nat (length aux_buffers)) then
                match aux_buffers !! Z.to_nat idx with
                | Some b => decoded ← decode b; resolve_refs depth aux_buffers decoded
                | None => in_dict d
                end
              else in_dict d
          | None => in_dict d
          end
      | JList l => out ← py_map (resolve_refs depth aux_buffers) l; Ret (JList out)
      | _ => Ret obj
      end
  end.

(** ** Structs as dictionaries *)

Definition str_of (v : json) : py string := match v with JStr s => Ret s | _ => Raise ValueError end.
Definition dict_of (v : json) : py jdict := match v with JObj d => Ret d | _ => Raise ValueError end.
Definition required (d : jdict) (k : string) : py json := match dget d k with Some v => Ret v | None => Raise ValueError end.
Definition request_fields (r : SchedulerRequest) (data : json) : json :=
  JObj [("request_type", JStr (request_type r)); ("request_id", JStr (request_id r)); ("data", data)]%string.
Definition decode_request (b : B) : py SchedulerRequest :=
  v ← decode b; d ← dict_of v;
  t ← required d "request_type"; t ← str_of t; i ← required d "request_id"; i ← str_of i; x ← required d "data"; x ← dict_of x;
  Ret (mkRequest t i (JObj x)).
Definition response_fields (r : SchedulerResponse) (data : json) : json :=
  JObj [("response_type", JStr (response_type r)); ("request_id", JStr (resp_id r)); ("data", data);
        ("error", match error r with Some e => JStr e | None => JNull end)]%string.
Definition optional {A} (f : json → py A) (v : json) : py (option A) := match v with JNull => Ret None | v => x ← f v; Ret (Some x) end.
Definition decode_response (b : B) : py SchedulerResponse :=
  v ← decode b; d ← dict_of v;
  t ← required d "response_type"; t ← str_of t; i ← required d "request_id"; i ← str_of i;
  x ← optional dict_of (default JNull (dget d "data")); e ← optional str_of (default JNull (dget d "error"));
  Ret (mkResponse t i (match x with Some d => JObj d | None => JNull end) e).

Definition frames (main : B) (aux : list B) : payload B := match aux with [] => One main | _ => Many (main :: aux) end.

Definition serialize_request (request : SchedulerRequest) : py (payload B) :=
  let '(data, aux) := replace_large_with_refs (req_data request) [] in
  main_buf ← encode (request_fields request data);
  Ret (frames main_buf aux).

Definition deserialize_request (depth : nat) (data : payload B) : py SchedulerRequest :=
  match data with
  | One b => decode_request b
  | Many [] => Raise IndexError
  | Many [main_buf] => decode_request main_buf
  | Many (main_buf :: aux) =>
      obj ← decode_request main_buf;
      resolved_data ← resolve_refs depth aux (req_data obj);
      Ret (mkRequest (request_type obj) (request_id obj) resolved_data)
  end.

Definition serialize_response (response : SchedulerResponse) : py (payload B) :=
  let '(data, aux) := match resp_data response with JNull => (JNull, []) | d => replace_large_with_refs d [] end in
  main_buf ← encode (response_fields response data);
  Ret (frames main_buf aux).

Definition deserialize_response (depth : nat) (data : payload B) : py SchedulerResponse :=
  match data with
  | One b => decode_response b
  | Many [] => Raise IndexError
  | Many [main_buf] => decode_response main_buf
  | Many (main_buf :: aux) =>
      obj ← decode_response main_buf;
      resolved_data ← (if truthy (resp_data obj) then resolve_refs depth aux (resp_data obj) else Ret JNull);
      Ret (mkResponse (response_type obj) (resp_id obj) resolved_data (error obj))
  end.

Definition pack_send_frames (prefix : list B) (p : payload B) : list B := match p with Many l => prefix ++ l | One b => prefix ++ [b] end.
Definition unpack_recv_payload (parts : list B) (payload_start : nat) : payload B :=
  match drop payload_start parts with
  | [] => One no_bytes
  | [b] => One b
  | l => Many l
  end.
End msgpack.

(** ** Lemmas *)

(** Induction on a value and what is in it. *)
Section induction.
Context (P : json → Prop) (Hnull : P JNull) (Hbool : ∀ b, P (JBool b)) (Hint : ∀ z, P (JInt z)) (Hfloat : ∀ f, P (JFloat f)) (Hstr : ∀ s, P (JStr s)).
Context (Hlist : ∀ l, Forall P l → P (JList l)) (Hobj : ∀ d, Forall (λ kv, P kv.2) d → P (JObj d)).
Fixpoint json_nested_ind (v : json) : P v :=
  match v with
  | JNull => Hnull | JBool b => Hbool b | JInt z => Hint z | JFloat f => Hfloat f | JStr s => Hstr s
  | JList l => Hlist l ((fix go l : Forall P l := match l with [] => Forall_nil_2 P | x :: l => Forall_cons_2 P x l (json_nested_ind x) (go l) end) l)
  | JObj d => Hobj d ((fix go d : Forall (λ kv, P kv.2) d :=
                         match d with [] => Forall_nil_2 _ | kv :: d => Forall_cons_2 _ kv d (json_nested_ind kv.2) (go d) end) d)
  end.
End induction.

(** How deep dictionaries and lists are nested. *)
Fixpoint height (v : json) : nat :=
  match v with
  | JList l => S ((fix go l := match l with [] => 0%nat | x :: l => Nat.max (height x) (go l) end) l)
  | JObj d => S ((fix go d := match d with [] => 0%nat | kv :: d => Nat.max (height kv.2) (go d) end) d)
  | _ => 0%nat
  end.
(** No dictionary anywhere is taken for a reference. *)
Fixpoint clean (v : json) : bool :=
  match v with
  | JList l => (fix go l := match l with [] => true | x :: l => clean x && go l end) l
  | JObj d => match ref_index d with None => true | Some _ => false end &&
              (fix go d := match d with [] => true | kv :: d => clean kv.2 && go d end) d
  | _ => true
  end.

Lemma height_list l x : x ∈ l → (height x < height (JList l))%nat.
Proof. induction 1 as [x l|x y l H IH]; cbn in *; lia. Qed.
Lemma height_obj d k v : (k, v) ∈ d → (height v < height (JObj d))%nat.
Proof. intros H. remember (k, v) as kv eqn:E. revert E. induction H as [kv d|kv y d H IH]; intros ->; cbn in *; [lia|]. specialize (IH eq_refl). lia. Qed.
Lemma clean_list l : clean (JList l) = true ↔ Forall (λ x, clean x = true) l.
Proof. induction l as [|x l IH]; cbn in *; [by split|]. rewrite andb_true_iff, Forall_cons. by rewrite IH. Qed.
Lemma clean_obj d : clean (JObj d) = true ↔ ref_index d = None ∧ Forall (λ kv, clean kv.2 = true) d.
Proof.
  cbn. assert ((fix go d := match d with [] => true | kv :: d => clean kv.2 && go d end) d = true ↔ Forall (λ kv, clean kv.2 = true) d) as Hd.
  { induction d as [|kv d IH]; [by split|]. rewrite andb_true_iff, Forall_cons. by rewrite IH. }
  rewrite andb_true_iff, Hd. destruct (ref_index d); naive_solver.
Qed.

Lemma py_map_Ret {A C} (f : A → py C) l out : Forall2 (λ y x, f x = Ret y) out l → py_map f l = Ret out.
Proof. induction 1 as [|y x out l H _ IH]; [done|]. cbn [py_map]. rewrite H. cbn [mbind py_bind]. by rewrite IH. Qed.
(** A pass that only appends: what held of each item when it was done holds in the end. *)
Lemma map_accum_appends {A C T} (f : A → list T → C * list T) (P : list T → A → C → Prop) l : ∀ aux out aux',
  map_accum f l aux = (out, aux') →
  (∀ x a y a', x ∈ l → f x a = (y, a') → ∃ extra, a' = a ++ extra ∧ ∀ more, P (a' ++ more) x y) →
  ∃ extra, aux' = aux ++ extra ∧ ∀ more, Forall2 (P (aux' ++ more)) l out.
Proof.
  induction l as [|x l IH]; intros aux out aux' H Hf; cbn [map_accum] in H.
  { injection H as <- <-. exists []. split; [by rewrite app_nil_r|]. constructor. }
  destruct (f x aux) as [y a1] eqn:E1. destruct (map_accum f l a1) as [out1 a2] eqn:E2. injection H as <- <-.
  destruct (Hf x aux y a1 ltac:(left) E1) as (e1 & -> & H1). destruct (IH _ _ _ E2) as (e2 & -> & H2); [intros; eapply Hf; [by right|done]|].
  exists (e1 ++ e2). rewrite app_assoc. split; [done|]. intros more. constructor; [rewrite <- (app_assoc _ e2); apply H1|apply H2].
Qed.

Section roundtrip.
Context {B : Type} (size : B → Z) (encode : json → py B) (decode : B → py json) (no_bytes : B) (threshold : Z).
(** What msgpack promises. *)
Hypothesis decode_encode : ∀ v b, encode v = Ret b → decode b = Ret v.

(** Where no dictionary looks like a reference nothing is resolved. *)
Lemma resolve_clean v : ∀ n aux, clean v = true → (height v < n)%nat → resolve_refs decode n aux v = Ret v.
Proof.
  induction v as [| | | | |l IH|d IH] using json_nested_ind; intros [|n] aux Hc Hn; try lia; try done; cbn [resolve_refs].
  - apply clean_list in Hc. rewrite (py_map_Ret _ l l); [done|]. apply Forall_Forall2_diag, Forall_forall. intros x Hx.
    rewrite Forall_forall in IH, Hc. pose proof (height_list l x Hx). apply IH; [done|by apply Hc|lia].
  - apply clean_obj in Hc as [Hr Hc]. rewrite Hr. rewrite (py_map_Ret _ d d); [done|]. apply Forall_Forall2_diag, Forall_forall. intros [k x] Hx.
    rewrite Forall_forall in IH, Hc. pose proof (height_obj d k x Hx). cbn [fst snd]. rewrite (IH _ Hx); [done|by apply (Hc (k, x))|cbn; lia].
Qed.

Lemma resolve_ref n aux i b v : aux !! i = Some b → decode b = Ret v → resolve_refs decode (S n) aux (ref_to i) = resolve_refs decode n aux v.
Proof.
  intros Hi Hb. cbn [resolve_refs ref_to ref_index]. rewrite bool_decide_true by done. apply lookup_lt_Some in Hi as Hlt.
  rewrite (proj2 (Z.leb_le _ _)) by lia. rewrite (proj2 (Z.ltb_lt _ _)) by lia. cbn [andb]. rewrite Nat2Z.id, Hi, Hb. done.
Qed.

(** The keys stay, and a dictionary that was no reference does not become one. *)
Lemma not_kept_no_ref d out :
  kept d = false → ref_index d = None → Forall2 (λ kv kv', kv'.1 = kv.1 ∧ (is_container kv.2 = false → kv' = kv)) d out → ref_index out = None.
Proof.
  intros Hk Hr H. destruct H as [|[k v] [k' v'] d out [Ek Ec] [|]]; [done| |by destruct v']. cbn in Ek, Ec. subst k'.
  cbn in Hk. destruct v; cbn in Ec; try (injection (Ec eq_refl) as ->; exact Hr); rewrite andb_true_r in Hk; cbn; destruct v'; by rewrite ?Hk.
Qed.

(** [v'] stands for [v] among the frames [aux]. *)
Definition stands_for (aux : list B) (v v' : json) : Prop := ∀ n, (S (height v) < n)%nat → resolve_refs decode n aux v' = Ret v.

Lemma clean_stands aux v : clean v = true → stands_for aux v v.
Proof. intros H n Hn. apply resolve_clean; [done|lia]. Qed.
Lemma large_stands v b aux more : clean v = true → large size encode threshold v = Some b → stands_for ((aux ++ [b]) ++ more) v (ref_to (length aux)).
Proof.
  intros Hc Hl [|n] Hn; [lia|]. unfold large in Hl. destruct (encode v) as [b'|] eqn:Eb; [|done]. destruct (threshold <? size b'); [|done]. injection Hl as ->.
  rewrite (resolve_ref n _ _ b v); [apply resolve_clean; [done|lia]| |by apply decode_encode]. rewrite <- app_assoc. by apply list_lookup_middle.
Qed.

Abbreviation replace := (replace_large_with_refs size encode threshold).

Lemma replace_stands v : clean v = true → ∀ aux v' aux', replace v aux = (v', aux') →
  ∃ extra, aux' = aux ++ extra ∧ ∀ more, stands_for (aux' ++ more) v v'.
Proof.
  assert (∀ v (aux : list B), clean v = true → ∃ extra, aux = aux ++ extra ∧ ∀ more, stands_for (aux ++ more) v v) as Hsame.
  { intros w aux Hw. exists []. split; [by rewrite app_nil_r|]. intros more. by apply clean_stands. }
  induction v as [| | | | |l IH|d IH] using json_nested_ind; intros Hc aux v' aux' H; cbn [replace_large_with_refs] in H;
    try (injection H as <- <-; by apply Hsame).
  - destruct (large _ _ _ (JList l)) as [b|] eqn:El.
    { injection H as <- <-. exists [b]. split; [done|]. intros more. by apply large_stands. }
    destruct (map_accum _ l aux) as [out a] eqn:E. injection H as <- <-.
    destruct (map_accum_appends _ (λ aux x y, (height x < height (JList l))%nat ∧ stands_for aux x y) l aux out a E) as (extra & -> & Hall).
    { intros x a0 y a' Hx Hf. apply clean_list in Hc. rewrite Forall_forall in IH, Hc. destruct (IH x Hx (Hc x Hx) _ _ _ Hf) as (e & -> & Hs).
      exists e. split; [done|]. intros more. split; [by apply height_list|apply Hs]. }
    exists extra. split; [done|]. intros more [|n] Hn; [lia|]. cbn [resolve_refs]. rewrite (py_map_Ret _ out l); [done|].
    eapply Forall2_impl; [apply (Hall more)|]. intros x y [Hh Hs]. apply Hs. lia.
  - destruct (kept d) eqn:Ek; [injection H as <- <-; by apply Hsame|]. destruct (map_accum _ d aux) as [out a] eqn:E. injection H as <- <-.
    pose proof Hc as Hc'. apply clean_obj in Hc' as [Hr Hd].
    destruct (map_accum_appends _ (λ aux kv kv', (height kv.2 < height (JObj d))%nat ∧ (kv'.1 = kv.1 ∧ (is_container kv.2 = false → kv' = kv)) ∧ stands_for aux kv.2 kv'.2) d aux out a E)
      as (extra & -> & Hall).
    { intros [k x] a0 [k' y] a' Hx Hf. rewrite Forall_forall in IH, Hd. pose proof (height_obj d k x Hx) as Hh. specialize (Hd _ Hx). specialize (IH _ Hx Hd).
      cbn [fst snd] in *. unfold replace_value in Hf. cbn [fst snd] in Hf. destruct (is_container x) eqn:Ec.
      - destruct (large _ _ _ x) as [b|] eqn:El.
        + injection Hf as <- <- <-. exists [b]. split; [done|]. intros more. split_and!; try done. by apply large_stands.
        + destruct (replace x a0) as [w a1] eqn:Ew. injection Hf as <- <- <-. destruct (IH _ _ _ Ew) as (e & -> & Hs). exists e. split; [done|].
          intros more. by split_and!.
      - injection Hf as <- <- <-. exists []. split; [by rewrite app_nil_r|]. intros more. split_and!; try done. by apply clean_stands. }
    exists extra. split; [done|]. intros more [|n] Hn; [lia|]. cbn [resolve_refs].
    assert (ref_index out = None) as ->.
    { eapply (not_kept_no_ref d out Ek Hr), Forall2_impl; [apply (Hall more)|]. by intros ? ? (_ & ? & _). }
    rewrite (py_map_Ret _ out d); [done|]. eapply Forall2_impl; [apply (Hall more)|]. intros [k x] [k' y] (Hh & [Hk _] & Hs). cbn [fst snd] in *. subst k'.
    by rewrite (Hs n) by lia.
Qed.

(** A message of one frame is as it was. *)
Lemma map_accum_same {A T} (f : A → list T → A * list T) l : ∀ aux out,
  (∀ x a y a', x ∈ l → f x a = (y, a') → (length a <= length a')%nat ∧ (length a' = length a → y = x ∧ a' = a)) →
  ∀ aux', map_accum f l aux = (out, aux') → (length aux <= length aux')%nat ∧ (length aux' = length aux → out = l ∧ aux' = aux).
Proof.
  induction l as [|x l IH]; intros aux out Hf aux' H; cbn [map_accum] in H; [by injection H as <- <-|].
  destruct (f x aux) as [y a1] eqn:E1. destruct (map_accum f l a1) as [out1 a2] eqn:E2. injection H as <- <-.
  destruct (Hf _ _ _ _ ltac:(left) E1) as [L1 S1]. destruct (IH a1 out1 ltac:(intros; eapply Hf; [by right|done]) a2 E2) as [L2 S2].
  split; [lia|]. intros Hl. destruct (S1 ltac:(lia)) as [-> ->]. by destruct (S2 ltac:(lia)) as [-> ->].
Qed.
Lemma replace_same v : ∀ aux v' aux', replace v aux = (v', aux') →
  (length aux <= length aux')%nat ∧ (length aux' = length aux → v' = v ∧ aux' = aux).
Proof.
  induction v as [| | | | |l IH|d IH] using json_nested_ind; intros aux v' aux' H; cbn [replace_large_with_refs] in H; try (by injection H as <- <-).
  - destruct (large _ _ _ (JList l)); [injection H as <- <-; rewrite length_app; cbn; split; lia|].
    destruct (map_accum _ l aux) as [out a] eqn:E. injection H as <- <-. apply map_accum_same in E as [L S].
    + split; [done|]. intros Hl. by destruct (S Hl) as [-> ->].
    + intros x a0 y a' Hx. rewrite Forall_forall in IH. by apply IH.
  - destruct (kept d); [by injection H as <- <-|]. destruct (map_accum _ d aux) as [out a] eqn:E. injection H as <- <-.
    apply map_accum_same in E as [L S]; [split; [done|intros Hl; by destruct (S Hl) as [-> ->]]|].
    intros [k x] a0 y a' Hx Hf. rewrite Forall_forall in IH. unfold replace_value in Hf. cbn [fst snd] in Hf. destruct (is_container x); [|by injection Hf as <- <-].
    destruct (large _ _ _ x); [injection Hf as <- <-; rewrite length_app; cbn; split; lia|]. destruct (replace x a0) as [w a1] eqn:Ew. injection Hf as <- <-.
    destruct (IH _ Hx _ _ _ Ew) as [L' S']. split; [done|]. intros Hl. by destruct (S' Hl) as [-> ->].
Qed.
Lemma replace_obj d aux : ∃ out aux', replace (JObj d) aux = (JObj out, aux').
Proof. cbn [replace_large_with_refs]. destruct (kept d); [by eexists _, _|]. destruct (map_accum _ d aux) as [out a]. by eexists _, _. Qed.

Lemma unpack_pack (prefix : list B) main aux : unpack_recv_payload no_bytes (pack_send_frames prefix (frames main aux)) (length prefix) = frames main aux.
Proof. unfold unpack_recv_payload, pack_send_frames, frames. destruct aux; by rewrite drop_app_length. Qed.
Lemma decode_request_fields r d b : encode (request_fields r (JObj d)) = Ret b → decode_request decode b = Ret (mkRequest (request_type r) (request_id r) (JObj d)).
Proof. intros H. apply decode_encode in H. unfold decode_request. by rewrite H. Qed.
Lemma decode_response_fields r v b : (v = JNull ∨ ∃ d, v = JObj d) → encode (response_fields r v) = Ret b →
  decode_response decode b = Ret (mkResponse (response_type r) (resp_id r) v (error r)).
Proof. intros Hv H. apply decode_encode in H. unfold decode_response. rewrite H. destruct r as [t i x [e|]], Hv as [->|[d ->]]; reflexivity. Qed.

(** *** A message on its way *)

Definition arrives (data : json) (p : payload B) (depth : nat) : Prop := (clean data = true ∧ (S (height data) < depth)%nat) ∨ (∃ b, p = One b).
Lemma request_arrives prefix depth r p :
  serialize_request size encode threshold r = Ret p → (∃ d, req_data r = JObj d) → arrives (req_data r) p depth →
  deserialize_request decode depth (unpack_recv_payload no_bytes (pack_send_frames prefix p) (length prefix)) = Ret r.
Proof.
  intros Hs Hd Hok.
  destruct r as [t i data]. destruct Hd as [d Hd]. cbn [req_data] in *. subst data. unfold serialize_request in Hs. cbn [req_data] in Hs.
  destruct (replace_obj d []) as (out & aux & Er). rewrite Er in Hs. apply bind_Ret in Hs as (main & Hm & Hs). injection Hs as <-. rewrite unpack_pack.
  apply decode_request_fields in Hm. unfold deserialize_request, frames. destruct aux as [|a aux].
  { rewrite Hm. apply replace_same in Er as [_ Er]. by destruct (Er eq_refl) as [-> _]. }
  destruct Hok as [[Hc Hh]|[b Hb]]; [|discriminate Hb]. destruct (replace_stands _ Hc _ _ _ Er) as (extra & He & Hst).
  rewrite Hm. cbn [mbind py_bind req_data request_type request_id]. specialize (Hst [] depth Hh). rewrite app_nil_r in Hst. by rewrite Hst.
Qed.
Lemma response_arrives prefix depth r p :
  serialize_response size encode threshold r = Ret p → resp_data r = JNull ∨ (∃ d, resp_data r = JObj d) → arrives (resp_data r) p depth →
  deserialize_response decode depth (unpack_recv_payload no_bytes (pack_send_frames prefix p) (length prefix)) = Ret r.
Proof.
  intros Hs Hd Hok.
  destruct r as [t i data e]. cbn [resp_data] in *. unfold serialize_response in Hs. cbn [resp_data] in Hs. destruct Hd as [->|[d ->]].
  { apply bind_Ret in Hs as (main & Hm & Hs). assert (p = frames main []) as -> by congruence. rewrite unpack_pack. apply decode_response_fields in Hm; [|by left]. exact Hm. }
  destruct (replace_obj d []) as (out & aux & Er). rewrite Er in Hs. apply bind_Ret in Hs as (main & Hm & Hs). injection Hs as <-. rewrite unpack_pack.
  apply decode_response_fields in Hm; [|right; by eexists]. unfold deserialize_response, frames. destruct aux as [|a aux].
  { rewrite Hm. apply replace_same in Er as [_ Er]. by destruct (Er eq_refl) as [-> _]. }
  destruct Hok as [[Hc Hh]|[b Hb]]; [|discriminate Hb]. destruct (replace_stands _ Hc _ _ _ Er) as (extra & He & Hst).
  rewrite Hm. cbn [mbind py_bind resp_data response_type resp_id error]. specialize (Hst [] depth Hh). rewrite app_nil_r in Hst.
  destruct out as [|kv out]; [|cbn [truthy]; by rewrite Hst].
  assert (d = []) as -> by (destruct depth as [|n]; [lia|]; cbn in Hst; congruence). discriminate Er.
Qed.

(** ** Properties *)

(** C27: what is sent is received.  A request or response that can be encoded arrives as it was,
    through the frames of the transport, if no dictionary in its data looks like a reference, or
    if it fits into one frame, and if the limit of the recursion is two more than the depth of
    the data. *)
Theorem message_roundtrip prefix depth :
  (∀ r p, serialize_request size encode threshold r = Ret p → (∃ d, req_data r = JObj d) →
    (clean (req_data r) = true ∧ (S (height (req_data r)) < depth)%nat) ∨ (∃ b, p = One b) →
    deserialize_request decode depth (unpack_recv_payload no_bytes (pack_send_frames prefix p) (length prefix)) = Ret r) ∧
  (∀ r p, serialize_response size encode threshold r = Ret p → resp_data r = JNull ∨ (∃ d, resp_data r = JObj d) →
    (clean (resp_data r) = true ∧ (S (height (resp_data r)) < depth)%nat) ∨ (∃ b, p = One b) →
    deserialize_response decode depth (unpack_recv_payload no_bytes (pack_send_frames prefix p) (length prefix)) = Ret r).
Proof. split; intros r p Hs Hd Hok; [by apply request_arrives|by apply response_arrives]. Qed.
End roundtrip.

(** ** Samples *)

(** Bytes are values themselves, their size the number of nodes. *)
Fixpoint nodes (v : json) : Z :=
  match v with
  | JList l => 1 + (fix go l := match l with [] => 0 | x :: l => nodes x + go l end) l
  | JObj d => 1 + (fix go d := match d with [] => 0 | kv :: d => nodes kv.2 + go d end) d
  | _ => 1
  end.
Lemma sample_law : ∀ v b : json, Ret (A := json) v = Ret b → Ret (A := json) b = Ret v.
Proof. by intros v b [= ->]. Qed.
Definition sample_request : SchedulerRequest :=
  mkRequest "allocate_only" "r1" (JObj [("a", JList [JInt 1; JInt 2; JInt 3]); ("b", JObj [("c", JStr "x"); ("d", JList [JInt 1; JInt 2; JInt 3; JInt 4])]); ("e", JNull)])%string.
Example sample_frames :
  serialize_request nodes Ret 4 sample_request =
    Ret (Many [JObj [("request_type", JStr "allocate_only"); ("request_id", JStr "r1"); ("data", JObj [("a", JList [JInt 1; JInt 2; JInt 3]); ("b", ref_to 0); ("e", JNull)])];
               JObj [("c", JStr "x"); ("d", JList [JInt 1; JInt 2; JInt 3; JInt 4])]])%string.
Proof. vm_compute. reflexivity. Qed.
Lemma message_roundtrip_witness :
  ∃ p, serialize_request nodes Ret 4 sample_request = Ret p ∧
    deserialize_request Ret 10 (unpack_recv_payload JNull (pack_send_frames [JStr "id"; JStr ""] p) 2) = Ret sample_request.
Proof.
  eexists. split; [vm_compute; reflexivity|].
  apply (proj1 (message_roundtrip nodes Ret Ret JNull 4 sample_law [JStr "id"; JStr ""] 10)); [vm_compute; reflexivity|by eexists|].
  left. split; [reflexivity|cbn; lia].
Defined.

(** Data that looks like a reference is taken for one: beside a large value it is replaced by it,
    and inside of one it makes the receiver recurse until Python stops it. *)
Definition delivered (depth : nat) (r : SchedulerRequest) : py SchedulerRequest := p ← serialize_request nodes Ret 4 r; deserialize_request Ret depth p.
Example reference_like_data_replaced :
  delivered 10 (mkRequest "t" "i" (JObj [("x", ref_to 0); ("y", JList [JInt 1; JInt 2; JInt 3; JInt 4])])) =
    Ret (mkRequest "t" "i" (JObj [("x", JList [JInt 1; JInt 2; JInt 3; JInt 4]); ("y", JList [JInt 1; JInt 2; JInt 3; JInt 4])])).
Proof. vm_compute. reflexivity. Qed.
Definition looping : json := JList [JInt 1; JInt 2; JInt 3; ref_to 0].
Theorem self_reference_never_resolved depth : delivered depth (mkRequest "t" "i" (JObj [("x"%string, looping)])) = Raise RuntimeError.
Proof.
  assert (∀ n x, resolve_refs Ret (S (S n)) [looping] (JList [JInt 1; JInt 2; JInt 3; x]) =
    v ← resolve_refs Ret (S n) [looping] x; Ret (JList [JInt 1; JInt 2; JInt 3; v])) as Hlist.
  { intros n x. change (resolve_refs Ret (S (S n)) [looping] (JList ?l)) with (out ← py_map (resolve_refs Ret (S n) [looping]) l; Ret (JList out)).
    cbn [py_map]. change (resolve_refs Ret (S n) [looping] (JInt ?z)) with (Ret (JInt z)). by destruct (resolve_refs Ret (S n) [looping] x). }
  assert (∀ n, resolve_refs Ret (S n) [looping] (ref_to 0) = resolve_refs Ret n [looping] looping) as Href by (intros n; by apply (resolve_ref Ret n [looping] 0 looping looping)).
  assert (∀ n, resolve_refs Ret n [looping] looping = Raise RuntimeError) as Hloop.
  { intros n. induction n as [n IH] using lt_wf_ind. destruct n as [|[|n]]; [done..|]. unfold looping at 2. by rewrite Hlist, Href, IH by lia. }
  change (delivered depth _) with (v ← resolve_refs Ret depth [looping] (JObj [("x"%string, ref_to 0)]); Ret (mkRequest "t" "i" v)).
  destruct depth as [|[|n]]; [done..|].
  change (resolve_refs Ret (S (S n)) _ (JObj ?d)) with (out ← py_map (λ kv, v ← resolve_refs Ret (S n) [looping] kv.2; Ret (kv.1, v)) d; Ret (JObj out)).
  cbn [py_map fst snd]. by rewrite Href, Hloop.
Qed.
