(* ===== verification/SchedulerLink.v ===== *)
(** * The connection of a worker to the scheduler

    Models the life of the connection: [_SchedulerTransport.connect], [disconnect] and the loop
    that receives, of [coordinator/scheduler/runtime/scheduler_client.py], the subscriber of the
    instance changes, and [scheduler_connection_manager.py].  The table of the requests that wait
    is in [SchedulerClient], the messages are in [ZmqProtocol].  Whether the sockets can be made
    and what arrives on them are arguments. *)

From stdpp Require Import base option list strings.
From Stdlib Require Import ZArith Lia.
From S2P Require Import Prelude PyText.
Open Scope Z_scope.

(** ** The transport *)

(** [receive_loop]: the task that receives, and whether it still runs; it ends on an error and,
    as it begins, if the stop event is set. *)
Record Link := mkLink { lk_connected : bool; lk_socket : bool; stop_event : bool; receive_loop : option bool }.
Definition Link_init : Link := mkLink false false false None.

(** [_SchedulerTransport.connect]; [socket_ok]: the socket can be made.  If not, the connection is
    closed under the lock that closing takes: [None], the call never returns. *)
Definition transport_connect (socket_ok : bool) (s : Link) : option (Link * bool) :=
  if lk_connected s then Some (s, true)
  else if socket_ok then Some (mkLink true true (stop_event s) (Some (negb (stop_event s))), true)
  else None.
Definition close_connection (s : Link) : Link := mkLink false false (stop_event s) (receive_loop s).
(** [_SchedulerTransport.disconnect]. *)
Definition transport_disconnect (s : Link) : Link := close_connection (mkLink (lk_connected s) (lk_socket s) true None).

(** What arrives: too few frames, a message that cannot be decoded, or a response. *)
Inductive arrival := TooShort | Undecodable | Response.
Definition running (s : Link) : bool := match receive_loop s with Some b => b && lk_connected s && lk_socket s | None => false end.
(** A turn of [_receive_loop]; [true]: the response is handed to the request that waits for it. *)
Definition receive (a : arrival) (s : Link) : Link * bool :=
  if running s then
    match a with
    | TooShort => (s, false)
    | Undecodable => (mkLink (lk_connected s) (lk_socket s) (stop_event s) (Some false), false)
    | Response => (s, true)
    end
  else (s, false).
(** [send_request] of a request the scheduler answers: it fails at once without a connection. *)
Definition send_request (s : Link) : bool := if negb (lk_connected s) || negb (lk_socket s) then false else (receive Response s).2.

(** ** The subscriber of instance changes *)

Record Subscriber := mkSub { sub_open : bool; sub_stop : bool; sub_loop : option bool }.
Definition Subscriber_init : Subscriber := mkSub false false None.
Definition sub_disconnect (s : Subscriber) : Subscriber := mkSub false true (match sub_loop s with Some true => None | o => o end).
Definition sub_connect (socket_ok : bool) (s : Subscriber) : Subscriber * bool :=
  let s := if sub_open s || match sub_loop s with Some _ => true | None => false end then sub_disconnect s else s in
  let s := mkSub (sub_open s) false (sub_loop s) in
  if socket_ok then (mkSub true false (Some true), true) else (sub_disconnect (mkSub true false (sub_loop s)), false).
(** The version of a change: the number of the second frame behind the topic. *)
Definition INSTANCE_CHANGE_TOPIC : string := "instances_changed".
Definition version_of (frames : list string) : option Z :=
  match frames with
  | topic :: version :: _ => if bool_decide (topic = INSTANCE_CHANGE_TOPIC) then py_int 10 version else None
  | _ => None
  end.

(** ** SchedulerConnectionManager *)

Record SchedulerConnectionManager := mkConn { has_client : bool; connected : bool; connect_calls : Z; disconnect_calls : Z }.
Definition _CONNECT_MAX_RETRIES : nat := 3.
(** [connect]: [outcome i] is that of the [i]-th attempt; the pauses, in seconds. *)
Fixpoint connect_loop (tries i : nat) (outcome : nat → py bool) (s : SchedulerConnectionManager) : SchedulerConnectionManager * list Z :=
  match tries with
  | O => (s, [])
  | S tries =>
      let called := mkConn (has_client s) (connected s) (connect_calls s + 1) (disconnect_calls s) in
      match outcome i with
      | Ret true => (mkConn (has_client s) true (connect_calls called) (disconnect_calls s), [])
      | _ =>
          let '(s', pauses) := connect_loop tries (S i) outcome called in
          (s', if (i <? _CONNECT_MAX_RETRIES - 1)%nat then 1 :: pauses else pauses)
      end
  end.
Definition connect (outcome : nat → py bool) (s : SchedulerConnectionManager) : SchedulerConnectionManager * list Z :=
  if has_client s then connect_loop _CONNECT_MAX_RETRIES 0 outcome s else (s, []).
Definition ensure_connected (outcome : nat → py bool) (s : SchedulerConnectionManager) : SchedulerConnectionManager * list Z :=
  if connected s then (s, []) else connect outcome s.
(** [disconnect]: the client's may raise, which is logged. *)
Definition disconnect (s : SchedulerConnectionManager) : SchedulerConnectionManager :=
  if negb (has_client s) || negb (connected s) then s else mkConn true false (connect_calls s) (disconnect_calls s + 1).
Definition get_client (s : SchedulerConnectionManager) : bool := connected s.

Inductive conn_op := CConnect (outcome : nat → py bool) | CEnsure (outcome : nat → py bool) | CDisconnect.
Definition conn_step (s : SchedulerConnectionManager) (o : conn_op) : SchedulerConnectionManager :=
  match o with CConnect f => (connect f s).1 | CEnsure f => (ensure_connected f s).1 | CDisconnect => disconnect s end.
Definition conn_init (client : bool) : SchedulerConnectionManager := mkConn client false 0 0.

(** ** Lemmas *)

(** *** The connection *)

(** [connect] tries up to three times, a second apart, until the client is connected; a manager
    without a client does nothing, and one that was connected stays so. *)
Lemma connect_attempts outcome s :
  has_client s = true →
  connect outcome s =
    let n := match find (λ i, match outcome i with Ret true => true | _ => false end) [0; 1; 2]%nat with Some i => Z.of_nat i + 1 | None => 3 end in
    let ok := existsb (λ i, match outcome i with Ret true => true | _ => false end) [0; 1; 2]%nat in
    (mkConn true (connected s || ok) (connect_calls s + n) (disconnect_calls s), repeat 1 (Z.to_nat (Z.min (if ok then n - 1 else 2) 2))).
Proof.
  intros Hc. destruct s as [cl co cc dc]. cbn in Hc. subst cl. unfold connect, _CONNECT_MAX_RETRIES. cbn [has_client connect_loop find existsb].
  destruct (outcome 0%nat) as [[]|], (outcome 1%nat) as [[]|], (outcome 2%nat) as [[]|]; cbn; f_equal; f_equal; rewrite ?orb_true_r, ?orb_false_r; (done || lia).
Qed.

(** What becomes of the connection: the client is given out exactly between a successful
    [connect] and the next [disconnect], and disconnecting happens at most once for it. *)
Definition wants (o : conn_op) (now : bool) : bool :=
  match o with
  | CConnect f | CEnsure f => now || existsb (λ i, match f i with Ret true => true | _ => false end) [0; 1; 2]%nat
  | CDisconnect => false
  end.
Lemma connection_life client ops :
  get_client (fold_left conn_step ops (conn_init client)) = client && fold_left (λ now o, wants o now) ops false.
Proof.
  assert (∀ s, has_client s = client → (connected s = true → client = true) →
    get_client (fold_left conn_step ops s) = client && fold_left (λ now o, wants o now) ops (connected s)) as H; [|by apply H].
  induction ops as [|o ops IH]; intros s Hc Hi; cbn [fold_left]; [unfold get_client; destruct (connected s), client; try done; by specialize (Hi eq_refl)|].
  assert (has_client (conn_step s o) = client ∧ (client = true → connected (conn_step s o) = wants o (connected s)) ∧ (connected (conn_step s o) = true → client = true)) as (H1 & H2 & H3).
  { assert (∀ f, has_client (connect f s).1 = client ∧ (client = true → connected (connect f s).1 = wants (CConnect f) (connected s)) ∧ (connected (connect f s).1 = true → client = true)) as Hconn.
    { intros f. destruct client; [rewrite connect_attempts by done; by split_and!|]. unfold connect. rewrite Hc. by split_and!. }
    destruct o as [f|f|]; cbn [conn_step]; [apply Hconn| |].
    - unfold ensure_connected. destruct (connected s) eqn:E; [|apply Hconn]. cbn [fst wants]. rewrite Hc, E. by split_and!.
    - unfold disconnect. rewrite Hc. destruct client, (connected s) eqn:E; cbn; split_and!; try done; try congruence; by specialize (Hi eq_refl). }
  rewrite IH by done. destruct client; [by rewrite H2|done].
Qed.

(** *** The transport *)

Inductive link_op := LConnect (socket_ok : bool) | LDisconnect | LArrives (a : arrival).
(** [None] if the call never returns. *)
Definition link_step (s : Link) (o : link_op) : option Link :=
  match o with LConnect ok => fst <$> transport_connect ok s | LDisconnect => Some (transport_disconnect s) | LArrives a => Some (receive a s).1 end.
Fixpoint link_run (s : Link) (ops : list link_op) : option Link := match ops with [] => Some s | o :: ops => s' ← link_step s o; link_run s' ops end.

(** What the history says: it is connected, it was disconnected before, it received what cannot
    be decoded while it ran. *)
Record history := mkHist { h_connected : bool; h_disconnected : bool; h_broken : bool }.
Definition hist_step (h : history) (o : link_op) : history :=
  match o with
  | LConnect _ => mkHist true (h_disconnected h) (h_broken h)
  | LDisconnect => mkHist false true false
  | LArrives Undecodable => mkHist (h_connected h) (h_disconnected h) (h_broken h || h_connected h)
  | LArrives _ => h
  end.
Definition history_of (ops : list link_op) : history := fold_left hist_step ops (mkHist false false false).

(** The state as the history has it. *)
Definition linked (h : history) (s : Link) : Prop :=
  lk_connected s = h_connected h ∧ lk_socket s = h_connected h ∧ stop_event s = h_disconnected h ∧
  (h_connected h = true → receive_loop s = Some (negb (h_disconnected h) && negb (h_broken h))) ∧ (h_connected h = false → h_broken h = false ∧ running s = false).

Lemma linked_step h s o s' : linked h s → link_step s o = Some s' → linked (hist_step h o) s'.
Proof.
  destruct s as [c k e l], h as [hc hd hb]. intros (Hc & Hk & He & Hl & Hn) Hs. cbn in *. subst c k e. destruct o as [ok| |a]; cbn in *.
  - unfold transport_connect in Hs. cbn in Hs. destruct hc; [injection Hs as <-; by split_and!|]. destruct ok; [|done]. injection Hs as <-.
    destruct (Hn eq_refl) as [-> _]. split_and!; try done. intros _. cbn. by rewrite andb_true_r.
  - injection Hs as <-. by split_and!.
  - injection Hs as <-. destruct hc; [rewrite (Hl eq_refl)|].
    + unfold receive, running. cbn. destruct hd, hb, a; cbn; by split_and!.
    + destruct (Hn eq_refl) as [-> Hr]. unfold receive. rewrite Hr. destruct a; by split_and!.
Qed.
Lemma linked_run ops : ∀ h s s', linked h s → link_run s ops = Some s' → linked (fold_left hist_step ops h) s'.
Proof.
  induction ops as [|o ops IH]; intros h s s' Hl H; cbn in H; [by injection H as <-|]. destruct (link_step s o) as [s1|] eqn:E; [|done]. cbn in H.
  cbn [fold_left]. eapply IH; [|exact H]. by eapply linked_step.
Qed.

(** ** Properties *)

(** C28: when the scheduler's answers reach a worker.  In every state the transport can be in, a
    request that is answered gets its answer if and only if the transport is connected, was never
    disconnected before and received nothing since that could not be decoded: after a
    disconnection and a new connection, which is reported as successful, every request times
    out, and so after one bad message. *)
Theorem answered_iff ops s :
  link_run Link_init ops = Some s →
  send_request s = h_connected (history_of ops) && negb (h_disconnected (history_of ops)) && negb (h_broken (history_of ops)) ∧
  lk_connected s = h_connected (history_of ops) ∧ (transport_connect true s = None → False) ∧ (transport_connect false s = None ↔ lk_connected s = false).
Proof.
  intros H. assert (linked (history_of ops) s) as (Hc & Hk & He & Hl & Hn) by (apply (linked_run ops _ Link_init); [by split_and!|done]).
  unfold send_request, receive, transport_connect, running. destruct (h_connected (history_of ops)).
  - rewrite Hc, Hk, (Hl eq_refl). cbn. rewrite !andb_true_r. destruct (negb _ && negb _); cbn; by split_and!.
  - rewrite Hc. cbn. by split_and!.
Qed.

(** The subscriber, by contrast, receives again after every connection that succeeds. *)
Lemma subscriber_restarts s : sub_loop (sub_connect true s).1 = Some true ∧ sub_stop (sub_connect true s).1 = false.
Proof. by split. Qed.

(** ** Samples *)

Lemma answered_iff_witness :
  ∃ s, link_run Link_init [LConnect true; LDisconnect; LConnect true] = Some s ∧ lk_connected s = true ∧ send_request s = false.
Proof.
  eexists. split; [reflexivity|]. split; [reflexivity|].
  exact (proj1 (answered_iff [LConnect true; LDisconnect; LConnect true] _ eq_refl)).
Defined.
Example sample_versions : (version_of ["instances_changed"; "12"], version_of ["instances_changed"], version_of ["x"; "1"])%string = (Some 12, None, None).
Proof. reflexivity. Qed.
