(* ===== verification/ConfigWatch.v ===== *)
(** * Watching a configuration file

    Models [common/utils/config_watcher.py], the hot reload of controller and coordinator.  The
    events of the file system, the time and the callbacks are arguments. *)

From stdpp Require Import base option list strings.
From Stdlib Require Import ZArith Lia.
From S2P Require Import Prelude Float64.
Open Scope Z_scope.

(** ** ConfigFileHandler *)

Section handler.
Context {A : Type}.
Record ConfigFileHandler := mkHandler { debounce_seconds : f64; last_reload : f64; app : A }.

(** Runs a callback on the state of the application. *)
Definition on_app {X} (m : M A X) : M ConfigFileHandler X := λ s, let '(a, r) := m (app s) in (mkHandler (debounce_seconds s) (last_reload s) a, r).
Definition reloaded_at (t : f64) (s : ConfigFileHandler) : ConfigFileHandler := mkHandler (debounce_seconds s) t (app s).

(** [on_modified]: [same_path]: the event is about the watched file. *)
Definition on_modified (same_path : bool) (current_time : f64) (reload_callback : M A bool) (config_update_callback : option (M A unit)) : M ConfigFileHandler unit :=
  if same_path then
    s ← mget;
    if flt (fsub current_time (last_reload s)) (debounce_seconds s) then mret tt
    else
      mexcept
        (ok ← on_app reload_callback;
         if ok : bool then
           mmodify (reloaded_at current_time) ;;
           match config_update_callback with Some f => mexcept (on_app f) (λ _, mret tt) | None => mret tt end
         else mret tt)
        (λ _, mret tt)
  else mret tt.
End handler.
Arguments ConfigFileHandler : clear implicits.
Arguments mkHandler {A} _ _ _.

(** ** ConfigWatcher *)

(** The observers that run, and the one the watcher knows. *)
Record ConfigWatcher := mkWatcher { observer : option nat; observers : list bool }.
Definition ConfigWatcher_init : ConfigWatcher := mkWatcher None [].
(** [starts]: what becomes of the thread of a new observer. *)
Definition start (path_exists : bool) (starts : py unit) : M ConfigWatcher unit := λ s,
  if path_exists then
    (mkWatcher (Some (length (observers s))) (observers s ++ [is_ret starts]), starts)
  else (s, Ret tt).
Definition stop : M ConfigWatcher unit := λ s,
  match observer s with Some i => (mkWatcher None (<[i := false]> (observers s)), Ret tt) | None => (s, Ret tt) end.
Definition is_alive (s : ConfigWatcher) : bool := match observer s with Some i => default false (observers s !! i) | None => false end.

(** ** Lemmas *)

(** A change of the file: when it is noticed, and what the file holds then. *)
Record change (C : Type) := mkChange { ch_path : bool; ch_time : f64; ch_file : C }.
Arguments mkChange {C} _ _ _.
Arguments ch_path {C} _.
Arguments ch_time {C} _.
Arguments ch_file {C} _.

Section reloads.
Context {C K : Type} (load : C → option K).
(** The configuration, the one its parts were told of, and when it was reloaded, newest first. *)
Record loaded := mkLoaded { config : K; told : K; reloads : list f64 }.
Definition reload (file : C) (t : f64) : M loaded bool := λ a,
  match load file with Some k => (mkLoaded k (told a) (t :: reloads a), Ret true) | None => (a, Ret false) end.
Definition tell : M loaded unit := λ a, (mkLoaded (config a) (config a) (reloads a), Ret tt).
Definition watch (s : ConfigFileHandler loaded) (c : change C) : ConfigFileHandler loaded :=
  (on_modified (ch_path c) (ch_time c) (reload (ch_file c) (ch_time c)) (Some tell) s).1.
Definition watcher_of (debounce : f64) (k : K) : ConfigFileHandler loaded := mkHandler debounce f0 (mkLoaded k k []).

Lemma watch_eq s c :
  watch s c =
    if ch_path c && negb (flt (fsub (ch_time c) (last_reload s)) (debounce_seconds s)) then
      match load (ch_file c) with
      | Some k => mkHandler (debounce_seconds s) (ch_time c) (mkLoaded k k (ch_time c :: reloads (app s)))
      | None => s
      end
    else s.
Proof.
  unfold watch, on_modified. destruct (ch_path c); [|done]. cbv [mbind M_bind mget mexcept on_app reload mmodify reloaded_at tell mret M_ret].
  destruct (flt _ _); [done|]. cbn. destruct s as [d l a]. cbn. destruct (load (ch_file c)); done.
Qed.

(** Reloads in a row are not closer than the debounce time, the first to the time zero. *)
Fixpoint apart (d : f64) (ts : list f64) : Prop :=
  match ts with
  | t2 :: ((t1 :: _) as rest) => flt (fsub t2 t1) d = false ∧ apart d rest
  | [t1] => flt (fsub t1 f0) d = false
  | [] => True
  end.
Record watch_inv (d : f64) (s : ConfigFileHandler loaded) : Prop := {
  wi_debounce : debounce_seconds s = d;
  wi_last : last_reload s = default f0 (head (reloads (app s)));
  wi_told : told (app s) = config (app s);
  wi_apart : apart d (reloads (app s))
}.
Lemma watch_inv_step d s c : watch_inv d s → watch_inv d (watch s c).
Proof.
  intros [H1 H2 H3 H4]. rewrite watch_eq. destruct (ch_path c && _) eqn:E; [|done]. destruct (load (ch_file c)); [|done].
  apply andb_true_iff in E as [_ E%negb_true_iff]. rewrite H1, H2 in E. split; try done. cbn. destruct (reloads (app s)); [done|by split].
Qed.
Lemma watch_inv_run d l s : watch_inv d s → watch_inv d (fold_left watch l s).
Proof. revert s. induction l as [|c l IH]; intros s H; [done|]. by apply IH, watch_inv_step. Qed.

(** Changes that come far enough apart. *)
Definition spread (d : f64) (l : list (change C)) : Prop :=
  (∀ c, c ∈ l → flt (fsub (ch_time c) f0) d = false) ∧ ∀ i j ci cj, (i < j)%nat → l !! i = Some ci → l !! j = Some cj → flt (fsub (ch_time cj) (ch_time ci)) d = false.
(** The configuration of the last change of the file that could be loaded. *)
Definition newest (k : K) (l : list (change C)) : K := fold_left (λ k c, if ch_path c then default k (load (ch_file c)) else k) l k.

Lemma spread_snoc d l c : spread d (l ++ [c]) → spread d l ∧ flt (fsub (ch_time c) f0) d = false ∧ ∀ c', c' ∈ l → flt (fsub (ch_time c) (ch_time c')) d = false.
Proof.
  intros [H1 H2]. split_and!.
  - split; [intros c' Hc; apply H1, elem_of_app; by left|]. intros i j ci cj Hij Hi Hj. apply (H2 i j); [done|by apply lookup_app_l_Some..].
  - apply H1, elem_of_app. right. by apply list_elem_of_singleton.
  - intros c' [i Hi]%list_elem_of_lookup_1. apply (H2 i (length l)); [by eapply lookup_lt_Some|by apply lookup_app_l_Some|by apply list_lookup_middle].
Qed.
Lemma watch_newest d k l : spread d l →
  let s := fold_left watch l (watcher_of d k) in
  config (app s) = newest k l ∧ (last_reload s = f0 ∨ ∃ c, c ∈ l ∧ last_reload s = ch_time c) ∧ debounce_seconds s = d.
Proof.
  cbv zeta. induction l as [|c l IH] using rev_ind; intros Hs; [cbn; by split_and!; [|left|]|]. apply spread_snoc in Hs as (Hs & H0 & Hc).
  destruct (IH Hs) as (H1 & H2 & H3). unfold newest in *. rewrite !fold_left_app. cbn [fold_left]. rewrite watch_eq, H3, <- H1.
  assert (flt (fsub (ch_time c) (last_reload (fold_left watch l (watcher_of d k)))) d = false) as ->.
  { destruct H2 as [->|(c' & Hin & ->)]; [done|by apply Hc]. }
  cbn [negb]. rewrite andb_true_r. destruct (ch_path c); [destruct (load (ch_file c))|]; cbn; (split_and!; [done| |done]);
    (try (right; exists c; split; [apply elem_of_app; right; by apply list_elem_of_singleton|done]));
    (destruct H2 as [->|(c' & Hin & ->)]; [by left|right; exists c'; split; [apply elem_of_app; by left|done]]).
Qed.

(** ** Properties *)

(** Hot reload.  Whatever changes of the file are noticed, successful reloads are at least
    the debounce time apart and the parts of the process were told of the configuration it has;
    if all the changes are that far apart, it has that of the last change that could be loaded. *)
Theorem hot_reload d k l :
  let s := fold_left watch l (watcher_of d k) in
  apart d (reloads (app s)) ∧ told (app s) = config (app s) ∧ (spread d l → config (app s) = newest k l).
Proof.
  cbv zeta. assert (watch_inv d (fold_left watch l (watcher_of d k))) as [H1 H2 H3 H4] by by apply watch_inv_run.
  split_and!; [done|done|]. intros Hs. apply (watch_newest d k l Hs).
Qed.
End reloads.

(** ** Samples *)

Definition sample_load (file : option Z) : option Z := file.
Definition at_ (t : Z) (file : option Z) : change (option Z) := mkChange true (f_of_Z t) file.
Example last_change_lost :
  let s := fold_left (watch sample_load) [at_ 100 (Some 1); at_ 102 (Some 2); mkChange true (S754_finite false 7212073441689600 (-46)) (Some 3)] (watcher_of (f_of_Z 1) 0) in
  config (app s) = 2.
Proof. vm_compute. reflexivity. Qed.
Lemma hot_reload_witness : config (app (fold_left (watch sample_load) [at_ 100 (Some 1); at_ 102 None; at_ 104 (Some 3)] (watcher_of (f_of_Z 1) 0))) = 3.
Proof.
  apply (proj2 (proj2 (hot_reload sample_load (f_of_Z 1) 0 [at_ 100 (Some 1); at_ 102 None; at_ 104 (Some 3)]))). split.
  - intros c. rewrite !elem_of_cons. intros [->|[->|[->|[]%elem_of_nil]]]; vm_compute; reflexivity.
  - intros [|[|[|i]]] [|[|[|j]]] ci cj Hij Hi Hj; try lia; try discriminate; injection Hi as <-; injection Hj as <-; vm_compute; reflexivity.
Defined.
(** A watcher that is started twice leaves the first observer running. *)
Example started_twice :
  let s := (stop (start true (Ret tt) (start true (Ret tt) ConfigWatcher_init).1).1).1 in (observers s, is_alive s) = ([true; false], false).
Proof. reflexivity. Qed.
