(* ===== verification/NodeMain.v ===== *)
(** * The process of a node manager

    Models [node_manager/main.py] and the life of [NodeManagerAPI]: modules made and stopped,
    the loop that waits for a line, signals, the suicide.  The main thread is a list of what it
    still has to do; a signal puts its handler in front.  Between two of its steps the
    other threads take steps of [NodeManager]. *)

From stdpp Require Import base option list strings.
From Stdlib Require Import ZArith Lia.
From S2P Require Import Prelude Float64 NodeConfig CtlInstanceManager InstanceAssembler NodeManager ConfigWatch PyText.
Open Scope Z_scope.

(** ** State *)

Inductive module := MConfig | MApi | MDaemon | MEngineManager | MHeartbeat.
#[export] Instance module_eq_dec : EqDecision module.
Proof. solve_decision. Defined.

(** The main thread: [init_all_modules] one module at a time, the body of [main], the two
    parts of a turn of [stop_all_modules], and the end. *)
Inductive instr := Init (m : module) | StartWatcher | Loop | Read | Sleep | StopWatcher | StopAll | CallStop (m : module) | Leave (r : py Z).

Record NodeProcess := mkProcess {
  todo : list instr;
  node : NodeManager;
  modules : list module;
  should_exit : bool;
  config_watcher : option ConfigWatcher;
  stop_event : bool;
  server_should_exit : bool;
  (** the modules whose [stop] was called, and what the main thread returned *)
  stopped : list module;
  exit_code : option (py Z)
}.
Definition set_todo (l : list instr) (s : NodeProcess) := mkProcess l (node s) (modules s) (should_exit s) (config_watcher s) (stop_event s) (server_should_exit s) (stopped s) (exit_code s).
Definition set_node (n : NodeManager) (s : NodeProcess) := mkProcess (todo s) n (modules s) (should_exit s) (config_watcher s) (stop_event s) (server_should_exit s) (stopped s) (exit_code s).
Definition set_modules (l : list module) (s : NodeProcess) := mkProcess (todo s) (node s) l (should_exit s) (config_watcher s) (stop_event s) (server_should_exit s) (stopped s) (exit_code s).
Definition ask_exit (s : NodeProcess) := mkProcess (todo s) (node s) (modules s) true (config_watcher s) (stop_event s) (server_should_exit s) (stopped s) (exit_code s).
Definition set_watcher (w : ConfigWatcher) (s : NodeProcess) := mkProcess (todo s) (node s) (modules s) (should_exit s) (Some w) (stop_event s) (server_should_exit s) (stopped s) (exit_code s).
Definition set_stop_event (s : NodeProcess) := mkProcess (todo s) (node s) (modules s) (should_exit s) (config_watcher s) true (server_should_exit s) (stopped s) (exit_code s).
Definition stop_sync (s : NodeProcess) := mkProcess (todo s) (node s) (modules s) (should_exit s) (config_watcher s) (stop_event s) true (stopped s) (exit_code s).
Definition log_stop (m : module) (s : NodeProcess) := mkProcess (todo s) (node s) (modules s) (should_exit s) (config_watcher s) (stop_event s) (server_should_exit s) (stopped s ++ [m]) (exit_code s).
Definition leave (r : py Z) (s : NodeProcess) := mkProcess [] (node s) (modules s) (should_exit s) (config_watcher s) (stop_event s) (server_should_exit s) (stopped s) (Some r).

(** ** Operations *)

(** The modules in the order they are made. *)
Definition init_all_modules : list module := [MConfig; MApi; MDaemon; MEngineManager; MHeartbeat].

(** The [finally] of [main]. *)
Definition finally (r : py Z) : list instr := [StopWatcher; StopAll; Leave r].
(** [main], after the signal handlers are registered.  [watched]: there is a configuration file. *)
Definition main (watched : bool) : list instr := map Init init_all_modules ++ (if watched then [StartWatcher] else []) ++ [Loop].
(** [suicide_procedure], and the return through [finally]. *)
Definition suicide_procedure : list instr := [StopWatcher; StopAll] ++ finally (Ret (-1)).

(** What the calls of [module.stop] do.  That of the API is a coroutine that nothing awaits. *)
Definition NodeManagerAPI_stop (awaited : bool) (s : NodeProcess) : NodeProcess := if awaited then stop_sync s else s.
Definition stop_module (m : module) (s : NodeProcess) : NodeProcess :=
  match m with
  | MConfig => s
  | MApi => NodeManagerAPI_stop false s
  | MDaemon => set_node (kill_engines (node s)) s
  | MEngineManager => s
  | MHeartbeat => set_stop_event s
  end.

Definition stop_watcher (s : NodeProcess) : NodeProcess :=
  match config_watcher s with Some w => set_watcher (stop w).1 s | None => s end.

(** What a call of [input()] gives. *)
Inductive line := Line (text : string) | Eof | Interrupt | ReadRaises (e : pyexn).

Definition user_input (text : string) : string := of_chars (map lower_char (chars (strip text))).

(** One step of the main thread: [rest] is what it has to do after [i]. *)
Definition main_step (x : line) (s : NodeProcess) : NodeProcess :=
  match todo s with
  | [] => s
  | i :: rest =>
      let s' := set_todo rest s in
      match i with
      | Init m => set_modules (modules s ++ [m]) s'
      | StartWatcher => set_watcher (start true (Ret tt) ConfigWatcher_init).1 s'
      | Loop =>
          if should_exit s then set_todo (finally (Ret (-1))) s'
          else if should_suicide (nm_hb (node s)) then set_todo suicide_procedure s'
          else set_todo [Read] s'
      | Read =>
          match x with
          | Line text => set_todo [Loop] (if decide (user_input text = "stop"%string) then ask_exit s' else s')
          | Eof => set_todo (if should_exit s then [Loop] else [Sleep]) s'
          | Interrupt => set_todo (finally (Ret (-1))) (ask_exit s')
          | ReadRaises e => set_todo (finally (Raise e)) s'
          end
      | Sleep => set_todo [Loop] s'
      | StopWatcher => stop_watcher s'
      | StopAll =>
          match last (modules s) with
          | Some m => set_modules (removelast (modules s)) (set_todo (CallStop m :: StopAll :: rest) s)
          | None => s'
          end
      | CallStop m => log_stop m (stop_module m s')
      | Leave r => leave r s'
      end
  end.

(** [signal_handler] *)
Definition signal_handler (s : NodeProcess) : NodeProcess :=
  if should_exit s then s else set_todo (StopWatcher :: StopAll :: todo s) (ask_exit s).

(** The loops of the heartbeat manager begin no turn once they are to stop. *)
Definition begins_turn (o : nm_op) : bool := match o with OScanBegin _ | OCollect => true | _ => false end.
Definition thread_step (o : nm_op) (s : NodeProcess) : NodeProcess :=
  if stop_event s && begins_turn o then s else set_node (nm_step o (node s)) s.

(** A process that has ended does nothing any more. *)
Inductive move := Main (x : line) | Signal | Thread (o : nm_op).
Definition step (s : NodeProcess) (m : move) : NodeProcess :=
  match todo s with
  | [] => s
  | _ => match m with Main x => main_step x s | Signal => signal_handler s | Thread o => thread_step o s end
  end.
Definition run (s : NodeProcess) (l : list move) : NodeProcess := fold_left step l s.
Definition process (c : NodeConfig) (watched : bool) : NodeProcess :=
  mkProcess (main watched) (NodeManager_init c) [] false None false false [] None.

(** [NodeManagerAPI.__init__]: where the server listens. *)
Definition api_address (c : option NodeConfig) : string * Z :=
  match c with
  | Some c => (match nc_pod_ip c with Some ip => if decide (ip = ""%string) then "0.0.0.0"%string else ip | None => "0.0.0.0"%string end, nc_node_manager_port c)
  | None => ("0.0.0.0"%string, 8080)
  end.

(** ** Lemmas *)

Definition ended (s : NodeProcess) : bool := match todo s with [] => true | _ => false end.
Lemma ended_step s m : todo s = [] → step s m = s.
Proof. intros H. unfold step. by rewrite H. Qed.
Lemma run_snoc s l m : run s (l ++ [m]) = step (run s l) m.
Proof. unfold run. by rewrite fold_left_app. Qed.
Lemma run_app s l1 l2 : run s (l1 ++ l2) = run (run s l1) l2.
Proof. unfold run. by rewrite fold_left_app. Qed.

(** *** What the main thread still has to do *)

Definition waits (i : instr) : bool := match i with Loop | Read | Sleep => true | _ => false end.

(** The main thread leaves with a stopped watcher and no module left: [w] and [m] say whether
    that is so already.  The loop ends in the [finally], and comes last. *)
Fixpoint leaves (w m : bool) (l : list instr) : bool :=
  match l with
  | [] => false
  | Leave _ :: l => w && m && match l with [] => true | _ => false end
  | StopAll :: l => leaves w true l
  | StopWatcher :: l => leaves true m l
  | Init _ :: l => leaves w false l
  | StartWatcher :: l => leaves false m l
  | CallStop _ :: l => leaves w m l
  | (Loop | Read | Sleep) :: l => match l with [] => true | _ => false end
  end.
Lemma leaves_mono l : ∀ (w w' m m' : bool), (w → w') → (m → m') → leaves w m l = true → leaves w' m' l = true.
Proof.
  induction l as [|i l IH]; intros w w' m m' Hw Hm; [done|]. destruct i; cbn [leaves]; try (by apply IH; auto); try done.
  destruct w, m; cbn [andb]; try done. intros ->. destruct w', m'; naive_solver.
Qed.

(** What the main thread still returns, makes and stops. *)
Definition returns (l : list instr) : list (py Z) := omap (λ i, match i with Leave r => Some r | _ => None end) l.
Definition makes (l : list instr) : list module := omap (λ i, match i with Init m => Some m | _ => None end) l.
Definition calls (l : list instr) : list module := omap (λ i, match i with CallStop m => Some m | _ => None end) l.

Definition no_watcher (s : NodeProcess) : bool := match config_watcher s with Some w => negb (existsb id (observers w)) | None => true end.
Definition no_module (s : NodeProcess) : bool := match modules s with [] => true | _ => false end.
Definition watcher_ok (w : option ConfigWatcher) : Prop := w = None ∨ w = Some (mkWatcher (Some 0%nat) [true]) ∨ w = Some (mkWatcher None [false]).

Record process_inv (s : NodeProcess) : Prop := {
  pi_leaves : todo s ≠ [] → leaves (no_watcher s) (no_module s) (todo s) = true;
  pi_ended : todo s = [] → no_watcher s = true ∧ no_module s = true ∧ exit_code s ≠ None;
  pi_going : todo s ≠ [] → exit_code s = None;
  pi_watcher : watcher_ok (config_watcher s);
  pi_modules : stopped s ++ calls (todo s) ++ modules s ++ makes (todo s) ≡ₚ init_all_modules;
  pi_heartbeat : MHeartbeat ∈ stopped s → stop_event s = true;
  pi_server : server_should_exit s = false
}.

Lemma stop_watcher_ok s : watcher_ok (config_watcher s) → watcher_ok (config_watcher (stop_watcher s)) ∧ no_watcher (stop_watcher s) = true.
Proof. unfold stop_watcher, no_watcher, watcher_ok. intros [H | [H | H]]; rewrite H; cbn; rewrite ?H; auto. Qed.
Lemma no_module_false s : modules s ≠ [] → no_module s = false.
Proof. unfold no_module. by destruct (modules s). Qed.

(** The parts of a module's stop that do not show in its effects. *)
Lemma stop_module_same m s :
  todo (stop_module m s) = todo s ∧ modules (stop_module m s) = modules s ∧ config_watcher (stop_module m s) = config_watcher s ∧
  stopped (stop_module m s) = stopped s ∧ exit_code (stop_module m s) = exit_code s ∧ server_should_exit (stop_module m s) = server_should_exit s ∧
  stop_event (stop_module m s) = (if decide (m = MHeartbeat) then true else stop_event s).
Proof. by destruct m. Qed.

Lemma process_inv_begin c w : process_inv (process c w).
Proof. destruct w; (constructor; try done; [by left|by intros ?%elem_of_nil]). Qed.

Lemma process_inv_signal s : todo s ≠ [] → process_inv s → process_inv (signal_handler s).
Proof.
  intros Ht [H1 H2 H3 H4 H5 H6 H7]. unfold signal_handler. destruct (should_exit s); [done|]. constructor; cbn; try done; auto.
  intros _. eapply leaves_mono; [| |by apply H1]; done.
Qed.
Lemma process_inv_thread o s : process_inv s → process_inv (thread_step o s).
Proof. intros [H1 H2 H3 H4 H5 H6 H7]. unfold thread_step. destruct (stop_event s && begins_turn o); by constructor. Qed.

(** A step of a main thread that waits. *)
Lemma process_inv_wait l i s :
  todo s = [i] → waits i = true → l ≠ [] → leaves false false l = true → calls l = [] → makes l = [] → process_inv s → process_inv (set_todo l s).
Proof.
  intros Et Hi Hl He Hc Hm [H1 H2 H3 H4 H5 H6 H7]. rewrite Et in *. constructor; cbn -[calls makes]; rewrite ?Hc, ?Hm; auto; try done.
  - intros _. by eapply leaves_mono; [| |exact He].
  - destruct i; (discriminate Hi || exact H5).
Qed.
Lemma process_inv_ask s : process_inv s → process_inv (ask_exit s).
Proof. intros [H1 H2 H3 H4 H5 H6 H7]. by constructor. Qed.

Lemma perm_pop (m : module) l1 l l2 : m :: l1 ++ l ++ l2 ≡ₚ l1 ++ (l ++ [m]) ++ l2.
Proof. rewrite <- (app_assoc l), !(app_assoc l1). cbn [Datatypes.app]. by rewrite <- Permutation_middle. Qed.
Lemma process_inv_stop_all s rest :
  todo s = StopAll :: rest → process_inv s → process_inv (main_step Eof s).
Proof.
  intros Et [H1 H2 H3 H4 H5 H6 H7]. unfold main_step. rewrite Et in *. cbn in H1, H5. specialize (H1 ltac:(done)).
  assert (rest ≠ []) as Hr by (intros ->; done).
  destruct (last (modules s)) as [m|] eqn:El.
  - apply last_Some in El as [l El]. rewrite El in *. rewrite removelast_last.
    constructor; cbn; auto; try done. rewrite <- H5. f_equiv. by apply perm_pop.
  - apply last_None in El. constructor; cbn; auto; try done.
    intros _. unfold no_module. cbn. by rewrite El.
Qed.
Lemma process_inv_call s m rest :
  todo s = CallStop m :: rest → process_inv s → process_inv (main_step Eof s).
Proof.
  intros Et [H1 H2 H3 H4 H5 H6 H7]. unfold main_step. rewrite Et in *. cbn in H1, H5. specialize (H1 ltac:(done)).
  assert (rest ≠ []) as Hr by (intros ->; done).
  destruct (stop_module_same m (set_todo rest s)) as (E1 & E2 & E3 & E4 & E5 & E6 & E7).
  constructor; unfold no_watcher, no_module; cbn; rewrite ?E1, ?E2, ?E3, ?E4, ?E5, ?E6, ?E7; cbn; auto; try done.
  - by rewrite <- app_assoc.
  - rewrite elem_of_app, list_elem_of_singleton. intros [H| <-]; [case_decide; auto|done].
Qed.
Lemma process_inv_loop i x s : todo s = [i] → waits i = true → process_inv s → process_inv (main_step x s).
Proof.
  intros Et Hi Hs. pose proof (λ l H H0 H1 H2, process_inv_wait l i s Et Hi H H0 H1 H2 Hs) as Hw. unfold main_step. rewrite Et. destruct i; try done.
  - destruct (should_exit s); [by apply Hw|]. destruct (should_suicide _); by apply Hw.
  - destruct x as [text| | |e].
    + case_decide; [apply (process_inv_ask (set_todo [Loop] s))|]; by apply Hw.
    + destruct (should_exit s); by apply Hw.
    + apply (process_inv_ask (set_todo (finally (Ret (-1))) s)). by apply Hw.
    + by apply Hw.
  - by apply Hw.
Qed.
Lemma process_inv_main x s : todo s ≠ [] → process_inv s → process_inv (main_step x s).
Proof.
  intros Hne Hs. destruct (todo s) as [|i rest] eqn:Et; [done|]. clear Hne. destruct (waits i) eqn:Hi.
  - apply (process_inv_loop i); [|done..]. pose proof (pi_leaves s Hs) as Hl. rewrite Et in Hl. specialize (Hl ltac:(done)).
    destruct i; try done; cbn in Hl; by destruct rest.
  - destruct i; try done.
    + destruct Hs as [H1 H2 H3 H4 H5 H6 H7]. unfold main_step. rewrite Et in *. cbn in H1, H5. specialize (H1 ltac:(done)).
      assert (rest ≠ []) as Hr by (intros ->; done). constructor; cbn; auto; try done.
      * intros _. by rewrite no_module_false by (cbn; by destruct (modules s)).
      * by rewrite <- H5, <- !app_assoc.
    + destruct Hs as [H1 H2 H3 H4 H5 H6 H7]. unfold main_step. rewrite Et in *. cbn in H1, H5. specialize (H1 ltac:(done)).
      assert (rest ≠ []) as Hr by (intros ->; done). constructor; cbn; auto; try done. right. by left.
    + destruct Hs as [H1 H2 H3 H4 H5 H6 H7]. unfold main_step. rewrite Et in *. cbn in H1, H5. specialize (H1 ltac:(done)).
      assert (rest ≠ []) as Hr by (intros ->; done). destruct (stop_watcher_ok (set_todo rest s) H4) as [Hw Hn]. revert Hw Hn.
      unfold stop_watcher. cbn [config_watcher set_todo]. destruct (config_watcher s) as [w|]; intros Hw Hn.
      * constructor; cbn in *; auto; try done. intros _. by rewrite Hn.
      * constructor; cbn in *; auto; try done. intros _. by rewrite Hn.
    + revert Hs. intros Hs%(process_inv_stop_all s rest Et). revert Hs. unfold main_step. by rewrite Et.
    + revert Hs. intros Hs%(process_inv_call s m rest Et). revert Hs. unfold main_step. by rewrite Et.
    + destruct Hs as [H1 H2 H3 H4 H5 H6 H7]. unfold main_step. rewrite Et in *. cbn in H1, H5. specialize (H1 ltac:(done)).
      rewrite !andb_true_iff in H1. destruct H1 as [[Hw Hm] Hr]. destruct rest; [|done]. by constructor.
Qed.
Lemma process_inv_step s m : process_inv s → process_inv (step s m).
Proof.
  intros Hs. destruct (todo s) as [|i rest] eqn:Et; [by rewrite ended_step|].
  assert (todo s ≠ []) as Hne by by rewrite Et. unfold step. rewrite Et.
  destruct m; [by apply process_inv_main|by apply process_inv_signal|by apply process_inv_thread].
Qed.
Lemma process_inv_run s l : process_inv s → process_inv (run s l).
Proof. revert s. induction l as [|m l IH]; intros s Hs; [done|]. by apply IH, process_inv_step. Qed.

(** *** The node under the process *)

Lemma node_stop_module m s : node (stop_module m s) = node s ∨ node (stop_module m s) = nm_step OStop (node s).
Proof. destruct m; auto. Qed.
Lemma node_main x s : node (main_step x s) = node s ∨ ∃ m, m ∈ calls (take 1 (todo s)) ∧ node (main_step x s) = node (stop_module m s).
Proof.
  unfold main_step. destruct (todo s) as [|i rest]; [by left|]. destruct i; cbn; auto.
  - destruct (should_exit s); [by left|]. destruct (should_suicide _); by left.
  - destruct x; cbn; [case_decide|destruct (should_exit s)|..]; by left.
  - left. unfold stop_watcher. cbn. by destruct (config_watcher s).
  - left. by destruct (last (modules s)).
  - right. exists m. split; [left|]. by destruct m.
Qed.
Lemma node_signal s : node (signal_handler s) = node s.
Proof. unfold signal_handler. by destruct (should_exit s). Qed.
Lemma node_step s m : node (step s m) = node s ∨ ∃ o, node (step s m) = nm_step o (node s) ∧ (o = OStop ∨ m = Thread o).
Proof.
  unfold step. destruct (todo s) as [|i rest]; [by left|]. destruct m as [x| |o].
  - destruct (node_main x s) as [H|(m & _ & H)]; [by left|]. rewrite H. destruct (node_stop_module m s) as [H'|H']; [by left|]. right. exists OStop. auto.
  - left. apply node_signal.
  - unfold thread_step. destruct (_ && _); [by left|]. right. exists o. auto.
Qed.
Lemma accounted_process c w l : accounted (node (run (process c w) l)).
Proof.
  induction l as [|m l IH] using rev_ind; [done|]. rewrite run_snoc.
  destruct (node_step (run (process c w) l) m) as [H|(o & H & _)]; rewrite H; [done|by apply accounted_step].
Qed.

(** A run whose start commands are committed for endpoints that exist. *)
Inductive process_reach (c : NodeConfig) (w : bool) : NodeProcess → Prop :=
| process_begin : process_reach c w (process c w)
| process_step s m : process_reach c w s → match m with Thread o => op_ok (node s) o | _ => True end → process_reach c w (step s m).
Lemma process_node c w s : process_reach c w s → nm_reach c (node s).
Proof.
  induction 1 as [|s m _ IH Hm]; [apply reach_init|].
  destruct (node_step s m) as [H|(o & H & [-> | ->])]; rewrite H; [done| |]; apply reach_step; done.
Qed.

(** Once the daemon was stopped it counts only the engines started after that. *)
Definition starts_engine (m : move) : bool := match m with Thread (OEngine _ _) => true | _ => false end.
Definition pids (s : NodeProcess) : list Z := engine_pids (nm_daemon (node s)).
Definition starts_late (s : NodeProcess) (m : move) : bool := starts_engine m && bool_decide (MDaemon ∈ stopped s).
Fixpoint in_time (s : NodeProcess) (l : list move) : bool :=
  match l with [] => true | m :: l => negb (starts_late s m) && in_time (step s m) l end.
Lemma in_time_snoc l m : ∀ s, in_time s (l ++ [m]) = in_time s l && negb (starts_late (run s l) m).
Proof. induction l as [|m' l IH]; intros s; cbn; [by rewrite andb_true_r|]. by rewrite IH, andb_assoc. Qed.

Lemma stopped_main x s :
  (stopped (main_step x s) = stopped s ∧ node (main_step x s) = node s) ∨
  ∃ m, stopped (main_step x s) = stopped s ++ [m] ∧ node (main_step x s) = node (stop_module m s).
Proof.
  unfold main_step. destruct (todo s) as [|i rest]; [by left|]. destruct i; cbn; auto.
  - left. destruct (should_exit s); [done|]. by destruct (should_suicide _).
  - left. destruct x; cbn; [case_decide|destruct (should_exit s)|..]; done.
  - left. unfold stop_watcher. cbn. by destruct (config_watcher s).
  - left. by destruct (last (modules s)).
  - right. exists m. by destruct m.
Qed.
Lemma pids_main x s :
  (MDaemon ∈ stopped s → pids s = []) → MDaemon ∈ stopped (main_step x s) → pids (main_step x s) = [].
Proof.
  intros Hs. unfold pids in *. destruct (stopped_main x s) as [[-> ->]|(m & -> & ->)]; [done|].
  rewrite elem_of_app, list_elem_of_singleton. intros [H| <-]; [|done]. destruct m; auto.
Qed.
Lemma pids_step s m :
  (MDaemon ∈ stopped s → pids s = []) → (starts_engine m = true → MDaemon ∉ stopped s) →
  MDaemon ∈ stopped (step s m) → pids (step s m) = [].
Proof.
  intros Hs Hm. unfold step. destruct (todo s) as [|i rest]; [done|]. destruct m as [x| |o].
  - by apply pids_main.
  - unfold signal_handler. destruct (should_exit s); done.
  - unfold thread_step. destruct (_ && _); [done|]. cbn. intros Hd. specialize (Hs Hd). unfold pids in *. cbn.
    rewrite daemon_step. destruct o; try done. by destruct Hm.
Qed.
Lemma pids_run c w l : in_time (process c w) l = true → MDaemon ∈ stopped (run (process c w) l) → pids (run (process c w) l) = [].
Proof.
  induction l as [|m l IH] using rev_ind; [done|]. rewrite run_snoc, in_time_snoc. intros [H1 H2%negb_true_iff]%andb_true_iff.
  apply pids_step; [auto|]. intros Hm Hd. unfold starts_late in H2. rewrite Hm, bool_decide_true in H2 by done. discriminate H2.
Qed.

(** *** What it returns *)

Definition read_fails (x : py Z) (l : list move) : Prop := ∃ e, x = Raise e ∧ Main (ReadRaises e) ∈ l.
Definition return_ok (l : list move) (x : py Z) : Prop := x = Ret (-1) ∨ read_fails x l.
Definition returning (s : NodeProcess) : list (py Z) := returns (todo s) ++ match exit_code s with Some x => [x] | None => [] end.
Lemma return_ok_snoc l m x : return_ok l x → return_ok (l ++ [m]) x.
Proof. intros [H|(e & H1 & H2)]; [by left|]. right. exists e. split; [done|]. apply elem_of_app. by left. Qed.
Lemma returning_main x s l :
  process_inv s → todo s ≠ [] → Forall (return_ok l) (returns (todo s)) → (∀ e, x = ReadRaises e → return_ok l (Raise e)) →
  Forall (return_ok l) (returning (main_step x s)).
Proof.
  intros Hs Hne H Hx. pose proof (pi_going s Hs Hne) as Hg. unfold returning, main_step.
  assert (return_ok l (Ret (-1))) as Hr by by left.
  destruct (todo s) as [|i rest]; [done|]. destruct i; cbn in *.
  - by rewrite Hg, app_nil_r.
  - by rewrite Hg, app_nil_r.
  - destruct (should_exit s); [|destruct (should_suicide _)]; cbn; rewrite Hg; by repeat constructor.
  - destruct x as [text| | |e]; cbn; [case_decide|destruct (should_exit s)|..]; cbn; rewrite Hg; try by repeat constructor.
    apply Forall_singleton. by apply Hx.
  - rewrite Hg. by repeat constructor.
  - unfold stop_watcher. cbn. destruct (config_watcher s); cbn; by rewrite Hg, app_nil_r.
  - destruct (last (modules s)); cbn; by rewrite Hg, app_nil_r.
  - destruct (stop_module_same m (set_todo rest s)) as (-> & _ & _ & _ & -> & _). cbn. by rewrite Hg, app_nil_r.
  - apply Forall_cons in H as [H _]. cbn. by apply Forall_singleton.
Qed.
Lemma returning_step s m l : process_inv s → Forall (return_ok l) (returning s) → Forall (return_ok (l ++ [m])) (returning (step s m)).
Proof.
  intros Hs H. assert (Forall (return_ok (l ++ [m])) (returning s)) as H' by (eapply Forall_impl; [exact H|]; intros x; apply return_ok_snoc).
  destruct (todo s) as [|i rest] eqn:Et; [by rewrite ended_step|]. assert (todo s ≠ []) as Hne by by rewrite Et.
  unfold step. rewrite Et. destruct m as [x| |o].
  - apply returning_main; [done..|by apply Forall_app in H' as [H' _]|]. intros e ->. right. exists e. split; [done|]. apply elem_of_app. right. by left.
  - unfold signal_handler. by destruct (should_exit s).
  - unfold thread_step. by destruct (_ && _).
Qed.
Lemma returning_run c w l : Forall (return_ok l) (returning (run (process c w) l)).
Proof.
  induction l as [|m l IH] using rev_ind; [by destruct w; constructor|]. rewrite run_snoc. apply returning_step; [|done].
  apply process_inv_run, process_inv_begin.
Qed.

(** *** It ends *)

(** The steps the main thread needs when it has to leave, and a bound on them. *)
Definition cost (i : instr) : nat := match i with Init _ => 3 | Loop => 4 | Read | Sleep => 5 | _ => 1 end.
Definition bound (i : instr) : nat := match i with Init _ => 3 | Loop | Read | Sleep => 5 | _ => 1 end.
Definition work (f : instr → nat) (s : NodeProcess) : nat := sum_list_with f (todo s) + 2 * length (modules s).
(** It has to leave: it was asked to, or is past its loop. *)
Definition leaving (s : NodeProcess) : bool := should_exit s || negb (existsb waits (todo s)).

Lemma work_cost_bound s : (work cost s ≤ work bound s)%nat.
Proof. unfold work. assert (sum_list_with cost (todo s) ≤ sum_list_with bound (todo s))%nat; [|lia]. induction (todo s) as [|[] l IH]; cbn; lia. Qed.
Lemma work_thread f o s : work f (thread_step o s) = work f s.
Proof. unfold thread_step. by destruct (_ && _). Qed.
Lemma length_removelast {A} (l : list A) : length (removelast l) = pred (length l).
Proof. destruct l as [|x l _] using rev_ind; [done|]. rewrite removelast_last, length_app. cbn. lia. Qed.

Lemma work_main x s :
  todo s ≠ [] → process_inv s →
  (work bound (main_step x s) ≤ work bound s)%nat ∧ (leaving s = true → (work cost (main_step x s) < work cost s)%nat ∧ leaving (main_step x s) = true).
Proof.
  intros Hne Hs. pose proof (pi_leaves s Hs Hne) as Hl. unfold work, leaving, main_step.
  destruct (todo s) as [|i rest]; [done|]. destruct i; cbn -[Nat.mul] in *; rewrite ?length_app; cbn -[Nat.mul].
  - split; [lia|]. intros H. split; [lia|done].
  - split; [lia|]. intros H. split; [lia|done].
  - destruct rest; [|done]. destruct (should_exit s) eqn:E; cbn -[Nat.mul]; [|destruct (should_suicide _)]; cbn -[Nat.mul]; rewrite ?E; (split; [lia|]); [|done..].
    intros _. split; [lia|done].
  - destruct rest; [|done]. destruct x; cbn -[Nat.mul]; [case_decide|destruct (should_exit s) eqn:E|..]; cbn -[Nat.mul]; rewrite ?orb_true_r, ?orb_false_r; (split; [lia|]); intros HL;
      (split; [lia|]); rewrite ?HL, ?E; done.
  - destruct rest; [|done]. split; [lia|]. intros H. split; [lia|done].
  - unfold stop_watcher. cbn -[Nat.mul]. destruct (config_watcher s); cbn -[Nat.mul]; (split; [lia|]); intros H; (split; [lia|done]).
  - destruct (last (modules s)) as [m|] eqn:El; cbn -[Nat.mul]; [|split; [lia|]; intros H; split; [lia|done]].
    apply last_Some in El as [l' El]. rewrite El, removelast_last, length_app. cbn -[Nat.mul]. split; [lia|]. intros H. split; [lia|done].
  - assert (should_exit (stop_module m (set_todo rest s)) = should_exit s) as -> by by destruct m.
    destruct (stop_module_same m (set_todo rest s)) as (-> & -> & _). cbn -[Nat.mul]. split; [lia|]. intros H. split; [lia|done].
  - split; [lia|]. intros H. split; [lia|]. by rewrite orb_true_r.
Qed.
Definition is_main (m : move) : bool := match m with Main _ => true | _ => false end.
Definition main_steps (l : list move) : nat := length (List.filter is_main l).

Lemma work_signal s : todo s ≠ [] →
  (work bound (signal_handler s) = work bound s + (if should_exit s then 0 else 2))%nat ∧ should_exit (signal_handler s) = true.
Proof. intros _. unfold signal_handler. destruct (should_exit s) eqn:E; [split; [lia|done]|]. unfold work. cbn -[Nat.mul]. split; [lia|done]. Qed.
Lemma should_exit_main x s : should_exit s = true → should_exit (main_step x s) = true.
Proof.
  intros H. unfold main_step. destruct (todo s) as [|i rest]; [done|]. destruct i; cbn; try done.
  - by rewrite H.
  - destruct x; cbn; try case_decide; cbn; rewrite ?H; done.
  - unfold stop_watcher. cbn. by destruct (config_watcher s).
  - by destruct (last (modules s)).
  - by destruct m.
Qed.
Definition work_left (s : NodeProcess) : Prop := (work bound s + (if should_exit s then 0 else 2) ≤ 23)%nat.
Lemma work_left_step s m : process_inv s → work_left s → work_left (step s m).
Proof.
  intros Hs H. destruct (todo s) as [|i rest] eqn:Et; [by rewrite ended_step|]. assert (todo s ≠ []) as Hne by by rewrite Et.
  unfold work_left, step in *. rewrite Et. destruct m as [x| |o].
  - destruct (work_main x s Hne Hs) as [Hw _]. pose proof (should_exit_main x s) as He. destruct (should_exit s); [rewrite He by done; lia|].
    destruct (should_exit (main_step x s)); lia.
  - destruct (work_signal s Hne) as [Hw ->]. lia.
  - rewrite work_thread. assert (should_exit (thread_step o s) = should_exit s) as -> by (unfold thread_step; by destruct (_ && _)). done.
Qed.
Lemma work_left_run c w l : work_left (run (process c w) l).
Proof.
  induction l as [|m l IH] using rev_ind; [destruct w; unfold work_left, work; cbn; lia|]. rewrite run_snoc.
  apply work_left_step; [apply process_inv_run, process_inv_begin|done].
Qed.

(** Signals and other threads do not hold up a main thread that leaves, apart from the handler. *)
Definition remaining (s : NodeProcess) : nat := work cost s + (if should_exit s then 0 else 2).
Lemma leaving_step s m :
  process_inv s → leaving s = true →
  leaving (step s m) = true ∧ (ended s = true ∨ remaining (step s m) + (if is_main m then 1 else 0) ≤ remaining s)%nat.
Proof.
  intros Hs H. destruct (todo s) as [|i rest] eqn:Et; [rewrite ended_step by done; split; [done|]; left; unfold ended; by rewrite Et|].
  assert (todo s ≠ []) as Hne by by rewrite Et. unfold step. rewrite Et. unfold remaining. destruct m as [x| |o]; cbn [is_main].
  - destruct (work_main x s Hne Hs) as [_ Hw]. destruct (Hw H) as [Hc Hl]. split; [done|]. right.
    pose proof (should_exit_main x s) as He. destruct (should_exit s); [rewrite He by done; lia|]. destruct (should_exit (main_step x s)); lia.
  - unfold signal_handler. destruct (should_exit s) eqn:E; [split; [done|]; rewrite E; right; lia|]. unfold leaving, work in *. cbn -[Nat.mul]. split; [done|]. right. lia.
  - assert (should_exit (thread_step o s) = should_exit s) as -> by (unfold thread_step; by destruct (_ && _)). rewrite work_thread.
    split; [|right; lia]. unfold leaving, thread_step in *. by destruct (_ && _).
Qed.
Lemma ended_run s l : ended s = true → run s l = s.
Proof.
  unfold ended. destruct (todo s) eqn:E; [|done]. intros _. induction l as [|m l IH] using rev_ind; [done|]. by rewrite run_snoc, IH, ended_step.
Qed.
Lemma leaving_run l : ∀ s, process_inv s → leaving s = true → ended (run s l) = true ∨ (remaining (run s l) + main_steps l ≤ remaining s)%nat.
Proof.
  unfold main_steps. induction l as [|m l IH]; intros s Hs H; [right; cbn; lia|]. destruct (leaving_step s m Hs H) as [Hl [He|Hw]].
  - left. by rewrite ended_run.
  - cbn [List.filter]. destruct (IH (step s m) (process_inv_step s m Hs) Hl) as [He|Hr]; [by left|]. right.
    change (run s (m :: l)) with (run (step s m) l). destruct (is_main m); cbn [length]; lia.
Qed.

(** ** Properties *)


(** C21: it gets there.  Once the node manager was asked to stop, or saw the suicide flag, at most
    twenty-three further steps of its main thread end it, whatever else happens between
    them; reading a line is one of the steps, so a signal that comes while it waits for a
    line has stopped the modules but ends the process with that line only. *)
Theorem node_manager_ends c w l1 l2 :
  leaving (run (process c w) l1) = true → (23 ≤ main_steps l2)%nat → todo (run (process c w) (l1 ++ l2)) = [].
Proof.
  intros H Hn. rewrite run_app. pose proof (work_left_run c w l1) as Hb. pose proof (work_cost_bound (run (process c w) l1)) as Hc.
  destruct (leaving_run l2 (run (process c w) l1)) as [He|Hr]; [apply process_inv_run, process_inv_begin|done|..].
  - revert He. unfold ended. by destruct (todo _).
  - unfold remaining, work_left in *. destruct (todo (run (run (process c w) l1) l2)) as [|i rest] eqn:Et; [done|]. exfalso.
    assert (0 < work cost (run (run (process c w) l1) l2))%nat; [|lia]. unfold work. rewrite Et. destruct i; cbn; lia.
Qed.

(** The suicide.  When the main thread looks at the flag, it gives the node up exactly if
    five heartbeats in a row that the controller took since the last start command named
    an abnormal endpoint. *)
Theorem main_sees_suicide c w s x :
  process_reach c w s → todo s = [Loop] → should_exit s = false →
  (todo (main_step x s) = suicide_procedure ↔ five_in_a_row (reports (nm_history (node s)))) ∧
  (leaving (main_step x s) = true ↔ five_in_a_row (reports (nm_history (node s)))).
Proof.
  intros Hr Ht He. rewrite <- (inv_flag (node s)) by by eapply reach_inv, process_node. unfold leaving, main_step. rewrite Ht, He.
  destruct (should_suicide (nm_hb (node s))); cbn; rewrite He; done.
Qed.

(** ** Samples *)

(** A signal while the process is stopping because of a line. *)
Definition eof : move := Main Eof.
Definition sample_cmdline : EngineCmd := mkCmd [] None.
Definition stop_run : list move :=
  replicate 6 eof ++ [Thread (OEngine 41 sample_cmdline); eof; Main (Line " STOP "); eof; eof; eof; Signal; eof] ++ replicate 14 eof.
(** A signal during the start, and during the stop of the modules by the suicide. *)
Definition signal_run : list move := [eof; eof; Signal] ++ replicate 22 eof.
(** The API takes a start command after the daemon was stopped. *)
Definition late_run : list move :=
  replicate 6 eof ++ [Signal] ++ replicate 8 eof ++ [Thread (OEngine 42 sample_cmdline)] ++ replicate 18 eof.
Example engine_survives :
  let s := run (process sample_node true) late_run in
  (todo s, exit_code s, pids s, killed (nm_daemon (node s)), stopped s) = ([], Some (Ret (-1)), [42], [], rev init_all_modules).
Proof. vm_compute. reflexivity. Qed.
(** A signal in the middle of the stop of the modules changes their order, not their number. *)
Example interrupted_stop :
  stopped (run (process sample_node false) (signal_run)) = [MApi; MConfig; MHeartbeat; MEngineManager; MDaemon].
Proof. vm_compute. reflexivity. Qed.
(** After a signal, with the modules stopped, it waits for a line as before. *)
Example waits_for_line :
  let s := run (process sample_node false) (replicate 6 eof ++ [Signal] ++ replicate 12 eof) in (todo s, modules s) = ([Read], []).
Proof. vm_compute. reflexivity. Qed.
Lemma node_manager_ends_witness : todo (run (process sample_node true) ([eof; eof; Signal] ++ replicate 23 eof)) = [].
Proof. apply (node_manager_ends sample_node true [eof; eof; Signal] (replicate 23 eof)); vm_compute; [reflexivity|lia]. Defined.
(** The other threads of a process that is not stopping run as in [NodeManager]. *)
Lemma threads_run c w ops : ∀ s, todo s ≠ [] → stop_event s = false → process_reach c w s → ops_ok (node s) ops →
  let s' := run s (map Thread ops) in process_reach c w s' ∧ todo s' = todo s ∧ should_exit s' = should_exit s.
Proof.
  induction ops as [|o ops IH]; intros s Hne He Hr Ho; [by split_and!|]. destruct Ho as [H1 H2].
  assert (step s (Thread o) = set_node (nm_step o (node s)) s) as E by (unfold step, thread_step; rewrite He; by destruct (todo s)).
  cbn [map]. change (run s (?m :: ?l)) with (run (step s m) l). destruct (IH (step s (Thread o))) as (Ha & Hb & Hc); rewrite ?E; try done.
  - rewrite <- E. by apply process_step.
  - rewrite E in Ha, Hb, Hc. by split_and!.
Qed.
Definition looking : NodeProcess := run (run (process sample_node false) (replicate 5 eof)) (map Thread sample_ops).
Lemma looking_reach : process_reach sample_node false looking ∧ todo looking = [Loop] ∧ should_exit looking = false.
Proof.
  apply (threads_run sample_node false sample_ops); [done..| |exact sample_node_ops_ok].
  cbn [replicate run fold_left]. unfold run. cbn [fold_left]. repeat (apply process_step; [|exact I]). apply process_begin.
Qed.
Lemma main_sees_suicide_witness : five_in_a_row (reports (nm_history (node looking))).
Proof.
  destruct looking_reach as (H1 & H2 & H3). apply (proj1 (proj2 (main_sees_suicide sample_node false looking Eof H1 H2 H3))).
  vm_compute. reflexivity.
Defined.
