(* ===== verification/EtcdClient.v ===== *)
(** * The etcd client

    Models the data operations of [common/etcd/etcd_client.py]: JSON values, flags, and the
    dictionaries the controller persists under a prefix, with the lock around a write that
    [Standby] models.  A key is the string of its bytes; etcd is an interface with the laws its
    documentation states, where every call can fail before or after it took effect. *)

From stdpp Require Import base option list strings gmap sorting.
From Stdlib Require Import ZArith Lia Ascii Sorted.
From S2P Require Import Prelude CtlInstanceManager PyText Standby.
Open Scope Z_scope.

(** ** The store *)

(** [in_range k e x]: the keys from [k] up to [e] that [Range] and [DeleteRange] take. *)
Definition in_range (k e x : string) : bool := String.leb k x && String.ltb x e.
Definition is_lock (k : string) : bool := startswith k lock_prefix.

(** The calls, and the keys and values of the store. *)
Class EtcdStore (E : Type) := {
  range : string → string → E → E * py (list (string * string));
  get_key : string → E → E * py (option string);
  put : string → string → E → E * py unit;
  delete_range : string → string → E → E * py Z;
  contents : E → gmap string string
}.

(** Between two states a call took effect or not. *)
Definition effect (r : bool) (before after done : gmap string string) : Prop := after = done ∨ r = false ∧ after = before.
(** What a call on the locks leaves alone. *)
Definition same_data (a b : gmap string string) : Prop := ∀ k, is_lock k = false → a !! k = b !! k.

Class StoreLaws (E : Type) `{!EtcdService E, !EtcdStore E} := {
  range_same k e x : contents (range k e x).1 = contents x;
  range_sound k e x l : (range k e x).2 = Ret l →
    l ≡ₚ map_to_list (filter (λ kv, in_range k e kv.1 = true) (contents x)) ∧ Sorted (λ a b, String.leb a.1 b.1 = true) l;
  get_same k x : contents (get_key k x).1 = contents x;
  get_sound k x v : (get_key k x).2 = Ret v → v = contents x !! k;
  put_effect k v x : effect (is_ret (put k v x).2) (contents x) (contents (put k v x).1) (<[k:=v]> (contents x));
  delete_effect k e x : effect (is_ret (delete_range k e x).2) (contents x) (contents (delete_range k e x).1)
                          (filter (λ kv, in_range k e kv.1 = false) (contents x));
  grant_data ttl x : same_data (contents x) (contents (lease_grant ttl x).1);
  take_data k l x : is_lock k = true → same_data (contents x) (contents (put_if_absent k l x).1);
  revoke_data l x : same_data (contents x) (contents (lease_revoke l x).1)
}.

(** ** Keys *)

(** [_prefix_range_end], on the bytes from the last to the first. *)
Fixpoint bump (l : list Ascii.ascii) : list Ascii.ascii :=
  match l with
  | [] => []
  | c :: l => if code c <? 255 then Ascii.ascii_of_N (Z.to_N (code c + 1)) :: l else c :: bump l
  end.
Definition prefix_range_end (prefix : string) : string := of_chars (rev (bump (rev (chars prefix)))).

(** [full_key[prefix_len + 1:]] *)
Definition relative_key (prefix k : string) : string := of_chars (skipn (S (String.length prefix)) (chars k)).

(** ** Operations *)

Section client.
Context {E : Type} `{!EtcdService E, !EtcdStore E} (cfg : LockConfig).
(** [json.dumps] and [json.loads]. *)
Context {J : Type} (dumps : J → string) (loads : string → py J).

Abbreviation etcd_sys := (Manager * E)%type.
Definition on_etcd {A} (f : E → E * py A) : M etcd_sys A := λ s, let '(m, e) := s in let '(e', r) := f e in ((m, e'), r).
Notation key := (full_key cfg).

(** [put_json], through [_put_key_value]. *)
Definition put_json (k : string) (data : J) : M etcd_sys bool :=
  mtry (on_etcd (put (key k) (dumps data)) ;; mret true) (λ _, mret false).
Definition delete_prefix (prefix : string) : M etcd_sys bool :=
  mtry (on_etcd (delete_range (key prefix) (prefix_range_end (key prefix))) ;; mret true) (λ _, mret false).

Definition bool_text (b : bool) : string := if b then "true" else "false".
Definition set_bool (k : string) (value : bool) : M etcd_sys bool :=
  mtry (on_etcd (put (key k) (bool_text value)) ;; mret true) (λ _, mret false).
Definition read_bool (dflt : option bool) (text : string) : option bool :=
  let t := of_chars (map lower_char (chars (strip text))) in
  if bool_decide (t ∈ ["true"; "1"]%string) then Some true else if bool_decide (t ∈ ["false"; "0"]%string) then Some false else dflt.
Definition get_bool (k : string) (dflt : option bool) : M etcd_sys (option bool) :=
  mtry (v ← on_etcd (get_key (key k)); mret match v with Some t => read_bool dflt t | None => dflt end) (λ _, mret dflt).

(** The loop of [persist_data]. *)
Fixpoint put_all (prefix : string) (data : dict string J) : M etcd_sys bool :=
  match data with
  | [] => mret true
  | (k, v) :: data =>
      ok ← put_json (prefix +:+ "/" +:+ k) v;
      if ok : bool then put_all prefix data else mret false
  end.
(** [persist_data]: within [lock_context]; whether the old data could be deleted is not asked. *)
Definition persist_data (prefix : string) (data : dict string J) : M etcd_sys bool :=
  let lock_key := "persist_" +:+ prefix in
  locked ← acquire_lock cfg lock_key 30;
  if locked : bool then
    delete_prefix prefix ;;
    stored ← put_all prefix data;
    release_lock cfg lock_key ;;
    mret stored
  else mret false.

(** [model_class( **item_data)], or the value itself. *)
Context {A : Type} (model : J → py A).
Fixpoint read_items (prefix : string) (l : list (string * string)) (data : dict string A) : py (dict string A) :=
  match l with
  | [] => Ret data
  | (k, v) :: l => j ← loads v; a ← model j; read_items prefix l (dset data (relative_key prefix k) a)
  end.
Definition get_prefix_data (prefix : string) : M etcd_sys (dict string A) :=
  mtry (l ← on_etcd (range (key prefix) (prefix_range_end (key prefix))); mlift (read_items (key prefix) l [])) (λ _, mret []).
Definition restore_data (prefix : string) : M etcd_sys (option (dict string A)) :=
  data ← get_prefix_data prefix; mret match data with [] => None | _ => Some data end.
End client.

(** ** Lemmas *)

(** *** Keys *)

Definition next_char (c : Ascii.ascii) : Ascii.ascii := Ascii.ascii_of_N (Z.to_N (code c + 1)).
Lemma code_next c : code c < 255 → code (next_char c) = code c + 1.
Proof. intros H. unfold next_char, code in *. rewrite Ascii.N_ascii_embedding; lia. Qed.
Lemma ascii_compare a b : Ascii.compare a b = (code a ?= code b).
Proof. unfold Ascii.compare, code. destruct (N.compare_spec (Ascii.N_of_ascii a) (Ascii.N_of_ascii b)), (Z.compare_spec (Z.of_N (Ascii.N_of_ascii a)) (Z.of_N (Ascii.N_of_ascii b))); lia || done. Qed.
Lemma code_inj a b : code a = code b → a = b.
Proof. unfold code. intros H%N2Z.inj. rewrite <- (Ascii.ascii_N_embedding a), <- (Ascii.ascii_N_embedding b). by rewrite H. Qed.

(** Texts: the last byte of a text in UTF-8 is not the greatest. *)
Definition is_text (p : string) : bool := match last (chars p) with Some c => code c <? 255 | None => false end.
Lemma is_text_snoc p : is_text p = true → ∃ l c, p = of_chars (l ++ [c]) ∧ code c < 255 ∧ prefix_range_end p = of_chars (l ++ [next_char c]).
Proof.
  unfold is_text, prefix_range_end. intros H. destruct (last (chars p)) as [c|] eqn:El; [|done]. apply last_Some in El as [l El].
  exists l, c. split; [by rewrite <- El, of_chars_chars|]. apply Z.ltb_lt in H. split; [done|]. rewrite El, rev_unit. cbn [bump].
  rewrite (proj2 (Z.ltb_lt _ _)) by done. cbn [rev]. by rewrite rev_involutive.
Qed.

Lemma in_range_cons a p e k : in_range (String a p) (String a e) (String a k) = in_range p e k.
Proof. unfold in_range, String.leb, String.ltb. cbn. by rewrite !ascii_compare, !Z.compare_refl. Qed.
Lemma prefix_range l c k : code c < 255 → in_range (of_chars (l ++ [c])) (of_chars (l ++ [next_char c])) k = startswith k (of_chars (l ++ [c])).
Proof.
  intros Hc. unfold startswith. revert k. induction l as [|d l IH]; intros [|a k]; try done.
  - change (of_chars ([] ++ [c])) with (String c ""). change (of_chars ([] ++ [next_char c])) with (String (next_char c) "").
    unfold in_range, String.leb, String.ltb. cbn. rewrite !ascii_compare, code_next by done. destruct (Ascii.ascii_dec c a) as [->|Hne].
    + rewrite Z.compare_refl, (proj2 (Z.compare_lt_iff _ _)) by lia. by destruct k.
    + assert (code c ≠ code a) as Hca by by intros ?%code_inj. destruct (Z.compare_spec (code c) (code a)); [done| |done].
      destruct (Z.compare_spec (code a) (code c + 1)); [by destruct k|lia|done].
  - change (of_chars ((d :: l) ++ ?x)) with (String d (of_chars (l ++ x))). cbn [String.prefix]. destruct (Ascii.ascii_dec d a) as [<-|Hne].
    + by rewrite in_range_cons, IH.
    + unfold in_range, String.leb, String.ltb. cbn. rewrite !ascii_compare.
      assert (code d ≠ code a) as Hda by by intros ?%code_inj. destruct (Z.compare_spec (code d) (code a)); [done| |done].
      rewrite (proj2 (Z.compare_gt_iff _ _)) by lia. done.
Qed.
(** The keys up to the end of the range are those with the prefix. *)
Lemma range_is_prefix p k : is_text p = true → in_range p (prefix_range_end p) k = startswith k p.
Proof. intros (l & c & -> & Hc & ->)%is_text_snoc. by apply prefix_range. Qed.

Lemma startswith_iff k p : startswith k p = true ↔ ∃ r, k = p +:+ r.
Proof.
  unfold startswith. revert k. induction p as [|a p IH]; intros k; [split; [by exists k|by destruct k]|].
  destruct k as [|b k]; cbn; [split; [done|intros [r [=]]]|]. destruct (Ascii.ascii_dec a b) as [<-|Hne].
  - rewrite IH. split; intros [r H]; exists r; [by rewrite H|by injection H].
  - split; [done|]. intros [r H]. injection H. congruence.
Qed.
Lemma relative_key_app p k : relative_key p (p +:+ "/" +:+ k) = k.
Proof.
  unfold relative_key. rewrite !chars_app. assert (String.length p = length (chars p)) as -> by (induction p as [|c p IH]; [done|]; cbn; by rewrite IH).
  rewrite skipn_app, (skipn_all2 (chars p)) by lia. replace (S (length (chars p)) - length (chars p))%nat with 1%nat by lia. cbn. apply of_chars_chars.
Qed.
Lemma str_app_inj p a b : p +:+ a = p +:+ b → a = b.
Proof. induction p as [|c p IH]; [done|]. intros [= H]. by apply IH. Qed.
(** Prefixes of one key are prefixes of each other. *)
Lemma startswith_both k p q : startswith k p = true → startswith k q = true → startswith p q = true ∨ startswith q p = true.
Proof.
  unfold startswith. revert p q. induction k as [|a k IH]; intros [|b p] [|c q]; cbn; try auto; try done.
  destruct (Ascii.ascii_dec b a) as [->|]; [|done]. destruct (Ascii.ascii_dec c a) as [->|]; [|done]. intros H1 H2.
  destruct (Ascii.ascii_dec a a); [|done]. by apply IH.
Qed.

(** The keys of the controller: they begin with a slash, and the namespace does not. *)
Definition deployed (cfg : LockConfig) : bool := match namespace cfg with String c _ => negb (bool_decide (c = "/"%char)) | _ => false end.
Definition local_key (k : string) : bool := startswith k "/" && is_text k.
Definition root (cfg : LockConfig) : string := namespace cfg +:+ "/" +:+ lock_job cfg.
Lemma full_key_local cfg k : deployed cfg = true → startswith k "/" = true → full_key cfg k = root cfg +:+ k.
Proof.
  unfold deployed, full_key, root, startswith. destruct (namespace cfg) as [|c n]; [done|]. intros Hc%negb_true_iff%bool_decide_eq_false Hk.
  destruct k as [|d k]; [done|]. cbn [String.prefix] in Hk. destruct (Ascii.ascii_dec "/"%char d) as [<-|]; [|done].
  rewrite !str_app_assoc. change (String c n +:+ ?x) with (String c (n +:+ x)). cbn [String.prefix]. by destruct (Ascii.ascii_dec c "/").
Qed.
Lemma local_app k x : startswith k "/" = true → startswith (k +:+ x) "/" = true.
Proof. intros [r ->]%startswith_iff. apply startswith_iff. exists (r +:+ x). by rewrite str_app_assoc. Qed.
Lemma under_not_lock cfg p k : deployed cfg = true → startswith p "/" = true → startswith k (full_key cfg p) = true → is_lock k = false.
Proof.
  intros Hd Hp [r ->]%startswith_iff. rewrite full_key_local by done. unfold deployed, is_lock, root, startswith in *.
  destruct (namespace cfg) as [|c n]; [done|]. apply negb_true_iff, bool_decide_eq_false in Hd. rewrite !str_app_assoc.
  change (String c n +:+ ?x) with (String c (n +:+ x)). unfold lock_prefix. cbn [String.prefix]. by destruct (Ascii.ascii_dec "/" c).
Qed.
Lemma full_text cfg p : deployed cfg = true → local_key p = true → is_text (full_key cfg p) = true.
Proof.
  intros Hd [H1 H2]%andb_true_iff. rewrite full_key_local by done. unfold is_text in *. rewrite chars_app.
  destruct (last (chars p)) as [c|] eqn:E; [|done]. apply last_Some in E as [l ->]. by rewrite app_assoc, last_snoc.
Qed.

(** *** Contents *)

Lemma same_data_refl a : same_data a a.
Proof. by intros k. Qed.
Lemma same_data_trans a b c : same_data a b → same_data b c → same_data a c.
Proof. intros H1 H2 k Hk. by rewrite H1, H2. Qed.
Lemma same_data_sym a b : same_data a b → same_data b a.
Proof. intros H k Hk. by rewrite H. Qed.
Definition without (p : string) (c : gmap string string) : gmap string string := filter (λ kv, startswith kv.1 p = false) c.
Lemma without_lookup p c k : without p c !! k = if startswith k p then None else c !! k.
Proof.
  unfold without. destruct (startswith k p) eqn:E.
  - apply map_lookup_filter_None. right. intros v _. cbn [fst]. by rewrite E.
  - destruct (c !! k) as [v|] eqn:Ec; [apply map_lookup_filter_Some; by rewrite Ec|]. apply map_lookup_filter_None. by left.
Qed.
Lemma without_same p a b : same_data a b → same_data (without p a) (without p b).
Proof. intros H k Hk. rewrite !without_lookup. destruct (startswith k p); [done|]. by apply H. Qed.

Section persistence.
Context {E : Type} `{!EtcdService E, !EtcdStore E, !StoreLaws E} (cfg : LockConfig).
Context {J : Type} (dumps : J → string) (loads : string → py J).
Abbreviation etcd_sys := (Manager * E)%type.
Definition data_of (s : etcd_sys) : gmap string string := contents s.2.

(** The data of a dictionary under a prefix, put over what is there. *)
Definition put_data (p : string) (l : dict string J) (c : gmap string string) : gmap string string :=
  fold_left (λ c kv, <[p +:+ "/" +:+ kv.1 := dumps kv.2]> c) l c.
Lemma put_data_cons p k v l c : put_data p ((k, v) :: l) c = put_data p l (<[p +:+ "/" +:+ k := dumps v]> c).
Proof. done. Qed.
Lemma put_data_same p l a b : same_data a b → same_data (put_data p l a) (put_data p l b).
Proof.
  revert a b. induction l as [|[k v] l IH]; intros a b H; [done|]. rewrite !put_data_cons. apply IH. intros k' Hk'.
  destruct (decide (k' = p +:+ "/" +:+ k)) as [->|]; [by rewrite !lookup_insert_eq|]. rewrite !lookup_insert_ne by done. by apply H.
Qed.
Lemma put_data_other p l c k : startswith k p = false → put_data p l c !! k = c !! k.
Proof.
  intros Hk. revert c. induction l as [|[a v] l IH]; intros c; [done|]. rewrite put_data_cons, IH. apply lookup_insert_ne.
  intros <-. apply not_true_iff_false in Hk. apply Hk, startswith_iff. by eexists.
Qed.
Lemma put_data_lookup p l c k v : NoDup (dkeys l) →
  put_data p l c !! k = Some v ↔ (∃ a j, (a, j) ∈ l ∧ k = p +:+ "/" +:+ a ∧ v = dumps j) ∨ ((∀ a j, (a, j) ∈ l → k ≠ p +:+ "/" +:+ a) ∧ c !! k = Some v).
Proof.
  revert c. induction l as [|[b w] l IH]; intros c Hd.
  - cbn. split; [intros H; right; split; [by intros a j ?%elem_of_nil|done]|]. intros [(a & j & Hin & _)|[_ H]]; [by apply elem_of_nil in Hin|done].
  - apply NoDup_cons in Hd as [Hb Hd]. rewrite put_data_cons, IH by done. split.
    + intros [(a & j & Hin & Hk)|[Hn Hc]]; [left; exists a, j; split; [by right|done]|]. destruct (decide (k = p +:+ "/" +:+ b)) as [->|Hne].
      * rewrite lookup_insert_eq in Hc. injection Hc as <-. left. exists b, w. split; [left|done].
      * rewrite lookup_insert_ne in Hc by done. right. split; [|done]. intros a j [[= -> ->]|Hin]%elem_of_cons; [done|by eapply Hn].
    + intros [(a & j & [[= -> ->]|Hin]%elem_of_cons & -> & ->)|[Hn Hc]].
      * right. rewrite lookup_insert_eq. split; [|done]. intros a j Hin [= Hab]%str_app_inj%(str_app_inj "/"). subst a. apply Hb. by apply (list_elem_of_fmap_2 fst _ _ Hin).
      * left. by exists a, j.
      * right. split; [intros a j Hin; by eapply Hn; right|]. rewrite lookup_insert_ne; [done|]. intros <-. by eapply Hn; [left|].
Qed.

Lemma on_etcd_eq {A} (f : E → E * py A) m e : on_etcd f (m, e) = ((m, (f e).1), (f e).2).
Proof. unfold on_etcd. by destruct (f e). Qed.

(** A put and a deletion: what is there after, and what the caller is told. *)
Lemma put_json_eq k v m e : ∃ e' b, put_json cfg dumps k v (m, e) = ((m, e'), Ret b) ∧ effect b (contents e) (contents e') (<[full_key cfg k := dumps v]> (contents e)).
Proof.
  exists (put (full_key cfg k) (dumps v) e).1, (is_ret (put (full_key cfg k) (dumps v) e).2). split; [|apply put_effect].
  unfold put_json, mtry, mbind, M_bind. rewrite on_etcd_eq. by destruct (put _ _ e).2.
Qed.
Lemma delete_prefix_eq p m e : is_text (full_key cfg p) = true →
  ∃ e' b, delete_prefix cfg p (m, e) = ((m, e'), Ret b) ∧ effect b (contents e) (contents e') (without (full_key cfg p) (contents e)).
Proof.
  intros Hp. set (k := full_key cfg p). exists (delete_range k (prefix_range_end k) e).1, (is_ret (delete_range k (prefix_range_end k) e).2). split.
  - unfold delete_prefix, mtry, mbind, M_bind. rewrite on_etcd_eq. fold k. by destruct (delete_range _ _ e).2.
  - pose proof (delete_effect k (prefix_range_end k) e) as H. assert (filter (λ kv, in_range k (prefix_range_end k) kv.1 = false) (contents e) = without k (contents e)) as Hw.
    { apply map_filter_ext. intros i x _. cbn [fst]. by rewrite range_is_prefix. }
    by rewrite Hw in H.
Qed.

Lemma put_all_eq p l : (∀ a, full_key cfg (p +:+ "/" +:+ a) = full_key cfg p +:+ "/" +:+ a) → ∀ m e,
  ∃ e' b n, put_all cfg dumps p l (m, e) = ((m, e'), Ret b) ∧ contents e' = put_data (full_key cfg p) (take n l) (contents e) ∧ (b = true → n = length l) ∧ (n ≤ length l)%nat.
Proof.
  intros Hk. induction l as [|[k v] l IH]; intros m e; [by exists e, true, 0%nat|]. cbn [put_all].
  destruct (put_json_eq (p +:+ "/" +:+ k) v m e) as (e1 & b & He & Heff). erewrite M_bind_Ret by exact He. rewrite Hk in Heff. destruct b.
  - destruct Heff as [Hc|[[=] _]]. destruct (IH m e1) as (e2 & b & n & H1 & H2 & H3 & H4). exists e2, b, (S n). split; [done|]. cbn.
    rewrite <- Hc. split; [done|]. split; [|lia]. intros Hb. by rewrite (H3 Hb).
  - destruct Heff as [Hc|[_ Hc]]; [exists e1, false, 1%nat|exists e1, false, 0%nat]; (split; [done|]); cbn; rewrite ?take_0; cbn; (split; [done|]); (split; [done|lia]).
Qed.
Lemma acquire_data k t m e : let s' := (acquire_lock cfg k t (m, e)).1 in same_data (contents e) (data_of s') ∧ ∃ b, (acquire_lock cfg k t (m, e)).2 = Ret b.
Proof.
  unfold acquire_lock, Lock_acquire. destruct (dhas _ _); [split; [apply same_data_refl|by eexists]|].
  pose proof (grant_data t e) as Hg. destruct (lease_grant t e) as [e1 [id|x]]; cbn in Hg |- *; [|split; [done|by eexists]].
  assert (is_lock (lock_prefix +:+ full_key cfg k) = true) as Hl by (apply startswith_iff; by eexists).
  pose proof (take_data _ id e1 Hl) as Ht. destruct (put_if_absent _ _ e1) as [e2 [[]|x]]; cbn in Ht |- *; (split; [|by eexists]);
    unfold data_of; cbn; try (by eapply same_data_trans); (eapply same_data_trans; [exact Hg|]; eapply same_data_trans; [exact Ht|]; apply revoke_data).
Qed.
Lemma release_data k m e : let s' := (release_lock cfg k (m, e)).1 in same_data (contents e) (data_of s') ∧ ∃ b, (release_lock cfg k (m, e)).2 = Ret b.
Proof.
  unfold release_lock. destruct (dget _ _) as [l|]; [|split; [apply same_data_refl|by eexists]].
  pose proof (revoke_data l e) as Hr. destruct (lease_revoke l e) as [e' r]. by split; [|eexists].
Qed.

Lemma key_under p a : deployed cfg = true → startswith p "/" = true → full_key cfg (p +:+ "/" +:+ a) = full_key cfg p +:+ "/" +:+ a.
Proof. intros Hd Hp. rewrite !full_key_local by (done || by apply local_app). by rewrite str_app_assoc. Qed.

(** *** A write *)

(** What a write leaves: the first [n] items of the data, over the data from before or, when
    the old data was deleted, over the rest of the store. *)
Definition written (p : string) (data : dict string J) (n : nat) (deleted : bool) (c : gmap string string) : gmap string string :=
  put_data p (take n data) (if deleted then without p c else c).
Lemma persist_eq p data m e : deployed cfg = true → local_key p = true →
  ∃ s' b n deleted, persist_data cfg dumps p data (m, e) = (s', Ret b) ∧ same_data (written (full_key cfg p) data n deleted (contents e)) (data_of s') ∧
    (n ≤ length data)%nat ∧ (b = true → n = length data).
Proof.
  intros Hd Hp. assert (startswith p "/" = true) as Hs by by apply andb_true_iff in Hp as [? _]. unfold persist_data.
  destruct (acquire_data ("persist_" +:+ p) 30 m e) as (Ha & b & Hb). destruct (acquire_lock cfg ("persist_" +:+ p) 30 (m, e)) as [[m1 e1] r] eqn:Eacq.
  cbn in Ha, Hb. subst r. erewrite M_bind_Ret by exact Eacq. destruct b.
  2: { exists (m1, e1), false, 0%nat, false. split; [done|]. split; [exact Ha|]. split; [lia|done]. }
  destruct (delete_prefix_eq p m1 e1) as (e2 & d & Hdel & Heff); [by apply full_text|]. erewrite M_bind_Ret by exact Hdel.
  destruct (put_all_eq p data (λ a, key_under p a Hd Hs) m1 e2) as (e3 & ok & n & Hput & Hc & Hn & Hle). erewrite M_bind_Ret by exact Hput.
  destruct (release_data ("persist_" +:+ p) m1 e3) as (Hr & b' & Hb'). destruct (release_lock cfg ("persist_" +:+ p) (m1, e3)) as [[m4 e4] r] eqn:Erel.
  cbn in Hr, Hb'. subst r. erewrite M_bind_Ret by exact Erel. exists (m4, e4), ok, n, (bool_decide (contents e2 = without (full_key cfg p) (contents e1))).
  split; [done|]. split; [|done]. eapply same_data_trans; [|exact Hr]. rewrite Hc. apply put_data_same. case_bool_decide as Hdec.
  - rewrite Hdec. by apply without_same.
  - destruct Heff as [?|[_ ->]]; [done|exact Ha].
Qed.

(** *** Reading *)

Context {A : Type} (model : J → py A).
Lemma read_items_eq p (mk : J → A) l : ∀ data, NoDup (dkeys data ++ dkeys l) →
  (∀ a j, (a, j) ∈ l → loads (dumps j) = Ret j ∧ model j = Ret (mk j)) →
  read_items loads model p (map (λ kv, (p +:+ "/" +:+ kv.1, dumps kv.2)) l) data = Ret (data ++ map (λ kv, (kv.1, mk kv.2)) l).
Proof.
  induction l as [|[k j] l IH]; intros data Hd Hl; [by rewrite app_nil_r|]. cbn [map read_items fst snd].
  destruct (Hl k j) as [H1 H2]; [left|]. rewrite H1. cbn [mbind py_bind]. rewrite H2. cbn [mbind py_bind]. rewrite relative_key_app.
  assert (dget data k = None) as Hk.
  { apply dget_None_keys. intros Hin. apply NoDup_app in Hd as (_ & Hd & _). apply (Hd k Hin). unfold dkeys. cbn. left. }
  rewrite dset_new by done. rewrite IH.
  - by rewrite <- app_assoc.
  - unfold dkeys in *. rewrite fmap_app. cbn. rewrite <- app_assoc. exact Hd.
  - intros a j' Hin. apply (Hl a j'). by right.
Qed.

Lemma restore_eq p m e : (restore_data cfg loads model p (m, e)).2 =
  Ret (match (range (full_key cfg p) (prefix_range_end (full_key cfg p)) e).2 with
       | Ret l => match read_items loads model (full_key cfg p) l [] with Ret (x :: d) => Some (x :: d) | _ => None end
       | Raise _ => None
       end).
Proof.
  unfold restore_data, get_prefix_data, mtry, mlift, mbind, M_bind. rewrite on_etcd_eq. destruct (range _ _ e).2 as [l|x]; [|done].
  by destruct (read_items _ _ _ l []) as [[|]|].
Qed.

(** The entries under a prefix when they are those of a dictionary. *)
Lemma range_of_data p data e l :
  is_text p = true → NoDup (dkeys data) →
  (∀ k v, startswith k p = true → contents e !! k = Some v ↔ ∃ a j, (a, j) ∈ data ∧ k = p +:+ "/" +:+ a ∧ v = dumps j) →
  (range p (prefix_range_end p) e).2 = Ret l →
  ∃ data', data ≡ₚ data' ∧ l = map (λ kv, (p +:+ "/" +:+ kv.1, dumps kv.2)) data'.
Proof.
  intros Hp Hd Hc Hl. destruct (range_sound _ _ _ _ Hl) as [Hperm _].
  assert (l ≡ₚ map (λ kv, (p +:+ "/" +:+ kv.1, dumps kv.2)) data) as Hpm.
  { rewrite Hperm. apply NoDup_Permutation; [apply NoDup_map_to_list| |].
    - apply (NoDup_fmap_1 fst). change (map ?f data) with (f <$> data). rewrite <- list_fmap_compose. unfold dkeys in Hd.
      replace (fst ∘ (λ kv : string * J, (p +:+ "/" +:+ kv.1, dumps kv.2)) <$> data) with ((λ k, p +:+ "/" +:+ k) <$> data.*1) by by rewrite <- list_fmap_compose.
      apply NoDup_fmap_2; [|done]. intros a b H%str_app_inj. by apply (str_app_inj "/").
    - intros [k v]. rewrite elem_of_map_to_list, map_lookup_filter_Some. cbn [fst]. rewrite range_is_prefix by done. change (map ?f data) with (f <$> data).
      rewrite list_elem_of_fmap. split.
      + intros [H1 H2]. apply Hc in H1 as (a & j & Hin & -> & ->); [|done]. by exists (a, j).
      + intros ([a j] & [= -> ->] & Hin). assert (startswith (p +:+ "/" +:+ a) p = true) as Hs by (apply startswith_iff; by eexists).
        split; [|done]. apply Hc; [done|]. by exists a, j. }
  apply Permutation_map_inv in Hpm as (data' & -> & Hpd). by exists data'.
Qed.
End persistence.

(** ** An etcd that fails

    It holds the locks of [Standby]'s and takes so many writes before it takes no more; reads
    fail from then on. *)

Record Store := mkStore { locks : Simple; kv : gmap string string; writes : nat }.
Definition on_locks {A} (f : Simple → Simple * py A) (x : Store) : Store * py A := let '(l, r) := f (locks x) in (mkStore l (kv x) (writes x), r).
Definition with_kv (x : Store) (c : gmap string string) : Store := mkStore (locks x) c (pred (writes x)).
#[global] Instance store_service : EtcdService Store := {
  lease_grant ttl := on_locks (lease_grant ttl);
  put_if_absent k l := on_locks (put_if_absent k l);
  lease_keep_alive l := on_locks (lease_keep_alive l);
  lease_revoke l := on_locks (lease_revoke l);
  tick x := mkStore (tick (locks x)) (kv x) (writes x);
  holder x := holder (locks x);
  life x := life (locks x);
  granted x := granted (locks x);
  issued x := issued (locks x)
}.
Definition by_key (a b : string * string) : Prop := String.leb a.1 b.1 = true.
#[global] Instance by_key_dec : RelDecision by_key.
Proof. intros a b. unfold by_key. apply _. Defined.
#[global] Instance by_key_total : Total by_key.
Proof. intros a b. unfold by_key. destruct (String.leb_total a.1 b.1); auto. Qed.
#[global] Instance store_store : EtcdStore Store := {
  range k e x := (x, if decide (writes x = 0%nat) then Raise RuntimeError
                     else Ret (merge_sort by_key (map_to_list (filter (λ kv, in_range k e kv.1 = true) (kv x)))));
  get_key k x := (x, if decide (writes x = 0%nat) then Raise RuntimeError else Ret (kv x !! k));
  put k v x := match writes x with O => (x, Raise RuntimeError) | _ => (with_kv x (<[k:=v]> (kv x)), Ret tt) end;
  delete_range k e x := match writes x with O => (x, Raise RuntimeError)
                        | _ => (with_kv x (filter (λ kv, in_range k e kv.1 = false) (kv x)), Ret 0) end;
  contents := kv
}.
#[global] Instance store_laws : StoreLaws Store.
Proof.
  constructor; cbn; try done.
  - intros k e x l H. case_decide; [done|]. injection H as <-. split; [apply merge_sort_Permutation|].
    apply (Sorted_merge_sort by_key).
  - intros k x v H. case_decide; [done|]. by injection H.
  - intros k v x. destruct (writes x); [right; done|by left].
  - intros k e x. destruct (writes x); [right; done|by left].
  - intros k l x _. unfold on_locks. cbn. repeat case_match; done.
Qed.

(** ** Properties *)

Section properties.
Context {E : Type} `{!EtcdService E, !EtcdStore E, !StoreLaws E} (cfg : LockConfig).
Context {J : Type} (dumps : J → string) (loads : string → py J) {A : Type} (model : J → py A).
Abbreviation etcd_sys := (Manager * E)%type.

(** What a write to etcd leaves.  Whatever fails on the way, a write of a dictionary under
    a prefix returns; the keys under the prefix are then those of a first part of the data,
    all of it if the write reports success, beside the keys from before or none of them; no
    other key is touched but those of locks.  A success does not mean that the old keys
    are gone, and a failure not that the new are not there. *)
Theorem write_outcome p data (s : etcd_sys) :
  deployed cfg = true → local_key p = true →
  ∃ s' b n deleted, persist_data cfg dumps p data s = (s', Ret b) ∧
    (n ≤ length data)%nat ∧ (b = true → n = length data) ∧
    (∀ k, startswith k (full_key cfg p) = true →
       data_of s' !! k = put_data dumps (full_key cfg p) (take n data) (if deleted : bool then ∅ else data_of s) !! k) ∧
    (∀ k, is_lock k = false → startswith k (full_key cfg p) = false → data_of s' !! k = data_of s !! k).
Proof.
  intros Hd Hp. destruct s as [m e]. destruct (persist_eq cfg dumps p data m e Hd Hp) as (s' & b & n & del & H1 & H2 & H3 & H4).
  exists s', b, n, del. split_and!; [done..| |].
  - intros k Hk. rewrite <- H2 by (eapply under_not_lock; [exact Hd| |exact Hk]; by apply andb_true_iff in Hp as [? _]). unfold written, data_of. cbn [snd].
    destruct del; [|done]. assert (∀ c c', c !! k = c' !! k → put_data dumps (full_key cfg p) (take n data) c !! k = put_data dumps (full_key cfg p) (take n data) c' !! k) as Hext.
    { induction (take n data) as [|[a v] l IH]; intros c c' Hc; [done|]. rewrite !put_data_cons. apply IH.
      destruct (decide (full_key cfg p +:+ "/" +:+ a = k)) as [<-|Hne]; [by rewrite !lookup_insert_eq|by rewrite !lookup_insert_ne]. }
    apply Hext. by rewrite without_lookup, Hk.
  - intros k Hl Hk. rewrite <- H2 by done. unfold written. rewrite put_data_other by done. destruct del; [|done]. by rewrite without_lookup, Hk.
Qed.

(** C18: what was persisted is restored.  After a write that reported success, where the keys
    under the prefix from before are among those written, and as long as nobody writes
    under the prefix, a read returns the data item by item, in the order of the keys, or
    nothing: nothing exactly when the call of etcd fails, or when there is no item. *)
Theorem persisted_is_restored p data (s s' s2 : etcd_sys) (mk : J → A) :
  deployed cfg = true → local_key p = true → NoDup (dkeys data) →
  (∀ a j, (a, j) ∈ data → loads (dumps j) = Ret j ∧ model j = Ret (mk j)) →
  (∀ k, startswith k (full_key cfg p) = true → is_Some (data_of s !! k) → ∃ a, a ∈ dkeys data ∧ k = full_key cfg p +:+ "/" +:+ a) →
  persist_data cfg dumps p data s = (s', Ret true) →
  (∀ k, startswith k (full_key cfg p) = true → data_of s2 !! k = data_of s' !! k) →
  (restore_data cfg loads model p s2).2 = Ret None ∧
    (data = [] ∨ ∃ x, (range (full_key cfg p) (prefix_range_end (full_key cfg p)) s2.2).2 = Raise x) ∨
  ∃ d, (restore_data cfg loads model p s2).2 = Ret (Some d) ∧ d ≡ₚ map (λ kv, (kv.1, mk kv.2)) data.
Proof.
  intros Hd Hp Hnd Hrt Hold Hw Hkeep. destruct s as [m e]. destruct s2 as [m2 e2]. cbn [snd].
  assert (startswith p "/" = true) as Hs by by apply andb_true_iff in Hp as [? _].
  destruct (persist_eq cfg dumps p data m e Hd Hp) as (s1 & b & n & del & H1 & H2 & H3 & H4). rewrite H1 in Hw. injection Hw as -> ->.
  specialize (H4 eq_refl). subst n. unfold written in H2. rewrite firstn_all in H2.
  rewrite restore_eq. destruct (range _ _ e2).2 as [l|x] eqn:El; [|left; split; [done|right; by eexists]].
  destruct (range_of_data dumps (full_key cfg p) data e2 l) as (data' & Hpm & ->); [by apply full_text|done| |done|].
  - intros k v Hk. specialize (Hkeep k Hk). unfold data_of in Hkeep at 1. cbn [snd] in Hkeep. rewrite Hkeep, <- H2 by by eapply under_not_lock.
    rewrite put_data_lookup by done. split; [|by left]. intros [?|[Hn Hc]]; [done|]. exfalso.
    assert (is_Some (contents e !! k)) as Hsome. { destruct del; [|by eexists]. rewrite without_lookup, Hk in Hc. done. }
    destruct (Hold k Hk Hsome) as (a & Ha & ->). apply list_elem_of_fmap in Ha as ([a' j] & -> & Hin). by apply (Hn a' j Hin).
  - rewrite (read_items_eq dumps loads model _ mk).
    + cbn [app]. destruct data' as [|x data']; cbn [map]; [left; split; [done|left; by apply Permutation_nil_r in Hpm]|]. right. eexists. split; [done|].
      by rewrite (Permutation_map _ Hpm).
    + cbn [app dkeys]. unfold dkeys in *. cbn. by rewrite <- Hpm.
    + intros a j Hin. apply (Hrt a j). by rewrite Hpm.
Qed.

(** The outcomes of a write that the managers of the controller count with.  Each keeps its
    state under one key; where it is the only key under its prefix, a write ends in one
    of the four ways of [etcd_outcome], and reports success in the last only. *)
Theorem state_write_refines p (j : J) (s : etcd_sys) :
  deployed cfg = true → local_key p = true →
  let key := full_key cfg p +:+ "/" +:+ "state" in
  (∀ k, startswith k (full_key cfg p) = true → k ≠ key → data_of s !! k = None) →
  ∃ s' b o, persist_data cfg dumps p [("state"%string, j)] s = (s', Ret b) ∧ (b = true ↔ o = EtcdStored) ∧
    data_of s' !! key = match o with EtcdLocked => data_of s !! key | EtcdLost => None | EtcdUnsure | EtcdStored => Some (dumps j) end ∧
    (∀ k, startswith k (full_key cfg p) = true → k ≠ key → data_of s' !! k = None).
Proof.
  intros Hd Hp key Hk. destruct s as [m e]. destruct (persist_eq cfg dumps p [("state"%string, j)] m e Hd Hp) as (s' & b & n & del & H1 & H2 & H3 & H4).
  assert (startswith p "/" = true) as Hs by by apply andb_true_iff in Hp as [? _].
  assert (startswith key (full_key cfg p) = true) as Hkey by (apply startswith_iff; by eexists).
  exists s', b, (if b then EtcdStored else match n, del with O, false => EtcdLocked | O, true => EtcdLost | _, _ => EtcdUnsure end).
  split; [done|]. split; [destruct b, n, del; done|]. unfold written in H2. cbn [length] in H3.
  split.
  - rewrite <- H2 by (by eapply under_not_lock). destruct n as [|[|n]]; [| |lia]; cbn [take].
    + destruct b; [by specialize (H4 eq_refl)|]. cbn. destruct del; [by rewrite without_lookup, Hkey|done].
    + rewrite put_data_cons. cbn. rewrite lookup_insert_eq. destruct b; done.
  - intros k Hu Hne. rewrite <- H2 by (by eapply under_not_lock). specialize (Hk k Hu Hne). unfold data_of in Hk. cbn [snd] in Hk.
    assert ((if del then without (full_key cfg p) (contents e) else contents e) !! k = None) as Hc by (destruct del; [by rewrite without_lookup, Hu|done]).
    destruct n as [|[|n]]; [done| |lia]. cbn [take]. rewrite put_data_cons. cbn. by rewrite lookup_insert_ne.
Qed.

(** A flag that was written is read. *)
Theorem flag_roundtrip k value dflt (s s' s2 : etcd_sys) v :
  set_bool cfg k value s = (s', Ret true) → data_of s2 !! full_key cfg k = data_of s' !! full_key cfg k →
  (get_key (full_key cfg k) s2.2).2 = Ret v → (get_bool cfg k dflt s2).2 = Ret (Some value).
Proof.
  destruct s as [m e], s2 as [m2 e2]. unfold set_bool, mtry, mbind, M_bind. rewrite on_etcd_eq.
  pose proof (put_effect (full_key cfg k) (bool_text value) e) as Hp. destruct (put _ _ e) as [e1 [[]|x]]; [|done]. intros [= <-] Hk Hv.
  unfold get_bool, mtry, mbind, M_bind. rewrite on_etcd_eq. cbn [snd] in Hv. rewrite Hv. apply get_sound in Hv. unfold data_of in Hk. cbn [snd] in Hk.
  destruct Hp as [Hp|[[=] _]]. cbn [fst] in Hp. rewrite Hk, Hp, lookup_insert_eq in Hv. subst v. by destruct value.
Qed.
End properties.

(** ** Samples *)

Definition sample_dumps (v : Z) : string := pretty.pretty v.
Definition sample_loads (t : string) : py Z := match py_int 10 t with Some z => Ret z | None => Raise ValueError end.
Definition MANAGER_KEY : string := "/controller/instance_manager".
Definition PUSHED : dict string Z := [("state"%string, 7); ("extra"%string, 8)].
Definition store_from (l : list (string * string)) (n : nat) : Manager * Store := (Manager_init, mkStore sample_etcd (list_to_map l) n).
Definition full_store : Manager * Store := store_from [("ns/job/controller/instance_manager/state", "5"); ("ns/job/controller/fault_manager/state", "6")]%string 20.

(** The prefixes of the controller's modules do not cover each other. *)
Definition MODULE_KEYS : list string := ["/controller/instance_manager"; "/controller/fault_manager"; "/controller/instance_assembler"]%string.
Example modules_apart : forallb (λ p, forallb (λ q, bool_decide (p = q) || negb (startswith p q)) MODULE_KEYS) MODULE_KEYS = true.
Proof. vm_compute. reflexivity. Qed.

(** Three writes are taken: the old data is deleted, the new stored by half. *)
Example half_written :
  let '(s', r) := persist_data sample_lock sample_dumps MANAGER_KEY PUSHED (store_from [("ns/job/controller/instance_manager/state", "5")]%string 2) in
  (r, map_to_list (data_of s')) = (Ret false, [("ns/job/controller/instance_manager/state", "7")]%string).
Proof. vm_compute. reflexivity. Qed.
(** A read that fails is an empty store. *)
Example outage_is_empty :
  ((restore_data sample_lock sample_loads (λ z, Ret z) MANAGER_KEY (store_from [("ns/job/controller/instance_manager/state", "5")]%string 0)).2,
   (restore_data sample_lock sample_loads (λ z, Ret z) MANAGER_KEY (store_from [("ns/job/controller/instance_manager/state", "5")]%string 1)).2) =
  (Ret None, Ret (Some [("state", 5)]%string)).
Proof. vm_compute. reflexivity. Qed.
(** A key whose name goes on after the prefix is taken for an entry, less a character; a lock
    of a name without a slash has the job and the name run together. *)
Example sibling_taken :
  (restore_data sample_lock sample_loads (λ z, Ret z) "/controller/instance" (store_from [("ns/job/controller/instance_manager/state", "5")]%string 9)).2 =
    Ret (Some [("manager/state", 5)]%string) ∧
  full_key sample_lock "should_report_event" = "ns/jobshould_report_event"%string.
Proof. split; vm_compute; reflexivity. Qed.

Definition write_full : (Manager * Store) * py bool := persist_data sample_lock sample_dumps MANAGER_KEY PUSHED full_store.
Lemma write_outcome_witness : data_of write_full.1 !! "ns/job/controller/fault_manager/state"%string = Some "6"%string.
Proof.
  destruct (write_outcome sample_lock sample_dumps MANAGER_KEY PUSHED full_store eq_refl eq_refl) as (s' & b & n & d & H1 & _ & _ & _ & H).
  unfold write_full. rewrite H1. cbn [fst]. rewrite H by reflexivity. vm_compute. reflexivity.
Defined.
Lemma persisted_is_restored_witness :
  (restore_data sample_lock sample_loads (λ z, Ret z) MANAGER_KEY write_full.1).2 = Ret (Some [("extra", 8); ("state", 7)]%string) ∧
  ∃ d, (restore_data sample_lock sample_loads (λ z, Ret z) MANAGER_KEY write_full.1).2 = Ret (Some d) ∧ d ≡ₚ map (λ kv, (kv.1, kv.2)) PUSHED.
Proof.
  split; [vm_compute; reflexivity|].
  destruct (persisted_is_restored sample_lock sample_dumps sample_loads (λ z, Ret z) MANAGER_KEY PUSHED full_store write_full.1 write_full.1 (λ z, z)) as [[H _]|H];
    [reflexivity|reflexivity| | | |vm_compute; reflexivity|done| |exact H].
  - apply (bool_decide_unpack _). vm_compute. exact I.
  - intros a j [[= -> ->]|[[= -> ->]|[]%elem_of_nil]%elem_of_cons]%elem_of_cons; split; reflexivity.
  - intros k Hk [v Hv]. unfold full_store, store_from, data_of in Hv. cbn [snd contents store_store kv] in Hv. apply elem_of_list_to_map_2 in Hv.
    rewrite !elem_of_cons in Hv. destruct Hv as [[= -> _]|[[= -> _]|[]%elem_of_nil]]; [|done]. exists "state"%string. split; [by left|reflexivity].
  - exfalso. revert H. vm_compute. discriminate.
Defined.
