(* ===== verification/LogFiles.v ===== *)
(** * Rotated log files

    Models [common/logger/logger_handler.py]: a log that is rotated, compressed by a thread and
    cleaned up by another.  The directory is a map from names to files; the text of the time,
    the times of modification and how a compression ends are arguments. *)

From stdpp Require Import base option list strings pretty gmap sorting.
From Stdlib Require Import ZArith Lia Ascii.
From S2P Require Import Prelude PyText.
Open Scope Z_scope.

(** ** State *)

(** A file: its lines, whether it is compressed, the time of its last modification. *)
Record LogFile := mkFile { lines : list string; is_gz : bool; mtime : Z }.
Abbreviation directory := (gmap string LogFile).

Record LogConfig := mkLogConfig {
  base : string;
  backup_count : nat;
  compress : bool;
  max_total_size : Z;
  keep_uncompressed_count : nat
}.

Record LogHandler := mkLog {
  files : directory;
  compress_queue : list string;
  (** the file the compression thread has taken from its queue *)
  compressing : option string;
  cleanup_queue : list string;
  (** what was logged, and what the files had that were removed for their age *)
  emitted : list string;
  removed : list string
}.

Inductive gzip_outcome := GzDone | GzEmpty | GzFails.

Section handler.
Context (c : LogConfig) (file_size : LogFile → Z).

Definition with_files d (s : LogHandler) := mkLog d (compress_queue s) (compressing s) (cleanup_queue s) (emitted s) (removed s).
Definition with_compress q o (s : LogHandler) := mkLog (files s) q o (cleanup_queue s) (emitted s) (removed s).
Definition with_cleanup q (s : LogHandler) := mkLog (files s) (compress_queue s) (compressing s) q (emitted s) (removed s).
Definition log_line x (s : LogHandler) := mkLog (files s) (compress_queue s) (compressing s) (cleanup_queue s) (emitted s ++ [x]) (removed s).
Definition log_removed l (s : LogHandler) := mkLog (files s) (compress_queue s) (compressing s) (cleanup_queue s) (emitted s) (removed s ++ l).

(** ** Names *)

Definition ends_in (s suffix : string) : bool := startswith (of_chars (rev (chars s))) (of_chars (rev (chars suffix))).
Definition stem : string :=
  if ends_in (base c) ".log" then of_chars (take (length (chars (base c)) - 4) (chars (base c))) else base c.
Definition backup (i : nat) : string := base c +:+ "." +:+ pretty i.
Definition backup_file_new_name (timestamp : string) : string := stem +:+ "_" +:+ timestamp +:+ ".log".

(** ** Clean-up *)

Record FileInfo := mkInfo { path : string; size : Z; fi_mtime : Z; fi_compressed : bool }.
#[export] Instance FileInfo_eq_dec : EqDecision FileInfo.
Proof. solve_decision. Defined.
Definition info_of (kv : string * LogFile) : FileInfo := mkInfo kv.1 (file_size kv.2) (mtime kv.2) (ends_in kv.1 ".gz").
(** [_get_all_related_files] *)
Definition is_related (k : string) : bool := startswith k stem && negb (bool_decide (k = base c)).
Definition get_all_related_files (d : directory) : list FileInfo := map info_of (List.filter (λ kv, is_related kv.1) (map_to_list d)).

Definition newer (a b : FileInfo) : Prop := fi_mtime b <= fi_mtime a.
#[export] Instance newer_dec : RelDecision newer.
Proof. intros a b. unfold newer. apply _. Defined.
Definition sum_size (l : list FileInfo) : Z := fold_right (λ f n, size f + n) 0 l.

(** The loop over the files: those that are kept, in the order they were taken, and the others. *)
Fixpoint choose (all : list FileInfo) (keep : list FileInfo) (current_total : Z) : list FileInfo * list FileInfo :=
  match all with
  | [] => (keep, [])
  | f :: all =>
      if bool_decide (f ∈ keep) then choose all keep current_total
      else if (max_total_size c <? current_total + size f) || (backup_count c <=? length keep)%nat then
        let '(k, cand) := choose all keep current_total in (k, f :: cand)
      else choose all (keep ++ [f]) (current_total + size f)
  end.
Definition newest_uncompressed (all : list FileInfo) : list FileInfo :=
  take (keep_uncompressed_count c) (merge_sort newer (List.filter (λ f, negb (fi_compressed f)) all)).
Definition cleanup_candidates (all : list FileInfo) : list FileInfo :=
  if (sum_size all <=? max_total_size c) && (length all <=? backup_count c)%nat then []
  else
    let sorted := merge_sort newer all in
    let keep := newest_uncompressed sorted in
    (choose sorted keep (sum_size keep)).2.
Definition perform_cleanup (s : LogHandler) : LogHandler :=
  with_cleanup (cleanup_queue s ++ map path (cleanup_candidates (get_all_related_files (files s)))) s.

Definition remove_file (s : LogHandler) (p : string) : LogHandler :=
  match files s !! p with Some f => log_removed (lines f) (with_files (delete p (files s)) s) | None => s end.
Definition process_cleanup_queue (s : LogHandler) : LogHandler := with_cleanup [] (fold_left remove_file (cleanup_queue s) s).

(** ** Rotation *)

Definition move (src dst : string) (d : directory) : directory :=
  match d !! src with Some f => <[dst := f]> (delete src d) | None => d end.
Fixpoint shift (i : nat) (d : directory) : directory :=
  match i with O => d | S j => shift j (move (backup i) (backup (S i)) d) end.
(** [RotatingFileHandler.doRollover] *)
Definition super_doRollover (now : Z) (d : directory) : directory :=
  let d := match backup_count c with
           | O => d
           | S n => let d := delete (backup 1) (shift n d) in move (base c) (backup 1) d
           end in
  match d !! base c with Some _ => d | None => <[base c := mkFile [] false now]> d end.
(** The first backup gets the time in its name. *)
Fixpoint rename_first (n i : nat) (new_name : string) (s : LogHandler) : LogHandler :=
  match n with
  | O => s
  | S n =>
      match files s !! backup i with
      | Some _ =>
          let s := with_files (move (backup i) new_name (files s)) s in
          if compress c then with_compress (compress_queue s ++ [new_name]) (compressing s) s else s
      | None => rename_first n (S i) new_name s
      end
  end.
Definition doRollover (now : Z) (timestamp : string) (s : LogHandler) : LogHandler :=
  let s := with_files (super_doRollover now (files s)) s in
  perform_cleanup (rename_first (backup_count c) 1 (backup_file_new_name timestamp) s).

(** ** Compression *)

(** [os.path.splitext] of a name that ends in ".gz", and the next name to try. *)
Definition name_without_ext (p : string) : string := of_chars (take (length (chars p) - 3) (chars p)).
Fixpoint free_name (fuel : nat) (counter : nat) (p : string) (d : directory) : option string :=
  match d !! p with
  | None => Some p
  | Some _ =>
      match fuel with
      | O => None
      | S fuel => free_name fuel (S counter) (name_without_ext p +:+ "_" +:+ pretty counter +:+ ".gz") d
      end
  end.
Definition get_compressed_filename (p : string) : string := p +:+ ".gz".

Definition compress_file (o : gzip_outcome) (now : Z) (p : string) (d : directory) : directory :=
  match d !! p with
  | None => d
  | Some f =>
      match free_name (map_size d) 1 (get_compressed_filename p) d with
      | None => d
      | Some q =>
          match o with
          | GzDone => delete p (<[q := mkFile (lines f) true now]> d)
          | GzEmpty => d
          | GzFails => <[q := mkFile [] true now]> d
          end
      end
  end.

(** [_process_compress_queue]: the file is taken under the lock, and compressed outside it. *)
Definition take_compress (s : LogHandler) : LogHandler :=
  match compressing s, compress_queue s with None, p :: q => with_compress q (Some p) s | _, _ => s end.
Definition do_compress (o : gzip_outcome) (now : Z) (s : LogHandler) : LogHandler :=
  match compressing s with
  | Some p => with_files (compress_file o now p (files s)) (with_compress (compress_queue s) None s)
  | None => s
  end.

Definition emit (now : Z) (x : string) (s : LogHandler) : LogHandler :=
  log_line x (with_files (alter (λ f, mkFile (lines f ++ [x]) (is_gz f) now) (base c) (files s)) s).

(** [_cleanup_worker]: [due]: the interval is over. *)
Definition cleanup_worker (due : bool) (s : LogHandler) : LogHandler :=
  process_cleanup_queue (if due then perform_cleanup s else s).
Definition close (o : string → gzip_outcome) (now : Z) (s : LogHandler) : LogHandler :=
  process_cleanup_queue (with_compress [] (compressing s)
    (with_files (fold_left (λ d p, compress_file (o p) now p d) (compress_queue s) (files s)) s)).

Definition LogHandler_init (d : directory) (now : Z) : LogHandler :=
  perform_cleanup (mkLog (match d !! base c with Some _ => d | None => <[base c := mkFile [] false now]> d end) [] None [] [] []).

Inductive log_op :=
| OEmit (now : Z) (x : string)
| ORollover (now : Z) (timestamp : string)
| OTakeCompress
| OCompress (o : gzip_outcome) (now : Z)
| OCleanup (due : bool)
| OClose (o : string → gzip_outcome) (now : Z).
Definition log_step (s : LogHandler) (o : log_op) : LogHandler :=
  match o with
  | OEmit now x => emit now x s
  | ORollover now ts => doRollover now ts s
  | OTakeCompress => take_compress s
  | OCompress o now => do_compress o now s
  | OCleanup due => cleanup_worker due s
  | OClose o now => close o now s
  end.
End handler.

(** ** Lemmas *)

Lemma string_chars s t : chars s = chars t → s = t.
Proof. intros H. by rewrite <- (of_chars_chars s), H, of_chars_chars. Qed.
Lemma startswith_chars s p : startswith s p = true ↔ ∃ r, chars s = chars p ++ r.
Proof.
  unfold startswith. revert s. induction p as [|a p IH]; intros s; [split; [by exists (chars s)|by destruct s]|].
  destruct s as [|b s]; cbn [String.prefix]; [split; [done|by intros [r [=]]]|].
  change (chars (String b s)) with (b :: chars s). change (chars (String a p)) with (a :: chars p). destruct (Ascii.ascii_dec a b) as [<-|Hne].
  - rewrite IH. split; intros [r H]; exists r; [by rewrite H|by injection H].
  - split; [done|]. intros [r H]. injection H as -> _. done.
Qed.
Lemma ends_in_chars s p : ends_in s p = true ↔ ∃ r, chars s = r ++ chars p.
Proof.
  unfold ends_in. rewrite startswith_chars, !chars_of_chars. split; intros [r H].
  - exists (rev r). apply (f_equal (@rev _)) in H. by rewrite rev_involutive, rev_app_distr, rev_involutive in H.
  - exists (rev r). by rewrite H, rev_app_distr.
Qed.

(** *** Free names *)

Definition len (s : string) : nat := length (chars s).
Definition longer (n : nat) (d : directory) : nat := length (List.filter (λ k, n <=? len k)%nat (map fst (map_to_list d))).
Lemma longer_drop n m p f d : d !! p = Some f → (n ≤ len p < m)%nat → (longer m d < longer n d)%nat.
Proof.
  intros Hp Hn. unfold longer. assert (p ∈ map fst (map_to_list d)) as Hin.
  { change (map fst ?l) with (fst <$> l). apply list_elem_of_fmap. exists (p, f). split; [done|]. by apply elem_of_map_to_list. }
  induction (map fst (map_to_list d)) as [|k l IH]; [by apply elem_of_nil in Hin|]. cbn [List.filter].
  assert (length (List.filter (λ k, m <=? len k)%nat l) ≤ length (List.filter (λ k, n <=? len k)%nat l))%nat as Hle.
  { clear IH Hin. induction l as [|k' l IH]; [done|]. cbn [List.filter]. destruct (m <=? len k')%nat eqn:E1, (n <=? len k')%nat eqn:E2; cbn; try lia.
    apply Nat.leb_le in E1. apply Nat.leb_gt in E2. lia. }
  apply elem_of_cons in Hin as [<-|Hin].
  - rewrite (proj2 (Nat.leb_gt _ _)), (proj2 (Nat.leb_le _ _)) by lia. cbn. lia.
  - specialize (IH Hin). destruct (m <=? len k)%nat eqn:E1, (n <=? len k)%nat eqn:E2; cbn; try lia.
    apply Nat.leb_le in E1. apply Nat.leb_gt in E2. lia.
Qed.
Lemma longer_size n d : (longer n d ≤ map_size d)%nat.
Proof. unfold longer. etransitivity; [apply List.filter_length_le|]. by rewrite length_map, length_map_to_list. Qed.
Lemma next_longer p (n : nat) : (len p < len (name_without_ext p +:+ "_" +:+ pretty n +:+ ".gz"))%nat.
Proof. unfold len, name_without_ext. rewrite !chars_app, !length_app, chars_of_chars, length_take. cbn. lia. Qed.

Lemma free_name_enough d : ∀ fuel n p, (longer (len p) d ≤ fuel)%nat → ∃ q, free_name fuel n p d = Some q ∧ d !! q = None.
Proof.
  induction fuel as [|fuel IH]; intros n p Hf; cbn [free_name]; (destruct (d !! p) as [f|] eqn:E; [|by exists p]).
  - exfalso. assert (longer (S (len p)) d < longer (len p) d)%nat; [eapply longer_drop; [exact E|lia]|lia].
  - apply IH. pose proof (next_longer p n) as Hl. assert (longer (len (name_without_ext p +:+ "_" +:+ pretty n +:+ ".gz")) d < longer (len p) d)%nat; [|lia].
    eapply longer_drop; [exact E|]. lia.
Qed.
Lemma free_name_prefix d x : ∀ fuel n q y, free_name fuel n (x +:+ y +:+ ".gz") d = Some q → ∃ r, q = x +:+ r.
Proof.
  induction fuel as [|fuel IH]; intros n q y; cbn [free_name]; (destruct (d !! _); [|intros [= <-]; by eexists]); [done|].
  assert (name_without_ext (x +:+ y +:+ ".gz") = x +:+ y) as ->.
  { apply string_chars. unfold name_without_ext. rewrite chars_of_chars, !chars_app, !length_app. cbn.
    rewrite app_assoc. replace (length (chars x) + (length (chars y) + 3) - 3)%nat with (length (chars x ++ chars y)) by (rewrite length_app; lia). by rewrite take_app_length. }
  intros H. apply (IH (S n) q (y +:+ "_" +:+ pretty n)). by rewrite !str_app_assoc in *.
Qed.

Section properties.
Context (c : LogConfig) (file_size : LogFile → Z).

(** *** Names *)

(** The names the handler gives to rotated and compressed files. *)
Definition own_name (k : string) : Prop := ∃ r, k = stem c +:+ "_" +:+ r.
Lemma base_stem : base c = stem c ∨ base c = stem c +:+ ".log".
Proof.
  unfold stem. destruct (ends_in (base c) ".log") eqn:E; [|by left]. right. apply ends_in_chars in E as [r Hr]. apply string_chars.
  rewrite chars_app, chars_of_chars, Hr, length_app. cbn. replace (length r + 4 - 4)%nat with (length r) by lia. by rewrite take_app_length.
Qed.
Lemma own_not_base r : stem c +:+ "_" +:+ r ≠ base c.
Proof.
  intros H. apply (f_equal chars) in H. rewrite !chars_app in H. destruct base_stem as [Hb|Hb]; rewrite Hb, ?chars_app in H.
  - apply (f_equal length) in H. rewrite !length_app in H. cbn in H. lia.
  - apply app_inv_head in H. done.
Qed.
Lemma own_not_backup r i : stem c +:+ "_" +:+ r ≠ backup c i.
Proof.
  unfold backup. intros H. apply (f_equal chars) in H. rewrite !chars_app in H. destruct base_stem as [Hb|Hb]; rewrite Hb, ?chars_app, <- ?app_assoc in H; by apply app_inv_head in H.
Qed.
Lemma base_not_backup i : base c ≠ backup c i.
Proof. unfold backup. intros H. apply (f_equal (λ s, length (chars s))) in H. rewrite !chars_app, !length_app in H. cbn in H. lia. Qed.
Lemma new_name_own ts : own_name (backup_file_new_name c ts).
Proof. exists (ts +:+ ".log"). done. Qed.

(** *** What the clean-up chooses *)

Lemma choose_split all : ∀ keep n k cand, choose c all keep n = (k, cand) →
  (∀ f, f ∈ cand → f ∈ all) ∧ (∀ f, f ∈ all → f ∈ k ∨ f ∈ cand) ∧ (∃ l, k = keep ++ l ∧ (∀ f, f ∈ l → f ∈ all)).
Proof.
  induction all as [|f all IH]; intros keep n k cand; cbn [choose].
  - intros [= <- <-]. split_and!; [done|by intros f ?%elem_of_nil|]. exists []. split; [by rewrite app_nil_r|by intros f ?%elem_of_nil].
  - case_bool_decide as Hin; [|destruct (_ || _)%bool].
    + intros (H1 & H2 & l & -> & H3)%IH. split_and!.
      * intros g Hg. right. by apply H1.
      * intros g [->|Hg]%elem_of_cons; [left; apply elem_of_app; by left|by apply H2].
      * exists l. split; [done|]. intros g Hg. right. by apply H3.
    + destruct (choose c all keep n) as [k' cand'] eqn:E. intros [= <- <-]. apply IH in E as (H1 & H2 & l & -> & H3). split_and!.
      * intros g [->|Hg]%elem_of_cons; [left|right; by apply H1].
      * intros g [->|Hg]%elem_of_cons; [right; left|]. destruct (H2 g Hg); [by left|right; by right].
      * exists l. split; [done|]. intros g Hg. right. by apply H3.
    + intros (H1 & H2 & l & -> & H3)%IH. split_and!.
      * intros g Hg. right. by apply H1.
      * intros g [->|Hg]%elem_of_cons; [|by apply H2]. left. apply elem_of_app. left. apply elem_of_app. right. left.
      * exists (f :: l). rewrite <- app_assoc. split; [done|]. intros g [->|Hg]%elem_of_cons; [left|right; by apply H3].
Qed.
Lemma sum_size_cons f l : sum_size (f :: l) = size f + sum_size l.
Proof. done. Qed.
Lemma sum_size_app l1 l2 : sum_size (l1 ++ l2) = sum_size l1 + sum_size l2.
Proof. induction l1 as [|f l IH]; [done|]. cbn [app]. rewrite !sum_size_cons, IH. lia. Qed.
Lemma choose_limits all : ∀ keep n k cand, n = sum_size keep → choose c all keep n = (k, cand) →
  sum_size k <= Z.max (max_total_size c) (sum_size keep) ∧ (length k ≤ max (backup_count c) (length keep))%nat.
Proof.
  induction all as [|f all IH]; intros keep n k cand Hn; cbn [choose].
  - intros [= <- <-]. lia.
  - case_bool_decide as Hin; [by apply IH|]. destruct ((_ <? _) || _) eqn:E.
    + destruct (choose c all keep n) as [k' cand'] eqn:Ec. intros [= <- <-]. by apply (IH keep n k' cand').
    + apply orb_false_iff in E as [E1%Z.ltb_ge E2%Nat.leb_gt]. intros [H1 H2]%IH; [|rewrite sum_size_app, Hn; cbn; lia].
      rewrite sum_size_app in H1. rewrite length_app in H2. cbn in H1, H2. lia.
Qed.
Lemma candidates_in all f : f ∈ cleanup_candidates c all → f ∈ all.
Proof.
  unfold cleanup_candidates. destruct (_ && _); [by intros ?%elem_of_nil|].
  destruct (choose c _ _ _) as [k cand] eqn:E. apply choose_split in E as (H1 & _). cbn [snd]. intros Hf%H1. by rewrite merge_sort_Permutation in Hf.
Qed.
Lemma related_in d f : f ∈ get_all_related_files c file_size d ↔ ∃ k g, d !! k = Some g ∧ is_related c k = true ∧ f = info_of file_size (k, g).
Proof.
  unfold get_all_related_files. change (map ?h ?l) with (h <$> l). rewrite list_elem_of_fmap. split.
  - intros ([k g] & -> & Hin). apply list_elem_of_In, filter_In in Hin as [Hin Hr]. apply list_elem_of_In, elem_of_map_to_list in Hin. by exists k, g.
  - intros (k & g & Hd & Hr & ->). exists (k, g). split; [done|]. apply list_elem_of_In, filter_In. split; [|done]. by apply list_elem_of_In, elem_of_map_to_list.
Qed.
Lemma base_not_candidate d : base c ∉ map path (cleanup_candidates c (get_all_related_files c file_size d)).
Proof.
  change (map ?h ?l) with (h <$> l). intros (f & Hp & Hf%candidates_in)%list_elem_of_fmap. apply related_in in Hf as (k & g & _ & Hr & ->).
  cbn in Hp. subst k. unfold is_related in Hr. rewrite bool_decide_true in Hr by done. by rewrite andb_false_r in Hr.
Qed.

(** *** The invariant *)

(** A line that is in a file, or was in a file that the clean-up removed. *)
Definition in_files (x : string) (d : directory) : Prop := ∃ p f, d !! p = Some f ∧ x ∈ lines f.
Definition kept (x : string) (s : LogHandler) : Prop := x ∈ removed s ∨ in_files x (files s).
Definition taken (s : LogHandler) : list string := compress_queue s ++ match compressing s with Some p => [p] | None => [] end.

Record log_inv (s : LogHandler) : Prop := {
  li_base : is_Some (files s !! base c);
  li_backup : ∀ i, (1 ≤ i ≤ backup_count c)%nat → files s !! backup c i = None;
  li_taken : Forall own_name (taken s);
  li_cleanup : base c ∉ cleanup_queue s;
  li_kept : ∀ x, x ∈ emitted s → kept x s
}.

Lemma log_inv_cleanup s : log_inv s → log_inv (perform_cleanup c file_size s).
Proof.
  intros [H1 H2 H3 H4 H5]. constructor; try done. cbn. intros [H|H]%elem_of_app; [done|]. by apply base_not_candidate in H.
Qed.

Lemma remove_file_inv s p : p ≠ base c → log_inv s → log_inv (remove_file s p) ∧ cleanup_queue (remove_file s p) = cleanup_queue s.
Proof.
  intros Hp Hs. unfold remove_file. destruct (files s !! p) as [f|] eqn:E; [|done]. split; [|done]. destruct Hs as [H1 H2 H3 H4 H5]. constructor; cbn; try done.
  - by rewrite lookup_delete_ne.
  - intros i Hi. apply lookup_delete_None. right. by apply H2.
  - intros x Hx. unfold kept. cbn. destruct (H5 x Hx) as [Hr|(q & g & Hq & Hg)]; [left; apply elem_of_app; by left|]. destruct (decide (q = p)) as [->|Hne].
    + left. apply elem_of_app. right. rewrite E in Hq. by injection Hq as ->.
    + right. exists q, g. by rewrite lookup_delete_ne.
Qed.
Lemma remove_files_inv l : ∀ s, base c ∉ l → log_inv s → log_inv (fold_left remove_file l s) ∧ cleanup_queue (fold_left remove_file l s) = cleanup_queue s.
Proof.
  induction l as [|p l IH]; intros s Hl Hs; [done|]. apply not_elem_of_cons in Hl as [Hp Hl]. cbn [fold_left].
  destruct (remove_file_inv s p) as [Ha Hb]; [done..|]. rewrite <- Hb. by apply IH.
Qed.
Lemma process_inv s : log_inv s → log_inv (process_cleanup_queue s).
Proof.
  intros Hs. destruct (remove_files_inv (cleanup_queue s) s) as [[H1 H2 H3 H4 H5] _]; [by apply li_cleanup|done|].
  constructor; cbn; try done. by intros ?%elem_of_nil.
Qed.

Lemma compress_file_inv o now p d :
  own_name p → is_Some (d !! base c) → (∀ i, (1 ≤ i ≤ backup_count c)%nat → d !! backup c i = None) →
  let d' := compress_file o now p d in
  is_Some (d' !! base c) ∧ (∀ i, (1 ≤ i ≤ backup_count c)%nat → d' !! backup c i = None) ∧ ∀ x, in_files x d → in_files x d'.
Proof.
  intros [r ->] Hb Hk. cbv zeta. unfold compress_file. set (p := stem c +:+ "_" +:+ r). destruct (d !! p) as [f|] eqn:Ep; [|done].
  destruct (free_name_enough d (map_size d) 1 (get_compressed_filename p)) as (q & Hq & Hn); [apply longer_size|]. rewrite Hq.
  assert (∃ y, q = stem c +:+ "_" +:+ y) as [y ->].
  { unfold p, get_compressed_filename in Hq. rewrite <- (str_app_assoc (stem c)), str_app_assoc in Hq. destruct (free_name_prefix _ _ _ _ _ _ Hq) as [y ->].
    exists y. by rewrite str_app_assoc. }
  assert (∀ z i, stem c +:+ "_" +:+ z ≠ backup c i) as Hbk by (intros; apply own_not_backup).
  assert (∀ z, stem c +:+ "_" +:+ z ≠ base c) as Hbs by (intros; apply own_not_base). destruct o; [|done|]; split_and!.
  - rewrite lookup_delete_ne by apply Hbs. by rewrite lookup_insert_ne by apply Hbs.
  - intros i Hi. rewrite lookup_delete_ne by apply Hbk. rewrite lookup_insert_ne by apply Hbk. by apply Hk.
  - intros x (k & g & Hg & Hx). destruct (decide (k = p)) as [->|Hne].
    + rewrite Ep in Hg. injection Hg as ->. exists (stem c +:+ "_" +:+ y), (mkFile (lines g) true now). split; [|done].
      rewrite lookup_delete_ne; [by rewrite lookup_insert_eq|]. intros H. rewrite <- H, Ep in Hn. done.
    + exists k, g. split; [|done]. rewrite lookup_delete_ne, lookup_insert_ne; [done| |done]. intros H. rewrite H, Hg in Hn. done.
  - by rewrite lookup_insert_ne by apply Hbs.
  - intros i Hi. rewrite lookup_insert_ne by apply Hbk. by apply Hk.
  - intros x (k & g & Hg & Hx). exists k, g. split; [|done]. rewrite lookup_insert_ne; [done|]. intros H. rewrite H, Hg in Hn. done.
Qed.
Lemma do_compress_inv o now s : log_inv s → log_inv (do_compress o now s).
Proof.
  intros [H1 H2 H3 H4 H5]. unfold do_compress. unfold taken in H3. destruct (compressing s) as [p|] eqn:E; [|by constructor; unfold taken; rewrite ?E].
  apply Forall_app in H3 as [H3 Hp]. apply Forall_inv in Hp. destruct (compress_file_inv o now p (files s) Hp H1 H2) as (Ha & Hb & Hc).
  constructor; cbn; try done; [by apply Forall_app|]. intros x Hx. destruct (H5 x Hx) as [?|?]; [by left|right; by apply Hc].
Qed.
Lemma take_compress_inv s : log_inv s → log_inv (take_compress s).
Proof.
  intros [H1 H2 H3 H4 H5]. unfold take_compress. destruct (compressing s) as [p|] eqn:E; [by constructor|]. destruct (compress_queue s) as [|q l] eqn:Eq; [by constructor|].
  constructor; try done. unfold taken in *. cbn. rewrite E, Eq in H3. apply Forall_app. apply Forall_app in H3 as [H3 _].
  apply Forall_cons in H3 as [Hq Hl]. split; [done|by apply Forall_singleton].
Qed.
Lemma close_inv o now s : log_inv s → log_inv (close o now s).
Proof.
  intros [H1 H2 H3 H4 H5]. apply process_inv. unfold taken in H3. apply Forall_app in H3 as [H3 H3'].
  assert (let d' := fold_left (λ d p, compress_file (o p) now p d) (compress_queue s) (files s) in
    is_Some (d' !! base c) ∧ (∀ i, (1 ≤ i ≤ backup_count c)%nat → d' !! backup c i = None) ∧ ∀ x, in_files x (files s) → in_files x d') as (Ha & Hb & Hc).
  { clear H4 H5 H3'. revert H1 H2. generalize (files s) as d. induction (compress_queue s) as [|p l IH]; intros d H1 H2; [done|]. apply Forall_cons in H3 as [Hp Hl].
    cbn [fold_left]. destruct (compress_file_inv (o p) now p d Hp H1 H2) as (Ha & Hb & Hc). destruct (IH Hl _ Ha Hb) as (Ha' & Hb' & Hc'). split_and!; [done..|]. auto. }
  constructor; cbn; try done. intros x Hx. destruct (H5 x Hx) as [?|?]; [by left|right; by apply Hc].
Qed.
Lemma emit_inv now x s : log_inv s → log_inv (emit c now x s).
Proof.
  intros [H1 H2 H3 H4 H5]. unfold emit. constructor; try done; cbn.
  - destruct H1 as [f H1]. rewrite lookup_alter_eq, H1. by eexists.
  - intros i Hi. rewrite lookup_alter_ne by apply base_not_backup. by apply H2.
  - intros y [Hy|Hy]%elem_of_app; unfold kept; cbn.
    + destruct (H5 y Hy) as [?|(p & f & Hp & Hf)]; [by left|]. right. destruct (decide (p = base c)) as [->|Hne].
      * exists (base c), (mkFile (lines f ++ [x]) (is_gz f) now). rewrite lookup_alter_eq, Hp. split; [done|]. cbn. apply elem_of_app. by left.
      * exists p, f. by rewrite lookup_alter_ne.
    + apply list_elem_of_singleton in Hy as ->. right. destruct H1 as [f H1]. exists (base c), (mkFile (lines f ++ [x]) (is_gz f) now).
      rewrite lookup_alter_eq, H1. split; [done|]. cbn. apply elem_of_app. right. by left.
Qed.

(** *** Rotation *)

Lemma shift_id n d : (∀ i, (1 ≤ i ≤ n)%nat → d !! backup c i = None) → shift c n d = d.
Proof.
  induction n as [|n IH]; intros Hd; [done|]. cbn [shift]. unfold move. rewrite Hd by lia. apply IH. intros i Hi. apply Hd. lia.
Qed.
(** Without backups a rotation moves the log away; [rename_first] then gives it its name. *)
Lemma rollover_files now ts s f n : backup_count c = S n →
  files s !! base c = Some f → (∀ i, (1 ≤ i ≤ backup_count c)%nat → files s !! backup c i = None) →
  let d := <[base c := mkFile [] false now]> (<[backup c 1 := f]> (delete (base c) (files s))) in
  super_doRollover c now (files s) = d ∧
  files (rename_first c (backup_count c) 1 (backup_file_new_name c ts) (with_files d s)) = <[backup_file_new_name c ts := f]> (delete (backup c 1) d).
Proof.
  intros Hn Hf Hk d. rewrite Hn in Hk. unfold super_doRollover. rewrite Hn. split.
  - rewrite shift_id by (intros i Hi; apply Hk; lia). rewrite delete_id by (apply Hk; lia). unfold move. rewrite Hf.
    rewrite lookup_insert_ne by (intros H; by apply (base_not_backup 1)). by rewrite lookup_delete_eq.
  - cbn [rename_first]. assert (d !! backup c 1 = Some f) as Hb by (unfold d; rewrite lookup_insert_ne by apply base_not_backup; by rewrite lookup_insert_eq).
    change (files (with_files d s)) with d. rewrite Hb. unfold move. change (files (with_files d s)) with d. rewrite Hb. by destruct (compress c).
Qed.
Lemma rename_first_rest n ts : ∀ i s,
  let s' := rename_first c n i (backup_file_new_name c ts) s in
  emitted s' = emitted s ∧ removed s' = removed s ∧ cleanup_queue s' = cleanup_queue s ∧ (Forall own_name (taken s) → Forall own_name (taken s')).
Proof.
  induction n as [|n IH]; intros i s; [done|]. cbn [rename_first]. destruct (files s !! backup c i); [|apply IH].
  destruct (compress c); [|done]. split_and!; try done. unfold taken. cbn. intros H. apply Forall_app in H as [H1 H2]. rewrite !Forall_app. split_and!; [done| |done].
  apply Forall_singleton, new_name_own.
Qed.
Lemma rollover_inv now ts s : files s !! backup_file_new_name c ts = None → log_inv s → log_inv (doRollover c file_size now ts s).
Proof.
  intros Hfresh [H1 H2 H3 H4 H5]. apply log_inv_cleanup. destruct H1 as [f Hf].
  set (s1 := with_files (super_doRollover c now (files s)) s).
  destruct (rename_first_rest (backup_count c) ts 1 s1) as (E1 & E2 & E3 & E4). destruct (backup_count c) as [|n] eqn:En.
  - assert (s1 = s) as -> by (unfold s1, super_doRollover; rewrite En, Hf; by destruct s). constructor; [by eexists|intros i Hi; lia|done..].
  - destruct (rollover_files now ts s f n En Hf) as [R1 R2]; [by rewrite En|]. rewrite En in R2. unfold s1 in *. rewrite R1 in *. set (nn := backup_file_new_name c ts) in *.
    set (d := <[base c := mkFile [] false now]> _) in *. set (s2 := rename_first c (S n) 1 nn (with_files d s)) in *.
    assert (nn ≠ base c) as Hnb by (unfold nn, backup_file_new_name; apply own_not_base).
    assert (∀ i, nn ≠ backup c i) as Hnk by (intros i; unfold nn, backup_file_new_name; apply own_not_backup).
    constructor; rewrite ?R2, ?E1, ?E2, ?E3; auto.
    + rewrite lookup_insert_ne by done. rewrite lookup_delete_ne by (intros H; by apply (base_not_backup 1)). unfold d. rewrite lookup_insert_eq. by eexists.
    + intros i Hi. rewrite lookup_insert_ne by apply Hnk. apply lookup_delete_None. destruct (decide (backup c 1 = backup c i)) as [?|Hne]; [by left|right].
      unfold d. rewrite lookup_insert_ne by apply base_not_backup. rewrite lookup_insert_ne by done. rewrite lookup_delete_ne by apply base_not_backup. apply H2. rewrite En in Hi. lia.
    + intros x Hx. unfold kept. rewrite E2, R2. destruct (H5 x Hx) as [?|(p & g & Hp & Hg)]; [by left|right]. destruct (decide (p = base c)) as [->|Hne].
      * rewrite Hf in Hp. injection Hp as <-. exists nn, f. by rewrite lookup_insert_eq.
      * exists p, g. split; [|done]. rewrite lookup_insert_ne by (intros <-; by rewrite Hfresh in Hp).
        assert (backup c 1 ≠ p) as Hb1 by (intros <-; rewrite H2 in Hp by lia; done). rewrite lookup_delete_ne by done. unfold d. by rewrite !lookup_insert_ne, lookup_delete_ne.
Qed.

(** A rotation whose name is not taken. *)
Definition op_fresh (s : LogHandler) (o : log_op) : bool :=
  match o with ORollover _ ts => bool_decide (files s !! backup_file_new_name c ts = None) | _ => true end.
Lemma log_step_inv s o : op_fresh s o = true → log_inv s → log_inv (log_step c file_size s o).
Proof.
  intros Ho Hs. destruct o; cbn [log_step].
  - by apply emit_inv.
  - apply rollover_inv; [|done]. by apply bool_decide_eq_true in Ho.
  - by apply take_compress_inv.
  - by apply do_compress_inv.
  - unfold cleanup_worker. destruct due; apply process_inv; [by apply log_inv_cleanup|done].
  - by apply close_inv.
Qed.
Fixpoint ops_fresh (s : LogHandler) (l : list log_op) : bool :=
  match l with [] => true | o :: l => op_fresh s o && ops_fresh (log_step c file_size s o) l end.
Definition log_run (s : LogHandler) (l : list log_op) : LogHandler := fold_left (log_step c file_size) l s.
Lemma log_run_inv l : ∀ s, ops_fresh s l = true → log_inv s → log_inv (log_run s l).
Proof.
  induction l as [|o l IH]; intros s Hl Hs; [done|]. cbn [ops_fresh] in Hl. apply andb_true_iff in Hl as [Ho Hl]. apply (IH (log_step c file_size s o)); [done|].
  by apply log_step_inv.
Qed.
(** A directory with no numbered backup of the log. *)
Definition no_backups (d : directory) : bool := forallb (λ i, bool_decide (d !! backup c i = None)) (seq 1 (backup_count c)).
Lemma log_inv_init d now : no_backups d = true → log_inv (LogHandler_init c file_size d now).
Proof.
  intros Hd. apply log_inv_cleanup. unfold no_backups in Hd. rewrite forallb_forall in Hd. assert (∀ i, (1 ≤ i ≤ backup_count c)%nat → d !! backup c i = None) as Hd'.
  { intros i Hi. assert (In i (seq 1 (backup_count c))) as Hin by (apply list_elem_of_In, elem_of_seq; lia). exact (bool_decide_eq_true_1 _ (Hd i Hin)). }
  constructor; cbn; try done; try (by constructor); try (by intros ?%elem_of_nil); try (by intros x ?%elem_of_nil).
  - destruct (d !! base c) as [f|] eqn:E; [by rewrite E; eexists|]. rewrite lookup_insert_eq. by eexists.
  - intros i Hi. destruct (d !! base c) as [f|] eqn:E; [by apply Hd'|]. rewrite lookup_insert_ne by apply base_not_backup. by apply Hd'.
Qed.

(** *** What a clean-up leaves *)

Lemma remove_files_lookup l p : ∀ s, files (fold_left remove_file l s) !! p = if decide (p ∈ l) then None else files s !! p.
Proof.
  induction l as [|q l IH]; intros s; cbn [fold_left]; [by rewrite decide_False by (by intros ?%elem_of_nil)|]. rewrite IH.
  assert (files (remove_file s q) = delete q (files s)) as ->.
  { unfold remove_file. destruct (files s !! q) eqn:E; [done|]. by rewrite delete_id. }
  destruct (decide (p ∈ l)) as [Hin|Hin]; [by rewrite decide_True by (by right)|]. destruct (decide (p = q)) as [->|Hne].
  - rewrite decide_True by left. by rewrite lookup_delete_eq.
  - rewrite decide_False by (by intros [?|?]%elem_of_cons). by rewrite lookup_delete_ne.
Qed.
Lemma related_nodup d : NoDup (map path (get_all_related_files c file_size d)).
Proof.
  unfold get_all_related_files. rewrite map_map. cbn [path info_of]. pose proof (NoDup_fst_map_to_list d) as H. revert H.
  generalize (map_to_list d) as l. induction l as [|[k f] l IH]; intros H; [constructor|]. cbn in H. apply NoDup_cons in H as [Hk H]. cbn [List.filter].
  destruct (is_related c _); [|by apply IH]. cbn. constructor; [|by apply IH]. change (map ?h ?l) with (h <$> l). intros (kv & Hkv & Hin)%list_elem_of_fmap. apply Hk, list_elem_of_fmap.
  exists kv. split; [done|]. by apply list_elem_of_In, filter_In in Hin as [Hin%list_elem_of_In _].
Qed.
Lemma sum_size_submseteq l1 l2 : l1 ⊆+ l2 → (∀ f, f ∈ l2 → 0 <= size f) → sum_size l1 <= sum_size l2 ∧ (length l1 ≤ length l2)%nat.
Proof.
  intros Hs Hn. split; [|by apply submseteq_length]. apply submseteq_Permutation in Hs as [k Hk].
  assert (∀ a b, a ≡ₚ b → sum_size a = sum_size b) as Hperm by (induction 1; rewrite ?sum_size_cons; lia). rewrite (Hperm _ _ Hk), sum_size_app.
  assert (∀ f, f ∈ k → 0 <= size f) as Hk0 by (intros f Hf; apply Hn; rewrite Hk; apply elem_of_app; by right).
  assert (0 <= sum_size k); [|lia]. clear Hk Hn. induction k as [|f k IH]; [done|]. rewrite sum_size_cons. pose proof (Hk0 f ltac:(left)). assert (0 <= sum_size k); [|lia].
  apply IH. intros g Hg. apply Hk0. by right.
Qed.
Lemma choose_keeps all : ∀ keep n k cand f, choose c all keep n = (k, cand) → f ∈ keep → f ∉ cand.
Proof.
  induction all as [|g all IH]; intros keep n k cand f; cbn [choose]; [intros [= <- <-] _; apply not_elem_of_nil|].
  case_bool_decide as Hin; [|destruct (_ || _)%bool].
  - apply IH.
  - destruct (choose c all keep n) as [k' cand'] eqn:E. intros [= <- <-] Hf. apply not_elem_of_cons. split; [by intros ->|by eapply IH].
  - intros H Hf. eapply IH; [exact H|]. apply elem_of_app. by left.
Qed.

(** The files a clean-up keeps. *)
Definition kept_files (all : list FileInfo) : list FileInfo :=
  if (sum_size all <=? max_total_size c) && (length all <=? backup_count c)%nat then all
  else (choose c (merge_sort newer all) (newest_uncompressed c (merge_sort newer all)) (sum_size (newest_uncompressed c (merge_sort newer all)))).1.
Lemma newest_in all f : f ∈ newest_uncompressed c (merge_sort newer all) → f ∈ all.
Proof.
  unfold newest_uncompressed. intros Hf%(subseteq_take _ _). rewrite merge_sort_Permutation in Hf. apply list_elem_of_In, filter_In in Hf as [Hf _].
  apply list_elem_of_In in Hf. by rewrite merge_sort_Permutation in Hf.
Qed.
Lemma newest_length all : (length (newest_uncompressed c all) ≤ keep_uncompressed_count c)%nat.
Proof. unfold newest_uncompressed. rewrite length_take. lia. Qed.
Lemma kept_split all :
  (∀ f, f ∈ all → f ∈ kept_files all ∨ f ∈ cleanup_candidates c all) ∧ (∀ f, f ∈ kept_files all → f ∈ all) ∧
  (∀ f, f ∈ newest_uncompressed c (merge_sort newer all) → f ∉ cleanup_candidates c all) ∧
  sum_size (kept_files all) <= Z.max (max_total_size c) (sum_size (newest_uncompressed c (merge_sort newer all))) ∧
  (length (kept_files all) ≤ max (backup_count c) (keep_uncompressed_count c))%nat.
Proof.
  unfold kept_files, cleanup_candidates. destruct (_ && _) eqn:E.
  - apply andb_true_iff in E as [E1%Z.leb_le E2%Nat.leb_le]. split_and!; [by left|done|intros f _; apply not_elem_of_nil|lia|lia].
  - set (keep := newest_uncompressed _ _). destruct (choose c _ keep _) as [k cand] eqn:Ec. cbn [fst snd].
    pose proof (choose_limits _ _ _ _ _ eq_refl Ec) as [L1 L2]. pose proof (newest_length (merge_sort newer all)) as L3. fold keep in L3.
    apply choose_split in Ec as Hsp. destruct Hsp as (H1 & H2 & l & Hk & H3). split_and!; [| | |done|lia].
    + intros f Hf. apply H2. by rewrite merge_sort_Permutation.
    + intros f. rewrite Hk. intros [Hf|Hf%H3]%elem_of_app; [by apply newest_in|by rewrite merge_sort_Permutation in Hf].
    + intros f Hf. by eapply choose_keeps.
Qed.

(** ** Properties *)

(** C30: no line is lost.  From a directory without numbered backups of this log, whatever order the
    rotations, the compression of rotated files, failed or not, and the clean-up run in,
    every line that was logged is in a file or was in a file removed for its age, and the
    log that is being written is there, if no rotation takes a name that is in use:
    two rotations in one second do (example same_second). *)
Theorem no_line_lost d now l :
  no_backups d = true → let s0 := LogHandler_init c file_size d now in ops_fresh s0 l = true →
  (∀ x, x ∈ emitted (log_run s0 l) → kept x (log_run s0 l)) ∧ is_Some (files (log_run s0 l) !! base c).
Proof. intros Hd s0 Hl. destruct (log_run_inv l s0 Hl (log_inv_init d now Hd)) as [H1 _ _ _ H5]. done. Qed.

(** The bounds of a clean-up.  After one, the rotated files are not more, and not larger in sum,
    than the configuration allows or the newest uncompressed files are that are always
    kept; and those newest ones are still there. *)
Theorem cleanup_bounds s :
  (∀ f, 0 <= file_size f) →
  let all := get_all_related_files c file_size (files s) in
  let newest := newest_uncompressed c (merge_sort newer all) in
  let left_ := get_all_related_files c file_size (files (cleanup_worker c file_size true s)) in
  sum_size left_ <= Z.max (max_total_size c) (sum_size newest) ∧ (length left_ ≤ max (backup_count c) (keep_uncompressed_count c))%nat ∧
  ∀ f, f ∈ newest → path f ∉ cleanup_queue s → f ∈ left_.
Proof.
  intros Hsz all newest left_. destruct (kept_split all) as (K1 & K2 & K3 & K4 & K5).
  assert (∀ k, files (cleanup_worker c file_size true s) !! k = if decide (k ∈ cleanup_queue s ++ map path (cleanup_candidates c all)) then None else files s !! k) as Hfiles.
  { intros k. unfold cleanup_worker, process_cleanup_queue. cbn. by rewrite remove_files_lookup. }
  assert (left_ ⊆+ kept_files all) as Hsub.
  { apply NoDup_submseteq; [eapply NoDup_fmap_1, related_nodup|]. intros f (k & g & Hg & Hr & ->)%related_in. rewrite Hfiles in Hg. case_decide as Hin; [done|].
    assert (info_of file_size (k, g) ∈ all) as Ha by (apply related_in; by exists k, g). destruct (K1 _ Ha) as [?|Hc]; [done|]. exfalso. apply Hin, elem_of_app. right.
    change (map ?h ?l) with (h <$> l). apply list_elem_of_fmap. by exists (info_of file_size (k, g)). }
  destruct (sum_size_submseteq _ _ Hsub) as [S1 S2].
  { intros f Hf%K2. apply related_in in Hf as (k & g & _ & _ & ->). apply Hsz. }
  split_and!; [unfold newest; lia|lia|]. intros f Hf Hq. pose proof (newest_in all f Hf) as Ha. apply related_in in Ha as Hk. destruct Hk as (k & g & Hg & Hr & ->).
  apply related_in. exists k, g. rewrite Hfiles. case_decide as Hin; [|done]. exfalso. apply elem_of_app in Hin as [Hin|Hin]; [done|].
  change (map ?h ?l) with (h <$> l) in Hin. apply list_elem_of_fmap in Hin as (f' & Hp & Hc). pose proof (candidates_in all f' Hc) as Ha'.
  apply related_in in Ha' as (k' & g' & Hg' & _ & ->). cbn in Hp. subst k'. rewrite Hg in Hg'. injection Hg' as <-. by apply (K3 _ Hf).
Qed.
End properties.

(** ** Samples *)

Definition sample_log : LogConfig := mkLogConfig "pod_1.log" 3 true 10 1.
Definition lines_size (f : LogFile) : Z := Z.of_nat (length (lines f)).
Definition no_files : directory := ∅.
Definition fresh_log : LogHandler := LogHandler_init sample_log lines_size no_files 0.
Definition names (s : LogHandler) : list string := map fst (map_to_list (files s)).

(** The second rotation of a second takes the name of the first. *)
Example same_second :
  let s := log_run sample_log lines_size fresh_log [OEmit 1 "a"; ORollover 1 "T1"; OEmit 1 "b"; ORollover 1 "T1"] in
  (emitted s, map (λ kv, lines kv.2) (map_to_list (files s))) = (["a"; "b"], [["b"]; []])%string ∨
  (emitted s, map (λ kv, lines kv.2) (map_to_list (files s))) = (["a"; "b"], [[]; ["b"]])%string.
Proof. vm_compute. auto. Qed.
(** The names of a process whose number goes on with other digits are taken for rotated files:
    the log that another process is writing is removed. *)
Definition others_log : directory := {[ "pod_12.log" := mkFile ["x"] false 1; "pod_1_T9.log" := mkFile (replicate 9 "y") false 2; "pod_1_T8.log" := mkFile ["z"] false 2 ]}%string.
Example other_process_removed :
  files (cleanup_worker sample_log lines_size true (LogHandler_init sample_log lines_size others_log 3)) !! "pod_12.log"%string = None.
Proof. vm_compute. reflexivity. Qed.
Definition sample_run : list log_op :=
  [OEmit 1 "a"; ORollover 2 "T2"; OEmit 3 "b"; OTakeCompress; ORollover 4 "T4"; OCompress GzDone 5; OTakeCompress; OCompress GzFails 6; OEmit 7 "c"; OCleanup true]%string.
Example sample_files :
  map (λ n, lines <$> files (log_run sample_log lines_size fresh_log sample_run) !! n)
    ["pod_1_T2.log"; "pod_1_T2.log.gz"; "pod_1_T4.log"; "pod_1_T4.log.gz"; "pod_1.log"]%string = [None; Some ["a"]; Some ["b"]; Some []; Some ["c"]]%string.
Proof. vm_compute. reflexivity. Qed.
Lemma no_line_lost_witness : kept "a" (log_run sample_log lines_size fresh_log sample_run).
Proof.
  apply (proj1 (no_line_lost sample_log lines_size no_files 0 sample_run ltac:(vm_compute; reflexivity) ltac:(vm_compute; reflexivity))).
  vm_compute. left.
Defined.
Lemma cleanup_bounds_witness :
  sum_size (get_all_related_files sample_log lines_size (files (cleanup_worker sample_log lines_size true (LogHandler_init sample_log lines_size others_log 3)))) <= 10.
Proof.
  etransitivity; [apply (cleanup_bounds sample_log lines_size (LogHandler_init sample_log lines_size others_log 3)); intros f; unfold lines_size; lia|].
  vm_compute. discriminate.
Defined.
