(* ===== verification/Loggers.v ===== *)
(** * Loggers

    Models [common/logger/logger.py]: which loggers and handlers there are, their levels, what
    reaches a handler, and the texts that are written.  The library's [logging] is a table
    of loggers by name, each with its level, and the levels of the root's handlers. *)

From stdpp Require Import base option list strings.
From Stdlib Require Import ZArith Lia Ascii.
From S2P Require Import Prelude Recompute PyText.
Open Scope Z_scope.

(** ** Levels *)

Definition DEBUG : Z := 10.
Definition INFO : Z := 20.
Definition WARNING : Z := 30.
Definition ERROR : Z := 40.
Definition CRITICAL : Z := 50.
(** [getattr(logging, name.upper(), logging.INFO)], for the names of levels. *)
Definition level_of (name : string) : Z :=
  let n := of_chars (map upper_char (chars name)) in
  if bool_decide (n = "DEBUG"%string) then DEBUG
  else if bool_decide (n = "WARNING"%string) || bool_decide (n = "WARN"%string) then WARNING
  else if bool_decide (n = "ERROR"%string) then ERROR
  else if bool_decide (n = "CRITICAL"%string) || bool_decide (n = "FATAL"%string) then CRITICAL
  else if bool_decide (n = "NOTSET"%string) then 0
  else INFO.

(** ** State *)

Record Loggers := mkLoggers {
  _logged_modules : list string;
  root_level : Z;
  (** the level of each handler of the root; a file handler is made without one *)
  handlers : list Z;
  logger_levels : dict string Z
}.
Definition Loggers_init : Loggers := mkLoggers [] WARNING [] [].

Record LoggingConfig := mkLogging { log_level : string; log_max_line_length : nat }.
Definition LoggingConfig_default : LoggingConfig := mkLogging "INFO" 8192.

(** ** Operations *)

(** [has_file]: a directory for log files is given, and the file could be opened. *)
Definition _ensure_root_logger_configured (config : LoggingConfig) (has_file : bool) (s : Loggers) : Loggers :=
  let level := level_of (log_level config) in
  match handlers s with
  | [] => mkLoggers (_logged_modules s) level (level :: if has_file then [0] else []) (logger_levels s)
  | hs => mkLoggers (_logged_modules s) level (map (λ _, level) hs) (logger_levels s)
  end.

(** The logger a module gets: a package of the program has one. *)
Definition log_name (name : string) : string :=
  if startswith name "motor." then match split "."%char name with _ :: p :: _ => p | _ => name end else name.
Definition get_logger (name : string) (level : option Z) (has_file : bool) (s : Loggers) : Loggers :=
  let s := mkLoggers (if bool_decide (name ∈ _logged_modules s) then _logged_modules s else _logged_modules s ++ [name]) (root_level s) (handlers s) (logger_levels s) in
  let level := match level with Some l => l | None => level_of (log_level LoggingConfig_default) end in
  match handlers s with
  | [] =>
      let s := _ensure_root_logger_configured LoggingConfig_default has_file s in
      mkLoggers (_logged_modules s) (root_level s) (handlers s) (dset (logger_levels s) (log_name name) level)
  | _ => mkLoggers (_logged_modules s) (root_level s) (handlers s) (dset (logger_levels s) (log_name name) DEBUG)
  end.

(** [reconfigure_logging], outside a test. *)
Definition reconfigure_logging (config : LoggingConfig) (has_file : bool) (s : Loggers) : Loggers :=
  let new_level := level_of (log_level config) in
  let s := _ensure_root_logger_configured config has_file (mkLoggers (_logged_modules s) (root_level s) [] (logger_levels s)) in
  mkLoggers (_logged_modules s) (root_level s) (map (λ _, new_level) (handlers s)) (map (λ kv, (kv.1, new_level)) (logger_levels s)).

(** The handlers that write a record of a logger: the level of the root is not asked. *)
Definition written_by (s : Loggers) (name : string) (level : Z) : list Z :=
  match dget (logger_levels s) (log_name name) with
  | Some l => if (l <=? level) then List.filter (λ h, h <=? level) (handlers s) else []
  | None => []
  end.

(** [MaxLengthFormatter.format], on the escaped text. *)
Definition format (max_length : nat) (msg : string) : string :=
  if (max_length <? length (chars msg))%nat then of_chars (take max_length (chars msg)) +:+ "..." else msg.
(** [ApiAccessFilter.filter]: the first path that the message contains decides. *)
Fixpoint api_filter (l : list (string * Z)) (message : string) (levelno : Z) : bool :=
  match l with
  | [] => true
  | (path, min_level) :: l => if is_in path message then min_level <=? levelno else api_filter l message levelno
  end.
Definition filter_record (api_filters : list (string * Z)) (name : string) (message : option string) (levelno : Z) : bool :=
  match message with
  | None => true
  | Some m => if bool_decide (name = "uvicorn.access"%string) then api_filter api_filters m levelno else true
  end.
(** The directory of a pod's log: its name without the two random parts. *)
Definition join_dash (l : list string) : string := match l with [] => "" | p :: l => fold_left (λ s q, s +:+ "-" +:+ q) l p end.
Definition module_log_dir (hostname : string) : string :=
  let parts := split "-"%char hostname in
  if (length parts <=? 2)%nat then hostname else join_dash (take (length parts - 2) parts).

Inductive logger_op := OGet (name : string) (level : option Z) (has_file : bool) | OReconfigure (config : LoggingConfig) (has_file : bool).
Definition logger_step (s : Loggers) (o : logger_op) : Loggers :=
  match o with OGet n l f => get_logger n l f s | OReconfigure c f => reconfigure_logging c f s end.
Definition is_get (o : logger_op) : bool := match o with OGet _ _ _ => true | _ => false end.

(** ** Lemmas *)

(** The level applies: every handler has it, and no logger asks for more. *)
Record at_level (L : Z) (s : Loggers) : Prop := {
  al_handlers : handlers s ≠ [] ∧ Forall (λ h, h = L) (handlers s);
  al_loggers : Forall (λ kv, kv.2 <= L) (logger_levels s)
}.
Lemma at_level_reconfigure config f s : at_level (level_of (log_level config)) (reconfigure_logging config f s).
Proof.
  constructor; cbn.
  - split; [done|]. apply Forall_cons. split; [done|]. by destruct f; repeat constructor.
  - apply Forall_fmap, Forall_true. intros kv. cbn. lia.
Qed.
Lemma at_level_get L n l f s : DEBUG <= L → at_level L s → at_level L (get_logger n l f s).
Proof.
  intros HL [[H1 H2] H3]. unfold get_logger. cbn. destruct (handlers s) as [|h hs] eqn:E; [done|].
  constructor; cbn; [done|]. clear -HL H3. induction (logger_levels s) as [|[k v] d IH]; cbn; [by repeat constructor|].
  apply Forall_cons in H3 as [Hv Hd]. case_decide; apply Forall_cons; split; cbn; auto.
Qed.
Lemma at_level_gets L l : ∀ s, DEBUG <= L → forallb is_get l = true → at_level L s → at_level L (fold_left logger_step l s).
Proof.
  induction l as [|o l IH]; intros s HL Hl Hs; [done|]. cbn in Hl. apply andb_true_iff in Hl as [Ho Hl]. destruct o; [|done]. apply IH; [done..|].
  by apply at_level_get.
Qed.

(** ** Properties *)

(** The configured level applies to all.  After a reconfiguration, whatever modules ask for a
    logger and with whatever level, a record of any of them is written by every handler
    if its level is at least the configured one, and by none otherwise. *)
Theorem configured_level_applies config f s l name level n :
  DEBUG <= level_of (log_level config) → forallb is_get l = true →
  let s' := fold_left logger_step l (reconfigure_logging config f s) in
  dget (logger_levels s') (log_name name) = Some n →
  written_by s' name level = if level_of (log_level config) <=? level then handlers s' else [].
Proof.
  intros HL Hl s' Hn. destruct (at_level_gets _ l _ HL Hl (at_level_reconfigure config f s)) as [[_ H2] H3]. fold s' in H2, H3.
  unfold written_by. rewrite Hn. apply dget_Some_in in Hn. rewrite Forall_forall in H3. specialize (H3 _ Hn). cbn in H3.
  assert (List.filter (λ h, h <=? level) (handlers s') = if level_of (log_level config) <=? level then handlers s' else []) as ->.
  { clear -H2. induction H2 as [|h hs -> Hhs IH]; [by destruct (_ <=? _)|]. cbn. rewrite IH. by destruct (_ <=? level). }
  destruct (n <=? level) eqn:E; [done|]. apply Z.leb_gt in E. rewrite (proj2 (Z.leb_gt _ _)) by lia. done.
Qed.

(** The bound of a line. *)
Theorem format_bounded n msg : (length (chars (format n msg)) ≤ n + 3)%nat ∧ ((length (chars msg) ≤ n)%nat → format n msg = msg).
Proof.
  unfold format. destruct (n <? length (chars msg))%nat eqn:E.
  - apply Nat.ltb_lt in E. rewrite chars_app, chars_of_chars, length_app, length_take. cbn. split; lia.
  - apply Nat.ltb_ge in E. split; [lia|done].
Qed.

(** ** Samples *)

(** Before the first reconfiguration the level a module asks for is that of its package. *)
Example package_shares_level :
  let s := get_logger "motor.controller.main" None false (get_logger "motor.controller.core" (Some ERROR) false Loggers_init) in
  (dget (logger_levels s) "controller", written_by s "motor.controller.core" DEBUG) = (Some DEBUG, []).
Proof. reflexivity. Qed.
Example pod_directory : map module_log_dir ["controller-7f9-x2"; "p-d"; "prefill-0-aa-bb"]%string = ["controller"; "p-d"; "prefill-0"]%string.
Proof. vm_compute. reflexivity. Qed.
(** The path of one API can be part of the message about another. *)
Example filter_by_part : filter_record [("/start", ERROR)] "uvicorn.access" (Some "POST /startup"%string) INFO = false.
Proof. vm_compute. reflexivity. Qed.
Lemma configured_level_applies_witness :
  let s := fold_left logger_step [OGet "motor.common.x" (Some ERROR) true] (reconfigure_logging (mkLogging "debug" 10) true Loggers_init) in
  written_by s "motor.common.x" DEBUG = [DEBUG; DEBUG].
Proof. exact (configured_level_applies (mkLogging "debug" 10) true Loggers_init [OGet "motor.common.x" (Some ERROR) true] "motor.common.x" DEBUG DEBUG ltac:(vm_compute; discriminate) eq_refl eq_refl). Defined.
