(* ===== verification/CoordProcesses.v ===== *)
(** * The processes of the coordinator

    Models the entry points of the coordinator's processes: [run_inference_worker_proc],
    [run_scheduler_server_proc] and [run_mgmt_server_proc] of [coordinator/process/], with
    [create_shared_socket] and the loop that waits for a group of workers.  An entry point
    is a program over the list of what it did; which of its calls raise is an argument. *)

From stdpp Require Import base option list strings.
From Stdlib Require Import ZArith Lia.
From S2P Require Import Dispatch CoordInstanceManager CoordConfig Prelude.
Open Scope Z_scope.

(** ** What a process does *)

Inductive act :=
| ReconfigureLogging | SetTitle
| MakeRequestManager | MakeServer | SetupRateLimit | MakeTokenizer | LoadUvicorn | MakeSslContext | LoadMetaserver | MakeMetrics
| StartWatcher | StopWatcher
| Serve (tls : bool) (metaserver_port : option Z)
| DisconnectScheduler | CloseClients | CloseSocket | StopServer.

(** How the servers end. *)
Inductive served := Ends | Interrupted | Fails (e : pyexn).

(** The outside: the exception a call raises, whether a TLS context can be made, and how serving
    ends. *)
Record ProcessEnv := mkEnv { raises : act → option pyexn; ssl_made : bool; serving : served }.

Definition do_ (env : ProcessEnv) (a : act) : M (list act) unit := λ l,
  (l ++ [a], match raises env a with Some e => Raise e | None => Ret tt end).
(** [try: a except Exception: log]. *)
Definition try_ (env : ProcessEnv) (a : act) : M (list act) unit := mexcept (do_ env a) (λ _, mret tt).
(** [uvloop.run]: an interrupt is logged where the entry point catches it. *)
Definition serve_ (env : ProcessEnv) (catches_interrupt : bool) (a : act) : M (list act) unit := λ l,
  (l ++ [a], match serving env with
             | Ends => Ret tt
             | Interrupted => if catches_interrupt then Ret tt else Raise CancelledError
             | Fails e => Raise e
             end).
Fixpoint do_all (env : ProcessEnv) (l : list act) : M (list act) unit :=
  match l with [] => mret tt | a :: l => do_ env a ;; do_all env l end.
Definition when (b : bool) (m : M (list act) unit) : M (list act) unit := if b then m else mret tt.

(** ** Entry points *)

(** What a worker reads of its configuration, and whether the file of it exists. *)
Record WorkerConfig := mkWorker {
  worker_metaserver_base_port : Z;
  deploy_mode : DeployMode;
  enable_tls : bool;
  watched : bool;
  has_socket : bool
}.
(** The modes with a metaserver in each worker, and its port. *)
Definition own_metaserver (m : DeployMode) : bool :=
  bool_decide (m = CDP_SEPARATE) || bool_decide (m = PD_SEPARATE) || bool_decide (m = PD_DISAGGREGATION_SINGLE_CONTAINER).
Definition worker_metaserver_port (c : WorkerConfig) (worker_index : Z) : option Z :=
  if (0 <? worker_metaserver_base_port c) && own_metaserver (deploy_mode c) then Some (worker_metaserver_base_port c + worker_index) else None.

Definition worker_cleanup (env : ProcessEnv) (c : WorkerConfig) : M (list act) unit :=
  when (watched c) (try_ env StopWatcher) ;;
  try_ env DisconnectScheduler ;;
  try_ env CloseClients ;;
  when (has_socket c) (try_ env CloseSocket).
Definition run_inference_worker_proc (env : ProcessEnv) (c : WorkerConfig) (worker_index : Z) : M (list act) unit :=
  do_all env [ReconfigureLogging; SetTitle; MakeRequestManager; MakeServer; SetupRateLimit] ;;
  when (watched c) (try_ env StartWatcher) ;;
  do_all env [MakeTokenizer; LoadUvicorn] ;;
  when (enable_tls c) (do_ env MakeSslContext) ;;
  let port := worker_metaserver_port c worker_index in
  when (bool_decide (is_Some port)) (do_ env LoadMetaserver) ;;
  mfinally (serve_ env true (Serve (enable_tls c && ssl_made env) port)) (worker_cleanup env c).

Definition run_scheduler_server_proc (env : ProcessEnv) (watched : bool) : M (list act) unit :=
  do_all env [ReconfigureLogging; SetTitle; MakeServer] ;;
  when watched (try_ env StartWatcher) ;;
  mfinally (serve_ env true (Serve false None)) (when watched (try_ env StopWatcher) ;; do_ env StopServer).

Definition run_mgmt_server_proc (env : ProcessEnv) (watched : bool) : M (list act) unit :=
  do_all env [ReconfigureLogging; SetTitle; MakeMetrics; MakeServer] ;;
  when watched (try_ env StartWatcher) ;;
  mfinally (serve_ env false (Serve false None)) (when watched (try_ env StopWatcher)).

(** [create_shared_socket]: whether sockets are closed again, and the socket. *)
Inductive bound := Bound | NoReusePort | BindFails.
Definition create_shared_socket (b : bound) : bool * option nat :=
  match b with Bound => (false, Some 0%nat) | NoReusePort | BindFails => (true, None) end.

(** ** Waiting for workers

    [wait_for_completion]: each call of [connection.wait] gives workers that have ended; [codes]:
    their exit codes.  The result names the worker whose exit is reported as an error. *)
Inductive waited := AllDone | Died (i : nat) | Waiting (left_ : list nat).
Fixpoint take_ready (codes : nat → Z) (ready left_ : list nat) : list nat + nat :=
  match ready with
  | [] => inl left_
  | i :: ready => let left_ := List.filter (λ j, negb (j =? i)%nat) left_ in if codes i =? 0 then take_ready codes ready left_ else inr i
  end.
Fixpoint wait_for_completion (codes : nat → Z) (waits : list (list nat)) (left_ : list nat) : waited :=
  match left_, waits with
  | [], _ => AllDone
  | _, [] => Waiting left_
  | _, ready :: waits => match take_ready codes ready left_ with inl left_ => wait_for_completion codes waits left_ | inr i => Died i end
  end.

(** ** Lemmas *)

(** The exceptions that are caught. *)
Definition only_exceptions (env : ProcessEnv) : Prop := ∀ a, raises env a ≠ Some CancelledError.
Lemma try_eq env a s : only_exceptions env → try_ env a s = (s ++ [a], Ret tt).
Proof. intros H. specialize (H a). unfold try_, mexcept, do_. destruct (raises env a) as [[]|]; done. Qed.
Lemma when_eq (b : bool) m s (l : list act) : (b = true → m s = (s ++ l, Ret tt)) → when b m s = (s ++ (if b then l else []), Ret tt).
Proof. destruct b; cbn; [auto|]. intros _. by rewrite app_nil_r. Qed.

Definition cleanup_acts (c : WorkerConfig) : list act :=
  (if watched c then [StopWatcher] else []) ++ [DisconnectScheduler; CloseClients] ++ (if has_socket c then [CloseSocket] else []).
Lemma worker_cleanup_eq env c s : only_exceptions env → worker_cleanup env c s = (s ++ cleanup_acts c, Ret tt).
Proof.
  intros H. unfold worker_cleanup, mbind, M_bind. rewrite (when_eq _ _ _ [StopWatcher]) by (intros _; by apply try_eq). rewrite !try_eq by done.
  rewrite (when_eq _ _ _ [CloseSocket]) by (intros _; by apply try_eq). unfold cleanup_acts. by rewrite <- !app_assoc.
Qed.

(** What a worker does before it serves, in order; the start of the watcher may fail. *)
Definition setup_acts (c : WorkerConfig) (i : Z) : list act :=
  [ReconfigureLogging; SetTitle; MakeRequestManager; MakeServer; SetupRateLimit] ++ (if watched c then [StartWatcher] else []) ++
  [MakeTokenizer; LoadUvicorn] ++ (if enable_tls c then [MakeSslContext] else []) ++
  (if bool_decide (is_Some (worker_metaserver_port c i)) then [LoadMetaserver] else []).
Definition fatal (env : ProcessEnv) (a : act) : option pyexn := match a with StartWatcher => None | _ => raises env a end.

(** The part of a program up to the first call that raises. *)
Fixpoint first_fatal (env : ProcessEnv) (l : list act) : option (list act * pyexn) :=
  match l with
  | [] => None
  | a :: l => match fatal env a with Some e => Some ([a], e) | None => option_map (λ '(p, e), (a :: p, e)) (first_fatal env l) end
  end.
(** Programs that do a list of acts, raising where one of them is fatal. *)
Definition runs (env : ProcessEnv) (l : list act) (m : M (list act) unit) : Prop :=
  ∀ s, m s = match first_fatal env l with Some (p, e) => (s ++ p, Raise e) | None => (s ++ l, Ret tt) end.
Lemma first_fatal_app env l1 l2 :
  first_fatal env (l1 ++ l2) = match first_fatal env l1 with Some x => Some x | None => option_map (λ '(p, e), (l1 ++ p, e)) (first_fatal env l2) end.
Proof.
  induction l1 as [|a l1 IH]; cbn; [by destruct (first_fatal env l2) as [[]|]|]. destruct (fatal env a); [done|]. rewrite IH.
  destruct (first_fatal env l1) as [[]|]; [done|]. by destruct (first_fatal env l2) as [[]|].
Qed.
Lemma runs_seq env l1 l2 m1 m2 : runs env l1 m1 → runs env l2 m2 → runs env (l1 ++ l2) (m1 ;; m2).
Proof.
  intros H1 H2 s. rewrite first_fatal_app. unfold mbind, M_bind. rewrite H1. destruct (first_fatal env l1) as [[p e]|]; [done|]. rewrite H2.
  destruct (first_fatal env l2) as [[p e]|]; cbn; by rewrite <- app_assoc.
Qed.
Lemma runs_do env a : a ≠ StartWatcher → runs env [a] (do_ env a).
Proof. intros Ha s. cbn. assert (fatal env a = raises env a) as -> by by destruct a. unfold do_. by destruct (raises env a). Qed.
Lemma runs_nil env : runs env [] (mret tt : M (list act) unit).
Proof. intros s. cbn. by rewrite app_nil_r. Qed.
Lemma runs_all env l : StartWatcher ∉ l → runs env l (do_all env l).
Proof.
  induction l as [|a l IH]; intros H; [apply runs_nil|]. apply not_elem_of_cons in H as [Ha Hl]. apply (runs_seq env [a] l); [apply runs_do; by intros ->|by apply IH].
Qed.
Lemma runs_when env (b : bool) l m : runs env l m → runs env (if b then l else []) (when b m).
Proof. destruct b; [done|]. intros _. apply runs_nil. Qed.
Lemma runs_watcher env : only_exceptions env → runs env [StartWatcher] (try_ env StartWatcher).
Proof. intros H s. by rewrite try_eq. Qed.

Ltac not_in := let H := fresh in intros H; repeat (apply elem_of_cons in H as [H|H]; [discriminate H|]); by apply elem_of_nil in H.
(** Programs that do a list of acts first, and go on as another. *)
Definition runs_then (env : ProcessEnv) (l : list act) (k m : M (list act) unit) : Prop :=
  ∀ s, m s = match first_fatal env l with Some (p, e) => (s ++ p, Raise e) | None => k (s ++ l) end.
Lemma then_nil env k : runs_then env [] k k.
Proof. intros s. cbn. by rewrite app_nil_r. Qed.
Lemma then_seq env l1 l2 m1 m2 k : runs env l1 m1 → runs_then env l2 k m2 → runs_then env (l1 ++ l2) k (m1 ;; m2).
Proof.
  intros H1 H2 s. rewrite first_fatal_app. unfold mbind, M_bind. rewrite H1. destruct (first_fatal env l1) as [[p e]|]; [done|]. rewrite H2.
  destruct (first_fatal env l2) as [[p e]|]; cbn; by rewrite <- app_assoc.
Qed.
Lemma setup_runs env c i : only_exceptions env →
  runs_then env (setup_acts c i)
    (mfinally (serve_ env true (Serve (enable_tls c && ssl_made env) (worker_metaserver_port c i))) (worker_cleanup env c)) (run_inference_worker_proc env c i).
Proof.
  intros H. unfold run_inference_worker_proc, setup_acts. apply then_seq; [apply runs_all; not_in|]. apply then_seq; [by apply runs_when, runs_watcher|].
  apply then_seq; [apply runs_all; not_in|]. apply then_seq; [apply runs_when; by apply runs_do|]. cbv zeta. rewrite <- (app_nil_r (if bool_decide _ then _ else _)).
  apply then_seq; [apply runs_when; by apply runs_do|apply then_nil].
Qed.
Definition result_of (catches_interrupt : bool) (x : served) : py unit :=
  match x with Ends => Ret tt | Interrupted => if catches_interrupt then Ret tt else Raise CancelledError | Fails e => Raise e end.

(** ** Properties *)

(** The life of a worker of the coordinator.  If a call before it serves raises, the process
    ends with that exception after the calls before it, and nothing is given back, the
    shared socket included.  Otherwise it serves once, with TLS exactly if it is
    switched on and a context could be made and with a metaserver exactly in the modes
    whose router hands out its address, with a base port; then, however serving ended
    and whatever of it fails, the watcher is stopped, the scheduler disconnected, the HTTP
    clients and the socket closed, each once, and the exception of serving is kept. *)
Theorem worker_life env c i :
  only_exceptions env →
  run_inference_worker_proc env c i [] =
    match first_fatal env (setup_acts c i) with
    | Some (p, e) => (p, Raise e)
    | None => (setup_acts c i ++ [Serve (enable_tls c && ssl_made env) (worker_metaserver_port c i)] ++ cleanup_acts c, result_of true (serving env))
    end ∧
  (is_Some (worker_metaserver_port c i) ↔ 0 < worker_metaserver_base_port c ∧ router_map (deploy_mode c) = SeparateCDP).
Proof.
  intros H. split.
  - rewrite (setup_runs env c i H []). destruct (first_fatal env (setup_acts c i)) as [[p e]|]; [done|]. unfold mfinally, serve_.
    rewrite worker_cleanup_eq by done. rewrite <- !app_assoc. unfold result_of. by destruct (serving env).
  - unfold worker_metaserver_port, own_metaserver. destruct (Z.ltb_spec 0 (worker_metaserver_base_port c)) as [Hb|Hb].
    + destruct (deploy_mode c); cbn; split; first [by intros [? [=]]|by intros [_ [=]]|by split|by eexists].
    + cbn. split; [by intros [? [=]]|lia].
Qed.

(** The processes of scheduler and management.  A scheduler that serves is stopped afterwards,
    and an exception of the stop replaces that of serving; an interrupt ends it normally.
    The management process has nothing but its watcher stopped, and an interrupt passes. *)
Theorem server_processes env w :
  only_exceptions env →
  let watch := if w : bool then [StartWatcher] else [] in
  let unwatch := if w : bool then [StopWatcher] else [] in
  run_scheduler_server_proc env w [] =
    match first_fatal env ([ReconfigureLogging; SetTitle; MakeServer] ++ watch) with
    | Some (p, e) => (p, Raise e)
    | None => ([ReconfigureLogging; SetTitle; MakeServer] ++ watch ++ [Serve false None] ++ unwatch ++ [StopServer],
               match raises env StopServer with Some e => Raise e | None => result_of true (serving env) end)
    end ∧
  run_mgmt_server_proc env w [] =
    match first_fatal env ([ReconfigureLogging; SetTitle; MakeMetrics; MakeServer] ++ watch) with
    | Some (p, e) => (p, Raise e)
    | None => ([ReconfigureLogging; SetTitle; MakeMetrics; MakeServer] ++ watch ++ [Serve false None] ++ unwatch, result_of false (serving env))
    end.
Proof.
  intros H watch unwatch. assert (∀ s, when w (try_ env StopWatcher) s = (s ++ unwatch, Ret tt)) as Hu by (intros s; apply when_eq; intros _; by apply try_eq).
  assert (∀ l k, StartWatcher ∉ l → runs_then env (l ++ watch) k (do_all env l ;; when w (try_ env StartWatcher) ;; k)) as Hs.
  { intros l k Hl. apply then_seq; [by apply runs_all|]. rewrite <- (app_nil_r watch). apply then_seq; [by apply runs_when, runs_watcher|apply then_nil]. }
  split.
  - unfold run_scheduler_server_proc. rewrite (Hs [ReconfigureLogging; SetTitle; MakeServer] _ ltac:(not_in) []). destruct (first_fatal env _) as [[p e]|]; [done|]. unfold mfinally, serve_, mbind, M_bind. rewrite Hu.
    unfold do_. destruct (raises env StopServer); unfold result_of; destruct (serving env); by rewrite <- !app_assoc.
  - unfold run_mgmt_server_proc. rewrite (Hs [ReconfigureLogging; SetTitle; MakeMetrics; MakeServer] _ ltac:(not_in) []). destruct (first_fatal env _) as [[p e]|]; [done|]. unfold mfinally, serve_. rewrite Hu.
    unfold result_of. destruct (serving env); by rewrite <- !app_assoc.
Qed.

(** Waiting ends with success only when every worker has ended with code zero; a worker that
    is reported had another code. *)
Theorem wait_reports codes waits left_ :
  match wait_for_completion codes waits left_ with
  | AllDone => ∀ i, i ∈ left_ → i ∈ concat waits ∧ codes i = 0
  | Died i => codes i ≠ 0 ∧ i ∈ concat waits
  | Waiting l => ∀ i, i ∈ left_ → i ∈ l ∨ i ∈ concat waits ∧ codes i = 0
  end.
Proof.
  assert (∀ ready left_, match take_ready codes ready left_ with
    | inl l => ∀ i, i ∈ left_ → i ∈ l ∨ i ∈ ready ∧ codes i = 0 | inr i => codes i ≠ 0 ∧ i ∈ ready end) as Ht.
  { induction ready as [|j ready IH]; intros l; cbn [take_ready]; [auto|]. destruct (Z.eqb_spec (codes j) 0) as [Hc|Hc]; [|split; [done|left]].
    specialize (IH (List.filter (λ k, negb (k =? j)%nat) l)). destruct (take_ready _ _ _) as [l'|i]; [|destruct IH; split; [done|by right]].
    intros i Hi. destruct (decide (i = j)) as [->|Hne]; [right; split; [left|done]|]. destruct (IH i) as [?|[? ?]]; [|by left|right; split; [by right|done]].
    apply list_elem_of_In, filter_In. split; [by apply list_elem_of_In|]. by apply negb_true_iff, Nat.eqb_neq. }
  revert left_. induction waits as [|ready waits IH]; intros l; (destruct l as [|j l]; cbn [wait_for_completion]; [by intros i ?%elem_of_nil|]).
  - auto.
  - specialize (Ht ready (j :: l)). destruct (take_ready codes ready (j :: l)) as [l'|i]; [|destruct Ht; split; [done|cbn; apply elem_of_app; by left]].
    specialize (IH l'). destruct (wait_for_completion codes waits l') as [|k|r].
    + intros i Hi. destruct (Ht i Hi) as [Hi'|[? ?]]; [destruct (IH i Hi'); split; [cbn; apply elem_of_app; by right|done]|split; [cbn; apply elem_of_app; by left|done]].
    + destruct IH. split; [done|]. cbn. apply elem_of_app. by right.
    + intros i Hi. destruct (Ht i Hi) as [Hi'|[? ?]]; [|right; split; [cbn; apply elem_of_app; by left|done]].
      destruct (IH i Hi') as [?|[? ?]]; [by left|right; split; [cbn; apply elem_of_app; by right|done]].
Qed.

(** ** Samples *)

Definition sample_worker : WorkerConfig := mkWorker 12000 PD_SEPARATE true true true.
(** No context can be made, serving fails, and so does every part of the clean-up. *)
Definition bad_end : ProcessEnv := mkEnv (λ a, match a with StopWatcher | DisconnectScheduler | CloseClients | CloseSocket => Some RuntimeError | _ => None end) false (Fails ValueError).
Example worker_runs :
  run_inference_worker_proc bad_end sample_worker 2 [] =
    ([ReconfigureLogging; SetTitle; MakeRequestManager; MakeServer; SetupRateLimit; StartWatcher; MakeTokenizer; LoadUvicorn; MakeSslContext; LoadMetaserver;
      Serve false (Some 12002); StopWatcher; DisconnectScheduler; CloseClients; CloseSocket], Raise ValueError).
Proof. reflexivity. Qed.
(** A tokenizer that cannot be made ends the process with its watcher running and its socket open. *)
Example setup_fails :
  run_inference_worker_proc (mkEnv (λ a, match a with MakeTokenizer => Some ValueError | _ => None end) true Ends) sample_worker 0 [] =
    ([ReconfigureLogging; SetTitle; MakeRequestManager; MakeServer; SetupRateLimit; StartWatcher; MakeTokenizer], Raise ValueError).
Proof. reflexivity. Qed.
Lemma worker_life_witness : (run_inference_worker_proc bad_end sample_worker 2 []).2 = Raise ValueError.
Proof. rewrite (proj1 (worker_life bad_end sample_worker 2 ltac:(by intros []))). reflexivity. Defined.
Lemma server_processes_witness : (run_mgmt_server_proc (mkEnv (λ _, None) true Interrupted) true []).2 = Raise CancelledError.
Proof. rewrite (proj2 (server_processes (mkEnv (λ _, None) true Interrupted) true ltac:(done))). reflexivity. Defined.
