(* ===== verification/SchedulerFrontend.v ===== *)
(** * The scheduler's end of a request

    Models the frontend of [coordinator/scheduler/runtime/scheduler_server.py]: the frames the
    ROUTER socket receives and sends, [_handle_request_async] with its answers to errors, the
    main loop, and the start and end of what the process holds.  The messages are those of
    [ZmqProtocol]; what the dispatcher of [SchedulerServer] does with a request is an argument. *)

From stdpp Require Import base option list strings.
From Stdlib Require Import ZArith Lia.
From S2P Require Import Prelude PyText ZmqProtocol.
Open Scope Z_scope.

Definition DEFAULT_REQUEST_ID : string := "unknown".
Definition ERROR : string := "error".

(** How the call of the dispatcher ends, within its timeout or not. *)
Inductive dispatched := Answered (r : SchedulerResponse) | Raised (e : pyexn) | TimedOut | Cancelled.
Definition error_response (id text : string) : SchedulerResponse := mkResponse ERROR id JNull (Some text).

(** ** Frames *)

Section frontend.
Context {B : Type} (size : B → Z) (encode : json → py B) (decode : B → py json) (no_bytes : B) (threshold : Z).
(** The text of an exception. *)
Context (text_of : pyexn → string).

(** [_SchedulerFrontendTransport.recv]: the client and the frames after the empty one. *)
Definition frontend_recv (parts : list B) : option (B * list B) :=
  match parts with client_id :: _ :: payload :: more => Some (client_id, payload :: more) | _ => None end.
(** [_SchedulerFrontendTransport.send] *)
Definition frontend_send (client_id : B) (p : payload B) : list B := pack_send_frames [client_id; no_bytes] p.

(** [(request.data or {}).get(...)]: data that is not an object raises, and once more in the
    handler of that, so that the task ends without an answer. *)
Definition loggable (data : json) : bool := match data with JObj _ => true | d => negb (truthy d) end.
(** [_handle_request_async]: what is sent to the client; the recursion limit is [depth]. *)
Definition send_error (client_id : B) (id text : string) : option (list B) :=
  match serialize_response size encode threshold (error_response id text) with
  | Ret p => Some (frontend_send client_id p)
  | Raise _ => None
  end.
Definition handle_request_async (depth : nat) (dispatch : SchedulerRequest → dispatched) (client_id : B) (payload_frames : list B) : option (list B) :=
  match deserialize_request decode depth (unpack_recv_payload no_bytes ([no_bytes; no_bytes] ++ payload_frames) 2) with
  | Raise CancelledError => None
  | Raise e => send_error client_id DEFAULT_REQUEST_ID (text_of e)
  | Ret request => if negb (loggable (req_data request)) then None else
      match dispatch request with
      | Answered response =>
          match serialize_response size encode threshold response with
          | Ret p => Some (frontend_send client_id p)
          | Raise CancelledError => None
          | Raise e => send_error client_id (request_id request) (text_of e)
          end
      | Raised CancelledError | Cancelled => None
      | Raised e => send_error client_id (request_id request) (text_of e)
      | TimedOut => send_error client_id (request_id request) "dispatch timeout"
      end
  end.

(** [_run_async_loop]: the stop event is looked at before a message is waited for. *)
Definition main_turn (depth : nat) (dispatch : SchedulerRequest → dispatched) (parts : list B) : option (list B) :=
  match frontend_recv parts with Some (client_id, fs) => handle_request_async depth dispatch client_id fs | None => None end.
Fixpoint run_async_loop (depth : nat) (dispatch : SchedulerRequest → dispatched) (messages : list (bool * list B)) : list (list B) * list (bool * list B) :=
  match messages with
  | [] => ([], [])
  | (stopped, parts) :: more =>
      if stopped : bool then ([], messages)
      else let '(out, rest) := run_async_loop depth dispatch more in (match main_turn depth dispatch parts with Some x => [x] | None => [] end ++ out, rest)
  end.

(** The other end: what a worker puts on its DEALER socket, what the ROUTER makes of it, and the
    response a worker reads from what comes back to it. *)
Definition worker_send (p : payload B) : list B := pack_send_frames [no_bytes] p.
Definition routed (client_id : B) (parts : list B) : list B := client_id :: parts.
Definition worker_receive (depth : nat) (parts : list B) : py SchedulerResponse :=
  if (length parts <? 2)%nat then Raise ValueError else deserialize_response decode depth (unpack_recv_payload no_bytes parts 1).
End frontend.

(** ** The segment of the workloads *)

(** [_create_workload_shared_memory]: the steps of it on the names in use, with what other
    processes do to them: [gone]: the stale segment is gone when it is opened; [unlinks]: it can
    be unlinked; [again]: the name is taken again before it is created. *)
Inductive shm_outcome := ShmMade | ShmExists | ShmNotUnlinked.
Definition create_workload_shared_memory (exists_ gone unlinks again : bool) : shm_outcome :=
  if negb exists_ then ShmMade
  else if gone then if again then ShmExists else ShmMade
  else if negb unlinks then ShmNotUnlinked
  else if again then ShmExists else ShmMade.

(** ** Stopping *)

(** What the server holds: its heartbeat task and requests, the buffer and the mapping of the
    segment, whether its name is still there, the sockets, and how often the context ended. *)
Record Held := mkHeld {
  heartbeat_task : bool;
  active_tasks : nat;
  workload_writer : bool;
  workload_shm : bool;
  shm_name_exists : bool;
  pub_socket : bool;
  frontend_socket : bool;
  context_terms : nat;
  stop_event : bool
}.
(** What raises while it stops; the buffer's release is the only call outside a [try]. *)
Record StopFaults := mkFaults { release_fails : bool; close_fails : bool; unlink_fails : bool; socket_fails : bool; term_fails : bool }.
Definition stop (f : StopFaults) (s : Held) : Held * py unit :=
  if workload_writer s && release_fails f then
    (mkHeld false 0 true (workload_shm s) (shm_name_exists s) (pub_socket s) (frontend_socket s) (context_terms s) true, Raise RuntimeError)
  else
    let unlinked := workload_shm s && negb (close_fails f) && negb (unlink_fails f) in
    (mkHeld false 0 false false (shm_name_exists s && negb unlinked) false false (if term_fails f then context_terms s else S (context_terms s)) true, Ret tt).

(** ** Lemmas *)

Section rpc.
Context {B : Type} (size : B → Z) (encode : json → py B) (decode : B → py json) (no_bytes : B) (threshold : Z).
Context (text_of : pyexn → string).
(** What msgpack promises. *)
Hypothesis decode_encode : ∀ v b, encode v = Ret b → decode b = Ret v.

Notation serialize_request := (serialize_request size encode threshold).
Notation serialize_response := (serialize_response size encode threshold).

Lemma request_frames r p prefix : serialize_request r = Ret p → ∃ b more, pack_send_frames prefix p = prefix ++ b :: more.
Proof.
  unfold ZmqProtocol.serialize_request. destruct (replace_large_with_refs _ _ _ _ _) as [data aux]. intros (main & _ & H)%bind_Ret. injection H as <-.
  destruct aux as [|a aux]; by eexists _, _.
Qed.
Lemma response_frames r p prefix : serialize_response r = Ret p → ∃ b more, pack_send_frames prefix p = prefix ++ b :: more.
Proof.
  unfold ZmqProtocol.serialize_response. destruct (match resp_data r with JNull => _ | d => _ end) as [data aux]. intros (main & _ & H)%bind_Ret. injection H as <-.
  destruct aux as [|a aux]; by eexists _, _.
Qed.

(** What a request is answered with. *)
Definition expected (q : SchedulerRequest) (d : dispatched) : option SchedulerResponse :=
  match d with
  | Answered r =>
      match serialize_response r with Ret _ => Some r | Raise CancelledError => None | Raise e => Some (error_response (request_id q) (text_of e)) end
  | Raised CancelledError | Cancelled => None
  | Raised e => Some (error_response (request_id q) (text_of e))
  | TimedOut => Some (error_response (request_id q) "dispatch timeout")
  end.
(** A response that comes back as it was. *)
Definition returns (depth : nat) (r : SchedulerResponse) : Prop :=
  (resp_data r = JNull ∨ ∃ d, resp_data r = JObj d) ∧ ∀ p, serialize_response r = Ret p → arrives (resp_data r) p depth.
Lemma error_returns depth id text : returns depth (error_response id text).
Proof.
  split; [by left|]. intros p H. right. unfold ZmqProtocol.serialize_response in H. cbn [resp_data error_response] in H.
  apply bind_Ret in H as (main & _ & H). injection H as <-. by exists main.
Qed.
Lemma sent_is_received client depth r p : returns depth r → serialize_response r = Ret p →
  ∃ body, frontend_send no_bytes client p = client :: body ∧ worker_receive decode no_bytes depth body = Ret r.
Proof.
  intros [Hd Ha] Hp. destruct (response_frames r p [no_bytes] Hp) as (b & more & Hf). exists (pack_send_frames [no_bytes] p). split.
  - unfold frontend_send. by destruct p.
  - unfold worker_receive. rewrite Hf. cbn [app length Nat.ltb Nat.leb]. change (no_bytes :: b :: more) with ([no_bytes] ++ b :: more). rewrite <- Hf.
    apply (response_arrives size encode decode no_bytes threshold decode_encode [no_bytes] depth r p Hp Hd). by apply Ha.
Qed.
Lemma error_is_received client depth id text :
  match send_error size encode no_bytes threshold client id text with
  | Some sent => ∃ body, sent = client :: body ∧ worker_receive decode no_bytes depth body = Ret (error_response id text)
  | None => ∃ e, serialize_response (error_response id text) = Raise e
  end.
Proof.
  unfold send_error. destruct (serialize_response (error_response id text)) as [p|e] eqn:E; [|by eexists]. apply sent_is_received; [apply error_returns|done].
Qed.

(** ** Properties *)

(** C29: a request is answered.  A request that a worker sends arrives as it was, and what comes
    back to that worker, and to no other, is what the dispatcher answered, or an error with the
    id of the request if it raised, took too long, or answered what cannot be encoded; without
    an answer it stays only when it was cancelled or not even the error can be encoded. *)
Theorem request_answered depth dispatch client q p :
  serialize_request q = Ret p → (∃ d, req_data q = JObj d) → arrives (req_data q) p depth →
  (∀ r, dispatch q = Answered r → returns depth r ∧ resp_id r = request_id q) →
  match main_turn size encode decode no_bytes threshold text_of depth dispatch (routed client (worker_send no_bytes p)) with
  | Some sent => ∃ r body, expected q (dispatch q) = Some r ∧ resp_id r = request_id q ∧ sent = client :: body ∧ worker_receive decode no_bytes depth body = Ret r
  | None => expected q (dispatch q) = None ∨ ∃ text e, serialize_response (error_response (request_id q) text) = Raise e
  end.
Proof.
  intros Hp Hd Ha Hr. unfold main_turn, worker_send, routed. destruct (request_frames q p [no_bytes] Hp) as (b & more & Hf). rewrite Hf. cbn [app frontend_recv].
  assert (deserialize_request decode depth (unpack_recv_payload no_bytes ([no_bytes; no_bytes] ++ b :: more) 2) = Ret q) as Hq.
  { pose proof (request_arrives size encode decode no_bytes threshold decode_encode [no_bytes; no_bytes] depth q p Hp Hd Ha) as H.
    destruct (request_frames q p [no_bytes; no_bytes] Hp) as (b' & more' & Hf'). assert (b' :: more' = b :: more) as Hb by (destruct p; cbn in Hf, Hf'; congruence).
    by rewrite <- Hb, <- Hf'. }
  unfold handle_request_async. rewrite Hq. replace (loggable (req_data q)) with true by (by destruct Hd as [d ->]). cbn [negb]. assert (∀ text, match send_error size encode no_bytes threshold client (request_id q) text with
    | Some sent => ∃ r body, Some (error_response (request_id q) text) = Some r ∧ resp_id r = request_id q ∧ sent = client :: body ∧ worker_receive decode no_bytes depth body = Ret r
    | None => Some (error_response (request_id q) text) = None ∨ ∃ text e, serialize_response (error_response (request_id q) text) = Raise e end) as He.
  { intros text. pose proof (error_is_received client depth (request_id q) text) as H. destruct (send_error _ _ _ _ _ _ _) as [sent|].
    - destruct H as (body & H1 & H2). by exists (error_response (request_id q) text), body.
    - destruct H as [e H]. right. by exists text, e. }
  destruct (dispatch q) as [r|e| |] eqn:Edisp; cbn [expected].
  - destruct (Hr r eq_refl) as [Hret Hid]. destruct (serialize_response r) as [pr|e] eqn:Es.
    + destruct (sent_is_received client depth r pr Hret Es) as (body & H1 & H2). by exists r, body.
    + destruct e; first [by left|apply He].
  - destruct e; first [by left|apply He].
  - apply He.
  - by left.
Qed.

(** An answer to what cannot be decoded names no request: its id is the default one, for which
    nobody waits, so the sender waits until its own timeout. *)
Theorem undecodable_answer depth dispatch client frames e sent :
  deserialize_request decode depth (unpack_recv_payload no_bytes ([no_bytes; no_bytes] ++ frames) 2) = Raise e →
  handle_request_async size encode decode no_bytes threshold text_of depth dispatch client frames = Some sent →
  ∃ body r, sent = client :: body ∧ worker_receive decode no_bytes depth body = Ret r ∧ resp_id r = DEFAULT_REQUEST_ID.
Proof.
  intros Hd Hs. unfold handle_request_async in Hs. rewrite Hd in Hs. pose proof (error_is_received client depth DEFAULT_REQUEST_ID (text_of e)) as H.
  assert (send_error size encode no_bytes threshold client DEFAULT_REQUEST_ID (text_of e) = Some sent) as Hsend by (destruct e; first [discriminate Hs|exact Hs]).
  rewrite Hsend in H. destruct H as (body & H1 & H2). exists body, (error_response DEFAULT_REQUEST_ID (text_of e)). by split_and!.
Qed.
End rpc.

(** What a stop leaves.  Unless the release of the buffer raises, which leaves the segment, the
    sockets and the context as they were, everything is given back whatever else fails; the
    name of the segment stays if the segment cannot be closed or unlinked; a second stop
    changes nothing but the context. *)
Theorem stop_gives_back f s :
  let '(s', r) := stop f s in
  heartbeat_task s' = false ∧ active_tasks s' = 0%nat ∧ stop_event s' = true ∧
  (r = Raise RuntimeError ↔ workload_writer s = true ∧ release_fails f = true) ∧
  (r = Ret tt →
    workload_writer s' = false ∧ workload_shm s' = false ∧ pub_socket s' = false ∧ frontend_socket s' = false ∧
    (shm_name_exists s' = true ↔ shm_name_exists s = true ∧ (workload_shm s = false ∨ close_fails f = true ∨ unlink_fails f = true)) ∧
    ∀ f', let s2 := (stop f' s').1 in mkHeld (heartbeat_task s2) (active_tasks s2) (workload_writer s2) (workload_shm s2) (shm_name_exists s2) (pub_socket s2)
            (frontend_socket s2) (context_terms s') (stop_event s2) = s').
Proof.
  destruct s as [h t w m n p fr ct se], f as [rf cf uf sf tf]. unfold stop. cbn. destruct w, rf; cbn; split_and!; try done; try (intros _; split_and!); try done;
    try (by destruct n, m, cf, uf; cbn; intuition congruence); try (intros f'; cbn; by rewrite andb_true_r).
Qed.

(** ** Samples *)

Definition sample_text (e : pyexn) : string := match e with ValueError => "bad value" | _ => "failed" end.
Definition sample_dispatch (q : SchedulerRequest) : dispatched :=
  if bool_decide (request_type q = "allocate_only"%string) then Answered (mkResponse "success" (request_id q) (JObj [("a"%string, JList [JInt 1; JInt 2; JInt 3; JInt 4])]) None)
  else Raised ValueError.
Definition sample_turn : list json → option (list json) := main_turn nodes Ret Ret JNull 4 sample_text 10 sample_dispatch.
(** Too few frames get no answer; frames that do not decode one that nobody waits for. *)
Example malformed : sample_turn [JStr "w1"; JStr ""] = None ∧ option_map (take 1) (sample_turn [JStr "w1"; JStr ""; JInt 7]) = Some [JStr "w1"].
Proof. split; vm_compute; reflexivity. Qed.
(** Data that is a reference to a large list is a list when it arrives: no answer at all. *)
Example no_object : sample_turn [JStr "w1"; JStr ""; request_fields (mkRequest "t" "i" (ref_to 0)) (ref_to 0); JList [JInt 1]] = None.
Proof. vm_compute. reflexivity. Qed.
(** A message that comes after the stop event is set is not looked at; one that came with it is awaited first. *)
Example loop_stops : (run_async_loop nodes Ret Ret JNull 4 sample_text 10 sample_dispatch [(false, [JStr "w1"; JStr ""]); (true, [JStr "w1"])]).2 = [(true, [JStr "w1"])].
Proof. vm_compute. reflexivity. Qed.
Example stale_segment : map (λ b, create_workload_shared_memory true false b false) [true; false] = [ShmMade; ShmNotUnlinked].
Proof. reflexivity. Qed.
Lemma request_answered_witness :
  ∃ p, ZmqProtocol.serialize_request nodes Ret 4 sample_request = Ret p ∧ is_Some (sample_turn (routed (JStr "w1") (worker_send JNull p))) ∧
    match sample_turn (routed (JStr "w1") (worker_send JNull p)) with
    | Some sent => ∃ r body, expected nodes Ret 4 sample_text sample_request (sample_dispatch sample_request) = Some r ∧ resp_id r = request_id sample_request ∧
        sent = JStr "w1" :: body ∧ worker_receive Ret JNull 10 body = Ret r
    | None => expected nodes Ret 4 sample_text sample_request (sample_dispatch sample_request) = None ∨
        ∃ text e, ZmqProtocol.serialize_response nodes Ret 4 (error_response (request_id sample_request) text) = Raise e
    end.
Proof.
  eexists. split; [vm_compute; reflexivity|]. split; [eexists; vm_compute; reflexivity|].
  apply (request_answered nodes Ret Ret JNull 4 sample_text sample_law 10 sample_dispatch (JStr "w1") sample_request).
  - vm_compute. reflexivity.
  - by eexists.
  - left. split; [reflexivity|cbn; lia].
  - intros r [= <-]. split; [split; [right; by eexists|]|reflexivity]. intros p' _. left. split; [reflexivity|cbn; lia].
Defined.
