(* ===== verification/Conductor.v ===== *)
(** * The conductor of the KV caches

    Models [coordinator/api_client/conductor_api_client.py] with the rest of
    [coordinator/scheduler/policy/kv_cache_affinity.py] and [policy/utils.py]: what is posted to
    the conductor for an instance, how a request becomes the token ids it is asked about, and
    the selection on the JSON of its answer, which refines that of [Policies]. *)

From stdpp Require Import base option list strings pretty.
From Stdlib Require Import ZArith Lia Ascii Sorted.
From Stdlib Require Import Floats.SpecFloat.
From S2P Require Import Prelude Float64 PyText Resources Policies CoordInstanceManager HttpClients.
Open Scope Z_scope.

(** ** Posts *)

Definition TENANT_ID : string := "default".
Record KvEventConfig := mkKvEvent {
  conductor_service : string;
  http_server_port : Z;
  block_size : Z;
  kv_endpoint : string;
  replay_endpoint : string;
  engine_type : string
}.

(** [s.split("*:")]. *)
Fixpoint split_star (l : list ascii) : list (list ascii) :=
  match l with
  | [] => [[]]
  | c :: l1 =>
      let more := match split_star l1 with p :: ps => (c :: p) :: ps | [] => [[c]] end in
      match l1 with d :: l2 => if decide (c = "*" ∧ d = ":")%char then [] :: split_star l2 else more | [] => more end
  end.
Definition split_endpoint (s : string) : list string := map of_chars (split_star (chars s)).

Definition instance_key (id : Z) : string := "vllm-prefill-" +:+ pretty id.
(** [f"{parts[0]}{endpoint.ip}:{str(int(parts[1]) + endpoint.id)}"]. *)
Definition endpoint_address (prefix port : string) (e : Endpoint) : py string :=
  match py_int 10 port with Some p => Ret (prefix +:+ ep_ip e +:+ ":" +:+ pretty (p + ep_id e)) | None => Raise ValueError end.

(** What a post says of the endpoint, the same for both. *)
Definition identity_fields (c : KvEventConfig) (i : Instance) (e : Endpoint) : list (string * json) :=
  [("type", JStr (engine_type c)); ("modelname", JStr (model_name i)); ("block_size", JInt (block_size c));
   ("instance_id", JStr (instance_key (ins_id i))); ("dp_rank", JInt (ep_id e))]%string.

(** A post to the conductor: the path and the body; whether it arrives changes nothing here. *)
Definition conductor_post : Type := string * list (string * json).
Definition post (path : string) (body : list (string * json)) : M (list conductor_post) unit := mmodify (λ l, l ++ [(path, body)]).

Definition register_post (c : KvEventConfig) (i : Instance) (e : Endpoint) : M (list conductor_post) unit :=
  match split_endpoint (kv_endpoint c) with
  | [prefix; port] =>
      address ← mlift (endpoint_address prefix port e);
      let data := ("endpoint", JStr address) :: identity_fields c i e in
      data ← (if bool_decide (replay_endpoint c = "") then mret data
              else match split_endpoint (replay_endpoint c) with
                   | [prefix; port] => address ← mlift (endpoint_address prefix port e); mret (app data [("replay_endpoint", JStr address)])
                   | _ => mret data
                   end);
      post "/register" data
  | _ => mret tt
  end%string.
Definition unregister_post (c : KvEventConfig) (i : Instance) (e : Endpoint) : M (list conductor_post) unit := post "/unregister" (identity_fields c i e).

Definition for_prefill (instances : list Instance) (f : Instance → Endpoint → M (list conductor_post) unit) : M (list conductor_post) unit :=
  mfor instances (λ i, if decide (role i = "prefill"%string) then mfor (endpoints_flat i) (f i) else mret tt).
Definition register_kv_instance (c : KvEventConfig) (instances : list Instance) : M (list conductor_post) unit := for_prefill instances (register_post c).
Definition unregister_kv_instance (c : KvEventConfig) (instances : list Instance) : M (list conductor_post) unit := for_prefill instances (unregister_post c).

(** ** Queries *)

Definition query_data (c : KvEventConfig) (instances : list Instance) (encoded_ids : json) : py json :=
  match instances with
  | [] => Raise IndexError
  | i :: _ => Ret (JObj [("model", JStr (model_name i)); ("block_size", JInt (block_size c)); ("token_ids", encoded_ids)]%string)
  end.
(** [conductor]: what a post of the query comes to. *)
Definition query_conductor (conductor : json → sent) (c : KvEventConfig) (instances : list Instance) (encoded_ids : json) : py json :=
  data ← query_data c instances encoded_ids;
  match request (conductor data) with Ret response => Ret response | Raise _ => Ret (JObj []) end.

(** ** Messages and tools *)

Definition jset (v : json) (key : string) (x : json) : py json :=
  match v with JObj d => Ret (JObj (dset d key x)) | _ => Raise TypeError end.
(** [for x in v]; of a string the characters. *)
Definition elements (v : json) : py (list json) :=
  match v with
  | JList l => Ret l
  | JObj d => Ret (map JStr (dkeys d))
  | JStr s => Ret (map (λ c, JStr (String c "")) (chars s))
  | _ => Raise TypeError
  end.
Fixpoint map_py {A B} (f : A → py B) (l : list A) : py (list B) :=
  match l with [] => Ret [] | x :: l => y ← f x; ys ← map_py f l; Ret (y :: ys) end.
(** A loop that changes what it runs over in place: only the elements of a list can be changed. *)
Definition for_each (f : json → py json) (v : json) : py json :=
  l ← elements v; l' ← map_py f l; Ret (match v with JList _ => JList l' | _ => v end).

Section preprocess.
(** [json.loads] and the characters Python prints as they are. *)
Context (loads : string → py json) (printable : ascii → bool).

Definition exchange_argument (tool : json) : py json :=
  has ← json_in "function" tool;
  if negb has then Ret tool
  else function ← jsub tool "function"; arguments ← jsub function "arguments";
       match arguments with
       | JStr s => x ← loads s; function' ← jset function "arguments" x; jset tool "function" function'
       | _ => Ret tool
       end.
Definition exchange_arguments (message : json) : py json :=
  has ← json_in "tool_calls" message;
  if negb has then Ret message
  else calls ← jsub message "tool_calls"; calls' ← for_each exchange_argument calls; jset message "tool_calls" calls'.

(** [repr] of a string. *)
Definition hex_digit (z : Z) : ascii := ascii_of_nat (Z.to_nat (if z <? 10 then 48 + z else 87 + z)).
Definition repr_char (quote c : ascii) : list ascii :=
  if decide (c = quote ∨ c = "\"%char) then ["\"%char; c]
  else if code c =? 9 then ["\"; "t"]%char
  else if code c =? 10 then ["\"; "n"]%char
  else if code c =? 13 then ["\"; "r"]%char
  else if printable c then [c]
  else ["\"; "x"]%char ++ [hex_digit (code c / 16); hex_digit (code c mod 16)].
Definition repr (s : string) : string :=
  let quote := if contains s "'" && negb (contains s (ascii_of_nat 34)) then ascii_of_nat 34 else "'"%char in
  of_chars (quote :: concat (map (repr_char quote) (chars s)) ++ [quote]).

Definition exchange_tool_content (message : json) : py json :=
  has ← json_in "role" message;
  if negb has then Ret message
  else role ← jsub message "role";
       if negb (is_str "tool" role) then Ret message
       else has ← json_in "content" message;
            if negb has then Ret message
            else content ← jsub message "content";
                 match content with
                 | JStr s => jset message "content" (JStr ("{'type': 'text', 'text': " +:+ repr s +:+ "}"))
                 | _ => Ret message
                 end.

(** [sorted(items, key=...)]: stable. *)
Definition priority (key : string) : Z :=
  if decide (key = "name") then 1 else if decide (key = "description") then 2 else if decide (key = "parameters") then 3 else 100.
Fixpoint insert_item (kv : string * json) (l : list (string * json)) : list (string * json) :=
  match l with [] => [kv] | kv' :: l' => if priority kv.1 <=? priority kv'.1 then kv :: l else kv' :: insert_item kv l' end.
Definition sorted_items (l : list (string * json)) : list (string * json) := foldr insert_item [] l.
Definition exchange_tools (tool : json) : py json :=
  has ← json_in "function" tool;
  if negb has then Ret tool
  else function ← jsub tool "function";
       match function with JObj d => jset tool "function" (JObj (sorted_items d)) | _ => Raise AttributeError end.

(** [preprocess_input]: on copies. *)
Definition preprocess_input (messages tools : json) : py (json * json) :=
  messages' ← for_each (λ m, m' ← exchange_arguments m; exchange_tool_content m') messages;
  tools' ← (if truthy tools then for_each exchange_tools tools else Ret JNull);
  Ret (messages', tools').

(** ** Token ids *)

(** A tokenizer: the ids of messages, the text of messages with tools, the ids of a text. *)
Record Tokenizer := mkTokenizer { template_ids : json → py json; template_text : json → json → py json; encode_text : json → py json }.
Record TokenizerManager := mkTM { tokenizer : option Tokenizer; openai_standard : string }.

Definition _apply_chat_template_with_preproces (t : Tokenizer) (messages tools : json) : py json :=
  '(messages_copy, tools_copy) ← preprocess_input messages tools;
  prompt ← template_text t messages_copy tools_copy;
  encode_text t prompt.
Definition apply_chat_template (tm : TokenizerManager) (messages tools : json) : py json :=
  match tokenizer tm with
  | None => Ret (JList [])
  | Some t =>
      if bool_decide (openai_standard tm = "STANDARD"%string) then template_ids t messages
      else match _apply_chat_template_with_preproces t messages tools with Ret ids => Ret ids | Raise _ => template_ids t messages end
  end.
Definition encode (tm : TokenizerManager) (prompt : json) : py json :=
  match tokenizer tm with None => Ret (JList []) | Some t => encode_text t prompt end.
Definition encoded_ids (tm : TokenizerManager) (req_data : json) : py json :=
  messages ← jget req_data "messages" JNull;
  tools ← jget req_data "tools" JNull;
  match messages with
  | JNull => prompt ← jget req_data "prompt" JNull; match prompt with JNull => Ret (JList []) | _ => encode tm prompt end
  | _ => apply_chat_template tm messages tools
  end.

(** ** Selection *)

(** [x < y] of numbers, exact as Python compares them. *)
Definition exact_lt (x : f64) (z : Z) : bool :=
  match x with
  | S754_zero _ => 0 <? z
  | S754_infinity s => s
  | S754_nan => false
  | S754_finite s m e => let v := if s then Z.neg m else Z.pos m in if 0 <=? e then v * 2 ^ e <? z else v <? z * 2 ^ (- e)
  end.
Definition exact_gt (x : f64) (z : Z) : bool :=
  match x with
  | S754_zero _ => z <? 0
  | S754_infinity s => negb s
  | S754_nan => false
  | S754_finite s m e => let v := if s then Z.neg m else Z.pos m in if 0 <=? e then z <? v * 2 ^ e else z * 2 ^ (- e) <? v
  end.
Definition json_number (v : json) : option (Z + f64) :=
  match v with JInt z => Some (inl z) | JBool b => Some (inl (Z.b2z b)) | JFloat x => Some (inr x) | _ => None end.
(** [max] starts as a number and stays one, so nothing but a number compares with it. *)
Definition py_lt (v max : json) : py bool :=
  match json_number v, json_number max with
  | Some (inl x), Some (inl y) => Ret (x <? y)
  | Some (inr x), Some (inl y) => Ret (exact_lt x y)
  | Some (inl x), Some (inr y) => Ret (exact_gt y x)
  | Some (inr x), Some (inr y) => Ret (flt x y)
  | _, _ => Raise TypeError
  end.

Fixpoint fold_py {A B} (f : A → B → py A) (l : list B) (acc : A) : py A :=
  match l with [] => Ret acc | x :: l => acc' ← f acc x; fold_py f l acc' end.
Definition select_step (tenant : json) (acc : json * option Instance * json) (i : Instance) : py (json * option Instance * json) :=
  instance_data ← jget tenant (instance_key (ins_id i)) JNull;
  match instance_data with
  | JNull => Ret acc
  | _ =>
      data_matched ← jget instance_data "longest_matched" (JInt 0);
      less ← py_lt data_matched acc.1.1;
      if less : bool then Ret acc
      else dp ← jget instance_data "DP" (JObj []); Ret (data_matched, Some i, dp)
  end.
Definition select_ep_step (i : Instance) (dp : json) (acc : json * option eptr) (p : eptr) : py (json * option eptr) :=
  match deref i p with
  | None => Ret acc
  | Some e => kv_dp ← jget dp (pretty (ep_id e)) (JInt 0); less ← py_lt kv_dp acc.1; Ret (if less : bool then acc else (kv_dp, Some p))
  end.
Definition select_endpoint (x : json * option Instance * json) : py (option (Instance * eptr)) :=
  match x.1.2 with
  | None => Ret None
  | Some i =>
      if negb (truthy x.2) then Ret None
      else y ← fold_py (A := json * option eptr) (select_ep_step i x.2) (all_pointers i) (JInt 0, None); Ret (option_map (λ p : eptr, (i, p)) y.2)
  end.
Definition select_from_tenant (tenant : json) (instances : list Instance) : py (option (Instance * eptr)) :=
  match tenant with
  | JNull => Ret None
  | _ => x ← fold_py (select_step tenant) instances (JInt 0, None, JObj []); select_endpoint x
  end.
Definition select_endpoint_from_list (conductor : json → sent) (c : KvEventConfig) (tm : TokenizerManager) (instances : list Instance) (req_data : json) :
    py (option (Instance * eptr)) :=
  ids ← encoded_ids tm req_data;
  rsp ← query_conductor conductor c instances ids;
  tenant ← jget rsp TENANT_ID JNull;
  select_from_tenant tenant instances.
End preprocess.

(** ** Lemmas *)

(** The answer of a conductor that knows what [Policies] calls a tenant. *)
Definition dp_json (dp : dict Z Z) : list (string * json) := map (λ '(id, n), (pretty id, JInt n)) dp.
Definition entry_json (e : kv_entry) : json := JObj [("longest_matched", JInt (longest_matched e)); ("DP", JObj (dp_json (kv_DP e)))]%string.
Definition tenant_json (d : dict Z kv_entry) : json := JObj (map (λ '(id, e), (instance_key id, entry_json e)) d).

Lemma instance_key_inj id id' : instance_key id = instance_key id' → id = id'.
Proof. intros H. apply (inj (String.append "vllm-prefill-")) in H. by apply (inj pretty) in H. Qed.
Lemma dget_map_key {A B} (k : Z → string) (f : A → B) (d : dict Z A) id :
  (∀ x y, k x = k y → x = y) → dget (map (λ '(id, e), (k id, f e)) d) (k id) = f <$> dget d id.
Proof.
  intros Hk. induction d as [|[x e] d IH]; cbn [map dget]; [done|]. destruct (decide (id = x)) as [->|Hne]; [by rewrite decide_True|].
  rewrite decide_False; [exact IH|]. intros H. by apply Hne, Hk.
Qed.
Lemma tenant_get d id : jget (tenant_json d) (instance_key id) JNull = Ret (match dget d id with Some e => entry_json e | None => JNull end).
Proof. unfold tenant_json, jget. rewrite (dget_map_key instance_key entry_json) by apply instance_key_inj. by destruct (dget d id). Qed.
Lemma dp_get dp id : jget (JObj (dp_json dp)) (pretty id) (JInt 0) = Ret (JInt (default 0 (dget dp id))).
Proof. unfold dp_json, jget. rewrite (dget_map_key pretty JInt) by (intros x y; apply (inj pretty)). by destruct (dget dp id). Qed.

Definition acc_json (x : Z * option Instance * dict Z Z) : json * option Instance * json := (JInt x.1.1, x.1.2, JObj (dp_json x.2)).
Lemma select_steps d l x : fold_py (select_step (tenant_json d)) l (acc_json x) = Ret (acc_json (fold_left (kv_step d) l x)).
Proof.
  revert x. induction l as [|i l IH]; intros [[m sel] dp]; cbn [fold_py fold_left]; [done|].
  unfold select_step at 2. cbn [acc_json fst snd]. rewrite tenant_get. cbn [mbind py_bind].
  unfold kv_step at 2. destruct (dget d (ins_id i)) as [e|]; [|apply IH]. 
  change (match entry_json e with JNull => _ | _ => _ end) with
    (data_matched ← jget (entry_json e) "longest_matched" (JInt 0); less ← py_lt data_matched (JInt m);
     if less : bool then Ret (acc_json (m, sel, dp)) else dp ← jget (entry_json e) "DP" (JObj []); Ret (data_matched, Some i, dp)).
  change (jget (entry_json e) "longest_matched" (JInt 0)) with (Ret (JInt (longest_matched e))).
  change (jget (entry_json e) "DP" (JObj [])) with (Ret (JObj (dp_json (kv_DP e)))).
  cbn [mbind py_bind py_lt json_number]. destruct (longest_matched e <? m); [apply IH|apply (IH (longest_matched e, Some i, kv_DP e))].
Qed.
Definition ep_json (x : Z * option eptr) : json * option eptr := (JInt x.1, x.2).
Lemma select_ep_steps i dp l x : fold_py (select_ep_step i (JObj (dp_json dp))) l (ep_json x) = Ret (ep_json (fold_left (kv_ep_step i dp) l x)).
Proof.
  revert x. induction l as [|p l IH]; intros [m sel]; cbn [fold_py fold_left]; [done|]. unfold select_ep_step at 2, kv_ep_step at 2.
  cbn [ep_json fst snd]. destruct (deref i p) as [e|]; [|apply IH]. rewrite dp_get. cbn [mbind py_bind py_lt json_number].
  destruct (default 0 (dget dp (ep_id e)) <? m); [apply IH|apply (IH (default 0 (dget dp (ep_id e)), Some p))].
Qed.
Lemma select_refines d instances : select_from_tenant (tenant_json d) instances = Ret (kv_select_endpoint_from_list instances (Some d)).
Proof.
  unfold select_from_tenant, kv_select_endpoint_from_list. change (tenant_json d) with (JObj (map (λ '(id, e), (instance_key id, entry_json e)) d)). cbv iota.
  change (JInt 0, @None Instance, JObj []) with (acc_json (0, None, [])). change (JObj (map _ d)) with (tenant_json d). rewrite select_steps. cbn [mbind py_bind].
  destruct (fold_left (kv_step d) instances (0, None, [])) as [[m sel] dp]. unfold acc_json, select_endpoint. cbn [fst snd]. destruct sel as [i|]; [|done].
  destruct dp as [|x dp]; [done|]. rewrite decide_False by done. replace (truthy (JObj (dp_json (x :: dp)))) with true by (by destruct x). cbn [negb].
  change (JInt 0, @None eptr) with (ep_json (0, None)). rewrite select_ep_steps.
  cbn [mbind py_bind fst snd]. by destruct (fold_left _ _ _) as [? []].
Qed.

(** A loop of posts. *)
Lemma mfor_posts {A} (l : list A) (f : A → M (list conductor_post) unit) (g : A → list conductor_post) s :
  (∀ x s, x ∈ l → f x s = (s ++ g x, Ret tt)) → mfor l f s = (s ++ concat (map g l), Ret tt).
Proof.
  revert s. induction l as [|x l IH]; intros s H; cbn [mfor map concat]; [by rewrite app_nil_r|]. unfold mbind, M_bind.
  rewrite (H x s) by left. rewrite IH by (intros y s' Hy; apply H; by right). by rewrite <- app_assoc.
Qed.
Lemma concat_singletons {A B} (f : A → B) l : concat (map (λ x, [f x]) l) = map f l.
Proof. induction l as [|x l IH]; cbn; [done|]. by rewrite IH. Qed.
Definition prefill_posts (instances : list Instance) (g : Instance → Endpoint → conductor_post) : list conductor_post :=
  concat (map (λ i, if decide (role i = "prefill"%string) then map (g i) (endpoints_flat i) else []) instances).
Lemma for_prefill_posts instances f g s :
  (∀ i e s, f i e s = (s ++ [g i e], Ret tt)) → for_prefill instances f s = (s ++ prefill_posts instances g, Ret tt).
Proof.
  intros H. unfold for_prefill, prefill_posts. apply mfor_posts. intros i s' _. case_decide; [|by rewrite app_nil_r].
  rewrite (mfor_posts (endpoints_flat i) (f i) (λ e, [g i e])) by (intros; apply H). by rewrite concat_singletons.
Qed.

(** A configured address: a prefix, ["*:"] and a port. *)
Definition address_parts (s prefix port : string) (p : Z) : Prop := split_endpoint s = [prefix; port] ∧ py_int 10 port = Some p.
Definition at_endpoint (prefix : string) (p : Z) (e : Endpoint) : json := JStr (prefix +:+ ep_ip e +:+ ":" +:+ pretty (p + ep_id e)).
Definition replay_fields (r : option (string * Z)) (e : Endpoint) : list (string * json) :=
  match r with Some (prefix, p) => [("replay_endpoint"%string, at_endpoint prefix p e)] | None => [] end.
(** The replay address is absent, has other parts, or is one. *)
Definition replay_parts (c : KvEventConfig) (r : option (string * Z)) : Prop :=
  match r with
  | Some (prefix, p) => replay_endpoint c ≠ ""%string ∧ ∃ port, address_parts (replay_endpoint c) prefix port p
  | None => replay_endpoint c = ""%string ∨ length (split_endpoint (replay_endpoint c)) ≠ 2%nat
  end.
Definition register_body (c : KvEventConfig) (prefix : string) (p : Z) (r : option (string * Z)) (i : Instance) (e : Endpoint) : conductor_post :=
  ("/register"%string, [("endpoint"%string, at_endpoint prefix p e)] ++ identity_fields c i e ++ replay_fields r e).

Lemma endpoint_address_ok prefix port p e : py_int 10 port = Some p → endpoint_address prefix port e = Ret (prefix +:+ ep_ip e +:+ ":" +:+ pretty (p + ep_id e)).
Proof. intros H. unfold endpoint_address. by rewrite H. Qed.
Lemma register_post_body c prefix port p r i e s :
  address_parts (kv_endpoint c) prefix port p → replay_parts c r → register_post c i e s = (s ++ [register_body c prefix p r i e], Ret tt).
Proof.
  intros [Hs Hp] Hr. unfold register_post. rewrite Hs, (endpoint_address_ok _ _ _ e Hp). unfold register_body, at_endpoint, replay_fields. unfold mlift, mbind, M_bind.
  destruct r as [[prefix' p']|]; cbn [replay_parts] in Hr.
  - destruct Hr as (Hne & port' & Hs' & Hp'). rewrite bool_decide_false by done. by rewrite Hs', (endpoint_address_ok _ _ _ e Hp').
  - destruct Hr as [Hr|Hr]; [by rewrite bool_decide_true|]. destruct (bool_decide _); [done|].
    destruct (split_endpoint (replay_endpoint c)) as [|x [|y [|z l]]]; cbn in *; done.
Qed.

(** ** Properties *)

(** C36: choosing by the conductor's answer.  For a request whose token ids can be made, the conductor
    is asked for those of the model of the first instance.  If it answers with what it has
    matched for instances and data-parallel ranks, the choice on the JSON of that is the
    abstract one, under which the prefill instance with the longest match is taken; if it
    does not answer, or with an error, nothing is chosen and the caller falls back. *)
Theorem affinity_refines loads printable conductor c tm i instances req_data ids d :
  encoded_ids loads printable tm req_data = Ret ids →
  let q := JObj [("model", JStr (model_name i)); ("block_size", JInt (block_size c)); ("token_ids", ids)]%string in
  let result := select_endpoint_from_list loads printable conductor c tm (i :: instances) req_data in
  (request (conductor q) = Ret (JObj [(TENANT_ID, tenant_json d)]) → result = Ret (kv_select_endpoint_from_list (i :: instances) (Some d))) ∧
  ((∃ e, request (conductor q) = Raise e) ∨ request (conductor q) = Ret (JObj []) → result = Ret (kv_select_endpoint_from_list (i :: instances) None)).
Proof.
  intros Hids q result. unfold result, select_endpoint_from_list. rewrite Hids. cbn [mbind py_bind]. unfold query_conductor, query_data. cbn [mbind py_bind]. fold q.
  split; [intros ->; cbn [jget dget TENANT_ID]; exact (select_refines d (i :: instances))|]. by intros [[e ->]| ->].
Qed.

(** What an instance is registered with.  Every endpoint of every prefill instance is posted
    once, in order, and of no other instance one: under the address of the endpoint with
    the port of its rank.  Unregistering posts the same identities, and an identity is that
    of one rank of one instance only; so both are the posts counted by the pools. *)
Theorem registered_endpoints c prefix port p r instances s m (rs : list ref) :
  address_parts (kv_endpoint c) prefix port p → replay_parts c r →
  register_kv_instance c instances s = (s ++ prefill_posts instances (register_body c prefix p r), Ret tt) ∧
  unregister_kv_instance c instances s = (s ++ prefill_posts instances (λ i e, ("/unregister"%string, identity_fields c i e)), Ret tt) ∧
  (∀ i e i' e', identity_fields c i e = identity_fields c i' e' → ins_id i = ins_id i' ∧ ep_id e = ep_id e') ∧
  (instances = map (store m) rs →
   prefill_posts instances (λ i e, (instance_key (ins_id i), [("dp_rank", JInt (ep_id e))]%string)) =
   map (λ x : bool * Z * Z, (instance_key x.1.2, [("dp_rank", JInt x.2)]%string)) (kv_posts_of m true rs)).
Proof.
  intros Hp Hr. split_and!.
  - apply for_prefill_posts. intros i e s'. by eapply register_post_body.
  - by apply for_prefill_posts.
  - intros i e i' e' H. split.
    + apply instance_key_inj. assert (Some (JStr (instance_key (ins_id i))) = Some (JStr (instance_key (ins_id i')))) by exact (f_equal (λ l, dget l "instance_id"%string) H). congruence.
    + assert (Some (JInt (ep_id e)) = Some (JInt (ep_id e'))) by exact (f_equal (λ l, dget l "dp_rank"%string) H). congruence.
  - intros ->. unfold prefill_posts, kv_posts_of. rewrite concat_map, !map_map. f_equal. apply map_ext. intros x. case_decide; [|done]. by rewrite map_map.
Qed.

(** An address whose port is no number stops the registration at the first prefill endpoint, and
    the exception leaves the refresh of the pools that asked for it. *)
Theorem bad_port_stops c prefix port i e es instances s :
  split_endpoint (kv_endpoint c) = [prefix; port] → py_int 10 port = None → role i = "prefill"%string → endpoints_flat i = e :: es →
  register_kv_instance c (i :: instances) s = (s, Raise ValueError).
Proof.
  intros Hs Hp Hi He. unfold register_kv_instance, for_prefill. cbn [mfor]. unfold mbind, M_bind. rewrite decide_True, He by done. cbn [mfor]. unfold mbind, M_bind.
  unfold register_post. rewrite Hs. unfold endpoint_address. by rewrite Hp.
Qed.

(** The order of a tool's function: nothing is lost, name, description and parameters come
    first, in that order, and the rest keeps its order. *)
Lemma insert_item_perm kv l : insert_item kv l ≡ₚ kv :: l.
Proof. induction l as [|x l IH]; cbn [insert_item]; [done|]. destruct (_ <=? _); [done|]. rewrite IH. apply Permutation_swap. Qed.
Lemma sorted_items_perm l : sorted_items l ≡ₚ l.
Proof. induction l as [|x l IH]; cbn; [done|]. by rewrite insert_item_perm, IH. Qed.
Definition priority_le (x y : string * json) : Prop := priority x.1 <= priority y.1.
Lemma insert_item_sorted kv l : StronglySorted priority_le l → StronglySorted priority_le (insert_item kv l).
Proof.
  induction l as [|x l IH]; intros Hs; cbn [insert_item]; [repeat constructor|]. apply StronglySorted_inv in Hs as [Hl Hx]. destruct (Z.leb_spec (priority kv.1) (priority x.1)) as [Hle|Hlt].
  - constructor; [by constructor|]. constructor; [done|]. eapply Forall_impl; [exact Hx|]. intros y Hy. unfold priority_le in *. lia.
  - constructor; [by apply IH|]. apply Forall_forall. intros y Hy. rewrite insert_item_perm in Hy. apply elem_of_cons in Hy as [->|Hy]; [unfold priority_le; lia|].
    by eapply Forall_forall in Hy.
Qed.
Lemma insert_item_stable n kv l :
  List.filter (λ x, priority x.1 =? n) (insert_item kv l) = (if priority kv.1 =? n then [kv] else []) ++ List.filter (λ x, priority x.1 =? n) l.
Proof.
  induction l as [|x l IH]; cbn [insert_item List.filter]; [by destruct (_ =? _)|]. destruct (Z.leb_spec (priority kv.1) (priority x.1)) as [Hle|Hlt]; cbn [List.filter].
  - by destruct (_ =? _).
  - rewrite IH. destruct (Z.eqb_spec (priority kv.1) n), (Z.eqb_spec (priority x.1) n); try done. lia.
Qed.
Theorem tool_order f :
  let f' := sorted_items f in
  f' ≡ₚ f ∧ StronglySorted priority_le f' ∧ ∀ n, List.filter (λ x, priority x.1 =? n) f' = List.filter (λ x, priority x.1 =? n) f.
Proof.
  intros f'. split_and!; [apply sorted_items_perm| |].
  - unfold f'. induction f as [|x f IH]; cbn; [constructor|by apply insert_item_sorted].
  - intros n. unfold f'. induction f as [|x f IH]; cbn [sorted_items foldr]; [done|]. rewrite insert_item_stable. unfold sorted_items in IH. rewrite IH. cbn [List.filter].
    by destruct (_ =? _).
Qed.

(** A message that differs from another only in its calls of tools and its content. *)
Definition same_message (m m' : json) : Prop :=
  match m, m' with
  | JObj d, JObj d' => dkeys d' = dkeys d ∧ ∀ k, k ≠ "tool_calls"%string → k ≠ "content"%string → dget d' k = dget d k
  | _, _ => m' = m
  end.
Lemma same_message_refl m : same_message m m.
Proof. by destruct m. Qed.
Lemma same_message_trans a b c : same_message a b → same_message b c → same_message a c.
Proof.
  intros H1 H2. destruct a as [| | | | | |d], b as [| | | | | |d']; cbn in H1; try discriminate H1; try (by injection H1 as <-); try done.
  destruct c as [| | | | | |d'']; cbn in H2 |- *; try discriminate H2. destruct H1 as [K1 D1], H2 as [K2 D2]. split; [by rewrite K2|]. intros k H1 H2. by rewrite D2, D1.
Qed.
Lemma jset_same v k x v' : k = "tool_calls"%string ∨ k = "content"%string → json_in k v = Ret true → jset v k x = Ret v' → same_message v v'.
Proof.
  intros Hk Hin Hset. destruct v as [| | | | | |d]; cbn in Hset; try discriminate Hset. injection Hset as <-. cbn [json_in] in Hin.
  assert (is_Some (dget d k)) as Hd by (apply dhas_true; congruence). split; [by apply dkeys_dset_old|].
  intros k' H1 H2. apply dget_dset_ne. destruct Hk; congruence.
Qed.
Lemma exchange_arguments_same loads m m' : exchange_arguments loads m = Ret m' → same_message m m'.
Proof.
  unfold exchange_arguments. intros (has & Hh & H)%bind_Ret. destruct has; cbn [negb] in H; [|injection H as <-; apply same_message_refl].
  apply bind_Ret in H as (calls & _ & H). apply bind_Ret in H as (calls' & _ & H). eapply jset_same; [by left|exact Hh|exact H].
Qed.
Lemma exchange_tool_content_same printable m m' : exchange_tool_content printable m = Ret m' → same_message m m'.
Proof.
  assert (Ret m = Ret m' → same_message m m') as Hr by (intros [= <-]; apply same_message_refl).
  unfold exchange_tool_content. intros (has & _ & H)%bind_Ret. destruct has; cbn [negb] in H; [|by apply Hr].
  apply bind_Ret in H as (role & _ & H). destruct (is_str "tool" role); cbn [negb] in H; [|by apply Hr].
  apply bind_Ret in H as (has & Hh & H). destruct has; cbn [negb] in H; [|by apply Hr].
  apply bind_Ret in H as (content & _ & H). destruct content; try (by apply Hr). eapply jset_same; [by right|exact Hh|exact H].
Qed.
Lemma map_py_Forall2 {A B} (f : A → py B) l l' : map_py f l = Ret l' → Forall2 (λ x y, f x = Ret y) l l'.
Proof.
  revert l'. induction l as [|x l IH]; cbn; intros l' H; [injection H as <-; constructor|].
  apply bind_Ret in H as (y & Hy & H). apply bind_Ret in H as (ys & Hys & H). injection H as <-. constructor; [done|by apply IH].
Qed.

(** Preprocessing keeps the messages: as many, in order, each with the keys and values it had
    but for the calls of tools and the content; without tools there are none. *)
Theorem preprocess_keeps_messages loads printable l tools messages' tools' :
  preprocess_input loads printable (JList l) tools = Ret (messages', tools') →
  (∃ l', messages' = JList l' ∧ Forall2 same_message l l') ∧ (truthy tools = false → tools' = JNull).
Proof.
  unfold preprocess_input. intros (ms & Hm & H)%bind_Ret. apply bind_Ret in H as (ts & Ht & H). injection H as <- <-. split.
  - unfold for_each in Hm. cbn [elements mbind py_bind] in Hm. apply bind_Ret in Hm as (l' & Hl & Hm). injection Hm as <-. exists l'. split; [done|].
    apply map_py_Forall2 in Hl. eapply Forall2_impl; [exact Hl|]. intros m m' (m1 & H1 & H2)%bind_Ret.
    eapply same_message_trans; [by eapply exchange_arguments_same|by eapply exchange_tool_content_same].
  - intros Hf. rewrite Hf in Ht. by injection Ht as <-.
Qed.

(** The ids of a request's messages: in the standard mode, and in the other whenever
    preprocessing, its template or the encoding of that raises, they are those of the plain
    template, without the tools. *)
Theorem template_falls_back loads printable t mode messages tools :
  let ids := apply_chat_template loads printable (mkTM (Some t) mode) messages tools in
  (mode = "STANDARD"%string → ids = template_ids t messages) ∧
  (∀ e, _apply_chat_template_with_preproces loads printable t messages tools = Raise e → ids = template_ids t messages) ∧
  (∀ x, mode ≠ "STANDARD"%string → _apply_chat_template_with_preproces loads printable t messages tools = Ret x → ids = Ret x).
Proof.
  intros ids. unfold ids, apply_chat_template. cbn [tokenizer openai_standard]. split_and!.
  - intros ->. by rewrite bool_decide_true.
  - intros e ->. by destruct (bool_decide _).
  - intros x Hm ->. by rewrite bool_decide_false.
Qed.

(** ** Samples *)

Definition sample_event : KvEventConfig := mkKvEvent "conductor" 13333 128 "tcp://*:5557" "tcp://*:6000" "vLLM".
Definition sample_prefill (id : Z) : Instance :=
  set_endpoints (Instance_init "job" "m" id "prefill" None false)
    [("10.0.0.1", [(0, Endpoint_init f0 0 "10.0.0.1" "1025" "1026" None None None None); (1, Endpoint_init f0 1 "10.0.0.1" "1027" "1028" None None None None)])]%string.
Example posts_of_instance :
  map (λ x, (x.1, dget x.2 "endpoint", dget x.2 "replay_endpoint")) (register_kv_instance sample_event [sample_prefill 7] []).1 =
    [("/register", Some (JStr "tcp://10.0.0.1:5557"), Some (JStr "tcp://10.0.0.1:6000"));
     ("/register", Some (JStr "tcp://10.0.0.1:5558"), Some (JStr "tcp://10.0.0.1:6001"))]%string.
Proof. vm_compute. reflexivity. Qed.
(** Two calls with arguments as text, a tool's answer with a quote, and a function in another order. *)
Definition sample_loads (s : string) : py json := if bool_decide (s = "{}"%string) then Ret (JObj []) else Raise ValueError.
Example preprocessed :
  preprocess_input sample_loads (λ _, true)
    (JList [JObj [("role", JStr "assistant"); ("tool_calls", JList [JObj [("function", JObj [("arguments", JStr "{}")])]; JObj [("id", JInt 1)]])];
            JObj [("role", JStr "tool"); ("content", JStr "it's")]])%string
    (JList [JObj [("function", JObj [("strict", JNull); ("parameters", JObj []); ("name", JStr "f")])]])%string =
  Ret (JList [JObj [("role", JStr "assistant"); ("tool_calls", JList [JObj [("function", JObj [("arguments", JObj [])])]; JObj [("id", JInt 1)]])];
              JObj [("role", JStr "tool"); ("content", JStr ("{'type': 'text', 'text': " +:+ String (ascii_of_nat 34) "it's" +:+ String (ascii_of_nat 34) "}"))]],
       JList [JObj [("function", JObj [("name", JStr "f"); ("parameters", JObj []); ("strict", JNull)])]])%string.
Proof. vm_compute. reflexivity. Qed.
Definition sample_tenant : dict Z kv_entry := [(1, mkKv 64 [(0, 64)]); (2, mkKv 128 [(0, 32); (1, 128)])].
Definition sample_conductor (q : json) : sent := Answered 200 (Ret (JObj [(TENANT_ID, tenant_json sample_tenant)])).
(** An endpoint the conductor does not know counts as matched by nothing, and is taken if no
    other has a match, the last one first. *)
Example unknown_ranks_chosen :
  option_map snd (kv_select_endpoint_from_list [sample_prefill 3] (Some [(3, mkKv 64 [(5, 64)])])) = Some ("10.0.0.1"%string, 1).
Proof. vm_compute. reflexivity. Qed.
Lemma affinity_refines_witness :
  select_endpoint_from_list sample_loads (λ _, true) sample_conductor sample_event (mkTM None "STANDARD") [sample_prefill 1; sample_prefill 2] (JObj [("prompt"%string, JStr "x")]) =
    Ret (kv_select_endpoint_from_list [sample_prefill 1; sample_prefill 2] (Some sample_tenant)) ∧
  option_map snd (kv_select_endpoint_from_list [sample_prefill 1; sample_prefill 2] (Some sample_tenant)) = Some ("10.0.0.1"%string, 1).
Proof.
  split; [|vm_compute; reflexivity].
  apply (affinity_refines sample_loads (λ _, true) sample_conductor sample_event (mkTM None "STANDARD") (sample_prefill 1) [sample_prefill 2] (JObj [("prompt"%string, JStr "x")]) (JList []) sample_tenant).
  - reflexivity.
  - reflexivity.
Defined.
