(* ===== verification/DaemonRun.v ===== *)
(** * The run of the coordinator daemon

    Models [CoordinatorDaemon.run] of [coordinator/daemon/coordinator_daemon.py] over the
    parts of [CoordDaemon]: the managers it makes, the start, what happens while it runs (rounds
    of the supervisor, heartbeats, processes that die, the callbacks of [Standby]) and the end.
    Steps of the event loop and of the standby thread are taken one after the other. *)

From stdpp Require Import base option list strings sets.
From Stdlib Require Import ZArith Lia.
From S2P Require Import Prelude Float64 Resources CoordInstanceManager WorkloadShm Standby CoordDaemon.
Open Scope Z_scope.

(** ** The run *)

(** [_initialize_process_managers]: no workers without the shared socket. *)
Definition initialize_process_managers (sock : bool) (num_workers : nat) : Daemon :=
  mkDaemon (λ _, false) 0 (λ _, []) 3
    ([(PROCESS_KEY_SCHEDULER, mkPM false 1 0 None); (PROCESS_KEY_MGMT, mkPM false 1 1 None)] ++
     (if sock then [(PROCESS_KEY_INFERENCE, mkPM true num_workers 2 None)] else [])) [] None.

(** What the daemon is started with: the configuration, the socket, the role memory ([None]: it
    cannot be made) with what is in an old one, the time, and how its first processes start. *)
Record DaemonStart := mkStart {
  enable_master_standby : bool;
  sock : bool;
  num_workers : nat;
  heartbeats : bool;
  shm : option (option bytes);
  start_ns : Z;
  births : string → nat → birth
}.

Definition make_role_shm (d : DaemonStart) : M Daemon unit :=
  if enable_master_standby d || heartbeats d then
    match shm d with
    | None => mret tt
    | Some existing =>
        mmodify (λ s, put_shm s (Some (holder_start existing (negb (enable_master_standby d)) (start_ns d)))) ;;
        if enable_master_standby d then write_role_shm_byte ROLE_SHM_STANDBY else mret tt
    end
  else mret tt.
Definition daemon_start (d : DaemonStart) : M Daemon unit :=
  make_role_shm d ;;
  start_processes [PROCESS_KEY_SCHEDULER; PROCESS_KEY_MGMT] (births d) ;;
  if enable_master_standby d then mret tt else start_processes [PROCESS_KEY_INFERENCE] (births d).

(** While it runs.  A round of the supervisor asks the standby manager for its role. *)
Inductive event :=
| Round (env : SupEnv) (is_master : bool)
| Beat (ns : Z)
| Dies (p : proc)
| Calls (x : callback) (b : string → nat → birth).
Definition daemon_event (enable_master_standby : bool) (e : event) : M Daemon unit :=
  match e with
  | Round env is_master => supervisor_round env (supervised_keys enable_master_standby is_master)
  | Beat ns => heartbeat ns
  | Dies p => mmodify (λ s, set_alive s (fupd (alive s) p false) (next_proc s))
  | Calls (OnBecomeMaster _) b => on_become_master b
  | Calls OnBecomeStandby _ => on_become_standby
  end.
(** An exception ends a round or a callback and nothing else. *)
Definition daemon_events (enable_master_standby : bool) (l : list event) (s : Daemon) : Daemon :=
  fold_left (λ s e, (daemon_event enable_master_standby e s).1) l s.

(** [run]: [late]: what still happens between the stop of the processes and that of the standby
    manager, when the supervisor has ended. *)
Definition daemon_running (d : DaemonStart) (l : list event) : Daemon :=
  daemon_events (enable_master_standby d) l (daemon_start d (initialize_process_managers (sock d) (num_workers d))).1.
Definition daemon_run (d : DaemonStart) (l late : list event) : Daemon :=
  put_shm (daemon_events (enable_master_standby d) late (stop_all_processes [] (daemon_running d l)).1) None.

(** ** Lemmas *)

Definition callbacks_of (l : list event) : list callback := omap (λ e, match e with Calls x _ => Some x | _ => None end) l.
(** Starts of processes that are made, whether they live or not. *)
Definition made (b : string → nat → birth) : Prop := ∀ name i, b name i ≠ BirthFails.
Definition makes (e : event) : Prop := match e with Round env _ => made (sup_births env) | Calls _ b => made b | _ => True end.

Definition role_byte (r : StandbyRole) : Z := match r with MASTER => ROLE_SHM_MASTER | STANDBY => ROLE_SHM_STANDBY end.

(** The daemon in a role: its managers, no live process out of their lists, no worker while it
    is standby, and the byte of the role it has written. *)
Definition owned (s : Daemon) : Prop :=
  ∀ p, alive s p = true → ∃ name m, dget (process_managers s) name = Some m ∧ p ∈ lists s (processes m).
(** Lists and the processes in them are there, and no two managers share a list. *)
Definition shape (s : Daemon) : Prop :=
  (∀ name m, dget (process_managers s) name = Some m →
     (processes m < next_list s)%nat ∧ ∀ p, p ∈ lists s (processes m) → (p < next_proc s)%nat) ∧
  ∀ n1 n2 m1 m2, n1 ≠ n2 → dget (process_managers s) n1 = Some m1 → dget (process_managers s) n2 = Some m2 → processes m1 ≠ processes m2.
Record in_state (r t : StandbyRole) (s : Daemon) : Prop := {
  ir_kinds : ∀ name m, dget (process_managers s) name = Some m → name ∈ STOP_ORDER ∧ inference m = bool_decide (name = PROCESS_KEY_INFERENCE);
  ir_shape : shape s;
  ir_owned : owned s;
  ir_idle : r = STANDBY → ∀ m, dget (process_managers s) PROCESS_KEY_INFERENCE = Some m → lists s (processes m) = [];
  ir_byte : ∀ buf, role_shm s = Some buf → head buf = Some (role_byte t)
}.
Abbreviation in_role r := (in_state r r).

Lemma write_heartbeat_head ns buf b : head buf = Some b → head (write_heartbeat ns buf) = Some b.
Proof.
  unfold write_heartbeat, pack_u. destruct (_ && _); [|done]. cbn [mbind py_bind]. unfold splice. case_decide; [|done]. by destruct buf.
Qed.

(** A step that leaves the lists of all managers but one as they are. *)
Record manager_step (name : string) (s s' : Daemon) : Prop := {
  ms_others : ∀ name', name' ≠ name → dget (process_managers s') name' = dget (process_managers s) name';
  ms_lists : ∀ name' m, name' ≠ name → dget (process_managers s) name' = Some m → lists s' (processes m) = lists s (processes m);
  ms_shm : role_shm s' = role_shm s;
  ms_refs : (next_list s <= next_list s')%nat ∧ (next_proc s <= next_proc s')%nat;
  ms_own : ∀ m', dget (process_managers s') name = Some m' →
    ((processes m' < next_list s')%nat ∧ ∀ p, p ∈ lists s' (processes m') → (p < next_proc s')%nat) ∧ ∃ m, dget (process_managers s) name = Some m ∧ inference m' = inference m ∧
      (processes m' = processes m ∨ (next_list s <= processes m')%nat);
  ms_alive : ∀ p, alive s' p = true →
    (∃ m', dget (process_managers s') name = Some m' ∧ p ∈ lists s' (processes m')) ∨
    (alive s p = true ∧ ∀ m, dget (process_managers s) name = Some m → p ∉ lists s (processes m))
}.

Lemma step_shape name s s' : shape s → manager_step name s s' → shape s'.
Proof.
  intros [Hr Hd] [M1 M2 M3 M4 M5 M6].
  assert (∀ n n' m' m, n' ≠ name → n = name → dget (process_managers s') n = Some m' → dget (process_managers s') n' = Some m → processes m' ≠ processes m) as Hx.
  { intros n n' m' m Hne -> Hm' Hm. rewrite M1 in Hm by done. destruct (M5 _ Hm') as (_ & m0 & Hm0 & _ & [E|E]).
    - rewrite E. apply (Hd name n'); [congruence|done|done].
    - destruct (Hr _ _ Hm). lia. }
  split.
  - intros n m Hm. destruct (decide (n = name)) as [->|Hne]; [by apply M5|]. rewrite M1 in Hm by done. destruct (Hr _ _ Hm) as [? Hp].
    split; [lia|]. intros p. rewrite (M2 n) by done. intros ?%Hp. lia.
  - intros n1 n2 m1 m2 Hne H1 H2. destruct (decide (n1 = name)) as [->|Hn1]; [by apply (Hx name n2); [congruence|..]|].
    destruct (decide (n2 = name)) as [->|Hn2]; [intros E; symmetry in E; revert E; by apply (Hx name n1)|]. rewrite M1 in H1, H2 by done. exact (Hd n1 n2 m1 m2 Hne H1 H2).
Qed.
Lemma step_in_role r t name s s' :
  in_state r t s → manager_step name s s' →
  (r = STANDBY → name = PROCESS_KEY_INFERENCE → ∀ m', dget (process_managers s') name = Some m' → lists s' (processes m') = []) → in_state r t s'.
Proof.
  intros [Hk Hr Ho Hi Hb] M Hn. pose proof (step_shape _ _ _ Hr M) as Hr'. destruct M as [M1 M2 M3 M4 M5 M6]. split; [|done| | |].
  - intros name' m' Hm'. destruct (decide (name' = name)) as [->|Hne]; [|apply Hk; by rewrite <- M1].
    destruct (M5 _ Hm') as (_ & m & Hm & -> & _). by apply Hk.
  - intros p Hp. destruct (M6 p Hp) as [(m' & H1 & H2)|[Ha Hno]]; [by exists name, m'|]. destruct (Ho p Ha) as (name' & m & Hm & Hin).
    destruct (decide (name' = name)) as [->|Hne]; [by destruct (Hno m Hm)|]. exists name', m. split; [by rewrite M1|]. by erewrite M2.
  - intros Hs m' Hm'. destruct (decide (PROCESS_KEY_INFERENCE = name)) as [<-|Hne]; [by apply Hn|].
    rewrite M1 in Hm' by done. erewrite M2 by done. by apply Hi.
  - intros buf Hbuf. apply Hb. by rewrite <- M3.
Qed.

Lemma manager_step_refl name s m : shape s → dget (process_managers s) name = Some m → manager_step name s s.
Proof.
  intros [Hr _] Hm. split; try done.
  - intros m' Hm'. split; [by eapply Hr|]. exists m'. split_and!; [done|done|by left].
  - intros p Hp. destruct (decide (p ∈ lists s (processes m))) as [Hin|Hin]; [left; by exists m|right; split; [done|]].
    intros m' Hm'. rewrite Hm in Hm'. by injection Hm' as <-.
Qed.
Lemma manager_step_trans name s1 s2 s3 : manager_step name s1 s2 → manager_step name s2 s3 → manager_step name s1 s3.
Proof.
  intros [A1 A2 A3 A4 A5 A6] [B1 B2 B3 B4 B5 B6]. split.
  - intros n Hn. by rewrite B1, A1.
  - intros n m Hn Hm. rewrite (B2 n m Hn) by (by rewrite A1). by apply A2 with n.
  - congruence.
  - lia.
  - intros m3 Hm3. destruct (B5 m3 Hm3) as (H & m2 & Hm2 & E2 & F2). destruct (A5 m2 Hm2) as (_ & m1 & Hm1 & E1 & F1). split; [done|].
    exists m1. split_and!; [done|congruence|]. destruct F1 as [F1|F1], F2 as [F2|F2]; try (right; lia). left. congruence.
  - intros p Hp. destruct (B6 p Hp) as [?|[Ha Hno]]; [by left|]. destruct (A6 p Ha) as [(m2 & Hm2 & Hin)|?]; [by destruct (Hno m2 Hm2)|by right].
Qed.

(** A process that is made and put at a place of its manager's list. *)
Lemma spawn_step name s m (l : list proc) b :
  shape s → dget (process_managers s) name = Some m → next_proc s ∈ l → (∀ p, p ∈ l → (p < S (next_proc s))%nat) → (∀ p, p ∈ lists s (processes m) → alive s p = true → p ∈ l) →
  manager_step name s (set_lists (set_alive s (fupd (alive s) (next_proc s) b) (S (next_proc s))) (fupd (lists s) (processes m) l) (next_list s)).
Proof.
  intros [Hr Hd] Hm Hn Hlt Hl. split; cbn [process_managers lists role_shm next_list set_lists set_alive]; try done.
  - intros n m' Hne Hm'. unfold fupd. rewrite decide_False; [done|]. by apply (Hd n name).
  - cbn [next_proc set_lists set_alive]. lia.
  - intros m' Hm'. rewrite Hm in Hm'. injection Hm' as <-. destruct (Hr _ _ Hm) as [? Hp]. split; [split; [done|]|exists m; split_and!; [done|done|by left]].
    unfold fupd. rewrite decide_True by done. cbn [next_proc set_lists set_alive]. intros p. apply Hlt.
  - intros p. cbn [alive set_lists set_alive]. unfold fupd at 1. destruct (decide (p = next_proc s)) as [->|Hne]; intros Hp.
    + left. exists m. split; [done|]. unfold fupd. by rewrite decide_True.
    + destruct (decide (p ∈ lists s (processes m))) as [Hin|Hin].
      * left. exists m. split; [done|]. unfold fupd. rewrite decide_True by done. by apply Hl.
      * right. split; [done|]. intros m' Hm'. rewrite Hm in Hm'. by injection Hm' as <-.
Qed.
(** Changes of the manager's record, its processes killed, and a new empty list for it. *)
Lemma put_step name s m m' :
  shape s → dget (process_managers s) name = Some m → processes m' = processes m → inference m' = inference m → manager_step name s (put_manager s name m').
Proof.
  intros [Hr _] Hm Hp Hi. split; cbn [process_managers lists role_shm next_list put_manager alive]; try done.
  - intros n Hne. by rewrite dget_dset_ne.
  - intros m2 Hm2. rewrite dget_dset_eq in Hm2. injection Hm2 as <-. rewrite Hp. split; [by eapply Hr|]. exists m. split_and!; [done|done|by left].
  - intros p Ha. destruct (decide (p ∈ lists s (processes m))) as [Hin|Hin].
    + left. exists m'. by rewrite dget_dset_eq, Hp.
    + right. split; [done|]. intros m2 Hm2. rewrite Hm in Hm2. by injection Hm2 as <-.
Qed.
Lemma kill_step name s m l : shape s → dget (process_managers s) name = Some m → manager_step name s (kill_all l s).
Proof.
  intros [Hr _] Hm. split; try done.
  - intros m' Hm'. split; [by eapply Hr|]. exists m'. split_and!; [done|done|by left].
  - intros p. rewrite kill_all_alive. case_decide; [done|]. intros Hp.
    destruct (decide (p ∈ lists s (processes m))) as [Hin|Hin]; [left; by exists m|right; split; [done|]]. intros m' Hm'. rewrite Hm in Hm'. by injection Hm' as <-.
Qed.
Lemma fresh_step name s m m' :
  shape s → dget (process_managers s) name = Some m → processes m' = next_list s → inference m' = inference m → (∀ p, p ∈ lists s (processes m) → alive s p = false) →
  manager_step name s (put_manager (set_lists s (fupd (lists s) (next_list s) []) (S (next_list s))) name m').
Proof.
  intros [Hr _] Hm Hp Hi Hdead. split; cbn [process_managers lists role_shm next_list put_manager set_lists alive]; try done.
  - intros n Hne. by rewrite dget_dset_ne.
  - intros n m2 Hne Hm2. unfold fupd. rewrite decide_False; [done|]. destruct (Hr _ _ Hm2). lia.
  - cbn [next_proc put_manager set_lists]. lia.
  - intros m2 Hm2. rewrite dget_dset_eq in Hm2. injection Hm2 as <-. split; [split; [lia|]; intros p; unfold fupd; rewrite decide_True by done; by intros ?%elem_of_nil|]. exists m. split_and!; [done|done|right; lia].
  - intros p Ha. right. split; [done|]. intros m2 Hm2 Hin. rewrite Hm in Hm2. injection Hm2 as <-. rewrite (Hdead p Hin) in Ha. discriminate Ha.
Qed.

(** *** The operations of a manager *)

Lemma start_from_step name m births : (∀ i, births i ≠ BirthFails) → ∀ n i s,
  shape s → dget (process_managers s) name = Some m →
  ∃ s', start_processes_from (processes m) i n births s = (s', Ret tt) ∧ manager_step name s s' ∧ dget (process_managers s') name = Some m.
Proof.
  intros Hb. induction n as [|n IH]; intros i s Hs Hm; cbn [start_processes_from].
  { exists s. split_and!; [done|by eapply manager_step_refl|done]. }
  destruct (births i) as [|b] eqn:Eb; [by destruct (Hb i)|]. do 3 erewrite M_bind_Ret by reflexivity. cbn [fst snd lists set_alive].
  pose proof (spawn_step name s m (lists s (processes m) ++ [next_proc s]) b Hs Hm) as Hstep. destruct (proj1 Hs _ _ Hm) as [_ Hp].
  specialize (Hstep ltac:(set_solver) ltac:(intros p [?%Hp| ->%list_elem_of_singleton]%elem_of_app; lia) ltac:(set_solver)).
  destruct (IH (S i) _ (step_shape _ _ _ Hs Hstep) Hm) as (s' & H1 & H2 & H3). exists s'. split_and!; [exact H1| |done]. by eapply manager_step_trans.
Qed.

Lemma pm_start_step name m births s :
  (∀ i, births i ≠ BirthFails) → shape s → dget (process_managers s) name = Some m →
  (is_running s m = true ∨ ∀ p, p ∈ lists s (processes m) → alive s p = false) →
  ∃ s' b, pm_start name m births s = (s', Ret b) ∧ manager_step name s s'.
Proof.
  intros Hb Hs Hm Hr. unfold pm_start. erewrite M_bind_Ret by reflexivity. destruct (is_running s m) eqn:Er.
  { exists s, true. split; [done|]. by eapply manager_step_refl. }
  destruct Hr as [Hr|Hdead]; [discriminate Hr|]. erewrite M_bind_Ret by reflexivity. cbv zeta. set (m1 := mkPM (inference m) (process_count m) (next_list s) (finalizer m)).
  erewrite M_bind_Ret by reflexivity. cbn [mmodify fst snd].
  pose proof (fresh_step name s m m1 Hs Hm eq_refl eq_refl Hdead) as H1. set (s1 := put_manager _ name m1) in *.
  assert (dget (process_managers s1) name = Some m1) as Hm1 by apply dget_dset_eq.
  destruct (start_from_step name m1 births Hb (process_count m1) 0 s1 (step_shape _ _ _ Hs H1) Hm1) as (s2 & E2 & H2 & Hm2).
  erewrite (M_bind_Ret _ _ _ s2 true) by (unfold mexcept; by rewrite (M_bind_Ret _ _ _ _ _ E2)). cbv iota. erewrite M_bind_Ret by reflexivity.
  pose proof (manager_step_trans _ _ _ _ H1 H2) as H12. destruct (is_running s2 m1).
  - eexists _, true. split; [reflexivity|]. eapply manager_step_trans; [exact H12|]. eapply (put_step name s2 m1); [by eapply step_shape|done|done|done].
  - by exists s2, false.
Qed.

Lemma pm_stop_step name m s : shape s → dget (process_managers s) name = Some m →
  ∃ s', pm_stop name m s = (s', Ret tt) ∧ manager_step name s s' ∧ ∃ m', dget (process_managers s') name = Some m' ∧ lists s' (processes m') = [].
Proof.
  intros Hs Hm. unfold pm_stop. erewrite M_bind_Ret by reflexivity. cbn [mmodify fst snd]. set (s1 := match finalizer m with Some _ => _ | None => s end).
  assert (manager_step name s s1 ∧ dget (process_managers s1) name = Some m) as [H1 Hm1].
  { unfold s1. destruct (finalizer m); split; try done; [by eapply kill_step|by eapply manager_step_refl]. }
  do 2 erewrite M_bind_Ret by reflexivity. cbn [mmodify fst snd]. pose proof (step_shape _ _ _ Hs H1) as Hs1.
  pose proof (kill_step name s1 m (lists s1 (processes m)) Hs1 Hm1) as H2. set (s2 := kill_all _ s1) in *. pose proof (step_shape _ _ _ Hs1 H2) as Hs2.
  eexists. split; [reflexivity|]. split.
  - eapply manager_step_trans; [exact H1|]. eapply manager_step_trans; [exact H2|]. eapply (fresh_step name s2 m); [done|done|done|done|].
    intros p Hp. unfold s2. rewrite kill_all_alive. by rewrite decide_True.
  - eexists. cbn [process_managers put_manager]. rewrite dget_dset_eq. split; [done|]. cbn. unfold fupd. by rewrite decide_True.
Qed.

Lemma replace_workers_step name m births dead : ∀ s,
  (∀ i p, i ∈ dead → lists s (processes m) !! i = Some p → alive s p = false) → Forall (λ i, (i < length (lists s (processes m)))%nat) dead → NoDup dead →
  shape s → dget (process_managers s) name = Some m →
  ∃ s', replace_workers (processes m) dead births s = (s', Ret tt) ∧ manager_step name s s' ∧ dget (process_managers s') name = Some m.
Proof.
  induction dead as [|i dead IH]; intros s Hd Hlen Hnd Hs Hm; cbn [replace_workers]; [exists s; split_and!; [done|by eapply manager_step_refl|done]|].
  apply NoDup_cons in Hnd as [Hi Hnd]. apply Forall_cons in Hlen as [Hil Hlen]. destruct (births i) as [|b] eqn:Eb.
  { erewrite M_bind_Ret by reflexivity. cbn [fst snd]. apply IH; try done. intros j p Hj. apply Hd. by right. }
  erewrite M_bind_Ret by reflexivity. destruct (proj1 Hs _ _ Hm) as [_ Hp]. set (l := lists s (processes m)) in *.
  assert (Hstep : manager_step name s (set_lists (set_alive s (fupd (alive s) (next_proc s) b) (S (next_proc s))) (fupd (lists s) (processes m) (<[i := next_proc s]> l)) (next_list s))).
  { apply spawn_step; [done|done| | |].
    - apply list_elem_of_lookup. exists i. by apply list_lookup_insert_eq.
    - intros p [j Hj]%list_elem_of_lookup. destruct (decide (i = j)) as [->|Hne]; [rewrite list_lookup_insert_eq in Hj by done; injection Hj as <-; lia|].
      rewrite list_lookup_insert_ne in Hj by done. specialize (Hp p). apply list_elem_of_lookup_2 in Hj. specialize (Hp Hj). lia.
    - intros p [j Hj]%list_elem_of_lookup Ha. destruct (decide (i = j)) as [->|Hne]; [rewrite (Hd j p) in Ha; [done|left|done]|].
      apply list_elem_of_lookup. exists j. by rewrite list_lookup_insert_ne. }
  edestruct (IH (set_lists (set_alive s (fupd (alive s) (next_proc s) b) (S (next_proc s))) (fupd (lists s) (processes m) (<[i := next_proc s]> l)) (next_list s)))
    as (s' & H1 & H2 & H3); [..|exists s'; split_and!; [exact H1|by eapply manager_step_trans|done]]; cbn [lists alive set_lists set_alive]; unfold fupd.
  - intros j p Hj. rewrite decide_True by done. rewrite list_lookup_insert_ne by (intros ->; done). intros Hl.
    assert (p < next_proc s)%nat by (apply Hp; by eapply list_elem_of_lookup_2). rewrite decide_False by lia. apply (Hd j); [by right|done].
  - rewrite decide_True by done. by rewrite length_insert.
  - done.
  - by eapply step_shape.
  - done.
Qed.

(** *** The daemon *)

Lemma in_role_limit r t s name l : in_state r t s → in_state r t (put_limit s name l).
Proof. by intros []. Qed.

Lemma restart_step r t m births s : in_state r t s → dget (process_managers s) PROCESS_KEY_INFERENCE = Some m →
  ∃ s' b, restart_dead_workers m births s = (s', Ret b) ∧ in_state r t s'.
Proof.
  intros H Hm. unfold restart_dead_workers. erewrite M_bind_Ret by reflexivity. case_decide as Hd; [by exists s, true|].
  destruct (replace_workers_step PROCESS_KEY_INFERENCE m births (dead_indices s (lists s (processes m))) s) as (s' & E & M & _); [|apply Forall_forall| |apply H|done|].
  - intros i p (q & Hq & Ha)%elem_of_dead Hp. congruence.
  - intros i (q & Hq & _)%elem_of_dead. by eapply lookup_lt_Some.
  - apply dead_NoDup.
  - rewrite (M_bind_Ret _ _ _ _ _ E). erewrite M_bind_Ret by reflexivity. eexists _, _. split; [reflexivity|]. eapply step_in_role; [exact H|exact M|].
    intros -> _. destruct Hd. by rewrite (ir_idle _ _ _ H eq_refl m Hm).
Qed.

Lemma supervise_role r t env name : made (sup_births env) → preserves (in_state r t) (supervise_one env name).
Proof.
  intros Hb s H. unfold supervise_one. erewrite M_bind_Ret by reflexivity. destruct (dget (process_managers s) name) as [m|] eqn:Em; [|done].
  destruct (is_running s m); [done|]. destruct (can_restart _ _) as [ok l]. erewrite M_bind_Ret by reflexivity. cbn [mmodify fst snd].
  apply (in_role_limit _ _ _ name l) in H. set (s1 := put_limit s name l) in *. destruct ok; [|done]. change (process_managers s) with (process_managers s1) in Em.
  assert (∀ s' b, in_state r t s' → in_state r t ((if b : bool then mmodify (λ s, put_limit s name (record (recorded_at env name) (limit_of s name))) else mret tt) s').1) as Hrec.
  { intros s' [] Hs'; [by apply in_role_limit|done]. }
  destruct (ir_kinds _ _ _ H _ _ Em) as [_ Hk]. destruct (inference m).
  - symmetry in Hk. apply bool_decide_eq_true in Hk as ->. destruct (restart_step r t m (sup_births env PROCESS_KEY_INFERENCE) s1 H Em) as (s' & b & E & H').
    rewrite (M_bind_Ret _ _ _ _ _ E). by apply Hrec.
  - symmetry in Hk. apply bool_decide_eq_false in Hk. destruct (pm_stop_step name m s1 (ir_shape _ _ _ H) Em) as (s2 & E2 & M2 & m2 & Hm2 & Hl2).
    destruct (pm_start_step name m2 (sup_births env name) s2 (Hb name) (step_shape _ _ _ (ir_shape _ _ _ H) M2) Hm2) as (s3 & b & E3 & M3); [right; rewrite Hl2; by intros p ?%elem_of_nil|].
    erewrite M_bind_Ret by (rewrite (M_bind_Ret _ _ _ _ _ E2); erewrite M_bind_Ret by reflexivity; rewrite Hm2; exact E3). apply Hrec.
    eapply step_in_role; [exact H|by eapply manager_step_trans|done].
Qed.

Lemma round_role r t env b : made (sup_births env) → preserves (in_state r t) (supervisor_round env b).
Proof.
  intros Hb s H. unfold supervisor_round. erewrite M_bind_Ret by reflexivity.
  apply (preserves_for (in_state r t) (dkeys (process_managers s))); [|done]. intros name _. destruct (b name); [by apply supervise_role|by intros s' ?].
Qed.

Lemma write_byte_role r t t' s : in_state r t s → in_state r t' (write_role_shm_byte (role_byte t') s).1.
Proof.
  intros [Hk Hs Ho Hi Hb]. unfold write_role_shm_byte. cbn [mmodify fst]. destruct (role_shm s) as [buf|] eqn:E; split; try done.
  - intros buf' [= <-]. specialize (Hb buf eq_refl). by destruct buf.
  - intros buf'. by rewrite E.
Qed.
Lemma start_inference_role t b s : made b → in_state STANDBY t s → in_state MASTER t (start_processes [PROCESS_KEY_INFERENCE] b s).1.
Proof.
  intros Hb H. unfold start_processes. cbn [mfor]. assert (in_state MASTER t s) as H' by (by destruct H).
  destruct (dget (process_managers s) PROCESS_KEY_INFERENCE) as [m|] eqn:Em.
  - destruct (pm_start_step PROCESS_KEY_INFERENCE m (b PROCESS_KEY_INFERENCE) s (Hb _) (ir_shape _ _ _ H) Em) as (s' & r & E & M).
    { right. rewrite (ir_idle _ _ _ H eq_refl m Em). by intros p ?%elem_of_nil. }
    erewrite M_bind_Ret by (erewrite M_bind_Ret by reflexivity; rewrite Em; by rewrite (M_bind_Ret _ _ _ _ _ E)). cbn [fst mret M_ret].
    by apply (step_in_role _ _ _ _ _ H' M).
  - by erewrite M_bind_Ret by (erewrite M_bind_Ret by reflexivity; by rewrite Em).
Qed.
Lemma become_master_role report b s : made b → in_role STANDBY s → in_role MASTER (daemon_event true (Calls (OnBecomeMaster report) b) s).1.
Proof.
  intros Hb H. cbn [daemon_event]. unfold on_become_master. erewrite M_bind_Ret by reflexivity. apply start_inference_role; [done|]. exact (write_byte_role _ _ MASTER _ H).
Qed.

(** Stopping one manager, and no other. *)
Definition stopped (name : string) (s : Daemon) : Prop := ∀ m, dget (process_managers s) name = Some m → lists s (processes m) = [].
Lemma stop_one_role r t name s : in_state r t s →
  let step := (s ← mget; match dget (process_managers s) name with None => mret tt | Some m => pm_stop name m end) : M Daemon unit in
  ∃ s', step s = (s', Ret tt) ∧ in_state r t s' ∧ stopped name s' ∧ ∀ name', stopped name' s → stopped name' s'.
Proof.
  intros H step. unfold step. erewrite M_bind_Ret by reflexivity. destruct (dget (process_managers s) name) as [m|] eqn:Em.
  - destruct (pm_stop_step name m s (ir_shape _ _ _ H) Em) as (s' & E & M & m' & Hm' & Hl). exists s'. split; [done|].
    assert (stopped name s') as Hst by (intros m2 Hm2; congruence). split_and!.
    + eapply step_in_role; [exact H|exact M|]. intros _ _. exact Hst.
    + done.
    + intros name' Hn. destruct (decide (name' = name)) as [->|Hne]; [done|]. intros m2 Hm2. destruct M as [M1 M2 _ _ _ _].
      rewrite M1 in Hm2 by done. rewrite (M2 name') by done. by apply Hn.
  - exists s. split_and!; try done. intros m Hm. congruence.
Qed.
Lemma become_standby_role b s : in_role MASTER s → in_role STANDBY (daemon_event true (Calls OnBecomeStandby b) s).1.
Proof.
  intros H. cbn [daemon_event]. unfold on_become_standby. erewrite M_bind_Ret by reflexivity. pose proof (write_byte_role _ _ STANDBY _ H) as H0. cbn [fst] in H0.
  set (s0 := (write_role_shm_byte (role_byte STANDBY) s).1) in *. change (write_role_shm_byte ROLE_SHM_STANDBY s).1 with s0. unfold stop_all_processes, STOP_ORDER. cbn [mfor].
  rewrite (bool_decide_false (PROCESS_KEY_INFERENCE ∈ _)) by (unfold PROCESS_KEY_INFERENCE, PROCESS_KEY_MGMT, PROCESS_KEY_SCHEDULER; set_solver).
  rewrite (bool_decide_true (PROCESS_KEY_MGMT ∈ _)) by set_solver. rewrite (bool_decide_true (PROCESS_KEY_SCHEDULER ∈ _)) by set_solver.
  destruct (stop_one_role MASTER STANDBY PROCESS_KEY_INFERENCE s0 H0) as (s1 & E & H1 & Hst & _). rewrite (M_bind_Ret _ _ _ _ _ E). do 2 erewrite M_bind_Ret by reflexivity.
  cbn [fst mret M_ret]. destruct H1 as [Hk Hs Ho _ Hb]. split; done.
Qed.

(** *** The start *)

Lemma start_one_role r t name b s : name ≠ PROCESS_KEY_INFERENCE → made b → in_state r t s → stopped name s →
  let step := (s ← mget; match dget (process_managers s) name with None => mret tt | Some m => pm_start name m (b name) ;; mret tt end) : M Daemon unit in
  ∃ s', step s = (s', Ret tt) ∧ in_state r t s' ∧ ∀ name', name' ≠ name → stopped name' s → stopped name' s'.
Proof.
  intros Hname Hb H Hst step. unfold step. erewrite M_bind_Ret by reflexivity. destruct (dget (process_managers s) name) as [m|] eqn:Em; [|by exists s].
  destruct (pm_start_step name m (b name) s (Hb _) (ir_shape _ _ _ H) Em) as (s' & x & E & M); [right; rewrite (Hst m Em); by intros p ?%elem_of_nil|].
  exists s'. split_and!; [by rewrite (M_bind_Ret _ _ _ _ _ E)|by apply (step_in_role _ _ _ _ _ H M)|].
  intros name' Hne Hn m2 Hm2. destruct M as [M1 M2 _ _ _ _]. rewrite M1 in Hm2 by done. rewrite (M2 name') by done. by apply Hn.
Qed.

Lemma initial_in_role t sock n : in_state STANDBY t (initialize_process_managers sock n) ∧ ∀ name, stopped name (initialize_process_managers sock n).
Proof.
  split; [|by intros name m _]. split; [| |done|by intros _ m _|done].
  - intros name m H%dget_Some_in. destruct sock; cbn in H; set_unfold; naive_solver.
  - split.
    + intros name m H%dget_Some_in. split; [|by intros p ?%elem_of_nil]. destruct sock; cbn in H |- *; set_unfold; naive_solver.
    + intros n1 n2 m1 m2 Hne H1%dget_Some_in H2%dget_Some_in. destruct sock; cbn in H1, H2; set_unfold; naive_solver.
Qed.

Lemma holder_start_head existing init ns : ∃ x, head (holder_start existing init ns) = Some x ∧ (init = true → x = ROLE_SHM_MASTER).
Proof.
  assert (∀ buf, buf ≠ [] → ∃ x, head (write_initial init ns buf) = Some x ∧ (init = true → x = ROLE_SHM_MASTER)) as Hw.
  { intros [|b buf] Hne; [done|]. unfold write_initial. destruct init; eexists; (split; [apply write_heartbeat_head; reflexivity|done]). }
  unfold holder_start. destruct existing as [buf|]; [|by apply Hw]. destruct (ROLE_SHM_SIZE <=? length buf)%nat eqn:E; apply Hw; [|done].
  intros ->. discriminate E.
Qed.
Definition first_role (d : DaemonStart) : StandbyRole := if enable_master_standby d then STANDBY else MASTER.
Lemma make_shm_role d s : in_state STANDBY (first_role d) s → role_shm s = None → ∃ s', make_role_shm d s = (s', Ret tt) ∧ in_state STANDBY (first_role d) s' ∧
  process_managers s' = process_managers s ∧ lists s' = lists s.
Proof.
  intros H Hn. unfold make_role_shm. destruct (enable_master_standby d || heartbeats d); [|by exists s]. destruct (shm d) as [existing|]; [|by exists s].
  destruct (holder_start_head existing (negb (enable_master_standby d)) (start_ns d)) as (x & Hx & Hm). erewrite M_bind_Ret by reflexivity. cbn [mmodify fst snd].
  set (s1 := put_shm s _). unfold first_role in *. destruct (enable_master_standby d).
  - eexists. split; [reflexivity|]. cbn [negb] in *. destruct H as [Hk Hs Ho Hi Hb]. cbn [role_shm s1 put_shm]. split_and!; try done. split; try done.
    cbn [role_shm put_shm]. intros buf [= <-]. by destruct (holder_start existing false (start_ns d)).
  - exists s1. split; [done|]. destruct H as [Hk Hs Ho Hi Hb]. split_and!; try done. split; try done. cbn [negb role_shm s1 put_shm] in *. intros buf [= <-]. rewrite Hx. f_equal. by apply Hm.
Qed.

Lemma started_role d : made (births d) → in_role (first_role d) (daemon_start d (initialize_process_managers (sock d) (num_workers d))).1.
Proof.
  intros Hb. unfold daemon_start. destruct (initial_in_role (first_role d) (sock d) (num_workers d)) as [H0 S0]. set (s0 := initialize_process_managers _ _) in *.
  destruct (make_shm_role d s0 H0 eq_refl) as (s1 & E1 & H1 & P1 & L1). rewrite (M_bind_Ret _ _ _ _ _ E1).
  assert (∀ name, stopped name s1) as S1 by (intros name m; rewrite P1, L1; apply S0).
  destruct (start_one_role _ _ PROCESS_KEY_SCHEDULER (births d) s1 ltac:(done) Hb H1 (S1 _)) as (s2 & E2 & H2 & S2).
  destruct (start_one_role _ _ PROCESS_KEY_MGMT (births d) s2 ltac:(done) Hb H2) as (s3 & E3 & H3 & _); [by apply S2; [|apply S1]|].
  assert (start_processes [PROCESS_KEY_SCHEDULER; PROCESS_KEY_MGMT] (births d) s1 = (s3, Ret tt)) as E.
  { unfold start_processes. cbn [mfor]. rewrite (M_bind_Ret _ _ _ _ _ E2). by rewrite (M_bind_Ret _ _ _ _ _ E3). }
  rewrite (M_bind_Ret _ _ _ _ _ E). unfold first_role in *. destruct (enable_master_standby d); [exact H3|].
  by apply start_inference_role.
Qed.

(** *** The events *)

Definition role_after (r : StandbyRole) (l : list event) : option StandbyRole := fold_left role_step (callbacks_of l) (Some r).
Lemma role_step_none l : fold_left role_step l None = None.
Proof. by induction l. Qed.
Lemma events_role em l : ∀ r r' s,
  Forall makes l → (em = true ∨ callbacks_of l = []) → role_after r l = Some r' → in_role r s → in_role r' (daemon_events em l s).
Proof.
  induction l as [|e l IH]; intros r r' s Hm He Hr H; [by injection Hr as <-|]. apply Forall_cons in Hm as [Hm Hms]. cbn [daemon_events fold_left].
  assert (∀ s', in_role r s' → callbacks_of (e :: l) = callbacks_of l → in_role r' (daemon_events em l s')) as Hnext.
  { intros s' Hs' E. apply (IH r); [done| |unfold role_after in *; by rewrite E in Hr|done]. rewrite E in He. done. }
  destruct e as [env b|ns|p|x b].
  - apply Hnext; [|done]. by apply round_role.
  - apply Hnext; [|done]. destruct H as [Hk Hs Ho Hi Hb]. cbn [daemon_event heartbeat mmodify fst]. destruct (role_shm s) as [buf|] eqn:E; split; try done.
    + intros buf' [= <-]. apply write_heartbeat_head. by apply Hb.
    + intros buf'. by rewrite E.
  - apply Hnext; [|done]. destruct H as [Hk Hs Ho Hi Hb]. split; try done. intros q. cbn. unfold fupd. case_decide; [done|]. apply Ho.
  - destruct He as [->|He]; [|discriminate He]. change (fold_left role_step (callbacks_of l) (role_step (Some r) x) = Some r') in Hr.
    destruct (role_step (Some r) x) as [r1|] eqn:Ex; [|by rewrite role_step_none in Hr].
    apply (IH r1); [done|by left|exact Hr|]. destruct r, x as [report|]; try discriminate Ex; injection Ex as <-; [by apply become_master_role|by apply become_standby_role].
Qed.

(** *** The end *)

Lemma all_stopped s : in_state STANDBY STANDBY s ∨ in_state MASTER MASTER s → ∀ p, alive (stop_all_processes [] s).1 p = false.
Proof.
  intros Hs. assert (∃ r t, in_state r t s) as (r & t & H) by (destruct Hs; by eexists _, _). clear Hs.
  destruct (stop_one_role r t PROCESS_KEY_INFERENCE s H) as (s1 & E1 & H1 & A1 & _).
  destruct (stop_one_role r t PROCESS_KEY_MGMT s1 H1) as (s2 & E2 & H2 & A2 & B2).
  destruct (stop_one_role r t PROCESS_KEY_SCHEDULER s2 H2) as (s3 & E3 & H3 & A3 & B3).
  assert (stop_all_processes [] s = (s3, Ret tt)) as E.
  { unfold stop_all_processes, STOP_ORDER. cbn [mfor]. rewrite !(bool_decide_false (_ ∈ [])) by apply not_elem_of_nil.
    rewrite (M_bind_Ret _ _ _ _ _ E1), (M_bind_Ret _ _ _ _ _ E2). by rewrite (M_bind_Ret _ _ _ _ _ E3). }
  rewrite E. intros p. destruct (alive s3 p) eqn:Ep; [|done]. destruct (ir_owned _ _ _ H3 p Ep) as (name & m & Hm & Hin).
  destruct (ir_kinds _ _ _ H3 name m Hm) as [Hn _]. assert (stopped name s3) as Hst.
  { unfold STOP_ORDER in Hn. rewrite !elem_of_cons, elem_of_nil in Hn. destruct Hn as [->|[->|[->|[]]]]; [by apply B3, B2|by apply B3|done]. }
  rewrite (Hst m Hm) in Hin. by apply elem_of_nil in Hin.
Qed.
(** Only heartbeats and deaths. *)
Definition quiet (e : event) : Prop := match e with Beat _ | Dies _ => True | _ => False end.
Lemma quiet_dead em l : ∀ s, Forall quiet l → (∀ p, alive s p = false) → ∀ p, alive (daemon_events em l s) p = false.
Proof.
  induction l as [|e l IH]; intros s Hq Hs; [exact Hs|]. apply Forall_cons in Hq as [Hq Hqs]. cbn [daemon_events fold_left]. apply IH; [done|].
  destruct e; try done; intros q; cbn.
  - destruct (role_shm s); apply Hs.
  - unfold fupd. case_decide; [done|apply Hs].
Qed.

(** A run that was told a role: the starts of its processes are made, and its callbacks, none
    without a standby manager, alternate. *)
Definition told_role (d : DaemonStart) (l : list event) (r : StandbyRole) : Prop :=
  made (births d) ∧ Forall makes l ∧ (enable_master_standby d = true ∨ callbacks_of l = []) ∧ role_after (first_role d) l = Some r.
Lemma running_role d l r : told_role d l r → in_role r (daemon_running d l).
Proof. intros (Hb & Hm & He & Hr). eapply events_role; [done|done|exact Hr|]. by apply started_role. Qed.

(** ** Properties *)

(** The daemon in its role.  While its callbacks alternate and processes can be started, every
    live process is one its managers know, so that a stop finds it; inference workers live
    only in the master; and the probe of the management process reads the role the daemon was
    told, if there is a role memory. *)
Theorem daemon_in_role d l r : told_role d l r →
  let s := daemon_running d l in
  (∀ p, alive s p = true → ∃ name m, dget (process_managers s) name = Some m ∧ p ∈ lists s (processes m) ∧ (r = STANDBY → name ≠ PROCESS_KEY_INFERENCE)) ∧
  (∀ stale now, is_Some (role_shm s) → is_master (read_role_and_heartbeat false stale now (role_shm s)) = bool_decide (r = MASTER)).
Proof.
  intros Ht s. pose proof (running_role d l r Ht) as [Hk Hs Ho Hi Hb]. fold s in Hk, Hs, Ho, Hi, Hb. split.
  - intros p Hp. destruct (Ho p Hp) as (name & m & Hm & Hin). exists name, m. split_and!; [done|done|]. intros Hr ->. rewrite (Hi Hr m Hm) in Hin. by apply elem_of_nil in Hin.
  - intros stale now [buf Hbuf]. rewrite Hbuf. cbn. specialize (Hb buf Hbuf). rewrite Hb. destruct r; reflexivity.
Qed.



(** ** Samples *)

Definition all_live : string → nat → birth := λ _ _, Born true.
Definition sample_start : DaemonStart := mkStart true true 2 true (Some None) 1000 all_live.
(** Scheduler and management are processes 0 and 1, the workers of a master 2 and 3. *)
Definition alive_up_to (n : nat) (s : Daemon) : list nat := List.filter (alive s) (seq 0 n).
Example master_runs_workers : alive_up_to 6 (daemon_running sample_start [Calls (OnBecomeMaster false) all_live; Dies 2]) = [0; 1; 3]%nat.
Proof. vm_compute. reflexivity. Qed.
(** The standby manager is stopped after the processes: a master lock that comes between starts
    workers which nothing stops. *)
Example late_callback : alive_up_to 6 (daemon_run sample_start [] [Calls (OnBecomeMaster false) all_live]) = [2; 3]%nat.
Proof. vm_compute. reflexivity. Qed.
(** Without alternation the workers of a group with a dead one are lost when it is started anew. *)
Example second_master_leaks :
  alive_up_to 8 (daemon_run sample_start [Calls (OnBecomeMaster false) all_live; Dies 2; Calls (OnBecomeMaster false) all_live] []) = [3]%nat.
Proof. vm_compute. reflexivity. Qed.
Lemma sample_told : told_role sample_start [Calls (OnBecomeMaster false) all_live; Dies 2; Calls OnBecomeStandby all_live] STANDBY.
Proof. split_and!; [done|repeat constructor; done|by left|done]. Qed.
(** The second coordinator of [takeover] serves and the first does not. *)
Definition sample_events (i : nat) : list event := map (λ x, Calls x all_live) (calls (managers (cluster_run sample_cluster takeover) i)).
